(* ===== verification/_CoqProject ===== *)
-Q . S2P
Prelude.v
Json.v
Vocab.v
Operations.v
Scheduler.v
Store.v
Jobs.v
Tickets.v
Workers.v
Leases.v
Lifecycle.v
Expiry.v
Acquisition.v
Settlement.v
ControlPlane.v
System.v
Handlers.v
Locators.v
Scans.v
Locations.v
ScanLedger.v
ScanBatches.v
ScanCompletion.v
ScanReconcile.v
ScanSystem.v
ScanSpec.v
ScanRefine.v
Witnesses.v
Bytes.v
PolicySyntax.v
PolicyParser.v
PolicyTrees.v
PolicyGraph.v
Encoders.v
VideoProfiles.v
TrackFilters.v
TrackFilterPrint.v
PolicyCompiled.v
PolicyConditions.v
PolicyProfiles.v
PolicyIdentity.v
PolicyValidate.v
PolicyLower.v
PolicyCompile.v
PolicyComplete.v
PolicyWitnesses.v
PlanModel.v
PlanStreams.v
FilterJson.v
PlanPayload.v
PlanRemux.v
RemuxSelection.v
RemuxWorker.v
RemuxAccepted.v
RemuxDispatch.v
RemuxCorrect.v
RemuxVerified.v
PlanConditions.v
PolicyEligible.v
AudioStreams.v
AudioPayload.v
AudioCompat.v
PlanAudio.v
AudioPlans.v
Probe.v
ProbeLaws.v
PlanVideo.v
VideoArgs.v
VideoWorker.v
VideoLaws.v
VideoAgree.v
Planner.v
PlannerLaws.v
Workflow.v
MediaWitnesses.v
Progress.v
Coordinator.v
ResumeLaws.v
OpeningLaws.v
CoordinatorLaws.v
