(* ===== verification/Prelude.v ===== *)
(** * VOOM: a verification library for the durable core

    VOOM keeps a media library in shape by running jobs on worker processes.
    A control plane owns one SQLite database; workers never touch it. A job is
    split into tickets, tickets wait for each other through a dependency
    graph, a worker holds a ticket through a lease with a deadline, and every
    change is audited by an event appended in the same transaction. What the
    library holds is learnt by scans: a node walks a storage root, reports what
    it saw in numbered batches, and completing the scan retires the known files
    that were not seen. What the library should look like is said in policies,
    texts that the control plane parses, checks and compiles to phases of
    operations. What is known of a file is a snapshot, normalized from what
    [ffprobe] prints of it. A planner expands the phases of a policy, for each
    snapshot, to a plan of nodes - remuxes, audio operations, video transcodes
    - and the control plane turns a plan into a workflow of tickets, which
    workers carry out and check. A coordinator takes the files of a policy job
    through the phases one after the other, with a bounded number of files in
    flight, records what becomes of each file in each phase, and takes up runs
    that were interrupted. This library models all of these, from the
    vocabulary up to the handlers, the coordinator and the workers, and proves
    what keeps them correct under any sequence of commands, for any policy text
    and any snapshot of a file.

    ** Parts of the program and where they are modelled

    - [Prelude]: results, machine-width integers, the transaction monad [Tx]
      (state passing with errors; [atomically] is a transaction or a savepoint
      that is rolled back on [Err], [savepoint] one that is also rolled back on
      some answers), the tactics and the generic lemmas.
    - [Json]: the JSON values the code stores and extracts from.
    - [Vocab]: [voom-core/src/error.rs] and [voom-core/src/taxonomy]: errors,
      failure classes, operation kinds, node and worker enums, each with its
      wire vocabulary (class [Vocabulary]).
    - [Operations]: [voom-core/src/taxonomy/ticket_operation.rs], and
      incarnation identifiers ([ids.rs]).
    - [Scheduler]: [voom-scheduler/src/lib.rs], scoring and least-loaded
      selection.
    - [Store]: the tables of [migrations/0001_schema.sql] the core
      uses as one record [Db] of maps from primary key to row, the constraints
      as checks of the inserts, [voom-store/src/repo/common.rs], and keyset
      paging.
    - [Jobs], [Tickets], [Workers], [Leases]: the repositories of
      [voom-store/src/repo/execution]: [jobs.rs], [tickets.rs], [workers.rs]
      with [scheduler_node_limits.rs] and [accelerator_claims.rs], and
      [leases.rs]. A method [f_in_tx] of the code is the definition [f_in_tx],
      an [M]-computation on [Db]; the method [f] without the suffix wraps it
      in [atomically].
    - [Lifecycle]: the invariant of the whole database and its preservation by
      the lease and ticket operations.
    - [Acquisition], [Settlement], [Expiry]: what each lease operation answers
      and writes on a database that satisfies the invariant.
    - [ControlPlane]: [voom-control-plane/src/cases/execution], the handlers
      that run repository operations, append audit events
      ([repo/audit/events.rs]) and open terminal-failure issues
      ([repo/issues.rs]).
    - [System]: the commands an operator, a worker and the supervisor can send,
      each one transaction, and the reachable databases.
    - [Handlers]: what the handlers do, their events and promotions included.
    - [Witnesses]: one concrete system and one concrete scan on which the
      theorems are applied.
    - [Locators]: [voom-core/src/taxonomy]: [storage.rs], [scan.rs] and
      [scan_evidence.rs], and the [CHECK]s of the schema on the same texts.
    - [Scans]: [voom-store/src/repo/scan/sessions.rs], on the record [ScanDb]
      of the tables it uses, with the two lock queries of
      [repo/media/commit_safety_gate.rs] and
      [repo/media/artifact_commit_intents.rs].
    - [Locations]: the location statements of [repo/media/identity.rs], the
      other writers of [file_locations].
    - [ScanLedger], [ScanBatches], [ScanCompletion], [ScanReconcile]: the
      invariant of the scan tables, and what sessions, batches, the validation
      before completion and completion answer and write.
    - [ScanSystem]: the commands on the scan tables and the databases they
      reach, with the rest of the program as interference.
    - [ScanSpec], [ScanRefine]: the machine the scan tables implement, and the
      simulation.
    - [Bytes]: texts as lists of bytes, with the operations of [str] the code
      uses on them, the UTF-8 predicate, and the lemmas on splitting, trimming,
      joining and printing numbers.
    - [PolicySyntax]: [voom-policy/src/syntax]: [span.rs], [ast.rs], [text.rs],
      and [diagnostic.rs]. [PolicyParser]: [syntax/parser.rs], the recursive
      descent as computations on the cursor and the depth. [PolicyTrees]:
      weakest preconditions of its pieces and of the whole.
    - [PolicyGraph]: the cycle check of [compile/validate.rs] and the ordering
      of [compile/lower/phases.rs], as graph algorithms.
    - [Encoders]: [voom-core/src/media/encoder_caps.rs] and
      [transcode_video_profile.rs]. [VideoProfiles]:
      [voom-store/src/repo/policy/video_profiles.rs] over its table.
    - [TrackFilters], [TrackFilterPrint]: [compile/track_filter.rs], and a
      printer it inverts.
    - [PolicyCompiled]: [compile/compiled.rs]. [PolicyConditions]: the check
      ([validate/conditions.rs]) and the lowering ([lower/conditions.rs]) of
      conditions and how they agree. [PolicyProfiles]: the check and lowering
      of inline profiles, their resolution
      ([voom-control-plane/src/transcode/resolve.rs]) and canonical text
      ([voom-plan/src/planner/transcode_video/profile.rs]). [PolicyIdentity]:
      that the text determines the profile.
    - [PolicyValidate], [PolicyLower]: the rest of [compile/validate] and
      [compile/lower], and [compile/pipeline.rs]. [PolicyCompile],
      [PolicyComplete]: what a compiled policy satisfies, and which valid
      policies compile. [PolicyWitnesses]: concrete policies and profiles.
    - [PlanModel]: the planning input ([voom-policy/src/data/model.rs], made
      from a stored snapshot in [voom-control-plane/src/media_snapshot.rs]),
      plan records ([voom-plan/src/model.rs], [diagnostic.rs]), stable sorting
      and orderings in passes. [FilterJson]: the stored form of filters.
    - [PlanStreams], [PlanPayload], [PlanRemux]: [voom-plan/src/planner/remux]:
      stream facts and track selection ([selection.rs]), the payload of a remux
      node ([payload.rs]), and the resolution of a group of operations
      ([mod.rs]).
    - [RemuxSelection]: [voom-control-plane/src/remux/selection.rs] and the
      messages of [voom-worker-protocol/src/operations/remux.rs].
      [RemuxWorker]: [voom-mkvtoolnix-worker/src/mkvmerge.rs] and [handler.rs].
    - [RemuxAccepted], [RemuxDispatch]: what a selection made by the control
      plane satisfies, with the order of the tracks, and the planner's
      resolution as the control plane reads it. [RemuxCorrect],
      [RemuxVerified]: the theorems.
    - [PlanConditions]: the conditions of [voom-plan/src/planner.rs], with the
      three answers they have on a snapshot, and [eligibility.rs].
      [PolicyEligible]: compiled policies pass it.
    - [AudioStreams], [AudioPayload], [AudioCompat], [PlanAudio]:
      [voom-plan/src/planner/audio]: the streams a filter selects and the
      agreement of the two evaluators of filters ([selection.rs]), payloads
      ([payload.rs]), companions of incompatible streams ([compatibility.rs]),
      the nodes ([mod.rs]). [AudioPlans]: the theorems.
    - [Probe], [ProbeLaws]: [voom-ffprobe-worker/src/normalize.rs] and
      [voom-worker-protocol/src/audio_facts.rs].
    - [PlanVideo]: [voom-plan/src/planner/transcode_video]. [VideoArgs],
      [VideoWorker]: the video part of [voom-ffmpeg-worker/src]: the arguments
      and readings of [ffmpeg.rs] and [ffmpeg/cover_art.rs], the host the worker
      runs on (class [MediaHost]) and [handler.rs]. [VideoLaws], [VideoAgree]:
      what the worker promises, and the planner and the worker on one probe.
    - [Planner], [PlannerLaws]: the expansion of a policy in
      [voom-plan/src/planner.rs], over the input sets of
      [voom-policy/src/data/model.rs], and the invariant of its builder.
    - [Workflow]: [voom-control-plane/src/workflow/plan] and
      [execution/timing.rs]: the workflow made of a plan and its validation.
    - [Progress]: [voom-store/src/repo/execution/workflow_progress.rs] and the
      file part of [workflow_summaries.rs], over the record [WorkflowDb] that
      holds the core database and the tables of the coordinator.
    - [Coordinator]: [voom-control-plane/src/workflow/coordinator]: gates and
      plans of a phase ([planning.rs], [mod.rs]), its outcome ([finalize.rs]),
      taking up a run ([resume.rs]), opening jobs, and the runs, a step relation
      in which the pipelines of files interleave, fail and are lost.
      [ResumeLaws]: what is recorded of one file and what a resume makes of it.
      [OpeningLaws]: all the records, and the opening of jobs.
      [CoordinatorLaws]: runs, the theorems and a concrete run.
    - [MediaWitnesses]: concrete files, plans, workflows and machines.

    ** How the code is represented

    A row is a record of its columns. An enum column is the enum, since the
    [Vocabulary] laws make the text and the enum interchangeable; a timestamp
    column stays the text the code writes, because the SQL compares that text.
    An [UPDATE .. WHERE .. RETURNING] is a guarded map update that says whether
    it matched; a [SELECT] is a filter over the sorted rows with the statement's
    order and limit. Ids and counters are [Z]; a conversion that the code
    checks ([i64::try_from], [u32::try_from]) is checked in the model and its
    failure is the code's error. Instants and durations are nanoseconds.
    Errors are the variants of [VoomError] with the data the code reads back,
    without their message text. A random draw is an argument of the operation
    that draws it.

    Parameters stand for code the repository does not contain. [Iso8601] is the
    formatter and parser of the [time] crate; [Iso8601Laws] says that the text
    parses back to the instant and that texts compare the way instants do,
    which is what the fixed-width UTC format the code configures gives.
    [SqliteCast] is SQLite's [CAST(.. AS INTEGER)] and has no law.
    [EvidenceCodec] is [serde_json] on scan evidence, and its law that what is
    written reads back. [source_hash] and [blake3_hex] are the BLAKE3 digests
    of a policy source and of a canonical profile text, arbitrary functions.
    [Blake3Hex] is the digest in the identifiers of plans. [DurationMillis] is
    the floating-point reading of a duration, [F64Reading] that of a text or a
    JSON number, [UnicodeLowercase] the lower case of characters beyond ASCII,
    [SerializedSize] the length of an input set as JSON and [FingerprintText] the
    printing of JSON values and quoted strings in track fingerprints, arbitrary
    functions too. [MediaHost] is the machine of a media worker: its files, the
    programs it runs and their output, with no law. What a remux run observes of files
    and of [mkvmerge] is the record [RemuxRun]; that [mkvmerge] identifies the
    streams a snapshot lists is the hypothesis [identifies] of the theorems
    that need it; that [ffprobe] prints streams as it does is [ffprobe_stream].
    What the tickets of a phase show of a file - a commit, a verification, or
    nothing - is an argument of the coordinator's operations
    ([PhaseEvidence], [TicketLookup]); that no ticket shows a verification in a
    phase that was never dispatched is the hypothesis [shows_entered_phases].
    The witness files instantiate them.

    A Rust string is a list of bytes and a position in it a byte offset, as in
    the code; slicing is checked by theorems on spans rather than by a panic in
    the model, since the parser only cuts where a character begins
    ([PolicyTrees]). A [BTreeMap] or [BTreeSet] that is only looked up is a
    [gmap] or [gset].

    ** What the theorems show

    - Lifecycle ([System.reachable_lifecycle]): in every reachable database a
      leased ticket has exactly one held lease and a held lease a leased
      ticket, attempts stay within the limit, ready tickets have their
      dependencies satisfied, and the dependency graph has no cycle. The schema
      does not enforce any of this: it follows from the guards of the
      statements. [System.dispatches_within_budget] counts leases against
      attempts, and [System.history_monotone] says that no command rewrites
      settled history.
    - Acquisition: when a lease is granted, and what a refusal says; that the
      limits on parallelism hold; that a ready ticket and a free eligible
      worker always meet.
    - Expiry: a batch takes exactly the due leases, oldest first, up to
      [LEASE_BATCH_LIMIT], and repeated batches leave none.
    - Settlement and handlers: release, failure, force-release and heartbeat
      on every branch, with the events, the promotions of waiting tickets and
      the issue that a terminal failure opens; a refusal changes nothing.
    - Tickets: the ready queue is complete and ordered; the readiness gate;
      the cycle check answers reachability, so the graph stays acyclic; the
      backoff window.
    - Scheduler: the scorer picks the best admissible candidate whatever the
      order of its input, explains every candidate, and stays within its
      bounds; the least-loaded choice is minimal.
    - Scans ([ScanRefine.scan_refinement]): whatever commands run, the scan
      tables stay sound and behave as a machine whose traversals are plain
      lists of batches: the counters, predecessor links, ordinals and row
      numbers of the tables are always consistent with those lists.
      [ScanRefine.scan_history]: batches are only appended and an ended scan is
      final. [ScanRefine.batch_refinement] and [ScanRefine.batch_retry]: how a
      batch is answered, and that retrying one is harmless at any later time.
      [ScanReconcile.complete_outcome]: completion retires exactly the live
      locations of the root that existed at the start and were not seen, never
      one an in-flight commit covers, and the validation before it never
      refuses a database the commands can reach.
    - Policies: the parser answers for every text, with a tree cut from it or
      one located error ([PolicyTrees.parse_policy_total]); compiled phases are
      in an order in which dependencies and gates come first
      ([PolicyCompile.compiled_phases_ordered]); what validates compiles, but
      for the exceptions the theorem lists
      ([PolicyComplete.validated_policy_compiles]); conditions are lowered to
      their reading ([PolicyConditions.condition_lowering]); filters print and
      parse back.
    - Profiles: the registry only holds profiles their encoder accepts
      ([VideoProfiles.registry_sound]), creation is answered completely, the
      compiler and the resolver agree on inline profiles up to two checks, and
      an identity stands for one profile.
    - Remuxes: what the planner resolves is what the worker runs, but for a
      remux that would leave no audio ([RemuxCorrect.remux_plan_runs]); a plan
      that changes nothing changes nothing ([RemuxCorrect.remux_noop_preserves]);
      the worker accepts every selection the control plane makes
      ([RemuxCorrect.remux_selection_accepted]) and reports only outputs it has
      compared with it track by track ([RemuxVerified.remux_result_checked]);
      the payload in between reads back
      ([PlanPayload.remux_payload_roundtrip]).
    - Eligibility and audio: a policy that compiles is eligible for planning
      ([PolicyEligible.compiled_policy_eligible]); a planned audio node is
      accepted by its executor ([AudioPlans.audio_plan_accepted]), adding a
      companion makes the file one for which nothing is planned
      ([AudioPlans.compatibility_converges]), and the two evaluators of filters
      agree ([AudioStreams.audio_selection_agrees]).
    - Probes and video: every failure of a probe is classified
      ([ProbeLaws.probe_classified]); a transcode that succeeds has established
      what it reports of its files ([VideoLaws.transcode_verified]); a planned
      transcode passes the worker's own checks
      ([VideoAgree.planned_transcode_starts]) and, once done, is not planned
      again ([VideoAgree.transcode_converges]), but for a level that is never
      met ([VideoAgree.level_never_met]).
    - Plans and workflows: every blocked node of a plan has its diagnostic and
      every error its node ([PlannerLaws.plan_accounted]); the workflow of a
      plan is valid and runs its phases in order
      ([Workflow.plan_runs_as_workflow]), and validation is exact
      ([Workflow.workflow_valid_iff]).
    - The coordinator: in every run the files in flight stay within the window
      of their job ([CoordinatorLaws.window_respected]) and admission is exact
      ([Progress.admission_exact]); the gate of every phase of a compiled policy
      can be evaluated ([CoordinatorLaws.gates_evaluate]) and decides with the
      plan what a phase does to each file
      ([CoordinatorLaws.phase_dispositions]); the records a run
      leaves, wherever it stops, pass the checks of a resume
      ([CoordinatorLaws.resume_accepts]), which loses no outcome
      ([CoordinatorLaws.resume_inherits]), except where a file waits though it
      has no phase left, which is refused for good
      ([CoordinatorLaws.waiting_at_end_refused]).
    - Encodings: locators are checked alike by the code and the schema;
      incarnation ids, failure codes and operation tokens round
      trip; keyset paging visits every row once.

    ** Bounds and fuel

    [reach_rounds], the recursive query of the cycle check, runs for as many
    rounds as there are edges and is proved to be the transitive closure.
    [chunks_fuel] and [blank_fuel] take the length of their input, which
    strictly decreases. [keyset_walk] has its fuel as an argument; the theorem
    on it asks for as many pages as matching rows plus one and gives the whole
    result. [paged_fold], the keyset loops of completion, takes one more page
    than there are rows and is proved to fold every row, whatever the page
    size. The parser's loops run for [rounds], two more than the length of the
    source, and its recursion for [levels], two more than the nesting limit;
    [parse_policy_total] shows that neither is ever exhausted. Cycle search and
    ordering take one more level than there are phases ([graph_fuel]), and the
    theorems on them cover every graph. A condition is checked and lowered with
    the length of its text plus one, which [condition_fuel_enough] shows is
    enough: where the lowering has no result the recursion of the code does not
    end. The names of extracted files are made unique in [name_rounds], one more
    round than there are outputs, which always is enough; a program whose file is
    busy is tried again up to four times, as in the code. A workflow is
    searched for cycles with the fuel of the policy graph. A stored filter is
    read with the depth of its JSON value ([filter_value_roundtrip]). The fuels of [strip_groups], [trim_prefixes] and
    [token_list_from] are lengths of texts that strictly decrease.
    SQLite row ids and row epochs are unbounded in the model: the code
    would need 2^63 rows or updates to reach their end. The theorems that
    need ids to fit say so ([rowids_fit], [representable]). Adding a duration to an instant at
    the end of the calendar panics in the code; the formatter, a partial
    function, is where the model stops there.

    ** What is not modelled

    SQLite's I/O errors and locking: a transaction runs alone, as the
    single-writer pool makes it. Message texts, tracing and serde glue.
    The handlers of [expire_due] and [heartbeat] in the control plane also
    update scan sessions and audio claims: the repository operations they call
    are modelled, the handlers are not. Of the policy crate, the decoding of
    stored compiled policies and the fixture formats. Of the planner, the
    plan's own identifier and hash, messages and warnings, and the compliance
    reports. Of the workers, the audio part of the [ffmpeg] worker, hashing
    files, starting processes and the framing of progress. Of the coordinator, the
    lookups of tickets and commits (arguments of the model), the summaries of
    whole phases, the inspection of runs and the dispatch of a workflow's
    tickets to workers. Remote execution, node incarnations, the scan handlers,
    the commit pipeline, the identity and audio repositories and the worker
    protocol are not modelled: they are the next parts to add, in this order:
    the dispatch of workflows, node incarnations and the scan handlers (with
    which the remaining handlers can be completed and every failed ticket shown
    to have its issue), then the commit pipeline with its safety gate and use
    leases. The other worker processes, the CLI and the HTTP
    routes are I/O around external tools and glue. *)

From Stdlib Require Import ZArith Lia Bool.
From stdpp Require Import base gmap strings list sorting.

Open Scope Z_scope.

(** ** Results *)

(** [Result<A, E>] of the source. *)
Inductive result (E A : Type) : Type :=
  | Ok (a : A)
  | Err (e : E).
Arguments Ok {E A} a.
Arguments Err {E A} e.

#[global] Instance result_eq_dec {E A} `{EqDecision E} `{EqDecision A} :
  EqDecision (result E A).
Proof. solve_decision. Defined.

#[global] Instance result_mret {E} : MRet (result E) := fun A a => Ok a.
#[global] Instance result_mbind {E} : MBind (result E) := fun A B f m =>
  match m with Ok a => f a | Err e => Err e end.
#[global] Instance result_fmap {E} : FMap (result E) := fun A B f m =>
  match m with Ok a => Ok (f a) | Err e => Err e end.

(** [Option::ok_or]. *)
Definition ok_or {E A} (o : option A) (e : E) : result E A :=
  match o with Some a => Ok a | None => Err e end.

(** [Option<Result<A, E>>::transpose]. *)
Definition transpose {E A} (o : option (result E A)) : result E (option A) :=
  match o with
  | None => Ok None
  | Some (Ok a) => Ok (Some a)
  | Some (Err e) => Err e
  end.

(** [iter().map(f).collect::<Result<Vec<_>, _>>()]: stops at the first error. *)
Fixpoint collect {E A B} (f : A -> result E B) (l : list A) : result E (list B) :=
  match l with
  | [] => Ok []
  | x :: l' => y ← f x; ys ← collect f l'; Ok (y :: ys)
  end.

Definition is_ok {E A} (r : result E A) : bool :=
  match r with Ok _ => true | Err _ => false end.
Definition is_some {A} (o : option A) : bool := match o with Some _ => true | None => false end.
Definition is_none {A} (o : option A) : bool := match o with Some _ => false | None => true end.
Lemma is_some_not_none {A} (o : option A) : is_some o = negb (is_none o).
Proof. by destruct o. Qed.

(** ** Transactions *)

(** A computation inside an open transaction: it returns a result and the
    state of the database as the transaction sees it. An error keeps the
    writes made before it, as a statement error inside an open transaction
    does; only [atomically] and [savepoint] undo them. *)
Definition Tx (S E A : Type) : Type := S -> result E A * S.

#[global] Instance tx_mret {S E} : MRet (Tx S E) := fun A a s => (Ok a, s).
#[global] Instance tx_mbind {S E} : MBind (Tx S E) := fun A B f m s =>
  match m s with
  | (Ok a, s') => f a s'
  | (Err e, s') => (Err e, s')
  end.

Section tx.
Context {S E : Type}.

Definition throw {A} (e : E) : Tx S E A := fun s => (Err e, s).
Definition lift {A} (r : result E A) : Tx S E A := fun s => (r, s).
Definition gets {A} (f : S -> A) : Tx S E A := fun s => (Ok (f s), s).
Definition getsR {A} (f : S -> result E A) : Tx S E A := fun s => (f s, s).
Definition modify (f : S -> S) : Tx S E unit := fun s => (Ok tt, f s).

(** A pool-level transaction: commit on [Ok], roll back when the error
    propagates through [?] and the transaction handle is dropped. *)
Definition atomically {A} (m : Tx S E A) : Tx S E A := fun s =>
  match m s with
  | (Ok a, s') => (Ok a, s')
  | (Err e, _) => (Err e, s)
  end.

(** A nested transaction that is released when [keep] accepts the outcome
    and rolled back otherwise, also on an error. *)
Definition savepoint {A} (keep : A -> bool) (m : Tx S E A) : Tx S E A := fun s =>
  match m s with
  | (Ok a, s') => if keep a then (Ok a, s') else (Ok a, s)
  | (Err e, _) => (Err e, s)
  end.

(** [for x in l { f(x).await?; }] *)
Fixpoint for_each {A} (f : A -> Tx S E unit) (l : list A) : Tx S E unit :=
  match l with
  | [] => mret tt
  | x :: l' => _ ← f x; for_each f l'
  end.

(** The same loop with an accumulator. *)
Fixpoint fold_tx {A B} (f : B -> A -> Tx S E B) (b : B) (l : list A) : Tx S E B :=
  match l with
  | [] => mret b
  | x :: l' => b' ← f b x; fold_tx f b' l'
  end.

(** [P] survives every successful run of [m]. *)
Definition preserves (P : S -> Prop) {A} (m : Tx S E A) : Prop :=
  forall s a s', P s -> m s = (Ok a, s') -> P s'.
End tx.

Lemma tx_bind_ok {S E A B} (m : Tx S E A) (f : A -> Tx S E B) s b s'' :
  (m ≫= f) s = (Ok b, s'') <->
  exists a s', m s = (Ok a, s') /\ f a s' = (Ok b, s'').
Proof.
  unfold mbind, tx_mbind. destruct (m s) as [[a|e] s'] eqn:Hm.
  - split; [eauto|]. intros (a' & s1 & [= <- <-] & H); exact H.
  - split; [discriminate|]. intros (a' & s1 & [=] & _).
Qed.

Lemma result_bind_ok {E A B} (m : result E A) (f : A -> result E B) b :
  (m ≫= f) = Ok b <-> exists a, m = Ok a /\ f a = Ok b.
Proof.
  destruct m as [a|e]; cbn; split.
  - eauto.
  - intros (a' & [= <-] & H); exact H.
  - discriminate.
  - intros (a' & [=] & _).
Qed.

Lemma lift_ok {S E A} (r : result E A) (s : S) a s' :
  lift r s = (Ok a, s') <-> r = Ok a /\ s' = s.
Proof. unfold lift. split; [intros [= -> ->]; auto | intros [-> ->]; auto]. Qed.

Lemma getsR_ok {S E A} (f : S -> result E A) (s : S) a s' :
  getsR f s = (Ok a, s') <-> f s = Ok a /\ s' = s.
Proof. unfold getsR. split; [intros [= -> ->]; auto | intros [-> ->]; auto]. Qed.

Lemma ok_or_ok {E A} (o : option A) (e : E) a : ok_or o e = Ok a <-> o = Some a.
Proof. destruct o; cbn; split; congruence. Qed.

Lemma atomically_ok {S E A} (m : Tx S E A) s a s' :
  atomically m s = (Ok a, s') <-> m s = (Ok a, s').
Proof. unfold atomically. destruct (m s) as [[?|?] ?]; split; congruence. Qed.

Lemma atomically_err {S E A} (m : Tx S E A) s e s' :
  atomically m s = (Err e, s') -> s' = s.
Proof. unfold atomically. destruct (m s) as [[?|?] ?]; congruence. Qed.

(** A transaction either commits the writes of a successful run or leaves the
    database as it found it. *)
Lemma atomically_cases {S E A} (m : Tx S E A) s r s' :
  atomically m s = (r, s') -> (exists a, r = Ok a /\ m s = (Ok a, s')) \/ s' = s.
Proof.
  destruct r as [a|e]; intros H.
  - left. exists a. split; [done|]. by apply atomically_ok.
  - right. by eapply atomically_err.
Qed.

Lemma atomically_preserves {S E A} (P : S -> Prop) (m : Tx S E A) :
  preserves P m -> forall s r s', P s -> atomically m s = (r, s') -> P s'.
Proof.
  intros Hm s r s' HP H. apply atomically_cases in H as [(a & -> & H)| ->]; eauto.
Qed.

Lemma savepoint_cases {S E A} (keep : A -> bool) (m : Tx S E A) s r s' :
  savepoint keep m s = (r, s') ->
  (exists a, r = Ok a /\ keep a = true /\ m s = (Ok a, s')) \/ s' = s.
Proof.
  unfold savepoint. destruct (m s) as [[a|e] s1].
  - destruct (keep a) eqn:?; intros [= <- <-]; eauto 6.
  - intros [= <- <-]; auto.
Qed.

Lemma savepoint_ok {S E A} (keep : A -> bool) (m : Tx S E A) s a s' :
  savepoint keep m s = (Ok a, s') ->
  exists s1, m s = (Ok a, s1) /\ s' = if keep a then s1 else s.
Proof.
  unfold savepoint. destruct (m s) as [[a1|e] s1]; [|discriminate].
  destruct (keep a1) eqn:Hk; intros [= <- <-]; rewrite Hk; eauto.
Qed.

(** Composition of invariants. *)
Lemma preserves_bind {S E A B} (P : S -> Prop) (m : Tx S E A) (f : A -> Tx S E B) :
  preserves P m -> (forall a, preserves P (f a)) -> preserves P (m ≫= f).
Proof.
  intros Hm Hf s b s'' HP H. apply tx_bind_ok in H as (a & s1 & H1 & H2).
  eapply Hf; [|exact H2]. eauto.
Qed.

Lemma preserves_for_each {S E A} (P : S -> Prop) (f : A -> Tx S E unit) l :
  (forall x, preserves P (f x)) -> preserves P (for_each f l).
Proof.
  intros Hf. induction l as [|x l IH]; intros s a s' HP H; cbn in H.
  - by injection H as ? <-.
  - refine (preserves_bind P (f x) (fun _ => for_each f l) (Hf x) _ s a s' HP H).
    intros _; exact IH.
Qed.

Lemma preserves_fold_tx {S E A B} (P : S -> Prop) (f : B -> A -> Tx S E B) b l :
  (forall b x, preserves P (f b x)) -> preserves P (fold_tx f b l).
Proof.
  intros Hf. revert b; induction l as [|x l IH]; intros b s a s' HP H; cbn in H.
  - by injection H as ? <-.
  - refine (preserves_bind P (f b x) (fun b' => fold_tx f b' l) (Hf b x) _ s a s' HP H).
    intros b'; apply IH.
Qed.

Lemma preserves_pure {S E A} (P : S -> Prop) (m : Tx S E A) :
  (forall s r s', m s = (r, s') -> s' = s) -> preserves P m.
Proof. intros Hm s a s' HP H. by rewrite (Hm _ _ _ H). Qed.

Lemma collect_ok {E A B} (f : A -> result E B) l ys :
  collect f l = Ok ys <-> Forall2 (fun x y => f x = Ok y) l ys.
Proof.
  revert ys; induction l as [|x l IH]; intros ys; cbn.
  - split; [intros [= <-]; constructor|by inversion 1].
  - rewrite result_bind_ok. split.
    + intros (y & Hy & (zs & Hzs & [= <-])%result_bind_ok). constructor; [done|by apply IH].
    + inversion 1 as [|? y ? zs Hy Hzs]; subst. exists y. split; [done|].
      apply IH in Hzs. by rewrite Hzs.
Qed.

Lemma collect_total {E A B} (f : A -> result E B) l :
  (forall x, In x l -> exists y, f x = Ok y) -> exists ys, collect f l = Ok ys.
Proof.
  induction l as [|x l IH]; intros Hf; cbn; [eauto|].
  destruct (Hf x) as [y ->]; [by left|]. destruct IH as [ys ->]; [|cbn; eauto].
  intros z Hz. apply Hf. by right.
Qed.

(** A computation that only reads. *)
Definition tx_reads {S E A} (m : Tx S E A) : Prop := forall s r s', m s = (r, s') -> s' = s.

Lemma reads_ret {S E A} (a : A) : tx_reads (mret a : Tx S E A).
Proof. by intros s r s' [= _ <-]. Qed.
Lemma reads_throw {S E A} (e : E) : tx_reads (throw e : Tx S E A).
Proof. by intros s r s' [= _ <-]. Qed.
Lemma reads_lift {S E A} (x : result E A) : tx_reads (lift x : Tx S E A).
Proof. by intros s r s' [= _ <-]. Qed.
Lemma reads_gets {S E A} (f : S -> A) : tx_reads (gets f : Tx S E A).
Proof. by intros s r s' [= _ <-]. Qed.
Lemma reads_getsR {S E A} (f : S -> result E A) : tx_reads (getsR f).
Proof. by intros s r s' [= _ <-]. Qed.
Lemma reads_bind {S E A B} (m : Tx S E A) (f : A -> Tx S E B) :
  tx_reads m -> (forall a, tx_reads (f a)) -> tx_reads (m ≫= f).
Proof.
  intros Hm Hf s r s'. unfold mbind, tx_mbind. destruct (m s) as [[a|e] s1] eqn:Ems.
  - apply Hm in Ems as ->. apply Hf.
  - apply Hm in Ems as ->. by intros [= _ <-].
Qed.
Lemma reads_if {S E A} (b : bool) (m1 m2 : Tx S E A) :
  tx_reads m1 -> tx_reads m2 -> tx_reads (if b then m1 else m2).
Proof. by destruct b. Qed.
Lemma reads_option {S E A B} (o : option B) (m1 : B -> Tx S E A) (m2 : Tx S E A) :
  (forall b, tx_reads (m1 b)) -> tx_reads m2 ->
  tx_reads (match o with Some b => m1 b | None => m2 end).
Proof. by destruct o. Qed.

(** ** Decomposing runs *)

(** [tx_inv] turns a successful run of a composed transaction into the runs
    of its parts. *)
Ltac inject_sym1 H := let E := fresh in injection H as E; try symmetry in E.
Ltac inject_sym2 H :=
  let E1 := fresh in let E2 := fresh in
  first [injection H as E1 E2; try symmetry in E1; try symmetry in E2
        |injection H as E2; try symmetry in E2].
Ltac tx_inv_step :=
  match goal with
  | u : unit |- _ => destruct u
  | H : mbind _ _ _ = (Ok _, _) |- _ =>
      apply tx_bind_ok in H as (? & ? & ? & ?)
  | H : mbind _ _ = Ok _ |- _ => apply result_bind_ok in H as (? & ? & ?)
  | H : mret _ _ = (Ok _, _) |- _ => inject_sym2 H
  | H : mret _ = Ok _ |- _ => inject_sym1 H
  | H : throw _ _ = (Ok _, _) |- _ => discriminate H
  | H : lift _ _ = (Ok _, _) |- _ => apply lift_ok in H as [? ?]
  | H : getsR _ _ = (Ok _, _) |- _ => apply getsR_ok in H as [? ?]
  | H : gets _ _ = (Ok _, _) |- _ => inject_sym2 H
  | H : modify _ _ = (Ok _, _) |- _ => inject_sym2 H
  | H : ok_or _ _ = Ok _ |- _ => apply ok_or_ok in H
  | H : atomically _ _ = (Ok _, _) |- _ => apply (proj1 (atomically_ok _ _ _ _)) in H
  | H : Err _ = Ok _ |- _ => discriminate H
  | H : (Err _, _) = (Ok _, _) |- _ => discriminate H
  | H : Ok _ = Ok _ |- _ => inject_sym1 H
  | H : (Ok _, _) = (Ok _, _) |- _ => inject_sym2 H
  end.
Ltac tx_inv := repeat (tx_inv_step; subst); subst.

(** ** Machine integers *)

Definition u32_max : Z := 4294967295.
Definition i64_max : Z := 9223372036854775807.
Definition i64_min : Z := -9223372036854775808.
Definition u64_max : Z := 18446744073709551615.
Definition u128_max : Z := 340282366920938463463374607431768211455.

Definition is_u32 (z : Z) : bool := (0 <=? z) && (z <=? u32_max).
Definition is_u64 (z : Z) : bool := (0 <=? z) && (z <=? u64_max).
Definition is_i64 (z : Z) : bool := (i64_min <=? z) && (z <=? i64_max).

(** [u32::saturating_sub], [u64::saturating_mul], [u128::saturating_{add,mul}]. *)
Definition u_saturating_sub (a b : Z) : Z := Z.max 0 (a - b).
Definition u64_saturating_mul (a b : Z) : Z := Z.min u64_max (a * b).
Definition u128_saturating_add (a b : Z) : Z := Z.min u128_max (a + b).
Definition u128_saturating_mul (a b : Z) : Z := Z.min u128_max (a * b).

(** [1u64.checked_shl(n)]: the value wraps to the width, [None] from 64 on. *)
Definition u64_checked_shl (a n : Z) : option Z :=
  if n <? 64 then Some (Z.land (Z.shiftl a n) u64_max) else None.

Create HintDb voom.
#[export] Hint Resolve reads_ret reads_throw reads_lift reads_gets reads_getsR reads_bind
  reads_if reads_option : voom.
#[export] Hint Resolve preserves_bind preserves_for_each preserves_fold_tx : voom.

(** ** Strings *)

(** [str::strip_prefix]. *)
Fixpoint str_strip_prefix (p s : string) : option string :=
  match p, s with
  | EmptyString, _ => Some s
  | String a p', String b s' => if Ascii.eqb a b then str_strip_prefix p' s' else None
  | String _ _, EmptyString => None
  end.

Lemma str_strip_prefix_spec p s r : str_strip_prefix p s = Some r <-> s = String.append p r.
Proof.
  revert s; induction p as [|a p IH]; intros s.
  { change (Some s = Some r <-> s = r). split; congruence. }
  change (String.append (String a p) r) with (String a (String.append p r)).
  destruct s as [|b s]; cbn; [split; discriminate|].
  destruct (Ascii.eqb_spec a b) as [->|Hne].
  - rewrite IH. split; congruence.
  - split; [discriminate|congruence].
Qed.

(** [u8::is_ascii_alphanumeric] and [char::is_ascii_whitespace]-style byte tests. *)
Definition byte_in (lo hi : nat) (c : Ascii.ascii) : bool :=
  (lo <=? Ascii.nat_of_ascii c)%nat && (Ascii.nat_of_ascii c <=? hi)%nat.

Definition is_ascii_alphanumeric (c : Ascii.ascii) : bool :=
  byte_in 48 57 c || byte_in 65 90 c || byte_in 97 122 c.

Fixpoint string_all (f : Ascii.ascii -> bool) (s : string) : bool :=
  match s with EmptyString => true | String c s' => f c && string_all f s' end.

Lemma string_all_app f s t :
  string_all f (String.append s t) = string_all f s && string_all f t.
Proof.
  induction s as [|c s IH]; [done|].
  change (String.append (String c s) t) with (String c (String.append s t)).
  cbn. by rewrite IH, andb_assoc.
Qed.

Lemma existsb_perm {A} (f : A -> bool) l l' : l ≡ₚ l' -> existsb f l = existsb f l'.
Proof. induction 1; cbn; [done| |by destruct (f _), (f _)|congruence]. by f_equal. Qed.
