(* ===== verification/Json.v ===== *)
(** * JSON values

    The part of [serde_json::Value] the modelled code builds and reads:
    objects keep their members as an association list, numbers are the
    integers the code writes plus an opaque float. [json_extract] is the
    SQLite function the ticket queries apply to a stored payload, for the
    member paths they use. *)

From S2P Require Import Prelude.
From Stdlib Require Import ZArith Bool.
From stdpp Require Import base strings list.

Unset Elimination Schemes.
Inductive Json : Type :=
  | JNull
  | JBool (b : bool)
  | JInt (n : Z)
  | JFloat (text : string)
  | JStr (s : string)
  | JArr (l : list Json)
  | JObj (members : list (string * Json)).
Set Elimination Schemes.

(** [Value::get(key)] on an object. *)
Fixpoint assoc_str {A} (k : string) (l : list (string * A)) : option A :=
  match l with
  | [] => None
  | (k', v) :: l' => if String.eqb k k' then Some v else assoc_str k l'
  end.

Definition json_get (j : Json) (k : string) : option Json :=
  match j with JObj ms => assoc_str k ms | _ => None end.

Definition json_as_array (j : Json) : option (list Json) :=
  match j with JArr l => Some l | _ => None end.

Definition json_as_str (j : Json) : option string :=
  match j with JStr s => Some s | _ => None end.

(** [Value::as_u64]. *)
Definition json_as_u64 (j : Json) : option Z :=
  match j with JInt n => if is_u64 n then Some n else None | _ => None end.

(** [json_extract(j, '$.k1.k2...')]: SQL [NULL] when a member is missing or
    is JSON null. *)
Fixpoint json_path (j : Json) (path : list string) : option Json :=
  match path with
  | [] => Some j
  | k :: path' => j' ← json_get j k; json_path j' path'
  end.

Definition json_extract (j : Json) (path : list string) : option Json :=
  match json_path j path with
  | Some JNull | None => None
  | Some v => Some v
  end.

(** [json_extract(j, path) = 'text'] in a [WHERE] clause. *)
Definition json_text_is (j : Json) (path : list string) (s : string) : bool :=
  match json_extract j path with
  | Some (JStr s') => String.eqb s' s
  | _ => false
  end.

(** [json_extract(j, path) = n] in a [WHERE] clause; JSON booleans come out
    of [json_extract] as 0 and 1. *)
Definition json_int_is (j : Json) (path : list string) (n : Z) : bool :=
  match json_extract j path with
  | Some (JInt n') => Z.eqb n' n
  | Some (JBool b) => Z.eqb (Z.b2z b) n
  | _ => false
  end.

Lemma json_text_is_spec j path s :
  json_text_is j path s = true <-> json_path j path = Some (JStr s).
Proof.
  unfold json_text_is, json_extract.
  destruct (json_path j path) as [[| | | |s'| |]|]; try (split; congruence).
  rewrite String.eqb_eq. split; congruence.
Qed.
