(* ===== verification/Vocab.v ===== *)
(** * The shared vocabulary of [voom-core]

    Error codes and errors ([error.rs]), issue severity and priority
    ([taxonomy/issue.rs]), the failure taxonomy ([taxonomy/failure.rs]), the
    operation vocabulary ([taxonomy/operation_kind.rs]), artifact access modes
    and the node and worker lifecycle enums ([taxonomy/execution_vocab.rs]).
    Each enum that has a wire form is an instance of [Vocabulary]: its
    [as_str] and [from_wire] are inverse, which is what lets the store keep a
    text column and the model keep the enum. *)

From S2P Require Import Prelude Json.
From Stdlib Require Import ZArith Bool.
From stdpp Require Import base strings list.

Open Scope string_scope.

(** ** Wire vocabularies *)

(** [ALL.iter().copied().find(|k| k.as_str() == value)] *)
Definition wire_find {A} (as_str : A -> string) (all : list A) (value : string) : option A :=
  List.find (fun k => String.eqb (as_str k) value) all.

(** What a stored enum column relies on: writing a value and reading it back
    gives the value, and only written text is read. *)
Class Vocabulary (A : Type) := {
  as_str : A -> string;
  from_wire : string -> option A;
  from_wire_as_str : forall a, from_wire (as_str a) = Some a;
  as_str_from_wire : forall s a, from_wire s = Some a -> as_str a = s;
}.

Lemma as_str_inj `{Vocabulary A} (a b : A) : as_str a = as_str b -> a = b.
Proof.
  intros Hab. apply (f_equal from_wire) in Hab.
  rewrite !from_wire_as_str in Hab. congruence.
Qed.

Lemma wire_find_sound {A} (f : A -> string) all s a :
  wire_find f all s = Some a -> f a = s.
Proof. intros H. apply List.find_some in H as [_ H]. by apply String.eqb_eq. Qed.

Lemma assoc_str_in {A} (s : string) (l : list (string * A)) a :
  assoc_str s l = Some a -> In (s, a) l.
Proof.
  induction l as [|[k v] l IH]; cbn; [discriminate|].
  destruct (String.eqb_spec s k) as [->|]; [intros [= ->]; auto | auto].
Qed.

(** Closes the two laws of a finite vocabulary by computation. *)
Ltac solve_vocabulary :=
  first
    [ let a := fresh in intros a; destruct a; vm_compute; reflexivity
    | let s := fresh in let a := fresh in let H := fresh in
      intros s a H; first [ apply (wire_find_sound _ _ _ _ H) |
        apply assoc_str_in in H; cbn in H;
        repeat (destruct H as [[= <- <-]|H]; [reflexivity|]); contradiction ] ].

(** [error.rs]: the stable wire codes. *)
Inductive ErrorCode : Type :=
  | EC_DbUnreachable | EC_DbUninitialized | EC_DbPartialSchema | EC_DbDirtyMigration
  | EC_DbSchemaTooNew | EC_ConfigInvalid | EC_NotFound | EC_Internal | EC_BadArgs
  | EC_DependencyCycle | EC_Conflict | EC_Unauthorized | EC_RequestTimeout
  | EC_PayloadTooLarge | EC_BlockedByUseLease | EC_BlockedByPendingCommit
  | EC_BlockedByClosureGrew | EC_StaleIdentityEvidence | EC_ClosureResolutionIncomplete
  | EC_WorkerTimeout | EC_WorkerCrash | EC_NoEligibleWorker | EC_ArtifactUnavailable
  | EC_ArtifactChecksumMismatch | EC_ExternalSystemUnavailable
  | EC_ExternalSystemRateLimited | EC_VerificationFailure | EC_BackupFailure
  | EC_CommitFailure | EC_PolicyParseError | EC_PolicyValidationError
  | EC_PlanGenerationError | EC_ComplianceReportError | EC_PolicyExecutionError
  | EC_MissingCapability | EC_MalformedWorkerResult | EC_MalformedMedia
  | EC_UserCancellation | EC_ApprovalRequired | EC_PriorityPolicyConflict
  | EC_WorkerRetired | EC_WorkerIncarnationStale | EC_AmbiguousWorkerSelection
  | EC_Blocked.

#[global] Instance ErrorCode_eq_dec : EqDecision ErrorCode.
Proof. solve_decision. Defined.

Definition ErrorCode_as_str (x : ErrorCode) : string :=
  match x with
  | EC_DbUnreachable => "DB_UNREACHABLE"
  | EC_DbUninitialized => "DB_UNINITIALIZED"
  | EC_DbPartialSchema => "DB_PARTIAL_SCHEMA"
  | EC_DbDirtyMigration => "DB_DIRTY_MIGRATION"
  | EC_DbSchemaTooNew => "DB_SCHEMA_TOO_NEW"
  | EC_ConfigInvalid => "CONFIG_INVALID"
  | EC_NotFound => "NOT_FOUND"
  | EC_Internal => "INTERNAL"
  | EC_BadArgs => "BAD_ARGS"
  | EC_DependencyCycle => "DEPENDENCY_CYCLE"
  | EC_Conflict => "CONFLICT"
  | EC_Unauthorized => "UNAUTHORIZED"
  | EC_RequestTimeout => "REQUEST_TIMEOUT"
  | EC_PayloadTooLarge => "PAYLOAD_TOO_LARGE"
  | EC_BlockedByUseLease => "BLOCKED_BY_USE_LEASE"
  | EC_BlockedByPendingCommit => "BLOCKED_BY_PENDING_COMMIT"
  | EC_BlockedByClosureGrew => "BLOCKED_BY_CLOSURE_GREW"
  | EC_StaleIdentityEvidence => "STALE_IDENTITY_EVIDENCE"
  | EC_ClosureResolutionIncomplete => "CLOSURE_RESOLUTION_INCOMPLETE"
  | EC_WorkerTimeout => "WORKER_TIMEOUT"
  | EC_WorkerCrash => "WORKER_CRASH"
  | EC_NoEligibleWorker => "NO_ELIGIBLE_WORKER"
  | EC_ArtifactUnavailable => "ARTIFACT_UNAVAILABLE"
  | EC_ArtifactChecksumMismatch => "ARTIFACT_CHECKSUM_MISMATCH"
  | EC_ExternalSystemUnavailable => "EXTERNAL_SYSTEM_UNAVAILABLE"
  | EC_ExternalSystemRateLimited => "EXTERNAL_SYSTEM_RATE_LIMITED"
  | EC_VerificationFailure => "VERIFICATION_FAILURE"
  | EC_BackupFailure => "BACKUP_FAILURE"
  | EC_CommitFailure => "COMMIT_FAILURE"
  | EC_PolicyParseError => "POLICY_PARSE_ERROR"
  | EC_PolicyValidationError => "POLICY_VALIDATION_ERROR"
  | EC_PlanGenerationError => "PLAN_GENERATION_ERROR"
  | EC_ComplianceReportError => "COMPLIANCE_REPORT_ERROR"
  | EC_PolicyExecutionError => "POLICY_EXECUTION_ERROR"
  | EC_MissingCapability => "MISSING_CAPABILITY"
  | EC_MalformedWorkerResult => "MALFORMED_WORKER_RESULT"
  | EC_MalformedMedia => "MALFORMED_MEDIA"
  | EC_UserCancellation => "USER_CANCELLATION"
  | EC_ApprovalRequired => "APPROVAL_REQUIRED"
  | EC_PriorityPolicyConflict => "PRIORITY_POLICY_CONFLICT"
  | EC_WorkerRetired => "WORKER_RETIRED"
  | EC_WorkerIncarnationStale => "WORKER_INCARNATION_STALE"
  | EC_AmbiguousWorkerSelection => "AMBIGUOUS_WORKER_SELECTION"
  | EC_Blocked => "BLOCKED"
  end.

Definition ErrorCode_ALL : list ErrorCode :=
  [EC_DbUnreachable; EC_DbUninitialized; EC_DbPartialSchema; EC_DbDirtyMigration;
   EC_DbSchemaTooNew; EC_ConfigInvalid; EC_NotFound; EC_Internal; EC_BadArgs;
   EC_DependencyCycle; EC_Conflict; EC_Unauthorized; EC_RequestTimeout;
   EC_PayloadTooLarge; EC_BlockedByUseLease; EC_BlockedByPendingCommit;
   EC_BlockedByClosureGrew; EC_StaleIdentityEvidence; EC_ClosureResolutionIncomplete;
   EC_WorkerTimeout; EC_WorkerCrash; EC_NoEligibleWorker; EC_ArtifactUnavailable;
   EC_ArtifactChecksumMismatch; EC_ExternalSystemUnavailable;
   EC_ExternalSystemRateLimited; EC_VerificationFailure; EC_BackupFailure;
   EC_CommitFailure; EC_PolicyParseError; EC_PolicyValidationError;
   EC_PlanGenerationError; EC_ComplianceReportError; EC_PolicyExecutionError;
   EC_MissingCapability; EC_MalformedWorkerResult; EC_MalformedMedia;
   EC_UserCancellation; EC_ApprovalRequired; EC_PriorityPolicyConflict;
   EC_WorkerRetired; EC_WorkerIncarnationStale; EC_AmbiguousWorkerSelection;
   EC_Blocked].

(** [error.rs]: the error enum. The message text is presentation (consumers
    classify on [error_code]), so the model keeps the variant alone. *)
Inductive VoomError : Type :=
  | EDatabase | EUninitializedDatabase | EMigration | EDirtyMigration | ESchemaTooNew
  | EConfig | ENotFound | EInternal | EDependencyCycle | EConflict | EUnauthorized
  | EBlockedByUseLease | EBlockedByPendingCommit | EBlockedByClosureGrew
  | EStaleIdentityEvidence | EClosureResolutionIncomplete | EWorkerTimeout
  | EWorkerCrash | ENoEligibleWorker | EArtifactUnavailable | EArtifactChecksumMismatch
  | EExternalSystemUnavailable | EExternalSystemRateLimited | EVerificationFailure
  | EBackupFailure | ECommitFailure | EPolicyParseError | EPolicyValidationError
  | EPlanGeneration | EComplianceReport | EPolicyExecution | EMissingCapability
  | EMalformedWorkerResult | EUserCancellation | EApprovalRequired
  | EPriorityPolicyConflict | EWorkerRetired | EWorkerIncarnationStale
  | EAmbiguousWorkerSelection.

#[global] Instance VoomError_eq_dec : EqDecision VoomError.
Proof. solve_decision. Defined.

Definition VoomError_error_code (e : VoomError) : ErrorCode :=
  match e with
  | EDatabase => EC_DbUnreachable
  | EUninitializedDatabase => EC_DbUninitialized
  | EMigration => EC_DbPartialSchema
  | EDirtyMigration => EC_DbDirtyMigration
  | ESchemaTooNew => EC_DbSchemaTooNew
  | EConfig => EC_ConfigInvalid
  | ENotFound => EC_NotFound
  | EInternal => EC_Internal
  | EDependencyCycle => EC_DependencyCycle
  | EConflict => EC_Conflict
  | EUnauthorized => EC_Unauthorized
  | EBlockedByUseLease => EC_BlockedByUseLease
  | EBlockedByPendingCommit => EC_BlockedByPendingCommit
  | EBlockedByClosureGrew => EC_BlockedByClosureGrew
  | EStaleIdentityEvidence => EC_StaleIdentityEvidence
  | EClosureResolutionIncomplete => EC_ClosureResolutionIncomplete
  | EWorkerTimeout => EC_WorkerTimeout
  | EWorkerCrash => EC_WorkerCrash
  | ENoEligibleWorker => EC_NoEligibleWorker
  | EArtifactUnavailable => EC_ArtifactUnavailable
  | EArtifactChecksumMismatch => EC_ArtifactChecksumMismatch
  | EExternalSystemUnavailable => EC_ExternalSystemUnavailable
  | EExternalSystemRateLimited => EC_ExternalSystemRateLimited
  | EVerificationFailure => EC_VerificationFailure
  | EBackupFailure => EC_BackupFailure
  | ECommitFailure => EC_CommitFailure
  | EPolicyParseError => EC_PolicyParseError
  | EPolicyValidationError => EC_PolicyValidationError
  | EPlanGeneration => EC_PlanGenerationError
  | EComplianceReport => EC_ComplianceReportError
  | EPolicyExecution => EC_PolicyExecutionError
  | EMissingCapability => EC_MissingCapability
  | EMalformedWorkerResult => EC_MalformedWorkerResult
  | EUserCancellation => EC_UserCancellation
  | EApprovalRequired => EC_ApprovalRequired
  | EPriorityPolicyConflict => EC_PriorityPolicyConflict
  | EWorkerRetired => EC_WorkerRetired
  | EWorkerIncarnationStale => EC_WorkerIncarnationStale
  | EAmbiguousWorkerSelection => EC_AmbiguousWorkerSelection
  end.

(** [issue.rs]: issue severity. *)
Inductive IssueSeverity : Type :=
  | SeverityCritical | SeverityHigh | SeverityMedium | SeverityLow | SeverityInfo.

#[global] Instance IssueSeverity_eq_dec : EqDecision IssueSeverity.
Proof. solve_decision. Defined.

Definition IssueSeverity_as_str (x : IssueSeverity) : string :=
  match x with
  | SeverityCritical => "critical"
  | SeverityHigh => "high"
  | SeverityMedium => "medium"
  | SeverityLow => "low"
  | SeverityInfo => "info"
  end.

Definition IssueSeverity_from_wire (value : string) : option IssueSeverity :=
  assoc_str value
    [("critical", SeverityCritical);
     ("high", SeverityHigh);
     ("medium", SeverityMedium);
     ("low", SeverityLow);
     ("info", SeverityInfo)].

(** [issue.rs]: issue priority. *)
Inductive IssuePriority : Type :=
  | PriorityUrgent | PriorityHigh | PriorityNormal | PriorityLow | PrioritySomeday.

#[global] Instance IssuePriority_eq_dec : EqDecision IssuePriority.
Proof. solve_decision. Defined.

Definition IssuePriority_as_str (x : IssuePriority) : string :=
  match x with
  | PriorityUrgent => "urgent"
  | PriorityHigh => "high"
  | PriorityNormal => "normal"
  | PriorityLow => "low"
  | PrioritySomeday => "someday"
  end.

Definition IssuePriority_from_wire (value : string) : option IssuePriority :=
  assoc_str value
    [("urgent", PriorityUrgent);
     ("high", PriorityHigh);
     ("normal", PriorityNormal);
     ("low", PriorityLow);
     ("someday", PrioritySomeday)].

(** [failure.rs]: the failure taxonomy. *)
Inductive FailureClass : Type :=
  | FC_WorkerTimeout | FC_WorkerCrash | FC_NoEligibleWorker | FC_ArtifactUnavailable
  | FC_ArtifactChecksumMismatch | FC_ExternalSystemUnavailable
  | FC_ExternalSystemRateLimited | FC_VerificationFailure | FC_BackupFailure
  | FC_CommitFailure | FC_PolicyParseError | FC_PolicyValidationError
  | FC_MissingCapability | FC_MalformedWorkerResult | FC_UserCancellation
  | FC_MalformedMedia | FC_StaleIdentityEvidence | FC_ClosureResolutionIncomplete
  | FC_BlockedByActiveUseLease | FC_ApprovalRequired | FC_PriorityPolicyConflict
  | FC_ProgressTimeout | FC_AmbiguousWorkerSelection.

#[global] Instance FailureClass_eq_dec : EqDecision FailureClass.
Proof. solve_decision. Defined.

Definition FailureClass_as_str (x : FailureClass) : string :=
  match x with
  | FC_WorkerTimeout => "worker_timeout"
  | FC_WorkerCrash => "worker_crash"
  | FC_NoEligibleWorker => "no_eligible_worker"
  | FC_ArtifactUnavailable => "artifact_unavailable"
  | FC_ArtifactChecksumMismatch => "artifact_checksum_mismatch"
  | FC_ExternalSystemUnavailable => "external_system_unavailable"
  | FC_ExternalSystemRateLimited => "external_system_rate_limited"
  | FC_VerificationFailure => "verification_failure"
  | FC_BackupFailure => "backup_failure"
  | FC_CommitFailure => "commit_failure"
  | FC_PolicyParseError => "policy_parse_error"
  | FC_PolicyValidationError => "policy_validation_error"
  | FC_MissingCapability => "missing_capability"
  | FC_MalformedWorkerResult => "malformed_worker_result"
  | FC_UserCancellation => "user_cancellation"
  | FC_MalformedMedia => "malformed_media"
  | FC_StaleIdentityEvidence => "stale_identity_evidence"
  | FC_ClosureResolutionIncomplete => "closure_resolution_incomplete"
  | FC_BlockedByActiveUseLease => "blocked_by_active_use_lease"
  | FC_ApprovalRequired => "approval_required"
  | FC_PriorityPolicyConflict => "priority_policy_conflict"
  | FC_ProgressTimeout => "progress_timeout"
  | FC_AmbiguousWorkerSelection => "ambiguous_worker_selection"
  end.

Definition FailureClass_ALL : list FailureClass :=
  [FC_WorkerTimeout; FC_WorkerCrash; FC_NoEligibleWorker; FC_ArtifactUnavailable;
   FC_ArtifactChecksumMismatch; FC_ExternalSystemUnavailable;
   FC_ExternalSystemRateLimited; FC_VerificationFailure; FC_BackupFailure;
   FC_CommitFailure; FC_PolicyParseError; FC_PolicyValidationError;
   FC_MissingCapability; FC_MalformedWorkerResult; FC_UserCancellation;
   FC_MalformedMedia; FC_StaleIdentityEvidence; FC_ClosureResolutionIncomplete;
   FC_BlockedByActiveUseLease; FC_ApprovalRequired; FC_PriorityPolicyConflict;
   FC_ProgressTimeout; FC_AmbiguousWorkerSelection].

(** [failure.rs]: the coarse retry class. *)
Inductive FailureRetryClass : Type := Retriable | NonRetriable | OperatorRequired.

#[global] Instance FailureRetryClass_eq_dec : EqDecision FailureRetryClass.
Proof. solve_decision. Defined.

Definition FailureClass_retry_class (c : FailureClass) : FailureRetryClass :=
  match c with
  | FC_WorkerTimeout | FC_WorkerCrash | FC_NoEligibleWorker | FC_ArtifactUnavailable
  | FC_ArtifactChecksumMismatch | FC_ExternalSystemUnavailable
  | FC_ExternalSystemRateLimited | FC_VerificationFailure | FC_BackupFailure
  | FC_CommitFailure | FC_ProgressTimeout => Retriable
  | FC_PolicyParseError | FC_PolicyValidationError | FC_MissingCapability
  | FC_MalformedWorkerResult | FC_UserCancellation | FC_MalformedMedia => NonRetriable
  | FC_StaleIdentityEvidence | FC_ClosureResolutionIncomplete
  | FC_BlockedByActiveUseLease | FC_ApprovalRequired | FC_PriorityPolicyConflict
  | FC_AmbiguousWorkerSelection => OperatorRequired
  end.

Definition FailureClass_into_error_code (c : FailureClass) : ErrorCode :=
  match c with
  | FC_WorkerTimeout | FC_ProgressTimeout => EC_WorkerTimeout
  | FC_WorkerCrash => EC_WorkerCrash
  | FC_NoEligibleWorker => EC_NoEligibleWorker
  | FC_ArtifactUnavailable => EC_ArtifactUnavailable
  | FC_ArtifactChecksumMismatch => EC_ArtifactChecksumMismatch
  | FC_ExternalSystemUnavailable => EC_ExternalSystemUnavailable
  | FC_ExternalSystemRateLimited => EC_ExternalSystemRateLimited
  | FC_VerificationFailure => EC_VerificationFailure
  | FC_BackupFailure => EC_BackupFailure
  | FC_CommitFailure => EC_CommitFailure
  | FC_PolicyParseError => EC_PolicyParseError
  | FC_PolicyValidationError => EC_PolicyValidationError
  | FC_MissingCapability => EC_MissingCapability
  | FC_MalformedWorkerResult => EC_MalformedWorkerResult
  | FC_UserCancellation => EC_UserCancellation
  | FC_MalformedMedia => EC_MalformedMedia
  | FC_StaleIdentityEvidence => EC_StaleIdentityEvidence
  | FC_ClosureResolutionIncomplete => EC_ClosureResolutionIncomplete
  | FC_BlockedByActiveUseLease => EC_BlockedByUseLease
  | FC_ApprovalRequired => EC_ApprovalRequired
  | FC_PriorityPolicyConflict => EC_PriorityPolicyConflict
  | FC_AmbiguousWorkerSelection => EC_AmbiguousWorkerSelection
  end.

Definition FailureClass_from_error_code (code : ErrorCode) : option FailureClass :=
  match code with
  | EC_WorkerTimeout => Some FC_WorkerTimeout
  | EC_WorkerCrash => Some FC_WorkerCrash
  | EC_NoEligibleWorker => Some FC_NoEligibleWorker
  | EC_ArtifactUnavailable => Some FC_ArtifactUnavailable
  | EC_ArtifactChecksumMismatch => Some FC_ArtifactChecksumMismatch
  | EC_ExternalSystemUnavailable => Some FC_ExternalSystemUnavailable
  | EC_ExternalSystemRateLimited => Some FC_ExternalSystemRateLimited
  | EC_VerificationFailure => Some FC_VerificationFailure
  | EC_BackupFailure => Some FC_BackupFailure
  | EC_CommitFailure => Some FC_CommitFailure
  | EC_PolicyParseError => Some FC_PolicyParseError
  | EC_PolicyValidationError => Some FC_PolicyValidationError
  | EC_MissingCapability => Some FC_MissingCapability
  | EC_MalformedWorkerResult => Some FC_MalformedWorkerResult
  | EC_UserCancellation => Some FC_UserCancellation
  | EC_MalformedMedia => Some FC_MalformedMedia
  | EC_StaleIdentityEvidence => Some FC_StaleIdentityEvidence
  | EC_ClosureResolutionIncomplete => Some FC_ClosureResolutionIncomplete
  | EC_BlockedByUseLease => Some FC_BlockedByActiveUseLease
  | EC_ApprovalRequired => Some FC_ApprovalRequired
  | EC_PriorityPolicyConflict => Some FC_PriorityPolicyConflict
  | EC_AmbiguousWorkerSelection => Some FC_AmbiguousWorkerSelection
  | _ => None
  end.

(** [operation_kind.rs]: the fixed operation vocabulary. *)
Inductive OperationKind : Type :=
  | OpScanLibrary | OpProbeFile | OpHashFile | OpIdentifyMedia | OpScoreQuality
  | OpSyncExternalSystem | OpBackUpFile | OpRemux | OpTranscodeVideo | OpTranscodeAudio
  | OpEditTracks | OpExtractAudio | OpVerifyArtifact | OpCommitArtifact
  | OpDeleteArtifact.

#[global] Instance OperationKind_eq_dec : EqDecision OperationKind.
Proof. solve_decision. Defined.

Definition OperationKind_as_str (x : OperationKind) : string :=
  match x with
  | OpScanLibrary => "scan_library"
  | OpProbeFile => "probe_file"
  | OpHashFile => "hash_file"
  | OpIdentifyMedia => "identify_media"
  | OpScoreQuality => "score_quality"
  | OpSyncExternalSystem => "sync_external_system"
  | OpBackUpFile => "back_up_file"
  | OpRemux => "remux"
  | OpTranscodeVideo => "transcode_video"
  | OpTranscodeAudio => "transcode_audio"
  | OpEditTracks => "edit_tracks"
  | OpExtractAudio => "extract_audio"
  | OpVerifyArtifact => "verify_artifact"
  | OpCommitArtifact => "commit_artifact"
  | OpDeleteArtifact => "delete_artifact"
  end.

Definition OperationKind_ALL : list OperationKind :=
  [OpScanLibrary; OpProbeFile; OpHashFile; OpIdentifyMedia; OpScoreQuality;
   OpSyncExternalSystem; OpBackUpFile; OpRemux; OpTranscodeVideo; OpTranscodeAudio;
   OpEditTracks; OpExtractAudio; OpVerifyArtifact; OpCommitArtifact; OpDeleteArtifact].

Definition OperationKind_is_byte_touching (k : OperationKind) : bool :=
  match k with
  | OpScanLibrary | OpProbeFile | OpHashFile | OpBackUpFile | OpRemux
  | OpTranscodeVideo | OpTranscodeAudio | OpEditTracks | OpExtractAudio
  | OpVerifyArtifact | OpCommitArtifact | OpDeleteArtifact => true
  | OpIdentifyMedia | OpScoreQuality | OpSyncExternalSystem => false
  end.

Definition OperationKind_is_node_local_media_dispatch (k : OperationKind) : bool :=
  match k with
  | OpProbeFile | OpBackUpFile | OpRemux | OpTranscodeVideo | OpTranscodeAudio
  | OpExtractAudio | OpVerifyArtifact => true
  | OpScanLibrary | OpHashFile | OpEditTracks | OpCommitArtifact | OpDeleteArtifact
  | OpIdentifyMedia | OpScoreQuality | OpSyncExternalSystem => false
  end.

(** [artifact_access_mode.rs]. *)
Inductive ArtifactAccessMode : Type :=
  | SharedMount | ControlPlanePlaceholder | StagedOutputPlaceholder.

#[global] Instance ArtifactAccessMode_eq_dec : EqDecision ArtifactAccessMode.
Proof. solve_decision. Defined.

Definition ArtifactAccessMode_as_str (x : ArtifactAccessMode) : string :=
  match x with
  | SharedMount => "shared_mount"
  | ControlPlanePlaceholder => "control_plane_placeholder"
  | StagedOutputPlaceholder => "staged_output_placeholder"
  end.

Definition ArtifactAccessMode_from_wire (value : string) : option ArtifactAccessMode :=
  assoc_str value
    [("shared_mount", SharedMount);
     ("control_plane_placeholder", ControlPlanePlaceholder);
     ("staged_output_placeholder", StagedOutputPlaceholder)].

(** [execution_vocab.rs]: node kind. *)
Inductive NodeKind : Type :=
  | NodeKindLocal | NodeKindRemote | NodeKindSynthetic.

#[global] Instance NodeKind_eq_dec : EqDecision NodeKind.
Proof. solve_decision. Defined.

Definition NodeKind_as_str (x : NodeKind) : string :=
  match x with
  | NodeKindLocal => "local"
  | NodeKindRemote => "remote"
  | NodeKindSynthetic => "synthetic"
  end.

Definition NodeKind_from_wire (value : string) : option NodeKind :=
  assoc_str value
    [("local", NodeKindLocal);
     ("remote", NodeKindRemote);
     ("synthetic", NodeKindSynthetic)].

(** [execution_vocab.rs]: node status. *)
Inductive NodeStatus : Type :=
  | NodeRegistered | NodeActive | NodeStale | NodeRetired.

#[global] Instance NodeStatus_eq_dec : EqDecision NodeStatus.
Proof. solve_decision. Defined.

Definition NodeStatus_as_str (x : NodeStatus) : string :=
  match x with
  | NodeRegistered => "registered"
  | NodeActive => "active"
  | NodeStale => "stale"
  | NodeRetired => "retired"
  end.

Definition NodeStatus_from_wire (value : string) : option NodeStatus :=
  assoc_str value
    [("registered", NodeRegistered);
     ("active", NodeActive);
     ("stale", NodeStale);
     ("retired", NodeRetired)].

(** [execution_vocab.rs]: incarnation status. *)
Inductive NodeIncarnationStatus : Type :=
  | IncarnationActive | IncarnationSuperseded | IncarnationRetired | IncarnationFailed.

#[global] Instance NodeIncarnationStatus_eq_dec : EqDecision NodeIncarnationStatus.
Proof. solve_decision. Defined.

Definition NodeIncarnationStatus_as_str (x : NodeIncarnationStatus) : string :=
  match x with
  | IncarnationActive => "active"
  | IncarnationSuperseded => "superseded"
  | IncarnationRetired => "retired"
  | IncarnationFailed => "failed"
  end.

Definition NodeIncarnationStatus_from_wire (value : string) : option NodeIncarnationStatus :=
  assoc_str value
    [("active", IncarnationActive);
     ("superseded", IncarnationSuperseded);
     ("retired", IncarnationRetired);
     ("failed", IncarnationFailed)].

(** [execution_vocab.rs]: why an incarnation ended. *)
Inductive NodeIncarnationEndReason : Type :=
  | EndSuperseded | EndGracefulShutdown | EndChildStartupFailed
  | EndChildRestartExhausted | EndHeartbeatExpired | EndLogicalNodeRetired.

#[global] Instance NodeIncarnationEndReason_eq_dec : EqDecision NodeIncarnationEndReason.
Proof. solve_decision. Defined.

Definition NodeIncarnationEndReason_as_str (x : NodeIncarnationEndReason) : string :=
  match x with
  | EndSuperseded => "superseded"
  | EndGracefulShutdown => "graceful_shutdown"
  | EndChildStartupFailed => "child_startup_failed"
  | EndChildRestartExhausted => "child_restart_exhausted"
  | EndHeartbeatExpired => "heartbeat_expired"
  | EndLogicalNodeRetired => "logical_node_retired"
  end.

Definition NodeIncarnationEndReason_from_wire (value : string) : option NodeIncarnationEndReason :=
  assoc_str value
    [("superseded", EndSuperseded);
     ("graceful_shutdown", EndGracefulShutdown);
     ("child_startup_failed", EndChildStartupFailed);
     ("child_restart_exhausted", EndChildRestartExhausted);
     ("heartbeat_expired", EndHeartbeatExpired);
     ("logical_node_retired", EndLogicalNodeRetired)].

(** [execution_vocab.rs]: worker kind. *)
Inductive WorkerKind : Type :=
  | WorkerKindSynthetic | WorkerKindLocal | WorkerKindRemote.

#[global] Instance WorkerKind_eq_dec : EqDecision WorkerKind.
Proof. solve_decision. Defined.

Definition WorkerKind_as_str (x : WorkerKind) : string :=
  match x with
  | WorkerKindSynthetic => "synthetic"
  | WorkerKindLocal => "local"
  | WorkerKindRemote => "remote"
  end.

Definition WorkerKind_from_wire (value : string) : option WorkerKind :=
  assoc_str value
    [("synthetic", WorkerKindSynthetic);
     ("local", WorkerKindLocal);
     ("remote", WorkerKindRemote)].

(** [execution_vocab.rs]: node-agent proof state of a remote worker. *)
Inductive WorkerReadiness : Type :=
  | WorkerReady | WorkerNotReady.

#[global] Instance WorkerReadiness_eq_dec : EqDecision WorkerReadiness.
Proof. solve_decision. Defined.

(** [execution_vocab.rs]: durable worker lifecycle state. *)
Inductive WorkerStatus : Type :=
  | WorkerRegistered | WorkerActive | WorkerStale | WorkerRetired.

#[global] Instance WorkerStatus_eq_dec : EqDecision WorkerStatus.
Proof. solve_decision. Defined.

Definition WorkerStatus_as_str (x : WorkerStatus) : string :=
  match x with
  | WorkerRegistered => "registered"
  | WorkerActive => "active"
  | WorkerStale => "stale"
  | WorkerRetired => "retired"
  end.

Definition WorkerStatus_from_wire (value : string) : option WorkerStatus :=
  assoc_str value
    [("registered", WorkerRegistered);
     ("active", WorkerActive);
     ("stale", WorkerStale);
     ("retired", WorkerRetired)].

(** ** Instances *)

Definition ErrorCode_from_wire_str (value : string) : option ErrorCode :=
  wire_find ErrorCode_as_str ErrorCode_ALL value.

Definition FailureClass_from_wire_str (value : string) : option FailureClass :=
  wire_find FailureClass_as_str FailureClass_ALL value.

Definition OperationKind_from_wire (token : string) : option OperationKind :=
  wire_find OperationKind_as_str OperationKind_ALL token.

#[global] Instance ErrorCode_vocabulary : Vocabulary ErrorCode :=
  Build_Vocabulary ErrorCode ErrorCode_as_str ErrorCode_from_wire_str
    ltac:(solve_vocabulary) ltac:(solve_vocabulary).
#[global] Instance FailureClass_vocabulary : Vocabulary FailureClass :=
  Build_Vocabulary FailureClass FailureClass_as_str FailureClass_from_wire_str
    ltac:(solve_vocabulary) ltac:(solve_vocabulary).
#[global] Instance OperationKind_vocabulary : Vocabulary OperationKind :=
  Build_Vocabulary OperationKind OperationKind_as_str OperationKind_from_wire
    ltac:(solve_vocabulary) ltac:(solve_vocabulary).
#[global] Instance IssueSeverity_vocabulary : Vocabulary IssueSeverity :=
  Build_Vocabulary IssueSeverity IssueSeverity_as_str IssueSeverity_from_wire
    ltac:(solve_vocabulary) ltac:(solve_vocabulary).
#[global] Instance IssuePriority_vocabulary : Vocabulary IssuePriority :=
  Build_Vocabulary IssuePriority IssuePriority_as_str IssuePriority_from_wire
    ltac:(solve_vocabulary) ltac:(solve_vocabulary).
#[global] Instance ArtifactAccessMode_vocabulary : Vocabulary ArtifactAccessMode :=
  Build_Vocabulary ArtifactAccessMode ArtifactAccessMode_as_str ArtifactAccessMode_from_wire
    ltac:(solve_vocabulary) ltac:(solve_vocabulary).
#[global] Instance NodeKind_vocabulary : Vocabulary NodeKind :=
  Build_Vocabulary NodeKind NodeKind_as_str NodeKind_from_wire
    ltac:(solve_vocabulary) ltac:(solve_vocabulary).
#[global] Instance NodeStatus_vocabulary : Vocabulary NodeStatus :=
  Build_Vocabulary NodeStatus NodeStatus_as_str NodeStatus_from_wire
    ltac:(solve_vocabulary) ltac:(solve_vocabulary).
#[global] Instance NodeIncarnationStatus_vocabulary : Vocabulary NodeIncarnationStatus :=
  Build_Vocabulary NodeIncarnationStatus NodeIncarnationStatus_as_str NodeIncarnationStatus_from_wire
    ltac:(solve_vocabulary) ltac:(solve_vocabulary).
#[global] Instance NodeIncarnationEndReason_vocabulary : Vocabulary NodeIncarnationEndReason :=
  Build_Vocabulary NodeIncarnationEndReason NodeIncarnationEndReason_as_str NodeIncarnationEndReason_from_wire
    ltac:(solve_vocabulary) ltac:(solve_vocabulary).
#[global] Instance WorkerKind_vocabulary : Vocabulary WorkerKind :=
  Build_Vocabulary WorkerKind WorkerKind_as_str WorkerKind_from_wire
    ltac:(solve_vocabulary) ltac:(solve_vocabulary).
#[global] Instance WorkerStatus_vocabulary : Vocabulary WorkerStatus :=
  Build_Vocabulary WorkerStatus WorkerStatus_as_str WorkerStatus_from_wire
    ltac:(solve_vocabulary) ltac:(solve_vocabulary).

(** [parse_database]: a stored value outside the vocabulary is a database
    error; [IssueSeverity::parse] and [IssuePriority::parse] call it internal. *)
Definition parse_database `{Vocabulary A} (value : string) : result VoomError A :=
  ok_or (from_wire value) EDatabase.

Definition parse_internal `{Vocabulary A} (value : string) : result VoomError A :=
  ok_or (from_wire value) EInternal.

Definition VoomError_code (e : VoomError) : string :=
  ErrorCode_as_str (VoomError_error_code e).

(** ** Failure classification *)

Definition FailureClass_is_retriable (c : FailureClass) : bool :=
  match FailureClass_retry_class c with Retriable => true | _ => false end.

Definition FailureClass_issue_severity (c : FailureClass) : IssueSeverity :=
  match FailureClass_retry_class c with
  | OperatorRequired | NonRetriable => SeverityHigh
  | Retriable => SeverityMedium
  end.

Definition FailureClass_issue_priority (c : FailureClass) : IssuePriority :=
  match FailureClass_retry_class c with
  | OperatorRequired | NonRetriable => PriorityHigh
  | Retriable => PriorityNormal
  end.

(** The error code of a failure class identifies the class, except that a
    progress timeout reads back as a worker timeout; the alias keeps the
    retry decision, so no consumer of the code retries differently. *)
Lemma error_code_class c :
  FailureClass_from_error_code (FailureClass_into_error_code c) =
  Some (if decide (c = FC_ProgressTimeout) then FC_WorkerTimeout else c).
Proof. destruct c; reflexivity. Qed.

Lemma from_error_code_sound code c :
  FailureClass_from_error_code code = Some c -> FailureClass_into_error_code c = code.
Proof. destruct code; cbn; intros [= <-]; reflexivity. Qed.

(** a failure class survives its error code. Encoding a class as an error
    code and decoding it gives the class back, except that a progress timeout
    reads back as a worker timeout; the class read back always has the same
    retry decision, issue severity and issue priority, so no consumer of the
    code treats the failure differently; and a code decodes to a class only if
    that class encodes to it. *)
Theorem failure_class_code_roundtrip :
  (forall c, exists c',
     FailureClass_from_error_code (FailureClass_into_error_code c) = Some c' /\
     (c <> FC_ProgressTimeout -> c' = c) /\
     FailureClass_retry_class c' = FailureClass_retry_class c /\
     FailureClass_issue_severity c' = FailureClass_issue_severity c /\
     FailureClass_issue_priority c' = FailureClass_issue_priority c) /\
  (forall code c, FailureClass_from_error_code code = Some c ->
     FailureClass_into_error_code c = code).
Proof.
  split; [|exact from_error_code_sound]. intros c. rewrite error_code_class.
  eexists. split; [reflexivity|]. destruct (decide (c = FC_ProgressTimeout)) as [->|Hne].
  - repeat split. done.
  - done.
Qed.
