(* ===== verification/Operations.v ===== *)
(** * Operation tokens and node incarnations

    [voom-core/src/taxonomy/ticket_operation.rs]: the token a ticket, a worker
    capability or a grant names an operation with. A known operation has two
    encodings, the bare wire token and the workflow-namespaced one; the
    theorems say which tokens meet in the scheduler. And
    [voom-core/src/taxonomy/ids.rs]: the random identity of one node-agent
    process lifetime, sixteen bytes stored and sent as 32 lowercase
    hexadecimal characters. *)

From S2P Require Import Prelude Json Vocab.
From Stdlib Require Import ZArith Lia Bool String Ascii.
From stdpp Require Import base strings list.

Open Scope string_scope.

Definition WORKFLOW_OPERATION_NAMESPACE : string := "synthetic.workflow.operation.".

(** [TicketOperation] is a newtype over its text. *)
Abbreviation TicketOperation := string (only parsing).

Definition operation_byte (c : Ascii.ascii) : bool :=
  is_ascii_alphanumeric c || Ascii.eqb c "_"%char || Ascii.eqb c "-"%char ||
  Ascii.eqb c "."%char.

(** Whether [validate_operation_token] accepts the token. *)
Definition validate_operation_token (value : string) : bool :=
  negb (String.eqb value "") && string_all operation_byte value.

Definition TicketOperation_new (value : string) : result VoomError TicketOperation :=
  if validate_operation_token value then Ok value else Err EConfig.

Definition TicketOperation_from_stored (value : string) : result VoomError TicketOperation :=
  if validate_operation_token value then Ok value else Err EDatabase.

(** [impl From<OperationKind> for TicketOperation]. *)
Definition TicketOperation_from (k : OperationKind) : TicketOperation := OperationKind_as_str k.

Inductive NormalizedTicketOperation : Type :=
  | Known (kind : OperationKind) (namespaced : bool)
  | CustomLocal (token : TicketOperation)
  | UnknownNamespaced (token : TicketOperation).

#[global] Instance NormalizedTicketOperation_eq_dec : EqDecision NormalizedTicketOperation.
Proof. solve_decision. Defined.

Definition TicketOperation_normalize (op : TicketOperation) : NormalizedTicketOperation :=
  match str_strip_prefix WORKFLOW_OPERATION_NAMESPACE op with
  | Some suffix =>
      match OperationKind_from_wire suffix with
      | None => UnknownNamespaced op
      | Some kind => Known kind true
      end
  | None =>
      match OperationKind_from_wire op with
      | None => CustomLocal op
      | Some kind => Known kind false
      end
  end.

Definition matching_tokens (n : NormalizedTicketOperation) : list TicketOperation :=
  match n with
  | Known kind _ =>
      [TicketOperation_from kind;
       String.append WORKFLOW_OPERATION_NAMESPACE (OperationKind_as_str kind)]
  | CustomLocal token => [token]
  | UnknownNamespaced _ => []
  end.

Definition operation_kind (n : NormalizedTicketOperation) : option OperationKind :=
  match n with
  | Known kind _ => Some kind
  | CustomLocal _ | UnknownNamespaced _ => None
  end.

Definition matching_token (n : NormalizedTicketOperation) : TicketOperation :=
  match n with
  | Known kind _ => TicketOperation_from kind
  | CustomLocal token | UnknownNamespaced token => token
  end.

Definition is_unknown_namespaced (n : NormalizedTicketOperation) : bool :=
  match n with UnknownNamespaced _ => true | _ => false end.

(** ** Classification *)

Lemma from_wire_kind k : OperationKind_from_wire (OperationKind_as_str k) = Some k.
Proof. exact (from_wire_as_str k). Qed.

Lemma kind_from_wire s k : OperationKind_from_wire s = Some k -> s = OperationKind_as_str k.
Proof. intros H. symmetry. exact (as_str_from_wire s k H). Qed.

Lemma kind_not_namespaced k :
  str_strip_prefix WORKFLOW_OPERATION_NAMESPACE (OperationKind_as_str k) = None.
Proof. destruct k; reflexivity. Qed.

Lemma normalize_bare k : TicketOperation_normalize (OperationKind_as_str k) = Known k false.
Proof.
  unfold TicketOperation_normalize. by rewrite kind_not_namespaced, from_wire_kind.
Qed.

Lemma normalize_namespaced k :
  TicketOperation_normalize
    (String.append WORKFLOW_OPERATION_NAMESPACE (OperationKind_as_str k)) = Known k true.
Proof.
  unfold TicketOperation_normalize.
  rewrite (proj2 (str_strip_prefix_spec _ _ (OperationKind_as_str k)) eq_refl).
  by rewrite from_wire_kind.
Qed.

(** The inverse of [TicketOperation_normalize]: the token a classification
    came from. *)
Lemma normalize_inv op :
  match TicketOperation_normalize op with
  | Known k true =>
      op = String.append WORKFLOW_OPERATION_NAMESPACE (OperationKind_as_str k)
  | Known k false => op = OperationKind_as_str k
  | CustomLocal t =>
      t = op /\ str_strip_prefix WORKFLOW_OPERATION_NAMESPACE op = None /\
      OperationKind_from_wire op = None
  | UnknownNamespaced t =>
      t = op /\ exists suffix, op = String.append WORKFLOW_OPERATION_NAMESPACE suffix /\
        OperationKind_from_wire suffix = None
  end.
Proof.
  unfold TicketOperation_normalize.
  destruct (str_strip_prefix _ op) as [suffix|] eqn:Hp.
  - apply str_strip_prefix_spec in Hp.
    destruct (OperationKind_from_wire suffix) as [k|] eqn:Hk; [|eauto].
    apply kind_from_wire in Hk. congruence.
  - destruct (OperationKind_from_wire op) as [k|] eqn:Hk; [|auto].
    by apply kind_from_wire in Hk.
Qed.

Lemma matching_token_known op k :
  matching_token (TicketOperation_normalize op) = OperationKind_as_str k ->
  exists b, TicketOperation_normalize op = Known k b.
Proof.
  pose proof (normalize_inv op) as Hinv.
  destruct (TicketOperation_normalize op) as [k' b|t|t]; cbn; intros Ht.
  - assert (k' = k) as -> by exact (as_str_inj k' k Ht). eauto.
  - destruct Hinv as (-> & _ & Hn). by rewrite Ht, from_wire_kind in Hn.
  - destruct Hinv as (-> & suffix & Hs & _).
    apply str_strip_prefix_spec in Hs. by rewrite Ht, kind_not_namespaced in Hs.
Qed.

(** ** Properties *)

(** Scheduling meets exactly the tokens that name the same operation: a
    token [t] is one of the encodings matched for [op] iff both have the same
    matching token, unless [op] is an unknown token of the reserved
    namespace, which matches nothing. *)
Theorem matching_tokens_iff op t :
  In t (matching_tokens (TicketOperation_normalize op)) <->
  is_unknown_namespaced (TicketOperation_normalize op) = false /\
  matching_token (TicketOperation_normalize t) = matching_token (TicketOperation_normalize op).
Proof.
  pose proof (normalize_inv op) as Hop. pose proof (normalize_inv t) as Ht.
  destruct (TicketOperation_normalize op) as [k b|c|u] eqn:En; cbn.
  - unfold TicketOperation_from. split.
    + intros [<-|[<-|[]]]; [rewrite normalize_bare|rewrite normalize_namespaced]; done.
    + intros [_ [b' Hk]%matching_token_known]. rewrite Hk in Ht.
      destruct b'; auto.
  - destruct Hop as (-> & Hns & Hnk). split.
    + intros [<-|[]]. by rewrite En.
    + intros [_ Heq]. left.
      destruct (TicketOperation_normalize t) as [k b|c'|u] eqn:Et; cbn in Heq.
      * by rewrite <- Heq in Hnk; unfold TicketOperation_from in Hnk; rewrite from_wire_kind in Hnk.
      * destruct Ht; congruence.
      * destruct Ht as (-> & s & Hs & _). rewrite Heq in Hs.
        apply str_strip_prefix_spec in Hs. congruence.
  - split; [done|]. by intros [? _].
Qed.

(** The encodings the scheduler builds without going through [new] are
    valid tokens, so a row written from them can always be read back. *)
Theorem matching_tokens_valid op t :
  validate_operation_token op = true ->
  In t (matching_tokens (TicketOperation_normalize op)) ->
  TicketOperation_from_stored t = Ok t.
Proof.
  intros Hv Hin. unfold TicketOperation_from_stored.
  enough (validate_operation_token t = true) as -> by done.
  pose proof (normalize_inv op) as Hop.
  destruct (TicketOperation_normalize op) as [k b|c|u]; cbn in Hin.
  - destruct Hin as [<-|[<-|[]]]; destruct k; reflexivity.
  - destruct Hop as (-> & _). destruct Hin as [<-|[]]. exact Hv.
  - done.
Qed.

Lemma matching_tokens_valid_witness :
  TicketOperation_from_stored "synthetic.workflow.operation.remux" =
  Ok "synthetic.workflow.operation.remux".
Proof.
  apply (matching_tokens_valid "remux").
  - reflexivity.
  - right; left; reflexivity.
Defined.

(** ** Node incarnation identifiers *)

Open Scope Z_scope.

Definition INCARNATION_ID_BYTES : nat := 16.
Definition INCARNATION_ID_HEX_LEN : nat := INCARNATION_ID_BYTES * 2.

(** The bytes of a [NodeIncarnationId]. *)
Abbreviation NodeIncarnationId := (list Z) (only parsing).

Definition byte_of (c : Ascii.ascii) : Z := Z.of_N (N_of_ascii c).

Definition lowercase_hex_value (c : Ascii.ascii) : option Z :=
  let byte := byte_of c in
  if (48 <=? byte) && (byte <=? 57) then Some (byte - 48)
  else if (97 <=? byte) && (byte <=? 102) then Some (byte - 97 + 10)
  else None.

(** The loop over [chunks_exact(2)]. *)
Fixpoint parse_hex_pairs (s : string) : option (list Z) :=
  match s with
  | String h (String l s') =>
      high ← lowercase_hex_value h;
      low ← lowercase_hex_value l;
      rest ← parse_hex_pairs s';
      Some (Z.lor (Z.shiftl high 4) low :: rest)
  | _ => Some []
  end.

Definition parse_incarnation_id (value : string) : option NodeIncarnationId :=
  if negb (Nat.eqb (String.length value) INCARNATION_ID_HEX_LEN) then None
  else parse_hex_pairs value.

Definition NodeIncarnationId_parse_database (value : string) : result VoomError NodeIncarnationId :=
  ok_or (parse_incarnation_id value) EDatabase.

(** [value.parse::<NodeIncarnationId>()]. *)
Definition NodeIncarnationId_from_str (value : string) : result VoomError NodeIncarnationId :=
  ok_or (parse_incarnation_id value) EConfig.

(** [{byte:02x}]: two lowercase hexadecimal digits. *)
Definition hex_digit (n : Z) : Ascii.ascii :=
  ascii_of_N (Z.to_N (if n <? 10 then n + 48 else n - 10 + 97)).

Fixpoint NodeIncarnationId_display (id : NodeIncarnationId) : string :=
  match id with
  | [] => EmptyString
  | b :: id' =>
      String (hex_digit (b / 16)) (String (hex_digit (b mod 16)) (NodeIncarnationId_display id'))
  end.

(** The invariant of the type: sixteen bytes. *)
Definition incarnation_id_ok (id : NodeIncarnationId) : Prop :=
  length id = INCARNATION_ID_BYTES /\ Forall (fun b => 0 <= b < 256) id.

(** ** Facts *)

Lemma hex_digit_value n : 0 <= n < 16 -> lowercase_hex_value (hex_digit n) = Some n.
Proof.
  intros Hn. unfold lowercase_hex_value, hex_digit, byte_of.
  destruct (Z.ltb_spec n 10); rewrite N_ascii_embedding, Z2N.id by lia.
  - rewrite (proj2 (andb_true_iff _ _)) by (split; apply Z.leb_le; lia). f_equal. lia.
  - rewrite (proj2 (andb_false_iff _ _)) by (right; apply Z.leb_gt; lia).
    rewrite (proj2 (andb_true_iff _ _)) by (split; apply Z.leb_le; lia). f_equal. lia.
Qed.

Lemma hex_value_digit c n : lowercase_hex_value c = Some n -> 0 <= n < 16 /\ hex_digit n = c.
Proof.
  unfold lowercase_hex_value, hex_digit.
  assert (forall z, z = byte_of c -> ascii_of_N (Z.to_N z) = c) as Hb
    by (intros z ->; unfold byte_of; rewrite N2Z.id; apply ascii_N_embedding).
  destruct ((48 <=? byte_of c) && (byte_of c <=? 57)) eqn:E1.
  - apply andb_true_iff in E1 as [E1%Z.leb_le E2%Z.leb_le]. intros [= <-].
    split; [lia|]. rewrite (proj2 (Z.ltb_lt _ _)) by lia. apply Hb. lia.
  - destruct ((97 <=? byte_of c) && (byte_of c <=? 102)) eqn:E2; [|discriminate].
    apply andb_true_iff in E2 as [E2%Z.leb_le E3%Z.leb_le]. intros [= <-].
    split; [lia|]. rewrite (proj2 (Z.ltb_ge _ _)) by lia. apply Hb. lia.
Qed.

Lemma nibbles_lor h l : 0 <= h < 16 -> 0 <= l < 16 -> Z.lor (Z.shiftl h 4) l = h * 16 + l.
Proof.
  intros Hh Hl. rewrite Z.shiftl_mul_pow2 by lia.
  enough (Z.land (h * 2 ^ 4) l = 0) by (pose proof (Z.add_lor_land (h * 2 ^ 4) l); lia).
  apply Z.bits_inj'. intros i Hi. rewrite Z.land_spec, Z.bits_0.
  destruct (Z.lt_ge_cases i 4).
  - by rewrite Z.mul_pow2_bits_low by lia.
  - destruct (decide (l = 0)) as [->|]; [by rewrite Z.bits_0, andb_false_r|].
    rewrite (Z.bits_above_log2 l) ; [apply andb_false_r|lia|].
    apply Z.log2_lt_pow2; [lia|]. apply (Z.lt_le_trans _ (2 ^ 4)); [lia|].
    apply Z.pow_le_mono_r; lia.
Qed.

Lemma display_length id : String.length (NodeIncarnationId_display id) = (length id * 2)%nat.
Proof. induction id as [|b id IH]; cbn; [done|]. by rewrite IH. Qed.

Lemma parse_display id :
  Forall (fun b => 0 <= b < 256) id ->
  parse_hex_pairs (NodeIncarnationId_display id) = Some id.
Proof.
  induction 1 as [|b id Hb _ IH]; cbn [NodeIncarnationId_display parse_hex_pairs]; [done|].
  assert (0 <= b / 16 < 16) by (split; [apply Z.div_pos|apply Z.div_lt_upper_bound]; lia).
  pose proof (Z.mod_pos_bound b 16 ltac:(lia)).
  rewrite !hex_digit_value, IH by done. cbn. rewrite nibbles_lor by done.
  do 2 f_equal. pose proof (Z.div_mod b 16 ltac:(lia)). lia.
Qed.

Lemma display_parse n s id :
  String.length s = (n * 2)%nat -> parse_hex_pairs s = Some id ->
  NodeIncarnationId_display id = s /\ length id = n /\ Forall (fun b => 0 <= b < 256) id.
Proof.
  revert s id; induction n as [|n IH]; intros s id Hlen Hp.
  - destruct s; [|discriminate]. cbn in Hp. by simplify_eq.
  - destruct s as [|h [|l s]]; try discriminate. cbn in Hlen. cbn [parse_hex_pairs] in Hp.
    destruct (lowercase_hex_value h) as [hv|] eqn:Hh; [|discriminate].
    destruct (lowercase_hex_value l) as [lv|] eqn:Hl; [|discriminate].
    destruct (parse_hex_pairs s) as [rest|] eqn:Hr; [|discriminate]. cbn in Hp. simplify_eq.
    apply hex_value_digit in Hh as [Hh <-]. apply hex_value_digit in Hl as [Hl <-].
    destruct (IH s rest) as (<- & <- & Hf); [lia|done|].
    rewrite nibbles_lor by done. cbn. split_and!; [|done|].
    + replace ((hv * 16 + lv) / 16) with hv by (apply Z.div_unique with lv; lia).
      replace ((hv * 16 + lv) mod 16) with lv by (apply Z.mod_unique with hv; lia). done.
    + constructor; [lia|done].
Qed.

(** an incarnation id survives the trip through its text, and the text
    is canonical: parsing accepts exactly the texts that display an id, so two
    different texts are never the same id. *)
Theorem incarnation_id_roundtrip value id :
  parse_incarnation_id value = Some id <->
  incarnation_id_ok id /\ NodeIncarnationId_display id = value.
Proof.
  unfold parse_incarnation_id, incarnation_id_ok.
  destruct (Nat.eqb_spec (String.length value) INCARNATION_ID_HEX_LEN) as [E|E]; cbn [negb].
  - split.
    + intros Hp. destruct (display_parse INCARNATION_ID_BYTES value id E Hp) as (? & ? & ?). auto.
    + intros [[Hl Hf] <-]. by apply parse_display.
  - split; [discriminate|]. intros [[Hl _] <-]. exfalso. apply E.
    by rewrite display_length, Hl.
Qed.
