(* ===== verification/Scheduler.v ===== *)
(** * Worker selection

    [voom-scheduler/src/lib.rs]: the scheduler scorer, which picks one
    candidate (ticket, worker, node) under hard gates, a weighted score and a
    tie-breaking key, and records a JSON explanation of every candidate; and
    the least-loaded selection by capacity utilization. *)

From S2P Require Import Prelude Json Vocab Operations.
From Stdlib Require Import ZArith Lia Bool Permutation.
From stdpp Require Import base strings list.

Open Scope Z_scope.

Definition SCORING_VERSION : Z := 1.

Record TicketCandidate := {
  tc_ticket_id : Z;
  tc_operation : TicketOperation;
  tc_priority : Z;
  tc_next_eligible_at_epoch_seconds : Z;
}.

Record WorkerCandidate := {
  wc_worker_id : Z;
  wc_node_id : Z;
  wc_executable : bool;
  wc_has_capability : bool;
  wc_has_grant : bool;
  wc_denied : bool;
  wc_active_leases : Z;
  wc_max_parallel : Z;
  wc_artifact_access : list ArtifactAccessMode;
}.

Record NodeCandidate := {
  nc_node_id : Z;
  nc_executable : bool;
  nc_heartbeat_fresh : bool;
  nc_active_leases : Z;
  nc_max_parallel_leases : Z;
}.

Record SchedulerCandidate := {
  cand_ticket : TicketCandidate;
  cand_worker : WorkerCandidate;
  cand_node : NodeCandidate;
}.

Record SelectedCandidate := {
  sel_ticket_id : Z;
  sel_worker_id : Z;
  sel_node_id : Z;
  sel_access_mode : ArtifactAccessMode;
  sel_score : Z;
}.

Inductive ScoreOutcome : Type := OutcomeSelected | OutcomeIdle | OutcomeNoEligibleCandidate.

Inductive ScoreReasonCode : Type :=
  | SR_Selected | SR_NoReadyTicket | SR_MissingCapability | SR_MissingGrant
  | SR_OperationDenied | SR_WorkerNotExecutable | SR_NodeNotExecutable
  | SR_HeartbeatExpired | SR_UnsupportedArtifactAccess | SR_WorkerCapacityFull
  | SR_NodeCapacityFull | SR_NoEligibleCandidate.

#[global] Instance ScoreReasonCode_eq_dec : EqDecision ScoreReasonCode.
Proof. solve_decision. Defined.

Definition ScoreReasonCode_as_str (r : ScoreReasonCode) : string :=
  match r with
  | SR_Selected => "selected"
  | SR_NoReadyTicket => "no_ready_ticket"
  | SR_MissingCapability => "missing_capability"
  | SR_MissingGrant => "missing_grant"
  | SR_OperationDenied => "operation_denied"
  | SR_WorkerNotExecutable => "worker_not_executable"
  | SR_NodeNotExecutable => "node_not_executable"
  | SR_HeartbeatExpired => "heartbeat_expired"
  | SR_UnsupportedArtifactAccess => "unsupported_artifact_access"
  | SR_WorkerCapacityFull => "worker_capacity_full"
  | SR_NodeCapacityFull => "node_capacity_full"
  | SR_NoEligibleCandidate => "no_eligible_candidate"
  end.

Definition ScoreReasonCode_priority (r : ScoreReasonCode) : Z :=
  match r with
  | SR_MissingCapability => 0
  | SR_MissingGrant => 1
  | SR_OperationDenied => 2
  | SR_WorkerNotExecutable => 3
  | SR_NodeNotExecutable => 4
  | SR_HeartbeatExpired => 5
  | SR_UnsupportedArtifactAccess => 6
  | SR_WorkerCapacityFull => 7
  | SR_NodeCapacityFull => 8
  | SR_Selected | SR_NoReadyTicket | SR_NoEligibleCandidate => 9
  end.

Definition ScoreReasonCode_parse (s : string) : option ScoreReasonCode :=
  assoc_str s
    [("selected", SR_Selected);
     ("no_ready_ticket", SR_NoReadyTicket);
     ("missing_capability", SR_MissingCapability);
     ("missing_grant", SR_MissingGrant);
     ("operation_denied", SR_OperationDenied);
     ("worker_not_executable", SR_WorkerNotExecutable);
     ("node_not_executable", SR_NodeNotExecutable);
     ("heartbeat_expired", SR_HeartbeatExpired);
     ("unsupported_artifact_access", SR_UnsupportedArtifactAccess);
     ("worker_capacity_full", SR_WorkerCapacityFull);
     ("node_capacity_full", SR_NodeCapacityFull);
     ("no_eligible_candidate", SR_NoEligibleCandidate)].

#[global] Instance ScoreReasonCode_vocabulary : Vocabulary ScoreReasonCode :=
  Build_Vocabulary ScoreReasonCode ScoreReasonCode_as_str ScoreReasonCode_parse
    ltac:(solve_vocabulary) ltac:(solve_vocabulary).

Record ScoreDecision := {
  sd_outcome : ScoreOutcome;
  sd_selected : option SelectedCandidate;
  sd_candidate_count : Z;
  sd_reason_code : ScoreReasonCode;
  sd_explanation : Json;
}.

Definition weights_json : Json :=
  JObj [("capability", JInt 1000); ("health", JInt 500); ("artifact_access", JInt 100);
        ("worker_capacity", JInt 50); ("node_capacity", JInt 20); ("locality", JInt 20);
        ("cost", JInt 20); ("tie_breaker", JInt 1)].

(** [if c { reasons.push(r) }] *)
Definition push_if (c : bool) (r : ScoreReasonCode) (reasons : list ScoreReasonCode) :
  list ScoreReasonCode := if c then (reasons ++ [r])%list else reasons.

Definition hard_gate_reasons (candidate : SchedulerCandidate)
    (access_mode : option ArtifactAccessMode) : list ScoreReasonCode :=
  let worker := cand_worker candidate in
  let node := cand_node candidate in
  let reasons := [] in
  let reasons := push_if (negb (wc_has_capability worker)) SR_MissingCapability reasons in
  let reasons := push_if (negb (wc_has_grant worker)) SR_MissingGrant reasons in
  let reasons := push_if (wc_denied worker) SR_OperationDenied reasons in
  let reasons := push_if (negb (wc_executable worker)) SR_WorkerNotExecutable reasons in
  let reasons := push_if (negb (nc_executable node)) SR_NodeNotExecutable reasons in
  let reasons := push_if (negb (nc_heartbeat_fresh node)) SR_HeartbeatExpired reasons in
  let reasons := push_if (match access_mode with None => true | Some _ => false end)
                   SR_UnsupportedArtifactAccess reasons in
  let reasons := push_if (wc_max_parallel worker <=? wc_active_leases worker)
                   SR_WorkerCapacityFull reasons in
  push_if (nc_max_parallel_leases node <=? nc_active_leases node) SR_NodeCapacityFull reasons.

Definition modes_contain (m : ArtifactAccessMode) (modes : list ArtifactAccessMode) : bool :=
  existsb (fun x => bool_decide (x = m)) modes.

Definition select_access_mode (modes : list ArtifactAccessMode) : option ArtifactAccessMode :=
  if modes_contain SharedMount modes then Some SharedMount
  else if modes_contain ControlPlanePlaceholder modes then Some ControlPlanePlaceholder
  else if modes_contain StagedOutputPlaceholder modes then Some StagedOutputPlaceholder
  else None.

Definition access_score (mode : ArtifactAccessMode) : Z :=
  match mode with
  | SharedMount => 100
  | ControlPlanePlaceholder => 50
  | StagedOutputPlaceholder => 25
  end.

Definition score_candidate (candidate : SchedulerCandidate) (mode : ArtifactAccessMode) : Z :=
  let worker_remaining := u_saturating_sub (wc_max_parallel (cand_worker candidate))
                            (wc_active_leases (cand_worker candidate)) in
  let node_remaining := u_saturating_sub (nc_max_parallel_leases (cand_node candidate))
                          (nc_active_leases (cand_node candidate)) in
  1000 + 500 + access_score mode + worker_remaining * 50 + node_remaining * 20.

Definition factor_json (candidate : SchedulerCandidate)
    (access_mode : option ArtifactAccessMode) (score : Z) : Json :=
  let worker := cand_worker candidate in
  let node := cand_node candidate in
  JObj
    [("capability",
      JInt (if wc_has_capability worker && wc_has_grant worker && negb (wc_denied worker)
            then 1000 else 0));
     ("health", JInt (if nc_executable node && nc_heartbeat_fresh node then 500 else 0));
     ("worker_capacity",
      JInt (u_saturating_sub (wc_max_parallel worker) (wc_active_leases worker) * 50));
     ("node_capacity",
      JInt (u_saturating_sub (nc_max_parallel_leases node) (nc_active_leases node) * 20));
     ("artifact_access", JInt (match access_mode with None => 0 | Some m => access_score m end));
     ("tie_breaker", JInt 0);
     ("total", JInt score)].

(** [(Reverse(priority), next_eligible_at, node_id, worker_id, ticket_id)] *)
Record TieKey := {
  tk_priority : Z;
  tk_next_eligible : Z;
  tk_node_id : Z;
  tk_worker_id : Z;
  tk_ticket_id : Z;
}.

Definition tie_key (candidate : SchedulerCandidate) : TieKey := {|
  tk_priority := tc_priority (cand_ticket candidate);
  tk_next_eligible := tc_next_eligible_at_epoch_seconds (cand_ticket candidate);
  tk_node_id := nc_node_id (cand_node candidate);
  tk_worker_id := wc_worker_id (cand_worker candidate);
  tk_ticket_id := tc_ticket_id (cand_ticket candidate);
|}.

(** The derived lexicographic order of the tuple, its first component reversed. *)
Definition tie_key_ltb (a b : TieKey) : bool :=
  (tk_priority b <? tk_priority a) ||
  (tk_priority a =? tk_priority b) &&
  ((tk_next_eligible a <? tk_next_eligible b) ||
   (tk_next_eligible a =? tk_next_eligible b) &&
   ((tk_node_id a <? tk_node_id b) ||
    (tk_node_id a =? tk_node_id b) &&
    ((tk_worker_id a <? tk_worker_id b) ||
     (tk_worker_id a =? tk_worker_id b) && (tk_ticket_id a <? tk_ticket_id b)))).

(** [Iterator::min_by_key]: the first of the least elements. *)
Fixpoint min_by_key {A} (key : A -> Z) (l : list A) : option A :=
  match l with
  | [] => None
  | x :: l' =>
      match min_by_key key l' with
      | Some y => if key y <? key x then Some y else Some x
      | None => Some x
      end
  end.

(** [filter_map] *)
Definition filter_map {A B} (f : A -> option B) (l : list A) : list B :=
  flat_map (fun x => match f x with Some y => [y] | None => [] end) l.

Definition first_rejection_reason (rows : list Json) : ScoreReasonCode :=
  let arrays := filter_map (fun row => j ← json_get row "reasons"; json_as_array j) rows in
  let strings := filter_map json_as_str (concat arrays) in
  let reasons := filter_map ScoreReasonCode_parse strings in
  default SR_NoEligibleCandidate (min_by_key ScoreReasonCode_priority reasons).

Definition access_mode_json (m : option ArtifactAccessMode) : Json :=
  match m with None => JNull | Some m => JStr (ArtifactAccessMode_as_str m) end.

(** One row of [explanation_candidates]. *)
Definition explanation_row (candidate : SchedulerCandidate)
    (access_mode : option ArtifactAccessMode) (reasons : list ScoreReasonCode)
    (eligible : bool) (score : Z) : Json :=
  JObj
    [("ticket_id", JInt (tc_ticket_id (cand_ticket candidate)));
     ("operation", JStr (tc_operation (cand_ticket candidate)));
     ("worker_id", JInt (wc_worker_id (cand_worker candidate)));
     ("node_id", JInt (nc_node_id (cand_node candidate)));
     ("eligible", JBool eligible);
     ("score", JInt score);
     ("selected_access_mode", access_mode_json access_mode);
     ("factors", factor_json candidate access_mode score);
     ("reasons", JArr (map (fun r => JStr (ScoreReasonCode_as_str r)) reasons))].

Definition explanation (operation : Json) (rows : list Json) : Json :=
  JObj [("scoring_version", JInt SCORING_VERSION); ("operation", operation);
        ("weights", weights_json); ("candidates", JArr rows)].

(** The state of the scoring loop. *)
Definition Best : Type := option (nat * Z * ArtifactAccessMode).

(** The body of [for (index, candidate) in candidates.iter().enumerate()]. *)
Definition score_step (candidates : list SchedulerCandidate)
    (acc : Best * list Json) (index : nat) (candidate : SchedulerCandidate) : Best * list Json :=
  let '(best, rows) := acc in
  let access_mode := select_access_mode (wc_artifact_access (cand_worker candidate)) in
  let reasons := hard_gate_reasons candidate access_mode in
  let eligible := match reasons, access_mode with [], Some _ => true | _, _ => false end in
  let score := match access_mode with
               | Some mode => if eligible then score_candidate candidate mode else 0
               | None => 0
               end in
  let best' :=
    match eligible, access_mode with
    | true, Some mode =>
        match best with
        | None => Some (index, score, mode)
        | Some (best_index, best_score, _) =>
            if (best_score <? score) ||
               ((score =? best_score) &&
                match candidates !! best_index with
                | Some b => tie_key_ltb (tie_key candidate) (tie_key b)
                | None => false
                end)
            then Some (index, score, mode) else best
        end
    | _, _ => best
    end in
  (best', (rows ++ [explanation_row candidate access_mode reasons eligible score])%list).

Fixpoint score_loop (candidates : list SchedulerCandidate) (acc : Best * list Json)
    (index : nat) (l : list SchedulerCandidate) : Best * list Json :=
  match l with
  | [] => acc
  | c :: l' => score_loop candidates (score_step candidates acc index c) (S index) l'
  end.

Definition SchedulerScorer_score (candidates : list SchedulerCandidate) :
    result VoomError ScoreDecision :=
  match candidates with
  | [] =>
      Ok {| sd_outcome := OutcomeIdle; sd_selected := None; sd_candidate_count := 0;
            sd_reason_code := SR_NoReadyTicket; sd_explanation := explanation JNull [] |}
  | first :: _ =>
      let operation := tc_operation (cand_ticket first) in
      if existsb (fun c => negb (String.eqb (tc_operation (cand_ticket c)) operation)) candidates
      then Err EInternal
      else if existsb (fun c => negb (wc_node_id (cand_worker c) =? nc_node_id (cand_node c)))
                candidates
      then Err EInternal
      else
        let '(best, rows) := score_loop candidates (None, []) 0 candidates in
        let expl := explanation (JStr operation) rows in
        match best with
        | Some (index, score, access_mode) =>
            match candidates !! index with
            | Some candidate =>
                Ok {| sd_outcome := OutcomeSelected;
                      sd_selected := Some {|
                        sel_ticket_id := tc_ticket_id (cand_ticket candidate);
                        sel_worker_id := wc_worker_id (cand_worker candidate);
                        sel_node_id := nc_node_id (cand_node candidate);
                        sel_access_mode := access_mode;
                        sel_score := score |};
                      sd_candidate_count := Z.of_nat (length candidates);
                      sd_reason_code := SR_Selected;
                      sd_explanation := expl |}
            | None => Err EInternal
            end
        | None =>
            Ok {| sd_outcome := OutcomeNoEligibleCandidate; sd_selected := None;
                  sd_candidate_count := Z.of_nat (length candidates);
                  sd_reason_code := first_rejection_reason rows;
                  sd_explanation := expl |}
        end
  end.

(** ** Least-loaded selection *)

Record WorkerView := {
  wv_worker_id : Z;
  wv_supports : list OperationKind;
  wv_active_leases : Z;
  wv_max_parallel : Z;
}.

(** The products are of [u32] values widened to [u64]; [less_loaded_no_overflow]
    below shows they fit. *)
Definition less_loaded (candidate current : WorkerView) : bool :=
  let candidate_load := wv_active_leases candidate * wv_max_parallel current in
  let current_load := wv_active_leases current * wv_max_parallel candidate in
  (candidate_load <? current_load) ||
  ((candidate_load =? current_load) && (wv_worker_id candidate <? wv_worker_id current)).

Definition worker_view_eligible (operation : OperationKind) (w : WorkerView) : bool :=
  existsb (fun k => bool_decide (k = operation)) (wv_supports w) &&
  negb (wv_max_parallel w <=? wv_active_leases w).

Definition select_step (operation : OperationKind) (selected : option WorkerView)
    (candidate : WorkerView) : option WorkerView :=
  if negb (worker_view_eligible operation candidate) then selected
  else
    let replace := match selected with
                   | None => true
                   | Some current => less_loaded candidate current
                   end in
    if replace then Some candidate else selected.

Definition select_least_loaded_worker (operation : OperationKind)
    (candidates : list WorkerView) : result VoomError Z :=
  match fold_left (select_step operation) candidates None with
  | None => Err ENoEligibleWorker
  | Some w => Ok (wv_worker_id w)
  end.

(** ** Specification *)

Definition cand_access (c : SchedulerCandidate) : option ArtifactAccessMode :=
  select_access_mode (wc_artifact_access (cand_worker c)).

Definition cand_reasons (c : SchedulerCandidate) : list ScoreReasonCode :=
  hard_gate_reasons c (cand_access c).

(** What the hard gates ask of a candidate, read off the domain. *)
Definition gates_open (c : SchedulerCandidate) : Prop :=
  wc_has_capability (cand_worker c) = true /\ wc_has_grant (cand_worker c) = true /\
  wc_denied (cand_worker c) = false /\ wc_executable (cand_worker c) = true /\
  nc_executable (cand_node c) = true /\ nc_heartbeat_fresh (cand_node c) = true /\
  wc_artifact_access (cand_worker c) <> [] /\
  wc_active_leases (cand_worker c) < wc_max_parallel (cand_worker c) /\
  nc_active_leases (cand_node c) < nc_max_parallel_leases (cand_node c).

Definition cand_score (c : SchedulerCandidate) : Z :=
  match cand_access c with Some m => score_candidate c m | None => 0 end.

(** [a] is chosen over [b]: a higher score, or the same score and a smaller
    tie key. *)
Definition beats (a b : SchedulerCandidate) : bool :=
  (cand_score b <? cand_score a) ||
  ((cand_score a =? cand_score b) && tie_key_ltb (tie_key a) (tie_key b)).

(** ** The order of candidates *)

Lemma tie_key_ltb_spec a b :
  tie_key_ltb a b = true <->
  tk_priority b < tk_priority a \/ tk_priority a = tk_priority b /\
  (tk_next_eligible a < tk_next_eligible b \/ tk_next_eligible a = tk_next_eligible b /\
   (tk_node_id a < tk_node_id b \/ tk_node_id a = tk_node_id b /\
    (tk_worker_id a < tk_worker_id b \/ tk_worker_id a = tk_worker_id b /\
     tk_ticket_id a < tk_ticket_id b))).
Proof.
  unfold tie_key_ltb. repeat (rewrite orb_true_iff || rewrite andb_true_iff).
  rewrite !Z.ltb_lt, !Z.eqb_eq. reflexivity.
Qed.

Lemma beats_spec a b :
  beats a b = true <->
  cand_score b < cand_score a \/
  cand_score a = cand_score b /\ tie_key_ltb (tie_key a) (tie_key b) = true.
Proof. unfold beats. by rewrite orb_true_iff, andb_true_iff, Z.ltb_lt, Z.eqb_eq. Qed.

Lemma beats_irrefl a : beats a a = false.
Proof.
  apply not_true_iff_false. rewrite beats_spec, tie_key_ltb_spec. lia.
Qed.

Lemma beats_trans a b c : beats a b = true -> beats b c = true -> beats a c = true.
Proof. rewrite !beats_spec, !tie_key_ltb_spec. lia. Qed.

(** Two candidates neither of which beats the other have the same key. *)
Lemma beats_total a b :
  beats a b = false -> beats b a = false ->
  cand_score a = cand_score b /\ tie_key a = tie_key b.
Proof.
  rewrite <- !not_true_iff_false, !beats_spec, !tie_key_ltb_spec. intros H1 H2.
  assert (cand_score a = cand_score b) as Hs by lia. split; [done|].
  destruct (tie_key a), (tie_key b); cbn in *. f_equal; lia.
Qed.

Lemma not_beats_trans a b c :
  beats b a = false -> beats c b = false -> beats c a = false.
Proof.
  rewrite <- !not_true_iff_false, !beats_spec, !tie_key_ltb_spec. lia.
Qed.

(** ** Gates *)

Lemma select_access_mode_none modes : select_access_mode modes = None <-> modes = [].
Proof.
  split; [|intros ->; reflexivity].
  destruct modes as [|m modes]; [done|]. unfold select_access_mode, modes_contain; cbn.
  destruct m; cbn; try discriminate.
  all: destruct (existsb _ modes); cbn; try discriminate.
  destruct (existsb _ modes); cbn; discriminate.
Qed.

Lemma push_if_nil c r l : push_if c r l = [] <-> c = false /\ l = [].
Proof.
  unfold push_if. destruct c.
  - split; [|by intros [? _]]. intros H. by destruct l.
  - tauto.
Qed.

Definition cand_eligible (c : SchedulerCandidate) : bool :=
  match cand_reasons c, cand_access c with [], Some _ => true | _, _ => false end.

Lemma cand_eligible_reasons c : cand_eligible c = true <-> cand_reasons c = [].
Proof.
  unfold cand_eligible, cand_reasons. destruct (hard_gate_reasons c (cand_access c)) eqn:E.
  - destruct (cand_access c) eqn:Ha; [done|].
    unfold hard_gate_reasons in E. rewrite !push_if_nil in E.
    destruct E as (_ & _ & Hn & _). discriminate.
  - split; discriminate.
Qed.

Lemma cand_eligible_gates c : cand_eligible c = true <-> gates_open c.
Proof.
  rewrite cand_eligible_reasons. unfold cand_reasons, hard_gate_reasons, gates_open.
  rewrite !push_if_nil, !negb_false_iff, !Z.leb_gt.
  assert ((match cand_access c with Some _ => false | None => true end = false) <->
          wc_artifact_access (cand_worker c) <> []) as ->.
  { rewrite <- select_access_mode_none. unfold cand_access.
    destruct (select_access_mode _); split; congruence. }
  tauto.
Qed.

(** ** The scoring loop *)

Section loop.
Context (candidates : list SchedulerCandidate).

(** What the loop has established after the first [n] candidates. *)
Definition best_inv (n : nat) (best : Best) : Prop :=
  match best with
  | None => forall j c, (j < n)%nat -> candidates !! j = Some c -> cand_eligible c = false
  | Some (i, s, m) =>
      exists c, (i < n)%nat /\ candidates !! i = Some c /\ cand_eligible c = true /\
        cand_access c = Some m /\ s = cand_score c /\
        forall j c', (j < n)%nat -> candidates !! j = Some c' -> cand_eligible c' = true ->
          beats c' c = false /\ ((j < i)%nat -> beats c c' = true)
  end.

Lemma score_step_eq best rows n c :
  score_step candidates (best, rows) n c =
  (match best with
   | _ =>
     if cand_eligible c then
       match cand_access c with
       | None => best
       | Some mode =>
         match best with
         | None => Some (n, cand_score c, mode)
         | Some (bi, bs, _) =>
           if (bs <? cand_score c) ||
              ((cand_score c =? bs) &&
               match candidates !! bi with
               | Some b => tie_key_ltb (tie_key c) (tie_key b) | None => false end)
           then Some (n, cand_score c, mode) else best
         end
       end
     else best
   end,
   (rows ++ [explanation_row c (cand_access c) (cand_reasons c) (cand_eligible c)
             (if cand_eligible c then cand_score c else 0)])%list).
Proof.
  unfold score_step, cand_eligible, cand_score, cand_reasons. fold (cand_access c).
  destruct (hard_gate_reasons c (cand_access c)), (cand_access c); reflexivity.
Qed.

Lemma best_inv_step n c best rows :
  candidates !! n = Some c -> best_inv n best ->
  best_inv (S n) (fst (score_step candidates (best, rows) n c)).
Proof.
  intros Hc Hinv. rewrite score_step_eq. cbn [fst].
  assert (forall j c', (j < S n)%nat -> candidates !! j = Some c' ->
            (j < n)%nat \/ (j = n /\ c' = c)) as Hcase.
  { intros j c' Hj Hc'. destruct (decide (j = n)) as [->|]; [right; split; congruence|lia]. }
  destruct (cand_eligible c) eqn:He.
  - destruct (cand_access c) as [mode|] eqn:Ha.
    2:{ unfold cand_eligible in He. rewrite Ha in He. by destruct (cand_reasons c). }
    destruct best as [[[bi bs] bm]|]; cbn in Hinv |- *.
    + destruct Hinv as (b & Hbi & Hb & Heb & Hab & -> & Hall). rewrite Hb.
      rewrite (Z.eqb_sym (cand_score c)). fold (tie_key c).
      destruct ((cand_score b <? cand_score c) || _) eqn:Hrep.
      * assert (beats c b = true) as Hcb.
        { unfold beats. by rewrite (Z.eqb_sym (cand_score c)). }
        exists c. repeat split; auto; try lia; intros; destruct (Hcase j c') as [?|[-> ->]]; auto.
        -- apply not_true_iff_false. intros Hc'c.
           destruct (Hall j c') as [Hn _]; auto.
           pose proof (beats_trans c' c b Hc'c Hcb). congruence.
        -- apply beats_irrefl.
        -- destruct (Hall j c') as [Hn _]; auto.
           destruct (beats c c') eqn:Hcc'; [done|].
           pose proof (not_beats_trans b c' c Hn Hcc'). congruence.
        -- lia.
      * assert (beats c b = false) as Hcb.
        { unfold beats. by rewrite (Z.eqb_sym (cand_score c)). }
        exists b. repeat split; auto; try lia; intros; destruct (Hcase j c') as [?|[-> ->]]; auto;
          try (apply (Hall j c'); auto); lia.
    + exists c. repeat split; auto; try lia; intros; destruct (Hcase j c') as [?|[-> ->]]; auto;
        try (rewrite (Hinv j c') in * by auto; congruence); try lia.
      apply beats_irrefl.
  - destruct best as [[[bi bs] bm]|]; cbn in Hinv |- *.
    + destruct Hinv as (b & Hbi & Hb & Heb & Hab & -> & Hall). exists b.
      repeat split; auto; try lia; intros; destruct (Hcase j c') as [?|[-> ->]];
        try congruence; apply (Hall j c'); auto.
    + intros j c' Hj Hc'. destruct (Hcase j c') as [?|[-> ->]]; eauto.
Qed.

Lemma score_loop_inv pre l best rows :
  candidates = (pre ++ l)%list -> best_inv (length pre) best ->
  best_inv (length candidates) (fst (score_loop candidates (best, rows) (length pre) l)).
Proof.
  revert pre best rows; induction l as [|c l IH]; intros pre best rows Heq Hinv;
    cbn [score_loop fst].
  - rewrite app_nil_r in Heq. by rewrite Heq.
  - assert (candidates !! length pre = Some c) as Hc.
    { rewrite Heq, lookup_app_r by lia. by rewrite Nat.sub_diag. }
    pose proof (best_inv_step (length pre) c best rows Hc Hinv) as Hstep.
    destruct (score_step candidates (best, rows) (length pre) c) as [best' rows'].
    replace (S (length pre)) with (length (pre ++ [c])%list) in Hstep |- *
      by (rewrite length_app; cbn; lia).
    apply IH; [|exact Hstep]. by rewrite Heq, <- app_assoc.
Qed.

Lemma score_loop_rows acc n l :
  snd (score_loop candidates acc n l) =
  (snd acc ++ map (fun c => explanation_row c (cand_access c) (cand_reasons c)
                     (cand_eligible c) (if cand_eligible c then cand_score c else 0)) l)%list.
Proof.
  revert acc n; induction l as [|c l IH]; intros [best rows] n; cbn [score_loop map].
  - by rewrite app_nil_r.
  - rewrite IH, score_step_eq. cbn [snd]. by rewrite <- app_assoc.
Qed.
End loop.

Lemma score_loop_best candidates :
  best_inv candidates (length candidates) (fst (score_loop candidates (None, []) 0 candidates)).
Proof.
  apply (score_loop_inv candidates [] candidates None []); [done|].
  cbn. intros j c Hj. lia.
Qed.

(** ** Decisions *)

Definition selected_of (c : SchedulerCandidate) (m : ArtifactAccessMode) : SelectedCandidate := {|
  sel_ticket_id := tc_ticket_id (cand_ticket c);
  sel_worker_id := wc_worker_id (cand_worker c);
  sel_node_id := nc_node_id (cand_node c);
  sel_access_mode := m;
  sel_score := cand_score c |}.

(** The two consistency checks in front of the loop. *)
Definition same_operation (cs : list SchedulerCandidate) : Prop :=
  forall c c', In c cs -> In c' cs -> tc_operation (cand_ticket c) = tc_operation (cand_ticket c').

Definition nodes_agree (cs : list SchedulerCandidate) : Prop :=
  forall c, In c cs -> wc_node_id (cand_worker c) = nc_node_id (cand_node c).

Lemma existsb_false {A} (f : A -> bool) l :
  existsb f l = false <-> forall x, In x l -> f x = false.
Proof.
  rewrite <- not_true_iff_false, existsb_exists. split.
  - intros H x Hx. apply not_true_iff_false. eauto.
  - intros H (x & Hx & Hf). rewrite (H x Hx) in Hf. discriminate.
Qed.

Lemma op_check_false first cs :
  In first cs ->
  existsb (fun c => negb (String.eqb (tc_operation (cand_ticket c))
             (tc_operation (cand_ticket first)))) cs = false <-> same_operation cs.
Proof.
  intros Hf. rewrite existsb_false. split.
  - intros H c c' Hc Hc'. pose proof (H c Hc) as H1. pose proof (H c' Hc') as H2.
    apply negb_false_iff, String.eqb_eq in H1, H2. congruence.
  - intros H c Hc. apply negb_false_iff, String.eqb_eq. by apply H.
Qed.

Lemma node_check_false cs :
  existsb (fun c => negb (wc_node_id (cand_worker c) =? nc_node_id (cand_node c))) cs = false <->
  nodes_agree cs.
Proof.
  rewrite existsb_false. unfold nodes_agree.
  split; intros H c Hc; specialize (H c Hc).
  - by apply negb_false_iff, Z.eqb_eq in H.
  - by apply negb_false_iff, Z.eqb_eq.
Qed.

Lemma in_lookup {A} (x : A) l : In x l <-> exists i, l !! i = Some x.
Proof. rewrite <- list_elem_of_In. apply list_elem_of_lookup. Qed.

(** How a decision on consistent candidates is made: the loop's winner, or a
    rejection when no candidate passes the gates. *)
Lemma score_consistent cs :
  cs <> [] -> same_operation cs -> nodes_agree cs ->
  (exists c m d, In c cs /\ cand_eligible c = true /\ cand_access c = Some m /\
     (forall c', In c' cs -> cand_eligible c' = true -> beats c' c = false) /\
     SchedulerScorer_score cs = Ok d /\ sd_outcome d = OutcomeSelected /\
     sd_selected d = Some (selected_of c m) /\ sd_reason_code d = SR_Selected) \/
  (exists d, (forall c, In c cs -> cand_eligible c = false) /\
     SchedulerScorer_score cs = Ok d /\ sd_outcome d = OutcomeNoEligibleCandidate /\
     sd_selected d = None /\
     sd_reason_code d = first_rejection_reason
       (map (fun c => explanation_row c (cand_access c) (cand_reasons c)
               (cand_eligible c) (if cand_eligible c then cand_score c else 0)) cs)).
Proof.
  intros Hne Hop Hnode. destruct cs as [|first l] eqn:Hcs; [done|]. rewrite <- Hcs in *.
  assert (In first cs) as Hfirst by (subst; left; done).
  assert (SchedulerScorer_score cs =
    let '(best, rows) := score_loop cs (None, []) 0 cs in
    let expl := explanation (JStr (tc_operation (cand_ticket first))) rows in
    match best with
    | Some (index, score, access_mode) =>
        match cs !! index with
        | Some candidate =>
            Ok {| sd_outcome := OutcomeSelected;
                  sd_selected := Some {|
                    sel_ticket_id := tc_ticket_id (cand_ticket candidate);
                    sel_worker_id := wc_worker_id (cand_worker candidate);
                    sel_node_id := nc_node_id (cand_node candidate);
                    sel_access_mode := access_mode; sel_score := score |};
                  sd_candidate_count := Z.of_nat (length cs);
                  sd_reason_code := SR_Selected; sd_explanation := expl |}
        | None => Err EInternal
        end
    | None =>
        Ok {| sd_outcome := OutcomeNoEligibleCandidate; sd_selected := None;
              sd_candidate_count := Z.of_nat (length cs);
              sd_reason_code := first_rejection_reason rows; sd_explanation := expl |}
    end) as ->.
  { rewrite Hcs at 1. unfold SchedulerScorer_score. rewrite <- Hcs.
    rewrite (proj2 (op_check_false first cs Hfirst) Hop).
    by rewrite (proj2 (node_check_false cs) Hnode). }
  pose proof (score_loop_best cs) as Hbest. pose proof (score_loop_rows cs (None, []) 0 cs) as Hrows.
  destruct (score_loop cs (None, []) 0 cs) as [[[[i s] m]|] rows]; cbn in Hbest, Hrows.
  - destruct Hbest as (c & Hi & Hc & He & Ha & -> & Hall). rewrite Hc.
    left. exists c, m. eexists. repeat split; cbn; eauto.
    + apply in_lookup; eauto.
    + intros c' [j Hj]%in_lookup He'. apply (Hall j c'); auto. by eapply lookup_lt_Some.
  - right. eexists. repeat split; cbn; eauto.
    + intros c [j Hj]%in_lookup. apply (Hbest j c); auto. by eapply lookup_lt_Some.
    + by rewrite Hrows.
Qed.

Lemma score_ok_consistent cs d :
  SchedulerScorer_score cs = Ok d -> cs = [] \/ same_operation cs /\ nodes_agree cs.
Proof.
  destruct cs as [|first l] eqn:Hcs; [auto|]. rewrite <- Hcs. intros H. right.
  assert (In first cs) as Hfirst by (subst; left; done).
  rewrite Hcs in H. unfold SchedulerScorer_score in H. rewrite <- Hcs in H.
  destruct (existsb _ cs) eqn:E1 in H; [discriminate|].
  apply op_check_false in E1; [|done].
  destruct (existsb _ cs) eqn:E2 in H; [discriminate|].
  by apply node_check_false in E2.
Qed.

(** ** Rejection reasons *)

Lemma min_by_key_none {A} (key : A -> Z) l : min_by_key key l = None <-> l = [].
Proof.
  destruct l as [|x l]; cbn; [done|]. split; [|done].
  destruct (min_by_key key l); [destruct (key _ <? _)|]; discriminate.
Qed.

Lemma min_by_key_some {A} (key : A -> Z) l x :
  min_by_key key l = Some x -> In x l /\ forall y, In y l -> key x <= key y.
Proof.
  revert x; induction l as [|z l IH]; cbn; intros x H; [discriminate|].
  destruct (min_by_key key l) as [y|] eqn:E.
  - destruct (IH y eq_refl) as [Hin Hle].
    destruct (Z.ltb_spec (key y) (key z)); injection H as <-; split; auto.
    + intros w [<-|Hw]; [lia|auto].
    + intros w [<-|Hw]; [lia|]. specialize (Hle w Hw). lia.
  - apply min_by_key_none in E as ->. injection H as <-.
    split; [auto|]. intros w [<-|[]]. lia.
Qed.

Lemma filter_map_app {A B} (f : A -> option B) l1 l2 :
  filter_map f (l1 ++ l2) = (filter_map f l1 ++ filter_map f l2)%list.
Proof. apply flat_map_app. Qed.

Lemma filter_map_map {A B C} (f : B -> option C) (g : A -> B) l :
  filter_map f (map g l) = filter_map (fun x => f (g x)) l.
Proof. unfold filter_map. induction l as [|x l IH]; cbn; [done|by rewrite IH]. Qed.

Lemma filter_map_total {A B} (f : A -> option B) (g : A -> B) l :
  (forall x, f x = Some (g x)) -> filter_map f l = map g l.
Proof. intros H. unfold filter_map. induction l as [|x l IH]; cbn; [done|by rewrite H, IH]. Qed.

(** Reading the reasons back from the explanation rows gives the reasons the
    gates computed: the JSON detour loses nothing. *)
Lemma first_rejection_reason_rows (g : SchedulerCandidate -> bool) (s : SchedulerCandidate -> Z) cs :
  first_rejection_reason
    (map (fun c => explanation_row c (cand_access c) (cand_reasons c) (g c) (s c)) cs) =
  default SR_NoEligibleCandidate
    (min_by_key ScoreReasonCode_priority (concat (map cand_reasons cs))).
Proof.
  unfold first_rejection_reason. do 2 f_equal.
  rewrite filter_map_map,
    (filter_map_total _ (fun c => map (fun r => JStr (ScoreReasonCode_as_str r)) (cand_reasons c)))
    by reflexivity.
  induction cs as [|c cs IH]; cbn [map concat]; [done|].
  rewrite !filter_map_app, IH. f_equal.
  rewrite filter_map_map, (filter_map_total _ ScoreReasonCode_as_str) by reflexivity.
  rewrite filter_map_map, (filter_map_total _ (fun r => r)), map_id; [done|].
  intros r. exact (from_wire_as_str r).
Qed.

(** When every candidate is rejected, the reported reason belongs to one of
    them and no candidate has a more fundamental one. *)
Lemma rejection_reason_spec cs :
  cs <> [] -> (forall c, In c cs -> cand_eligible c = false) ->
  let r := default SR_NoEligibleCandidate
    (min_by_key ScoreReasonCode_priority (concat (map cand_reasons cs))) in
  (exists c, In c cs /\ In r (cand_reasons c)) /\
  (forall c r', In c cs -> In r' (cand_reasons c) ->
     ScoreReasonCode_priority r <= ScoreReasonCode_priority r').
Proof.
  intros Hne Hno r. subst r.
  assert (exists r, In r (concat (map cand_reasons cs))) as [r0 Hr0].
  { destruct cs as [|c0 cs0]; [done|]. pose proof (Hno c0 (or_introl eq_refl)) as H0.
    destruct (cand_reasons c0) as [|r rs] eqn:E.
    - apply cand_eligible_reasons in E. congruence.
    - exists r. cbn. rewrite E. by left. }
  destruct (min_by_key _ _) as [r|] eqn:Em.
  2:{ apply min_by_key_none in Em. rewrite Em in Hr0. destruct Hr0. }
  apply min_by_key_some in Em as [Hrin Hmin]. split.
  - apply in_concat in Hrin as (rs & Hrs & Hr').
    apply in_map_iff in Hrs as (c & <- & Hc). eauto.
  - intros c r' Hc Hr'. apply Hmin, in_concat. exists (cand_reasons c).
    split; [by apply in_map|done].
Qed.

(** ** Properties *)

(** A selected candidate passed every hard gate, is reported with its own
    access mode and score, and no other candidate that passes the gates has a
    higher score, or the same score and a smaller tie key. *)
Theorem score_selects_best cs d :
  SchedulerScorer_score cs = Ok d -> sd_outcome d = OutcomeSelected ->
  exists c m, In c cs /\ gates_open c /\ cand_access c = Some m /\
    sd_selected d = Some (selected_of c m) /\
    forall c', In c' cs -> gates_open c' -> beats c' c = false.
Proof.
  intros Hd Ho. destruct (score_ok_consistent cs d Hd) as [->|[Hop Hn]].
  { injection Hd as <-. discriminate. }
  destruct (decide (cs = [])) as [->|Hne]. { injection Hd as <-. discriminate. }
  destruct (score_consistent cs Hne Hop Hn) as
    [(c & m & d' & Hin & He & Ha & Hall & Hd' & _ & Hs & _)|(d' & _ & Hd' & Ho' & _)].
  - assert (d' = d) as -> by congruence. exists c, m.
    repeat split; auto; try (by apply cand_eligible_gates).
    intros c' Hc' Hg. apply Hall, cand_eligible_gates; auto.
  - congruence.
Qed.

(** The decision is exhaustive: no candidate means idle, some candidate
    that passes the gates means a selection, and otherwise the reported reason
    is a reason the gates gave to some candidate, of the lowest priority value
    among the reasons of all candidates. *)
Theorem score_outcome_complete cs :
  same_operation cs -> nodes_agree cs ->
  exists d, SchedulerScorer_score cs = Ok d /\
    (cs = [] -> sd_outcome d = OutcomeIdle /\ sd_reason_code d = SR_NoReadyTicket) /\
    ((exists c, In c cs /\ gates_open c) <-> sd_outcome d = OutcomeSelected) /\
    (cs <> [] -> (forall c, In c cs -> ~ gates_open c) ->
       sd_outcome d = OutcomeNoEligibleCandidate /\ sd_selected d = None /\
       (exists c, In c cs /\ In (sd_reason_code d) (cand_reasons c)) /\
       (forall c r, In c cs -> In r (cand_reasons c) ->
          ScoreReasonCode_priority (sd_reason_code d) <= ScoreReasonCode_priority r)).
Proof.
  intros Hop Hn. destruct (decide (cs = [])) as [->|Hne].
  { eexists. split; [reflexivity|]. cbn. repeat split; try done.
    intros (c & [] & _). }
  destruct (score_consistent cs Hne Hop Hn) as
    [(c & m & d & Hin & He & Ha & Hall & Hd & Ho & Hs & _)|(d & Hno & Hd & Ho & Hs & Hr)].
  - exists d. apply cand_eligible_gates in He.
    split; [done|]. split; [done|]. split; [split; [done|]; intros _; eauto|].
    intros _ Hc. by destruct (Hc c Hin).
  - rewrite first_rejection_reason_rows in Hr.
    exists d. split; [done|]. split; [done|]. split.
    { split; [|congruence]. intros (c & Hc & Hg%cand_eligible_gates).
      rewrite Hno in Hg; [discriminate|done]. }
    intros _ _. rewrite Hr. split; [done|]. split; [done|].
    by apply rejection_reason_spec.
Qed.

(** The scorer fails only on inconsistent input, with an internal error:
    candidates of different operations, or a worker paired with another node.
    In particular the winner's index is always in range. *)
Theorem score_error_iff cs e :
  SchedulerScorer_score cs = Err e <->
  e = EInternal /\ cs <> [] /\ (~ same_operation cs \/ ~ nodes_agree cs).
Proof.
  split.
  - intros H. destruct (decide (cs = [])) as [->|Hne]; [discriminate|].
    destruct cs as [|first l] eqn:Hcs; [done|]. rewrite <- Hcs in *.
    assert (In first cs) as Hfirst by (subst; left; done).
    destruct (existsb (fun c => negb (String.eqb (tc_operation (cand_ticket c))
       (tc_operation (cand_ticket first)))) cs) eqn:E1.
    { rewrite Hcs in H. unfold SchedulerScorer_score in H. rewrite <- Hcs, E1 in H.
      injection H as <-. split; [done|]. split; [done|]. left. intros Hop.
      apply (op_check_false first cs Hfirst) in Hop. congruence. }
    destruct (existsb (fun c => negb (wc_node_id (cand_worker c) =? nc_node_id (cand_node c))) cs) eqn:E2.
    { rewrite Hcs in H. unfold SchedulerScorer_score in H. rewrite <- Hcs, E1, E2 in H.
      injection H as <-. split; [done|]. split; [done|]. right. intros Hn.
      apply node_check_false in Hn. congruence. }
    apply op_check_false in E1; [|done]. apply node_check_false in E2.
    destruct (score_consistent cs Hne E1 E2) as
      [(c & m & d & _ & _ & _ & _ & Hd & _)|(d & _ & Hd & _)]; congruence.
  - intros (-> & Hne & Hbad).
    destruct (SchedulerScorer_score cs) as [d|e] eqn:E.
    + apply score_ok_consistent in E as [->|[? ?]]; [done|tauto].
    + destruct cs as [|first l] eqn:Hcs; [done|]. rewrite <- Hcs in *.
      rewrite Hcs in E. unfold SchedulerScorer_score in E. rewrite <- Hcs in E.
      destruct (existsb _ cs); [congruence|]. destruct (existsb _ cs); [congruence|].
      destruct (score_loop cs (None, []) 0 cs) as [[[[i s] m]|] rows]; [|congruence].
      destruct (cs !! i); congruence.
Qed.

(** The choice does not depend on the order in which candidates are
    listed, as long as their tie keys are distinct. *)
Theorem score_order_independent cs cs' d d' :
  Permutation cs cs' -> (forall a b, In a cs -> In b cs -> tie_key a = tie_key b -> a = b) ->
  SchedulerScorer_score cs = Ok d -> SchedulerScorer_score cs' = Ok d' ->
  sd_selected d = sd_selected d' /\ sd_outcome d = sd_outcome d'.
Proof.
  intros Hp Hinj Hd Hd'.
  assert (forall c, In c cs <-> In c cs') as Hiff.
  { intros c; split; apply Permutation_in; [done|by symmetry]. }
  destruct (score_ok_consistent cs d Hd) as [->|[Hop Hn]].
  { apply Permutation_nil in Hp as ->. split; congruence. }
  destruct (decide (cs = [])) as [->|Hne].
  { apply Permutation_nil in Hp as ->. split; congruence. }
  assert (cs' <> []) as Hne'. { intros ->. by apply Permutation_sym, Permutation_nil in Hp. }
  destruct (score_ok_consistent cs' d' Hd') as [?|[Hop' Hn']]; [done|].
  destruct (score_consistent cs Hne Hop Hn) as
    [(c & m & d1 & Hin & He & Ha & Hall & E1 & Ho & Hs & _)|(d1 & Hno & E1 & Ho & Hs & _)];
  destruct (score_consistent cs' Hne' Hop' Hn') as
    [(c' & m' & d2 & Hin' & He' & Ha' & Hall' & E2 & Ho' & Hs' & _)|(d2 & Hno' & E2 & Ho' & Hs' & _)].
  - assert (c' = c) as ->.
    { apply Hiff in Hin'. symmetry. apply Hinj; auto. apply beats_total; auto.
      apply Hall'; auto. by apply Hiff. }
    split; congruence.
  - apply Hiff in Hin. rewrite Hno' in He; [discriminate|done].
  - apply Hiff in Hin'. rewrite Hno in He'; [discriminate|done].
  - split; congruence.
Qed.

(** Two gated candidates and one that lacks the capability, for the witnesses. *)
Definition example_candidate (ticket worker active : Z) (capable : bool) : SchedulerCandidate := {|
  cand_ticket := {| tc_ticket_id := ticket; tc_operation := "remux"; tc_priority := 5;
                    tc_next_eligible_at_epoch_seconds := 100 |};
  cand_worker := {| wc_worker_id := worker; wc_node_id := 1; wc_executable := true;
                    wc_has_capability := capable; wc_has_grant := true; wc_denied := false;
                    wc_active_leases := active; wc_max_parallel := 4;
                    wc_artifact_access := [StagedOutputPlaceholder; SharedMount] |};
  cand_node := {| nc_node_id := 1; nc_executable := true; nc_heartbeat_fresh := true;
                  nc_active_leases := 2; nc_max_parallel_leases := 10 |} |}.

Definition example_candidates : list SchedulerCandidate :=
  [example_candidate 7 3 1 false; example_candidate 8 4 1 true; example_candidate 9 5 0 true].

Lemma example_same_operation : same_operation example_candidates.
Proof. intros c c' [<-|[<-|[<-|[]]]] [<-|[<-|[<-|[]]]]; reflexivity. Qed.

Lemma example_nodes_agree : nodes_agree example_candidates.
Proof. intros c [<-|[<-|[<-|[]]]]; reflexivity. Qed.

Lemma score_selects_best_witness :
  exists c m, In c example_candidates /\ gates_open c /\ cand_access c = Some m /\
    Some {| sel_ticket_id := 9; sel_worker_id := 5; sel_node_id := 1;
            sel_access_mode := SharedMount; sel_score := 1960 |} = Some (selected_of c m) /\
    forall c', In c' example_candidates -> gates_open c' -> beats c' c = false.
Proof.
  refine (score_selects_best example_candidates _ eq_refl _).
  vm_compute. reflexivity.
Defined.

Lemma score_outcome_complete_witness :
  exists d, SchedulerScorer_score example_candidates = Ok d /\
    ((exists c, In c example_candidates /\ gates_open c) <-> sd_outcome d = OutcomeSelected).
Proof.
  destruct (score_outcome_complete example_candidates
              example_same_operation example_nodes_agree) as (d & Hd & _ & Hs & _).
  exists d. split; assumption.
Defined.

Lemma score_order_independent_witness :
  exists d d', SchedulerScorer_score example_candidates = Ok d /\
    SchedulerScorer_score (rev example_candidates) = Ok d' /\
    sd_selected d = sd_selected d' /\ sd_outcome d = sd_outcome d'.
Proof.
  eexists _, _. split; [reflexivity|]. split; [reflexivity|].
  apply (score_order_independent example_candidates (rev example_candidates)).
  - apply Permutation_rev.
  - intros a b Ha Hb Hk. cbn in Ha, Hb.
    destruct Ha as [<-|[<-|[<-|[]]]], Hb as [<-|[<-|[<-|[]]]]; try reflexivity;
      discriminate Hk.
  - reflexivity.
  - reflexivity.
Defined.

(** ** Bounds *)

(** The Rust types of a candidate's counters. *)
Definition candidate_typed (c : SchedulerCandidate) : Prop :=
  is_u32 (wc_active_leases (cand_worker c)) = true /\
  is_u32 (wc_max_parallel (cand_worker c)) = true /\
  is_u32 (nc_active_leases (cand_node c)) = true /\
  is_u32 (nc_max_parallel_leases (cand_node c)) = true.

(** The score is computed without [i64] overflow, and a candidate that
    passes the gates always scores above the base weights: at least one free
    worker slot and one free node slot count. *)
Theorem score_candidate_bounds c m :
  candidate_typed c ->
  is_i64 (score_candidate c m) = true /\
  (gates_open c -> 1000 + 500 + 25 + 50 + 20 <= score_candidate c m).
Proof.
  unfold candidate_typed, is_u32, is_i64, i64_min, i64_max, u32_max, gates_open, score_candidate,
    u_saturating_sub. rewrite !andb_true_iff, !Z.leb_le. intros H.
  assert (25 <= access_score m <= 100) by (destruct m; cbn; lia). split; lia.
Qed.

Lemma score_candidate_bounds_witness :
  is_i64 (score_candidate (example_candidate 7 3 1 true) SharedMount) = true.
Proof.
  apply (score_candidate_bounds (example_candidate 7 3 1 true) SharedMount).
  repeat split; reflexivity.
Defined.

(** ** Least-loaded selection *)

Definition worker_view_typed (w : WorkerView) : Prop :=
  is_u32 (wv_active_leases w) = true /\ is_u32 (wv_max_parallel w) = true.

Lemma less_loaded_no_overflow a b :
  worker_view_typed a -> worker_view_typed b ->
  is_u64 (wv_active_leases a * wv_max_parallel b) = true.
Proof.
  unfold worker_view_typed, is_u32, is_u64, u32_max, u64_max.
  rewrite !andb_true_iff, !Z.leb_le. nia.
Qed.

(** [a] is strictly preferred to [b]: lower utilization, or equal utilization
    and a smaller worker id. *)
Definition preferred (a b : WorkerView) : Prop :=
  wv_active_leases a * wv_max_parallel b < wv_active_leases b * wv_max_parallel a \/
  wv_active_leases a * wv_max_parallel b = wv_active_leases b * wv_max_parallel a /\
  wv_worker_id a < wv_worker_id b.

Lemma less_loaded_spec a b : less_loaded a b = true <-> preferred a b.
Proof.
  unfold less_loaded, preferred. by rewrite orb_true_iff, andb_true_iff, Z.eqb_eq, !Z.ltb_lt.
Qed.

Lemma worker_view_eligible_spec op w :
  worker_view_eligible op w = true <->
  In op (wv_supports w) /\ wv_active_leases w < wv_max_parallel w.
Proof.
  unfold worker_view_eligible. rewrite andb_true_iff, negb_true_iff, Z.leb_gt, existsb_exists.
  split; intros [H1 H2]; split; auto.
  - destruct H1 as (k & Hk & ->%bool_decide_eq_true). done.
  - exists op. split; [done|]. by apply bool_decide_eq_true.
Qed.

Lemma preferred_trans a b c :
  0 < wv_max_parallel a -> 0 < wv_max_parallel b -> 0 < wv_max_parallel c ->
  ~ preferred b a -> ~ preferred c b -> ~ preferred c a.
Proof. unfold preferred. intros. nia. Qed.

Lemma select_fold op l pre sel :
  (forall w, In w (pre ++ l) -> 0 <= wv_active_leases w) ->
  (match sel with
   | None => forall w, In w pre -> worker_view_eligible op w = false
   | Some s => In s pre /\ worker_view_eligible op s = true /\
       forall w, In w pre -> worker_view_eligible op w = true -> ~ preferred w s
   end) ->
  match fold_left (select_step op) l sel with
  | None => forall w, In w (pre ++ l) -> worker_view_eligible op w = false
  | Some s => In s (pre ++ l) /\ worker_view_eligible op s = true /\
      forall w, In w (pre ++ l) -> worker_view_eligible op w = true -> ~ preferred w s
  end.
Proof.
  revert pre sel; induction l as [|c l IH]; intros pre sel Hpos Hsel; cbn [fold_left].
  { by rewrite app_nil_r. }
  replace (pre ++ c :: l)%list with ((pre ++ [c]) ++ l)%list in * by (by rewrite <- app_assoc).
  apply IH; [done|]. unfold select_step.
  assert (forall w, In w (pre ++ [c]) <-> In w pre \/ w = c) as Hin.
  { intros w. rewrite in_app_iff. cbn. intuition auto. }
  destruct (worker_view_eligible op c) eqn:Ec; cbn.
  - destruct sel as [s|].
    + destruct Hsel as (Hs & Hes & Hall).
      destruct (less_loaded c s) eqn:El.
      * apply less_loaded_spec in El. split; [apply Hin; auto|]. split; [done|].
        intros w [Hw| ->]%Hin Hew; [|unfold preferred; lia].
        apply worker_view_eligible_spec in Ec as [_ Ec], Hes as [_ Hes].
        pose proof (proj1 (worker_view_eligible_spec _ _) Hew) as [_ Hew'].
        assert (0 <= wv_active_leases c) by (apply Hpos; rewrite !in_app_iff; cbn; auto).
        assert (0 <= wv_active_leases s) by (apply Hpos; rewrite !in_app_iff; cbn; auto).
        assert (0 <= wv_active_leases w) by (apply Hpos; rewrite !in_app_iff; cbn; auto).
        apply (preferred_trans c s w); try lia; [|auto].
        unfold preferred in *; lia.
      * split; [apply Hin; auto|]. split; [done|].
        intros w [Hw| ->]%Hin Hew; [auto|]. intros Hp%less_loaded_spec. congruence.
    + split; [apply Hin; auto|]. split; [done|].
      intros w [Hw| ->]%Hin Hew; [rewrite Hsel in Hew; congruence|unfold preferred; lia].
  - destruct sel as [s|].
    + destruct Hsel as (Hs & Hes & Hall). split; [apply Hin; auto|]. split; [done|].
      intros w [Hw| ->]%Hin Hew; [auto|congruence].
    + intros w [Hw| ->]%Hin; auto.
Qed.

(** [select_least_loaded_worker] returns the id of a worker that supports
    the operation with spare capacity and that no other such worker is
    preferred to; it fails, with [NoEligibleWorker], exactly when there is no
    such worker. *)
Theorem select_least_loaded_correct op ws :
  (forall w, In w ws -> worker_view_typed w) ->
  match select_least_loaded_worker op ws with
  | Ok id =>
      exists w, In w ws /\ wv_worker_id w = id /\
        In op (wv_supports w) /\ wv_active_leases w < wv_max_parallel w /\
        forall w', In w' ws -> In op (wv_supports w') ->
          wv_active_leases w' < wv_max_parallel w' -> ~ preferred w' w
  | Err e =>
      e = ENoEligibleWorker /\
      forall w, In w ws -> In op (wv_supports w) -> wv_max_parallel w <= wv_active_leases w
  end.
Proof.
  intros Hty.
  assert (forall w, In w ([] ++ ws)%list -> 0 <= wv_active_leases w) as Hpos.
  { intros w Hw. destruct (Hty w Hw) as [Ha _]. unfold is_u32 in Ha.
    rewrite andb_true_iff, !Z.leb_le in Ha. lia. }
  pose proof (select_fold op ws [] None Hpos (fun w (H : In w []) => match H with end)) as H.
  unfold select_least_loaded_worker. cbn [app] in H.
  destruct (fold_left (select_step op) ws None) as [s|].
  - destruct H as (Hs & He & Hall). apply worker_view_eligible_spec in He as [Ho Hl].
    exists s. repeat split; auto. intros w' Hw' Ho' Hl'. apply Hall; [done|].
    by apply worker_view_eligible_spec.
  - split; [done|]. intros w Hw Ho. specialize (H w Hw).
    apply not_true_iff_false in H. rewrite worker_view_eligible_spec in H.
    destruct (Z.le_gt_cases (wv_max_parallel w) (wv_active_leases w)); [done|tauto].
Qed.

Lemma select_least_loaded_correct_witness :
  exists w, In w [{| wv_worker_id := 1; wv_supports := [OpRemux];
                     wv_active_leases := 1; wv_max_parallel := 2 |};
                  {| wv_worker_id := 2; wv_supports := [OpRemux; OpHashFile];
                     wv_active_leases := 1; wv_max_parallel := 4 |}] /\ wv_worker_id w = 2.
Proof.
  pose proof (select_least_loaded_correct OpRemux
    [{| wv_worker_id := 1; wv_supports := [OpRemux];
        wv_active_leases := 1; wv_max_parallel := 2 |};
     {| wv_worker_id := 2; wv_supports := [OpRemux; OpHashFile];
        wv_active_leases := 1; wv_max_parallel := 4 |}]) as H.
  cbv zeta in H. destruct H as (w & Hw & Hid & _).
  - intros w [<-|[<-|[]]]; split; reflexivity.
  - exists w. split; [exact Hw|exact Hid].
Defined.
