(* ===== verification/Store.v ===== *)
(** * The SQLite store

    The tables of the execution core as typed maps from primary key to row,
    and the statements the repositories issue on them. A text column with a
    [CHECK] vocabulary is its enum (the [Vocabulary] instances are the
    encoding); a timestamp column is the ISO-8601 text the code writes, since
    the SQL compares that text. The formatter and parser of the [time] crate
    are a parameter, the class [Iso8601], with the two facts the code relies
    on in [Iso8601Laws]. SQLite itself is trusted to run the statements:
    I/O failures are not modelled, constraint violations are.

    [voom-store/src/repo/common.rs] is here too. *)

From S2P Require Import Prelude Json Vocab Operations.
From Stdlib Require Import ZArith Lia Bool String Ascii.
From stdpp Require Import base gmap strings list sorting.

Open Scope Z_scope.

Abbreviation Res := (result VoomError).

(** ** Timestamps *)

(** Instants and durations are counted in nanoseconds; an [OffsetDateTime] of
    the code is a UTC instant. *)
Definition NANOS_PER_SEC : Z := 1000000000.

(** [Duration::seconds] and [Duration::whole_seconds]. *)
Definition duration_seconds (n : Z) : Z := n * NANOS_PER_SEC.
Definition whole_seconds (d : Z) : Z := Z.quot d NANOS_PER_SEC.

Class Iso8601 := {
  format_text : Z -> option string;
  parse_text : string -> option Z;
}.

(** [Iso8601::DEFAULT] writes fixed-width UTC text with nanosecond precision:
    it reads back to the same instant, and text order is instant order. *)
Class Iso8601Laws `{Iso8601} := {
  parse_format : forall t s, format_text t = Some s -> parse_text s = Some t;
  format_order : forall t1 t2 s1 s2,
    format_text t1 = Some s1 -> format_text t2 = Some s2 ->
    String.ltb s1 s2 = (t1 <? t2);
}.

Definition text_lt (s t : string) : bool := String.ltb s t.
Definition text_le (s t : string) : bool := negb (String.ltb t s).
(** SQL's two-argument [max] on text. *)
Definition text_max (s t : string) : string := if text_lt s t then t else s.

(** The byte order of texts is a strict total order. *)
Lemma ascii_compare_trans a b c :
  Ascii.compare a b = Lt -> Ascii.compare b c = Lt -> Ascii.compare a c = Lt.
Proof. unfold Ascii.compare. rewrite !N.compare_lt_iff. lia. Qed.

Lemma ascii_compare_refl a : Ascii.compare a a = Eq.
Proof. apply N.compare_refl. Qed.

Lemma text_lt_compare s t : text_lt s t = true <-> String.compare s t = Lt.
Proof. unfold text_lt, String.ltb. destruct (String.compare s t); split; congruence. Qed.

Lemma text_lt_irrefl s : text_lt s s = false.
Proof.
  unfold text_lt, String.ltb. pose proof (String.compare_antisym s s) as H.
  destruct (String.compare s s); [done|discriminate H|done].
Qed.

Lemma text_lt_trans r s t : text_lt r s = true -> text_lt s t = true -> text_lt r t = true.
Proof.
  rewrite !text_lt_compare. revert s t.
  induction r as [|a r IH]; intros [|b s] [|c t]; cbn; try congruence.
  destruct (Ascii.compare a b) eqn:Eab; [|intros _|discriminate].
  - apply Ascii.compare_eq_iff in Eab as ->. destruct (Ascii.compare b c); eauto.
  - destruct (Ascii.compare b c) eqn:Ebc; [|intros _|discriminate].
    + apply Ascii.compare_eq_iff in Ebc as ->. by rewrite Eab.
    + by rewrite (ascii_compare_trans a b c).
Qed.

Lemma text_lt_total s t : text_lt s t = true \/ s = t \/ text_lt t s = true.
Proof.
  rewrite !text_lt_compare. pose proof (String.compare_antisym t s) as H.
  destruct (String.compare s t) eqn:E; [|auto|].
  - right; left. by apply String.compare_eq_iff.
  - right; right. by rewrite H.
Qed.

Lemma text_le_spec s t : text_le s t = true <-> text_lt s t = true \/ s = t.
Proof.
  unfold text_le. rewrite negb_true_iff. split.
  - intros H. destruct (text_lt_total s t) as [?|[?|H']]; auto. unfold text_lt in H'. congruence.
  - intros [H| ->]; [|apply text_lt_irrefl].
    destruct (String.ltb t s) eqn:E; [|done].
    pose proof (text_lt_trans s t s H E) as E'. by rewrite text_lt_irrefl in E'.
Qed.

Lemma text_le_trans r s t : text_le r s = true -> text_le s t = true -> text_le r t = true.
Proof.
  rewrite !text_le_spec. intros [H1| ->] [H2| ->]; auto. left. by eapply text_lt_trans.
Qed.

Lemma text_max_le_l s t : text_le s (text_max s t) = true.
Proof.
  unfold text_max. destruct (text_lt s t) eqn:E; apply text_le_spec; auto.
Qed.

Section common.
Context `{Iso8601}.

Definition iso8601 (t : Z) : Res string := ok_or (format_text t) EInternal.
Definition parse_iso8601 (s : string) : Res Z := ok_or (parse_text s) EDatabase.
End common.

(** [i64::try_from] of a [u64], and back. *)
Definition i64_from_u64 (v : Z) : Res Z :=
  if v <=? i64_max then Ok v else Err EDatabase.
Definition u64_from_i64 (v : Z) : Res Z :=
  if 0 <=? v then Ok v else Err EDatabase.
Definition u32_from_i64 (v : Z) : Res Z :=
  if is_u32 v then Ok v else Err EDatabase.

Lemma i64_from_u64_ok v i : i64_from_u64 v = Ok i <-> i = v /\ v <= i64_max.
Proof. unfold i64_from_u64. destruct (Z.leb_spec v i64_max); split; intros; try lia; intuition congruence. Qed.

Lemma u64_from_i64_ok v i : u64_from_i64 v = Ok i <-> i = v /\ 0 <= v.
Proof. unfold u64_from_i64. destruct (Z.leb_spec 0 v); split; intros; try lia; intuition congruence. Qed.

Lemma u32_from_i64_ok v i : u32_from_i64 v = Ok i <-> i = v /\ is_u32 v = true.
Proof. unfold u32_from_i64. destruct (is_u32 v); split; intros; intuition congruence. Qed.

Section common_facts.
Context `{Iso8601Laws}.

Lemma iso8601_ok t s : iso8601 t = Ok s <-> format_text t = Some s.
Proof. apply ok_or_ok. Qed.

Lemma parse_iso8601_ok t s : parse_iso8601 s = Ok t <-> parse_text s = Some t.
Proof. apply ok_or_ok. Qed.

(** A text column that holds an instant, as every write leaves it. *)
Definition stamped (s : string) : Prop := exists t, format_text t = Some s.
Definition parses (s : string) : Prop := is_Some (parse_text s).

Lemma format_stamped t s : format_text t = Some s -> stamped s.
Proof. intros Hf. by exists t. Qed.

Lemma stamped_parses s : stamped s -> parses s.
Proof. intros [t Hf]. exists t. by apply parse_format. Qed.

(** On stamps, text order is instant order. *)
Lemma text_lt_instant t1 t2 s1 s2 :
  format_text t1 = Some s1 -> format_text t2 = Some s2 ->
  text_lt s1 s2 = true <-> t1 < t2.
Proof. intros H1 H2. unfold text_lt. by rewrite (format_order _ _ _ _ H1 H2), Z.ltb_lt. Qed.

Lemma text_le_instant t1 t2 s1 s2 :
  format_text t1 = Some s1 -> format_text t2 = Some s2 ->
  text_le s1 s2 = true <-> t1 <= t2.
Proof.
  intros H1 H2. unfold text_le. rewrite (format_order _ _ _ _ H2 H1), negb_true_iff, Z.ltb_ge.
  done.
Qed.

Lemma parse_iso8601_format t s : format_text t = Some s -> parse_iso8601 s = Ok t.
Proof. intros Hf. apply parse_iso8601_ok, parse_format, Hf. Qed.
End common_facts.

#[export] Hint Resolve format_stamped stamped_parses : voom.

(** [tx_inv] that also reads off the conversions. *)
Ltac store_inv_step :=
  match goal with
  | H : i64_from_u64 _ = Ok _ |- _ => apply i64_from_u64_ok in H as [? ?]
  | H : u64_from_i64 _ = Ok _ |- _ => apply u64_from_i64_ok in H as [? ?]
  | H : u32_from_i64 _ = Ok _ |- _ => apply u32_from_i64_ok in H as [? ?]
  | H : iso8601 _ = Ok _ |- _ => apply iso8601_ok in H
  | H : parse_iso8601 _ = Ok _ |- _ => apply parse_iso8601_ok in H
  end.
Ltac store_inv := repeat ((tx_inv_step || store_inv_step); subst); subst.

(** ** Rows *)

Inductive JobState : Type := JobOpen | JobSucceeded | JobFailed | JobCancelled.
#[global] Instance JobState_eq_dec : EqDecision JobState.
Proof. solve_decision. Defined.

Definition JobState_as_str (s : JobState) : string :=
  match s with
  | JobOpen => "open" | JobSucceeded => "succeeded" | JobFailed => "failed"
  | JobCancelled => "cancelled"
  end.
Definition JobState_parse (s : string) : option JobState :=
  assoc_str s [("open", JobOpen); ("succeeded", JobSucceeded); ("failed", JobFailed);
               ("cancelled", JobCancelled)].
#[global] Instance JobState_vocabulary : Vocabulary JobState :=
  Build_Vocabulary JobState JobState_as_str JobState_parse
    ltac:(solve_vocabulary) ltac:(solve_vocabulary).

Inductive TicketState : Type :=
  | TicketPending | TicketReady | TicketLeased | TicketSucceeded | TicketFailed.
#[global] Instance TicketState_eq_dec : EqDecision TicketState.
Proof. solve_decision. Defined.

Definition TicketState_as_str (s : TicketState) : string :=
  match s with
  | TicketPending => "pending" | TicketReady => "ready" | TicketLeased => "leased"
  | TicketSucceeded => "succeeded" | TicketFailed => "failed"
  end.
Definition TicketState_parse (s : string) : option TicketState :=
  assoc_str s [("pending", TicketPending); ("ready", TicketReady); ("leased", TicketLeased);
               ("succeeded", TicketSucceeded); ("failed", TicketFailed)].
#[global] Instance TicketState_vocabulary : Vocabulary TicketState :=
  Build_Vocabulary TicketState TicketState_as_str TicketState_parse
    ltac:(solve_vocabulary) ltac:(solve_vocabulary).

Inductive LeaseState : Type := LeaseHeld | LeaseReleased | LeaseExpired | LeaseForceReleased.
#[global] Instance LeaseState_eq_dec : EqDecision LeaseState.
Proof. solve_decision. Defined.

Definition LeaseState_as_str (s : LeaseState) : string :=
  match s with
  | LeaseHeld => "held" | LeaseReleased => "released" | LeaseExpired => "expired"
  | LeaseForceReleased => "force_released"
  end.
Definition LeaseState_parse (s : string) : option LeaseState :=
  assoc_str s [("held", LeaseHeld); ("released", LeaseReleased); ("expired", LeaseExpired);
               ("force_released", LeaseForceReleased)].
#[global] Instance LeaseState_vocabulary : Vocabulary LeaseState :=
  Build_Vocabulary LeaseState LeaseState_as_str LeaseState_parse
    ltac:(solve_vocabulary) ltac:(solve_vocabulary).

Inductive ReleaseReason : Type :=
  | ReasonReleased | ReasonFailedRetriable | ReasonFailedTerminal | ReasonIssuerLost
  | ReasonForceReleased.
#[global] Instance ReleaseReason_eq_dec : EqDecision ReleaseReason.
Proof. solve_decision. Defined.

Definition ReleaseReason_as_str (r : ReleaseReason) : string :=
  match r with
  | ReasonReleased => "released" | ReasonFailedRetriable => "failed_retriable"
  | ReasonFailedTerminal => "failed_terminal" | ReasonIssuerLost => "issuer_lost"
  | ReasonForceReleased => "force_released"
  end.
Definition ReleaseReason_parse (s : string) : option ReleaseReason :=
  assoc_str s [("released", ReasonReleased); ("failed_retriable", ReasonFailedRetriable);
               ("failed_terminal", ReasonFailedTerminal); ("issuer_lost", ReasonIssuerLost);
               ("force_released", ReasonForceReleased)].
#[global] Instance ReleaseReason_vocabulary : Vocabulary ReleaseReason :=
  Build_Vocabulary ReleaseReason ReleaseReason_as_str ReleaseReason_parse
    ltac:(solve_vocabulary) ltac:(solve_vocabulary).

(** Rows, without their primary key. *)
Record JobRow := {
  j_kind : string; j_state : JobState; j_priority : Z;
  j_created_at : string; j_updated_at : string; j_epoch : Z;
}.

Record TicketRow := {
  t_job_id : option Z; t_kind : string; t_state : TicketState; t_priority : Z;
  t_payload : Json; t_result : option Json; t_attempt : Z; t_max_attempts : Z;
  t_next_eligible_at : string; t_created_at : string; t_state_changed_at : string;
  t_epoch : Z;
}.

Record LeaseRow := {
  l_ticket_id : Z; l_worker_id : Z; l_state : LeaseState; l_acquired_at : string;
  l_expires_at : string; l_last_heartbeat_at : string; l_ttl_seconds : Z;
  l_release_reason : option ReleaseReason; l_released_at : option string; l_epoch : Z;
}.

Record WorkerRow := {
  w_name : string; w_kind : WorkerKind; w_status : WorkerStatus; w_registered_at : string;
  w_last_seen_at : string; w_retired_at : option string; w_epoch : Z;
  w_node_id : option Z; w_node_incarnation_id : option string;
}.

(** The JSON columns of the next two are arrays of strings. *)
Record CapabilityRow := {
  c_worker_id : Z; c_operation : string; c_codecs : list string; c_hardware : list string;
  c_artifact_access : list string; c_extra : Json;
}.

Record GrantRow := {
  g_worker_id : Z; g_can_execute : list string; g_can_access_read : list string;
  g_can_access_write : list string; g_denies : list string; g_max_parallel : Json;
}.

(** [nodes] and [node_incarnations], the columns the execution core reads. *)
Record NodeRow := {
  nd_name : string; nd_kind : NodeKind; nd_status : NodeStatus; nd_last_seen_at : string;
}.

Record IncarnationRow := { i_node_id : Z; i_status : NodeIncarnationStatus }.

Record ClaimRow := {
  a_backend : string; a_worker_id : Z; a_boot_id : string; a_supervisor_pid : Z;
  a_supervisor_start_identity : option string; a_process_group_id : Z; a_capacity : Z;
  a_claimed_at : string;
}.

Record NodeLimitRow := {
  n_max_parallel_leases : Z; n_created_at : string; n_updated_at : string;
}.

(** [issues], for the kinds the execution core writes. *)
Record IssueRow := {
  is_kind : string; is_severity : IssueSeverity; is_priority : IssuePriority;
  is_priority_source : string; is_priority_reason : option string; is_status : string; is_title : string; is_body : string;
  is_created_at : string; is_updated_at : string; is_dedupe_key : option string;
}.

Record IssueLinkRow := {
  il_issue_id : Z; il_link_type : string; il_target_id : Z; il_created_at : string;
}.

(** The events of the execution core ([voom-events/src/payload/execution.rs]). *)
Inductive Event : Type :=
  | EvJobOpened (job_id : Z) (kind : string) (priority : Z)
  | EvJobSucceeded (job_id : Z)
  | EvJobFailed (job_id : Z) (reason : string)
  | EvJobCancelled (job_id : Z) (reason : string)
  | EvTicketCreated (ticket_id : Z) (job_id : option Z) (kind : string) (priority max_attempts : Z)
  | EvTicketReady (ticket_id : Z)
  | EvTicketLeased (ticket_id lease_id worker_id attempt : Z)
  | EvTicketSucceeded (ticket_id lease_id : Z)
  | EvTicketFailedRetriable (ticket_id attempt max_attempts : Z) (reason : string)
      (class : FailureClass) (next_eligible_at : Z)
  | EvTicketFailedTerminal (ticket_id attempt max_attempts : Z) (reason : string)
      (class : FailureClass) (issue_id : option Z)
  | EvTicketRequeuedAfterLeaseExpiry (ticket_id lease_id : Z)
  | EvTicketRequeuedAfterForceRelease (ticket_id lease_id : Z) (actor reason : string)
  | EvLeaseAcquired (lease_id ticket_id worker_id ttl_seconds expires_at : Z)
  | EvLeaseReleased (lease_id ticket_id : Z) (release_reason : string)
  | EvLeaseExpired (lease_id ticket_id : Z)
  | EvLeaseForceReleased (lease_id ticket_id : Z) (actor reason : string) (also_requeue : bool).

Inductive SubjectType : Type :=
  | SubjectSystem | SubjectJob | SubjectTicket | SubjectLease | SubjectNode | SubjectStorageRoot
  | SubjectScanSession | SubjectWorker | SubjectArtifactHandle | SubjectArtifactLocation
  | SubjectMediaWork | SubjectMediaVariant | SubjectAssetBundle | SubjectFileAsset
  | SubjectFileVersion | SubjectFileLocation | SubjectIdentityEvidence | SubjectMediaSnapshot
  | SubjectAssetUseLease | SubjectCommitIntent | SubjectExternalSystem.
#[global] Instance SubjectType_eq_dec : EqDecision SubjectType.
Proof. solve_decision. Defined.

Definition SubjectType_as_str (s : SubjectType) : string :=
  match s with
  | SubjectSystem => "system" | SubjectJob => "job" | SubjectTicket => "ticket"
  | SubjectLease => "lease" | SubjectNode => "node" | SubjectStorageRoot => "storage_root"
  | SubjectScanSession => "scan_session" | SubjectWorker => "worker"
  | SubjectArtifactHandle => "artifact_handle" | SubjectArtifactLocation => "artifact_location"
  | SubjectMediaWork => "media_work" | SubjectMediaVariant => "media_variant"
  | SubjectAssetBundle => "asset_bundle" | SubjectFileAsset => "file_asset"
  | SubjectFileVersion => "file_version" | SubjectFileLocation => "file_location"
  | SubjectIdentityEvidence => "identity_evidence" | SubjectMediaSnapshot => "media_snapshot"
  | SubjectAssetUseLease => "asset_use_lease" | SubjectCommitIntent => "commit_intent"
  | SubjectExternalSystem => "external_system"
  end.
Definition SubjectType_from_str (s : string) : option SubjectType :=
  assoc_str s
    [("system", SubjectSystem); ("job", SubjectJob); ("ticket", SubjectTicket);
    ("lease", SubjectLease); ("node", SubjectNode); ("storage_root", SubjectStorageRoot);
    ("scan_session", SubjectScanSession); ("worker", SubjectWorker);
    ("artifact_handle", SubjectArtifactHandle); ("artifact_location", SubjectArtifactLocation);
    ("media_work", SubjectMediaWork); ("media_variant", SubjectMediaVariant);
    ("asset_bundle", SubjectAssetBundle); ("file_asset", SubjectFileAsset);
    ("file_version", SubjectFileVersion); ("file_location", SubjectFileLocation);
    ("identity_evidence", SubjectIdentityEvidence); ("media_snapshot", SubjectMediaSnapshot);
    ("asset_use_lease", SubjectAssetUseLease); ("commit_intent", SubjectCommitIntent);
    ("external_system", SubjectExternalSystem)].
#[global] Instance SubjectType_vocabulary : Vocabulary SubjectType :=
  Build_Vocabulary SubjectType SubjectType_as_str SubjectType_from_str
    ltac:(solve_vocabulary) ltac:(solve_vocabulary).

Record EventRow := {
  e_occurred_at : string; e_subject_type : SubjectType; e_subject_id : option Z;
  e_payload : Event;
}.

(** ** The database *)

Record Db := MkDb {
  jobs : gmap Z JobRow;
  tickets : gmap Z TicketRow;
  ticket_dependencies : gset (Z * Z);
  workers : gmap Z WorkerRow;
  worker_capabilities : gmap Z CapabilityRow;
  worker_grants : gmap Z GrantRow;
  leases : gmap Z LeaseRow;
  nodes : gmap Z NodeRow;
  node_incarnations : gmap string IncarnationRow;
  accelerator_claims : gmap string ClaimRow;
  scheduler_node_limits : gmap Z NodeLimitRow;
  issues : gmap Z IssueRow;
  issue_links : list IssueLinkRow;
  events : list EventRow;
}.

Definition empty_db : Db := MkDb ∅ ∅ ∅ ∅ ∅ ∅ ∅ ∅ ∅ ∅ ∅ ∅ [] [].

Definition set_jobs (m : gmap Z JobRow) (d : Db) : Db :=
  MkDb m (tickets d) (ticket_dependencies d) (workers d) (worker_capabilities d)
    (worker_grants d) (leases d) (nodes d) (node_incarnations d) (accelerator_claims d)
    (scheduler_node_limits d) (issues d) (issue_links d) (events d).
Definition set_tickets (m : gmap Z TicketRow) (d : Db) : Db :=
  MkDb (jobs d) m (ticket_dependencies d) (workers d) (worker_capabilities d)
    (worker_grants d) (leases d) (nodes d) (node_incarnations d) (accelerator_claims d)
    (scheduler_node_limits d) (issues d) (issue_links d) (events d).
Definition set_dependencies (m : gset (Z * Z)) (d : Db) : Db :=
  MkDb (jobs d) (tickets d) m (workers d) (worker_capabilities d)
    (worker_grants d) (leases d) (nodes d) (node_incarnations d) (accelerator_claims d)
    (scheduler_node_limits d) (issues d) (issue_links d) (events d).
Definition set_workers (m : gmap Z WorkerRow) (d : Db) : Db :=
  MkDb (jobs d) (tickets d) (ticket_dependencies d) m (worker_capabilities d)
    (worker_grants d) (leases d) (nodes d) (node_incarnations d) (accelerator_claims d)
    (scheduler_node_limits d) (issues d) (issue_links d) (events d).
Definition set_capabilities (m : gmap Z CapabilityRow) (d : Db) : Db :=
  MkDb (jobs d) (tickets d) (ticket_dependencies d) (workers d) m
    (worker_grants d) (leases d) (nodes d) (node_incarnations d) (accelerator_claims d)
    (scheduler_node_limits d) (issues d) (issue_links d) (events d).
Definition set_grants (m : gmap Z GrantRow) (d : Db) : Db :=
  MkDb (jobs d) (tickets d) (ticket_dependencies d) (workers d) (worker_capabilities d)
    m (leases d) (nodes d) (node_incarnations d) (accelerator_claims d)
    (scheduler_node_limits d) (issues d) (issue_links d) (events d).
Definition set_leases (m : gmap Z LeaseRow) (d : Db) : Db :=
  MkDb (jobs d) (tickets d) (ticket_dependencies d) (workers d) (worker_capabilities d)
    (worker_grants d) m (nodes d) (node_incarnations d) (accelerator_claims d)
    (scheduler_node_limits d) (issues d) (issue_links d) (events d).
Definition set_claims (m : gmap string ClaimRow) (d : Db) : Db :=
  MkDb (jobs d) (tickets d) (ticket_dependencies d) (workers d) (worker_capabilities d)
    (worker_grants d) (leases d) (nodes d) (node_incarnations d) m
    (scheduler_node_limits d) (issues d) (issue_links d) (events d).
Definition set_node_limits (m : gmap Z NodeLimitRow) (d : Db) : Db :=
  MkDb (jobs d) (tickets d) (ticket_dependencies d) (workers d) (worker_capabilities d)
    (worker_grants d) (leases d) (nodes d) (node_incarnations d) (accelerator_claims d)
    m (issues d) (issue_links d) (events d).
Definition set_issues (m : gmap Z IssueRow) (ls : list IssueLinkRow) (d : Db) : Db :=
  MkDb (jobs d) (tickets d) (ticket_dependencies d) (workers d) (worker_capabilities d)
    (worker_grants d) (leases d) (nodes d) (node_incarnations d) (accelerator_claims d)
    (scheduler_node_limits d) m ls (events d).
Definition set_events (l : list EventRow) (d : Db) : Db :=
  MkDb (jobs d) (tickets d) (ticket_dependencies d) (workers d) (worker_capabilities d)
    (worker_grants d) (leases d) (nodes d) (node_incarnations d) (accelerator_claims d)
    (scheduler_node_limits d) (issues d) (issue_links d) l.

Abbreviation M := (Tx Db VoomError).

(** ** Statements *)

(** The row id SQLite gives a new row of a rowid table: one more than the
    largest in use. *)
Definition next_rowid {A} (m : gmap Z A) : Z := map_fold (fun k _ acc => Z.max k acc) 0 m + 1.

(** [UPDATE t SET .. WHERE id = ? AND cond RETURNING ..]: the new row when the
    condition holds, nothing affected otherwise. *)
Definition update_row {A} (id : Z) (cond : A -> bool) (upd : A -> A) (m : gmap Z A) :
    option (A * gmap Z A) :=
  match m !! id with
  | Some r => if cond r then Some (upd r, <[id := upd r]> m) else None
  | None => None
  end.

Definition key_le {A} (x y : Z * A) : Prop := x.1 <= y.1.
#[global] Instance key_le_dec {A} : RelDecision (@key_le A).
Proof. intros x y. unfold key_le. apply _. Defined.
#[global] Instance key_le_trans {A} : Transitive (@key_le A).
Proof. intros x y z. unfold key_le. lia. Qed.
#[global] Instance key_le_total {A} : Total (@key_le A).
Proof. intros x y. unfold key_le. lia. Qed.

(** [SELECT .. FROM t ORDER BY id ASC]. *)
Definition rows_asc {A} (m : gmap Z A) : list (Z * A) :=
  merge_sort key_le (map_to_list m).

(** [SELECT .. FROM t WHERE cond ORDER BY id ASC]. *)
Definition select_asc {A} (cond : Z -> A -> bool) (m : gmap Z A) : list (Z * A) :=
  List.filter (fun kv => cond kv.1 kv.2) (rows_asc m).

(** [SELECT COUNT( * ) FROM t WHERE cond]. *)
Definition count_where {A} (cond : Z -> A -> bool) (m : gmap Z A) : Z :=
  Z.of_nat (length (List.filter (fun kv => cond kv.1 kv.2) (map_to_list m))).

(** The keyset page of the [list] commands:
    [WHERE cond AND (?2 IS NULL OR id < ?2) ORDER BY id DESC LIMIT ?3]. *)
Definition keyset_page {A} (cond : A -> bool) (after_id : option Z) (limit : Z)
    (m : gmap Z A) : list (Z * A) :=
  take (Z.to_nat limit)
    (rev (select_asc (fun id r => cond r &&
       match after_id with None => true | Some a => id <? a end) m)).

(** ** Facts about statements *)

Lemma next_rowid_gt {A} (m : gmap Z A) k x : m !! k = Some x -> k < next_rowid m.
Proof.
  unfold next_rowid. revert k x.
  apply (map_fold_weak_ind (fun acc (m : gmap Z A) =>
    forall k x, m !! k = Some x -> k < acc + 1)).
  - intros k x H. by rewrite lookup_empty in H.
  - intros i y m' acc Hi IH k x H.
    destruct (decide (i = k)) as [->|Hne]; [lia|].
    rewrite lookup_insert_ne in H by done. apply IH in H. lia.
Qed.

Lemma next_rowid_fresh {A} (m : gmap Z A) : m !! next_rowid m = None.
Proof.
  destruct (m !! next_rowid m) as [x|] eqn:E; [|done]. apply next_rowid_gt in E. lia.
Qed.

Lemma next_rowid_pos {A} (m : gmap Z A) : 0 < next_rowid m.
Proof.
  unfold next_rowid.
  apply (map_fold_weak_ind (fun acc (_ : gmap Z A) => 0 < acc + 1)); [lia|].
  intros i y m' acc _ IH. lia.
Qed.

Lemma update_row_some {A} id (cond : A -> bool) upd m r' m' :
  update_row id cond upd m = Some (r', m') <->
  exists r, m !! id = Some r /\ cond r = true /\ r' = upd r /\ m' = <[id := upd r]> m.
Proof.
  unfold update_row. destruct (m !! id) as [r|] eqn:E.
  - destruct (cond r) eqn:Hc; split.
    + intros [= <- <-]. eauto 6.
    + intros (r1 & [= <-] & _ & -> & ->). done.
    + discriminate.
    + intros (r1 & [= <-] & Hc' & _). congruence.
  - split; [discriminate|]. intros (r1 & [=] & _).
Qed.

Lemma rows_asc_in {A} (m : gmap Z A) k x : In (k, x) (rows_asc m) <-> m !! k = Some x.
Proof.
  unfold rows_asc. rewrite <- elem_of_map_to_list, <- list_elem_of_In.
  split; intros H.
  - by rewrite (merge_sort_Permutation key_le (map_to_list m)) in H.
  - by rewrite (merge_sort_Permutation key_le (map_to_list m)).
Qed.

Lemma select_asc_in {A} cond (m : gmap Z A) k x :
  In (k, x) (select_asc cond m) <-> m !! k = Some x /\ cond k x = true.
Proof. unfold select_asc. rewrite filter_In, rows_asc_in. done. Qed.

Lemma rows_asc_NoDup {A} (m : gmap Z A) : NoDup (rows_asc m).*1.
Proof.
  unfold rows_asc. rewrite (merge_sort_Permutation key_le (map_to_list m)).
  apply NoDup_fst_map_to_list.
Qed.

Lemma rows_asc_sorted {A} (m : gmap Z A) : StronglySorted key_le (rows_asc m).
Proof. apply StronglySorted_merge_sort; apply _. Qed.

Lemma count_where_pos {A} cond (m : gmap Z A) : 0 <= count_where cond m.
Proof. unfold count_where. lia. Qed.

Lemma count_where_zero {A} cond (m : gmap Z A) :
  count_where cond m = 0 <-> forall k x, m !! k = Some x -> cond k x = false.
Proof.
  unfold count_where. split.
  - intros H k x Hk. destruct (cond k x) eqn:Hc; [|done]. exfalso.
    assert (In (k, x) (List.filter (fun kv => cond kv.1 kv.2) (map_to_list m))) as Hin.
    { apply filter_In. split; [|done]. by apply list_elem_of_In, elem_of_map_to_list. }
    destruct (List.filter _ _); [destruct Hin|cbn in H; lia].
  - intros H. destruct (List.filter _ _) as [|[k x] l] eqn:E; [done|]. exfalso.
    assert (In (k, x) (List.filter (fun kv => cond kv.1 kv.2) (map_to_list m))) as Hin
      by (rewrite E; left; done).
    apply filter_In in Hin as [Hin Hc]. apply list_elem_of_In, elem_of_map_to_list in Hin.
    cbn in Hc. rewrite (H k x Hin) in Hc. discriminate.
Qed.

Lemma length_filter_perm {A} (f : A -> bool) l l' :
  Permutation l l' -> length (List.filter f l) = length (List.filter f l').
Proof.
  induction 1; cbn; try done.
  - by destruct (f x); cbn; rewrite IHPermutation.
  - by destruct (f x), (f y).
  - congruence.
Qed.

Lemma count_where_insert_new {A} cond (m : gmap Z A) k x :
  m !! k = None ->
  count_where cond (<[k := x]> m) = count_where cond m + (if cond k x then 1 else 0).
Proof.
  intros Hk. unfold count_where.
  rewrite (length_filter_perm _ _ _ (map_to_list_insert m k x Hk)). cbn.
  destruct (cond k x); cbn; lia.
Qed.

(** ** Keyset pagination *)

(** Every row a caller sees when it follows the continuation token: the last
    id of a page is the [after_id] of the next request, until a page is empty. *)
Fixpoint keyset_walk {A} (fuel : nat) (cond : A -> bool) (after_id : option Z) (limit : Z)
    (m : gmap Z A) : list (Z * A) :=
  match fuel with
  | O => []
  | S fuel' =>
      let page := keyset_page cond after_id limit m in
      match last page with
      | None => []
      | Some (id, _) => page ++ keyset_walk fuel' cond (Some id) limit m
      end
  end.

Definition key_gt {A} (x y : Z * A) : Prop := y.1 < x.1.

(** The rows of a filter, newest first. *)
Definition rows_desc {A} (cond : A -> bool) (m : gmap Z A) : list (Z * A) :=
  rev (select_asc (fun _ => cond) m).

Definition below {A} (after_id : option Z) (kv : Z * A) : bool :=
  match after_id with None => true | Some a => kv.1 <? a end.

Lemma filter_filter_andb {A} (f g : A -> bool) l :
  List.filter f (List.filter g l) = List.filter (fun x => g x && f x) l.
Proof.
  induction l as [|x l IH]; cbn; [done|]. destruct (g x); cbn; [|done].
  destruct (f x); by rewrite IH.
Qed.

Lemma keyset_page_eq {A} (cond : A -> bool) after limit m :
  keyset_page cond after limit m =
  take (Z.to_nat limit) (List.filter (below after) (rows_desc cond m)).
Proof.
  unfold keyset_page, rows_desc. f_equal. rewrite filter_rev. f_equal.
  unfold select_asc. by rewrite filter_filter_andb.
Qed.

Lemma sorted_strict_filter {A} (f : Z * A -> bool) l :
  StronglySorted key_le l -> NoDup l.*1 ->
  StronglySorted (fun x y => x.1 < y.1) (List.filter f l).
Proof.
  induction 1 as [|x l Hl IH Hx]; cbn; [constructor|]. intros [Hn Hd]%NoDup_cons.
  destruct (f x); [|by apply IH]. constructor; [by apply IH|].
  rewrite Forall_forall in Hx |- *. intros y Hy%list_elem_of_In.
  apply filter_In in Hy as [Hy%list_elem_of_In _].
  specialize (Hx y Hy). unfold key_le in Hx.
  enough (x.1 <> y.1) by lia. intros E. apply Hn. apply list_elem_of_fmap. eauto.
Qed.

Lemma select_asc_sorted {A} cond (m : gmap Z A) :
  StronglySorted (fun x y => x.1 < y.1) (select_asc cond m).
Proof. apply sorted_strict_filter; [apply rows_asc_sorted|apply rows_asc_NoDup]. Qed.

Lemma StronglySorted_rev {A} (R : A -> A -> Prop) l :
  StronglySorted R l -> StronglySorted (fun x y => R y x) (rev l).
Proof.
  induction 1 as [|x l Hl IH Hx]; cbn; [constructor|].
  apply StronglySorted_app. split_and!; [|done|repeat constructor].
  intros a b Ha%list_elem_of_In Hb%list_elem_of_singleton. subst b.
  rewrite Forall_forall in Hx. apply Hx. apply list_elem_of_In. by apply in_rev.
Qed.

Lemma rows_desc_sorted {A} (cond : A -> bool) m : StronglySorted key_gt (rows_desc cond m).
Proof.
  apply (StronglySorted_rev (fun x y : Z * A => x.1 < y.1)).
  apply sorted_strict_filter; [apply rows_asc_sorted|apply rows_asc_NoDup].
Qed.

(** On a strictly descending list the token cuts a suffix. *)
Lemma filter_below_suffix {A} (pre post : list (Z * A)) x :
  StronglySorted key_gt ((pre ++ [x]) ++ post) ->
  List.filter (below (Some x.1)) ((pre ++ [x]) ++ post) = post.
Proof.
  intros (Hc & Hpre & Hpost)%StronglySorted_app.
  apply StronglySorted_app in Hpre as (Hc' & _ & _).
  rewrite !List.filter_app. cbn. rewrite Z.ltb_irrefl.
  assert (List.filter (below (Some x.1)) pre = []) as ->.
  { destruct (List.filter _ pre) as [|y l] eqn:E; [done|].
    assert (In y (List.filter (below (Some x.1)) pre)) as [Hy Hb]%filter_In by (rewrite E; by left).
    apply Z.ltb_lt in Hb. specialize (Hc' y x).
    unfold key_gt in Hc'. rewrite list_elem_of_In in Hc'. specialize (Hc' Hy). set_solver by lia. }
  cbn. apply forallb_filter_id, forallb_forall. intros y Hy. apply Z.ltb_lt.
  apply (Hc x y); [set_solver|by apply list_elem_of_In].
Qed.

Lemma keyset_walk_suffix {A} (cond : A -> bool) limit m fuel pre post after :
  1 <= limit -> rows_desc cond m = pre ++ post ->
  List.filter (below after) (rows_desc cond m) = post ->
  (length post < fuel)%nat ->
  keyset_walk fuel cond after limit m = post.
Proof.
  intros Hl. revert pre post after.
  induction fuel as [|fuel IH]; intros pre post after Hd Hf Hlen; [lia|]. cbn.
  rewrite keyset_page_eq, Hf.
  destruct (last (take (Z.to_nat limit) post)) as [[id r]|] eqn:Hlast.
  - apply last_Some in Hlast as [page Hpage]. rewrite Hpage.
    pose proof (take_drop (Z.to_nat limit) post) as Htd. rewrite Hpage in Htd.
    rewrite (IH (pre ++ page ++ [(id, r)]) (drop (Z.to_nat limit) post)); [done| | |].
    + rewrite Hd, <- Htd at 1. by rewrite <- !app_assoc.
    + rewrite Hd, <- Htd at 1. rewrite (app_assoc pre (page ++ [_])), (app_assoc pre page).
      apply (filter_below_suffix (pre ++ page) _ (id, r)).
      rewrite <- !app_assoc, (app_assoc page). rewrite Htd, <- Hd. apply rows_desc_sorted.
    + apply (f_equal length) in Htd. rewrite !length_app in Htd. cbn in Htd. lia.
  - apply last_None in Hlast. destruct post; [done|].
    destruct (Z.to_nat limit) eqn:?; [lia|discriminate].
Qed.

(** following the continuation tokens of a list command visits every
    matching row exactly once, newest first, whatever the page size, and
    stops: one request more than there are rows always suffices. *)
Theorem keyset_walk_complete {A} (cond : A -> bool) (limit : Z) (m : gmap Z A) :
  1 <= limit ->
  keyset_walk (S (List.length (rows_desc cond m))) cond None limit m = rows_desc cond m /\
  StronglySorted key_gt (rows_desc cond m) /\
  (forall id r, In (id, r) (rows_desc cond m) <-> m !! id = Some r /\ cond r = true).
Proof.
  intros Hl. split_and!.
  - apply (keyset_walk_suffix cond limit m _ []); [done|done| |lia].
    by apply forallb_filter_id, forallb_forall.
  - apply rows_desc_sorted.
  - intros id r. unfold rows_desc. rewrite <- in_rev. apply select_asc_in.
Qed.

Lemma keyset_walk_complete_witness :
  keyset_walk 4 (fun n : nat => negb (Nat.eqb n 7)) None 2
    (<[1 := 5%nat]> (<[2 := 7%nat]> (<[3 := 5%nat]> (<[9 := 6%nat]> ∅)))) =
  [(9, 6%nat); (3, 5%nat); (1, 5%nat)].
Proof.
  exact (proj1 (keyset_walk_complete (fun n : nat => negb (Nat.eqb n 7)) 2
    (<[1 := 5%nat]> (<[2 := 7%nat]> (<[3 := 5%nat]> (<[9 := 6%nat]> ∅)))) ltac:(lia))).
Defined.

(** A strictly sorted list is determined by its elements. *)
Lemma sorted_unique {A} (R : A -> A -> Prop) (l1 l2 : list A) :
  (forall x y, R x y -> R y x -> False) ->
  StronglySorted R l1 -> StronglySorted R l2 -> (forall x, In x l1 <-> In x l2) -> l1 = l2.
Proof.
  intros Hasym H1. revert l2; induction H1 as [|x l1 Hl1 IH Hx]; intros l2 H2 Hin.
  - destruct l2 as [|y l2]; [done|]. exfalso. apply (Hin y). by left.
  - destruct H2 as [|y l2 Hl2 Hy].
    { exfalso. apply (Hin x). by left. }
    rewrite Forall_forall in Hx, Hy. setoid_rewrite list_elem_of_In in Hx.
    setoid_rewrite list_elem_of_In in Hy.
    assert (x = y) as ->.
    { destruct (proj1 (Hin x)) as [->|Hx2]; [by left|done|].
      destruct (proj2 (Hin y)) as [->|Hy2]; [by left|done|].
      exfalso. eapply Hasym; eauto. }
    f_equal. apply IH; [done|]. intros z. split; intros Hz.
    + destruct (proj1 (Hin z)) as [->|?]; [by right|exfalso; eauto|done].
    + destruct (proj2 (Hin z)) as [->|?]; [by right|exfalso; eauto|done].
Qed.

Lemma NoDup_fst_filter {A B} (f : A * B -> bool) (l : list (A * B)) :
  NoDup l.*1 -> NoDup (List.filter f l).*1.
Proof.
  induction l as [|[a b] l IH]; cbn; [done|]. intros [Ha Hl]%NoDup_cons.
  destruct (f (a, b)); [|by apply IH]. cbn. apply NoDup_cons. split; [|by apply IH].
  intros Hin. apply Ha. apply list_elem_of_fmap in Hin as ([a' b'] & -> & Hin).
  apply list_elem_of_fmap. exists (a', b'). split; [done|].
  apply list_elem_of_In in Hin. apply filter_In in Hin as [Hin _]. by apply list_elem_of_In.
Qed.

Lemma count_where_ext {A} (f g : Z -> A -> bool) (m : gmap Z A) :
  (forall k x, m !! k = Some x -> f k x = g k x) -> count_where f m = count_where g m.
Proof.
  intros Hfg. unfold count_where. do 2 f_equal.
  assert (forall kv, In kv (map_to_list m) -> f kv.1 kv.2 = g kv.1 kv.2) as Hl.
  { intros [k x] Hin%list_elem_of_In%elem_of_map_to_list. by apply Hfg. }
  induction (map_to_list m) as [|kv l IH]; cbn; [done|].
  rewrite (Hl kv), IH; [done| |by left]. intros kv' ?. apply Hl. by right.
Qed.

Lemma count_where_update {A} (f : Z -> A -> bool) (m : gmap Z A) k x x' :
  m !! k = Some x -> f k x' = f k x -> count_where f (<[k := x']> m) = count_where f m.
Proof.
  intros Hk Hf. rewrite <- (insert_delete_id m k x Hk) at 2. rewrite <- insert_delete_eq.
  rewrite !count_where_insert_new by apply lookup_delete_eq. by rewrite Hf.
Qed.

(** ** A codec that satisfies the timestamp laws

    Eight big-endian bytes: fixed width, so that text order is numeric order,
    as for the ISO text. The witnesses run the model with it. *)

Fixpoint be_text (n : nat) (z : Z) : string :=
  match n with
  | O => EmptyString
  | S n' =>
      String (ascii_of_N (Z.to_N (z / 256 ^ Z.of_nat n'))) (be_text n' (z mod 256 ^ Z.of_nat n'))
  end.

Fixpoint be_value (s : string) : Z :=
  match s with
  | EmptyString => 0
  | String c s' => Z.of_N (N_of_ascii c) * 256 ^ Z.of_nat (String.length s') + be_value s'
  end.

Lemma be_text_length n z : String.length (be_text n z) = n.
Proof. revert z; induction n as [|n IH]; intros z; cbn; [done|by rewrite IH]. Qed.

Lemma be_digit n z :
  0 <= z < 256 ^ Z.of_nat (S n) -> 0 <= z / 256 ^ Z.of_nat n < 256.
Proof.
  intros Hz. rewrite Nat2Z.inj_succ, Z.pow_succ_r in Hz by lia.
  assert (0 < 256 ^ Z.of_nat n) by (apply Z.pow_pos_nonneg; lia).
  split; [apply Z.div_pos; lia|apply Z.div_lt_upper_bound; lia].
Qed.

Lemma be_digit_ascii n z :
  0 <= z < 256 ^ Z.of_nat (S n) ->
  N_of_ascii (ascii_of_N (Z.to_N (z / 256 ^ Z.of_nat n))) = Z.to_N (z / 256 ^ Z.of_nat n).
Proof. intros Hz%be_digit. apply N_ascii_embedding. lia. Qed.

Lemma be_value_text n z : 0 <= z < 256 ^ Z.of_nat n -> be_value (be_text n z) = z.
Proof.
  revert z; induction n as [|n IH]; intros z Hz; cbn [be_text be_value].
  { change (256 ^ Z.of_nat 0) with 1 in Hz. lia. }
  assert (0 < 256 ^ Z.of_nat n) by (apply Z.pow_pos_nonneg; lia).
  rewrite be_digit_ascii, be_text_length, IH by (try apply Z.mod_pos_bound; lia).
  pose proof (be_digit n z Hz). rewrite Z2N.id by lia.
  pose proof (Z.div_mod z (256 ^ Z.of_nat n)). lia.
Qed.

Lemma be_text_compare n a b :
  0 <= a < 256 ^ Z.of_nat n -> 0 <= b < 256 ^ Z.of_nat n ->
  String.compare (be_text n a) (be_text n b) = (a ?= b).
Proof.
  revert a b; induction n as [|n IH]; intros a b Ha Hb; cbn [be_text].
  { change (256 ^ Z.of_nat 0) with 1 in *. assert (a = b) as -> by lia. by rewrite Z.compare_refl. }
  assert (0 < 256 ^ Z.of_nat n) as Hp by (apply Z.pow_pos_nonneg; lia).
  cbn [String.compare]. unfold Ascii.compare.
  rewrite !be_digit_ascii by done.
  pose proof (be_digit n a Ha). pose proof (be_digit n b Hb).
  pose proof (Z.div_mod a (256 ^ Z.of_nat n)). pose proof (Z.div_mod b (256 ^ Z.of_nat n)).
  pose proof (Z.mod_pos_bound a _ Hp). pose proof (Z.mod_pos_bound b _ Hp).
  destruct (N.compare_spec (Z.to_N (a / 256 ^ Z.of_nat n)) (Z.to_N (b / 256 ^ Z.of_nat n))) as [E|E|E].
  - rewrite IH by lia. apply Z2N.inj in E; [|lia..].
    destruct (Z.compare_spec (a mod 256 ^ Z.of_nat n) (b mod 256 ^ Z.of_nat n));
      symmetry; [apply Z.compare_eq_iff|apply Z.compare_lt_iff|apply Z.compare_gt_iff]; nia.
  - symmetry. apply Z.compare_lt_iff. nia.
  - symmetry. apply Z.compare_gt_iff. nia.
Qed.

Definition be_instant (t : Z) : bool := (0 <=? t) && (t <? 256 ^ 8).

Definition be_iso8601 : Iso8601 := {|
  format_text := fun t => if be_instant t then Some (be_text 8 t) else None;
  parse_text := fun s => if (String.length s =? 8)%nat then Some (be_value s) else None;
|}.

Lemma be_instant_spec t : be_instant t = true <-> 0 <= t < 256 ^ Z.of_nat 8.
Proof. unfold be_instant. rewrite andb_true_iff, Z.leb_le, Z.ltb_lt. done. Qed.

Lemma be_format t s : @format_text be_iso8601 t = Some s -> be_instant t = true /\ s = be_text 8 t.
Proof.
  change (@format_text be_iso8601 t) with (if be_instant t then Some (be_text 8 t) else None).
  destruct (be_instant t); [|discriminate]. intros H. split; [done|congruence].
Qed.

Lemma be_iso8601_laws : @Iso8601Laws be_iso8601.
Proof.
  constructor.
  - intros t s H. apply be_format in H as [E ->]. apply be_instant_spec in E.
    change (@parse_text be_iso8601 (be_text 8 t)) with
      (if (String.length (be_text 8 t) =? 8)%nat then Some (be_value (be_text 8 t)) else None).
    rewrite be_text_length, be_value_text by done. done.
  - intros t1 t2 s1 s2 H1 H2. apply be_format in H1 as [E1 ->]. apply be_format in H2 as [E2 ->].
    apply be_instant_spec in E1, E2. unfold String.ltb. rewrite be_text_compare by done. done.
Qed.
