(* ===== verification/Jobs.v ===== *)
(** * Jobs

    [voom-store/src/repo/execution/jobs.rs]: the journal of operator-initiated
    work. A job is opened once and closed at most once. *)

From S2P Require Import Prelude Json Vocab Operations Store.
From Stdlib Require Import ZArith Lia Bool.
From stdpp Require Import base gmap strings list sorting.

Open Scope Z_scope.

Record NewJob := { nj_kind : string; nj_priority : Z; nj_created_at : Z }.

Record Job := {
  job_id : Z; job_kind : string; job_state : JobState; job_priority : Z;
  job_created_at : Z; job_updated_at : Z; job_epoch : Z;
}.

(** [ORDER BY priority DESC, id ASC]. *)
Definition job_order (x y : Z * JobRow) : Prop :=
  j_priority y.2 < j_priority x.2 \/ (j_priority y.2 = j_priority x.2 /\ x.1 <= y.1).
#[global] Instance job_order_dec : RelDecision job_order.
Proof. intros x y. unfold job_order. apply _. Defined.

Section jobs.
Context `{Iso8601}.

Definition row_to_job (row : Z * JobRow) : Res Job :=
  id ← u64_from_i64 row.1;
  created ← parse_iso8601 (j_created_at row.2);
  updated ← parse_iso8601 (j_updated_at row.2);
  epoch ← u64_from_i64 (j_epoch row.2);
  Ok {| job_id := id; job_kind := j_kind row.2; job_state := j_state row.2;
        job_priority := j_priority row.2; job_created_at := created;
        job_updated_at := updated; job_epoch := epoch |}.

Definition Job_create_in_tx (input : NewJob) : M Job :=
  created ← lift (iso8601 (nj_created_at input));
  rowid ← gets (fun d => next_rowid (jobs d));
  _ ← modify (fun d => set_jobs (<[rowid := {|
    j_kind := nj_kind input; j_state := JobOpen; j_priority := nj_priority input;
    j_created_at := created; j_updated_at := created; j_epoch := 0 |}]> (jobs d)) d);
  id ← lift (u64_from_i64 rowid);
  mret {| job_id := id; job_kind := nj_kind input; job_state := JobOpen;
          job_priority := nj_priority input; job_created_at := nj_created_at input;
          job_updated_at := nj_created_at input; job_epoch := 0 |}.

Definition Job_create (input : NewJob) : M Job := atomically (Job_create_in_tx input).

Definition Job_get (id : Z) : M (option Job) :=
  id ← lift (i64_from_u64 id);
  getsR (fun d => transpose ((fun r => row_to_job (id, r)) <$> (jobs d !! id))).

Definition job_state_matches (state : option JobState) (r : JobRow) : bool :=
  match state with None => true | Some s => bool_decide (j_state r = s) end.

Definition Job_list (state : option JobState) (after_id : option Z) (limit : Z) :
    M (list Job) :=
  after ← lift (transpose (i64_from_u64 <$> after_id));
  getsR (fun d => collect row_to_job
    (keyset_page (job_state_matches state) after limit (jobs d))).

Definition Job_list_by_state (state : JobState) (limit : Z) : M (list Job) :=
  getsR (fun d => collect row_to_job (take (Z.to_nat limit)
    (merge_sort job_order
       (List.filter (fun kv => job_state_matches (Some state) kv.2) (map_to_list (jobs d)))))).

Definition close_job_row (next : JobState) (updated : string) (r : JobRow) : JobRow := {|
  j_kind := j_kind r; j_state := next; j_priority := j_priority r;
  j_created_at := j_created_at r; j_updated_at := updated; j_epoch := j_epoch r + 1 |}.

Definition transition_open_to (id : Z) (next : JobState) (now : Z) : M Job :=
  updated ← lift (iso8601 now);
  key ← lift (i64_from_u64 id);
  res ← gets (fun d =>
    update_row key (fun r => bool_decide (j_state r = JobOpen)) (close_job_row next updated)
      (jobs d));
  match res with
  | None =>
      state ← gets (fun d => j_state <$> (jobs d !! key));
      match state with None => throw ENotFound | Some _ => throw EConflict end
  | Some (_, jobs') =>
      _ ← modify (set_jobs jobs');
      row ← getsR (fun d => transpose ((fun r => row_to_job (key, r)) <$> (jobs d !! key)));
      lift (ok_or row EInternal)
  end.

Definition Job_succeed_in_tx (id now : Z) : M Job := transition_open_to id JobSucceeded now.
Definition Job_fail_in_tx (id now : Z) : M Job := transition_open_to id JobFailed now.
Definition Job_cancel_in_tx (id now : Z) : M Job := transition_open_to id JobCancelled now.
Definition Job_succeed (id now : Z) : M Job := atomically (Job_succeed_in_tx id now).
Definition Job_fail (id now : Z) : M Job := atomically (Job_fail_in_tx id now).
Definition Job_cancel (id now : Z) : M Job := atomically (Job_cancel_in_tx id now).
End jobs.

(** ** Facts *)

Section job_facts.
Context `{Iso8601Laws}.

(** Every stored row decodes: what [Job_get] and the lists rely on. *)
Definition job_readable (k : Z) (r : JobRow) : Prop := exists j, row_to_job (k, r) = Ok j.
Definition jobs_readable (d : Db) : Prop := map_Forall job_readable (jobs d).

Lemma job_readable_spec k r :
  job_readable k r <->
  0 <= k /\ 0 <= j_epoch r /\ is_Some (parse_text (j_created_at r)) /\
  is_Some (parse_text (j_updated_at r)).
Proof.
  unfold job_readable, row_to_job, u64_from_i64, parse_iso8601. cbn. split.
  - intros [j Hj]. destruct (Z.leb_spec 0 k); [|discriminate Hj].
    destruct (parse_text (j_created_at r)) eqn:?; [|discriminate Hj].
    destruct (parse_text (j_updated_at r)) eqn:?; [|discriminate Hj].
    destruct (Z.leb_spec 0 (j_epoch r)); [|discriminate Hj]. eauto.
  - intros (Hk & He & [c Hc] & [u Hu]).
    apply Z.leb_le in Hk, He. rewrite Hk, He, Hc, Hu. cbn. eauto.
Qed.

Lemma close_job_readable k r next now ts :
  format_text now = Some ts -> job_readable k r -> job_readable k (close_job_row next ts r).
Proof.
  rewrite !job_readable_spec. intros Hf (? & ? & ? & _). cbn.
  rewrite (parse_format _ _ Hf). repeat split; [lia|lia|done|eauto].
Qed.

Lemma transition_open_to_ok id next now d j d' :
  transition_open_to id next now d = (Ok j, d') ->
  exists r ts,
    jobs d !! id = Some r /\ j_state r = JobOpen /\ format_text now = Some ts /\
    d' = set_jobs (<[id := close_job_row next ts r]> (jobs d)) d /\
    row_to_job (id, close_job_row next ts r) = Ok j.
Proof.
  intros Ht. unfold transition_open_to in Ht. store_inv.
  destruct (update_row id _ _ (jobs d)) as [[r' m']|] eqn:Hu; store_inv.
  - apply update_row_some in Hu as (r & Hr & Hs & -> & ->).
    apply bool_decide_eq_true in Hs. cbn in *. rewrite lookup_insert_eq in *. cbn in *.
    destruct (row_to_job _) eqn:Hj; [|discriminate].
    exists r, x. simplify_eq/=. eauto 10.
  - destruct (j_state <$> jobs d !! id); discriminate.
Qed.

Lemma Job_create_ok input d j d' :
  Job_create_in_tx input d = (Ok j, d') ->
  exists ts, format_text (nj_created_at input) = Some ts /\
    job_id j = next_rowid (jobs d) /\ job_state j = JobOpen /\
    d' = set_jobs (<[next_rowid (jobs d) := {|
      j_kind := nj_kind input; j_state := JobOpen; j_priority := nj_priority input;
      j_created_at := ts; j_updated_at := ts; j_epoch := 0 |}]> (jobs d)) d.
Proof.
  intros Hc. unfold Job_create_in_tx in Hc. store_inv. eauto.
Qed.

Lemma Job_create_readable input : preserves jobs_readable (Job_create_in_tx input).
Proof.
  intros d j d' Hd (ts & Hf & _ & _ & ->)%Job_create_ok. cbn.
  apply map_Forall_insert_2; [|done]. apply job_readable_spec. cbn.
  pose proof (next_rowid_pos (jobs d)). rewrite (parse_format _ _ Hf). eauto with lia.
Qed.

Lemma transition_open_to_readable id next now :
  preserves jobs_readable (transition_open_to id next now).
Proof.
  intros d j d' Hd (r & ts & Hr & _ & Hf & -> & _)%transition_open_to_ok. cbn.
  apply map_Forall_insert_2; [|done]. eapply close_job_readable; [done|]. exact (Hd _ _ Hr).
Qed.

(** closing a job does exactly one of three things, for each of the
    three closing operations: an unknown job is [NotFound], a job that is
    not open is a [Conflict], and an open job takes the target state,
    a new [updated_at] and the next epoch, which is also what is returned.
    The database is unchanged in the error cases. *)
Theorem close_job_outcome id next now ts d :
  id <= i64_max -> format_text now = Some ts -> jobs_readable d ->
  transition_open_to id next now d =
    match jobs d !! id with
    | None => (Err ENotFound, d)
    | Some r =>
        if decide (j_state r = JobOpen) then
          (row_to_job (id, close_job_row next ts r),
           set_jobs (<[id := close_job_row next ts r]> (jobs d)) d)
        else (Err EConflict, d)
    end /\
  (forall r, jobs d !! id = Some r -> j_state r = JobOpen ->
    exists j, row_to_job (id, close_job_row next ts r) = Ok j /\ job_state j = next /\
      job_updated_at j = now /\ job_epoch j = j_epoch r + 1).
Proof.
  intros Hid Hf Hd.
  assert (forall r, jobs d !! id = Some r -> job_readable id (close_job_row next ts r)) as Hrd
    by (intros r Hr; eapply close_job_readable; [done|exact (Hd _ _ Hr)]).
  split.
  - unfold transition_open_to, iso8601. rewrite Hf. cbn [ok_or].
    assert (i64_from_u64 id = Ok id) as Hi by (by apply i64_from_u64_ok).
    rewrite Hi. unfold update_row, mbind, tx_mbind, lift, gets, getsR, modify, throw.
    destruct (jobs d !! id) as [r|] eqn:Hr; cbn; [|by rewrite Hr].
    destruct (decide (j_state r = JobOpen)) as [E|E].
    + rewrite (bool_decide_eq_true_2 _ E). cbn. rewrite lookup_insert_eq. cbn.
      destruct (Hrd r eq_refl) as [j ->]. done.
    + rewrite (bool_decide_eq_false_2 _ E). cbn. by rewrite Hr.
  - intros r Hr _. destruct (Hrd r Hr) as [j Hj]. exists j. split; [done|].
    unfold row_to_job in Hj. store_inv. cbn in *.
    rewrite (parse_format _ _ Hf) in *. by simplify_eq/=.
Qed.
End job_facts.
