(* ===== verification/Tickets.v ===== *)
(** * Tickets and their dependencies

    [voom-store/src/repo/execution/tickets.rs]: creation, the dependency graph
    with its cycle check, the readiness gate, retry backoff, and the queries
    the scheduler and the workflow engine read. *)

From S2P Require Import Prelude Json Vocab Operations Store Jobs.
From Stdlib Require Import ZArith Lia Bool String.
From stdpp Require Import base gmap strings list sorting relations.

Open Scope Z_scope.

(** ** Backoff *)

Definition DEFAULT_BACKOFF_BASE_SECS : Z := 5.
Definition DEFAULT_BACKOFF_CAP_SECS : Z := 300.

(** The draw is the [u32] that [rng.next_u32()] returns; the result is a
    duration. *)
Definition default_backoff (attempt draw : Z) : Z :=
  let exp_secs :=
    u64_saturating_mul DEFAULT_BACKOFF_BASE_SECS (default u64_max (u64_checked_shl 1 attempt)) in
  let cap_secs := Z.min exp_secs DEFAULT_BACKOFF_CAP_SECS in
  let buckets := u128_saturating_add cap_secs 1 in
  let raw := u128_saturating_mul draw buckets in
  let shifted := Z.shiftr raw 32 in
  let jitter_secs := if is_u64 shifted then shifted else cap_secs in
  duration_seconds (if is_i64 jitter_secs then jitter_secs else i64_max).

(** ** Records *)

Record NewTicket := {
  nt_job_id : option Z; nt_kind : TicketOperation; nt_priority : Z; nt_payload : Json;
  nt_max_attempts : Z; nt_created_at : Z;
}.

Record Ticket := {
  ticket_id : Z; ticket_job_id : option Z; ticket_kind : TicketOperation;
  ticket_state : TicketState; ticket_priority : Z; ticket_payload : Json;
  ticket_result : option Json; ticket_attempt : Z; ticket_max_attempts : Z;
  ticket_next_eligible_at : Z; ticket_created_at : Z; ticket_state_changed_at : Z;
  ticket_epoch : Z;
}.

Record SucceededTicketResult := { str_ticket_id : Z; str_result : Json }.

Record WorkflowTicketFacts := {
  wf_unfinished : Z; wf_ready : Z; wf_leased : Z; wf_failed : Z;
  wf_ready_node_local_media : Z;
}.

Record WorkflowTicketIdentity := {
  wi_job_id : Z; wi_workflow_id : string; wi_branch_id : string; wi_node_id : string;
  wi_source_file_version_id : option Z;
}.

Record WorkflowPhaseScope := {
  ps_job_id : Z; ps_exact_workflow_id : string; ps_file_workflow_pattern : string;
}.

Inductive PreLeaseFailureTransition : Type :=
  | PreLeaseTerminal
  | PreLeaseRetryAt (at_time : Z).

(** ** Rows *)

(** Row updates used by the statements on [tickets]: state and
    [state_changed_at] always move together, with the epoch. *)
Definition ticket_moved (state : TicketState) (ts : string) (r : TicketRow) : TicketRow := {|
  t_job_id := t_job_id r; t_kind := t_kind r; t_state := state; t_priority := t_priority r;
  t_payload := t_payload r; t_result := t_result r; t_attempt := t_attempt r;
  t_max_attempts := t_max_attempts r; t_next_eligible_at := t_next_eligible_at r;
  t_created_at := t_created_at r; t_state_changed_at := ts; t_epoch := t_epoch r + 1 |}.

Definition ticket_with_result (result : Json) (r : TicketRow) : TicketRow := {|
  t_job_id := t_job_id r; t_kind := t_kind r; t_state := t_state r; t_priority := t_priority r;
  t_payload := t_payload r; t_result := Some result; t_attempt := t_attempt r;
  t_max_attempts := t_max_attempts r; t_next_eligible_at := t_next_eligible_at r;
  t_created_at := t_created_at r; t_state_changed_at := t_state_changed_at r;
  t_epoch := t_epoch r |}.

Definition ticket_with_eligible (ts : string) (r : TicketRow) : TicketRow := {|
  t_job_id := t_job_id r; t_kind := t_kind r; t_state := t_state r; t_priority := t_priority r;
  t_payload := t_payload r; t_result := t_result r; t_attempt := t_attempt r;
  t_max_attempts := t_max_attempts r; t_next_eligible_at := ts;
  t_created_at := t_created_at r; t_state_changed_at := t_state_changed_at r;
  t_epoch := t_epoch r |}.

Definition ticket_with_attempt (attempt : Z) (r : TicketRow) : TicketRow := {|
  t_job_id := t_job_id r; t_kind := t_kind r; t_state := t_state r; t_priority := t_priority r;
  t_payload := t_payload r; t_result := t_result r; t_attempt := attempt;
  t_max_attempts := t_max_attempts r; t_next_eligible_at := t_next_eligible_at r;
  t_created_at := t_created_at r; t_state_changed_at := t_state_changed_at r;
  t_epoch := t_epoch r |}.

(** [state = s] in a [WHERE] clause. *)
Definition in_state (s : TicketState) (r : TicketRow) : bool := bool_decide (t_state r = s).

(** [job_id = ?] in a [WHERE] clause. *)
Definition for_job (job : Z) (r : TicketRow) : bool := bool_decide (t_job_id r = Some job).

(** [json_extract(payload, '$.workflow_id') = ?] *)
Definition for_workflow (workflow_id : string) (r : TicketRow) : bool :=
  json_text_is (t_payload r) ["workflow_id"] workflow_id.

(** [ORDER BY priority DESC, next_eligible_at ASC, id ASC]. *)
Definition sched_order (x y : Z * TicketRow) : Prop :=
  t_priority y.2 < t_priority x.2 \/
  (t_priority y.2 = t_priority x.2 /\
   (text_lt (t_next_eligible_at x.2) (t_next_eligible_at y.2) = true \/
    (t_next_eligible_at x.2 = t_next_eligible_at y.2 /\ x.1 <= y.1))).
#[global] Instance sched_order_dec : RelDecision sched_order.
Proof. intros x y. unfold sched_order. apply _. Defined.

Definition select_sched (cond : Z -> TicketRow -> bool) (m : gmap Z TicketRow) :
    list (Z * TicketRow) :=
  merge_sort sched_order (List.filter (fun kv => cond kv.1 kv.2) (map_to_list m)).

(** ** The dependency graph *)

(** The right-hand ends of the edges that leave [seen]. *)
Definition dependencies_of (deps : gset (Z * Z)) (seen : gset Z) : gset Z :=
  set_map snd (filter (fun e : Z * Z => e.1 ∈ seen) deps).

(** [WITH RECURSIVE reach(id) AS (.. UNION ..)]: each round joins the edges
    with the rows found so far; the fuel is the number of edges, which bounds
    the number of distinct rows ([reach_spec]). *)
Fixpoint reach_rounds (fuel : nat) (deps : gset (Z * Z)) (seen : gset Z) : gset Z :=
  match fuel with
  | O => seen
  | S fuel' => reach_rounds fuel' deps (seen ∪ dependencies_of deps seen)
  end.

Definition reach (deps : gset (Z * Z)) (start : Z) : gset Z :=
  reach_rounds (size deps) deps (dependencies_of deps {[start]}).

(** An edge of [id] whose other end is a ticket that has not succeeded. *)
Definition blocking_edge (id : Z) (d : Db) (e : Z * Z) : bool :=
  (e.1 =? id) &&
  match tickets d !! e.2 with
  | Some t => negb (in_state TicketSucceeded t)
  | None => false
  end.

(** [SELECT COUNT( * ) FROM ticket_dependencies td JOIN tickets t ON
    t.id = td.depends_on_ticket_id WHERE td.ticket_id = ? AND t.state != 'succeeded'] *)
Definition unsucceeded_dependencies (id : Z) (d : Db) : Z :=
  Z.of_nat (size (filter (fun e => blocking_edge id d e = true) (ticket_dependencies d))).

(** ** Operations *)

Section tickets.
Context `{Iso8601}.

Definition row_to_ticket (row : Z * TicketRow) : Res Ticket :=
  id ← u64_from_i64 row.1;
  job ← transpose (u64_from_i64 <$> t_job_id row.2);
  kind ← TicketOperation_from_stored (t_kind row.2);
  attempt ← u32_from_i64 (t_attempt row.2);
  max_attempts ← u32_from_i64 (t_max_attempts row.2);
  next_eligible ← parse_iso8601 (t_next_eligible_at row.2);
  created ← parse_iso8601 (t_created_at row.2);
  state_changed ← parse_iso8601 (t_state_changed_at row.2);
  epoch ← u64_from_i64 (t_epoch row.2);
  Ok {| ticket_id := id; ticket_job_id := job; ticket_kind := kind;
        ticket_state := t_state row.2; ticket_priority := t_priority row.2;
        ticket_payload := t_payload row.2; ticket_result := t_result row.2;
        ticket_attempt := attempt; ticket_max_attempts := max_attempts;
        ticket_next_eligible_at := next_eligible; ticket_created_at := created;
        ticket_state_changed_at := state_changed; ticket_epoch := epoch |}.

Definition get_in_tx_inner (id : Z) : M (option Ticket) :=
  key ← lift (i64_from_u64 id);
  getsR (fun d => transpose ((fun r => row_to_ticket (key, r)) <$> (tickets d !! key))).

Definition Ticket_get (id : Z) : M (option Ticket) := get_in_tx_inner id.
Definition Ticket_get_in_tx (id : Z) : M (option Ticket) := get_in_tx_inner id.

(** The insert fails on the foreign key to [jobs] and on
    [CHECK (max_attempts >= 1)]. *)
Definition Ticket_create_in_tx (input : NewTicket) : M Ticket :=
  ts ← lift (iso8601 (nt_created_at input));
  job ← lift (transpose (i64_from_u64 <$> nt_job_id input));
  fk ← gets (fun d => match job with
                      | None => true
                      | Some j => bool_decide (is_Some (jobs d !! j))
                      end);
  if negb (fk && (1 <=? nt_max_attempts input)) then throw EDatabase else
  rowid ← gets (fun d => next_rowid (tickets d));
  _ ← modify (fun d => set_tickets (<[rowid := {|
    t_job_id := job; t_kind := nt_kind input; t_state := TicketPending;
    t_priority := nt_priority input; t_payload := nt_payload input; t_result := None;
    t_attempt := 0; t_max_attempts := nt_max_attempts input; t_next_eligible_at := ts;
    t_created_at := ts; t_state_changed_at := ts; t_epoch := 0 |}]> (tickets d)) d);
  id ← lift (u64_from_i64 rowid);
  row ← get_in_tx_inner id;
  lift (ok_or row EInternal).

Definition Ticket_create (input : NewTicket) : M Ticket :=
  atomically (Ticket_create_in_tx input).

(** The insert fails on the foreign keys, on the [UNIQUE] edge and on
    [CHECK (ticket_id != depends_on_ticket_id)]. *)
Definition add_dependency_in_tx (ticket_id depends_on : Z) : M unit :=
  if ticket_id =? depends_on then throw EDependencyCycle else
  key ← lift (i64_from_u64 ticket_id);
  state ← gets (fun d => t_state <$> (tickets d !! key));
  match state with
  | None => throw ENotFound
  | Some TicketPending =>
      dep ← lift (i64_from_u64 depends_on);
      cyclic ← gets (fun d => bool_decide (key ∈ reach (ticket_dependencies d) dep));
      if (cyclic : bool) then throw EDependencyCycle else
      insertable ← gets (fun d =>
        bool_decide (is_Some (tickets d !! key) /\ is_Some (tickets d !! dep) /\
                     ((key, dep) ∉ ticket_dependencies d) /\ key <> dep));
      if (insertable : bool) then
        modify (fun d => set_dependencies ({[(key, dep)]} ∪ ticket_dependencies d) d)
      else throw EDatabase
  | Some _ => throw EConflict
  end.

Definition add_dependency (ticket_id depends_on : Z) : M unit :=
  atomically (add_dependency_in_tx ticket_id depends_on).

Definition dependency_exists_in_tx (ticket_id depends_on : Z) : M bool :=
  key ← lift (i64_from_u64 ticket_id);
  dep ← lift (i64_from_u64 depends_on);
  gets (fun d => bool_decide ((key, dep) ∈ ticket_dependencies d)).

Definition mark_ready_if_unblocked_in_tx (ticket_id now : Z) : M (list Ticket) :=
  key ← lift (i64_from_u64 ticket_id);
  state ← gets (fun d => t_state <$> (tickets d !! key));
  match state with
  | None => throw ENotFound
  | Some TicketPending =>
      unsucceeded ← gets (unsucceeded_dependencies key);
      if 0 <? unsucceeded then mret [] else
      ts ← lift (iso8601 now);
      res ← gets (fun d =>
        update_row key (in_state TicketPending) (ticket_moved TicketReady ts) (tickets d));
      match res with
      | None => throw EConflict
      | Some (row, tickets') =>
          _ ← modify (set_tickets tickets');
          promoted ← lift (row_to_ticket (key, row));
          mret [promoted]
      end
  | Some _ => mret []
  end.

Definition mark_ready_if_unblocked (ticket_id now : Z) : M (list Ticket) :=
  atomically (mark_ready_if_unblocked_in_tx ticket_id now).

Definition transition_ready_before_lease_failure_in_tx
    (ticket_id previous_attempt next_attempt : Z) (transition : PreLeaseFailureTransition)
    (now : Z) : M Ticket :=
  now_str ← lift (iso8601 now);
  target ← lift (match transition with
                 | PreLeaseTerminal => Ok (TicketFailed, None)
                 | PreLeaseRetryAt at_time =>
                     ts ← iso8601 at_time; Ok (TicketReady, Some ts)
                 end);
  key ← lift (i64_from_u64 ticket_id);
  res ← gets (fun d =>
    update_row key
      (fun r => in_state TicketReady r && (t_attempt r =? previous_attempt) &&
                text_le (t_next_eligible_at r) now_str)
      (fun r => ticket_with_eligible (default (t_next_eligible_at r) target.2)
                  (ticket_with_attempt next_attempt (ticket_moved target.1 now_str r)))
      (tickets d));
  match res with
  | None => throw EConflict
  | Some (row, tickets') =>
      _ ← modify (set_tickets tickets'); lift (row_to_ticket (key, row))
  end.

(** *** Queries *)

Definition ticket_state_matches (state : option TicketState) (r : TicketRow) : bool :=
  match state with None => true | Some s => in_state s r end.

Definition Ticket_list (state : option TicketState) (after_id : option Z) (limit : Z) :
    M (list Ticket) :=
  after ← lift (transpose (i64_from_u64 <$> after_id));
  getsR (fun d => collect row_to_ticket
    (keyset_page (ticket_state_matches state) after limit (tickets d))).

Definition Ticket_list_by_state (state : TicketState) (limit : Z) : M (list Ticket) :=
  getsR (fun d => collect row_to_ticket
    (take (Z.to_nat limit) (select_sched (fun _ => in_state state) (tickets d)))).

Definition list_for_job (job_id : Z) : M (list Ticket) :=
  job ← lift (i64_from_u64 job_id);
  getsR (fun d => collect row_to_ticket (select_asc (fun _ => for_job job) (tickets d))).

(** [job_id IS NULL OR EXISTS (SELECT 1 FROM jobs WHERE .. state = 'open')] *)
Definition parent_job_open (d : Db) (r : TicketRow) : bool :=
  match t_job_id r with
  | None => true
  | Some j =>
      match jobs d !! j with
      | Some jr => bool_decide (j_state jr = JobOpen)
      | None => false
      end
  end.

Definition ready_row (tokens : list string) (ts : string) (d : Db) (r : TicketRow) : bool :=
  in_state TicketReady r && text_le (t_next_eligible_at r) ts &&
  (t_attempt r <? t_max_attempts r) && parent_job_open d r &&
  existsb (String.eqb (t_kind r)) tokens.

Definition ready_for_operations_in_tx (operations : list TicketOperation) (now : Z) :
    M (list Ticket) :=
  let tokens := flat_map (fun op => matching_tokens (TicketOperation_normalize op)) operations in
  match tokens with
  | [] => mret []
  | _ =>
      ts ← lift (iso8601 now);
      getsR (fun d => collect row_to_ticket
        (select_sched (fun _ => ready_row tokens ts d) (tickets d)))
  end.

Definition next_ready_for_operations_in_tx (operations : list TicketOperation) (now : Z) :
    M (option Ticket) :=
  ts ← ready_for_operations_in_tx operations now; mret (head ts).

Definition next_ready_for_operations (operations : list TicketOperation) (now : Z) :
    M (option Ticket) :=
  atomically (next_ready_for_operations_in_tx operations now).

(** [SELECT_DEPENDENTS_OF]. *)
Definition dependent_rows (depends_on : Z) (d : Db) : list (Z * TicketRow) :=
  select_asc (fun id _ => bool_decide ((id, depends_on) ∈ ticket_dependencies d)) (tickets d).

Definition list_dependents_in_tx (depends_on : Z) : M (list Ticket) :=
  key ← lift (i64_from_u64 depends_on);
  getsR (fun d => collect row_to_ticket (dependent_rows key d)).

Definition list_dependents (depends_on : Z) : M (list Ticket) :=
  list_dependents_in_tx depends_on.
End tickets.

(** ** Workflow queries *)

(** The operations of [ADR 0075] in the SQL literals. *)
Definition node_local_media_tokens : list string :=
  ["probe_file"; "transcode_audio"; "extract_audio"; "transcode_video"; "remux";
   "back_up_file"; "verify_artifact"]%string.

Definition is_node_local_media (r : TicketRow) : bool :=
  existsb (json_text_is (t_payload r) ["operation"]) node_local_media_tokens.

Definition decode_ticket_ids (rows : list Z) : Res (list Z) := collect u64_from_i64 rows.

Section workflow_queries.
Context `{Iso8601}.

(** SQLite's [GLOB] on the value [json_extract] returns. *)
Variable sql_glob : Json -> string -> bool.

Definition in_phase (scope : WorkflowPhaseScope) (job : Z) (r : TicketRow) : bool :=
  for_job job r &&
  (for_workflow (ps_exact_workflow_id scope) r ||
   match json_extract (t_payload r) ["workflow_id"] with
   | Some v => sql_glob v (ps_file_workflow_pattern scope)
   | None => false
   end).

Definition source_version_is (version : Z) (r : TicketRow) : bool :=
  json_int_is (t_payload r) ["rendered_payload"; "source_file_version_id"] version.

Definition ticket_ids_for_workflow_phase (scope : WorkflowPhaseScope) : M (list Z) :=
  job ← lift (i64_from_u64 (ps_job_id scope));
  getsR (fun d => decode_ticket_ids
    (map fst (select_asc (fun _ => in_phase scope job) (tickets d)))).

Definition ticket_ids_for_workflow_phase_file (scope : WorkflowPhaseScope)
    (file_version_id : Z) : M (list Z) :=
  job ← lift (i64_from_u64 (ps_job_id scope));
  version ← lift (i64_from_u64 file_version_id);
  getsR (fun d => decode_ticket_ids
    (map fst (select_asc (fun _ r => in_phase scope job r && source_version_is version r)
                (tickets d)))).

Definition ticket_ids_for_workflow_phase_scope (scope : WorkflowPhaseScope)
    (workflow_node_id : string) (file_version_id : option Z) : M (list Z) :=
  version ← lift (transpose (i64_from_u64 <$> file_version_id));
  job ← lift (i64_from_u64 (ps_job_id scope));
  getsR (fun d => decode_ticket_ids
    (map fst (select_asc (fun _ r =>
       in_phase scope job r && json_text_is (t_payload r) ["node_id"%string] workflow_node_id &&
       match version with None => true | Some v => source_version_is v r end) (tickets d)))).

Definition succeeded_ticket_ids_for_workflow_phase_file_and_operation
    (scope : WorkflowPhaseScope) (file_version_id : Z) (operation : TicketOperation) :
    M (list Z) :=
  job ← lift (i64_from_u64 (ps_job_id scope));
  version ← lift (i64_from_u64 file_version_id);
  getsR (fun d => decode_ticket_ids
    (map fst (select_asc (fun _ r =>
       in_phase scope job r && in_state TicketSucceeded r &&
       String.eqb (t_kind r) operation && source_version_is version r) (tickets d)))).

Definition succeeded_results_for_job_and_operation (job_id : Z) (operation : TicketOperation) :
    M (list SucceededTicketResult) :=
  job ← lift (i64_from_u64 job_id);
  getsR (fun d => collect
    (fun kv : Z * TicketRow =>
       id ← u64_from_i64 kv.1;
       result ← ok_or (t_result kv.2) EDatabase;
       Ok {| str_ticket_id := id; str_result := result |})
    (select_asc (fun _ r =>
       for_job job r && String.eqb (t_kind r) operation && in_state TicketSucceeded r &&
       bool_decide (is_Some (t_result r))) (tickets d))).

Definition workflow_ticket_exists_in_tx (job_id : Z) (workflow_id branch_id node_id : string) :
    M bool :=
  job ← lift (i64_from_u64 job_id);
  gets (fun d => 0 <? count_where (fun _ r =>
    for_job job r && for_workflow workflow_id r &&
    json_text_is (t_payload r) ["branch_id"%string] branch_id &&
    json_text_is (t_payload r) ["node_id"%string] node_id) (tickets d)).

Definition ready_workflow_tickets (job_id : Z) (workflow_id : string) (now limit : Z) :
    M (list Ticket) :=
  job ← lift (i64_from_u64 job_id);
  ts ← lift (iso8601 now);
  getsR (fun d => collect row_to_ticket (take (Z.to_nat limit)
    (select_sched (fun _ r =>
       for_job job r && in_state TicketReady r && text_le (t_next_eligible_at r) ts &&
       for_workflow workflow_id r) (tickets d)))).

Definition workflow_ticket_facts (job_id : Z) (workflow_id : string) :
    M WorkflowTicketFacts :=
  job ← lift (i64_from_u64 job_id);
  let counted (cond : TicketRow -> bool) (d : Db) :=
    count_where (fun _ r => for_job job r && for_workflow workflow_id r && cond r) (tickets d) in
  getsR (fun d =>
    unfinished ← u32_from_i64 (counted (fun r =>
      in_state TicketPending r || in_state TicketReady r || in_state TicketLeased r) d);
    ready ← u32_from_i64 (counted (in_state TicketReady) d);
    leased ← u32_from_i64 (counted (in_state TicketLeased) d);
    failed ← u32_from_i64 (counted (in_state TicketFailed) d);
    media ← u32_from_i64 (counted (fun r => in_state TicketReady r && is_node_local_media r) d);
    Ok {| wf_unfinished := unfinished; wf_ready := ready; wf_leased := leased;
          wf_failed := failed; wf_ready_node_local_media := media |}).

Definition terminal_workflow_media_tickets (job_id : Z) (workflow_id : string) :
    M (list (Z * TicketState * Json)) :=
  job ← lift (i64_from_u64 job_id);
  getsR (fun d => collect
    (fun kv : Z * TicketRow =>
       operation ← ok_or (json_extract (t_payload kv.2) ["operation"%string]) EDatabase;
       id ← u64_from_i64 kv.1;
       Ok (id, t_state kv.2, operation))
    (select_asc (fun _ r =>
       for_job job r && for_workflow workflow_id r &&
       (in_state TicketSucceeded r || in_state TicketFailed r) && is_node_local_media r)
       (tickets d))).

Definition first_failed_workflow_ticket (job_id : Z) (workflow_id : string) :
    M (option Ticket) :=
  job ← lift (i64_from_u64 job_id);
  getsR (fun d => transpose (row_to_ticket <$>
    head (select_asc (fun _ r =>
      for_job job r && in_state TicketFailed r && for_workflow workflow_id r) (tickets d)))).

(** SQL's aggregate [MIN] on text. *)
Definition text_min (l : list string) : option string :=
  match l with
  | [] => None
  | s :: l' => Some (foldr (fun s acc => if text_lt s acc then s else acc) s l')
  end.

Definition retry_eligible_at (job_id : Z) (workflow_id : string) (now : Z) : M (option Z) :=
  job ← lift (i64_from_u64 job_id);
  ts ← lift (iso8601 now);
  getsR (fun d => transpose (parse_iso8601 <$>
    text_min (map (fun kv => t_next_eligible_at kv.2)
      (select_asc (fun _ r =>
         for_job job r && in_state TicketReady r && text_lt ts (t_next_eligible_at r) &&
         for_workflow workflow_id r) (tickets d))))).

Definition find_workflow_ticket_id_in_tx (identity : WorkflowTicketIdentity) :
    M (option Z) :=
  version ← lift (transpose (i64_from_u64 <$> wi_source_file_version_id identity));
  job ← lift (i64_from_u64 (wi_job_id identity));
  rows ← gets (fun d => map fst (take 2 (select_asc (fun _ r =>
    for_job job r && for_workflow (wi_workflow_id identity) r &&
    json_text_is (t_payload r) ["branch_id"%string] (wi_branch_id identity) &&
    json_text_is (t_payload r) ["node_id"%string] (wi_node_id identity) &&
    match version with
    | None => bool_decide
        (json_extract (t_payload r) ["rendered_payload"; "source_file_version_id"]%string = None)
    | Some v => source_version_is v r
    end) (tickets d))));
  match rows with
  | [] => mret None
  | [id] => key ← lift (u64_from_i64 id); mret (Some key)
  | _ => throw EConflict
  end.
End workflow_queries.

(** ** Facts *)

(** *** Backoff *)

Definition backoff_cap (attempt : Z) : Z := Z.min DEFAULT_BACKOFF_CAP_SECS (5 * 2 ^ attempt).

Lemma backoff_cap_exact attempt :
  0 <= attempt ->
  Z.min (u64_saturating_mul DEFAULT_BACKOFF_BASE_SECS
           (default u64_max (u64_checked_shl 1 attempt))) DEFAULT_BACKOFF_CAP_SECS =
  backoff_cap attempt.
Proof.
  intros Ha. unfold backoff_cap, u64_checked_shl, u64_saturating_mul.
  unfold DEFAULT_BACKOFF_BASE_SECS, DEFAULT_BACKOFF_CAP_SECS.
  destruct (Z.ltb_spec attempt 64) as [Hlt|Hge]; cbn [default].
  - rewrite Z.shiftl_mul_pow2, Z.mul_1_l by done.
    change u64_max with (Z.ones 64). rewrite Z.land_ones, Z.mod_small by
      (try split; try apply Z.pow_lt_mono_r; lia).
    change (Z.ones 64) with 18446744073709551615. unfold id. lia.
  - assert (2 ^ 64 <= 2 ^ attempt) by (apply Z.pow_le_mono_r; lia).
    change u64_max with 18446744073709551615.
    change (2 ^ 64) with 18446744073709551616 in *. lia.
Qed.

Lemma backoff_cap_range attempt : 0 <= attempt -> 5 <= backoff_cap attempt <= 300.
Proof.
  intros Ha. unfold backoff_cap, DEFAULT_BACKOFF_CAP_SECS.
  assert (2 ^ 0 <= 2 ^ attempt) by (apply Z.pow_le_mono_r; lia). lia.
Qed.

Lemma default_backoff_eq attempt draw :
  0 <= attempt -> 0 <= draw <= u32_max ->
  default_backoff attempt draw =
  duration_seconds (draw * (backoff_cap attempt + 1) / 2 ^ 32).
Proof.
  intros Ha Hd. unfold default_backoff. rewrite backoff_cap_exact by done.
  pose proof (backoff_cap_range attempt Ha) as Hc. unfold u32_max in Hd.
  assert (0 <= draw * (backoff_cap attempt + 1) <= 4294967295 * 301) as Hr by nia.
  replace (u128_saturating_add (backoff_cap attempt) 1) with (backoff_cap attempt + 1)
    by (unfold u128_saturating_add, u128_max; lia).
  replace (u128_saturating_mul draw (backoff_cap attempt + 1))
    with (draw * (backoff_cap attempt + 1)) by (unfold u128_saturating_mul, u128_max; lia).
  rewrite Z.shiftr_div_pow2 by done.
  assert (0 <= draw * (backoff_cap attempt + 1) / 2 ^ 32 <= 301) as Hq.
  { split; [apply Z.div_pos; lia|]. apply Z.div_le_upper_bound; lia. }
  replace (is_u64 _) with true; [replace (is_i64 _) with true; [done|]|]; symmetry;
    unfold is_u64, is_i64, i64_min, i64_max, u64_max; apply andb_true_iff;
    rewrite !Z.leb_le; lia.
Qed.

(** a retry waits a whole number of seconds between zero and
    [min(300, 5 * 2^attempt)], for every attempt number and every draw of the
    generator; no step saturates, a larger draw never waits less, and the
    smallest and largest draws reach the two ends. *)
Theorem default_backoff_window attempt draw :
  0 <= attempt <= u32_max -> 0 <= draw <= u32_max ->
  default_backoff attempt draw =
    duration_seconds (draw * (backoff_cap attempt + 1) / 2 ^ 32) /\
  0 <= default_backoff attempt draw <= duration_seconds (backoff_cap attempt) /\
  (forall draw', draw <= draw' <= u32_max ->
     default_backoff attempt draw <= default_backoff attempt draw') /\
  default_backoff attempt 0 = 0 /\
  default_backoff attempt u32_max = duration_seconds (backoff_cap attempt).
Proof.
  intros Ha Hd. pose proof (backoff_cap_range attempt (proj1 Ha)) as Hc.
  assert (forall x y, x <= y -> duration_seconds x <= duration_seconds y) as Hmono
    by (unfold duration_seconds, NANOS_PER_SEC; lia).
  rewrite !default_backoff_eq by (unfold u32_max in *; lia). split_and!.
  - done.
  - change 0 with (duration_seconds 0). apply Hmono, Z.div_pos; lia.
  - apply Hmono. apply Z.lt_succ_r, Z.div_lt_upper_bound; unfold u32_max in Hd; nia.
  - intros draw' Hd'. rewrite default_backoff_eq by lia. apply Hmono, Z.div_le_mono; nia.
  - done.
  - f_equal. symmetry. apply Z.div_unique with (backoff_cap attempt * 4294967295 + 4294967295 -
      backoff_cap attempt * 2 ^ 32); unfold u32_max; lia.
Qed.

Lemma default_backoff_window_witness :
  default_backoff 3 2147483648 = duration_seconds 20 /\
  0 <= default_backoff 3 2147483648 <= duration_seconds 40.
Proof.
  split; [reflexivity|].
  apply (default_backoff_window 3 2147483648); unfold u32_max; lia.
Defined.

(** *** Reachability *)

Definition edge (deps : gset (Z * Z)) (x y : Z) : Prop := (x, y) ∈ deps.

Definition acyclic (deps : gset (Z * Z)) : Prop := forall x, ~ tc (edge deps) x x.

Lemma elem_of_dependencies_of deps seen y :
  y ∈ dependencies_of deps seen <-> exists x, x ∈ seen /\ edge deps x y.
Proof.
  unfold dependencies_of, edge. rewrite elem_of_map. split.
  - intros ([x y'] & -> & [Hx He]%elem_of_filter). eauto.
  - intros (x & Hx & He). exists (x, y). by rewrite elem_of_filter.
Qed.

Lemma reach_rounds_mono fuel deps seen : seen ⊆ reach_rounds fuel deps seen.
Proof.
  revert seen; induction fuel as [|fuel IH]; intros seen; cbn; [done|].
  etrans; [|apply IH]. set_solver.
Qed.

Lemma reach_rounds_sound (P : Z -> Prop) fuel deps seen :
  (forall x y, P x -> edge deps x y -> P y) ->
  (forall x, x ∈ seen -> P x) -> forall x, x ∈ reach_rounds fuel deps seen -> P x.
Proof.
  intros Hstep. revert seen; induction fuel as [|fuel IH]; intros seen Hs; cbn; [done|].
  apply IH. intros x [Hx|Hx]%elem_of_union; [by apply Hs|].
  apply elem_of_dependencies_of in Hx as (y & Hy & He). eauto.
Qed.

Lemma dependencies_of_targets deps seen :
  dependencies_of deps seen ⊆ set_map snd deps.
Proof.
  intros y Hy%elem_of_dependencies_of. destruct Hy as (x & _ & He).
  apply elem_of_map. by exists (x, y).
Qed.

Lemma reach_rounds_fixed fuel deps seen :
  dependencies_of deps seen ⊆ seen -> reach_rounds fuel deps seen = seen.
Proof.
  intros Hc. induction fuel as [|fuel IH]; cbn; [done|].
  by replace (seen ∪ dependencies_of deps seen) with seen by set_solver.
Qed.

(** With fuel for the rows still missing, the rounds reach a fixed point. *)
Lemma reach_rounds_closed fuel deps seen :
  seen ⊆ (set_map snd deps : gset Z) ->
  (size (set_map snd deps : gset Z) <= fuel + size seen)%nat ->
  dependencies_of deps (reach_rounds fuel deps seen) ⊆ reach_rounds fuel deps seen.
Proof.
  revert seen; induction fuel as [|fuel IH]; intros seen Hs Hf; cbn.
  - etrans; [apply dependencies_of_targets|].
    by rewrite (set_subseteq_size_eq seen (set_map snd deps : gset Z) Hs Hf).
  - destruct (decide (dependencies_of deps seen ⊆ seen)) as [Hc|Hc].
    + replace (seen ∪ dependencies_of deps seen) with seen by set_solver.
      by rewrite reach_rounds_fixed.
    + apply IH.
      * pose proof (dependencies_of_targets deps seen). set_solver.
      * assert (size seen < size (seen ∪ dependencies_of deps seen))%nat; [|lia].
        apply subset_size. set_solver.
Qed.

Lemma targets_size (deps : gset (Z * Z)) :
  (size (set_map snd deps : gset Z) <= size deps)%nat.
Proof.
  induction deps as [|e deps He IH] using set_ind_L.
  - by rewrite set_map_empty, size_empty.
  - rewrite set_map_union_L, set_map_singleton_L, size_union_alt.
    rewrite (size_union {[e]} deps), !size_singleton by set_solver.
    assert (size (set_map snd deps ∖ {[e.2]} : gset Z) <= size (set_map snd deps : gset Z))%nat
      by (apply subseteq_size; set_solver). lia.
Qed.

(** The recursive query computes the transitive closure of the edges. *)
Lemma reach_spec deps x y : y ∈ reach deps x <-> tc (edge deps) x y.
Proof.
  unfold reach. split.
  - apply (reach_rounds_sound (fun y => tc (edge deps) x y)).
    + intros a b Ha He. eapply tc_r; done.
    + intros a (b & Hb%elem_of_singleton & He)%elem_of_dependencies_of. subst. by apply tc_once.
  - intros Ht.
    assert (dependencies_of deps (reach_rounds (size deps) deps (dependencies_of deps {[x]}))
            ⊆ reach_rounds (size deps) deps (dependencies_of deps {[x]})) as Hc.
    { apply reach_rounds_closed; [apply dependencies_of_targets|].
      pose proof (targets_size deps). lia. }
    revert y Ht. apply tc_ind_r.
    + intros b He. apply reach_rounds_mono, elem_of_dependencies_of. exists x. set_solver.
    + intros b c Hb IH He. apply Hc, elem_of_dependencies_of. eauto.
Qed.

(** *** Rows decode *)

Section ticket_facts.
Context `{Iso8601Laws}.

Definition ticket_row_ok (stamp : string -> Prop) (k : Z) (r : TicketRow) : Prop :=
  0 <= k /\ (forall j, t_job_id r = Some j -> 0 <= j) /\
  validate_operation_token (t_kind r) = true /\ is_u32 (t_attempt r) = true /\
  is_u32 (t_max_attempts r) = true /\ stamp (t_next_eligible_at r) /\
  stamp (t_created_at r) /\ stamp (t_state_changed_at r) /\ 0 <= t_epoch r.

(** A row that decodes, and the rows the code writes. *)
Definition ticket_decodes := ticket_row_ok parses.
Definition ticket_readable := ticket_row_ok stamped.
Definition tickets_readable (d : Db) : Prop := map_Forall ticket_readable (tickets d).

(** The decoded ticket is the row. *)
Definition ticket_matches (k : Z) (r : TicketRow) (t : Ticket) : Prop :=
  ticket_id t = k /\ ticket_job_id t = t_job_id r /\ ticket_kind t = t_kind r /\
  ticket_state t = t_state r /\ ticket_priority t = t_priority r /\
  ticket_payload t = t_payload r /\ ticket_result t = t_result r /\
  ticket_attempt t = t_attempt r /\ ticket_max_attempts t = t_max_attempts r /\
  parse_text (t_next_eligible_at r) = Some (ticket_next_eligible_at t) /\
  parse_text (t_created_at r) = Some (ticket_created_at t) /\
  parse_text (t_state_changed_at r) = Some (ticket_state_changed_at t) /\
  ticket_epoch t = t_epoch r.

Lemma ticket_readable_decodes k r : ticket_readable k r -> ticket_decodes k r.
Proof.
  unfold ticket_readable, ticket_decodes, ticket_row_ok. intros Hr. destruct_and!.
  split_and!; auto using stamped_parses.
Qed.

Lemma transpose_u64_ok o o' :
  transpose (u64_from_i64 <$> o) = Ok o' <-> o' = o /\ (forall j, o = Some j -> 0 <= j).
Proof.
  destruct o as [j|]; cbn.
  - unfold u64_from_i64. destruct (Z.leb_spec 0 j); (split; [intros [= <-]|intros [-> Hj]]);
      try (split; [done|intros ? [= <-]; lia]); try done; specialize (Hj j eq_refl); lia.
  - split; naive_solver.
Qed.

Lemma row_to_ticket_decodes k r :
  ticket_decodes k r -> exists t, row_to_ticket (k, r) = Ok t /\ ticket_matches k r t.
Proof.
  intros (Hk & Hj & Hv & Ha & Hm & [ne Hn] & [cr Hc] & [sc Hs] & He).
  unfold row_to_ticket, TicketOperation_from_stored. cbn [fst snd].
  rewrite (proj2 (u64_from_i64_ok k k) (conj eq_refl Hk)). cbn.
  rewrite (proj2 (transpose_u64_ok _ (t_job_id r)) (conj eq_refl Hj)). cbn. rewrite Hv. cbn.
  rewrite (proj2 (u32_from_i64_ok _ (t_attempt r)) (conj eq_refl Ha)). cbn.
  rewrite (proj2 (u32_from_i64_ok _ (t_max_attempts r)) (conj eq_refl Hm)). cbn.
  unfold parse_iso8601. rewrite Hn, Hc, Hs. cbn.
  rewrite (proj2 (u64_from_i64_ok _ (t_epoch r)) (conj eq_refl He)). cbn.
  eexists. split; [done|]. unfold ticket_matches. cbn. by repeat split.
Qed.

Lemma row_to_ticket_ok k r t :
  row_to_ticket (k, r) = Ok t <-> ticket_decodes k r /\ ticket_matches k r t.
Proof.
  split.
  - intros Ht. unfold row_to_ticket, TicketOperation_from_stored in Ht. store_inv.
    destruct (validate_operation_token _) eqn:?; [|discriminate]. store_inv.
    match goal with HT : transpose _ = Ok _ |- _ => apply transpose_u64_ok in HT as [-> ?] end.
    cbn in *. unfold ticket_decodes, ticket_row_ok, ticket_matches, parses. cbn.
    repeat split; try done; eauto.
  - intros [Hr Hm]. destruct (row_to_ticket_decodes k r Hr) as (t' & Ht & Hm'). rewrite Ht.
    f_equal. destruct t, t'; unfold ticket_matches in Hm, Hm'; cbn in Hm, Hm'.
    destruct_and!. congruence.
Qed.

Lemma row_to_ticket_matches k r t : row_to_ticket (k, r) = Ok t -> ticket_matches k r t.
Proof. by intros [_ ?]%row_to_ticket_ok. Qed.

Lemma row_to_ticket_total k r :
  ticket_readable k r -> exists t, row_to_ticket (k, r) = Ok t /\ ticket_matches k r t.
Proof. intros Hr. by apply row_to_ticket_decodes, ticket_readable_decodes. Qed.

Lemma ticket_moved_readable k r s ts :
  stamped ts -> ticket_readable k r -> ticket_readable k (ticket_moved s ts r).
Proof. unfold ticket_readable, ticket_row_ok. cbn. intros ? Hr. destruct_and!. split_and!; try done; lia. Qed.

Lemma ticket_with_eligible_readable k r ts :
  stamped ts -> ticket_readable k r -> ticket_readable k (ticket_with_eligible ts r).
Proof. unfold ticket_readable, ticket_row_ok. cbn. intros ? Hr. destruct_and!. split_and!; done. Qed.

Lemma ticket_with_attempt_readable k r a :
  is_u32 a = true -> ticket_readable k r -> ticket_readable k (ticket_with_attempt a r).
Proof. unfold ticket_readable, ticket_row_ok. cbn. intros ? Hr. destruct_and!. split_and!; done. Qed.

Lemma ticket_with_result_readable k r j :
  ticket_readable k r -> ticket_readable k (ticket_with_result j r).
Proof. unfold ticket_readable, ticket_row_ok. cbn. intros Hr. destruct_and!. split_and!; done. Qed.

(** *** Outcomes *)

Definition new_ticket_row (input : NewTicket) (ts : string) : TicketRow := {|
  t_job_id := nt_job_id input; t_kind := nt_kind input; t_state := TicketPending;
  t_priority := nt_priority input; t_payload := nt_payload input; t_result := None;
  t_attempt := 0; t_max_attempts := nt_max_attempts input; t_next_eligible_at := ts;
  t_created_at := ts; t_state_changed_at := ts; t_epoch := 0 |}.

Lemma get_in_tx_inner_ok id d t d' :
  get_in_tx_inner id d = (Ok (Some t), d') ->
  d' = d /\ id <= i64_max /\ exists r, tickets d !! id = Some r /\ row_to_ticket (id, r) = Ok t.
Proof.
  unfold get_in_tx_inner. intros Hg. store_inv.
  destruct (tickets d !! id) as [r|] eqn:Hr; cbn in *; [|discriminate].
  destruct (row_to_ticket _) eqn:Ht; [|discriminate]. simplify_eq. eauto 6.
Qed.

Lemma transpose_i64_ok o o' :
  transpose (i64_from_u64 <$> o) = Ok o' <-> o' = o /\ (forall j, o = Some j -> j <= i64_max).
Proof.
  destruct o as [j|]; cbn.
  - unfold i64_from_u64. destruct (Z.leb_spec j i64_max); (split; [intros [= <-]|intros [-> Hj]]);
      try (split; [done|intros ? [= <-]; lia]); try done; specialize (Hj j eq_refl); lia.
  - split; naive_solver.
Qed.

Lemma Ticket_create_ok input d t d' :
  Ticket_create_in_tx input d = (Ok t, d') ->
  exists ts,
    format_text (nt_created_at input) = Some ts /\
    (forall j, nt_job_id input = Some j -> is_Some (jobs d !! j)) /\
    1 <= nt_max_attempts input /\
    row_to_ticket (next_rowid (tickets d), new_ticket_row input ts) = Ok t /\
    d' = set_tickets (<[next_rowid (tickets d) := new_ticket_row input ts]> (tickets d)) d.
Proof.
  intros Hc. unfold Ticket_create_in_tx in Hc. store_inv.
  match goal with HT : transpose _ = Ok _ |- _ => apply transpose_i64_ok in HT as [-> ?] end.
  destruct (negb _) eqn:Hn; [discriminate|]. apply negb_false_iff, andb_true_iff in Hn as [Hfk Hm].
  store_inv.
  match goal with HG : get_in_tx_inner _ _ = _ |- _ =>
    apply get_in_tx_inner_ok in HG as (-> & ? & r & Hr & Ht) end.
  cbn in Hr. rewrite lookup_insert_eq in Hr. simplify_eq. exists x. split_and!; try done.
  - intros j Hj. rewrite Hj in Hfk. by apply bool_decide_eq_true in Hfk.
  - by apply Z.leb_le.
Qed.

Lemma add_dependency_ok t p d d' :
  add_dependency_in_tx t p d = (Ok tt, d') ->
  exists r, tickets d !! t = Some r /\ t_state r = TicketPending /\
    is_Some (tickets d !! p) /\ t <> p /\ ((t, p) ∉ ticket_dependencies d) /\
    ~ tc (edge (ticket_dependencies d)) p t /\
    d' = set_dependencies ({[(t, p)]} ∪ ticket_dependencies d) d.
Proof.
  unfold add_dependency_in_tx. destruct (Z.eqb_spec t p); [discriminate|]. intros Ha. store_inv.
  destruct (tickets d !! t) as [r|] eqn:Hr; [|discriminate]. cbn in *.
  destruct (t_state r) eqn:Hs; try discriminate. store_inv.
  destruct (bool_decide (t ∈ _)) eqn:Hc; [discriminate|]. store_inv.
  destruct (bool_decide (is_Some _ /\ _)) eqn:Hi; [|discriminate]. store_inv.
  apply bool_decide_eq_false in Hc. apply bool_decide_eq_true in Hi as (_ & ? & ? & _).
  exists r. rewrite <- reach_spec. split_and!; done.
Qed.

(** What the readiness gate looks at. *)
Definition deps_succeeded (d : Db) (id : Z) : Prop :=
  forall p t, edge (ticket_dependencies d) id p -> tickets d !! p = Some t ->
    t_state t = TicketSucceeded.

Lemma unsucceeded_zero id d : unsucceeded_dependencies id d = 0 <-> deps_succeeded d id.
Proof.
  unfold unsucceeded_dependencies, deps_succeeded, edge.
  transitivity (filter (fun e => blocking_edge id d e = true) (ticket_dependencies d) ≡ ∅).
  { rewrite <- size_empty_iff. lia. }
  rewrite elem_of_equiv_empty. unfold blocking_edge. split.
  - intros He p t Hp Ht. specialize (He (id, p)). rewrite elem_of_filter in He. cbn in He.
    rewrite Z.eqb_refl, Ht in He. unfold in_state in He.
    destruct (bool_decide_reflect (t_state t = TicketSucceeded)); [done|].
    exfalso. by apply He.
  - intros Hs [i p] [Hb Hin]%elem_of_filter. cbn in Hb.
    apply andb_true_iff in Hb as [->%Z.eqb_eq Hb].
    destruct (tickets d !! p) as [t|] eqn:Ht; [|discriminate].
    unfold in_state in Hb. rewrite (Hs p t Hin Ht) in Hb. by rewrite bool_decide_eq_true_2 in Hb.
Qed.

(** The gate either promotes a pending, unblocked ticket or changes nothing. *)
Lemma mark_ready_ok id now d l d' :
  mark_ready_if_unblocked_in_tx id now d = (Ok l, d') ->
  (l = [] /\ d' = d /\ exists r, tickets d !! id = Some r /\
     (t_state r <> TicketPending \/ ~ deps_succeeded d id)) \/
  (exists r ts t,
     tickets d !! id = Some r /\ t_state r = TicketPending /\ deps_succeeded d id /\
     format_text now = Some ts /\ l = [t] /\
     row_to_ticket (id, ticket_moved TicketReady ts r) = Ok t /\
     d' = set_tickets (<[id := ticket_moved TicketReady ts r]> (tickets d)) d).
Proof.
  unfold mark_ready_if_unblocked_in_tx. intros Hm. store_inv.
  destruct (tickets d !! id) as [r|] eqn:Hr; [|discriminate]. cbn in *.
  destruct (t_state r) eqn:Hs; store_inv; try (left; split_and!; try done; exists r; split; [done|left; congruence]).
  destruct (Z.ltb_spec 0 (unsucceeded_dependencies id d)) as [Hu|Hu]; store_inv.
  - left. split_and!; try done. exists r. split; [done|]. right.
    rewrite <- unsucceeded_zero. lia.
  - right. assert (deps_succeeded d id) as Hd.
    { apply unsucceeded_zero. unfold unsucceeded_dependencies in *. lia. }
    destruct (update_row _ _ _ _) as [[row m]|] eqn:Hup; [|discriminate]. store_inv.
    apply update_row_some in Hup as (r' & Hr' & _ & -> & ->). simplify_eq. eauto 12.
Qed.

Lemma transition_ready_ok id prev next tr now d t d' :
  transition_ready_before_lease_failure_in_tx id prev next tr now d = (Ok t, d') ->
  exists r now_s elig state,
    tickets d !! id = Some r /\ t_state r = TicketReady /\ t_attempt r = prev /\
    format_text now = Some now_s /\ text_le (t_next_eligible_at r) now_s = true /\
    (match tr with
     | PreLeaseTerminal => state = TicketFailed /\ elig = t_next_eligible_at r
     | PreLeaseRetryAt a => state = TicketReady /\ format_text a = Some elig
     end) /\
    d' = set_tickets (<[id := ticket_with_eligible elig
           (ticket_with_attempt next (ticket_moved state now_s r))]> (tickets d)) d /\
    row_to_ticket (id, ticket_with_eligible elig
           (ticket_with_attempt next (ticket_moved state now_s r))) = Ok t.
Proof.
  unfold transition_ready_before_lease_failure_in_tx. intros Ht. store_inv.
  destruct (update_row _ _ _ _) as [[row m]|] eqn:Hup; [|discriminate]. store_inv.
  apply update_row_some in Hup as (r & Hr & Hc & -> & ->).
  apply andb_true_iff in Hc as [[Hs%bool_decide_eq_true Ha%Z.eqb_eq]%andb_true_iff Hle].
  destruct tr; store_inv; cbn in *; do 4 eexists; repeat apply conj;
    solve [reflexivity|eassumption].
Qed.
End ticket_facts.

(** ** Properties *)

Lemma tc_edge_add deps t p x y :
  tc (edge ({[(t, p)]} ∪ deps)) x y ->
  tc (edge deps) x y \/ ((x = t \/ tc (edge deps) x t) /\ (y = p \/ tc (edge deps) p y)).
Proof.
  induction 1 as [x y He|x y z He _ IH].
  - unfold edge in He. apply elem_of_union in He as [[= -> ->]%elem_of_singleton|He]; [auto|].
    left. by apply tc_once.
  - unfold edge in He. apply elem_of_union in He as [[= -> ->]%elem_of_singleton|He].
    + right. split; [auto|]. destruct IH as [?|[_ ?]]; auto.
    + destruct IH as [?|[[->|?] ?]]; [left; by eapply tc_l| |]; right; split; try done; right;
        [by apply tc_once|by eapply tc_l].
Qed.

Lemma acyclic_add deps t p :
  t <> p -> ~ tc (edge deps) p t -> acyclic deps -> acyclic ({[(t, p)]} ∪ deps).
Proof.
  intros Hne Hr Ha x Hx. apply tc_edge_add in Hx as [Hx|[Hx Hy]]; [by eapply Ha|].
  destruct Hx as [->|Hx], Hy as [->|Hy]; try done.
  apply Hr. by eapply tc_trans.
Qed.

Section ticket_properties.
Context `{Iso8601Laws}.

(** adding a dependency decides exactly the cases its contract names:
    a self edge or an edge that would close a cycle (the depended-on ticket
    already reaches the dependent one through existing edges) is refused as
    a cycle, an unknown dependent is [NotFound], a dependent past the
    readiness gate is a [Conflict], an unknown target or a duplicate edge
    violates a constraint, and otherwise the edge, and nothing else, is
    added. The cycle test of the code, a recursive query, agrees with
    reachability in the graph. *)
Theorem add_dependency_outcome t p d :
  t <= i64_max -> p <= i64_max ->
  (t = p -> add_dependency_in_tx t p d = (Err EDependencyCycle, d)) /\
  (t <> p ->
   match tickets d !! t with
   | None => add_dependency_in_tx t p d = (Err ENotFound, d)
   | Some r =>
       (t_state r <> TicketPending -> add_dependency_in_tx t p d = (Err EConflict, d)) /\
       (t_state r = TicketPending ->
          (tc (edge (ticket_dependencies d)) p t ->
             add_dependency_in_tx t p d = (Err EDependencyCycle, d)) /\
          (~ tc (edge (ticket_dependencies d)) p t ->
             (tickets d !! p = None \/ edge (ticket_dependencies d) t p ->
                add_dependency_in_tx t p d = (Err EDatabase, d)) /\
             (is_Some (tickets d !! p) -> ~ edge (ticket_dependencies d) t p ->
                add_dependency_in_tx t p d =
                  (Ok tt, set_dependencies ({[(t, p)]} ∪ ticket_dependencies d) d))))
   end).
Proof.
  intros Ht Hp.
  assert (forall x, x <= i64_max -> i64_from_u64 x = Ok x) as Hi
    by (intros x Hx; by apply i64_from_u64_ok).
  unfold add_dependency_in_tx. rewrite (Hi t Ht), (Hi p Hp).
  split; intros Hne; [by apply Z.eqb_eq in Hne as ->|].
  apply Z.eqb_neq in Hne as Hneb. rewrite Hneb.
  unfold mbind, tx_mbind, lift, gets, modify, throw.
  destruct (tickets d !! t) as [r|] eqn:Hr; cbn; [|done].
  split; intros Hs; [by destruct (t_state r)|]. rewrite Hs.
  split; intros Hc; rewrite <- reach_spec in Hc.
  { by rewrite bool_decide_eq_true_2. }
  rewrite (bool_decide_eq_false_2 _ Hc). split.
  - intros Hbad. rewrite bool_decide_eq_false_2; [done|]. intros (_ & [? Hx] & He & _).
    destruct Hbad as [Hbad|Hbad]; [congruence|by apply He].
  - intros Hx He. rewrite bool_decide_eq_true_2; [done|]. eauto.
Qed.

(** the dependency graph stays acyclic. *)
Theorem add_dependency_acyclic t p d r d' :
  acyclic (ticket_dependencies d) ->
  add_dependency t p d = (r, d') ->
  acyclic (ticket_dependencies d').
Proof.
  intros Ha Hr. revert Ha. refine (fun Ha => atomically_preserves
    (fun d => acyclic (ticket_dependencies d)) _ _ d r d' Ha Hr).
  clear. intros d [] d' Ha (r & _ & _ & _ & Hne & _ & Hc & ->)%add_dependency_ok. cbn.
  by apply acyclic_add.
Qed.

(** a ticket becomes ready exactly when it is pending and every ticket
    it depends on has succeeded; a pending ticket with an unsucceeded
    dependency, or a ticket past the gate, is left alone with an empty
    report, and an unknown one is [NotFound]. *)
Theorem mark_ready_outcome id now ts d :
  id <= i64_max -> format_text now = Some ts -> tickets_readable d ->
  match tickets d !! id with
  | None => mark_ready_if_unblocked_in_tx id now d = (Err ENotFound, d)
  | Some r =>
      (t_state r = TicketPending /\ deps_succeeded d id /\
       exists t, ticket_matches id (ticket_moved TicketReady ts r) t /\
         mark_ready_if_unblocked_in_tx id now d =
           (Ok [t], set_tickets (<[id := ticket_moved TicketReady ts r]> (tickets d)) d)) \/
      ((t_state r <> TicketPending \/ ~ deps_succeeded d id) /\
       mark_ready_if_unblocked_in_tx id now d = (Ok [], d))
  end.
Proof.
  intros Hid Hf Hd. unfold mark_ready_if_unblocked_in_tx.
  rewrite (proj2 (i64_from_u64_ok id id) (conj eq_refl Hid)). unfold iso8601. rewrite Hf.
  unfold mbind, tx_mbind, lift, gets, modify, throw, update_row.
  destruct (tickets d !! id) as [r|] eqn:Hr; cbn; [|done].
  destruct (decide (t_state r = TicketPending)) as [Hs|Hs].
  2: { right. split; [by left|]. by destruct (t_state r). }
  unfold in_state. rewrite Hs. destruct (Z.ltb_spec 0 (unsucceeded_dependencies id d)) as [Hu|Hu].
  - right. split; [|done]. right. rewrite <- unsucceeded_zero. lia.
  - left. split; [done|]. split.
    { apply unsucceeded_zero. unfold unsucceeded_dependencies in *. lia. }
    rewrite Hr, Hs, bool_decide_eq_true_2 by done. cbn.
    destruct (row_to_ticket_total id (ticket_moved TicketReady ts r)) as (t & Ht & Hm).
    { apply ticket_moved_readable; [by eapply format_stamped|]. exact (Hd _ _ Hr). }
    exists t. split; [done|]. by rewrite Ht.
Qed.
End ticket_properties.

(** *** The scheduling queue *)

#[global] Instance sched_order_trans : Transitive sched_order.
Proof.
  intros x y z [Hxy|(Exy & Hxy)] [Hyz|(Eyz & Hyz)]; unfold sched_order; [left; lia..|].
  right. split; [lia|]. destruct Hxy as [Hxy|[Txy Hxy]], Hyz as [Hyz|[Tyz Hyz]].
  - left. by eapply text_lt_trans.
  - left. congruence.
  - left. congruence.
  - right. split; [congruence|lia].
Qed.

#[global] Instance sched_order_total : Total sched_order.
Proof.
  intros x y. unfold sched_order.
  destruct (Z.lt_trichotomy (t_priority x.2) (t_priority y.2)) as [?|[E|?]]; [auto| |auto].
  destruct (text_lt_total (t_next_eligible_at x.2) (t_next_eligible_at y.2)) as [?|[T|?]];
    [auto| |auto].
  destruct (Z.le_ge_cases x.1 y.1); auto 8.
Qed.

Lemma select_sched_in cond m k r :
  In (k, r) (select_sched cond m) <-> m !! k = Some r /\ cond k r = true.
Proof.
  unfold select_sched. rewrite <- elem_of_map_to_list, <- !list_elem_of_In.
  rewrite (merge_sort_Permutation sched_order _), list_elem_of_In, filter_In, list_elem_of_In.
  done.
Qed.

Lemma select_sched_sorted cond m : StronglySorted sched_order (select_sched cond m).
Proof. apply StronglySorted_merge_sort; apply _. Qed.

Lemma select_sched_NoDup cond m : NoDup (select_sched cond m).*1.
Proof.
  unfold select_sched. rewrite (merge_sort_Permutation sched_order _).
  apply NoDup_fst_filter, NoDup_fst_map_to_list.
Qed.

Section queue.
Context `{Iso8601Laws}.

(** What makes a ticket claimable for a set of operations at an instant. *)
Definition claimable (operations : list TicketOperation) (now : Z) (d : Db) (r : TicketRow) :
    Prop :=
  t_state r = TicketReady /\
  (exists e, format_text e = Some (t_next_eligible_at r) /\ e <= now) /\
  t_attempt r < t_max_attempts r /\
  (forall j, t_job_id r = Some j ->
     exists jr, jobs d !! j = Some jr /\ j_state jr = JobOpen) /\
  (exists op, In op operations /\ In (t_kind r) (matching_tokens (TicketOperation_normalize op))).

Lemma parent_job_open_spec d r :
  parent_job_open d r = true <->
  forall j, t_job_id r = Some j -> exists jr, jobs d !! j = Some jr /\ j_state jr = JobOpen.
Proof.
  unfold parent_job_open. destruct (t_job_id r) as [j|]; [|naive_solver].
  destruct (jobs d !! j) as [jr|] eqn:E; rewrite ?bool_decide_eq_true; split; naive_solver.
Qed.

Lemma existsb_eqb_in s l : existsb (String.eqb s) l = true <-> In s l.
Proof.
  rewrite existsb_exists. split.
  - by intros (x & Hx & ->%String.eqb_eq).
  - intros Hs. exists s. by rewrite String.eqb_refl.
Qed.

Lemma ready_row_spec operations now ts d id r :
  format_text now = Some ts -> ticket_readable id r ->
  ready_row (flat_map (fun op => matching_tokens (TicketOperation_normalize op)) operations)
    ts d r = true <-> claimable operations now d r.
Proof.
  intros Hf (_ & _ & _ & _ & _ & [e He] & _). unfold ready_row, claimable, in_state.
  rewrite !andb_true_iff, bool_decide_eq_true, Z.ltb_lt, parent_job_open_spec, existsb_eqb_in,
    in_flat_map, (text_le_instant _ _ _ _ He Hf).
  split; [naive_solver|]. intros (? & (e' & He' & ?) & ? & ? & ?). split_and!; try done.
  apply parse_format in He, He'. congruence.
Qed.

Lemma ready_for_operations_eq operations now ts d :
  format_text now = Some ts ->
  ready_for_operations_in_tx operations now d =
    (collect row_to_ticket (select_sched (fun _ => ready_row
       (flat_map (fun op => matching_tokens (TicketOperation_normalize op)) operations) ts d)
       (tickets d)), d).
Proof.
  intros Hf. unfold ready_for_operations_in_tx.
  destruct (flat_map _ operations) as [|tok tokens].
  - destruct (select_sched _ _) as [|[id r] l] eqn:E; [done|]. exfalso.
    assert (In (id, r) ((id, r) :: l)) as Hin by by left. rewrite <- E in Hin.
    apply select_sched_in in Hin as [_ Hc]. unfold ready_row in Hc. cbn in Hc.
    by rewrite andb_false_r in Hc.
  - unfold mbind, tx_mbind, lift, getsR, iso8601. by rewrite Hf.
Qed.

(** the queue a worker polls holds exactly the claimable tickets, each
    once, higher priority first, then the earlier eligibility, then the
    smaller id. *)
Theorem ready_queue_exact operations now ts d :
  format_text now = Some ts -> tickets_readable d ->
  exists rows out,
    ready_for_operations_in_tx operations now d = (Ok out, d) /\
    Forall2 (fun kr t => ticket_matches kr.1 kr.2 t) rows out /\
    (forall id r, In (id, r) rows <-> tickets d !! id = Some r /\ claimable operations now d r) /\
    StronglySorted sched_order rows /\ NoDup rows.*1.
Proof.
  intros Hf Hd. rewrite (ready_for_operations_eq _ _ _ _ Hf).
  set (rows := select_sched _ _). exists rows.
  assert (forall id r, In (id, r) rows <-> tickets d !! id = Some r /\
            claimable operations now d r) as Hin.
  { intros id r. unfold rows. rewrite select_sched_in. split; intros [Hr Hc]; split; try done;
      by eapply ready_row_spec; eauto. }
  destruct (collect_total row_to_ticket rows) as [out Hout].
  { intros [id r] [Hr _]%Hin. destruct (row_to_ticket_total id r (Hd id r Hr)) as (t & Ht & _).
    eauto. }
  exists out. rewrite Hout.
  split_and!; [done| |done|apply select_sched_sorted|apply select_sched_NoDup].
  apply collect_ok in Hout. eapply Forall2_impl; [exact Hout|].
  intros [id r] t Ht. by apply row_to_ticket_matches.
Qed.
End queue.
