(* ===== verification/Workers.v ===== *)
(** * Workers, capabilities, grants and capacity

    [voom-store/src/repo/execution/workers.rs], [scheduler_node_limits.rs] and
    [accelerator_claims.rs]: who may execute what, and how much of it. *)

From S2P Require Import Prelude Json Vocab Operations Store Jobs Tickets.
From Stdlib Require Import ZArith Lia Bool String Ascii.
From stdpp Require Import base gmap strings list sorting.

Open Scope Z_scope.

(** SQLite's [CAST(v AS INTEGER)] on the value [json_extract] returns. *)
Class SqliteCast := { cast_integer : Json -> Z }.

(** ** Records *)

Record NewWorker := {
  nw_name : string; nw_kind : WorkerKind; nw_registered_at : Z; nw_node_id : option Z;
}.

Record Worker := {
  worker_id : Z; worker_node_id : option Z; worker_node_incarnation_id : option (list Z);
  worker_name : string; worker_kind : WorkerKind; worker_status : WorkerStatus;
  worker_registered_at : Z; worker_last_seen_at : Z; worker_retired_at : option Z;
  worker_epoch : Z;
}.

Definition worker_accepts_new_work (kind : WorkerKind) (status : WorkerStatus) : bool :=
  match kind, status with
  | WorkerKindRemote, WorkerActive => true
  | (WorkerKindLocal | WorkerKindSynthetic), (WorkerRegistered | WorkerActive) => true
  | WorkerKindRemote, (WorkerRegistered | WorkerStale | WorkerRetired) => false
  | (WorkerKindLocal | WorkerKindSynthetic), (WorkerStale | WorkerRetired) => false
  end.

Definition accepts_new_work (w : Worker) : bool :=
  worker_accepts_new_work (worker_kind w) (worker_status w).

Record WorkerNodeContext := {
  wn_id : Z; wn_name : string; wn_kind : NodeKind; wn_status : NodeStatus; wn_last_seen_at : Z;
}.

Record WorkerInspection := { wx_worker : Worker; wx_node : option WorkerNodeContext }.

Record WorkerOperationEligibility := {
  el_worker_status : option WorkerStatus; el_worker_kind : option WorkerKind;
  el_has_capability : bool; el_has_grant : bool; el_is_denied : bool;
  el_artifact_access : list string;
}.

Definition is_eligible (e : WorkerOperationEligibility) : bool :=
  match el_worker_kind e, el_worker_status e with
  | Some kind, Some status =>
      let is_ready := worker_accepts_new_work kind status in
      is_ready && el_has_capability e && el_has_grant e && negb (el_is_denied e)
  | _, _ => false
  end.

Record WorkerOperationCandidate := {
  wc_worker_id : Z; wc_active_leases : Z; wc_max_parallel : Z; wc_hardware : list string;
  wc_capability_extra : list Json;
}.

Record WorkerOperationCapability := {
  woc_worker_id : Z; woc_hardware : list string; woc_extra : Json;
}.

Record RuntimeWorkerCapability := {
  rwc_worker_id : Z; rwc_worker_epoch : Z; rwc_operation : TicketOperation; rwc_extra : Json;
}.

Record WorkerOperationCapacity := { active_leases : Z; max_parallel : Z }.

Definition has_capacity (c : WorkerOperationCapacity) : bool := active_leases c <? max_parallel c.

Record NewCapability := {
  nc_worker_id : Z; nc_operation : TicketOperation; nc_codecs : list string;
  nc_hardware : list string; nc_artifact_access : list string; nc_extra : Json;
}.
Record Capability := { cap_id : Z; cap_worker_id : Z; cap_operation : TicketOperation }.

Record NewGrant := {
  ng_worker_id : Z; ng_can_execute : list TicketOperation; ng_can_access_read : list string;
  ng_can_access_write : list string; ng_denies : list TicketOperation; ng_max_parallel : Json;
}.
Record Grant := { grant_id : Z; grant_worker_id : Z }.

(** ** Row updates *)

Definition worker_bound (incarnation : string) (r : WorkerRow) : WorkerRow := {|
  w_name := w_name r; w_kind := w_kind r; w_status := w_status r;
  w_registered_at := w_registered_at r; w_last_seen_at := w_last_seen_at r;
  w_retired_at := w_retired_at r; w_epoch := w_epoch r; w_node_id := w_node_id r;
  w_node_incarnation_id := Some incarnation |}.

Definition worker_with_status (status : WorkerStatus) (r : WorkerRow) : WorkerRow := {|
  w_name := w_name r; w_kind := w_kind r; w_status := status;
  w_registered_at := w_registered_at r; w_last_seen_at := w_last_seen_at r;
  w_retired_at := w_retired_at r; w_epoch := w_epoch r; w_node_id := w_node_id r;
  w_node_incarnation_id := w_node_incarnation_id r |}.

Definition worker_retired_row (ts : string) (r : WorkerRow) : WorkerRow := {|
  w_name := w_name r; w_kind := w_kind r; w_status := WorkerRetired;
  w_registered_at := w_registered_at r; w_last_seen_at := ts; w_retired_at := Some ts;
  w_epoch := w_epoch r + 1; w_node_id := w_node_id r;
  w_node_incarnation_id := w_node_incarnation_id r |}.

(** [ORDER BY w.registered_at ASC, w.id ASC]. *)
Definition registration_order (x y : Z * WorkerRow) : Prop :=
  text_lt (w_registered_at x.2) (w_registered_at y.2) = true \/
  (w_registered_at x.2 = w_registered_at y.2 /\ x.1 <= y.1).
#[global] Instance registration_order_dec : RelDecision registration_order.
Proof. intros x y. unfold registration_order. apply _. Defined.

Definition select_registered (cond : Z -> WorkerRow -> bool) (m : gmap Z WorkerRow) :
    list (Z * WorkerRow) :=
  merge_sort registration_order (List.filter (fun kv => cond kv.1 kv.2) (map_to_list m)).

(** The iteration order of a [BTreeSet] of operation tokens. *)
Definition text_leP (s t : string) : Prop := text_le s t = true.
#[global] Instance text_leP_dec : RelDecision text_leP.
Proof. intros x y. unfold text_leP. apply _. Defined.

Definition sorted_texts (s : gset string) : list string := merge_sort text_leP (elements s).

(** ** Limits *)

Definition max_limit (current candidate : option Z) : option Z :=
  match current, candidate with
  | Some current, Some candidate => Some (Z.max current candidate)
  | Some current, None => Some current
  | None, Some candidate => Some candidate
  | None, None => None
  end.

Definition positive_u32 (value : option Json) : Res (option Z) :=
  match value with
  | None => Ok None
  | Some value =>
      match json_as_u64 value with
      | None => Err EDatabase
      | Some limit =>
          if limit =? 0 then Err EDatabase
          else if is_u32 limit then Ok (Some limit) else Err EDatabase
      end
  end.

(** The grants of one worker, in id order. *)
Definition grants_of (d : Db) (worker : Z) : list GrantRow :=
  map snd (select_asc (fun _ g => g_worker_id g =? worker) (worker_grants d)).

(** The capabilities of one worker that name one of the tokens, in id order. *)
Definition capabilities_of (d : Db) (worker : Z) (tokens : list string) : list CapabilityRow :=
  map snd (select_asc (fun _ c =>
    (c_worker_id c =? worker) && existsb (String.eqb (c_operation c)) tokens)
    (worker_capabilities d)).

(** One grant row of the loop in [max_parallel_in_tx]: the limits of the
    operation's aliases, then the wildcard. *)
Definition limit_step (aliases : list string) (acc : option Z * option Z) (g : GrantRow) :
    Res (option Z * option Z) :=
  operation_limit ←
    foldl (fun acc alias =>
      limit ← acc;
      candidate ← positive_u32 (json_get (g_max_parallel g) alias);
      Ok (max_limit limit candidate)) (Ok acc.1) aliases;
  wildcard ← positive_u32 (json_get (g_max_parallel g) "*");
  Ok (operation_limit, max_limit acc.2 wildcard).

Definition max_parallel_of (grants : list GrantRow) (operation : TicketOperation) : Res Z :=
  limits ←
    foldl (fun acc g => acc' ← acc;
             limit_step (matching_tokens (TicketOperation_normalize operation)) acc' g)
      (Ok (None, None)) grants;
  Ok (match limits with
      | (Some operation_limit, _) => operation_limit
      | (None, Some wildcard_limit) => wildcard_limit
      | (None, None) => 1
      end).

(** [parse_operation_array_json] on a column the code wrote. *)
Definition parse_operations (raw : list string) : Res (list TicketOperation) :=
  collect TicketOperation_from_stored raw.

Definition any_token (tokens : list string) (ops : list TicketOperation) : bool :=
  existsb (fun item => existsb (String.eqb item) tokens) ops.

(** The grant loop of [operation_eligibility_in_tx]. *)
Definition grant_step (tokens : list string) (acc : bool * bool) (g : GrantRow) :
    Res (bool * bool) :=
  can_execute ← parse_operations (g_can_execute g);
  denies ← parse_operations (g_denies g);
  Ok (acc.1 || any_token tokens can_execute, acc.2 || any_token tokens denies).

Definition grant_flags (tokens : list string) (grants : list GrantRow) : Res (bool * bool) :=
  foldl (fun acc g => acc' ← acc; grant_step tokens acc' g) (Ok (false, false)) grants.

Section workers.
Context `{Iso8601, SqliteCast}.

Definition worker_incarnation_projection (node_id : option Z) (incarnation_id : option string)
    (incarnation_node_id : option Z) : Res (option Z * option (list Z)) :=
  node_id ← transpose (u64_from_i64 <$> node_id);
  incarnation_id ← transpose (NodeIncarnationId_parse_database <$> incarnation_id);
  incarnation_node_id ← transpose (u64_from_i64 <$> incarnation_node_id);
  match incarnation_id, node_id, incarnation_node_id with
  | None, _, None => Ok (node_id, incarnation_id)
  | None, _, Some _ => Err EDatabase
  | Some _, Some node, Some owner =>
      if node =? owner then Ok (node_id, incarnation_id) else Err EDatabase
  | Some _, None, _ => Err EDatabase
  | Some _, Some _, None => Err EDatabase
  end.

(** [LEFT JOIN node_incarnations ni ON ni.incarnation_id = w.node_incarnation_id]. *)
Definition incarnation_owner (d : Db) (r : WorkerRow) : option Z :=
  incarnation ← w_node_incarnation_id r; i_node_id <$> (node_incarnations d !! incarnation).

Definition row_to_worker (d : Db) (row : Z * WorkerRow) : Res Worker :=
  let r := row.2 in
  owner ← worker_incarnation_projection (w_node_id r) (w_node_incarnation_id r)
            (incarnation_owner d r);
  retired_at ← transpose (parse_iso8601 <$> w_retired_at r);
  if negb (Bool.eqb (bool_decide (w_status r = WorkerRetired)) (bool_decide (is_Some retired_at)))
  then Err EDatabase else
  id ← u64_from_i64 row.1;
  registered ← parse_iso8601 (w_registered_at r);
  last_seen ← parse_iso8601 (w_last_seen_at r);
  epoch ← u64_from_i64 (w_epoch r);
  Ok {| worker_id := id; worker_node_id := owner.1; worker_node_incarnation_id := owner.2;
        worker_name := w_name r; worker_kind := w_kind r; worker_status := w_status r;
        worker_registered_at := registered; worker_last_seen_at := last_seen;
        worker_retired_at := retired_at; worker_epoch := epoch |}.

Definition Worker_get_in_tx (id : Z) : M (option Worker) :=
  key ← lift (i64_from_u64 id);
  getsR (fun d => transpose ((fun r => row_to_worker d (key, r)) <$> (workers d !! key))).

Definition Worker_get (id : Z) : M (option Worker) := Worker_get_in_tx id.

(** [name] is [UNIQUE], so the smallest id is the only one. *)
Definition row_by_name (d : Db) (name : string) : option (Z * WorkerRow) :=
  head (select_asc (fun _ r => String.eqb (w_name r) name) (workers d)).

Definition get_by_name_in_tx (name : string) : M (option Worker) :=
  getsR (fun d => transpose (row_to_worker d <$> row_by_name d name)).

Definition get_by_name (name : string) : M (option Worker) :=
  atomically (get_by_name_in_tx name).

Definition node_exists (d : Db) (node : option Z) : bool :=
  match node with None => true | Some n => bool_decide (is_Some (nodes d !! n)) end.

Definition new_worker_row (input : NewWorker) (ts : string) : WorkerRow := {|
  w_name := nw_name input; w_kind := nw_kind input; w_status := WorkerRegistered;
  w_registered_at := ts; w_last_seen_at := ts; w_retired_at := None; w_epoch := 0;
  w_node_id := nw_node_id input; w_node_incarnation_id := None |}.

(** The insert fails on the [UNIQUE] name and on the foreign key to [nodes]. *)
Definition register_in_tx (input : NewWorker) : M Worker :=
  ts ← lift (iso8601 (nw_registered_at input));
  node ← lift (transpose (i64_from_u64 <$> nw_node_id input));
  insertable ← gets (fun d =>
    bool_decide (row_by_name d (nw_name input) = None) && node_exists d node);
  if negb insertable then throw EDatabase else
  rowid ← gets (fun d => next_rowid (workers d));
  _ ← modify (fun d => set_workers (<[rowid := new_worker_row input ts]> (workers d)) d);
  id ← lift (u64_from_i64 rowid);
  mret {| worker_id := id; worker_node_id := nw_node_id input;
          worker_node_incarnation_id := None; worker_name := nw_name input;
          worker_kind := nw_kind input; worker_status := WorkerRegistered;
          worker_registered_at := nw_registered_at input;
          worker_last_seen_at := nw_registered_at input; worker_retired_at := None;
          worker_epoch := 0 |}.

Definition register (input : NewWorker) : M Worker := atomically (register_in_tx input).

(** [INSERT OR IGNORE] skips the row on a [UNIQUE] conflict only. *)
Definition register_builtin_if_missing_in_tx (input : NewWorker) : M Worker :=
  ts ← lift (iso8601 (nw_registered_at input));
  node ← lift (transpose (i64_from_u64 <$> nw_node_id input));
  taken ← gets (fun d => bool_decide (is_Some (row_by_name d (nw_name input))));
  fk ← gets (fun d => node_exists d node);
  _ ← (if (taken : bool) then mret tt
       else if (fk : bool) then
         modify (fun d => set_workers
           (<[next_rowid (workers d) := new_worker_row input ts]> (workers d)) d)
       else throw EDatabase);
  row ← get_by_name_in_tx (nw_name input);
  lift (ok_or row EInternal).

Definition bind_incarnation_in_tx (worker_id node_id : Z) (incarnation_id : list Z) :
    M Worker :=
  found ← Worker_get_in_tx worker_id;
  worker ← lift (ok_or found ENotFound);
  if negb (bool_decide (worker_node_id worker = Some node_id)) then throw EConflict else
  if bool_decide (is_Some (worker_node_incarnation_id worker)) then throw EConflict else
  let incarnation := NodeIncarnationId_display incarnation_id in
  row ← gets (fun d => node_incarnations d !! incarnation);
  inc ← lift (ok_or row ENotFound);
  owner ← lift (u64_from_i64 (i_node_id inc));
  if negb (owner =? node_id) then throw EConflict else
  if negb (bool_decide (i_status inc = IncarnationActive)) then throw EConflict else
  key ← lift (i64_from_u64 worker_id);
  node ← lift (i64_from_u64 node_id);
  res ← gets (fun d => update_row key
    (fun r => bool_decide (w_node_id r = Some node) &&
              bool_decide (w_node_incarnation_id r = None))
    (worker_bound incarnation) (workers d));
  match res with
  | None => throw EConflict
  | Some (_, workers') =>
      _ ← modify (set_workers workers');
      reloaded ← Worker_get_in_tx worker_id;
      lift (ok_or reloaded EInternal)
  end.

Definition node_owned_worker_in_tx (worker_id node_id : Z) : M Worker :=
  found ← Worker_get_in_tx worker_id;
  worker ← lift (ok_or found ENotFound);
  if negb (bool_decide (worker_node_id worker = Some node_id)) then throw EConflict else
  if bool_decide (worker_status worker = WorkerRetired) then throw EConflict else
  mret worker.

Definition incarnation_owned_worker_in_tx (worker_id node_id : Z) (incarnation_id : list Z) :
    M Worker :=
  worker ← node_owned_worker_in_tx worker_id node_id;
  if bool_decide (worker_node_incarnation_id worker = Some incarnation_id) then mret worker
  else throw EConflict.

Definition set_remote_readiness_in_tx (worker_id node_id : Z) (incarnation_id : list Z)
    (readiness : WorkerReadiness) : M Worker :=
  worker ← incarnation_owned_worker_in_tx worker_id node_id incarnation_id;
  if negb (bool_decide (worker_kind worker = WorkerKindRemote)) then throw EConflict else
  match worker_status worker with
  | WorkerStale | WorkerRetired => throw EConflict
  | WorkerRegistered | WorkerActive =>
      let status := match readiness with
                    | WorkerReady => WorkerActive
                    | WorkerNotReady => WorkerRegistered
                    end in
      key ← lift (i64_from_u64 worker_id);
      node ← lift (i64_from_u64 node_id);
      res ← gets (fun d => update_row key
        (fun r => bool_decide (w_node_id r = Some node) &&
           bool_decide (w_node_incarnation_id r =
                        Some (NodeIncarnationId_display incarnation_id)) &&
           (bool_decide (w_status r = WorkerRegistered) ||
            bool_decide (w_status r = WorkerActive)))
        (worker_with_status status) (workers d));
      match res with
      | None => throw EConflict
      | Some (_, workers') =>
          _ ← modify (set_workers workers');
          reloaded ← Worker_get_in_tx worker_id;
          lift (ok_or reloaded EInternal)
      end
  end.

Definition retire_in_tx (id expected_epoch now : Z) : M Worker :=
  found ← Worker_get_in_tx id;
  current ← lift (ok_or found ENotFound);
  if bool_decide (worker_status current = WorkerRetired) then throw EConflict else
  if negb (worker_epoch current =? expected_epoch) then throw EConflict else
  ts ← lift (iso8601 now);
  key ← lift (i64_from_u64 id);
  _ ← modify (fun d => set_claims
    (filter (fun kv => a_worker_id kv.2 <> key) (accelerator_claims d)) d);
  epoch ← lift (i64_from_u64 expected_epoch);
  res ← gets (fun d => update_row key
    (fun r => (w_epoch r =? epoch) && negb (bool_decide (w_status r = WorkerRetired)))
    (worker_retired_row ts) (workers d));
  match res with
  | None => throw EConflict
  | Some (_, workers') =>
      _ ← modify (set_workers workers');
      reloaded ← Worker_get_in_tx id;
      lift (ok_or reloaded EInternal)
  end.

Definition retire (id expected_epoch now : Z) : M Worker :=
  atomically (retire_in_tx id expected_epoch now).

Definition retire_live_for_incarnation_in_tx (incarnation_id : list Z) (now : Z) :
    M (list Worker) :=
  rows ← gets (fun d => select_asc (fun _ r =>
    bool_decide (w_node_incarnation_id r = Some (NodeIncarnationId_display incarnation_id)) &&
    negb (bool_decide (w_status r = WorkerRetired))) (workers d));
  fold_tx (fun retired (row : Z * WorkerRow) =>
    id ← lift (u64_from_i64 row.1);
    found ← Worker_get_in_tx id;
    worker ← lift (ok_or found EDatabase);
    out ← retire_in_tx id (worker_epoch worker) now;
    mret (retired ++ [out])) [] rows.

Definition record_capability_in_tx (input : NewCapability) : M Capability :=
  worker ← lift (i64_from_u64 (nc_worker_id input));
  fk ← gets (fun d => bool_decide (is_Some (workers d !! worker)));
  if negb fk then throw EDatabase else
  rowid ← gets (fun d => next_rowid (worker_capabilities d));
  _ ← modify (fun d => set_capabilities (<[rowid := {|
    c_worker_id := worker; c_operation := nc_operation input; c_codecs := nc_codecs input;
    c_hardware := nc_hardware input; c_artifact_access := nc_artifact_access input;
    c_extra := nc_extra input |}]> (worker_capabilities d)) d);
  id ← lift (u64_from_i64 rowid);
  mret {| cap_id := id; cap_worker_id := nc_worker_id input;
          cap_operation := nc_operation input |}.

Definition record_capability (input : NewCapability) : M Capability :=
  atomically (record_capability_in_tx input).

Definition record_grant_in_tx (input : NewGrant) : M Grant :=
  worker ← lift (i64_from_u64 (ng_worker_id input));
  fk ← gets (fun d => bool_decide (is_Some (workers d !! worker)));
  if negb fk then throw EDatabase else
  rowid ← gets (fun d => next_rowid (worker_grants d));
  _ ← modify (fun d => set_grants (<[rowid := {|
    g_worker_id := worker; g_can_execute := ng_can_execute input;
    g_can_access_read := ng_can_access_read input;
    g_can_access_write := ng_can_access_write input; g_denies := ng_denies input;
    g_max_parallel := ng_max_parallel input |}]> (worker_grants d)) d);
  id ← lift (u64_from_i64 rowid);
  mret {| grant_id := id; grant_worker_id := ng_worker_id input |}.

Definition record_grant (input : NewGrant) : M Grant := atomically (record_grant_in_tx input).

(** *** Eligibility *)

Definition operation_eligibility_in_tx (worker_id : Z) (operation : TicketOperation) :
    M WorkerOperationEligibility :=
  let tokens := matching_tokens (TicketOperation_normalize operation) in
  worker ← Worker_get_in_tx worker_id;
  key ← lift (i64_from_u64 worker_id);
  capability_rows ← gets (fun d => capabilities_of d key tokens);
  flags ← getsR (fun d => grant_flags tokens (grants_of d key));
  mret {| el_worker_status := worker_status <$> worker;
          el_worker_kind := worker_kind <$> worker;
          el_has_capability := negb (bool_decide (capability_rows = []));
          el_has_grant := flags.1; el_is_denied := flags.2;
          el_artifact_access := flat_map c_artifact_access capability_rows |}.

Definition operation_eligibility (worker_id : Z) (operation : TicketOperation) :
    M WorkerOperationEligibility :=
  atomically (operation_eligibility_in_tx worker_id operation).

(** [normalize().matching_tokens().into_iter().take(1)]. *)
Definition first_token (op : TicketOperation) : list string :=
  take 1 (matching_tokens (TicketOperation_normalize op)).

Definition candidate_operations_in_tx (worker_id : Z) : M (list TicketOperation) :=
  key ← lift (i64_from_u64 worker_id);
  capable ← getsR (fun d => collect TicketOperation_from_stored
    (map (fun kv => c_operation kv.2)
       (select_asc (fun _ c => c_worker_id c =? key) (worker_capabilities d))));
  granted ← getsR (fun d => collect (fun g =>
    can_execute ← parse_operations (g_can_execute g);
    denies ← parse_operations (g_denies g);
    Ok (can_execute, denies)) (grants_of d key));
  let operations : gset string :=
    list_to_set (flat_map first_token capable ++
                 flat_map (fun cd => flat_map first_token cd.1) granted) in
  let denied : gset string :=
    list_to_set (flat_map (fun cd => flat_map first_token cd.2) granted) in
  mret (sorted_texts (operations ∖ denied)).

Definition require_live_in_tx (worker_id : Z) : M Worker :=
  found ← Worker_get_in_tx worker_id;
  worker ← lift (ok_or found ENotFound);
  if accepts_new_work worker then mret worker else throw EConflict.

(** *** Capacity *)

Definition max_parallel_in_tx (worker_id : Z) (operation : TicketOperation) : M Z :=
  key ← lift (i64_from_u64 worker_id);
  getsR (fun d => max_parallel_of (grants_of d key) operation).

(** The two encodings of [transcode_video] in the accelerator SQL. *)
Definition transcode_video_tokens : list string :=
  ["transcode_video"; "synthetic.workflow.operation.transcode_video"]%string.

Definition names_transcode_video (token : string) : bool :=
  existsb (String.eqb token) transcode_video_tokens.

(** [json_extract(hardware, '$[0]') = ?] *)
Definition on_device (hardware_token : string) (c : CapabilityRow) : bool :=
  bool_decide (head (c_hardware c) = Some hardware_token).

(** [SELECT MIN(CAST(json_extract(extra, '$.accelerator.max_sessions') AS INTEGER)) ..]:
    [NULL] values do not take part. *)
Definition device_sessions (d : Db) (hardware_token : string) : list Z :=
  omap (fun kv => cast_integer <$>
                  json_extract (c_extra kv.2) ["accelerator"; "max_sessions"]%string)
    (select_asc (fun _ c =>
       names_transcode_video (c_operation c) && on_device hardware_token c &&
       match workers d !! c_worker_id c with
       | Some w => negb (bool_decide (w_status w = WorkerRetired))
       | None => false
       end) (worker_capabilities d)).

Definition sql_min (l : list Z) : option Z :=
  match l with [] => None | x :: l' => Some (foldr Z.min x l') end.

(** [ACCELERATOR_ACTIVE_LEASES_SQL]. *)
Definition device_active_leases (d : Db) (hardware_token : string) : Z :=
  count_where (fun _ l =>
    bool_decide (l_state l = LeaseHeld) &&
    match tickets d !! l_ticket_id l with
    | Some t => names_transcode_video (t_kind t)
    | None => false
    end &&
    (0 <? count_where (fun _ c =>
       (c_worker_id c =? l_worker_id l) && names_transcode_video (c_operation c) &&
       on_device hardware_token c) (worker_capabilities d))) (leases d).

(** The worker's first capability for the operation with an accelerator
    descriptor. *)
Definition accelerator_row (d : Db) (worker : Z) : option (Z * CapabilityRow) :=
  head (select_asc (fun _ c =>
    (c_worker_id c =? worker) && names_transcode_video (c_operation c) &&
    match json_path (c_extra c) ["accelerator"]%string with
    | Some (JObj _) => true
    | _ => false
    end) (worker_capabilities d)).

Definition accelerator_operation_capacity (worker_id : Z) :
    M (option WorkerOperationCapacity) :=
  key ← lift (i64_from_u64 worker_id);
  row ← gets (fun d => accelerator_row d key);
  match row with
  | None => mret None
  | Some (_, c) =>
      hardware_token ← lift (ok_or (head (c_hardware c)) EConfig);
      max_sessions ← getsR (fun d => ok_or (sql_min (device_sessions d hardware_token)) EDatabase);
      active ← gets (fun d => device_active_leases d hardware_token);
      active ← lift (u32_from_i64 active);
      limit ← lift (u32_from_i64 max_sessions);
      mret (Some {| active_leases := active; max_parallel := limit |})
  end.

(** Held leases of one worker on tickets of either encoding. *)
Definition worker_active_leases (d : Db) (worker : Z) (operation workflow_operation : string) :
    Z :=
  count_where (fun _ l =>
    bool_decide (l_state l = LeaseHeld) && (l_worker_id l =? worker) &&
    match tickets d !! l_ticket_id l with
    | Some t => String.eqb (t_kind t) operation || String.eqb (t_kind t) workflow_operation
    | None => false
    end) (leases d).

Definition operation_capacity_in_tx (worker_id : Z) (operation : TicketOperation) :
    M WorkerOperationCapacity :=
  let normalized := TicketOperation_normalize operation in
  let operation := matching_token normalized in
  accelerated ← (if String.eqb operation (TicketOperation_from OpTranscodeVideo)
                 then accelerator_operation_capacity worker_id else mret None);
  match accelerated with
  | Some capacity => mret capacity
  | None =>
      let workflow_operation :=
        match normalized with
        | Known _ _ => String.append WORKFLOW_OPERATION_NAMESPACE operation
        | CustomLocal _ | UnknownNamespaced _ => operation
        end in
      key ← lift (i64_from_u64 worker_id);
      active ← gets (fun d => worker_active_leases d key operation workflow_operation);
      active ← lift (u32_from_i64 active);
      limit ← max_parallel_in_tx worker_id operation;
      mret {| active_leases := active; max_parallel := limit |}
  end.

(** *** Candidates and lists *)

Definition operation_capability_details_in_tx (worker_id : Z) (operation : TicketOperation) :
    M (list string * list Json) :=
  let tokens := matching_tokens (TicketOperation_normalize operation) in
  key ← lift (i64_from_u64 worker_id);
  rows ← gets (fun d => capabilities_of d key tokens);
  mret (flat_map c_hardware rows, map c_extra rows).

Definition operation_candidates_in_tx (operation : TicketOperation) :
    M (list WorkerOperationCandidate) :=
  rows ← gets (fun d => rows_asc (workers d));
  fold_tx (fun candidates (row : Z * WorkerRow) =>
    worker_id ← lift (u64_from_i64 row.1);
    eligibility ← operation_eligibility_in_tx worker_id operation;
    if negb (is_eligible eligibility) then mret candidates else
    capacity ← operation_capacity_in_tx worker_id operation;
    details ← operation_capability_details_in_tx worker_id operation;
    mret (candidates ++ [{|
      wc_worker_id := worker_id; wc_active_leases := active_leases capacity;
      wc_max_parallel := max_parallel capacity; wc_hardware := details.1;
      wc_capability_extra := details.2 |}])) [] rows.

Definition operation_candidates (operation : TicketOperation) :
    M (list WorkerOperationCandidate) :=
  atomically (operation_candidates_in_tx operation).

Definition operation_capability_history (operation : TicketOperation) :
    M (list WorkerOperationCapability) :=
  let tokens := matching_tokens (TicketOperation_normalize operation) in
  getsR (fun d => collect (fun kv : Z * CapabilityRow =>
    worker ← u64_from_i64 (c_worker_id kv.2);
    Ok {| woc_worker_id := worker; woc_hardware := c_hardware kv.2; woc_extra := c_extra kv.2 |})
    (select_asc (fun _ c => existsb (String.eqb (c_operation c)) tokens)
       (worker_capabilities d))).

(** [FROM workers w JOIN worker_capabilities wc .. ORDER BY w.id ASC, wc.id ASC]. *)
Definition runtime_rows (d : Db) (operations : list TicketOperation) :
    list ((Z * WorkerRow) * CapabilityRow) :=
  flat_map (fun w => map (fun c => (w, c)) (capabilities_of d w.1 operations))
    (rows_asc (workers d)).

Definition runtime_capabilities_for_operations (operations : list TicketOperation) :
    M (list RuntimeWorkerCapability) :=
  match operations with
  | [] => mret []
  | _ =>
      getsR (fun d => foldl (fun acc wc =>
        capabilities ← acc;
        let w := wc.1.2 in
        _ ← worker_incarnation_projection (w_node_id w) (w_node_incarnation_id w)
              (incarnation_owner d w);
        worker ← u64_from_i64 wc.1.1;
        epoch ← u64_from_i64 (w_epoch w);
        operation ← TicketOperation_from_stored (c_operation wc.2);
        Ok (if worker_accepts_new_work (w_kind w) (w_status w)
            then capabilities ++ [{| rwc_worker_id := worker; rwc_worker_epoch := epoch;
                                     rwc_operation := operation; rwc_extra := c_extra wc.2 |}]
            else capabilities)) (Ok []) (runtime_rows d operations))
  end.

Definition list_by_status (status : WorkerStatus) (limit : Z) : M (list Worker) :=
  getsR (fun d => collect (row_to_worker d) (take (Z.to_nat limit)
    (select_registered (fun _ r => bool_decide (w_status r = status)) (workers d)))).

Definition list_by_node (node_id : Z) : M (list Worker) :=
  node ← lift (i64_from_u64 node_id);
  getsR (fun d => collect (row_to_worker d)
    (select_registered (fun _ r => bool_decide (w_node_id r = Some node)) (workers d))).

(** [w.name = ? OR substr(w.name, 1, length(?)) = ?] *)
Definition in_name_namespace (legacy_name incarnation_prefix : string) (r : WorkerRow) : bool :=
  String.eqb (w_name r) legacy_name || String.prefix incarnation_prefix (w_name r).

Definition list_by_name_namespace (legacy_name incarnation_prefix : string) :
    M (list Worker) :=
  getsR (fun d => collect (row_to_worker d)
    (select_registered (fun _ => in_name_namespace legacy_name incarnation_prefix) (workers d))).

Definition list_live_by_name_namespace_in_tx (legacy_name incarnation_prefix : string) :
    M (list Worker) :=
  getsR (fun d => collect (row_to_worker d)
    (select_registered (fun _ r =>
       in_name_namespace legacy_name incarnation_prefix r &&
       (bool_decide (w_status r = WorkerRegistered) || bool_decide (w_status r = WorkerActive)))
       (workers d))).

Definition row_to_inspection (d : Db) (row : Z * WorkerRow) : Res WorkerInspection :=
  worker ← row_to_worker d row;
  let node_row := n ← w_node_id row.2; r ← nodes d !! n; Some (n, r) in
  match worker_node_id worker, node_row with
  | Some _, None => Err EDatabase
  | _, _ =>
      node ← transpose ((fun nr : Z * NodeRow =>
        id ← u64_from_i64 nr.1;
        last_seen ← parse_iso8601 (nd_last_seen_at nr.2);
        Ok {| wn_id := id; wn_name := nd_name nr.2; wn_kind := nd_kind nr.2;
              wn_status := nd_status nr.2; wn_last_seen_at := last_seen |}) <$> node_row);
      Ok {| wx_worker := worker; wx_node := node |}
  end.

Definition get_inspection (id : Z) : M (option WorkerInspection) :=
  key ← lift (i64_from_u64 id);
  getsR (fun d => transpose ((fun r => row_to_inspection d (key, r)) <$> (workers d !! key))).

Definition list_inspections (status : option WorkerStatus) (limit : Z) :
    M (list WorkerInspection) :=
  getsR (fun d => collect (row_to_inspection d) (take (Z.to_nat limit)
    (select_registered (fun _ r =>
       match status with None => true | Some s => bool_decide (w_status r = s) end)
       (workers d)))).
End workers.

(** ** Node limits *)

Record SchedulerNodeLimit := {
  snl_node_id : Z; snl_max_parallel_leases : Z; snl_created_at : Z; snl_updated_at : Z;
}.

Section node_limits.
Context `{Iso8601}.

Definition node_limit_in_tx (node_id : Z) : M Z :=
  key ← lift (i64_from_u64 node_id);
  row ← gets (fun d => scheduler_node_limits d !! key);
  match row with
  | None => mret 1
  | Some r => lift (u32_from_i64 (n_max_parallel_leases r))
  end.

Definition row_to_node_limit (row : Z * NodeLimitRow) : Res SchedulerNodeLimit :=
  node ← u64_from_i64 row.1;
  limit ← u32_from_i64 (n_max_parallel_leases row.2);
  created ← parse_iso8601 (n_created_at row.2);
  updated ← parse_iso8601 (n_updated_at row.2);
  Ok {| snl_node_id := node; snl_max_parallel_leases := limit; snl_created_at := created;
        snl_updated_at := updated |}.

(** A single upsert statement, so it commits by itself. *)
Definition set_node_limit (node_id max_parallel_leases now : Z) : M SchedulerNodeLimit :=
  if max_parallel_leases =? 0 then throw EConfig else
  ts ← lift (iso8601 now);
  key ← lift (i64_from_u64 node_id);
  fk ← gets (fun d => node_exists d (Some key));
  if negb (fk && (0 <? max_parallel_leases)) then throw EDatabase else
  created ← gets (fun d => default ts (n_created_at <$> (scheduler_node_limits d !! key)));
  let row := {| n_max_parallel_leases := max_parallel_leases; n_created_at := created;
                n_updated_at := ts |} in
  _ ← modify (fun d => set_node_limits (<[key := row]> (scheduler_node_limits d)) d);
  lift (row_to_node_limit (key, row)).
End node_limits.

(** ** Accelerator claims *)

Record NewAcceleratorClaim := {
  na_hardware_token : string; na_backend : string; na_worker_id : Z; na_boot_id : string;
  na_supervisor_pid : Z; na_supervisor_start_identity : option string;
  na_process_group_id : Z; na_capacity : Z; na_claimed_at : Z;
}.

(** [AcceleratorClaim] has the same fields. *)
Abbreviation AcceleratorClaim := NewAcceleratorClaim (only parsing).

(** [length(trim(s)) > 0]: a byte that is not a space. *)
Definition has_non_space (s : string) : bool :=
  negb (string_all (fun c => Ascii.eqb c " "%char) s).

(** The [CHECK] constraints of [accelerator_claims]. *)
Definition claim_checks (token : string) (r : ClaimRow) : bool :=
  has_non_space token &&
  existsb (String.eqb (a_backend r)) ["nvidia"; "video_toolbox"; "vaapi"]%string &&
  (0 <? a_supervisor_pid r) &&
  (if String.eqb (a_backend r) "video_toolbox"
   then bool_decide (a_supervisor_start_identity r = None)
   else bool_decide (is_Some (a_supervisor_start_identity r))) &&
  (0 <? a_process_group_id r) && ((1 <=? a_capacity r) && (a_capacity r <=? 16)).

Section claims.
Context `{Iso8601}.

Definition row_to_claim (token : string) (r : ClaimRow) : Res AcceleratorClaim :=
  worker ← u64_from_i64 (a_worker_id r);
  pid ← u32_from_i64 (a_supervisor_pid r);
  pgid ← u32_from_i64 (a_process_group_id r);
  capacity ← u32_from_i64 (a_capacity r);
  claimed ← parse_iso8601 (a_claimed_at r);
  Ok {| na_hardware_token := token; na_backend := a_backend r; na_worker_id := worker;
        na_boot_id := a_boot_id r; na_supervisor_pid := pid;
        na_supervisor_start_identity := a_supervisor_start_identity r;
        na_process_group_id := pgid; na_capacity := capacity; na_claimed_at := claimed |}.

Definition Claim_get_in_tx (token : string) : M (option AcceleratorClaim) :=
  getsR (fun d => transpose (row_to_claim token <$> (accelerator_claims d !! token))).

Definition Claim_get (token : string) : M (option AcceleratorClaim) := Claim_get_in_tx token.

(** [worker_id] is [UNIQUE] and a foreign key. *)
Definition claim_insertable (d : Db) (token : string) (r : ClaimRow) : bool :=
  claim_checks token r && bool_decide (accelerator_claims d !! token = None) &&
  bool_decide (is_Some (workers d !! a_worker_id r)) &&
  negb (existsb (fun kv : string * ClaimRow => a_worker_id kv.2 =? a_worker_id r)
          (map_to_list (accelerator_claims d))).

Definition claim_in_tx (input : NewAcceleratorClaim) : M AcceleratorClaim :=
  claimed_at ← lift (iso8601 (na_claimed_at input));
  worker ← lift (i64_from_u64 (na_worker_id input));
  let row := {| a_backend := na_backend input; a_worker_id := worker;
                a_boot_id := na_boot_id input; a_supervisor_pid := na_supervisor_pid input;
                a_supervisor_start_identity := na_supervisor_start_identity input;
                a_process_group_id := na_process_group_id input;
                a_capacity := na_capacity input; a_claimed_at := claimed_at |} in
  inserted ← gets (fun d => claim_insertable d (na_hardware_token input) row);
  if (inserted : bool) then
    _ ← modify (fun d => set_claims
      (<[na_hardware_token input := row]> (accelerator_claims d)) d);
    mret input
  else
    existing ← Claim_get_in_tx (na_hardware_token input);
    match existing with
    | Some _ => throw EConflict
    | None => throw EDatabase
    end.
End claims.
