(* ===== verification/Leases.v ===== *)
(** * Leases

    [voom-store/src/repo/execution/leases.rs]: the lifecycle of a worker's
    hold on a ticket. Acquisition runs under a savepoint; release, failure,
    expiry and force-release move the lease and its ticket together. *)

From S2P Require Import Prelude Json Vocab Operations Store Jobs Tickets Workers.
From Stdlib Require Import ZArith Lia Bool String.
From stdpp Require Import base gmap strings list sorting.

Open Scope Z_scope.

(** ** Records *)

(** [ttl] is a duration, [now] an instant. *)
Record NewLease := { nl_ticket_id : Z; nl_worker_id : Z; nl_ttl : Z; nl_now : Z }.

Record Lease := {
  lease_id : Z; lease_ticket_id : Z; lease_worker_id : Z; lease_state : LeaseState;
  lease_acquired_at : Z; lease_expires_at : Z; lease_last_heartbeat_at : Z;
  lease_ttl_seconds : Z; lease_release_reason : option ReleaseReason;
  lease_released_at : option Z; lease_epoch : Z;
}.

Record LeaseInterval := {
  int_worker_id : Z; int_acquired_at : Z; int_released_at : option Z;
}.

Record LeaseDispatchContext := {
  ldc_worker_id : Z; ldc_worker_epoch : Z; ldc_expires_at : Z;
}.

Record WorkerCapacitySaturation := {
  wcs_worker_id : Z; wcs_operation : TicketOperation; wcs_active_leases : Z;
  wcs_max_parallel : Z;
}.

Inductive LeaseIneligibilityReason : Type :=
  | WorkerMissing | ReasonWorkerNotReady | ReasonWorkerStale | ReasonWorkerRetired
  | OperationDenied | MissingCapability | MissingGrant.

Inductive LeaseAcquireOutcome : Type :=
  | Acquired (lease : Lease)
  | CapacityFull (saturation : WorkerCapacitySaturation)
  | TicketNotReady (ticket_id : Z)
  | WorkerIneligible (worker_id : Z) (operation : TicketOperation)
      (reason : LeaseIneligibilityReason).

Definition ineligibility_error (reason : LeaseIneligibilityReason) : VoomError :=
  match reason with
  | WorkerMissing => ENotFound
  | ReasonWorkerNotReady | ReasonWorkerStale | ReasonWorkerRetired | OperationDenied
  | MissingCapability | MissingGrant => EConflict
  end.

(** [LeaseAcquireOutcome::into_lease_result], with
    [WorkerCapacitySaturation::into_error]. *)
Definition into_lease_result (o : LeaseAcquireOutcome) : Res Lease :=
  match o with
  | Acquired lease => Ok lease
  | CapacityFull _ => Err ENoEligibleWorker
  | TicketNotReady _ => Err EConflict
  | WorkerIneligible _ _ reason => Err (ineligibility_error reason)
  end.

Definition is_acquired (o : LeaseAcquireOutcome) : bool :=
  match o with Acquired _ => true | _ => false end.

Record ForceReleaseOutcome := {
  fro_lease : Lease; fro_ticket_requeued : bool; fro_attempt : Z; fro_max_attempts : Z;
}.

Record FailedExpiry := {
  fe_lease_id : Z; fe_ticket_id : Z; fe_attempt : Z; fe_max_attempts : Z;
}.

Record ExpireReport := {
  expired_leases : list Z; requeued_tickets : list Z; failed_expiries : list FailedExpiry;
  pairs : list (Z * Z);
}.

Definition empty_report : ExpireReport := {|
  expired_leases := []; requeued_tickets := []; failed_expiries := []; pairs := [] |}.

Definition LEASE_BATCH_LIMIT : Z := 1000.
Definition TICKET_ATTEMPT_CHUNK : nat := 500.

(** The classification of an ineligible worker. *)
Definition ineligibility_reason (e : WorkerOperationEligibility) :
    option LeaseIneligibilityReason :=
  if is_eligible e then None else
  match el_worker_kind e, el_worker_status e with
  | Some kind, Some status =>
      let by_lifecycle :=
        match kind, status with
        | WorkerKindRemote, WorkerRegistered => Some ReasonWorkerNotReady
        | (WorkerKindLocal | WorkerKindRemote | WorkerKindSynthetic), WorkerStale =>
            Some ReasonWorkerStale
        | (WorkerKindLocal | WorkerKindRemote | WorkerKindSynthetic), WorkerRetired =>
            Some ReasonWorkerRetired
        | (WorkerKindLocal | WorkerKindSynthetic), (WorkerRegistered | WorkerActive) => None
        | WorkerKindRemote, WorkerActive => None
        end in
      match by_lifecycle with
      | Some reason => Some reason
      | None =>
          if el_is_denied e then Some OperationDenied
          else if negb (el_has_capability e) then Some MissingCapability
          else if negb (el_has_grant e) then Some MissingGrant
          else None
      end
  | _, _ => Some WorkerMissing
  end.

(** ** Row updates *)

Definition held (r : LeaseRow) : bool := bool_decide (l_state r = LeaseHeld).

(** [SET state = .., release_reason = .., released_at = .., epoch = epoch + 1]. *)
Definition lease_closed (state : LeaseState) (reason : ReleaseReason) (ts : string)
    (r : LeaseRow) : LeaseRow := {|
  l_ticket_id := l_ticket_id r; l_worker_id := l_worker_id r; l_state := state;
  l_acquired_at := l_acquired_at r; l_expires_at := l_expires_at r;
  l_last_heartbeat_at := l_last_heartbeat_at r; l_ttl_seconds := l_ttl_seconds r;
  l_release_reason := Some reason; l_released_at := Some ts; l_epoch := l_epoch r + 1 |}.

(** [SET last_heartbeat_at = ?, expires_at = max(expires_at, ?), epoch = epoch + 1]. *)
Definition lease_beaten (now_str expires_str : string) (r : LeaseRow) : LeaseRow := {|
  l_ticket_id := l_ticket_id r; l_worker_id := l_worker_id r; l_state := l_state r;
  l_acquired_at := l_acquired_at r; l_expires_at := text_max (l_expires_at r) expires_str;
  l_last_heartbeat_at := now_str; l_ttl_seconds := l_ttl_seconds r;
  l_release_reason := l_release_reason r; l_released_at := l_released_at r;
  l_epoch := l_epoch r + 1 |}.

(** [UPDATE tickets SET .. WHERE id = ? AND state = 'leased'], which must
    affect one row. *)
Definition move_leased_ticket (ticket : Z) (upd : TicketRow -> TicketRow) : M unit :=
  res ← gets (fun d => update_row ticket (in_state TicketLeased) upd (tickets d));
  match res with
  | None => throw EConflict
  | Some (_, tickets') => modify (set_tickets tickets')
  end.

(** [slice::chunks(n)]. *)
Fixpoint chunks_fuel {A} (fuel n : nat) (l : list A) : list (list A) :=
  match fuel, l with
  | _, [] => []
  | O, _ => [l]
  | S fuel', _ => take n l :: chunks_fuel fuel' n (drop n l)
  end.
Definition chunks {A} (n : nat) (l : list A) : list (list A) := chunks_fuel (length l) n l.

(** [SELECT id, attempt, max_attempts FROM tickets WHERE id IN (..)]. *)
Definition ticket_attempts_in (d : Db) (ids : list Z) : list (Z * (Z * Z)) :=
  map (fun kv => (kv.1, (t_attempt kv.2, t_max_attempts kv.2)))
    (select_asc (fun id _ => existsb (Z.eqb id) ids) (tickets d)).

Definition fetch_ticket_attempts (d : Db) (ids : list Z) : gmap Z (Z * Z) :=
  foldl (fun out chunk =>
           foldl (fun out kv => <[kv.1 := kv.2]> out) out (ticket_attempts_in d chunk))
    ∅ (chunks TICKET_ATTEMPT_CHUNK ids).

(** ** Operations *)

Section leases.
Context `{Iso8601, SqliteCast}.

Definition row_to_lease (row : Z * LeaseRow) : Res Lease :=
  let r := row.2 in
  id ← u64_from_i64 row.1;
  ticket ← u64_from_i64 (l_ticket_id r);
  worker ← u64_from_i64 (l_worker_id r);
  acquired ← parse_iso8601 (l_acquired_at r);
  expires ← parse_iso8601 (l_expires_at r);
  beat ← parse_iso8601 (l_last_heartbeat_at r);
  released ← transpose (parse_iso8601 <$> l_released_at r);
  epoch ← u64_from_i64 (l_epoch r);
  Ok {| lease_id := id; lease_ticket_id := ticket; lease_worker_id := worker;
        lease_state := l_state r; lease_acquired_at := acquired; lease_expires_at := expires;
        lease_last_heartbeat_at := beat; lease_ttl_seconds := l_ttl_seconds r;
        lease_release_reason := l_release_reason r; lease_released_at := released;
        lease_epoch := epoch |}.

Definition get_lease_in_tx (id : Z) : M (option Lease) :=
  key ← lift (i64_from_u64 id);
  getsR (fun d => transpose ((fun r => row_to_lease (key, r)) <$> (leases d !! key))).

Definition Lease_get (id : Z) : M (option Lease) := get_lease_in_tx id.
Definition Lease_get_in_tx (id : Z) : M (option Lease) := get_lease_in_tx id.

(** [WHERE id = ? AND state = 'ready' AND next_eligible_at <= ? AND
    attempt < max_attempts AND (parent job open)]. *)
Definition leasable (d : Db) (now_str : string) (r : TicketRow) : bool :=
  in_state TicketReady r && text_le (t_next_eligible_at r) now_str &&
  (t_attempt r <? t_max_attempts r) && parent_job_open d r.

Definition ticket_leased (now_str : string) (r : TicketRow) : TicketRow :=
  ticket_with_attempt (t_attempt r + 1) (ticket_moved TicketLeased now_str r).

Definition new_lease_row (input : NewLease) (now_str expires_str : string) (ttl_secs : Z) :
    LeaseRow := {|
  l_ticket_id := nl_ticket_id input; l_worker_id := nl_worker_id input; l_state := LeaseHeld;
  l_acquired_at := now_str; l_expires_at := expires_str; l_last_heartbeat_at := now_str;
  l_ttl_seconds := ttl_secs; l_release_reason := None; l_released_at := None; l_epoch := 0 |}.

(** The tail of [acquire_guarded]: insert the held lease and read it back.
    The insert fails on its foreign keys and on [CHECK (ttl_seconds > 0)]. *)
Definition insert_lease (input : NewLease) (now_str : string) (ttl_secs : Z) :
    M LeaseAcquireOutcome :=
  expires_str ← lift (iso8601 (nl_now input + nl_ttl input));
  ticket ← lift (i64_from_u64 (nl_ticket_id input));
  worker ← lift (i64_from_u64 (nl_worker_id input));
  insertable ← gets (fun d =>
    bool_decide (is_Some (tickets d !! ticket)) && bool_decide (is_Some (workers d !! worker)) &&
    (0 <? ttl_secs));
  if negb insertable then throw EDatabase else
  rowid ← gets (fun d => next_rowid (leases d));
  _ ← modify (fun d => set_leases
    (<[rowid := new_lease_row input now_str expires_str ttl_secs]> (leases d)) d);
  id ← lift (u64_from_i64 rowid);
  found ← get_lease_in_tx id;
  lease ← lift (ok_or found EInternal);
  mret (Acquired lease).

Definition acquire_guarded (input : NewLease) (ttl_secs : Z) : M LeaseAcquireOutcome :=
  found ← Ticket_get_in_tx (nl_ticket_id input);
  ticket ← lift (ok_or found ENotFound);
  let normalized := TicketOperation_normalize (ticket_kind ticket) in
  if is_unknown_namespaced normalized then throw EDatabase else
  let operation := matching_token normalized in
  now_str ← lift (iso8601 (nl_now input));
  key ← lift (i64_from_u64 (nl_ticket_id input));
  res ← gets (fun d => update_row key (leasable d now_str) (ticket_leased now_str) (tickets d));
  match res with
  | None => mret (TicketNotReady (nl_ticket_id input))
  | Some (_, tickets') =>
      _ ← modify (set_tickets tickets');
      eligibility ← operation_eligibility_in_tx (nl_worker_id input) operation;
      match ineligibility_reason eligibility with
      | Some reason => mret (WorkerIneligible (nl_worker_id input) operation reason)
      | None =>
          capacity ← operation_capacity_in_tx (nl_worker_id input) operation;
          if negb (has_capacity capacity) then
            mret (CapacityFull {|
              wcs_worker_id := nl_worker_id input; wcs_operation := operation;
              wcs_active_leases := active_leases capacity;
              wcs_max_parallel := max_parallel capacity |})
          else insert_lease input now_str ttl_secs
      end
  end.

Definition try_acquire_in_tx (input : NewLease) : M LeaseAcquireOutcome :=
  let ttl_secs := whole_seconds (nl_ttl input) in
  if ttl_secs <=? 0 then throw EConfig
  else savepoint is_acquired (acquire_guarded input ttl_secs).

Definition acquire_in_tx (input : NewLease) : M Lease :=
  outcome ← try_acquire_in_tx input; lift (into_lease_result outcome).

Definition acquire (input : NewLease) : M Lease := atomically (acquire_in_tx input).

Definition heartbeat_in_tx (lease_id ttl now : Z) : M Lease :=
  now_str ← lift (iso8601 now);
  expires_str ← lift (iso8601 (now + ttl));
  key ← lift (i64_from_u64 lease_id);
  res ← gets (fun d => update_row key
    (fun r => held r && text_lt now_str (l_expires_at r))
    (lease_beaten now_str expires_str) (leases d));
  match res with
  | None =>
      found ← get_lease_in_tx lease_id;
      match found with
      | None => throw EConflict
      | Some lease =>
          if negb (bool_decide (lease_state lease = LeaseHeld)) then throw EConflict else
          if lease_expires_at lease <=? now then throw EConflict else throw EConflict
      end
  | Some (_, leases') =>
      _ ← modify (set_leases leases');
      found ← get_lease_in_tx lease_id;
      lift (ok_or found EInternal)
  end.

Definition heartbeat (lease_id ttl now : Z) : M Lease :=
  atomically (heartbeat_in_tx lease_id ttl now).

(** [UPDATE leases SET state = .. WHERE id = ? AND state = 'held' RETURNING ..]:
    the shared shape of release, [release_lease_for_failure_in_tx] and
    [force_release_lease_in_tx]. *)
Definition close_held_lease (lease_id : Z) (state : LeaseState) (reason : ReleaseReason)
    (now_str : string) : M Lease :=
  key ← lift (i64_from_u64 lease_id);
  res ← gets (fun d => update_row key held (lease_closed state reason now_str) (leases d));
  match res with
  | None => throw EConflict
  | Some (row, leases') =>
      _ ← modify (set_leases leases'); lift (row_to_lease (key, row))
  end.

Definition release_in_tx (lease_id : Z) (result : Json) (now : Z) : M Lease :=
  now_str ← lift (iso8601 now);
  lease ← close_held_lease lease_id LeaseReleased ReasonReleased now_str;
  ticket ← lift (i64_from_u64 (lease_ticket_id lease));
  _ ← move_leased_ticket ticket
        (fun r => ticket_with_result result (ticket_moved TicketSucceeded now_str r));
  mret lease.

Definition release (lease_id : Z) (result : Json) (now : Z) : M Lease :=
  atomically (release_in_tx lease_id result now).

(** [SELECT t.id, t.attempt, t.max_attempts FROM tickets t JOIN leases l ON
    l.ticket_id = t.id WHERE l.id = ? AND l.state = 'held']. *)
Definition held_probe (d : Db) (lease : Z) : option (Z * Z * Z) :=
  l ← leases d !! lease;
  if held l then
    t ← tickets d !! l_ticket_id l;
    Some (l_ticket_id l, t_attempt t, t_max_attempts t)
  else None.

Definition release_lease_for_failure_in_tx (lease_id : Z) (release_reason : ReleaseReason)
    (now_str : string) : M Lease :=
  close_held_lease lease_id LeaseReleased release_reason now_str.

Definition fail_in_tx (lease_id : Z) (class : FailureClass) (now draw : Z) : M Lease :=
  key ← lift (i64_from_u64 lease_id);
  probe ← gets (fun d => held_probe d key);
  match probe with
  | None => throw EConflict
  | Some (ticket_id_i, attempt, max_attempts) =>
      _ ← lift (u64_from_i64 ticket_id_i);
      let attempts_remain := attempt <? max_attempts in
      let retriable := FailureClass_is_retriable class in
      now_str ← lift (iso8601 now);
      let release_reason :=
        if retriable && attempts_remain then ReasonFailedRetriable else ReasonFailedTerminal in
      lease ← release_lease_for_failure_in_tx lease_id release_reason now_str;
      _ ← (if retriable && attempts_remain then
             attempt_u32 ← lift (u32_from_i64 attempt);
             next_eligible ← lift (iso8601 (now + default_backoff attempt_u32 draw));
             move_leased_ticket ticket_id_i
               (fun r => ticket_with_eligible next_eligible (ticket_moved TicketReady now_str r))
           else
             move_leased_ticket ticket_id_i (ticket_moved TicketFailed now_str));
      mret lease
  end.

Definition fail (lease_id : Z) (class : FailureClass) (now draw : Z) : M Lease :=
  atomically (fail_in_tx lease_id class now draw).

Definition force_release_lease_in_tx (lease_id : Z) (now_str : string) : M Lease :=
  close_held_lease lease_id LeaseForceReleased ReasonForceReleased now_str.

Definition force_release_in_tx (lease_id : Z) (also_requeue : bool) (now : Z) :
    M ForceReleaseOutcome :=
  key ← lift (i64_from_u64 lease_id);
  probe ← gets (fun d => held_probe d key);
  match probe with
  | None => throw EConflict
  | Some (ticket_id_i, attempt, max_attempts) =>
      _ ← lift (u64_from_i64 ticket_id_i);
      if also_requeue && (max_attempts <=? attempt) then throw EConflict else
      let ticket_requeued := also_requeue in
      now_str ← lift (iso8601 now);
      lease ← force_release_lease_in_tx lease_id now_str;
      _ ← (if ticket_requeued then
             move_leased_ticket ticket_id_i
               (fun r => ticket_with_eligible now_str (ticket_moved TicketReady now_str r))
           else
             move_leased_ticket ticket_id_i (ticket_moved TicketFailed now_str));
      attempt_u32 ← lift (u32_from_i64 attempt);
      max_u32 ← lift (u32_from_i64 max_attempts);
      mret {| fro_lease := lease; fro_ticket_requeued := ticket_requeued;
              fro_attempt := attempt_u32; fro_max_attempts := max_u32 |}
  end.

Definition force_release (lease_id : Z) (also_requeue : bool) (now : Z) :
    M ForceReleaseOutcome :=
  atomically (force_release_in_tx lease_id also_requeue now).

(** The scan of [expire_due_in_tx]. *)
Definition due_leases (d : Db) (now_str : string) : list (Z * Z) :=
  map (fun kv => (kv.1, l_ticket_id kv.2))
    (take (Z.to_nat LEASE_BATCH_LIMIT)
       (select_asc (fun _ l => held l && text_lt (l_expires_at l) now_str) (leases d))).

(** [UPDATE leases SET state = 'expired', .. WHERE id = ? AND state = 'held'],
    which must affect one row. *)
Definition expire_lease (lease : Z) (now_str : string) : M unit :=
  res ← gets (fun d => update_row lease held
    (lease_closed LeaseExpired ReasonIssuerLost now_str) (leases d));
  match res with
  | None => throw EConflict
  | Some (_, leases') => modify (set_leases leases')
  end.

Definition process_expired_lease (ticket_attempts : gmap Z (Z * Z)) (now_str : string)
    (report : ExpireReport) (row : Z * Z) : M ExpireReport :=
  lease_id ← lift (u64_from_i64 row.1);
  ticket_id ← lift (u64_from_i64 row.2);
  _ ← expire_lease row.1 now_str;
  attempts ← lift (ok_or (ticket_attempts !! row.2) EInternal);
  let '(attempt, max_attempts) := attempts in
  if attempt <? max_attempts then
    _ ← move_leased_ticket row.2
          (fun r => ticket_with_eligible now_str (ticket_moved TicketReady now_str r));
    mret {| expired_leases := expired_leases report ++ [lease_id];
            requeued_tickets := requeued_tickets report ++ [ticket_id];
            failed_expiries := failed_expiries report;
            pairs := pairs report ++ [(lease_id, ticket_id)] |}
  else
    _ ← move_leased_ticket row.2 (ticket_moved TicketFailed now_str);
    attempt_u32 ← lift (u32_from_i64 attempt);
    max_u32 ← lift (u32_from_i64 max_attempts);
    mret {| expired_leases := expired_leases report ++ [lease_id];
            requeued_tickets := requeued_tickets report;
            failed_expiries := failed_expiries report ++
              [{| fe_lease_id := lease_id; fe_ticket_id := ticket_id;
                  fe_attempt := attempt_u32; fe_max_attempts := max_u32 |}];
            pairs := pairs report ++ [(lease_id, ticket_id)] |}.

Definition expire_due_in_tx (now : Z) : M ExpireReport :=
  now_str ← lift (iso8601 now);
  rows ← gets (fun d => due_leases d now_str);
  ticket_attempts ← gets (fun d => fetch_ticket_attempts d (map snd rows));
  fold_tx (process_expired_lease ticket_attempts now_str) empty_report rows.

Definition expire_due (now : Z) : M ExpireReport := atomically (expire_due_in_tx now).

(** *** Reads *)

Definition get_held_for_worker_in_tx (lease_id worker_id : Z) : M Lease :=
  found ← get_lease_in_tx lease_id;
  lease ← lift (ok_or found ENotFound);
  if negb (lease_worker_id lease =? worker_id) then throw EConflict else
  if negb (bool_decide (lease_state lease = LeaseHeld)) then throw EConflict else
  mret lease.

Definition get_held_for_worker (lease_id worker_id : Z) : M Lease :=
  atomically (get_held_for_worker_in_tx lease_id worker_id).

Definition has_held_for_ticket_in_tx (ticket_id : Z) : M bool :=
  key ← lift (i64_from_u64 ticket_id);
  gets (fun d => 0 <? count_where (fun _ l => (l_ticket_id l =? key) && held l) (leases d)).

Definition active_count_for_node_in_tx (node_id : Z) : M Z :=
  node ← lift (i64_from_u64 node_id);
  count ← gets (fun d => count_where (fun _ l =>
    held l &&
    match workers d !! l_worker_id l with
    | Some w => bool_decide (w_node_id w = Some node)
    | None => false
    end) (leases d));
  lift (u32_from_i64 count).

Definition dispatch_context (lease_id : Z) : M (option LeaseDispatchContext) :=
  key ← lift (if lease_id <=? i64_max then Ok lease_id else Err EConfig);
  getsR (fun d => transpose (
    (fun lw : LeaseRow * WorkerRow =>
       worker ← u64_from_i64 (l_worker_id lw.1);
       epoch ← u64_from_i64 (w_epoch lw.2);
       expires ← parse_iso8601 (l_expires_at lw.1);
       Ok {| ldc_worker_id := worker; ldc_worker_epoch := epoch; ldc_expires_at := expires |}) <$>
    (l ← leases d !! key;
     if held l then w ← workers d !! l_worker_id l; Some (l, w) else None))).

(** [ORDER BY leases.acquired_at ASC, leases.worker_id ASC, leases.id ASC]. *)
Definition timeline_order (x y : Z * LeaseRow) : Prop :=
  text_lt (l_acquired_at x.2) (l_acquired_at y.2) = true \/
  (l_acquired_at x.2 = l_acquired_at y.2 /\
   (l_worker_id x.2 < l_worker_id y.2 \/
    (l_worker_id x.2 = l_worker_id y.2 /\ x.1 <= y.1))).
#[global] Instance timeline_order_dec : RelDecision timeline_order.
Proof. intros x y. unfold timeline_order. apply _. Defined.

Definition timeline_for_job (job_id : Z) : M (list LeaseInterval) :=
  job ← lift (i64_from_u64 job_id);
  getsR (fun d => collect (fun kv : Z * LeaseRow =>
    worker ← u64_from_i64 (l_worker_id kv.2);
    acquired ← parse_iso8601 (l_acquired_at kv.2);
    released ← transpose (parse_iso8601 <$> l_released_at kv.2);
    Ok {| int_worker_id := worker; int_acquired_at := acquired; int_released_at := released |})
    (merge_sort timeline_order (List.filter (fun kv : Z * LeaseRow =>
       match tickets d !! l_ticket_id kv.2 with
       | Some t => for_job job t
       | None => false
       end) (map_to_list (leases d))))).

Definition Lease_list (state : option LeaseState) (after_id : option Z) (limit : Z) :
    M (list Lease) :=
  after ← lift (transpose (i64_from_u64 <$> after_id));
  getsR (fun d => collect row_to_lease
    (keyset_page (fun l => match state with
                           | None => true
                           | Some s => bool_decide (l_state l = s)
                           end) after limit (leases d))).
End leases.
