(* ===== verification/Lifecycle.v ===== *)
(** * The lease lifecycle

    What the lease operations of [Leases] do to the database as a whole, the
    invariant that ties tickets, leases and dependencies together, and the
    theorems on acquisition, heartbeats, settlement and expiry. The schema
    has no uniqueness constraint on held leases: that a ticket has one holder
    rests on the statements' guards, which is what the invariant shows. *)

From S2P Require Import Prelude Json Vocab Operations Store Jobs Tickets Workers Leases.
From Stdlib Require Import ZArith Lia Bool String.
From stdpp Require Import base gmap strings list sorting relations.

Open Scope Z_scope.

(** ** Readable leases *)

Section lease_rows.
Context `{Iso8601Laws}.

Definition lease_row_ok (stamp : string -> Prop) (k : Z) (r : LeaseRow) : Prop :=
  0 <= k /\ 0 <= l_ticket_id r /\ 0 <= l_worker_id r /\ stamp (l_acquired_at r) /\
  stamp (l_expires_at r) /\ stamp (l_last_heartbeat_at r) /\
  (forall s, l_released_at r = Some s -> stamp s) /\ 0 <= l_epoch r.
Definition lease_readable := lease_row_ok stamped.
Definition leases_readable (d : Db) : Prop := map_Forall lease_readable (leases d).

(** The decoded lease is the row. *)
Definition lease_matches (k : Z) (r : LeaseRow) (l : Lease) : Prop :=
  lease_id l = k /\ lease_ticket_id l = l_ticket_id r /\ lease_worker_id l = l_worker_id r /\
  lease_state l = l_state r /\ parse_text (l_acquired_at r) = Some (lease_acquired_at l) /\
  parse_text (l_expires_at r) = Some (lease_expires_at l) /\
  parse_text (l_last_heartbeat_at r) = Some (lease_last_heartbeat_at l) /\
  lease_ttl_seconds l = l_ttl_seconds r /\ lease_release_reason l = l_release_reason r /\
  (s ← l_released_at r; parse_text s) = lease_released_at l /\ lease_epoch l = l_epoch r.

Lemma transpose_parse_ok o t :
  transpose (parse_iso8601 <$> o) = Ok t ->
  (s ← o; parse_text s) = t /\ (forall s, o = Some s -> parses s).
Proof.
  destruct o as [s|]; cbn; [|by intros [= <-]].
  unfold parse_iso8601, parses. destruct (parse_text s) eqn:E; cbn; [|discriminate].
  intros [= <-]. split; [done|]. intros ? [= <-]. eauto.
Qed.

Lemma row_to_lease_ok k r l :
  row_to_lease (k, r) = Ok l -> lease_row_ok parses k r /\ lease_matches k r l.
Proof.
  intros Hl. unfold row_to_lease in Hl. store_inv. cbn in *.
  match goal with HT : transpose _ = Ok _ |- _ => apply transpose_parse_ok in HT as [? ?] end.
  unfold lease_row_ok, lease_matches, parses. cbn. split; repeat split; eauto.
Qed.

Lemma row_to_lease_total k r :
  lease_readable k r -> exists l, row_to_lease (k, r) = Ok l /\ lease_matches k r l.
Proof.
  intros (Hk & Ht & Hw & [ta Ha%parse_iso8601_format] & [te He%parse_iso8601_format] &
          [tb Hb%parse_iso8601_format] & Hr & Hep).
  assert (exists o, transpose (parse_iso8601 <$> l_released_at r) = Ok o) as [o Ho].
  { destruct (l_released_at r) as [s|]; cbn; [|eauto].
    destruct (Hr s eq_refl) as [t ->%parse_iso8601_format]. eauto. }
  assert (exists l, row_to_lease (k, r) = Ok l) as [l Hl]; [|by exists l; destruct (row_to_lease_ok _ _ _ Hl)].
  unfold row_to_lease. cbn [fst snd].
  rewrite (proj2 (u64_from_i64_ok k k) (conj eq_refl Hk)). cbn.
  rewrite (proj2 (u64_from_i64_ok _ (l_ticket_id r)) (conj eq_refl Ht)). cbn.
  rewrite (proj2 (u64_from_i64_ok _ (l_worker_id r)) (conj eq_refl Hw)). cbn.
  rewrite Ha. cbn. rewrite He. cbn. rewrite Hb. cbn. rewrite Ho. cbn.
  rewrite (proj2 (u64_from_i64_ok _ (l_epoch r)) (conj eq_refl Hep)). cbn. eauto.
Qed.

Lemma lease_closed_readable k r st reason ts :
  stamped ts -> lease_readable k r -> lease_readable k (lease_closed st reason ts r).
Proof.
  intros Hs (? & ? & ? & ? & ? & ? & ? & ?). unfold lease_readable, lease_row_ok. cbn.
  split_and!; try done; try (intros; lia). by intros ? [= <-].
Qed.

Lemma text_max_stamped s t : stamped s -> stamped t -> stamped (text_max s t).
Proof. unfold text_max. by destruct (text_lt s t). Qed.

Lemma lease_beaten_readable k r now_s exp_s :
  stamped now_s -> stamped exp_s -> lease_readable k r ->
  lease_readable k (lease_beaten now_s exp_s r).
Proof.
  intros Hn He (? & ? & ? & ? & ? & ? & ? & ?). unfold lease_readable, lease_row_ok. cbn.
  split_and!; try done; try (intros; lia). by apply text_max_stamped.
Qed.
End lease_rows.

(** ** What the operations do *)

(** The lease [lid], whose row is [l], is closed and its ticket becomes [t']. *)
Definition settled (d : Db) (lid : Z) (l : LeaseRow) (st : LeaseState) (reason : ReleaseReason)
    (ts : string) (t' : TicketRow) : Db :=
  set_tickets (<[l_ticket_id l := t']> (tickets d))
    (set_leases (<[lid := lease_closed st reason ts l]> (leases d)) d).

(** A held lease and its leased ticket. *)
Definition holding (d : Db) (lid : Z) (l : LeaseRow) (t : TicketRow) : Prop :=
  leases d !! lid = Some l /\ held l = true /\
  tickets d !! l_ticket_id l = Some t /\ t_state t = TicketLeased.

(** Requeue at an instant, and terminal failure. *)
Definition requeued (ts eligible : string) (t : TicketRow) : TicketRow :=
  ticket_with_eligible eligible (ticket_moved TicketReady ts t).
Definition failed (ts : string) (t : TicketRow) : TicketRow := ticket_moved TicketFailed ts t.

Section effects.
Context `{Iso8601Laws, SqliteCast}.

Lemma held_spec l : held l = true <-> l_state l = LeaseHeld.
Proof. apply bool_decide_eq_true. Qed.

Lemma move_leased_ticket_ok tid upd d d' :
  move_leased_ticket tid upd d = (Ok tt, d') ->
  exists t, tickets d !! tid = Some t /\ t_state t = TicketLeased /\
    d' = set_tickets (<[tid := upd t]> (tickets d)) d.
Proof.
  unfold move_leased_ticket. intros Hm. tx_inv.
  destruct (update_row _ _ _ _) as [[r m]|] eqn:Hu; [|discriminate]. tx_inv.
  apply update_row_some in Hu as (t & Ht & Hs%bool_decide_eq_true & -> & ->). eauto.
Qed.

Lemma close_held_lease_ok lid st reason ts d lease d' :
  close_held_lease lid st reason ts d = (Ok lease, d') ->
  exists l, leases d !! lid = Some l /\ held l = true /\ lid <= i64_max /\
    row_to_lease (lid, lease_closed st reason ts l) = Ok lease /\
    d' = set_leases (<[lid := lease_closed st reason ts l]> (leases d)) d.
Proof.
  unfold close_held_lease. intros Hc. store_inv.
  destruct (update_row _ _ _ _) as [[r m]|] eqn:Hu; [|discriminate]. store_inv.
  apply update_row_some in Hu as (l & Hl & Hh & -> & ->). eauto 8.
Qed.

Lemma held_probe_some d lid tid a m :
  held_probe d lid = Some (tid, a, m) <->
  exists l t, leases d !! lid = Some l /\ held l = true /\ tickets d !! l_ticket_id l = Some t /\
    tid = l_ticket_id l /\ a = t_attempt t /\ m = t_max_attempts t.
Proof.
  unfold held_probe. destruct (leases d !! lid) as [l|]; cbn.
  - destruct (held l) eqn:Hh; cbn.
    + destruct (tickets d !! l_ticket_id l) as [t|] eqn:Ht; cbn.
      * split; [intros [= <- <- <-]; eauto 10|].
        intros (l' & t' & [= <-] & _ & Ht' & -> & -> & ->). by simplify_eq.
      * split; [discriminate|]. intros (l' & t' & [= <-] & _ & Ht' & _). congruence.
    + split; [discriminate|]. intros (l' & t' & [= <-] & Hh' & _). congruence.
  - split; [discriminate|]. intros (l' & t' & [=] & _).
Qed.

(** Release: the lease is released and the ticket succeeds with the result. *)
Lemma release_in_tx_ok lid result now d lease d' :
  release_in_tx lid result now d = (Ok lease, d') ->
  exists l t ts,
    holding d lid l t /\ format_text now = Some ts /\
    lease_matches lid (lease_closed LeaseReleased ReasonReleased ts l) lease /\
    d' = settled d lid l LeaseReleased ReasonReleased ts
           (ticket_with_result result (ticket_moved TicketSucceeded ts t)).
Proof.
  unfold release_in_tx. intros Hr. store_inv.
  match goal with HC : close_held_lease _ _ _ _ _ = _ |- _ =>
    apply close_held_lease_ok in HC as (l & Hl & Hh & _ & Hrow & ->) end.
  apply row_to_lease_ok in Hrow as [_ Hm].
  match goal with HC : move_leased_ticket _ _ _ = _ |- _ =>
    apply move_leased_ticket_ok in HC as (t & Ht & Hs & ->) end.
  pose proof Hm as (_ & Htid & _). cbn in Htid, Ht. rewrite Htid in *.
  exists l, t, x. unfold holding, settled. cbn. auto 8.
Qed.

(** Reads off the two halves of a settlement. *)
Ltac settle_inv :=
  repeat match goal with
  | HC : close_held_lease _ _ _ _ _ = (Ok _, _) |- _ =>
      apply close_held_lease_ok in HC as (? & ? & ? & ? & ? & ?); subst
  | HC : move_leased_ticket _ _ _ = (Ok _, _) |- _ =>
      apply move_leased_ticket_ok in HC as (? & ? & ? & ?); subst
  | HC : held_probe _ _ = Some _ |- _ =>
      apply held_probe_some in HC as (? & ? & ? & ? & ? & ? & ? & ?); subst
  | HC : row_to_lease _ = Ok _ |- _ => apply row_to_lease_ok in HC as [_ HC]
  end; cbn in *; simplify_eq.

Definition retries (class : FailureClass) (t : TicketRow) : bool :=
  FailureClass_is_retriable class && (t_attempt t <? t_max_attempts t).

(** Failure: the lease is released, and the ticket is requeued after its
    backoff when the class is retriable and attempts remain, and fails
    otherwise. *)
Lemma fail_in_tx_ok lid class now draw d lease d' :
  fail_in_tx lid class now draw d = (Ok lease, d') ->
  exists l t ts t' reason,
    holding d lid l t /\ format_text now = Some ts /\
    lease_matches lid (lease_closed LeaseReleased reason ts l) lease /\
    d' = settled d lid l LeaseReleased reason ts t' /\
    (if retries class t
     then reason = ReasonFailedRetriable /\ is_u32 (t_attempt t) = true /\
          exists es, format_text (now + default_backoff (t_attempt t) draw) = Some es /\
            t' = requeued ts es t
     else reason = ReasonFailedTerminal /\ t' = failed ts t).
Proof.
  unfold fail_in_tx, release_lease_for_failure_in_tx. intros Hf. store_inv.
  destruct (held_probe d lid) as [[[tid a] m]|] eqn:Hp; [|discriminate]. store_inv.
  apply held_probe_some in Hp as (l & t & Hl & Hh & Ht & -> & -> & ->).
  unfold retries. destruct (FailureClass_is_retriable class && _) eqn:Hre; store_inv; settle_inv;
    do 5 eexists; (split; [split_and!; eassumption|]); (split; [eassumption|]);
    (split; [eassumption|]); (split; [reflexivity|]); rewrite Hre; eauto 6.
Qed.

Lemma force_release_ok lid also now d out d' :
  force_release_in_tx lid also now d = (Ok out, d') ->
  exists l t ts,
    holding d lid l t /\ format_text now = Some ts /\
    lease_matches lid (lease_closed LeaseForceReleased ReasonForceReleased ts l) (fro_lease out) /\
    fro_ticket_requeued out = also /\ fro_attempt out = t_attempt t /\
    fro_max_attempts out = t_max_attempts t /\
    (also = true -> t_attempt t < t_max_attempts t) /\
    d' = settled d lid l LeaseForceReleased ReasonForceReleased ts
           (if also then requeued ts ts t else failed ts t).
Proof.
  unfold force_release_in_tx, force_release_lease_in_tx. intros Hf. store_inv.
  destruct (held_probe d lid) as [[[tid a] m]|] eqn:Hp; [|discriminate]. store_inv.
  apply held_probe_some in Hp as (l & t & Hl & Hh & Ht & -> & -> & ->).
  destruct (also && _) eqn:Hb; [discriminate|].
  assert (also = true -> t_attempt t < t_max_attempts t) as Hlt.
  { intros ->. cbn in Hb. by apply Z.leb_gt. }
  destruct also; store_inv; settle_inv; do 3 eexists;
    (split; [split_and!; eassumption|]); (split; [eassumption|]); (split; [eassumption|]);
    split_and!; done.
Qed.

Lemma expire_lease_ok lid ts d d' :
  expire_lease lid ts d = (Ok tt, d') ->
  exists l, leases d !! lid = Some l /\ held l = true /\
    d' = set_leases (<[lid := lease_closed LeaseExpired ReasonIssuerLost ts l]> (leases d)) d.
Proof.
  unfold expire_lease. intros Hm. tx_inv.
  destruct (update_row _ _ _ _) as [[r m]|] eqn:Hu; [|discriminate]. tx_inv.
  apply update_row_some in Hu as (l & Hl & Hh & -> & ->). eauto.
Qed.

(** One row of the expiry loop. *)
Lemma process_expired_ok attempts ts rep lid tid d rep' d' :
  process_expired_lease attempts ts rep (lid, tid) d = (Ok rep', d') ->
  exists l t a m,
    leases d !! lid = Some l /\ held l = true /\ tickets d !! tid = Some t /\
    t_state t = TicketLeased /\ attempts !! tid = Some (a, m) /\
    d' = set_tickets (<[tid := if a <? m then requeued ts ts t else failed ts t]> (tickets d))
           (set_leases (<[lid := lease_closed LeaseExpired ReasonIssuerLost ts l]> (leases d)) d) /\
    expired_leases rep' = expired_leases rep ++ [lid] /\
    pairs rep' = pairs rep ++ [(lid, tid)] /\
    requeued_tickets rep' = requeued_tickets rep ++ (if a <? m then [tid] else []) /\
    failed_expiries rep' = failed_expiries rep ++
      (if a <? m then [] else
       [{| fe_lease_id := lid; fe_ticket_id := tid; fe_attempt := a; fe_max_attempts := m |}]).
Proof.
  unfold process_expired_lease. intros Hp. store_inv. cbn in *.
  match goal with HC : expire_lease _ _ _ = _ |- _ =>
    apply expire_lease_ok in HC as (l & Hl & Hh & ->) end.
  match goal with HC : attempts !! _ = Some ?p |- _ => destruct p as [a m] end.
  destruct (a <? m) eqn:Hlt; store_inv; settle_inv; do 4 eexists; rewrite Hlt;
    split_and!; try eassumption; try reflexivity; by rewrite app_nil_r.
Qed.

(** *** Acquisition *)

Lemma reads_worker_get w : tx_reads (Worker_get_in_tx w).
Proof. unfold Worker_get_in_tx. auto with voom. Qed.
Hint Resolve reads_worker_get : voom.

Lemma reads_eligibility w op : tx_reads (operation_eligibility_in_tx w op).
Proof. unfold operation_eligibility_in_tx. auto 10 with voom. Qed.

Lemma reads_accelerator w : tx_reads (accelerator_operation_capacity w).
Proof.
  unfold accelerator_operation_capacity. apply reads_bind; [auto with voom|]. intros key.
  apply reads_bind; [auto with voom|]. intros [[? c]|]; auto 10 with voom.
Qed.
Hint Resolve reads_accelerator : voom.

Lemma reads_max_parallel w op : tx_reads (max_parallel_in_tx w op).
Proof. unfold max_parallel_in_tx. auto with voom. Qed.
Hint Resolve reads_max_parallel : voom.

Lemma reads_capacity w op : tx_reads (operation_capacity_in_tx w op).
Proof. unfold operation_capacity_in_tx. auto 15 with voom. Qed.

Lemma reads_ticket_get id : tx_reads (Ticket_get_in_tx id).
Proof. unfold Ticket_get_in_tx, get_in_tx_inner. auto with voom. Qed.

(** The database between the ticket transition and the lease insert. *)
Definition provisional (d : Db) (tid : Z) (ts : string) (t : TicketRow) : Db :=
  set_tickets (<[tid := ticket_leased ts t]> (tickets d)) d.

Lemma insert_lease_ok input ts ttl d out d' :
  insert_lease input ts ttl d = (Ok out, d') ->
  exists es lease,
    format_text (nl_now input + nl_ttl input) = Some es /\ out = Acquired lease /\
    is_Some (workers d !! nl_worker_id input) /\ 0 < ttl /\
    nl_ticket_id input <= i64_max /\ nl_worker_id input <= i64_max /\
    row_to_lease (next_rowid (leases d), new_lease_row input ts es ttl) = Ok lease /\
    d' = set_leases (<[next_rowid (leases d) := new_lease_row input ts es ttl]> (leases d)) d.
Proof.
  unfold insert_lease, get_lease_in_tx. intros Hi. store_inv.
  destruct (negb _) eqn:Hn; [discriminate|].
  apply negb_false_iff, andb_true_iff in Hn as [[_ Hw%bool_decide_eq_true]%andb_true_iff Hp].
  apply Z.ltb_lt in Hp. store_inv. cbn in *. rewrite lookup_insert_eq in *. cbn in *.
  destruct (row_to_lease _) as [lease|] eqn:Hrow; [|discriminate]. simplify_eq.
  eauto 12.
Qed.

(** A successful acquisition: the ticket was leasable, the worker eligible
    and below its limit, and the two rows are written together. *)
Lemma try_acquire_ok input d out d' :
  try_acquire_in_tx input d = (Ok out, d') ->
  match out with
  | Acquired lease =>
      exists t ts es el cap,
        0 < whole_seconds (nl_ttl input) /\
        tickets d !! nl_ticket_id input = Some t /\
        is_unknown_namespaced (TicketOperation_normalize (t_kind t)) = false /\
        format_text (nl_now input) = Some ts /\
        format_text (nl_now input + nl_ttl input) = Some es /\
        leasable d ts t = true /\
        is_Some (workers d !! nl_worker_id input) /\ nl_worker_id input <= i64_max /\
        let op := matching_token (TicketOperation_normalize (t_kind t)) in
        let d1 := provisional d (nl_ticket_id input) ts t in
        let row := new_lease_row input ts es (whole_seconds (nl_ttl input)) in
        operation_eligibility_in_tx (nl_worker_id input) op d1 = (Ok el, d1) /\
        ineligibility_reason el = None /\
        operation_capacity_in_tx (nl_worker_id input) op d1 = (Ok cap, d1) /\
        has_capacity cap = true /\
        row_to_lease (next_rowid (leases d), row) = Ok lease /\
        d' = set_leases (<[next_rowid (leases d) := row]> (leases d)) d1
  | _ => d' = d
  end.
Proof.
  unfold try_acquire_in_tx. destruct (Z.leb_spec (whole_seconds (nl_ttl input)) 0) as [|Httl];
    [discriminate|].
  intros (d2 & Ha & ->)%savepoint_ok. destruct out as [lease| | |]; cbn [is_acquired]; try done.
  unfold acquire_guarded in Ha. store_inv.
  match goal with HT : Ticket_get_in_tx _ _ = (Ok (Some ?x), _) |- _ =>
    unfold Ticket_get_in_tx in HT; rename x into tk;
    apply get_in_tx_inner_ok in HT as (-> & _ & t & Ht & Hm%row_to_ticket_matches) end.
  pose proof Hm as (_ & _ & Hk & _). rewrite Hk in *.
  destruct (is_unknown_namespaced _) eqn:Hu; [discriminate|]. store_inv.
  destruct (update_row _ _ _ _) as [[r m]|] eqn:Hup; store_inv; [|discriminate].
  apply update_row_some in Hup as (t0 & Ht0 & Hleas & -> & ->). simplify_eq.
  match goal with HE : operation_eligibility_in_tx _ _ _ = _ |- _ =>
    pose proof (reads_eligibility _ _ _ _ _ HE); subst end.
  match goal with HE : operation_eligibility_in_tx _ _ _ = (Ok ?e, _) |- _ =>
    rename e into el; destruct (ineligibility_reason el) eqn:Hin; store_inv; [discriminate|] end.
  match goal with HE : operation_capacity_in_tx _ _ _ = (Ok ?c, _) |- _ =>
    pose proof (reads_capacity _ _ _ _ _ HE); subst; rename c into cap end.
  destruct (negb (has_capacity cap)) eqn:Hcap; store_inv; [discriminate|].
  apply negb_false_iff in Hcap.
  match goal with HI : insert_lease _ _ _ _ = _ |- _ =>
    apply insert_lease_ok in HI as (es & l & Hes & [= ->] & Hw & _ & _ & Hwm & Hrow & ->) end.
  do 5 eexists. cbn. cbn in Hrow, Hw. split_and!; eauto.
Qed.
End effects.

(** ** The invariant *)

Section invariant.
Context `{Iso8601Laws, SqliteCast}.

(** A ticket row by itself: its attempt counter fits its budget, a pending
    ticket was never tried, a ready one still can be, and only a succeeded
    one carries a result. *)
Definition ticket_sound (t : TicketRow) : Prop :=
  0 <= t_attempt t <= t_max_attempts t /\ 1 <= t_max_attempts t /\
  (t_state t = TicketPending -> t_attempt t = 0) /\
  (t_state t = TicketReady -> t_attempt t < t_max_attempts t) /\
  (t_state t = TicketLeased -> 1 <= t_attempt t) /\
  (is_Some (t_result t) <-> t_state t = TicketSucceeded).

(** The [CHECK] of the [leases] table, and a positive time to live. *)
Definition lease_sound (l : LeaseRow) : Prop :=
  0 < l_ttl_seconds l /\
  (if held l then l_release_reason l = None /\ l_released_at l = None
   else is_Some (l_release_reason l) /\ is_Some (l_released_at l)).

Record lifecycle (d : Db) : Prop := {
  lc_tickets : tickets_readable d;
  lc_leases : leases_readable d;
  lc_ticket_sound : map_Forall (fun _ => ticket_sound) (tickets d);
  lc_lease_sound : map_Forall (fun _ => lease_sound) (leases d);
  lc_lease_refs : map_Forall (fun _ l =>
    is_Some (tickets d !! l_ticket_id l) /\ is_Some (workers d !! l_worker_id l)) (leases d);
  lc_held_leased : forall lid l t,
    leases d !! lid = Some l -> held l = true -> tickets d !! l_ticket_id l = Some t ->
    t_state t = TicketLeased;
  lc_leased_held : forall tid t,
    tickets d !! tid = Some t -> t_state t = TicketLeased ->
    exists lid l, leases d !! lid = Some l /\ held l = true /\ l_ticket_id l = tid;
  lc_one_holder : forall i l i' l',
    leases d !! i = Some l -> held l = true -> leases d !! i' = Some l' -> held l' = true ->
    l_ticket_id l = l_ticket_id l' -> i = i';
  lc_gate : forall tid t,
    tickets d !! tid = Some t -> t_state t <> TicketPending -> deps_succeeded d tid;
  lc_edges : forall x y, edge (ticket_dependencies d) x y ->
    is_Some (tickets d !! x) /\ is_Some (tickets d !! y);
  lc_acyclic : acyclic (ticket_dependencies d);
  lc_jobs : forall tid t j,
    tickets d !! tid = Some t -> t_job_id t = Some j -> is_Some (jobs d !! j);
}.

Lemma lifecycle_empty : lifecycle empty_db.
Proof.
  assert (forall x y, ~ edge ∅ x y) as He by (intros x y; unfold edge; set_solver).
  split; cbn; try (apply map_Forall_empty); try (intros; simplify_map_eq; done).
  - intros x Hx. inversion Hx as [? ? Hy|? ? ? Hy]; by apply He in Hy.
Qed.

(** Operations on other tables: only the referenced rows must survive. *)
Lemma lifecycle_frame d d' :
  tickets d' = tickets d -> leases d' = leases d ->
  ticket_dependencies d' = ticket_dependencies d ->
  (forall k, is_Some (workers d !! k) -> is_Some (workers d' !! k)) ->
  (forall k, is_Some (jobs d !! k) -> is_Some (jobs d' !! k)) ->
  lifecycle d -> lifecycle d'.
Proof.
  intros Et El Ed Hw Hj [L1 L2 L3 L4 L5 L6 L7 L8 L9 L10 L11 L12].
  split; unfold tickets_readable, leases_readable, deps_succeeded in *; rewrite ?Et, ?El, ?Ed;
    try done.
  - intros lid l Hl. destruct (L5 lid l Hl). auto.
  - intros tid t j Ht Hjt. eauto.
Qed.

(** The gate survives a change of one ticket that leaves succeeded tickets
    succeeded. *)
Lemma deps_succeeded_insert d d' tid t t' x :
  ticket_dependencies d' = ticket_dependencies d ->
  tickets d' = <[tid := t']> (tickets d) -> tickets d !! tid = Some t ->
  (t_state t = TicketSucceeded -> t_state t' = TicketSucceeded) ->
  deps_succeeded d x -> deps_succeeded d' x.
Proof.
  intros Ed Et Ht Hs Hx p tp He Hp. rewrite Ed in He. rewrite Et in Hp.
  destruct (decide (p = tid)) as [->|Hne].
  - rewrite lookup_insert_eq in Hp. simplify_eq. eauto.
  - rewrite lookup_insert_ne in Hp by done. eauto.
Qed.

Lemma is_Some_insert {A} (m : gmap Z A) i x k : is_Some (m !! k) -> is_Some (<[i := x]> m !! k).
Proof. intros Hk. destruct (decide (i = k)) as [->|]; by simplify_map_eq. Qed.

(** The part of the invariant that does not mention leases. *)
Record tickets_sound (d : Db) : Prop := {
  ts_readable : tickets_readable d;
  ts_sound : map_Forall (fun _ => ticket_sound) (tickets d);
  ts_gate : forall tid t,
    tickets d !! tid = Some t -> t_state t <> TicketPending -> deps_succeeded d tid;
  ts_edges : forall x y, edge (ticket_dependencies d) x y ->
    is_Some (tickets d !! x) /\ is_Some (tickets d !! y);
  ts_acyclic : acyclic (ticket_dependencies d);
  ts_jobs : forall tid t j,
    tickets d !! tid = Some t -> t_job_id t = Some j -> is_Some (jobs d !! j);
}.

(** A new row for an existing ticket. *)
Lemma tickets_sound_update d d' tid t t' :
  lifecycle d -> tickets d !! tid = Some t ->
  tickets d' = <[tid := t']> (tickets d) -> ticket_dependencies d' = ticket_dependencies d ->
  jobs d' = jobs d -> ticket_readable tid t' -> ticket_sound t' -> t_job_id t' = t_job_id t ->
  (t_state t = TicketSucceeded -> t_state t' = TicketSucceeded) ->
  (t_state t' <> TicketPending -> deps_succeeded d tid) -> tickets_sound d'.
Proof.
  intros L Ht Et Ed Ej Hrd Hsnd Hjob Hsucc Hgate.
  split; unfold tickets_readable; rewrite ?Et, ?Ed, ?Ej.
  - apply map_Forall_insert_2; [done|]. apply (lc_tickets d L).
  - apply map_Forall_insert_2; [done|]. apply (lc_ticket_sound d L).
  - intros x tx Hx Hnp. apply (deps_succeeded_insert d _ tid t t' x); try done.
    destruct (decide (x = tid)) as [->|Hne].
    + rewrite lookup_insert_eq in Hx. simplify_eq. auto.
    + rewrite lookup_insert_ne in Hx by done. by eapply (lc_gate d L).
  - intros x y He. destruct (lc_edges d L x y He). split; by apply is_Some_insert.
  - apply (lc_acyclic d L).
  - intros x tx j Hx Hj. destruct (decide (x = tid)) as [->|Hne].
    + rewrite lookup_insert_eq in Hx. simplify_eq. rewrite Hjob in Hj. by eapply (lc_jobs d L).
    + rewrite lookup_insert_ne in Hx by done. by eapply (lc_jobs d L).
Qed.

(** Closing a held lease together with its ticket. *)
Lemma lifecycle_settled d lid l t st reason ts t' :
  lifecycle d -> holding d lid l t -> st <> LeaseHeld -> stamped ts ->
  ticket_readable (l_ticket_id l) t' -> ticket_sound t' ->
  t_state t' <> TicketLeased -> t_state t' <> TicketPending -> t_job_id t' = t_job_id t ->
  lifecycle (settled d lid l st reason ts t').
Proof.
  intros L (Hl & Hh & Ht & Hs) Hst Hts Hrd Hsnd Hnl Hnp Hjob.
  assert (held (lease_closed st reason ts l) = false) as Hnh by (by apply bool_decide_eq_false).
  assert (forall i l', <[lid := lease_closed st reason ts l]> (leases d) !! i = Some l' ->
            held l' = true -> i <> lid /\ leases d !! i = Some l') as Hheld.
  { intros i l' Hi Hh'. destruct (decide (i = lid)) as [->|Hne].
    - rewrite lookup_insert_eq in Hi. simplify_eq. congruence.
    - by rewrite lookup_insert_ne in Hi by done. }
  destruct (tickets_sound_update d (settled d lid l st reason ts t') (l_ticket_id l) t t');
    try done; [congruence|intros _; apply (lc_gate d L _ t Ht); congruence|].
  split; cbn; try done.
  - apply map_Forall_insert_2; [|apply (lc_leases d L)].
    apply lease_closed_readable; [done|]. exact (lc_leases d L _ _ Hl).
  - apply map_Forall_insert_2; [|apply (lc_lease_sound d L)].
    unfold lease_sound. rewrite Hnh. cbn. destruct (lc_lease_sound d L _ _ Hl). eauto.
  - apply map_Forall_insert_2.
    + cbn. destruct (lc_lease_refs d L _ _ Hl). split; [by apply is_Some_insert|done].
    + intros i li Hi. destruct (lc_lease_refs d L _ _ Hi). split; [by apply is_Some_insert|done].
  - intros i li ti Hi Hhi Hti. apply Hheld in Hi as [Hne Hi]; [|done].
    rewrite lookup_insert_ne in Hti by (intros E; apply Hne; by eapply (lc_one_holder d L)).
    by eapply (lc_held_leased d L).
  - intros tid tt Htt Hst'. destruct (decide (tid = l_ticket_id l)) as [->|Hne].
    { rewrite lookup_insert_eq in Htt. by simplify_eq. }
    rewrite lookup_insert_ne in Htt by done.
    destruct (lc_leased_held d L tid tt Htt Hst') as (i & li & Hi & Hhi & Hti).
    exists i, li. split; [|done]. rewrite lookup_insert_ne; [done|]. intros ->. congruence.
  - intros i li i' li' Hi Hhi Hi' Hhi' E.
    apply Hheld in Hi as [_ Hi]; [|done]. apply Hheld in Hi' as [_ Hi']; [|done].
    by eapply (lc_one_holder d L).
Qed.

(** An unleased ticket is in nobody's hands. *)
Lemma unleased_free d tid t i l :
  lifecycle d -> tickets d !! tid = Some t -> t_state t <> TicketLeased ->
  leases d !! i = Some l -> held l = true -> l_ticket_id l <> tid.
Proof. intros L Ht Hnl Hi Hh <-. by apply Hnl, (lc_held_leased d L i l). Qed.

(** One unleased ticket changes and stays unleased. *)
Lemma lifecycle_ticket_update d tid t t' :
  lifecycle d -> tickets d !! tid = Some t ->
  t_state t <> TicketLeased -> t_state t' <> TicketLeased ->
  ticket_readable tid t' -> ticket_sound t' -> t_job_id t' = t_job_id t ->
  (t_state t = TicketSucceeded -> t_state t' = TicketSucceeded) ->
  (t_state t' <> TicketPending -> deps_succeeded d tid) ->
  lifecycle (set_tickets (<[tid := t']> (tickets d)) d).
Proof.
  intros L Ht Hnl Hnl' Hrd Hsnd Hjob Hsucc Hgate.
  destruct (tickets_sound_update d (set_tickets (<[tid := t']> (tickets d)) d) tid t t');
    try done.
  split; cbn; try done.
  - apply (lc_leases d L).
  - apply (lc_lease_sound d L).
  - intros i l Hi. destruct (lc_lease_refs d L i l Hi). split; [by apply is_Some_insert|done].
  - intros i l ti Hi Hh Hti.
    rewrite lookup_insert_ne in Hti by (symmetry; by eapply unleased_free).
    by eapply (lc_held_leased d L).
  - intros x tx Hx Hs. destruct (decide (x = tid)) as [->|Hne].
    { rewrite lookup_insert_eq in Hx. by simplify_eq. }
    rewrite lookup_insert_ne in Hx by done. by eapply (lc_leased_held d L).
  - apply (lc_one_holder d L).
Qed.

(** *** Ticket operations *)

Lemma create_lifecycle input : preserves lifecycle (Ticket_create_in_tx input).
Proof.
  intros d tk d' L (ts & Hf & Hjob & Hmax & Hrow & ->)%Ticket_create_ok.
  apply row_to_ticket_ok in Hrow as [(Hk & Hj & Hv & Ha & Hm & _) _].
  set (n := next_rowid (tickets d)) in *. set (r := new_ticket_row input ts) in *.
  assert (tickets d !! n = None) as Hfresh by apply next_rowid_fresh.
  assert (forall k, is_Some (tickets d !! k) -> k <> n) as Hne by (intros k [? Hk'] ->; congruence).
  assert (ticket_readable n r) as Hrd.
  { unfold ticket_readable, ticket_row_ok. split_and!; try done; by eapply format_stamped. }
  assert (ticket_sound r) as Hsnd.
  { unfold ticket_sound. cbn. split_and!; try done; try (intros; lia). }
  split; cbn.
  - apply map_Forall_insert_2; [done|]. apply (lc_tickets d L).
  - apply (lc_leases d L).
  - apply map_Forall_insert_2; [done|]. apply (lc_ticket_sound d L).
  - apply (lc_lease_sound d L).
  - intros i l Hi. destruct (lc_lease_refs d L i l Hi). split; [by apply is_Some_insert|done].
  - intros i l ti Hi Hh Hti. destruct (lc_lease_refs d L i l Hi) as [Hr _].
    rewrite lookup_insert_ne in Hti by (apply not_eq_sym, Hne; done). by eapply (lc_held_leased d L).
  - intros x tx Hx Hs. destruct (decide (x = n)) as [->|Hxn].
    { rewrite lookup_insert_eq in Hx. by simplify_eq. }
    rewrite lookup_insert_ne in Hx by done. by eapply (lc_leased_held d L).
  - apply (lc_one_holder d L).
  - intros x tx Hx Hnp p tp He Hp. cbn in Hp. destruct (lc_edges d L x p He) as [Hxe Hpe].
    rewrite lookup_insert_ne in Hx by (apply not_eq_sym, Hne; done).
    rewrite lookup_insert_ne in Hp by (apply not_eq_sym, Hne; done).
    exact (lc_gate d L x tx Hx Hnp p tp He Hp).
  - intros x y He. destruct (lc_edges d L x y He). split; by apply is_Some_insert.
  - apply (lc_acyclic d L).
  - intros x tx j Hx Hxj. destruct (decide (x = n)) as [->|Hxn].
    + rewrite lookup_insert_eq in Hx. simplify_eq. by apply Hjob.
    + rewrite lookup_insert_ne in Hx by done. by eapply (lc_jobs d L).
Qed.

Lemma add_dependency_lifecycle t p : preserves lifecycle (add_dependency_in_tx t p).
Proof.
  intros d [] d' L (r & Hr & Hs & Hp & Hne & _ & Hc & ->)%add_dependency_ok.
  destruct L as [L1 L2 L3 L4 L5 L6 L7 L8 L9 L10 L11 L12].
  split; cbn; try done.
  - intros x tx Hx Hnp y ty He Hy. unfold edge in He. cbn in He.
    apply elem_of_union in He as [[= -> ->]%elem_of_singleton|He]; [|exact (L9 x tx Hx Hnp y ty He Hy)].
    cbn in Hx. rewrite Hr in Hx. by simplify_eq.
  - intros x y He. unfold edge in He. cbn in He.
    apply elem_of_union in He as [[= -> ->]%elem_of_singleton|He]; [|by apply L10].
    split; [by eexists|done].
  - by apply acyclic_add.
Qed.

Lemma mark_ready_lifecycle id now : preserves lifecycle (mark_ready_if_unblocked_in_tx id now).
Proof.
  intros d l d' L [(_ & -> & _)|(r & ts & t & Hr & Hs & Hd & Hf & _ & Hrow & ->)]%mark_ready_ok;
    [done|].
  pose proof (lc_ticket_sound d L _ _ Hr) as (? & ? & Hp & _ & _ & Hres).
  specialize (Hp Hs). apply (lifecycle_ticket_update d id r); cbn; try done; try congruence.
  - apply ticket_moved_readable; [by eapply format_stamped|]. exact (lc_tickets d L _ _ Hr).
  - unfold ticket_sound. cbn. split_and!; try done; try (intros; lia).
    rewrite Hs in Hres. split; [|discriminate]. intros Hx. by apply Hres in Hx.
Qed.

(** The pre-lease transition with the attempt the control plane passes. *)
Lemma transition_ready_lifecycle id prev next tr now d t d' :
  lifecycle d ->
  next = prev + 1 -> (match tr with PreLeaseRetryAt _ => next < ticket_max_attempts t
                                  | PreLeaseTerminal => True end) ->
  transition_ready_before_lease_failure_in_tx id prev next tr now d = (Ok t, d') ->
  lifecycle d'.
Proof.
  intros L -> Hbud
    (r & ns & es & st & Hr & Hs & <- & Hf & _ & Htr & -> & Hrow)%transition_ready_ok.
  apply row_to_ticket_ok in Hrow as [(_ & _ & _ & Hu & _) (_ & _ & _ & _ & _ & _ & _ & _ & Hmax & _)].
  cbn in Hu, Hmax.
  pose proof (lc_tickets d L _ _ Hr) as Hrd.
  pose proof (lc_ticket_sound d L _ _ Hr) as (? & ? & _ & Hlt & _ & Hres). specialize (Hlt Hs).
  assert (st <> TicketPending /\ st <> TicketLeased /\ st <> TicketSucceeded /\ stamped es /\
          (st = TicketReady -> t_attempt r + 1 < t_max_attempts r)) as (? & ? & ? & ? & Hready).
  { destruct tr; destruct Htr as [-> Htr]; split_and!; try done.
    - subst es. by destruct Hrd as (_ & _ & _ & _ & _ & ? & _).
    - by eapply format_stamped.
    - intros _. lia. }
  apply (lifecycle_ticket_update d id r); cbn; try done; try congruence.
  - apply ticket_with_eligible_readable; [done|].
    apply ticket_with_attempt_readable; [done|].
    apply ticket_moved_readable; [by eapply format_stamped|done].
  - unfold ticket_sound. cbn. split_and!; try done; try (intros; lia); try congruence.
    split; [|congruence]. intros Hx. apply Hres in Hx. congruence.
  - intros _. apply (lc_gate d L id r Hr). congruence.
Qed.

(** *** Lease operations *)

Lemma requeued_ok k ts es t :
  ticket_readable k t -> ticket_sound t -> t_state t = TicketLeased ->
  stamped ts -> stamped es -> t_attempt t < t_max_attempts t ->
  ticket_readable k (requeued ts es t) /\ ticket_sound (requeued ts es t).
Proof.
  intros Hrd (? & ? & _ & _ & _ & Hres) Hs Hts Hes Hlt. split.
  - by apply ticket_with_eligible_readable, ticket_moved_readable.
  - unfold ticket_sound. cbn. split_and!; try done; try (intros; lia).
    rewrite Hs in Hres. split; [|discriminate]. intros Hx. by apply Hres in Hx.
Qed.

Lemma failed_ok k ts t :
  ticket_readable k t -> ticket_sound t -> t_state t = TicketLeased -> stamped ts ->
  ticket_readable k (failed ts t) /\ ticket_sound (failed ts t).
Proof.
  intros Hrd (? & ? & _ & _ & _ & Hres) Hs Hts. split; [by apply ticket_moved_readable|].
  unfold ticket_sound. cbn. split_and!; try done; try (intros; lia).
  rewrite Hs in Hres. split; [|discriminate]. intros Hx. by apply Hres in Hx.
Qed.

Lemma succeeded_ok k ts j t :
  ticket_readable k t -> ticket_sound t -> stamped ts ->
  ticket_readable k (ticket_with_result j (ticket_moved TicketSucceeded ts t)) /\
  ticket_sound (ticket_with_result j (ticket_moved TicketSucceeded ts t)).
Proof.
  intros Hrd (? & ? & _) Hts. split; [by apply ticket_with_result_readable, ticket_moved_readable|].
  unfold ticket_sound. cbn. split_and!; try done; intros; lia.
Qed.

Lemma holding_ticket d lid l t :
  lifecycle d -> holding d lid l t ->
  ticket_readable (l_ticket_id l) t /\ ticket_sound t /\ t_state t = TicketLeased.
Proof.
  intros L (_ & _ & Ht & Hs). split_and!; [|exact (lc_ticket_sound d L _ _ Ht)|done].
  exact (lc_tickets d L _ _ Ht).
Qed.

Lemma release_lifecycle lid result now : preserves lifecycle (release_in_tx lid result now).
Proof.
  intros d lease d' L (l & t & ts & Hh & Hf & _ & ->)%release_in_tx_ok.
  destruct (holding_ticket d lid l t L Hh) as (Hrd & Hsnd & Hs).
  destruct (succeeded_ok _ ts result t Hrd Hsnd) as [? ?]; [by eapply format_stamped|].
  apply (lifecycle_settled d lid l t); cbn; try done. by eapply format_stamped.
Qed.

Lemma fail_lifecycle lid class now draw : preserves lifecycle (fail_in_tx lid class now draw).
Proof.
  intros d lease d' L (l & t & ts & t' & reason & Hh & Hf & _ & -> & Hfate)%fail_in_tx_ok.
  destruct (holding_ticket d lid l t L Hh) as (Hrd & Hsnd & Hs).
  assert (stamped ts) as Hts by (by eapply format_stamped).
  destruct (retries class t) eqn:Hre.
  - destruct Hfate as (_ & _ & es & Hes & ->). unfold retries in Hre.
    apply andb_true_iff in Hre as [_ Hlt%Z.ltb_lt].
    destruct (requeued_ok _ ts es t Hrd Hsnd Hs Hts) as [? ?]; [by eapply format_stamped|done|].
    by apply (lifecycle_settled d lid l t).
  - destruct Hfate as (_ & ->). destruct (failed_ok _ ts t Hrd Hsnd Hs Hts).
    by apply (lifecycle_settled d lid l t).
Qed.

Lemma force_release_lifecycle lid also now :
  preserves lifecycle (force_release_in_tx lid also now).
Proof.
  intros d out d' L (l & t & ts & Hh & Hf & _ & _ & _ & _ & Hlt & ->)%force_release_ok.
  destruct (holding_ticket d lid l t L Hh) as (Hrd & Hsnd & Hs).
  assert (stamped ts) as Hts by (by eapply format_stamped).
  destruct also.
  - destruct (requeued_ok _ ts ts t Hrd Hsnd Hs Hts Hts (Hlt eq_refl)).
    by apply (lifecycle_settled d lid l t).
  - destruct (failed_ok _ ts t Hrd Hsnd Hs Hts). by apply (lifecycle_settled d lid l t).
Qed.

Lemma heartbeat_ok lid ttl now d lease d' :
  heartbeat_in_tx lid ttl now d = (Ok lease, d') ->
  exists l ns es,
    leases d !! lid = Some l /\ held l = true /\ format_text now = Some ns /\
    format_text (now + ttl) = Some es /\ text_lt ns (l_expires_at l) = true /\
    row_to_lease (lid, lease_beaten ns es l) = Ok lease /\
    d' = set_leases (<[lid := lease_beaten ns es l]> (leases d)) d.
Proof.
  unfold heartbeat_in_tx, get_lease_in_tx. intros Hh. store_inv.
  destruct (update_row _ _ _ _) as [[r m]|] eqn:Hu; store_inv.
  - apply update_row_some in Hu as (l & Hl & [Hhl Hlt]%andb_true_iff & -> & ->). cbn in *.
    rewrite lookup_insert_eq in *. cbn in *.
    destruct (row_to_lease _) eqn:Hrow; [|discriminate]. simplify_eq. eauto 12.
  - match goal with HM : match ?o with _ => _ end _ = _ |- _ => destruct o; [|discriminate HM] end.
    destruct (negb _); [discriminate|]. by destruct (_ <=? _).
Qed.

Lemma heartbeat_lifecycle lid ttl now : preserves lifecycle (heartbeat_in_tx lid ttl now).
Proof.
  intros d lease d' L (l & ns & es & Hl & Hh & Hn & He & _ & _ & ->)%heartbeat_ok.
  set (l' := lease_beaten ns es l).
  assert (forall i li, <[lid := l']> (leases d) !! i = Some li ->
            exists l0, leases d !! i = Some l0 /\ held l0 = held li /\
              l_ticket_id l0 = l_ticket_id li /\ l_worker_id l0 = l_worker_id li) as Hsame.
  { intros i li Hi. destruct (decide (i = lid)) as [->|Hne].
    - rewrite lookup_insert_eq in Hi. simplify_eq. by exists l.
    - rewrite lookup_insert_ne in Hi by done. by exists li. }
  split; cbn.
  - apply (lc_tickets d L).
  - apply map_Forall_insert_2; [|apply (lc_leases d L)].
    apply lease_beaten_readable; [by eapply format_stamped..|]. exact (lc_leases d L _ _ Hl).
  - apply (lc_ticket_sound d L).
  - apply map_Forall_insert_2; [|apply (lc_lease_sound d L)]. exact (lc_lease_sound d L _ _ Hl).
  - intros i li (l0 & Hi & _ & <- & <-)%Hsame. exact (lc_lease_refs d L _ _ Hi).
  - intros i li t (l0 & Hi & Hh0 & <- & _)%Hsame Hhi Ht.
    eapply (lc_held_leased d L); [done|congruence|done].
  - intros tid t Ht Hs. destruct (lc_leased_held d L tid t Ht Hs) as (i & li & Hi & Hhi & Htid).
    destruct (decide (i = lid)) as [->|Hne].
    + exists lid, l'. rewrite lookup_insert_eq. by simplify_eq.
    + exists i, li. by rewrite lookup_insert_ne by done.
  - intros i li i' li' (l0 & Hi & Hh0 & E0 & _)%Hsame Hhi (l1 & Hi' & Hh1 & E1 & _)%Hsame Hhi' E.
    eapply (lc_one_holder d L); [exact Hi|congruence|exact Hi'|congruence|congruence].
  - apply (lc_gate d L).
  - apply (lc_edges d L).
  - apply (lc_acyclic d L).
  - apply (lc_jobs d L).
Qed.

Lemma leasable_spec d ts r :
  leasable d ts r = true <->
  t_state r = TicketReady /\ text_le (t_next_eligible_at r) ts = true /\
  t_attempt r < t_max_attempts r /\ parent_job_open d r = true.
Proof.
  unfold leasable, in_state. rewrite !andb_true_iff, bool_decide_eq_true, Z.ltb_lt. tauto.
Qed.

(** Leasing counts one attempt, which the guard leaves room for. *)
Lemma ticket_leased_ok d tid t ts :
  lifecycle d -> tickets d !! tid = Some t -> leasable d ts t = true -> stamped ts ->
  ticket_readable tid (ticket_leased ts t) /\ ticket_sound (ticket_leased ts t).
Proof.
  intros L Ht (Hs & _ & Hlt & _)%leasable_spec Hts.
  pose proof (lc_ticket_sound d L _ _ Ht) as (? & ? & _ & _ & _ & Hres).
  pose proof (lc_tickets d L _ _ Ht) as (Hr1 & Hr2 & Hr3 & Hu & Hm & Hr). split.
  - apply ticket_with_attempt_readable.
    + unfold is_u32 in *. rewrite andb_true_iff, !Z.leb_le in *. lia.
    + apply ticket_moved_readable; [done|]. exact (lc_tickets d L _ _ Ht).
  - unfold ticket_sound. cbn. split_and!; try done; try (intros; lia).
    rewrite Hs in Hres. split; [|discriminate]. intros Hx. by apply Hres in Hx.
Qed.

(** The ticket and the new held lease together. *)
Lemma lifecycle_acquired d tid t ts row :
  lifecycle d -> tickets d !! tid = Some t -> leasable d ts t = true -> stamped ts ->
  l_ticket_id row = tid -> is_Some (workers d !! l_worker_id row) ->
  lease_readable (next_rowid (leases d)) row -> lease_sound row -> held row = true ->
  lifecycle (set_leases (<[next_rowid (leases d) := row]> (leases d)) (provisional d tid ts t)).
Proof.
  intros L Ht Hleas Hts Htid Hw Hrd Hsnd Hh.
  destruct (ticket_leased_ok d tid t ts) as [Hrd' Hsnd']; try done.
  apply leasable_spec in Hleas as (Hs & _).
  set (n := next_rowid (leases d)) in *. set (t' := ticket_leased ts t) in *.
  assert (leases d !! n = None) as Hfresh by apply next_rowid_fresh.
  assert (forall i l, leases d !! i = Some l -> held l = true -> l_ticket_id l <> tid) as Hfree.
  { intros i l Hi Hhi. eapply unleased_free; [done|done|congruence|done|done]. }
  destruct (tickets_sound_update d (set_leases (<[n := row]> (leases d)) (provisional d tid ts t))
              tid t t'); try done; [congruence|intros _; apply (lc_gate d L _ t Ht); congruence|].
  split; cbn; try done.
  - apply map_Forall_insert_2; [done|]. apply (lc_leases d L).
  - apply map_Forall_insert_2; [done|]. apply (lc_lease_sound d L).
  - apply map_Forall_insert_2.
    + rewrite Htid. split; [|done]. rewrite lookup_insert_eq. eauto.
    + intros i l Hi. destruct (lc_lease_refs d L i l Hi). split; [by apply is_Some_insert|done].
  - intros i l ti Hi Hhi Hti. destruct (decide (i = n)) as [->|Hne].
    + rewrite lookup_insert_eq in Hi. simplify_eq. rewrite lookup_insert_eq in Hti.
      by simplify_eq.
    + rewrite lookup_insert_ne in Hi by done.
      rewrite lookup_insert_ne in Hti by (apply not_eq_sym; by eapply Hfree).
      by eapply (lc_held_leased d L).
  - intros x tx Hx Hsx. destruct (decide (x = tid)) as [->|Hne].
    + exists n, row. by rewrite lookup_insert_eq.
    + rewrite lookup_insert_ne in Hx by done.
      destruct (lc_leased_held d L x tx Hx Hsx) as (i & l & Hi & Hhi & Hxl).
      exists i, l. rewrite lookup_insert_ne; [done|]. intros <-. congruence.
  - intros i l i' l' Hi Hhi Hi' Hhi' E.
    destruct (decide (i = n)) as [->|Hne], (decide (i' = n)) as [->|Hne'];
      rewrite ?lookup_insert_eq in *; try rewrite lookup_insert_ne in Hi by done;
      try rewrite lookup_insert_ne in Hi' by done; simplify_eq; try done.
    + exfalso. by apply (Hfree i' l' Hi' Hhi').
    + exfalso. by apply (Hfree i l Hi Hhi).
    + by eapply (lc_one_holder d L).
Qed.

Lemma try_acquire_lifecycle input : preserves lifecycle (try_acquire_in_tx input).
Proof.
  intros d out d' L Ha%try_acquire_ok. destruct out as [lease| | |]; try by subst.
  destruct Ha as (t & ts & es & el & cap & Httl & Ht & _ & Hts & Hes & Hleas & Hw & _ &
                  _ & _ & _ & _ & Hrow & ->).
  apply (lifecycle_acquired d (nl_ticket_id input) t ts); try done; [by eapply format_stamped|].
  apply row_to_lease_ok in Hrow as [(Hk & Htk & Hwk & _ & _ & _ & _ & He) _].
  unfold lease_readable, lease_row_ok. cbn in *. split_and!; try done; by eapply format_stamped.
Qed.
End invariant.
