(* ===== verification/Expiry.v ===== *)
(** * Lease expiry

    [expire_due_in_tx] as a whole: the chunked prefetch of attempts agrees
    with one lookup per ticket, the loop never fails on a database that
    satisfies the lifecycle invariant, and what a batch leaves behind. *)

From S2P Require Import Prelude Json Vocab Operations Store Jobs Tickets Workers.
From S2P Require Import Leases Lifecycle.
From Stdlib Require Import ZArith Lia Bool String.
From stdpp Require Import base gmap strings list sorting.

Open Scope Z_scope.

(** ** The prefetch *)

Lemma chunks_fuel_concat {A} n fuel (l : list A) :
  (0 < n)%nat -> (length l <= fuel)%nat -> concat (chunks_fuel fuel n l) = l.
Proof.
  intros Hn. revert l; induction fuel as [|fuel IH]; intros [|x l] Hl; cbn [length] in Hl;
    try done; [lia|].
  cbn [chunks_fuel concat]. rewrite IH; [apply take_drop|].
  rewrite length_drop. cbn [length]. lia.
Qed.

Lemma chunks_concat {A} n (l : list A) : (0 < n)%nat -> concat (chunks n l) = l.
Proof. intros Hn. by apply chunks_fuel_concat. Qed.

Lemma chunks_fuel_bound {A} n fuel (l : list A) chunk :
  (length l <= fuel)%nat -> In chunk (chunks_fuel fuel n l) -> (length chunk <= n \/ n = 0)%nat.
Proof.
  revert l; induction fuel as [|fuel IH]; intros [|x l] Hl; cbn [length] in Hl; try done; [lia|].
  cbn [chunks_fuel]. intros [<-|Hin].
  - left. rewrite length_take. lia.
  - destruct n as [|n]; [by right|]. eapply IH; [|exact Hin].
    rewrite length_drop. cbn [length]. lia.
Qed.

(** The attempts of one ticket. *)
Definition attempts_of (d : Db) (id : Z) : option (Z * Z) :=
  (fun t => (t_attempt t, t_max_attempts t)) <$> (tickets d !! id).

Lemma ticket_attempts_in_spec d ids id v :
  In (id, v) (ticket_attempts_in d ids) <-> In id ids /\ attempts_of d id = Some v.
Proof.
  unfold ticket_attempts_in, attempts_of. rewrite in_map_iff. split.
  - intros ([k t] & [= <- <-] & [Hk He]%select_asc_in). cbn. rewrite Hk. split; [|done].
    apply existsb_exists in He as (x & Hx & ->%Z.eqb_eq). done.
  - intros [Hin Hv]. destruct (tickets d !! id) as [t|] eqn:Ht; [|discriminate]. cbn in Hv.
    exists (id, t). cbn. split; [congruence|]. apply select_asc_in. split; [done|].
    apply existsb_exists. exists id. by rewrite Z.eqb_refl.
Qed.

(** Inserting rows that all agree with one function. *)
Lemma foldl_insert_lookup {A} (f : Z -> option A) rows (out : gmap Z A) id :
  (forall k v, In (k, v) rows -> f k = Some v) ->
  foldl (fun out kv => <[kv.1 := kv.2]> out) out rows !! id =
  if decide (id ∈ rows.*1) then f id else out !! id.
Proof.
  revert out; induction rows as [|[k v] rows IH]; intros out Hf; cbn [foldl].
  { by rewrite decide_False by apply not_elem_of_nil. }
  rewrite IH by (intros k' v' Hin; apply Hf; by right). cbn [fmap list_fmap fst snd].
  destruct (decide (id ∈ rows.*1)) as [Hin|Hin].
  - by rewrite decide_True by (by right).
  - destruct (decide (k = id)) as [->|Hne].
    + rewrite decide_True by (by left). rewrite lookup_insert_eq. symmetry. apply Hf. by left.
    + rewrite lookup_insert_ne, decide_False by (done || set_solver). done.
Qed.

Lemma fetch_chunks_lookup d cs (out : gmap Z (Z * Z)) id :
  foldl (fun out chunk =>
           foldl (fun out kv => <[kv.1 := kv.2]> out) out (ticket_attempts_in d chunk)) out cs !! id =
  if decide (id ∈ concat cs /\ is_Some (attempts_of d id)) then attempts_of d id else out !! id.
Proof.
  revert out; induction cs as [|c cs IH]; intros out; cbn [foldl concat].
  { by rewrite decide_False by (intros [[]%not_elem_of_nil _]). }
  rewrite IH, (foldl_insert_lookup (attempts_of d)) by (intros k v [_ ?]%ticket_attempts_in_spec; done).
  assert (id ∈ (ticket_attempts_in d c).*1 <-> id ∈ c /\ is_Some (attempts_of d id)) as Hc.
  { rewrite list_elem_of_fmap. split.
    - intros ([k v] & -> & [Hk Hv]%list_elem_of_In%ticket_attempts_in_spec). cbn.
      apply list_elem_of_In in Hk. eauto.
    - intros [Hin%list_elem_of_In [v Hv]]. exists (id, v). split; [done|].
      by apply list_elem_of_In, ticket_attempts_in_spec. }
  rewrite (decide_ext (id ∈ c ++ concat cs /\ is_Some (attempts_of d id))
    (id ∈ concat cs /\ is_Some (attempts_of d id) \/ id ∈ (ticket_attempts_in d c).*1))
    by (rewrite elem_of_app, Hc; tauto).
  repeat case_decide; tauto.
Qed.

(** The prefetch holds, for every requested ticket that exists, what a lookup
    by id would return. *)
Lemma fetch_ticket_attempts_spec d ids id :
  In id ids -> fetch_ticket_attempts d ids !! id = attempts_of d id.
Proof.
  intros Hin. unfold fetch_ticket_attempts. rewrite fetch_chunks_lookup.
  rewrite chunks_concat by (unfold TICKET_ATTEMPT_CHUNK; lia).
  case_decide as Hb; [done|]. rewrite lookup_empty.
  destruct (attempts_of d id); [|done]. exfalso. apply Hb. apply list_elem_of_In in Hin. eauto.
Qed.

(** ** The loop *)

Section expiry.
Context `{Iso8601Laws}.

Definition expired_ticket (ts : string) (t : TicketRow) : TicketRow :=
  if t_attempt t <? t_max_attempts t then requeued ts ts t else failed ts t.

(** What one row of a batch does. *)
Definition expire_one (ts : string) (d : Db) (row : Z * Z) : Db :=
  match leases d !! row.1, tickets d !! row.2 with
  | Some l, Some t => settled d row.1 l LeaseExpired ReasonIssuerLost ts (expired_ticket ts t)
  | _, _ => d
  end.

(** What one row adds to the report. *)
Definition report_one (d : Db) (rep : ExpireReport) (row : Z * Z) : ExpireReport :=
  match attempts_of d row.2 with
  | Some (a, m) => {|
      expired_leases := expired_leases rep ++ [row.1];
      requeued_tickets := requeued_tickets rep ++ (if a <? m then [row.2] else []);
      failed_expiries := failed_expiries rep ++
        (if a <? m then [] else
         [{| fe_lease_id := row.1; fe_ticket_id := row.2; fe_attempt := a;
             fe_max_attempts := m |}]);
      pairs := pairs rep ++ [row] |}
  | None => rep
  end.

(** The rows of a batch: held leases with their tickets, each lease once. *)
Definition batch (d : Db) (rows : list (Z * Z)) : Prop :=
  NoDup rows.*1 /\
  forall lid tid, In (lid, tid) rows ->
    exists l t, holding d lid l t /\ l_ticket_id l = tid.

Lemma expire_one_eq ts d lid l t :
  holding d lid l t ->
  expire_one ts d (lid, l_ticket_id l) =
    settled d lid l LeaseExpired ReasonIssuerLost ts (expired_ticket ts t).
Proof. intros (Hl & _ & Ht & _). unfold expire_one. cbn. by rewrite Hl, Ht. Qed.

Lemma expired_ticket_ok k ts t :
  ticket_readable k t -> ticket_sound t -> t_state t = TicketLeased -> stamped ts ->
  ticket_readable k (expired_ticket ts t) /\ ticket_sound (expired_ticket ts t) /\
  t_state (expired_ticket ts t) <> TicketLeased /\
  t_state (expired_ticket ts t) <> TicketPending /\
  t_job_id (expired_ticket ts t) = t_job_id t.
Proof.
  intros Hrd Hsnd Hs Hts. unfold expired_ticket. destruct (Z.ltb_spec (t_attempt t) (t_max_attempts t)).
  - destruct (requeued_ok k ts ts t) as [? ?]; try done.
  - destruct (failed_ok k ts t) as [? ?]; try done.
Qed.

Lemma expire_one_lifecycle ts d lid l t :
  lifecycle d -> stamped ts -> holding d lid l t ->
  lifecycle (expire_one ts d (lid, l_ticket_id l)).
Proof.
  intros L Hts Hh. rewrite (expire_one_eq ts d lid l t Hh).
  destruct (holding_ticket d lid l t L Hh) as (Hrd & Hsnd & Hs).
  destruct (expired_ticket_ok _ ts t Hrd Hsnd Hs Hts) as (? & ? & ? & ? & ?).
  by apply (lifecycle_settled d lid l t).
Qed.

(** Expiring one row leaves the other rows of the batch as they were. *)
Lemma expire_one_other ts d lid l t lid' l' t' :
  lifecycle d -> holding d lid l t -> holding d lid' l' t' -> lid <> lid' ->
  holding (expire_one ts d (lid, l_ticket_id l)) lid' l' t' /\
  attempts_of (expire_one ts d (lid, l_ticket_id l)) (l_ticket_id l') =
    attempts_of d (l_ticket_id l').
Proof.
  intros L Hh Hh' Hne. rewrite (expire_one_eq ts d lid l t Hh).
  pose proof Hh as (Hl & Hhl & Ht & Hs). pose proof Hh' as (Hl' & Hhl' & Ht' & Hs').
  assert (l_ticket_id l <> l_ticket_id l') as Htne.
  { intros E. apply Hne. by eapply (lc_one_holder d L). }
  unfold settled, holding, attempts_of. cbn. by rewrite !lookup_insert_ne.
Qed.

Lemma batch_step ts d lid tid rows :
  lifecycle d -> batch d ((lid, tid) :: rows) ->
  batch (expire_one ts d (lid, tid)) rows /\
  (forall r, In r rows -> attempts_of (expire_one ts d (lid, tid)) r.2 = attempts_of d r.2).
Proof.
  intros L [Hnd Hr]. cbn in Hnd. apply NoDup_cons in Hnd as [Hnin Hnd].
  destruct (Hr lid tid) as (l & t & Hh & <-); [by left|].
  assert (forall lid' tid', In (lid', tid') rows -> exists l' t',
    holding d lid' l' t' /\ l_ticket_id l' = tid' /\ lid <> lid') as Hrows.
  { intros lid' tid' Hin. destruct (Hr lid' tid') as (l' & t' & ? & ?); [by right|].
    exists l', t'. split_and!; try done. intros ->. apply Hnin.
    apply list_elem_of_fmap. exists (lid', tid'). split; [done|]. by apply list_elem_of_In. }
  split.
  - split; [done|]. intros lid' tid' Hin.
    destruct (Hrows lid' tid' Hin) as (l' & t' & Hh' & <- & Hne).
    exists l', t'. split; [|done]. by eapply expire_one_other.
  - intros [lid' tid'] Hin. destruct (Hrows lid' tid' Hin) as (l' & t' & Hh' & <- & Hne).
    by eapply expire_one_other.
Qed.

Lemma ticket_sound_u32 d lid l t :
  lifecycle d -> holding d lid l t ->
  is_u32 (t_attempt t) = true /\ is_u32 (t_max_attempts t) = true /\ 0 <= lid /\
  0 <= l_ticket_id l.
Proof.
  intros L (Hl & _ & Ht & _). pose proof (lc_tickets d L _ _ Ht) as (? & _ & _ & ? & ? & _).
  by pose proof (lc_leases d L _ _ Hl) as (? & _).
Qed.

Lemma process_expired_run attempts ts rep d lid l t :
  lifecycle d -> holding d lid l t ->
  attempts !! l_ticket_id l = attempts_of d (l_ticket_id l) ->
  process_expired_lease attempts ts rep (lid, l_ticket_id l) d =
    (Ok (report_one d rep (lid, l_ticket_id l)), expire_one ts d (lid, l_ticket_id l)).
Proof.
  intros L Hh Hat. destruct (ticket_sound_u32 d lid l t L Hh) as (Ha & Hm & Hk & Hkt).
  rewrite (expire_one_eq ts d lid l t Hh).
  pose proof Hh as (Hl & Hhl & Ht & Hs).
  assert (attempts_of d (l_ticket_id l) = Some (t_attempt t, t_max_attempts t)) as Hat'
    by (unfold attempts_of; by rewrite Ht).
  rewrite Hat' in Hat. unfold report_one, expired_ticket. cbn [fst snd]. rewrite Hat'.
  unfold process_expired_lease, expire_lease, move_leased_ticket, update_row, in_state.
  cbn [fst snd]. rewrite (proj2 (u64_from_i64_ok lid lid) (conj eq_refl Hk)).
  rewrite (proj2 (u64_from_i64_ok (l_ticket_id l) (l_ticket_id l)) (conj eq_refl Hkt)).
  unfold mbind, tx_mbind, lift, gets, modify, mret, tx_mret. cbn. rewrite Hl, Hhl. cbn.
  rewrite Hat. cbn.
  destruct (t_attempt t <? t_max_attempts t); cbn; rewrite Ht, (bool_decide_eq_true_2 _ Hs); cbn.
  - by rewrite app_nil_r.
  - rewrite (proj2 (u32_from_i64_ok _ (t_attempt t)) (conj eq_refl Ha)).
    rewrite (proj2 (u32_from_i64_ok _ (t_max_attempts t)) (conj eq_refl Hm)).
    by rewrite app_nil_r.
Qed.

(** The loop runs through the batch without an error. *)
Lemma expire_loop attempts ts rows rep d d0 :
  lifecycle d -> stamped ts -> batch d rows ->
  (forall r, In r rows -> attempts !! r.2 = attempts_of d r.2) ->
  (forall r, In r rows -> attempts_of d r.2 = attempts_of d0 r.2) ->
  fold_tx (process_expired_lease attempts ts) rep rows d =
    (Ok (foldl (report_one d0) rep rows), foldl (expire_one ts) d rows) /\
  lifecycle (foldl (expire_one ts) d rows).
Proof.
  revert rep d; induction rows as [|[lid tid] rows IH]; intros rep d L Hts Hb Hat Hat0; [done|].
  destruct (proj2 Hb lid tid) as (l & t & Hh & <-); [by left|].
  destruct (batch_step ts d lid (l_ticket_id l) rows L Hb) as [Hb' Hsame].
  cbn [fold_tx foldl]. unfold mbind, tx_mbind.
  rewrite (process_expired_run attempts ts rep d lid l t L Hh) by (apply (Hat (lid, _)); by left).
  destruct (IH (report_one d0 rep (lid, l_ticket_id l)) (expire_one ts d (lid, l_ticket_id l)))
    as [IH1 IH2]; try done.
  - by eapply expire_one_lifecycle.
  - intros r Hr. rewrite Hsame by done. apply Hat. by right.
  - intros r Hr. rewrite Hsame by done. apply Hat0. by right.
  - split; [|done]. rewrite <- IH1. f_equal. unfold report_one.
    by rewrite (Hat0 (lid, l_ticket_id l)) by (by left).
Qed.

(** The overdue leases, all of them, in id order. *)
Definition due_rows (d : Db) (ts : string) : list (Z * LeaseRow) :=
  select_asc (fun _ l => held l && text_lt (l_expires_at l) ts) (leases d).

Lemma due_leases_eq d ts :
  due_leases d ts =
  map (fun kv => (kv.1, l_ticket_id kv.2)) (take (Z.to_nat LEASE_BATCH_LIMIT) (due_rows d ts)).
Proof. done. Qed.

Lemma due_rows_sorted d ts : StronglySorted (fun x y => x.1 < y.1) (due_rows d ts).
Proof. apply sorted_strict_filter; [apply rows_asc_sorted|apply rows_asc_NoDup]. Qed.

Lemma due_rows_NoDup d ts : NoDup (due_rows d ts).*1.
Proof.
  apply NoDup_fst_filter. apply rows_asc_NoDup.
Qed.

Lemma map_due_fst (l : list (Z * LeaseRow)) :
  (map (fun kv => (kv.1, l_ticket_id kv.2)) l).*1 = l.*1.
Proof. induction l as [|kv l IH]; cbn; [done|by rewrite IH]. Qed.

Lemma due_rows_in d ts lid l :
  In (lid, l) (due_rows d ts) <->
  leases d !! lid = Some l /\ held l = true /\ text_lt (l_expires_at l) ts = true.
Proof. unfold due_rows. rewrite select_asc_in, andb_true_iff. done. Qed.

Lemma due_batch d ts : lifecycle d -> batch d (due_leases d ts).
Proof.
  intros L. split.
  - rewrite due_leases_eq, map_due_fst, fmap_take.
    eapply sublist_NoDup; [apply due_rows_NoDup|apply sublist_take].
  - intros lid tid Hin. rewrite due_leases_eq in Hin.
    apply in_map_iff in Hin as ([k l] & [= <- <-] & Hin).
    assert (In (k, l) (due_rows d ts)) as (Hl & Hh & _)%due_rows_in.
    { rewrite <- (take_drop (Z.to_nat LEASE_BATCH_LIMIT)). apply in_app_iff. by left. }
    destruct (lc_lease_refs d L k l Hl) as [[t Ht] _].
    exists l, t. split; [|done]. unfold holding. split_and!; try done.
    by eapply (lc_held_leased d L).
Qed.

Definition expire_lease_row (ts : string) (rows : list (Z * Z)) (lid : Z) (l : LeaseRow) :
    LeaseRow :=
  if decide (lid ∈ rows.*1) then lease_closed LeaseExpired ReasonIssuerLost ts l else l.
Definition expire_ticket_row (ts : string) (rows : list (Z * Z)) (tid : Z) (t : TicketRow) :
    TicketRow :=
  if decide (tid ∈ rows.*2) then expired_ticket ts t else t.

Lemma batch_ticket_fresh d lid tid rows :
  lifecycle d -> batch d ((lid, tid) :: rows) -> (lid ∉ rows.*1) /\ (tid ∉ rows.*2).
Proof.
  intros L [Hnd Hr]. cbn in Hnd. apply NoDup_cons in Hnd as [Hnin _]. split; [done|].
  intros Hin. apply list_elem_of_fmap in Hin as ([lid' tid'] & E & Hin). cbn in E. subst tid'.
  destruct (Hr lid tid) as (l & t & (Hl & Hh & _) & <-); [by left|].
  destruct (Hr lid' (l_ticket_id l)) as (l' & t' & (Hl' & Hh' & _) & E);
    [right; by apply list_elem_of_In|].
  apply Hnin. apply list_elem_of_fmap. exists (lid', l_ticket_id l). split; [|done]. cbn.
  by eapply (lc_one_holder d L).
Qed.

Lemma expire_all_lookup ts rows d :
  lifecycle d -> stamped ts -> batch d rows ->
  let d' := foldl (expire_one ts) d rows in
  (forall lid, leases d' !! lid = expire_lease_row ts rows lid <$> leases d !! lid) /\
  (forall tid, tickets d' !! tid = expire_ticket_row ts rows tid <$> tickets d !! tid) /\
  ticket_dependencies d' = ticket_dependencies d /\ jobs d' = jobs d /\
  workers d' = workers d /\ events d' = events d.
Proof.
  revert d; induction rows as [|[lid tid] rows IH]; intros d L Hts Hb; cbn [foldl].
  { split_and!; try done; intros k; [destruct (leases d !! k)|destruct (tickets d !! k)]; cbn; done. }
  destruct (batch_ticket_fresh d lid tid rows L Hb) as [Hlf Htf].
  destruct (batch_step ts d lid tid rows L Hb) as [Hb' _].
  destruct (proj2 Hb lid tid) as (l & t & Hh & Htid); [by left|].
  assert (lifecycle (expire_one ts d (lid, tid))) as L'
    by (subst tid; by eapply expire_one_lifecycle).
  destruct (IH _ L' Hts Hb') as (Hl1 & Ht1 & Hd1 & Hj1 & Hw1 & He1).
  assert (expire_one ts d (lid, tid) =
    settled d lid l LeaseExpired ReasonIssuerLost ts (expired_ticket ts t)) as E
    by (subst tid; by apply expire_one_eq).
  rewrite E in Hl1, Ht1, Hd1, Hj1, Hw1, He1. rewrite E.
  pose proof Hh as (Hl & _ & Ht & _). rewrite Htid in *.
  split_and!; try done; intros k.
  - rewrite Hl1. unfold expire_lease_row. cbn. destruct (decide (k = lid)) as [->|Hne].
    + rewrite lookup_insert_eq, Hl. cbn. rewrite decide_False by done.
      by rewrite decide_True by (by left).
    + rewrite lookup_insert_ne by done. destruct (leases d !! k); cbn; [|done]. f_equal.
      by rewrite (decide_ext (k ∈ lid :: rows.*1) (k ∈ rows.*1)) by set_solver.
  - rewrite Ht1. unfold expire_ticket_row, settled. cbn. rewrite Htid.
    destruct (decide (k = tid)) as [->|Hne].
    + rewrite lookup_insert_eq, Ht. cbn. rewrite decide_False by done.
      by rewrite decide_True by (by left).
    + rewrite lookup_insert_ne by done. destruct (tickets d !! k); cbn; [|done]. f_equal.
      by rewrite (decide_ext (k ∈ tid :: rows.*2) (k ∈ rows.*2)) by set_solver.
Qed.

(** The leases still overdue after a batch are those the batch left out. *)
Lemma due_after ts d :
  lifecycle d -> stamped ts ->
  due_rows (foldl (expire_one ts) d (due_leases d ts)) ts =
  drop (Z.to_nat LEASE_BATCH_LIMIT) (due_rows d ts).
Proof.
  intros L Hts.
  destruct (expire_all_lookup ts (due_leases d ts) d L Hts (due_batch d ts L)) as (Hl & _).
  set (d' := foldl _ _ _) in *.
  pose proof (take_drop (Z.to_nat LEASE_BATCH_LIMIT) (due_rows d ts)) as Htd.
  pose proof (due_rows_NoDup d ts) as Hnd. rewrite <- Htd, fmap_app in Hnd.
  apply NoDup_app in Hnd as (_ & Hdisj & _).
  apply (sorted_unique (fun x y => x.1 < y.1)); [intros; lia|apply due_rows_sorted| |].
  { pose proof (due_rows_sorted d ts) as Hs. rewrite <- Htd in Hs.
    by apply StronglySorted_app in Hs as (_ & _ & ?). }
  assert (forall k, k ∈ (due_leases d ts).*1 <->
    k ∈ (take (Z.to_nat LEASE_BATCH_LIMIT) (due_rows d ts)).*1) as Hk
    by (intros k; by rewrite due_leases_eq, map_due_fst).
  intros [k l]. rewrite due_rows_in, Hl. unfold expire_lease_row. split.
  - intros (Hk' & Hh & Hlt). destruct (leases d !! k) as [l0|] eqn:E; [|discriminate]. cbn in Hk'.
    destruct (decide (k ∈ _)) as [Hin|Hin];
      [injection Hk' as <-; discriminate Hh|injection Hk' as ->].
    assert (In (k, l) (due_rows d ts)) as Hd by (by apply due_rows_in).
    rewrite <- Htd in Hd. apply in_app_iff in Hd as [Hd|Hd]; [|done]. exfalso.
    apply Hin, Hk. apply list_elem_of_fmap. exists (k, l). split; [done|].
    by apply list_elem_of_In.
  - intros Hd. assert (In (k, l) (due_rows d ts)) as (E & Hh & Hlt)%due_rows_in
      by (rewrite <- Htd; apply in_app_iff; by right).
    rewrite E. cbn. rewrite decide_False; [done|]. rewrite Hk. intros Hin.
    apply (Hdisj k Hin). apply list_elem_of_fmap. exists (k, l). split; [done|].
    by apply list_elem_of_In.
Qed.

Lemma expire_due_run now ts d :
  format_text now = Some ts -> lifecycle d ->
  expire_due_in_tx now d =
    (Ok (foldl (report_one d) empty_report (due_leases d ts)),
     foldl (expire_one ts) d (due_leases d ts)) /\
  lifecycle (foldl (expire_one ts) d (due_leases d ts)).
Proof.
  intros Hf L.
  destruct (expire_loop (fetch_ticket_attempts d (map snd (due_leases d ts))) ts
    (due_leases d ts) empty_report d d) as [Hrun L']; try done.
  - by eapply format_stamped.
  - by apply due_batch.
  - intros r Hr. apply fetch_ticket_attempts_spec. by apply in_map.
  - split; [|done]. unfold expire_due_in_tx, iso8601, mbind, tx_mbind, lift, gets.
    rewrite Hf. cbn [ok_or]. exact Hrun.
Qed.

Lemma report_all d rep rows :
  (forall r, In r rows -> is_Some (attempts_of d r.2)) ->
  let rep' := foldl (report_one d) rep rows in
  expired_leases rep' = expired_leases rep ++ rows.*1 /\ pairs rep' = pairs rep ++ rows /\
  requeued_tickets rep' = requeued_tickets rep ++
    List.filter (fun tid => match attempts_of d tid with
                            | Some (a, m) => a <? m | None => false end) rows.*2 /\
  (forall f, In f (failed_expiries rep') <-> In f (failed_expiries rep) \/
     (In (fe_lease_id f, fe_ticket_id f) rows /\ fe_max_attempts f <= fe_attempt f /\
      attempts_of d (fe_ticket_id f) = Some (fe_attempt f, fe_max_attempts f))).
Proof.
  revert rep; induction rows as [|[lid tid] rows IH]; intros rep Hs; cbn [foldl].
  { cbn. rewrite !app_nil_r. split_and!; try done. intros f. tauto. }
  destruct (Hs (lid, tid)) as [[a m] Ha]; [by left|]. cbn in Ha.
  destruct (IH (report_one d rep (lid, tid))) as (E1 & E2 & E3 & E4).
  { intros r Hr. apply Hs. by right. }
  cbn in E1, E2, E3, E4 |- *. rewrite E1, E2, E3.
  assert (forall f, In f (failed_expiries (report_one d rep (lid, tid))) <->
    In f (failed_expiries rep) \/ (f = {| fe_lease_id := lid; fe_ticket_id := tid;
       fe_attempt := a; fe_max_attempts := m |} /\ m <= a)) as Hfe.
  { intros f. unfold report_one. cbn. rewrite Ha. cbn. rewrite in_app_iff.
    destruct (Z.ltb_spec a m); cbn.
    - split; [tauto|]. intros [?|[_ ?]]; [tauto|lia].
    - split; [intros [?|[<-|[]]]; auto|intros [?|[-> _]]; auto]. }
  unfold report_one in *. cbn in *. rewrite Ha in *. cbn. rewrite <- !app_assoc. cbn.
  split_and!; try done; [by destruct (a <? m)|].
  intros f. rewrite E4, Hfe. split.
  - intros [[?|[-> ?]]|(? & ? & ?)]; cbn; auto 10.
  - intros [?|([E|?] & Hle & Hf)]; [tauto| |auto].
    left. right. destruct f as [fl ft fa fm]; cbn in *. injection E as <- <-.
    rewrite Ha in Hf. injection Hf as -> ->. done.
Qed.

(** Overdue means what it says: held, with a deadline before now. *)
Lemma due_rows_instant now ts d lid l :
  format_text now = Some ts -> lifecycle d ->
  In (lid, l) (due_rows d ts) <->
  leases d !! lid = Some l /\ l_state l = LeaseHeld /\
  exists e, parse_text (l_expires_at l) = Some e /\ e < now.
Proof.
  intros Hf L. rewrite due_rows_in, held_spec. split; intros (Hl & Hh & Hx);
    pose proof (lc_leases d L _ _ Hl) as (_ & _ & _ & _ & [e He] & _);
    pose proof (parse_format _ _ He); split_and!; try done.
  - exists e. split; [done|]. by apply (text_lt_instant _ _ _ _ He Hf).
  - destruct Hx as (e' & He' & Hlt). simplify_eq. by apply (text_lt_instant _ _ _ _ He Hf).
Qed.

Lemma due_attempts d ts : lifecycle d ->
  forall r, In r (due_leases d ts) -> is_Some (attempts_of d r.2).
Proof.
  intros L [lid tid] Hr. destruct (proj2 (due_batch d ts L) lid tid Hr) as (l & t & (_ & _ & Ht & _) & <-).
  unfold attempts_of. cbn. rewrite Ht. eauto.
Qed.

(** C31: on a database that satisfies the lifecycle invariant an expiry
    batch always succeeds. It takes the overdue leases (held, deadline
    before now) in id order, at most 1000 of them, closes exactly those as
    expired with reason issuer_lost, requeues each of their tickets at once
    when attempts remain and fails it otherwise, touches no other lease,
    ticket, dependency, job, worker or event, reports exactly what it did,
    and leaves overdue exactly the leases past the batch limit. *)
Theorem expire_due_exact now ts d :
  format_text now = Some ts -> lifecycle d ->
  exists rep d',
    expire_due_in_tx now d = (Ok rep, d') /\ lifecycle d' /\
    pairs rep = map (fun kv => (kv.1, l_ticket_id kv.2))
                  (take (Z.to_nat LEASE_BATCH_LIMIT) (due_rows d ts)) /\
    (forall lid l, In (lid, l) (due_rows d ts) <->
       leases d !! lid = Some l /\ l_state l = LeaseHeld /\
       exists e, parse_text (l_expires_at l) = Some e /\ e < now) /\
    expired_leases rep = (pairs rep).*1 /\
    requeued_tickets rep =
      List.filter (fun tid => match attempts_of d tid with
                              | Some (a, m) => a <? m | None => false end) (pairs rep).*2 /\
    (forall f, In f (failed_expiries rep) <->
       In (fe_lease_id f, fe_ticket_id f) (pairs rep) /\ fe_max_attempts f <= fe_attempt f /\
       attempts_of d (fe_ticket_id f) = Some (fe_attempt f, fe_max_attempts f)) /\
    (forall lid, leases d' !! lid = expire_lease_row ts (pairs rep) lid <$> leases d !! lid) /\
    (forall tid, tickets d' !! tid = expire_ticket_row ts (pairs rep) tid <$> tickets d !! tid) /\
    ticket_dependencies d' = ticket_dependencies d /\ jobs d' = jobs d /\
    workers d' = workers d /\ events d' = events d /\
    due_rows d' ts = drop (Z.to_nat LEASE_BATCH_LIMIT) (due_rows d ts).
Proof.
  intros Hf L. assert (stamped ts) as Hts by (by eapply format_stamped).
  destruct (expire_due_run now ts d Hf L) as [Hrun L'].
  destruct (report_all d empty_report (due_leases d ts) (due_attempts d ts L))
    as (E1 & E2 & E3 & E4).
  destruct (expire_all_lookup ts (due_leases d ts) d L Hts (due_batch d ts L))
    as (F1 & F2 & F3 & F4 & F5 & F6).
  cbn in E1, E2, E3, E4. eexists _, _. split; [exact Hrun|]. rewrite !E2.
  split_and!; try done.
  - intros lid l. by apply due_rows_instant.
  - intros f. rewrite E4. tauto.
  - by apply due_after.
Qed.

(** The daemon's drain: call [expire_due_in_tx] until the backlog is gone. *)
Fixpoint expire_rounds (n : nat) (now : Z) : M unit :=
  match n with
  | O => mret tt
  | S n' => _ ← expire_due_in_tx now; expire_rounds n' now
  end.

(** C32: the drain makes progress. After [n] rounds at one instant exactly
    the first [1000 * n] overdue leases are gone, so that as many rounds as
    there are thousands of overdue leases, rounded up, leave none; no round
    fails and the invariant holds at the end. *)
Theorem expire_rounds_drain n now ts d :
  format_text now = Some ts -> lifecycle d ->
  exists d',
    expire_rounds n now d = (Ok tt, d') /\ lifecycle d' /\
    due_rows d' ts = drop (n * Z.to_nat LEASE_BATCH_LIMIT) (due_rows d ts) /\
    (Z.of_nat (length (due_rows d ts)) <= Z.of_nat n * LEASE_BATCH_LIMIT -> due_rows d' ts = []).
Proof.
  intros Hf. revert d; induction n as [|n IH]; intros d L.
  { exists d. split_and!; try done. intros Hl. destruct (due_rows d ts); [done|cbn in Hl; lia]. }
  destruct (expire_due_run now ts d Hf L) as [Hrun L'].
  destruct (IH _ L') as (d' & Hrest & Ld' & Hdue & _).
  rewrite due_after, drop_drop in Hdue by (try done; by eapply format_stamped).
  exists d'. split_and!; try done.
  - cbn [expire_rounds]. unfold mbind, tx_mbind. by rewrite Hrun.
  - intros Hl. rewrite Hdue. apply drop_ge. unfold LEASE_BATCH_LIMIT in *. lia.
Qed.
End expiry.
