(* ===== verification/Acquisition.v ===== *)
(** * Acquisition

    What acquiring a lease promises: which requests succeed, what each
    refusal says of the ticket and the worker, and that a success keeps the
    worker within its limit. *)

From S2P Require Import Prelude Json Vocab Operations Store Jobs Tickets Workers.
From S2P Require Import Leases Lifecycle.
From Stdlib Require Import ZArith Lia Bool String.
From stdpp Require Import base gmap strings list sorting.

Open Scope Z_scope.

(** ** Eligibility *)

(** The classifier finds a reason exactly when the worker is not eligible. *)
Lemma ineligibility_none e : ineligibility_reason e = None <-> is_eligible e = true.
Proof.
  unfold ineligibility_reason, is_eligible.
  destruct (el_worker_kind e) as [[]|], (el_worker_status e) as [[]|]; cbn;
    destruct (el_has_capability e), (el_has_grant e), (el_is_denied e); cbn; split; congruence.
Qed.

(** the reason given for a refused worker is the first failed
    requirement, in the order the operator sees them: the worker exists, it
    is ready (a remote worker must be active, a local or synthetic one must
    not be stale or retired), the operation is not denied, it is advertised,
    it is granted. The classifier gives no reason exactly when the worker is
    eligible. *)
Theorem ineligibility_reason_first e :
  match ineligibility_reason e with
  | None =>
      exists kind status, el_worker_kind e = Some kind /\ el_worker_status e = Some status /\
        worker_accepts_new_work kind status = true /\ el_is_denied e = false /\
        el_has_capability e = true /\ el_has_grant e = true
  | Some WorkerMissing => el_worker_kind e = None \/ el_worker_status e = None
  | Some ReasonWorkerNotReady =>
      el_worker_kind e = Some WorkerKindRemote /\ el_worker_status e = Some WorkerRegistered
  | Some ReasonWorkerStale => is_Some (el_worker_kind e) /\ el_worker_status e = Some WorkerStale
  | Some ReasonWorkerRetired =>
      is_Some (el_worker_kind e) /\ el_worker_status e = Some WorkerRetired
  | Some (OperationDenied as r) | Some (MissingCapability as r) | Some (MissingGrant as r) =>
      (exists kind status, el_worker_kind e = Some kind /\ el_worker_status e = Some status /\
        worker_accepts_new_work kind status = true) /\
      match r with
      | OperationDenied => el_is_denied e = true
      | MissingCapability => el_is_denied e = false /\ el_has_capability e = false
      | _ => el_is_denied e = false /\ el_has_capability e = true /\ el_has_grant e = false
      end
  end.
Proof.
  unfold ineligibility_reason, is_eligible.
  destruct (el_worker_kind e) as [[]|], (el_worker_status e) as [[]|]; cbn;
    destruct (el_has_capability e), (el_has_grant e), (el_is_denied e); cbn; eauto 10.
Qed.

(** ** Counting *)

(** A ticket is counted by the token it is scheduled under, bare or
    namespaced. *)
Definition workflow_token (operation : TicketOperation) : string :=
  match TicketOperation_normalize operation with
  | Known _ _ => String.append WORKFLOW_OPERATION_NAMESPACE operation
  | CustomLocal _ | UnknownNamespaced _ => operation
  end.

Lemma normalize_matching_token k :
  is_unknown_namespaced (TicketOperation_normalize k) = false ->
  let op := matching_token (TicketOperation_normalize k) in
  matching_token (TicketOperation_normalize op) = op /\ (k = op \/ k = workflow_token op).
Proof.
  pose proof (normalize_inv k) as Hk. unfold workflow_token.
  destruct (TicketOperation_normalize k) as [kind b|c|u] eqn:En; cbn; [|intros _|discriminate].
  - intros _. unfold TicketOperation_from. rewrite normalize_bare. cbn. destruct b; auto.
  - destruct Hk as (-> & _ & _). rewrite En. cbn. auto.
Qed.

Lemma names_transcode_video_kind k :
  is_unknown_namespaced (TicketOperation_normalize k) = false ->
  matching_token (TicketOperation_normalize k) = TicketOperation_from OpTranscodeVideo ->
  names_transcode_video k = true.
Proof.
  intros Hu Hm. destruct (normalize_matching_token k Hu) as [_ [Hk|Hk]];
    rewrite Hm in Hk; rewrite Hk; reflexivity.
Qed.

(** ** Capacity *)

Lemma foldl_err {A B} (f : A -> B -> Res A) l e :
  foldl (fun acc x => a ← acc; f a x) (Err e) l = Err e.
Proof. by induction l. Qed.

(** A fold of fallible steps keeps what each step keeps. *)
Lemma foldl_res_preserves {A B} (P : A -> Prop) (f : A -> B -> Res A) l a b :
  (forall a x a', P a -> f a x = Ok a' -> P a') ->
  P a -> foldl (fun acc x => a ← acc; f a x) (Ok a) l = Ok b -> P b.
Proof.
  intros Hf. revert a; induction l as [|x l IH]; intros a Ha Hr; cbn in Hr.
  - by injection Hr as <-.
  - destruct (f a x) as [a'|e] eqn:E; cbn in Hr.
    + eapply IH; [|exact Hr]. eauto.
    + by rewrite foldl_err in Hr.
Qed.

Definition limit_ok (o : option Z) : Prop := forall n, o = Some n -> 1 <= n <= u32_max.

Lemma max_limit_ok a b : limit_ok a -> limit_ok b -> limit_ok (max_limit a b).
Proof.
  unfold limit_ok. destruct a as [a|], b as [b|]; cbn; intros Ha Hb n [= <-]; auto.
  specialize (Ha a eq_refl). specialize (Hb b eq_refl). lia.
Qed.

Lemma positive_u32_ok v o : positive_u32 v = Ok o -> limit_ok o.
Proof.
  destruct v as [v|]; cbn; [|by intros [= <-] n].
  destruct (json_as_u64 v) as [n|]; [|discriminate].
  destruct (Z.eqb_spec n 0); [discriminate|].
  destruct (is_u32 n) eqn:Hu; [|discriminate]. intros [= <-] ? [= <-].
  unfold is_u32 in Hu. rewrite andb_true_iff, !Z.leb_le in Hu. lia.
Qed.

Lemma limit_step_ok aliases acc g acc' :
  limit_ok acc.1 -> limit_ok acc.2 -> limit_step aliases acc g = Ok acc' ->
  limit_ok acc'.1 /\ limit_ok acc'.2.
Proof.
  intros H1 H2 Hs. unfold limit_step in Hs.
  apply result_bind_ok in Hs as (lim & Hlim & (w & Hw & [= <-])%result_bind_ok). cbn. split.
  - refine (foldl_res_preserves limit_ok (fun limit alias =>
      candidate ← positive_u32 (json_get (g_max_parallel g) alias);
      Ok (max_limit limit candidate)) aliases acc.1 lim _ H1 Hlim).
    intros a x a' Ha (c & Hc & [= <-])%result_bind_ok.
    apply max_limit_ok; [done|by eapply positive_u32_ok].
  - apply max_limit_ok; [done|by eapply positive_u32_ok].
Qed.

(** The effective limit is a positive [u32]. *)
Lemma max_parallel_of_range grants op n : max_parallel_of grants op = Ok n -> 1 <= n <= u32_max.
Proof.
  intros ([o w] & Hf & [= <-])%result_bind_ok.
  pose proof (foldl_res_preserves (fun acc => limit_ok acc.1 /\ limit_ok acc.2)
    (limit_step (matching_tokens (TicketOperation_normalize op))) grants (None, None) (o, w)) as Hp.
  destruct Hp as [Ho Hw]; [|done|done|].
  - intros a x a' [? ?] Hs. by eapply limit_step_ok.
  - cbn in Ho, Hw. destruct o as [o|]; [by apply Ho|]. destruct w as [w|]; [by apply Hw|].
    unfold u32_max. lia.
Qed.

Section capacity.
Context `{Iso8601Laws, SqliteCast}.

(** What the capacity query computes for a canonical token: the sessions of
    the device for an accelerator-bound transcoder, the worker's own held
    leases and grant limit otherwise. *)
Definition capacity_is (d : Db) (worker : Z) (op : TicketOperation)
    (cap : WorkerOperationCapacity) : Prop :=
  worker <= i64_max /\ is_u32 (active_leases cap) = true /\
  match (if String.eqb op (TicketOperation_from OpTranscodeVideo)
         then accelerator_row d worker else None) with
  | Some (_, c) =>
      exists token, head (c_hardware c) = Some token /\
        active_leases cap = device_active_leases d token /\
        sql_min (device_sessions d token) = Some (max_parallel cap) /\
        is_u32 (max_parallel cap) = true
  | None =>
      active_leases cap = worker_active_leases d worker op (workflow_token op) /\
      max_parallel_of (grants_of d worker) op = Ok (max_parallel cap)
  end.

Lemma accelerator_capacity_ok d worker r d' :
  accelerator_operation_capacity worker d = (Ok r, d') <->
  d' = d /\ worker <= i64_max /\
  match accelerator_row d worker with
  | None => r = None
  | Some (_, c) =>
      exists token m, r = Some {| active_leases := device_active_leases d token; max_parallel := m |} /\
        head (c_hardware c) = Some token /\ sql_min (device_sessions d token) = Some m /\
        is_u32 (device_active_leases d token) = true /\ is_u32 m = true
  end.
Proof.
  unfold accelerator_operation_capacity. split.
  - intros Ha. store_inv. destruct (accelerator_row d _) as [[? c]|]; store_inv; [|done].
    eauto 12.
  - intros (-> & Hw & Hr). unfold mbind, tx_mbind, lift, gets, getsR.
    rewrite (proj2 (i64_from_u64_ok _ _) (conj eq_refl Hw)).
    destruct (accelerator_row d worker) as [[? c]|]; [|by subst].
    destruct Hr as (token & m & -> & -> & Hs & Ha & Hm). cbn [ok_or]. rewrite Hs. cbn [ok_or].
    rewrite (proj2 (u32_from_i64_ok _ _) (conj eq_refl Ha)).
    by rewrite (proj2 (u32_from_i64_ok _ _) (conj eq_refl Hm)).
Qed.

Lemma capacity_iff d worker op cap :
  matching_token (TicketOperation_normalize op) = op ->
  operation_capacity_in_tx worker op d = (Ok cap, d) <-> capacity_is d worker op cap.
Proof.
  intros Hop. unfold operation_capacity_in_tx, capacity_is, max_parallel_in_tx. cbv zeta.
  rewrite Hop. fold (workflow_token op).
  destruct (String.eqb op (TicketOperation_from OpTranscodeVideo)); split.
  - intros Hc. store_inv.
    match goal with HA : accelerator_operation_capacity _ _ = _ |- _ =>
      apply accelerator_capacity_ok in HA as (-> & Hw & Hr) end.
    destruct (accelerator_row d worker) as [[? c]|].
    + destruct Hr as (token & m & -> & Ht & Hm & Ha & Hu). store_inv. eauto 10.
    + subst. store_inv. eauto.
  - intros (Hw & Ha & Hr). unfold mbind at 1, tx_mbind at 1.
    destruct (accelerator_row d worker) as [[? c]|] eqn:Erow.
    + destruct Hr as (token & Ht & Hact & Hm & Hu).
      rewrite (proj2 (accelerator_capacity_ok d worker (Some cap) d)); [done|].
      rewrite Erow. split_and!; try done. exists token, (max_parallel cap).
      split_and!; try congruence. rewrite <- Hact. by destruct cap.
    + rewrite (proj2 (accelerator_capacity_ok d worker None d)) by (by rewrite Erow).
      destruct Hr as [Hact Hlim]. unfold mbind, tx_mbind, lift, gets, getsR.
      rewrite (proj2 (i64_from_u64_ok _ _) (conj eq_refl Hw)). rewrite <- Hact.
      rewrite (proj2 (u32_from_i64_ok _ _) (conj eq_refl Ha)), Hlim. by destruct cap.
  - intros Hc. store_inv. eauto.
  - intros (Hw & Ha & Hact & Hlim). unfold mbind, tx_mbind, lift, gets, getsR. cbn.
    rewrite (proj2 (i64_from_u64_ok _ _) (conj eq_refl Hw)). rewrite <- Hact.
    rewrite (proj2 (u32_from_i64_ok _ _) (conj eq_refl Ha)), Hlim. by destruct cap.
Qed.

(** The ticket of a lease is found under the same kind after an update that
    keeps the kind. *)
Lemma kind_insert (P : string -> bool) (m : gmap Z TicketRow) tid t t' k :
  m !! tid = Some t -> t_kind t' = t_kind t ->
  match <[tid := t']> m !! k with Some x => P (t_kind x) | None => false end =
  match m !! k with Some x => P (t_kind x) | None => false end.
Proof.
  intros Ht Hk. destruct (decide (k = tid)) as [->|Hne].
  - by rewrite lookup_insert_eq, Ht, Hk.
  - by rewrite lookup_insert_ne.
Qed.

Lemma provisional_device d tid t ts token :
  tickets d !! tid = Some t ->
  device_active_leases (provisional d tid ts t) token = device_active_leases d token.
Proof.
  intros Ht. unfold device_active_leases. cbn. apply count_where_ext. intros k l _.
  by rewrite (kind_insert names_transcode_video (tickets d) tid t).
Qed.

Lemma provisional_worker d tid t ts worker a b :
  tickets d !! tid = Some t ->
  worker_active_leases (provisional d tid ts t) worker a b = worker_active_leases d worker a b.
Proof.
  intros Ht. unfold worker_active_leases. cbn. apply count_where_ext. intros k l _.
  by rewrite (kind_insert (fun k => String.eqb k a || String.eqb k b) (tickets d) tid t).
Qed.

Lemma provisional_capacity d tid t ts worker op cap :
  tickets d !! tid = Some t ->
  capacity_is (provisional d tid ts t) worker op cap <-> capacity_is d worker op cap.
Proof.
  intros Ht. unfold capacity_is.
  change (accelerator_row (provisional d tid ts t) worker) with (accelerator_row d worker).
  change (grants_of (provisional d tid ts t) worker) with (grants_of d worker).
  rewrite provisional_worker by done.
  destruct (if String.eqb op _ then accelerator_row d worker else None) as [[? c]|]; [|done].
  split; intros (? & ? & token & Hr); do 2 (split; [done|]); exists token;
    rewrite provisional_device in * by done; exact Hr.
Qed.

(** The accelerator row names the device the lease is counted on. *)
Lemma accelerator_row_counts d worker i c token :
  accelerator_row d worker = Some (i, c) -> head (c_hardware c) = Some token ->
  (0 <? count_where (fun _ (c : CapabilityRow) => (c_worker_id c =? worker) &&
     names_transcode_video (c_operation c) && on_device token c) (worker_capabilities d)) = true.
Proof.
  unfold accelerator_row. intros Hrow Htok.
  match type of Hrow with head ?l = _ => assert (In (i, c) l) as [Hc Hb]%select_asc_in end.
  { destruct (select_asc _ _); [discriminate|]. injection Hrow as ->. by left. }
  apply andb_true_iff in Hb as [Hb _]. apply Z.ltb_lt.
  match goal with |- 0 < count_where ?f ?m =>
    pose proof (count_where_pos f m);
    destruct (Z.eq_dec (count_where f m) 0) as [Hz|]; [|lia];
    pose proof (proj1 (count_where_zero f m) Hz i c Hc) as Hf end.
  cbv beta in Hb, Hf. rewrite Hb in Hf. cbn in Hf. unfold on_device in Hf.
  by rewrite bool_decide_eq_true_2 in Hf.
Qed.

(** The new lease counts once. *)
Lemma acquired_device d tid t ts row worker i c token :
  let d1 := provisional d tid ts t in
  tickets d !! tid = Some t -> names_transcode_video (t_kind t) = true ->
  held row = true -> l_ticket_id row = tid -> l_worker_id row = worker ->
  accelerator_row d worker = Some (i, c) -> head (c_hardware c) = Some token ->
  device_active_leases (set_leases (<[next_rowid (leases d) := row]> (leases d)) d1) token =
  device_active_leases d token + 1.
Proof.
  intros d1 Ht Hk Hh Htid Hw Hrow Htok.
  rewrite <- (provisional_device d tid t ts token Ht). unfold device_active_leases.
  cbn -[names_transcode_video].
  rewrite count_where_insert_new by apply next_rowid_fresh. f_equal.
  rewrite Htid, lookup_insert_eq. cbn -[names_transcode_video]. rewrite Hk. unfold held in Hh. rewrite Hh, Hw.
  by rewrite (accelerator_row_counts d worker i c token).
Qed.

Lemma acquired_worker d tid t ts row worker op :
  let d1 := provisional d tid ts t in
  tickets d !! tid = Some t -> t_kind t = op \/ t_kind t = workflow_token op ->
  held row = true -> l_ticket_id row = tid -> l_worker_id row = worker ->
  worker_active_leases (set_leases (<[next_rowid (leases d) := row]> (leases d)) d1) worker op
    (workflow_token op) =
  worker_active_leases d worker op (workflow_token op) + 1.
Proof.
  intros d1 Ht Hk Hh Htid Hw.
  rewrite <- (provisional_worker d tid t ts worker op (workflow_token op) Ht).
  unfold worker_active_leases. cbn. rewrite count_where_insert_new by apply next_rowid_fresh.
  f_equal. rewrite Htid, lookup_insert_eq, Hw, Z.eqb_refl. cbn. unfold held in Hh. rewrite Hh. cbn.
  assert (String.eqb (t_kind t) op || String.eqb (t_kind t) (workflow_token op) = true) as ->;
    [|done].
  apply orb_true_iff. rewrite !String.eqb_eq. done.
Qed.

(** C9: an acquisition keeps the worker within its limit. The load the
    scheduler saw for the ticket's operation was below the limit (the grant
    limit of the worker, or the session limit of the accelerator device it
    is bound to), and the same query after the acquisition reports one
    lease more under the same limit, still at most the limit. *)
Theorem acquire_respects_capacity input d lease d' :
  try_acquire_in_tx input d = (Ok (Acquired lease), d') ->
  exists t active limit,
    let op := matching_token (TicketOperation_normalize (t_kind t)) in
    tickets d !! nl_ticket_id input = Some t /\ 0 <= active < limit /\ limit <= u32_max /\
    operation_capacity_in_tx (nl_worker_id input) op d =
      (Ok {| active_leases := active; max_parallel := limit |}, d) /\
    operation_capacity_in_tx (nl_worker_id input) op d' =
      (Ok {| active_leases := active + 1; max_parallel := limit |}, d').
Proof.
  intros (t & ts & es & el & [active limit] & _ & Ht & Hu & _ & _ & _ & _ & _ & _ & _ & Hcap &
          Hroom & _ & ->)%try_acquire_ok.
  destruct (normalize_matching_token (t_kind t) Hu) as [Hop Hkind].
  set (op := matching_token _) in *. apply Z.ltb_lt in Hroom. cbn in Hroom.
  apply (capacity_iff _ _ op) in Hcap; [|done]. rewrite provisional_capacity in Hcap by done.
  pose proof Hcap as (Hw & Hua & Hr). cbn [active_leases max_parallel] in Hua, Hr.
  unfold is_u32 in Hua. rewrite andb_true_iff, !Z.leb_le in Hua.
  assert (limit <= u32_max) as Hlim.
  { destruct (if String.eqb op _ then accelerator_row d _ else None) as [[? c]|].
    - destruct Hr as (? & _ & _ & _ & Hm). unfold is_u32 in Hm.
      rewrite andb_true_iff, !Z.leb_le in Hm. lia.
    - destruct Hr as [_ Hm]. apply max_parallel_of_range in Hm. lia. }
  exists t, active, limit. fold op. split_and!; try done; [lia|by apply capacity_iff|].
  apply capacity_iff; [done|]. split; [done|]. split.
  { unfold is_u32. rewrite andb_true_iff, !Z.leb_le. cbn. lia. }
  match goal with |- context [accelerator_row ?x _] =>
    change (accelerator_row x (nl_worker_id input)) with (accelerator_row d (nl_worker_id input));
    change (grants_of x (nl_worker_id input)) with (grants_of d (nl_worker_id input)) end.
  destruct (String.eqb_spec op (TicketOperation_from OpTranscodeVideo)) as [Eop|_].
  - destruct (accelerator_row d (nl_worker_id input)) as [[i c]|] eqn:Erow.
    + destruct Hr as (token & Htok & Hact & Hmin & Hm). exists token.
      split_and!; try done. cbn [active_leases]. rewrite (acquired_device d _ t _ _ (nl_worker_id input) i c);
        try done; [by rewrite <- Hact|]. by apply names_transcode_video_kind.
    + destruct Hr as [Hact Hm]. split; [|done]. cbn [active_leases].
      rewrite acquired_worker, <- Hact; done.
  - destruct Hr as [Hact Hm]. split; [|done]. cbn [active_leases].
    rewrite acquired_worker, <- Hact; done.
Qed.
End capacity.

(** ** Outcomes *)

Section outcome.
Context `{Iso8601Laws, SqliteCast}.

(** A ticket that may be leased at an instant: ready, past its backoff, with
    attempts left, and not under a closed job. *)
Definition available (now : Z) (d : Db) (t : TicketRow) : Prop :=
  t_state t = TicketReady /\
  (exists e, format_text e = Some (t_next_eligible_at t) /\ e <= now) /\
  t_attempt t < t_max_attempts t /\
  (forall j, t_job_id t = Some j -> exists jr, jobs d !! j = Some jr /\ j_state jr = JobOpen).

Lemma leasable_available now ts d id t :
  format_text now = Some ts -> ticket_readable id t ->
  leasable d ts t = true <-> available now d t.
Proof.
  intros Hf (_ & _ & _ & _ & _ & [e He] & _).
  rewrite leasable_spec, (text_le_instant _ _ _ _ He Hf), parent_job_open_spec. unfold available.
  split; [naive_solver|]. intros (? & (e' & He' & ?) & ? & ?). split_and!; try done.
  apply parse_format in He, He'. congruence.
Qed.

(** Eligibility does not depend on tickets. *)
Lemma eligibility_provisional d m worker op el :
  operation_eligibility_in_tx worker op (set_tickets m d) = (Ok el, set_tickets m d) <->
  operation_eligibility_in_tx worker op d = (Ok el, d).
Proof.
  unfold operation_eligibility_in_tx, Worker_get_in_tx, mbind, tx_mbind, lift, gets, getsR.
  destruct (i64_from_u64 worker) as [key|]; [|done]. cbn [workers set_tickets].
  change (fun r => row_to_worker (set_tickets m d) (key, r)) with
    (fun r => row_to_worker d (key, r)).
  destruct (transpose _) as [w|]; [|split; discriminate].
  change (grants_of (set_tickets m d) key) with (grants_of d key).
  destruct (grant_flags _ _) as [fl|]; [|split; discriminate].
  change (capabilities_of (set_tickets m d)) with (capabilities_of d).
  unfold mret, tx_mret. split; intros Heq; injection Heq as <-; done.
Qed.

(** An eligible worker exists. *)
Lemma eligible_worker d worker op el d' :
  operation_eligibility_in_tx worker op d = (Ok el, d') -> is_eligible el = true ->
  0 <= worker <= i64_max /\ is_Some (workers d !! worker).
Proof.
  unfold operation_eligibility_in_tx, Worker_get_in_tx. intros He Hel. store_inv.
  destruct (workers _ !! _) as [r|] eqn:Hr; cbn in *.
  - destruct (row_to_worker _ _) as [w|] eqn:Hrow; [|discriminate].
    unfold row_to_worker in Hrow. store_inv. destruct (negb _); [discriminate|]. store_inv.
    cbn in *. split; [lia|done].
  - match goal with HT : Ok _ = Ok _ |- _ => injection HT as HT; subst end. discriminate Hel.
Qed.

(** What each refusal established before it was given. *)
Lemma acquire_refusal_ok input ttl d out d' :
  acquire_guarded input ttl d = (Ok out, d') -> is_acquired out = false ->
  exists t ts,
    let op := matching_token (TicketOperation_normalize (t_kind t)) in
    let d1 := provisional d (nl_ticket_id input) ts t in
    tickets d !! nl_ticket_id input = Some t /\ format_text (nl_now input) = Some ts /\
    match out with
    | Acquired _ => False
    | TicketNotReady id => id = nl_ticket_id input /\ leasable d ts t = false
    | WorkerIneligible w o reason =>
        w = nl_worker_id input /\ o = op /\ leasable d ts t = true /\
        exists el, operation_eligibility_in_tx w o d1 = (Ok el, d1) /\
          ineligibility_reason el = Some reason
    | CapacityFull s =>
        wcs_worker_id s = nl_worker_id input /\ wcs_operation s = op /\
        leasable d ts t = true /\
        (exists el, operation_eligibility_in_tx (nl_worker_id input) op d1 = (Ok el, d1) /\
          ineligibility_reason el = None) /\
        operation_capacity_in_tx (nl_worker_id input) op d1 =
          (Ok {| active_leases := wcs_active_leases s; max_parallel := wcs_max_parallel s |}, d1) /\
        wcs_max_parallel s <= wcs_active_leases s /\
        is_unknown_namespaced (TicketOperation_normalize (t_kind t)) = false
    end.
Proof.
  unfold acquire_guarded. intros Ha Hout. store_inv.
  match goal with HT : Ticket_get_in_tx _ _ = (Ok (Some ?x), _) |- _ =>
    unfold Ticket_get_in_tx in HT; rename x into tk;
    apply get_in_tx_inner_ok in HT as (-> & _ & t & Ht & Hm%row_to_ticket_matches) end.
  pose proof Hm as (_ & _ & Hk & _). rewrite Hk in *.
  destruct (is_unknown_namespaced _) eqn:Hu; [discriminate|]. store_inv.
  exists t. match goal with HF : format_text _ = Some ?x |- _ => exists x end.
  cbv zeta. split; [done|]. split; [done|].
  destruct (update_row _ _ _ _) as [[r m]|] eqn:Hup; store_inv.
  2:{ split; [done|]. unfold update_row in Hup. rewrite Ht in Hup. by destruct (leasable _ _ t). }
  apply update_row_some in Hup as (t0 & Ht0 & Hleas & -> & ->). simplify_eq.
  match goal with HE : operation_eligibility_in_tx _ _ _ = (Ok ?e, _) |- _ =>
    pose proof (reads_eligibility _ _ _ _ _ HE); subst; rename e into el, HE into Hel;
    destruct (ineligibility_reason el) eqn:Hin; store_inv; [eauto 10|] end.
  match goal with HE : operation_capacity_in_tx _ _ _ = (Ok ?c, _) |- _ =>
    pose proof (reads_capacity _ _ _ _ _ HE); subst; rename c into cap end.
  destruct (negb (has_capacity cap)) eqn:Hcap; store_inv.
  - apply negb_true_iff, Z.ltb_ge in Hcap. destruct cap. cbn in *. eauto 12.
  - match goal with HI : insert_lease _ _ _ _ = _ |- _ =>
      apply insert_lease_ok in HI as (? & ? & _ & -> & _) end. discriminate.
Qed.

(** C5: acquisition is all or nothing, and each answer is accurate. An
    error or a refusal leaves the database untouched. [TicketNotReady] is
    given exactly for a ticket that is not available; a worker is refused
    for a real reason of its eligibility and only for an available ticket;
    [CapacityFull] reports the load and the limit the query gives for an
    eligible worker at its limit. A success takes an available ticket of a
    schedulable kind for an eligible worker, writes one held lease for the
    requested time and moves the ticket to leased with one attempt more,
    and nothing else. *)
Theorem try_acquire_outcome input d r d' :
  lifecycle d -> try_acquire_in_tx input d = (r, d') ->
  match r with
  | Err _ => d' = d
  | Ok out => exists t ts,
      let op := matching_token (TicketOperation_normalize (t_kind t)) in
      let worker := nl_worker_id input in
      tickets d !! nl_ticket_id input = Some t /\ format_text (nl_now input) = Some ts /\
      match out with
      | TicketNotReady id =>
          d' = d /\ id = nl_ticket_id input /\ ~ available (nl_now input) d t
      | WorkerIneligible w o reason =>
          d' = d /\ w = worker /\ o = op /\ available (nl_now input) d t /\
          exists el, operation_eligibility_in_tx w o d = (Ok el, d) /\
            is_eligible el = false /\ ineligibility_reason el = Some reason
      | CapacityFull s =>
          d' = d /\ wcs_worker_id s = worker /\ wcs_operation s = op /\
          available (nl_now input) d t /\
          (exists el, operation_eligibility_in_tx worker op d = (Ok el, d) /\
             is_eligible el = true) /\
          operation_capacity_in_tx worker op d =
            (Ok {| active_leases := wcs_active_leases s; max_parallel := wcs_max_parallel s |}, d) /\
          wcs_max_parallel s <= wcs_active_leases s
      | Acquired lease =>
          available (nl_now input) d t /\
          is_unknown_namespaced (TicketOperation_normalize (t_kind t)) = false /\
          (exists el, operation_eligibility_in_tx worker op d = (Ok el, d) /\
             is_eligible el = true) /\
          exists es, format_text (nl_now input + nl_ttl input) = Some es /\
            let row := new_lease_row input ts es (whole_seconds (nl_ttl input)) in
            lease_matches (next_rowid (leases d)) row lease /\
            d' = set_leases (<[next_rowid (leases d) := row]> (leases d))
                   (set_tickets (<[nl_ticket_id input := ticket_leased ts t]> (tickets d)) d)
      end
  end.
Proof.
  intros L Ha. destruct r as [out|e].
  2:{ unfold try_acquire_in_tx in Ha. destruct (_ <=? _); [by injection Ha as ? <-|].
      apply savepoint_cases in Ha as [(? & [=] & _)|]; done. }
  destruct (is_acquired out) eqn:Hacq.
  - pose proof (try_acquire_ok _ _ _ _ Ha) as Hok. destruct out as [lease| | |]; try discriminate.
    destruct Hok as (t & ts & es & el & cap & Httl & Ht & Hu & Hts & Hes & Hleas & _ & _ &
                     Hel & Hnone & _ & _ & [_ Hrow]%row_to_lease_ok & ->).
    exists t, ts. cbv zeta. split_and!; try done.
    + by eapply (leasable_available _ ts _ _ t Hts (lc_tickets d L _ _ Ht)).
    + exists el. split; [by eapply eligibility_provisional|by apply ineligibility_none].
    + exists es. done.
  - unfold try_acquire_in_tx in Ha. destruct (_ <=? _); [discriminate|].
    apply savepoint_ok in Ha as (d1 & Ha & Hd). rewrite Hacq in Hd. subst d'.
    destruct (acquire_refusal_ok _ _ _ _ _ Ha Hacq) as (t & ts & Ht & Hts & Hout).
    exists t, ts. cbv zeta. split; [done|]. split; [done|].
    pose proof (leasable_available _ ts d _ t Hts (lc_tickets d L _ _ Ht)) as Hav.
    destruct out as [lease|s|id|w o reason]; [done| | |].
    + destruct Hout as (? & ? & Hl & (el & Hel & Hn) & Hcap & ? & Hu).
      split_and!; try done; [by apply Hav| |].
      * exists el. split; [by eapply eligibility_provisional|by apply ineligibility_none].
      * destruct (normalize_matching_token (t_kind t) Hu) as [Hop _].
        apply capacity_iff in Hcap; [|done]. apply capacity_iff; [done|].
        by apply provisional_capacity in Hcap.
    + destruct Hout as [-> Hl]. split_and!; try done. rewrite <- Hav. congruence.
    + destruct Hout as (-> & -> & Hl & el & Hel & Hn). split_and!; try done; [by apply Hav|].
      exists el. split; [by eapply eligibility_provisional|]. split; [|done].
      destruct (is_eligible el) eqn:E; [|done]. apply ineligibility_none in E. congruence.
Qed.

Lemma new_lease_readable input ts es ttl n :
  0 < n -> 0 <= nl_ticket_id input -> 0 <= nl_worker_id input ->
  format_text (nl_now input) = Some ts -> format_text (nl_now input + nl_ttl input) = Some es ->
  lease_readable n (new_lease_row input ts es ttl).
Proof.
  intros. unfold lease_readable, lease_row_ok. cbn.
  split_and!; try done; try lia; by eapply format_stamped.
Qed.

Lemma insert_lease_run input ts es ttl d t :
  format_text (nl_now input) = Some ts -> format_text (nl_now input + nl_ttl input) = Some es ->
  tickets d !! nl_ticket_id input = Some t -> is_Some (workers d !! nl_worker_id input) ->
  0 <= nl_ticket_id input <= i64_max -> 0 <= nl_worker_id input <= i64_max -> 0 < ttl ->
  next_rowid (leases d) <= i64_max ->
  exists lease, (insert_lease input ts ttl d).1 = Ok (Acquired lease).
Proof.
  intros Hts Hes Ht Hw Hti Hwi Httl Hn.
  pose proof (next_rowid_pos (leases d)) as Hpos.
  destruct (row_to_lease_total (next_rowid (leases d)) (new_lease_row input ts es ttl))
    as (lease & Hrow & _); [by apply new_lease_readable; try lia|].
  exists lease. unfold insert_lease, get_lease_in_tx, mbind, tx_mbind, lift, gets, getsR, modify.
  rewrite (proj2 (iso8601_ok _ _) Hes).
  rewrite (proj2 (i64_from_u64_ok _ (nl_ticket_id input)) (conj eq_refl (proj2 Hti))).
  rewrite (proj2 (i64_from_u64_ok _ (nl_worker_id input)) (conj eq_refl (proj2 Hwi))).
  rewrite (bool_decide_eq_true_2 _ (mk_is_Some _ _ Ht)), (bool_decide_eq_true_2 _ Hw).
  rewrite (proj2 (Z.ltb_lt 0 ttl) Httl). cbn [negb andb].
  rewrite (proj2 (u64_from_i64_ok (next_rowid (leases d)) _) (conj eq_refl (Z.lt_le_incl _ _ Hpos))).
  rewrite (proj2 (i64_from_u64_ok (next_rowid (leases d)) _) (conj eq_refl Hn)).
  cbn [leases set_leases]. rewrite lookup_insert_eq. cbn [fmap option_fmap option_map].
  by rewrite Hrow.
Qed.

(** C10: work that can run is given out. An available ticket of a
    schedulable kind, asked for by an eligible worker that is below its
    limit, with a time to live of at least a second and an expiry that can
    be written, is acquired: no further condition can refuse it. *)
Theorem try_acquire_progress input d t el cap ts es :
  let op := matching_token (TicketOperation_normalize (t_kind t)) in
  lifecycle d -> tickets d !! nl_ticket_id input = Some t -> available (nl_now input) d t ->
  is_unknown_namespaced (TicketOperation_normalize (t_kind t)) = false ->
  operation_eligibility_in_tx (nl_worker_id input) op d = (Ok el, d) -> is_eligible el = true ->
  operation_capacity_in_tx (nl_worker_id input) op d = (Ok cap, d) -> has_capacity cap = true ->
  duration_seconds 1 <= nl_ttl input ->
  format_text (nl_now input) = Some ts -> format_text (nl_now input + nl_ttl input) = Some es ->
  nl_ticket_id input <= i64_max -> next_rowid (leases d) <= i64_max ->
  exists lease d', try_acquire_in_tx input d = (Ok (Acquired lease), d').
Proof.
  intros op L Ht Hav Hu Hel Hie Hcap Hroom Httl Hts Hes Hti Hn.
  assert (0 < whole_seconds (nl_ttl input)) as Hpos.
  { unfold whole_seconds, duration_seconds, NANOS_PER_SEC in *.
    rewrite Z.quot_div_nonneg by lia. apply Z.div_str_pos. lia. }
  destruct (eligible_worker _ _ _ _ _ Hel Hie) as [Hwi Hw].
  pose proof (lc_tickets d L _ _ Ht) as Hrd.
  assert (leasable d ts t = true) as Hleas by (by eapply leasable_available).
  destruct (row_to_ticket_total _ t Hrd) as (tk & Htk & (_ & _ & Hk & _)).
  destruct (normalize_matching_token (t_kind t) Hu) as [Hop _].
  set (d1 := provisional d (nl_ticket_id input) ts t).
  assert (operation_eligibility_in_tx (nl_worker_id input) op d1 = (Ok el, d1)) as Hel1
    by (by apply eligibility_provisional).
  assert (operation_capacity_in_tx (nl_worker_id input) op d1 = (Ok cap, d1)) as Hcap1.
  { apply capacity_iff in Hcap; [|done]. apply capacity_iff; [done|].
    by apply provisional_capacity. }
  destruct (insert_lease_run input ts es (whole_seconds (nl_ttl input)) d1 (ticket_leased ts t))
    as [lease Hins]; try done.
  { cbn. by rewrite lookup_insert_eq. }
  { destruct Hrd as [? _]. lia. }
  exists lease. unfold try_acquire_in_tx. rewrite (proj2 (Z.leb_gt _ _) Hpos).
  enough (acquire_guarded input (whole_seconds (nl_ttl input)) d =
          insert_lease input ts (whole_seconds (nl_ttl input)) d1) as E.
  { unfold savepoint. rewrite E. destruct (insert_lease _ _ _ d1) as [r d2]. cbn in Hins. subst r.
    cbn. eauto. }
  unfold acquire_guarded, Ticket_get_in_tx, get_in_tx_inner, mbind, tx_mbind, lift, gets, getsR, modify.
  rewrite (proj2 (i64_from_u64_ok _ (nl_ticket_id input)) (conj eq_refl Hti)), Ht.
  cbn [fmap option_fmap option_map]. rewrite Htk. cbn [transpose ok_or]. rewrite Hk, Hu.
  rewrite (proj2 (iso8601_ok _ _) Hts).
  unfold update_row. rewrite Ht, Hleas. fold (provisional d (nl_ticket_id input) ts t). fold d1 op.
  rewrite Hel1, (proj2 (ineligibility_none el) Hie), Hcap1, Hroom. done.
Qed.
End outcome.
