(* ===== verification/Settlement.v ===== *)
(** * Heartbeats and settlement

    The exact outcome of heartbeats, releases, failures and force-releases on
    a database that satisfies the lifecycle invariant: when each is accepted,
    what it writes, and that a refusal writes nothing. *)

From S2P Require Import Prelude Json Vocab Operations Store Jobs Tickets Workers.
From S2P Require Import Leases Lifecycle.
From Stdlib Require Import ZArith Lia Bool String.
From stdpp Require Import base gmap strings list.

Open Scope Z_scope.

Section settlement.
Context `{Iso8601Laws, SqliteCast}.

(** ** Running the two halves of a settlement *)

(** No held lease under the id. *)
Definition no_hold (d : Db) (lid : Z) : Prop :=
  forall l, leases d !! lid = Some l -> held l = false.

Lemma hold_cases d lid :
  lifecycle d -> no_hold d lid \/ exists l t, holding d lid l t.
Proof.
  intros L. destruct (leases d !! lid) as [l|] eqn:Hl.
  - destruct (held l) eqn:Hh.
    + right. destruct (lc_lease_refs d L _ _ Hl) as [[t Ht] _].
      exists l, t. split_and!; try done. by eapply (lc_held_leased d L).
    + left. intros l' Hl'. congruence.
  - left. intros l' Hl'. congruence.
Qed.

Lemma close_held_lease_refused d lid st reason ts :
  lid <= i64_max -> no_hold d lid -> close_held_lease lid st reason ts d = (Err EConflict, d).
Proof.
  intros Hi Hn. unfold close_held_lease, mbind, tx_mbind, lift, gets.
  rewrite (proj2 (i64_from_u64_ok _ lid) (conj eq_refl Hi)). unfold update_row.
  destruct (leases d !! lid) as [l|] eqn:Hl; [|done]. by rewrite (Hn l).
Qed.

Lemma close_held_lease_run d lid l st reason ts :
  lifecycle d -> lid <= i64_max -> leases d !! lid = Some l -> held l = true -> stamped ts ->
  exists lease,
    close_held_lease lid st reason ts d =
      (Ok lease, set_leases (<[lid := lease_closed st reason ts l]> (leases d)) d) /\
    lease_matches lid (lease_closed st reason ts l) lease.
Proof.
  intros L Hi Hl Hh Hts.
  destruct (row_to_lease_total lid (lease_closed st reason ts l)) as (lease & Hrow & Hm).
  { apply lease_closed_readable; [done|]. exact (lc_leases d L _ _ Hl). }
  exists lease. split; [|done]. unfold close_held_lease, mbind, tx_mbind, lift, gets, modify.
  rewrite (proj2 (i64_from_u64_ok _ lid) (conj eq_refl Hi)). unfold update_row.
  by rewrite Hl, Hh, Hrow.
Qed.

Lemma move_leased_ticket_run d tid t upd :
  tickets d !! tid = Some t -> t_state t = TicketLeased ->
  move_leased_ticket tid upd d = (Ok tt, set_tickets (<[tid := upd t]> (tickets d)) d).
Proof.
  intros Ht Hs. unfold move_leased_ticket, mbind, tx_mbind, gets, update_row, in_state, modify.
  by rewrite Ht, (bool_decide_eq_true_2 _ Hs).
Qed.

Lemma held_probe_none d lid : no_hold d lid -> held_probe d lid = None.
Proof.
  intros Hn. unfold held_probe. destruct (leases d !! lid) as [l|] eqn:Hl; [|done]. cbn.
  by rewrite (Hn l).
Qed.

Lemma held_probe_holding d lid l t :
  holding d lid l t -> held_probe d lid = Some (l_ticket_id l, t_attempt t, t_max_attempts t).
Proof. intros (Hl & Hh & Ht & _). apply held_probe_some. eauto 8. Qed.

Lemma holding_ids d lid l t :
  lifecycle d -> holding d lid l t ->
  0 <= l_ticket_id l /\ is_u32 (t_attempt t) = true /\ is_u32 (t_max_attempts t) = true.
Proof.
  intros L Hh. destruct (holding_ticket d lid l t L Hh) as ((? & _ & _ & ? & ? & _) & _). done.
Qed.

(** Row ids are [i64] values: SQLite refuses to insert past the largest. *)
Definition rowids_fit (d : Db) : Prop :=
  map_Forall (fun k _ => k <= i64_max) (tickets d) /\
  map_Forall (fun k _ => k <= i64_max) (leases d).

Lemma holding_fits d lid l t :
  rowids_fit d -> holding d lid l t -> lid <= i64_max /\ l_ticket_id l <= i64_max.
Proof. intros [Ft Fl] (Hl & _ & Ht & _). split; [exact (Fl _ _ Hl)|exact (Ft _ _ Ht)]. Qed.

(** Closing the lease and moving its ticket, as the operations compose them. *)
Lemma settle_run {A} d lid l t st reason ts upd (k : Lease -> M A) :
  lifecycle d -> lid <= i64_max -> holding d lid l t -> stamped ts ->
  exists lease,
    lease_matches lid (lease_closed st reason ts l) lease /\
    (lease ← close_held_lease lid st reason ts;
     _ ← move_leased_ticket (l_ticket_id l) upd; k lease) d =
    k lease (settled d lid l st reason ts (upd t)).
Proof.
  intros L Hi (Hl & Hh & Ht & Hs) Hts.
  destruct (close_held_lease_run d lid l st reason ts) as (lease & Hrun & Hm); [done..|].
  exists lease. split; [done|]. unfold mbind, tx_mbind. rewrite Hrun.
  by rewrite (move_leased_ticket_run _ _ t).
Qed.

(** ** Release *)

(** a release is accepted exactly for a held lease. It closes the lease
    as released and moves its ticket to succeeded with the worker's result,
    both at the given instant, and returns the closed lease; for any other
    lease it is a conflict and nothing is written. *)
Theorem release_outcome lid result now ts d :
  lifecycle d -> rowids_fit d -> lid <= i64_max -> format_text now = Some ts ->
  (no_hold d lid /\ release_in_tx lid result now d = (Err EConflict, d)) \/
  exists l t lease,
    holding d lid l t /\
    release_in_tx lid result now d =
      (Ok lease, settled d lid l LeaseReleased ReasonReleased ts
                   (ticket_with_result result (ticket_moved TicketSucceeded ts t))) /\
    lease_matches lid (lease_closed LeaseReleased ReasonReleased ts l) lease.
Proof.
  intros L F Hi Hf.
  assert (forall r, (lease ← close_held_lease lid LeaseReleased ReasonReleased ts;
      ticket ← lift (i64_from_u64 (lease_ticket_id lease));
      _ ← move_leased_ticket ticket
            (fun r => ticket_with_result result (ticket_moved TicketSucceeded ts r));
      mret lease) d = r -> release_in_tx lid result now d = r) as Hrel.
  { intros r <-. unfold release_in_tx, mbind at 1, tx_mbind at 1, lift at 1.
    by rewrite (proj2 (iso8601_ok _ _) Hf). }
  destruct (hold_cases d lid L) as [Hn|(l & t & Hh)].
  - left. split; [done|]. apply Hrel. unfold mbind, tx_mbind.
    by rewrite close_held_lease_refused.
  - right. pose proof Hh as (Hl & Hhl & Ht & Hs).
    destruct (close_held_lease_run d lid l LeaseReleased ReasonReleased ts) as (lease & Hrun & Hm);
      [done..|by eapply format_stamped|].
    exists l, t, lease. split; [done|]. split; [|done]. apply Hrel.
    pose proof Hm as (_ & Htid & _). cbn in Htid. unfold mbind, tx_mbind. rewrite Hrun, Htid.
    unfold lift. rewrite (proj2 (i64_from_u64_ok _ (l_ticket_id l))
      (conj eq_refl (proj2 (holding_fits d lid l t F Hh)))).
    by rewrite (move_leased_ticket_run _ _ t).
Qed.

(** ** Failure *)

(** a failure report is accepted exactly for a held lease. When the
    failure class is retriable and an attempt is left, the ticket goes back
    to ready, eligible again after the backoff of its attempt; otherwise it
    fails for good. The lease is closed with the matching reason; the
    attempt counter is not touched. For any other lease it is a conflict
    and nothing is written. *)
Theorem fail_outcome lid class now draw ts d :
  lifecycle d -> lid <= i64_max -> format_text now = Some ts ->
  (no_hold d lid /\ fail_in_tx lid class now draw d = (Err EConflict, d)) \/
  exists l t,
    holding d lid l t /\
    if FailureClass_is_retriable class && (t_attempt t <? t_max_attempts t) then
      forall es, format_text (now + default_backoff (t_attempt t) draw) = Some es ->
      exists lease,
        fail_in_tx lid class now draw d =
          (Ok lease, settled d lid l LeaseReleased ReasonFailedRetriable ts (requeued ts es t)) /\
        lease_matches lid (lease_closed LeaseReleased ReasonFailedRetriable ts l) lease
    else exists lease,
      fail_in_tx lid class now draw d =
        (Ok lease, settled d lid l LeaseReleased ReasonFailedTerminal ts (failed ts t)) /\
      lease_matches lid (lease_closed LeaseReleased ReasonFailedTerminal ts l) lease.
Proof.
  intros L Hi Hf.
  destruct (hold_cases d lid L) as [Hn|(l & t & Hh)].
  - left. split; [done|]. unfold fail_in_tx, mbind, tx_mbind, lift, gets.
    rewrite (proj2 (i64_from_u64_ok _ lid) (conj eq_refl Hi)). by rewrite held_probe_none.
  - right. exists l, t. split; [done|]. destruct (holding_ids d lid l t L Hh) as (Ht0 & Ha & _).
    assert (stamped ts) as Hts by (by eapply format_stamped).
    assert (forall r, (let retry := FailureClass_is_retriable class && (t_attempt t <? t_max_attempts t) in
      lease ← close_held_lease lid LeaseReleased
                (if retry then ReasonFailedRetriable else ReasonFailedTerminal) ts;
      _ ← (if retry then
             attempt_u32 ← lift (u32_from_i64 (t_attempt t));
             next_eligible ← lift (iso8601 (now + default_backoff attempt_u32 draw));
             move_leased_ticket (l_ticket_id l)
               (fun r => ticket_with_eligible next_eligible (ticket_moved TicketReady ts r))
           else move_leased_ticket (l_ticket_id l) (ticket_moved TicketFailed ts));
      mret lease) d = r -> fail_in_tx lid class now draw d = r) as Hrun.
    { intros r <-. unfold fail_in_tx, mbind at 1, tx_mbind at 1, lift at 1.
      rewrite (proj2 (i64_from_u64_ok _ lid) (conj eq_refl Hi)).
      unfold mbind at 1, tx_mbind at 1, gets at 1. rewrite (held_probe_holding d lid l t Hh).
      unfold mbind at 1, tx_mbind at 1, lift at 1.
      rewrite (proj2 (u64_from_i64_ok _ (l_ticket_id l)) (conj eq_refl Ht0)).
      unfold mbind at 1, tx_mbind at 1, lift at 1. by rewrite (proj2 (iso8601_ok _ _) Hf). }
    destruct (FailureClass_is_retriable class && _) eqn:Hre.
    + intros es Hes.
      destruct (settle_run d lid l t LeaseReleased ReasonFailedRetriable ts
        (requeued ts es) mret L Hi Hh Hts) as (lease & Hm & Hset).
      exists lease. split; [|done]. apply Hrun. cbv zeta.
      etransitivity; [|exact Hset]. unfold mbind, tx_mbind, lift.
      by rewrite (proj2 (u32_from_i64_ok _ (t_attempt t)) (conj eq_refl Ha)),
        (proj2 (iso8601_ok _ _) Hes).
    + destruct (settle_run d lid l t LeaseReleased ReasonFailedTerminal ts
        (failed ts) mret L Hi Hh Hts) as (lease & Hm & Hset).
      exists lease. split; [|done]. apply Hrun. exact Hset.
Qed.

(** ** Force-release *)

(** a force-release is accepted exactly for a held lease, except that
    a requeue is refused when no attempt is left. It closes the lease as
    force-released; the ticket is requeued at once when that was asked for
    and fails for good otherwise; the outcome reports what was done. A
    refusal is a conflict and writes nothing. *)
Theorem force_release_outcome lid also now ts d :
  lifecycle d -> lid <= i64_max -> format_text now = Some ts ->
  (no_hold d lid /\ force_release_in_tx lid also now d = (Err EConflict, d)) \/
  exists l t,
    holding d lid l t /\
    if also && (t_max_attempts t <=? t_attempt t) then
      force_release_in_tx lid also now d = (Err EConflict, d)
    else exists lease,
      force_release_in_tx lid also now d =
        (Ok {| fro_lease := lease; fro_ticket_requeued := also; fro_attempt := t_attempt t;
               fro_max_attempts := t_max_attempts t |},
         settled d lid l LeaseForceReleased ReasonForceReleased ts
           (if also then requeued ts ts t else failed ts t)) /\
      lease_matches lid (lease_closed LeaseForceReleased ReasonForceReleased ts l) lease.
Proof.
  intros L Hi Hf.
  destruct (hold_cases d lid L) as [Hn|(l & t & Hh)].
  - left. split; [done|]. unfold force_release_in_tx, mbind, tx_mbind, lift, gets.
    rewrite (proj2 (i64_from_u64_ok _ lid) (conj eq_refl Hi)). by rewrite held_probe_none.
  - right. exists l, t. split; [done|]. destruct (holding_ids d lid l t L Hh) as (Ht0 & Ha & Hm).
    assert (stamped ts) as Hts by (by eapply format_stamped).
    destruct (settle_run d lid l t LeaseForceReleased ReasonForceReleased ts
      (if also then requeued ts ts else failed ts)
      (fun lease => mret {| fro_lease := lease; fro_ticket_requeued := also;
         fro_attempt := t_attempt t; fro_max_attempts := t_max_attempts t |}) L Hi Hh Hts)
      as (lease & Hlm & Hset).
    assert (force_release_in_tx lid also now d =
      if also && (t_max_attempts t <=? t_attempt t) then (Err EConflict, d) else
      (lease ← close_held_lease lid LeaseForceReleased ReasonForceReleased ts;
       _ ← move_leased_ticket (l_ticket_id l) (if also then requeued ts ts else failed ts);
       mret {| fro_lease := lease; fro_ticket_requeued := also; fro_attempt := t_attempt t;
               fro_max_attempts := t_max_attempts t |}) d) as ->.
    { unfold force_release_in_tx, force_release_lease_in_tx, mbind, tx_mbind, lift, gets.
      rewrite (proj2 (i64_from_u64_ok _ lid) (conj eq_refl Hi)), (held_probe_holding d lid l t Hh).
      rewrite (proj2 (u64_from_i64_ok _ (l_ticket_id l)) (conj eq_refl Ht0)).
      destruct (also && _); [done|]. rewrite (proj2 (iso8601_ok _ _) Hf).
      destruct (close_held_lease _ _ _ _ d) as [[?|?] d1]; [|done].
      change (fun r => ticket_with_eligible ts (ticket_moved TicketReady ts r))
        with (requeued ts ts). change (ticket_moved TicketFailed ts) with (failed ts).
      rewrite (proj2 (u32_from_i64_ok _ _) (conj eq_refl Ha)),
        (proj2 (u32_from_i64_ok _ _) (conj eq_refl Hm)). by destruct also. }
    destruct (also && _) eqn:Hb; [done|]. exists lease. split; [|done].
    destruct also; exact Hset.
Qed.

(** ** Heartbeats *)

Lemma text_max_instant e1 e2 s1 s2 :
  format_text e1 = Some s1 -> format_text e2 = Some s2 ->
  format_text (Z.max e1 e2) = Some (text_max s1 s2).
Proof.
  intros F1 F2. unfold text_max. destruct (text_lt s1 s2) eqn:E.
  - apply (text_lt_instant _ _ _ _ F1 F2) in E. by rewrite Z.max_r by lia.
  - assert (~ e1 < e2) by (rewrite <- (text_lt_instant _ _ _ _ F1 F2); congruence).
    by rewrite Z.max_l by lia.
Qed.

(** a heartbeat is accepted exactly while the lease is held and its
    deadline has not been reached. The new deadline is the later of the old
    one and now plus the time to live, so a heartbeat never shortens a
    lease; nothing but the lease row changes. After the deadline, or for a
    closed or unknown lease, it is a conflict and nothing is written. *)
Theorem heartbeat_outcome lid ttl now ns es d :
  lifecycle d -> lid <= i64_max ->
  format_text now = Some ns -> format_text (now + ttl) = Some es ->
  match leases d !! lid with
  | None => heartbeat_in_tx lid ttl now d = (Err EConflict, d)
  | Some l => exists e, parse_text (l_expires_at l) = Some e /\
      if held l && (now <? e) then
        exists lease,
          heartbeat_in_tx lid ttl now d =
            (Ok lease, set_leases (<[lid := lease_beaten ns es l]> (leases d)) d) /\
          lease_matches lid (lease_beaten ns es l) lease /\
          lease_expires_at lease = Z.max e (now + ttl) /\ lease_last_heartbeat_at lease = now
      else heartbeat_in_tx lid ttl now d = (Err EConflict, d)
  end.
Proof.
  intros L Hi Hn He.
  assert (heartbeat_in_tx lid ttl now d = (res ← gets (fun d => update_row lid
      (fun r => held r && text_lt ns (l_expires_at r)) (lease_beaten ns es) (leases d));
    match res with
    | None =>
        found ← get_lease_in_tx lid;
        match found with
        | None => throw EConflict
        | Some lease =>
            if negb (bool_decide (lease_state lease = LeaseHeld)) then throw EConflict else
            if lease_expires_at lease <=? now then throw EConflict else throw EConflict
        end
    | Some (_, leases') =>
        _ ← modify (set_leases leases');
        found ← get_lease_in_tx lid; lift (ok_or found EInternal)
    end) d) as ->.
  { unfold heartbeat_in_tx, mbind at 1 2 3, tx_mbind at 1 2 3, lift at 1 2 3.
    rewrite (proj2 (iso8601_ok _ _) Hn), (proj2 (iso8601_ok _ _) He).
    by rewrite (proj2 (i64_from_u64_ok _ lid) (conj eq_refl Hi)). }
  assert (forall d1, get_lease_in_tx lid d1 =
    (transpose ((fun r => row_to_lease (lid, r)) <$> (leases d1 !! lid)), d1)) as Hget.
  { intros d1. unfold get_lease_in_tx, mbind, tx_mbind, lift.
    by rewrite (proj2 (i64_from_u64_ok _ lid) (conj eq_refl Hi)). }
  unfold mbind, tx_mbind, gets, update_row.
  destruct (leases d !! lid) as [l|] eqn:Hl; [|by rewrite Hget, Hl].
  pose proof (lc_leases d L _ _ Hl) as Hrd. pose proof Hrd as (_ & _ & _ & _ & [e Hx] & _).
  exists e. split; [by apply parse_format|].
  assert (text_lt ns (l_expires_at l) = (now <? e)) as -> by by apply format_order.
  destruct (held l && (now <? e)).
  - destruct (row_to_lease_total lid (lease_beaten ns es l)) as (lease & Hrow & Hm).
    { apply lease_beaten_readable; [by eapply format_stamped..|done]. }
    exists lease. unfold modify. rewrite Hget. cbn. rewrite lookup_insert_eq. cbn. rewrite Hrow.
    split; [done|]. split; [done|]. destruct Hm as (_ & _ & _ & _ & _ & He' & Hb & _).
    cbn in He', Hb. rewrite (parse_format _ _ (text_max_instant _ _ _ _ Hx He)) in He'.
    rewrite (parse_format _ _ Hn) in Hb. by simplify_eq.
  - rewrite Hget, Hl. cbn. destruct (row_to_lease_total lid l Hrd) as (lease & -> & _). cbn.
    destruct (negb _); [done|]. by destruct (_ <=? _).
Qed.
End settlement.
