(* ===== verification/ControlPlane.v ===== *)
(** * Control-plane use cases

    [voom-control-plane/src/cases/execution]: each handler runs the repository
    operations and appends its audit events in one transaction, so a failure
    anywhere leaves nothing behind. The audit log of
    [voom-store/src/repo/audit/events.rs] and the terminal-failure issues of
    [voom-store/src/repo/issues.rs] are here as the handlers use them. *)

From S2P Require Import Prelude Json Vocab Operations Store Jobs Tickets Workers.
From S2P Require Import Leases Lifecycle.
From Stdlib Require Import ZArith Lia Bool String Ascii.
From stdpp Require Import base gmap strings list sorting relations pretty.

Open Scope Z_scope.

(** ** Audit fields *)

(** The bytes of a character with the Unicode [White_Space] property at the
    front of a UTF-8 text, and the rest. *)
Definition strip_whitespace (s : string) : option string :=
  match s with
  | String a s1 =>
      let n := nat_of_ascii a in
      if ((9 <=? n) && (n <=? 13) || (n =? 32))%nat then Some s1 else
      match s1 with
      | String b s2 =>
          let m := nat_of_ascii b in
          if (n =? 194)%nat && ((m =? 133) || (m =? 160))%nat then Some s2 else
          match s2 with
          | String c s3 =>
              let k := nat_of_ascii c in
              if ((n =? 225) && (m =? 154) && (k =? 128))%nat
                 || ((n =? 226) && (m =? 128) &&
                     ((128 <=? k) && (k <=? 138) || (k =? 168) || (k =? 169) || (k =? 175)))%nat
                 || ((n =? 226) && (m =? 129) && (k =? 159))%nat
                 || ((n =? 227) && (m =? 128) && (k =? 128))%nat
              then Some s3 else None
          | EmptyString => None
          end
      | EmptyString => None
      end
  | EmptyString => None
  end.

(** [value.trim().is_empty()]; every round removes at least one byte. *)
Fixpoint blank_fuel (fuel : nat) (s : string) : bool :=
  match s, fuel with
  | EmptyString, _ => true
  | _, O => false
  | _, S fuel' => match strip_whitespace s with Some s' => blank_fuel fuel' s' | None => false end
  end.
Definition blank (s : string) : bool := blank_fuel (String.length s) s.

Definition require_audit_field (value : string) : Res unit :=
  if blank value then Err EConfig else Ok tt.

(** [{class:?}]. *)
Definition FailureClass_debug (c : FailureClass) : string :=
  match c with
  | FC_WorkerTimeout => "WorkerTimeout"
  | FC_WorkerCrash => "WorkerCrash"
  | FC_NoEligibleWorker => "NoEligibleWorker"
  | FC_ArtifactUnavailable => "ArtifactUnavailable"
  | FC_ArtifactChecksumMismatch => "ArtifactChecksumMismatch"
  | FC_ExternalSystemUnavailable => "ExternalSystemUnavailable"
  | FC_ExternalSystemRateLimited => "ExternalSystemRateLimited"
  | FC_VerificationFailure => "VerificationFailure"
  | FC_BackupFailure => "BackupFailure"
  | FC_CommitFailure => "CommitFailure"
  | FC_PolicyParseError => "PolicyParseError"
  | FC_PolicyValidationError => "PolicyValidationError"
  | FC_MissingCapability => "MissingCapability"
  | FC_MalformedWorkerResult => "MalformedWorkerResult"
  | FC_UserCancellation => "UserCancellation"
  | FC_MalformedMedia => "MalformedMedia"
  | FC_StaleIdentityEvidence => "StaleIdentityEvidence"
  | FC_ClosureResolutionIncomplete => "ClosureResolutionIncomplete"
  | FC_BlockedByActiveUseLease => "BlockedByActiveUseLease"
  | FC_ApprovalRequired => "ApprovalRequired"
  | FC_PriorityPolicyConflict => "PriorityPolicyConflict"
  | FC_ProgressTimeout => "ProgressTimeout"
  | FC_AmbiguousWorkerSelection => "AmbiguousWorkerSelection"
  end.

(** [format!("{}", id)] of a [u64] newtype. *)
Definition id_text (id : Z) : string := pretty (Z.to_N id).

Record TerminalFailureIssueDraft := {
  df_ticket_id : Z; df_lease_id : option Z; df_severity : IssueSeverity;
  df_priority : IssuePriority; df_priority_reason : string; df_title : string; df_body : string;
}.

Definition terminal_failure_dedupe_key (ticket_id : Z) : string :=
  String.append "terminal_failure:ticket:" (id_text ticket_id).

Record PreLeaseFailureOutcome := { plo_ticket : Ticket; plo_terminal : bool }.

Definition pre_lease_failure_reason (class : FailureClass) : Res string :=
  match class with
  | FC_NoEligibleWorker => Ok "no eligible worker before lease acquisition"%string
  | FC_AmbiguousWorkerSelection => Ok "ambiguous worker selection before lease acquisition"%string
  | _ => Err EConfig
  end.

Section control_plane.
Context `{Iso8601, SqliteCast}.

(** ** Audit log *)

Definition append_event (subject_type : SubjectType) (subject_id : option Z) (occurred_at : Z)
    (payload : Event) : M unit :=
  occurred ← lift (iso8601 occurred_at);
  subject ← lift (transpose (i64_from_u64 <$> subject_id));
  modify (fun d => set_events (events d ++ [{|
    e_occurred_at := occurred; e_subject_type := subject_type; e_subject_id := subject;
    e_payload := payload |}]) d).

(** ** Terminal-failure issues *)

Definition issue_with_key (d : Db) (dedupe_key : string) : option Z :=
  fst <$> head (select_asc (fun _ i => bool_decide (is_dedupe_key i = Some dedupe_key)) (issues d)).

Definition select_terminal_failure_id (dedupe_key : string) : M (option Z) :=
  getsR (fun d => transpose (u64_from_i64 <$> (fst <$> head (select_asc (fun _ i =>
    String.eqb (is_kind i) "terminal_failure" &&
    bool_decide (is_dedupe_key i = Some dedupe_key)) (issues d))))).

Definition insert_issue_link (issue_id : Z) (link_kind : string) (target_id : Z)
    (timestamp : string) : M unit :=
  issue ← lift (i64_from_u64 issue_id);
  target ← lift (i64_from_u64 target_id);
  fk ← gets (fun d => bool_decide (is_Some (issues d !! issue)));
  if negb fk then throw EDatabase else
  modify (fun d => set_issues (issues d) (issue_links d ++ [{|
    il_issue_id := issue; il_link_type := link_kind; il_target_id := target;
    il_created_at := timestamp |}]) d).

(** The insert fails on the unique index on [dedupe_key]. *)
Definition open_terminal_failure_in_tx (draft : TerminalFailureIssueDraft) (now : Z) : M Z :=
  let dedupe_key := terminal_failure_dedupe_key (df_ticket_id draft) in
  timestamp ← lift (iso8601 now);
  taken ← gets (fun d => bool_decide (is_Some (issue_with_key d dedupe_key)));
  if (taken : bool) then
    existing ← select_terminal_failure_id dedupe_key;
    lift (ok_or existing EDatabase)
  else
    rowid ← gets (fun d => next_rowid (issues d));
    _ ← modify (fun d => set_issues (<[rowid := {|
      is_kind := "terminal_failure"; is_severity := df_severity draft;
      is_priority := df_priority draft; is_priority_source := "system";
      is_priority_reason := Some (df_priority_reason draft); is_status := "open";
      is_title := df_title draft; is_body := df_body draft; is_created_at := timestamp;
      is_updated_at := timestamp; is_dedupe_key := Some dedupe_key |}]> (issues d))
      (issue_links d) d);
    issue_id ← lift (u64_from_i64 rowid);
    _ ← insert_issue_link issue_id "ticket" (df_ticket_id draft) timestamp;
    _ ← (match df_lease_id draft with
         | Some lease => insert_issue_link issue_id "lease" lease timestamp
         | None => mret tt
         end);
    mret issue_id.

Definition open_terminal_failure_issue_in_tx (ticket_id : Z) (lease_id : option Z)
    (class : FailureClass) (reason : string) (now : Z) : M Z :=
  open_terminal_failure_in_tx {|
    df_ticket_id := ticket_id; df_lease_id := lease_id;
    df_severity := FailureClass_issue_severity class;
    df_priority := FailureClass_issue_priority class;
    df_priority_reason := String.append "terminal failure classified " (FailureClass_debug class);
    df_title := String.append "Terminal failure on ticket " (id_text ticket_id);
    df_body := reason |} now.

(** ** Jobs *)

Definition open_job_in_tx (input : NewJob) : M Job :=
  job ← Job_create_in_tx input;
  _ ← append_event SubjectJob (Some (job_id job)) (nj_created_at input)
        (EvJobOpened (job_id job) (nj_kind input) (nj_priority input));
  mret job.

Definition open_job (input : NewJob) : M Job := atomically (open_job_in_tx input).

Definition succeed_job (id now : Z) : M Job := atomically (
  job ← Job_succeed_in_tx id now;
  _ ← append_event SubjectJob (Some id) now (EvJobSucceeded id);
  mret job).

Definition fail_job (id : Z) (reason : string) (now : Z) : M Job := atomically (
  _ ← lift (require_audit_field reason);
  job ← Job_fail_in_tx id now;
  _ ← append_event SubjectJob (Some id) now (EvJobFailed id reason);
  mret job).

Definition cancel_job (id : Z) (reason : string) (now : Z) : M Job := atomically (
  _ ← lift (require_audit_field reason);
  job ← Job_cancel_in_tx id now;
  _ ← append_event SubjectJob (Some id) now (EvJobCancelled id reason);
  mret job).

(** ** Tickets *)

Definition create_ticket_in_tx (input : NewTicket) : M Ticket :=
  ticket ← Ticket_create_in_tx input;
  _ ← append_event SubjectTicket (Some (ticket_id ticket)) (nt_created_at input)
        (EvTicketCreated (ticket_id ticket) (nt_job_id input) (nt_kind input)
           (nt_priority input) (nt_max_attempts input));
  mret ticket.

Definition create_ticket (input : NewTicket) : M Ticket :=
  atomically (create_ticket_in_tx input).

(** The promotion step shared by the gate and by release. *)
Definition cp_mark_ready_if_unblocked_in_tx (ticket_id now : Z) : M (list Ticket) :=
  promoted ← mark_ready_if_unblocked_in_tx ticket_id now;
  _ ← for_each (fun t => append_event SubjectTicket (Some (Tickets.ticket_id t)) now
                           (EvTicketReady (Tickets.ticket_id t))) promoted;
  mret promoted.

Definition cp_mark_ready_if_unblocked (ticket_id now : Z) : M (list Ticket) :=
  atomically (cp_mark_ready_if_unblocked_in_tx ticket_id now).

Definition require_no_held_lease (ticket_id : Z) : M unit :=
  held ← has_held_for_ticket_in_tx ticket_id;
  if (held : bool) then throw EConflict else mret tt.

Definition transition_pre_lease_failure_ticket (ticket : Ticket) (next_attempt : Z)
    (terminal : bool) (now draw : Z) : M Ticket :=
  let transition :=
    if terminal then PreLeaseTerminal
    else PreLeaseRetryAt (now + default_backoff next_attempt draw) in
  transition_ready_before_lease_failure_in_tx (ticket_id ticket) (ticket_attempt ticket)
    next_attempt transition now.

Definition emit_pre_lease_failure_event (ticket : Ticket) (terminal : bool) (reason : string)
    (class : FailureClass) (now : Z) : M unit :=
  if terminal then
    issue_id ← open_terminal_failure_issue_in_tx (ticket_id ticket) None class reason now;
    append_event SubjectTicket (Some (ticket_id ticket)) now
      (EvTicketFailedTerminal (ticket_id ticket) (ticket_attempt ticket)
         (ticket_max_attempts ticket) reason class (Some issue_id))
  else
    append_event SubjectTicket (Some (ticket_id ticket)) now
      (EvTicketFailedRetriable (ticket_id ticket) (ticket_attempt ticket)
         (ticket_max_attempts ticket) reason class (ticket_next_eligible_at ticket)).

Definition record_pre_lease_ticket_failure (ticket_id : Z) (class : FailureClass)
    (now draw : Z) : M PreLeaseFailureOutcome := atomically (
  reason ← lift (pre_lease_failure_reason class);
  found ← Ticket_get_in_tx ticket_id;
  ticket ← lift (ok_or found ENotFound);
  _ ← require_no_held_lease ticket_id;
  if negb (bool_decide (ticket_state ticket = TicketReady)) then throw EConflict else
  if now <? ticket_next_eligible_at ticket then throw EConflict else
  next_attempt ← lift (if is_u32 (ticket_attempt ticket + 1)
                       then Ok (ticket_attempt ticket + 1) else Err EInternal);
  let terminal :=
    bool_decide (class = FC_AmbiguousWorkerSelection) ||
    (ticket_max_attempts ticket <=? next_attempt) in
  ticket ← transition_pre_lease_failure_ticket ticket next_attempt terminal now draw;
  _ ← emit_pre_lease_failure_event ticket terminal reason class now;
  mret {| plo_ticket := ticket; plo_terminal := terminal |}).

(** ** Leases *)

Definition try_acquire_lease_in_tx (input : NewLease) : M LeaseAcquireOutcome :=
  outcome ← try_acquire_in_tx input;
  match outcome with
  | Acquired lease =>
      _ ← append_event SubjectLease (Some (lease_id lease)) (nl_now input)
            (EvLeaseAcquired (lease_id lease) (lease_ticket_id lease) (lease_worker_id lease)
               (lease_ttl_seconds lease) (lease_expires_at lease));
      found ← Ticket_get_in_tx (lease_ticket_id lease);
      ticket ← lift (ok_or found EInternal);
      _ ← append_event SubjectTicket (Some (ticket_id ticket)) (nl_now input)
            (EvTicketLeased (ticket_id ticket) (lease_id lease) (lease_worker_id lease)
               (ticket_attempt ticket));
      mret outcome
  | _ => mret outcome
  end.

Definition try_acquire_lease (input : NewLease) : M LeaseAcquireOutcome :=
  atomically (try_acquire_lease_in_tx input).

Definition acquire_lease_in_tx (input : NewLease) : M Lease :=
  outcome ← try_acquire_lease_in_tx input; lift (into_lease_result outcome).

Definition acquire_lease (input : NewLease) : M Lease := atomically (acquire_lease_in_tx input).

(** [release_reason.map(as_str).unwrap_or_default()]. *)
Definition reason_text (lease : Lease) : string :=
  match lease_release_reason lease with
  | Some r => ReleaseReason_as_str r
  | None => EmptyString
  end.

Definition release_lease_in_tx (lease_id : Z) (result : Json) (now : Z) : M Lease :=
  lease ← release_in_tx lease_id result now;
  _ ← append_event SubjectLease (Some (Leases.lease_id lease)) now
        (EvLeaseReleased (Leases.lease_id lease) (lease_ticket_id lease) (reason_text lease));
  _ ← append_event SubjectTicket (Some (lease_ticket_id lease)) now
        (EvTicketSucceeded (lease_ticket_id lease) (Leases.lease_id lease));
  dependents ← list_dependents_in_tx (lease_ticket_id lease);
  _ ← for_each (fun dep =>
        _ ← cp_mark_ready_if_unblocked_in_tx (ticket_id dep) now; mret tt) dependents;
  mret lease.

Definition release_lease (lease_id : Z) (result : Json) (now : Z) : M Lease :=
  atomically (release_lease_in_tx lease_id result now).

Definition fail_lease_in_tx (lease_id : Z) (reason : string) (class : FailureClass)
    (now draw : Z) : M Lease :=
  lease ← fail_in_tx lease_id class now draw;
  _ ← append_event SubjectLease (Some (Leases.lease_id lease)) now
        (EvLeaseReleased (Leases.lease_id lease) (lease_ticket_id lease) (reason_text lease));
  found ← Ticket_get_in_tx (lease_ticket_id lease);
  ticket ← lift (ok_or found EInternal);
  match ticket_state ticket with
  | TicketReady =>
      _ ← append_event SubjectTicket (Some (ticket_id ticket)) now
            (EvTicketFailedRetriable (ticket_id ticket) (ticket_attempt ticket)
               (ticket_max_attempts ticket) reason class (ticket_next_eligible_at ticket));
      mret lease
  | TicketFailed =>
      issue_id ← open_terminal_failure_issue_in_tx (ticket_id ticket)
                   (Some (Leases.lease_id lease)) class reason now;
      _ ← append_event SubjectTicket (Some (ticket_id ticket)) now
            (EvTicketFailedTerminal (ticket_id ticket) (ticket_attempt ticket)
               (ticket_max_attempts ticket) reason class (Some issue_id));
      mret lease
  | _ => throw EInternal
  end.

Definition fail_lease (lease_id : Z) (reason : string) (class : FailureClass) (now draw : Z) :
    M Lease :=
  atomically (fail_lease_in_tx lease_id reason class now draw).

Definition emit_expire_pair (lease_id ticket_id : Z) (report : ExpireReport) (now : Z) :
    M unit :=
  _ ← append_event SubjectLease (Some lease_id) now (EvLeaseExpired lease_id ticket_id);
  if existsb (Z.eqb ticket_id) (requeued_tickets report) then
    append_event SubjectTicket (Some ticket_id) now
      (EvTicketRequeuedAfterLeaseExpiry ticket_id lease_id)
  else
    failed ← lift (ok_or (List.find (fun f => fe_ticket_id f =? ticket_id)
                            (failed_expiries report)) EInternal);
    let reason := "lease expired with no retries remaining"%string in
    issue_id ← open_terminal_failure_issue_in_tx ticket_id (Some lease_id) FC_WorkerCrash
                 reason now;
    append_event SubjectTicket (Some ticket_id) now
      (EvTicketFailedTerminal ticket_id (fe_attempt failed) (fe_max_attempts failed) reason
         FC_WorkerCrash (Some issue_id)).

Definition force_release_lease (lease_id : Z) (actor reason : string) (also_requeue : bool)
    (now : Z) : M ForceReleaseOutcome := atomically (
  _ ← lift (require_audit_field actor);
  _ ← lift (require_audit_field reason);
  outcome ← force_release_in_tx lease_id also_requeue now;
  let lease := fro_lease outcome in
  _ ← append_event SubjectLease (Some (Leases.lease_id lease)) now
        (EvLeaseForceReleased (Leases.lease_id lease) (lease_ticket_id lease) actor reason
           also_requeue);
  _ ← (if fro_ticket_requeued outcome then
         append_event SubjectTicket (Some (lease_ticket_id lease)) now
           (EvTicketRequeuedAfterForceRelease (lease_ticket_id lease) (Leases.lease_id lease)
              actor reason)
       else
         let reason := "force-released without requeue"%string in
         issue_id ← open_terminal_failure_issue_in_tx (lease_ticket_id lease)
                      (Some (Leases.lease_id lease)) FC_UserCancellation reason now;
         append_event SubjectTicket (Some (lease_ticket_id lease)) now
           (EvTicketFailedTerminal (lease_ticket_id lease) (fro_attempt outcome)
              (fro_max_attempts outcome) reason FC_UserCancellation (Some issue_id)));
  mret outcome).
End control_plane.
