(* ===== verification/System.v ===== *)
(** * The execution system

    The operations of the execution core as commands on one database, each in
    its own transaction, in any order. Two things hold whatever the sequence:
    the lifecycle invariant, and that history only moves forward. *)

From S2P Require Import Prelude Json Vocab Operations Store Jobs Tickets Workers.
From S2P Require Import Leases Lifecycle Expiry ControlPlane.
From Stdlib Require Import ZArith Lia Bool String.
From stdpp Require Import base gmap strings list sorting relations.

Open Scope Z_scope.

(** ** Relations between states *)

(** Every successful run of [m] relates the state before to the state after. *)
Definition within {S E A} (R : S -> S -> Prop) (m : Tx S E A) : Prop :=
  forall s a s', m s = (Ok a, s') -> R s s'.

Section within.
Context {S E : Type} (R : S -> S -> Prop) `{!PreOrder R}.

Lemma within_reads {A} (m : Tx S E A) : tx_reads m -> within R m.
Proof. intros Hm s a s' ->%Hm. reflexivity. Qed.

Lemma within_bind {A B} (m : Tx S E A) (f : A -> Tx S E B) :
  within R m -> (forall a, within R (f a)) -> within R (m ≫= f).
Proof.
  intros Hm Hf s b s'' (a & s' & H1 & H2)%tx_bind_ok. transitivity s'; [by eapply Hm|].
  by eapply Hf.
Qed.

Lemma within_modify f : (forall s, R s (f s)) -> within R (modify f : Tx S E unit).
Proof. intros Hf s a s' [= _ <-]. apply Hf. Qed.

Lemma within_if {A} (b : bool) (m1 m2 : Tx S E A) :
  within R m1 -> within R m2 -> within R (if b then m1 else m2).
Proof. by destruct b. Qed.

Lemma within_for_each {A} (f : A -> Tx S E unit) l :
  (forall x, within R (f x)) -> within R (for_each f l).
Proof.
  intros Hf. induction l as [|x l IH]; [intros s a s' Hr; injection Hr as _ <-; reflexivity|].
  apply (within_bind (f x)); auto.
Qed.

Lemma within_fold_tx {A B} (f : B -> A -> Tx S E B) b l :
  (forall b x, within R (f b x)) -> within R (fold_tx f b l).
Proof.
  intros Hf. revert b; induction l as [|x l IH]; intros b; [intros s a s' Hr; injection Hr as _ <-; reflexivity|].
  apply (within_bind (f b x)); auto.
Qed.

Lemma within_atomically {A} (m : Tx S E A) : within R m -> within R (atomically m).
Proof. intros Hm s a s' Ha. apply (Hm s a). by apply atomically_ok. Qed.

(** A transaction relates its states whatever it returns. *)
Lemma within_result {A} (m : Tx S E A) s r s' : within R m -> atomically m s = (r, s') -> R s s'.
Proof.
  intros Hm Ha. apply atomically_cases in Ha as [(a & _ & Ha)| ->]; [by eapply Hm|reflexivity].
Qed.
End within.

(** Rows are never deleted, and each row moves along [R]. *)
Definition rows_le {A} (R : A -> A -> Prop) (m m' : gmap Z A) : Prop :=
  forall k x, m !! k = Some x -> exists x', m' !! k = Some x' /\ R x x'.

#[global] Instance rows_le_preorder {A} (R : A -> A -> Prop) `{!PreOrder R} : PreOrder (rows_le R).
Proof.
  split.
  - intros m k x Hk. exists x. split; [done|reflexivity].
  - intros m1 m2 m3 H12 H23 k x (y & Hy & Hxy)%H12. apply H23 in Hy as (z & Hz & Hyz).
    exists z. split; [done|]. by transitivity y.
Qed.

Lemma rows_le_insert {A} (R : A -> A -> Prop) `{!Reflexive R} (m : gmap Z A) k x x' :
  m !! k = Some x -> R x x' -> rows_le R m (<[k := x']> m).
Proof.
  intros Hk Hx i y Hi. destruct (decide (i = k)) as [->|Hne].
  - rewrite lookup_insert_eq. exists x'. split; [done|]. by simplify_eq.
  - rewrite lookup_insert_ne by done. eauto.
Qed.

Lemma rows_le_new {A} (R : A -> A -> Prop) `{!Reflexive R} (m : gmap Z A) k x :
  m !! k = None -> rows_le R m (<[k := x]> m).
Proof.
  intros Hk i y Hi. rewrite lookup_insert_ne by (intros ->; congruence). eauto.
Qed.

(** ** How rows evolve *)

Definition ticket_terminal (t : TicketRow) : Prop :=
  t_state t = TicketSucceeded \/ t_state t = TicketFailed.

(** The identity of a ticket is fixed, its attempt counter and epoch never go
    back, it never returns to pending, and a terminal ticket is frozen. *)
Definition ticket_le (t t' : TicketRow) : Prop :=
  (t_job_id t' = t_job_id t /\ t_kind t' = t_kind t /\ t_priority t' = t_priority t /\
   t_payload t' = t_payload t /\ t_max_attempts t' = t_max_attempts t /\
   t_created_at t' = t_created_at t) /\
  t_attempt t <= t_attempt t' /\ t_epoch t <= t_epoch t' /\
  (t_state t <> TicketPending -> t_state t' <> TicketPending) /\
  (ticket_terminal t -> t' = t).

#[global] Instance ticket_le_preorder : PreOrder ticket_le.
Proof.
  split.
  - intros t. unfold ticket_le. split_and!; done || lia.
  - intros t1 t2 t3 ((? & ? & ? & ? & ? & ?) & ? & ? & P1 & T1)
      ((? & ? & ? & ? & ? & ?) & ? & ? & P2 & T2).
    unfold ticket_le. split_and!; try congruence; try lia; [auto|].
    intros Ht. pose proof (T1 Ht) as ->. auto.
Qed.

(** A lease keeps its ticket, worker and acquisition; its epoch never goes
    back, its deadline is never moved forward in time, and a closed lease is
    frozen. *)
Definition lease_le (l l' : LeaseRow) : Prop :=
  (l_ticket_id l' = l_ticket_id l /\ l_worker_id l' = l_worker_id l /\
   l_acquired_at l' = l_acquired_at l /\ l_ttl_seconds l' = l_ttl_seconds l) /\
  l_epoch l <= l_epoch l' /\ text_le (l_expires_at l) (l_expires_at l') = true /\
  (held l = false -> l' = l).

#[global] Instance lease_le_preorder : PreOrder lease_le.
Proof.
  split.
  - intros l. unfold lease_le. split_and!; try done; try lia. apply text_le_spec. by right.
  - intros l1 l2 l3 ((? & ? & ? & ?) & ? & ? & T1) ((? & ? & ? & ?) & ? & ? & T2).
    unfold lease_le. split_and!; try congruence; try lia; try (by eapply text_le_trans);
      try (intros Ht; pose proof (T1 Ht) as ->; auto).
Qed.

(** A job keeps its identity, and a closed job is frozen. *)
Definition job_le (j j' : JobRow) : Prop :=
  (j_kind j' = j_kind j /\ j_priority j' = j_priority j /\ j_created_at j' = j_created_at j) /\
  j_epoch j <= j_epoch j' /\ (j_state j <> JobOpen -> j' = j).

#[global] Instance job_le_preorder : PreOrder job_le.
Proof.
  split.
  - intros j. unfold job_le. split_and!; done || lia.
  - intros j1 j2 j3 ((? & ? & ?) & ? & T1) ((? & ? & ?) & ? & T2).
    unfold job_le. split_and!; try congruence; try lia.
    intros Ht. pose proof (T1 Ht) as ->. auto.
Qed.

(** The whole database: nothing is forgotten, and the audit log only grows. *)
Record evolves (d d' : Db) : Prop := {
  ev_jobs : rows_le job_le (jobs d) (jobs d');
  ev_tickets : rows_le ticket_le (tickets d) (tickets d');
  ev_leases : rows_le lease_le (leases d) (leases d');
  ev_workers : rows_le (fun _ _ => True) (workers d) (workers d');
  ev_dependencies : ticket_dependencies d ⊆ ticket_dependencies d';
  ev_issues : issues d ⊆ issues d';
  ev_events : events d `prefix_of` events d';
}.

#[global] Instance true_preorder {A} : PreOrder (fun _ _ : A => True).
Proof. by split. Qed.

#[global] Instance evolves_preorder : PreOrder evolves.
Proof.
  split.
  - intros d. by split.
  - intros d1 d2 d3 [] []. split; by etransitivity.
Qed.

(** ** Writes that evolve the database *)

Lemma evolves_ticket d k t t' :
  tickets d !! k = Some t -> ticket_le t t' ->
  evolves d (set_tickets (<[k := t']> (tickets d)) d).
Proof. intros Ht Hle. split; cbn; try done. by eapply rows_le_insert; [apply _|..]. Qed.

Lemma evolves_lease d k l l' :
  leases d !! k = Some l -> lease_le l l' -> evolves d (set_leases (<[k := l']> (leases d)) d).
Proof. intros Hl Hle. split; cbn; try done. by eapply rows_le_insert; [apply _|..]. Qed.

Lemma lease_closed_le l st reason ts : held l = true -> lease_le l (lease_closed st reason ts l).
Proof.
  intros Hh. unfold lease_le. cbn. split_and!; try done; try lia; [|congruence].
  apply text_le_spec. by right.
Qed.

(** Solves [ticket_le] for a row update of a ticket that is not terminal. *)
Ltac solve_ticket_le :=
  unfold ticket_le, ticket_terminal; cbn; split_and!; try done; try lia; try congruence;
  try (intros [?|?]; congruence).

Lemma evolves_settled d lid l t st reason ts t' :
  holding d lid l t -> ticket_le t t' -> evolves d (settled d lid l st reason ts t').
Proof.
  intros (Hl & Hh & Ht & _) Hle. unfold settled.
  transitivity (set_leases (<[lid := lease_closed st reason ts l]> (leases d)) d).
  - by eapply evolves_lease, lease_closed_le.
  - by eapply (evolves_ticket (set_leases _ d)).
Qed.

Lemma requeued_le ts es t : t_state t = TicketLeased -> ticket_le t (requeued ts es t).
Proof. intros Hs. solve_ticket_le. Qed.
Lemma failed_le ts t : t_state t = TicketLeased -> ticket_le t (failed ts t).
Proof. intros Hs. solve_ticket_le. Qed.

(** Only the tables of workers, nodes and claims change, and no worker goes. *)
Record workers_only (d d' : Db) : Prop := {
  wo_jobs : jobs d' = jobs d; wo_tickets : tickets d' = tickets d;
  wo_dependencies : ticket_dependencies d' = ticket_dependencies d;
  wo_leases : leases d' = leases d; wo_issues : issues d' = issues d;
  wo_events : events d' = events d;
  wo_workers : rows_le (fun _ _ => True) (workers d) (workers d');
}.

#[global] Instance workers_only_preorder : PreOrder workers_only.
Proof.
  split.
  - intros d. by split.
  - intros d1 d2 d3 [] []. split; try congruence. by etransitivity.
Qed.

Lemma workers_only_evolves d d' : workers_only d d' -> evolves d d'.
Proof. intros [E1 E2 E3 E4 E5 E6 E7]. split; try done; by rewrite ?E1, ?E2, ?E3, ?E4, ?E5, ?E6. Qed.

(** Only the audit log and the issues change, by addition. *)
Record logs_only (d d' : Db) : Prop := {
  lo_jobs : jobs d' = jobs d; lo_tickets : tickets d' = tickets d;
  lo_dependencies : ticket_dependencies d' = ticket_dependencies d;
  lo_leases : leases d' = leases d; lo_workers : workers d' = workers d;
  lo_issues : issues d ⊆ issues d'; lo_events : events d `prefix_of` events d';
}.

#[global] Instance logs_only_preorder : PreOrder logs_only.
Proof.
  split.
  - intros d. by split.
  - intros d1 d2 d3 [] []. split; try congruence; by etransitivity.
Qed.

Lemma logs_only_evolves d d' : logs_only d d' -> evolves d d'.
Proof. intros [E1 E2 E3 E4 E5 E6 E7]. split; try done; by rewrite ?E1, ?E2, ?E3, ?E4, ?E5. Qed.

Section effects_on_history.
Context `{Iso8601Laws, SqliteCast}.

Lemma workers_only_lifecycle d d' : workers_only d d' -> lifecycle d -> lifecycle d'.
Proof.
  intros [E1 E2 E3 E4 _ _ E7]. apply lifecycle_frame; try done.
  - intros k [w Hw]. apply E7 in Hw as (w' & -> & _). eauto.
  - by rewrite E1.
Qed.

Lemma logs_only_lifecycle d d' : logs_only d d' -> lifecycle d -> lifecycle d'.
Proof.
  intros [E1 E2 E3 E4 E5 _ _]. apply lifecycle_frame; try done; [by rewrite E5|by rewrite E1].
Qed.

(** *** The audit log and issues *)

Lemma append_event_ok st sid at_ ev d a d' :
  append_event st sid at_ ev d = (Ok a, d') ->
  exists ts, format_text at_ = Some ts /\
    d' = set_events (events d ++ [{| e_occurred_at := ts; e_subject_type := st;
                                     e_subject_id := sid; e_payload := ev |}]) d.
Proof.
  unfold append_event. intros Ha. store_inv.
  match goal with HT : transpose _ = Ok _ |- _ => apply transpose_i64_ok in HT as [-> ?] end.
  eauto.
Qed.

Lemma logs_append_event st sid at_ ev : within logs_only (append_event st sid at_ ev).
Proof. intros d a d' (ts & _ & ->)%append_event_ok. split; cbn; try done. by eexists. Qed.

Lemma logs_insert_link issue kind target ts :
  within logs_only (insert_issue_link issue kind target ts).
Proof.
  intros d [] d' Hi. unfold insert_issue_link in Hi. store_inv.
  destruct (negb _); [discriminate|]. store_inv. by split.
Qed.

Lemma logs_open_terminal_failure draft now : within logs_only (open_terminal_failure_in_tx draft now).
Proof.
  unfold open_terminal_failure_in_tx.
  apply within_bind; [apply _|apply within_reads; [apply _|auto with voom]|]. intros ts.
  apply within_bind; [apply _|apply within_reads; [apply _|auto with voom]|]. intros [].
  { apply within_reads; [apply _|]. unfold select_terminal_failure_id. auto with voom. }
  intros d id d' Hr. store_inv.
  transitivity (set_issues (<[next_rowid (issues d) := {|
      is_kind := "terminal_failure"; is_severity := df_severity draft;
      is_priority := df_priority draft; is_priority_source := "system";
      is_priority_reason := Some (df_priority_reason draft); is_status := "open";
      is_title := df_title draft; is_body := df_body draft; is_created_at := ts;
      is_updated_at := ts; is_dedupe_key := Some (terminal_failure_dedupe_key (df_ticket_id draft))
    |}]> (issues d)) (issue_links d) d).
  { split; cbn; try done. apply insert_subseteq, next_rowid_fresh. }
  etransitivity; [by eapply logs_insert_link|].
  destruct (df_lease_id draft); store_inv; [by eapply logs_insert_link|done].
Qed.

Lemma logs_terminal_issue ticket lease class reason now :
  within logs_only (open_terminal_failure_issue_in_tx ticket lease class reason now).
Proof. apply logs_open_terminal_failure. Qed.

Lemma logs_emit_pre_lease ticket terminal reason class now :
  within logs_only (emit_pre_lease_failure_event ticket terminal reason class now).
Proof.
  unfold emit_pre_lease_failure_event. destruct terminal; [|apply logs_append_event].
  apply within_bind; [apply _|apply logs_terminal_issue|]. intros; apply logs_append_event.
Qed.

Lemma logs_emit_expire lease ticket report now :
  within logs_only (emit_expire_pair lease ticket report now).
Proof.
  unfold emit_expire_pair. apply within_bind; [apply _|apply logs_append_event|]. intros _.
  destruct (existsb _ _); [apply logs_append_event|].
  apply within_bind; [apply _|apply within_reads; [apply _|auto with voom]|]. intros f.
  apply within_bind; [apply _|apply logs_terminal_issue|]. intros; apply logs_append_event.
Qed.

(** *** Workers *)

(** Reads off a worker row update. *)
Lemma workers_only_update d k cond upd row m :
  update_row k cond upd (workers d) = Some (row, m) -> workers_only d (set_workers m d).
Proof.
  intros (r & Hr & _ & _ & ->)%update_row_some. split; cbn; try done.
  by eapply rows_le_insert; [by intros ?|..].
Qed.

(** Steps over the reads of a worker operation. *)
Ltac worker_inv :=
  repeat (store_inv;
    match goal with
    | HW : Worker_get_in_tx _ _ = (_, _) |- _ => apply reads_worker_get in HW; subst
    | HW : (if ?b then _ else _) _ = (Ok _, _) |- _ =>
        let E := fresh "Eb" in destruct b eqn:E; try discriminate HW
    | HU : match update_row ?k ?c ?u ?m with _ => _ end _ = (Ok _, _) |- _ =>
        let E := fresh "Eu" in destruct (update_row k c u m) as [[? ?]|] eqn:E;
        try discriminate HU
    end); store_inv.

Lemma workers_register input : within workers_only (register_in_tx input).
Proof.
  intros d w d' Hr. unfold register_in_tx in Hr. worker_inv. split; cbn; try done.
  apply rows_le_new; [by intros ?|apply next_rowid_fresh].
Qed.

Lemma workers_bind worker node inc : within workers_only (bind_incarnation_in_tx worker node inc).
Proof.
  intros d w d' Hr. unfold bind_incarnation_in_tx in Hr. worker_inv.
  by eapply workers_only_update.
Qed.

Lemma workers_owned worker node inc :
  tx_reads (incarnation_owned_worker_in_tx worker node inc).
Proof.
  unfold incarnation_owned_worker_in_tx, node_owned_worker_in_tx.
  auto 12 using reads_worker_get with voom.
Qed.

Lemma workers_readiness worker node inc r :
  within workers_only (set_remote_readiness_in_tx worker node inc r).
Proof.
  intros d w d' Hr. unfold set_remote_readiness_in_tx in Hr. worker_inv.
  match goal with HO : incarnation_owned_worker_in_tx _ _ _ _ = _ |- _ =>
    apply workers_owned in HO; subst end.
  destruct (worker_status _); try discriminate; worker_inv; by eapply workers_only_update.
Qed.

Lemma workers_retire id epoch now : within workers_only (retire_in_tx id epoch now).
Proof.
  intros d w d' Hr. unfold retire_in_tx in Hr. worker_inv.
  match goal with HU : update_row _ _ _ (workers ?d1) = _ |- _ =>
    transitivity d1; [by split|by eapply workers_only_update] end.
Qed.

Lemma workers_retire_live inc now :
  within workers_only (retire_live_for_incarnation_in_tx inc now).
Proof.
  unfold retire_live_for_incarnation_in_tx.
  apply within_bind; [apply _|apply within_reads; [apply _|auto with voom]|]. intros rows.
  apply within_fold_tx; [apply _|]. intros acc [k r] d l d' Hr. cbn in Hr. worker_inv.
  by eapply workers_retire.
Qed.

Lemma workers_capability input : within workers_only (record_capability_in_tx input).
Proof. intros d c d' Hr. unfold record_capability_in_tx in Hr. worker_inv. by split. Qed.

Lemma workers_grant input : within workers_only (record_grant_in_tx input).
Proof. intros d g d' Hr. unfold record_grant_in_tx in Hr. worker_inv. by split. Qed.

Lemma workers_claim input : within workers_only (claim_in_tx input).
Proof.
  intros d c d' Hr. unfold claim_in_tx in Hr. worker_inv. by split.
Qed.

(** The limit upsert commits on its own, also when the row it wrote does not
    decode. *)
Lemma workers_node_limit node limit now d r d' :
  set_node_limit node limit now d = (r, d') -> workers_only d d'.
Proof.
  unfold set_node_limit, mbind, tx_mbind, lift, gets, modify, throw.
  destruct (limit =? 0); [by intros [= _ <-]|].
  destruct (iso8601 now); [|by intros [= _ <-]].
  destruct (i64_from_u64 node); [|by intros [= _ <-]].
  destruct (negb _); [by intros [= _ <-]|]. intros Hr. injection Hr as _ <-. by split.
Qed.

(** *** Jobs, tickets and leases *)

Lemma evolves_job_create input : within evolves (Job_create_in_tx input).
Proof.
  intros d j d' (ts & _ & _ & _ & ->)%Job_create_ok. split; cbn; try done.
  apply rows_le_new; [apply _|apply next_rowid_fresh].
Qed.

Lemma evolves_job_close id next now : within evolves (transition_open_to id next now).
Proof.
  intros d j d' (r & ts & Hr & Hs & _ & -> & _)%transition_open_to_ok. split; cbn; try done.
  eapply rows_le_insert; [apply _|done|]. unfold job_le. cbn. split_and!; try done; lia.
Qed.

Lemma evolves_ticket_create input : within evolves (Ticket_create_in_tx input).
Proof.
  intros d t d' (ts & _ & _ & _ & _ & ->)%Ticket_create_ok. split; cbn; try done.
  apply rows_le_new; [apply _|apply next_rowid_fresh].
Qed.

Lemma evolves_add_dependency t p : within evolves (add_dependency_in_tx t p).
Proof.
  intros d [] d' (r & _ & _ & _ & _ & _ & _ & ->)%add_dependency_ok. split; cbn; try done.
  apply union_subseteq_r.
Qed.

Lemma evolves_mark_ready id now : within evolves (mark_ready_if_unblocked_in_tx id now).
Proof.
  intros d l d' [(_ & -> & _)|(r & ts & t & Hr & Hs & _ & _ & _ & _ & ->)]%mark_ready_ok;
    [reflexivity|].
  eapply evolves_ticket; [done|]. solve_ticket_le.
Qed.

Lemma evolves_transition id prev next tr now :
  prev <= next -> within evolves (transition_ready_before_lease_failure_in_tx id prev next tr now).
Proof.
  intros Hle d t d' (r & ns & es & st & Hr & Hs & <- & _ & _ & Htr & -> & _)%transition_ready_ok.
  assert (st <> TicketPending) by (destruct tr, Htr; congruence).
  eapply evolves_ticket; [done|]. solve_ticket_le.
Qed.

Lemma evolves_try_acquire input : within evolves (try_acquire_in_tx input).
Proof.
  intros d out d' Ha%try_acquire_ok. destruct out as [lease| | |]; try by subst.
  destruct Ha as (t & ts & es & el & cap & _ & Ht & _ & _ & _ & (Hs & _)%leasable_spec & _ & _ &
                  _ & _ & _ & _ & _ & ->).
  transitivity (provisional d (nl_ticket_id input) ts t).
  - eapply evolves_ticket; [done|]. solve_ticket_le.
  - split; cbn; try done. apply rows_le_new; [apply _|apply next_rowid_fresh].
Qed.

Lemma evolves_heartbeat lid ttl now : within evolves (heartbeat_in_tx lid ttl now).
Proof.
  intros d lease d' (l & ns & es & Hl & Hh & _ & _ & _ & _ & ->)%heartbeat_ok.
  eapply evolves_lease; [done|]. unfold lease_le. cbn.
  split_and!; try done; try lia; [apply text_max_le_l|congruence].
Qed.

Lemma evolves_release lid result now : within evolves (release_in_tx lid result now).
Proof.
  intros d lease d' (l & t & ts & Hh & _ & _ & ->)%release_in_tx_ok.
  eapply evolves_settled; [done|]. destruct Hh as (_ & _ & _ & Hs). solve_ticket_le.
Qed.

Lemma evolves_fail lid class now draw : within evolves (fail_in_tx lid class now draw).
Proof.
  intros d lease d' (l & t & ts & t' & reason & Hh & _ & _ & -> & Hfate)%fail_in_tx_ok.
  eapply evolves_settled; [done|]. destruct Hh as (_ & _ & _ & Hs).
  destruct (retries class t); [destruct Hfate as (_ & _ & es & _ & ->)|destruct Hfate as (_ & ->)].
  - by apply requeued_le.
  - by apply failed_le.
Qed.

Lemma evolves_force_release lid also now : within evolves (force_release_in_tx lid also now).
Proof.
  intros d out d' (l & t & ts & Hh & _ & _ & _ & _ & _ & _ & ->)%force_release_ok.
  eapply evolves_settled; [done|]. destruct Hh as (_ & _ & _ & Hs).
  destruct also; [by apply requeued_le|by apply failed_le].
Qed.

Lemma evolves_expire now : within evolves (expire_due_in_tx now).
Proof.
  unfold expire_due_in_tx.
  do 3 (apply within_bind; [apply _|apply within_reads; [apply _|auto with voom]|];
        let x := fresh "x" in intros x).
  apply within_fold_tx; [apply _|]. intros rep [lid tid] d rep' d' Hp.
  apply process_expired_ok in Hp as (l & t & a & m & Hl & Hh & Ht & Hs & _ & -> & _).
  transitivity (set_leases (<[lid := lease_closed LeaseExpired ReasonIssuerLost x l]> (leases d)) d).
  - by eapply evolves_lease, lease_closed_le.
  - eapply (evolves_ticket (set_leases _ d)); [done|].
    destruct (a <? m); [by apply requeued_le|by apply failed_le].
Qed.
End effects_on_history.

(** ** Dispatch budget *)

(** The leases ever granted for a ticket. *)
Definition dispatches (d : Db) (tid : Z) : Z :=
  count_where (fun _ l => l_ticket_id l =? tid) (leases d).

(** Every lease of a ticket was paid for with one of its attempts. *)
Definition dispatch_bound (d : Db) : Prop :=
  forall tid t, tickets d !! tid = Some t -> dispatches d tid <= t_attempt t.

(** Tickets keep or gain attempts, and no lease is granted. *)
Lemma dispatch_frame d d' :
  (forall tid t', tickets d' !! tid = Some t' ->
     exists t, tickets d !! tid = Some t /\ t_attempt t <= t_attempt t') ->
  (forall tid, dispatches d' tid = dispatches d tid) ->
  dispatch_bound d -> dispatch_bound d'.
Proof.
  intros Ht Hl Hb tid t' (t & Hx & Hle)%Ht. rewrite Hl. specialize (Hb tid t Hx). lia.
Qed.

Lemma dispatch_ticket d k t t' :
  tickets d !! k = Some t -> t_attempt t <= t_attempt t' ->
  dispatch_bound d -> dispatch_bound (set_tickets (<[k := t']> (tickets d)) d).
Proof.
  intros Hk Hle. apply dispatch_frame; [|done]. intros tid x. cbn.
  destruct (decide (tid = k)) as [->|Hne].
  - rewrite lookup_insert_eq. intros [= <-]. eauto.
  - rewrite lookup_insert_ne by done. intros Hx. exists x. split; [done|lia].
Qed.

Lemma dispatch_lease d k l l' :
  leases d !! k = Some l -> l_ticket_id l' = l_ticket_id l ->
  dispatch_bound d -> dispatch_bound (set_leases (<[k := l']> (leases d)) d).
Proof.
  intros Hk Hid. apply dispatch_frame.
  - intros tid t Ht. exists t. split; [done|lia].
  - intros tid. unfold dispatches. cbn. apply (count_where_update _ _ _ l); [done|by rewrite Hid].
Qed.

Lemma dispatch_settled d lid l t st reason ts t' :
  holding d lid l t -> t_attempt t <= t_attempt t' ->
  dispatch_bound d -> dispatch_bound (settled d lid l st reason ts t').
Proof.
  intros (Hl & _ & Ht & _) Hle Hb. unfold settled.
  apply (dispatch_ticket (set_leases _ d) _ t); [done|done|]. by eapply dispatch_lease.
Qed.

Section dispatch.
Context `{Iso8601Laws, SqliteCast}.

Definition sound (d : Db) : Prop := lifecycle d /\ dispatch_bound d.

(** A new ticket has no leases: leases refer to existing tickets. *)
Lemma dispatch_create input d t d' :
  sound d -> Ticket_create_in_tx input d = (Ok t, d') -> dispatch_bound d'.
Proof.
  intros [L Hb] (ts & _ & _ & _ & _ & ->)%Ticket_create_ok tid x. cbn.
  destruct (decide (tid = next_rowid (tickets d))) as [->|Hne].
  - rewrite lookup_insert_eq. intros [= <-]. cbn. unfold dispatches. cbn.
    rewrite (proj2 (count_where_zero _ _)); [lia|]. intros k l Hl. apply Z.eqb_neq. intros E.
    destruct (lc_lease_refs d L k l Hl) as [[y Hy] _]. rewrite E, next_rowid_fresh in Hy. done.
  - rewrite lookup_insert_ne by done. apply Hb.
Qed.

Lemma dispatch_try_acquire input d out d' :
  dispatch_bound d -> try_acquire_in_tx input d = (Ok out, d') -> dispatch_bound d'.
Proof.
  intros Hb Ha%try_acquire_ok. destruct out as [lease| | |]; try by subst.
  destruct Ha as (t & ts & es & el & cap & _ & Ht & _ & _ & _ & _ & _ & _ & _ & _ & _ & _ & _ & ->).
  intros tid x. cbn. unfold dispatches. cbn.
  rewrite count_where_insert_new by apply next_rowid_fresh. cbn.
  destruct (decide (tid = nl_ticket_id input)) as [->|Hne].
  - rewrite lookup_insert_eq, Z.eqb_refl. intros [= <-]. cbn. specialize (Hb _ _ Ht).
    unfold dispatches in Hb. lia.
  - rewrite lookup_insert_ne by done. intros Hx%Hb. unfold dispatches in Hx.
    destruct (Z.eqb_spec (nl_ticket_id input) tid); [congruence|lia].
Qed.

Lemma dispatch_expire now : preserves dispatch_bound (expire_due_in_tx now).
Proof.
  unfold expire_due_in_tx.
  do 3 (apply preserves_bind; [apply preserves_pure; by intros ? ? ? [= _ <-]|];
        let x := fresh "x" in intros x).
  apply preserves_fold_tx. intros rep [lid tid] d rep' d' Hb Hp.
  apply process_expired_ok in Hp as (l & t & a & m & Hl & Hh & Ht & Hs & _ & -> & _).
  apply (dispatch_ticket (set_leases _ d) _ t); [done|by destruct (a <? m)|].
  by eapply dispatch_lease.
Qed.
End dispatch.

(** ** The handlers *)

Section handlers.
Context `{Iso8601Laws, SqliteCast}.

(** A step forward that keeps the invariant. *)
Definition moves (d d' : Db) : Prop := evolves d d' /\ (sound d -> sound d').

#[global] Instance moves_preorder : PreOrder moves.
Proof.
  split.
  - intros d. by split.
  - intros d1 d2 d3 [E1 L1] [E2 L2]. split; [by etransitivity|auto].
Qed.

Lemma moves_intro {A} (m : M A) :
  within evolves m -> preserves lifecycle m ->
  (forall d a d', sound d -> m d = (Ok a, d') -> dispatch_bound d') -> within moves m.
Proof.
  intros He Hl Hb d a d' Hr. split; [by eapply He|]. intros S.
  split; [destruct S; by eapply Hl|by eapply Hb].
Qed.

(** Tables of jobs, workers, issues and events play no part in the budget. *)
Lemma dispatch_same d d' :
  tickets d' = tickets d -> leases d' = leases d -> dispatch_bound d -> dispatch_bound d'.
Proof. intros Et El. unfold dispatch_bound, dispatches. by rewrite Et, El. Qed.

Lemma logs_only_moves d d' : logs_only d d' -> moves d d'.
Proof.
  intros Hl. split; [by apply logs_only_evolves|]. intros [L Hb].
  split; [by eapply logs_only_lifecycle|]. by eapply dispatch_same; [apply Hl..|].
Qed.
Lemma workers_only_moves d d' : workers_only d d' -> moves d d'.
Proof.
  intros Hw. split; [by apply workers_only_evolves|]. intros [L Hb].
  split; [by eapply workers_only_lifecycle|]. by eapply dispatch_same; [apply Hw..|].
Qed.

Lemma moves_logs {A} (m : M A) : within logs_only m -> within moves m.
Proof. intros Hm d a d' Hr%Hm. by apply logs_only_moves. Qed.
Lemma moves_workers {A} (m : M A) : within workers_only m -> within moves m.
Proof. intros Hm d a d' Hr%Hm. by apply workers_only_moves. Qed.

Lemma jobs_grow d d' (m : gmap Z JobRow) :
  d' = set_jobs m d -> rows_le job_le (jobs d) m -> sound d -> sound d'.
Proof.
  intros -> Hj [L Hb]. split; [|done]. revert L. apply lifecycle_frame; try done.
  intros k [j Hk]. apply Hj in Hk as (j' & Hk' & _). cbn. rewrite Hk'. eauto.
Qed.

Lemma moves_job_create input : within moves (Job_create_in_tx input).
Proof.
  intros d j d' Hr. pose proof (evolves_job_create _ _ _ _ Hr) as E. split; [done|].
  apply Job_create_ok in Hr as (ts & _ & _ & _ & ->). eapply jobs_grow; [done|]. exact (ev_jobs _ _ E).
Qed.

Lemma moves_job_close id next now : within moves (transition_open_to id next now).
Proof.
  intros d j d' Hr. pose proof (evolves_job_close _ _ _ _ _ _ Hr) as E. split; [done|].
  apply transition_open_to_ok in Hr as (r & ts & _ & _ & _ & -> & _). eapply jobs_grow; [done|].
  exact (ev_jobs _ _ E).
Qed.

Lemma moves_append_event st sid at_ ev : within moves (append_event st sid at_ ev).
Proof. apply moves_logs, logs_append_event. Qed.
Lemma moves_terminal_issue ticket lease class reason now :
  within moves (open_terminal_failure_issue_in_tx ticket lease class reason now).
Proof. apply moves_logs, logs_terminal_issue. Qed.
Lemma moves_ticket_create input : within moves (Ticket_create_in_tx input).
Proof. apply moves_intro; [apply evolves_ticket_create|apply create_lifecycle|]. intros ? ? ?. apply dispatch_create. Qed.
Lemma moves_add_dependency t p : within moves (add_dependency_in_tx t p).
Proof. apply moves_intro; [apply evolves_add_dependency|apply add_dependency_lifecycle|]. intros d [] d' [_ Hb] (r & _ & _ & _ & _ & _ & _ & ->)%add_dependency_ok. done. Qed.
Lemma moves_mark_ready id now : within moves (mark_ready_if_unblocked_in_tx id now).
Proof. apply moves_intro; [apply evolves_mark_ready|apply mark_ready_lifecycle|].
  intros d a d' [_ Hb] [(_ & -> & _)|(r & ts & t & Hr & _ & _ & _ & _ & _ & ->)]%mark_ready_ok; [done|].
  by eapply dispatch_ticket.
Qed.
Lemma moves_try_acquire input : within moves (try_acquire_in_tx input).
Proof. apply moves_intro; [apply evolves_try_acquire|apply try_acquire_lifecycle|]. intros d a d' [_ Hb]. by apply dispatch_try_acquire. Qed.
Lemma moves_heartbeat lid ttl now : within moves (heartbeat_in_tx lid ttl now).
Proof. apply moves_intro; [apply evolves_heartbeat|apply heartbeat_lifecycle|].
  intros d a d' [_ Hb] (l & ns & es & Hl & _ & _ & _ & _ & _ & ->)%heartbeat_ok.
  by eapply dispatch_lease.
Qed.
Lemma moves_release lid result now : within moves (release_in_tx lid result now).
Proof. apply moves_intro; [apply evolves_release|apply release_lifecycle|].
  intros d a d' [_ Hb] (l & t & ts & Hh & _ & _ & ->)%release_in_tx_ok.
  by eapply dispatch_settled.
Qed.
Lemma moves_fail lid class now draw : within moves (fail_in_tx lid class now draw).
Proof. apply moves_intro; [apply evolves_fail|apply fail_lifecycle|].
  intros d a d' [_ Hb] (l & t & ts & t' & reason & Hh & _ & _ & -> & Hfate)%fail_in_tx_ok.
  eapply dispatch_settled; [done| |done].
  destruct (retries class t); [destruct Hfate as (_ & _ & es & _ & ->)|destruct Hfate as (_ & ->)];
    done.
Qed.
Lemma moves_force_release lid also now : within moves (force_release_in_tx lid also now).
Proof. apply moves_intro; [apply evolves_force_release|apply force_release_lifecycle|].
  intros d a d' [_ Hb] (l & t & ts & Hh & _ & _ & _ & _ & _ & _ & ->)%force_release_ok.
  eapply dispatch_settled; [done| |done]. by destruct also.
Qed.

Lemma expire_lifecycle now : preserves lifecycle (expire_due_in_tx now).
Proof.
  intros d rep d' L Hr. destruct (format_text now) as [ts|] eqn:Hf.
  - destruct (expire_due_run now ts d Hf L) as [Hrun L']. rewrite Hrun in Hr. by simplify_eq.
  - exfalso. unfold expire_due_in_tx in Hr. store_inv. congruence.
Qed.
Lemma moves_expire now : within moves (expire_due_in_tx now).
Proof. apply moves_intro; [apply evolves_expire|apply expire_lifecycle|]. intros d a d' [_ Hb]. by apply dispatch_expire. Qed.

Lemma reads_list_dependents id : tx_reads (list_dependents_in_tx id).
Proof. unfold list_dependents_in_tx. auto with voom. Qed.

Lemma reads_audit reason : tx_reads (lift (require_audit_field reason) : M unit).
Proof. auto with voom. Qed.

(** Walks a handler: every step is a read, a write above, or a branch. *)
Ltac walk :=
  repeat match goal with
  | |- forall _, _ => intros ?
  | |- within _ (atomically _) => apply within_atomically
  | |- within _ (mbind _ _) => apply within_bind; [apply _| |]
  | |- within _ (for_each _ _) => apply within_for_each; [apply _|]
  | |- within _ (append_event _ _ _ _) => apply moves_append_event
  | |- within _ (open_terminal_failure_issue_in_tx _ _ _ _ _) => apply moves_terminal_issue
  | |- within _ (lift _) => apply within_reads; [apply _|apply reads_lift]
  | |- within _ (mret _) => apply within_reads; [apply _|apply reads_ret]
  | |- within _ (throw _) => apply within_reads; [apply _|apply reads_throw]
  | |- within _ (Ticket_get_in_tx _) => apply within_reads; [apply _|apply reads_ticket_get]
  | |- within _ (list_dependents_in_tx _) => apply within_reads; [apply _|apply reads_list_dependents]
  | |- within _ (match ?x with _ => _ end) => destruct x
  end.

Lemma moves_open_job input : within moves (open_job input).
Proof. unfold open_job, open_job_in_tx. walk. apply moves_job_create. Qed.
Lemma moves_succeed_job id now : within moves (succeed_job id now).
Proof. unfold succeed_job. walk. apply moves_job_close. Qed.
Lemma moves_fail_job id reason now : within moves (fail_job id reason now).
Proof. unfold fail_job. walk. apply moves_job_close. Qed.
Lemma moves_cancel_job id reason now : within moves (cancel_job id reason now).
Proof. unfold cancel_job. walk. apply moves_job_close. Qed.
Lemma moves_create_ticket input : within moves (create_ticket input).
Proof. unfold create_ticket, create_ticket_in_tx. walk. apply moves_ticket_create. Qed.
Lemma moves_cp_mark_ready id now : within moves (cp_mark_ready_if_unblocked_in_tx id now).
Proof. unfold cp_mark_ready_if_unblocked_in_tx. walk. apply moves_mark_ready. Qed.
Lemma moves_try_acquire_lease input : within moves (try_acquire_lease_in_tx input).
Proof. unfold try_acquire_lease_in_tx. walk. apply moves_try_acquire. Qed.
Lemma moves_release_lease lid result now : within moves (release_lease_in_tx lid result now).
Proof.
  unfold release_lease_in_tx. walk; [apply moves_release|apply moves_cp_mark_ready].
Qed.
Lemma moves_fail_lease lid reason class now draw :
  within moves (fail_lease_in_tx lid reason class now draw).
Proof. unfold fail_lease_in_tx. walk. apply moves_fail. Qed.
Lemma moves_force_release_lease lid actor reason also now :
  within moves (force_release_lease lid actor reason also now).
Proof. unfold force_release_lease. walk. apply moves_force_release. Qed.

(** A failure before any lease: the attempt it books keeps the budget. *)
Lemma moves_pre_lease id class now draw :
  within moves (record_pre_lease_ticket_failure id class now draw).
Proof.
  unfold record_pre_lease_ticket_failure, require_no_held_lease, has_held_for_ticket_in_tx.
  intros d out d' Hr. store_inv.
  match goal with HT : Ticket_get_in_tx _ _ = (Ok (Some ?x), _) |- _ =>
    unfold Ticket_get_in_tx in HT; rename x into tk;
    apply get_in_tx_inner_ok in HT as (-> & _ & r & Hr & Hm%row_to_ticket_matches) end.
  repeat (match goal with HI : (if ?b then _ else _) _ = (Ok _, _) |- _ =>
    destruct b; [match type of HI with throw _ _ = _ => discriminate HI end|] end; store_inv).
  destruct (is_u32 (ticket_attempt tk + 1)); [|discriminate]. store_inv.
  match goal with HE : emit_pre_lease_failure_event _ _ _ _ _ _ = _ |- _ =>
    apply logs_emit_pre_lease, logs_only_moves in HE; rename HE into Hlog end.
  match goal with HT : transition_pre_lease_failure_ticket _ _ _ _ _ ?d0 = (Ok ?t, ?d1) |- _ =>
    rename HT into Htr, t into tk', d1 into d1; transitivity d1; [|done] end.
  unfold transition_pre_lease_failure_ticket in Htr. split.
  - eapply evolves_transition; [|exact Htr]. lia.
  - intros [L Hb]. split.
    2:{ apply transition_ready_ok in Htr as (r' & ? & ? & ? & Hr' & _ & Ha & _ & _ & _ & -> & _).
        eapply dispatch_ticket; [done| |done]. cbn. lia. }
    eapply transition_ready_lifecycle; [exact L|reflexivity| |exact Htr].
    destruct (bool_decide (class = _) || _) eqn:Hterm; [done|].
    apply orb_false_iff in Hterm as [_ Hterm%Z.leb_gt].
    apply transition_ready_ok in Htr as (r' & ? & ? & ? & Hr' & _ & _ & _ & _ & _ & _ & Hrow).
    apply row_to_ticket_matches in Hrow as (_ & _ & _ & _ & _ & _ & _ & _ & Hmax & _).
    destruct Hm as (Hid & _ & _ & _ & _ & _ & _ & _ & Hmax' & _). cbn in Hmax.
    rewrite Hid in Hr'. simplify_eq. lia.
Qed.
End handlers.

(** ** Commands *)

(** The state-changing operations of the execution core. *)
Inductive Command : Type :=
  | OpenJob (input : NewJob)
  | SucceedJob (id now : Z)
  | FailJob (id : Z) (reason : string) (now : Z)
  | CancelJob (id : Z) (reason : string) (now : Z)
  | CreateTicket (input : NewTicket)
  | AddDependency (ticket depends_on : Z)
  | MarkReady (ticket now : Z)
  | PreLeaseFailure (ticket : Z) (class : FailureClass) (now draw : Z)
  | TryAcquire (input : NewLease)
  | Heartbeat (lease ttl now : Z)
  | Release (lease : Z) (result : Json) (now : Z)
  | FailLease (lease : Z) (reason : string) (class : FailureClass) (now draw : Z)
  | ForceRelease (lease : Z) (actor reason : string) (also_requeue : bool) (now : Z)
  | ExpireDue (now : Z)
  | RegisterWorker (input : NewWorker)
  | BindIncarnation (worker node : Z) (incarnation : list Z)
  | SetReadiness (worker node : Z) (incarnation : list Z) (readiness : WorkerReadiness)
  | RetireWorker (worker epoch now : Z)
  | RetireIncarnation (incarnation : list Z) (now : Z)
  | RecordCapability (input : NewCapability)
  | RecordGrant (input : NewGrant)
  | SetNodeLimit (node limit now : Z)
  | ClaimAccelerator (input : NewAcceleratorClaim).

Section commands.
Context `{Iso8601Laws, SqliteCast}.

(** The database after a command, whatever the command answers. *)
Definition exec (c : Command) (d : Db) : Db :=
  match c with
  | OpenJob input => (open_job input d).2
  | SucceedJob id now => (succeed_job id now d).2
  | FailJob id reason now => (fail_job id reason now d).2
  | CancelJob id reason now => (cancel_job id reason now d).2
  | CreateTicket input => (create_ticket input d).2
  | AddDependency ticket depends_on => (add_dependency ticket depends_on d).2
  | MarkReady ticket now => (cp_mark_ready_if_unblocked ticket now d).2
  | PreLeaseFailure ticket class now draw =>
      (record_pre_lease_ticket_failure ticket class now draw d).2
  | TryAcquire input => (try_acquire_lease input d).2
  | Heartbeat lease ttl now => (heartbeat lease ttl now d).2
  | Release lease result now => (release_lease lease result now d).2
  | FailLease lease reason class now draw => (fail_lease lease reason class now draw d).2
  | ForceRelease lease actor reason also now => (force_release_lease lease actor reason also now d).2
  | ExpireDue now => (expire_due now d).2
  | RegisterWorker input => (register input d).2
  | BindIncarnation worker node inc => (atomically (bind_incarnation_in_tx worker node inc) d).2
  | SetReadiness worker node inc r => (atomically (set_remote_readiness_in_tx worker node inc r) d).2
  | RetireWorker worker epoch now => (retire worker epoch now d).2
  | RetireIncarnation inc now => (atomically (retire_live_for_incarnation_in_tx inc now) d).2
  | RecordCapability input => (record_capability input d).2
  | RecordGrant input => (record_grant input d).2
  | SetNodeLimit node limit now => (set_node_limit node limit now d).2
  | ClaimAccelerator input => (atomically (claim_in_tx input) d).2
  end.

Definition run (cs : list Command) (d : Db) : Db := foldl (fun d c => exec c d) d cs.

(** One command is a step; the reachable states are those after any
    sequence of steps from a database without tickets, leases and
    dependencies. *)
Inductive step : Db -> Db -> Prop :=
  | step_exec c d : step d (exec c d).

Definition initial (d : Db) : Prop :=
  tickets d = ∅ /\ leases d = ∅ /\ ticket_dependencies d = ∅.

Definition reachable (d : Db) : Prop := exists d0, initial d0 /\ rtc step d0 d.

Lemma moves_snd {A} (m : M A) d : within moves m -> moves d (atomically m d).2.
Proof.
  intros Hm. destruct (atomically m d) as [r d'] eqn:Hr. cbn.
  eapply within_result; [apply moves_preorder|done|done].
Qed.

Lemma moves_atomic {A} (m : M A) : within moves (atomically m) -> within moves m.
Proof. intros Hm d a d' Hr. apply (Hm d a). by apply atomically_ok. Qed.

Lemma exec_moves c d : moves d (exec c d).
Proof.
  destruct c; unfold exec.
  - apply moves_snd, moves_atomic, moves_open_job.
  - apply moves_snd, moves_atomic, moves_succeed_job.
  - apply moves_snd, moves_atomic, moves_fail_job.
  - apply moves_snd, moves_atomic, moves_cancel_job.
  - apply moves_snd, moves_atomic, moves_create_ticket.
  - apply moves_snd, moves_add_dependency.
  - apply moves_snd, moves_cp_mark_ready.
  - apply moves_snd, moves_atomic, moves_pre_lease.
  - apply moves_snd, moves_try_acquire_lease.
  - apply moves_snd, moves_heartbeat.
  - apply moves_snd, moves_release_lease.
  - apply moves_snd, moves_fail_lease.
  - apply moves_snd, moves_atomic, moves_force_release_lease.
  - apply moves_snd, moves_expire.
  - apply moves_snd, moves_workers, workers_register.
  - apply moves_snd, moves_workers, workers_bind.
  - apply moves_snd, moves_workers, workers_readiness.
  - apply moves_snd, moves_workers, workers_retire.
  - apply moves_snd, moves_workers, workers_retire_live.
  - apply moves_snd, moves_workers, workers_capability.
  - apply moves_snd, moves_workers, workers_grant.
  - destruct (set_node_limit node limit now d) as [r d'] eqn:Hr.
    by eapply workers_only_moves, workers_node_limit.
  - apply moves_snd, moves_workers, workers_claim.
Qed.

Lemma steps_move d d' : rtc step d d' -> moves d d'.
Proof.
  induction 1 as [d|d1 d2 d3 Hs _ IH]; [reflexivity|].
  destruct Hs as [c d]. transitivity (exec c d); [apply exec_moves|done].
Qed.

Lemma run_steps cs d : rtc step d (run cs d).
Proof.
  revert d; induction cs as [|c cs IH]; intros d; [reflexivity|].
  eapply rtc_l; [apply (step_exec c)|apply IH].
Qed.

Lemma initial_sound d : initial d -> sound d.
Proof.
  intros (Ht & Hl & Hd). split.
  - assert (forall x y, ~ edge ∅ x y) as He by (intros x y; unfold edge; set_solver).
    split; unfold tickets_readable, leases_readable; rewrite ?Ht, ?Hl, ?Hd;
      try (apply map_Forall_empty); try (intros; simplify_map_eq; done); try (intros; set_solver).
    intros x Hx. inversion Hx as [? ? Hy|? ? ? Hy]; by apply He in Hy.
  - intros tid t. by rewrite Ht, lookup_empty.
Qed.

Lemma reachable_sound d : reachable d -> sound d.
Proof.
  intros (d0 & H0' & Hs). apply (proj2 (steps_move _ _ Hs)). by apply initial_sound.
Qed.

(** C1: in every reachable state, whatever commands ran in whatever order
    and whatever they answered, the lifecycle invariant holds: rows decode;
    a ticket is leased exactly when one held lease names it, and no two
    held leases name the same ticket; attempts stay within the budget, a
    ready ticket has one left, a pending one has used none; only a
    succeeded ticket carries a result; a ticket past the readiness gate has
    only succeeded dependencies; the dependency graph is acyclic and its
    edges, the leases and the tickets refer to rows that exist; closed
    leases say why and when. *)
Theorem reachable_lifecycle d : reachable d -> lifecycle d.
Proof. intros Hr. by destruct (reachable_sound d Hr). Qed.

(** C2: a ticket is dispatched at most as often as its budget allows. In
    every reachable state the leases ever granted for a ticket are at most
    its attempts, and those at most its maximum; a ready ticket has been
    dispatched strictly less often than that. *)
Theorem dispatches_within_budget d tid t :
  reachable d -> tickets d !! tid = Some t ->
  0 <= dispatches d tid <= t_attempt t /\ t_attempt t <= t_max_attempts t /\
  (t_state t = TicketReady -> dispatches d tid < t_max_attempts t) /\
  (t_state t = TicketPending -> dispatches d tid = 0).
Proof.
  intros [L Hb]%reachable_sound Ht. specialize (Hb tid t Ht).
  pose proof (lc_ticket_sound d L _ _ Ht) as (? & ? & Hp & Hr & _).
  pose proof (count_where_pos (fun _ l => l_ticket_id l =? tid) (leases d)).
  fold (dispatches d tid) in *. split_and!; try lia; intros Hs.
  - specialize (Hr Hs). lia.
  - specialize (Hp Hs). lia.
Qed.

End commands.
