(* ===== verification/Handlers.v ===== *)
(** * What the handlers do

    The effect of a release with its promotions, of a reported failure with
    its issue, and of a failure before any lease, on the tables and on the
    audit log. *)

From S2P Require Import Prelude Json Vocab Operations Store Jobs Tickets Workers.
From S2P Require Import Leases Lifecycle ControlPlane System.
From Stdlib Require Import ZArith Lia Bool String.
From stdpp Require Import base gmap strings list sorting relations.

Open Scope Z_scope.

(** ** Promotion *)

#[global] Instance edge_dec deps : RelDecision (edge deps).
Proof. intros x y. unfold edge. apply _. Defined.

(** A pending ticket all of whose dependencies have succeeded. *)
Definition promotable (d : Db) (x : Z) : bool :=
  match tickets d !! x with
  | Some r => in_state TicketPending r && (unsucceeded_dependencies x d =? 0)
  | None => false
  end.

Section promotion.
Context `{Iso8601Laws, SqliteCast}.

Definition ready_event (ts : string) (x : Z) : EventRow := {|
  e_occurred_at := ts; e_subject_type := SubjectTicket; e_subject_id := Some x;
  e_payload := EvTicketReady x |}.

Lemma promotable_spec d x :
  promotable d x = true <->
  exists r, tickets d !! x = Some r /\ t_state r = TicketPending /\ deps_succeeded d x.
Proof.
  unfold promotable. destruct (tickets d !! x) as [r|].
  - unfold in_state. rewrite andb_true_iff, bool_decide_eq_true, Z.eqb_eq, unsucceeded_zero.
    naive_solver.
  - naive_solver.
Qed.

(** One promotion attempt of the handler. *)
Definition promoted (ts : string) (x : Z) (d : Db) : Db :=
  match tickets d !! x with
  | Some r =>
      if promotable d x then
        set_events (events d ++ [ready_event ts x])
          (set_tickets (<[x := ticket_moved TicketReady ts r]> (tickets d)) d)
      else d
  | None => d
  end.

Lemma cp_mark_ready_ok x now ts d l d' :
  format_text now = Some ts -> cp_mark_ready_if_unblocked_in_tx x now d = (Ok l, d') ->
  d' = promoted ts x d.
Proof.
  intros Hf Hr. unfold cp_mark_ready_if_unblocked_in_tx in Hr. store_inv.
  match goal with HM : mark_ready_if_unblocked_in_tx _ _ _ = _ |- _ =>
    apply mark_ready_ok in HM as [(-> & -> & r & Hr & Hno)|
      (r & ts' & t & Hr & Hs & Hd & Hf' & -> & Hrow & ->)] end; cbn in *; store_inv;
    unfold promoted; rewrite Hr.
  - destruct (promotable d x) eqn:E; [|done]. exfalso.
    apply promotable_spec in E as (r' & Hr' & ? & ?). simplify_eq. tauto.
  - rewrite (proj2 (promotable_spec d x)) by eauto. simplify_eq.
    match goal with HA : append_event _ _ _ _ _ = _ |- _ =>
      apply append_event_ok in HA as (ts' & Hf'' & ->) end. simplify_eq.
    apply row_to_ticket_matches in Hrow as (-> & _). done.
Qed.

(** A promotion does not change whether another ticket can be promoted. *)
Lemma promotable_promoted ts x y d : x <> y -> promotable (promoted ts x d) y = promotable d y.
Proof.
  intros Hne. unfold promoted. destruct (tickets d !! x) as [r|] eqn:Hr; [|done].
  destruct (promotable d x) eqn:E; [|done]. apply promotable_spec in E as (r' & Hr' & Hs & _).
  simplify_eq. unfold promotable. cbn. rewrite lookup_insert_ne by done.
  destruct (tickets d !! y) as [ry|]; [|done]. f_equal.
  assert (forall e, blocking_edge y (set_events (events d ++ [ready_event ts x])
    (set_tickets (<[x:=ticket_moved TicketReady ts r]> (tickets d)) d)) e = blocking_edge y d e) as Hbe.
  { intros e. unfold blocking_edge. cbn. f_equal.
    destruct (decide (e.2 = x)) as [->|Hx]; [|by rewrite lookup_insert_ne].
    rewrite lookup_insert_eq, Hr. unfold in_state. cbn. by rewrite Hs. }
  unfold unsucceeded_dependencies. cbn. do 3 f_equal.
  apply set_eq. intros e. rewrite !elem_of_filter. by rewrite Hbe.
Qed.

Definition promote_all (ts : string) (ids : list Z) (d : Db) : Db :=
  foldl (fun d x => promoted ts x d) d ids.

Lemma promote_loop now ts deps d d' :
  format_text now = Some ts ->
  for_each (fun dep => _ ← cp_mark_ready_if_unblocked_in_tx (ticket_id dep) now; mret tt) deps d =
    (Ok tt, d') ->
  d' = promote_all ts (map ticket_id deps) d.
Proof.
  intros Hf. revert d; induction deps as [|dep deps IH]; intros d Hr.
  - by injection Hr as <-.
  - cbn [for_each] in Hr. apply tx_bind_ok in Hr as ([] & d1 & Hr & Hrest).
    apply tx_bind_ok in Hr as (l & d2 & Hr & Hret). injection Hret as <-.
    apply (cp_mark_ready_ok _ _ ts) in Hr as ->; [|done]. by apply IH in Hrest.
Qed.

Lemma promoted_other ts x d :
  leases (promoted ts x d) = leases d /\ jobs (promoted ts x d) = jobs d /\
  ticket_dependencies (promoted ts x d) = ticket_dependencies d /\
  issues (promoted ts x d) = issues d.
Proof. unfold promoted. destruct (tickets d !! x); [|done]. by destruct (promotable d x). Qed.

Lemma promoted_tickets ts x d y :
  tickets (promoted ts x d) !! y =
  (fun r => if bool_decide (y = x) && promotable d x then ticket_moved TicketReady ts r else r) <$>
    tickets d !! y.
Proof.
  unfold promoted. destruct (tickets d !! x) as [r|] eqn:Hr.
  - destruct (promotable d x); cbn.
    + case_bool_decide as E; [subst; by rewrite lookup_insert_eq, Hr|].
      rewrite lookup_insert_ne by done. by destruct (tickets d !! y).
    + rewrite andb_false_r. by destruct (tickets d !! y).
  - unfold promotable. rewrite Hr, andb_false_r. by destruct (tickets d !! y).
Qed.

(** Promoting a list of tickets promotes those that could be promoted at
    the start, each with its event, in order. *)
Lemma promote_all_spec ts ids d :
  NoDup ids ->
  let d' := promote_all ts ids d in
  (forall y, tickets d' !! y =
     (fun r => if bool_decide (y ∈ ids) && promotable d y then ticket_moved TicketReady ts r else r)
       <$> tickets d !! y) /\
  events d' = events d ++ map (ready_event ts) (List.filter (promotable d) ids) /\
  leases d' = leases d /\ jobs d' = jobs d /\
  ticket_dependencies d' = ticket_dependencies d /\ issues d' = issues d.
Proof.
  revert d; induction ids as [|x ids IH]; intros d Hnd; cbn [promote_all foldl].
  { cbn. rewrite app_nil_r. split_and!; try done. intros y. by destruct (tickets d !! y). }
  apply NoDup_cons in Hnd as [Hx Hnd].
  destruct (IH (promoted ts x d) Hnd) as (Et & Ee & El & Ej & Ed & Ei).
  destruct (promoted_other ts x d) as (Pl & Pj & Pd & Pi).
  assert (List.filter (promotable (promoted ts x d)) ids = List.filter (promotable d) ids) as Hfil.
  { apply List.filter_ext_in. intros y Hy. apply promotable_promoted. intros ->.
    by apply Hx, list_elem_of_In. }
  rewrite Hfil in Ee. unfold promote_all in *. cbv zeta.
  rewrite El, Ej, Ed, Ei. split_and!; try done.
  - intros y. rewrite Et, promoted_tickets. destruct (tickets d !! y) as [r|] eqn:Hy; [|done].
    cbn. f_equal. destruct (decide (y = x)) as [->|Hne].
    + rewrite (bool_decide_eq_false_2 (x ∈ ids)) by done.
      rewrite (bool_decide_eq_true_2 (x = x)) by done.
      by rewrite (bool_decide_eq_true_2 (x ∈ x :: ids)) by (by left).
    + rewrite (bool_decide_eq_false_2 (y = x)) by done. cbn.
      rewrite promotable_promoted by done.
      by rewrite (bool_decide_ext (y ∈ x :: ids) (y ∈ ids)) by set_solver.
  - rewrite Ee. cbn. unfold promoted, promotable at 1.
    destruct (tickets d !! x) as [r|] eqn:Hr; [|unfold promotable; by rewrite Hr].
    change (in_state TicketPending r && (unsucceeded_dependencies x d =? 0)) with
      (match Some r with Some r => in_state TicketPending r && (unsucceeded_dependencies x d =? 0)
                       | None => false end). rewrite <- Hr. fold (promotable d x).
    destruct (promotable d x); cbn; [|done]. by rewrite <- app_assoc.
Qed.
End promotion.

Section handler_effects.
Context `{Iso8601Laws, SqliteCast}.

Definition lease_event (ts : string) (lid : Z) (ev : Event) : EventRow := {|
  e_occurred_at := ts; e_subject_type := SubjectLease; e_subject_id := Some lid;
  e_payload := ev |}.
Definition ticket_event (ts : string) (tid : Z) (ev : Event) : EventRow := {|
  e_occurred_at := ts; e_subject_type := SubjectTicket; e_subject_id := Some tid;
  e_payload := ev |}.

(** The dependents of a ticket, in id order. *)
Definition dependents (d : Db) (tid : Z) : list Z := (dependent_rows tid d).*1.

Lemma dependents_spec d tid x :
  x ∈ dependents d tid <-> is_Some (tickets d !! x) /\ edge (ticket_dependencies d) x tid.
Proof.
  unfold dependents, dependent_rows. rewrite list_elem_of_fmap. split.
  - intros ([k r] & -> & [Hk Hb]%list_elem_of_In%select_asc_in). apply bool_decide_eq_true in Hb. eauto.
  - intros [[r Hr] He]. exists (x, r). split; [done|]. apply list_elem_of_In, select_asc_in.
    split; [done|]. by apply bool_decide_eq_true.
Qed.

Lemma dependents_NoDup d tid : NoDup (dependents d tid).
Proof. apply NoDup_fst_filter, rows_asc_NoDup. Qed.

Lemma list_dependents_ok tid d deps d' :
  list_dependents_in_tx tid d = (Ok deps, d') -> d' = d /\ map ticket_id deps = dependents d tid.
Proof.
  unfold list_dependents_in_tx, dependents. intros Hr. store_inv. split; [done|].
  match goal with HC : collect _ _ = Ok _ |- _ => apply collect_ok in HC; revert HC end.
  generalize (dependent_rows tid d). intros rows0 HF. induction HF as [|[k r] t rows ts Hrow _ IH]; cbn; [done|].
  apply row_to_ticket_matches in Hrow as (-> & _). by rewrite IH.
Qed.

(** C33: a release settles its ticket and wakes exactly the tickets that
    waited for it. The lease is closed as released and its ticket
    succeeded with the result. Of the tickets that depend on it, precisely
    the pending ones with no unsucceeded dependency left become ready, no
    other ticket, lease, job, dependency or issue changes, and afterwards
    no dependent is left pending without an unsucceeded dependency. The
    log gains the release, the success, and one ready event per promoted
    ticket in id order. *)
Theorem release_lease_outcome lid result now d lease d' :
  lifecycle d -> release_lease_in_tx lid result now d = (Ok lease, d') ->
  exists l t ts,
    let tid := l_ticket_id l in
    let d1 := settled d lid l LeaseReleased ReasonReleased ts
                (ticket_with_result result (ticket_moved TicketSucceeded ts t)) in
    holding d lid l t /\ format_text now = Some ts /\
    leases d' = leases d1 /\ jobs d' = jobs d /\ issues d' = issues d /\
    ticket_dependencies d' = ticket_dependencies d /\
    (forall y, tickets d' !! y =
       (fun r => if bool_decide (edge (ticket_dependencies d) y tid) && promotable d1 y
                 then ticket_moved TicketReady ts r else r) <$> tickets d1 !! y) /\
    (forall y, edge (ticket_dependencies d) y tid -> promotable d' y = false) /\
    events d' = events d ++
      [lease_event ts lid (EvLeaseReleased lid tid "released");
       ticket_event ts tid (EvTicketSucceeded tid lid)] ++
      map (ready_event ts) (List.filter (promotable d1) (dependents d1 tid)).
Proof.
  intros L Hr. unfold release_lease_in_tx in Hr.
  apply tx_bind_ok in Hr as (lease' & d1 & Hrel & Hr).
  apply release_in_tx_ok in Hrel as (l & t & ts & Hh & Hf & Hm & ->).
  destruct Hm as (Hlid & Htid & _ & _ & _ & _ & _ & _ & Hreason & _). cbn in Htid, Hreason.
  unfold reason_text in Hr. rewrite Hlid, Htid, Hreason in Hr.
  set (d1 := settled _ _ _ _ _ _ _) in *.
  apply tx_bind_ok in Hr as ([] & d2 & (ts1 & Hf1 & ->)%append_event_ok & Hr). simplify_eq.
  apply tx_bind_ok in Hr as ([] & d3 & (ts1 & Hf1 & ->)%append_event_ok & Hr). simplify_eq.
  apply tx_bind_ok in Hr as (deps & d4 & [-> Hids]%list_dependents_ok & Hr).
  apply tx_bind_ok in Hr as ([] & d5 & Hloop & Hr). injection Hr as _ <-.
  apply (promote_loop _ ts) in Hloop as ->; [|done]. rewrite Hids.
  match goal with |- context [promote_all ts ?ids ?d2] => set (d2' := d2) in *; set (ids' := ids) in * end.
  destruct (promote_all_spec ts ids' d2') as (Et & Ee & El & Ej & Ed & Ei); [apply dependents_NoDup|].
  exists l, t, ts. cbv zeta. fold d1.
  assert (forall y, promotable d2' y = promotable d1 y) as Hp by reflexivity.
  assert (forall y, is_Some (tickets d1 !! y) ->
    bool_decide (y ∈ ids') = bool_decide (edge (ticket_dependencies d) y (l_ticket_id l))) as Hin.
  { intros y Hy. apply bool_decide_ext. unfold ids'. rewrite dependents_spec. tauto. }
  split_and!; try done.
  - intros y. rewrite Et. change (tickets d2') with (tickets d1).
    destruct (tickets d1 !! y) as [r|] eqn:Hy; [|done]. cbn. by rewrite Hin, Hp.
  - intros y Hy. destruct (promotable _ y) eqn:E; [|done]. exfalso.
    apply promotable_spec in E as (r & Hr & Hs & Hd). rewrite Et in Hr.
    change (tickets d2') with (tickets d1) in Hr.
    destruct (tickets d1 !! y) as [r1|] eqn:Hy1; [|discriminate]. cbn in Hr.
    rewrite Hin, Hp, (bool_decide_eq_true_2 _ Hy) in Hr by done. cbn in Hr.
    destruct (promotable d1 y) eqn:E; injection Hr as <-; [discriminate Hs|].
    enough (promotable d1 y = true) by congruence. apply promotable_spec. exists r1.
    split_and!; try done. intros p tp He Hp1.
    assert (tickets (promote_all ts ids' d2') !! p = Some (if bool_decide (p ∈ ids') &&
      promotable d2' p then ticket_moved TicketReady ts tp else tp)) as Hpp
      by (rewrite Et; change (tickets d2') with (tickets d1); by rewrite Hp1).
    assert (edge (ticket_dependencies (promote_all ts ids' d2')) y p) as He' by (by rewrite Ed).
    pose proof (Hd p _ He' Hpp) as Hs'. by destruct (_ && _).
  - etransitivity; [exact Ee|]. unfold d2'. cbn. by rewrite <- !app_assoc.
Qed.

(** ** Terminal failures *)

(** The issue of a ticket's terminal failure. *)
Definition failure_issue (d : Db) (tid iid : Z) : Prop :=
  exists i, issues d !! iid = Some i /\ is_kind i = "terminal_failure"%string /\
    is_dedupe_key i = Some (terminal_failure_dedupe_key tid).

Lemma insert_issue_link_ok issue kind target ts d a d' :
  insert_issue_link issue kind target ts d = (Ok a, d') ->
  d' = set_issues (issues d) (issue_links d ++ [{| il_issue_id := issue; il_link_type := kind;
         il_target_id := target; il_created_at := ts |}]) d.
Proof.
  unfold insert_issue_link. intros Hi. store_inv. destruct (negb _); [discriminate|]. by store_inv.
Qed.

(** Opening the issue either finds the one the ticket already has and writes
    nothing, or adds one, linked to the ticket and to the lease. *)
Lemma open_terminal_failure_ok draft now d iid d' :
  open_terminal_failure_in_tx draft now d = (Ok iid, d') ->
  failure_issue d' (df_ticket_id draft) iid /\
  (d' = d \/
   exists ts i, format_text now = Some ts /\ issues d !! iid = None /\
     is_severity i = df_severity draft /\ is_priority i = df_priority draft /\
     is_status i = "open"%string /\ is_body i = df_body draft /\
     d' = set_issues (<[iid := i]> (issues d))
       (issue_links d ++
        {| il_issue_id := iid; il_link_type := "ticket"; il_target_id := df_ticket_id draft;
           il_created_at := ts |} ::
        match df_lease_id draft with
        | Some lease => [{| il_issue_id := iid; il_link_type := "lease"; il_target_id := lease;
                            il_created_at := ts |}]
        | None => []
        end) d).
Proof.
  unfold open_terminal_failure_in_tx. intros Hr. store_inv.
  destruct (bool_decide (is_Some (issue_with_key d _))); store_inv.
  - match goal with HS : select_terminal_failure_id _ _ = (Ok (Some ?x), _) |- _ =>
      unfold select_terminal_failure_id in HS; apply getsR_ok in HS as [HS ->];
      rename HS into Hsel end.
    split; [|by left].
    destruct (select_asc _ _) as [|[k i] rest] eqn:E; [discriminate|]. cbn in Hsel.
    destruct (u64_from_i64 k) as [k'|] eqn:Hk; [|discriminate].
    apply u64_from_i64_ok in Hk as [-> _]. injection Hsel as <-.
    assert (In (k, i) ((k, i) :: rest)) as Hin by by left. rewrite <- E in Hin.
    apply select_asc_in in Hin as [Hi [Hkind Hkey]%andb_true_iff].
    apply String.eqb_eq in Hkind. apply bool_decide_eq_true in Hkey. exists i. done.
  - repeat match goal with HL : insert_issue_link _ _ _ _ _ = _ |- _ =>
      apply insert_issue_link_ok in HL; subst end.
    destruct (df_lease_id draft) as [lease|]; store_inv;
      repeat match goal with HL : insert_issue_link _ _ _ _ _ = _ |- _ =>
        apply insert_issue_link_ok in HL; subst end;
      (split; [eexists; split; [apply lookup_insert_eq|done]|]); right;
      (match goal with |- context [<[next_rowid (issues d) := ?row]> (issues d)] =>
         exists x, row end);
      (split; [eassumption|]); (split; [apply next_rowid_fresh|]);
      do 4 (split; [reflexivity|]); cbn; rewrite <- ?app_assoc; reflexivity.
Qed.


(** ** Failures before a lease *)

Lemma require_no_held_ok id d a d' :
  require_no_held_lease id d = (Ok a, d') ->
  d' = d /\ forall lid l, leases d !! lid = Some l -> l_ticket_id l = id -> held l = false.
Proof.
  unfold require_no_held_lease, has_held_for_ticket_in_tx. intros Hr. store_inv.
  match goal with HC : context [count_where ?f ?m] |- _ =>
    destruct (Z.ltb_spec 0 (count_where f m)) as [|Hz] end; [discriminate|]. store_inv. split; [done|]. intros lid l Hl Hid.
  match type of Hz with count_where ?f ?m <= 0 =>
    pose proof (count_where_pos f m);
    pose proof (proj1 (count_where_zero f m) ltac:(lia) lid l Hl) as Hc end.
  cbv beta in Hc. by rewrite Hid, Z.eqb_refl in Hc.
Qed.

Lemma pre_lease_reason_class class reason :
  pre_lease_failure_reason class = Ok reason ->
  class = FC_NoEligibleWorker \/ class = FC_AmbiguousWorkerSelection.
Proof. destruct class; cbn; intros Hr; try discriminate Hr; auto. Qed.

(** The ticket after a booked failure. *)
Definition booked (state : TicketState) (ts elig : string) (r : TicketRow) : TicketRow :=
  ticket_with_eligible elig (ticket_with_attempt (t_attempt r + 1) (ticket_moved state ts r)).

(** a failure to place a ticket is booked as an attempt. It is accepted
    only for the two placement classes and for a ready, eligible ticket
    that nobody holds. An ambiguous selection, or the last attempt, fails
    the ticket for good, with its issue and a terminal event; otherwise the
    ticket stays ready and waits for the backoff of the new attempt. An
    error changes nothing. *)
Theorem pre_lease_failure_outcome id class now draw d res d' :
  record_pre_lease_ticket_failure id class now draw d = (res, d') ->
  match res with
  | Err _ => d' = d
  | Ok out =>
      exists r ts reason,
        tickets d !! id = Some r /\ t_state r = TicketReady /\ format_text now = Some ts /\
        (class = FC_NoEligibleWorker \/ class = FC_AmbiguousWorkerSelection) /\
        pre_lease_failure_reason class = Ok reason /\
        (forall lid l, leases d !! lid = Some l -> l_ticket_id l = id -> held l = false) /\
        (exists e, parse_text (t_next_eligible_at r) = Some e /\ e <= now) /\
        leases d' = leases d /\
        let attempt := t_attempt r + 1 in
        plo_terminal out =
          bool_decide (class = FC_AmbiguousWorkerSelection) || (t_max_attempts r <=? attempt) /\
        if plo_terminal out then
          exists iid,
            tickets d' = <[id := booked TicketFailed ts (t_next_eligible_at r) r]> (tickets d) /\
            failure_issue d' id iid /\
            events d' = events d ++ [ticket_event ts id
              (EvTicketFailedTerminal id attempt (t_max_attempts r) reason class (Some iid))]
        else
          exists es, format_text (now + default_backoff attempt draw) = Some es /\
            tickets d' = <[id := booked TicketReady ts es r]> (tickets d) /\
            issues d' = issues d /\
            events d' = events d ++ [ticket_event ts id
              (EvTicketFailedRetriable id attempt (t_max_attempts r) reason class
                 (now + default_backoff attempt draw))]
  end.
Proof.
  destruct res as [out|e]; [|by apply atomically_err]. intros Hr.
  unfold record_pre_lease_ticket_failure in Hr. apply (proj1 (atomically_ok _ _ _ _)) in Hr.
  apply tx_bind_ok in Hr as (reason & d1 & [Hreason ->]%lift_ok & Hr).
  apply tx_bind_ok in Hr as (found & d1 & Hget & Hr).
  apply tx_bind_ok in Hr as (tk & d2 & [Hfound ->]%lift_ok & Hr). apply ok_or_ok in Hfound as ->.
  apply get_in_tx_inner_ok in Hget as (-> & _ & r & Hrow & Hm%row_to_ticket_matches).
  apply tx_bind_ok in Hr as ([] & d2 & [-> Hfree]%require_no_held_ok & Hr).
  destruct (negb _) eqn:Hs; [discriminate|]. apply negb_false_iff, bool_decide_eq_true in Hs.
  destruct (Z.ltb_spec now (ticket_next_eligible_at tk)) as [|Hle]; [discriminate|].
  apply tx_bind_ok in Hr as (next & d2 & [Hnext ->]%lift_ok & Hr).
  destruct (is_u32 _) in Hnext; [injection Hnext as <-|discriminate].
  destruct Hm as (Hid & _ & _ & Hst & _ & _ & _ & Hatt & Hmax & Hne & _).
  apply tx_bind_ok in Hr as (tk' & d2 & Htr & Hr).
  apply tx_bind_ok in Hr as ([] & d3 & Hemit & Hr). injection Hr as <- <-.
  unfold transition_pre_lease_failure_ticket in Htr.
  apply transition_ready_ok in Htr as (r' & ts & es & st & Hr' & _ & _ & Hts & _ & Hcase & -> & Hrow').
  rewrite Hid in *. rewrite Hrow in Hr'. injection Hr' as <-. rewrite Hatt, Hmax in *.
  apply row_to_ticket_matches in Hrow' as (Hid' & _ & _ & _ & _ & _ & _ & Hatt' & Hmax' & Hne' & _).
  cbn in Hatt', Hmax', Hne'. unfold emit_pre_lease_failure_event in Hemit.
  exists r, ts, reason. cbn [plo_terminal]. rewrite <- Hst.
  destruct (bool_decide (class = _) || _) eqn:Hterm.
  - destruct Hcase as [-> ->]. apply tx_bind_ok in Hemit as (iid & d4 & Hopen & Hemit).
    apply open_terminal_failure_ok in Hopen as [Hiss Hcase]. cbn in Hiss.
    apply append_event_ok in Hemit as (ts1 & Hf1 & ->). simplify_eq.
    rewrite Hid', Hatt', Hmax' in *.
    destruct Hcase as [->|(ts2 & i & _ & _ & _ & _ & _ & _ & ->)]; cbn in *;
      split_and!; eauto using pre_lease_reason_class; exists iid; split_and!; done.
  - destruct Hcase as [-> Hes]. apply append_event_ok in Hemit as (ts1 & Hf1 & ->). simplify_eq.
    rewrite Hid', Hatt', Hmax' in *. rewrite (parse_format _ _ Hes) in Hne'. injection Hne' as <-.
    cbn. split_and!; eauto using pre_lease_reason_class.
Qed.
End handler_effects.
