(* ===== verification/Locators.v ===== *)
(** * Locators, terminal reasons and scan evidence

    [voom-core/src/taxonomy/storage.rs], [scan.rs] and [scan_evidence.rs]: the
    text that scan sessions carry, with the validation the Rust types apply and
    the [CHECK] constraints the schema applies to the same columns. The two are
    written independently in the program; the theorems compare them. *)

From S2P Require Import Prelude Json Vocab.
From Stdlib Require Import ZArith Lia Bool String Ascii.
From stdpp Require Import base strings list.

Open Scope string_scope.
Open Scope Z_scope.

(** ** Bytes *)

Definition NUL : Ascii.ascii := "000"%char.
Definition SLASH : Ascii.ascii := "/"%char.
Definition BACKSLASH : Ascii.ascii := "\"%char.

Definition str_len (s : string) : Z := Z.of_nat (String.length s).

(** [str::contains(char)] and [bytes.contains(&b)]. *)
Fixpoint contains_char (c : Ascii.ascii) (s : string) : bool :=
  match s with EmptyString => false | String a s' => Ascii.eqb a c || contains_char c s' end.

(** [str::starts_with(char)] and [str::ends_with(char)]. *)
Definition starts_with (c : Ascii.ascii) (s : string) : bool :=
  match s with EmptyString => false | String a _ => Ascii.eqb a c end.
Fixpoint ends_with (c : Ascii.ascii) (s : string) : bool :=
  match s with
  | EmptyString => false
  | String a EmptyString => Ascii.eqb a c
  | String _ s' => ends_with c s'
  end.

(** [str::split(char)]: one component more than separators. *)
Fixpoint str_split (c : Ascii.ascii) (s : string) : string * list string :=
  match s with
  | EmptyString => (EmptyString, [])
  | String a s' =>
      let '(first, components) := str_split c s' in
      if Ascii.eqb a c then (EmptyString, first :: components)
      else (String a first, components)
  end.

(** ** Storage vocabulary *)

Inductive StorageProviderKind : Type := LocalFilesystem.
#[global] Instance StorageProviderKind_eq_dec : EqDecision StorageProviderKind.
Proof. solve_decision. Defined.
Definition StorageProviderKind_as_str (k : StorageProviderKind) : string := "local_filesystem".
Definition StorageProviderKind_from_wire (s : string) : option StorageProviderKind :=
  assoc_str s [("local_filesystem", LocalFilesystem)].
#[global] Instance StorageProviderKind_vocabulary : Vocabulary StorageProviderKind :=
  Build_Vocabulary StorageProviderKind StorageProviderKind_as_str StorageProviderKind_from_wire
    ltac:(solve_vocabulary) ltac:(solve_vocabulary).

Inductive StorageRootState : Type :=
  | RootUnassigned | RootConfigured | RootActive | RootUnavailable | RootRetired.
#[global] Instance StorageRootState_eq_dec : EqDecision StorageRootState.
Proof. solve_decision. Defined.
Definition StorageRootState_as_str (s : StorageRootState) : string :=
  match s with
  | RootUnassigned => "unassigned" | RootConfigured => "configured" | RootActive => "active"
  | RootUnavailable => "unavailable" | RootRetired => "retired"
  end.
Definition StorageRootState_from_wire (s : string) : option StorageRootState :=
  assoc_str s [("unassigned", RootUnassigned); ("configured", RootConfigured);
               ("active", RootActive); ("unavailable", RootUnavailable);
               ("retired", RootRetired)].
#[global] Instance StorageRootState_vocabulary : Vocabulary StorageRootState :=
  Build_Vocabulary StorageRootState StorageRootState_as_str StorageRootState_from_wire
    ltac:(solve_vocabulary) ltac:(solve_vocabulary).

(** ** Provider-relative locators *)

Definition MAX_LOCATOR_BYTES : Z := 4096.

Definition validate_provider_locator (value : string) : result string unit :=
  if str_len value =? 0 then Err "must not be empty" else
  if MAX_LOCATOR_BYTES <? str_len value then Err "must be at most 4096 UTF-8 bytes" else
  if contains_char NUL value then Err "must not contain NUL" else
  Ok tt.

Definition invalid_component (component : string) : bool :=
  String.eqb component "" || String.eqb component "." || String.eqb component "..".

Definition is_ascii_alphabetic (c : Ascii.ascii) : bool := byte_in 65 90 c || byte_in 97 122 c.

Definition is_windows_drive_prefix (component : string) : bool :=
  match component with
  | String a (String b _) => is_ascii_alphabetic a && Ascii.eqb b ":"%char
  | _ => false
  end.

Definition validate_relative_locator (value : string) : result string unit :=
  _ ← validate_provider_locator value;
  if starts_with SLASH value || ends_with SLASH value then
    Err "must not be absolute or end with a separator" else
  if contains_char BACKSLASH value then Err "must use forward-slash separators" else
  let '(first, components) := str_split SLASH value in
  if is_windows_drive_prefix first then Err "must not contain a platform path prefix" else
  if invalid_component first || existsb invalid_component components then
    Err "components must not be empty, '.' or '..'" else
  Ok tt.

(** A [ProviderLocator] or [ProviderRelativeLocator] is a newtype over its text. *)
Definition ProviderLocator_new (value : string) : result VoomError string :=
  match validate_provider_locator value with Ok _ => Ok value | Err _ => Err EConfig end.
Definition ProviderLocator_parse_database (value : string) : result VoomError string :=
  match validate_provider_locator value with Ok _ => Ok value | Err _ => Err EDatabase end.
Definition ProviderRelativeLocator_new (value : string) : result VoomError string :=
  match validate_relative_locator value with Ok _ => Ok value | Err _ => Err EConfig end.
Definition ProviderRelativeLocator_parse_database (value : string) : result VoomError string :=
  match validate_relative_locator value with Ok _ => Ok value | Err _ => Err EDatabase end.

(** [instr(s, needle) != 0]. *)
Fixpoint sql_instr (needle s : string) : bool :=
  match str_strip_prefix needle s with
  | Some _ => true
  | None => match s with EmptyString => false | String _ s' => sql_instr needle s' end
  end.

(** The [CHECK] on [scan_observations.provider_relative_locator] and on
    [file_locations.provider_relative_locator]. *)
Definition locator_check (v : string) : bool :=
  (1 <=? str_len v) && (str_len v <=? 4096) && negb (contains_char NUL v) &&
  negb (contains_char BACKSLASH v) && negb (starts_with SLASH v) && negb (ends_with SLASH v) &&
  negb (sql_instr "//" v) &&
  negb (sql_instr "/./" ("/" ++ v ++ "/")) && negb (sql_instr "/../" ("/" ++ v ++ "/")).

(** ** Terminal reasons *)

(** [char::is_ascii_whitespace]: tab, line feed, form feed, carriage return
    and space. *)
Definition is_ascii_whitespace (c : Ascii.ascii) : bool :=
  byte_in 9 10 c || byte_in 12 13 c || byte_in 32 32 c.

(** Trimming leaves nothing exactly when every character is trimmed. *)
Definition validate_terminal_reason (value : string) : result string unit :=
  if string_all is_ascii_whitespace value then Err "must not be blank" else
  if 1024 <? str_len value then Err "must be at most 1024 bytes" else
  if contains_char NUL value then Err "must not contain NUL bytes" else
  Ok tt.

Definition ScanTerminalReason_new (value : string) : result VoomError string :=
  match validate_terminal_reason value with Ok _ => Ok value | Err _ => Err EConfig end.
Definition ScanTerminalReason_parse_database (value : string) : result VoomError string :=
  match validate_terminal_reason value with Ok _ => Ok value | Err _ => Err EDatabase end.

(** The [CHECK] on [scan_sessions.terminal_reason], which trims the bytes 9 to
    13 and 32. *)
Definition terminal_reason_check (v : string) : bool :=
  (1 <=? str_len v) && (str_len v <=? 1024) && negb (contains_char NUL v) &&
  negb (string_all (fun c => byte_in 9 13 c || byte_in 32 32 c) v).

Inductive ScanSessionStatus : Type :=
  | ScanRequested | ScanRunning | ScanSucceeded | ScanFailed | ScanCancelled | ScanStale.
#[global] Instance ScanSessionStatus_eq_dec : EqDecision ScanSessionStatus.
Proof. solve_decision. Defined.
Definition ScanSessionStatus_as_str (s : ScanSessionStatus) : string :=
  match s with
  | ScanRequested => "requested" | ScanRunning => "running" | ScanSucceeded => "succeeded"
  | ScanFailed => "failed" | ScanCancelled => "cancelled" | ScanStale => "stale"
  end.
Definition ScanSessionStatus_parse (s : string) : option ScanSessionStatus :=
  assoc_str s [("requested", ScanRequested); ("running", ScanRunning);
               ("succeeded", ScanSucceeded); ("failed", ScanFailed);
               ("cancelled", ScanCancelled); ("stale", ScanStale)].
#[global] Instance ScanSessionStatus_vocabulary : Vocabulary ScanSessionStatus :=
  Build_Vocabulary ScanSessionStatus ScanSessionStatus_as_str ScanSessionStatus_parse
    ltac:(solve_vocabulary) ltac:(solve_vocabulary).

(** ** Evidence *)

Record FileKeyFacts := { fk_dev : Z; fk_ino : Z; fk_nlink : Z }.
Record ScanSidecarEvidence := {
  sc_locator : string; sc_role : string; sc_blake3_hex : string; sc_size_bytes : Z;
}.
Inductive HashSource : Type := HashReused.
Record ScanObservationEvidence := {
  ev_content_hash : string; ev_size_bytes : Z; ev_modified_at : string;
  ev_file_key : option FileKeyFacts; ev_sidecars : list ScanSidecarEvidence;
  ev_probe_snapshot : Json; ev_hash_source : option HashSource;
}.

(** [serde_json] on the evidence: writing can fail, and what it writes reads
    back. *)
Class EvidenceCodec := {
  evidence_to_string : ScanObservationEvidence -> option string;
  evidence_from_str : string -> option ScanObservationEvidence;
}.
Class EvidenceCodecLaws `{EvidenceCodec} := {
  evidence_roundtrip : forall e s, evidence_to_string e = Some s -> evidence_from_str s = Some e;
}.

Definition MAX_EVIDENCE_SIDECARS : nat := 64.
Definition MAX_EVIDENCE_BYTES : Z := 65536.

Definition validate_locator (value : string) : result VoomError unit :=
  if (str_len value =? 0) || (4096 <? str_len value) || contains_char NUL value then Err EConfig
  else Ok tt.

Definition is_ascii_hexdigit (c : Ascii.ascii) : bool :=
  byte_in 48 57 c || byte_in 65 70 c || byte_in 97 102 c.

Definition validate_blake3_hex (value : string) : result VoomError unit :=
  if negb (str_len value =? 64) || negb (string_all is_ascii_hexdigit value) then Err EConfig
  else Ok tt.

Definition validate_blake3_hash (value : string) : result VoomError unit :=
  match str_strip_prefix "blake3:" value with
  | None => Err EConfig
  | Some hex =>
      if negb (str_len hex =? 64) || negb (string_all is_ascii_hexdigit hex) then Err EConfig
      else Ok tt
  end.

Definition ScanSidecarEvidence_validate (s : ScanSidecarEvidence) : result VoomError unit :=
  _ ← validate_locator (sc_locator s);
  if negb (existsb (String.eqb (sc_role s)) ["external_subtitle"; "nfo"; "poster"; "trailer"])
  then Err EConfig else
  validate_blake3_hex (sc_blake3_hex s).

(** [for s in sidecars { s.validate()?; }] *)
Fixpoint validate_all {A} (f : A -> result VoomError unit) (l : list A) : result VoomError unit :=
  match l with [] => Ok tt | x :: l' => _ ← f x; validate_all f l' end.

Section evidence.
Context `{EvidenceCodec}.

Definition ScanObservationEvidence_validate (e : ScanObservationEvidence) :
    result VoomError unit :=
  _ ← validate_blake3_hash (ev_content_hash e);
  if (MAX_EVIDENCE_SIDECARS <? length (ev_sidecars e))%nat then Err EConfig else
  _ ← validate_all ScanSidecarEvidence_validate (ev_sidecars e);
  serialized ← ok_or (evidence_to_string e) EConfig;
  if MAX_EVIDENCE_BYTES <? str_len serialized then Err EConfig else Ok tt.

Definition ScanObservationEvidence_parse_database (value : string) :
    result VoomError ScanObservationEvidence :=
  parsed ← ok_or (evidence_from_str value) EDatabase;
  _ ← ScanObservationEvidence_validate parsed;
  Ok parsed.

Definition ScanObservationEvidence_to_database_json (e : ScanObservationEvidence) :
    result VoomError string :=
  _ ← ScanObservationEvidence_validate e;
  ok_or (evidence_to_string e) EDatabase.

(** What is written is read back. *)
Lemma evidence_database_roundtrip `{!EvidenceCodecLaws} e json :
  ScanObservationEvidence_to_database_json e = Ok json ->
  ScanObservationEvidence_parse_database json = Ok e.
Proof.
  unfold ScanObservationEvidence_to_database_json, ScanObservationEvidence_parse_database.
  intros ([] & Hv & Hs%ok_or_ok)%result_bind_ok.
  rewrite (evidence_roundtrip e json Hs). cbn. by rewrite Hv.
Qed.
End evidence.

(** ** The two locator checks agree *)

Lemma strip_self_char c s : str_strip_prefix (String c "") (String c s) = Some s.
Proof. cbn. by rewrite Ascii.eqb_refl. Qed.

(** Unfolding one character at a time. *)
Lemma strip_cons a p b s :
  str_strip_prefix (String a p) (String b s) =
  if Ascii.eqb a b then str_strip_prefix p s else None.
Proof. done. Qed.

Lemma split_cons c a s :
  str_split c (String a s) =
  if Ascii.eqb a c then (EmptyString, (str_split c s).1 :: (str_split c s).2)
  else (String a (str_split c s).1, (str_split c s).2).
Proof. cbn [str_split]. destruct (str_split c s); by destruct (Ascii.eqb a c). Qed.

Lemma sql_instr_cons n a s :
  sql_instr n (String a s) =
  match str_strip_prefix n (String a s) with Some _ => true | None => sql_instr n s end.
Proof. done. Qed.

Lemma app_cons a s t : String a s ++ t = String a (s ++ t).
Proof. done. Qed.

(** A component that has no separator is followed by one at the front of
    [v ++ "/"] exactly when it is the first component of [v]. *)
Lemma first_component w v :
  contains_char SLASH w = false ->
  is_Some (str_strip_prefix (w ++ "/") (v ++ "/")) <-> w = (str_split SLASH v).1.
Proof.
  revert w; induction v as [|a v IH]; intros [|b w] Hw.
  - split; [done|]. intros _. by exists "".
  - cbn [contains_char] in Hw. apply orb_false_iff in Hw as [Hb _].
    rewrite app_cons. change ("" ++ "/") with (String SLASH ""). rewrite strip_cons, Hb.
    split; [by intros [? [=]]|discriminate].
  - change ("" ++ "/") with (String SLASH ""). rewrite app_cons, strip_cons, split_cons.
    destruct (Ascii.eqb_spec SLASH a) as [<-|Hne].
    + rewrite Ascii.eqb_refl. split; [done|]. intros _. eexists. done.
    + destruct (Ascii.eqb_spec a SLASH); [congruence|]. split; [by intros [? [=]]|discriminate].
  - cbn [contains_char] in Hw. apply orb_false_iff in Hw as [Hb Hw].
    rewrite !app_cons, strip_cons, split_cons. specialize (IH w Hw).
    destruct (Ascii.eqb_spec b a) as [->|Hne].
    + rewrite Hb, IH. cbn. split; congruence.
    + split; [by intros [? [=]]|]. destruct (Ascii.eqb a SLASH); cbn; congruence.
Qed.

(** Past the first component. *)
Lemma later_component w v :
  contains_char SLASH w = false ->
  sql_instr ("/" ++ w ++ "/") (v ++ "/") = true <-> In w (str_split SLASH v).2.
Proof.
  intros Hw. change ("/" ++ w ++ "/") with (String SLASH (w ++ "/")).
  induction v as [|a v IH].
  - change ("" ++ "/") with (String SLASH ""). rewrite sql_instr_cons, strip_cons, Ascii.eqb_refl.
    destruct w; cbn; split; done.
  - rewrite app_cons, sql_instr_cons, strip_cons, split_cons.
    destruct (Ascii.eqb_spec SLASH a) as [<-|Hne].
    + rewrite Ascii.eqb_refl. cbn [snd In]. rewrite <- IH.
      pose proof (first_component w v Hw) as Hf.
      destruct (str_strip_prefix (w ++ "/") (v ++ "/")); split; try done; try tauto.
      * intros _. left. symmetry. apply Hf. eauto.
      * intros [E|?]; [|done]. symmetry in E. by apply Hf in E as [? [=]].
    + destruct (Ascii.eqb_spec a SLASH); [congruence|]. apply IH.
Qed.

(** [/w/] occurs in [/v/] exactly when [w] is a component of [v]. *)
Lemma component_instr w v :
  contains_char SLASH w = false ->
  sql_instr ("/" ++ w ++ "/") ("/" ++ v ++ "/") = true <->
  In w ((str_split SLASH v).1 :: (str_split SLASH v).2).
Proof.
  intros Hw. pose proof (first_component w v Hw) as Hf. pose proof (later_component w v Hw) as Hl.
  change ("/" ++ v ++ "/") with (String SLASH (v ++ "/")).
  change ("/" ++ w ++ "/") with (String SLASH (w ++ "/")) in *.
  rewrite sql_instr_cons, strip_cons, Ascii.eqb_refl. cbn [In]. rewrite <- Hl.
  destruct (str_strip_prefix (w ++ "/") (v ++ "/")); split; try done; try tauto.
  - intros _. left. symmetry. apply Hf. eauto.
  - intros [E|?]; [|done]. symmetry in E. by apply Hf in E as [? [=]].
Qed.

(** A doubled separator in [v ++ "/"] is one in [v] or a trailing one. *)
Lemma doubled_slash v :
  sql_instr "//" (v ++ "/") = sql_instr "//" v || ends_with SLASH v.
Proof.
  change "//" with (String SLASH (String SLASH "")).
  induction v as [|a v IH]; [done|]. rewrite app_cons, !sql_instr_cons, !strip_cons.
  destruct v as [|b v].
  - cbn [ends_with]. change ("" ++ "/") with (String SLASH ""). rewrite strip_cons.
    destruct (Ascii.eqb_spec SLASH a) as [<-|Hne]; [by rewrite !Ascii.eqb_refl|].
    destruct (Ascii.eqb_spec a SLASH); [congruence|done].
  - rewrite app_cons in *. rewrite !strip_cons.
    change (ends_with SLASH (String a (String b v))) with (ends_with SLASH (String b v)).
    destruct (Ascii.eqb SLASH a); [|exact IH]. destruct (Ascii.eqb SLASH b); [done|exact IH].
Qed.

Lemma empty_component v :
  In "" ((str_split SLASH v).1 :: (str_split SLASH v).2) <->
  v = "" \/ starts_with SLASH v = true \/ ends_with SLASH v = true \/ sql_instr "//" v = true.
Proof.
  rewrite <- (component_instr "" v) by done. change ("/" ++ "" ++ "/") with "//".
  change ("/" ++ v ++ "/") with (String SLASH (v ++ "/")). rewrite sql_instr_cons, doubled_slash.
  change "//" with (String SLASH (String SLASH "")). rewrite strip_cons, Ascii.eqb_refl.
  destruct v as [|a v].
  - split; [by left|done].
  - rewrite app_cons, strip_cons. cbn [starts_with]. rewrite (Ascii.eqb_sym SLASH a).
    destruct (Ascii.eqb a SLASH); [tauto|]. rewrite orb_true_iff.
    split; [tauto|]. intros [[=]|[[=]|?]]. tauto.
Qed.

Lemma invalid_components v :
  invalid_component (str_split SLASH v).1 || existsb invalid_component (str_split SLASH v).2 =
    false <->
  v <> "" /\ starts_with SLASH v = false /\ ends_with SLASH v = false /\
  sql_instr "//" v = false /\ sql_instr "/./" ("/" ++ v ++ "/") = false /\
  sql_instr "/../" ("/" ++ v ++ "/") = false.
Proof.
  change (invalid_component (str_split SLASH v).1 || existsb invalid_component (str_split SLASH v).2)
    with (existsb invalid_component ((str_split SLASH v).1 :: (str_split SLASH v).2)).
  rewrite <- not_true_iff_false, existsb_exists.
  pose proof (empty_component v) as He.
  pose proof (component_instr "." v eq_refl) as H1.
  pose proof (component_instr ".." v eq_refl) as H2.
  change ("/" ++ "." ++ "/") with "/./" in H1. change ("/" ++ ".." ++ "/") with "/../" in H2.
  set (cs := (str_split SLASH v).1 :: (str_split SLASH v).2) in *.
  rewrite <- !not_true_iff_false. rewrite H1, H2. split.
  - intros Hn. split_and!; intros Hx; apply Hn;
      first [exists ""; split; [tauto|done] | exists "."; split; [tauto|done]
            | exists ".."; split; [tauto|done]].
  - intros (? & ? & ? & ? & ? & ?) (c & Hc & Hi). unfold invalid_component in Hi.
    rewrite !orb_true_iff, !String.eqb_eq in Hi. destruct Hi as [[->| ->]| ->]; tauto.
Qed.

(** the locator validator of the code accepts exactly the texts that the
    [CHECK] of the schema accepts, less the ones that start with a Windows
    drive prefix: an accepted locator is never refused by the database, and a
    stored locator without a drive prefix always decodes. *)
Theorem locator_checks_agree (v : string) :
  validate_relative_locator v = Ok tt <->
  locator_check v = true /\ is_windows_drive_prefix (str_split SLASH v).1 = false.
Proof.
  assert ((str_len v =? 0) = true <-> v = "") as Hlen.
  { unfold str_len. rewrite Z.eqb_eq. destruct v; cbn; [done|]. split; [lia|discriminate]. }
  assert ((1 <=? str_len v) = negb (str_len v =? 0)) as Hpos.
  { unfold str_len. destruct (Z.leb_spec 1 (Z.of_nat (String.length v)));
      destruct (Z.eqb_spec (Z.of_nat (String.length v)) 0); cbn; lia || done. }
  assert ((MAX_LOCATOR_BYTES <? str_len v) = negb (str_len v <=? 4096)) as Hmax
    by apply Z.ltb_antisym.
  pose proof (invalid_components v) as Hc.
  unfold validate_relative_locator, validate_provider_locator, locator_check.
  rewrite Hpos, Hmax. destruct (str_split SLASH v) as [f cs]. cbn [fst snd] in *.
  rewrite !andb_true_iff, !negb_true_iff.
  destruct (str_len v =? 0) eqn:E0; [split; [discriminate|intuition congruence]|].
  destruct (str_len v <=? 4096) eqn:E1; [|split; [discriminate|intuition congruence]].
  destruct (contains_char NUL v) eqn:E2; [split; [discriminate|intuition congruence]|].
  cbn [negb mbind result_mbind].
  destruct (starts_with SLASH v) eqn:E3; [split; [discriminate|intuition congruence]|].
  destruct (ends_with SLASH v) eqn:E4; [split; [discriminate|intuition congruence]|].
  destruct (contains_char BACKSLASH v) eqn:E5; [split; [discriminate|intuition congruence]|].
  cbn [orb].
  destruct (is_windows_drive_prefix f) eqn:E6; [split; [discriminate|intuition congruence]|].
  assert (v <> "") by (intros Hv; apply Hlen in Hv; congruence).
  destruct (invalid_component f || existsb invalid_component cs) eqn:E7;
    (split; [try discriminate|]); intuition (discriminate || congruence).
Qed.

(** ** The two reason checks *)

(** A reason the code accepts is refused by the schema only when it is made of
    the bytes that the schema trims, the vertical tab among them. *)
Lemma terminal_reason_check_ok v :
  validate_terminal_reason v = Ok tt ->
  terminal_reason_check v =
    negb (string_all (fun c => byte_in 9 13 c || byte_in 32 32 c) v).
Proof.
  unfold validate_terminal_reason, terminal_reason_check.
  destruct (string_all is_ascii_whitespace v) eqn:Hb; [done|].
  destruct (Z.ltb_spec 1024 (str_len v)) as [|Hl]; [done|].
  destruct (contains_char NUL v); [done|]. intros _.
  apply Z.leb_le in Hl. rewrite Hl.
  assert ((1 <=? str_len v) = true) as ->; [|done].
  destruct v as [|a v]; [done|]. apply Z.leb_le. unfold str_len. cbn. lia.
Qed.
