(* ===== verification/Scans.v ===== *)
(** * Scan sessions

    [voom-store/src/repo/scan/sessions.rs]: one traversal of a storage root by
    its owner node. The owner reports what it sees in numbered batches, which
    form an append-only ledger; completing the session retires the known
    locations that the traversal did not see. The tables the repository reads
    and writes are one record, [ScanDb]; the constraints and triggers of the
    schema are checks of the statements. *)

From S2P Require Import Prelude Json Vocab Operations Store Locators.
From Stdlib Require Import ZArith Lia Bool String Ascii.
From stdpp Require Import base gmap strings list sorting.

Open Scope string_scope.
Open Scope Z_scope.

(** ** Tables *)

Record ScanSessionRow := {
  ss_storage_root_id : Z; ss_root_epoch : Z; ss_owner_node_id : Z;
  ss_owner_incarnation_id : option string; ss_status : ScanSessionStatus;
  ss_next_sequence : Z; ss_batch_count : Z; ss_observation_count : Z;
  ss_idle_timeout_seconds : Z; ss_progress_deadline_at : string;
  ss_location_high_watermark_id : option Z; ss_requested_at : string;
  ss_started_at : option string; ss_terminal_at : option string;
  ss_terminal_reason : option string; ss_retired_location_count : Z;
}.

Record ScanBatchRow := {
  sb_previous_sequence : option Z; sb_request_hash : string; sb_observation_count : Z;
  sb_accepted_at : string; sb_cumulative : Z;
}.

Record ScanObservationRow := {
  so_locator : string; so_identity : string; so_size_bytes : Z; so_modified_at : string;
  so_stability_started_at : string; so_stability_confirmed_at : string;
  so_evidence_json : option string;
}.

Inductive AddressState : Type := Rooted | UnassignedLegacy.
#[global] Instance AddressState_eq_dec : EqDecision AddressState.
Proof. solve_decision. Defined.

(** [file_locations], and the columns of [library_roots] and the two
    commit-intent tables that scans read or write. *)
Record LocationRow := {
  fl_file_version_id : Z; fl_address_state : AddressState; fl_storage_root_id : option Z;
  fl_locator : option string; fl_legacy_kind : option string; fl_legacy_locator : option string;
  fl_proof_kind : option string; fl_proof_value : option string; fl_observed_at : string;
  fl_retired_at : option string; fl_epoch : Z; fl_retired_by : option Z;
}.
Record LibraryRootRow := {
  lr_root_epoch : Z; lr_owner_node_id : option Z; lr_last_scan_session_id : option Z;
}.
Inductive CommitIntentState : Type :=
  | IntentPending | IntentAuthorized | IntentCompleted | IntentAborted | IntentRecoveryRequired.

(** [scan_observation_batches] is keyed by session and sequence,
    [scan_observations] by session, batch sequence and ordinal. A scope member
    is a pair of commit intent and location; an artifact intent pins its
    staging location. *)
Record ScanDb := {
  library_roots : gmap Z LibraryRootRow;
  scan_nodes : gset Z;
  node_incarnations_of : gmap string Z;
  file_version_ids : gset Z;
  file_locations : gmap Z LocationRow;
  scan_sessions : gmap Z ScanSessionRow;
  scan_batches : gmap (Z * Z) ScanBatchRow;
  scan_observations : gmap (Z * Z * Z) ScanObservationRow;
  commit_intents : gmap Z CommitIntentState;
  commit_scope_locations : gset (Z * Z);
  artifact_intents : gmap Z (CommitIntentState * Z);
}.

Definition set_library_roots (m : gmap Z LibraryRootRow) (d : ScanDb) : ScanDb := {|
  library_roots := m; scan_nodes := scan_nodes d;
  node_incarnations_of := node_incarnations_of d; file_version_ids := file_version_ids d;
  file_locations := file_locations d;
  scan_sessions := scan_sessions d; scan_batches := scan_batches d;
  scan_observations := scan_observations d; commit_intents := commit_intents d;
  commit_scope_locations := commit_scope_locations d; artifact_intents := artifact_intents d |}.
Definition set_file_locations (m : gmap Z LocationRow) (d : ScanDb) : ScanDb := {|
  library_roots := library_roots d; scan_nodes := scan_nodes d;
  node_incarnations_of := node_incarnations_of d; file_version_ids := file_version_ids d;
  file_locations := m;
  scan_sessions := scan_sessions d; scan_batches := scan_batches d;
  scan_observations := scan_observations d; commit_intents := commit_intents d;
  commit_scope_locations := commit_scope_locations d; artifact_intents := artifact_intents d |}.
Definition set_scan_sessions (m : gmap Z ScanSessionRow) (d : ScanDb) : ScanDb := {|
  library_roots := library_roots d; scan_nodes := scan_nodes d;
  node_incarnations_of := node_incarnations_of d; file_version_ids := file_version_ids d;
  file_locations := file_locations d;
  scan_sessions := m; scan_batches := scan_batches d;
  scan_observations := scan_observations d; commit_intents := commit_intents d;
  commit_scope_locations := commit_scope_locations d; artifact_intents := artifact_intents d |}.
Definition set_scan_batches (m : gmap (Z * Z) ScanBatchRow) (d : ScanDb) : ScanDb := {|
  library_roots := library_roots d; scan_nodes := scan_nodes d;
  node_incarnations_of := node_incarnations_of d; file_version_ids := file_version_ids d;
  file_locations := file_locations d;
  scan_sessions := scan_sessions d; scan_batches := m;
  scan_observations := scan_observations d; commit_intents := commit_intents d;
  commit_scope_locations := commit_scope_locations d; artifact_intents := artifact_intents d |}.
Definition set_scan_observations (m : gmap (Z * Z * Z) ScanObservationRow) (d : ScanDb) : ScanDb := {|
  library_roots := library_roots d; scan_nodes := scan_nodes d;
  node_incarnations_of := node_incarnations_of d; file_version_ids := file_version_ids d;
  file_locations := file_locations d;
  scan_sessions := scan_sessions d; scan_batches := scan_batches d;
  scan_observations := m; commit_intents := commit_intents d;
  commit_scope_locations := commit_scope_locations d; artifact_intents := artifact_intents d |}.

Abbreviation SM := (Tx ScanDb VoomError).

(** ** Records of the repository *)

Definition MAX_SCAN_SESSION_OBSERVATIONS : Z := 100000.

Record ScanSession := {
  scan_session_id : Z; scan_storage_root_id : Z; scan_root_epoch : Z; scan_owner_node_id : Z;
  scan_owner_incarnation_id : option NodeIncarnationId; scan_status : ScanSessionStatus;
  scan_next_sequence : Z; scan_batch_count : Z; scan_observation_count : Z;
  scan_idle_timeout_seconds : Z; scan_progress_deadline_at : Z;
  scan_high_watermark_id : option Z; scan_requested_at : Z; scan_started_at : option Z;
  scan_terminal_at : option Z; scan_terminal_reason : option string;
  scan_retired_location_count : Z;
}.

Record ScanObservation := {
  ob_locator : string; ob_identity : string; ob_size_bytes : Z; ob_modified_at : Z;
  ob_stability_started_at : Z; ob_stability_confirmed_at : Z;
  ob_evidence : option ScanObservationEvidence;
}.

Record NewScanSession := {
  ns_storage_root_id : Z; ns_root_epoch : Z; ns_owner_node_id : Z;
  ns_idle_timeout_seconds : Z; ns_progress_deadline_at : Z; ns_requested_at : Z;
}.

Record NewScanObservationBatch := {
  nb_scan_session_id : Z; nb_sequence : Z; nb_request_hash : string;
  nb_observations : list ScanObservation; nb_accepted_at : Z; nb_next_progress_deadline_at : Z;
}.

Record CompleteScanSessionInput := {
  co_scan_session_id : Z; co_storage_root_id : Z; co_root_epoch : Z; co_owner_node_id : Z;
  co_owner_incarnation_id : NodeIncarnationId; co_last_sequence : option Z;
  co_observation_count : Z; co_completed_at : Z;
}.

Record ScanCompletionRecord := {
  cr_session : ScanSession; cr_retired_location_ids : list Z;
}.

Record ScanBatchOutcome := {
  bo_scan_session_id : Z; bo_sequence : Z; bo_accepted : Z; bo_cumulative : Z;
}.

Record ScanReconciliationEvidence := {
  re_file_location_id : Z; re_retired_at : Z; re_prior_epoch : Z; re_retired_epoch : Z;
}.

(** ** Integers *)

Definition u64_checked_add (a b : Z) : option Z :=
  if a + b <=? u64_max then Some (a + b) else None.
Definition u64_checked_sub (a b : Z) : option Z := if b <=? a then Some (a - b) else None.
Definition u64_checked_mul (a b : Z) : option Z :=
  if a * b <=? u64_max then Some (a * b) else None.

Definition input_i64 (value : Z) : Res Z := if value <=? i64_max then Ok value else Err EConfig.

(** ** Decoding *)

Definition is_active (s : ScanSession) : bool :=
  is_none (scan_terminal_at s) && is_none (scan_terminal_reason s).
Definition has_start_bindings (s : ScanSession) : bool :=
  is_some (scan_owner_incarnation_id s) && is_some (scan_started_at s).
Definition is_unbound (s : ScanSession) : bool :=
  is_none (scan_owner_incarnation_id s) && is_none (scan_started_at s) &&
  is_none (scan_high_watermark_id s).
Definition has_success_shape (s : ScanSession) : bool :=
  has_start_bindings s && is_some (scan_terminal_at s) && is_none (scan_terminal_reason s).
Definition has_unsuccessful_terminal_shape (s : ScanSession) : bool :=
  is_some (scan_terminal_at s) && is_some (scan_terminal_reason s) &&
  (has_start_bindings s || is_unbound s).

Definition has_valid_lifecycle_shape (s : ScanSession) : bool :=
  match scan_status s with
  | ScanRequested => is_active s && is_unbound s
  | ScanRunning => is_active s && has_start_bindings s
  | ScanSucceeded => has_success_shape s
  | ScanFailed | ScanCancelled | ScanStale => has_unsuccessful_terminal_shape s
  end.

Definition has_coherent_progress_counters (s : ScanSession) : bool :=
  if negb (scan_batch_count s =? scan_next_sequence s) then false else
  if scan_batch_count s =? 0 then scan_observation_count s =? 0 else
  if scan_observation_count s <? scan_batch_count s then false else
  match u64_checked_mul (scan_batch_count s) 1000 with
  | Some maximum => scan_observation_count s <=? maximum
  | None => true
  end.

Definition validate_scan_session (s : ScanSession) : Res unit :=
  if negb ((1 <=? scan_idle_timeout_seconds s) && (scan_idle_timeout_seconds s <=? 86400))
  then Err EDatabase else
  if negb (bool_decide (scan_status s = ScanSucceeded)) &&
     negb (scan_retired_location_count s =? 0) then Err EDatabase else
  if MAX_SCAN_SESSION_OBSERVATIONS <? scan_observation_count s then Err EDatabase else
  if negb (has_coherent_progress_counters s) then Err EDatabase else
  if has_valid_lifecycle_shape s then Ok tt else Err EDatabase.

Section decode.
Context `{Iso8601}.

Definition optional_incarnation_id (value : option string) : Res (option NodeIncarnationId) :=
  transpose (option_map (fun v => ok_or (parse_incarnation_id v) EDatabase) value).

Definition row_to_scan_session (row : Z * ScanSessionRow) : Res ScanSession :=
  let '(key, r) := row in
  id ← u64_from_i64 key;
  storage_root_id ← u64_from_i64 (ss_storage_root_id r);
  root_epoch ← u64_from_i64 (ss_root_epoch r);
  owner_node_id ← u64_from_i64 (ss_owner_node_id r);
  owner_incarnation_id ← optional_incarnation_id (ss_owner_incarnation_id r);
  next_sequence ← u64_from_i64 (ss_next_sequence r);
  batch_count ← u64_from_i64 (ss_batch_count r);
  observation_count ← u64_from_i64 (ss_observation_count r);
  idle_timeout_seconds ← u32_from_i64 (ss_idle_timeout_seconds r);
  progress_deadline_at ← parse_iso8601 (ss_progress_deadline_at r);
  high_watermark ← transpose (option_map u64_from_i64 (ss_location_high_watermark_id r));
  requested_at ← parse_iso8601 (ss_requested_at r);
  started_at ← transpose (option_map parse_iso8601 (ss_started_at r));
  terminal_at ← transpose (option_map parse_iso8601 (ss_terminal_at r));
  terminal_reason ← transpose (option_map ScanTerminalReason_parse_database (ss_terminal_reason r));
  retired_location_count ← u64_from_i64 (ss_retired_location_count r);
  let session := {|
    scan_session_id := id; scan_storage_root_id := storage_root_id;
    scan_root_epoch := root_epoch; scan_owner_node_id := owner_node_id;
    scan_owner_incarnation_id := owner_incarnation_id; scan_status := ss_status r;
    scan_next_sequence := next_sequence; scan_batch_count := batch_count;
    scan_observation_count := observation_count;
    scan_idle_timeout_seconds := idle_timeout_seconds;
    scan_progress_deadline_at := progress_deadline_at;
    scan_high_watermark_id := high_watermark; scan_requested_at := requested_at;
    scan_started_at := started_at; scan_terminal_at := terminal_at;
    scan_terminal_reason := terminal_reason;
    scan_retired_location_count := retired_location_count |} in
  _ ← validate_scan_session session;
  Ok session.

Definition validate_scan_session_integrity (s : ScanSession) (attributed : Z) : Res unit :=
  if negb (bool_decide (scan_status s = ScanSucceeded)) && negb (attributed =? 0)
  then Err EDatabase else
  if bool_decide (scan_status s = ScanSucceeded) &&
     negb (scan_retired_location_count s =? attributed) then Err EDatabase else
  Ok tt.

(** [SELECT COUNT( * ) FROM file_locations WHERE retired_by_scan_session_id = id]. *)
Definition attributed_location_count (d : ScanDb) (id : Z) : Z :=
  count_where (fun _ l => bool_decide (fl_retired_by l = Some id)) (file_locations d).

Definition row_to_inspected_scan_session (d : ScanDb) (row : Z * ScanSessionRow) :
    Res ScanSession :=
  session ← row_to_scan_session row;
  attributed ← u64_from_i64 (attributed_location_count d row.1);
  _ ← validate_scan_session_integrity session attributed;
  Ok session.

(** [CASE WHEN session.owner_incarnation_id IS NULL OR incarnation.node_id =
    session.owner_node_id THEN 1 ELSE 0 END] over the left join. *)
Definition owner_incarnation_valid (d : ScanDb) (r : ScanSessionRow) : bool :=
  match ss_owner_incarnation_id r with
  | None => true
  | Some i => bool_decide (node_incarnations_of d !! i = Some (ss_owner_node_id r))
  end.

Definition row_to_mutation_session (d : ScanDb) (row : Z * ScanSessionRow) : Res ScanSession :=
  session ← row_to_scan_session row;
  if owner_incarnation_valid d row.2 then Ok session else Err EDatabase.

Definition fetch_session (f : ScanDb -> Z * ScanSessionRow -> Res ScanSession) (id : Z) :
    SM (option ScanSession) :=
  key ← lift (i64_from_u64 id);
  getsR (fun d => transpose (option_map (fun r => f d (key, r)) (scan_sessions d !! key))).

Definition Scan_get_in_tx (id : Z) : SM (option ScanSession) :=
  fetch_session row_to_inspected_scan_session id.
Definition Scan_get (id : Z) : SM (option ScanSession) := Scan_get_in_tx id.

Definition mutation_session_in_tx (id : Z) : SM (option ScanSession) :=
  fetch_session row_to_mutation_session id.

Definition active_status (s : ScanSessionStatus) : bool :=
  match s with ScanRequested | ScanRunning => true | _ => false end.

Definition active_for_root_in_tx (storage_root_id : Z) : SM (option ScanSession) :=
  root ← lift (i64_from_u64 storage_root_id);
  getsR (fun d => transpose (option_map row_to_scan_session
    (head (select_asc (fun _ r =>
       (ss_storage_root_id r =? root) && active_status (ss_status r)) (scan_sessions d))))).
End decode.

(** ** Statements on [scan_sessions] *)

(** The table's [CHECK]s. *)
Definition progress_check (r : ScanSessionRow) : bool :=
  (ss_batch_count r =? ss_next_sequence r) &&
  (((ss_batch_count r =? 0) && (ss_observation_count r =? 0)) ||
   ((0 <? ss_batch_count r) && (ss_batch_count r <=? ss_observation_count r) &&
    ((ss_observation_count r / ss_batch_count r <? 1000) ||
     ((ss_observation_count r / ss_batch_count r =? 1000) &&
      (ss_observation_count r mod ss_batch_count r =? 0))))).

Definition lifecycle_check (r : ScanSessionRow) : bool :=
  let inc := ss_owner_incarnation_id r in
  let started := ss_started_at r in
  let hw := ss_location_high_watermark_id r in
  let term := ss_terminal_at r in
  let reason := ss_terminal_reason r in
  match ss_status r with
  | ScanRequested => is_none inc && is_none started && is_none hw && is_none term && is_none reason
  | ScanRunning => is_some inc && is_some started && is_none term && is_none reason
  | ScanSucceeded => is_some inc && is_some started && is_some term && is_none reason
  | ScanFailed | ScanCancelled | ScanStale =>
      is_some term && is_some reason &&
      ((is_none inc && is_none started && is_none hw) || (is_some inc && is_some started))
  end.

Definition session_check (r : ScanSessionRow) : bool :=
  (0 <=? ss_root_epoch r) && (0 <=? ss_next_sequence r) && (0 <=? ss_batch_count r) &&
  (0 <=? ss_observation_count r) && (ss_observation_count r <=? 100000) &&
  (1 <=? ss_idle_timeout_seconds r) && (ss_idle_timeout_seconds r <=? 86400) &&
  match ss_terminal_reason r with None => true | Some v => terminal_reason_check v end &&
  (0 <=? ss_retired_location_count r) &&
  (bool_decide (ss_status r = ScanSucceeded) || (ss_retired_location_count r =? 0)) &&
  progress_check r && lifecycle_check r.

(** The foreign keys of a session row. *)
Definition session_references (d : ScanDb) (r : ScanSessionRow) : bool :=
  bool_decide (is_Some (library_roots d !! ss_storage_root_id r)) &&
  bool_decide (ss_owner_node_id r ∈ scan_nodes d) && owner_incarnation_valid d r &&
  match ss_location_high_watermark_id r with
  | None => true
  | Some l =>
      match file_locations d !! l with
      | Some row => bool_decide (fl_storage_root_id row = Some (ss_storage_root_id r))
      | None => false
      end
  end.

(** The unique index [scan_sessions_one_active_per_root]. *)
Definition active_elsewhere (d : ScanDb) (id root : Z) : bool :=
  existsb (fun kv => negb (kv.1 =? id) && (ss_storage_root_id kv.2 =? root) &&
                     active_status (ss_status kv.2)) (map_to_list (scan_sessions d)).

(** [UPDATE scan_sessions SET .. WHERE cond RETURNING ..] with the rows in id
    order. No update of the repository makes an inactive session active, and
    only [start_in_tx] writes foreign-key columns: [check] is what the new rows
    must satisfy. *)
Definition update_sessions (cond : Z -> ScanSessionRow -> bool)
    (upd : ScanSessionRow -> ScanSessionRow) (check : ScanDb -> ScanSessionRow -> bool) :
    SM (list (Z * ScanSessionRow)) :=
  hits ← gets (fun d => select_asc cond (scan_sessions d));
  let rows := map (fun kv => (kv.1, upd kv.2)) hits in
  checked ← gets (fun d => forallb (fun kv => check d kv.2) rows);
  if negb checked then throw EDatabase else
  _ ← modify (fun d => set_scan_sessions
        (foldl (fun m kv => <[kv.1 := kv.2]> m) (scan_sessions d) rows) d);
  mret rows.

Definition requested_row (input : NewScanSession) (deadline requested : string) :
    ScanSessionRow := {|
  ss_storage_root_id := ns_storage_root_id input; ss_root_epoch := ns_root_epoch input;
  ss_owner_node_id := ns_owner_node_id input; ss_owner_incarnation_id := None;
  ss_status := ScanRequested; ss_next_sequence := 0; ss_batch_count := 0;
  ss_observation_count := 0; ss_idle_timeout_seconds := ns_idle_timeout_seconds input;
  ss_progress_deadline_at := deadline; ss_location_high_watermark_id := None;
  ss_requested_at := requested; ss_started_at := None; ss_terminal_at := None;
  ss_terminal_reason := None; ss_retired_location_count := 0 |}.

Definition started_row (incarnation : string) (hw : option Z) (deadline now : string)
    (r : ScanSessionRow) : ScanSessionRow := {|
  ss_storage_root_id := ss_storage_root_id r; ss_root_epoch := ss_root_epoch r;
  ss_owner_node_id := ss_owner_node_id r; ss_owner_incarnation_id := Some incarnation;
  ss_status := ScanRunning; ss_next_sequence := ss_next_sequence r;
  ss_batch_count := ss_batch_count r; ss_observation_count := ss_observation_count r;
  ss_idle_timeout_seconds := ss_idle_timeout_seconds r; ss_progress_deadline_at := deadline;
  ss_location_high_watermark_id := hw; ss_requested_at := ss_requested_at r;
  ss_started_at := Some now; ss_terminal_at := ss_terminal_at r;
  ss_terminal_reason := ss_terminal_reason r;
  ss_retired_location_count := ss_retired_location_count r |}.

(** [SET status = ?, terminal_reason = ?, terminal_at = ?]. *)
Definition terminal_row (status : ScanSessionStatus) (reason : option string) (retired : Z)
    (now : string) (r : ScanSessionRow) : ScanSessionRow := {|
  ss_storage_root_id := ss_storage_root_id r; ss_root_epoch := ss_root_epoch r;
  ss_owner_node_id := ss_owner_node_id r;
  ss_owner_incarnation_id := ss_owner_incarnation_id r; ss_status := status;
  ss_next_sequence := ss_next_sequence r; ss_batch_count := ss_batch_count r;
  ss_observation_count := ss_observation_count r;
  ss_idle_timeout_seconds := ss_idle_timeout_seconds r;
  ss_progress_deadline_at := ss_progress_deadline_at r;
  ss_location_high_watermark_id := ss_location_high_watermark_id r;
  ss_requested_at := ss_requested_at r; ss_started_at := ss_started_at r;
  ss_terminal_at := Some now; ss_terminal_reason := reason;
  ss_retired_location_count := retired |}.

Definition progressed_row (next batches observations : Z) (deadline : string)
    (r : ScanSessionRow) : ScanSessionRow := {|
  ss_storage_root_id := ss_storage_root_id r; ss_root_epoch := ss_root_epoch r;
  ss_owner_node_id := ss_owner_node_id r;
  ss_owner_incarnation_id := ss_owner_incarnation_id r; ss_status := ss_status r;
  ss_next_sequence := next; ss_batch_count := batches; ss_observation_count := observations;
  ss_idle_timeout_seconds := ss_idle_timeout_seconds r; ss_progress_deadline_at := deadline;
  ss_location_high_watermark_id := ss_location_high_watermark_id r;
  ss_requested_at := ss_requested_at r; ss_started_at := ss_started_at r;
  ss_terminal_at := ss_terminal_at r; ss_terminal_reason := ss_terminal_reason r;
  ss_retired_location_count := ss_retired_location_count r |}.

(** ** Session operations *)

Definition validate_new_session (input : NewScanSession) : Res unit :=
  if (1 <=? ns_idle_timeout_seconds input) && (ns_idle_timeout_seconds input <=? 86400)
  then Ok tt else Err EConfig.

Section operations.
Context `{Iso8601}.

Definition insert_requested_in_tx (input : NewScanSession) : SM ScanSession :=
  _ ← lift (validate_new_session input);
  root ← lift (i64_from_u64 (ns_storage_root_id input));
  _ ← lift (i64_from_u64 (ns_root_epoch input));
  _ ← lift (i64_from_u64 (ns_owner_node_id input));
  deadline ← lift (iso8601 (ns_progress_deadline_at input));
  requested ← lift (iso8601 (ns_requested_at input));
  let r := requested_row input deadline requested in
  id ← gets (fun d => next_rowid (scan_sessions d));
  if negb (session_check r) then throw EDatabase else
  taken ← gets (fun d => active_elsewhere d id root);
  if (taken : bool) then
    _ ← active_for_root_in_tx (ns_storage_root_id input);
    throw EConflict
  else
  referenced ← gets (fun d => session_references d r);
  if negb referenced then throw EDatabase else
  _ ← modify (fun d => set_scan_sessions (<[id := r]> (scan_sessions d)) d);
  lift (row_to_scan_session (id, r)).

(** The two staleness sweeps: the sessions to close are read and decoded
    first, then updated by id; every one must be affected. *)
Definition stale_sessions (candidates : ScanSessionRow -> bool) (pick : ScanSession -> bool)
    (reason : string) (now : Z) : SM (list ScanSession) :=
  active ← getsR (fun d => collect (row_to_mutation_session d)
    (select_asc (fun _ r => candidates r) (scan_sessions d)));
  ids ← lift (collect (fun s => i64_from_u64 (scan_session_id s)) (List.filter pick active));
  if (List.length ids =? 0)%nat then mret [] else
  now_str ← lift (iso8601 now);
  rows ← update_sessions (fun id r => candidates r && bool_decide (id ∈ ids))
    (fun r => terminal_row ScanStale (Some reason) (ss_retired_location_count r) now_str r)
    (fun _ => session_check);
  sessions ← lift (collect row_to_scan_session rows);
  if negb (List.length sessions =? List.length ids)%nat then throw EDatabase else
  mret sessions.

Definition stale_expired_in_tx (now : Z) : SM (list ScanSession) :=
  stale_sessions (fun r => active_status (ss_status r))
    (fun s => scan_progress_deadline_at s <=? now)
    "scan session progress deadline expired" now.

Definition stale_running_for_incarnation_in_tx (incarnation : NodeIncarnationId)
    (reason : string) (now : Z) : SM (list ScanSession) :=
  stale_sessions (fun r => bool_decide (ss_status r = ScanRunning))
    (fun s => bool_decide (scan_owner_incarnation_id s = Some incarnation)) reason now.

Definition validate_incarnation_owner_in_tx (incarnation : NodeIncarnationId) (owner : Z) :
    SM unit :=
  node ← lift (i64_from_u64 owner);
  valid ← gets (fun d => bool_decide
    (node_incarnations_of d !! NodeIncarnationId_display incarnation = Some node));
  if (valid : bool) then mret tt else throw EDatabase.

(** A location a scan of [root] can reconcile. *)
Definition live_rooted (root : Z) (l : LocationRow) : bool :=
  bool_decide (fl_storage_root_id l = Some root) &&
  bool_decide (fl_address_state l = Rooted) && is_none (fl_retired_at l).

(** [SELECT MAX(id) FROM file_locations WHERE .. live and rooted]. *)
Definition high_watermark (d : ScanDb) (root : Z) : option Z :=
  match last (select_asc (fun _ l => live_rooted root l) (file_locations d)) with
  | Some (id, _) => Some id
  | None => None
  end.

Definition start_in_tx (id : Z) (incarnation : NodeIncarnationId) (deadline now : Z) :
    SM ScanSession :=
  found ← mutation_session_in_tx id;
  session ← lift (ok_or found ENotFound);
  if negb (bool_decide (scan_status session = ScanRequested)) then throw EConflict else
  _ ← validate_incarnation_owner_in_tx incarnation (scan_owner_node_id session);
  root ← lift (i64_from_u64 (scan_storage_root_id session));
  hw ← getsR (fun d => transpose (option_map u64_from_i64 (high_watermark d root)));
  hw_key ← lift (transpose (option_map i64_from_u64 hw));
  deadline_str ← lift (iso8601 deadline);
  now_str ← lift (iso8601 now);
  key ← lift (i64_from_u64 id);
  rows ← update_sessions (fun k r => (k =? key) && bool_decide (ss_status r = ScanRequested))
    (started_row (NodeIncarnationId_display incarnation) hw_key deadline_str now_str)
    (fun d r => session_check r && session_references d r);
  row ← lift (ok_or (head rows) EConflict);
  lift (row_to_scan_session row).

Definition terminalize_in_tx (id : Z) (status : ScanSessionStatus) (reason : string) (now : Z) :
    SM ScanSession :=
  if negb (bool_decide (status ∈ [ScanFailed; ScanCancelled; ScanStale])) then throw EConfig else
  found ← mutation_session_in_tx id;
  session ← lift (ok_or found EConflict);
  if negb (active_status (scan_status session)) then throw EConflict else
  now_str ← lift (iso8601 now);
  key ← lift (i64_from_u64 id);
  rows ← update_sessions (fun k r => (k =? key) && active_status (ss_status r))
    (fun r => terminal_row status (Some reason) (ss_retired_location_count r) now_str r)
    (fun _ => session_check);
  row ← lift (ok_or (head rows) EConflict);
  lift (row_to_scan_session row).
End operations.

(** ** Batches *)

Definition is_lowercase_sha256 (value : string) : bool :=
  (str_len value =? 64) && string_all (fun c => byte_in 48 57 c || byte_in 97 102 c) value.

Definition identity_ok (identity : string) : bool :=
  negb ((str_len identity =? 0) || (4096 <? str_len identity) || contains_char NUL identity).

Definition validate_provider_object_identity (value : string) : Res unit :=
  if identity_ok value then Ok tt else Err EDatabase.

Definition validate_batch_observation (o : ScanObservation) : Res unit :=
  if negb (identity_ok (ob_identity o)) then Err EConfig else
  if ob_stability_confirmed_at o <? ob_stability_started_at o then Err EConfig else Ok tt.

Definition validate_batch_shape (input : NewScanObservationBatch) : Res unit :=
  let n := Z.of_nat (List.length (nb_observations input)) in
  if negb ((1 <=? n) && (n <=? 1000)) then Err EConfig else
  if is_lowercase_sha256 (nb_request_hash input) then Ok tt else Err EConfig.

(** [PreparedBatch]: the converted input. The ordinal of an observation is its
    position. *)
Record PreparedBatch := {
  pb_scan_session_id : Z; pb_sequence : Z; pb_request_hash : string;
  pb_observations : list ScanObservationRow; pb_observation_count : Z;
  pb_accepted_at : string; pb_next_progress_deadline_at : string;
}.

Section batches.
Context `{Iso8601, EvidenceCodec}.

Definition PreparedObservation_new (ordinal : Z) (o : ScanObservation) : Res ScanObservationRow :=
  _ ← validate_batch_observation o;
  _ ← input_i64 ordinal;
  size ← input_i64 (ob_size_bytes o);
  modified_at ← iso8601 (ob_modified_at o);
  started ← iso8601 (ob_stability_started_at o);
  confirmed ← iso8601 (ob_stability_confirmed_at o);
  evidence_json ← transpose (option_map ScanObservationEvidence_to_database_json (ob_evidence o));
  Ok {| so_locator := ob_locator o; so_identity := ob_identity o; so_size_bytes := size;
        so_modified_at := modified_at; so_stability_started_at := started;
        so_stability_confirmed_at := confirmed; so_evidence_json := evidence_json |}.

(** The loop of [PreparedBatch::new]; [seen] is the set of locators so far. *)
Fixpoint prepare_observations (ordinal : Z) (seen : gset string) (l : list ScanObservation) :
    Res (list ScanObservationRow) :=
  match l with
  | [] => Ok []
  | o :: l' =>
      if bool_decide (ob_locator o ∈ seen) then Err EConflict else
      p ← PreparedObservation_new ordinal o;
      ps ← prepare_observations (ordinal + 1) ({[ob_locator o]} ∪ seen) l';
      Ok (p :: ps)
  end.

Definition PreparedBatch_new (input : NewScanObservationBatch) : Res PreparedBatch :=
  _ ← validate_batch_shape input;
  session_id ← input_i64 (nb_scan_session_id input);
  sequence ← input_i64 (nb_sequence input);
  count ← input_i64 (Z.of_nat (List.length (nb_observations input)));
  observations ← prepare_observations 0 ∅ (nb_observations input);
  accepted_at ← iso8601 (nb_accepted_at input);
  deadline ← iso8601 (nb_next_progress_deadline_at input);
  Ok {| pb_scan_session_id := session_id; pb_sequence := sequence;
        pb_request_hash := nb_request_hash input; pb_observations := observations;
        pb_observation_count := count; pb_accepted_at := accepted_at;
        pb_next_progress_deadline_at := deadline |}.

(** A batch row with the sequence and cumulative count of the batch its
    [previous_sequence] names. *)
Definition batch_with_predecessor (d : ScanDb) (session sequence : Z) :
    option (ScanBatchRow * option (Z * Z)) :=
  b ← scan_batches d !! (session, sequence);
  Some (b, p ← sb_previous_sequence b;
           pb ← scan_batches d !! (session, p);
           Some (p, sb_cumulative pb)).

Definition batch_outcome_from_row (b : ScanBatchRow) (session sequence : Z) :
    Res ScanBatchOutcome :=
  accepted ← u64_from_i64 (sb_observation_count b);
  cumulative ← u64_from_i64 (sb_cumulative b);
  if negb ((1 <=? accepted) && (accepted <=? 1000)) || (cumulative <? accepted) ||
     (MAX_SCAN_SESSION_OBSERVATIONS <? cumulative) then Err EDatabase else
  Ok {| bo_scan_session_id := session; bo_sequence := sequence; bo_accepted := accepted;
        bo_cumulative := cumulative |}.

Definition validate_batch_link (row : ScanBatchRow * option (Z * Z)) (session sequence : Z) :
    Res ScanBatchOutcome :=
  outcome ← batch_outcome_from_row row.1 session sequence;
  previous ← transpose (option_map u64_from_i64 (sb_previous_sequence row.1));
  predecessor_sequence ← transpose (option_map (fun p => u64_from_i64 p.1) row.2);
  predecessor_cumulative ← transpose (option_map (fun p => u64_from_i64 p.2) row.2);
  if sequence =? 0 then
    if is_some previous || is_some predecessor_sequence || is_some predecessor_cumulative ||
       negb (bo_cumulative outcome =? bo_accepted outcome) then Err EDatabase
    else Ok outcome
  else
  let expected_previous := u64_checked_sub sequence 1 in
  let expected_cumulative :=
    c ← predecessor_cumulative; u64_checked_add c (bo_accepted outcome) in
  if negb (bool_decide (previous = expected_previous)) ||
     negb (bool_decide (predecessor_sequence = expected_previous)) ||
     negb (bool_decide (expected_cumulative = Some (bo_cumulative outcome))) then Err EDatabase
  else Ok outcome.

Definition batch_replay_in_tx (input : PreparedBatch) : SM (option ScanBatchOutcome) :=
  row ← gets (fun d => batch_with_predecessor d (pb_scan_session_id input) (pb_sequence input));
  match row with
  | None => mret None
  | Some row =>
      outcome ← lift (validate_batch_link row (pb_scan_session_id input) (pb_sequence input));
      if negb (is_lowercase_sha256 (sb_request_hash row.1)) then throw EDatabase else
      if negb (String.eqb (sb_request_hash row.1) (pb_request_hash input)) then throw EConflict
      else mret (Some outcome)
  end.

Definition validate_batch_replay_parent_frontier_in_tx (session : ScanSession)
    (outcome : ScanBatchOutcome) : SM unit :=
  replayed_frontier ← lift (ok_or (u64_checked_add (bo_sequence outcome) 1) EDatabase);
  if (scan_next_sequence session <? replayed_frontier) ||
     ((replayed_frontier =? scan_next_sequence session) &&
      (negb (scan_batch_count session =? replayed_frontier) ||
       negb (scan_observation_count session =? bo_cumulative outcome))) then throw EDatabase else
  frontier_sequence ← lift (ok_or (u64_checked_sub (scan_next_sequence session) 1) EDatabase);
  session_id ← lift (i64_from_u64 (scan_session_id session));
  frontier_key ← lift (i64_from_u64 frontier_sequence);
  row ← gets (fun d => batch_with_predecessor d session_id frontier_key);
  row ← lift (ok_or row EDatabase);
  frontier ← lift (validate_batch_link row (scan_session_id session) frontier_sequence);
  if negb (bo_cumulative frontier =? scan_observation_count session) then throw EDatabase
  else mret tt.

Definition validate_new_batch_predecessor_in_tx (session : ScanSession) (sequence : Z) :
    SM unit :=
  match u64_checked_sub sequence 1 with
  | None => if scan_observation_count session =? 0 then mret tt else throw EDatabase
  | Some previous_sequence =>
      previous_key ← lift (i64_from_u64 previous_sequence);
      session_id ← lift (i64_from_u64 (scan_session_id session));
      row ← gets (fun d => batch_with_predecessor d session_id previous_key);
      row ← lift (ok_or row EDatabase);
      predecessor ← lift (validate_batch_link row (scan_session_id session) previous_sequence);
      if negb (bo_cumulative predecessor =? scan_observation_count session) then throw EDatabase
      else mret tt
  end.

(** [EXISTS(SELECT 1 FROM scan_observations WHERE scan_session_id = ? AND
    provider_relative_locator = ?)]. *)
Definition locator_observed (d : ScanDb) (session : Z) (locator : string) : bool :=
  existsb (fun kv => (kv.1.1.1 =? session) && String.eqb (so_locator kv.2) locator)
    (map_to_list (scan_observations d)).

Definition ensure_new_locators_in_tx (input : PreparedBatch) : SM unit :=
  for_each (fun o =>
    exists_ ← gets (fun d => locator_observed d (pb_scan_session_id input) (so_locator o));
    if (exists_ : bool) then throw EConflict else mret tt) (pb_observations input).

Definition update_batch_progress_in_tx (input : PreparedBatch)
    (next batches cumulative current : Z) : SM nat :=
  rows ← update_sessions (fun k r =>
      (k =? pb_scan_session_id input) && bool_decide (ss_status r = ScanRunning) &&
      (ss_next_sequence r =? pb_sequence input) && (ss_observation_count r =? current))
    (progressed_row next batches cumulative (pb_next_progress_deadline_at input))
    (fun _ => session_check);
  mret (List.length rows).

(** The [CHECK]s, the two insert triggers, the primary key and the foreign
    keys of [scan_observation_batches]: each failure is a database error. *)
Definition batch_insertable (d : ScanDb) (session sequence : Z) (b : ScanBatchRow) : bool :=
  (0 <=? sequence) && is_lowercase_sha256 (sb_request_hash b) &&
  (1 <=? sb_observation_count b) && (sb_observation_count b <=? 1000) &&
  (sb_observation_count b <=? sb_cumulative b) && (sb_cumulative b <=? 100000) &&
  match sb_previous_sequence b with
  | None => (sequence =? 0) && (sb_cumulative b =? sb_observation_count b)
  | Some p =>
      (0 <? sequence) && (p =? sequence - 1) &&
      match scan_batches d !! (session, p) with
      | Some pb => sb_cumulative b =? sb_cumulative pb + sb_observation_count b
      | None => false
      end
  end &&
  match scan_sessions d !! session with
  | Some r => (ss_next_sequence r =? sequence + 1) && (ss_batch_count r =? sequence + 1) &&
              (ss_observation_count r =? sb_cumulative b)
  | None => false
  end &&
  bool_decide (scan_batches d !! (session, sequence) = None).

Definition insert_batch_in_tx (input : PreparedBatch) (cumulative : Z) : SM unit :=
  let b := {| sb_previous_sequence :=
                if 0 <? pb_sequence input then Some (pb_sequence input - 1) else None;
              sb_request_hash := pb_request_hash input;
              sb_observation_count := pb_observation_count input;
              sb_accepted_at := pb_accepted_at input; sb_cumulative := cumulative |} in
  insertable ← gets (fun d =>
    batch_insertable d (pb_scan_session_id input) (pb_sequence input) b);
  if negb insertable then throw EDatabase else
  modify (fun d => set_scan_batches
    (<[(pb_scan_session_id input, pb_sequence input) := b]> (scan_batches d)) d).

(** The [CHECK]s of [scan_observations]; [json_valid] holds of what [serde_json]
    wrote. *)
Definition observation_check (sequence ordinal : Z) (o : ScanObservationRow) : bool :=
  (0 <=? sequence) && (0 <=? ordinal) && locator_check (so_locator o) &&
  identity_ok (so_identity o) && (0 <=? so_size_bytes o) &&
  text_le (so_stability_started_at o) (so_stability_confirmed_at o).

Fixpoint insert_observations (session sequence ordinal : Z) (l : list ScanObservationRow) :
    SM unit :=
  match l with
  | [] => mret tt
  | o :: l' =>
      if negb (observation_check sequence ordinal o) then throw EDatabase else
      duplicate ← gets (fun d => locator_observed d session (so_locator o) ||
        bool_decide (is_Some (scan_observations d !! (session, sequence, ordinal))));
      if (duplicate : bool) then throw EConflict else
      parent ← gets (fun d => bool_decide (is_Some (scan_batches d !! (session, sequence))));
      if negb parent then throw EDatabase else
      _ ← modify (fun d => set_scan_observations
            (<[(session, sequence, ordinal) := o]> (scan_observations d)) d);
      insert_observations session sequence (ordinal + 1) l'
  end.

Definition insert_observations_in_tx (input : PreparedBatch) : SM unit :=
  insert_observations (pb_scan_session_id input) (pb_sequence input) 0 (pb_observations input).

Definition persist_new_batch_in_tx (input : PreparedBatch)
    (next batches cumulative current : Z) : SM unit :=
  updated ← update_batch_progress_in_tx input next batches cumulative current;
  if negb (updated =? 1)%nat then throw EConflict else
  _ ← insert_batch_in_tx input cumulative;
  insert_observations_in_tx input.

Definition accepted_batch_in_tx (new : NewScanObservationBatch) : SM ScanBatchOutcome :=
  input ← lift (PreparedBatch_new new);
  found ← mutation_session_in_tx (pb_scan_session_id input);
  session ← lift (ok_or found ENotFound);
  replay ← batch_replay_in_tx input;
  match replay with
  | Some outcome =>
      _ ← validate_batch_replay_parent_frontier_in_tx session outcome;
      mret outcome
  | None =>
      if pb_sequence input <? scan_next_sequence session then throw EDatabase else
      if negb (bool_decide (scan_status session = ScanRunning)) ||
         negb (scan_next_sequence session =? pb_sequence input) then throw EConflict else
      _ ← validate_new_batch_predecessor_in_tx session (pb_sequence input);
      cumulative_count ← lift (ok_or
        (u64_checked_add (scan_observation_count session) (pb_observation_count input)) EDatabase);
      if MAX_SCAN_SESSION_OBSERVATIONS <? cumulative_count then throw EConflict else
      _ ← ensure_new_locators_in_tx input;
      next_sequence ← lift (ok_or (u64_checked_add (scan_next_sequence session) 1) EDatabase);
      batch_count ← lift (ok_or (u64_checked_add (scan_batch_count session) 1) EDatabase);
      cumulative ← lift (i64_from_u64 cumulative_count);
      next ← lift (i64_from_u64 next_sequence);
      batches ← lift (i64_from_u64 batch_count);
      current ← lift (i64_from_u64 (scan_observation_count session));
      _ ← savepoint (fun _ => true)
            (persist_new_batch_in_tx input next batches cumulative current);
      mret {| bo_scan_session_id := pb_scan_session_id input; bo_sequence := pb_sequence input;
              bo_accepted := pb_observation_count input; bo_cumulative := cumulative_count |}
  end.
End batches.

(** ** Completion *)

(** A keyset loop: fetch a page after the cursor, fold it, move the cursor to
    its last row, stop at an empty page. Each page advances, so as many pages
    as rows, and one more, always suffice. *)
Fixpoint fold_res {A R} (step : A -> R -> Res A) (acc : A) (l : list R) : Res A :=
  match l with [] => Ok acc | x :: l' => acc' ← step acc x; fold_res step acc' l' end.

Definition page_after {K R} (before : K -> K -> bool) (cursor : option K) (limit : nat)
    (rows : list (K * R)) : list (K * R) :=
  take limit (List.filter (fun kr =>
    match cursor with None => true | Some c => before c kr.1 end) rows).

Fixpoint paged_fold {K R A} (before : K -> K -> bool) (limit : nat) (rows : list (K * R))
    (step : A -> K * R -> Res A) (fuel : nat) (cursor : option K) (acc : A) : Res A :=
  match fuel with
  | O => Err EInternal
  | S fuel' =>
      let page := page_after before cursor limit rows in
      match last page with
      | None => Ok acc
      | Some kr =>
          acc' ← fold_res step acc page;
          paged_fold before limit rows step fuel' (Some kr.1) acc'
      end
  end.

Definition COMPLETION_LEDGER_PAGE_SIZE : nat := 256.

(** The batches of a session by sequence, and its observations by batch
    sequence and ordinal. *)
Definition batches_of (d : ScanDb) (session : Z) : list (Z * ScanBatchRow) :=
  merge_sort key_le (omap (fun kv => if kv.1.1 =? session then Some (kv.1.2, kv.2) else None)
    (map_to_list (scan_batches d))).

Definition position_lt (x y : Z * Z) : bool :=
  (x.1 <? y.1) || ((x.1 =? y.1) && (x.2 <? y.2)).
Definition position_le {A} (x y : (Z * Z) * A) : Prop :=
  position_lt x.1 y.1 = true \/ x.1 = y.1.
#[global] Instance position_le_dec {A} : RelDecision (@position_le A).
Proof. intros x y. unfold position_le. apply _. Defined.

Definition observations_of (d : ScanDb) (session : Z) : list ((Z * Z) * ScanObservationRow) :=
  merge_sort position_le
    (omap (fun kv => if kv.1.1.1 =? session then Some ((kv.1.1.2, kv.1.2), kv.2) else None)
      (map_to_list (scan_observations d))).

Section completion.
Context `{Iso8601, EvidenceCodec}.

Definition decode_observation_row (o : ScanObservationRow) : Res ScanObservation :=
  _ ← validate_provider_object_identity (so_identity o);
  evidence ← transpose (option_map ScanObservationEvidence_parse_database (so_evidence_json o));
  locator ← ProviderRelativeLocator_parse_database (so_locator o);
  size ← u64_from_i64 (so_size_bytes o);
  modified_at ← parse_iso8601 (so_modified_at o);
  started ← parse_iso8601 (so_stability_started_at o);
  confirmed ← parse_iso8601 (so_stability_confirmed_at o);
  if confirmed <? started then Err EDatabase else
  Ok {| ob_locator := locator; ob_identity := so_identity o; ob_size_bytes := size;
        ob_modified_at := modified_at; ob_stability_started_at := started;
        ob_stability_confirmed_at := confirmed; ob_evidence := evidence |}.

(** [CompletionLedgerSummary]: batches and observations counted so far. *)
Definition validate_completion_batch (summary : Z * Z) (row : Z * ScanBatchRow) :
    Res (Z * Z) :=
  let '(batch_count, observation_count) := summary in
  let b := row.2 in
  sequence ← u64_from_i64 row.1;
  if negb (sequence =? batch_count) then Err EDatabase else
  previous ← transpose (option_map u64_from_i64 (sb_previous_sequence b));
  if negb (bool_decide (previous = u64_checked_sub sequence 1)) then Err EDatabase else
  if negb (is_lowercase_sha256 (sb_request_hash b)) then Err EDatabase else
  _ ← parse_iso8601 (sb_accepted_at b);
  count ← u64_from_i64 (sb_observation_count b);
  if negb ((1 <=? count) && (count <=? 1000)) then Err EDatabase else
  observations ← ok_or (u64_checked_add observation_count count) EDatabase;
  cumulative ← u64_from_i64 (sb_cumulative b);
  if negb (cumulative =? observations) then Err EDatabase else
  batches ← ok_or (u64_checked_add batch_count 1) EDatabase;
  _ ← i64_from_u64 sequence;
  Ok (batches, observations).

Definition validate_completion_batches_in_tx (session : ScanSession) : SM (Z * Z) :=
  id ← lift (i64_from_u64 (scan_session_id session));
  getsR (fun d => paged_fold Z.ltb COMPLETION_LEDGER_PAGE_SIZE (batches_of d id)
    validate_completion_batch (S (List.length (batches_of d id))) None (0, 0)).

(** [COMPLETION_OBSERVATION_DISTRIBUTION_SQL]: a batch whose observations are
    not numbered [0 .. observation_count - 1], or an observation without its
    batch. *)
Definition batch_ordinals (d : ScanDb) (session sequence : Z) : list Z :=
  omap (fun kv => if (kv.1.1.1 =? session) && (kv.1.1.2 =? sequence) then Some kv.1.2 else None)
    (map_to_list (scan_observations d)).

Definition distribution_invalid (d : ScanDb) (session : Z) : bool :=
  existsb (fun kv =>
    let ordinals := batch_ordinals d session kv.1 in
    negb (Z.of_nat (List.length ordinals) =? sb_observation_count kv.2) ||
    match ordinals with
    | [] => false
    | o :: os =>
        negb (foldl Z.min o os =? 0) ||
        negb (foldl Z.max o os =? sb_observation_count kv.2 - 1)
    end) (batches_of d session) ||
  existsb (fun kv => negb (bool_decide (is_Some (scan_batches d !! (session, kv.1.1)))))
    (observations_of d session).

Definition validate_completion_observation_distribution_in_tx (session : ScanSession) : SM unit :=
  id ← lift (i64_from_u64 (scan_session_id session));
  invalid ← gets (fun d => distribution_invalid d id);
  if (invalid : bool) then throw EDatabase else mret tt.

Definition count_observation (actual : Z) (row : (Z * Z) * ScanObservationRow) : Res Z :=
  _ ← decode_observation_row row.2;
  sequence ← u64_from_i64 row.1.1;
  ordinal ← u64_from_i64 row.1.2;
  _ ← i64_from_u64 sequence;
  _ ← i64_from_u64 ordinal;
  ok_or (u64_checked_add actual 1) EDatabase.

Definition validate_completion_observations_in_tx (session : ScanSession) : SM Z :=
  id ← lift (i64_from_u64 (scan_session_id session));
  getsR (fun d => paged_fold position_lt COMPLETION_LEDGER_PAGE_SIZE (observations_of d id)
    count_observation (S (List.length (observations_of d id))) None 0).

Definition validate_completion_ledger_in_tx (session : ScanSession) : SM unit :=
  if negb (scan_batch_count session =? scan_next_sequence session) then throw EDatabase else
  summary ← validate_completion_batches_in_tx session;
  if negb (summary.1 =? scan_batch_count session) ||
     negb (summary.2 =? scan_observation_count session) then throw EDatabase else
  _ ← validate_completion_observation_distribution_in_tx session;
  actual ← validate_completion_observations_in_tx session;
  if negb (actual =? summary.2) then throw EDatabase else mret tt.

Definition collect_observation (observations : list ScanObservation)
    (row : (Z * Z) * ScanObservationRow) : Res (list ScanObservation) :=
  sequence ← u64_from_i64 row.1.1;
  ordinal ← u64_from_i64 row.1.2;
  _ ← i64_from_u64 sequence;
  _ ← i64_from_u64 ordinal;
  o ← decode_observation_row row.2;
  Ok (observations ++ [o])%list.

Definition session_observations_in_tx (id : Z) : SM (list ScanObservation) :=
  key ← lift (i64_from_u64 id);
  getsR (fun d => paged_fold position_lt COMPLETION_LEDGER_PAGE_SIZE (observations_of d key)
    collect_observation (S (List.length (observations_of d key))) None []).

Definition completion_session_in_tx (input : CompleteScanSessionInput) : SM ScanSession :=
  found ← mutation_session_in_tx (co_scan_session_id input);
  lift (ok_or found EDatabase).

Definition validate_completion_high_watermark_in_tx (session : ScanSession) : SM unit :=
  match scan_high_watermark_id session with
  | None => mret tt
  | Some hw =>
      key ← lift (i64_from_u64 hw);
      row ← gets (fun d => file_locations d !! key);
      row ← lift (ok_or row EDatabase);
      root ← lift (ok_or (fl_storage_root_id row) EDatabase);
      root ← lift (u64_from_i64 root);
      if negb (root =? scan_storage_root_id session) then throw EDatabase else mret tt
  end.

Definition validate_completion_authority_binding (session : ScanSession)
    (input : CompleteScanSessionInput) : Res unit :=
  if negb (scan_storage_root_id session =? co_storage_root_id input) ||
     negb (scan_root_epoch session =? co_root_epoch input) ||
     negb (scan_owner_node_id session =? co_owner_node_id input) ||
     negb (bool_decide (scan_owner_incarnation_id session = Some (co_owner_incarnation_id input)))
  then Err EDatabase else Ok tt.

Definition completion_next_sequence (last_sequence : option Z) : Res Z :=
  match last_sequence with
  | None => Ok 0
  | Some sequence => ok_or (u64_checked_add sequence 1) EConflict
  end.

Definition validate_completion_request_watermark (session : ScanSession)
    (input : CompleteScanSessionInput) : Res unit :=
  expected ← completion_next_sequence (co_last_sequence input);
  if negb (scan_next_sequence session =? expected) ||
     negb (scan_observation_count session =? co_observation_count input) then Err EConflict
  else Ok tt.

(** The scope predicate shared by the candidate query, the retiring update and
    the two commit locks. *)
Definition unobserved (d : ScanDb) (root session : Z) (hw : option Z) (id : Z) (l : LocationRow) :
    bool :=
  live_rooted root l &&
  match hw with Some h => id <=? h | None => false end &&
  negb match fl_locator l with Some loc => locator_observed d session loc | None => false end.

Definition completion_scope (session : ScanSession) : Res (Z * Z * option Z) :=
  root ← i64_from_u64 (scan_storage_root_id session);
  id ← i64_from_u64 (scan_session_id session);
  hw ← transpose (option_map i64_from_u64 (scan_high_watermark_id session));
  Ok (root, id, hw).

Definition completion_candidates_in_tx (session : ScanSession) : SM (list Z) :=
  scope ← lift (completion_scope session);
  let '(root, id, hw) := scope in
  getsR (fun d => collect (fun kv =>
    locator ← ok_or (fl_locator kv.2) EDatabase;
    _ ← ProviderRelativeLocator_parse_database locator;
    u64_from_i64 kv.1) (select_asc (unobserved d root id hw) (file_locations d))).

Definition in_flight (s : CommitIntentState) : bool :=
  match s with IntentPending | IntentAuthorized | IntentRecoveryRequired => true | _ => false end.

Definition pair_le (x y : Z * Z) : Prop := x.1 < y.1 \/ (x.1 = y.1 /\ x.2 <= y.2).
#[global] Instance pair_le_dec : RelDecision pair_le.
Proof. intros x y. unfold pair_le. apply _. Defined.

(** The first in-flight destructive commit, with the location, that covers a
    location the completion would retire. *)
Definition commit_lock (d : ScanDb) (root session : Z) (hw : option Z) : option (Z * Z) :=
  head (merge_sort pair_le (List.filter (fun cl =>
    match commit_intents d !! cl.1, file_locations d !! cl.2 with
    | Some s, Some l => in_flight s && unobserved d root session hw cl.2 l
    | _, _ => false
    end) (elements (commit_scope_locations d)))).

Definition consult_scan_reconciliation_commit_lock_in_tx (session : ScanSession) :
    SM (option (Z * Z)) :=
  scope ← lift (completion_scope session);
  let '(root, id, hw) := scope in
  getsR (fun d => transpose (option_map (fun cl =>
    commit ← u64_from_i64 cl.1; location ← u64_from_i64 cl.2; Ok (commit, location))
    (commit_lock d root id hw))).

(** The first in-flight artifact commit whose staging location the completion
    would retire. *)
Definition artifact_lock (d : ScanDb) (root session : Z) (hw : option Z) : option (Z * Z) :=
  head (omap (fun kv =>
    match file_locations d !! kv.2.2 with
    | Some l => if in_flight kv.2.1 && unobserved d root session hw kv.2.2 l
                then Some (kv.1, kv.2.2) else None
    | None => None
    end) (rows_asc (artifact_intents d))).

Definition consult_scan_reconciliation_artifact_intent_lock_in_tx (session : ScanSession) :
    SM (option (Z * Z)) :=
  scope ← lift (completion_scope session);
  let '(root, id, hw) := scope in
  getsR (fun d => transpose (option_map (fun il =>
    intent ← u64_from_i64 il.1; location ← u64_from_i64 il.2; Ok (intent, location))
    (artifact_lock d root id hw))).

Definition location_retired (now : string) (session : Z) (l : LocationRow) : LocationRow := {|
  fl_file_version_id := fl_file_version_id l; fl_address_state := fl_address_state l;
  fl_storage_root_id := fl_storage_root_id l; fl_locator := fl_locator l;
  fl_legacy_kind := fl_legacy_kind l; fl_legacy_locator := fl_legacy_locator l;
  fl_proof_kind := fl_proof_kind l; fl_proof_value := fl_proof_value l;
  fl_observed_at := fl_observed_at l; fl_retired_at := Some now; fl_epoch := fl_epoch l + 1;
  fl_retired_by := Some session |}.

Definition retire_completion_candidates_in_tx (session : ScanSession) (completed_at : Z)
    (candidate_count : nat) : SM unit :=
  scope ← lift (completion_scope session);
  let '(root, id, hw) := scope in
  now_str ← lift (iso8601 completed_at);
  affected ← gets (fun d => select_asc (unobserved d root id hw) (file_locations d));
  _ ← modify (fun d => set_file_locations
        (foldl (fun m kv => <[kv.1 := location_retired now_str id kv.2]> m)
          (file_locations d) affected) d);
  if negb (List.length affected =? candidate_count)%nat then throw EDatabase else mret tt.

Definition mark_completion_succeeded_in_tx (session : ScanSession)
    (input : CompleteScanSessionInput) (candidate_count : nat) : SM ScanSession :=
  now_str ← lift (iso8601 (co_completed_at input));
  retired ← lift (i64_from_u64 (Z.of_nat candidate_count));
  id ← lift (i64_from_u64 (scan_session_id session));
  root ← lift (i64_from_u64 (co_storage_root_id input));
  epoch ← lift (i64_from_u64 (co_root_epoch input));
  owner ← lift (i64_from_u64 (co_owner_node_id input));
  next ← lift (completion_next_sequence (co_last_sequence input));
  next ← lift (i64_from_u64 next);
  count ← lift (i64_from_u64 (co_observation_count input));
  hw ← lift (transpose (option_map i64_from_u64 (scan_high_watermark_id session)));
  rows ← update_sessions (fun k r =>
      (k =? id) && bool_decide (ss_status r = ScanRunning) && (ss_storage_root_id r =? root) &&
      (ss_root_epoch r =? epoch) && (ss_owner_node_id r =? owner) &&
      bool_decide (ss_owner_incarnation_id r =
                   Some (NodeIncarnationId_display (co_owner_incarnation_id input))) &&
      (ss_next_sequence r =? next) && (ss_observation_count r =? count) &&
      bool_decide (ss_location_high_watermark_id r = hw))
    (fun r => terminal_row ScanSucceeded (ss_terminal_reason r) retired now_str r)
    (fun _ => session_check);
  row ← lift (ok_or (head rows) EDatabase);
  lift (row_to_scan_session row).

Definition root_pointed (session : Z) (r : LibraryRootRow) : LibraryRootRow := {|
  lr_root_epoch := lr_root_epoch r; lr_owner_node_id := lr_owner_node_id r;
  lr_last_scan_session_id := Some session |}.

Definition update_completion_root_pointer_in_tx (session : ScanSession)
    (input : CompleteScanSessionInput) : SM unit :=
  id ← lift (i64_from_u64 (scan_session_id session));
  root ← lift (i64_from_u64 (co_storage_root_id input));
  epoch ← lift (i64_from_u64 (co_root_epoch input));
  owner ← lift (i64_from_u64 (co_owner_node_id input));
  res ← gets (fun d => update_row root (fun r =>
    (lr_root_epoch r =? epoch) && bool_decide (lr_owner_node_id r = Some owner))
    (root_pointed id) (library_roots d));
  match res with
  | None => throw EDatabase
  | Some (_, roots') => modify (set_library_roots roots')
  end.

Definition complete_in_tx (input : CompleteScanSessionInput) : SM ScanCompletionRecord :=
  session ← completion_session_in_tx input;
  _ ← validate_completion_high_watermark_in_tx session;
  _ ← lift (validate_completion_authority_binding session input);
  _ ← validate_completion_ledger_in_tx session;
  _ ← lift (validate_completion_request_watermark session input);
  candidates ← completion_candidates_in_tx session;
  commit_lock ← consult_scan_reconciliation_commit_lock_in_tx session;
  if is_some commit_lock then throw EConflict else
  intent_lock ← consult_scan_reconciliation_artifact_intent_lock_in_tx session;
  if is_some intent_lock then throw EConflict else
  _ ← retire_completion_candidates_in_tx session (co_completed_at input) (List.length candidates);
  session ← mark_completion_succeeded_in_tx session input (List.length candidates);
  _ ← update_completion_root_pointer_in_tx session input;
  mret {| cr_session := session; cr_retired_location_ids := candidates |}.
End completion.

(** ** Queries *)

Record ScanSessionListQuery := {
  lq_storage_root_id : option Z; lq_status : option ScanSessionStatus; lq_after_id : option Z;
  lq_limit : Z;
}.
Record ScanSessionPage := { sp_items : list ScanSession; sp_next_after_id : option Z }.
Record ScanReconciliationQuery := {
  rq_scan_session_id : Z; rq_after_id : option Z; rq_limit : Z;
}.
Record ScanReconciliationPage := {
  rp_items : list ScanReconciliationEvidence; rp_next_after_id : option Z;
}.

Definition checked_page_limit (limit : Z) : Res Z :=
  if (1 <=? limit) && (limit <=? 100) then Ok limit else Err EConfig.

(** One row more than the limit is fetched; it is cut off, and its presence
    makes the last kept row the continuation. *)
Definition cut_page {A} (limit : Z) (id_of : A -> Z) (items : list A) : list A * option Z :=
  let kept := take (Z.to_nat limit) items in
  (kept, if (Z.to_nat limit <? List.length items)%nat then option_map id_of (last kept) else None).

Section queries.
Context `{Iso8601}.

Definition latest_succeeded_for_root (storage_root_id : Z) : SM (option ScanSession) :=
  root ← lift (i64_from_u64 storage_root_id);
  row ← gets (fun d => r ← library_roots d !! root;
    Some (lr_last_scan_session_id r,
          option_map fst (last (select_asc (fun _ s => (ss_storage_root_id s =? root) &&
            bool_decide (ss_status s = ScanSucceeded)) (scan_sessions d)))));
  match row with
  | None => mret None
  | Some (pointer, latest) =>
      pointer ← lift (transpose (option_map u64_from_i64 pointer));
      latest ← lift (transpose (option_map u64_from_i64 latest));
      if negb (bool_decide (pointer = latest)) then throw EDatabase else
      match pointer with
      | None => mret None
      | Some id =>
          found ← Scan_get id;
          session ← lift (ok_or found EDatabase);
          if negb (scan_storage_root_id session =? storage_root_id) ||
             negb (bool_decide (scan_status session = ScanSucceeded)) then throw EDatabase
          else mret (Some session)
      end
  end.

Definition Scan_list (query : ScanSessionListQuery) : SM ScanSessionPage :=
  limit ← lift (checked_page_limit (lq_limit query));
  root ← lift (transpose (option_map i64_from_u64 (lq_storage_root_id query)));
  after ← lift (transpose (option_map i64_from_u64 (lq_after_id query)));
  items ← getsR (fun d => collect (row_to_inspected_scan_session d)
    (take (Z.to_nat (limit + 1)) (select_asc (fun id r =>
       match root with None => true | Some x => ss_storage_root_id r =? x end &&
       match lq_status query with None => true | Some s => bool_decide (ss_status r = s) end &&
       match after with None => true | Some a => a <? id end) (scan_sessions d))));
  let '(kept, next) := cut_page limit scan_session_id items in
  mret {| sp_items := kept; sp_next_after_id := next |}.

(** [RECONCILIATION_INVALID_SQL]; a null comparison is not true. *)
Definition reconciliation_invalid (d : ScanDb) (session root : Z) (terminal_at : option string)
    (hw : option Z) (id : Z) (l : LocationRow) : bool :=
  bool_decide (fl_retired_by l = Some session) &&
  (match fl_storage_root_id l with Some r => negb (r =? root) | None => false end ||
   match fl_retired_at l, terminal_at with
   | None, _ => true
   | Some a, Some t => negb (String.eqb a t)
   | Some _, None => false
   end ||
   match hw with None => true | Some h => h <? id end || (fl_epoch l <? 1) ||
   match fl_locator l with
   | None => true
   | Some v => negb (locator_check v) || locator_observed d session v
   end).

Definition validate_reconciliation_integrity_in_tx (session : ScanSession) : SM unit :=
  id ← lift (i64_from_u64 (scan_session_id session));
  if negb (bool_decide (scan_status session = ScanSucceeded)) then throw EConflict else
  if is_none (scan_terminal_at session) then throw EDatabase else
  hw ← lift (transpose (option_map i64_from_u64 (scan_high_watermark_id session)));
  root ← lift (i64_from_u64 (scan_storage_root_id session));
  invalid ← gets (fun d =>
    let terminal_at := s ← scan_sessions d !! id; ss_terminal_at s in
    existsb (fun kv => reconciliation_invalid d id root terminal_at hw kv.1 kv.2)
      (map_to_list (file_locations d)));
  if (invalid : bool) then throw EDatabase else mret tt.

Definition reconciliation_item (session : ScanSession) (row : Z * LocationRow) :
    Res ScanReconciliationEvidence :=
  let l := row.2 in
  id ← u64_from_i64 row.1;
  root ← (r ← ok_or (fl_storage_root_id l) EDatabase; u64_from_i64 r);
  locator ← ok_or (fl_locator l) EDatabase;
  _ ← ProviderRelativeLocator_parse_database locator;
  retired_at ← (r ← ok_or (fl_retired_at l) EDatabase; parse_iso8601 r);
  retired_epoch ← u64_from_i64 (fl_epoch l);
  match scan_high_watermark_id session with
  | None => Err EDatabase
  | Some hw =>
      if negb (root =? scan_storage_root_id session) ||
         negb (bool_decide (Some retired_at = scan_terminal_at session)) || (hw <? id) ||
         (retired_epoch =? 0) then Err EDatabase else
      prior ← ok_or (u64_checked_sub retired_epoch 1) EDatabase;
      Ok {| re_file_location_id := id; re_retired_at := retired_at; re_prior_epoch := prior;
            re_retired_epoch := retired_epoch |}
  end.

Definition reconciliation_page_in_tx (query : ScanReconciliationQuery) :
    SM ScanReconciliationPage :=
  limit ← lift (checked_page_limit (rq_limit query));
  found ← Scan_get_in_tx (rq_scan_session_id query);
  session ← lift (ok_or found ENotFound);
  _ ← validate_reconciliation_integrity_in_tx session;
  id ← lift (i64_from_u64 (rq_scan_session_id query));
  after ← lift (transpose (option_map i64_from_u64 (rq_after_id query)));
  items ← getsR (fun d => collect (reconciliation_item session)
    (take (Z.to_nat (limit + 1)) (select_asc (fun k l =>
       bool_decide (fl_retired_by l = Some id) &&
       match after with None => true | Some a => a <? k end) (file_locations d))));
  let '(kept, next) := cut_page limit re_file_location_id items in
  mret {| rp_items := kept; rp_next_after_id := next |}.
End queries.
