(* ===== verification/Locations.v ===== *)
(** * File locations

    The location statements of [voom-store/src/repo/media/identity.rs]: the
    writers of [file_locations] that run beside scans. A location is created at
    a rooted address, moved to another one, replaced, or retired; every update
    is guarded by the row's epoch and by the row being live. *)

From S2P Require Import Prelude Json Vocab Operations Store Locators Scans.
From Stdlib Require Import ZArith Lia Bool String Ascii.
From stdpp Require Import base gmap strings list sorting.

Open Scope string_scope.
Open Scope Z_scope.

Inductive LocationProof : Type :=
  | LocalFileIdGeneration (file_id generation : Z)
  | ObjectStoreVersion (bucket key version_id : string).

Definition proof_kind (p : LocationProof) : string :=
  match p with
  | LocalFileIdGeneration _ _ => "file_id_generation"
  | ObjectStoreVersion _ _ _ => "object_version_id"
  end.

Record NewFileLocation := {
  nl_file_version_id : Z; nl_storage_root_id : Z; nl_locator : string;
  nl_proof : option LocationProof; nl_observed_at : Z;
}.

Inductive FileLocationAddress : Type :=
  | AtRoot (storage_root_id : Z) (locator : string)
  | Unassigned (legacy_kind legacy_locator : string).

Record FileLocation := {
  loc_id : Z; loc_file_version_id : Z; loc_address : FileLocationAddress;
  loc_proof_kind : option string; loc_proof_value : option string; loc_observed_at : Z;
  loc_retired_at : option Z; loc_retired_by : option Z; loc_epoch : Z;
}.

Definition rooted_address (l : FileLocation) : Res (Z * string) :=
  match loc_address l with
  | AtRoot root locator => Ok (root, locator)
  | Unassigned _ _ => Err EConfig
  end.

Definition decode_location_address (l : LocationRow) : Res FileLocationAddress :=
  match fl_address_state l with
  | Rooted =>
      root ← ok_or (fl_storage_root_id l) EDatabase;
      locator ← ok_or (fl_locator l) EDatabase;
      if is_some (fl_legacy_kind l) || is_some (fl_legacy_locator l) then Err EDatabase else
      root ← u64_from_i64 root;
      locator ← ProviderRelativeLocator_parse_database locator;
      Ok (AtRoot root locator)
  | UnassignedLegacy =>
      if is_some (fl_storage_root_id l) || is_some (fl_locator l) then Err EDatabase else
      kind ← ok_or (fl_legacy_kind l) EDatabase;
      locator ← ok_or (fl_legacy_locator l) EDatabase;
      Ok (Unassigned kind locator)
  end.

Section locations.
Context `{Iso8601}.

Definition row_to_file_location (row : Z * LocationRow) : Res FileLocation :=
  let '(key, l) := row in
  retired_at ← transpose (option_map parse_iso8601 (fl_retired_at l));
  retired_by ← transpose (option_map u64_from_i64 (fl_retired_by l));
  if is_some retired_by && is_none retired_at then Err EDatabase else
  address ← decode_location_address l;
  id ← u64_from_i64 key;
  version ← u64_from_i64 (fl_file_version_id l);
  observed_at ← parse_iso8601 (fl_observed_at l);
  epoch ← u64_from_i64 (fl_epoch l);
  Ok {| loc_id := id; loc_file_version_id := version; loc_address := address;
        loc_proof_kind := fl_proof_kind l; loc_proof_value := fl_proof_value l;
        loc_observed_at := observed_at; loc_retired_at := retired_at;
        loc_retired_by := retired_by; loc_epoch := epoch |}.

Definition get_file_location_in_tx (id : Z) : SM (option FileLocation) :=
  key ← lift (i64_from_u64 id);
  getsR (fun d => transpose (option_map (fun l => row_to_file_location (key, l))
    (file_locations d !! key))).

(** The unique index [file_locations_live_rooted_address]. *)
Definition address_taken (d : ScanDb) (id root : Z) (locator : string) : bool :=
  existsb (fun kv => negb (kv.1 =? id) && live_rooted root kv.2 &&
    bool_decide (fl_locator kv.2 = Some locator)) (map_to_list (file_locations d)).

(** A session's watermark names the location together with its root: the
    composite foreign key of [scan_sessions]. *)
Definition watermarked (d : ScanDb) (id : Z) : bool :=
  existsb (fun kv => bool_decide (ss_location_high_watermark_id kv.2 = Some id))
    (map_to_list (scan_sessions d)).

Definition new_location_row (version root : Z) (locator : string)
    (kind value : option string) (observed_at : string) : LocationRow := {|
  fl_file_version_id := version; fl_address_state := Rooted; fl_storage_root_id := Some root;
  fl_locator := Some locator; fl_legacy_kind := None; fl_legacy_locator := None;
  fl_proof_kind := kind; fl_proof_value := value; fl_observed_at := observed_at;
  fl_retired_at := None; fl_epoch := 0; fl_retired_by := None |}.

Definition proof_check (kind value : option string) : bool :=
  match kind, value with
  | None, None => true
  | Some k, Some _ => bool_decide (k ∈ ["file_id_generation"; "object_version_id"])
  | _, _ => false
  end.

Definition insert_file_location_with_raw_proof (version root : Z) (locator : string)
    (kind value : option string) (observed_at : Z) : SM Z :=
  ts ← lift (iso8601 observed_at);
  version ← lift (i64_from_u64 version);
  root ← lift (i64_from_u64 root);
  id ← gets (fun d => next_rowid (file_locations d));
  insertable ← gets (fun d => locator_check locator && proof_check kind value &&
    bool_decide (version ∈ file_version_ids d) &&
    bool_decide (is_Some (library_roots d !! root)) && negb (address_taken d id root locator));
  if negb insertable then throw EDatabase else
  _ ← modify (fun d => set_file_locations
        (<[id := new_location_row version root locator kind value ts]> (file_locations d)) d);
  lift (u64_from_i64 id).

(** The JSON text of a proof is the serializer's. *)
Definition insert_file_location (proof_value : LocationProof -> string) (version root : Z)
    (locator : string) (proof : option LocationProof) (observed_at : Z) : SM Z :=
  insert_file_location_with_raw_proof version root locator
    (option_map proof_kind proof) (option_map proof_value proof) observed_at.

Definition create_file_location_in_tx (proof_value : LocationProof -> string)
    (input : NewFileLocation) : SM FileLocation :=
  id ← insert_file_location proof_value (nl_file_version_id input) (nl_storage_root_id input)
         (nl_locator input) (nl_proof input) (nl_observed_at input);
  found ← get_file_location_in_tx id;
  lift (ok_or found EInternal).

Definition row_retired (now : string) (l : LocationRow) : LocationRow := {|
  fl_file_version_id := fl_file_version_id l; fl_address_state := fl_address_state l;
  fl_storage_root_id := fl_storage_root_id l; fl_locator := fl_locator l;
  fl_legacy_kind := fl_legacy_kind l; fl_legacy_locator := fl_legacy_locator l;
  fl_proof_kind := fl_proof_kind l; fl_proof_value := fl_proof_value l;
  fl_observed_at := fl_observed_at l; fl_retired_at := Some now; fl_epoch := fl_epoch l + 1;
  fl_retired_by := fl_retired_by l |}.

(** [UPDATE file_locations SET retired_at = ?, epoch = epoch + 1 WHERE id = ? AND
    epoch = ? AND retired_at IS NULL]: a conflict unless one row is affected. *)
Definition retire_location (id expected_epoch : Z) (ts : string) : SM unit :=
  key ← lift (i64_from_u64 id);
  epoch ← lift (i64_from_u64 expected_epoch);
  res ← gets (fun d => update_row key (fun l => (fl_epoch l =? epoch) && is_none (fl_retired_at l))
          (row_retired ts) (file_locations d));
  match res with
  | None => throw EConflict
  | Some (_, m) => modify (set_file_locations m)
  end.

Definition retire_file_location_in_tx (id retired_at expected_epoch : Z) : SM FileLocation :=
  ts ← lift (iso8601 retired_at);
  _ ← retire_location id expected_epoch ts;
  found ← get_file_location_in_tx id;
  lift (ok_or found EInternal).

Definition replace_file_location_in_tx (proof_value : LocationProof -> string)
    (retired_id retired_expected_epoch : Z) (new_location : NewFileLocation) (retired_at : Z) :
    SM Z :=
  found ← get_file_location_in_tx retired_id;
  retired_row ← lift (ok_or found EConflict);
  if is_some (loc_retired_at retired_row) then throw EConflict else
  if negb (loc_file_version_id retired_row =? nl_file_version_id new_location)
  then throw EConflict else
  savepoint (fun _ => true)
    (ts ← lift (iso8601 retired_at);
     _ ← retire_location retired_id retired_expected_epoch ts;
     insert_file_location proof_value (nl_file_version_id new_location)
       (nl_storage_root_id new_location) (nl_locator new_location) (nl_proof new_location)
       (nl_observed_at new_location)).

Definition row_moved (root : Z) (locator observed_at : string) (l : LocationRow) : LocationRow := {|
  fl_file_version_id := fl_file_version_id l; fl_address_state := fl_address_state l;
  fl_storage_root_id := Some root; fl_locator := Some locator;
  fl_legacy_kind := fl_legacy_kind l; fl_legacy_locator := fl_legacy_locator l;
  fl_proof_kind := fl_proof_kind l; fl_proof_value := fl_proof_value l;
  fl_observed_at := observed_at; fl_retired_at := fl_retired_at l; fl_epoch := fl_epoch l + 1;
  fl_retired_by := fl_retired_by l |}.

(** The checks and indexes of the table on the moved row: a legacy row cannot
    carry a rooted address, a live address is used once, the root exists, and a
    watermark keeps its root. *)
Definition movable (d : ScanDb) (id root : Z) (locator : string) (l : LocationRow) : bool :=
  bool_decide (fl_address_state l = Rooted) && locator_check locator &&
  bool_decide (is_Some (library_roots d !! root)) && negb (address_taken d id root locator) &&
  (negb (watermarked d id) || bool_decide (fl_storage_root_id l = Some root)).

Definition update_file_location_address_in_tx (id expected_epoch root : Z) (locator : string)
    (observed_at : Z) : SM FileLocation :=
  ts ← lift (iso8601 observed_at);
  root ← lift (i64_from_u64 root);
  key ← lift (i64_from_u64 id);
  epoch ← lift (i64_from_u64 expected_epoch);
  res ← gets (fun d => update_row key (fun l => (fl_epoch l =? epoch) && is_none (fl_retired_at l))
          (row_moved root locator ts) (file_locations d));
  match res with
  | None => throw EConflict
  | Some (l', m) =>
      ok ← gets (fun d => match file_locations d !! key with
                          | Some l => movable d key root locator l | None => false end);
      if negb ok then throw EDatabase else
      _ ← modify (set_file_locations m);
      found ← get_file_location_in_tx id;
      lift (ok_or found EInternal)
  end.
End locations.
