(* ===== verification/ScanLedger.v ===== *)
(** * The scan ledger

    The invariant of the scan tables, kept by every operation of [Scans] and by
    whatever the rest of the program does to the tables scans only read, and
    what the operations do on a database that satisfies it. *)

From S2P Require Import Prelude Json Vocab Operations Store Locators Scans.
From Stdlib Require Import ZArith Lia Bool String Ascii.
From stdpp Require Import base gmap strings list sorting relations.

Open Scope string_scope.
Open Scope Z_scope.

#[global] Arguments row_to_scan_session : simpl never.
#[global] Arguments row_to_mutation_session : simpl never.
#[global] Arguments row_to_inspected_scan_session : simpl never.
#[global] Arguments decode_observation_row : simpl never.
#[global] Arguments session_check : simpl never.
#[global] Arguments session_references : simpl never.
#[global] Arguments select_asc : simpl never.

(** ** Small tools *)

Lemma bool_iff (a b : bool) : (a = true <-> b = true) -> a = b.
Proof. destruct a, b; intros [H1 H2]; try done; [symmetry; by apply H1|by apply H2]. Qed.

Lemma transpose_map_ok {E A B} (f : A -> result E B) o o' :
  transpose (option_map f o) = Ok o' <->
  match o with None => o' = None | Some a => exists b, f a = Ok b /\ o' = Some b end.
Proof.
  destruct o as [a|]; cbn; [|split; [by intros [= <-]|by intros ->]].
  destruct (f a) as [b|e]; split.
  - intros [= <-]. eauto.
  - by intros (? & [= <-] & ->).
  - done.
  - by intros (? & [=] & _).
Qed.

Lemma if_negb_ok {A} (b : bool) (e : VoomError) (x : Res A) a :
  (if negb b then Err e else x) = Ok a <-> b = true /\ x = Ok a.
Proof. destruct b; cbn; intuition discriminate. Qed.

(** Running a composed transaction one step at a time. *)
Lemma tx_bind_run {S E A B} (m : Tx S E A) (f : A -> Tx S E B) s a s' :
  m s = (Ok a, s') -> (m ≫= f) s = f a s'.
Proof. unfold mbind, tx_mbind. by intros ->. Qed.

Lemma tx_bind_stop {S E A B} (m : Tx S E A) (f : A -> Tx S E B) s e s' :
  m s = (Err e, s') -> (m ≫= f) s = (Err e, s').
Proof. unfold mbind, tx_mbind. by intros ->. Qed.

Lemma lift_run {S E A B} (a : A) (f : A -> Tx S E B) s : (lift (Ok a) ≫= f) s = f a s.
Proof. done. Qed.
Lemma lift_stop {S E A B} (e : E) (f : A -> Tx S E B) s : (lift (Err e) ≫= f) s = (Err e, s).
Proof. done. Qed.
Lemma gets_run {S E A B} (g : S -> A) (f : A -> Tx S E B) s : (gets g ≫= f) s = f (g s) s.
Proof. done. Qed.
Lemma modify_run {S E B} (g : S -> S) (f : unit -> Tx S E B) s : (modify g ≫= f) s = f tt (g s).
Proof. done. Qed.

Ltac tx_go := repeat (first [rewrite lift_run | rewrite lift_stop | rewrite gets_run
  | rewrite modify_run]; cbv beta iota).

Lemma u64_id v : 0 <= v -> u64_from_i64 v = Ok v.
Proof. intros. by apply u64_from_i64_ok. Qed.
Lemma i64_id v : v <= i64_max -> i64_from_u64 v = Ok v.
Proof. intros. by apply i64_from_u64_ok. Qed.

Lemma map_fst_same {A B} (f : Z * A -> Z * B) (l : list (Z * A)) :
  (forall kv, (f kv).1 = kv.1) -> (map f l).*1 = l.*1.
Proof. intros Hf. induction l as [|kv l IH]; cbn; [done|by rewrite Hf, IH]. Qed.

Lemma Forall2_In_l {A B} (R : A -> B -> Prop) l k x :
  Forall2 R l k -> In x l -> exists y, In y k /\ R x y.
Proof.
  induction 1 as [|a b l k Hab _ IH]; cbn; [done|]. intros [->|Hx]; [eauto|].
  destruct (IH Hx) as (y & ? & ?); eauto.
Qed.

(** The row one id selects. *)
Lemma select_asc_single {A} (c : A -> bool) (m : gmap Z A) key :
  select_asc (fun k r => (k =? key) && c r) m =
  match m !! key with Some r => if c r then [(key, r)] else [] | None => [] end.
Proof.
  apply (sorted_unique (fun x y => x.1 < y.1)).
  - intros; lia.
  - apply select_asc_sorted.
  - destruct (m !! key) as [r|]; [destruct (c r)|]; repeat constructor.
  - intros [k r]. rewrite select_asc_in, andb_true_iff, Z.eqb_eq. cbn. split.
    + intros (Hk & -> & Hc). rewrite Hk, Hc. by left.
    + destruct (m !! key) as [r'|] eqn:Hk; [|done]. destruct (c r') eqn:Hc; [|done].
      intros [[= <- <-]|[]]. done.
Qed.

(** ** Session rows *)

Section sessions.
Context `{Iso8601Laws}.

(** What a session row decodes to. *)
Definition session_of (id : Z) (r : ScanSessionRow) : ScanSession := {|
  scan_session_id := id; scan_storage_root_id := ss_storage_root_id r;
  scan_root_epoch := ss_root_epoch r; scan_owner_node_id := ss_owner_node_id r;
  scan_owner_incarnation_id := i ← ss_owner_incarnation_id r; parse_incarnation_id i;
  scan_status := ss_status r; scan_next_sequence := ss_next_sequence r;
  scan_batch_count := ss_batch_count r; scan_observation_count := ss_observation_count r;
  scan_idle_timeout_seconds := ss_idle_timeout_seconds r;
  scan_progress_deadline_at := default 0 (parse_text (ss_progress_deadline_at r));
  scan_high_watermark_id := ss_location_high_watermark_id r;
  scan_requested_at := default 0 (parse_text (ss_requested_at r));
  scan_started_at := s ← ss_started_at r; parse_text s;
  scan_terminal_at := s ← ss_terminal_at r; parse_text s;
  scan_terminal_reason := ss_terminal_reason r;
  scan_retired_location_count := ss_retired_location_count r |}.

(** The columns that must decode for a row to be readable. *)
Record columns_ok (id : Z) (r : ScanSessionRow) : Prop := {
  co_id : 0 <= id;
  co_root : 0 <= ss_storage_root_id r;
  co_owner : 0 <= ss_owner_node_id r;
  co_deadline : stamped (ss_progress_deadline_at r);
  co_requested : stamped (ss_requested_at r);
  co_started : from_option stamped True (ss_started_at r);
  co_terminal : from_option stamped True (ss_terminal_at r);
  co_reason : from_option (fun v => validate_terminal_reason v = Ok tt) True (ss_terminal_reason r);
  co_incarnation : from_option (fun i => is_Some (parse_incarnation_id i)) True
    (ss_owner_incarnation_id r);
  co_watermark : from_option (fun l => 0 <= l) True (ss_location_high_watermark_id r);
}.

(** The checks of the schema are the validation of the code: the progress
    counters and the lifecycle shape of a row that satisfies the first pass
    the second. *)
Lemma progress_check_iff r :
  0 <= ss_next_sequence r <= i64_max -> 0 <= ss_observation_count r <= 100000 ->
  progress_check r = has_coherent_progress_counters (session_of 0 r).
Proof.
  intros Hn Ho. unfold progress_check, has_coherent_progress_counters, u64_checked_mul. cbn.
  destruct (Z.eqb_spec (ss_batch_count r) (ss_next_sequence r)) as [Hb|]; [|done]. cbn.
  rewrite Hb. destruct (Z.eqb_spec (ss_next_sequence r) 0) as [->|Hnz]; cbn.
  - by rewrite orb_false_r.
  - set (n := ss_next_sequence r) in *. set (o := ss_observation_count r) in *.
    rewrite (proj2 (Z.ltb_lt 0 n)) by lia. cbn.
    destruct (Z.ltb_spec o n) as [Hlt|Hge].
    + by rewrite (proj2 (Z.leb_gt n o)).
    + rewrite (proj2 (Z.leb_le n o)) by done. cbn.
      pose proof (Z.div_mod o n ltac:(lia)) as Hdm. pose proof (Z.mod_pos_bound o n ltac:(lia)).
      assert ((o / n <? 1000) || ((o / n =? 1000) && (o mod n =? 0)) = (o <=? n * 1000)) as ->.
      { apply bool_iff. rewrite orb_true_iff, andb_true_iff, Z.ltb_lt, !Z.eqb_eq, Z.leb_le.
        split; [intros [?|[E1 E2]]; nia|]. intros Hle.
        destruct (Z.lt_trichotomy (o / n) 1000) as [?|[E|?]]; [by left| |nia].
        right. split; [done|]. nia. }
      destruct (Z.leb_spec (n * 1000) u64_max) as [|Hbig]; [done|].
      apply Z.leb_le. unfold u64_max in Hbig. lia.
Qed.

Lemma session_check_valid id r :
  ss_next_sequence r <= i64_max -> columns_ok id r -> session_check r = true ->
  validate_scan_session (session_of id r) = Ok tt.
Proof.
  intros Hn Hc Hk. unfold session_check in Hk. rewrite !andb_true_iff in Hk.
  destruct_and!. unfold validate_scan_session. cbn.
  rewrite !Z.leb_le in *. rewrite (proj2 (Z.leb_le 1 _)), (proj2 (Z.leb_le _ 86400)) by done. cbn.
  assert (negb (bool_decide (ss_status r = ScanSucceeded)) &&
          negb (ss_retired_location_count r =? 0) = false) as ->.
  { match goal with H : _ || _ = true |- _ => revert H end.
    destruct (bool_decide (ss_status r = ScanSucceeded)), (ss_retired_location_count r =? 0); done. }
  unfold MAX_SCAN_SESSION_OBSERVATIONS.
  rewrite (proj2 (Z.ltb_ge 100000 _)) by done.
  replace (has_coherent_progress_counters (session_of id r))
    with (has_coherent_progress_counters (session_of 0 r)) by done.
  rewrite <- progress_check_iff by lia.
  match goal with H : progress_check r = true |- _ => rewrite H end. cbn.
  match goal with H : lifecycle_check r = true |- _ => revert H end.
  destruct Hc as [_ _ _ _ _ Hs Ht _ Hi _].
  unfold lifecycle_check, has_valid_lifecycle_shape, has_success_shape,
    has_unsuccessful_terminal_shape, is_active, has_start_bindings, is_unbound. cbn.
  assert (is_none (i ← ss_owner_incarnation_id r; parse_incarnation_id i) =
          is_none (ss_owner_incarnation_id r)) as Ei.
  { destruct (ss_owner_incarnation_id r) as [i|]; [|done]. cbn in *. by destruct Hi as [? ->]. }
  assert (forall o, from_option stamped True o ->
            is_none (s ← o; parse_text s) = is_none o) as Es.
  { intros [s|] Hst; [|done]. cbn in *. by destruct (stamped_parses s Hst) as [? ->]. }
  rewrite !is_some_not_none, Ei, !Es by done.
  destruct (is_none (ss_owner_incarnation_id r)), (is_none (ss_started_at r)),
    (is_none (ss_location_high_watermark_id r)), (is_none (ss_terminal_at r)),
    (is_none (ss_terminal_reason r)), (ss_status r); cbn; done.
Qed.

(** There are at most as many batches as observations. *)
Lemma session_check_bounds r :
  session_check r = true ->
  0 <= ss_next_sequence r <= 100000 /\ ss_batch_count r = ss_next_sequence r /\
  0 <= ss_observation_count r <= 100000.
Proof.
  unfold session_check, progress_check.
  rewrite !andb_true_iff, !orb_true_iff, !andb_true_iff, !Z.leb_le, !Z.eqb_eq. lia.
Qed.

Lemma row_to_scan_session_total id r :
  columns_ok id r -> session_check r = true ->
  row_to_scan_session (id, r) = Ok (session_of id r).
Proof.
  intros Hc Hk. pose proof (session_check_bounds r Hk) as Hn.
  assert (ss_next_sequence r <= i64_max) as Hn' by (unfold i64_max; lia).
  pose proof (session_check_valid id r Hn' Hc Hk) as Hv. clear Hn Hn'.
  pose proof Hk as Hk'. unfold session_check in Hk'. rewrite !andb_true_iff in Hk'. destruct_and!.
  rewrite !Z.leb_le in *.
  destruct Hc as [Hid Hroot Hown [td Hd] [tr Hr] Hs Ht Hre Hi Hw].
  assert (forall v, 0 <= v -> u64_from_i64 v = Ok v) as Hu by (intros; by apply u64_from_i64_ok).
  assert (forall o, from_option stamped True o ->
    transpose (option_map parse_iso8601 o) = Ok (s ← o; parse_text s)) as Hst.
  { intros [s|] Hx; [|done]. cbn in *. destruct Hx as [t Ht'].
    unfold parse_iso8601. by rewrite (parse_format _ _ Ht'). }
  unfold row_to_scan_session.
  rewrite !Hu by done. cbn.
  assert (optional_incarnation_id (ss_owner_incarnation_id r) =
          Ok (i ← ss_owner_incarnation_id r; parse_incarnation_id i)) as ->.
  { unfold optional_incarnation_id. destruct (ss_owner_incarnation_id r) as [i|]; [|done].
    cbn in *. by destruct Hi as [? ->]. }
  cbn. assert (u32_from_i64 (ss_idle_timeout_seconds r) = Ok (ss_idle_timeout_seconds r)) as ->.
  { apply u32_from_i64_ok. split; [done|]. unfold is_u32, u32_max.
    rewrite andb_true_iff, !Z.leb_le. lia. }
  cbn. rewrite (parse_iso8601_format _ _ Hd), (parse_iso8601_format _ _ Hr). cbn.
  assert (transpose (option_map u64_from_i64 (ss_location_high_watermark_id r)) =
          Ok (ss_location_high_watermark_id r)) as ->.
  { destruct (ss_location_high_watermark_id r) as [l|]; [|done]. cbn in *. by rewrite Hu. }
  cbn. rewrite !Hst by done. cbn.
  assert (transpose (option_map ScanTerminalReason_parse_database (ss_terminal_reason r)) =
          Ok (ss_terminal_reason r)) as ->.
  { destruct (ss_terminal_reason r) as [v|]; [|done]. cbn in *.
    unfold ScanTerminalReason_parse_database. by rewrite Hre. }
  cbn. unfold session_of in Hv. rewrite (parse_format _ _ Hd), (parse_format _ _ Hr) in Hv.
  cbn in Hv. rewrite Hv. cbn. unfold session_of.
  by rewrite (parse_format _ _ Hd), (parse_format _ _ Hr).
Qed.

Lemma row_to_scan_session_ok id r s :
  row_to_scan_session (id, r) = Ok s -> s = session_of id r.
Proof.
  unfold row_to_scan_session, optional_incarnation_id. intros Hs. store_inv.
  repeat match goal with
  | Hx : transpose _ = Ok _ |- _ => apply transpose_map_ok in Hx
  | u : unit |- _ => destruct u
  end.
  unfold session_of.
  repeat match goal with Hx : parse_text _ = Some _ |- _ => rewrite Hx; clear Hx end. cbn.
  f_equal;
    repeat match goal with
    | |- context [match ?o with _ => _ end] => destruct o
    | Hx : match ?o with _ => _ end |- _ => destruct o
    | Hx : exists _, _ |- _ => destruct Hx as (? & ? & ?)
    end; store_inv; try done.
  all: unfold ScanTerminalReason_parse_database in *;
    destruct (validate_terminal_reason _); by store_inv.
Qed.
End sessions.

(** ** The invariant *)

(** The observations counted before batch [q]. *)
Definition cumulative_before (d : ScanDb) (s q : Z) : Z :=
  if q =? 0 then 0 else
  match scan_batches d !! (s, q - 1) with Some b => sb_cumulative b | None => 0 end.

Section invariant.
Context `{Iso8601Laws, EvidenceCodecLaws}.

Definition active (r : ScanSessionRow) : Prop := active_status (ss_status r) = true.

(** A session row satisfies the schema and its references resolve. *)
Record session_ok (d : ScanDb) (id : Z) (r : ScanSessionRow) : Prop := {
  so_columns : columns_ok id r;
  so_check : session_check r = true;
  so_incarnation : owner_incarnation_valid d r = true;
  so_watermark : forall l, ss_location_high_watermark_id r = Some l ->
    exists row, file_locations d !! l = Some row /\
      fl_storage_root_id row = Some (ss_storage_root_id r);
}.

Record batch_ok (d : ScanDb) (s q : Z) (b : ScanBatchRow) : Prop := {
  bk_previous : sb_previous_sequence b = if q =? 0 then None else Some (q - 1);
  bk_hash : is_lowercase_sha256 (sb_request_hash b) = true;
  bk_count : 1 <= sb_observation_count b <= 1000;
  bk_accepted : stamped (sb_accepted_at b);
  bk_cumulative : sb_cumulative b = cumulative_before d s q + sb_observation_count b;
}.

(** The ledger of a session: batches are numbered from zero without a gap, each
    carries the running total, the session carries the last one, and the
    observations of a batch are numbered from zero, readable, and name each
    locator once in the session. *)
Record ledger_ok (d : ScanDb) (s : Z) (r : ScanSessionRow) : Prop := {
  lg_range : forall q, is_Some (scan_batches d !! (s, q)) <-> 0 <= q < ss_next_sequence r;
  lg_batch : forall q b, scan_batches d !! (s, q) = Some b -> batch_ok d s q b;
  lg_total : ss_observation_count r = cumulative_before d s (ss_next_sequence r);
  lg_observations : forall q o, is_Some (scan_observations d !! (s, q, o)) <->
    exists b, scan_batches d !! (s, q) = Some b /\ 0 <= o < sb_observation_count b;
  lg_readable : forall q o row, scan_observations d !! (s, q, o) = Some row ->
    is_ok (decode_observation_row row) = true;
  lg_unique : forall q o row q' o' row',
    scan_observations d !! (s, q, o) = Some row ->
    scan_observations d !! (s, q', o') = Some row' ->
    so_locator row = so_locator row' -> q = q' /\ o = o';
}.

(** A location row satisfies the schema, and its locator was validated when it
    was written. *)
Record location_ok (id : Z) (l : LocationRow) : Prop := {
  lo_id : 0 <= id;
  lo_epoch : 0 <= fl_epoch l;
  lo_retired : is_Some (fl_retired_by l) -> is_Some (fl_retired_at l);
  lo_rooted : fl_address_state l = Rooted ->
    exists root loc, fl_storage_root_id l = Some root /\ 0 <= root /\
      fl_locator l = Some loc /\ validate_relative_locator loc = Ok tt;
}.

(** Why session [s] retired location [id]. *)
Record reconciled (d : ScanDb) (s : Z) (r : ScanSessionRow) (id : Z) (l : LocationRow) : Prop := {
  rc_root : fl_storage_root_id l = Some (ss_storage_root_id r);
  rc_at : fl_retired_at l = ss_terminal_at r;
  rc_watermark : exists h, ss_location_high_watermark_id r = Some h /\ id <= h;
  rc_epoch : 1 <= fl_epoch l;
  rc_locator : exists loc, fl_locator l = Some loc /\ validate_relative_locator loc = Ok tt /\
    locator_observed d s loc = false;
}.

Record scan_sound (d : ScanDb) : Prop := {
  sc_session : map_Forall (session_ok d) (scan_sessions d);
  sc_active : forall i r j r', scan_sessions d !! i = Some r -> scan_sessions d !! j = Some r' ->
    active r -> active r' -> ss_storage_root_id r = ss_storage_root_id r' -> i = j;
  sc_ledger : map_Forall (ledger_ok d) (scan_sessions d);
  sc_batches : forall s q, is_Some (scan_batches d !! (s, q)) -> is_Some (scan_sessions d !! s);
  sc_observations : forall s q o, is_Some (scan_observations d !! (s, q, o)) ->
    is_Some (scan_batches d !! (s, q));
  sc_locations : map_Forall location_ok (file_locations d);
  sc_attributed : forall id l s, file_locations d !! id = Some l -> fl_retired_by l = Some s ->
    exists r, scan_sessions d !! s = Some r /\ ss_status r = ScanSucceeded /\ reconciled d s r id l;
  sc_count : forall s r, scan_sessions d !! s = Some r -> ss_status r = ScanSucceeded ->
    ss_retired_location_count r = attributed_location_count d s;
}.

(** A session of a sound database is readable in every way the repository
    reads it. *)
Lemma read_plain d id r :
  session_ok d id r -> row_to_scan_session (id, r) = Ok (session_of id r).
Proof. intros [Hc Hk _ _]. by apply row_to_scan_session_total. Qed.

Lemma read_mutation d id r :
  session_ok d id r -> row_to_mutation_session d (id, r) = Ok (session_of id r).
Proof.
  intros Hs. unfold row_to_mutation_session. rewrite (read_plain d) by done. cbn.
  by rewrite (so_incarnation _ _ _ Hs).
Qed.

Lemma attributed_none d s :
  scan_sound d ->
  (forall r, scan_sessions d !! s = Some r -> ss_status r <> ScanSucceeded) ->
  attributed_location_count d s = 0.
Proof.
  intros S Hs. apply count_where_zero. intros id l Hl. apply bool_decide_eq_false. intros E.
  destruct (sc_attributed d S id l s Hl E) as (r & Hr & Hst & _). by apply (Hs r).
Qed.

Lemma read_inspected d id r :
  scan_sound d -> scan_sessions d !! id = Some r ->
  row_to_inspected_scan_session d (id, r) = Ok (session_of id r).
Proof.
  intros S Hr. unfold row_to_inspected_scan_session.
  rewrite (read_plain d) by exact (sc_session d S id r Hr). cbn.
  assert (u64_from_i64 (attributed_location_count d id) = Ok (attributed_location_count d id)) as ->.
  { apply u64_from_i64_ok. split; [done|apply count_where_pos]. }
  cbn. unfold validate_scan_session_integrity. cbn.
  destruct (decide (ss_status r = ScanSucceeded)) as [Hst|Hst].
  - rewrite bool_decide_eq_true_2 by done. cbn.
    rewrite (sc_count d S id r Hr Hst), Z.eqb_refl. done.
  - rewrite bool_decide_eq_false_2 by done. cbn.
    rewrite (attributed_none d id S); [done|]. intros r' Hr'. congruence.
Qed.

Lemma fetch_mutation d id :
  scan_sound d -> id <= i64_max ->
  mutation_session_in_tx id d = (Ok (session_of id <$> scan_sessions d !! id), d).
Proof.
  intros S Hid. unfold mutation_session_in_tx, fetch_session.
  rewrite (proj2 (i64_from_u64_ok id id)) by done. unfold getsR, lift, mbind, tx_mbind.
  destruct (scan_sessions d !! id) as [r|] eqn:Hr; [|by cbn]. cbn.
  by rewrite (read_mutation d) by exact (sc_session d S id r Hr).
Qed.

Lemma fetch_inspected d id :
  scan_sound d -> id <= i64_max ->
  Scan_get_in_tx id d = (Ok (session_of id <$> scan_sessions d !! id), d).
Proof.
  intros S Hid. unfold Scan_get_in_tx, fetch_session.
  rewrite (proj2 (i64_from_u64_ok id id)) by done. unfold getsR, lift, mbind, tx_mbind.
  destruct (scan_sessions d !! id) as [r|] eqn:Hr; [|by cbn]. cbn.
  by rewrite (read_inspected d) by done.
Qed.

(** *** Frames *)

Lemma session_ok_frame d d' id r :
  node_incarnations_of d' = node_incarnations_of d -> file_locations d' = file_locations d ->
  session_ok d id r -> session_ok d' id r.
Proof.
  intros Ei El [Hc Hk Hi Hw]. split; [done|done| |].
  - revert Hi. unfold owner_incarnation_valid. by rewrite Ei.
  - by rewrite El.
Qed.

Lemma ledger_ok_frame d d' s r r' :
  scan_batches d' = scan_batches d -> scan_observations d' = scan_observations d ->
  ss_next_sequence r' = ss_next_sequence r -> ss_observation_count r' = ss_observation_count r ->
  ledger_ok d s r -> ledger_ok d' s r'.
Proof.
  intros Eb Eo En Ec [L1 L2 L3 L4 L5 L6].
  assert (forall q, cumulative_before d' s q = cumulative_before d s q) as Ecb
    by (intros q; unfold cumulative_before; by rewrite Eb).
  split; rewrite ?Eb, ?Eo, ?En, ?Ec, ?Ecb; try done.
  intros q b Hb. destruct (L2 q b Hb). split; try done. by rewrite Ecb.
Qed.

Lemma reconciled_frame d d' s r r' id l :
  scan_observations d' = scan_observations d -> ss_storage_root_id r' = ss_storage_root_id r ->
  ss_terminal_at r' = ss_terminal_at r ->
  ss_location_high_watermark_id r' = ss_location_high_watermark_id r ->
  reconciled d s r id l -> reconciled d' s r' id l.
Proof.
  intros Eo Er Et Eh [R1 R2 R3 R4 R5]. split; rewrite ?Er, ?Et, ?Eh; try done.
  unfold locator_observed in *. by rewrite Eo.
Qed.

(** *** Session updates *)

(** What the repository may turn a session row into, completion apart. *)
Record session_moves (d : ScanDb) (id : Z) (r r' : ScanSessionRow) : Prop := {
  sm_ok : session_ok d id r';
  sm_active : active r' -> active r;
  sm_root : ss_storage_root_id r' = ss_storage_root_id r;
  sm_next : ss_next_sequence r' = ss_next_sequence r;
  sm_count : ss_observation_count r' = ss_observation_count r;
  sm_before : ss_status r <> ScanSucceeded;
  sm_after : ss_status r' <> ScanSucceeded;
}.

Lemma session_updated d id r r' :
  scan_sound d -> scan_sessions d !! id = Some r -> session_moves d id r r' ->
  scan_sound (set_scan_sessions (<[id := r']> (scan_sessions d)) d).
Proof.
  intros S Hr [Hok Hact Hroot Hnext Hcount Hb Ha].
  assert (forall k x, <[id := r']> (scan_sessions d) !! k = Some x ->
    (k = id /\ x = r') \/ (k <> id /\ scan_sessions d !! k = Some x)) as Hcases.
  { intros k x Hx. destruct (decide (k = id)) as [->|Hne].
    - rewrite lookup_insert_eq in Hx. left. split; congruence.
    - rewrite lookup_insert_ne in Hx by done. by right. }
  split; cbn.
  - intros k x [[-> ->]|[_ Hx]]%Hcases; apply (session_ok_frame d); try done.
    exact (sc_session d S k x Hx).
  - intros i x j y [[-> ->]|[Hi Hx]]%Hcases [[-> ->]|[Hj Hy]]%Hcases Hax Hay E; try done.
    + rewrite Hroot in E. eapply (sc_active d S id r j y); eauto.
    + rewrite Hroot in E. eapply (sc_active d S i x id r); eauto.
    + eapply (sc_active d S i x j y); eauto.
  - intros k x [[-> ->]|[_ Hx]]%Hcases.
    + eapply (ledger_ok_frame d _ id r); try done. exact (sc_ledger d S id r Hr).
    + eapply (ledger_ok_frame d _ k x); try done. exact (sc_ledger d S k x Hx).
  - intros k q Hk. destruct (decide (k = id)) as [->|Hne].
    + rewrite lookup_insert_eq. eauto.
    + rewrite lookup_insert_ne by done. by eapply (sc_batches d S).
  - apply (sc_observations d S).
  - apply (sc_locations d S).
  - intros l row k Hl Hby. destruct (sc_attributed d S l row k Hl Hby) as (x & Hx & Hst & Hrec).
    assert (k <> id) as Hne by (intros ->; congruence).
    exists x. rewrite lookup_insert_ne by done. split_and!; [done|done|].
    by eapply (reconciled_frame d _ k x).
  - intros k x [[-> ->]|[_ Hx]]%Hcases Hst; [done|]. exact (sc_count d S k x Hx Hst).
Qed.

Lemma set_sessions_twice m m' d : set_scan_sessions m (set_scan_sessions m' d) = set_scan_sessions m d.
Proof. done. Qed.

(** Several sessions at once. *)
Lemma sessions_updated rows d :
  scan_sound d -> NoDup rows.*1 ->
  (forall k r', In (k, r') rows ->
    exists r, scan_sessions d !! k = Some r /\ session_moves d k r r') ->
  scan_sound (set_scan_sessions
    (foldl (fun m kv => <[kv.1 := kv.2]> m) (scan_sessions d) rows) d).
Proof.
  revert d; induction rows as [|[k r'] rows IH]; intros d S Hnd Hrows.
  - by destruct d.
  - cbn [foldl fst snd fmap list_fmap] in *. apply NoDup_cons in Hnd as [Hk Hnd].
    destruct (Hrows k r') as (r & Hr & Hm); [by left|].
    specialize (IH (set_scan_sessions (<[k := r']> (scan_sessions d)) d)).
    rewrite set_sessions_twice in IH. apply IH; [by eapply session_updated|done|].
    intros k2 r2 Hin. destruct (Hrows k2 r2) as (x & Hx & Hm2); [by right|].
    assert (k2 <> k) as Hne.
    { intros ->. apply Hk. apply list_elem_of_fmap. exists (k, r2).
      split; [done|by apply list_elem_of_In]. }
    exists x. cbn. rewrite lookup_insert_ne by done. split; [done|].
    destruct Hm2 as [M1 M2 M3 M4 M5 M6 M7]. split; try done. by apply (session_ok_frame d).
Qed.

(** *** The statements *)

Lemma update_sessions_ok cond upd check d rows d' :
  update_sessions cond upd check d = (Ok rows, d') ->
  rows = map (fun kv => (kv.1, upd kv.2)) (select_asc cond (scan_sessions d)) /\
  forallb (fun kv => check d kv.2) rows = true /\
  d' = set_scan_sessions (foldl (fun m kv => <[kv.1 := kv.2]> m) (scan_sessions d) rows) d.
Proof.
  unfold update_sessions. intros Hu. tx_inv.
  destruct (forallb (fun kv => check _ kv.2) _) eqn:Hc; cbn in *; [|discriminate].
  tx_inv. done.
Qed.

Lemma update_one_ok key c upd check d rows d' :
  update_sessions (fun k r => (k =? key) && c r) upd check d = (Ok rows, d') ->
  (rows = [] /\ d' = d) \/
  exists r, scan_sessions d !! key = Some r /\ c r = true /\ check d (upd r) = true /\
    rows = [(key, upd r)] /\
    d' = set_scan_sessions (<[key := upd r]> (scan_sessions d)) d.
Proof.
  intros (-> & Hc & ->)%update_sessions_ok. rewrite select_asc_single in *.
  destruct (scan_sessions d !! key) as [r|] eqn:Hr; [destruct (c r) eqn:Hcr|].
  - right. exists r. cbn in *. rewrite andb_true_r in Hc. done.
  - left. by destruct d.
  - left. by destruct d.
Qed.

Lemma update_one_run key c upd check d r :
  scan_sessions d !! key = Some r -> c r = true -> check d (upd r) = true ->
  update_sessions (fun k r => (k =? key) && c r) upd check d =
  (Ok [(key, upd r)], set_scan_sessions (<[key := upd r]> (scan_sessions d)) d).
Proof.
  intros Hr Hc Hk. unfold update_sessions, mbind, tx_mbind, gets, modify, throw.
  rewrite select_asc_single, Hr, Hc. cbn. by rewrite Hk.
Qed.

Lemma update_sessions_ext cond cond' upd check d :
  (forall k r, cond k r = cond' k r) ->
  update_sessions cond upd check d = update_sessions cond' upd check d.
Proof.
  intros Hc. assert (select_asc cond (scan_sessions d) = select_asc cond' (scan_sessions d)) as E.
  { unfold select_asc. apply List.filter_ext. intros kv. apply Hc. }
  unfold update_sessions, mbind, tx_mbind, gets. by rewrite E.
Qed.

(** Decoding a row checks the text it carries. *)
Lemma row_ok_columns id r s :
  row_to_scan_session (id, r) = Ok s ->
  0 <= id /\ 0 <= ss_storage_root_id r /\ 0 <= ss_owner_node_id r /\
  from_option (fun v => validate_terminal_reason v = Ok tt) True (ss_terminal_reason r) /\
  from_option (fun i => is_Some (parse_incarnation_id i)) True (ss_owner_incarnation_id r) /\
  from_option (fun l => 0 <= l) True (ss_location_high_watermark_id r).
Proof.
  unfold row_to_scan_session, optional_incarnation_id. intros Hs. store_inv.
  repeat match goal with Hx : transpose _ = Ok _ |- _ => apply transpose_map_ok in Hx end.
  split_and!; try done.
  - destruct (ss_terminal_reason r) as [v|]; [|done]. cbn.
    match goal with Hx : exists b, ScanTerminalReason_parse_database v = Ok b /\ _ |- _ =>
      destruct Hx as (? & Hv & _) end.
    unfold ScanTerminalReason_parse_database in Hv.
    by destruct (validate_terminal_reason v) as [[]|].
  - destruct (ss_owner_incarnation_id r) as [i|]; [|done]. cbn.
    match goal with Hx : exists b, ok_or (parse_incarnation_id i) _ = Ok b /\ _ |- _ =>
      destruct Hx as (? & Hv%ok_or_ok & _) end. eauto.
  - destruct (ss_location_high_watermark_id r) as [l|]; [|done]. cbn.
    match goal with Hx : exists b, u64_from_i64 l = Ok b /\ _ |- _ =>
      destruct Hx as (? & Hv & _) end. by store_inv.
Qed.

(** An active session that ends without success. *)
Lemma terminal_moves d id r status reason ts s :
  session_ok d id r -> active r -> status ∈ [ScanFailed; ScanCancelled; ScanStale] ->
  stamped ts ->
  session_check (terminal_row status (Some reason) (ss_retired_location_count r) ts r) = true ->
  row_to_scan_session
    (id, terminal_row status (Some reason) (ss_retired_location_count r) ts r) = Ok s ->
  session_moves d id r (terminal_row status (Some reason) (ss_retired_location_count r) ts r).
Proof.
  intros [[C1 C2 C3 C4 C5 C6 C7 C8 C9 C10] Hk Hi Hw] Hact Hst Hts Hck
    (_ & _ & _ & Hreason & _)%row_ok_columns.
  assert (status <> ScanSucceeded) as Hns by (intros ->; set_solver).
  split; [|intros _; exact Hact|done|done|done| |exact Hns].
  - split; [by split|done|done|done].
  - intros E. unfold active in Hact. by rewrite E in Hact.
Qed.

(** *** Session operations keep the invariant *)

Lemma transpose_u64 o o' : transpose (option_map u64_from_i64 o) = Ok o' -> o' = o.
Proof.
  intros Ht%transpose_map_ok. destruct o; [|done]. destruct Ht as (b & Hb & ->). by store_inv.
Qed.
Lemma transpose_i64 o o' : transpose (option_map i64_from_u64 o) = Ok o' -> o' = o.
Proof.
  intros Ht%transpose_map_ok. destruct o; [|done]. destruct Ht as (b & Hb & ->). by store_inv.
Qed.

Lemma mutation_row_ok d id r s : row_to_mutation_session d (id, r) = Ok s -> s = session_of id r.
Proof.
  unfold row_to_mutation_session. intros Hs.
  destruct (row_to_scan_session (id, r)) as [s'|] eqn:E; [|done]. cbn in Hs.
  destruct (owner_incarnation_valid d r); [|done]. injection Hs as <-.
  by apply row_to_scan_session_ok.
Qed.

(** What the operations write when they succeed. *)
Lemma terminalize_ok id status reason now d s d' :
  terminalize_in_tx id status reason now d = (Ok s, d') ->
  exists r ts, status ∈ [ScanFailed; ScanCancelled; ScanStale] /\
    scan_sessions d !! id = Some r /\ active r /\ stamped ts /\
    let r' := terminal_row status (Some reason) (ss_retired_location_count r) ts r in
    session_check r' = true /\ row_to_scan_session (id, r') = Ok s /\
    d' = set_scan_sessions (<[id := r']> (scan_sessions d)) d.
Proof.
  intros Ht. unfold terminalize_in_tx in Ht.
  destruct (bool_decide (status ∈ _)) eqn:Hst; [|done]. apply bool_decide_eq_true in Hst.
  cbn [negb] in Ht. tx_inv.
  match goal with Hm : mutation_session_in_tx _ _ = _ |- _ =>
    unfold mutation_session_in_tx, fetch_session in Hm end. store_inv.
  destruct (active_status _); cbn [negb] in *; [|discriminate]. store_inv.
  match goal with Hu : update_sessions _ _ _ _ = _ |- _ => apply update_one_ok in Hu end.
  match goal with Hx : _ \/ _ |- _ => destruct Hx as [[-> ->]|(r & Hr & Hc & Hck & -> & ->)] end;
    [discriminate|].
  match goal with Hx : head _ = Some _ |- _ => injection Hx as <- end.
  eexists r, _. split_and!; eauto. by eapply format_stamped.
Qed.

Lemma terminalize_sound id status reason now :
  preserves scan_sound (terminalize_in_tx id status reason now).
Proof.
  intros d s d' S (r & ts & Hst & Hr & Hact & Hts & Hck & Hrow & ->)%terminalize_ok.
  eapply session_updated; [done|done|].
  eapply terminal_moves; eauto. exact (sc_session _ S _ _ Hr).
Qed.

Lemma stale_ok candidates pick reason now d l d' :
  stale_sessions candidates pick reason now d = (Ok l, d') ->
  exists ts hits, stamped ts /\ NoDup hits.*1 /\
    (forall k r, In (k, r) hits -> scan_sessions d !! k = Some r /\ candidates r = true /\
      let r' := terminal_row ScanStale (Some reason) (ss_retired_location_count r) ts r in
      session_check r' = true /\ exists s, row_to_scan_session (k, r') = Ok s) /\
    d' = set_scan_sessions (foldl (fun m kv => <[kv.1 := kv.2]> m) (scan_sessions d)
      (map (fun kv => (kv.1, terminal_row ScanStale (Some reason)
                               (ss_retired_location_count kv.2) ts kv.2)) hits)) d \/ d' = d.
Proof.
  intros Ht. unfold stale_sessions in Ht. store_inv.
  destruct (List.length _ =? 0)%nat.
  { store_inv. exists "", []. by right. }
  store_inv.
  destruct (List.length _ =? List.length _)%nat; cbn [negb] in *; [|discriminate]. store_inv.
  match goal with Hu : update_sessions _ _ _ _ = _ |- _ =>
    apply update_sessions_ok in Hu as (-> & Hck & ->) end.
  match goal with Hx : collect row_to_scan_session _ = Ok _ |- _ => rename Hx into Hcol end.
  match goal with Hx : format_text now = Some ?t |- _ => exists t end.
  eexists. left. split_and!; [by eapply format_stamped| | |done].
  - apply NoDup_fst_filter, rows_asc_NoDup.
  - intros k r Hin. pose proof Hin as Hsel. apply select_asc_in in Hsel as [Hr Hc].
    apply andb_true_iff in Hc as [Hc _]. rewrite forallb_forall in Hck.
    specialize (Hck _ (in_map _ _ _ Hin)). cbn in Hck. apply collect_ok in Hcol.
    destruct (Forall2_In_l _ _ _ _ Hcol (in_map _ _ _ Hin)) as (s & _ & Hs). cbn in Hs. eauto.
Qed.

Lemma stale_sound candidates pick reason now :
  (forall r, candidates r = true -> active r) ->
  preserves scan_sound (stale_sessions candidates pick reason now).
Proof.
  intros Hcand d l d' S (ts & hits & [(Hts & Hnd & Hhits & ->)| ->])%stale_ok; [|done].
  apply sessions_updated; [done|by rewrite map_fst_same|].
  intros k r' Hin. apply in_map_iff in Hin as ([k0 r] & [= <- <-] & Hin).
  destruct (Hhits _ _ Hin) as (Hr & Hc & Hck & s & Hs). exists r. split; [done|].
  eapply terminal_moves; eauto; [exact (sc_session _ S _ _ Hr)|set_solver].
Qed.

Lemma start_ok id incarnation deadline now d s d' :
  start_in_tx id incarnation deadline now d = (Ok s, d') ->
  exists r ds ts, scan_sessions d !! id = Some r /\ ss_status r = ScanRequested /\
    stamped ds /\ stamped ts /\
    let r' := started_row (NodeIncarnationId_display incarnation)
                (high_watermark d (ss_storage_root_id r)) ds ts r in
    session_check r' = true /\ session_references d r' = true /\
    row_to_scan_session (id, r') = Ok s /\
    d' = set_scan_sessions (<[id := r']> (scan_sessions d)) d.
Proof.
  intros Ht. unfold start_in_tx, mutation_session_in_tx, fetch_session in Ht. store_inv.
  destruct (bool_decide (scan_status _ = _)); cbn [negb] in *; [|discriminate]. store_inv.
  match goal with Hv : validate_incarnation_owner_in_tx _ _ _ = _ |- _ =>
    unfold validate_incarnation_owner_in_tx in Hv end. store_inv.
  destruct (bool_decide (node_incarnations_of _ !! _ = _)); [|discriminate]. store_inv.
  match goal with Hu : update_sessions _ _ _ _ = _ |- _ => apply update_one_ok in Hu end.
  match goal with Hx : _ \/ _ |- _ => destruct Hx as [[-> ->]|(r & Hr & Hc & Hck & -> & ->)] end;
    [discriminate|].
  match goal with Hx : head _ = Some _ |- _ => injection Hx as <- end.
  apply andb_true_iff in Hck as [Hck Href]. apply bool_decide_eq_true in Hc.
  match goal with Hm : transpose (option_map (fun r => row_to_mutation_session _ _) _) = _ |- _ =>
    rewrite Hr in Hm; apply transpose_map_ok in Hm as (? & Hm & [= <-]);
    apply mutation_row_ok in Hm as -> end.
  repeat match goal with Hw : transpose (option_map _ _) = Ok _ |- _ =>
    first [apply transpose_u64 in Hw as ->|apply transpose_i64 in Hw as ->] end.
  eexists r, _, _. split_and!; eauto; by eapply format_stamped.
Qed.

Lemma start_sound id incarnation deadline now :
  preserves scan_sound (start_in_tx id incarnation deadline now).
Proof.
  intros d s d' S (r & ds & ts & Hr & Hc & Hds & Hts & Hck & Href & Hrow & ->)%start_ok.
  unfold session_references in Href. rewrite !andb_true_iff in Href.
  destruct Href as [[_ Hinc] Hw].
  apply row_ok_columns in Hrow as (_ & _ & _ & _ & Hi & Hhw).
  destruct (sc_session _ S _ _ Hr) as [[C1 C2 C3 C4 C5 C6 C7 C8 C9 C10] Hk _ _].
  eapply session_updated; [done|done|].
  split; [|intros _; unfold active; by rewrite Hc|done|done|done|by rewrite Hc|done].
  split; [by split|done|done|].
  cbn in Hw |- *. intros l E. rewrite E in Hw. destruct (file_locations d !! l) as [row|]; [|done].
  exists row. split; [done|]. by apply bool_decide_eq_true in Hw.
Qed.

Lemma ledger_fresh d n r :
  scan_sound d -> scan_sessions d !! n = None ->
  ss_next_sequence r = 0 -> ss_observation_count r = 0 -> ledger_ok d n r.
Proof.
  intros S Hfresh Hn Ho.
  assert (forall q, scan_batches d !! (n, q) = None) as Hb.
  { intros q. destruct (scan_batches d !! (n, q)) eqn:E; [|done].
    destruct (sc_batches d S n q) as [? ?]; [eauto|congruence]. }
  assert (forall q o, scan_observations d !! (n, q, o) = None) as Hobs.
  { intros q o. destruct (scan_observations d !! (n, q, o)) eqn:E; [|done].
    destruct (sc_observations d S n q o) as [? ?]; [eauto|]. by rewrite Hb in *. }
  split.
  - intros q. rewrite Hb, Hn. split; [by intros [? [=]]|lia].
  - intros q b. by rewrite Hb.
  - by rewrite Hn, Ho.
  - intros q o. rewrite Hobs, Hb. split; [by intros [? [=]]|by intros (? & [=] & _)].
  - intros q o row. by rewrite Hobs.
  - intros q o row q' o' row'. by rewrite Hobs.
Qed.

Lemma session_inserted d n r :
  scan_sound d -> scan_sessions d !! n = None -> session_ok d n r ->
  ss_next_sequence r = 0 -> ss_observation_count r = 0 -> ss_status r <> ScanSucceeded ->
  (forall k x, scan_sessions d !! k = Some x -> active x ->
    ss_storage_root_id x <> ss_storage_root_id r) ->
  scan_sound (set_scan_sessions (<[n := r]> (scan_sessions d)) d).
Proof.
  intros S Hfresh Hok Hn Ho Hst Hel.
  assert (forall k x, <[n := r]> (scan_sessions d) !! k = Some x ->
    (k = n /\ x = r) \/ (k <> n /\ scan_sessions d !! k = Some x)) as Hcases.
  { intros k x Hx. destruct (decide (k = n)) as [->|Hne].
    - rewrite lookup_insert_eq in Hx. left. split; congruence.
    - rewrite lookup_insert_ne in Hx by done. by right. }
  split; cbn.
  - intros k x [[-> ->]|[_ Hx]]%Hcases; apply (session_ok_frame d); try done.
    exact (sc_session d S k x Hx).
  - intros i x j y [[-> ->]|[Hi Hx]]%Hcases [[-> ->]|[Hj Hy]]%Hcases Hax Hay E; try done.
    + exfalso. by apply (Hel j y).
    + exfalso. by apply (Hel i x).
    + eapply (sc_active d S i x j y); eauto.
  - intros k x [[-> ->]|[_ Hx]]%Hcases.
    + eapply (ledger_ok_frame d _ n r); try done. by apply ledger_fresh.
    + eapply (ledger_ok_frame d _ k x); try done. exact (sc_ledger d S k x Hx).
  - intros k q Hk. apply (sc_batches d S) in Hk as [x Hx].
    rewrite lookup_insert_ne by congruence. eauto.
  - apply (sc_observations d S).
  - apply (sc_locations d S).
  - intros l row k Hl Hby. destruct (sc_attributed d S l row k Hl Hby) as (x & Hx & Hstx & Hrec).
    exists x. rewrite lookup_insert_ne by congruence. split_and!; [done|done|].
    by eapply (reconciled_frame d _ k x).
  - intros k x [[-> ->]|[_ Hx]]%Hcases Hstx; [done|]. exact (sc_count d S k x Hx Hstx).
Qed.

Lemma insert_requested_ok input d s d' :
  insert_requested_in_tx input d = (Ok s, d') ->
  exists ds ts, stamped ds /\ stamped ts /\
    let n := next_rowid (scan_sessions d) in
    let r := requested_row input ds ts in
    session_check r = true /\ active_elsewhere d n (ns_storage_root_id input) = false /\
    row_to_scan_session (n, r) = Ok s /\
    d' = set_scan_sessions (<[n := r]> (scan_sessions d)) d.
Proof.
  intros Ht. unfold insert_requested_in_tx in Ht. store_inv.
  destruct (session_check _) eqn:Hck; cbn [negb] in *; [|discriminate]. store_inv.
  destruct (active_elsewhere _ _ _) eqn:Hel; store_inv.
  destruct (session_references _ _); cbn [negb] in *; [|discriminate]. store_inv.
  eexists _, _. split_and!; eauto; by eapply format_stamped.
Qed.

(** The new session is the only active one of its root. *)
Lemma requested_alone d n root :
  scan_sessions d !! n = None -> active_elsewhere d n root = false ->
  forall k x, scan_sessions d !! k = Some x -> active x -> ss_storage_root_id x <> root.
Proof.
  intros Hfresh Hel k x Hx Hax E. revert Hel. apply not_false_iff_true, existsb_exists.
  exists (k, x). split; [by apply list_elem_of_In, elem_of_map_to_list|]. cbn.
  rewrite (proj2 (Z.eqb_neq k n)) by congruence. rewrite E, Z.eqb_refl. exact Hax.
Qed.

Lemma insert_requested_sound input : preserves scan_sound (insert_requested_in_tx input).
Proof.
  intros d s d' S (ds & ts & Hds & Hts & Hck & Hel & Hrow & ->)%insert_requested_ok.
  apply row_ok_columns in Hrow as (Hid & Hroot & Hown & _).
  assert (scan_sessions d !! next_rowid (scan_sessions d) = None) as Hfresh by apply next_rowid_fresh.
  apply session_inserted; try done. exact (requested_alone d _ _ Hfresh Hel).
Qed.
End invariant.
