(* ===== verification/ScanBatches.v ===== *)
(** * Accepting observation batches

    What [accepted_batch_in_tx] answers and writes: a new batch at the frontier
    of the ledger is appended whole, a batch already in the ledger is answered
    again without a write, everything else is refused. *)

From S2P Require Import Prelude Json Vocab Operations Store Locators Scans ScanLedger.
From Stdlib Require Import ZArith Lia Bool String Ascii.
From stdpp Require Import base gmap strings list sorting relations.

Open Scope string_scope.
Open Scope Z_scope.

(** ** The prepared batch *)

(** The types of the input: a validated locator and an unsigned size. *)
Definition observation_typed (o : ScanObservation) : Prop :=
  validate_relative_locator (ob_locator o) = Ok tt /\ 0 <= ob_size_bytes o.

Definition batch_typed (new : NewScanObservationBatch) : Prop :=
  0 <= nb_scan_session_id new /\ 0 <= nb_sequence new /\
  Forall observation_typed (nb_observations new).

Section prepared.
Context `{Iso8601Laws, EvidenceCodecLaws}.

(** A row the statement accepts and the repository reads back. *)
Record row_ok (x : ScanObservationRow) : Prop := {
  rk_readable : is_ok (decode_observation_row x) = true;
  rk_locator : locator_check (so_locator x) = true;
  rk_identity : identity_ok (so_identity x) = true;
  rk_size : 0 <= so_size_bytes x;
  rk_stability : text_le (so_stability_started_at x) (so_stability_confirmed_at x) = true;
}.

Lemma prepared_row_ok ordinal o x :
  observation_typed o -> PreparedObservation_new ordinal o = Ok x ->
  row_ok x /\ so_locator x = ob_locator o.
Proof.
  intros [Hloc Hsize] Hp. unfold PreparedObservation_new, validate_batch_observation in Hp.
  unfold input_i64 in Hp.
  destruct (identity_ok (ob_identity o)) eqn:Hid; cbn [negb] in Hp; [|discriminate].
  destruct (Z.ltb_spec (ob_stability_confirmed_at o) (ob_stability_started_at o)) as [|Hst];
    [discriminate|].
  destruct (ordinal <=? i64_max); [|discriminate].
  destruct (ob_size_bytes o <=? i64_max); [|discriminate]. store_inv.
  match goal with Hx : transpose _ = Ok _ |- _ => apply transpose_map_ok in Hx; rename Hx into Hev end.
  match goal with
  | Hm : format_text (ob_modified_at o) = Some ?m,
    Hs : format_text (ob_stability_started_at o) = Some ?b,
    Hc : format_text (ob_stability_confirmed_at o) = Some ?c,
    _ : match ob_evidence o with Some _ => _ | None => ?e = None end |- _ =>
      rename Hm into Hfm, Hs into Hfs, Hc into Hfc, b into tb, c into tc, e into ej
  end.
  split; [|done].
  pose proof (proj1 (locator_checks_agree _) Hloc) as [Hlc _].
  assert (text_le tb tc = true) as Hle by (by apply (text_le_instant _ _ _ _ Hfs Hfc)).
  split; cbn; try done.
  unfold decode_observation_row, validate_provider_object_identity. cbn. rewrite Hid. cbn.
  assert (is_ok (transpose (option_map ScanObservationEvidence_parse_database ej)) = true) as Hok.
  { destruct (ob_evidence o) as [e|]; [|by subst]. destruct Hev as (j & Hj & ->). cbn.
    by rewrite (evidence_database_roundtrip e j Hj). }
  destruct (transpose _) as [ev|]; [|done]. cbn.
  unfold ProviderRelativeLocator_parse_database. rewrite Hloc. cbn.
  rewrite (proj2 (u64_from_i64_ok _ _)) by done. cbn.
  rewrite (parse_iso8601_format _ _ Hfm), (parse_iso8601_format _ _ Hfs),
    (parse_iso8601_format _ _ Hfc). cbn.
  by rewrite (proj2 (Z.ltb_ge _ _)).
Qed.

Lemma prepared_rows_ok ordinal seen l xs :
  Forall observation_typed l -> prepare_observations ordinal seen l = Ok xs ->
  Forall row_ok xs /\ List.length xs = List.length l /\
  map so_locator xs = map ob_locator l /\ NoDup (map so_locator xs) /\
  (forall x, In x xs -> so_locator x ∉ seen).
Proof.
  revert ordinal seen xs; induction l as [|o l IH]; intros ordinal seen xs Hty Hp; cbn in Hp.
  - injection Hp as <-. split_and!; try done. constructor.
  - apply Forall_cons in Hty as [Ho Hty]. case_bool_decide as Hseen; [discriminate|].
    apply result_bind_ok in Hp as (x & Hx & Hp). apply result_bind_ok in Hp as (xs' & Hxs & [= <-]).
    destruct (prepared_row_ok _ _ _ Ho Hx) as [Hrow Hl].
    destruct (IH _ _ _ Hty Hxs) as (Hrows & Hlen & Hmap & Hnd & Hfresh).
    split_and!; [by constructor|cbn; lia|cbn; congruence| |].
    + cbn. constructor; [|done]. intros Hin%list_elem_of_In%in_map_iff.
      destruct Hin as (y & Ey & Hy). apply (Hfresh y Hy). rewrite Ey, Hl. set_solver.
    + intros y [<-|Hy]; [by rewrite Hl|]. specialize (Hfresh y Hy). set_solver.
Qed.

(** What preparing a well-typed batch establishes. *)
Record prepared (new : NewScanObservationBatch) (p : PreparedBatch) : Prop := {
  pr_session : pb_scan_session_id p = nb_scan_session_id new /\
    0 <= pb_scan_session_id p <= i64_max;
  pr_sequence : pb_sequence p = nb_sequence new /\ 0 <= pb_sequence p <= i64_max;
  pr_hash : is_lowercase_sha256 (pb_request_hash p) = true;
  pr_count : pb_observation_count p = Z.of_nat (List.length (pb_observations p));
  pr_range : 1 <= pb_observation_count p <= 1000;
  pr_rows : Forall row_ok (pb_observations p);
  pr_distinct : NoDup (map so_locator (pb_observations p));
  pr_stamps : stamped (pb_accepted_at p) /\ stamped (pb_next_progress_deadline_at p);
}.

Lemma PreparedBatch_new_ok new p :
  batch_typed new -> PreparedBatch_new new = Ok p -> prepared new p.
Proof.
  intros (Hs & Hq & Hty) Hp. unfold PreparedBatch_new, validate_batch_shape, input_i64 in Hp.
  destruct ((1 <=? Z.of_nat _) && _) eqn:Hr; cbn [negb] in Hp; [|discriminate].
  apply andb_true_iff in Hr. rewrite !Z.leb_le in Hr.
  destruct (is_lowercase_sha256 _) eqn:Hh; [|discriminate].
  destruct (Z.leb_spec (nb_scan_session_id new) i64_max); [|discriminate].
  destruct (Z.leb_spec (nb_sequence new) i64_max); [|discriminate].
  destruct (Z.of_nat _ <=? i64_max); [|discriminate]. store_inv.
  match goal with Hx : prepare_observations _ _ _ = _ |- _ =>
    destruct (prepared_rows_ok _ _ _ _ Hty Hx) as (Hrows & Hlen & _ & Hnd & _) end.
  split; cbn; try done; try lia.
  split; by eapply format_stamped.
Qed.
End prepared.

(** ** Writing a batch *)

(** [rows] at consecutive ordinals of batch [(s, q)]. *)
Fixpoint insert_rows (s q o : Z) (rows : list ScanObservationRow)
    (m : gmap (Z * Z * Z) ScanObservationRow) : gmap (Z * Z * Z) ScanObservationRow :=
  match rows with
  | [] => m
  | x :: rows' => insert_rows s q (o + 1) rows' (<[(s, q, o) := x]> m)
  end.

Lemma insert_rows_lookup s q rows : forall o m k,
  insert_rows s q o rows m !! k =
  if decide (k.1 = (s, q) /\ o <= k.2 < o + Z.of_nat (List.length rows))
  then rows !! Z.to_nat (k.2 - o) else m !! k.
Proof.
  induction rows as [|x rows IH]; intros o m [[s' q'] o']; cbn [insert_rows List.length].
  - rewrite decide_False by (cbn; lia). done.
  - rewrite IH. cbn [fst snd].
    destruct (decide ((s', q') = (s, q) /\ o + 1 <= o' < o + 1 + Z.of_nat (List.length rows)))
      as [[E Hr]|Hn].
    + rewrite decide_True by (split; [done|lia]).
      replace (Z.to_nat (o' - o)) with (S (Z.to_nat (o' - (o + 1)))) by lia. done.
    + destruct (decide ((s', q', o') = (s, q, o))) as [[= -> -> ->]|Hne].
      * rewrite lookup_insert_eq, decide_True by (split; [done|lia]).
        by replace (Z.to_nat (o - o)) with O by lia.
      * rewrite lookup_insert_ne by done. rewrite decide_False; [done|].
        intros [E Hr]. apply Hn. split; [done|]. injection E as -> ->.
        assert (o' <> o) by (intros ->; done). lia.
Qed.

Definition batch_row (p : PreparedBatch) (cumulative : Z) : ScanBatchRow := {|
  sb_previous_sequence := if 0 <? pb_sequence p then Some (pb_sequence p - 1) else None;
  sb_request_hash := pb_request_hash p; sb_observation_count := pb_observation_count p;
  sb_accepted_at := pb_accepted_at p; sb_cumulative := cumulative |}.

(** The database after accepting [p] on the session row [r]. *)
Definition batch_written (d : ScanDb) (p : PreparedBatch) (r : ScanSessionRow) : ScanDb :=
  let s := pb_scan_session_id p in
  let q := pb_sequence p in
  let total := ss_observation_count r + pb_observation_count p in
  set_scan_observations (insert_rows s q 0 (pb_observations p) (scan_observations d))
    (set_scan_batches (<[(s, q) := batch_row p total]> (scan_batches d))
      (set_scan_sessions (<[s := progressed_row (q + 1) (q + 1) total
         (pb_next_progress_deadline_at p) r]> (scan_sessions d)) d)).

Lemma map_fmap_lookup {A B} (f : A -> B) (l : list A) i : map f l !! i = f <$> l !! i.
Proof. apply list_lookup_fmap. Qed.

(** The progress check in plain arithmetic. *)
Lemma progress_check_spec `{Iso8601Laws} r :
  0 <= ss_next_sequence r <= i64_max -> 0 <= ss_observation_count r <= 100000 ->
  progress_check r = true <->
  ss_batch_count r = ss_next_sequence r /\
  ss_next_sequence r <= ss_observation_count r <= 1000 * ss_next_sequence r.
Proof.
  intros Hn Ho. rewrite progress_check_iff by done.
  unfold has_coherent_progress_counters, u64_checked_mul, u64_max, i64_max in *. cbn.
  destruct (Z.eqb_spec (ss_batch_count r) (ss_next_sequence r)) as [->|]; cbn; [|split; [done|lia]].
  destruct (Z.eqb_spec (ss_next_sequence r) 0) as [->|]; [rewrite Z.eqb_eq; lia|].
  destruct (Z.ltb_spec (ss_observation_count r) (ss_next_sequence r)); [split; [done|lia]|].
  destruct (Z.leb_spec (ss_next_sequence r * 1000) 18446744073709551615);
    [rewrite Z.leb_le; lia|split; [lia|done]].
Qed.

Section write.
Context `{Iso8601Laws, EvidenceCodecLaws}.

Lemma progressed_check r next total deadline :
  session_check r = true -> next = ss_next_sequence r + 1 ->
  ss_observation_count r < total <= ss_observation_count r + 1000 -> total <= 100000 ->
  session_check (progressed_row next next total deadline r) = true.
Proof.
  intros Hk -> Ht Hmax. pose proof (session_check_bounds r Hk) as (Hn & Hb & Ho).
  unfold session_check in Hk. rewrite !andb_true_iff in Hk. destruct_and!.
  match goal with Hp : progress_check r = true |- _ =>
    apply progress_check_spec in Hp; [|unfold i64_max; lia|lia]; rename Hp into Hprog end.
  unfold session_check. cbn. rewrite !andb_true_iff, !Z.leb_le in *.
  split_and!; try done; try lia.
  apply progress_check_spec; cbn; unfold i64_max; lia.
Qed.

Lemma progressed_columns id r next total deadline :
  columns_ok id r -> stamped deadline ->
  columns_ok id (progressed_row next next total deadline r).
Proof. intros [C1 C2 C3 C4 C5 C6 C7 C8 C9 C10] Hd. by split. Qed.

Lemma locator_observed_spec d s loc :
  locator_observed d s loc = true <->
  exists q o row, scan_observations d !! (s, q, o) = Some row /\ so_locator row = loc.
Proof.
  unfold locator_observed. rewrite existsb_exists. split.
  - intros ([[[s' q] o] row] & Hin & Hc). cbn in Hc.
    apply andb_true_iff in Hc as [->%Z.eqb_eq Hl%String.eqb_eq].
    apply list_elem_of_In, elem_of_map_to_list in Hin. eauto.
  - intros (q & o & row & Hrow & <-). exists ((s, q, o), row). cbn.
    rewrite Z.eqb_refl, String.eqb_refl. split; [|done].
    by apply list_elem_of_In, elem_of_map_to_list.
Qed.

Lemma locator_unobserved d s loc :
  locator_observed d s loc = false <->
  forall q o row, scan_observations d !! (s, q, o) = Some row -> so_locator row <> loc.
Proof.
  rewrite <- not_true_iff_false, locator_observed_spec. split.
  - intros Hn q o row Hrow E. apply Hn. eauto.
  - intros Hn (q & o & row & Hrow & E). by eapply Hn.
Qed.

(** *** Reading the written database *)

Section written.
Variables (d : ScanDb) (p : PreparedBatch) (r : ScanSessionRow).
Let s := pb_scan_session_id p.
Let q := pb_sequence p.
Let total := ss_observation_count r + pb_observation_count p.

Lemma written_cumulative s' q' :
  cumulative_before (batch_written d p r) s' q' =
  if decide (s' = s /\ q' = q + 1 /\ q' <> 0) then total else cumulative_before d s' q'.
Proof.
  unfold cumulative_before. cbn. fold s q total.
  destruct (Z.eqb_spec q' 0) as [->|Hne]; [by rewrite decide_False by naive_solver|].
  destruct (decide (s' = s /\ q' = q + 1 /\ q' <> 0)) as [(-> & -> & _)|Hn].
  - replace (q + 1 - 1) with q by lia. by rewrite lookup_insert_eq.
  - rewrite lookup_insert_ne; [done|]. intros [= -> E]. apply Hn. split_and!; [done|lia|done].
Qed.

Lemma written_observation s' q' o :
  scan_observations (batch_written d p r) !! (s', q', o) =
  if decide ((s', q') = (s, q) /\ 0 <= o < Z.of_nat (List.length (pb_observations p)))
  then pb_observations p !! Z.to_nat o else scan_observations d !! (s', q', o).
Proof.
  change (scan_observations (batch_written d p r)) with
    (insert_rows s q 0 (pb_observations p) (scan_observations d)).
  rewrite insert_rows_lookup. cbn [fst snd]. rewrite Z.add_0_l, Z.sub_0_r. done.
Qed.

(** An observation of the written database is old or one of the batch. *)
Lemma written_observation_cases s' q' o row :
  scan_observations (batch_written d p r) !! (s', q', o) = Some row ->
  (s' = s /\ q' = q /\ 0 <= o < Z.of_nat (List.length (pb_observations p)) /\
   pb_observations p !! Z.to_nat o = Some row) \/
  scan_observations d !! (s', q', o) = Some row.
Proof.
  rewrite written_observation.
  destruct (decide _) as [[[= -> ->] Hr]|]; [left|right]; done.
Qed.
End written.

(** *** The ledger of the session that grows *)

Lemma ledger_extended d p r :
  scan_sound d -> scan_sessions d !! pb_scan_session_id p = Some r ->
  ss_next_sequence r = pb_sequence p ->
  is_lowercase_sha256 (pb_request_hash p) = true ->
  pb_observation_count p = Z.of_nat (List.length (pb_observations p)) ->
  1 <= pb_observation_count p <= 1000 -> 0 <= pb_sequence p ->
  Forall row_ok (pb_observations p) -> NoDup (map so_locator (pb_observations p)) ->
  stamped (pb_accepted_at p) ->
  (forall x, In x (pb_observations p) ->
    locator_observed d (pb_scan_session_id p) (so_locator x) = false) ->
  ledger_ok (batch_written d p r) (pb_scan_session_id p)
    (progressed_row (pb_sequence p + 1) (pb_sequence p + 1)
       (ss_observation_count r + pb_observation_count p) (pb_next_progress_deadline_at p) r).
Proof.
  intros S Hr Hnext Hhash Hcount Hrange Hq Hrows Hnd Hstamp Hfresh.
  set (s := pb_scan_session_id p) in *. set (q := pb_sequence p) in *.
  destruct (sc_ledger d S s r Hr) as [L1 L2 L3 L4 L5 L6].
  assert (scan_batches d !! (s, q) = None) as Hnone.
  { apply eq_None_not_Some. rewrite L1. lia. }
  assert (forall q' b, scan_batches (batch_written d p r) !! (s, q') = Some b ->
    (q' = q /\ b = batch_row p (ss_observation_count r + pb_observation_count p)) \/
    (q' <> q /\ scan_batches d !! (s, q') = Some b)) as Hcases.
  { cbn. fold s q. intros q' b Hb. destruct (decide (q' = q)) as [->|Hne].
    - rewrite lookup_insert_eq in Hb. left. split; congruence.
    - rewrite lookup_insert_ne in Hb by congruence. by right. }
  assert (forall o row, pb_observations p !! Z.to_nat o = Some row -> In row (pb_observations p))
    as Hin by (intros o row Hrow; apply list_elem_of_In; by eapply list_elem_of_lookup_2).
  split.
  - intros q'. cbn. fold s q. destruct (decide (q' = q)) as [->|Hne].
    + rewrite lookup_insert_eq. split; [lia|eauto].
    + rewrite lookup_insert_ne by congruence. rewrite L1. lia.
  - intros q' b [[-> ->]|[Hne Hb]]%Hcases.
    + split; cbn; try done.
      * fold q. destruct (Z.ltb_spec 0 q), (Z.eqb_spec q 0); done || lia.
      * rewrite written_cumulative. fold s q. rewrite decide_False by lia. by rewrite L3, Hnext.
    + destruct (L2 q' b Hb). split; try done. rewrite written_cumulative. fold s q.
      rewrite decide_False; [done|]. intros (_ & -> & _).
      assert (is_Some (scan_batches d !! (s, q + 1))) as Hx by eauto. apply L1 in Hx. lia.
  - cbn [progressed_row ss_observation_count ss_next_sequence]. rewrite written_cumulative.
    fold s q. by rewrite decide_True by lia.
  - intros q' o. rewrite written_observation. fold s q. destruct (decide _) as [[[= ->] Hr']|Hn].
    + split; [intros _|intros _; apply lookup_lt_is_Some; lia].
      eexists. cbn. fold s q. rewrite lookup_insert_eq. split; [done|]. cbn. lia.
    + rewrite L4. cbn. fold s q. destruct (decide (q' = q)) as [->|Hne].
      * rewrite Hnone, lookup_insert_eq. split; [by intros (? & [=] & _)|].
        intros (b & [= <-] & Hb). cbn in Hb. exfalso. apply Hn. split; [done|lia].
      * by rewrite lookup_insert_ne by congruence.
  - intros q' o row [(_ & -> & _ & Hrow)|Hrow]%written_observation_cases; [|by eapply L5].
    rewrite Forall_forall in Hrows. apply rk_readable, Hrows. by eapply list_elem_of_lookup_2.
  - intros q1 o1 r1 q2 o2 r2
      [(_ & -> & B1 & H1')|H1']%written_observation_cases
      [(_ & -> & B2 & H2')|H2']%written_observation_cases E.
    + split; [done|]. assert (Z.to_nat o1 = Z.to_nat o2); [|lia].
      eapply (NoDup_lookup (map so_locator (pb_observations p)) _ _ (so_locator r1)); [done| |].
      * rewrite map_fmap_lookup, H1'. done.
      * rewrite map_fmap_lookup, H2', E. done.
    + exfalso. specialize (Hfresh r1 (Hin _ _ H1')). rewrite locator_unobserved in Hfresh.
      by apply (Hfresh _ _ _ H2').
    + exfalso. specialize (Hfresh r2 (Hin _ _ H2')). rewrite locator_unobserved in Hfresh.
      by apply (Hfresh _ _ _ H1').
    + by eapply L6.
Qed.

Lemma ledger_other d p r s' r' :
  s' <> pb_scan_session_id p -> ledger_ok d s' r' -> ledger_ok (batch_written d p r) s' r'.
Proof.
  intros Hne [L1 L2 L3 L4 L5 L6].
  assert (forall q', scan_batches (batch_written d p r) !! (s', q') = scan_batches d !! (s', q'))
    as Hb by (intros q'; cbn; rewrite lookup_insert_ne; [done|congruence]).
  assert (forall q' o, scan_observations (batch_written d p r) !! (s', q', o) =
    scan_observations d !! (s', q', o)) as Ho
    by (intros q' o; rewrite written_observation, decide_False; [done|naive_solver]).
  assert (forall q', cumulative_before (batch_written d p r) s' q' = cumulative_before d s' q')
    as Hc by (intros q'; rewrite written_cumulative, decide_False; [done|naive_solver]).
  split.
  - intros q'. by rewrite Hb.
  - intros q' b. rewrite Hb. intros Hx. destruct (L2 q' b Hx). split; try done. by rewrite Hc.
  - by rewrite Hc.
  - intros q' o. by rewrite Ho, Hb.
  - intros q' o row. rewrite Ho. apply L5.
  - intros q1 o1 r1 q2 o2 r2. rewrite !Ho. apply L6.
Qed.

(** Accepting a batch keeps the invariant. *)
Lemma batch_written_sound new d p r :
  scan_sound d -> prepared new p -> scan_sessions d !! pb_scan_session_id p = Some r ->
  ss_status r = ScanRunning -> ss_next_sequence r = pb_sequence p ->
  ss_observation_count r + pb_observation_count p <= 100000 ->
  (forall x, In x (pb_observations p) ->
    locator_observed d (pb_scan_session_id p) (so_locator x) = false) ->
  scan_sound (batch_written d p r).
Proof.
  intros S [[_ P1] [_ P2] P3 P4 P5 P6 P7 [P8 P9]] Hr Hst Hnext Hmax Hfresh.
  set (s := pb_scan_session_id p) in *.
  set (r' := progressed_row (pb_sequence p + 1) (pb_sequence p + 1)
       (ss_observation_count r + pb_observation_count p) (pb_next_progress_deadline_at p) r).
  destruct (sc_session d S s r Hr) as [Hc Hk Hi Hw].
  assert (session_ok d s r') as Hok.
  { split; [by apply progressed_columns| |done|done].
    apply progressed_check; [done|lia|lia|done]. }
  assert (forall k x, scan_sessions (batch_written d p r) !! k = Some x ->
    (k = s /\ x = r') \/ (k <> s /\ scan_sessions d !! k = Some x)) as Hcases.
  { cbn. fold s r'. intros k x Hx. destruct (decide (k = s)) as [->|Hne].
    - rewrite lookup_insert_eq in Hx. left. split; congruence.
    - rewrite lookup_insert_ne in Hx by done. by right. }
  assert (forall k, is_Some (scan_sessions d !! k) ->
    is_Some (scan_sessions (batch_written d p r) !! k)) as Hgrow.
  { intros k [x Hx]. cbn. fold s r'. destruct (decide (k = s)) as [->|Hne].
    - rewrite lookup_insert_eq. eauto.
    - rewrite lookup_insert_ne by done. eauto. }
  split.
  - intros k x [[-> ->]|[_ Hx]]%Hcases; apply (session_ok_frame d); try done.
    exact (sc_session d S k x Hx).
  - intros i x j y [[-> ->]|[Hi' Hx]]%Hcases [[-> ->]|[Hj Hy]]%Hcases Hax Hay E; try done.
    + eapply (sc_active d S s r j y); eauto.
    + eapply (sc_active d S i x s r); eauto.
    + eapply (sc_active d S i x j y); eauto.
  - intros k x [[-> ->]|[Hne Hx]]%Hcases.
    + apply ledger_extended; done || lia.
    + apply ledger_other; [done|]. exact (sc_ledger d S k x Hx).
  - intros k q' Hk'. apply Hgrow. cbn in Hk'.
    destruct (decide ((k, q') = (s, pb_sequence p))) as [[= -> ->]|Hne]; [eauto|].
    rewrite lookup_insert_ne in Hk' by (intros [= <- <-]; done). by eapply (sc_batches d S).
  - intros k q' o [row Hrow]. cbn.
    apply written_observation_cases in Hrow as [(-> & -> & _)|Hrow].
    + rewrite lookup_insert_eq. eauto.
    + destruct (decide ((k, q') = (s, pb_sequence p))) as [[= -> ->]|Hne].
      * rewrite lookup_insert_eq. eauto.
      * rewrite lookup_insert_ne by (intros [= <- <-]; done).
        apply (sc_observations d S k q' o). eauto.
  - apply (sc_locations d S).
  - intros l row k Hl Hby. destruct (sc_attributed d S l row k Hl Hby) as (x & Hx & Hstx & Hrec).
    assert (k <> s) as Hne.
    { intros ->. rewrite Hr in Hx. injection Hx as <-. by rewrite Hst in Hstx. }
    exists x. split_and!; [cbn; rewrite lookup_insert_ne; [done|exact (not_eq_sym Hne)]|done|].
    destruct Hrec as [R1 R2 R3 R4 (loc & R5 & R6 & R7)]. split; try done.
    exists loc. split_and!; [done|done|]. rewrite locator_unobserved in R7 |- *.
    intros q' o rw Hrw. rewrite written_observation, decide_False in Hrw by naive_solver. eauto.
  - intros k x [[-> ->]|[_ Hx]]%Hcases Hstx.
    + change (ss_status r') with (ss_status r) in Hstx. congruence.
    + exact (sc_count d S k x Hx Hstx).
Qed.
End write.

(** ** Reading the ledger *)

Definition outcome_of (s q : Z) (b : ScanBatchRow) : ScanBatchOutcome := {|
  bo_scan_session_id := s; bo_sequence := q; bo_accepted := sb_observation_count b;
  bo_cumulative := sb_cumulative b |}.

Section read.
Context `{Iso8601Laws, EvidenceCodecLaws}.
Variables (d : ScanDb) (s : Z) (r : ScanSessionRow).
Hypothesis (Hledger : ledger_ok d s r).

Lemma cumulative_step q b :
  0 <= q -> scan_batches d !! (s, q) = Some b -> cumulative_before d s (q + 1) = sb_cumulative b.
Proof.
  intros Hq Hb. unfold cumulative_before. rewrite (proj2 (Z.eqb_neq _ _)) by lia.
  replace (q + 1 - 1) with q by lia. by rewrite Hb.
Qed.

(** The running totals grow. *)
Lemma cumulative_mono a b :
  0 <= a <= b -> b <= ss_next_sequence r -> cumulative_before d s a <= cumulative_before d s b.
Proof.
  intros Hab Hb.
  assert (forall k : nat, a + Z.of_nat k <= ss_next_sequence r ->
    cumulative_before d s a <= cumulative_before d s (a + Z.of_nat k)) as Hk.
  { induction k as [|k IH]; intros Hk; [by rewrite Z.add_0_r|].
    destruct (proj2 (lg_range _ _ _ Hledger (a + Z.of_nat k))) as [b' Hb']; [lia|].
    replace (a + Z.of_nat (S k)) with (a + Z.of_nat k + 1) by lia.
    rewrite (cumulative_step _ b') by (done || lia).
    pose proof (lg_batch _ _ _ Hledger _ _ Hb') as [_ _ ? _ ->]. specialize (IH ltac:(lia)). lia. }
  specialize (Hk (Z.to_nat (b - a))). replace (a + Z.of_nat (Z.to_nat (b - a))) with b in Hk by lia.
  auto.
Qed.

Lemma ledger_batch_range q b : scan_batches d !! (s, q) = Some b -> 0 <= q < ss_next_sequence r.
Proof. intros Hb. apply (lg_range _ _ _ Hledger). eauto. Qed.

Lemma ledger_total_bound q b :
  scan_batches d !! (s, q) = Some b -> 0 <= sb_cumulative b - sb_observation_count b /\
  sb_cumulative b <= ss_observation_count r.
Proof.
  intros Hb. pose proof (ledger_batch_range q b Hb) as Hq.
  rewrite (lg_total _ _ _ Hledger), <- (cumulative_step q b) by (done || lia).
  split; [|apply cumulative_mono; lia].
  rewrite (cumulative_step q b) by (done || lia).
  rewrite (bk_cumulative _ _ _ _ (lg_batch _ _ _ Hledger _ _ Hb)).
  pose proof (cumulative_mono 0 q ltac:(lia) ltac:(lia)) as Hm.
  change (cumulative_before d s 0) with 0 in Hm. lia.
Qed.

(** A batch of the ledger passes the link validation. *)
Lemma ledger_link q b :
  ss_observation_count r <= 100000 -> scan_batches d !! (s, q) = Some b ->
  exists pred, batch_with_predecessor d s q = Some (b, pred) /\
    validate_batch_link (b, pred) s q = Ok (outcome_of s q b).
Proof.
  intros Hmax Hb. pose proof (ledger_batch_range q b Hb) as Hq.
  pose proof (ledger_total_bound q b Hb) as [Hlo Hhi].
  pose proof (lg_batch _ _ _ Hledger _ _ Hb) as [B1 _ B3 _ B5].
  unfold batch_with_predecessor, validate_batch_link, batch_outcome_from_row. rewrite Hb.
  eexists. split; [cbn; reflexivity|]. cbn [fst snd].
  rewrite !u64_id by lia. cbn.
  unfold MAX_SCAN_SESSION_OBSERVATIONS.
  rewrite (proj2 (Z.leb_le 1 _)), (proj2 (Z.leb_le _ 1000)), (proj2 (Z.ltb_ge _ _)),
    (proj2 (Z.ltb_ge 100000 _)) by lia. cbn. rewrite B1.
  destruct (Z.eqb_spec q 0) as [->|Hne]; cbn.
  - change (cumulative_before d s 0) with 0 in B5. rewrite Z.add_0_l in B5.
    unfold outcome_of. by rewrite B5, Z.eqb_refl.
  - rewrite u64_id by lia. cbn.
    destruct (proj2 (lg_range _ _ _ Hledger (q - 1))) as [pb Hpb]; [lia|].
    pose proof (ledger_total_bound (q - 1) pb Hpb) as [Hplo _].
    pose proof (lg_batch _ _ _ Hledger _ _ Hpb) as [_ _ Hpc _ _].
    rewrite Hpb. cbn. rewrite !u64_id by lia. cbn.
    unfold u64_checked_sub, u64_checked_add. rewrite (proj2 (Z.leb_le 1 q)) by lia.
    unfold cumulative_before in B5. rewrite (proj2 (Z.eqb_neq q 0)), Hpb in B5 by done.
    rewrite (proj2 (Z.leb_le _ u64_max)) by (unfold u64_max; lia).
    rewrite !bool_decide_eq_true_2 by (congruence || done). done.
Qed.
End read.

(** ** Running the steps *)

Lemma u64_add_some a b : a + b <= u64_max -> u64_checked_add a b = Some (a + b).
Proof. intros Hle. unfold u64_checked_add. by rewrite (proj2 (Z.leb_le _ _)). Qed.

Section runs.
Context `{Iso8601Laws, EvidenceCodecLaws}.
Variables (d : ScanDb) (new : NewScanObservationBatch) (p : PreparedBatch) (r : ScanSessionRow).
Hypotheses (Hsound : scan_sound d) (Hprep : prepared new p).
Hypothesis (Hrow : scan_sessions d !! pb_scan_session_id p = Some r).
Let s := pb_scan_session_id p.
Let q := pb_sequence p.

Lemma run_ledger : ledger_ok d s r.
Proof. exact (sc_ledger d Hsound _ _ Hrow). Qed.

Lemma run_bounds :
  0 <= s <= i64_max /\ 0 <= q <= i64_max /\ 0 <= ss_next_sequence r <= 100000 /\
  ss_batch_count r = ss_next_sequence r /\ 0 <= ss_observation_count r <= 100000.
Proof.
  pose proof (session_check_bounds r (so_check _ _ _ (sc_session d Hsound _ _ Hrow))).
  destruct (pr_session _ _ Hprep), (pr_sequence _ _ Hprep). done.
Qed.

Lemma replay_run b :
  scan_batches d !! (s, q) = Some b ->
  batch_replay_in_tx p d =
  (if String.eqb (sb_request_hash b) (pb_request_hash p) then Ok (Some (outcome_of s q b))
   else Err EConflict, d).
Proof.
  intros Hb. pose proof run_bounds as (_ & _ & _ & _ & Ho).
  destruct (ledger_link d s r run_ledger q b) as (pred & Hp & Hv); [lia|done|].
  unfold batch_replay_in_tx, mbind, tx_mbind, gets, lift, throw. fold s q. rewrite Hp, Hv.
  cbn [fst]. rewrite (bk_hash _ _ _ _ (lg_batch _ _ _ run_ledger _ _ Hb)). cbn.
  by destruct (String.eqb _ _).
Qed.

Lemma replay_none : scan_batches d !! (s, q) = None -> batch_replay_in_tx p d = (Ok None, d).
Proof.
  intros Hb. unfold batch_replay_in_tx, batch_with_predecessor, mbind, tx_mbind, gets.
  fold s q. by rewrite Hb.
Qed.

(** The last batch of the ledger carries the session's total. *)
Lemma frontier_batch :
  0 < ss_next_sequence r ->
  exists b pred, batch_with_predecessor d s (ss_next_sequence r - 1) = Some (b, pred) /\
    validate_batch_link (b, pred) s (ss_next_sequence r - 1) =
      Ok (outcome_of s (ss_next_sequence r - 1) b) /\
    sb_cumulative b = ss_observation_count r.
Proof.
  intros Hn. pose proof run_bounds as (_ & _ & _ & _ & Ho). pose proof run_ledger as L.
  destruct (proj2 (lg_range _ _ _ L (ss_next_sequence r - 1))) as [b Hb]; [lia|].
  destruct (ledger_link d s r L (ss_next_sequence r - 1) b) as (pred & Hp & Hv); [lia|done|].
  exists b, pred. split_and!; [done|done|].
  rewrite (lg_total _ _ _ L), <- (cumulative_step d s (ss_next_sequence r - 1) b) by (done || lia).
  f_equal. lia.
Qed.

Lemma frontier_run b :
  scan_batches d !! (s, q) = Some b ->
  validate_batch_replay_parent_frontier_in_tx (session_of s r) (outcome_of s q b) d = (Ok tt, d).
Proof.
  intros Hb. pose proof run_bounds as (Hs & Hq & Hn & Hbc & Ho). pose proof run_ledger as L.
  pose proof (ledger_batch_range d s r L q b Hb) as Hr.
  destruct frontier_batch as (f & pred & Hp & Hv & Hf); [lia|].
  unfold validate_batch_replay_parent_frontier_in_tx.
  cbn [bo_sequence bo_cumulative outcome_of session_of scan_next_sequence scan_batch_count
       scan_observation_count scan_session_id].
  unfold u64_checked_add. rewrite (proj2 (Z.leb_le (q + 1) u64_max)) by (unfold u64_max, i64_max in *; lia).
  cbn [ok_or]. tx_go.
  rewrite (proj2 (Z.ltb_ge (ss_next_sequence r) (q + 1))) by lia. cbn [orb].
  assert ((q + 1 =? ss_next_sequence r) &&
          (negb (ss_batch_count r =? q + 1) ||
           negb (ss_observation_count r =? sb_cumulative b)) = false) as ->.
  { destruct (Z.eqb_spec (q + 1) (ss_next_sequence r)) as [E|]; [|done]. cbn.
    rewrite Hbc, <- E, Z.eqb_refl. cbn. apply negb_false_iff, Z.eqb_eq.
    rewrite (lg_total _ _ _ L), <- E. apply cumulative_step; [lia|done]. }
  unfold u64_checked_sub. rewrite (proj2 (Z.leb_le 1 (ss_next_sequence r))) by lia.
  cbn [ok_or]. tx_go. rewrite i64_id by (unfold i64_max in *; lia). tx_go.
  rewrite i64_id by (unfold i64_max in *; lia). tx_go. rewrite Hp. cbn [ok_or]. tx_go.
  rewrite Hv. tx_go. cbn [bo_cumulative outcome_of]. by rewrite Hf, Z.eqb_refl.
Qed.

Lemma predecessor_run :
  q = ss_next_sequence r -> validate_new_batch_predecessor_in_tx (session_of s r) q d = (Ok tt, d).
Proof.
  intros Hqn. pose proof run_bounds as (Hs & _ & Hn & Hbc & Ho). pose proof run_ledger as L.
  rewrite Hqn.
  unfold validate_new_batch_predecessor_in_tx, u64_checked_sub.
  cbn [session_of scan_observation_count scan_session_id].
  destruct (Z.leb_spec 1 (ss_next_sequence r)) as [Hpos|Hz].
  - destruct frontier_batch as (f & pred & Hp & Hv & Hf); [lia|].
    rewrite i64_id by (unfold i64_max in *; lia). tx_go. rewrite i64_id by (unfold i64_max in *; lia). tx_go.
    rewrite Hp. cbn [ok_or]. tx_go. rewrite Hv. tx_go. cbn [bo_cumulative outcome_of].
    by rewrite Hf, Z.eqb_refl.
  - rewrite (lg_total _ _ _ L). replace (ss_next_sequence r) with 0 by lia. done.
Qed.

Definition batch_fresh : bool :=
  forallb (fun x => negb (locator_observed d s (so_locator x))) (pb_observations p).

Lemma ensure_run :
  ensure_new_locators_in_tx p d = (if batch_fresh then Ok tt else Err EConflict, d).
Proof.
  unfold ensure_new_locators_in_tx, batch_fresh. fold s.
  induction (pb_observations p) as [|x l IH]; [done|].
  cbn [for_each forallb]. destruct (locator_observed d s (so_locator x)) eqn:E; cbn [negb andb].
  - apply tx_bind_stop. rewrite gets_run. by rewrite E.
  - rewrite (tx_bind_run _ _ d tt d); [exact IH|]. rewrite gets_run. by rewrite E.
Qed.

(** Inserting observations one by one: each finds its place free and its
    locator new. *)
Lemma insert_observations_run d0 o l :
  0 <= q -> 0 <= o -> Forall row_ok l -> NoDup (map so_locator l) ->
  is_Some (scan_batches d0 !! (s, q)) ->
  (forall x, In x l -> locator_observed d0 s (so_locator x) = false) ->
  (forall o', o <= o' -> scan_observations d0 !! (s, q, o') = None) ->
  insert_observations s q o l d0 =
  (Ok tt, set_scan_observations (insert_rows s q o l (scan_observations d0)) d0).
Proof.
  revert d0 o; induction l as [|x l IH]; intros d0 o Hq Ho Hok Hnd Hpar Hloc Hfree.
  - by destruct d0.
  - apply Forall_cons in Hok as [[_ K2 K3 K4 K5] Hok]. cbn in Hnd. apply NoDup_cons in Hnd as [Hx Hnd].
    cbn [insert_observations insert_rows]. unfold observation_check.
    rewrite (proj2 (Z.leb_le 0 q)), (proj2 (Z.leb_le 0 o)), K2, K3, (proj2 (Z.leb_le 0 _)), K5 by done.
    cbn [andb negb]. tx_go. rewrite (Hloc x) by (by left). rewrite (Hfree o) by lia.
    rewrite bool_decide_eq_false_2 by (by intros [? [=]]). cbn [orb]. tx_go.
    rewrite bool_decide_eq_true_2 by done. cbn [negb]. tx_go.
    rewrite IH; [done|done|lia|done|done|done| |].
    + intros y Hy. apply locator_unobserved. cbn. intros q' o' row Hrw E.
      destruct (decide ((s, q', o') = (s, q, o))) as [[= -> ->]|Hne].
      * rewrite lookup_insert_eq in Hrw. injection Hrw as <-. apply Hx. rewrite E.
        by apply list_elem_of_In, in_map.
      * rewrite lookup_insert_ne in Hrw by congruence.
        pose proof (Hloc y (or_intror Hy)) as Hl. rewrite locator_unobserved in Hl. by eapply Hl.
    + intros o' Ho'. cbn. rewrite lookup_insert_ne by (intros [=]; lia). apply Hfree. lia.
Qed.

Lemma progress_run :
  ss_status r = ScanRunning -> ss_next_sequence r = q ->
  ss_observation_count r + pb_observation_count p <= 100000 ->
  update_batch_progress_in_tx p (q + 1) (q + 1) (ss_observation_count r + pb_observation_count p)
    (ss_observation_count r) d =
  (Ok 1%nat, set_scan_sessions (<[s := progressed_row (q + 1) (q + 1)
     (ss_observation_count r + pb_observation_count p) (pb_next_progress_deadline_at p) r]>
     (scan_sessions d)) d).
Proof.
  intros Hst Hnext Hmax. pose proof (pr_range _ _ Hprep) as Hr.
  unfold update_batch_progress_in_tx. fold s q.
  rewrite (tx_bind_run _ _ d [(s, progressed_row (q + 1) (q + 1)
     (ss_observation_count r + pb_observation_count p) (pb_next_progress_deadline_at p) r)]
    (set_scan_sessions (<[s := progressed_row (q + 1) (q + 1)
     (ss_observation_count r + pb_observation_count p) (pb_next_progress_deadline_at p) r]>
     (scan_sessions d)) d)); [done|].
  rewrite (update_sessions_ext _ (fun k x => (k =? s) &&
    (bool_decide (ss_status x = ScanRunning) && (ss_next_sequence x =? q) &&
     (ss_observation_count x =? ss_observation_count r))))
    by (intros; by rewrite <- !andb_assoc).
  apply update_one_run; [done| |].
  - by rewrite bool_decide_eq_true_2, Hnext, !Z.eqb_refl by done.
  - apply progressed_check; [exact (so_check _ _ _ (sc_session d Hsound _ _ Hrow))|lia|lia|done].
Qed.

Lemma insert_batch_run d1 :
  ss_next_sequence r = q -> ss_observation_count r + pb_observation_count p <= 100000 ->
  scan_batches d1 = scan_batches d ->
  scan_sessions d1 !! s = Some (progressed_row (q + 1) (q + 1)
    (ss_observation_count r + pb_observation_count p) (pb_next_progress_deadline_at p) r) ->
  insert_batch_in_tx p (ss_observation_count r + pb_observation_count p) d1 =
  (Ok tt, set_scan_batches
     (<[(s, q) := batch_row p (ss_observation_count r + pb_observation_count p)]>
        (scan_batches d)) d1).
Proof.
  intros Hnext Hmax Hb Hs. pose proof run_ledger as L.
  pose proof run_bounds as (_ & Hq & _ & _ & Ho).
  pose proof (pr_range _ _ Hprep) as Hr. pose proof (pr_hash _ _ Hprep) as Hh.
  set (total := ss_observation_count r + pb_observation_count p) in *.
  assert (batch_insertable d1 s q (batch_row p total) = true) as Hins.
  { unfold batch_insertable. rewrite Hb, Hs. cbn. fold q.
    rewrite (proj2 (Z.leb_le 0 q)), Hh, (proj2 (Z.leb_le 1 _)), (proj2 (Z.leb_le _ 1000)),
      (proj2 (Z.leb_le _ total)), (proj2 (Z.leb_le total 100000)), !Z.eqb_refl by lia. cbn.
    rewrite (bool_decide_eq_true_2 (scan_batches d !! (s, q) = None)), !andb_true_r
      by (apply eq_None_not_Some; rewrite (lg_range _ _ _ L); lia).
    destruct (Z.ltb_spec 0 q) as [Hpos|Hz].
    - rewrite Z.eqb_refl. cbn.
      destruct (proj2 (lg_range _ _ _ L (q - 1))) as [pb Hpb]; [lia|]. rewrite Hpb.
      apply Z.eqb_eq. subst total. f_equal. rewrite (lg_total _ _ _ L), Hnext.
      rewrite <- (cumulative_step d s (q - 1) pb) by (done || lia). f_equal. lia.
    - rewrite (proj2 (Z.eqb_eq q 0)) by lia. cbn. apply Z.eqb_eq. subst total.
      rewrite (lg_total _ _ _ L), Hnext. replace q with 0 by lia. done. }
  unfold insert_batch_in_tx. fold s q. change {| sb_previous_sequence := _ |} with (batch_row p total).
  tx_go. rewrite Hins. cbn [negb]. unfold modify. by rewrite Hb.
Qed.

Lemma persist_run :
  ss_status r = ScanRunning -> ss_next_sequence r = q ->
  ss_observation_count r + pb_observation_count p <= 100000 -> batch_fresh = true ->
  persist_new_batch_in_tx p (q + 1) (q + 1) (ss_observation_count r + pb_observation_count p)
    (ss_observation_count r) d = (Ok tt, batch_written d p r).
Proof.
  intros Hst Hnext Hmax Hfresh. pose proof run_bounds as (_ & Hq & _ & _ & Ho).
  pose proof run_ledger as L. unfold persist_new_batch_in_tx.
  rewrite (tx_bind_run _ _ _ _ _ (progress_run Hst Hnext Hmax)). cbn [Nat.eqb negb].
  rewrite (tx_bind_run _ _ _ _ _ (insert_batch_run (set_scan_sessions _ d) Hnext Hmax eq_refl
    (lookup_insert_eq _ _ _))).
  unfold insert_observations_in_tx. fold s q.
  rewrite insert_observations_run; [done|lia|lia|exact (pr_rows _ _ Hprep)
    |exact (pr_distinct _ _ Hprep)| | |].
  - cbn. rewrite lookup_insert_eq. eauto.
  - intros x Hx. unfold batch_fresh in Hfresh. rewrite forallb_forall in Hfresh.
    apply negb_true_iff. by apply Hfresh.
  - intros o' _. cbn. apply eq_None_not_Some. rewrite (lg_observations _ _ _ L).
    intros (b & Hb & _). apply (ledger_batch_range d s r L) in Hb. lia.
Qed.
End runs.

(** ** The outcome *)

Section outcome.
Context `{Iso8601Laws, EvidenceCodecLaws}.

(** What the repository answers to a prepared batch. *)
Definition batch_answer (d : ScanDb) (p : PreparedBatch) : Res ScanBatchOutcome * ScanDb :=
  let s := pb_scan_session_id p in
  let q := pb_sequence p in
  match scan_sessions d !! s with
  | None => (Err ENotFound, d)
  | Some r =>
      match scan_batches d !! (s, q) with
      | Some b =>
          (if String.eqb (sb_request_hash b) (pb_request_hash p) then Ok (outcome_of s q b)
           else Err EConflict, d)
      | None =>
          let total := ss_observation_count r + pb_observation_count p in
          if bool_decide (ss_status r = ScanRunning) && (ss_next_sequence r =? q) &&
             (total <=? MAX_SCAN_SESSION_OBSERVATIONS) && batch_fresh d p
          then (Ok (outcome_of s q (batch_row p total)), batch_written d p r)
          else (Err EConflict, d)
      end
  end.

(** On a sound database a well-formed batch is answered completely: an
    unknown session is not found; a sequence already in the ledger is answered
    with its recorded outcome when the request hash agrees and refused when it
    does not; a new batch is written whole exactly when the session is running,
    the sequence is the next one, the session's capacity suffices and every
    locator is new; in every other case it is refused and nothing is written. *)
Lemma accept_run (d : ScanDb) (new : NewScanObservationBatch) (p : PreparedBatch) :
  scan_sound d -> batch_typed new -> PreparedBatch_new new = Ok p ->
  accepted_batch_in_tx new d = batch_answer d p.
Proof.
  intros S Hty Hp. pose proof (PreparedBatch_new_ok new p Hty Hp) as Hprep.
  unfold accepted_batch_in_tx, batch_answer. rewrite Hp. tx_go.
  destruct (pr_session _ _ Hprep) as [_ Hs].
  rewrite (tx_bind_run _ _ _ _ _ (fetch_mutation d (pb_scan_session_id p) S (proj2 Hs))).
  destruct (scan_sessions d !! pb_scan_session_id p) as [r|] eqn:Hr; [|done].
  cbn [fmap option_fmap option_map ok_or]. tx_go.
  pose proof (run_bounds d new p r S Hprep Hr) as (_ & Hq & Hn & Hbc & Ho).
  pose proof (run_ledger d p r S Hr) as L.
  destruct (scan_batches d !! (pb_scan_session_id p, pb_sequence p)) as [b|] eqn:Hb.
  - destruct (String.eqb (sb_request_hash b) (pb_request_hash p)) eqn:Eh.
    + rewrite (tx_bind_run _ _ d (Some (outcome_of (pb_scan_session_id p) (pb_sequence p) b)) d)
        by (rewrite (replay_run d new p r S Hprep Hr b Hb); by rewrite Eh).
      by rewrite (tx_bind_run _ _ _ _ _ (frontier_run d new p r S Hprep Hr b Hb)).
    + apply tx_bind_stop. rewrite (replay_run d new p r S Hprep Hr b Hb). by rewrite Eh.
  - rewrite (tx_bind_run _ _ _ _ _ (replay_none d p Hb)).
    cbn [session_of scan_status scan_next_sequence scan_observation_count scan_batch_count].
    assert (ss_next_sequence r <= pb_sequence p) as Hle.
    { destruct (Z.le_gt_cases (ss_next_sequence r) (pb_sequence p)) as [|Hlt]; [done|].
      destruct (proj2 (lg_range _ _ _ L (pb_sequence p))) as [? ?]; [lia|congruence]. }
    rewrite (proj2 (Z.ltb_ge _ _)) by done.
    destruct (bool_decide (ss_status r = ScanRunning)) eqn:Hst; [|done].
    destruct (Z.eqb_spec (ss_next_sequence r) (pb_sequence p)) as [Hnext|]; [|done].
    cbn [negb orb andb]. apply bool_decide_eq_true in Hst.
    rewrite (tx_bind_run _ _ _ _ _ (predecessor_run d new p r S Hprep Hr (eq_sym Hnext))).
    pose proof (pr_range _ _ Hprep) as Hrange.
    rewrite !u64_add_some by (unfold u64_max; lia). cbn [ok_or]. tx_go.
    rewrite Z.ltb_antisym. destruct (Z.leb_spec (ss_observation_count r + pb_observation_count p)
      MAX_SCAN_SESSION_OBSERVATIONS) as [Hmax|]; [|done]. cbn [negb].
    unfold MAX_SCAN_SESSION_OBSERVATIONS in Hmax.
    destruct (batch_fresh d p) eqn:Hfresh.
    + rewrite (tx_bind_run _ _ d tt d) by (rewrite ensure_run; by rewrite Hfresh).
      tx_go. rewrite !i64_id by (unfold i64_max; lia). tx_go. rewrite Hbc, Hnext.
      rewrite (tx_bind_run _ _ d tt (batch_written d p r)); [done|].
      unfold savepoint. by rewrite (persist_run d new p r S Hprep Hr Hst Hnext Hmax Hfresh).
    + apply tx_bind_stop. rewrite ensure_run. by rewrite Hfresh.
Qed.
End outcome.
