(* ===== verification/ScanCompletion.v ===== *)
(** * Completing a scan

    The validation of the ledger before completion never refuses a sound
    database, whatever the page size; completion retires exactly the live
    locations of the root, up to the watermark taken at the start, that the
    traversal did not see. *)

From S2P Require Import Prelude Json Vocab Operations Store Locators Scans ScanLedger.
From S2P Require Import ScanBatches.
From Stdlib Require Import ZArith Lia Bool String Ascii.
From stdpp Require Import base gmap strings list sorting relations.

Open Scope string_scope.
Open Scope Z_scope.

(** ** Keyset loops *)

Lemma fold_res_app {A R} (step : A -> R -> Res A) acc l1 l2 :
  fold_res step acc (l1 ++ l2)%list = (acc' ← fold_res step acc l1; fold_res step acc' l2).
Proof.
  revert acc; induction l1 as [|x l1 IH]; intros acc; [done|]. cbn.
  destruct (step acc x) as [acc'|]; cbn; [apply IH|done].
Qed.

Section paging.
Context {K R A : Type} (before : K -> K -> bool).
Hypothesis (before_asym : forall a b, before a b = true -> before b a = true -> False).
Let sorted := StronglySorted (fun x y : K * R => before x.1 y.1 = true).

Lemma filter_after_suffix (pre post : list (K * R)) x :
  sorted ((pre ++ [x]) ++ post)%list ->
  List.filter (fun kr => before x.1 kr.1) ((pre ++ [x]) ++ post)%list = post.
Proof.
  intros (Hc & Hpre & Hpost)%StronglySorted_app.
  assert (forall y, before y y = false) as Hirr.
  { intros y. destruct (before y y) eqn:E; [|done]. exfalso. eauto. }
  apply StronglySorted_app in Hpre as (Hc' & _ & _).
  rewrite !List.filter_app. cbn. rewrite Hirr.
  assert (List.filter (fun kr => before x.1 kr.1) pre = []) as ->.
  { destruct (List.filter _ pre) as [|y l] eqn:E; [done|].
    assert (In y (List.filter (fun kr => before x.1 kr.1) pre)) as [Hy Hb]%filter_In
      by (rewrite E; by left).
    exfalso. eapply before_asym; [exact Hb|]. apply (Hc' y x); [by apply list_elem_of_In|].
    by apply list_elem_of_singleton. }
  cbn. apply forallb_filter_id, forallb_forall. intros y Hy.
  apply (Hc x y); [set_solver|by apply list_elem_of_In].
Qed.

Lemma paged_fold_suffix limit (step : A -> K * R -> Res A) fuel : forall pre post cursor acc,
  (0 < limit)%nat -> (List.length post < fuel)%nat -> sorted (pre ++ post)%list ->
  cursor = fst <$> last pre ->
  paged_fold before limit (pre ++ post)%list step fuel cursor acc = fold_res step acc post.
Proof.
  induction fuel as [|fuel IH]; intros pre post cursor acc Hl Hf Hs Hc; [lia|].
  cbn [paged_fold]. unfold page_after.
  assert (List.filter (fun kr => match cursor with None => true | Some c => before c kr.1 end)
    (pre ++ post)%list = post) as ->.
  { destruct (last pre) as [x|] eqn:Hlast.
    - apply last_Some in Hlast as [pre' ->]. subst cursor. by apply filter_after_suffix.
    - apply last_None in Hlast as ->. subst cursor. apply forallb_filter_id, forallb_forall. done. }
  destruct (last (take limit post)) as [kr|] eqn:Hlast.
  - assert (fold_res step acc post =
      (acc' ← fold_res step acc (take limit post); fold_res step acc' (drop limit post))) as ->
      by (by rewrite <- fold_res_app, take_drop).
    destruct (fold_res step acc (take limit post)) as [acc'|]; [|done]. cbn.
    replace (pre ++ post)%list with ((pre ++ take limit post) ++ drop limit post)%list
      by (by rewrite <- app_assoc, take_drop). apply IH.
    + done.
    + rewrite length_drop. destruct post; [by destruct limit|]. cbn in *. lia.
    + by rewrite <- app_assoc, take_drop.
    + rewrite last_app, Hlast. done.
  - apply last_None in Hlast. destruct post; [done|]. destruct limit; [lia|done].
Qed.

(** The loop folds every row in order, whatever the page size. *)
Lemma paged_fold_all limit (step : A -> K * R -> Res A) rows acc :
  (0 < limit)%nat -> sorted rows ->
  paged_fold before limit rows step (S (List.length rows)) None acc = fold_res step acc rows.
Proof. intros Hl Hs. apply (paged_fold_suffix limit step _ [] rows); [done|lia|done|done]. Qed.
End paging.

(** ** The rows of a session *)

Lemma sorted_impl {A} (R R' : A -> A -> Prop) l :
  (forall x y, R x y -> R' x y) -> StronglySorted R l -> StronglySorted R' l.
Proof.
  intros Hi. induction 1 as [|x l Hl IH Hx]; constructor; [done|].
  eapply Forall_impl; [exact Hx|]. intros y. apply Hi.
Qed.

Lemma NoDup_omap_fst {K V K' V'} (f : K * V -> option (K' * V')) (l : list (K * V)) :
  NoDup l.*1 ->
  (forall x y kx ky, f x = Some kx -> f y = Some ky -> kx.1 = ky.1 -> x.1 = y.1) ->
  NoDup (omap f l).*1.
Proof.
  intros Hnd Hinj. induction l as [|x l IH]; [constructor|].
  cbn in Hnd. apply NoDup_cons in Hnd as [Hx Hnd]. cbn. destruct (f x) as [kx|] eqn:Ex; [|auto].
  cbn. constructor; [|auto]. intros (ky & E & Hky)%list_elem_of_fmap.
  apply list_elem_of_omap in Hky as (y & Hy & Ey). apply Hx.
  rewrite (Hinj x y kx ky Ex Ey E). apply list_elem_of_fmap. eauto.
Qed.

Lemma NoDup_omap_inj {A B} (f : A -> option B) (l : list A) :
  NoDup l -> (forall x y b, x ∈ l -> y ∈ l -> f x = Some b -> f y = Some b -> x = y) ->
  NoDup (omap f l).
Proof.
  induction 1 as [|x l Hx Hnd IH]; intros Hinj; [constructor|].
  assert (NoDup (omap f l)) by (apply IH; intros y z b ? ?; apply Hinj; by right).
  cbn. destruct (f x) as [b|] eqn:E; [|done]. constructor; [|done].
  intros (y & Hy & Ey)%list_elem_of_omap. apply Hx.
  rewrite (Hinj x y b); [done|by left|by right|done|done].
Qed.

Lemma existsb_false_iff {A} (f : A -> bool) l :
  existsb f l = false <-> forall x, In x l -> f x = false.
Proof.
  rewrite <- not_true_iff_false, existsb_exists. split.
  - intros Hn x Hx. apply not_true_iff_false. intros E. apply Hn. eauto.
  - intros Hf (x & Hx & E). by rewrite (Hf x Hx) in E.
Qed.

(** The running extremum of a query's aggregate. *)
Lemma foldl_min_spec l : forall a, foldl Z.min a l ∈ a :: l /\ forall x, x ∈ a :: l -> foldl Z.min a l <= x.
Proof.
  induction l as [|b l IH]; intros a; cbn.
  - split; [by left|]. intros x ->%list_elem_of_singleton. lia.
  - destruct (IH (Z.min a b)) as [Hin Hle]. split.
    + destruct (Z.min_spec a b) as [[_ E]|[_ E]]; rewrite E in *; set_solver.
    + intros x Hx. pose proof (Hle (Z.min a b) ltac:(by left)).
      rewrite !elem_of_cons in Hx. destruct Hx as [->|[->|Hx]]; [lia|lia|]. apply Hle. by right.
Qed.

Lemma foldl_max_spec l : forall a, foldl Z.max a l ∈ a :: l /\ forall x, x ∈ a :: l -> x <= foldl Z.max a l.
Proof.
  induction l as [|b l IH]; intros a; cbn.
  - split; [by left|]. intros x ->%list_elem_of_singleton. lia.
  - destruct (IH (Z.max a b)) as [Hin Hle]. split.
    + destruct (Z.max_spec a b) as [[_ E]|[_ E]]; rewrite E in *; set_solver.
    + intros x Hx. pose proof (Hle (Z.max a b) ltac:(by left)).
      rewrite !elem_of_cons in Hx. destruct Hx as [->|[->|Hx]]; [lia|lia|]. apply Hle. by right.
Qed.

Lemma batches_of_in d s q b : In (q, b) (batches_of d s) <-> scan_batches d !! (s, q) = Some b.
Proof.
  unfold batches_of. rewrite <- list_elem_of_In, merge_sort_Permutation, list_elem_of_omap. split.
  - intros ([[s' q'] b'] & Hin%elem_of_map_to_list & E). cbn in E.
    destruct (Z.eqb_spec s' s) as [->|]; [|done]. by injection E as <- <-.
  - intros Hb. exists ((s, q), b). cbn. rewrite Z.eqb_refl.
    split; [by apply elem_of_map_to_list|done].
Qed.

Lemma batches_of_NoDup d s : NoDup (batches_of d s).*1.
Proof.
  unfold batches_of. rewrite (merge_sort_Permutation key_le _).
  apply NoDup_omap_fst; [apply NoDup_fst_map_to_list|].
  intros [[s1 q1] b1] [[s2 q2] b2] [] []. cbn. destruct (Z.eqb_spec s1 s), (Z.eqb_spec s2 s); try done.
  congruence.
Qed.

Lemma batches_of_sorted d s : StronglySorted (fun x y => Z.ltb x.1 y.1 = true) (batches_of d s).
Proof.
  pose proof (sorted_strict_filter (fun _ => true) (batches_of d s)) as Hs.
  rewrite forallb_filter_id in Hs by (by apply forallb_forall).
  specialize (Hs (StronglySorted_merge_sort key_le _) (batches_of_NoDup d s)).
  eapply sorted_impl; [|exact Hs]. intros x y. by rewrite Z.ltb_lt.
Qed.

#[global] Instance position_le_trans {A} : Transitive (@position_le A).
Proof.
  intros [[a b] x] [[c e] y] [[f g] z]. unfold position_le, position_lt. cbn.
  rewrite !orb_true_iff, !andb_true_iff, !Z.ltb_lt, !Z.eqb_eq.
  intros [H1|[= -> ->]] [H2|[= -> ->]]; (left; lia) || (by right) || (left; lia).
Qed.
#[global] Instance position_le_total {A} : Total (@position_le A).
Proof.
  intros [[a b] x] [[c e] y]. unfold position_le, position_lt. cbn.
  rewrite !orb_true_iff, !andb_true_iff, !Z.ltb_lt, !Z.eqb_eq.
  destruct (Z.lt_trichotomy a c) as [?|[->|?]]; [lia| |lia].
  destruct (Z.lt_trichotomy b e) as [?|[->|?]]; [lia|by left; right|lia].
Qed.

Lemma observations_of_in d s q o row :
  In ((q, o), row) (observations_of d s) <-> scan_observations d !! (s, q, o) = Some row.
Proof.
  unfold observations_of. rewrite <- list_elem_of_In, merge_sort_Permutation, list_elem_of_omap.
  split.
  - intros ([[[s' q'] o'] b'] & Hin%elem_of_map_to_list & E). cbn in E.
    destruct (Z.eqb_spec s' s) as [->|]; [|done]. by injection E as <- <- <-.
  - intros Hb. exists ((s, q, o), row). cbn. rewrite Z.eqb_refl.
    split; [by apply elem_of_map_to_list|done].
Qed.

Lemma observations_of_NoDup d s : NoDup (observations_of d s).*1.
Proof.
  unfold observations_of. rewrite (merge_sort_Permutation position_le _).
  apply NoDup_omap_fst; [apply NoDup_fst_map_to_list|].
  intros [[[s1 q1] o1] b1] [[[s2 q2] o2] b2] [] []. cbn.
  destruct (Z.eqb_spec s1 s), (Z.eqb_spec s2 s); try done. congruence.
Qed.

Lemma observations_of_sorted d s :
  StronglySorted (fun x y => position_lt x.1 y.1 = true) (observations_of d s).
Proof.
  pose proof (observations_of_NoDup d s) as Hnd.
  assert (StronglySorted position_le (observations_of d s)) as Hs
    by apply (StronglySorted_merge_sort position_le).
  induction Hs as [|x l Hl IH Hx]; [constructor|]. cbn in Hnd.
  apply NoDup_cons in Hnd as [Hn Hnd]. constructor; [by apply IH|].
  rewrite Forall_forall in Hx |- *. intros y Hy. destruct (Hx y Hy) as [?|E]; [done|].
  exfalso. apply Hn. apply list_elem_of_fmap. eauto.
Qed.

Lemma position_lt_asym a b : position_lt a b = true -> position_lt b a = true -> False.
Proof.
  unfold position_lt. rewrite !orb_true_iff, !andb_true_iff, !Z.ltb_lt, !Z.eqb_eq. lia.
Qed.

(** ** Validating the ledger *)

Section ledger.
Context `{Iso8601Laws, EvidenceCodecLaws}.
Variables (d : ScanDb) (s : Z) (r : ScanSessionRow).
Hypothesis (Hledger : ledger_ok d s r).
Hypothesis (Hcheck : session_check r = true).

Lemma ledger_bounds :
  0 <= ss_next_sequence r <= 100000 /\ ss_batch_count r = ss_next_sequence r /\
  0 <= ss_observation_count r <= 100000.
Proof. exact (session_check_bounds r Hcheck). Qed.

(** One batch row advances the summary by one batch and its observations. *)
Lemma validate_batch_step q b :
  scan_batches d !! (s, q) = Some b ->
  validate_completion_batch (q, cumulative_before d s q) (q, b) =
  Ok (q + 1, cumulative_before d s (q + 1)).
Proof.
  intros Hb. pose proof ledger_bounds as (Hn & _ & Ho).
  pose proof (ledger_batch_range d s r Hledger q b Hb) as Hq.
  pose proof (ledger_total_bound d s r Hledger q b Hb) as [Hlo Hhi].
  pose proof (lg_batch _ _ _ Hledger _ _ Hb) as [B1 B2 B3 [t B4] B5].
  rewrite (cumulative_step d s q b) by (done || lia).
  unfold validate_completion_batch. cbn [fst snd]. rewrite (u64_id q) by lia. cbn. rewrite Z.eqb_refl.
  cbn. rewrite B1.
  assert (transpose (option_map u64_from_i64 (if q =? 0 then None else Some (q - 1))) =
    Ok (u64_checked_sub q 1)) as ->.
  { unfold u64_checked_sub. destruct (Z.eqb_spec q 0) as [->|]; [done|]. cbn.
    rewrite u64_id, (proj2 (Z.leb_le 1 q)) by lia. done. }
  cbn. rewrite bool_decide_eq_true_2 by done. cbn. rewrite B2. cbn.
  rewrite (parse_iso8601_format _ _ B4). cbn. rewrite !u64_id by lia. cbn.
  rewrite (proj2 (Z.leb_le 1 _)), (proj2 (Z.leb_le _ 1000)) by lia. cbn.
  rewrite !u64_add_some by (unfold u64_max; lia). cbn. rewrite <- B5, Z.eqb_refl. cbn.
  by rewrite i64_id by (unfold i64_max; lia).
Qed.

(** The ledger as the list of its sequences. *)
Definition ledger_rows (from len : Z) : list (Z * ScanBatchRow) :=
  omap (fun q => b ← scan_batches d !! (s, q); Some (q, b)) (seqZ from len).

Lemma ledger_rows_cons q len :
  0 < len -> 0 <= q -> q + len <= ss_next_sequence r ->
  exists b, scan_batches d !! (s, q) = Some b /\
    ledger_rows q len = (q, b) :: ledger_rows (q + 1) (len - 1).
Proof.
  intros Hl Hq Hle. destruct (proj2 (lg_range _ _ _ Hledger q)) as [b Hb]; [lia|].
  exists b. split; [done|]. unfold ledger_rows. rewrite seqZ_cons by done. cbn. by rewrite Hb.
Qed.

Lemma ledger_rows_sorted (k : nat) : forall a,
  StronglySorted (fun x y => Z.ltb x.1 y.1 = true) (ledger_rows a (Z.of_nat k)).
Proof.
  unfold ledger_rows. induction k as [|k IH]; intros a; [constructor|].
  rewrite seqZ_cons by lia. cbn -[Z.of_nat].
  replace (Z.pred (Z.of_nat (S k))) with (Z.of_nat k) by lia.
  destruct (scan_batches d !! (s, a)) as [b|]; cbn; [|apply IH]. constructor; [apply IH|].
  rewrite Forall_forall. intros [q' b'] Hin.
  apply list_elem_of_omap in Hin as (q2 & Hq2%elem_of_seqZ & E).
  destruct (scan_batches d !! (s, q2)); [|done]. injection E as <- <-. cbn. apply Z.ltb_lt. lia.
Qed.

Lemma batches_of_ledger : batches_of d s = ledger_rows 0 (ss_next_sequence r).
Proof.
  apply (sorted_unique (fun x y => Z.ltb x.1 y.1 = true)).
  - intros x y. rewrite !Z.ltb_lt. lia.
  - apply batches_of_sorted.
  - pose proof ledger_bounds as (Hn & _). rewrite <- (Z2Nat.id (ss_next_sequence r)) by lia.
    apply ledger_rows_sorted.
  - intros [q b]. rewrite batches_of_in, <- list_elem_of_In. unfold ledger_rows.
    rewrite list_elem_of_omap. split.
    + intros Hb. exists q. rewrite Hb. split; [|done]. apply elem_of_seqZ.
      apply (ledger_batch_range d s r Hledger) in Hb. lia.
    + intros (q' & _ & E). destruct (scan_batches d !! (s, q')) eqn:Hb; [|done].
      by injection E as <- <-.
Qed.

Lemma validate_batches_fold (len : nat) : forall q,
  0 <= q -> q + Z.of_nat len <= ss_next_sequence r ->
  fold_res validate_completion_batch (q, cumulative_before d s q) (ledger_rows q (Z.of_nat len)) =
  Ok (q + Z.of_nat len, cumulative_before d s (q + Z.of_nat len)).
Proof.
  induction len as [|len IH]; intros q Hq Hle; [by rewrite Z.add_0_r|].
  destruct (ledger_rows_cons q (Z.of_nat (S len))) as (b & Hb & ->); [lia|lia|lia|].
  cbn [fold_res]. rewrite (validate_batch_step q b Hb). cbn -[ledger_rows Z.of_nat].
  replace (Z.of_nat (S len) - 1) with (Z.of_nat len) by lia.
  rewrite IH by lia. do 2 f_equal; [lia|f_equal; lia].
Qed.

Lemma validate_batches_run :
  s <= i64_max ->
  validate_completion_batches_in_tx (session_of s r) d =
  (Ok (ss_next_sequence r, ss_observation_count r), d).
Proof.
  intros Hs. pose proof ledger_bounds as (Hn & _ & Ho).
  unfold validate_completion_batches_in_tx. cbn [session_of scan_session_id].
  rewrite i64_id by done. tx_go. unfold getsR.
  rewrite (paged_fold_all Z.ltb); [|intros a b; rewrite !Z.ltb_lt; lia|unfold COMPLETION_LEDGER_PAGE_SIZE; lia
    |apply batches_of_sorted].
  rewrite batches_of_ledger. pose proof (validate_batches_fold (Z.to_nat (ss_next_sequence r)) 0) as Hf.
  rewrite Z2Nat.id in Hf by lia. change (cumulative_before d s 0) with 0 in Hf.
  rewrite Hf by lia. by rewrite Z.add_0_l, <- (lg_total _ _ _ Hledger).
Qed.

(** The positions of the observations of the first [n] batches. *)
Fixpoint ledger_positions (n : nat) : list (Z * Z) :=
  match n with
  | O => []
  | S n' =>
      ledger_positions n' ++
      match scan_batches d !! (s, Z.of_nat n') with
      | Some b => map (fun o => (Z.of_nat n', o)) (seqZ 0 (sb_observation_count b))
      | None => []
      end
  end%list.

Lemma ledger_positions_in n q o :
  (q, o) ∈ ledger_positions n <->
  0 <= q < Z.of_nat n /\ exists b, scan_batches d !! (s, q) = Some b /\ 0 <= o < sb_observation_count b.
Proof.
  induction n as [|n IH]; cbn [ledger_positions].
  - split; [by intros ?%not_elem_of_nil|lia].
  - rewrite elem_of_app, IH.
    destruct (scan_batches d !! (s, Z.of_nat n)) as [b|] eqn:Hb.
    + rewrite list_elem_of_In, in_map_iff. setoid_rewrite <- list_elem_of_In.
      setoid_rewrite elem_of_seqZ. split.
      * intros [[Hq Hx]|(o' & [= <- <-] & Ho)]; [split; [lia|done]|].
        split; [lia|]. exists b. split; [done|lia].
      * intros [Hq (b' & Hb' & Ho)]. destruct (decide (q = Z.of_nat n)) as [->|Hne].
        -- right. exists o. split; [done|]. rewrite Hb in Hb'. injection Hb' as <-. lia.
        -- left. split; [lia|eauto].
    + rewrite elem_of_nil. split.
      * intros [[Hq Hx]|[]]. split; [lia|done].
      * intros [Hq (b' & Hb' & Ho)]. left. split; [|eauto].
        assert (q <> Z.of_nat n) by congruence. lia.
Qed.

Lemma ledger_positions_NoDup n : NoDup (ledger_positions n).
Proof.
  induction n as [|n IH]; cbn [ledger_positions]; [constructor|].
  apply NoDup_app. split_and!; [done| |].
  - intros [q o] [Hq _]%ledger_positions_in Hin.
    destruct (scan_batches d !! (s, Z.of_nat n)); [|by apply elem_of_nil in Hin].
    apply list_elem_of_In, in_map_iff in Hin as (? & [= <- _] & _). lia.
  - destruct (scan_batches d !! (s, Z.of_nat n)); [|constructor].
    apply (NoDup_fmap_2 (fun o => (Z.of_nat n, o))), NoDup_seqZ.
Qed.

Lemma ledger_positions_length n :
  Z.of_nat n <= ss_next_sequence r ->
  Z.of_nat (List.length (ledger_positions n)) = cumulative_before d s (Z.of_nat n).
Proof.
  induction n as [|n IH]; intros Hn; [done|].
  cbn [ledger_positions]. rewrite length_app, Nat2Z.inj_add, IH by lia.
  destruct (proj2 (lg_range _ _ _ Hledger (Z.of_nat n))) as [b Hb]; [lia|]. rewrite Hb.
  rewrite length_map, length_seqZ.
  pose proof (lg_batch _ _ _ Hledger _ _ Hb) as [_ _ B3 _ B5].
  replace (Z.of_nat (S n)) with (Z.of_nat n + 1) by lia.
  rewrite (cumulative_step d s (Z.of_nat n) b) by (done || lia). lia.
Qed.

Lemma observations_of_positions :
  (observations_of d s).*1 ≡ₚ ledger_positions (Z.to_nat (ss_next_sequence r)).
Proof.
  pose proof ledger_bounds as (Hn & _).
  apply NoDup_Permutation; [apply observations_of_NoDup|apply ledger_positions_NoDup|].
  intros [q o]. rewrite ledger_positions_in, list_elem_of_fmap. split.
  - intros ([k row] & E & Hin%list_elem_of_In). cbn in E. subst k.
    apply observations_of_in in Hin.
    destruct (proj1 (lg_observations _ _ _ Hledger q o)) as (b & Hb & Ho); [eauto|].
    split; [|eauto]. apply (ledger_batch_range d s r Hledger) in Hb. lia.
  - intros [_ Hb]. apply (lg_observations _ _ _ Hledger) in Hb as [row Hrow].
    exists ((q, o), row). split; [done|]. apply list_elem_of_In. by apply observations_of_in.
Qed.

Lemma observations_of_length :
  Z.of_nat (List.length (observations_of d s)) = ss_observation_count r.
Proof.
  pose proof ledger_bounds as (Hn & _).
  rewrite <- (length_fmap fst), observations_of_positions, ledger_positions_length by lia.
  rewrite Z2Nat.id by lia. by rewrite <- (lg_total _ _ _ Hledger).
Qed.

(** *** Observations decode *)

Lemma position_bounds q o row :
  scan_observations d !! (s, q, o) = Some row -> 0 <= q <= i64_max /\ 0 <= o <= i64_max.
Proof.
  intros Hrow. pose proof ledger_bounds as (Hn & _).
  destruct (proj1 (lg_observations _ _ _ Hledger q o)) as (b & Hb & Ho); [eauto|].
  pose proof (lg_batch _ _ _ Hledger _ _ Hb) as [_ _ B3 _ _].
  apply (ledger_batch_range d s r Hledger) in Hb. unfold i64_max. lia.
Qed.

Lemma count_observation_step q o row actual :
  scan_observations d !! (s, q, o) = Some row -> actual + 1 <= u64_max ->
  count_observation actual ((q, o), row) = Ok (actual + 1).
Proof.
  intros Hrow Hmax. pose proof (lg_readable _ _ _ Hledger _ _ _ Hrow) as Hd.
  pose proof (position_bounds q o row Hrow) as [Hq Ho].
  unfold count_observation. cbn [fst snd].
  destruct (decode_observation_row row) as [ob|]; [|done].
  rewrite (u64_id q), (u64_id o) by lia. cbn [mbind result_mbind].
  by rewrite (i64_id q), (i64_id o), u64_add_some by lia.
Qed.

Lemma count_observations_fold l : forall actual,
  (forall k row, In (k, row) l -> scan_observations d !! (s, k.1, k.2) = Some row) ->
  0 <= actual -> actual + Z.of_nat (List.length l) <= u64_max ->
  fold_res count_observation actual l = Ok (actual + Z.of_nat (List.length l)).
Proof.
  induction l as [|[[q o] row] l IH]; intros actual Hl Ha Hmax; cbn [fold_res List.length] in *.
  - by rewrite Z.add_0_r.
  - rewrite count_observation_step; [|exact (Hl (q, o) row (or_introl eq_refl))|lia].
    cbn [mbind result_mbind]. rewrite IH; [f_equal; lia| |lia|lia].
    intros k x Hin. apply Hl. by right.
Qed.

Lemma validate_observations_run :
  s <= i64_max ->
  validate_completion_observations_in_tx (session_of s r) d = (Ok (ss_observation_count r), d).
Proof.
  intros Hs. pose proof ledger_bounds as (Hn & _ & Ho). pose proof observations_of_length as Hlen.
  unfold validate_completion_observations_in_tx. cbn [session_of scan_session_id].
  rewrite i64_id by done. tx_go. unfold getsR.
  rewrite (paged_fold_all position_lt); [|apply position_lt_asym
    |unfold COMPLETION_LEDGER_PAGE_SIZE; lia|apply observations_of_sorted].
  rewrite count_observations_fold; [by rewrite Z.add_0_l, Hlen| |lia|unfold u64_max; lia].
  intros [q o] row Hin. by apply observations_of_in in Hin.
Qed.
(** *** The distribution of observations over batches *)

Lemma batch_ordinals_seq q b :
  scan_batches d !! (s, q) = Some b -> batch_ordinals d s q ≡ₚ seqZ 0 (sb_observation_count b).
Proof.
  intros Hb. apply NoDup_Permutation; [|apply NoDup_seqZ|].
  - apply NoDup_omap_inj; [apply NoDup_map_to_list|].
    intros [[[s1 q1] o1] r1] [[[s2 q2] o2] r2] o Hx%elem_of_map_to_list Hy%elem_of_map_to_list. cbn.
    destruct (Z.eqb_spec s1 s), (Z.eqb_spec q1 q), (Z.eqb_spec s2 s), (Z.eqb_spec q2 q);
      try done. cbn. intros [= <-] [= ->]. congruence.
  - intros o. rewrite elem_of_seqZ. transitivity (is_Some (scan_observations d !! (s, q, o))).
    + unfold batch_ordinals. rewrite list_elem_of_omap. split.
      * intros ([[[s1 q1] o1] r1] & Hx%elem_of_map_to_list & E). cbn in E.
        destruct (Z.eqb_spec s1 s), (Z.eqb_spec q1 q); try done. cbn in E.
        injection E as <-. subst. eauto.
      * intros [row Hrow]. exists ((s, q, o), row). cbn. rewrite !Z.eqb_refl.
        split; [by apply elem_of_map_to_list|done].
    + rewrite (lg_observations _ _ _ Hledger). split.
      * intros (b' & Hb' & Ho). replace b' with b in Ho by congruence. lia.
      * intros Ho. exists b. split; [done|lia].
Qed.

Lemma distribution_valid : distribution_invalid d s = false.
Proof.
  unfold distribution_invalid. apply orb_false_iff. split.
  - apply existsb_false_iff. intros [q b] Hin. apply batches_of_in in Hin. cbn [fst snd].
    pose proof (batch_ordinals_seq q b Hin) as Hp.
    pose proof (lg_batch _ _ _ Hledger _ _ Hin) as [_ _ B3 _ _].
    assert (forall x, x ∈ batch_ordinals d s q <-> 0 <= x < sb_observation_count b) as Hel
      by (intros x; rewrite Hp, elem_of_seqZ; lia).
    rewrite (Permutation_length Hp), length_seqZ, Z2Nat.id, Z.eqb_refl by lia. cbn.
    destruct (batch_ordinals d s q) as [|o os]; [done|].
    destruct (foldl_min_spec os o) as [Hm Hm'], (foldl_max_spec os o) as [HM HM'].
    apply Hel in Hm, HM. pose proof (Hm' 0 (proj2 (Hel 0) ltac:(lia))).
    pose proof (HM' (sb_observation_count b - 1) (proj2 (Hel (sb_observation_count b - 1)) ltac:(lia))).
    rewrite (proj2 (Z.eqb_eq _ 0)), (proj2 (Z.eqb_eq _ (sb_observation_count b - 1))) by lia. done.
  - apply existsb_false_iff. intros [[q o] row] Hin. apply observations_of_in in Hin. cbn [fst snd].
    destruct (proj1 (lg_observations _ _ _ Hledger q o)) as (b & Hb & _); [eauto|].
    by rewrite Hb, bool_decide_eq_true_2 by eauto.
Qed.

(** The validation of the ledger never refuses a sound ledger. *)
Lemma validate_ledger_run :
  s <= i64_max -> validate_completion_ledger_in_tx (session_of s r) d = (Ok tt, d).
Proof.
  intros Hs. pose proof ledger_bounds as (_ & Hb & _). unfold validate_completion_ledger_in_tx.
  cbn [session_of scan_batch_count scan_next_sequence scan_observation_count].
  rewrite Hb, Z.eqb_refl. cbn [negb].
  rewrite (tx_bind_run _ _ _ _ _ (validate_batches_run Hs)). cbn [fst snd].
  rewrite !Z.eqb_refl. cbn [negb orb].
  rewrite (tx_bind_run _ _ d tt d).
  - rewrite (tx_bind_run _ _ _ _ _ (validate_observations_run Hs)). by rewrite Z.eqb_refl.
  - unfold validate_completion_observation_distribution_in_tx. cbn [session_of scan_session_id].
    rewrite i64_id by done. tx_go. by rewrite distribution_valid.
Qed.
End ledger.

(** ** Retiring the locations *)

Lemma foldl_update_lookup {A} (g : A -> A) (l : list (Z * A)) : forall (m : gmap Z A) k,
  NoDup l.*1 ->
  foldl (fun m kv => <[kv.1 := g kv.2]> m) m l !! k =
  match list_find (fun kv => kv.1 = k) l with Some (_, kv) => Some (g kv.2) | None => m !! k end.
Proof.
  induction l as [|[k0 x] l IH]; intros m k Hnd; [done|].
  cbn in Hnd. apply NoDup_cons in Hnd as [Hk0 Hnd]. cbn [foldl list_find fst snd].
  rewrite IH by done. destruct (decide (k0 = k)) as [->|Hne].
  - destruct (list_find (fun kv => kv.1 = k) l) as [[i kv]|] eqn:E.
    + apply list_find_Some in E as (Hl & <- & _). exfalso. apply Hk0.
      apply list_elem_of_fmap. exists kv. split; [done|]. by eapply list_elem_of_lookup_2.
    + apply lookup_insert_eq.
  - destruct (list_find (fun kv => kv.1 = k) l) as [[i kv]|]; cbn; [done|].
    by rewrite lookup_insert_ne.
Qed.

(** An [UPDATE .. WHERE cond] as one map over the table. *)
Definition update_where {A} (cond : Z -> A -> bool) (g : A -> A) (m : gmap Z A) : gmap Z A :=
  map_imap (fun k x => Some (if cond k x then g x else x)) m.

Lemma update_where_lookup {A} cond (g : A -> A) m k :
  update_where cond g m !! k = (fun x => if cond k x then g x else x) <$> m !! k.
Proof. unfold update_where. rewrite map_lookup_imap. by destruct (m !! k). Qed.

Lemma update_where_foldl {A} cond (g : A -> A) (m : gmap Z A) :
  foldl (fun m kv => <[kv.1 := g kv.2]> m) m (select_asc cond m) = update_where cond g m.
Proof.
  apply map_eq. intros k. rewrite update_where_lookup, foldl_update_lookup
    by apply NoDup_fst_filter, rows_asc_NoDup.
  destruct (list_find (fun kv => kv.1 = k) (select_asc cond m)) as [[i [k' x]]|] eqn:E.
  - apply list_find_Some in E as (Hl & <- & _).
    apply list_elem_of_lookup_2, list_elem_of_In, select_asc_in in Hl as [Hm Hc].
    cbn. rewrite Hm. cbn. by rewrite Hc.
  - apply list_find_None in E. destruct (m !! k) as [x|] eqn:Hm; [|done]. cbn.
    destruct (cond k x) eqn:Hc; [|done]. exfalso. rewrite Forall_forall in E.
    apply (E (k, x)); [|done]. apply list_elem_of_In, select_asc_in. done.
Qed.

Lemma count_where_select {A} cond (m : gmap Z A) :
  count_where cond m = Z.of_nat (List.length (select_asc cond m)).
Proof.
  unfold count_where, select_asc, rows_asc. f_equal.
  apply length_filter_perm. symmetry. apply (merge_sort_Permutation key_le).
Qed.

Lemma count_where_imap {A} cond (h : Z -> A -> A) (m : gmap Z A) :
  count_where cond (map_imap (fun k x => Some (h k x)) m) =
  count_where (fun k x => cond k (h k x)) m.
Proof.
  induction m as [|k x m Hk IH] using map_ind; [by rewrite map_imap_empty|].
  rewrite (map_imap_insert_Some _ _ _ _ (h k x)) by done.
  rewrite !count_where_insert_new by (done || by rewrite map_lookup_imap, Hk). by rewrite IH.
Qed.
