(* ===== verification/ScanReconcile.v ===== *)
(** * Reconciliation

    Completing a scan retires exactly the live locations of the root, up to the
    watermark taken at the start, that the traversal did not see; it is refused
    while a commit holds one of them. The completed database is sound. *)

From S2P Require Import Prelude Json Vocab Operations Store Locators Scans ScanLedger.
From S2P Require Import ScanBatches ScanCompletion.
From Stdlib Require Import ZArith Lia Bool String Ascii.
From stdpp Require Import base gmap strings list sorting relations.

Open Scope string_scope.
Open Scope Z_scope.

(** The locations that completing session [s] retires. *)
Definition retires (d : ScanDb) (s : Z) (r : ScanSessionRow) : Z -> LocationRow -> bool :=
  unobserved d (ss_storage_root_id r) s (ss_location_high_watermark_id r).
Definition retired_ids (d : ScanDb) (s : Z) (r : ScanSessionRow) : list Z :=
  (select_asc (retires d s r) (file_locations d)).*1.

Definition succeeded_row (d : ScanDb) (s : Z) (r : ScanSessionRow) (now : string) :
    ScanSessionRow :=
  terminal_row ScanSucceeded (ss_terminal_reason r)
    (Z.of_nat (List.length (retired_ids d s r))) now r.

(** The database after session [s] of a root with row [root] succeeds. *)
Definition completed (d : ScanDb) (s : Z) (r : ScanSessionRow) (root : LibraryRootRow)
    (now : string) : ScanDb :=
  set_library_roots (<[ss_storage_root_id r := root_pointed s root]> (library_roots d))
  (set_scan_sessions (<[s := succeeded_row d s r now]> (scan_sessions d))
  (set_file_locations
     (update_where (retires d s r) (location_retired now s) (file_locations d)) d)).

Section completed.
Context `{Iso8601Laws, EvidenceCodecLaws}.

Lemma completed_location d s r root now id :
  file_locations (completed d s r root now) !! id =
  (fun l => if retires d s r id l then location_retired now s l else l) <$> file_locations d !! id.
Proof. apply update_where_lookup. Qed.

Lemma retires_spec d s r id l :
  retires d s r id l = true ->
  fl_storage_root_id l = Some (ss_storage_root_id r) /\ fl_address_state l = Rooted /\
  fl_retired_at l = None /\
  (exists h, ss_location_high_watermark_id r = Some h /\ id <= h) /\
  forall loc, fl_locator l = Some loc -> locator_observed d s loc = false.
Proof.
  unfold retires, unobserved, live_rooted. rewrite !andb_true_iff, !bool_decide_eq_true, negb_true_iff.
  intros [[[[Hroot Hst] Hr] Hh] Ho]. split_and!; [done|done| | |].
  - by destruct (fl_retired_at l).
  - destruct (ss_location_high_watermark_id r) as [h|]; [|done]. exists h.
    split; [done|by apply Z.leb_le].
  - intros loc E. by rewrite E in Ho.
Qed.

(** A running session that satisfies the schema still does once it succeeded. *)
Lemma succeeded_check d s r now :
  ss_status r = ScanRunning -> session_check r = true ->
  session_check (succeeded_row d s r now) = true.
Proof.
  unfold session_check. intros Hst. rewrite Hst, !andb_true_iff.
  intros [[[[[[[[[[[E0 E1] E2] E3] E4] E5] E6] E7] _] _] Hp] Hl].
  unfold lifecycle_check in Hl |- *. rewrite Hst in Hl. cbn. rewrite !andb_true_iff in Hl.
  destruct Hl as [[[Hi Hs] _] Hr]. rewrite Hi, Hs. cbn. split_and!; try done.
  apply Z.leb_le. lia.
Qed.

Section sound.
Variables (d : ScanDb) (s : Z) (r : ScanSessionRow) (root : LibraryRootRow) (now : string).
Hypothesis (Hsound : scan_sound d).
Hypothesis (Hrow : scan_sessions d !! s = Some r).
Hypothesis (Hrunning : ss_status r = ScanRunning).
Hypothesis (Hnow : stamped now).

Lemma completed_session k x :
  scan_sessions (completed d s r root now) !! k = Some x ->
  (k = s /\ x = succeeded_row d s r now) \/ (k <> s /\ scan_sessions d !! k = Some x).
Proof.
  cbn. destruct (decide (k = s)) as [->|Hne].
  - rewrite lookup_insert_eq. intros [= <-]. by left.
  - rewrite lookup_insert_ne by done. by right.
Qed.

Lemma completed_row_ok : session_ok d s (succeeded_row d s r now).
Proof.
  destruct (sc_session d Hsound s r Hrow) as [[C1 C2 C3 C4 C5 C6 C7 C8 C9 C10] Hk Hi Hw].
  split; [by split|by apply succeeded_check|done|done].
Qed.

Lemma session_ok_completed k x :
  session_ok d k x -> session_ok (completed d s r root now) k x.
Proof.
  intros [Hc Hk Hi Hw]. split; [done|done|done|]. intros l Hl.
  destruct (Hw l Hl) as (row & Hrow' & Hroot). rewrite completed_location, Hrow'. cbn.
  eexists. split; [done|]. by destruct (retires d s r l row).
Qed.

Lemma reconciled_now id l :
  file_locations d !! id = Some l -> retires d s r id l = true ->
  reconciled (completed d s r root now) s (succeeded_row d s r now) id (location_retired now s l).
Proof.
  intros Hl Hr. destruct (sc_locations d Hsound id l Hl) as [Lid Lep Lret Lroot].
  apply retires_spec in Hr as (Hroot & Hst & _ & Hh & Hobs).
  destruct (Lroot Hst) as (rt & loc & _ & _ & Hloc & Hv).
  split; cbn; [done|done|done|lia|]. exists loc. split_and!; [done|done|].
  unfold locator_observed. cbn. by apply Hobs.
Qed.

(** The locations a session is credited with after the completion. *)
Lemma completed_count k :
  attributed_location_count (completed d s r root now) k =
  if decide (k = s) then Z.of_nat (List.length (retired_ids d s r))
  else attributed_location_count d k.
Proof.
  unfold attributed_location_count. cbn. unfold update_where. rewrite count_where_imap.
  assert (forall id l, file_locations d !! id = Some l -> retires d s r id l = true ->
    fl_retired_by l = None) as Hlive.
  { intros id l Hl (_ & _ & Ha & _)%retires_spec.
    destruct (sc_locations d Hsound id l Hl) as [_ _ Lret _].
    destruct (fl_retired_by l); [|done]. destruct (Lret ltac:(eauto)) as [? E]. congruence. }
  destruct (decide (k = s)) as [->|Hne].
  - unfold retired_ids. rewrite length_fmap, <- count_where_select. apply count_where_ext.
    intros id l Hl. destruct (retires d s r id l) eqn:Hr; cbn.
    + by apply bool_decide_eq_true.
    + apply bool_decide_eq_false. intros E.
      destruct (sc_attributed d Hsound id l s Hl E) as (x & Hx & Hst & _). congruence.
  - apply count_where_ext. intros id l Hl. destruct (retires d s r id l) eqn:Hr; cbn; [|done].
    rewrite (Hlive id l Hl Hr). by rewrite !bool_decide_eq_false_2 by congruence.
Qed.

Lemma completed_sound : scan_sound (completed d s r root now).
Proof.
  pose proof completed_row_ok as Hok.
  split.
  - intros k x [[-> ->]|[_ Hx]]%completed_session; apply session_ok_completed; [done|].
    exact (sc_session d Hsound k x Hx).
  - intros i x j y [[-> ->]|[Hi Hx]]%completed_session [[-> ->]|[Hj Hy]]%completed_session
      Hax Hay E; try done. by eapply (sc_active d Hsound i x j y).
  - intros k x [[-> ->]|[_ Hx]]%completed_session.
    + eapply (ledger_ok_frame d _ s r); try done. exact (sc_ledger d Hsound s r Hrow).
    + eapply (ledger_ok_frame d _ k x); try done. exact (sc_ledger d Hsound k x Hx).
  - intros k q Hb%(sc_batches d Hsound). cbn. destruct (decide (k = s)) as [->|Hne].
    + rewrite lookup_insert_eq. eauto.
    + by rewrite lookup_insert_ne.
  - apply (sc_observations d Hsound).
  - intros id l' Hl'. rewrite completed_location in Hl'.
    destruct (file_locations d !! id) as [l|] eqn:Hl; [|done]. cbn in Hl'. injection Hl' as <-.
    pose proof (sc_locations d Hsound id l Hl) as Hlo. destruct (retires d s r id l); [|done].
    destruct Hlo as [L1 L2 L3 L4]. split; cbn; [done|lia|eauto|done].
  - intros id l' k Hl' Hby. rewrite completed_location in Hl'.
    destruct (file_locations d !! id) as [l|] eqn:Hl; [|done]. cbn in Hl'. injection Hl' as <-.
    destruct (retires d s r id l) eqn:Hr.
    + cbn in Hby. injection Hby as <-. exists (succeeded_row d s r now). cbn.
      rewrite lookup_insert_eq. split_and!; [done|done|by apply reconciled_now].
    + destruct (sc_attributed d Hsound id l k Hl Hby) as (x & Hx & Hst & Hrec).
      exists x. cbn. rewrite lookup_insert_ne by congruence. split_and!; [done|done|].
      by eapply (reconciled_frame d _ k x).
  - intros k x Hx Hst. rewrite completed_count.
    apply completed_session in Hx as [[-> ->]|[Hne Hx]].
    + by rewrite decide_True.
    + rewrite decide_False by done. exact (sc_count d Hsound k x Hx Hst).
Qed.
End sound.
End completed.

(** ** The run of a completion *)

(** SQLite ids fit their column. *)
Record representable (d : ScanDb) : Prop := {
  rp_locations : forall id l, file_locations d !! id = Some l -> id <= i64_max;
  rp_size : count_where (fun _ _ => true) (file_locations d) <= i64_max;
  rp_commits : forall c, is_Some (commit_intents d !! c) -> 0 <= c;
  rp_artifacts : forall c, is_Some (artifact_intents d !! c) -> 0 <= c;
}.

Record completion_typed (input : CompleteScanSessionInput) : Prop := {
  ct_session : co_scan_session_id input <= i64_max;
  ct_root : co_storage_root_id input <= i64_max;
  ct_epoch : co_root_epoch input <= i64_max;
  ct_owner : co_owner_node_id input <= i64_max;
  ct_incarnation : incarnation_id_ok (co_owner_incarnation_id input);
  ct_sequence : from_option (fun q => 0 <= q <= u64_max) True (co_last_sequence input);
}.

(** The owner that reports completion is the one the session is bound to. *)
Definition authority_matches (r : ScanSessionRow) (input : CompleteScanSessionInput) : bool :=
  (ss_storage_root_id r =? co_storage_root_id input) &&
  (ss_root_epoch r =? co_root_epoch input) && (ss_owner_node_id r =? co_owner_node_id input) &&
  bool_decide (ss_owner_incarnation_id r =
               Some (NodeIncarnationId_display (co_owner_incarnation_id input))).

(** It saw the ledger the store has. *)
Definition watermark_matches (r : ScanSessionRow) (input : CompleteScanSessionInput) : bool :=
  (ss_next_sequence r =? match co_last_sequence input with None => 0 | Some q => q + 1 end) &&
  (ss_observation_count r =? co_observation_count input).

(** A commit in flight covers a location the completion would retire. *)
Definition covered (d : ScanDb) (s : Z) (r : ScanSessionRow) (location : Z) : bool :=
  match file_locations d !! location with Some l => retires d s r location l | None => false end.
Definition held (d : ScanDb) (s : Z) (r : ScanSessionRow) : bool :=
  existsb (fun cl => match commit_intents d !! cl.1 with
    | Some st => in_flight st && covered d s r cl.2 | None => false end)
    (elements (commit_scope_locations d)) ||
  existsb (fun kv => in_flight kv.2.1 && covered d s r kv.2.2) (map_to_list (artifact_intents d)).

Lemma update_one_none key c upd check d r :
  scan_sessions d !! key = Some r -> c r = false ->
  update_sessions (fun k r => (k =? key) && c r) upd check d = (Ok [], d).
Proof.
  intros Hr Hc. unfold update_sessions, mbind, tx_mbind, gets, modify, throw.
  rewrite select_asc_single, Hr, Hc. by destruct d.
Qed.

Lemma update_bind_ext {A} cond cond' upd check (f : list (Z * ScanSessionRow) -> SM A) d :
  (forall k r, cond k r = cond' k r) ->
  (update_sessions cond upd check ≫= f) d = (update_sessions cond' upd check ≫= f) d.
Proof.
  intros Hc. pose proof (update_sessions_ext cond cond' upd check d Hc) as E.
  destruct (update_sessions cond upd check d) as [[rows|e] d'] eqn:Hu; symmetry in E.
  - by rewrite (tx_bind_run _ f _ _ _ Hu), (tx_bind_run _ f _ _ _ E).
  - by rewrite (tx_bind_stop _ f _ _ _ Hu), (tx_bind_stop _ f _ _ _ E).
Qed.

Lemma iso8601_stamped `{Iso8601} t x : iso8601 t = Ok x -> stamped x.
Proof. intros Hx%ok_or_ok. by exists t. Qed.

Lemma select_asc_le {A} cond (m : gmap Z A) :
  Z.of_nat (List.length (select_asc cond m)) <= count_where (fun _ _ => true) m.
Proof.
  rewrite count_where_select. apply Nat2Z.inj_le. unfold select_asc.
  rewrite (forallb_filter_id (fun kv => true)) by (by apply forallb_forall).
  apply List.filter_length_le.
Qed.

Lemma head_None {A} (l : list A) : head l = None <-> l = [].
Proof. by destruct l. Qed.

Lemma filter_nil_existsb {A} (f : A -> bool) l : List.filter f l = [] <-> existsb f l = false.
Proof.
  induction l as [|x l IH]; cbn; [done|]. destruct (f x); cbn; [|done]. by split.
Qed.

Lemma head_Some_elem_of {A} (l : list A) x : head l = Some x -> x ∈ l.
Proof. destruct l; [done|]. intros [= ->]. by left. Qed.

Lemma existsb_ext {A} (f g : A -> bool) l : (forall x, f x = g x) -> existsb f l = existsb g l.
Proof. intros Hf. induction l as [|x l IH]; cbn; [done|]. by rewrite Hf, IH. Qed.

Lemma parse_incarnation_canonical t id :
  parse_incarnation_id t = Some id -> t = NodeIncarnationId_display id.
Proof.
  unfold parse_incarnation_id.
  destruct (Nat.eqb_spec (String.length t) INCARNATION_ID_HEX_LEN) as [E|]; [|done]. cbn.
  intros Hp. by destruct (display_parse INCARNATION_ID_BYTES t id E Hp) as (-> & _).
Qed.

Lemma parse_incarnation_display id :
  incarnation_id_ok id -> parse_incarnation_id (NodeIncarnationId_display id) = Some id.
Proof.
  intros [Hl Hf]. unfold parse_incarnation_id. rewrite display_length, Hl. cbn [Nat.eqb negb].
  by apply parse_display.
Qed.

Section runs.
Context `{Iso8601Laws, EvidenceCodecLaws}.
Variables (d : ScanDb) (input : CompleteScanSessionInput) (r : ScanSessionRow) (now : string).
Abbreviation s := (co_scan_session_id input).
Hypotheses (Hsound : scan_sound d) (Hrep : representable d) (Htyped : completion_typed input).
Hypothesis (Hrow : scan_sessions d !! s = Some r).
Hypothesis (Hnow : iso8601 (co_completed_at input) = Ok now).

Lemma complete_ok : session_ok d s r.
Proof. exact (sc_session d Hsound _ _ Hrow). Qed.

Lemma watermark_location_run :
  validate_completion_high_watermark_in_tx (session_of s r) d = (Ok tt, d).
Proof.
  destruct complete_ok as [Hc _ _ Hw]. unfold validate_completion_high_watermark_in_tx.
  cbn [session_of scan_high_watermark_id scan_storage_root_id].
  destruct (ss_location_high_watermark_id r) as [h|] eqn:Hh; [|done].
  destruct (Hw h eq_refl) as (row & Hl & Hroot).
  rewrite i64_id by exact (rp_locations d Hrep _ _ Hl). tx_go. rewrite Hl. cbn [ok_or]. tx_go.
  rewrite Hroot. cbn [ok_or]. tx_go. rewrite u64_id by exact (co_root _ _ Hc). tx_go.
  by rewrite Z.eqb_refl.
Qed.

Lemma authority_run :
  validate_completion_authority_binding (session_of s r) input =
  if authority_matches r input then Ok tt else Err EDatabase.
Proof.
  unfold validate_completion_authority_binding, authority_matches.
  cbn [session_of scan_storage_root_id scan_root_epoch scan_owner_node_id scan_owner_incarnation_id].
  rewrite (bool_decide_ext ((i ← ss_owner_incarnation_id r; parse_incarnation_id i) =
      Some (co_owner_incarnation_id input))
    (ss_owner_incarnation_id r = Some (NodeIncarnationId_display (co_owner_incarnation_id input)))).
  - by destruct (ss_storage_root_id r =? _), (ss_root_epoch r =? _), (ss_owner_node_id r =? _),
      (bool_decide _).
  - destruct (ss_owner_incarnation_id r) as [i|]; [|done]. cbn. split.
    + intros ->%parse_incarnation_canonical. done.
    + intros [= ->]. apply parse_incarnation_display, (ct_incarnation _ Htyped).
Qed.

Lemma watermark_run :
  validate_completion_request_watermark (session_of s r) input =
  if watermark_matches r input then Ok tt else Err EConflict.
Proof.
  pose proof (session_check_bounds r (so_check _ _ _ complete_ok)) as (Hn & _).
  pose proof (ct_sequence _ Htyped) as Hq.
  unfold validate_completion_request_watermark, watermark_matches, completion_next_sequence.
  cbn [session_of scan_next_sequence scan_observation_count].
  destruct (co_last_sequence input) as [q|]; cbn in Hq |- *.
  - unfold u64_checked_add. destruct (Z.leb_spec (q + 1) u64_max) as [Hle|Hgt]; cbn.
    + by destruct (ss_next_sequence r =? q + 1), (ss_observation_count r =? _).
    + rewrite (proj2 (Z.eqb_neq _ _)); [done|]. unfold u64_max in *. lia.
  - by destruct (ss_next_sequence r =? 0), (ss_observation_count r =? _).
Qed.

(** The scope of the reconciliation queries. *)
Lemma scope_run :
  authority_matches r input = true ->
  completion_scope (session_of s r) =
  Ok (ss_storage_root_id r, s, ss_location_high_watermark_id r).
Proof.
  unfold authority_matches. rewrite !andb_true_iff. intros [[[E%Z.eqb_eq _] _] _].
  unfold completion_scope. cbn [session_of scan_storage_root_id scan_session_id scan_high_watermark_id].
  rewrite E, !i64_id by apply Htyped. cbn [mbind result_mbind].
  destruct complete_ok as [_ _ _ Hw].
  destruct (ss_location_high_watermark_id r) as [h|]; [|done].
  destruct (Hw h eq_refl) as (row & Hl & _). cbn.
  by rewrite i64_id by exact (rp_locations d Hrep _ _ Hl).
Qed.

Lemma candidate_decodes kv :
  In kv (select_asc (retires d s r) (file_locations d)) ->
  (locator ← ok_or (fl_locator kv.2) EDatabase;
   _ ← ProviderRelativeLocator_parse_database locator; u64_from_i64 kv.1) = Ok kv.1.
Proof.
  destruct kv as [id l]. intros [Hl Hr]%select_asc_in.
  destruct (sc_locations d Hsound id l Hl) as [Lid _ _ Lroot].
  apply retires_spec in Hr as (_ & Hst & _).
  destruct (Lroot Hst) as (rt & loc & _ & _ & Hloc & Hv). cbn [fst snd]. rewrite Hloc. cbn.
  unfold ProviderRelativeLocator_parse_database. rewrite Hv. cbn. by apply u64_id.
Qed.

Lemma candidates_run :
  authority_matches r input = true ->
  completion_candidates_in_tx (session_of s r) d = (Ok (retired_ids d s r), d).
Proof.
  intros Ha. unfold completion_candidates_in_tx. rewrite scope_run by done. tx_go.
  unfold getsR. f_equal. fold (retires d s r). unfold retired_ids.
  pose proof candidate_decodes as Hd.
  induction (select_asc (retires d s r) (file_locations d)) as [|kv l IH]; [done|].
  cbn [collect fmap list_fmap]. rewrite Hd by (by left). cbn [mbind result_mbind].
  rewrite IH; [done|]. intros kv' Hin. apply Hd. by right.
Qed.
(** *** The commit locks *)

Lemma commit_lock_elem cl :
  commit_lock d (ss_storage_root_id r) s (ss_location_high_watermark_id r) = Some cl ->
  is_Some (commit_intents d !! cl.1) /\ is_Some (file_locations d !! cl.2).
Proof.
  intros Hc%head_Some_elem_of. rewrite merge_sort_Permutation in Hc.
  apply list_elem_of_In, filter_In in Hc as [_ Hc].
  by destruct (commit_intents d !! cl.1), (file_locations d !! cl.2).
Qed.

Lemma artifact_lock_elem il :
  artifact_lock d (ss_storage_root_id r) s (ss_location_high_watermark_id r) = Some il ->
  is_Some (artifact_intents d !! il.1) /\ is_Some (file_locations d !! il.2).
Proof.
  intros (kv & Hin & E)%head_Some_elem_of%list_elem_of_omap.
  destruct kv as [k [st loc]]. cbn in E. destruct (file_locations d !! loc) as [l|] eqn:Hl; [|done].
  destruct (in_flight st && _); [|done]. injection E as <-. cbn. rewrite Hl.
  apply list_elem_of_In, rows_asc_in in Hin. eauto.
Qed.

Lemma held_locks :
  held d s r =
  is_some (commit_lock d (ss_storage_root_id r) s (ss_location_high_watermark_id r)) ||
  is_some (artifact_lock d (ss_storage_root_id r) s (ss_location_high_watermark_id r)).
Proof.
  unfold held. f_equal.
  - unfold commit_lock. match goal with |- context [List.filter ?g _] => set (f := g) end.
    rewrite (existsb_ext _ f) by (intros cl; unfold f, covered;
      destruct (commit_intents d !! cl.1), (file_locations d !! cl.2); cbn; try done;
      by rewrite andb_false_r).
    destruct (existsb f _) eqn:E.
    + apply existsb_exists in E as (cl & Hin & Hf).
      destruct (head _) eqn:Eh; [done|]. apply head_None in Eh.
      assert (cl ∈ merge_sort pair_le (List.filter f (elements (commit_scope_locations d)))) as Hm
        by (rewrite merge_sort_Permutation; by apply list_elem_of_In, filter_In).
      rewrite Eh in Hm. by apply elem_of_nil in Hm.
    + apply filter_nil_existsb in E. by rewrite E.
  - unfold artifact_lock.
    rewrite (existsb_perm _ _ (rows_asc (artifact_intents d)))
      by (symmetry; apply (merge_sort_Permutation key_le)).
    induction (rows_asc (artifact_intents d)) as [|[k [st loc]] l IH]; [done|]. cbn.
    unfold covered, retires at 1. destruct (file_locations d !! loc) as [x|]; cbn.
    + destruct (in_flight st && _); [done|exact IH].
    + rewrite andb_false_r. exact IH.
Qed.

Lemma locks_run :
  authority_matches r input = true ->
  consult_scan_reconciliation_commit_lock_in_tx (session_of s r) d =
    (Ok (commit_lock d (ss_storage_root_id r) s (ss_location_high_watermark_id r)), d) /\
  consult_scan_reconciliation_artifact_intent_lock_in_tx (session_of s r) d =
    (Ok (artifact_lock d (ss_storage_root_id r) s (ss_location_high_watermark_id r)), d).
Proof.
  intros Ha. unfold consult_scan_reconciliation_commit_lock_in_tx,
    consult_scan_reconciliation_artifact_intent_lock_in_tx.
  rewrite scope_run by done. tx_go. unfold getsR.
  assert (forall l, is_Some (file_locations d !! l) -> 0 <= l) as Hpos
    by (intros l [row Hl]; exact (lo_id _ _ (sc_locations d Hsound l row Hl))).
  split; f_equal.
  - destruct (commit_lock _ _ _ _) as [[c l]|] eqn:E; [|done].
    apply commit_lock_elem in E as [Hc Hl]. cbn.
    by rewrite (u64_id c (rp_commits d Hrep c Hc)), (u64_id l (Hpos l Hl)).
  - destruct (artifact_lock _ _ _ _) as [[c l]|] eqn:E; [|done].
    apply artifact_lock_elem in E as [Hc Hl]. cbn.
    by rewrite (u64_id c (rp_artifacts d Hrep c Hc)), (u64_id l (Hpos l Hl)).
Qed.
(** *** The writes *)

Definition locations_retired : ScanDb :=
  set_file_locations (update_where (retires d s r) (location_retired now s) (file_locations d)) d.

Lemma retire_run :
  authority_matches r input = true ->
  retire_completion_candidates_in_tx (session_of s r) (co_completed_at input)
    (List.length (retired_ids d s r)) d = (Ok tt, locations_retired).
Proof.
  intros Ha. unfold retire_completion_candidates_in_tx. rewrite scope_run, Hnow by done. tx_go.
  fold (retires d s r). rewrite update_where_foldl. unfold retired_ids.
  by rewrite length_fmap, Nat.eqb_refl.
Qed.

(** The row the final update selects. *)
Definition marked (x : ScanSessionRow) : bool :=
  bool_decide (ss_status x = ScanRunning) && (ss_storage_root_id x =? co_storage_root_id input) &&
  (ss_root_epoch x =? co_root_epoch input) && (ss_owner_node_id x =? co_owner_node_id input) &&
  bool_decide (ss_owner_incarnation_id x =
               Some (NodeIncarnationId_display (co_owner_incarnation_id input))) &&
  (ss_next_sequence x =? ss_next_sequence r) &&
  (ss_observation_count x =? co_observation_count input) &&
  bool_decide (ss_location_high_watermark_id x = ss_location_high_watermark_id r).

Lemma marked_running :
  authority_matches r input = true -> watermark_matches r input = true ->
  marked r = bool_decide (ss_status r = ScanRunning).
Proof.
  unfold marked, authority_matches, watermark_matches. rewrite !andb_true_iff.
  intros [[[-> ->] ->] ->] [_ ->]. rewrite Z.eqb_refl.
  rewrite (bool_decide_eq_true_2 (ss_location_high_watermark_id r = _)) by done.
  by rewrite !andb_true_r.
Qed.

Lemma mark_run :
  authority_matches r input = true -> watermark_matches r input = true ->
  mark_completion_succeeded_in_tx (session_of s r) input (List.length (retired_ids d s r))
    locations_retired =
  if bool_decide (ss_status r = ScanRunning) then
    (Ok (session_of s (succeeded_row d s r now)),
     set_scan_sessions (<[s := succeeded_row d s r now]> (scan_sessions d)) locations_retired)
  else (Err EDatabase, locations_retired).
Proof.
  intros Ha Hw. pose proof complete_ok as Hok.
  pose proof (session_check_bounds r (so_check _ _ _ Hok)) as (Hn & _ & Ho).
  pose proof Hw as Hw'. unfold watermark_matches in Hw'. rewrite andb_true_iff, !Z.eqb_eq in Hw'.
  destruct Hw' as [Hnext Hcount].
  unfold mark_completion_succeeded_in_tx. rewrite Hnow. tx_go.
  rewrite (i64_id (Z.of_nat _)) by (unfold retired_ids; rewrite length_fmap;
    pose proof (select_asc_le (retires d s r) (file_locations d)); pose proof (rp_size d Hrep); lia).
  cbn [session_of scan_session_id scan_high_watermark_id]. tx_go.
  rewrite (i64_id s), (i64_id (co_storage_root_id input)), (i64_id (co_root_epoch input)),
    (i64_id (co_owner_node_id input)) by apply Htyped. tx_go.
  assert (completion_next_sequence (co_last_sequence input) = Ok (ss_next_sequence r)) as ->.
  { unfold completion_next_sequence. rewrite Hnext in Hn |- *.
    destruct (co_last_sequence input) as [q|]; [|done]. by rewrite u64_add_some by (unfold u64_max; lia). }
  tx_go. rewrite (i64_id (ss_next_sequence r)), (i64_id (co_observation_count input))
    by (unfold i64_max; lia). tx_go.
  pose proof (scope_run Ha) as Hscope. unfold completion_scope in Hscope.
  cbn [session_of scan_storage_root_id scan_session_id scan_high_watermark_id] in Hscope.
  destruct (i64_from_u64 (ss_storage_root_id r)) as [?|]; [|done]. cbn in Hscope.
  rewrite i64_id in Hscope by apply Htyped. cbn in Hscope.
  destruct (transpose _) as [hw|]; [|done]. cbn in Hscope. injection Hscope as _ ->. tx_go.
  rewrite (update_bind_ext _ (fun k x => (k =? s) && marked x))
    by (intros; unfold marked; by rewrite <- !andb_assoc).
  pose proof (marked_running Ha Hw) as Hm.
  destruct (bool_decide_reflect (ss_status r = ScanRunning)) as [Hst|Hst].
  - rewrite (tx_bind_run _ _ _ _ _ (update_one_run s marked _ _ locations_retired r Hrow Hm
      (succeeded_check d s r now Hst (so_check _ _ _ Hok)))).
    cbn [head ok_or]. tx_go. change (terminal_row _ _ _ _ _) with (succeeded_row d s r now).
    unfold lift. rewrite (read_plain d); [done|]. by eapply completed_row_ok; [..|by eapply iso8601_stamped].
  - by rewrite (tx_bind_run _ _ _ _ _ (update_one_none s marked _ _ locations_retired r Hrow Hm)).
Qed.
Lemma pointer_run d2 x :
  authority_matches r input = true -> library_roots d2 = library_roots d ->
  update_completion_root_pointer_in_tx (session_of s x) input d2 =
  match library_roots d !! ss_storage_root_id r with
  | Some root =>
      if (lr_root_epoch root =? ss_root_epoch r) &&
         bool_decide (lr_owner_node_id root = Some (ss_owner_node_id r))
      then (Ok tt, set_library_roots
              (<[ss_storage_root_id r := root_pointed s root]> (library_roots d)) d2)
      else (Err EDatabase, d2)
  | None => (Err EDatabase, d2)
  end.
Proof.
  unfold authority_matches. rewrite !andb_true_iff.
  intros [[[->%Z.eqb_eq ->%Z.eqb_eq] ->%Z.eqb_eq] _] El.
  unfold update_completion_root_pointer_in_tx. cbn [session_of scan_session_id].
  rewrite (i64_id s), (i64_id (co_storage_root_id input)), (i64_id (co_root_epoch input)),
    (i64_id (co_owner_node_id input)) by apply Htyped. tx_go. rewrite El. unfold update_row.
  destruct (library_roots d !! co_storage_root_id input) as [root|]; [|done].
  by destruct (_ && _).
Qed.
End runs.

(** ** The outcome *)

(** What the repository answers to a completion at the instant written [now]. *)
Definition completion_answer `{Iso8601} (d : ScanDb) (input : CompleteScanSessionInput) (now : string) :
    Res ScanCompletionRecord * ScanDb :=
  let s := co_scan_session_id input in
  match scan_sessions d !! s with
  | None => (Err EDatabase, d)
  | Some r =>
      if negb (authority_matches r input) then (Err EDatabase, d) else
      if negb (watermark_matches r input) || held d s r then (Err EConflict, d) else
      match library_roots d !! ss_storage_root_id r with
      | None => (Err EDatabase, d)
      | Some root =>
          if bool_decide (ss_status r = ScanRunning) && (lr_root_epoch root =? ss_root_epoch r) &&
             bool_decide (lr_owner_node_id root = Some (ss_owner_node_id r))
          then (Ok {| cr_session := session_of s (succeeded_row d s r now);
                      cr_retired_location_ids := retired_ids d s r |}, completed d s r root now)
          else (Err EDatabase, d)
      end
  end.

Section outcome.
Context `{Iso8601Laws, EvidenceCodecLaws}.

Lemma complete_run (d : ScanDb) (input : CompleteScanSessionInput) (now : string) :
  scan_sound d -> representable d -> completion_typed input ->
  iso8601 (co_completed_at input) = Ok now ->
  atomically (complete_in_tx input) d = completion_answer d input now.
Proof.
  intros S Hrep Hty Hnow.  unfold completion_answer, atomically, complete_in_tx, completion_session_in_tx.
  pose proof (fetch_mutation d (co_scan_session_id input) S (ct_session _ Hty)) as Hf.
  destruct (scan_sessions d !! (co_scan_session_id input)) as [r|] eqn:Hr; cbn [fmap option_fmap option_map] in Hf.
  2:{ by rewrite (tx_bind_stop _ _ d EDatabase d) by (by rewrite (tx_bind_run _ _ _ _ _ Hf)). }
  rewrite (tx_bind_run _ _ d (session_of (co_scan_session_id input) r) d) by (by rewrite (tx_bind_run _ _ _ _ _ Hf)).
  rewrite (tx_bind_run _ _ _ _ _ (watermark_location_run d input r S Hrep Hr)).
  rewrite (authority_run input r Hty).
  destruct (authority_matches r input) eqn:Ha; [|done]. cbn [negb]. tx_go.
  rewrite (tx_bind_run _ _ _ _ _ (validate_ledger_run d (co_scan_session_id input) r (sc_ledger d S (co_scan_session_id input) r Hr)
    (so_check _ _ _ (sc_session d S (co_scan_session_id input) r Hr)) (ct_session _ Hty))).
  rewrite (watermark_run d input r S Hty Hr).
  destruct (watermark_matches r input) eqn:Hw; [|done]. cbn [negb orb]. tx_go.
  rewrite (tx_bind_run _ _ _ _ _ (candidates_run d input r S Hrep Hty Hr Ha)).
  destruct (locks_run d input r S Hrep Hty Hr Ha) as [Hc Hi].
  rewrite (held_locks d input r), (tx_bind_run _ _ _ _ _ Hc).
  destruct (is_some (commit_lock _ _ _ _)); [done|]. rewrite (tx_bind_run _ _ _ _ _ Hi).
  destruct (is_some (artifact_lock _ _ _ _)); [done|]. cbn [orb].
  rewrite (tx_bind_run _ _ _ _ _ (retire_run d input r now S Hrep Hty Hr Hnow Ha)).
  pose proof (mark_run d input r now S Hrep Hty Hr Hnow Ha Hw) as Hm.
  destruct (bool_decide (ss_status r = ScanRunning)).
  - rewrite (tx_bind_run _ _ _ _ _ Hm). cbn [andb].
    match goal with |- context [(update_completion_root_pointer_in_tx ?x _ ≫= ?f) ?d2] =>
      pose proof (pointer_run d input r Hty d2 (succeeded_row d (co_scan_session_id input) r now) Ha eq_refl) as Hp end.
    destruct (library_roots d !! ss_storage_root_id r) as [root|].
    + destruct (_ && _).
      * by rewrite (tx_bind_run _ _ _ _ _ Hp).
      * by rewrite (tx_bind_stop _ _ _ _ _ Hp).
    + by rewrite (tx_bind_stop _ _ _ _ _ Hp).
  - rewrite (tx_bind_stop _ _ _ _ _ Hm). by destruct (library_roots d !! ss_storage_root_id r).
Qed.
(** C7: on a sound database a completion is answered completely. It is a
    database error when there is no such session, when the caller is not the
    owner the session is bound to, or when the session is not running or its
    root has moved; it conflicts when the caller counted another ledger than the
    store's, or while an in-flight commit covers a location it would retire;
    and then nothing is written. Otherwise the session succeeds: the live
    locations of its root up to the watermark that no batch observed, and no
    other, are retired and credited to it, and the root points at it. The
    validation of the ledger never refuses it. *)
Theorem complete_outcome (d : ScanDb) (input : CompleteScanSessionInput) (now : string) :
  scan_sound d -> representable d -> completion_typed input ->
  iso8601 (co_completed_at input) = Ok now ->
  atomically (complete_in_tx input) d = completion_answer d input now.
Proof. apply complete_run. Qed.
End outcome.
