(* ===== verification/ScanSystem.v ===== *)
(** * The scan system

    The commands on the scan tables and the writers of locations beside them,
    as transitions of one database. Every reachable database is sound. *)

From S2P Require Import Prelude Json Vocab Operations Store Locators Scans Locations.
From S2P Require Import ScanLedger ScanBatches ScanCompletion ScanReconcile.
From Stdlib Require Import ZArith Lia Bool String Ascii.
From stdpp Require Import base gmap strings list sorting relations.

Open Scope string_scope.
Open Scope Z_scope.

#[global] Arguments row_to_file_location : simpl never.

(** ** Location writers keep the invariant *)

Section locations.
Context `{Iso8601Laws, EvidenceCodecLaws}.

(** A write of one location row that carries no scan retirement. *)
Lemma location_written d id l' :
  scan_sound d ->
  (forall l, file_locations d !! id = Some l -> fl_retired_by l = None) ->
  location_ok id l' -> fl_retired_by l' = None ->
  (forall s r, scan_sessions d !! s = Some r -> ss_location_high_watermark_id r = Some id ->
    fl_storage_root_id l' = Some (ss_storage_root_id r)) ->
  scan_sound (set_file_locations (<[id := l']> (file_locations d)) d).
Proof.
  intros S Hold Hok Hby Hw.
  assert (forall k x, <[id := l']> (file_locations d) !! k = Some x ->
    (k = id /\ x = l') \/ (k <> id /\ file_locations d !! k = Some x)) as Hcases.
  { intros k x Hx. destruct (decide (k = id)) as [->|Hne].
    - rewrite lookup_insert_eq in Hx. left. split; congruence.
    - rewrite lookup_insert_ne in Hx by done. by right. }
  split; cbn; [|apply (sc_active d S)| |apply (sc_batches d S)|apply (sc_observations d S)| | |].
  - intros s r Hr. destruct (sc_session d S s r Hr) as [Hc Hk Hi Hww]. split; [done|done|done|].
    intros l Hl. destruct (decide (l = id)) as [->|Hne].
    + exists l'. cbn. rewrite lookup_insert_eq. split; [done|]. by eapply Hw.
    + destruct (Hww l Hl) as (row & Hrow & Hroot). exists row. cbn.
      by rewrite lookup_insert_ne.
  - intros s r Hr. by eapply (ledger_ok_frame d _ s r), (sc_ledger d S).
  - intros k x [[-> ->]|[_ Hx]]%Hcases; [done|]. by apply (sc_locations d S).
  - intros k x s [[-> ->]|[_ Hx]]%Hcases Hs; [congruence|].
    destruct (sc_attributed d S k x s Hx Hs) as (r & Hr & Hst & Hrec).
    exists r. split_and!; [done|done|]. by eapply (reconciled_frame d _ s r).
  - intros s r Hr Hst. rewrite (sc_count d S s r Hr Hst). unfold attributed_location_count. cbn.
    destruct (file_locations d !! id) as [l|] eqn:Hl.
    + symmetry. apply (count_where_update _ _ _ l); [done|]. by rewrite Hby, (Hold l).
    + rewrite count_where_insert_new by done. rewrite Hby, bool_decide_eq_false_2 by done. lia.
Qed.

Lemma live_unattributed d id l :
  scan_sound d -> file_locations d !! id = Some l -> fl_retired_at l = None ->
  fl_retired_by l = None.
Proof.
  intros S Hl Ha. destruct (sc_locations d S id l Hl) as [_ _ Lr _].
  destruct (fl_retired_by l); [|done]. destruct (Lr ltac:(eauto)) as [? E]. congruence.
Qed.

Lemma location_watermark d id l :
  scan_sound d -> file_locations d !! id = Some l ->
  forall s r, scan_sessions d !! s = Some r -> ss_location_high_watermark_id r = Some id ->
    fl_storage_root_id l = Some (ss_storage_root_id r).
Proof.
  intros S Hl s r Hr Hw. destruct (sc_session d S s r Hr) as [_ _ _ Hww].
  destruct (Hww id Hw) as (row & Hrow & Hroot). congruence.
Qed.

Lemma retire_location_sound id epoch ts : preserves scan_sound (retire_location id epoch ts).
Proof.
  intros d [] d' S Ht. unfold retire_location in Ht. store_inv.
  destruct (update_row _ _ _ _) as [[l' m]|] eqn:Hu; [|discriminate]. store_inv.
  apply update_row_some in Hu as (l & Hl & Hc & -> & ->).
  apply andb_true_iff in Hc as [_ Hlive].
  assert (fl_retired_at l = None) as Ha by (by destruct (fl_retired_at l)).
  pose proof (live_unattributed _ _ _ S Hl Ha) as Hby.
  apply location_written; [done|intros; congruence| |done|exact (location_watermark _ _ _ S Hl)].
  destruct (sc_locations _ S _ _ Hl) as [L1 L2 L3 L4]. split; cbn; [done|lia|eauto|done].
Qed.

Lemma insert_location_sound version root locator kind value at_ :
  validate_relative_locator locator = Ok tt -> 0 <= root ->
  preserves scan_sound
    (insert_file_location_with_raw_proof version root locator kind value at_).
Proof.
  intros Hv Hroot d n d' S Ht. unfold insert_file_location_with_raw_proof in Ht. store_inv.
  match goal with Hx : context [if negb ?b then _ else _] |- _ => destruct b; [|discriminate] end.
  cbn [negb] in *. store_inv.
  match goal with |- scan_sound (set_file_locations (<[?n := _]> _) ?d) =>
    assert (file_locations d !! n = None) as Hfresh by apply next_rowid_fresh end.
  apply location_written; [done|intros l E; congruence| |done|].
  - split; cbn; [done|lia|by intros [? [=]]|]. intros _. eauto 10.
  - intros s r Hr Hw. destruct (sc_session _ S s r Hr) as [_ _ _ Hww].
    destruct (Hww _ Hw) as (row & Hrow & _). congruence.
Qed.

Lemma get_location_same id d x d' : get_file_location_in_tx id d = (x, d') -> d' = d.
Proof.
  unfold get_file_location_in_tx, lift, mbind, tx_mbind, getsR.
  destruct (i64_from_u64 id); by intros [= _ <-].
Qed.

Lemma move_location_sound id epoch root locator at_ :
  validate_relative_locator locator = Ok tt -> 0 <= root ->
  preserves scan_sound (update_file_location_address_in_tx id epoch root locator at_).
Proof.
  intros Hv Hroot d x d' S Ht. unfold update_file_location_address_in_tx in Ht. store_inv.
  destruct (update_row _ _ _ _) as [[l' m]|] eqn:Hu; [|discriminate]. store_inv.
  apply update_row_some in Hu as (l & Hl & Hc & -> & ->).
  rewrite Hl in *. destruct (movable _ _ _ _ _) eqn:Hmov; [|discriminate]. cbn [negb] in *. store_inv.
  match goal with Hx : get_file_location_in_tx _ _ = _ |- _ => apply get_location_same in Hx as -> end.
  apply andb_true_iff in Hc as [_ Hlive].
  assert (fl_retired_at l = None) as Ha by (by destruct (fl_retired_at l)).
  pose proof (live_unattributed _ _ _ S Hl Ha) as Hby.
  unfold movable in Hmov. rewrite !andb_true_iff, orb_true_iff in Hmov.
  destruct Hmov as [[[[_ _] _] _] Hfk].
  apply location_written; [done|intros; congruence| |done|].
  - destruct (sc_locations _ S _ _ Hl) as [L1 L2 L3 L4]. split; cbn; [done|lia|done|].
    intros _. eauto 10.
  - intros s r Hr Hw. cbn. pose proof (location_watermark _ _ _ S Hl s r Hr Hw) as Hroot'.
    destruct Hfk as [Hfk|Hfk%bool_decide_eq_true]; [|congruence].
    exfalso. apply negb_true_iff in Hfk. unfold watermarked in Hfk.
    rewrite existsb_false_iff in Hfk. specialize (Hfk (s, r)). cbn in Hfk.
    rewrite bool_decide_eq_true_2 in Hfk by done.
    discriminate Hfk. by apply list_elem_of_In, elem_of_map_to_list.
Qed.
End locations.

(** ** Commands *)

Inductive ScanCommand : Type :=
  | RequestScan (input : NewScanSession)
  | StartScan (id : Z) (incarnation : NodeIncarnationId) (deadline now : Z)
  | AcceptBatch (new : NewScanObservationBatch)
  | CompleteScan (input : CompleteScanSessionInput)
  | TerminalizeScan (id : Z) (status : ScanSessionStatus) (reason : string) (now : Z)
  | StaleExpired (now : Z)
  | StaleIncarnation (incarnation : NodeIncarnationId) (reason : string) (now : Z)
  | CreateLocation (proof_value : LocationProof -> string) (input : NewFileLocation)
  | RetireLocation (id retired_at expected_epoch : Z)
  | ReplaceLocation (proof_value : LocationProof -> string) (id expected_epoch : Z)
      (input : NewFileLocation) (retired_at : Z)
  | MoveLocation (id expected_epoch root : Z) (locator : string) (observed_at : Z).

(** The types of the arguments: ids that fit their column, locators that were
    validated when the value was built. *)
Definition location_typed (input : NewFileLocation) : Prop :=
  validate_relative_locator (nl_locator input) = Ok tt /\ 0 <= nl_storage_root_id input.
Definition command_typed (c : ScanCommand) : Prop :=
  match c with
  | AcceptBatch new => batch_typed new
  | CompleteScan input => completion_typed input
  | CreateLocation _ input | ReplaceLocation _ _ _ input _ => location_typed input
  | MoveLocation _ _ root locator _ => validate_relative_locator locator = Ok tt /\ 0 <= root
  | _ => True
  end.

Section system.
Context `{Iso8601Laws, EvidenceCodecLaws}.

(** A command in its transaction; the answer matters only as success. *)
Definition scan_run (c : ScanCommand) : SM unit :=
  match c with
  | RequestScan input => atomically (_ ← insert_requested_in_tx input; mret tt)
  | StartScan id inc deadline now => atomically (_ ← start_in_tx id inc deadline now; mret tt)
  | AcceptBatch new => atomically (_ ← accepted_batch_in_tx new; mret tt)
  | CompleteScan input => atomically (_ ← complete_in_tx input; mret tt)
  | TerminalizeScan id status reason now =>
      atomically (_ ← terminalize_in_tx id status reason now; mret tt)
  | StaleExpired now => atomically (_ ← stale_expired_in_tx now; mret tt)
  | StaleIncarnation inc reason now =>
      atomically (_ ← stale_running_for_incarnation_in_tx inc reason now; mret tt)
  | CreateLocation pv input => atomically (_ ← create_file_location_in_tx pv input; mret tt)
  | RetireLocation id at_ epoch => atomically (_ ← retire_file_location_in_tx id at_ epoch; mret tt)
  | ReplaceLocation pv id epoch input at_ =>
      atomically (_ ← replace_file_location_in_tx pv id epoch input at_; mret tt)
  | MoveLocation id epoch root locator at_ =>
      atomically (_ ← update_file_location_address_in_tx id epoch root locator at_; mret tt)
  end.

(** The rest of the program: it registers nodes, versions and incarnations,
    edits library roots and moves commit intents, and leaves the scan tables
    and the locations alone. An incarnation keeps its node. *)
Record elsewhere (d d' : ScanDb) : Prop := {
  el_sessions : scan_sessions d' = scan_sessions d;
  el_batches : scan_batches d' = scan_batches d;
  el_observations : scan_observations d' = scan_observations d;
  el_locations : file_locations d' = file_locations d;
  el_incarnations : node_incarnations_of d ⊆ node_incarnations_of d';
}.

Inductive scan_step : ScanDb -> ScanDb -> Prop :=
  | step_command c d d' :
      command_typed c -> representable d -> (scan_run c d).2 = d' -> scan_step d d'
  | step_elsewhere d d' : elsewhere d d' -> scan_step d d'.

(** A database before any scan. *)
Record scan_initial (d : ScanDb) : Prop := {
  si_sessions : scan_sessions d = ∅;
  si_batches : scan_batches d = ∅;
  si_observations : scan_observations d = ∅;
  si_locations : map_Forall (fun id l => location_ok id l /\ fl_retired_by l = None)
    (file_locations d);
}.

Lemma scan_initial_sound d : scan_initial d -> scan_sound d.
Proof.
  intros [E1 E2 E3 Hl]. split; rewrite ?E1, ?E2, ?E3; try (intros ? *; done).
  - intros s q [? [=]].
  - intros s q o [? [=]].
  - intros id l Hid. exact (proj1 (Hl id l Hid)).
  - intros id l s Hid Hs. rewrite (proj2 (Hl id l Hid)) in Hs. done.
Qed.

(** A transaction keeps what its body keeps. *)
Lemma transaction_sound {A} (m : SM A) d d' :
  preserves scan_sound m -> scan_sound d ->
  (atomically (_ ← m; mret tt) d).2 = d' -> scan_sound d'.
Proof.
  intros Hp S. unfold atomically, mbind, tx_mbind.
  destruct (m d) as [[a|e] d1] eqn:Hm; cbn; intros <-; [|done]. by eapply Hp.
Qed.

Lemma accept_sound new : batch_typed new -> preserves scan_sound (accepted_batch_in_tx new).
Proof.
  intros Hty d a d' S Ha.
  destruct (PreparedBatch_new new) as [p|e] eqn:Hp.
  2:{ unfold accepted_batch_in_tx in Ha. rewrite Hp in Ha. discriminate. }
  rewrite (accept_run d new p S Hty Hp) in Ha. unfold batch_answer in Ha.
  destruct (scan_sessions d !! pb_scan_session_id p) as [r|] eqn:Hr; [|discriminate].
  destruct (scan_batches d !! _); [by injection Ha as _ <-|].
  match type of Ha with context [if ?b then _ else _] => destruct b eqn:Hc; [|discriminate] end.
  injection Ha as _ <-. rewrite !andb_true_iff, bool_decide_eq_true, Z.eqb_eq, Z.leb_le in Hc.
  destruct Hc as [[[Hst Hnext] Hmax] Hfresh].
  eapply batch_written_sound; [done|by apply PreparedBatch_new_ok|done|done|done|exact Hmax|].
  intros x Hx. unfold batch_fresh in Hfresh. rewrite forallb_forall in Hfresh.
  apply negb_true_iff. by apply Hfresh.
Qed.

(** A completion needs its time stamp. *)
Lemma complete_stamped input d x d' :
  complete_in_tx input d = (Ok x, d') -> exists now, iso8601 (co_completed_at input) = Ok now.
Proof.
  intros Hc. destruct (iso8601 (co_completed_at input)) as [now|e] eqn:En; [eauto|exfalso].
  unfold complete_in_tx in Hc.
  repeat (apply tx_bind_ok in Hc as (? & ? & ? & Hc); try destruct (is_some _); try discriminate).
  match goal with Hm : mark_completion_succeeded_in_tx _ _ _ _ = _ |- _ =>
    unfold mark_completion_succeeded_in_tx in Hm; rewrite En in Hm; discriminate end.
Qed.

Lemma completion_answer_ok d input now x d' :
  completion_answer d input now = (Ok x, d') ->
  exists r root, scan_sessions d !! co_scan_session_id input = Some r /\
    ss_status r = ScanRunning /\ held d (co_scan_session_id input) r = false /\
    library_roots d !! ss_storage_root_id r = Some root /\
    x = {| cr_session := session_of (co_scan_session_id input)
                           (succeeded_row d (co_scan_session_id input) r now);
           cr_retired_location_ids := retired_ids d (co_scan_session_id input) r |} /\
    d' = completed d (co_scan_session_id input) r root now.
Proof.
  unfold completion_answer.
  destruct (scan_sessions d !! _) as [r|]; [|discriminate].
  destruct (authority_matches r input); [|discriminate]. cbn [negb].
  destruct (watermark_matches r input); [|discriminate]. cbn [negb orb].
  destruct (held d _ r) eqn:Hh; [discriminate|].
  destruct (library_roots d !! _) as [root|] eqn:Hroot; [|discriminate].
  destruct (_ && _) eqn:Hc; [|discriminate]. rewrite !andb_true_iff, bool_decide_eq_true in Hc.
  intros [= <- <-]. exists r, root. tauto.
Qed.

Lemma complete_sound input d x d' :
  completion_typed input -> representable d -> scan_sound d ->
  complete_in_tx input d = (Ok x, d') -> scan_sound d'.
Proof.
  intros Hty Hrep S Hc. destruct (complete_stamped input d x d' Hc) as [now Hnow].
  pose proof (complete_run d input now S Hrep Hty Hnow) as Hr.
  rewrite (proj2 (atomically_ok _ _ _ _) Hc) in Hr. symmetry in Hr.
  apply completion_answer_ok in Hr as (r & root & Hs & Hst & _ & _ & _ & ->).
  apply completed_sound; [done|done|done|by eapply iso8601_stamped].
Qed.

Lemma location_command_sound c d d' :
  match c with
  | CreateLocation _ _ | RetireLocation _ _ _ | ReplaceLocation _ _ _ _ _
  | MoveLocation _ _ _ _ _ => True | _ => False end ->
  command_typed c -> scan_sound d -> (scan_run c d).2 = d' -> scan_sound d'.
Proof.
  intros Hc Hty S. destruct c; try done; cbn [scan_run command_typed] in *;
    apply transaction_sound; try done.
  - destruct Hty as [Hv Hroot]. intros d0 x d1 S0 Ht. unfold create_file_location_in_tx in Ht.
    store_inv. match goal with Hx : get_file_location_in_tx _ _ = _ |- _ =>
      apply get_location_same in Hx as -> end. by eapply insert_location_sound.
  - intros d0 x d1 S0 Ht. unfold retire_file_location_in_tx in Ht. store_inv.
    match goal with Hx : get_file_location_in_tx _ _ = _ |- _ =>
      apply get_location_same in Hx as -> end. by eapply retire_location_sound.
  - destruct Hty as [Hv Hroot]. intros d0 x d1 S0 Ht. unfold replace_file_location_in_tx in Ht.
    tx_inv. match goal with Hx : get_file_location_in_tx _ _ = _ |- _ =>
      apply get_location_same in Hx as -> end.
    destruct (is_some _); [discriminate|]. destruct (negb _); [discriminate|].
    unfold savepoint in *. match goal with Hx : match ?m ?s with _ => _ end = _ |- _ =>
      destruct (m s) as [[y|?] d2] eqn:Hm; [|discriminate]; injection Hx as <- <- end.
    store_inv. match goal with Hi : insert_file_location _ _ _ _ _ _ _ = _ |- _ =>
      eapply (insert_location_sound _ _ _ _ _ _ Hv Hroot) in Hi; [exact Hi|] end.
    by eapply retire_location_sound.
  - destruct Hty as [Hv Hroot]. by apply move_location_sound.
Qed.

Lemma elsewhere_sound d d' : scan_sound d -> elsewhere d d' -> scan_sound d'.
Proof.
  intros S [Es Eb Eo El Hi]. split; rewrite ?Es, ?El.
  - intros s r Hr. destruct (sc_session d S s r Hr) as [Hc Hk Hv Hw]. split; [done|done| |].
    + unfold owner_incarnation_valid in *. destruct (ss_owner_incarnation_id r); [|done].
      apply bool_decide_eq_true in Hv. apply bool_decide_eq_true. by eapply lookup_weaken.
    + by rewrite El.
  - apply (sc_active d S).
  - intros s r Hr. by eapply (ledger_ok_frame d d' s r), (sc_ledger d S).
  - intros s q. rewrite Eb. apply (sc_batches d S).
  - intros s q o. rewrite Eb, Eo. apply (sc_observations d S).
  - apply (sc_locations d S).
  - intros id l s Hl Hs. destruct (sc_attributed d S id l s Hl Hs) as (r & Hr & Hst & Hrec).
    exists r. split_and!; [done|done|]. by eapply (reconciled_frame d d' s r).
  - intros s r Hr Hst. rewrite (sc_count d S s r Hr Hst). unfold attributed_location_count.
    by rewrite El.
Qed.

Lemma scan_step_sound d d' : scan_sound d -> scan_step d d' -> scan_sound d'.
Proof.
  intros S Hstep. destruct Hstep as [c d0 d1 Hty Hrep Hrun|d0 d1 He]; [|by eapply elsewhere_sound].
  pose proof (location_command_sound c d0 d1) as Hloc.
  destruct c; try (by apply Hloc); clear Hloc; cbn [scan_run command_typed] in *.
  4:{ revert Hrun. unfold atomically, mbind, tx_mbind.
      destruct (complete_in_tx input d0) as [[x|e] d2] eqn:Hc; cbn; intros <-; [|done].
      by eapply complete_sound. }
  all: revert Hrun; apply transaction_sound; [|done].
  - apply insert_requested_sound.
  - apply start_sound.
  - by apply accept_sound.
  - apply terminalize_sound.
  - unfold stale_expired_in_tx. apply stale_sound. done.
  - unfold stale_running_for_incarnation_in_tx. apply stale_sound. intros r. unfold active. by intros ->%bool_decide_eq_true.
Qed.
End system.
