(* ===== verification/ScanSpec.v ===== *)
(** * What a scan promises

    The scan tables implement a simpler machine. A traversal is a root, a
    status, a watermark and a list of batches, each a request hash and the
    locators it reported: there are no counters, no row numbering, no predecessor
    links and no ordinals. The tables refine this machine, and what holds of it
    (the batches only grow, an ended traversal never changes, a retired
    location was not seen) holds of the tables. *)

From S2P Require Import Prelude Json Vocab Operations Store Locators Scans Locations.
From S2P Require Import ScanLedger ScanBatches ScanCompletion ScanReconcile ScanSystem.
From Stdlib Require Import ZArith Lia Bool String Ascii.
From stdpp Require Import base gmap strings list sorting relations.

Open Scope string_scope.
Open Scope Z_scope.

Module Spec.

Record Traversal := {
  tv_root : Z; tv_status : ScanSessionStatus; tv_watermark : option Z;
  tv_batches : list (string * list string);
}.
Record State := { traversals : gmap Z Traversal; catalogue : gmap Z LocationRow }.

Definition locators (bs : list (string * list string)) : list string := concat bs.*2.
Definition seen (t : Traversal) : list string := locators (tv_batches t).

Definition with_status (st : ScanSessionStatus) (t : Traversal) : Traversal := {|
  tv_root := tv_root t; tv_status := st; tv_watermark := tv_watermark t;
  tv_batches := tv_batches t |}.
Definition started (hw : option Z) (t : Traversal) : Traversal := {|
  tv_root := tv_root t; tv_status := ScanRunning; tv_watermark := hw;
  tv_batches := tv_batches t |}.
Definition appended (hash : string) (locs : list string) (t : Traversal) : Traversal := {|
  tv_root := tv_root t; tv_status := tv_status t; tv_watermark := tv_watermark t;
  tv_batches := tv_batches t ++ [(hash, locs)] |}.

Definition put (s : Z) (t : Traversal) (σ : State) : State := {|
  traversals := <[s := t]> (traversals σ); catalogue := catalogue σ |}.

(** The answer to a batch: how many locators it has and how many were reported
    up to it. *)
Definition accept (s : Z) (q : nat) (hash : string) (locs : list string) (σ : State) :
    Res (nat * nat) * State :=
  match traversals σ !! s with
  | None => (Err ENotFound, σ)
  | Some t =>
      match tv_batches t !! q with
      | Some (h, ls) =>
          (if String.eqb h hash
           then Ok (List.length ls, List.length (locators (take (S q) (tv_batches t))))
           else Err EConflict, σ)
      | None =>
          if bool_decide (tv_status t = ScanRunning) && (q =? List.length (tv_batches t))%nat &&
             (Z.of_nat (List.length (seen t ++ locs)) <=? MAX_SCAN_SESSION_OBSERVATIONS) &&
             forallb (fun x => bool_decide (x ∉ seen t)) locs
          then (Ok (List.length locs, List.length (seen t ++ locs)), put s (appended hash locs t) σ)
          else (Err EConflict, σ)
      end
  end.

(** The locations completion retires. *)
Definition unseen (t : Traversal) (id : Z) (l : LocationRow) : bool :=
  live_rooted (tv_root t) l && match tv_watermark t with Some h => id <=? h | None => false end &&
  negb match fl_locator l with Some loc => bool_decide (loc ∈ seen t) | None => false end.

Definition complete (s : Z) (t : Traversal) (now : string) (σ : State) : State := {|
  traversals := <[s := with_status ScanSucceeded t]> (traversals σ);
  catalogue := update_where (unseen t) (location_retired now s) (catalogue σ) |}.

(** The greatest live location of a root. *)
Definition watermark (m : gmap Z LocationRow) (root : Z) (hw : option Z) : Prop :=
  (forall id l, m !! id = Some l -> live_rooted root l = true ->
     exists h, hw = Some h /\ id <= h) /\
  (forall h, hw = Some h -> exists l, m !! h = Some l /\ live_rooted root l = true).

Inductive step : State -> State -> Prop :=
  | step_request s root σ :
      traversals σ !! s = None ->
      (forall k t, traversals σ !! k = Some t -> active_status (tv_status t) = true ->
        tv_root t <> root) ->
      step σ (put s {| tv_root := root; tv_status := ScanRequested; tv_watermark := None;
                       tv_batches := [] |} σ)
  | step_start s t hw σ :
      traversals σ !! s = Some t -> tv_status t = ScanRequested ->
      watermark (catalogue σ) (tv_root t) hw ->
      step σ (put s (started hw t) σ)
  | step_accept s q hash locs answer σ σ' :
      locs <> [] -> NoDup locs -> accept s q hash locs σ = (Ok answer, σ') -> step σ σ'
  | step_end s t st σ :
      traversals σ !! s = Some t -> active_status (tv_status t) = true ->
      st ∈ [ScanFailed; ScanCancelled; ScanStale] ->
      step σ (put s (with_status st t) σ)
  | step_complete s t now σ :
      traversals σ !! s = Some t -> tv_status t = ScanRunning -> step σ (complete s t now σ)
  | step_catalogue m σ :
      (forall id l, catalogue σ !! id = Some l -> is_Some (fl_retired_at l) -> m !! id = Some l) ->
      (forall id l, m !! id = Some l -> is_Some (fl_retired_by l) -> catalogue σ !! id = Some l) ->
      (forall id, is_Some (catalogue σ !! id) -> is_Some (m !! id)) ->
      step σ {| traversals := traversals σ; catalogue := m |}.

(** *** What the machine never undoes *)

Record extends (t t' : Traversal) : Prop := {
  ex_root : tv_root t' = tv_root t;
  ex_batches : tv_batches t `prefix_of` tv_batches t';
  ex_ended : active_status (tv_status t) = false -> t' = t;
}.

Record later (σ σ' : State) : Prop := {
  lt_traversals : forall s t, traversals σ !! s = Some t ->
    exists t', traversals σ' !! s = Some t' /\ extends t t';
  lt_retired : forall id l, catalogue σ !! id = Some l -> is_Some (fl_retired_at l) ->
    catalogue σ' !! id = Some l;
}.

#[global] Instance extends_refl : Reflexive extends.
Proof. intros t. by split. Qed.
#[global] Instance extends_trans : Transitive extends.
Proof.
  intros t1 t2 t3 [A1 A2 A3] [B1 B2 B3]. split; [congruence|by etrans|].
  intros Ha. pose proof (A3 Ha) as ->. by apply B3.
Qed.
#[global] Instance later_refl : Reflexive later.
Proof. intros σ. split; [|done]. intros s t Hs. by exists t. Qed.
#[global] Instance later_trans : Transitive later.
Proof.
  intros σ1 σ2 σ3 [A1 A2] [B1 B2]. split; [|eauto].
  intros s t (t2 & H2 & E2)%A1. apply B1 in H2 as (t3 & H3 & E3).
  exists t3. split; [done|by etrans].
Qed.

Lemma put_later s t t' σ : traversals σ !! s = Some t -> extends t t' -> later σ (put s t' σ).
Proof.
  intros Hs He. split; [|done]. intros k x Hk. cbn. destruct (decide (s = k)) as [->|Hne].
  - rewrite lookup_insert_eq. exists t'. split; [done|]. congruence.
  - rewrite lookup_insert_ne by done. by exists x.
Qed.

Lemma appended_extends hash locs t :
  active_status (tv_status t) = true -> extends t (appended hash locs t).
Proof. intros Ha. split; [done|by eexists|]. by rewrite Ha. Qed.

Lemma accept_later s q hash locs σ answer σ' :
  accept s q hash locs σ = (Ok answer, σ') -> later σ σ'.
Proof.
  unfold accept. destruct (traversals σ !! s) as [t|] eqn:Hs; [|done].
  destruct (tv_batches t !! q) as [[h ls]|].
  - destruct (String.eqb h hash); [|done]. by intros [= _ <-].
  - destruct (_ && _ && _ && _) eqn:Hc; [|done]. intros [= _ <-].
    rewrite !andb_true_iff, bool_decide_eq_true in Hc. destruct Hc as [[[Hr _] _] _].
    eapply put_later; [done|]. apply appended_extends. by rewrite Hr.
Qed.

Lemma complete_later s t now σ :
  traversals σ !! s = Some t -> tv_status t = ScanRunning -> later σ (complete s t now σ).
Proof.
  intros Hs Hr. split.
  - destruct (put_later s t (with_status ScanSucceeded t) σ Hs) as [Hp _]; [|exact Hp].
    split; [done|done|]. by rewrite Hr.
  - intros id l Hl Hret. cbn. rewrite update_where_lookup, Hl. cbn. unfold unseen, live_rooted.
    destruct Hret as [x ->]. cbn. by rewrite andb_false_r.
Qed.

Lemma step_later σ σ' : step σ σ' -> later σ σ'.
Proof.
  intros [s root σ0 Hn Ha|s t hw σ0 Hs Hr Hw|s q hash locs answer σ0 σ1 Hne Hnd Hacc
         |s t st σ0 Hs Ha Hst|s t now σ0 Hs Hr|m σ0 H1 H2 H3].
  - split; [|done]. intros k x Hk. cbn. rewrite lookup_insert_ne by congruence. by exists x.
  - eapply put_later; [done|]. split; [done|done|]. by rewrite Hr.
  - by eapply accept_later.
  - eapply put_later; [done|]. split; [done|done|]. by rewrite Ha.
  - by apply complete_later.
  - split; [|done]. intros s t Hs. by exists t.
Qed.

Lemma steps_later σ σ' : rtc step σ σ' -> later σ σ'.
Proof. induction 1 as [|σ1 σ2 σ3 Hs _ IH]; [done|]. etrans; [by apply step_later|done]. Qed.
End Spec.

(** ** The tables seen as the machine *)

Definition recorded (d : ScanDb) (s q : Z) : string * list string :=
  match scan_batches d !! (s, q) with
  | Some b => (sb_request_hash b,
      omap (fun o => so_locator <$> scan_observations d !! (s, q, o))
        (seqZ 0 (sb_observation_count b)))
  | None => ("", [])
  end.

Definition traversal (d : ScanDb) (s : Z) (r : ScanSessionRow) : Spec.Traversal := {|
  Spec.tv_root := ss_storage_root_id r; Spec.tv_status := ss_status r;
  Spec.tv_watermark := ss_location_high_watermark_id r;
  Spec.tv_batches := map (recorded d s) (seqZ 0 (ss_next_sequence r)) |}.

Definition view (d : ScanDb) : Spec.State := {|
  Spec.traversals := map_imap (fun s r => Some (traversal d s r)) (scan_sessions d);
  Spec.catalogue := file_locations d |}.

Lemma view_traversal d s : Spec.traversals (view d) !! s = traversal d s <$> scan_sessions d !! s.
Proof. cbn. rewrite map_lookup_imap. by destruct (scan_sessions d !! s). Qed.

Section view.
Context `{Iso8601Laws, EvidenceCodecLaws}.

(** *** The batches of the view *)

Section ledger.
Variables (d : ScanDb) (s : Z) (r : ScanSessionRow).
Hypothesis (L : ledger_ok d s r).
Hypothesis (Hcheck : session_check r = true).

Lemma view_bounds : 0 <= ss_next_sequence r.
Proof. pose proof (session_check_bounds r Hcheck). lia. Qed.

Lemma view_lookup (q : nat) :
  Spec.tv_batches (traversal d s r) !! q =
  if decide (Z.of_nat q < ss_next_sequence r) then Some (recorded d s (Z.of_nat q)) else None.
Proof.
  pose proof view_bounds. cbn. rewrite map_fmap_lookup.
  destruct (decide (Z.of_nat q < ss_next_sequence r)).
  - by rewrite (proj2 (lookup_seqZ _ _ _ (Z.of_nat q))) by lia.
  - by rewrite lookup_seqZ_ge by lia.
Qed.

Lemma view_length : Z.of_nat (List.length (Spec.tv_batches (traversal d s r))) = ss_next_sequence r.
Proof. pose proof view_bounds. cbn. rewrite length_map, length_seqZ. lia. Qed.

Lemma recorded_length q b :
  scan_batches d !! (s, q) = Some b ->
  Z.of_nat (List.length (recorded d s q).2) = sb_observation_count b.
Proof.
  intros Hb. unfold recorded. rewrite Hb. cbn.
  pose proof (bk_count _ _ _ _ (lg_batch _ _ _ L _ _ Hb)) as Hc.
  assert (forall o, o ∈ seqZ 0 (sb_observation_count b) ->
    is_Some (scan_observations d !! (s, q, o))) as Hall.
  { intros o Ho%elem_of_seqZ. apply (lg_observations _ _ _ L). exists b. split; [done|lia]. }
  assert (List.length (omap (fun o => so_locator <$> scan_observations d !! (s, q, o))
    (seqZ 0 (sb_observation_count b))) = List.length (seqZ 0 (sb_observation_count b))) as ->.
  { induction (seqZ 0 (sb_observation_count b)) as [|o l IH]; [done|]. cbn.
    destruct (Hall o) as [row Hrow]; [by left|]. rewrite Hrow. cbn. f_equal. apply IH.
    intros o' Ho'. apply Hall. by right. }
  rewrite length_seqZ. lia.
Qed.

(** The running total is the number of locators reported so far. *)
Lemma view_total (n : nat) :
  Z.of_nat n <= ss_next_sequence r ->
  Z.of_nat (List.length (Spec.locators (map (recorded d s) (seqZ 0 (Z.of_nat n))))) =
  cumulative_before d s (Z.of_nat n).
Proof.
  induction n as [|n IH]; intros Hn; [done|].
  rewrite seqZ_S. replace (Z.of_nat (S n)) with (Z.of_nat n + 1) by lia.
  destruct (proj2 (lg_range _ _ _ L (Z.of_nat n))) as [b Hb]; [lia|].
  pose proof (lg_batch _ _ _ L _ _ Hb) as [_ _ _ _ B5].
  unfold Spec.locators in *. rewrite map_app, fmap_app, concat_app, length_app, Nat2Z.inj_add, IH by lia.
  cbn. rewrite app_nil_r, (recorded_length _ b) by done.
  by rewrite (cumulative_step d s (Z.of_nat n) b) by (done || lia).
Qed.

Lemma recorded_in q loc :
  loc ∈ (recorded d s q).2 <->
  exists o row, scan_observations d !! (s, q, o) = Some row /\ so_locator row = loc.
Proof.
  unfold recorded. destruct (scan_batches d !! (s, q)) as [b|] eqn:Hb; cbn.
  - rewrite list_elem_of_omap. split.
    + intros (o & _ & E). destruct (scan_observations d !! (s, q, o)) eqn:Ho; [|done].
      cbn in E. injection E as <-. eauto.
    + intros (o & row & Hrow & <-). exists o. rewrite Hrow. split; [|done].
      destruct (proj1 (lg_observations _ _ _ L q o)) as (b' & Hb' & Ho); [eauto|].
      apply elem_of_seqZ. replace b' with b in Ho by congruence. lia.
  - split; [by intros ?%elem_of_nil|]. intros (o & row & Hrow & _).
    destruct (proj1 (lg_observations _ _ _ L q o)) as (b' & Hb' & _); [eauto|congruence].
Qed.

Lemma view_seen loc : loc ∈ Spec.seen (traversal d s r) <-> locator_observed d s loc = true.
Proof.
  rewrite locator_observed_spec. unfold Spec.seen, Spec.locators. cbn.
  rewrite list_elem_of_In, in_concat. split.
  - intros (ls & Hls & Hin). apply list_elem_of_In, list_elem_of_fmap in Hls as (rec & -> & Hrec).
    apply list_elem_of_In, in_map_iff in Hrec as (q & <- & _).
    apply list_elem_of_In, recorded_in in Hin as (o & row & ? & ?). eauto.
  - intros (q & o & row & Hrow & E). exists (recorded d s q).2. split.
    + apply list_elem_of_In, list_elem_of_fmap. eexists. split; [done|].
      apply list_elem_of_In, in_map_iff. exists q. split; [done|]. apply list_elem_of_In, elem_of_seqZ.
      destruct (proj1 (lg_observations _ _ _ L q o)) as (b & Hb & _); [eauto|].
      apply (ledger_batch_range d s r L) in Hb. lia.
    + apply list_elem_of_In, recorded_in. eauto.
Qed.

Lemma view_seen_length :
  Z.of_nat (List.length (Spec.seen (traversal d s r))) = ss_observation_count r.
Proof.
  pose proof view_bounds. unfold Spec.seen. cbn [traversal Spec.tv_batches].
  pose proof (view_total (Z.to_nat (ss_next_sequence r))) as Ht. rewrite Z2Nat.id in Ht by lia.
  rewrite Ht by lia. by rewrite <- (lg_total _ _ _ L).
Qed.

Lemma take_seqZ (n m : nat) : (n <= m)%nat -> take n (seqZ 0 (Z.of_nat m)) = seqZ 0 (Z.of_nat n).
Proof.
  intros Hle. replace (Z.of_nat m) with (Z.of_nat n + Z.of_nat (m - n)) by lia.
  rewrite seqZ_app by lia. apply take_app_length'. rewrite length_seqZ. lia.
Qed.

Lemma view_prefix_length (q : nat) b :
  scan_batches d !! (s, Z.of_nat q) = Some b ->
  Z.of_nat (List.length (Spec.locators (take (S q) (Spec.tv_batches (traversal d s r))))) =
  sb_cumulative b.
Proof.
  intros Hb. pose proof view_bounds. pose proof (ledger_batch_range d s r L _ _ Hb) as Hq.
  cbn [traversal Spec.tv_batches]. rewrite <- (Z2Nat.id (ss_next_sequence r)) by done.
  rewrite firstn_map, take_seqZ, view_total by lia.
  replace (Z.of_nat (S q)) with (Z.of_nat q + 1) by lia.
  rewrite (cumulative_step d s (Z.of_nat q) b) by (done || lia).
  by rewrite (bk_cumulative _ _ _ _ (lg_batch _ _ _ L _ _ Hb)).
Qed.
End ledger.

(** *** The view of a written batch *)

Lemma omap_ext_in {A B} (f g : A -> option B) (l : list A) :
  (forall x, x ∈ l -> f x = g x) -> omap f l = omap g l.
Proof.
  induction l as [|x l IH]; intros Hf; [done|]. cbn. rewrite (Hf x) by (by left).
  rewrite IH; [done|]. intros y Hy. apply Hf. by right.
Qed.

Lemma omap_rows {A B} (f : A -> B) (rows : list A) : forall pre,
  omap (fun o => f <$> (pre ++ rows)%list !! Z.to_nat o)
    (seqZ (Z.of_nat (List.length pre)) (Z.of_nat (List.length rows))) = map f rows.
Proof.
  induction rows as [|x rows IH]; intros pre; [done|].
  cbn [List.length]. rewrite seqZ_cons by lia. cbn [omap list_omap].
  rewrite Nat2Z.id, list_lookup_middle by done. cbn [fmap option_fmap option_map map]. f_equal.
  specialize (IH (pre ++ [x])%list). rewrite length_app in IH. cbn [List.length] in IH.
  rewrite <- app_assoc in IH. cbn [app] in IH.
  replace (Z.succ (Z.of_nat (List.length pre))) with (Z.of_nat (List.length pre + 1)) by lia.
  replace (Z.pred (Z.of_nat (S (List.length rows)))) with (Z.of_nat (List.length rows)) by lia.
  exact IH.
Qed.

Section accept.
Variables (d : ScanDb) (new : NewScanObservationBatch) (p : PreparedBatch) (r : ScanSessionRow).
Hypotheses (Hprep : prepared new p).
Abbreviation s := (pb_scan_session_id p).
Abbreviation q := (pb_sequence p).

Lemma recorded_old s' q' :
  (s', q') <> (s, q) -> recorded (batch_written d p r) s' q' = recorded d s' q'.
Proof.
  intros Hne. unfold recorded.
  change (scan_batches (batch_written d p r) !! (s', q')) with
    (<[(s, q) := batch_row p (ss_observation_count r + pb_observation_count p)]>
       (scan_batches d) !! (s', q')).
  rewrite lookup_insert_ne by congruence. destruct (scan_batches d !! (s', q')); [|done].
  f_equal. apply omap_ext_in. intros o _.
  by rewrite written_observation, decide_False by (by intros [? _]).
Qed.

Lemma recorded_new :
  recorded (batch_written d p r) s q = (pb_request_hash p, map so_locator (pb_observations p)).
Proof.
  unfold recorded.
  change (scan_batches (batch_written d p r) !! (s, q)) with
    (<[(s, q) := batch_row p (ss_observation_count r + pb_observation_count p)]>
       (scan_batches d) !! (s, q)).
  rewrite lookup_insert_eq. cbn [batch_row sb_request_hash sb_observation_count]. f_equal.
  rewrite <- (omap_rows so_locator (pb_observations p) []), (pr_count _ _ Hprep).
  apply omap_ext_in. intros o Ho%elem_of_seqZ.
  rewrite written_observation, decide_True by (split; [done|cbn in Ho; lia]). done.
Qed.

Lemma view_written :
  ss_next_sequence r = q -> 0 <= q ->
  view (batch_written d p r) =
  Spec.put s (Spec.appended (pb_request_hash p) (map so_locator (pb_observations p))
    (traversal d s r)) (view d).
Proof.
  intros Hnext Hq. unfold view, Spec.put. cbn [Spec.catalogue]. f_equal. apply map_eq. intros k.
  rewrite map_lookup_imap. cbn [Spec.traversals].
  change (scan_sessions (batch_written d p r)) with
    (<[s := progressed_row (q + 1) (q + 1) (ss_observation_count r + pb_observation_count p)
         (pb_next_progress_deadline_at p) r]> (scan_sessions d)).
  destruct (decide (k = s)) as [->|Hne].
  - rewrite !lookup_insert_eq. cbn [mbind option_bind]. f_equal. unfold traversal, Spec.appended.
    cbn. f_equal. rewrite Hnext. replace (q + 1) with (Z.of_nat (S (Z.to_nat q))) by lia.
    rewrite seqZ_S, map_app. cbn. rewrite Z2Nat.id by done. f_equal.
    + apply map_ext_in. intros q' Hq'%list_elem_of_In%elem_of_seqZ. apply recorded_old.
      intros [= E]. lia.
    + by rewrite Z.add_0_l, recorded_new.
  - rewrite !lookup_insert_ne, map_lookup_imap by done. destruct (scan_sessions d !! k); [|done].
    cbn. f_equal. unfold traversal. f_equal. apply map_ext. intros q'. apply recorded_old.
    congruence.
Qed.
End accept.

(** An outcome of the repository as an answer of the machine. *)
Definition batch_reply (res : Res ScanBatchOutcome) : Res (nat * nat) :=
  o ← res; Ok (Z.to_nat (bo_accepted o), Z.to_nat (bo_cumulative o)).

Lemma fresh_unseen d p r :
  ledger_ok d (pb_scan_session_id p) r ->
  forallb (fun x => bool_decide (x ∉ Spec.seen (traversal d (pb_scan_session_id p) r)))
    (map so_locator (pb_observations p)) = batch_fresh d p.
Proof.
  intros L. unfold batch_fresh. induction (pb_observations p) as [|x l IH]; [done|].
  cbn [map forallb]. rewrite IH. f_equal. apply bool_iff. rewrite bool_decide_eq_true, view_seen by done.
  by rewrite negb_true_iff, not_true_iff_false.
Qed.

Lemma accept_refined d new p res d' :
  scan_sound d -> batch_typed new -> PreparedBatch_new new = Ok p ->
  accepted_batch_in_tx new d = (res, d') ->
  Spec.accept (pb_scan_session_id p) (Z.to_nat (pb_sequence p)) (pb_request_hash p)
    (map so_locator (pb_observations p)) (view d) = (batch_reply res, view d').
Proof.
  intros S Hty Hp Ha. rewrite (accept_run d new p S Hty Hp) in Ha.
  pose proof (PreparedBatch_new_ok new p Hty Hp) as Hprep.
  unfold batch_answer in Ha. unfold Spec.accept. rewrite view_traversal.
  destruct (scan_sessions d !! pb_scan_session_id p) as [r|] eqn:Hr;
    cbn [fmap option_fmap option_map]; [|by injection Ha as <- <-].
  pose proof (sc_ledger d S _ _ Hr) as L.
  pose proof (so_check _ _ _ (sc_session d S _ _ Hr)) as Hck.
  destruct (pr_sequence _ _ Hprep) as [_ Hq].
  rewrite view_lookup, Z2Nat.id by (done || lia).
  destruct (scan_batches d !! (pb_scan_session_id p, pb_sequence p)) as [b|] eqn:Hb.
  - rewrite decide_True by (apply (ledger_batch_range d _ r L) in Hb; lia).
    pose proof (recorded_length d _ r L _ b Hb) as Hlen.
    pose proof (view_prefix_length d _ r L Hck (Z.to_nat (pb_sequence p)) b) as Hpre.
    rewrite Z2Nat.id in Hpre by lia. specialize (Hpre Hb).
    unfold recorded in *. rewrite Hb in Hlen |- *. cbn [snd] in Hlen.
    injection Ha as <- <-. destruct (String.eqb _ _); [|done].
    cbn [batch_reply outcome_of bo_accepted bo_cumulative mbind result_mbind].
    do 3 f_equal; lia.
  - assert (~ pb_sequence p < ss_next_sequence r) as Hge.
    { intros Hlt. destruct (proj2 (lg_range _ _ _ L (pb_sequence p))); [lia|congruence]. }
    rewrite decide_False by done. rewrite fresh_unseen by done.
    rewrite length_app, length_map, Nat2Z.inj_add, view_seen_length, <- (pr_count _ _ Hprep) by done.
    pose proof (view_length d (pb_scan_session_id p) r Hck) as Hlen.
    assert ((Z.to_nat (pb_sequence p) =? List.length (Spec.tv_batches
        (traversal d (pb_scan_session_id p) r)))%nat = (ss_next_sequence r =? pb_sequence p)) as ->.
    { apply bool_iff. rewrite Nat.eqb_eq, Z.eqb_eq. lia. }
    destruct (_ && _ && _ && _) eqn:Hc; injection Ha as <- <-; [|done].
    rewrite !andb_true_iff, Z.eqb_eq in Hc. destruct Hc as [[[_ Hnext] _] _].
    rewrite (view_written d new p r Hprep Hnext) by lia.
    cbn [batch_reply outcome_of bo_accepted bo_cumulative mbind result_mbind batch_row
      sb_observation_count sb_cumulative].
    pose proof (view_seen_length d _ r L Hck). pose proof (pr_count _ _ Hprep).
    do 3 f_equal; lia.
Qed.
End view.
