(* ===== verification/ScanRefine.v ===== *)
(** * The scan tables refine the machine

    Every transition of the tables is a sequence of transitions of the machine
    of [ScanSpec]; what the machine never does, the tables never do. *)

From S2P Require Import Prelude Json Vocab Operations Store Locators Scans Locations.
From S2P Require Import ScanLedger ScanBatches ScanCompletion ScanReconcile ScanSystem ScanSpec.
From Stdlib Require Import ZArith Lia Bool String Ascii.
From stdpp Require Import base gmap strings list sorting relations.

Open Scope string_scope.
Open Scope Z_scope.

Section refine.
Context `{Iso8601Laws, EvidenceCodecLaws}.

Lemma view_session d s r' :
  view (set_scan_sessions (<[s := r']> (scan_sessions d)) d) = Spec.put s (traversal d s r') (view d).
Proof.
  unfold view, Spec.put. cbn [Spec.catalogue Spec.traversals]. f_equal.
  by apply (map_imap_insert_Some (fun s r => Some (traversal d s r))).
Qed.

(** *** Session commands *)

Lemma request_refines input d s d' :
  insert_requested_in_tx input d = (Ok s, d') -> Spec.step (view d) (view d').
Proof.
  intros (ds & ts & _ & _ & _ & Hel & _ & ->)%insert_requested_ok. rewrite view_session.
  pose proof (next_rowid_fresh (scan_sessions d)) as Hfresh.
  apply (Spec.step_request _ (ns_storage_root_id input)).
  - by rewrite view_traversal, Hfresh.
  - intros k t Hk Ha. rewrite view_traversal in Hk.
    destruct (scan_sessions d !! k) as [x|] eqn:Hx; [|done]. injection Hk as <-.
    by eapply (requested_alone d _ _ Hfresh Hel k x).
Qed.

Lemma high_watermark_spec d root : Spec.watermark (file_locations d) root (high_watermark d root).
Proof.
  unfold high_watermark. set (rows := select_asc (fun _ l => live_rooted root l) (file_locations d)).
  assert (StronglySorted (fun x y => x.1 < y.1) rows) as Hs by apply select_asc_sorted.
  assert (forall id l, In (id, l) rows <-> file_locations d !! id = Some l /\ live_rooted root l = true)
    as Hin
    by exact (select_asc_in (fun _ l => live_rooted root l) (file_locations d)).
  destruct (last rows) as [[h lh]|] eqn:Hl.
  - apply last_Some in Hl as [pre E]. rewrite E in Hs, Hin.
    apply StronglySorted_app in Hs as (Hlt & _ & _). split.
    + intros id l Hid Hlive. exists h. split; [done|].
      assert (In (id, l) (pre ++ [(h, lh)])) as [Hx|Hx]%in_app_or by (by apply Hin).
      * apply Z.lt_le_incl.
        exact (Hlt (id, l) (h, lh) (proj2 (list_elem_of_In _ _) Hx) (list_elem_of_here _ _)).
      * destruct Hx as [[= <- <-]|[]]. lia.
    + intros h' [= <-]. exists lh. apply Hin, in_or_app. right. by left.
  - apply last_None in Hl. split; [|done]. intros id l Hid Hlive.
    assert (In (id, l) rows) as Hx by (by apply Hin). by rewrite Hl in Hx.
Qed.

Lemma start_refines id inc deadline now d s d' :
  start_in_tx id inc deadline now d = (Ok s, d') -> Spec.step (view d) (view d').
Proof.
  intros (r & ds & ts & Hr & Hst & _ & _ & _ & _ & _ & ->)%start_ok. rewrite view_session.
  apply (Spec.step_start id (traversal d id r) (high_watermark d (ss_storage_root_id r))).
  - by rewrite view_traversal, Hr.
  - done.
  - apply high_watermark_spec.
Qed.

Lemma end_refines d k r status reason ts :
  scan_sessions d !! k = Some r -> active r -> status ∈ [ScanFailed; ScanCancelled; ScanStale] ->
  Spec.step (view d) (view (set_scan_sessions
    (<[k := terminal_row status (Some reason) (ss_retired_location_count r) ts r]>
      (scan_sessions d)) d)).
Proof.
  intros Hr Ha Hst. rewrite view_session.
  apply (Spec.step_end k (traversal d k r) status); [|done|done]. by rewrite view_traversal, Hr.
Qed.

Lemma stale_refines candidates pick reason now d l d' :
  (forall r, candidates r = true -> active r) ->
  stale_sessions candidates pick reason now d = (Ok l, d') -> rtc Spec.step (view d) (view d').
Proof.
  intros Hcand (ts & hits & [(_ & Hnd & Hhits & ->)| ->])%stale_ok; [|constructor].
  revert d Hhits; induction hits as [|[k r] hits IH]; intros d Hhits; [by destruct d|].
  cbn in Hnd. apply NoDup_cons in Hnd as [Hk Hnd]. cbn [map foldl fst snd].
  destruct (Hhits k r) as (Hr & Hc & _); [by left|].
  eapply rtc_l; [by eapply (end_refines d k r ScanStale reason ts); [|apply Hcand|set_solver]|].
  rewrite <- (set_sessions_twice _ (<[k := terminal_row ScanStale (Some reason)
    (ss_retired_location_count r) ts r]> (scan_sessions d)) d).
  apply (IH Hnd (set_scan_sessions _ d)). intros k2 r2 Hin.
  destruct (Hhits k2 r2) as (Hr2 & Hrest); [by right|]. split; [|done].
  cbn. rewrite lookup_insert_ne; [done|]. intros ->. apply Hk, list_elem_of_fmap.
  exists (k2, r2). split; [done|by apply list_elem_of_In].
Qed.

Lemma accept_steps new d a d' :
  batch_typed new -> scan_sound d -> accepted_batch_in_tx new d = (Ok a, d') ->
  Spec.step (view d) (view d').
Proof.
  intros Hty S Ha. destruct (PreparedBatch_new new) as [p|e] eqn:Hp.
  2:{ unfold accepted_batch_in_tx in Ha. by rewrite Hp in Ha. }
  pose proof (accept_refined d new p (Ok a) d' S Hty Hp Ha) as Hs.
  pose proof (PreparedBatch_new_ok new p Hty Hp) as Hprep.
  eapply Spec.step_accept; [| |exact Hs]; [|exact (pr_distinct _ _ Hprep)].
  pose proof (pr_range _ _ Hprep). pose proof (pr_count _ _ Hprep).
  destruct (pb_observations p); [cbn in *; lia|done].
Qed.

Lemma retires_unseen d s r id l :
  ledger_ok d s r -> retires d s r id l = Spec.unseen (traversal d s r) id l.
Proof.
  intros L. unfold retires, unobserved, Spec.unseen. do 2 f_equal.
  destruct (fl_locator l) as [loc|]; [|done]. apply bool_iff.
  by rewrite bool_decide_eq_true, view_seen.
Qed.

Lemma complete_steps input d x d' :
  completion_typed input -> representable d -> scan_sound d ->
  complete_in_tx input d = (Ok x, d') -> Spec.step (view d) (view d').
Proof.
  intros Hty Hrep S Hc. destruct (complete_stamped input d x d' Hc) as [now Hnow].
  pose proof (complete_run d input now S Hrep Hty Hnow) as Hr.
  rewrite (proj2 (atomically_ok _ _ _ _) Hc) in Hr. symmetry in Hr.
  apply completion_answer_ok in Hr as (r & root & Hs & Hst & _ & _ & _ & ->).
  set (s := co_scan_session_id input) in *. pose proof (sc_ledger d S s r Hs) as L.
  assert (view (completed d s r root now) = Spec.complete s (traversal d s r) now (view d)) as ->.
  { unfold view, Spec.complete. cbn [Spec.traversals Spec.catalogue]. f_equal.
    - by apply (map_imap_insert_Some (fun s r => Some (traversal d s r))).
    - cbn. unfold update_where. apply map_imap_ext. intros id. destruct (file_locations d !! id) as [l|]; [|done].
      cbn. by rewrite retires_unseen. }
  apply Spec.step_complete; [by rewrite view_traversal, Hs|done].
Qed.
(** *** Location commands *)

(** Retired rows stay as they are, no location vanishes, none is attributed. *)
Record catalogue_grows (m m' : gmap Z LocationRow) : Prop := {
  cg_retired : forall id l, m !! id = Some l -> is_Some (fl_retired_at l) -> m' !! id = Some l;
  cg_attributed : forall id l, m' !! id = Some l -> is_Some (fl_retired_by l) -> m !! id = Some l;
  cg_kept : forall id, is_Some (m !! id) -> is_Some (m' !! id);
}.

Lemma catalogue_trans m1 m2 m3 :
  catalogue_grows m1 m2 -> catalogue_grows m2 m3 -> catalogue_grows m1 m3.
Proof. intros [A1 A2 A3] [B1 B2 B3]. split; eauto. Qed.

Lemma catalogue_insert m id l' :
  (forall l, m !! id = Some l -> fl_retired_at l = None) -> fl_retired_by l' = None ->
  catalogue_grows m (<[id := l']> m).
Proof.
  intros Hold Hby. split.
  - intros k l Hk [t Ht]. rewrite lookup_insert_ne; [done|]. intros ->. by rewrite (Hold l Hk) in Ht.
  - intros k l Hk [t Ht]. destruct (decide (id = k)) as [->|Hne].
    + rewrite lookup_insert_eq in Hk. congruence.
    + by rewrite lookup_insert_ne in Hk.
  - intros k Hk. destruct (decide (id = k)) as [->|Hne].
    + rewrite lookup_insert_eq. eauto.
    + by rewrite lookup_insert_ne.
Qed.

(** What a location writer leaves: the scan tables, and a grown catalogue. *)
Record catalogue_only (d d' : ScanDb) : Prop := {
  ca_sessions : scan_sessions d' = scan_sessions d;
  ca_batches : scan_batches d' = scan_batches d;
  ca_observations : scan_observations d' = scan_observations d;
  ca_grows : catalogue_grows (file_locations d) (file_locations d');
}.

Lemma catalogue_only_trans d1 d2 d3 :
  catalogue_only d1 d2 -> catalogue_only d2 d3 -> catalogue_only d1 d3.
Proof.
  intros [A1 A2 A3 A4] [B1 B2 B3 B4]. split; [congruence|congruence|congruence|].
  by eapply catalogue_trans.
Qed.

Lemma retire_catalogue id epoch ts d d' :
  scan_sound d -> retire_location id epoch ts d = (Ok tt, d') -> catalogue_only d d'.
Proof.
  intros S Ht. unfold retire_location in Ht. store_inv.
  destruct (update_row _ _ _ _) as [[l' m]|] eqn:Hu; [|discriminate]. store_inv.
  apply update_row_some in Hu as (l & Hl & Hc & -> & ->).
  apply andb_true_iff in Hc as [_ Hlive].
  assert (fl_retired_at l = None) as Ha by (by destruct (fl_retired_at l)).
  split; [done|done|done|]. apply catalogue_insert; [intros; congruence|].
  exact (live_unattributed _ _ _ S Hl Ha).
Qed.

Lemma insert_catalogue version root locator kind value at_ d n d' :
  insert_file_location_with_raw_proof version root locator kind value at_ d = (Ok n, d') ->
  catalogue_only d d'.
Proof.
  intros Ht. unfold insert_file_location_with_raw_proof in Ht. store_inv.
  match goal with Hx : context [if negb ?b then _ else _] |- _ => destruct b; [|discriminate] end.
  cbn [negb] in *. store_inv. split; [done|done|done|]. apply catalogue_insert; [|done].
  intros l. by rewrite next_rowid_fresh.
Qed.

Lemma move_catalogue id epoch root locator at_ d x d' :
  scan_sound d -> update_file_location_address_in_tx id epoch root locator at_ d = (Ok x, d') ->
  catalogue_only d d'.
Proof.
  intros S Ht. unfold update_file_location_address_in_tx in Ht. store_inv.
  destruct (update_row _ _ _ _) as [[l' m]|] eqn:Hu; [|discriminate]. store_inv.
  apply update_row_some in Hu as (l & Hl & Hc & -> & ->).
  rewrite Hl in *. destruct (movable _ _ _ _ _); [|discriminate]. cbn [negb] in *. store_inv.
  match goal with Hx : get_file_location_in_tx _ _ = _ |- _ => apply get_location_same in Hx as -> end.
  apply andb_true_iff in Hc as [_ Hlive].
  assert (fl_retired_at l = None) as Ha by (by destruct (fl_retired_at l)).
  split; [done|done|done|]. apply catalogue_insert; [intros; congruence|].
  exact (live_unattributed _ _ _ S Hl Ha).
Qed.

Lemma replace_catalogue pv id epoch input at_ d n d' :
  scan_sound d -> replace_file_location_in_tx pv id epoch input at_ d = (Ok n, d') ->
  catalogue_only d d'.
Proof.
  intros S Ht. unfold replace_file_location_in_tx in Ht. tx_inv.
  match goal with Hx : get_file_location_in_tx _ _ = _ |- _ => apply get_location_same in Hx as -> end.
  destruct (is_some _); [discriminate|]. destruct (negb _); [discriminate|].
  unfold savepoint in *. match goal with Hx : match ?m ?s with _ => _ end = _ |- _ =>
    destruct (m s) as [[y|?] d2] eqn:Hm; [|discriminate]; injection Hx as <- <- end.
  store_inv. match goal with Hr : retire_location _ _ _ _ = (Ok ?u, _) |- _ =>
    destruct u; apply retire_catalogue in Hr; [|done] end.
  match goal with Hi : insert_file_location _ _ _ _ _ _ _ = _ |- _ => apply insert_catalogue in Hi end.
  by eapply catalogue_only_trans.
Qed.

Lemma catalogue_refines d d' : catalogue_only d d' -> Spec.step (view d) (view d').
Proof.
  intros [E1 E2 E3 [G1 G2 G3]].
  assert (view d' = {| Spec.traversals := Spec.traversals (view d);
                       Spec.catalogue := file_locations d' |}) as ->.
  { unfold view. f_equal. cbn. rewrite E1. apply map_imap_ext. intros k.
    destruct (scan_sessions d !! k) as [r|]; [|done]. cbn. do 2 f_equal. unfold traversal. f_equal.
    apply map_ext. intros q. unfold recorded. rewrite E2, E3. done. }
  by apply Spec.step_catalogue.
Qed.

(** *** The simulation *)

Lemma atomically_refines {A} (m : SM A) d d' :
  (forall x d1, m d = (Ok x, d1) -> rtc Spec.step (view d) (view d1)) ->
  (atomically (_ ← m; mret tt) d).2 = d' -> rtc Spec.step (view d) (view d').
Proof.
  intros Hm. unfold atomically, mbind, tx_mbind.
  destruct (m d) as [[a|e] d1]; cbn; intros <-; [by eapply Hm|constructor].
Qed.

Lemma location_command_refines c d d' :
  match c with
  | CreateLocation _ _ | RetireLocation _ _ _ | ReplaceLocation _ _ _ _ _
  | MoveLocation _ _ _ _ _ => True | _ => False end ->
  scan_sound d -> (scan_run c d).2 = d' -> rtc Spec.step (view d) (view d').
Proof.
  intros Hc S. destruct c; try done; cbn [scan_run]; apply atomically_refines; intros x d1 Ht;
    apply rtc_once, catalogue_refines.
  - unfold create_file_location_in_tx in Ht. store_inv.
    match goal with Hx : get_file_location_in_tx _ _ = _ |- _ =>
      apply get_location_same in Hx as -> end. by eapply insert_catalogue.
  - unfold retire_file_location_in_tx in Ht. store_inv.
    match goal with Hx : get_file_location_in_tx _ _ = _ |- _ =>
      apply get_location_same in Hx as -> end.
    match goal with Hr : retire_location _ _ _ _ = (Ok ?u, _) |- _ => destruct u end.
    by eapply retire_catalogue.
  - by eapply replace_catalogue.
  - by eapply move_catalogue.
Qed.

Lemma step_refines d d' : scan_sound d -> scan_step d d' -> rtc Spec.step (view d) (view d').
Proof.
  intros S Hstep. destruct Hstep as [c d0 d1 Hty Hrep Hrun|d0 d1 [E1 E2 E3 E4 _]].
  - pose proof (location_command_refines c d0 d1) as Hloc.
    destruct c; try (by apply Hloc); clear Hloc; cbn [scan_run command_typed] in *;
      revert Hrun; apply atomically_refines; intros x d2 Ht.
    + by eapply rtc_once, request_refines.
    + by eapply rtc_once, start_refines.
    + by eapply rtc_once, accept_steps.
    + by eapply rtc_once, complete_steps.
    + apply terminalize_ok in Ht as (r & ts & Hst & Hr & Ha & _ & _ & _ & ->).
      by apply rtc_once, end_refines.
    + unfold stale_expired_in_tx in Ht. by eapply stale_refines in Ht.
    + unfold stale_running_for_incarnation_in_tx in Ht. eapply stale_refines in Ht; [done|].
      intros r. unfold active. by intros ->%bool_decide_eq_true.
  - eapply rtc_once, catalogue_refines. split; [done|done|done|]. rewrite E4. by split.
Qed.

Lemma run_refines d d' :
  scan_sound d -> rtc scan_step d d' -> scan_sound d' /\ rtc Spec.step (view d) (view d').
Proof.
  intros S Hr. induction Hr as [d|d d1 d2 Hs _ IH]; [by split|].
  destruct IH as [S2 IH]; [by eapply scan_step_sound|]. split; [done|].
  etrans; [by apply step_refines|done].
Qed.

(** C4: the scan tables implement the traversal machine. From a database
    without scans, whatever sequence of commands runs (requests, starts,
    batches, completions, cancellations, staleness sweeps, and the location
    writers beside them) and whatever they answer, the database stays sound and
    its view as traversals and catalogue moves only by transitions of the
    machine. *)
Theorem scan_refinement (d d' : ScanDb) :
  scan_initial d -> rtc scan_step d d' -> scan_sound d' /\ rtc Spec.step (view d) (view d').
Proof. intros Hi. apply run_refines. by apply scan_initial_sound. Qed.

(** C6: the ledger is append-only and an ended scan is final. In every later
    database a session keeps its root and the batches it had, in order; once it
    has succeeded, failed, been cancelled or gone stale its status, watermark
    and batches never change; and a retired location is never touched again. *)
Theorem scan_history (d d' : ScanDb) :
  scan_sound d -> rtc scan_step d d' ->
  (forall s r, scan_sessions d !! s = Some r ->
    exists r', scan_sessions d' !! s = Some r' /\
      Spec.extends (traversal d s r) (traversal d' s r')) /\
  (forall id l, file_locations d !! id = Some l -> is_Some (fl_retired_at l) ->
    file_locations d' !! id = Some l).
Proof.
  intros S [_ [Ht Hc]%Spec.steps_later]%run_refines; [|done]. split; [|exact Hc].
  intros s r Hr. destruct (Ht s (traversal d s r)) as (t' & Hs & He).
  - by rewrite view_traversal, Hr.
  - rewrite view_traversal in Hs. destruct (scan_sessions d' !! s) as [r'|]; [|done].
    injection Hs as <-. eauto.
Qed.

(** on a sound database a batch is answered as the machine answers it:
    an unknown session is not found; a sequence already recorded is answered
    with its locator count and running total when the request hash agrees and
    refused when it does not, whatever became of the session since; a new
    batch is appended whole exactly when the session is running, the sequence
    is the next one, the session's capacity suffices and every locator is new;
    in every other case it is refused and nothing changes. *)
Theorem batch_refinement (d d' : ScanDb) (new : NewScanObservationBatch) (p : PreparedBatch)
    (res : Res ScanBatchOutcome) :
  scan_sound d -> batch_typed new -> PreparedBatch_new new = Ok p ->
  accepted_batch_in_tx new d = (res, d') ->
  Spec.accept (pb_scan_session_id p) (Z.to_nat (pb_sequence p)) (pb_request_hash p)
    (map so_locator (pb_observations p)) (view d) = (batch_reply res, view d').
Proof. apply accept_refined. Qed.

(** *** Retries *)

(** A recorded batch reads the same once its traversal was extended. *)
Lemma recorded_later d d' s r r' q b :
  scan_sound d -> scan_sound d' -> scan_sessions d !! s = Some r ->
  scan_sessions d' !! s = Some r' -> Spec.extends (traversal d s r) (traversal d' s r') ->
  scan_batches d !! (s, q) = Some b ->
  exists b', scan_batches d' !! (s, q) = Some b' /\
    sb_request_hash b' = sb_request_hash b /\ outcome_of s q b' = outcome_of s q b.
Proof.
  intros S S' Hr Hr' [_ [rest Hpre] _] Hb.
  pose proof (sc_ledger d S s r Hr) as L. pose proof (sc_ledger d' S' s r' Hr') as L'.
  pose proof (so_check _ _ _ (sc_session d S s r Hr)) as Hk.
  pose proof (so_check _ _ _ (sc_session d' S' s r' Hr')) as Hk'.
  pose proof (ledger_batch_range d s r L q b Hb) as Hq.
  assert (Z.of_nat (Z.to_nat q) = q) as Eq by lia.
  pose proof (view_lookup d s r Hk (Z.to_nat q)) as Hl. rewrite Eq, decide_True in Hl by lia.
  pose proof (view_lookup d' s r' Hk' (Z.to_nat q)) as Hl'. rewrite Eq, Hpre in Hl'.
  rewrite (lookup_app_l_Some _ _ _ _ Hl) in Hl'.
  destruct (decide (q < ss_next_sequence r')) as [Hlt|]; [|done].
  destruct (proj2 (lg_range _ _ _ L' q)) as [b' Hb']; [lia|]. exists b'.
  injection Hl' as Hrec. pose proof (recorded_length d s r L q b Hb) as Hn.
  pose proof (recorded_length d' s r' L' q b' Hb') as Hn'. rewrite <- Hrec, Hn in Hn'.
  pose proof (view_prefix_length d s r L Hk (Z.to_nat q) b) as Hc. rewrite Eq in Hc.
  pose proof (view_prefix_length d' s r' L' Hk' (Z.to_nat q) b') as Hc'. rewrite Eq, Hpre in Hc'.
  assert (Datatypes.S (Z.to_nat q) <= List.length (Spec.tv_batches (traversal d s r)))%nat as Hlen
    by (pose proof (view_length d s r Hk); lia).
  rewrite take_app_le in Hc' by done. specialize (Hc Hb). specialize (Hc' Hb').
  split_and!; [done| |unfold outcome_of; f_equal; congruence].
  unfold recorded in Hrec. rewrite Hb, Hb' in Hrec. by injection Hrec as -> _.
Qed.

(** C8: a batch may be retried. Once it was accepted, sending it again is
    answered with the recorded outcome and writes nothing, however many
    commands ran in between and whatever became of the session. *)
Theorem batch_retry (d d1 d2 : ScanDb) (new : NewScanObservationBatch) (o : ScanBatchOutcome) :
  scan_sound d -> batch_typed new -> accepted_batch_in_tx new d = (Ok o, d1) ->
  rtc scan_step d1 d2 -> accepted_batch_in_tx new d2 = (Ok o, d2).
Proof.
  intros S Hty Ha Hrun. pose proof (accept_sound new Hty d o d1 S Ha) as S1.
  destruct (PreparedBatch_new new) as [p|e] eqn:Hp.
  2:{ unfold accepted_batch_in_tx in Ha. by rewrite Hp in Ha. }
  assert (exists r b, scan_sessions d1 !! pb_scan_session_id p = Some r /\
    scan_batches d1 !! (pb_scan_session_id p, pb_sequence p) = Some b /\
    sb_request_hash b = pb_request_hash p /\
    o = outcome_of (pb_scan_session_id p) (pb_sequence p) b) as (r & b & Hr & Hb & Hh & ->).
  { rewrite (accept_run d new p S Hty Hp) in Ha. unfold batch_answer in Ha.
    destruct (scan_sessions d !! pb_scan_session_id p) as [r|] eqn:Hr; [|discriminate].
    destruct (scan_batches d !! _) as [b|] eqn:Hb.
    - destruct (String.eqb_spec (sb_request_hash b) (pb_request_hash p)); [|discriminate].
      injection Ha as <- <-. eauto 10.
    - destruct (_ && _ && _ && _); [|discriminate]. injection Ha as <- <-.
      do 2 eexists. split_and!; [cbn; apply lookup_insert_eq|cbn; apply lookup_insert_eq|done|done]. }
  destruct (run_refines d1 d2 S1 Hrun) as [S2 [Ht _]%Spec.steps_later].
  destruct (Ht (pb_scan_session_id p) (traversal d1 (pb_scan_session_id p) r))
    as (t' & Hs & He);
    [by rewrite view_traversal, Hr|].
  rewrite view_traversal in Hs. destruct (scan_sessions d2 !! _) as [r'|] eqn:Hr'; [|done].
  injection Hs as <-.
  destruct (recorded_later d1 d2 _ r r' _ b S1 S2 Hr Hr' He Hb) as (b' & Hb' & Hh' & Ho).
  rewrite (accept_run d2 new p S2 Hty Hp). unfold batch_answer.
  by rewrite Hr', Hb', Hh', Hh, String.eqb_refl, Ho.
Qed.
End refine.
