(* ===== verification/Witnesses.v ===== *)
(** * Concrete runs

    One small system, built by running commands from the empty database with
    the big-endian timestamp codec: a worker with one capability and a grant
    of two parallel leases, a job, three tickets of which the third waits for
    the first, and a lease on the first. The lemmas below apply the theorems
    of the other files to it.

    A root with two known files; a scan of it is requested, started, reports
    one of the files in one batch and completes, which retires the other. The
    lemmas below apply the scan theorems to this run. *)

From S2P Require Import Prelude Json Vocab Operations Store.
From S2P Require Import Locators Scans Locations ScanLedger ScanBatches ScanCompletion.
From S2P Require Import ScanReconcile ScanSystem ScanSpec ScanRefine.
From S2P Require Import Jobs Tickets Workers Leases Lifecycle Expiry Acquisition Settlement.
From S2P Require Import ControlPlane System Handlers.
From Stdlib Require Import ZArith Lia Bool String Ascii.
From stdpp Require Import base gmap strings list sorting relations.

Open Scope Z_scope.

#[local] Instance demo_iso8601 : Iso8601 := be_iso8601.
#[local] Instance demo_iso8601_laws : Iso8601Laws := be_iso8601_laws.
(** [CAST(.. AS INTEGER)] of an integer is the integer. *)
#[local] Instance demo_cast : SqliteCast :=
  {| cast_integer := fun j => match j with JInt n => n | _ => 0 end |}.

Definition seconds (n : Z) : Z := duration_seconds n.

Definition demo_ticket (max_attempts : Z) : NewTicket := {|
  nt_job_id := Some 1; nt_kind := "remux"%string; nt_priority := 0; nt_payload := JObj [];
  nt_max_attempts := max_attempts; nt_created_at := seconds 2 |}.

Definition demo_lease (ticket : Z) : NewLease := {|
  nl_ticket_id := ticket; nl_worker_id := 1; nl_ttl := seconds 60; nl_now := seconds 10 |}.

Definition setup : list Command := [
  RegisterWorker {| nw_name := "w1"; nw_kind := WorkerKindLocal; nw_registered_at := seconds 1;
                    nw_node_id := None |};
  RecordCapability {| nc_worker_id := 1; nc_operation := "remux"%string; nc_codecs := [];
                      nc_hardware := []; nc_artifact_access := []; nc_extra := JObj [] |};
  RecordGrant {| ng_worker_id := 1; ng_can_execute := ["remux"%string]; ng_can_access_read := [];
                 ng_can_access_write := []; ng_denies := [];
                 ng_max_parallel := JObj [("remux"%string, JInt 2)] |};
  OpenJob {| nj_kind := "demo"; nj_priority := 0; nj_created_at := seconds 1 |};
  CreateTicket (demo_ticket 3); CreateTicket (demo_ticket 1); CreateTicket (demo_ticket 2);
  AddDependency 3 1; MarkReady 1 (seconds 3); MarkReady 2 (seconds 3) ].

Definition demo : Db := run (setup ++ [TryAcquire (demo_lease 1)]) empty_db.

Lemma demo_reachable : reachable demo.
Proof. exists empty_db. split; [done|apply run_steps]. Qed.

Lemma demo_lifecycle : lifecycle demo.
Proof. exact (proj1 (reachable_sound demo demo_reachable)). Qed.

Definition stamp (n : Z) : string := be_text 8 (seconds n).

Lemma stamp_ok n : 0 <= n <= 1000 -> format_text (seconds n) = Some (stamp n).
Proof.
  intros Hn. change (format_text (seconds n)) with
    (if be_instant (seconds n) then Some (be_text 8 (seconds n)) else None).
  rewrite (proj2 (be_instant_spec (seconds n))); [done|].
  unfold seconds, duration_seconds, NANOS_PER_SEC.
  change (256 ^ Z.of_nat 8) with 18446744073709551616. lia.
Qed.

Lemma small_fits n : 0 <= n <= 1000 -> n <= i64_max.
Proof. unfold i64_max. lia. Qed.

Lemma stamp_sum a b :
  0 <= a + b <= 1000 -> format_text (seconds a + seconds b) = Some (stamp (a + b)).
Proof.
  intros Hab. rewrite <- stamp_ok by done. f_equal. unfold seconds, duration_seconds. lia.
Qed.

Lemma demo_tickets_readable : tickets_readable demo.
Proof. exact (lc_tickets demo demo_lifecycle). Qed.

Definition demo_job : JobRow := {|
  j_kind := "demo"; j_state := JobOpen; j_priority := 0; j_created_at := stamp 1;
  j_updated_at := stamp 1; j_epoch := 0 |}.

Lemma demo_jobs : jobs demo = <[1 := demo_job]> ∅.
Proof. vm_compute. reflexivity. Qed.

Lemma demo_jobs_readable : jobs_readable demo.
Proof.
  unfold jobs_readable. rewrite demo_jobs. apply map_Forall_insert_2; [|apply map_Forall_empty].
  apply job_readable_spec. cbn [demo_job j_epoch j_created_at j_updated_at].
  split_and!; [lia|lia| |]; exists (seconds 1); vm_compute; reflexivity.
Qed.

Lemma keys_fit {A} (m : gmap Z A) :
  forallb (fun kv => kv.1 <=? i64_max) (map_to_list m) = true ->
  map_Forall (fun k _ => k <= i64_max) m.
Proof.
  rewrite forallb_forall. intros Hm k x Hk. apply Z.leb_le.
  apply (Hm (k, x)). by apply list_elem_of_In, elem_of_map_to_list.
Qed.

Lemma demo_rowids_fit : rowids_fit demo.
Proof. split; apply keys_fit; vm_compute; reflexivity. Qed.

(** ** Jobs and tickets *)

Lemma close_job_outcome_witness :
  transition_open_to 1 JobFailed (seconds 9) demo =
    (row_to_job (1, close_job_row JobFailed (stamp 9) demo_job),
     set_jobs (<[1 := close_job_row JobFailed (stamp 9) demo_job]> (jobs demo)) demo) /\
  transition_open_to 7 JobFailed (seconds 9) demo = (Err ENotFound, demo).
Proof.
  split.
  - rewrite (proj1 (close_job_outcome 1 JobFailed (seconds 9) (stamp 9) demo ltac:(done)
      (stamp_ok 9 ltac:(lia)) demo_jobs_readable)).
    rewrite demo_jobs, lookup_insert_eq. by rewrite decide_True.
  - rewrite (proj1 (close_job_outcome 7 JobFailed (seconds 9) (stamp 9) demo ltac:(done)
      (stamp_ok 9 ltac:(lia)) demo_jobs_readable)).
    by rewrite demo_jobs, lookup_insert_ne.
Defined.

Lemma add_dependency_outcome_witness :
  add_dependency_in_tx 3 3 demo = (Err EDependencyCycle, demo) /\
  add_dependency_in_tx 1 3 demo = (Err EConflict, demo).
Proof.
  split.
  - apply (proj1 (add_dependency_outcome 3 3 demo ltac:(done) ltac:(done))). reflexivity.
  - pose proof (proj2 (add_dependency_outcome 1 3 demo ltac:(done) ltac:(done)) ltac:(done)) as Hw.
    destruct (tickets demo !! 1) as [r|] eqn:E; [|vm_compute in E; discriminate E].
    apply (proj1 Hw). assert (option_map t_state (tickets demo !! 1) = Some TicketLeased) as Es
      by (vm_compute; reflexivity). rewrite E in Es. cbn in Es. congruence.
Defined.

Lemma add_dependency_acyclic_witness :
  acyclic (ticket_dependencies (add_dependency 3 2 demo).2) /\
  is_ok (add_dependency 3 2 demo).1 = true.
Proof.
  split; [|vm_compute; reflexivity].
  destruct (add_dependency 3 2 demo) as [r d'] eqn:E. cbn.
  exact (add_dependency_acyclic 3 2 demo r d' (lc_acyclic demo demo_lifecycle) E).
Defined.

Lemma mark_ready_outcome_witness :
  mark_ready_if_unblocked_in_tx 9 (seconds 9) demo = (Err ENotFound, demo) /\
  mark_ready_if_unblocked_in_tx 2 (seconds 9) demo = (Ok [], demo).
Proof.
  split.
  - pose proof (mark_ready_outcome 9 (seconds 9) (stamp 9) demo ltac:(done)
      (stamp_ok 9 ltac:(lia)) demo_tickets_readable) as Hw.
    destruct (tickets demo !! 9) as [r|] eqn:E; [vm_compute in E; discriminate E|exact Hw].
  - pose proof (mark_ready_outcome 2 (seconds 9) (stamp 9) demo ltac:(done)
      (stamp_ok 9 ltac:(lia)) demo_tickets_readable) as Hw.
    destruct (tickets demo !! 2) as [r|] eqn:E; [|vm_compute in E; discriminate E].
    assert (option_map t_state (tickets demo !! 2) = Some TicketReady) as Es
      by (vm_compute; reflexivity). rewrite E in Es. cbn in Es.
    destruct Hw as [(Hp & _)|[_ Hw]]; [congruence|exact Hw].
Defined.

Lemma ready_queue_exact_witness :
  exists rows out,
    ready_for_operations_in_tx ["remux"%string] (seconds 10) demo = (Ok out, demo) /\
    (forall r, In (2, r) rows <-> tickets demo !! 2 = Some r /\
       claimable ["remux"%string] (seconds 10) demo r).
Proof.
  destruct (ready_queue_exact ["remux"%string] (seconds 10) (stamp 10) demo
    (stamp_ok 10 ltac:(lia)) demo_tickets_readable) as (rows & out & Hr & _ & Hin & _).
  exists rows, out. split; [exact Hr|]. intros r. apply Hin.
Defined.

(** ** Expiry *)

Lemma expire_due_exact_witness :
  exists rep d',
    expire_due_in_tx (seconds 100) demo = (Ok rep, d') /\ pairs rep = [(1, 1)] /\
    requeued_tickets rep = [1] /\ lifecycle d'.
Proof.
  destruct (expire_due_exact (seconds 100) (stamp 100) demo (stamp_ok 100 ltac:(lia)) demo_lifecycle)
    as (rep & d' & Hrun & L' & Hp & _ & _ & Hq & _).
  assert (pairs rep = [(1, 1)]) as E by (rewrite Hp; vm_compute; reflexivity).
  exists rep, d'. split; [exact Hrun|]. split; [exact E|]. split; [|exact L'].
  rewrite Hq, E. vm_compute. reflexivity.
Defined.

Lemma expire_rounds_drain_witness :
  exists d', expire_rounds 1 (seconds 100) demo = (Ok tt, d') /\ due_rows d' (stamp 100) = [].
Proof.
  destruct (expire_rounds_drain 1 (seconds 100) (stamp 100) demo (stamp_ok 100 ltac:(lia))
    demo_lifecycle) as (d' & Hrun & _ & _ & Hdue).
  exists d'. split; [exact Hrun|]. apply Hdue.
  assert (List.length (due_rows demo (stamp 100)) = 1%nat) as -> by (vm_compute; reflexivity).
  unfold LEASE_BATCH_LIMIT. lia.
Defined.

(** ** Acquisition *)

Lemma acquire_second_ok :
  exists lease d', try_acquire_in_tx (demo_lease 2) demo = (Ok (Acquired lease), d') /\ lease_id lease = 2.
Proof.
  assert (match try_acquire_in_tx (demo_lease 2) demo with (Ok (Acquired l), _) => lease_id l =? 2 | _ => false end = true)
    as E by (vm_compute; reflexivity).
  destruct (try_acquire_in_tx (demo_lease 2) demo) as [[[lease| | |]|] d']; try discriminate E.
  exists lease, d'. split; [done|]. by apply Z.eqb_eq.
Qed.

Lemma acquire_respects_capacity_witness :
  exists d', operation_capacity_in_tx 1 "remux"%string d' =
    (Ok {| active_leases := 2; max_parallel := 2 |}, d') /\ d' = (try_acquire_in_tx (demo_lease 2) demo).2.
Proof.
  destruct acquire_second_ok as (lease & d' & Hacq & _).
  destruct (acquire_respects_capacity (demo_lease 2) demo lease d' Hacq)
    as (t & active & limit & Ht & _ & _ & Hbefore & Hafter).
  assert (option_map t_kind (tickets demo !! 2) = Some "remux"%string) as Hk
    by (vm_compute; reflexivity).
  cbn [demo_lease nl_ticket_id nl_worker_id] in Ht, Hbefore, Hafter. rewrite Ht in Hk.
  injection Hk as Hk. rewrite Hk in Hbefore, Hafter.
  assert ((operation_capacity_in_tx 1 "remux"%string demo).1 =
    Ok {| active_leases := 1; max_parallel := 2 |}) as E by (vm_compute; reflexivity).
  change (matching_token (TicketOperation_normalize "remux")) with "remux"%string in Hbefore, Hafter.
  rewrite Hbefore in E. injection E as -> ->.
  exists d'. split; [exact Hafter|]. by rewrite Hacq.
Defined.

Lemma try_acquire_outcome_witness :
  exists t, tickets demo !! 2 = Some t /\ available (seconds 10) demo t.
Proof.
  destruct acquire_second_ok as (lease & d' & Hacq & _).
  destruct (try_acquire_outcome (demo_lease 2) demo (Ok (Acquired lease)) d' demo_lifecycle Hacq)
    as (t & ts & Ht & _ & Hav & _).
  exists t. split; [exact Ht|exact Hav].
Defined.

Lemma demo_ticket_2 : exists t, tickets demo !! 2 = Some t /\ t_kind t = "remux"%string /\
  available (seconds 10) demo t.
Proof.
  assert (match tickets demo !! 2 with
          | Some t => String.eqb (t_kind t) "remux" && leasable demo (stamp 10) t
          | None => false end = true) as E by (vm_compute; reflexivity).
  destruct (tickets demo !! 2) as [t|] eqn:Ht; [|discriminate E].
  apply andb_true_iff in E as [Hk%String.eqb_eq Hl]. exists t. split; [done|]. split; [done|].
  by apply (leasable_available (seconds 10) (stamp 10) demo 2 t (stamp_ok 10 ltac:(lia))
    (demo_tickets_readable 2 t Ht)).
Qed.

Lemma fst_reads {A} (m : M A) d a : tx_reads m -> (m d).1 = Ok a -> m d = (Ok a, d).
Proof.
  intros Hm. destruct (m d) as [r d'] eqn:E. cbn. intros ->. by rewrite (Hm d (Ok a) d' E).
Qed.

Lemma try_acquire_progress_witness :
  exists lease d', try_acquire_in_tx (demo_lease 2) demo = (Ok (Acquired lease), d').
Proof.
  destruct demo_ticket_2 as (t & Ht & Hk & Hav).
  apply (try_acquire_progress (demo_lease 2) demo t
    {| el_worker_status := Some WorkerRegistered; el_worker_kind := Some WorkerKindLocal;
       el_has_capability := true; el_has_grant := true; el_is_denied := false;
       el_artifact_access := [] |} {| active_leases := 1; max_parallel := 2 |} (stamp 10) (stamp 70)).
  - exact demo_lifecycle.
  - exact Ht.
  - exact Hav.
  - rewrite Hk. reflexivity.
  - rewrite Hk. apply fst_reads; [apply reads_eligibility|]. vm_compute. reflexivity.
  - reflexivity.
  - rewrite Hk. apply fst_reads; [apply reads_capacity|]. vm_compute. reflexivity.
  - reflexivity.
  - vm_compute. discriminate.
  - exact (stamp_ok 10 ltac:(lia)).
  - exact (stamp_ok 70 ltac:(lia)).
  - vm_compute. discriminate.
  - vm_compute. discriminate.
Defined.

(** ** Settlement *)

Lemma demo_held : ~ no_hold demo 1.
Proof.
  assert (match leases demo !! 1 with Some l => held l | None => false end = true) as E
    by (vm_compute; reflexivity).
  destruct (leases demo !! 1) as [l|] eqn:Hl; [|discriminate E].
  intros Hn. rewrite (Hn l Hl) in E. discriminate E.
Qed.

Lemma release_outcome_witness :
  (exists l t lease, holding demo 1 l t /\
     release_in_tx 1 (JInt 5) (seconds 20) demo =
       (Ok lease, settled demo 1 l LeaseReleased ReasonReleased (stamp 20)
          (ticket_with_result (JInt 5) (ticket_moved TicketSucceeded (stamp 20) t)))) /\
  release_in_tx 8 (JInt 5) (seconds 20) demo = (Err EConflict, demo).
Proof.
  split.
  - destruct (release_outcome 1 (JInt 5) (seconds 20) (stamp 20) demo demo_lifecycle demo_rowids_fit
      ltac:(done) (stamp_ok 20 ltac:(lia))) as [[Hn _]|(l & t & lease & Hh & Hr & _)].
    + destruct (demo_held Hn).
    + exists l, t, lease. split; [exact Hh|exact Hr].
  - destruct (release_outcome 8 (JInt 5) (seconds 20) (stamp 20) demo demo_lifecycle demo_rowids_fit
      ltac:(done) (stamp_ok 20 ltac:(lia))) as [[_ Hr]|(l & t & lease & (Hl & _) & _)].
    + exact Hr.
    + vm_compute in Hl. discriminate Hl.
Defined.

Lemma demo_holding_1 l t : holding demo 1 l t -> t_attempt t = 1 /\ t_max_attempts t = 3.
Proof.
  intros (Hl & _ & Ht & _).
  assert (option_map l_ticket_id (leases demo !! 1) = Some 1) as El by (vm_compute; reflexivity).
  rewrite Hl in El. injection El as El. rewrite El in Ht.
  assert (option_map (fun t => (t_attempt t, t_max_attempts t)) (tickets demo !! 1) = Some (1, 3)) as Et
    by (vm_compute; reflexivity).
  rewrite Ht in Et. injection Et as Ea Em. split; [exact Ea|exact Em].
Qed.

Lemma fail_outcome_witness :
  exists l t lease, holding demo 1 l t /\
    fail_in_tx 1 FC_WorkerCrash (seconds 20) 0 demo =
      (Ok lease, settled demo 1 l LeaseReleased ReasonFailedRetriable (stamp 20)
         (requeued (stamp 20) (be_text 8 (seconds 20 + default_backoff 1 0)) t)).
Proof.
  destruct (fail_outcome 1 FC_WorkerCrash (seconds 20) 0 (stamp 20) demo demo_lifecycle ltac:(done)
    (stamp_ok 20 ltac:(lia))) as [[Hn _]|(l & t & Hh & Hr)].
  - destruct (demo_held Hn).
  - destruct (demo_holding_1 l t Hh) as [Ha Hm]. rewrite Ha, Hm in Hr.
    destruct (Hr (be_text 8 (seconds 20 + default_backoff 1 0)) ltac:(vm_compute; reflexivity))
      as (lease & Hrun & _).
    exists l, t, lease. split; [exact Hh|exact Hrun].
Defined.

Lemma force_release_outcome_witness :
  exists l t lease, holding demo 1 l t /\
    force_release_in_tx 1 true (seconds 20) demo =
      (Ok {| fro_lease := lease; fro_ticket_requeued := true; fro_attempt := 1;
             fro_max_attempts := 3 |},
       settled demo 1 l LeaseForceReleased ReasonForceReleased (stamp 20)
         (requeued (stamp 20) (stamp 20) t)).
Proof.
  destruct (force_release_outcome 1 true (seconds 20) (stamp 20) demo demo_lifecycle ltac:(done)
    (stamp_ok 20 ltac:(lia))) as [[Hn _]|(l & t & Hh & Hr)].
  - destruct (demo_held Hn).
  - destruct (demo_holding_1 l t Hh) as [Ha Hm]. rewrite Ha, Hm in Hr.
    destruct Hr as (lease & Hrun & _). exists l, t, lease. split; [exact Hh|exact Hrun].
Defined.

Lemma heartbeat_outcome_witness :
  (exists lease d', heartbeat_in_tx 1 (seconds 60) (seconds 20) demo = (Ok lease, d') /\
     lease_expires_at lease = seconds 80) /\
  heartbeat_in_tx 1 (seconds 60) (seconds 70) demo = (Err EConflict, demo).
Proof.
  assert (match leases demo !! 1 with
          | Some l => held l && String.eqb (l_expires_at l) (stamp 70) | None => false end = true)
    as E by (vm_compute; reflexivity).
  pose proof (heartbeat_outcome 1 (seconds 60) (seconds 20) (stamp 20) (stamp (20 + 60)) demo
    demo_lifecycle (small_fits 1 ltac:(lia)) (stamp_ok 20 ltac:(lia)) (stamp_sum 20 60 ltac:(lia))) as H20.
  pose proof (heartbeat_outcome 1 (seconds 60) (seconds 70) (stamp 70) (stamp (70 + 60)) demo
    demo_lifecycle (small_fits 1 ltac:(lia)) (stamp_ok 70 ltac:(lia)) (stamp_sum 70 60 ltac:(lia))) as H70.
  destruct (leases demo !! 1) as [l|]; [|discriminate E].
  apply andb_true_iff in E as [Eh Ex%String.eqb_eq].
  assert (parse_text (stamp 70) = Some (seconds 70)) as P by (vm_compute; reflexivity).
  destruct H20 as (e & He & H20), H70 as (e' & He' & H70).
  rewrite Ex, P in He, He'. injection He as <-. injection He' as <-. rewrite Eh in H20, H70.
  split; [|exact H70].
  destruct H20 as (lease & Hrun & _ & Hexp & _). eexists lease, _. split; [exact Hrun|].
  rewrite Hexp. vm_compute. reflexivity.
Defined.

(** ** The system *)

Lemma reachable_lifecycle_witness : lifecycle demo /\ length (events demo) = 8%nat.
Proof. split; [exact (reachable_lifecycle demo demo_reachable)|vm_compute; reflexivity]. Defined.

Lemma dispatches_within_budget_witness :
  exists t, tickets demo !! 1 = Some t /\ dispatches demo 1 = 1 /\
    dispatches demo 1 <= t_attempt t <= t_max_attempts t.
Proof.
  destruct (tickets demo !! 1) as [t|] eqn:Ht; [|vm_compute in Ht; discriminate Ht].
  destruct (dispatches_within_budget demo 1 t demo_reachable Ht) as ([_ Hd] & Hm & _).
  exists t. split; [reflexivity|]. split; [vm_compute; reflexivity|]. split; [exact Hd|exact Hm].
Defined.


(** ** Handlers *)

Lemma release_lease_outcome_witness :
  exists lease d',
    release_lease_in_tx 1 (JInt 5) (seconds 20) demo = (Ok lease, d') /\
    issues d' = issues demo /\ option_map t_state (tickets d' !! 3) = Some TicketReady.
Proof.
  assert (match release_lease_in_tx 1 (JInt 5) (seconds 20) demo with
          | (Ok _, d') => bool_decide (option_map t_state (tickets d' !! 3) = Some TicketReady)
          | _ => false end = true) as E by (vm_compute; reflexivity).
  destruct (release_lease_in_tx 1 (JInt 5) (seconds 20) demo) as [[lease|] d'] eqn:Hr;
    [|discriminate E].
  destruct (release_lease_outcome 1 (JInt 5) (seconds 20) demo lease d' demo_lifecycle Hr)
    as (l & t & ts & _ & _ & _ & _ & Hi & _).
  exists lease, d'. split; [reflexivity|]. split; [exact Hi|].
  exact (proj1 (bool_decide_eq_true _) E).
Defined.


Lemma pre_lease_failure_outcome_witness :
  exists out d', record_pre_lease_ticket_failure 2 FC_NoEligibleWorker (seconds 20) 0 demo =
      (Ok out, d') /\ plo_terminal out = true /\ leases d' = leases demo.
Proof.
  assert (match record_pre_lease_ticket_failure 2 FC_NoEligibleWorker (seconds 20) 0 demo with
          | (Ok out, d') => plo_terminal out | _ => false end = true) as E
    by (vm_compute; reflexivity).
  destruct (record_pre_lease_ticket_failure 2 FC_NoEligibleWorker (seconds 20) 0 demo)
    as [[out|] d'] eqn:Hr; [|discriminate E].
  destruct (pre_lease_failure_outcome 2 FC_NoEligibleWorker (seconds 20) 0 demo (Ok out) d' Hr)
    as (r & ts & reason & _ & _ & _ & _ & _ & _ & _ & Hl & _).
  exists out, d'. split; [reflexivity|]. split; [exact E|exact Hl].
Defined.

(** ** A concrete scan *)

(** Evidence that carries nothing but a hash, written as the hash. *)
#[local] Instance demo_evidence : EvidenceCodec := {|
  evidence_to_string := fun e => match e with
    | Build_ScanObservationEvidence hash 0 EmptyString None [] JNull None => Some hash
    | _ => None end;
  evidence_from_str := fun s => Some {| ev_content_hash := s; ev_size_bytes := 0;
    ev_modified_at := EmptyString; ev_file_key := None; ev_sidecars := [];
    ev_probe_snapshot := JNull; ev_hash_source := None |} |}.
#[local] Instance demo_evidence_laws : EvidenceCodecLaws.
Proof.
  split. intros [h n m k sc j hs] s. cbn.
  by destruct n, m, k, sc, j, hs; try discriminate; intros [= ->].
Qed.

Definition demo_incarnation : NodeIncarnationId := repeat 7 16.
Definition demo_hash : string := string_of_list_ascii (repeat "a"%char 64).

Definition demo_file (locator : string) : LocationRow :=
  new_location_row 1 1 locator None None (be_text 8 0).

Definition demo_start : ScanDb := {|
  library_roots := {[1 := {| lr_root_epoch := 3; lr_owner_node_id := Some 7;
                             lr_last_scan_session_id := None |}]};
  scan_nodes := {[7]};
  node_incarnations_of := {[NodeIncarnationId_display demo_incarnation := 7]};
  file_version_ids := {[1]};
  file_locations := {[1 := demo_file "a.mkv"; 2 := demo_file "b.mkv"]};
  scan_sessions := ∅; scan_batches := ∅; scan_observations := ∅;
  commit_intents := ∅; commit_scope_locations := ∅; artifact_intents := ∅ |}.

Definition demo_batch : NewScanObservationBatch := {|
  nb_scan_session_id := 1; nb_sequence := 0; nb_request_hash := demo_hash;
  nb_observations := [{| ob_locator := "a.mkv"; ob_identity := "inode-1"; ob_size_bytes := 10;
    ob_modified_at := 1; ob_stability_started_at := 2; ob_stability_confirmed_at := 3;
    ob_evidence := None |}];
  nb_accepted_at := 30; nb_next_progress_deadline_at := 90 |}.

Definition demo_completion : CompleteScanSessionInput := {|
  co_scan_session_id := 1; co_storage_root_id := 1; co_root_epoch := 3; co_owner_node_id := 7;
  co_owner_incarnation_id := demo_incarnation; co_last_sequence := Some 0;
  co_observation_count := 1; co_completed_at := 40 |}.

Definition demo_commands : list ScanCommand := [
  RequestScan {| ns_storage_root_id := 1; ns_root_epoch := 3; ns_owner_node_id := 7;
                 ns_idle_timeout_seconds := 60; ns_progress_deadline_at := 70;
                 ns_requested_at := 10 |};
  StartScan 1 demo_incarnation 80 20 ].

Definition run_scan (cs : list ScanCommand) (d : ScanDb) : ScanDb :=
  foldl (fun d c => (scan_run c d).2) d cs.

Definition demo_running : ScanDb := run_scan demo_commands demo_start.
Definition demo_reported : ScanDb := (scan_run (AcceptBatch demo_batch) demo_running).2.
Definition demo_done : ScanDb := (scan_run (CompleteScan demo_completion) demo_reported).2.

Lemma demo_initial : scan_initial demo_start.
Proof.
  split; [done|done|done|]. cbn. apply map_Forall_insert_2; [|apply map_Forall_singleton];
    (split; [|done]); (split; [cbn; lia|cbn; lia|by intros [? [=]]|]);
    intros _; eexists 1, _; cbn; (split_and!; [done|lia|done|vm_compute; reflexivity]).
Qed.

(** Two rows, ids one and two. *)
Definition small (d : ScanDb) : bool :=
  forallb (fun kv => (kv.1 <=? 2)) (map_to_list (file_locations d)) &&
  (count_where (fun _ _ => true) (file_locations d) <=? 2) &&
  (List.length (map_to_list (commit_intents d)) =? 0)%nat &&
  (List.length (map_to_list (artifact_intents d)) =? 0)%nat.

Lemma small_representable d : small d = true -> representable d.
Proof.
  unfold small. rewrite !andb_true_iff, !Nat.eqb_eq, Z.leb_le, forallb_forall.
  intros [[[Hl Hs] Hc%nil_length_inv] Ha%nil_length_inv].
  apply map_to_list_empty_iff in Hc, Ha. split.
  - intros id l Hid. specialize (Hl (id, l)). cbn in Hl. rewrite Z.leb_le in Hl.
    unfold i64_max. apply (Z.le_trans _ 2); [|lia]. apply Hl.
    by apply list_elem_of_In, elem_of_map_to_list.
  - unfold i64_max. lia.
  - rewrite Hc. by intros c [? [=]].
  - rewrite Ha. by intros c [? [=]].
Qed.

Lemma demo_batch_typed : batch_typed demo_batch.
Proof.
  split; [cbn; lia|]. split; [cbn; lia|]. constructor; [|constructor].
  split; [vm_compute; reflexivity|cbn; lia].
Qed.

Lemma demo_completion_typed : completion_typed demo_completion.
Proof.
  split; cbn; try (unfold i64_max, u64_max; lia). split; [done|].
  repeat constructor; lia.
Qed.

Lemma run_scan_steps cs : forall d,
  Forall command_typed cs -> forallb (fun n => small (run_scan (take n cs) d)) (seq 0 (List.length cs)) = true ->
  rtc scan_step d (run_scan cs d).
Proof.
  induction cs as [|c cs IH]; intros d Hty Hs; [constructor|].
  apply Forall_cons in Hty as [Hc Hty]. cbn [List.length seq forallb] in Hs.
  apply andb_true_iff in Hs as [Hd Hs]. eapply rtc_l.
  - eapply step_command; [exact Hc|by apply small_representable|done].
  - apply IH; [done|]. rewrite forallb_forall in Hs |- *. intros n Hn.
    apply (Hs (S n)). rewrite in_seq in Hn |- *. lia.
Qed.

Lemma demo_running_run : rtc scan_step demo_start demo_running.
Proof. apply run_scan_steps; [repeat constructor|vm_compute; reflexivity]. Qed.

Lemma demo_reported_run : rtc scan_step demo_start demo_reported.
Proof.
  apply (run_scan_steps (demo_commands ++ [AcceptBatch demo_batch])).
  - repeat constructor; cbn; try lia; vm_compute; reflexivity.
  - vm_compute; reflexivity.
Qed.

Lemma demo_done_step : scan_step demo_reported demo_done.
Proof.
  apply (step_command (CompleteScan demo_completion)); [exact demo_completion_typed| |reflexivity].
  apply small_representable. vm_compute. reflexivity.
Qed.

Lemma demo_done_run : rtc scan_step demo_start demo_done.
Proof. eapply rtc_r; [exact demo_reported_run|exact demo_done_step]. Qed.

Lemma demo_running_sound : scan_sound demo_running.
Proof. exact (proj1 (run_refines _ _ (scan_initial_sound _ demo_initial) demo_running_run)). Qed.
Lemma demo_reported_sound : scan_sound demo_reported.
Proof. exact (proj1 (run_refines _ _ (scan_initial_sound _ demo_initial) demo_reported_run)). Qed.

(** The file the scan did not report was retired by it, the other was kept. *)
Lemma scan_refinement_witness :
  (fl_retired_by <$> file_locations demo_done !! 1 = Some None /\
   fl_retired_by <$> file_locations demo_done !! 2 = Some (Some 1)) /\
  scan_sound demo_done /\ rtc Spec.step (view demo_start) (view demo_done).
Proof.
  split; [vm_compute; by split|].
  exact (scan_refinement demo_start demo_done demo_initial demo_done_run).
Defined.

(** The reported batch is still there after the completion, and the retired
    file stays retired. *)
Lemma scan_history_witness :
  (exists r, scan_sessions demo_reported !! 1 = Some r /\
    exists r', scan_sessions demo_done !! 1 = Some r' /\
      Spec.extends (traversal demo_reported 1 r) (traversal demo_done 1 r')).
Proof.
  destruct (scan_sessions demo_reported !! 1) as [r|] eqn:Hr; [|by vm_compute in Hr].
  exists r. split; [done|].
  exact (proj1 (scan_history demo_reported demo_done demo_reported_sound
    (rtc_once _ _ demo_done_step)) 1 r Hr).
Defined.

Definition demo_prepared : PreparedBatch :=
  match PreparedBatch_new demo_batch with
  | Ok p => p
  | Err _ => {| pb_scan_session_id := 0; pb_sequence := 0; pb_request_hash := EmptyString;
                pb_observations := []; pb_observation_count := 0; pb_accepted_at := EmptyString;
                pb_next_progress_deadline_at := EmptyString |}
  end.

Definition demo_outcome : ScanBatchOutcome := {|
  bo_scan_session_id := 1; bo_sequence := 0; bo_accepted := 1; bo_cumulative := 1 |}.

Lemma batch_refinement_witness :
  Spec.accept 1 0 demo_hash ["a.mkv"%string] (view demo_running) =
  (Ok (1%nat, 1%nat), view (accepted_batch_in_tx demo_batch demo_running).2).
Proof.
  exact (batch_refinement demo_running _ demo_batch demo_prepared (Ok demo_outcome)
    demo_running_sound demo_batch_typed eq_refl
    ltac:(rewrite (surjective_pairing (accepted_batch_in_tx demo_batch demo_running));
          f_equal; vm_compute; reflexivity)).
Defined.

(** Sent again after the scan completed, the batch is answered as before. *)
Lemma batch_retry_witness :
  accepted_batch_in_tx demo_batch demo_done = (Ok demo_outcome, demo_done).
Proof.
  refine (batch_retry demo_running demo_reported demo_done demo_batch demo_outcome
    demo_running_sound demo_batch_typed _ (rtc_once _ _ demo_done_step)).
  vm_compute. reflexivity.
Defined.

Lemma complete_outcome_witness :
  atomically (complete_in_tx demo_completion) demo_reported =
    completion_answer demo_reported demo_completion (be_text 8 40) /\
  (match completion_answer demo_reported demo_completion (be_text 8 40) with
   | (Ok rec, _) => cr_retired_location_ids rec | _ => [] end) = [2].
Proof.
  split; [|vm_compute; reflexivity].
  apply (complete_outcome demo_reported demo_completion (be_text 8 40)).
  - exact demo_reported_sound.
  - apply small_representable. vm_compute. reflexivity.
  - exact demo_completion_typed.
  - vm_compute. reflexivity.
Defined.
