(* ===== verification/Bytes.v ===== *)
(** * Texts as bytes

    A Rust [str] is its UTF-8 bytes and an offset into it counts bytes. This
    file has the operations of the standard library that the policy compiler
    uses on [str]: searching, splitting, trimming and parsing of integers.

    A test on a [char] that only ever accepts ASCII characters is a test on a
    byte: the bytes of other characters are all above 127, so walking the
    bytes and walking the characters find the same places. *)

From S2P Require Import Prelude.
From Stdlib Require Import ZArith Lia Bool String Ascii.
From stdpp Require Import base strings list.

Open Scope nat_scope.

Abbreviation bytes := (list ascii).

(** A literal. *)
Definition lit (s : string) : bytes := list_ascii_of_string s.

Definition byte (c : ascii) : nat := nat_of_ascii c.
Definition eqb_text (a b : bytes) : bool := bool_decide (a = b).
(** [matches!(text, "a" | "b" | ..)]. *)
Definition one_of (words : list string) (text : bytes) : bool :=
  existsb (fun w => eqb_text text (lit w)) words.

(** ** Bytes *)

Definition is_ascii_digit (c : ascii) : bool := byte_in 48 57 c.
Definition is_ascii_lowercase (c : ascii) : bool := byte_in 97 122 c.
Definition is_ascii_alphabetic (c : ascii) : bool := byte_in 65 90 c || byte_in 97 122 c.
(** [u8::is_ascii_whitespace]: space, tab, line feed, form feed, carriage return. *)
Definition is_ascii_whitespace (c : ascii) : bool :=
  (byte c =? 32) || (byte c =? 9) || (byte c =? 10) || (byte c =? 12) || (byte c =? 13).
(** The second and later bytes of a character. *)
Definition is_continuation (c : ascii) : bool := byte_in 128 191 c.
(** [str::is_char_boundary]. *)
Definition is_char_boundary (text : bytes) (i : nat) : bool :=
  match text !! i with
  | Some c => negb (is_continuation c)
  | None => i =? length text
  end.

Definition newline : ascii := "010"%char.
Definition quote : ascii := "034"%char.
Definition backslash : ascii := "\"%char.
Definition eqc (c b : ascii) : bool := Ascii.eqb b c.

(** Well-formed UTF-8, table 3-7 of the Unicode standard. *)
Fixpoint valid_utf8 (text : bytes) : bool :=
  match text with
  | [] => true
  | a :: r1 =>
      if byte a <=? 127 then valid_utf8 r1 else
      match r1 with
      | [] => false
      | b :: r2 =>
          if byte_in 194 223 a then is_continuation b && valid_utf8 r2 else
          match r2 with
          | [] => false
          | c :: r3 =>
              let second :=
                if byte a =? 224 then byte_in 160 191 b
                else if byte a =? 237 then byte_in 128 159 b else is_continuation b in
              if byte_in 224 239 a then second && is_continuation c && valid_utf8 r3 else
              match r3 with
              | [] => false
              | d :: r4 =>
                  let second :=
                    if byte a =? 240 then byte_in 144 191 b
                    else if byte a =? 244 then byte_in 128 143 b else is_continuation b in
                  byte_in 240 244 a && second && is_continuation c && is_continuation d
                  && valid_utf8 r4
              end
          end
      end
  end.

(** ** Searching *)

(** The length of the longest prefix whose bytes satisfy [f]. *)
Fixpoint count_while (f : ascii -> bool) (text : bytes) : nat :=
  match text with
  | c :: rest => if f c then S (count_while f rest) else 0
  | [] => 0
  end.

(** [str::strip_prefix]. *)
Fixpoint strip_prefix (p text : bytes) : option bytes :=
  match p, text with
  | [], _ => Some text
  | a :: p', b :: text' => if Ascii.eqb a b then strip_prefix p' text' else None
  | _ :: _, [] => None
  end.
(** [str::strip_suffix]. *)
Definition strip_suffix (p text : bytes) : option bytes :=
  match strip_prefix (rev p) (rev text) with Some r => Some (rev r) | None => None end.
Definition starts_with (p text : bytes) : bool :=
  match strip_prefix p text with Some _ => true | None => false end.
Definition ends_with (p text : bytes) : bool :=
  match strip_suffix p text with Some _ => true | None => false end.

(** [str::find]. *)
Fixpoint str_find (p text : bytes) : option nat :=
  if starts_with p text then Some 0
  else match text with [] => None | _ :: rest => option_map S (str_find p rest) end.
Definition contains (p text : bytes) : bool :=
  match str_find p text with Some _ => true | None => false end.
(** [&text[start..end]]. *)
Definition slice (text : bytes) (start stop : nat) : bytes := take (stop - start) (drop start text).
(** [str::split_once]. *)
Definition split_once (p text : bytes) : option (bytes * bytes) :=
  match str_find p text with
  | Some i => Some (take i text, drop (i + length p) text)
  | None => None
  end.
(** [str::split] by a byte test: the pieces between the separators. *)
Fixpoint split_by (f : ascii -> bool) (text : bytes) : list bytes :=
  match text with
  | [] => [[]]
  | c :: rest =>
      if f c then [] :: split_by f rest
      else match split_by f rest with
           | piece :: pieces => (c :: piece) :: pieces
           | [] => [[c]]
           end
  end.
Definition non_empty (text : bytes) : bool := match text with [] => false | _ => true end.
(** [str::split_ascii_whitespace]. *)
Definition split_ascii_whitespace (text : bytes) : list bytes :=
  List.filter non_empty (split_by is_ascii_whitespace text).

(** ** Trimming *)

(** The characters with the Unicode [White_Space] property, by their bytes. *)
Definition ws1 (a : ascii) : bool := byte_in 9 13 a || (byte a =? 32).
Definition ws2 (a b : ascii) : bool := (byte a =? 194) && ((byte b =? 133) || (byte b =? 160)).
Definition ws3 (a b c : ascii) : bool :=
  ((byte a =? 225) && (byte b =? 154) && (byte c =? 128))
  || ((byte a =? 226) && (byte b =? 128)
      && (byte_in 128 138 c || (byte c =? 168) || (byte c =? 169) || (byte c =? 175)))
  || ((byte a =? 226) && (byte b =? 129) && (byte c =? 159))
  || ((byte a =? 227) && (byte b =? 128) && (byte c =? 128)).

(** [str::trim_start]. *)
Fixpoint trim_start (text : bytes) : bytes :=
  match text with
  | a :: r1 =>
      if ws1 a then trim_start r1 else
      match r1 with
      | b :: r2 =>
          if ws2 a b then trim_start r2 else
          match r2 with
          | c :: r3 => if ws3 a b c then trim_start r3 else text
          | [] => text
          end
      | [] => text
      end
  | [] => []
  end.
(** [str::trim_end], on the reversed text. *)
Fixpoint trim_rev (text : bytes) : bytes :=
  match text with
  | c :: r1 =>
      if ws1 c then trim_rev r1 else
      match r1 with
      | b :: r2 =>
          if ws2 b c then trim_rev r2 else
          match r2 with
          | a :: r3 => if ws3 a b c then trim_rev r3 else text
          | [] => text
          end
      | [] => text
      end
  | [] => []
  end.
Definition trim_end (text : bytes) : bytes := rev (trim_rev (rev text)).
Definition trim (text : bytes) : bytes := trim_end (trim_start text).
(** [text.chars().any(char::is_whitespace)]. *)
Fixpoint has_whitespace (text : bytes) : bool :=
  match text with
  | a :: r1 =>
      ws1 a
      || match r1 with
         | b :: r2 => ws2 a b || match r2 with c :: _ => ws3 a b c | [] => false end
         | [] => false
         end
      || has_whitespace r1
  | [] => false
  end.

(** [str::trim_start_matches] for a byte test and for a non-empty text. *)
Fixpoint trim_start_by (f : ascii -> bool) (text : bytes) : bytes :=
  match text with c :: rest => if f c then trim_start_by f rest else text | [] => [] end.
Definition trim_end_by (f : ascii -> bool) (text : bytes) : bytes :=
  rev (trim_start_by f (rev text)).
Definition trim_by (f : ascii -> bool) (text : bytes) : bytes :=
  trim_end_by f (trim_start_by f text).
Fixpoint trim_prefixes (fuel : nat) (p text : bytes) : bytes :=
  match fuel with
  | O => text
  | S fuel' => match strip_prefix p text with Some rest => trim_prefixes fuel' p rest | None => text end
  end.
Definition trim_start_matches (p text : bytes) : bytes := trim_prefixes (length text) p text.

(** ** Integers *)

Definition digit (c : ascii) : option Z :=
  if is_ascii_digit c then Some (Z.of_nat (byte c) - 48)%Z else None.
Fixpoint digits_value (acc : Z) (text : bytes) : option Z :=
  match text with
  | [] => Some acc
  | c :: rest => d ← digit c; digits_value (10 * acc + d)%Z rest
  end.
(** [str::parse] at an unsigned type with the maximum [max]: an optional [+],
    then at least one digit. *)
Definition parse_uint (max : Z) (text : bytes) : option Z :=
  let digits := match text with
                | c :: rest => if eqc "+" c && non_empty rest then rest else text
                | [] => text
                end in
  match digits with
  | [] => None
  | _ => v ← digits_value 0 digits; if (v <=? max)%Z then Some v else None
  end.
Definition parse_u8 : bytes -> option Z := parse_uint 255.
Definition parse_u32 : bytes -> option Z := parse_uint u32_max.
Definition parse_u64 : bytes -> option Z := parse_uint u64_max.

(** ** Laws *)

Lemma eqc_true c b : eqc c b = true <-> b = c.
Proof. apply Ascii.eqb_eq. Qed.

Lemma eqc_refl c : eqc c c = true.
Proof. by apply eqc_true. Qed.

Lemma eqb_text_true a b : eqb_text a b = true <-> a = b.
Proof. apply bool_decide_eq_true. Qed.

Lemma strip_prefix_spec p text r : strip_prefix p text = Some r <-> text = p ++ r.
Proof.
  revert text. induction p as [|a p IH]; intros text; [cbn; split; congruence|].
  destruct text as [|b text]; [done|]. cbn [strip_prefix].
  destruct (Ascii.eqb_spec a b) as [->|Hne].
  - rewrite IH. split; [by intros ->|by intros [= ->]].
  - split; [done|]. by intros [= ? _].
Qed.

Lemma starts_with_spec p text : starts_with p text = true <-> exists r, text = p ++ r.
Proof.
  unfold starts_with. destruct (strip_prefix p text) as [r|] eqn:H.
  - apply strip_prefix_spec in H. split; [by exists r|done].
  - split; [done|]. intros [r Hr]. apply strip_prefix_spec in Hr. congruence.
Qed.

Lemma strip_suffix_spec p text r : strip_suffix p text = Some r <-> text = r ++ p.
Proof.
  unfold strip_suffix. destruct (strip_prefix (rev p) (rev text)) as [q|] eqn:H.
  - apply strip_prefix_spec in H. apply (f_equal (@rev ascii)) in H.
    rewrite rev_app_distr, !rev_involutive in H. subst. split; [by intros [= ->]|].
    intros Heq. f_equal. by eapply app_inv_tail.
  - split; [done|]. intros ->. rewrite rev_app_distr in H.
    by rewrite (proj2 (strip_prefix_spec _ _ _) eq_refl) in H.
Qed.

Lemma ends_with_byte c text : ends_with [c] text = true <-> last text = Some c.
Proof.
  unfold ends_with. destruct (strip_suffix [c] text) as [r|] eqn:H.
  - apply strip_suffix_spec in H as ->. by rewrite last_snoc.
  - split; [done|]. intros Hl. apply last_Some in Hl as [l' ->].
    by rewrite (proj2 (strip_suffix_spec _ _ _) eq_refl) in H.
Qed.

Lemma strip_prefix_app p t : strip_prefix p (p ++ t) = Some t.
Proof. by apply strip_prefix_spec. Qed.

Lemma eqb_text_false a b : a <> b -> eqb_text a b = false.
Proof. intros H. by apply bool_decide_eq_false. Qed.

Lemma split_by_word f w : forallb (fun c => negb (f c)) w = true -> split_by f w = [w].
Proof.
  induction w as [|c w IH]; [done|]. cbn [forallb split_by].
  intros [Hc%negb_true_iff Hw]%andb_true_iff. by rewrite Hc, IH.
Qed.

Lemma split_by_app f w c r :
  forallb (fun c => negb (f c)) w = true -> f c = true -> split_by f (w ++ c :: r) = w :: split_by f r.
Proof.
  intros Hw Hc. induction w as [|b w IH]; cbn [app split_by]; [by rewrite Hc|].
  cbn [forallb] in Hw. apply andb_true_iff in Hw as [Hb%negb_true_iff Hw]. by rewrite Hb, (IH Hw).
Qed.

(** *** Trimming twice *)

(** Whether a white-space character begins the text, or ends the reversed one. *)
Definition ws_head (text : bytes) : bool :=
  match text with
  | a :: r1 =>
      ws1 a || match r1 with
               | b :: r2 => ws2 a b || match r2 with c :: _ => ws3 a b c | [] => false end
               | [] => false
               end
  | [] => false
  end.
Definition ws_last (text : bytes) : bool :=
  match text with
  | c :: r1 =>
      ws1 c || match r1 with
               | b :: r2 => ws2 b c || match r2 with a :: _ => ws3 a b c | [] => false end
               | [] => false
               end
  | [] => false
  end.

Lemma trim_start_head text : ws_head (trim_start text) = false.
Proof.
  induction text as [text IH] using (induction_ltof1 _ (@length ascii)). unfold ltof in IH.
  destruct text as [|a r1]; [done|]. cbn [trim_start].
  destruct (ws1 a) eqn:H1; [apply IH; cbn; lia|].
  destruct r1 as [|b r2]; [cbn; by rewrite H1|].
  destruct (ws2 a b) eqn:H2; [apply IH; cbn; lia|].
  destruct r2 as [|c r3]; [cbn; by rewrite H1, H2|].
  destruct (ws3 a b c) eqn:H3; [apply IH; cbn; lia|]. cbn. by rewrite H1, H2, H3.
Qed.

Lemma trim_rev_last text : ws_last (trim_rev text) = false.
Proof.
  induction text as [text IH] using (induction_ltof1 _ (@length ascii)). unfold ltof in IH.
  destruct text as [|c r1]; [done|]. cbn [trim_rev].
  destruct (ws1 c) eqn:H1; [apply IH; cbn; lia|].
  destruct r1 as [|b r2]; [cbn; by rewrite H1|].
  destruct (ws2 b c) eqn:H2; [apply IH; cbn; lia|].
  destruct r2 as [|a r3]; [cbn; by rewrite H1, H2|].
  destruct (ws3 a b c) eqn:H3; [apply IH; cbn; lia|]. cbn. by rewrite H1, H2, H3.
Qed.

Lemma trim_start_id text : ws_head text = false -> trim_start text = text.
Proof.
  destruct text as [|a r1]; [done|]. cbn [ws_head trim_start]. intros [-> H]%orb_false_iff.
  destruct r1 as [|b r2]; [done|]. apply orb_false_iff in H as [-> H].
  destruct r2 as [|c r3]; [done|]. by rewrite H.
Qed.

Lemma trim_rev_id text : ws_last text = false -> trim_rev text = text.
Proof.
  destruct text as [|c r1]; [done|]. cbn [ws_last trim_rev]. intros [-> H]%orb_false_iff.
  destruct r1 as [|b r2]; [done|]. apply orb_false_iff in H as [-> H].
  destruct r2 as [|a r3]; [done|]. by rewrite H.
Qed.

Lemma trim_rev_suffix text : exists p, text = p ++ trim_rev text.
Proof.
  induction text as [text IH] using (induction_ltof1 _ (@length ascii)). unfold ltof in IH.
  destruct text as [|c r1]; [by exists []|]. cbn [trim_rev].
  destruct (ws1 c).
  { destruct (IH r1) as [p Hp]; [cbn; lia|]. exists (c :: p). cbn. by rewrite <- Hp. }
  destruct r1 as [|b r2]; [by exists []|]. destruct (ws2 b c).
  { destruct (IH r2) as [p Hp]; [cbn; lia|]. exists (c :: b :: p). cbn. by rewrite <- Hp. }
  destruct r2 as [|a r3]; [by exists []|]. destruct (ws3 a b c); [|by exists []].
  destruct (IH r3) as [p Hp]; [cbn; lia|]. exists (c :: b :: a :: p). cbn. by rewrite <- Hp.
Qed.

Lemma ws_head_app t1 t2 : ws_head (t1 ++ t2) = false -> ws_head t1 = false.
Proof.
  destruct t1 as [|a [|b [|c t1]]]; cbn [app ws_head]; [done| | |done]; rewrite !orb_false_iff; tauto.
Qed.

Lemma trim_trim text : trim (trim text) = trim text.
Proof.
  unfold trim, trim_end. set (y := trim_start text).
  destruct (trim_rev_suffix (rev y)) as [p Hp]. apply (f_equal (@rev ascii)) in Hp.
  rewrite rev_involutive, rev_app_distr in Hp.
  rewrite (trim_start_id (rev (trim_rev (rev y)))).
  - rewrite rev_involutive. by rewrite (trim_rev_id _ (trim_rev_last (rev y))).
  - apply (ws_head_app _ (rev p)). rewrite <- Hp. apply trim_start_head.
Qed.

(** ** Texts that trimming keeps *)

Definition is_ascii (c : ascii) : bool := byte c <=? 127.
Definition plain (c : ascii) : bool := is_ascii c && negb (ws1 c).
Definition solid (t : bytes) : bool :=
  match head t, last t with Some a, Some b => plain a && plain b | _, _ => false end.

Lemma trim_start_solid a t : plain a = true -> trim_start (a :: t) = a :: t.
Proof.
  unfold plain, is_ascii. intros [Ha%Nat.leb_le Hw%negb_true_iff]%andb_true_iff.
  cbn [trim_start]. rewrite Hw. destruct t as [|b t]; [done|].
  assert (ws2 a b = false) as ->.
  { unfold ws2. apply andb_false_iff. left. apply Nat.eqb_neq. lia. }
  destruct t as [|c t]; [done|]. assert (ws3 a b c = false) as ->; [|done].
  unfold ws3. repeat (apply orb_false_iff; split); rewrite !andb_false_iff;
    repeat first [left; apply Nat.eqb_neq; lia | left].
Qed.

Lemma trim_rev_solid c t : plain c = true -> trim_rev (c :: t) = c :: t.
Proof.
  unfold plain, is_ascii. intros [Ha%Nat.leb_le Hw%negb_true_iff]%andb_true_iff.
  cbn [trim_rev]. rewrite Hw. destruct t as [|b t]; [done|].
  assert (ws2 b c = false) as ->.
  { unfold ws2. apply andb_false_iff. right. apply orb_false_iff.
    split; apply Nat.eqb_neq; lia. }
  destruct t as [|a t]; [done|]. assert (ws3 a b c = false) as ->; [|done].
  assert (byte_in 128 138 c = false).
  { unfold byte_in, byte in *. apply andb_false_iff. left. apply Nat.leb_gt. lia. }
  unfold ws3. rewrite H.
  repeat (apply orb_false_iff; split); apply andb_false_iff; right; try (apply Nat.eqb_neq; lia).
  cbn. rewrite !orb_false_iff. split_and!; apply Nat.eqb_neq; lia.
Qed.

Lemma trim_solid t : solid t = true -> trim t = t.
Proof.
  unfold solid. destruct (head t) as [a|] eqn:Ha; [|done]. destruct (last t) as [b|] eqn:Hb; [|done].
  intros [Hpa Hpb]%andb_true_iff. unfold trim, trim_end. destruct t as [|a' t]; [done|].
  injection Ha as ->. rewrite trim_start_solid by done.
  apply last_Some in Hb as [l Hl]. rewrite Hl, rev_unit, trim_rev_solid by done.
  cbn. by rewrite rev_involutive.
Qed.

(** ** Writing texts *)

(** [parts.join(sep)]. *)
Fixpoint join (sep : bytes) (ts : list bytes) : bytes :=
  match ts with
  | [] => []
  | [t] => t
  | t :: ts' => t ++ sep ++ join sep ts'
  end.

(** Unsigned integers in decimal. *)
Definition digit_char (d : Z) : ascii := ascii_of_nat (48 + Z.to_nat d).
Fixpoint decimal_from (fuel : nat) (v : Z) (tail : bytes) : bytes :=
  match fuel with
  | O => tail
  | S fuel' =>
      if (v <? 10)%Z then digit_char v :: tail
      else decimal_from fuel' (v / 10)%Z (digit_char (v mod 10)%Z :: tail)
  end.
(** Twenty digits are enough for 64 bits. *)
Definition decimal (v : Z) : bytes := decimal_from 20 v [].

Lemma digit_char_digit v : (0 <= v < 10)%Z -> is_ascii_digit (digit_char v) = true /\ digit (digit_char v) = Some v.
Proof.
  intros Hv. unfold digit_char, digit, is_ascii_digit, byte_in, byte.
  rewrite nat_ascii_embedding by lia.
  destruct ((48 <=? 48 + Z.to_nat v) && (48 + Z.to_nat v <=? 57)) eqn:E.
  - split; [done|]. f_equal. lia.
  - exfalso. apply andb_false_iff in E. rewrite !Nat.leb_gt in E. lia.
Qed.

Lemma decimal_from_digits fuel v tail :
  (0 <= v)%Z -> forallb is_ascii_digit tail = true -> forallb is_ascii_digit (decimal_from fuel v tail) = true.
Proof.
  revert v tail. induction fuel as [|fuel IH]; intros v tail Hv Ht; [done|]. cbn [decimal_from].
  destruct (Z.ltb_spec v 10); cbn [forallb].
  - by rewrite (proj1 (digit_char_digit v ltac:(lia))).
  - apply IH; [apply Z.div_pos; lia|]. cbn [forallb].
    rewrite (proj1 (digit_char_digit (v mod 10) ltac:(pose proof (Z.mod_pos_bound v 10); lia))). done.
Qed.

Lemma decimal_from_value fuel v tail :
  (0 <= v < 10 ^ Z.of_nat fuel)%Z -> digits_value 0 (decimal_from fuel v tail) = digits_value v tail.
Proof.
  revert v tail. induction fuel as [|fuel IH]; intros v tail Hv.
  { assert (v = 0%Z) as -> by (change (10 ^ Z.of_nat 0)%Z with 1%Z in Hv; lia). done. }
  cbn [decimal_from]. destruct (Z.ltb_spec v 10).
  - cbn [digits_value]. rewrite (proj2 (digit_char_digit v ltac:(lia))). cbn [mbind option_bind].
    f_equal.
  - pose proof (Z.mod_pos_bound v 10 ltac:(lia)). rewrite IH; cycle 1.
    { split; [apply Z.div_pos; lia|]. apply Z.div_lt_upper_bound; [lia|].
      rewrite Nat2Z.inj_succ, Z.pow_succ_r in Hv by lia. lia. }
    cbn [digits_value]. rewrite (proj2 (digit_char_digit (v mod 10) ltac:(lia))). cbn [mbind option_bind].
    f_equal. rewrite (Z.div_mod v 10) at 3 by lia. lia.
Qed.

Lemma decimal_from_cons fuel v c m : exists c' m', decimal_from fuel v (c :: m) = c' :: m'.
Proof.
  revert v c m. induction fuel as [|fuel IH]; intros v c m; cbn [decimal_from]; [by exists c, m|].
  destruct (v <? 10)%Z; [by exists (digit_char v), (c :: m)|apply IH].
Qed.

Lemma decimal_cons v : exists c m, decimal v = c :: m.
Proof.
  unfold decimal. generalize 19. intros n. cbn [decimal_from].
  destruct (v <? 10)%Z; [by exists (digit_char v), []|apply decimal_from_cons].
Qed.

Lemma u64_decimal v : is_u64 v = true -> parse_u64 (decimal v) = Some v /\ forallb is_ascii_digit (decimal v) = true.
Proof.
  unfold is_u64. intros [H1%Z.leb_le H2%Z.leb_le]%andb_true_iff.
  assert (Hd : forallb is_ascii_digit (decimal v) = true) by (by apply decimal_from_digits).
  split; [|done]. unfold parse_u64, parse_uint. destruct (decimal_cons v) as (c & m & E).
  rewrite E in *. assert (eqc "+" c = false) as ->.
  { apply not_true_is_false. intros ->%eqc_true. done. }
  cbn [andb]. rewrite <- E. unfold decimal. rewrite decimal_from_value; [|split; [done|]].
  - cbn. by rewrite (proj2 (Z.leb_le _ _) H2).
  - eapply Z.le_lt_trans; [exact H2|]. done.
Qed.
