(* ===== verification/PolicySyntax.v ===== *)
(** * The syntax of policies

    [voom-policy/src/syntax]: spans and locations ([span.rs]), the syntax tree
    ([ast.rs]) and the helpers that take statement texts apart ([text.rs]);
    and the diagnostics ([diagnostic.rs]). The message of a diagnostic and its
    [suggestion], which is always absent, are left out.

    Offsets are [nat]: the length of a [str] fits in an [isize], so the
    saturating additions of the code never saturate. *)

From Stdlib Require Import ZArith Lia Bool String Ascii.
From stdpp Require Import base strings list.
From S2P Require Import Prelude Bytes.

Open Scope nat_scope.

(** ** Spans *)

Record SourceSpan := span_new { start : nat; stop : nat }.
Record SourceLocation := { line : nat; column : nat }.

#[global] Instance SourceSpan_eq_dec : EqDecision SourceSpan.
Proof. solve_decision. Defined.

Definition span_len (s : SourceSpan) : nat := stop s - start s.
Definition span_is_empty (s : SourceSpan) : bool := span_len s =? 0.

(** The characters that begin before the offset; only the first byte of a
    character moves the column. *)
Fixpoint line_column_from (text : bytes) (left line column : nat) : SourceLocation :=
  match text, left with
  | c :: rest, S left' =>
      if is_continuation c then line_column_from rest left' line column
      else if eqc newline c then line_column_from rest left' (line + 1) 1
      else line_column_from rest left' line (column + 1)
  | _, _ => {| line := line; column := column |}
  end.
Definition line_column (source : bytes) (byte_offset : nat) : SourceLocation :=
  line_column_from source byte_offset 1 1.

(** ** Diagnostics *)

Inductive DiagnosticCode :=
  | UnexpectedToken | SourceSizeExceeded | NestingDepthExceeded | NumericLiteralOutOfRange
  | UnknownTopLevelBlock | UnknownPhaseStatementOrOperation | DeferredPhaseInheritance
  | DuplicatePhaseName | UnknownPhaseReference | SelfDependency | DependencyCycle
  | InvalidRunIfTrigger | InvalidOnErrorValue | DuplicateConfigSetting | UnsupportedContainer
  | InvalidTrackTarget | InvalidDefaultStrategy | InvalidLanguageCode | InvalidCoreFieldPath
  | InvalidRuleMatchMode | UnknownExtensionNamespace | InvalidMetadataRequiresTools
  | TagOrderingError | AmbiguousTagOperationConflict | DeferredComposition
  | DeferredExecutionOperation | UnsupportedTranscodeShape | InvalidVideoProfileSetting.
#[global] Instance DiagnosticCode_eq_dec : EqDecision DiagnosticCode.
Proof. solve_decision. Defined.

Inductive DiagnosticSeverity := SeverityError | SeverityWarning.
#[global] Instance DiagnosticSeverity_eq_dec : EqDecision DiagnosticSeverity.
Proof. solve_decision. Defined.

Inductive DiagnosticStage := StageParse | StageValidate | StageCompile.

Record RelatedSpan := { r_span : SourceSpan; r_location : SourceLocation }.

Record PolicyDiagnostic := {
  d_code : DiagnosticCode;
  d_severity : DiagnosticSeverity;
  d_stage : DiagnosticStage;
  d_span : SourceSpan;
  d_location : SourceLocation;
  d_related : list RelatedSpan;
}.

Definition PolicyDiagnostic_error (code : DiagnosticCode) (stage : DiagnosticStage)
    (sp : SourceSpan) (location : SourceLocation) : PolicyDiagnostic := {|
  d_code := code; d_severity := SeverityError; d_stage := stage; d_span := sp;
  d_location := location; d_related := [] |}.
Definition PolicyDiagnostic_warning (code : DiagnosticCode) (stage : DiagnosticStage)
    (sp : SourceSpan) (location : SourceLocation) : PolicyDiagnostic := {|
  d_code := code; d_severity := SeverityWarning; d_stage := stage; d_span := sp;
  d_location := location; d_related := [] |}.

Definition is_error (d : PolicyDiagnostic) : bool := bool_decide (d_severity d = SeverityError).
(** [has_errors] of [validate.rs] and of [pipeline.rs]. *)
Definition has_errors (diagnostics : list PolicyDiagnostic) : bool := existsb is_error diagnostics.

(** ** The syntax tree *)

Record Spanned (A : Type) := spanned { value : A; span : SourceSpan }.
Arguments spanned {A} _ _.
Arguments value {A} _.
Arguments span {A} _.

Unset Elimination Schemes.
Inductive ExprAst :=
  | EString (v : Spanned bytes)
  | EIdentifier (v : Spanned bytes)
  | ENumber (v : Spanned bytes)
  | EBoolean (v : Spanned bool)
  | EList (values : list ExprAst) (sp : SourceSpan)
  | EFieldPath (v : Spanned bytes).
Set Elimination Schemes.

Record SettingAst := { s_key : Spanned bytes; s_value : ExprAst }.

Unset Elimination Schemes.
Inductive StatementAst :=
  | Raw (keyword : Spanned bytes) (text : bytes) (sp : SourceSpan)
  | Block (keyword : Spanned bytes) (name : option (Spanned bytes))
      (statements : list StatementAst) (sp : SourceSpan)
  | TranscodeInline (keyword : Spanned bytes) (header : bytes) (settings : list SettingAst)
      (sp : SourceSpan)
  | SynthesizeInline (keyword : Spanned bytes) (header : bytes) (settings : list SettingAst)
      (sp : SourceSpan).
Set Elimination Schemes.

Record PhaseAst := {
  ph_name : Spanned bytes;
  controls : list StatementAst;
  operations : list StatementAst;
}.

Record PolicyAst := {
  p_name : Spanned bytes;
  extends : option (Spanned bytes);
  metadata : list SettingAst;
  config : list SettingAst;
  phases : list PhaseAst;
  unknown_top_level : list StatementAst;
}.

Definition stmt_span (s : StatementAst) : SourceSpan :=
  match s with
  | Raw _ _ sp | Block _ _ _ sp | TranscodeInline _ _ _ sp | SynthesizeInline _ _ _ sp => sp
  end.
Definition stmt_keyword (s : StatementAst) : Spanned bytes :=
  match s with
  | Raw k _ _ | Block k _ _ _ | TranscodeInline k _ _ _ | SynthesizeInline k _ _ _ => k
  end.
Definition keyword_is (k : string) (s : StatementAst) : bool :=
  eqb_text (value (stmt_keyword s)) (lit k).

Definition expr_span (e : ExprAst) : SourceSpan :=
  match e with
  | EString v | EIdentifier v | ENumber v | EFieldPath v => span v
  | EBoolean v => span v
  | EList _ sp => sp
  end.

(** ** Statement texts *)

Definition statement_text (s : StatementAst) : bytes :=
  match s with
  | Raw _ text _ => text
  | TranscodeInline _ header _ _ | SynthesizeInline _ header _ _ => header
  | Block k (Some name) _ _ => value k ++ lit " " ++ value name
  | Block k None _ _ => value k
  end.

Definition word_separator (c : ascii) : bool :=
  is_ascii_whitespace c || eqc "[" c || eqc "]" c || eqc "," c || eqc ":" c.
Definition words (text : bytes) : list bytes := List.filter non_empty (split_by word_separator text).

(** The offsets of the first [\[] and, counted from behind it, the next [\]]. *)
Definition bracketed (text : bytes) : option (nat * nat) :=
  open ← str_find (lit "[") text;
  close ← str_find (lit "]") (drop (open + 1) text);
  Some (open, close).
Definition list_values (text : bytes) : list bytes :=
  match bracketed text with
  | Some (open, close) =>
      List.filter non_empty
        (map trim (split_by (eqc ",") (slice text (open + 1) (open + 1 + close))))
  | None => []
  end.
Definition text_after_list (text : bytes) : option bytes :=
  '(open, close) ← bracketed text; Some (trim (drop (open + 1 + close + 1) text)).

Definition dependency_values (text : bytes) : list bytes :=
  let listed := list_values text in
  if bool_decide (listed ≠ []) || contains (lit "[") text then listed
  else drop 1 (words text).

Definition setting_value (text : bytes) : option bytes :=
  match split_once (lit ":") text with
  | Some (_, v) => Some (trim v)
  | None => words text !! 1
  end.

(** The offset behind the closing quote of a quoted text; the first byte is
    the opening quote. *)
Fixpoint quoted_end_from (rest : bytes) (cursor : nat) (escaped : bool) : option nat :=
  match rest with
  | [] => None
  | c :: rest' =>
      if escaped then quoted_end_from rest' (cursor + 1) false
      else if eqc backslash c then quoted_end_from rest' (cursor + 1) true
      else if eqc quote c then Some (cursor + 1)
      else quoted_end_from rest' (cursor + 1) false
  end.
Definition quoted_text_end (text : bytes) : option nat := quoted_end_from (drop 1 text) 1 false.

Definition quoted_value_and_rest (text : bytes) : option (bytes * bytes) :=
  begin ← str_find [quote] text;
  let quoted := drop begin text in
  stop ← quoted_text_end quoted;
  Some (slice quoted 1 (stop - 1), trim (drop stop quoted)).
Definition quoted_value (text : bytes) : option bytes := option_map fst (quoted_value_and_rest text).
Definition text_after_quoted_value (text : bytes) : option bytes :=
  option_map snd (quoted_value_and_rest text).

Definition rule_header (text : bytes) : option (bytes * bytes) :=
  let text := trim text in
  if negb (starts_with [quote] text) then None else
  '(name, rest) ← quoted_value_and_rest text;
  rest ← strip_prefix (lit "when ") rest;
  let condition := trim rest in
  if non_empty condition then Some (name, condition) else None.

Definition is_single_value (text : bytes) : bool :=
  let text := trim text in
  if starts_with [quote] text then
    match quoted_text_end text with
    | Some stop => negb (non_empty (trim (drop stop text)))
    | None => false
    end
  else length (words text) =? 1.

Definition comparison_rhs (text op : bytes) : option bytes :=
  let rhs := match split_once (lit " " ++ op ++ lit " ") text with
             | Some (_, rhs) => Some (trim rhs)
             | None => option_map (fun '(_, rhs) => trim rhs) (split_once op text)
             end in
  rhs ← rhs; if non_empty rhs then Some rhs else None.

Definition push_part (part : bytes) (parts : list bytes) : list bytes :=
  if non_empty (trim part) then trim part :: parts else parts.
(** [skip] counts the bytes of a delimiter that are still to be passed; [part]
    is the text since the last delimiter. *)
Fixpoint split_from (delimiter text : bytes) (skip : nat) (in_string escaped : bool)
    (paren_depth : nat) (part : bytes) : list bytes :=
  match text with
  | [] => push_part part []
  | c :: rest =>
      match skip with
      | S skip' => split_from delimiter rest skip' in_string escaped paren_depth part
      | O =>
          if escaped then split_from delimiter rest 0 in_string false paren_depth (part ++ [c])
          else if in_string && eqc backslash c then
            split_from delimiter rest 0 in_string true paren_depth (part ++ [c])
          else if eqc quote c then
            split_from delimiter rest 0 (negb in_string) false paren_depth (part ++ [c])
          else if negb in_string && eqc "(" c then
            split_from delimiter rest 0 in_string false (paren_depth + 1) (part ++ [c])
          else if negb in_string && eqc ")" c then
            split_from delimiter rest 0 in_string false (paren_depth - 1) (part ++ [c])
          else if negb in_string && (paren_depth =? 0) && starts_with delimiter text then
            push_part part (split_from delimiter rest (length delimiter - 1) in_string false 0 [])
          else split_from delimiter rest 0 in_string false paren_depth (part ++ [c])
      end
  end.
Definition split_outside_quotes (text delimiter : bytes) : list bytes :=
  split_from delimiter text 0 false false 0 [].
Definition split_bool_expression (text delimiter : bytes) : option (list bytes) :=
  let parts := split_outside_quotes text delimiter in
  if 1 <? length parts then Some parts else None.

Fixpoint balanced_from (text : bytes) (depth : nat) (in_string escaped : bool) : bool :=
  match text with
  | [] => depth =? 0
  | c :: rest =>
      if escaped then balanced_from rest depth in_string false
      else if in_string && eqc backslash c then balanced_from rest depth in_string true
      else if eqc quote c then balanced_from rest depth (negb in_string) false
      else if in_string then balanced_from rest depth in_string false
      else if eqc "(" c then balanced_from rest (depth + 1) in_string false
      else if eqc ")" c then
        if (depth - 1 =? 0) && non_empty rest then false
        else balanced_from rest (depth - 1) in_string false
      else balanced_from rest depth in_string false
  end.
Definition is_balanced_parenthesized (text : bytes) : bool := balanced_from text 0 false false.

(** Every round removes two bytes. *)
Fixpoint strip_groups (fuel : nat) (text : bytes) : bytes :=
  match fuel with
  | O => text
  | S fuel' =>
      match strip_prefix (lit "(") text with
      | None => text
      | Some rest =>
          match strip_suffix (lit ")") rest with
          | None => text
          | Some inner =>
              if is_balanced_parenthesized text then strip_groups fuel' (trim inner) else text
          end
      end
  end.
Definition strip_outer_group (text : bytes) : bytes := strip_groups (length text) (trim text).
