(* ===== verification/PolicyParser.v ===== *)
(** * The policy parser

    [voom-policy/src/syntax/parser.rs]: a recursive descent over the bytes of
    the source. [Parser] is its state, the cursor and the nesting depth; the
    source itself does not change. A loop takes fuel and the two recursions
    ([parse_expr] through lists, [parse_statement] through blocks) take a
    number of levels; running out of either is [OutOfFuel], an answer the code
    does not have, and [parse_policy_total] shows that it is never given. *)

From Stdlib Require Import ZArith Lia Bool String Ascii.
From stdpp Require Import base strings list.
From S2P Require Import Prelude Bytes PolicySyntax.

Open Scope nat_scope.

Record ParseError := { diagnostics : list PolicyDiagnostic }.

Inductive Stop := Rejected (e : ParseError) | OutOfFuel.

Definition is_ident_start (c : ascii) : bool := is_ascii_alphabetic c || eqc "_" c.
Definition is_ident_continue (c : ascii) : bool :=
  is_ascii_alphanumeric c || eqc "_" c || eqc "-" c || eqc "." c.

Definition MAX_NESTING_DEPTH : nat := 64.

Record Parser := { cursor : nat; depth : nat }.
Abbreviation P := (Tx Parser Stop).

(** The offset of the closing quote of a string, from behind the opening one. *)
Fixpoint string_close (text : bytes) : option nat :=
  match text with
  | [] => None
  | c :: rest =>
      if eqc backslash c then
        match rest with [] => None | _ :: rest' => option_map (fun n => n + 2) (string_close rest') end
      else if eqc quote c then Some 0
      else option_map S (string_close rest)
  end.

Definition statement_keywords : list string :=
  ["depends_on"; "skip"; "run_if"; "on_error"; "container"; "keep"; "remove"; "order";
   "defaults"; "actions"; "clear_tags"; "set_tag"; "delete_tag"; "when"; "rules"; "rule";
   "extend"; "transcode"; "synthesize"; "ensure"; "place"; "verify"]%string.

Definition is_phase_control (keyword : bytes) : bool :=
  one_of ["depends_on"; "skip"; "run_if"; "on_error"]%string keyword.

Section with_source.
Context (source : bytes).

(** Fuel for one loop: every round but the last moves the cursor. *)
Definition rounds : nat := length source + 2.
(** One level per nesting depth up to the first one that is refused. *)
Definition levels : nat := MAX_NESTING_DEPTH + 2.

Definition error_code_at (code : DiagnosticCode) (offset : nat) : Stop :=
  Rejected {| diagnostics := [PolicyDiagnostic_error code StageParse
    (span_new offset ((offset + 1) `min` length source)) (line_column source offset)] |}.
Definition error_at (offset : nat) : Stop := error_code_at UnexpectedToken offset.

Definition set_cursor (i : nat) : P unit := modify (fun p => {| cursor := i; depth := depth p |}).
Definition set_depth (d : nat) : P unit := modify (fun p => {| cursor := cursor p; depth := d |}).
(** A parser of its own on the same source. *)
Definition inner {A} (from nested : nat) (m : P A) : P A := fun p =>
  let '(r, _) := m {| cursor := from; depth := nested |} in (r, p).

Definition byte_at (i : nat) (c : ascii) : bool :=
  match source !! i with Some b => eqc c b | None => false end.
Definition is_eof : P bool := gets (fun p => length source <=? cursor p).
Definition comment_at (i : nat) : bool := byte_at i "/" && byte_at (i + 1) "/".
Definition line_end (i : nat) : nat := i + count_while (fun c => negb (eqc newline c)) (drop i source).

Fixpoint skip_from (fuel i : nat) : nat :=
  match fuel with
  | O => i
  | S fuel' =>
      let i := i + count_while is_ascii_whitespace (drop i source) in
      if comment_at i then skip_from fuel' (line_end (i + 2)) else i
  end.
Definition skip_ws_and_comments : P unit :=
  i ← gets cursor; set_cursor (skip_from rounds i).
Definition consume_line_comment : P unit :=
  i ← gets cursor; if comment_at i then set_cursor (line_end i) else mret tt.

Definition consume_byte (c : ascii) : P bool :=
  i ← gets cursor;
  if byte_at i c then (_ ← set_cursor (i + 1); mret true) else mret false.
Definition expect_byte (c : ascii) : P unit :=
  _ ← skip_ws_and_comments;
  found ← consume_byte c;
  i ← gets cursor;
  if found : bool then mret tt else throw (error_at i).

(** The end of the identifier that starts at [i]. *)
Definition ident_end (i : nat) : nat := i + 1 + count_while is_ident_continue (drop (i + 1) source).
Definition peek_identifier (i : nat) : option (Spanned bytes) :=
  first ← source !! i;
  if is_ident_start first
  then Some (spanned (slice source i (ident_end i)) (span_new i (ident_end i)))
  else None.
Definition parse_identifier : P (Spanned bytes) :=
  _ ← skip_ws_and_comments;
  i ← gets cursor;
  match peek_identifier i with
  | Some ident => _ ← set_cursor (stop (span ident)); mret ident
  | None => throw (error_at i)
  end.
Definition expect_keyword (expected : string) : P unit :=
  ident ← parse_identifier;
  if eqb_text (value ident) (lit expected) then mret tt else throw (error_at (start (span ident))).

Definition parse_string : P (Spanned bytes) :=
  _ ← skip_ws_and_comments;
  begin ← gets cursor;
  _ ← expect_byte quote;
  from ← gets cursor;
  match string_close (drop from source) with
  | Some n =>
      _ ← set_cursor (from + n + 1);
      mret (spanned (slice source from (from + n)) (span_new begin (from + n + 1)))
  | None => throw (error_at begin)
  end.
Definition skip_string_at (begin : nat) : result Stop nat :=
  match string_close (drop (begin + 1) source) with
  | Some n => Ok (begin + 1 + n + 1)
  | None => Err (error_at begin)
  end.

(** ** Values *)

Definition scalar (text : bytes) (sp : SourceSpan) : ExprAst :=
  if eqb_text text (lit "true") then EBoolean (spanned true sp)
  else if eqb_text text (lit "false") then EBoolean (spanned false sp)
  else if forallb is_ascii_digit text then ENumber (spanned text sp)
  else if contains (lit ".") text then EFieldPath (spanned text sp)
  else EIdentifier (spanned text sp).

Definition scalar_byte (c : ascii) : bool :=
  negb (is_ascii_whitespace c || eqc "," c || eqc "]" c || eqc "}" c).

Fixpoint parse_list_values (fuel : nat) (parse_expr : P ExprAst) : P (list ExprAst) :=
  match fuel with
  | O => throw OutOfFuel
  | S fuel' =>
      _ ← skip_ws_and_comments;
      closed ← consume_byte "]";
      if closed : bool then mret [] else
      eof ← is_eof;
      i ← gets cursor;
      if eof : bool then throw (error_at i) else
      v ← parse_expr;
      _ ← skip_ws_and_comments;
      _ ← consume_byte ",";
      vs ← parse_list_values fuel' parse_expr;
      mret (v :: vs)
  end.

Definition parse_list (parse_expr : P ExprAst) : P ExprAst :=
  begin ← gets cursor;
  _ ← expect_byte "[";
  outer ← gets depth;
  _ ← set_depth (outer + 1);
  i ← gets cursor;
  if MAX_NESTING_DEPTH <? outer + 1 then throw (error_code_at NestingDepthExceeded i) else
  values ← parse_list_values rounds parse_expr;
  inner_depth ← gets depth;
  _ ← set_depth (inner_depth - 1);
  i ← gets cursor;
  mret (EList values (span_new begin i)).

Definition parse_value (parse_list : P ExprAst) : P ExprAst :=
  _ ← skip_ws_and_comments;
  begin ← gets cursor;
  if byte_at begin quote then (s ← parse_string; mret (EString s))
  else if byte_at begin "[" then parse_list
  else
    let i := begin + count_while scalar_byte (drop begin source) in
    _ ← set_cursor i;
    if i =? begin then throw (error_at begin)
    else mret (scalar (slice source begin i) (span_new begin i)).

Fixpoint parse_expr (levels : nat) : P ExprAst :=
  match levels with
  | O => throw OutOfFuel
  | S levels' => parse_value (parse_list (parse_expr levels'))
  end.

(** ** Settings *)

(** The settings of a block up to its closing brace, with [:] after the key
    ([parse_setting_list]) or without ([parse_space_setting_list]). *)
Fixpoint parse_settings (fuel : nat) (colon : bool) : P (list SettingAst) :=
  match fuel with
  | O => throw OutOfFuel
  | S fuel' =>
      _ ← skip_ws_and_comments;
      closed ← consume_byte "}";
      if closed : bool then mret [] else
      eof ← is_eof;
      i ← gets cursor;
      if eof : bool then throw (error_at i) else
      key ← parse_identifier;
      _ ← (if colon then (_ ← skip_ws_and_comments; expect_byte ":") else mret tt);
      v ← parse_expr levels;
      settings ← parse_settings fuel' colon;
      mret ({| s_key := key; s_value := v |} :: settings)
  end.
Definition parse_setting_list : P (list SettingAst) := parse_settings rounds true.
Definition parse_space_setting_list : P (list SettingAst) := parse_settings rounds false.
Definition parse_setting_block : P (list SettingAst) :=
  _ ← skip_ws_and_comments;
  _ ← expect_byte "{";
  parse_setting_list.

(** ** Statements *)

Definition starts_statement_keyword_at (idx : nat) (current_keyword : bytes) : bool :=
  match (if idx =? 0 then None else source !! (idx - 1)), source !! idx with
  | Some before, Some first =>
      if negb (is_ascii_whitespace before) then false
      else if negb (is_ident_start first) then false
      else
        let candidate := slice source idx (ident_end idx) in
        if eqb_text current_keyword (lit "skip") && eqb_text candidate (lit "when") then false
        else if eqb_text current_keyword (lit "rule") && eqb_text candidate (lit "when") then false
        else one_of statement_keywords candidate
  | _, _ => false
  end.

(** Where a statement ends, where its block opens and where it closes. *)
Fixpoint scan_statement (fuel : nat) (keyword : bytes) (from idx nested : nat)
    (block_start : option nat) : result Stop (nat * option nat * option nat) :=
  match fuel with
  | O => Err OutOfFuel
  | S fuel' =>
      match source !! idx with
      | None => Ok (idx, block_start, None)
      | Some c =>
          if (nested =? 0) && (from <? idx) && starts_statement_keyword_at idx keyword
          then Ok (idx, block_start, None)
          else if eqc quote c then
            (idx' ← skip_string_at idx;
             scan_statement fuel' keyword from idx' nested block_start)
          else if eqc "/" c && byte_at (idx + 1) "/" && (nested =? 0)
          then Ok (idx, block_start, None)
          else if (eqc newline c || eqc "}" c) && (nested =? 0) then Ok (idx, block_start, None)
          else if eqc "{" c then
            scan_statement fuel' keyword from (idx + 1) (nested + 1)
              (if nested =? 0 then Some idx else block_start)
          else if eqc "}" c then
            if nested - 1 =? 0 then Ok (idx + 1, block_start, Some idx)
            else scan_statement fuel' keyword from (idx + 1) (nested - 1) block_start
          else scan_statement fuel' keyword from (idx + 1) nested block_start
      end
  end.

Definition parse_inline_block (keyword : Spanned bytes) (begin open_brace : nat)
    (sp : SourceSpan) : P (option StatementAst) :=
  let is_transcode := eqb_text (value keyword) (lit "transcode") in
  if negb is_transcode && negb (eqb_text (value keyword) (lit "synthesize")) then mret None else
  let header := trim (slice source begin open_brace) in
  nested ← gets depth;
  if is_transcode then
    (settings ← inner (open_brace + 1) (nested + 1) parse_setting_list;
     mret (Some (TranscodeInline keyword header settings sp)))
  else
    (settings ← inner (open_brace + 1) (nested + 1) parse_space_setting_list;
     mret (Some (SynthesizeInline keyword header settings sp))).

Definition statement_block_name (after_keyword open_brace : nat) : option (Spanned bytes) :=
  let whole := slice source after_keyword open_brace in
  let text := trim whole in
  if negb (non_empty text) then None else
  offset ← str_find text whole;
  let from := after_keyword + offset in
  Some (spanned text (span_new from (from + length text))).

Fixpoint parse_statements_until (fuel : nat) (parse_statement : P StatementAst)
    (close_brace : nat) : P (list StatementAst) :=
  match fuel with
  | O => throw OutOfFuel
  | S fuel' =>
      _ ← skip_ws_and_comments;
      i ← gets cursor;
      if close_brace <=? i then mret [] else
      s ← parse_statement;
      ss ← parse_statements_until fuel' parse_statement close_brace;
      mret (s :: ss)
  end.

(** What follows the scan: a block is parsed again, from its open brace. *)
Definition finish_statement (parse_statement : P StatementAst) (keyword : Spanned bytes)
    (begin : nat) (scanned : nat * option nat * option nat) : P StatementAst :=
  let '(idx, block_start, block_end) := scanned in
  _ ← set_cursor idx;
  _ ← consume_line_comment;
  let text := trim (slice source begin idx) in
  let sp := span_new begin idx in
  match block_start with
  | None => mret (Raw keyword text sp)
  | Some open_brace =>
      close_brace ← lift (ok_or block_end (error_at open_brace));
      inline ← parse_inline_block keyword begin open_brace sp;
      match inline with
      | Some s => mret s
      | None =>
          let name := statement_block_name (stop (span keyword)) open_brace in
          nested ← gets depth;
          statements ← inner (open_brace + 1) (nested + 1)
                         (parse_statements_until rounds parse_statement close_brace);
          mret (Block keyword name statements sp)
      end
  end.

Fixpoint parse_statement (levels : nat) : P StatementAst :=
  match levels with
  | O => throw OutOfFuel
  | S levels' =>
      nested ← gets depth;
      i ← gets cursor;
      if MAX_NESTING_DEPTH <? nested then throw (error_code_at NestingDepthExceeded i) else
      _ ← skip_ws_and_comments;
      begin ← gets cursor;
      keyword ← parse_identifier;
      from ← gets cursor;
      scanned ← lift (scan_statement rounds (value keyword) from from 0 None);
      finish_statement (parse_statement levels') keyword begin scanned
  end.

(** ** Phases and policies *)

Fixpoint parse_phase_body (fuel : nat) : P (list StatementAst * list StatementAst) :=
  match fuel with
  | O => throw OutOfFuel
  | S fuel' =>
      _ ← skip_ws_and_comments;
      closed ← consume_byte "}";
      if closed : bool then mret ([], []) else
      eof ← is_eof;
      i ← gets cursor;
      if eof : bool then throw (error_at i) else
      s ← parse_statement levels;
      '(controls, operations) ← parse_phase_body fuel';
      if is_phase_control (value (stmt_keyword s)) then mret (s :: controls, operations)
      else mret (controls, s :: operations)
  end.

Definition parse_phase : P PhaseAst :=
  _ ← expect_keyword "phase";
  name ← parse_identifier;
  _ ← skip_ws_and_comments;
  _ ← expect_byte "{";
  '(controls, operations) ← parse_phase_body rounds;
  mret {| ph_name := name; controls := controls; operations := operations |}.

Definition empty_ast (name : Spanned bytes) : PolicyAst := {|
  p_name := name; extends := None; metadata := []; config := []; phases := [];
  unknown_top_level := [] |}.
Definition with_extends (parent : Spanned bytes) (a : PolicyAst) : PolicyAst := {|
  p_name := p_name a; extends := Some parent; metadata := metadata a; config := config a;
  phases := phases a; unknown_top_level := unknown_top_level a |}.
Definition with_metadata (settings : list SettingAst) (a : PolicyAst) : PolicyAst := {|
  p_name := p_name a; extends := extends a; metadata := settings; config := config a;
  phases := phases a; unknown_top_level := unknown_top_level a |}.
Definition with_config (settings : list SettingAst) (a : PolicyAst) : PolicyAst := {|
  p_name := p_name a; extends := extends a; metadata := metadata a; config := settings;
  phases := phases a; unknown_top_level := unknown_top_level a |}.
Definition push_phase (ph : PhaseAst) (a : PolicyAst) : PolicyAst := {|
  p_name := p_name a; extends := extends a; metadata := metadata a; config := config a;
  phases := phases a ++ [ph]; unknown_top_level := unknown_top_level a |}.
Definition push_unknown (s : StatementAst) (a : PolicyAst) : PolicyAst := {|
  p_name := p_name a; extends := extends a; metadata := metadata a; config := config a;
  phases := phases a; unknown_top_level := unknown_top_level a ++ [s] |}.

(** One item of the policy block; its keyword is still ahead of the cursor. *)
Definition parse_item (keyword : Spanned bytes) (ast : PolicyAst) : P PolicyAst :=
  if eqb_text (value keyword) (lit "extends") then
    (_ ← set_cursor (stop (span keyword)); parent ← parse_string; mret (with_extends parent ast))
  else if eqb_text (value keyword) (lit "metadata") then
    (_ ← set_cursor (stop (span keyword));
     settings ← parse_setting_block; mret (with_metadata settings ast))
  else if eqb_text (value keyword) (lit "config") then
    (_ ← set_cursor (stop (span keyword));
     settings ← parse_setting_block; mret (with_config settings ast))
  else if eqb_text (value keyword) (lit "phase") then
    (ph ← parse_phase; mret (push_phase ph ast))
  else (s ← parse_statement levels; mret (push_unknown s ast)).

Fixpoint parse_items (fuel : nat) (ast : PolicyAst) : P PolicyAst :=
  match fuel with
  | O => throw OutOfFuel
  | S fuel' =>
      _ ← skip_ws_and_comments;
      closed ← consume_byte "}";
      if closed : bool then mret ast else
      eof ← is_eof;
      i ← gets cursor;
      if eof : bool then throw (error_at i) else
      match peek_identifier i with
      | None => throw (error_at i)
      | Some keyword =>
          ast ← parse_item keyword ast;
          parse_items fuel' ast
      end
  end.

Definition parse_policy : P PolicyAst :=
  _ ← skip_ws_and_comments;
  _ ← expect_keyword "policy";
  name ← parse_string;
  _ ← skip_ws_and_comments;
  _ ← expect_byte "{";
  ast ← parse_items rounds (empty_ast name);
  _ ← skip_ws_and_comments;
  eof ← is_eof;
  i ← gets cursor;
  if eof : bool then mret ast else throw (error_at i).

Definition parse_policy_source : result Stop PolicyAst :=
  fst (parse_policy {| cursor := 0; depth := 0 |}).
End with_source.
