(* ===== verification/PolicyTrees.v ===== *)
(** * What the parser answers

    For every source the parser answers with a tree or with one diagnostic.
    The tree is made of slices of the source: its spans lie on character
    boundaries, siblings follow each other, and the nesting is bounded. First
    scanning and tokens; then values, settings, statements, phases and
    policies: what a parsed tree says about the source. *)

From Stdlib Require Import ZArith Lia Bool String Ascii.
From stdpp Require Import base strings list.
From S2P Require Import Prelude Bytes PolicySyntax PolicyParser.

Open Scope nat_scope.

(** ** Scanning *)

Lemma count_while_le f text : count_while f text <= length text.
Proof. induction text as [|c text IH]; cbn; [done|]. destruct (f c); lia. Qed.

Lemma count_while_take f text : Forall (fun c => f c = true) (take (count_while f text) text).
Proof.
  induction text as [|c text IH]; cbn; [constructor|].
  destruct (f c) eqn:Hc; cbn; [by constructor|constructor].
Qed.

Lemma count_while_stop f text c : text !! count_while f text = Some c -> f c = false.
Proof.
  induction text as [|b text IH]; cbn; [done|].
  destruct (f b) eqn:Hb; cbn; [apply IH|congruence].
Qed.

Lemma count_while_zero f text :
  count_while f text = 0 <-> forall c, text !! 0 = Some c -> f c = false.
Proof.
  destruct text as [|c text]; cbn; [done|]. destruct (f c) eqn:Hc.
  - split; [done|]. intros H. by rewrite (H c) in Hc.
  - split; [congruence|done].
Qed.

Lemma string_close_spec text n :
  string_close text = Some n -> text !! n = Some quote /\ n < length text.
Proof.
  revert n. induction text as [text IH] using (induction_ltof1 _ length); intros n.
  unfold ltof in IH. destruct text as [|c rest]; cbn [string_close]; [done|].
  destruct (eqc backslash c).
  - destruct rest as [|b rest']; [done|].
    destruct (string_close rest') as [m|] eqn:E; [|done]. cbn. intros [= <-].
    destruct (IH rest' ltac:(cbn; lia) m E) as [Hq Hl].
    replace (m + 2) with (S (S m)) by lia. cbn. split; [done|lia].
  - destruct (eqc quote c) eqn:Hq.
    + intros [= <-]. apply eqc_true in Hq as ->. cbn. split; [done|lia].
    + destruct (string_close rest) as [m|] eqn:E; [|done]. cbn. intros [= <-].
      destruct (IH rest ltac:(cbn; lia) m E) as [Hm Hl]. cbn. split; [done|lia].
Qed.

(** ** Character boundaries *)

Lemma ascii_not_continuation c : is_ascii c = true -> is_continuation c = false.
Proof.
  unfold is_ascii, is_continuation, byte_in, byte.
  intros H%Nat.leb_le. apply andb_false_iff. left. apply Nat.leb_gt. lia.
Qed.

Lemma byte_in_above lo hi c : 127 < lo -> byte_in lo hi c = true -> is_ascii c = false.
Proof.
  unfold byte_in, is_ascii, byte. intros Hlo [H%Nat.leb_le _]%andb_true_iff.
  apply Nat.leb_gt. lia.
Qed.

Lemma byte_in_lead lo hi c : 191 < lo -> byte_in lo hi c = true -> is_continuation c = false.
Proof.
  unfold byte_in, is_continuation, byte_in. intros Hlo [H%Nat.leb_le _]%andb_true_iff.
  apply andb_false_iff. right. apply Nat.leb_gt. lia.
Qed.

(** A well-formed text is empty or begins with the first byte of a character,
    whose later bytes are not ASCII. *)
Lemma utf8_char text :
  valid_utf8 text = true -> text = [] \/
  exists a tail rest, text = a :: tail ++ rest /\ is_continuation a = false
    /\ (is_ascii a = true -> tail = [])
    /\ Forall (fun c => is_ascii c = false) tail /\ valid_utf8 rest = true.
Proof.
  destruct text as [|a r1]; [by left|]. cbn [valid_utf8]. intros H. right.
  assert (Hhigh : forall t, (byte a <=? 127) = false -> is_ascii a = true -> t = @nil ascii)
    by (unfold is_ascii; congruence).
  destruct (byte a <=? 127) eqn:Ha.
  { exists a, [], r1. split; [done|]. split; [by apply ascii_not_continuation|]. done. }
  destruct r1 as [|b r2]; [done|]. destruct (byte_in 194 223 a) eqn:H2.
  { apply andb_true_iff in H as [Hb H]. exists a, [b], r2. split; [done|].
    split; [by eapply byte_in_lead, H2; lia|]. split; [by apply Hhigh|]. split; [|done].
    repeat constructor. by eapply byte_in_above, Hb; lia. }
  destruct r2 as [|c r3]; [done|]. destruct (byte_in 224 239 a) eqn:H3.
  { apply andb_true_iff in H as [[Hb Hc]%andb_true_iff H]. exists a, [b; c], r3. split; [done|].
    split; [by eapply byte_in_lead, H3; lia|]. split; [by apply Hhigh|]. split; [|done].
    repeat constructor; [|by eapply byte_in_above, Hc; lia].
    destruct (byte a =? 224), (byte a =? 237); by eapply byte_in_above, Hb; lia. }
  destruct r3 as [|d r4]; [done|].
  apply andb_true_iff in H as [[[[H4 Hb]%andb_true_iff Hc]%andb_true_iff Hd]%andb_true_iff H].
  exists a, [b; c; d], r4. split; [done|].
  split; [by eapply byte_in_lead, H4; lia|]. split; [by apply Hhigh|]. split; [|done].
  repeat constructor; [|by eapply byte_in_above, Hc; lia|by eapply byte_in_above, Hd; lia].
  destruct (byte a =? 240), (byte a =? 244); by eapply byte_in_above, Hb; lia.
Qed.

(** In well-formed UTF-8 a continuation byte does not follow an ASCII byte. *)
Lemma utf8_next text i c b :
  valid_utf8 text = true -> text !! i = Some c -> is_ascii c = true ->
  text !! S i = Some b -> is_continuation b = false.
Proof.
  revert i. induction text as [text IH] using (induction_ltof1 _ length); intros i.
  unfold ltof in IH. intros [->|(a & tail & rest & -> & Ha & Hnil & Htail & Hv)]%utf8_char; [done|].
  intros Hc Hasc Hb. destruct (decide (i < S (length tail))) as [Hi|Hi].
  - destruct i as [|i].
    + cbn in Hc. injection Hc as ->. rewrite (Hnil Hasc) in Hb. cbn in Hb.
      destruct (utf8_char rest Hv) as [->|(a & tail' & rest' & -> & Hlead & _)]; [done|].
      cbn in Hb. by injection Hb as ->.
    + change ((tail ++ rest) !! i = Some c) in Hc. rewrite lookup_app_l in Hc by lia.
      eapply Forall_lookup_1 in Htail; [|exact Hc]. cbn in Htail. congruence.
  - replace i with (S (length tail + (i - S (length tail)))) in Hc, Hb by lia.
    change ((tail ++ rest) !! (length tail + (i - S (length tail))) = Some c) in Hc.
    change ((tail ++ rest) !! S (length tail + (i - S (length tail))) = Some b) in Hb.
    rewrite lookup_app_r in Hc by lia. rewrite lookup_app_r in Hb by lia.
    eapply (IH rest); [rewrite length_cons, length_app; lia|done|exact Hc|done|].
    rewrite <- Hb. f_equal. lia.
Qed.

(** ** Specifications of parsers *)

(** Spans that follow each other between two offsets. *)
Fixpoint ordered (lo hi : nat) (spans : list SourceSpan) : Prop :=
  match spans with
  | [] => lo <= hi
  | s :: rest => lo <= start s /\ start s < stop s /\ ordered (stop s) hi rest
  end.

Lemma ordered_le lo hi spans : ordered lo hi spans -> lo <= hi.
Proof.
  revert lo. induction spans as [|s spans IH]; cbn; intros lo; [done|].
  intros (H1 & H2 & H3%IH). lia.
Qed.

Lemma ordered_lower lo lo' hi spans : lo' <= lo -> ordered lo hi spans -> ordered lo' hi spans.
Proof. destruct spans as [|s spans]; cbn; [lia|]. intros H (? & ? & ?). split; [lia|done]. Qed.

Lemma ordered_upper lo hi hi' spans : hi <= hi' -> ordered lo hi spans -> ordered lo hi' spans.
Proof.
  revert lo. induction spans as [|s spans IH]; cbn; intros lo Hhi; [lia|].
  intros (? & ? & ?). auto.
Qed.

Lemma ordered_snoc lo mid hi spans s :
  ordered lo mid spans -> mid <= start s -> start s < stop s -> stop s <= hi ->
  ordered lo hi (spans ++ [s]).
Proof.
  revert lo. induction spans as [|s' spans IH]; cbn; intros lo.
  - intros. lia.
  - intros (? & ? & ?) ???. auto.
Qed.

Section specs.
Context (source : bytes).
Implicit Types (i : nat) (p : Parser).

(** An offset of the source where a slice may begin or end. *)
Definition at_char i : Prop :=
  i <= length source /\ (valid_utf8 source = true -> is_char_boundary source i = true).

Lemma at_end : at_char (length source).
Proof.
  split; [done|]. intros _. unfold is_char_boundary.
  by rewrite lookup_ge_None_2, Nat.eqb_refl.
Qed.

Lemma at_ascii i c : source !! i = Some c -> is_ascii c = true -> at_char i.
Proof.
  intros Hi Hc. split; [apply lookup_lt_Some in Hi; lia|]. intros _.
  unfold is_char_boundary. by rewrite Hi, ascii_not_continuation.
Qed.

Lemma at_next i c : source !! i = Some c -> is_ascii c = true -> at_char (i + 1).
Proof.
  intros Hi Hc. pose proof (lookup_lt_Some _ _ _ Hi) as Hlt. split; [lia|]. intros Hv.
  rewrite Nat.add_1_r. unfold is_char_boundary.
  destruct (source !! S i) as [b|] eqn:Hb.
  - by rewrite (utf8_next source i c b).
  - apply lookup_ge_None_1 in Hb. apply Nat.eqb_eq. lia.
Qed.

Lemma at_start : at_char 0.
Proof.
  split; [lia|]. intros Hv. unfold is_char_boundary.
  destruct (utf8_char source Hv) as [->|(a & tail & rest & -> & Ha & _)]; [done|].
  cbn. by rewrite Ha.
Qed.

Lemma count_from_le f i : i <= length source -> i + count_while f (drop i source) <= length source.
Proof. intros Hi. pose proof (count_while_le f (drop i source)). rewrite length_drop in H. lia. Qed.

Lemma at_while f i :
  (forall c, f c = true -> is_ascii c = true) -> at_char i ->
  at_char (i + count_while f (drop i source)).
Proof.
  intros Hf Hi. destruct (count_while f (drop i source)) as [|n] eqn:Hn.
  { by rewrite Nat.add_0_r. }
  pose proof (count_from_le f i (proj1 Hi)) as Hle. rewrite Hn in Hle.
  destruct (lookup_lt_is_Some_2 source (i + n) ltac:(lia)) as [c Hc].
  replace (i + S n) with (i + n + 1) by lia. apply (at_next _ c Hc), Hf.
  pose proof (count_while_take f (drop i source)) as Ht. rewrite Hn in Ht.
  eapply (Forall_lookup_1 _ _ n) in Ht; [exact Ht|].
  rewrite lookup_take_lt by lia. by rewrite lookup_drop.
Qed.

Lemma at_until f i :
  (forall c, f c = false -> is_ascii c = true) -> i <= length source ->
  at_char (i + count_while f (drop i source)).
Proof.
  intros Hf Hi. pose proof (count_from_le f i Hi) as Hle.
  destruct (source !! (i + count_while f (drop i source))) as [c|] eqn:Hc.
  - apply (at_ascii _ c Hc), Hf, (count_while_stop f (drop i source)). by rewrite lookup_drop.
  - apply lookup_ge_None_1 in Hc.
    replace (i + count_while f (drop i source)) with (length source) by lia. apply at_end.
Qed.

Definition good_error (d : PolicyDiagnostic) : Prop :=
  d_severity d = SeverityError /\ d_stage d = StageParse
  /\ (d_code d = UnexpectedToken \/ d_code d = NestingDepthExceeded)
  /\ start (d_span d) <= length source
  /\ stop (d_span d) = (start (d_span d) + 1) `min` length source
  /\ d_location d = line_column source (start (d_span d)).
Definition good_stop (s : Stop) : Prop :=
  match s with
  | Rejected e => exists d, diagnostics e = [d] /\ good_error d
  | OutOfFuel => False
  end.

Lemma good_error_at i : i <= length source -> good_stop (error_at source i).
Proof. intros Hi. eexists. split; [done|]. repeat split; cbn; auto. Qed.

Lemma good_depth_at i :
  i <= length source -> good_stop (error_code_at source NestingDepthExceeded i).
Proof. intros Hi. eexists. split; [done|]. repeat split; cbn; auto. Qed.

(** The weakest precondition of a parser: it stops with a good error or gives
    an answer and a state that satisfy the postcondition. *)
Definition wp {A} (m : P A) p (Q : A -> Parser -> Prop) : Prop :=
  match m p with (Ok a, p') => Q a p' | (Err e, _) => good_stop e end.

Lemma wp_bind {A B} (m : P A) (f : A -> P B) p Q :
  wp m p (fun a p' => wp (f a) p' Q) -> wp (m ≫= f) p Q.
Proof. unfold wp, mbind, tx_mbind. by destruct (m p) as [[a|e] p']. Qed.

Lemma wp_mono {A} (m : P A) p (Q R : A -> Parser -> Prop) :
  wp m p Q -> (forall a p', Q a p' -> R a p') -> wp m p R.
Proof. unfold wp. destruct (m p) as [[a|e] p']; auto. Qed.

Lemma wp_inner {A} (m : P A) i d p (Q : A -> Parser -> Prop) :
  wp m {| cursor := i; depth := d |} (fun a _ => Q a p) -> wp (inner i d m) p Q.
Proof. unfold wp, inner. by destruct (m _) as [[a|e] p']. Qed.

Lemma wp_lift {A} (r : result Stop A) p (Q : A -> Parser -> Prop) :
  match r with Ok a => Q a p | Err e => good_stop e end -> wp (lift r) p Q.
Proof. unfold wp, lift. by destruct r. Qed.

(** The parser has moved ahead, at the same depth. *)
Definition moved p p' : Prop :=
  cursor p <= cursor p' /\ at_char (cursor p') /\ depth p' = depth p.

Lemma moved_trans p1 p2 p3 : moved p1 p2 -> moved p2 p3 -> moved p1 p3.
Proof. intros (? & ? & ?) (? & ? & ?). split_and!; [lia|done|congruence]. Qed.

Lemma wp_ret {A} (a : A) p (Q : A -> Parser -> Prop) : Q a p -> wp (mret a) p Q.
Proof. done. Qed.
Lemma wp_throw {A} (e : Stop) p (Q : A -> Parser -> Prop) : good_stop e -> wp (throw e) p Q.
Proof. done. Qed.
Lemma wp_gets {A} (f : Parser -> A) p (Q : A -> Parser -> Prop) : Q (f p) p -> wp (gets f) p Q.
Proof. done. Qed.
Lemma wp_set_cursor i p (Q : unit -> Parser -> Prop) :
  Q tt {| cursor := i; depth := depth p |} -> wp (set_cursor i) p Q.
Proof. done. Qed.
Lemma wp_set_depth d p (Q : unit -> Parser -> Prop) :
  Q tt {| cursor := cursor p; depth := d |} -> wp (set_depth d) p Q.
Proof. done. Qed.
End specs.

(** Runs the primitive steps of a parser in a [wp] goal. *)
Ltac wp_step :=
  match goal with
  | |- wp _ (_ ≫= _) _ _ => apply wp_bind
  | |- wp _ (mret _) _ _ => apply wp_ret
  | |- wp _ (gets _) _ _ => apply wp_gets
  | |- wp _ (set_cursor _) _ _ => apply wp_set_cursor
  | |- wp _ (set_depth _) _ _ => apply wp_set_depth
  | |- wp _ (throw _) _ _ => apply wp_throw
  end; cbv beta.
Ltac wp_run := repeat wp_step.
(** Continues with what a lemma says of the next parser. *)
Tactic Notation "wp_use" uconstr(lem) "as" simple_intropattern(a) simple_intropattern(p)
    simple_intropattern(h) :=
  wp_run; eapply wp_mono; [eapply lem|intros a p h].

Section tokens.
Context (source : bytes).
Implicit Types (i : nat) (p : Parser).
#[local] Abbreviation at_char := (at_char source).
#[local] Abbreviation moved := (moved source).
#[local] Abbreviation wp := (wp source).
#[local] Abbreviation good_error_at := (good_error_at source).

Lemma byte_at_true i c : byte_at source i c = true <-> source !! i = Some c.
Proof.
  unfold byte_at. destruct (source !! i) as [b|]; [|done]. rewrite eqc_true. split; congruence.
Qed.

(** Neither white space nor a comment begins here. *)
Definition settled i : Prop :=
  (forall c, source !! i = Some c -> is_ascii_whitespace c = false) /\ comment_at source i = false.

Lemma line_end_at i : i <= length source -> at_char (line_end source i) /\ i <= line_end source i.
Proof.
  intros Hi. split; [|unfold line_end; lia]. apply at_until; [|done].
  intros c Hc%negb_false_iff. by apply eqc_true in Hc as ->.
Qed.

Lemma whitespace_ascii c : is_ascii_whitespace c = true -> is_ascii c = true.
Proof.
  unfold is_ascii_whitespace, is_ascii. rewrite !orb_true_iff, !Nat.eqb_eq.
  intros H. apply Nat.leb_le. lia.
Qed.

Lemma skip_from_spec fuel i :
  at_char i -> length source - i < fuel ->
  i <= skip_from source fuel i /\ at_char (skip_from source fuel i)
  /\ settled (skip_from source fuel i).
Proof.
  revert i. induction fuel as [|fuel IH]; intros i Hi Hf; [lia|]. cbn [skip_from].
  set (j := i + count_while is_ascii_whitespace (drop i source)).
  assert (Hj : at_char j) by (apply at_while; [apply whitespace_ascii|done]).
  destruct (comment_at source j) eqn:Hcom.
  - unfold comment_at in Hcom. apply andb_true_iff in Hcom as [H1 H2].
    apply byte_at_true in H1, H2. pose proof (lookup_lt_Some _ _ _ H2) as Hlt.
    destruct (line_end_at (j + 2) ltac:(lia)) as [Hat Hle].
    destruct (IH (line_end source (j + 2)) Hat ltac:(unfold j in *; lia)) as (?&?&?).
    split_and!; [unfold j in *; lia|done..].
  - split_and!; [unfold j; lia|done|]. split; [|done]. intros c Hc.
    apply (count_while_stop is_ascii_whitespace (drop i source)). by rewrite lookup_drop.
Qed.

Lemma skip_from_settled fuel i : settled i -> skip_from source fuel i = i.
Proof.
  intros [Hws Hc]. destruct fuel as [|fuel]; cbn; [done|].
  rewrite (proj2 (count_while_zero is_ascii_whitespace (drop i source))).
  - by rewrite Nat.add_0_r, Hc.
  - intros c. rewrite lookup_drop, Nat.add_0_r. apply Hws.
Qed.

Lemma skip_ok p :
  at_char (cursor p) ->
  wp (skip_ws_and_comments source) p (fun _ p' => moved p p' /\ settled (cursor p')
    /\ (settled (cursor p) -> p' = p)).
Proof.
  intros Hp. unfold skip_ws_and_comments. wp_run.
  destruct (skip_from_spec (rounds source) (cursor p) Hp) as (H1 & H2 & H3).
  { unfold rounds. lia. }
  split; [done|]. split; [done|]. intros Hs. rewrite skip_from_settled by done. by destruct p.
Qed.

Lemma consume_ok c p :
  is_ascii c = true -> at_char (cursor p) ->
  wp (consume_byte source c) p (fun found p' => moved p p' /\
    if found : bool then source !! cursor p = Some c /\ cursor p' = cursor p + 1
    else p' = p /\ byte_at source (cursor p) c = false).
Proof.
  intros Hc Hp. unfold consume_byte. wp_run. destruct (byte_at source (cursor p) c) eqn:Hb; wp_run.
  - apply byte_at_true in Hb. split; [|done]. split_and!; cbn; [lia| |done].
    by apply (at_next source _ c).
  - split; [|done]. by split_and!.
Qed.

Lemma expect_ok c p :
  is_ascii c = true -> at_char (cursor p) ->
  wp (expect_byte source c) p (fun _ p' => moved p p' /\ exists i, cursor p <= i /\ at_char i
    /\ source !! i = Some c /\ cursor p' = i + 1 /\ (settled (cursor p) -> i = cursor p)).
Proof.
  intros Hc Hp. unfold expect_byte. wp_use skip_ok as ? p1 (M1 & S1 & E1); [done|].
  wp_use consume_ok as found p2 (M2 & F); [done|apply M1|]. wp_run. destruct found; wp_run.
  - destruct F as [Hb Hcur]. split; [by eapply moved_trans|]. exists (cursor p1).
    split_and!; [apply M1|apply M1|done|done|]. intros Hs. by rewrite (E1 Hs).
  - apply good_error_at. destruct F as [-> _]. apply M1.
Qed.

(** ** Tokens *)

(** A text is the slice of the source its span names. *)
Definition text_at (v : bytes) (sp : SourceSpan) : Prop :=
  at_char (start sp) /\ at_char (stop sp) /\ start sp < stop sp
  /\ v = slice source (start sp) (stop sp).
Definition ident_ok (k : Spanned bytes) : Prop :=
  text_at (value k) (span k) /\ Forall (fun c => is_ident_continue c = true) (value k).
(** A string is what stands between its quotes. *)
Definition string_ok (s : Spanned bytes) : Prop :=
  at_char (start (span s)) /\ at_char (stop (span s))
  /\ slice source (start (span s)) (stop (span s)) = [quote] ++ value s ++ [quote].

Lemma slice_cons i j c : source !! i = Some c -> i < j -> slice source i j = c :: slice source (i + 1) j.
Proof.
  intros Hi Hj. unfold slice. rewrite (drop_S source c i Hi).
  replace (j - i) with (S (j - (i + 1))) by lia. cbn. by rewrite Nat.add_1_r.
Qed.

Lemma slice_snoc i j c : source !! j = Some c -> i <= j -> slice source i (j + 1) = slice source i j ++ [c].
Proof.
  intros Hj Hi. unfold slice. replace (j + 1 - i) with (S (j - i)) by lia.
  rewrite (take_S_r _ _ c); [done|]. rewrite lookup_drop. rewrite <- Hj. f_equal. lia.
Qed.

Lemma ident_start_continue c : is_ident_start c = true -> is_ident_continue c = true.
Proof.
  unfold is_ident_start, is_ident_continue, is_ascii_alphabetic, is_ascii_alphanumeric.
  rewrite !orb_true_iff. tauto.
Qed.

Lemma ident_ascii c : is_ident_continue c = true -> is_ascii c = true.
Proof.
  unfold is_ident_continue, is_ascii_alphanumeric, byte_in, is_ascii, byte.
  rewrite !orb_true_iff, !andb_true_iff, !Nat.leb_le, !eqc_true.
  intros [[[H| ->]| ->]| ->]; [lia|vm_compute; lia..].
Qed.

Lemma peek_identifier_ok i k :
  peek_identifier source i = Some k -> ident_ok k /\ start (span k) = i.
Proof.
  unfold peek_identifier. destruct (source !! i) as [c|] eqn:Hi; cbn; [|done].
  destruct (is_ident_start c) eqn:Hc; [|done]. intros [= <-]. split; [|done].
  pose proof (ident_start_continue c Hc) as Hcont. pose proof (ident_ascii c Hcont) as Hasc.
  split; cbn.
  - split_and!; cbn; [by eapply at_ascii| |unfold ident_end; lia|done].
    apply at_while; [apply ident_ascii|by eapply at_next].
  - rewrite (slice_cons i _ c Hi) by (unfold ident_end; lia). constructor; [done|].
    unfold slice, ident_end. replace (_ + _ - _) with
      (count_while is_ident_continue (drop (i + 1) source)) by lia. apply count_while_take.
Qed.

Lemma identifier_ok p :
  at_char (cursor p) ->
  wp (parse_identifier source) p (fun k p' => moved p p' /\ ident_ok k
    /\ cursor p <= start (span k) /\ cursor p' = stop (span k)
    /\ (settled (cursor p) -> start (span k) = cursor p)).
Proof.
  intros Hp. unfold parse_identifier. wp_use skip_ok as ? p1 (M1 & S1 & E1); [done|]. wp_run.
  destruct (peek_identifier source (cursor p1)) as [k|] eqn:Hk; wp_run.
  - apply peek_identifier_ok in Hk as [Hk Hs]. pose proof Hk as [(?&?&?&_) _].
    destruct M1 as (?&?&?). split; [split_and!; cbn; [lia|done|done]|].
    split; [done|]. split; [lia|]. split; [done|]. intros Hset. by rewrite Hs, (E1 Hset).
  - apply good_error_at, M1.
Qed.

Lemma expect_keyword_ok w p :
  at_char (cursor p) ->
  wp (expect_keyword source w) p (fun _ p' => moved p p' /\ cursor p < cursor p').
Proof.
  intros Hp. unfold expect_keyword. wp_use identifier_ok as k p1 (M1 & ((Hs&_&?&_)&_) & ? & ? & _); [done|].
  destruct (eqb_text _ _); wp_run; [split; [done|lia]|]. apply good_error_at, Hs.
Qed.

Lemma string_close_at i n :
  string_close (drop i source) = Some n ->
  source !! (i + n) = Some quote /\ i + n < length source.
Proof.
  intros [Hq Hl]%string_close_spec. rewrite lookup_drop in Hq. rewrite length_drop in Hl.
  split; [done|lia].
Qed.

Lemma string_parser_ok p :
  at_char (cursor p) ->
  wp (parse_string source) p (fun s p' => moved p p' /\ string_ok s
    /\ cursor p <= start (span s) /\ start (span s) < stop (span s) /\ cursor p' = stop (span s)
    /\ (settled (cursor p) -> start (span s) = cursor p)).
Proof.
  intros Hp. unfold parse_string. wp_use skip_ok as ? p1 (M1 & S1 & E1); [done|].
  wp_use expect_ok as ? p2 (M2 & i & _ & _ & Hi & Hcur & Heq); [done|apply M1|].
  rewrite (Heq S1) in Hi, Hcur. clear i Heq. wp_run.
  destruct (string_close (drop (cursor p2) source)) as [n|] eqn:Hn; wp_run.
  2:{ apply good_error_at, M1. }
  apply string_close_at in Hn as [Hq Hl]. destruct M1 as (?&?&?), M2 as (?&?&?).
  split; [split_and!; cbn; [lia|by eapply at_next|congruence]|].
  split; [|split_and!; cbn; try lia; intros Hset; by rewrite (E1 Hset)].
  unfold string_ok. cbn [span value start stop]. split_and!; [done|by eapply at_next|].
  rewrite (slice_cons (cursor p1) _ quote Hi) by lia.
  rewrite (slice_snoc _ _ quote Hq) by lia. by rewrite Hcur.
Qed.
End tokens.

Section trees.
Context (source : bytes).
Implicit Types (i n : nat) (p : Parser).
#[local] Abbreviation at_char := (at_char source).
#[local] Abbreviation moved := (moved source).
#[local] Abbreviation wp := (wp source).
#[local] Abbreviation settled := (settled source).
#[local] Abbreviation text_at := (text_at source).
#[local] Abbreviation ident_ok := (ident_ok source).
#[local] Abbreviation string_ok := (string_ok source).
#[local] Abbreviation good_error_at := (good_error_at source).

(** ** Values *)

Unset Elimination Schemes.
(** A value with at most [n] lists inside each other. *)
Inductive expr_ok : nat -> ExprAst -> Prop :=
  | string_expr_ok n v : string_ok v -> expr_ok n (EString v)
  | identifier_expr_ok n v : text_at (value v) (span v) -> expr_ok n (EIdentifier v)
  | number_expr_ok n v :
      text_at (value v) (span v) -> forallb is_ascii_digit (value v) = true ->
      expr_ok n (ENumber v)
  | boolean_expr_ok n (v : Spanned bool) :
      text_at (if value v then lit "true" else lit "false") (span v) -> expr_ok n (EBoolean v)
  | field_path_expr_ok n v :
      text_at (value v) (span v) -> contains (lit ".") (value v) = true ->
      expr_ok n (EFieldPath v)
  | list_expr_ok n values sp :
      at_char (start sp) -> at_char (stop sp) -> source !! start sp = Some "["%char ->
      source !! (stop sp - 1) = Some "]"%char ->
      ordered (start sp + 1) (stop sp - 1) (map expr_span values) ->
      Forall (expr_ok n) values -> expr_ok (S n) (EList values sp).
Set Elimination Schemes.

(** What a value parser with [n] levels promises. *)
Definition value_spec n (m : P ExprAst) : Prop := forall p,
  at_char (cursor p) -> 0 < n -> MAX_NESTING_DEPTH < n + depth p ->
  wp m p (fun e p' => moved p p' /\ expr_ok (MAX_NESTING_DEPTH - depth p) e
    /\ cursor p <= start (expr_span e) /\ start (expr_span e) < stop (expr_span e)
    /\ stop (expr_span e) = cursor p').

Lemma scalar_ok n text sp : text_at text sp -> expr_ok n (scalar text sp) /\ expr_span (scalar text sp) = sp.
Proof.
  intros Ht. unfold scalar.
  destruct (eqb_text text (lit "true")) eqn:H1.
  { apply eqb_text_true in H1 as ->. by split; [constructor|]. }
  destruct (eqb_text text (lit "false")) eqn:H2.
  { apply eqb_text_true in H2 as ->. by split; [constructor|]. }
  destruct (forallb is_ascii_digit text) eqn:H3; [by split; [constructor|]|].
  destruct (contains (lit ".") text) eqn:H4; by split; [constructor|].
Qed.

Lemma list_values_ok n (m : P ExprAst) fuel p :
  value_spec n m -> at_char (cursor p) -> 0 < n -> MAX_NESTING_DEPTH < n + depth p ->
  length source - cursor p < fuel ->
  wp (parse_list_values source fuel m) p (fun values p' => moved p p'
    /\ Forall (expr_ok (MAX_NESTING_DEPTH - depth p)) values
    /\ source !! (cursor p' - 1) = Some "]"%char
    /\ ordered (cursor p) (cursor p' - 1) (map expr_span values)).
Proof.
  intros Hm. revert p. induction fuel as [|fuel IH]; intros p Hp Hpos Hn Hf; [lia|].
  cbn [parse_list_values].
  wp_use skip_ok as ? p1 (M1 & S1 & _); [done|].
  wp_use consume_ok as closed p2 (M2 & Hclosed); [done|apply M1|]. destruct closed.
  { destruct Hclosed as [Hb Hcur], M1 as (?&?&?). wp_run. split; [by eapply moved_trans|].
    rewrite Hcur, Nat.add_sub. split_and!; [constructor|done|done]. }
  destruct Hclosed as [-> _]. unfold is_eof. wp_run.
  destruct (length source <=? cursor p1) eqn:Heof; wp_run; [apply good_error_at, M1|].
  pose proof M1 as (Hle1&Hat1&Hd1).
  wp_use Hm as e p3 (M3 & He & Hs & Hlt & Hstop); [done|done|by rewrite Hd1|].
  wp_use skip_ok as ? p4 (M4 & _ & _); [apply M3|].
  wp_use consume_ok as ? p5 (M5 & _); [done|apply M4|].
  pose proof (moved_trans _ _ _ _ M3 (moved_trans _ _ _ _ M4 M5)) as (Hle5&Hat5&Hd5).
  destruct M4 as (?&?&?), M5 as (?&?&?), M3 as (?&[? _]&?).
  wp_use IH as values p6 (M6 & Hv & Hb & Ho); [done|done|congruence|lia|]. wp_run.
  rewrite Hd5, Hd1 in Hv. split; [|split_and!].
  - destruct M6 as (?&?&?). split_and!; [lia|done|congruence].
  - constructor; [by rewrite <- Hd1|done].
  - done.
  - cbn. split_and!; [lia|lia|]. eapply ordered_lower, Ho. lia.
Qed.

Lemma list_ok n (m : P ExprAst) p :
  value_spec n m -> at_char (cursor p) -> settled (cursor p) ->
  source !! cursor p = Some "["%char -> MAX_NESTING_DEPTH < S n + depth p ->
  wp (parse_list source m) p (fun e p' => moved p p' /\ expr_ok (MAX_NESTING_DEPTH - depth p) e
    /\ cursor p <= start (expr_span e) /\ start (expr_span e) < stop (expr_span e)
    /\ stop (expr_span e) = cursor p').
Proof.
  intros Hm Hp Hset Hb Hn. unfold parse_list.
  wp_use expect_ok as ? p1 (M1 & i & _ & _ & Hi & Hcur & Heq); [done|done|].
  rewrite (Heq Hset) in Hi, Hcur. clear i Heq. wp_run. cbn [cursor depth].
  pose proof M1 as (Hle1&Hat1&Hd1). rewrite Hd1.
  destruct (MAX_NESTING_DEPTH <? depth p + 1) eqn:Hdeep.
  { wp_run. apply good_depth_at, Hat1. }
  apply Nat.ltb_ge in Hdeep.
  wp_use list_values_ok as values p2 (M2 & Hv & Hclose & Ho); [exact Hm|done|cbn; lia|cbn; lia| |].
  { unfold rounds. lia. }
  destruct M2 as (Hle2&Hat2&Hd2). cbn [cursor depth] in *. wp_run. cbn [cursor depth expr_span start stop].
  pose proof (ordered_le _ _ _ Ho).
  split; [split_and!; cbn; [lia|done|lia]|]. split; [|lia].
  replace (MAX_NESTING_DEPTH - depth p) with (S (MAX_NESTING_DEPTH - (depth p + 1))) by lia.
  constructor; cbn [start stop]; [done|done|done|done|by rewrite <- Hcur|done].
Qed.

Lemma value_ok n (m : P ExprAst) : value_spec n m -> value_spec (S n) (parse_value source (parse_list source m)).
Proof.
  intros Hm p Hp _ Hn. unfold parse_value. wp_use skip_ok as ? p1 (M1 & S1 & _); [done|]. wp_run.
  pose proof M1 as (Hle1&Hat1&Hd1). rewrite <- Hd1.
  destruct (byte_at source (cursor p1) quote).
  { wp_use string_parser_ok as s p2 (M2 & Hs & Hle & Hlt & Hstop & _); [done|]. wp_run.
    split; [by eapply moved_trans|]. cbn. split; [by constructor|]. split_and!; [lia|done|done]. }
  destruct (byte_at source (cursor p1) "[") eqn:Hb.
  { apply byte_at_true in Hb. wp_use list_ok as e p2 (M2 & He & Hle & Hlt & Hstop);
      [exact Hm|done|done|done|by rewrite Hd1|].
    split; [by eapply moved_trans|]. split_and!; [done|lia|done|done]. }
  set (i := cursor p1 + count_while scalar_byte (drop (cursor p1) source)).
  assert (Hi : at_char i).
  { apply at_until; [|apply Hat1]. intros c. unfold scalar_byte.
    rewrite negb_false_iff, !orb_true_iff, !eqc_true.
    intros [[[Hw| ->]| ->]| ->]; [by apply whitespace_ascii|done..]. }
  wp_run. destruct (i =? cursor p1) eqn:Hz; wp_run; [apply good_error_at, Hat1|].
  apply Nat.eqb_neq in Hz. assert (Hlt : cursor p1 < i) by (unfold i in *; lia).
  destruct (scalar_ok (MAX_NESTING_DEPTH - depth p1) (slice source (cursor p1) i)
    (span_new (cursor p1) i)) as [He Hsp]; [by split_and!|]. rewrite Hsp. cbn.
  split; [split_and!; cbn; [lia|done|done]|]. split_and!; [done|lia|lia|done].
Qed.

Lemma expr_parser_ok n : value_spec n (parse_expr source n).
Proof.
  induction n as [|n IH]; [intros p _ Hn; lia|by apply value_ok].
Qed.

(** ** Settings *)

Definition setting_span (s : SettingAst) : SourceSpan :=
  span_new (start (span (s_key s))) (stop (expr_span (s_value s))).
Definition setting_ok n (s : SettingAst) : Prop := ident_ok (s_key s) /\ expr_ok n (s_value s).
Definition settings_ok n (lo : nat) (settings : list SettingAst) : Prop :=
  Forall (setting_ok n) settings /\ ordered lo (length source) (map setting_span settings).

Lemma levels_enough d : 0 < levels /\ MAX_NESTING_DEPTH < levels + d.
Proof. unfold levels, MAX_NESTING_DEPTH. lia. Qed.

Lemma settings_parser_ok fuel colon p :
  at_char (cursor p) -> length source - cursor p < fuel ->
  wp (parse_settings source fuel colon) p (fun settings p' => moved p p' /\ cursor p < cursor p'
    /\ settings_ok (MAX_NESTING_DEPTH - depth p) (cursor p) settings).
Proof.
  revert p. induction fuel as [|fuel IH]; intros p Hp Hf; [lia|]. cbn [parse_settings].
  wp_use skip_ok as ? p1 (M1 & S1 & _); [done|]. pose proof M1 as (Hle1&Hat1&Hd1).
  wp_use consume_ok as closed p2 (M2 & Hclosed); [done|done|]. destruct closed.
  { destruct Hclosed as [Hb Hcur]. wp_run. split; [by eapply moved_trans|]. split; [lia|].
    split; [constructor|apply Hp]. }
  destruct Hclosed as [-> _]. unfold is_eof. wp_run.
  destruct (length source <=? cursor p1) eqn:Heof; wp_run; [apply good_error_at, M1|].
  wp_use identifier_ok as key p3 (M3 & Hkey & Hks & Hkc & _); [done|].
  apply wp_bind. eapply wp_mono with (Q := fun _ p4 => moved p3 p4).
  { pose proof M3 as (?&?&?). destruct colon; [|by wp_run].
    wp_use skip_ok as ? p4 (M4 & _ & _); [done|]. wp_use expect_ok as ? p5 (M5 & _); [done|apply M4|].
    by eapply moved_trans. }
  intros _ p4 M4. pose proof (moved_trans _ _ _ _ (moved_trans _ _ _ _ M1 M3) M4) as (?&Hat4&Hd4).
  destruct (levels_enough (depth p4)).
  wp_use expr_parser_ok as v p5 (M5 & Hv & Hvs & Hvlt & Hvstop); [done..|].
  pose proof M3 as (?&?&?). pose proof M4 as (?&?&?). pose proof M5 as (?&[? ?]&?).
  pose proof Hkey as [(?&?&?&_) _].
  wp_use IH as settings p6 (M6 & ? & Hall & Hord); [by destruct M5 as (?&?&?)|lia|]. wp_run.
  rewrite Hd4 in Hv. split; [|split; [lia|split]].
  - destruct M6 as (?&?&?). split_and!; [lia|done|congruence].
  - constructor; [done|]. by replace (depth p) with (depth p5) by congruence.
  - cbn. split_and!; [lia|lia|]. by rewrite Hvstop.
Qed.

(** ** Where a statement ends *)

Lemma skip_string_ok i :
  i <= length source ->
  match skip_string_at source i with
  | Ok j => i < j <= length source
  | Err e => good_stop source e
  end.
Proof.
  intros Hi. unfold skip_string_at. destruct (string_close _) as [n|] eqn:Hn.
  - apply string_close_at in Hn as [_ Hn]. lia.
  - by apply good_error_at.
Qed.

Lemma starts_keyword_ascii i k : starts_statement_keyword_at source i k = true -> at_char i.
Proof.
  unfold starts_statement_keyword_at. destruct (if i =? 0 then _ else _) as [b|]; [|done].
  destruct (source !! i) as [c|] eqn:Hc; [|done].
  destruct (negb (is_ascii_whitespace b)); [done|].
  destruct (is_ident_start c) eqn:Hs; [|done]. intros _.
  by eapply at_ascii, ident_ascii, ident_start_continue.
Qed.

Definition scan_good (from : nat) (r : nat * option nat * option nat) : Prop :=
  let '(idx, block_start, block_end) := r in
  at_char idx /\ from <= idx
  /\ (forall o, block_start = Some o -> source !! o = Some "{"%char /\ from <= o < idx)
  /\ (forall c, block_end = Some c -> source !! c = Some "}"%char /\ idx = c + 1).

Lemma scan_ok fuel k from idx nested block_start :
  from <= idx <= length source -> length source - idx < fuel ->
  (forall o, block_start = Some o -> source !! o = Some "{"%char /\ from <= o < idx) ->
  match scan_statement source fuel k from idx nested block_start with
  | Ok r => scan_good from r
  | Err e => good_stop source e
  end.
Proof.
  revert idx nested block_start.
  induction fuel as [|fuel IH]; intros idx nested block_start Hidx Hf Hbs; [lia|].
  cbn [scan_statement].
  assert (Hstop : at_char idx -> scan_good from (idx, block_start, None))
    by (intros; split_and!; [done|lia|done|done]).
  destruct (source !! idx) as [c|] eqn:Hc; cycle 1.
  { apply lookup_ge_None_1 in Hc. apply Hstop. replace idx with (length source) by lia.
    apply at_end. }
  pose proof (lookup_lt_Some _ _ _ Hc) as Hlt.
  assert (Hascii : is_ascii c = true -> scan_good from (idx, block_start, None))
    by (intros; by eapply Hstop, at_ascii).
  assert (Hnext : forall nested', match scan_statement source fuel k from (idx + 1) nested' block_start
    with Ok r => scan_good from r | Err e => good_stop source e end).
  { intros. apply IH; [lia|lia|]. intros o Ho. destruct (Hbs o Ho). split; [done|lia]. }
  destruct ((nested =? 0) && (from <? idx) && starts_statement_keyword_at source idx k) eqn:Hk.
  { apply andb_true_iff in Hk as [_ Hk]. by eapply Hstop, starts_keyword_ascii. }
  destruct (eqc quote c).
  { pose proof (skip_string_ok idx ltac:(lia)) as Hs. destruct (skip_string_at source idx) as [j|e]; [|done].
    cbn. apply IH; [lia|lia|]. intros o Ho. destruct (Hbs o Ho). split; [done|lia]. }
  destruct (eqc "/" c && byte_at source (idx + 1) "/" && (nested =? 0)) eqn:Hslash.
  { apply Hascii. apply andb_true_iff in Hslash as [[Hs _]%andb_true_iff _].
    by apply eqc_true in Hs as ->. }
  destruct ((eqc newline c || eqc "}" c) && (nested =? 0)) eqn:Hend.
  { apply Hascii. apply andb_true_iff in Hend as [[Hs|Hs]%orb_true_iff _];
      by apply eqc_true in Hs as ->. }
  destruct (eqc "{" c) eqn:Hopen.
  { apply eqc_true in Hopen as ->. destruct (nested =? 0); [|apply Hnext].
    apply IH; [lia|lia|]. intros o [= <-]. split; [done|lia]. }
  destruct (eqc "}" c) eqn:Hclose; [|apply Hnext].
  apply eqc_true in Hclose as ->. destruct (nested - 1 =? 0); [|apply Hnext].
  split_and!; [by eapply at_next|lia| |].
  - intros o Ho. destruct (Hbs o Ho). split; [done|lia].
  - intros o [= <-]. done.
Qed.

(** ** Statements *)

(** A statement begins with its keyword. *)
Definition head_ok (k : Spanned bytes) (sp : SourceSpan) : Prop :=
  ident_ok k /\ start (span k) = start sp /\ stop (span k) <= stop sp /\ at_char (stop sp).
(** The braces of a block: the block opens behind the keyword and the
    statement ends with the brace that closes it. *)
Definition braces_ok (k : Spanned bytes) (sp : SourceSpan) (open_brace : nat) : Prop :=
  source !! open_brace = Some "{"%char /\ source !! (stop sp - 1) = Some "}"%char
  /\ stop (span k) <= open_brace < stop sp.
(** The name of a block is a slice of what stands before the brace. *)
Definition name_ok (lo hi : nat) (name : option (Spanned bytes)) : Prop :=
  forall nm, name = Some nm ->
    lo <= start (span nm) /\ start (span nm) < stop (span nm) <= hi
    /\ value nm = slice source (start (span nm)) (stop (span nm)).

Unset Elimination Schemes.
(** A statement with at most [n] statements inside each other. *)
Inductive stmt_ok : nat -> StatementAst -> Prop :=
  | raw_ok n k text sp :
      head_ok k sp -> text = trim (slice source (start sp) (stop sp)) ->
      stmt_ok (S n) (Raw k text sp)
  | block_ok n k name statements sp o :
      head_ok k sp -> braces_ok k sp o -> name_ok (stop (span k)) o name ->
      Forall (stmt_ok n) statements ->
      ordered (o + 1) (length source) (map stmt_span statements) ->
      stmt_ok (S n) (Block k name statements sp)
  | transcode_ok n k header settings sp o :
      head_ok k sp -> braces_ok k sp o -> header = trim (slice source (start sp) o) ->
      settings_ok (n - 1) (o + 1) settings ->
      stmt_ok (S n) (TranscodeInline k header settings sp)
  | synthesize_ok n k header settings sp o :
      head_ok k sp -> braces_ok k sp o -> header = trim (slice source (start sp) o) ->
      settings_ok (n - 1) (o + 1) settings ->
      stmt_ok (S n) (SynthesizeInline k header settings sp).
Set Elimination Schemes.

Definition statement_spec n (m : P StatementAst) : Prop := forall p,
  at_char (cursor p) -> 0 < n -> S MAX_NESTING_DEPTH < n + depth p ->
  wp m p (fun s p' => moved p p' /\ stmt_ok (S MAX_NESTING_DEPTH - depth p) s
    /\ cursor p <= start (stmt_span s) /\ start (stmt_span s) < stop (stmt_span s)
    /\ stop (stmt_span s) <= cursor p').

Lemma str_find_spec pat text i :
  str_find pat text = Some i -> i + length pat <= length text /\ take (length pat) (drop i text) = pat.
Proof.
  assert (Hpre : forall pat text, starts_with pat text = true ->
    length pat <= length text /\ take (length pat) text = pat).
  { clear. unfold starts_with. intros pat.
    induction pat as [|a pat IH]; intros text; cbn; [split; [lia|done]|].
    destruct text as [|b text]; [done|]. destruct (Ascii.eqb_spec a b) as [->|]; [|done].
    intros [Hl Ht]%IH. cbn. split; [lia|by rewrite Ht]. }
  revert i. induction text as [|b text IH]; intros i; cbn [str_find].
  - destruct (starts_with pat []) eqn:Hs; [|done]. intros [= <-]. by apply Hpre in Hs.
  - destruct (starts_with pat (b :: text)) eqn:Hs.
    { intros [= <-]. by apply Hpre in Hs. }
    destruct (str_find pat text) as [j|]; cbn; [|done]. intros [= <-].
    destruct (IH j eq_refl) as [Hl Ht]. split; [lia|done].
Qed.

Lemma block_name_ok lo hi : hi <= length source -> name_ok lo hi (statement_block_name source lo hi).
Proof.
  intros Hhi nm. unfold statement_block_name. set (text := trim _).
  destruct (non_empty text) eqn:Hne; cbn [negb]; [|done].
  destruct (str_find text _) as [off|] eqn:Hf; cbn [mbind option_bind]; [|done].
  intros [= <-]. cbn [span start stop value].
  apply str_find_spec in Hf as [Hl Ht]. unfold slice in Hl, Ht.
  rewrite length_take, length_drop in Hl.
  assert (0 < length text) by (destruct text; [done|cbn; lia]).
  split; [lia|]. split; [lia|]. unfold slice.
  replace (lo + off + length text - (lo + off)) with (length text) by lia.
  rewrite <- Ht at 1. rewrite skipn_firstn_comm, firstn_firstn, drop_drop.
  f_equal. lia.
Qed.

Lemma statements_until_ok n (m : P StatementAst) fuel close p :
  statement_spec n m -> at_char (cursor p) -> 0 < n -> S MAX_NESTING_DEPTH < n + depth p ->
  length source - cursor p < fuel ->
  wp (parse_statements_until source fuel m close) p (fun statements _ =>
    Forall (stmt_ok (S MAX_NESTING_DEPTH - depth p)) statements
    /\ ordered (cursor p) (length source) (map stmt_span statements)).
Proof.
  intros Hm. revert p. induction fuel as [|fuel IH]; intros p Hp Hpos Hn Hf; [lia|].
  cbn [parse_statements_until].
  wp_use skip_ok as ? p1 (M1 & S1 & _); [done|]. pose proof M1 as (Hle1&Hat1&Hd1). wp_run.
  destruct (close <=? cursor p1); wp_run; [split; [constructor|apply Hp]|].
  wp_use Hm as s p2 (M2 & Hs & Hlo & Hlt & Hhi); [done|done|by rewrite Hd1|].
  destruct M2 as (?&Hat2&Hd2). pose proof Hat2 as [? _].
  wp_use IH as statements ? (Hall & Hord); [done|done|by rewrite Hd2, Hd1|lia|]. wp_run.
  rewrite Hd2, Hd1 in Hall. rewrite Hd1 in Hs. split; [by constructor|].
  cbn. split_and!; [lia|done|]. by eapply ordered_lower, Hord.
Qed.

Lemma line_comment_ok p :
  at_char (cursor p) -> wp (consume_line_comment source) p (fun _ p' => moved p p').
Proof.
  intros Hp. unfold consume_line_comment. wp_run. destruct (comment_at source (cursor p)); wp_run.
  - destruct (line_end_at source (cursor p) (proj1 Hp)). split_and!; cbn; [lia|done|done].
  - by split_and!.
Qed.

Lemma inline_ok k begin o sp p :
  head_ok k sp -> braces_ok k sp o -> start sp = begin -> depth p <= MAX_NESTING_DEPTH ->
  wp (parse_inline_block source k begin o sp) p (fun inline p' => p' = p /\
    forall s, inline = Some s -> stmt_span s = sp /\ stmt_ok (S MAX_NESTING_DEPTH - depth p) s).
Proof.
  intros Hk Hb <- Hd. unfold parse_inline_block.
  destruct (_ && _); wp_run; [done|].
  assert (Ho : at_char (o + 1)) by (destruct Hb as [Ho _]; by eapply at_next).
  assert (Hset : forall colon, wp (inner (o + 1) (depth p + 1) (parse_settings source (rounds source) colon)) p
    (fun settings p' => p' = p /\ settings_ok (MAX_NESTING_DEPTH - (depth p + 1)) (o + 1) settings)).
  { intros colon. apply wp_inner. eapply wp_mono; [apply settings_parser_ok|].
    - done. - cbn. unfold rounds. lia.
    - intros settings ? (_ & _ & H). done. }
  replace (S MAX_NESTING_DEPTH - depth p) with (S (MAX_NESTING_DEPTH - depth p)) by lia.
  replace (MAX_NESTING_DEPTH - (depth p + 1)) with (MAX_NESTING_DEPTH - depth p - 1) in Hset by lia.
  destruct (eqb_text (value k) (lit "transcode")).
  - wp_use Hset as settings p' [-> Hs]. wp_run. split; [done|]. intros s [= <-].
    split; [done|by eapply transcode_ok].
  - wp_use Hset as settings p' [-> Hs]. wp_run. split; [done|]. intros s [= <-].
    split; [done|by eapply synthesize_ok].
Qed.

Lemma finish_ok n (m : P StatementAst) k scanned p begin :
  statement_spec n m -> ident_ok k -> start (span k) = begin -> cursor p = stop (span k) ->
  scan_good (cursor p) scanned -> depth p <= MAX_NESTING_DEPTH -> S MAX_NESTING_DEPTH < S n + depth p ->
  wp (finish_statement source m k begin scanned) p (fun s p' => moved p p'
    /\ stmt_ok (S MAX_NESTING_DEPTH - depth p) s /\ start (stmt_span s) = begin
    /\ start (stmt_span s) < stop (stmt_span s) /\ stop (stmt_span s) <= cursor p').
Proof.
  intros Hm Hk <- Hcur Hscan Hd Hn. destruct scanned as [[idx bs] be].
  destruct Hscan as (Hidx & Hle & Hbs & Hbe). rewrite Hcur in *. unfold finish_statement. wp_run.
  wp_use line_comment_ok as ? p1 M1; [done|]. destruct M1 as (Hle1&Hat1&Hd1).
  cbn [cursor depth] in *. pose proof Hk as [(?&?&Hlt&_) _].
  assert (Hhead : head_ok k (span_new (start (span k)) idx)) by (by split_and!).
  assert (Hmoved : moved p p1) by (split_and!; [lia|done|done]).
  rewrite <- Hd1 in *. clear Hd1.
  replace (S MAX_NESTING_DEPTH - depth p1) with (S (MAX_NESTING_DEPTH - depth p1)) by lia.
  destruct bs as [o|].
  2:{ wp_run. cbn. split; [done|]. split; [by constructor|]. split_and!; [done|lia|done]. }
  destruct (Hbs o eq_refl) as [Ho Hobound].
  destruct be as [c|]; wp_run; apply wp_lift; cbn [ok_or].
  2:{ apply good_error_at. destruct Hidx. lia. }
  destruct (Hbe c eq_refl) as [Hc Hcidx].
  assert (Hbr : braces_ok k (span_new (start (span k)) idx) o).
  { split_and!; cbn; [done|by rewrite Hcidx, Nat.add_sub|lia|lia]. }
  wp_use inline_ok as inline p2 (-> & Hinl); [exact Hhead|exact Hbr|done|lia|].
  destruct inline as [s|]; wp_run.
  { destruct (Hinl s eq_refl) as [Hsp Hs].
    replace (S MAX_NESTING_DEPTH - depth p1) with (S (MAX_NESTING_DEPTH - depth p1)) in Hs by lia.
    rewrite Hsp. cbn. split; [done|]. split; [done|]. split_and!; [done|lia|done]. }
  apply wp_inner. eapply wp_mono; [eapply statements_until_ok; [exact Hm| | | |]|].
  - cbn. by eapply at_next.
  - unfold MAX_NESTING_DEPTH in *. lia.
  - cbn. lia.
  - cbn. unfold rounds. lia.
  - intros statements p3 [Hall Hord]. cbn [cursor depth] in *. wp_run. cbn [stmt_span start stop].
    split; [done|]. split; [|split_and!; [done|lia|done]].
    replace (S MAX_NESTING_DEPTH - (depth p1 + 1)) with (MAX_NESTING_DEPTH - depth p1) in Hall by lia.
    eapply block_ok; [done|done| |done|done]. apply block_name_ok.
    apply lookup_lt_Some in Ho. lia.
Qed.

Lemma statement_ok n : statement_spec n (parse_statement source n).
Proof.
  induction n as [|n IH]; [intros p _ Hn; lia|]. intros p Hp _ Hn. cbn [parse_statement].
  wp_run. destruct (MAX_NESTING_DEPTH <? depth p) eqn:Hdeep; wp_run.
  { apply good_depth_at, Hp. }
  apply Nat.ltb_ge in Hdeep.
  wp_use skip_ok as ? p1 (M1 & S1 & _); [done|].
  wp_use identifier_ok as k p2 (M2 & Hk & Hlo & Hcur & Hstart); [apply M1|]. wp_run. apply wp_lift.
  pose proof M1 as (?&?&Hd1). pose proof M2 as (?&[? _]&Hd2).
  pose proof (scan_ok (rounds source) (value k) (cursor p2) (cursor p2) 0 None) as Hscan.
  destruct (scan_statement _ _ _ _ _ _ _) as [scanned|e]; cycle 1.
  { apply Hscan; [lia|unfold rounds; lia|done]. }
  replace (depth p) with (depth p2) in * by congruence.
  eapply wp_mono; [eapply (finish_ok n); [exact IH|exact Hk|by apply Hstart|done| |done|done]|].
  { apply Hscan; [lia|unfold rounds; lia|done]. }
  intros s p3 (M3 & Hs & Hbegin & Hlt & Hhi).
  split; [by eapply moved_trans; [eapply moved_trans; [exact M1|exact M2]|]|].
  split_and!; [done|lia|done|done].
Qed.

(** ** Phases and policies *)

(** The controls and the operations of a phase are told apart by keyword. *)
Definition body_ok (lo hi : nat) (body : list StatementAst * list StatementAst) : Prop :=
  Forall (fun s => stmt_ok (S MAX_NESTING_DEPTH) s
                   /\ is_phase_control (value (stmt_keyword s)) = true) (fst body)
  /\ Forall (fun s => stmt_ok (S MAX_NESTING_DEPTH) s
                      /\ is_phase_control (value (stmt_keyword s)) = false) (snd body)
  /\ ordered lo hi (map stmt_span (fst body)) /\ ordered lo hi (map stmt_span (snd body)).

Definition phase_ok (ph : PhaseAst) : Prop :=
  ident_ok (ph_name ph)
  /\ body_ok (stop (span (ph_name ph))) (length source) (controls ph, operations ph).

Definition ast_ok (ast : PolicyAst) : Prop :=
  string_ok (p_name ast)
  /\ (forall parent, extends ast = Some parent -> string_ok parent)
  /\ settings_ok MAX_NESTING_DEPTH 0 (metadata ast)
  /\ settings_ok MAX_NESTING_DEPTH 0 (config ast)
  /\ Forall phase_ok (phases ast)
  /\ ordered 0 (length source) (map (fun ph => span (ph_name ph)) (phases ast))
  /\ Forall (stmt_ok (S MAX_NESTING_DEPTH)) (unknown_top_level ast)
  /\ ordered 0 (length source) (map stmt_span (unknown_top_level ast)).

Lemma statement_levels d : 0 < levels /\ S MAX_NESTING_DEPTH < levels + d.
Proof. unfold levels, MAX_NESTING_DEPTH. lia. Qed.

Lemma phase_body_ok fuel p :
  at_char (cursor p) -> depth p = 0 -> length source - cursor p < fuel ->
  wp (parse_phase_body source fuel) p (fun body p' => moved p p' /\ cursor p < cursor p'
    /\ body_ok (cursor p) (length source) body).
Proof.
  revert p. induction fuel as [|fuel IH]; intros p Hp Hd Hf; [lia|]. cbn [parse_phase_body].
  wp_use skip_ok as ? p1 (M1 & S1 & _); [done|]. pose proof M1 as (Hle1&Hat1&Hd1).
  wp_use consume_ok as closed p2 (M2 & Hclosed); [done|done|]. destruct closed.
  { destruct Hclosed as [Hb Hcur], Hp as [? _]. wp_run. split; [by eapply moved_trans|].
    split; [lia|]. split_and!; [constructor|constructor|done|done]. }
  destruct Hclosed as [-> _]. unfold is_eof. wp_run.
  destruct (length source <=? cursor p1) eqn:Heof; wp_run; [apply good_error_at, M1|].
  destruct (statement_levels (depth p1)).
  wp_use statement_ok as s p3 (M3 & Hs & Hlo & Hlt & Hhi); [done..|].
  pose proof M3 as (?&[? ?]&?). rewrite Hd1, Hd, Nat.sub_0_r in Hs.
  wp_use IH as body p4 (M4 & ? & Hc & Ho & Hco & Hoo); [by destruct M3 as (?&?&?)|congruence|lia|].
  destruct body as [cs os]. cbn [fst snd] in *.
  assert (M : moved p p4) by (eapply moved_trans; [exact M1|]; by eapply moved_trans).
  assert (Hpush : forall l, ordered (cursor p3) (length source) (map stmt_span l) ->
    ordered (cursor p) (length source) (map stmt_span (s :: l))
    /\ ordered (cursor p) (length source) (map stmt_span l)).
  { intros l Hl. split; [|eapply ordered_lower, Hl; lia]. cbn. split_and!; [lia|done|].
    eapply ordered_lower, Hl. lia. }
  destruct (Hpush cs Hco), (Hpush os Hoo).
  destruct (is_phase_control _) eqn:Hctl; wp_run; (split; [done|]; split; [lia|]);
    split_and!; cbn [fst snd]; try done; by constructor.
Qed.

Lemma phase_parser_ok p :
  at_char (cursor p) -> depth p = 0 ->
  wp (parse_phase source) p (fun ph p' => moved p p' /\ phase_ok ph
    /\ cursor p < start (span (ph_name ph)) /\ stop (span (ph_name ph)) < cursor p').
Proof.
  intros Hp Hd. unfold parse_phase. wp_use expect_keyword_ok as ? p1 (M1 & ?); [done|].
  wp_use identifier_ok as name p2 (M2 & Hname & ? & Hcur & _); [apply M1|].
  wp_use skip_ok as ? p3 (M3 & _ & _); [apply M2|].
  wp_use expect_ok as ? p4 (M4 & _); [done|apply M3|].
  pose proof (moved_trans _ _ _ _ (moved_trans _ _ _ _ M1 M2) (moved_trans _ _ _ _ M3 M4)) as M.
  pose proof M as (?&?&?). wp_use phase_body_ok as body p5 (M5 & ? & Hbody); [done|congruence| |].
  { unfold rounds. lia. }
  destruct body as [cs os]. wp_run. cbn [ph_name].
  destruct M2 as (?&?&?), M3 as (?&?&?), M4 as (?&?&?).
  split; [by eapply moved_trans|]. split; [|split; lia].
  split; [done|]. destruct Hbody as (?&?&?&?).
  split_and!; cbn [fst snd controls operations ph_name] in *; [done|done|eapply ordered_lower; [|done]; lia..].
Qed.

Lemma setting_block_ok p :
  at_char (cursor p) -> depth p = 0 ->
  wp (parse_setting_block source) p (fun settings p' => moved p p' /\ cursor p < cursor p'
    /\ settings_ok MAX_NESTING_DEPTH 0 settings).
Proof.
  intros Hp Hd. unfold parse_setting_block. wp_use skip_ok as ? p1 (M1 & _ & _); [done|].
  wp_use expect_ok as ? p2 (M2 & _); [done|apply M1|].
  pose proof (moved_trans _ _ _ _ M1 M2) as M. pose proof M as (?&?&?).
  wp_use settings_parser_ok as settings p3 (M3 & ? & Hall & Hord); [done|unfold rounds; lia|].
  split; [by eapply moved_trans|]. split; [lia|]. split.
  - replace MAX_NESTING_DEPTH with (MAX_NESTING_DEPTH - depth p2); [done|].
    rewrite H1, Hd. apply Nat.sub_0_r.
  - eapply ordered_lower, Hord. lia.
Qed.

(** What holds of the tree while the items of the policy block are read. *)
Definition items_ok (i : nat) (ast : PolicyAst) : Prop :=
  ast_ok ast
  /\ ordered 0 i (map (fun ph => span (ph_name ph)) (phases ast))
  /\ ordered 0 i (map stmt_span (unknown_top_level ast)).

Lemma item_ok k ast p :
  peek_identifier source (cursor p) = Some k -> at_char (cursor p) -> depth p = 0 ->
  items_ok (cursor p) ast ->
  wp (parse_item source k ast) p (fun ast' p' => moved p p' /\ cursor p < cursor p'
    /\ items_ok (cursor p') ast').
Proof.
  intros Hk Hp Hd [(Hn & Hex & Hme & Hco & Hph & Hpho & Hun & Huno) [Hpi Hui]].
  apply peek_identifier_ok in Hk as [Hk Hs]. pose proof Hk as [(?&Hstop&?&_) _].
  assert (Hskip : moved p {| cursor := stop (span k); depth := depth p |})
    by (split_and!; cbn; [lia|done|done]).
  unfold parse_item. destruct (eqb_text _ _).
  { wp_run. wp_use string_parser_ok as s p1 (M1 & Hstr & ? & ? & ? & _); [done|]. wp_run.
    pose proof M1 as (?&_). cbn [cursor depth] in *. split; [by eapply moved_trans|].
    split; [lia|]. split; [|split; eapply ordered_upper; [|exact Hpi| |exact Hui]; lia].
    split_and!; try done. cbn. by intros ? [= <-]. }
  destruct (eqb_text _ _).
  { wp_run. wp_use setting_block_ok as s p1 (M1 & ? & Hset); [done|done|]. wp_run.
    cbn [cursor depth] in *. split; [by eapply moved_trans|].
    split; [lia|]. split; [|split; eapply ordered_upper; [|exact Hpi| |exact Hui]; lia].
    by split_and!. }
  destruct (eqb_text _ _).
  { wp_run. wp_use setting_block_ok as s p1 (M1 & ? & Hset); [done|done|]. wp_run.
    cbn [cursor depth] in *. split; [by eapply moved_trans|].
    split; [lia|]. split; [|split; eapply ordered_upper; [|exact Hpi| |exact Hui]; lia].
    by split_and!. }
  destruct (eqb_text _ _).
  { wp_use phase_parser_ok as ph p1 (M1 & Hok & ? & ?); [done|done|]. wp_run.
    pose proof M1 as (?&[? _]&_). destruct Hok as [Hid Hbody]. pose proof Hid as [(?&?&?&_) _].
    split; [done|]. split; [lia|].
    assert (Hord : ordered 0 (cursor p1) (map (fun ph => span (ph_name ph)) (phases ast ++ [ph]))).
    { rewrite map_app. eapply ordered_snoc; [exact Hpi|lia|done|lia]. }
    split; [|split; [done|eapply ordered_upper; [|exact Hui]; lia]].
    split_and!; try done; cbn [phases push_phase].
    - apply Forall_app. split; [done|]. by constructor.
    - eapply ordered_upper; [|exact Hord]. done. }
  destruct (statement_levels (depth p)).
  wp_use statement_ok as s p1 (M1 & Hok & ? & ? & ?); [done..|]. wp_run.
  pose proof M1 as (?&[? _]&_). rewrite Hd, Nat.sub_0_r in Hok. split; [done|]. split; [lia|].
  assert (Hord : ordered 0 (cursor p1) (map stmt_span (unknown_top_level ast ++ [s]))).
  { rewrite map_app. eapply ordered_snoc; [exact Hui|lia|done|done]. }
  split; [|split; [eapply ordered_upper; [|exact Hpi]; lia|done]].
  split_and!; try done; cbn [unknown_top_level push_unknown].
  - apply Forall_app. split; [done|]. by constructor.
  - by eapply ordered_upper; [|exact Hord].
Qed.

Lemma items_parser_ok fuel ast p :
  at_char (cursor p) -> depth p = 0 -> length source - cursor p < fuel -> items_ok (cursor p) ast ->
  wp (parse_items source fuel ast) p (fun ast' p' => moved p p' /\ ast_ok ast').
Proof.
  revert ast p. induction fuel as [|fuel IH]; intros ast p Hp Hd Hf Hast; [lia|]. cbn [parse_items].
  wp_use skip_ok as ? p1 (M1 & S1 & _); [done|]. pose proof M1 as (Hle1&Hat1&Hd1).
  wp_use consume_ok as closed p2 (M2 & Hclosed); [done|done|]. destruct closed; wp_run.
  { split; [by eapply moved_trans|apply Hast]. }
  destruct Hclosed as [-> _]. unfold is_eof. wp_run.
  destruct (length source <=? cursor p1) eqn:Heof; wp_run; [apply good_error_at, M1|].
  destruct (peek_identifier source (cursor p1)) as [k|] eqn:Hk; wp_run; [|apply good_error_at, M1].
  wp_use item_ok as ast' p3 (M3 & ? & Hast'); [done|done|congruence| |].
  { destruct Hast as (?&Ho1&Ho2). split_and!;
      [done|eapply ordered_upper, Ho1; lia|eapply ordered_upper, Ho2; lia]. }
  apply Nat.leb_gt in Heof. pose proof M3 as (?&[? ?]&?). wp_use IH as ast'' p4 (M4 & ?); [done|congruence|lia|done|].
  split; [|done]. eapply moved_trans; [exact M1|]. by eapply moved_trans.
Qed.

Lemma policy_parser_ok :
  wp (parse_policy source) {| cursor := 0; depth := 0 |} (fun ast _ => ast_ok ast).
Proof.
  unfold parse_policy. wp_use skip_ok as ? p1 (M1 & _ & _); [apply at_start|].
  wp_use expect_keyword_ok as ? p2 (M2 & _); [apply M1|].
  wp_use string_parser_ok as name p3 (M3 & Hname & _); [apply M2|].
  wp_use skip_ok as ? p4 (M4 & _ & _); [apply M3|].
  wp_use expect_ok as ? p5 (M5 & _); [done|apply M4|].
  pose proof (moved_trans _ _ _ _ (moved_trans _ _ _ _ M1 M2) (moved_trans _ _ _ _ M3
    (moved_trans _ _ _ _ M4 M5))) as (?&?&?).
  wp_use items_parser_ok as ast p6 (M6 & Hast); [done|done|unfold rounds; lia| |].
  { assert (Hnil : settings_ok MAX_NESTING_DEPTH 0 []) by (split; [constructor|cbn; lia]).
    split; [split; [exact Hname|]|]; split_and!; cbn; done || lia || by constructor. }
  wp_use skip_ok as ? p7 (M7 & _ & _); [apply M6|]. unfold is_eof. wp_run.
  destruct (length source <=? cursor p7); wp_run; [done|]. apply good_error_at, M7.
Qed.
End trees.

(** ** What the parser promises *)

(** C35: The parser answers for every source. It accepts with a tree made of the
    source (names, strings and values are the slices their spans name, spans
    begin and end between characters, siblings follow each other, and nesting
    stays within the limit) or refuses with exactly one diagnostic, an error of
    the parse stage whose span is in the source and whose location is that of
    the span. *)
Theorem parse_policy_total source :
  match parse_policy_source source with
  | Ok ast => ast_ok source ast
  | Err (Rejected e) => exists d, diagnostics e = [d] /\ good_error source d
  | Err OutOfFuel => False
  end.
Proof.
  pose proof (policy_parser_ok source) as H. unfold wp in H. unfold parse_policy_source.
  destruct (parse_policy source _) as [[ast|[e|]] p]; done.
Qed.
