(* ===== verification/PolicyGraph.v ===== *)
(** * The phase graph

    Two searches over the dependencies of phases: [has_cycle] of
    [compile/validate.rs] and [visit_phase] of [compile/lower/phases.rs], and
    what they compute: reachability of a cycle, and an order of the phases
    that puts dependencies first when there is none. *)

From Stdlib Require Import ZArith Lia Bool String Ascii.
From stdpp Require Import base gmap strings list relations fin_sets.
From S2P Require Import Prelude Bytes.

Open Scope nat_scope.

Abbreviation Graph := (gmap bytes (list bytes)).
Abbreviation names := (gset bytes).

Section cycles.
Context (graph : Graph).

(** One level of the recursion enters one more node of the graph; the last
    one may be a name that is not in it. *)
Definition graph_fuel : nat := size graph + 2.

Definition edge (a b : bytes) : Prop := exists ds, graph !! a = Some ds /\ b ∈ ds.
(** No cycle can be reached from [a]. *)
Definition acyclic_from (a : bytes) : Prop := forall b, rtc edge a b -> ~ tc edge b b.
Definition acyclic : Prop := forall b, ~ tc edge b b.

Abbreviation Search := (bool * names * names)%type.

(** The loop over the dependencies of a node. *)
Fixpoint any_cycle (visit : bytes -> names -> names -> Search) (deps : list bytes)
    (visiting visited : names) : Search :=
  match deps with
  | [] => (false, visiting, visited)
  | d :: deps' =>
      match visit d visiting visited with
      | (true, visiting, visited) => (true, visiting, visited)
      | (false, visiting, visited) => any_cycle visit deps' visiting visited
      end
  end.

Fixpoint has_cycle_from (fuel : nat) (node : bytes) (visiting visited : names) : Search :=
  match fuel with
  | O => (false, visiting, visited)
  | S fuel' =>
      if bool_decide (node ∈ visited) then (false, visiting, visited)
      else if bool_decide (node ∈ visiting) then (true, visiting, visited)
      else
        match any_cycle (has_cycle_from fuel') (default [] (graph !! node))
                ({[node]} ∪ visiting) visited with
        | (true, visiting, visited) => (true, visiting, visited)
        | (false, visiting, visited) => (false, visiting ∖ {[node]}, {[node]} ∪ visited)
        end
  end.
Definition has_cycle (node : bytes) : bool := fst (fst (has_cycle_from graph_fuel node ∅ ∅)).

(** The loop over the dependencies of a phase, those that are phases. *)
Fixpoint visit_phases (visit : bytes -> names -> list bytes -> names * list bytes)
    (deps : list bytes) (visited : names) (order : list bytes) : names * list bytes :=
  match deps with
  | [] => (visited, order)
  | d :: deps' =>
      if bool_decide (is_Some (graph !! d)) then
        let '(visited, order) := visit d visited order in visit_phases visit deps' visited order
      else visit_phases visit deps' visited order
  end.

Fixpoint visit_phase (fuel : nat) (name : bytes) (visited : names) (order : list bytes) :
    names * list bytes :=
  match fuel with
  | O => (visited, order)
  | S fuel' =>
      if bool_decide (name ∈ visited) then (visited, order) else
      let '(visited, order) :=
        visit_phases (visit_phase fuel') (default [] (graph !! name)) ({[name]} ∪ visited) order in
      (visited, order ++ [name])
  end.

(** The phases of the policy in their order, visited one after the other. *)
Fixpoint order_phases (phases : list bytes) (visited : names) (order : list bytes) : list bytes :=
  match phases with
  | [] => order
  | name :: phases' =>
      let '(visited, order) := visit_phase graph_fuel name visited order in
      order_phases phases' visited order
  end.

(** ** The cycle search *)

Lemma acyclic_step a : (forall d, edge a d -> acyclic_from d) -> acyclic_from a.
Proof.
  intros Hd b Hab Hb. inversion Hab as [|? d ? He Hdb]; subst.
  - inversion Hb as [? ? He|? d ? He Hdb]; subst.
    + by apply (Hd b He b); [constructor|].
    + apply (Hd d He d); [constructor|]. eapply tc_rtc_l; [by apply tc_rtc|]. by apply tc_once.
  - by apply (Hd d He b).
Qed.

Definition unvisited (visiting : names) : nat := size (dom graph ∖ visiting).

Lemma unvisited_enter node visiting ds :
  graph !! node = Some ds -> node ∉ visiting ->
  unvisited ({[node]} ∪ visiting) < unvisited visiting.
Proof.
  intros Hg Hv. unfold unvisited. apply subset_size.
  apply elem_of_dom_2 in Hg. set_solver.
Qed.

(** What a search answers: [true] when a node that is being visited was met
    again, [false] when every node visited is free of cycles. *)
Definition search_ok (node : bytes) (visiting visited : names) (r : Search) : Prop :=
  match r with
  | (true, _, _) => ~ acyclic_from node
  | (false, visiting', visited') =>
      visiting' = visiting /\ (forall v, v ∈ visited -> v ∈ visited')
      /\ node ∈ visited' /\ (forall v, v ∈ visited' -> acyclic_from v)
  end.

Lemma not_acyclic_edge a b : edge a b -> ~ acyclic_from b -> ~ acyclic_from a.
Proof. intros He Hb Ha. apply Hb. intros c Hc. apply Ha. by eapply rtc_l. Qed.

Lemma has_cycle_from_ok fuel node visiting visited :
  unvisited visiting + 1 < fuel ->
  (forall v, v ∈ visiting -> tc edge v node) ->
  (forall v, v ∈ visited -> acyclic_from v) ->
  search_ok node visiting visited (has_cycle_from fuel node visiting visited).
Proof.
  revert node visiting visited. induction fuel as [|fuel IH]; [lia|].
  intros node visiting visited Hf Hpath Hdone. cbn [has_cycle_from].
  case_bool_decide as Hvd; [by split_and!|]. case_bool_decide as Hvg.
  { intros Hac. apply (Hac node); [constructor|auto]. }
  (* the dependencies still to visit are edges of the node *)
  assert (Hdeps : forall deps visited0, (forall d, d ∈ deps -> edge node d) ->
    (forall v, v ∈ visited0 -> acyclic_from v) ->
    match any_cycle (has_cycle_from fuel) deps ({[node]} ∪ visiting) visited0 with
    | (true, _, _) => ~ acyclic_from node
    | (false, visiting', visited') => visiting' = {[node]} ∪ visiting
        /\ (forall v, v ∈ visited0 -> v ∈ visited')
        /\ (forall d, d ∈ deps -> d ∈ visited') /\ (forall v, v ∈ visited' -> acyclic_from v)
    end).
  { induction deps as [|d deps IHd]; intros visited0 He H0; cbn [any_cycle].
    { split_and!; [done|done|by intros ? ?%elem_of_nil|done]. }
    assert (Hed : edge node d) by (apply He; left).
    assert (Hsearch : search_ok d ({[node]} ∪ visiting) visited0
      (has_cycle_from fuel d ({[node]} ∪ visiting) visited0)).
    { apply IH; [|intros v Hv|done].
      - destruct Hed as (ds & Hg & _). pose proof (unvisited_enter node visiting ds Hg Hvg). lia.
      - apply elem_of_union in Hv as [->%elem_of_singleton|Hv]; [by apply tc_once|].
        eapply tc_r; [by apply Hpath|done]. }
    destruct (has_cycle_from fuel d _ visited0) as [[[|] visiting1] visited1]; cbn in Hsearch.
    { by eapply not_acyclic_edge. }
    destruct Hsearch as (-> & Hsub & Hin & H1).
    specialize (IHd visited1 ltac:(intros d' Hd'; apply He; by right) H1).
    destruct (any_cycle _ deps _ visited1) as [[[|] visiting2] visited2]; [done|].
    destruct IHd as (-> & Hsub2 & Hin2 & H2). split_and!; [done|auto| |done].
    intros d' [->|Hd']%elem_of_cons; auto. }
  assert (Hedges : forall d, d ∈ default [] (graph !! node) <-> edge node d).
  { intros d. unfold edge. destruct (graph !! node) as [ds|]; cbn; [naive_solver|].
    split; [by intros ?%elem_of_nil|by intros (? & ? & ?)]. }
  specialize (Hdeps (default [] (graph !! node)) visited (fun d => proj1 (Hedges d)) Hdone).
  destruct (any_cycle _ _ _ _) as [[[|] visiting1] visited1]; [done|].
  destruct Hdeps as (-> & Hsub & Hin & H1). split_and!; [set_solver|set_solver|set_solver|].
  intros v [->%elem_of_singleton|Hv]%elem_of_union; [|by apply H1].
  apply acyclic_step. intros d Hd. by apply H1, Hin, Hedges.
Qed.

Lemma graph_fuel_enough (visited : names) : unvisited visited + 1 < graph_fuel.
Proof.
  unfold unvisited, graph_fuel. rewrite <- (size_dom (D := names) graph).
  pose proof (subseteq_size (dom graph ∖ visited) (dom graph) ltac:(set_solver)). lia.
Qed.

Lemma has_cycle_iff node : has_cycle node = true <-> ~ acyclic_from node.
Proof.
  unfold has_cycle.
  pose proof (has_cycle_from_ok graph_fuel node ∅ ∅ (graph_fuel_enough ∅)) as H.
  destruct (has_cycle_from _ _ _ _) as [[[|] visiting] visited]; cbn [fst].
  - split; [intros _|done]. apply H; set_solver.
  - split; [done|]. intros Hn. exfalso. apply Hn.
    destruct H as (_ & _ & Hin & Hall); [set_solver..|by apply Hall].
Qed.

Lemma has_cycle_false node : has_cycle node = false <-> acyclic_from node.
Proof.
  split; [|intros Ha; apply not_true_is_false; intros Hc%has_cycle_iff; auto].
  unfold has_cycle. pose proof (has_cycle_from_ok graph_fuel node ∅ ∅ (graph_fuel_enough ∅)) as H.
  destruct (has_cycle_from _ _ _ _) as [[[|] visiting] visited]; cbn [fst]; [done|]. intros _.
  destruct H as (_ & _ & Hin & Hall); [set_solver..|by apply Hall].
Qed.

Lemma acyclic_nodes : acyclic <-> forall node, is_Some (graph !! node) -> acyclic_from node.
Proof.
  split; [intros H node _ b _; apply H|]. intros H b Hb.
  assert (Hk : is_Some (graph !! b)).
  { inversion Hb as [? ? (ds & Hd & _)|? ? ? (ds & Hd & _) _]; subst; by exists ds. }
  by apply (H b Hk b); [constructor|].
Qed.

(** ** The phase order *)

(** Dependencies that are phases come earlier. *)
Definition topological (order : list bytes) : Prop :=
  forall i x d, order !! i = Some x -> edge x d -> is_Some (graph !! d) -> d ∈ take i order.

(** The phases that are in the order are done; the other visited ones are
    waiting for their dependencies. *)
Definition order_inv (visited : names) (order : list bytes) : Prop :=
  NoDup order /\ (forall v, v ∈ order -> v ∈ visited /\ is_Some (graph !! v)).
Definition order_step (visited : names) (order : list bytes) (r : names * list bytes) : Prop :=
  (exists new, snd r = order ++ new /\ forall v, v ∈ new -> v ∉ visited)
  /\ forall v, v ∈ fst r <-> v ∈ visited \/ v ∈ snd r.
Definition waits_for (visited : names) (order : list bytes) (name : bytes) : Prop :=
  forall v, v ∈ visited -> v ∉ order -> tc edge v name.

Definition visit_ok (done : bytes -> Prop) (visited : names) (order : list bytes)
    (r : names * list bytes) : Prop :=
  order_inv (fst r) (snd r) /\ order_step visited order r
  /\ (forall v, done v -> v ∈ fst r)
  /\ (acyclic -> (forall v, done v -> waits_for visited order v) -> topological order ->
      topological (snd r)).

Lemma topological_snoc order x :
  topological order -> (forall d, edge x d -> is_Some (graph !! d) -> d ∈ order) ->
  topological (order ++ [x]).
Proof.
  intros Ht Hx i y d Hi He Hd. destruct (decide (i < length order)) as [Hlt|Hge].
  - rewrite take_app_le by lia. rewrite lookup_app_l in Hi by done. by eapply Ht.
  - pose proof (lookup_lt_Some _ _ _ Hi) as Hl. rewrite length_app in Hl. cbn in Hl.
    replace i with (length order) in * by lia. rewrite list_lookup_middle in Hi by done.
    injection Hi as <-. rewrite take_app_length. by apply Hx.
Qed.

Lemma visit_ok_nil visited order : order_inv visited order -> visit_ok (fun _ => False) visited order (visited, order).
Proof.
  intros Hinv. split_and!; [done| |done|done]. split; [exists []; rewrite app_nil_r; split; [done|by intros ? ?%elem_of_nil]|].
  cbn. intros v. split; [by left|]. intros [?|Hv]; [done|]. by apply Hinv.
Qed.

Lemma visit_ok_seq (D1 D2 : bytes -> Prop) visited order r1 r2 :
  visit_ok D1 visited order r1 -> visit_ok D2 (fst r1) (snd r1) r2 ->
  visit_ok (fun v => D1 v \/ D2 v) visited order r2.
Proof.
  intros (I1 & ((new1 & E1 & N1) & S1) & B1 & T1) (I2 & ((new2 & E2 & N2) & S2) & B2 & T2).
  split_and!; [done| | |].
  - split.
    { exists (new1 ++ new2). split; [by rewrite E2, E1, app_assoc|].
      intros v [?|Hv]%elem_of_app; [auto|]. intros ?. apply (N2 v Hv), S1. by left. }
    intros v. rewrite S2, S1, E2, elem_of_app. tauto.
  - intros v [H|H]; [|by apply B2]. apply S2. left. by apply B1.
  - intros Hac Hw Ht. apply T2; [done| |apply T1; auto].
    intros v Hv w Hw1 Hw2. apply (Hw v (or_intror Hv) w).
    + apply S1 in Hw1 as [?|?]; [done|by destruct Hw2].
    + intros Hin. apply Hw2. rewrite E1. apply elem_of_app. by left.
Qed.

Lemma visit_ok_weaken (D1 D2 : bytes -> Prop) visited order r :
  (forall v, D1 v <-> D2 v) -> visit_ok D1 visited order r -> visit_ok D2 visited order r.
Proof.
  intros HD (I & S & B & T). split_and!; [done|done|intros v Hv; by apply B, HD|].
  intros Hac Hw. apply T; [done|]. intros v Hv. by apply Hw, HD.
Qed.

Lemma visit_phases_ok visit deps visited order :
  (forall d visited' order', d ∈ deps -> is_Some (graph !! d) -> visited ⊆ visited' ->
     order_inv visited' order' -> visit_ok (eq d) visited' order' (visit d visited' order')) ->
  order_inv visited order ->
  visit_ok (fun d => d ∈ deps /\ is_Some (graph !! d)) visited order
    (visit_phases visit deps visited order).
Proof.
  revert visited order. induction deps as [|d deps IH]; intros visited order Hvisit Hinv; cbn [visit_phases].
  { eapply visit_ok_weaken, (visit_ok_nil _ _ Hinv). intros v. split; [done|].
    by intros [?%elem_of_nil _]. }
  case_bool_decide as Hd.
  - pose proof (Hvisit d visited order ltac:(left) Hd ltac:(done) Hinv) as H1.
    destruct (visit d visited order) as [visited1 order1]. pose proof H1 as (I1 & (_ & S1) & _).
    cbn [fst snd] in *.
    eapply visit_ok_weaken; [|eapply visit_ok_seq; [exact H1|apply IH; [|done]]].
    + intros v. cbn. rewrite elem_of_cons. split; [intros [<-|[? ?]]; auto|].
      intros [[->|?] ?]; auto.
    + intros d' visited' order' Hd' Hk Hsub. apply Hvisit; [by right|done|].
      intros v Hv. apply Hsub, S1. by left.
  - eapply visit_ok_weaken; [|apply IH; [|done]].
    + intros v. cbn. rewrite elem_of_cons. split; [intros [? ?]; auto|].
      intros [[->|?] ?]; auto. done.
    + intros d' visited' order' Hd'. apply Hvisit. by right.
Qed.

Lemma visit_phase_ok fuel name visited order :
  unvisited visited < fuel -> is_Some (graph !! name) -> order_inv visited order ->
  visit_ok (eq name) visited order (visit_phase fuel name visited order).
Proof.
  revert name visited order. induction fuel as [|fuel IH]; intros name visited order Hf [ds Hk] Hinv; [lia|].
  cbn [visit_phase]. case_bool_decide as Hv.
  { pose proof (visit_ok_nil _ _ Hinv) as (I & S & _ & T).
    split_and!; [done|done|by intros ? <-|]. intros Hac _ Ht. done. }
  rewrite Hk. cbn [default].
  assert (Hinv' : order_inv ({[name]} ∪ visited) order).
  { destruct Hinv as [Hnd Hin]. split; [done|]. intros v [? ?]%Hin. split; [set_solver|done]. }
  pose proof (visit_phases_ok (visit_phase fuel) ds ({[name]} ∪ visited) order) as H.
  destruct H as (I1 & ((new & E1 & N1) & S1) & B1 & T1); [|done|].
  { intros d visited' order' Hd Hkd Hsub Hinv''. apply IH; [|done|done].
    pose proof (unvisited_enter name visited ds Hk Hv).
    assert (unvisited visited' <= unvisited ({[name]} ∪ visited)); [|lia].
    unfold unvisited. apply subseteq_size. set_solver. }
  destruct (visit_phases _ _ _ _) as [visited1 order1]. cbn [fst snd] in *.
  assert (Hname : name ∈ visited1) by (apply S1; left; set_solver).
  assert (Hnew : name ∉ order1).
  { rewrite E1. intros [Hin|Hin]%elem_of_app; [by apply Hv, Hinv|]. apply (N1 name Hin). set_solver. }
  destruct I1 as [Hnd Hin].
  split_and!; cbn [fst snd].
  - split; [apply NoDup_app; split_and!; [done| |apply NoDup_singleton]|].
    + intros x Hx ->%list_elem_of_singleton. done.
    + intros v [?| ->%list_elem_of_singleton]%elem_of_app; [by apply Hin|].
      split; [done|by exists ds].
  - split.
    + exists (new ++ [name]). split; [by rewrite E1, app_assoc|].
      intros v [Hx| ->%list_elem_of_singleton]%elem_of_app; [|done]. pose proof (N1 v Hx). set_solver.
    + intros v. cbn. rewrite S1, elem_of_app, list_elem_of_singleton. set_solver.
  - by intros ? <-.
  - intros Hac Hw Ht. pose proof (Hw name eq_refl) as Hpath.
    assert (Hpath' : forall d, edge name d -> waits_for ({[name]} ∪ visited) order d).
    { intros d Hd v [->%elem_of_singleton|Hv1]%elem_of_union Hv2; [by apply tc_once|].
      eapply tc_r; [by apply Hpath|done]. }
    apply topological_snoc.
    + apply T1; [done| |done]. intros d [Hd _]. apply Hpath'. by exists ds.
    + intros d Hed Hkd. pose proof Hed as (ds' & Hk' & Hd). rewrite Hk in Hk'. injection Hk' as <-.
      destruct (proj1 (S1 d) (B1 d (conj Hd Hkd))) as [Hd1|?]; [|done].
      destruct (decide (d ∈ order)) as [Hdo|Hdo]; [rewrite E1; apply elem_of_app; by left|].
      exfalso. by eapply Hac, (Hpath' d Hed d Hd1 Hdo).
Qed.

Lemma order_phases_ok phases visited order :
  order_inv visited order -> (forall v, v ∈ visited -> v ∈ order) ->
  (forall name, name ∈ phases -> is_Some (graph !! name)) ->
  NoDup (order_phases phases visited order)
  /\ (forall v, v ∈ order_phases phases visited order -> is_Some (graph !! v))
  /\ (forall v, v ∈ order \/ v ∈ phases -> v ∈ order_phases phases visited order)
  /\ (acyclic -> topological order -> topological (order_phases phases visited order)).
Proof.
  revert visited order. induction phases as [|name phases IH]; intros visited order Hinv Hdone Hk;
    cbn [order_phases].
  { split_and!; [apply Hinv|intros v Hv; by apply Hinv|by intros v [?|?%elem_of_nil]|done]. }
  pose proof (graph_fuel_enough visited).
  destruct (visit_phase_ok graph_fuel name visited order) as (I1 & ((new & E1 & N1) & S1) & B1 & T1);
    [lia|apply Hk; left|done|].
  destruct (visit_phase _ _ _ _) as [visited1 order1]. cbn [fst snd] in *.
  assert (Hdone1 : forall v, v ∈ visited1 -> v ∈ order1).
  { intros v [Hv|?]%S1; [|done]. rewrite E1. apply elem_of_app. left. by apply Hdone. }
  destruct (IH visited1 order1 I1 Hdone1) as (H1 & H2 & H3 & H4).
  { intros n Hn. apply Hk. by right. }
  split_and!; [done|done| |].
  - intros v Hv. apply H3. rewrite elem_of_cons in Hv. destruct Hv as [Hv|[->|Hv]]; [|left|by right].
    + left. rewrite E1. apply elem_of_app. by left.
    + by apply Hdone1, B1.
  - intros Hac Ht. apply H4; [done|]. apply T1; [done| |done].
    intros v _ w Hw Hno. by destruct Hno; apply Hdone.
Qed.

Lemma order_phases_spec phases :
  (forall name, is_Some (graph !! name) <-> name ∈ phases) ->
  NoDup (order_phases phases ∅ [])
  /\ (forall v, v ∈ order_phases phases ∅ [] <-> v ∈ phases)
  /\ (acyclic -> topological (order_phases phases ∅ [])).
Proof.
  intros Hk. destruct (order_phases_ok phases ∅ []) as (H1 & H2 & H3 & H4).
  - split; [constructor|by intros v ?%elem_of_nil].
  - set_solver.
  - intros name. by apply Hk.
  - split_and!; [done| |intros Hac; apply H4; [done|by intros ? ? ? ?]].
    intros v. split; [intros Hv; by apply Hk, H2|]. intros Hv. apply H3. by right.
Qed.
End cycles.
