(* ===== verification/Encoders.v ===== *)
(** * Encoders and video profiles

    [voom-core/src/media]: the capability descriptors of the encoders
    ([encoder_caps.rs]) and the check of a typed profile against them
    ([transcode_video_profile.rs]). The static texts of the descriptors are
    [string]s; the texts of a profile are [bytes]. *)

From Stdlib Require Import ZArith Lia Bool String Ascii.
From stdpp Require Import base strings list.
From S2P Require Import Prelude Bytes.

Open Scope Z_scope.

(** ** Descriptors *)

Inductive PresetDomain :=
  | PresetNamed (set : list string) | PresetRange (min max : Z) | PresetNone.
Inductive QualityDomain :=
  | QCrf (min max : Z) | QCq (min max : Z) | QQp (min max : Z) | QBitrateKbps (min max : Z).
Inductive VideoEncoderBackend := BSoftware | BNvidia | BVaapi | BVideoToolbox.
#[global] Instance VideoEncoderBackend_eq_dec : EqDecision VideoEncoderBackend.
Proof. solve_decision. Defined.

Record EncoderDescriptor := {
  e_encoder : string;
  e_target_codec : string;
  quality_domain : QualityDomain;
  backend : VideoEncoderBackend;
  preset_domain : PresetDomain;
  tunes : list string;
  codec_profiles : list string;
  codec_levels : list string;
  pixel_formats : list string;
  ten_bit_pixel_formats : list string;
  eight_bit_only_profiles : list string;
  ten_bit_only_profiles : list string;
  surface_output_pixel_formats : list (string * string);
  requires_bitrate_zero : bool;
}.

Open Scope string_scope.

Definition X265_PRESETS : list string :=
  ["ultrafast"; "superfast"; "veryfast"; "faster"; "fast"; "medium"; "slow"; "slower"; "veryslow";
   "placebo"].
Definition X265 : EncoderDescriptor := {|
  e_encoder := "libx265"; e_target_codec := "hevc"; quality_domain := QCrf 0 51;
  backend := BSoftware; preset_domain := PresetNamed X265_PRESETS;
  tunes := ["psnr"; "ssim"; "grain"; "fastdecode"; "zerolatency"];
  codec_profiles := ["main"; "main10"];
  codec_levels := ["3.0"; "3.1"; "4.0"; "4.1"; "5.0"; "5.1"; "5.2"; "6.0"; "6.1"; "6.2"];
  pixel_formats := ["yuv420p"; "yuv420p10le"; "yuv422p"; "yuv422p10le"; "yuv444p"; "yuv444p10le"];
  ten_bit_pixel_formats := ["yuv420p10le"; "yuv422p10le"; "yuv444p10le"];
  eight_bit_only_profiles := ["main"]; ten_bit_only_profiles := [];
  surface_output_pixel_formats := []; requires_bitrate_zero := false |}.
Definition SVTAV1 : EncoderDescriptor := {|
  e_encoder := "libsvtav1"; e_target_codec := "av1"; quality_domain := QCrf 0 63;
  backend := BSoftware; preset_domain := PresetRange 0 13;
  tunes := ["vq"; "psnr"]; codec_profiles := ["main"];
  codec_levels := ["4.0"; "4.1"; "5.0"; "5.1"; "6.0"; "6.1"];
  pixel_formats := ["yuv420p"; "yuv420p10le"]; ten_bit_pixel_formats := ["yuv420p10le"];
  eight_bit_only_profiles := []; ten_bit_only_profiles := [];
  surface_output_pixel_formats := []; requires_bitrate_zero := false |}.
Definition LIBAOM : EncoderDescriptor := {|
  e_encoder := "libaom-av1"; e_target_codec := "av1"; quality_domain := QCrf 0 63;
  backend := BSoftware; preset_domain := PresetRange 0 8;
  tunes := ["psnr"; "ssim"]; codec_profiles := ["main"];
  codec_levels := ["4.0"; "4.1"; "5.0"; "5.1"; "6.0"; "6.1"];
  pixel_formats := ["yuv420p"; "yuv420p10le"]; ten_bit_pixel_formats := ["yuv420p10le"];
  eight_bit_only_profiles := []; ten_bit_only_profiles := [];
  surface_output_pixel_formats := []; requires_bitrate_zero := true |}.
Definition NVIDIA_PRESETS : list string := ["p1"; "p2"; "p3"; "p4"; "p5"; "p6"; "p7"].
Definition HEVC_NVENC : EncoderDescriptor := {|
  e_encoder := "hevc_nvenc"; e_target_codec := "hevc"; quality_domain := QCq 1 51;
  backend := BNvidia; preset_domain := PresetNamed NVIDIA_PRESETS;
  tunes := ["hq"; "uhq"; "ll"; "ull"; "lossless"]; codec_profiles := ["main"; "main10"];
  codec_levels := ["3.0"; "3.1"; "4.0"; "4.1"; "5.0"; "5.1"; "5.2"; "6.0"; "6.1"; "6.2"];
  pixel_formats := ["yuv420p"; "yuv420p10le"]; ten_bit_pixel_formats := ["yuv420p10le"];
  eight_bit_only_profiles := ["main"]; ten_bit_only_profiles := [];
  surface_output_pixel_formats := []; requires_bitrate_zero := true |}.
Definition HEVC_VAAPI : EncoderDescriptor := {|
  e_encoder := "hevc_vaapi"; e_target_codec := "hevc"; quality_domain := QQp 1 52;
  backend := BVaapi; preset_domain := PresetNone;
  tunes := []; codec_profiles := ["main"; "main10"]; codec_levels := [];
  pixel_formats := ["nv12"; "p010"]; ten_bit_pixel_formats := ["p010"];
  eight_bit_only_profiles := ["main"]; ten_bit_only_profiles := ["main10"];
  surface_output_pixel_formats := [("nv12", "yuv420p"); ("p010", "yuv420p10le")];
  requires_bitrate_zero := false |}.
Definition H264_VIDEOTOOLBOX : EncoderDescriptor := {|
  e_encoder := "h264_videotoolbox"; e_target_codec := "h264";
  quality_domain := QBitrateKbps 1 u32_max;
  backend := BVideoToolbox; preset_domain := PresetNamed ["default"];
  tunes := []; codec_profiles := ["high"]; codec_levels := ["4.1"];
  pixel_formats := ["yuv420p"]; ten_bit_pixel_formats := [];
  eight_bit_only_profiles := ["high"]; ten_bit_only_profiles := [];
  surface_output_pixel_formats := []; requires_bitrate_zero := false |}.
Definition HEVC_VIDEOTOOLBOX : EncoderDescriptor := {|
  e_encoder := "hevc_videotoolbox"; e_target_codec := "hevc";
  quality_domain := QBitrateKbps 1 u32_max;
  backend := BVideoToolbox; preset_domain := PresetNamed ["default"];
  tunes := []; codec_profiles := ["main"; "main10"]; codec_levels := [];
  pixel_formats := ["yuv420p"; "yuv420p10le"]; ten_bit_pixel_formats := ["yuv420p10le"];
  eight_bit_only_profiles := ["main"]; ten_bit_only_profiles := [];
  surface_output_pixel_formats := []; requires_bitrate_zero := false |}.

Definition DESCRIPTORS : list EncoderDescriptor :=
  [X265; SVTAV1; LIBAOM; HEVC_NVENC; HEVC_VAAPI; H264_VIDEOTOOLBOX; HEVC_VIDEOTOOLBOX].
Definition encoder_descriptor (encoder : bytes) : option EncoderDescriptor :=
  List.find (fun d => eqb_text encoder (lit (e_encoder d))) DESCRIPTORS.

Close Scope string_scope.

Definition in_range (min max v : Z) : bool := (min <=? v) && (v <=? max).
Definition accepts_preset (d : EncoderDescriptor) (preset : bytes) : bool :=
  match preset_domain d with
  | PresetNamed set => one_of set preset
  | PresetRange min max =>
      match parse_u8 preset with Some v => in_range min max v | None => false end
  | PresetNone => false
  end.
Definition accepts_tune (d : EncoderDescriptor) : bytes -> bool := one_of (tunes d).
Definition accepts_codec_profile (d : EncoderDescriptor) : bytes -> bool := one_of (codec_profiles d).
Definition accepts_codec_level (d : EncoderDescriptor) : bytes -> bool := one_of (codec_levels d).
Definition accepts_pixel_format (d : EncoderDescriptor) : bytes -> bool := one_of (pixel_formats d).

Definition output_pixel_format (d : EncoderDescriptor) (pixel_format : bytes) : option bytes :=
  match surface_output_pixel_formats d with
  | [] => Some pixel_format
  | pairs => option_map (fun p => lit (snd p))
               (List.find (fun p => eqb_text pixel_format (lit (fst p))) pairs)
  end.
Definition pixel_format_compatible_with_profile (d : EncoderDescriptor) (pixel_format : bytes)
    (codec_profile : option bytes) : bool :=
  match codec_profile with
  | None => true
  | Some profile =>
      if negb (one_of (eight_bit_only_profiles d) profile) then true
      else negb (one_of (ten_bit_pixel_formats d) pixel_format)
  end.
Definition profile_requires_ten_bit_pixel_format (d : EncoderDescriptor)
    (codec_profile pixel_format : option bytes) : bool :=
  match codec_profile with
  | None => true
  | Some profile =>
      if negb (one_of (ten_bit_only_profiles d) profile) then true
      else match pixel_format with
           | Some format => one_of (ten_bit_pixel_formats d) format
           | None => false
           end
  end.

(** ** Profiles *)

Inductive VideoDecodeMode := Software | Nvidia | Vaapi | VideoToolbox.
#[global] Instance VideoDecodeMode_eq_dec : EqDecision VideoDecodeMode.
Proof. solve_decision. Defined.
Definition VideoDecodeMode_as_str (m : VideoDecodeMode) : string :=
  match m with
  | Software => "software" | Nvidia => "nvidia" | Vaapi => "vaapi" | VideoToolbox => "video_toolbox"
  end.
Definition VideoDecodeMode_parse (v : bytes) : option VideoDecodeMode :=
  if eqb_text v (lit "software") then Some Software
  else if eqb_text v (lit "nvidia") then Some Nvidia
  else if eqb_text v (lit "vaapi") then Some Vaapi
  else if eqb_text v (lit "video_toolbox") then Some VideoToolbox
  else None.

Record TranscodeVideoProfile := {
  t_name : bytes;
  t_target_codec : bytes;
  t_encoder : bytes;
  t_crf : option Z;
  t_cq : option Z;
  t_qp : option Z;
  t_bitrate_kbps : option Z;
  t_preset : option bytes;
  t_tune : option bytes;
  t_codec_profile : option bytes;
  t_codec_level : option bytes;
  t_pixel_format : option bytes;
  t_max_width : option Z;
  t_max_height : option Z;
  t_decode : VideoDecodeMode;
  t_copy_compatible : bool;
}.

(** The reasons a profile is refused, without their text. *)
Inductive ProfileError :=
  | UnknownEncoder | WrongTargetCodec | InvalidQuality | DecodePairing | InvalidPreset
  | InvalidTune | InvalidCodecProfile | InvalidCodecLevel | InvalidPixelFormat
  | IncompatiblePixelFormat | TenBitSurfaceRequired | VideoToolboxTuple.

Definition validate_quality_domain (d : EncoderDescriptor) (p : TranscodeVideoProfile) : bool :=
  match quality_domain d, t_crf p, t_cq p, t_qp p, t_bitrate_kbps p with
  | QCrf min max, Some v, None, None, None => in_range min max v
  | QCq min max, None, Some v, None, None => in_range min max v
  | QQp min max, None, None, Some v, None => in_range min max v
  | QBitrateKbps min max, None, None, None, Some v => in_range min max v
  | _, _, _, _, _ => false
  end.
Definition validate_decode_pairing (d : EncoderDescriptor) (decode : VideoDecodeMode) : bool :=
  match decode with
  | Software => true
  | Nvidia => bool_decide (backend d = BNvidia)
  | Vaapi => bool_decide (backend d = BVaapi)
  | VideoToolbox => bool_decide (backend d = BVideoToolbox)
  end.
Definition validate_preset (d : EncoderDescriptor) (preset : option bytes) : bool :=
  match preset_domain d, preset with
  | PresetNone, None => true
  | PresetNone, Some _ => false
  | _, None => false
  | _, Some v => accepts_preset d v
  end.
Definition validate_videotoolbox_tuple (p : TranscodeVideoProfile) (b : VideoEncoderBackend) : bool :=
  if negb (bool_decide (b = BVideoToolbox)) then true else
  let tuple := (t_encoder p, t_codec_profile p, t_codec_level p, t_pixel_format p) in
  bool_decide (tuple = (lit "h264_videotoolbox", Some (lit "high"), Some (lit "4.1"),
                        Some (lit "yuv420p")))
  || bool_decide (tuple = (lit "hevc_videotoolbox", Some (lit "main"), None, Some (lit "yuv420p")))
  || bool_decide (tuple = (lit "hevc_videotoolbox", Some (lit "main10"), None,
                           Some (lit "yuv420p10le"))).

(** [if let Some(v) = o && !f(v)] is an error. *)
Definition all_some {A} (f : A -> bool) (o : option A) : bool :=
  match o with Some v => f v | None => true end.
Definition guard_profile (b : bool) (e : ProfileError) : result ProfileError unit :=
  if b then Ok tt else Err e.

Definition validate_profile_against_descriptor (p : TranscodeVideoProfile) :
    result ProfileError unit :=
  d ← ok_or (encoder_descriptor (t_encoder p)) UnknownEncoder;
  _ ← guard_profile (eqb_text (lit (e_target_codec d)) (t_target_codec p)) WrongTargetCodec;
  _ ← guard_profile (validate_quality_domain d p) InvalidQuality;
  _ ← guard_profile (validate_decode_pairing d (t_decode p)) DecodePairing;
  _ ← guard_profile (validate_preset d (t_preset p)) InvalidPreset;
  _ ← guard_profile (all_some (accepts_tune d) (t_tune p)) InvalidTune;
  _ ← guard_profile (all_some (accepts_codec_profile d) (t_codec_profile p)) InvalidCodecProfile;
  _ ← guard_profile (all_some (accepts_codec_level d) (t_codec_level p)) InvalidCodecLevel;
  _ ← guard_profile (all_some (accepts_pixel_format d) (t_pixel_format p)) InvalidPixelFormat;
  _ ← guard_profile (all_some (fun f => pixel_format_compatible_with_profile d f (t_codec_profile p))
                       (t_pixel_format p)) IncompatiblePixelFormat;
  _ ← guard_profile (profile_requires_ten_bit_pixel_format d (t_codec_profile p) (t_pixel_format p))
        TenBitSurfaceRequired;
  guard_profile (validate_videotoolbox_tuple p (backend d)) VideoToolboxTuple.

Definition expected_output_pixel_format (p : TranscodeVideoProfile) :
    result ProfileError (option bytes) :=
  match t_pixel_format p with
  | None => Ok None
  | Some f =>
      d ← ok_or (encoder_descriptor (t_encoder p)) UnknownEncoder;
      out ← ok_or (output_pixel_format d f) InvalidPixelFormat;
      Ok (Some out)
  end.

(** ** What the table guarantees *)

Lemma encoder_descriptor_in e d :
  encoder_descriptor e = Some d -> d ∈ DESCRIPTORS /\ e = lit (e_encoder d).
Proof.
  unfold encoder_descriptor. intros [Hin He]%List.find_some. split; [by apply list_elem_of_In|].
  by apply bool_decide_eq_true in He.
Qed.

Lemma guard_profile_ok b e u : guard_profile b e = Ok u <-> b = true.
Proof. destruct b, u; cbn; split; done. Qed.

(** What an accepted profile satisfies, all at once. *)
Lemma validate_profile_ok p d :
  encoder_descriptor (t_encoder p) = Some d ->
  (validate_profile_against_descriptor p = Ok tt <->
   t_target_codec p = lit (e_target_codec d) /\ validate_quality_domain d p = true
   /\ validate_decode_pairing d (t_decode p) = true /\ validate_preset d (t_preset p) = true
   /\ all_some (accepts_tune d) (t_tune p) = true
   /\ all_some (accepts_codec_profile d) (t_codec_profile p) = true
   /\ all_some (accepts_codec_level d) (t_codec_level p) = true
   /\ all_some (accepts_pixel_format d) (t_pixel_format p) = true
   /\ all_some (fun f => pixel_format_compatible_with_profile d f (t_codec_profile p))
        (t_pixel_format p) = true
   /\ profile_requires_ten_bit_pixel_format d (t_codec_profile p) (t_pixel_format p) = true
   /\ validate_videotoolbox_tuple p (backend d) = true).
Proof.
  intros Hd. unfold validate_profile_against_descriptor. rewrite Hd. cbn [ok_or].
  assert (Hg : forall b e (k : result ProfileError unit),
    (guard_profile b e ≫= (fun _ => k)) = Ok tt <-> b = true /\ k = Ok tt).
  { intros [|] e k; cbn; [tauto|]. split; [done|by intros [? _]]. }
  change (Ok d ≫= ?f) with (f d). cbv beta. rewrite !Hg, guard_profile_ok.
  unfold eqb_text. rewrite bool_decide_eq_true. intuition congruence.
Qed.

(** The output pixel format of an accepted profile is always known: every
    surface format an encoder accepts records the file format it writes. *)
Theorem accepted_profile_output_format p :
  validate_profile_against_descriptor p = Ok tt ->
  match t_pixel_format p with
  | None => expected_output_pixel_format p = Ok None
  | Some f => exists out, expected_output_pixel_format p = Ok (Some out)
  end.
Proof.
  unfold validate_profile_against_descriptor.
  destruct (encoder_descriptor (t_encoder p)) as [d|] eqn:Hd; [|done]. intros Hv.
  assert (Hok : validate_profile_against_descriptor p = Ok tt)
    by (unfold validate_profile_against_descriptor; by rewrite Hd).
  apply (validate_profile_ok p d Hd) in Hok as (_&_&_&_&_&_&_&Hpf&_).
  unfold expected_output_pixel_format. destruct (t_pixel_format p) as [f|]; [|done].
  rewrite Hd. cbn in Hpf |- *. apply encoder_descriptor_in in Hd as [Hin _].
  unfold accepts_pixel_format, one_of in Hpf. apply existsb_exists in Hpf as (w & Hw & Hf).
  apply bool_decide_eq_true in Hf as ->.
  repeat (apply elem_of_cons in Hin as [->|Hin]; [cbn in Hw; intuition subst; by eexists|]).
  by apply elem_of_nil in Hin.
Qed.
