(* ===== verification/VideoProfiles.v ===== *)
(** * The video profile registry

    [voom-store/src/repo/policy/video_profiles.rs] on its table of
    [migrations/0001_schema.sql], with the rows the migration seeds. The
    registry is a map from the unique name to the row; a row keeps the columns
    as they are stored and [row_to_video_profile] decodes it. Every write is
    one statement on the pool, so a refused write changes nothing.

    The theorems: the [CHECK]s of the table never refuse what the code
    accepted, but for one shape of name, and every profile that is in the
    registry can be read and satisfies its encoder. *)

From Stdlib Require Import ZArith Lia Bool String Ascii.
From stdpp Require Import base gmap strings list sorting.
From S2P Require Import Prelude Vocab Store Bytes Encoders.

Open Scope Z_scope.

(** ** Rows and profiles *)

Record VideoProfileRow := {
  vr_id : bytes;
  vr_name : bytes;
  vr_target_codec : bytes;
  vr_encoder : bytes;
  vr_crf : option Z;
  vr_cq : option Z;
  vr_qp : option Z;
  vr_bitrate_kbps : option Z;
  vr_preset : option bytes;
  vr_tune : option bytes;
  vr_codec_profile : option bytes;
  vr_codec_level : option bytes;
  vr_pixel_format : option bytes;
  vr_max_width : option Z;
  vr_max_height : option Z;
  vr_output_container : bytes;
  vr_copy_compatible : Z;
  vr_retired_at : option string;
  vr_decode_backend : bytes;
}.

Record VideoProfile := {
  v_id : bytes;
  v_name : bytes;
  v_target_codec : bytes;
  v_encoder : bytes;
  v_crf : option Z;
  v_cq : option Z;
  v_qp : option Z;
  v_bitrate_kbps : option Z;
  v_preset : option bytes;
  v_tune : option bytes;
  v_codec_profile : option bytes;
  v_codec_level : option bytes;
  v_pixel_format : option bytes;
  v_max_width : option Z;
  v_max_height : option Z;
  v_output_container : bytes;
  v_copy_compatible : bool;
  v_decode : VideoDecodeMode;
  v_retired_at : option Z;
}.

Record NewVideoProfile := {
  nv_name : bytes;
  nv_encoder : bytes;
  nv_crf : option Z;
  nv_cq : option Z;
  nv_qp : option Z;
  nv_bitrate_kbps : option Z;
  nv_preset : option bytes;
  nv_tune : option bytes;
  nv_codec_profile : option bytes;
  nv_codec_level : option bytes;
  nv_pixel_format : option bytes;
  nv_max_width : option Z;
  nv_max_height : option Z;
  nv_output_container : bytes;
  nv_copy_compatible : bool;
  nv_decode : VideoDecodeMode;
}.

Definition is_supported_transcode_video_container : bytes -> bool := one_of ["mkv"; "mp4"]%string.

Definition new_typed_profile (n : NewVideoProfile) (target_codec : bytes) : TranscodeVideoProfile := {|
  t_name := nv_name n; t_target_codec := target_codec; t_encoder := nv_encoder n;
  t_crf := nv_crf n; t_cq := nv_cq n; t_qp := nv_qp n; t_bitrate_kbps := nv_bitrate_kbps n;
  t_preset := nv_preset n; t_tune := nv_tune n; t_codec_profile := nv_codec_profile n;
  t_codec_level := nv_codec_level n; t_pixel_format := nv_pixel_format n;
  t_max_width := nv_max_width n; t_max_height := nv_max_height n;
  t_decode := nv_decode n; t_copy_compatible := nv_copy_compatible n |}.

(** The derived target codec of a valid profile. *)
Definition NewVideoProfile_validate (n : NewVideoProfile) : Res bytes :=
  if negb (non_empty (trim (nv_name n))) then Err EConfig else
  d ← ok_or (encoder_descriptor (nv_encoder n)) EConfig;
  let target_codec := lit (e_target_codec d) in
  match validate_profile_against_descriptor (new_typed_profile n target_codec) with
  | Err _ => Err EConfig
  | Ok _ =>
      if negb (is_supported_transcode_video_container (nv_output_container n)) then Err EConfig
      else if bool_decide (nv_max_width n = Some 0) || bool_decide (nv_max_height n = Some 0)
      then Err EConfig
      else Ok target_codec
  end.

Definition to_worker_profile (v : VideoProfile) : TranscodeVideoProfile := {|
  t_name := v_name v; t_target_codec := v_target_codec v; t_encoder := v_encoder v;
  t_crf := v_crf v; t_cq := v_cq v; t_qp := v_qp v; t_bitrate_kbps := v_bitrate_kbps v;
  t_preset := v_preset v; t_tune := v_tune v; t_codec_profile := v_codec_profile v;
  t_codec_level := v_codec_level v; t_pixel_format := v_pixel_format v;
  t_max_width := v_max_width v; t_max_height := v_max_height v;
  t_decode := v_decode v; t_copy_compatible := v_copy_compatible v |}.

(** ** The table *)

(** [length(trim(name)) > 0]: SQL trims spaces, and the length of a text stops
    at its first NUL. *)
Definition nul : ascii := "000"%char.
Definition name_check (name : bytes) : bool :=
  match trim_by (eqc " ") name with c :: _ => negb (eqc nul c) | [] => false end.
Definition between (lo hi : Z) (v : option Z) : bool :=
  match v with Some v => in_range lo hi v | None => false end.
Definition absent {A} (o : option A) : bool := match o with None => true | Some _ => false end.

Definition quality_check (r : VideoProfileRow) : bool :=
  (one_of ["h264_videotoolbox"; "hevc_videotoolbox"]%string (vr_encoder r)
   && absent (vr_crf r) && absent (vr_cq r) && absent (vr_qp r)
   && between 1 4294967295 (vr_bitrate_kbps r))
  || (one_of ["hevc_nvenc"]%string (vr_encoder r)
      && absent (vr_crf r) && absent (vr_qp r) && absent (vr_bitrate_kbps r)
      && between 1 51 (vr_cq r))
  || (one_of ["hevc_vaapi"]%string (vr_encoder r)
      && absent (vr_crf r) && absent (vr_cq r) && absent (vr_bitrate_kbps r)
      && between 1 52 (vr_qp r))
  || (one_of ["libx265"; "libsvtav1"; "libaom-av1"]%string (vr_encoder r)
      && absent (vr_cq r) && absent (vr_qp r) && absent (vr_bitrate_kbps r)
      && match vr_crf r with Some v => 0 <=? v | None => false end).
Definition decode_check (r : VideoProfileRow) : bool :=
  one_of ["software"]%string (vr_decode_backend r)
  || (one_of ["nvidia"]%string (vr_decode_backend r) && one_of ["hevc_nvenc"]%string (vr_encoder r))
  || (one_of ["video_toolbox"]%string (vr_decode_backend r)
      && one_of ["h264_videotoolbox"; "hevc_videotoolbox"]%string (vr_encoder r))
  || (one_of ["vaapi"]%string (vr_decode_backend r) && one_of ["hevc_vaapi"]%string (vr_encoder r)).
Definition dimension_check (v : option Z) : bool :=
  match v with Some v => 0 <? v | None => true end.

(** The [CHECK]s of the table. *)
Definition video_profile_check (r : VideoProfileRow) : bool :=
  name_check (vr_name r)
  && one_of ["h264"; "hevc"; "av1"]%string (vr_target_codec r)
  && one_of ["libx265"; "libsvtav1"; "libaom-av1"; "hevc_nvenc"; "h264_videotoolbox";
             "hevc_videotoolbox"; "hevc_vaapi"]%string (vr_encoder r)
  && quality_check r
  && (if one_of ["hevc_vaapi"]%string (vr_encoder r) then absent (vr_preset r)
      else negb (absent (vr_preset r)))
  && dimension_check (vr_max_width r) && dimension_check (vr_max_height r)
  && one_of ["mkv"; "mp4"]%string (vr_output_container r)
  && ((vr_copy_compatible r =? 0) || (vr_copy_compatible r =? 1))
  && one_of ["software"; "nvidia"; "video_toolbox"; "vaapi"]%string (vr_decode_backend r)
  && decode_check r.

Abbreviation Registry := (gmap bytes VideoProfileRow).

(** A seeded row, with software decoding and not retired. *)
Definition seed (name codec encoder : string) (crf : Z) (preset : string)
    (codec_profile pixel_format : option string) (size : option (Z * Z)) (container : string)
    (copy : Z) : VideoProfileRow := {|
  vr_id := lit "vp-" ++ lit name; vr_name := lit name; vr_target_codec := lit codec;
  vr_encoder := lit encoder; vr_crf := Some crf; vr_cq := None; vr_qp := None;
  vr_bitrate_kbps := None; vr_preset := Some (lit preset); vr_tune := None;
  vr_codec_profile := lit <$> codec_profile; vr_codec_level := None;
  vr_pixel_format := lit <$> pixel_format;
  vr_max_width := fst <$> size; vr_max_height := snd <$> size;
  vr_output_container := lit container; vr_copy_compatible := copy; vr_retired_at := None;
  vr_decode_backend := lit "software" |}.
Definition seeds : list VideoProfileRow :=
  [seed "default-hevc" "hevc" "libx265" 23 "medium" None None None "mkv" 0;
   seed "hevc-archive" "hevc" "libx265" 18 "slow" (Some "main10"%string) (Some "yuv420p10le"%string)
     None "mkv" 0;
   seed "hevc-1080p" "hevc" "libx265" 23 "medium" None None (Some (1920, 1080)) "mp4" 1;
   seed "default-av1" "av1" "libsvtav1" 30 "8" None None None "mkv" 0;
   seed "av1-archive" "av1" "libaom-av1" 20 "4" None None None "mkv" 0;
   seed "av1-1080p" "av1" "libsvtav1" 32 "8" None None (Some (1920, 1080)) "mp4" 1].
Definition initial_registry : Registry := list_to_map (map (fun r => (vr_name r, r)) seeds).

(** ** The repository *)

Section repo.
Context `{Iso8601}.

Definition u8_column (v : option Z) : Res (option Z) :=
  match v with
  | None => Ok None
  | Some v => if in_range 0 255 v then Ok (Some v) else Err EDatabase
  end.
Definition u32_column (v : option Z) : Res (option Z) :=
  match v with
  | None => Ok None
  | Some v => if is_u32 v then Ok (Some v) else Err EDatabase
  end.

Definition row_to_video_profile (r : VideoProfileRow) : Res VideoProfile :=
  crf ← u8_column (vr_crf r);
  cq ← u8_column (vr_cq r);
  qp ← u8_column (vr_qp r);
  bitrate ← u32_column (vr_bitrate_kbps r);
  max_width ← u32_column (vr_max_width r);
  max_height ← u32_column (vr_max_height r);
  retired_at ← transpose (parse_iso8601 <$> vr_retired_at r);
  decode ← ok_or (VideoDecodeMode_parse (vr_decode_backend r)) EDatabase;
  Ok {| v_id := vr_id r; v_name := vr_name r; v_target_codec := vr_target_codec r;
        v_encoder := vr_encoder r; v_crf := crf; v_cq := cq; v_qp := qp;
        v_bitrate_kbps := bitrate; v_preset := vr_preset r; v_tune := vr_tune r;
        v_codec_profile := vr_codec_profile r; v_codec_level := vr_codec_level r;
        v_pixel_format := vr_pixel_format r; v_max_width := max_width; v_max_height := max_height;
        v_output_container := vr_output_container r;
        v_copy_compatible := negb (vr_copy_compatible r =? 0); v_decode := decode;
        v_retired_at := retired_at |}.

Definition get_by_name (name : bytes) : Tx Registry VoomError (option VideoProfile) :=
  getsR (fun t => transpose (row_to_video_profile <$> t !! name)).

(** [ORDER BY name ASC] compares bytes. *)
Definition bytes_le (a b : bytes) : bool :=
  text_le (string_of_list_ascii a) (string_of_list_ascii b).
Definition name_order (a b : VideoProfileRow) : Prop := bytes_le (vr_name a) (vr_name b) = true.
#[global] Instance name_order_dec a b : Decision (name_order a b).
Proof. unfold name_order. apply _. Defined.
Definition list_profiles : Tx Registry VoomError (list VideoProfile) :=
  getsR (fun t => collect row_to_video_profile
    (merge_sort name_order (List.filter (fun r => absent (vr_retired_at r)) (snd <$> map_to_list t)))).

Definition new_row (n : NewVideoProfile) (id target_codec : bytes) (retired_at : option string) :
    VideoProfileRow := {|
  vr_id := id; vr_name := nv_name n; vr_target_codec := target_codec; vr_encoder := nv_encoder n;
  vr_crf := nv_crf n; vr_cq := nv_cq n; vr_qp := nv_qp n; vr_bitrate_kbps := nv_bitrate_kbps n;
  vr_preset := nv_preset n; vr_tune := nv_tune n; vr_codec_profile := nv_codec_profile n;
  vr_codec_level := nv_codec_level n; vr_pixel_format := nv_pixel_format n;
  vr_max_width := nv_max_width n; vr_max_height := nv_max_height n;
  vr_output_container := nv_output_container n;
  vr_copy_compatible := Z.b2z (nv_copy_compatible n); vr_retired_at := retired_at;
  vr_decode_backend := lit (VideoDecodeMode_as_str (nv_decode n)) |}.

(** [INSERT], refused by a duplicate name or a [CHECK]. *)
Definition insert_row (r : VideoProfileRow) : Tx Registry VoomError bool := fun t =>
  match t !! vr_name r with
  | Some _ => (Ok false, t)
  | None => if video_profile_check r then (Ok true, <[vr_name r := r]> t) else (Ok false, t)
  end.

(** After a refused insert the name decides between a conflict and the
    database error. *)
Definition classify_insert_error (name : bytes) : Tx Registry VoomError VoomError := fun t =>
  match get_by_name name t with
  | (Ok (Some _), t) => (Ok EConflict, t)
  | (_, t) => (Ok EDatabase, t)
  end.

Definition create (n : NewVideoProfile) : Tx Registry VoomError VideoProfile :=
  target_codec ← lift (NewVideoProfile_validate n);
  let id := lit "vp-" ++ nv_name n in
  inserted ← insert_row (new_row n id target_codec None);
  if inserted : bool then
    mret {| v_id := id; v_name := nv_name n; v_target_codec := target_codec;
            v_encoder := nv_encoder n; v_crf := nv_crf n; v_cq := nv_cq n; v_qp := nv_qp n;
            v_bitrate_kbps := nv_bitrate_kbps n; v_preset := nv_preset n; v_tune := nv_tune n;
            v_codec_profile := nv_codec_profile n; v_codec_level := nv_codec_level n;
            v_pixel_format := nv_pixel_format n; v_max_width := nv_max_width n;
            v_max_height := nv_max_height n; v_output_container := nv_output_container n;
            v_copy_compatible := nv_copy_compatible n; v_decode := nv_decode n;
            v_retired_at := None |}
  else e ← classify_insert_error (nv_name n); throw e.

(** [UPDATE .. WHERE name = ?]: whether a row was changed; a [CHECK] that
    fails is a database error. *)
Definition update_row (n : NewVideoProfile) (target_codec : bytes) : Tx Registry VoomError bool :=
  fun t =>
  match t !! nv_name n with
  | None => (Ok false, t)
  | Some r =>
      let r := new_row n (vr_id r) target_codec (vr_retired_at r) in
      if video_profile_check r then (Ok true, <[nv_name n := r]> t) else (Err EDatabase, t)
  end.
Definition update (n : NewVideoProfile) : Tx Registry VoomError (option VideoProfile) :=
  target_codec ← lift (NewVideoProfile_validate n);
  affected ← update_row n target_codec;
  if affected : bool then get_by_name (nv_name n) else mret None.

Definition with_retired (ts : string) (r : VideoProfileRow) : VideoProfileRow := {|
  vr_id := vr_id r; vr_name := vr_name r; vr_target_codec := vr_target_codec r;
  vr_encoder := vr_encoder r; vr_crf := vr_crf r; vr_cq := vr_cq r; vr_qp := vr_qp r;
  vr_bitrate_kbps := vr_bitrate_kbps r; vr_preset := vr_preset r; vr_tune := vr_tune r;
  vr_codec_profile := vr_codec_profile r; vr_codec_level := vr_codec_level r;
  vr_pixel_format := vr_pixel_format r; vr_max_width := vr_max_width r;
  vr_max_height := vr_max_height r; vr_output_container := vr_output_container r;
  vr_copy_compatible := vr_copy_compatible r; vr_retired_at := Some ts;
  vr_decode_backend := vr_decode_backend r |}.
Definition retire (name : bytes) (now : Z) : Tx Registry VoomError (option VideoProfile) :=
  ts ← lift (iso8601 now);
  _ ← modify (alter (fun r => if absent (vr_retired_at r) then with_retired ts r else r) name);
  get_by_name name.
End repo.

(** ** The registry is sound *)

Section sound.
Context `{Iso8601Laws}.

(** The widths the types of the code give the fields. *)
Definition u8_field (v : option Z) : Prop := forall z, v = Some z -> in_range 0 255 z = true.
Definition u32_field (v : option Z) : Prop := forall z, v = Some z -> is_u32 z = true.
Definition typed_new (n : NewVideoProfile) : Prop :=
  u8_field (nv_crf n) /\ u8_field (nv_cq n) /\ u8_field (nv_qp n) /\ u32_field (nv_bitrate_kbps n)
  /\ u32_field (nv_max_width n) /\ u32_field (nv_max_height n).

(** The name whose length is zero to SQL. *)
Definition nul_name (name : bytes) : bool :=
  match trim_by (eqc " ") name with c :: _ => eqc nul c | [] => false end.

Definition row_ok (name : bytes) (r : VideoProfileRow) : Prop :=
  vr_name r = name /\ video_profile_check r = true
  /\ (forall s, vr_retired_at r = Some s -> parses s)
  /\ exists v, row_to_video_profile r = Ok v
     /\ validate_profile_against_descriptor (to_worker_profile v) = Ok tt
     /\ is_supported_transcode_video_container (v_output_container v) = true.
Definition registry_ok (t : Registry) : Prop := map_Forall row_ok t.

Lemma trim_start_spaces name : forallb (eqc " ") name = true -> trim_start name = [].
Proof.
  induction name as [|c name IH]; [done|]. cbn [forallb]. intros [->%eqc_true Hn]%andb_true_iff.
  exact (IH Hn).
Qed.

Lemma trim_start_by_nil f name : trim_start_by f name = [] -> forallb f name = true.
Proof.
  induction name as [|c name IH]; [done|]. cbn. destruct (f c); [by intros ->%IH|done].
Qed.

Lemma trimmed_head f name c rest : trim_start_by f name = c :: rest -> f c = false.
Proof.
  induction name as [|b name IH]; [done|]. cbn. destruct (f b) eqn:Hb; [apply IH|].
  by intros [= -> _].
Qed.

(** A text that the code does not find blank has a character to SQL. *)
Lemma sql_trim_name name : non_empty (trim name) = true -> trim_by (eqc " ") name <> [].
Proof.
  intros Hn Htrim. unfold trim_by, trim_end_by in Htrim.
  apply (f_equal (@rev ascii)) in Htrim. rewrite rev_involutive in Htrim. cbn in Htrim.
  apply trim_start_by_nil in Htrim.
  assert (Hall : forallb (eqc " ") (trim_start_by (eqc " ") name) = true).
  { apply forallb_forall. intros c Hc. rewrite forallb_forall in Htrim. apply Htrim.
    by apply in_rev in Hc. }
  destruct (trim_start_by (eqc " ") name) as [|c rest] eqn:E.
  - apply trim_start_by_nil in E. unfold trim in Hn. by rewrite trim_start_spaces in Hn.
  - apply trimmed_head in E. cbn in Hall. by rewrite E in Hall.
Qed.

Lemma name_check_valid name :
  non_empty (trim name) = true -> name_check name = negb (nul_name name).
Proof.
  intros Hn%sql_trim_name. unfold name_check, nul_name. by destruct (trim_by (eqc " ") name).
Qed.

(** What the code checked implies the [CHECK]s that depend on the encoder. *)
Lemma descriptor_checks n d id at_ :
  encoder_descriptor (nv_encoder n) = Some d ->
  validate_profile_against_descriptor (new_typed_profile n (lit (e_target_codec d))) = Ok tt ->
  let r := new_row n id (lit (e_target_codec d)) at_ in
  one_of ["h264"; "hevc"; "av1"]%string (vr_target_codec r) = true
  /\ one_of ["libx265"; "libsvtav1"; "libaom-av1"; "hevc_nvenc"; "h264_videotoolbox";
             "hevc_videotoolbox"; "hevc_vaapi"]%string (vr_encoder r) = true
  /\ quality_check r = true
  /\ (if one_of ["hevc_vaapi"]%string (vr_encoder r) then absent (vr_preset r)
      else negb (absent (vr_preset r))) = true
  /\ decode_check r = true
  /\ one_of ["software"; "nvidia"; "video_toolbox"; "vaapi"]%string (vr_decode_backend r) = true.
Proof.
  intros Hd Hv. apply (validate_profile_ok (new_typed_profile n _) d Hd) in Hv as (_&Hq&Hdec&Hp&_).
  apply encoder_descriptor_in in Hd as [Hin Henc]. cbn in Hq, Hdec, Hp |- *.
  unfold quality_check, decode_check. cbn [new_row vr_encoder vr_crf vr_cq vr_qp vr_bitrate_kbps
    vr_preset vr_decode_backend]. rewrite Henc. clear Henc.
  unfold validate_quality_domain in Hq. cbn in Hq.
  destruct (nv_crf n) as [crf|], (nv_cq n) as [cq|], (nv_qp n) as [qp|], (nv_bitrate_kbps n) as [kb|],
    (nv_preset n) as [pr|], (nv_decode n);
    repeat (apply elem_of_cons in Hin as [->|Hin]; [try done|]); try by apply elem_of_nil in Hin.
  all: split_and!; [done|done| |done|done|done].
  all: cbn [quality_domain X265 SVTAV1 LIBAOM HEVC_NVENC HEVC_VAAPI H264_VIDEOTOOLBOX
    HEVC_VIDEOTOOLBOX] in Hq; cbn [between].
  all: try change u32_max with 4294967295 in Hq; try by rewrite Hq.
  all: apply andb_true_iff in Hq as [-> _]; done.
Qed.

(** The profile a written row reads back as. *)
Definition new_profile (n : NewVideoProfile) (id target_codec : bytes) (retired_at : option Z) :
    VideoProfile := {|
  v_id := id; v_name := nv_name n; v_target_codec := target_codec; v_encoder := nv_encoder n;
  v_crf := nv_crf n; v_cq := nv_cq n; v_qp := nv_qp n; v_bitrate_kbps := nv_bitrate_kbps n;
  v_preset := nv_preset n; v_tune := nv_tune n; v_codec_profile := nv_codec_profile n;
  v_codec_level := nv_codec_level n; v_pixel_format := nv_pixel_format n;
  v_max_width := nv_max_width n; v_max_height := nv_max_height n;
  v_output_container := nv_output_container n; v_copy_compatible := nv_copy_compatible n;
  v_decode := nv_decode n; v_retired_at := retired_at |}.

Lemma u8_column_ok v : u8_field v -> u8_column v = Ok v.
Proof. destruct v as [z|]; [|done]. intros Hv. cbn. by rewrite (Hv z eq_refl). Qed.
Lemma u32_column_ok v : u32_field v -> u32_column v = Ok v.
Proof. destruct v as [z|]; [|done]. intros Hv. cbn. by rewrite (Hv z eq_refl). Qed.

Lemma decode_mode_roundtrip m : VideoDecodeMode_parse (lit (VideoDecodeMode_as_str m)) = Some m.
Proof. by destruct m. Qed.

Lemma retired_decodes (at_ : option string) :
  (forall s, at_ = Some s -> parses s) -> exists o, transpose (parse_iso8601 <$> at_) = Ok o.
Proof.
  destruct at_ as [s|]; intros Hs; [|by exists None]. destruct (Hs s eq_refl) as [z Hz].
  exists (Some z). cbn. by rewrite (proj2 (parse_iso8601_ok z s) Hz).
Qed.

Lemma new_row_decodes n id codec at_ o :
  typed_new n -> transpose (parse_iso8601 <$> at_) = Ok o ->
  row_to_video_profile (new_row n id codec at_) = Ok (new_profile n id codec o).
Proof.
  intros (H1 & H2 & H3 & H4 & H5 & H6) Ho. unfold row_to_video_profile.
  cbn [new_row vr_crf vr_cq vr_qp vr_bitrate_kbps vr_max_width vr_max_height vr_retired_at
    vr_decode_backend].
  rewrite !u8_column_ok, !u32_column_ok, Ho by done. cbn [mbind result_mbind].
  rewrite decode_mode_roundtrip. cbn. unfold new_profile. by destruct (nv_copy_compatible n).
Qed.

Lemma validate_new_ok n codec :
  NewVideoProfile_validate n = Ok codec ->
  non_empty (trim (nv_name n)) = true
  /\ (exists d, encoder_descriptor (nv_encoder n) = Some d /\ codec = lit (e_target_codec d))
  /\ validate_profile_against_descriptor (new_typed_profile n codec) = Ok tt
  /\ is_supported_transcode_video_container (nv_output_container n) = true
  /\ nv_max_width n <> Some 0 /\ nv_max_height n <> Some 0.
Proof.
  unfold NewVideoProfile_validate. destruct (non_empty _); [|done]. cbn [negb].
  destruct (encoder_descriptor _) as [d|] eqn:Hd; [|done].
  cbn [mbind result_mbind ok_or]. destruct (validate_profile_against_descriptor _) as [[]|] eqn:Hv; [|done].
  destruct (is_supported_transcode_video_container _); [|done]. cbn [negb].
  destruct (bool_decide_reflect (nv_max_width n = Some 0)); [done|].
  destruct (bool_decide_reflect (nv_max_height n = Some 0)); [done|]. intros [= <-]. eauto 10.
Qed.

Lemma dimension_positive v : u32_field v -> v <> Some 0 -> dimension_check v = true.
Proof.
  destruct v as [z|]; [|done]. intros Hu Hz. specialize (Hu z eq_refl). unfold is_u32 in Hu.
  cbn. apply Z.ltb_lt. apply andb_true_iff in Hu as [Hu%Z.leb_le _].
  assert (z <> 0) by congruence. lia.
Qed.

(** The [CHECK]s accept a validated profile unless its name looks empty to SQL. *)
Lemma new_row_check n id codec at_ :
  typed_new n -> NewVideoProfile_validate n = Ok codec ->
  video_profile_check (new_row n id codec at_) = negb (nul_name (nv_name n)).
Proof.
  intros Ht (Hname & (d & Hd & ->) & Hv & Hc & Hw & Hh)%validate_new_ok.
  destruct (descriptor_checks n d id at_ Hd Hv) as (H1 & H2 & H3 & H4 & H5 & H6).
  unfold video_profile_check. rewrite H1, H2, H3, H4, H5, H6.
  cbn [new_row vr_name vr_max_width vr_max_height vr_output_container vr_copy_compatible].
  destruct Ht as (_ & _ & _ & _ & Hw' & Hh'). rewrite !dimension_positive by done.
  unfold is_supported_transcode_video_container in Hc. rewrite Hc, name_check_valid by done.
  destruct (nv_copy_compatible n); cbn; by destruct (nul_name _).
Qed.

Lemma new_row_ok n id codec at_ :
  typed_new n -> NewVideoProfile_validate n = Ok codec -> nul_name (nv_name n) = false ->
  (forall s, at_ = Some s -> parses s) -> row_ok (nv_name n) (new_row n id codec at_).
Proof.
  intros Ht Hv Hnul Hat. split_and!; [done| |done|].
  - by rewrite (new_row_check n id codec at_ Ht Hv), Hnul.
  - destruct (retired_decodes at_ Hat) as [o Ho].
    exists (new_profile n id codec o). rewrite (new_row_decodes n id codec at_ o Ht Ho).
    apply validate_new_ok in Hv as (_ & _ & Hp & Hc & _). done.
Qed.

Lemma registry_get t name :
  registry_ok t -> exists o, get_by_name name t = (Ok o, t) /\ (o = None <-> t !! name = None).
Proof.
  intros Hok. unfold get_by_name, getsR. destruct (t !! name) as [r|] eqn:Hr; cbn.
  - destruct (Hok name r Hr) as (_ & _ & _ & v & -> & _). exists (Some v). done.
  - by exists None.
Qed.

Lemma retired_row_ok name r ts :
  row_ok name r -> vr_retired_at r = None -> parses ts -> row_ok name (with_retired ts r).
Proof.
  intros (Hn & Hc & _ & v & Hv & Hp & Hs) Hr Hts. split_and!; [done|done| |].
  - intros s. cbn. congruence.
  - unfold row_to_video_profile in Hv |- *. cbn [with_retired vr_crf vr_cq vr_qp vr_bitrate_kbps
      vr_max_width vr_max_height vr_retired_at vr_decode_backend] in Hv |- *.
    rewrite Hr in Hv. tx_inv.
    destruct (retired_decodes (Some ts)) as [o Ho]; [by intros s [= <-]|].
    repeat match goal with H : _ = Ok _ |- _ => rewrite H; clear H end.
    cbn [mbind result_mbind]. rewrite (proj2 (ok_or_ok _ EDatabase _)) by eassumption.
    eexists. split; [done|]. done.
Qed.

Inductive RegistryCommand :=
  | CreateProfile (n : NewVideoProfile)
  | UpdateProfile (n : NewVideoProfile)
  | RetireProfile (name : bytes) (now : Z).
Definition run_registry (c : RegistryCommand) (t : Registry) : Registry :=
  match c with
  | CreateProfile n => snd (create n t)
  | UpdateProfile n => snd (update n t)
  | RetireProfile name now => snd (retire name now t)
  end.
Definition typed_command (c : RegistryCommand) : Prop :=
  match c with CreateProfile n | UpdateProfile n => typed_new n | RetireProfile _ _ => True end.

Lemma create_cases n t :
  registry_ok t -> typed_new n ->
  create n t =
    match NewVideoProfile_validate n with
    | Err e => (Err e, t)
    | Ok codec =>
        if bool_decide (is_Some (t !! nv_name n)) then (Err EConflict, t)
        else if nul_name (nv_name n) then (Err EDatabase, t)
        else (Ok (new_profile n (lit "vp-" ++ nv_name n) codec None),
              <[nv_name n := new_row n (lit "vp-" ++ nv_name n) codec None]> t)
    end.
Proof.
  intros Hok Ht. unfold create, lift, mbind, tx_mbind.
  destruct (NewVideoProfile_validate n) as [codec|e] eqn:Hv; [|done].
  unfold insert_row. rewrite new_row_check by done.
  destruct (registry_get t (nv_name n) Hok) as (o & Hget & Ho). cbn [new_row vr_name] in *.
  destruct (t !! nv_name n) as [r|] eqn:Hr.
  - rewrite bool_decide_eq_true_2 by done. unfold classify_insert_error. rewrite Hget.
    destruct o as [v|]; [done|]. discriminate (proj1 Ho eq_refl).
  - rewrite bool_decide_eq_false_2 by (by intros [? ?]). destruct (nul_name _); [|done]. cbn [negb].
    unfold classify_insert_error. rewrite Hget. by rewrite (proj2 Ho eq_refl).
Qed.

Lemma update_cases n t :
  registry_ok t -> typed_new n ->
  snd (update n t) =
    match NewVideoProfile_validate n, t !! nv_name n with
    | Ok codec, Some r =>
        if nul_name (nv_name n) then t
        else <[nv_name n := new_row n (vr_id r) codec (vr_retired_at r)]> t
    | _, _ => t
    end.
Proof.
  intros Hok Ht. unfold update, lift, mbind, tx_mbind.
  destruct (NewVideoProfile_validate n) as [codec|e] eqn:Hv; [|done]. unfold update_row.
  destruct (t !! nv_name n) as [r|] eqn:Hr; [|done]. rewrite new_row_check by done.
  by destruct (nul_name (nv_name n)).
Qed.

Lemma run_registry_ok c t : registry_ok t -> typed_command c -> registry_ok (run_registry c t).
Proof.
  intros Hok Hc. destruct c as [n|n|name now]; cbn [run_registry].
  - rewrite (create_cases n t Hok Hc). destruct (NewVideoProfile_validate n) as [codec|e] eqn:Hv; [|done].
    case_bool_decide; [done|]. destruct (nul_name _) eqn:Hnul; [done|]. cbn [snd].
    apply map_Forall_insert_2; [|done]. by apply new_row_ok.
  - rewrite (update_cases n t Hok Hc). destruct (NewVideoProfile_validate n) as [codec|e] eqn:Hv; [|done].
    destruct (t !! nv_name n) as [r|] eqn:Hr; [|done]. destruct (nul_name _) eqn:Hnul; [done|].
    apply map_Forall_insert_2; [|done]. destruct (Hok _ _ Hr) as (_ & _ & Hat & _). by apply new_row_ok.
  - unfold retire, lift, mbind, tx_mbind. destruct (iso8601 now) as [ts|e] eqn:Hts; [|done].
    apply iso8601_ok in Hts. cbn [modify snd getsR get_by_name].
    intros name' r'. unfold get_by_name, getsR. cbn [snd]. rewrite lookup_alter_Some.
    intros [(<- & r & Hr & ->)|[_ Hr]]; [|by apply Hok]. pose proof (Hok _ _ Hr) as Hro.
    destruct (vr_retired_at r) as [s|] eqn:Hs; cbn; [done|].
    apply retired_row_ok; [done|done|]. by apply stamped_parses; exists now.
Qed.

Lemma initial_registry_ok : registry_ok initial_registry.
Proof.
  assert (Hok : forall r, r ∈ seeds -> row_ok (vr_name r) r).
  { intros r Hr. repeat (apply elem_of_cons in Hr as [->|Hr];
      [split_and!; [done|done|done|eexists; done]|]). by apply elem_of_nil in Hr. }
  intros name r Hr. apply elem_of_list_to_map_2, list_elem_of_In, in_map_iff in Hr
    as (r' & [= <- <-] & Hin). by apply Hok, list_elem_of_In.
Qed.

(** Every profile of the registry is usable: from the seeded rows, after any
    sequence of creations, updates and retirements, successful or not, each
    row satisfies the schema, decodes, and is accepted by its encoder; a
    retired profile stays readable. *)
Theorem registry_sound commands :
  Forall typed_command commands ->
  let t := fold_left (fun t c => run_registry c t) commands initial_registry in
  forall name, is_Some (t !! name) ->
    exists v, get_by_name name t = (Ok (Some v), t) /\ v_name v = name
      /\ validate_profile_against_descriptor (to_worker_profile v) = Ok tt.
Proof.
  intros Hcs t. assert (Hok : registry_ok t).
  { subst t. generalize initial_registry, initial_registry_ok. induction Hcs as [|c cs Hc _ IH];
      intros t Ht; [done|]. apply IH. by apply run_registry_ok. }
  intros name [r Hr]. destruct (Hok name r Hr) as (Hn & _ & _ & v & Hv & Hp & _).
  exists v. unfold get_by_name, getsR. rewrite Hr. cbn. rewrite Hv. split_and!; [done| |done].
  unfold row_to_video_profile in Hv. tx_inv. done.
Qed.

(** Creating a profile has four outcomes: refused by the code's validation,
    a conflict when the name is taken (retired or not), a database error when
    the name begins, but for spaces, with a NUL, and otherwise a row from which
    the returned profile is read back. The schema refuses nothing else. *)
Theorem create_outcome n t :
  registry_ok t -> typed_new n ->
  match NewVideoProfile_validate n with
  | Err e => e = EConfig /\ create n t = (Err EConfig, t)
  | Ok codec =>
      if bool_decide (is_Some (t !! nv_name n)) then create n t = (Err EConflict, t)
      else if nul_name (nv_name n) then create n t = (Err EDatabase, t)
      else exists v t', create n t = (Ok v, t') /\ get_by_name (nv_name n) t' = (Ok (Some v), t')
        /\ forall name, name <> nv_name n -> t' !! name = t !! name
  end.
Proof.
  intros Hok Ht. rewrite (create_cases n t Hok Ht).
  destruct (NewVideoProfile_validate n) as [codec|e] eqn:Hv.
  - case_bool_decide; [done|]. destruct (nul_name _); [done|]. do 2 eexists. split; [done|].
    split; [|intros name Hne; by rewrite lookup_insert_ne].
    unfold get_by_name, getsR. rewrite lookup_insert_eq. cbn.
    by rewrite (new_row_decodes n _ codec None None Ht eq_refl).
  - assert (e = EConfig) as ->; [|done]. unfold NewVideoProfile_validate in Hv.
    destruct (negb _); [congruence|]. destruct (encoder_descriptor _); [|cbn in Hv; congruence].
    cbn in Hv. destruct (validate_profile_against_descriptor _); [|congruence].
    destruct (negb _); [congruence|]. destruct (_ || _); congruence.
Qed.
End sound.
