(* ===== verification/TrackFilterPrint.v ===== *)
(** * Track filters: what is accepted, and printing

    [parse_sound]: an accepted filter is well formed and nested at most
    [MAX_FILTER_DEPTH] deep. [filter_roundtrip]: every well formed filter within
    that depth is the parse of its printed form.

    A printer for track filters and the round trip through the parser. *)

From Stdlib Require Import ZArith Lia Bool String Ascii.
From stdpp Require Import base strings list.
From S2P Require Import Prelude Bytes PolicySyntax PolicyTrees TrackFilters.

Open Scope nat_scope.

(** ** Well-formed filters *)

Definition token_ok (t : bytes) : bool := non_empty t && forallb is_stable_token_byte t.
Definition tokens_ok (ts : list bytes) : bool := (0 <? length ts) && forallb token_ok ts.
Definition numeric_op (op : ComparisonOp) : bool :=
  match op with OpContains | OpMatches => false | _ => true end.

Section well_formed.
Context (title : bytes -> bool).
Fixpoint well_formed (f : TrackFilter) : bool :=
  match f with
  | FLanguageIn vs | FCodecIn vs => tokens_ok vs
  | FChannels op v => numeric_op op && is_u64 v
  | FCommentary | FForced | FDefault | FFont => true
  | FTitleContains v => title v
  | FTitleMatches _ => false
  | FNot g => well_formed g
  | FAnd fs | FOr fs => (1 <? length fs) && forallb well_formed fs
  end.
End well_formed.

Fixpoint filter_height (f : TrackFilter) : nat :=
  match f with
  | FNot g => S (filter_height g)
  | FAnd fs | FOr fs => S (max_list_with filter_height fs)
  | _ => 0
  end.

(** A title that is matched: not empty, and cut before its last quotes. *)
Definition title_cut (v : bytes) : bool := non_empty v && negb (ends_with [quote] v).

(** ** Soundness *)

Lemma bool_guard {A} (b : bool) (x : A) m : (if b then reject else m) = Ok x -> b = false /\ m = Ok x.
Proof. by destruct b. Qed.

Lemma quoted_token_ok text i t j : quoted_token_at text i = Ok (t, j) -> token_ok t = true.
Proof.
  unfold quoted_token_at. destruct (text !! i) as [c|]; [|done]. destruct (eqc quote c); [|done].
  cbn [negb]. destruct (str_find _ _) as [n|]; [|done].
  intros [[H1%negb_false_iff H2%negb_false_iff]%orb_false_iff [= <- _]]%bool_guard.
  unfold token_ok. by rewrite H1, H2.
Qed.

Lemma token_list_ok fuel text i ts : token_list_from fuel text i = Ok ts -> tokens_ok ts = true.
Proof.
  revert i ts. induction fuel as [|fuel IH]; intros i ts; cbn [token_list_from]; [done|].
  destruct (quoted_token_at text i) as [[t j]|] eqn:Ht; [|done]. apply quoted_token_ok in Ht.
  cbn. destruct (text !! _) as [c|]; [|done]. destruct (eqc "," c).
  - destruct (token_list_from fuel _ _) as [vs|] eqn:Hvs; [|done]. intros [= <-].
    apply IH in Hvs. unfold tokens_ok in *. apply andb_true_iff in Hvs as [_ Hvs]. cbn.
    by rewrite Ht.
  - destruct (eqc "]" c); [|done]. intros [_ [= <-]]%bool_guard. unfold tokens_ok. cbn. by rewrite Ht.
Qed.

Lemma trim_start_by_head f text :
  match trim_start_by f text with c :: _ => f c = false | [] => Forall (fun c => f c = true) text end.
Proof.
  induction text as [|c text IH]; cbn; [constructor|]. destruct (f c) eqn:Hc; [|done].
  destruct (trim_start_by f text); [by constructor|done].
Qed.

Lemma trim_quotes_cut b text : b <> quote -> title_cut (trim_end_by (eqc quote) (b :: text)) = true.
Proof.
  intros Hb. unfold title_cut, trim_end_by.
  pose proof (trim_start_by_head (eqc quote) (rev (b :: text))) as H.
  destruct (trim_start_by _ _) as [|a l].
  - exfalso. apply Hb, eqc_true. eapply (proj1 (Forall_forall _ _) H). apply list_elem_of_In.
    rewrite <- in_rev. by left.
  - change (rev (a :: l)) with (rev l ++ [a]). apply andb_true_iff. split; [by destruct (rev l)|].
    apply negb_true_iff, not_true_is_false. rewrite ends_with_byte, last_snoc.
    intros [= ->]. by rewrite eqc_refl in H.
Qed.

Lemma title_parse_ok text f : parse_title text = Ok f -> well_formed title_cut f = true /\ filter_height f = 0.
Proof.
  unfold parse_title. destruct (strip_prefix _ text) as [v|]; [|done]. set (v' := trim v).
  destruct (starts_with [quote] v') eqn:Hs; [|done]. cbn [negb].
  destruct (quoted_text_end v') as [stop|] eqn:He; [|done].
  intros [[H1%negb_false_iff%Nat.eqb_eq H2%Nat.eqb_neq]%orb_false_iff Hok]%bool_guard.
  apply starts_with_spec in Hs as [body Hv]. rewrite Hv in *. unfold schema_v2_title_value in Hok.
  rewrite (proj2 (strip_prefix_spec _ _ _) eq_refl) in Hok. injection Hok as <-.
  split; [|done]. cbn [well_formed]. unfold quoted_text_end in He. cbn [app] in He.
  change (drop 1 (quote :: body)) with body in He.
  destruct body as [|b body]; [done|]. cbn [quoted_end_from] in He.
  destruct (eqc backslash b) eqn:Hb; [|destruct (eqc quote b) eqn:Hq].
  - apply eqc_true in Hb as ->. by apply trim_quotes_cut.
  - exfalso. apply H2. by injection He as <-.
  - apply trim_quotes_cut. intros ->. by rewrite eqc_refl in Hq.
Qed.

Lemma digits_nonneg text acc v : (0 <= acc)%Z -> digits_value acc text = Some v -> (0 <= v)%Z.
Proof.
  revert acc. induction text as [|c text IH]; intros acc Ha; cbn; [by intros [= <-]|].
  unfold digit. destruct (is_ascii_digit c) eqn:Hc; cbn; [|done]. apply IH.
  unfold is_ascii_digit, byte_in in Hc. apply andb_true_iff in Hc as [Hc%Nat.leb_le _].
  unfold byte. lia.
Qed.

Lemma parse_uint_range max text v : parse_uint max text = Some v -> (0 <= v <= max)%Z.
Proof.
  unfold parse_uint. set (ds := match text with [] => _ | _ => _ end).
  destruct ds as [|c ds]; [done|].
  destruct (digits_value 0 (c :: ds)) as [w|] eqn:Hw; [|done]. cbn [mbind option_bind].
  destruct (w <=? max)%Z eqn:Hm; [|done]. intros [= <-]. apply Z.leb_le in Hm.
  apply digits_nonneg in Hw; lia.
Qed.

Lemma channels_parse_ok text f : parse_channels text = Ok f -> well_formed title_cut f = true /\ filter_height f = 0.
Proof.
  unfold parse_channels. destruct (split_ascii_whitespace text) as [|op [|v more]]; [done..|].
  destruct (channel_op op) as [o|] eqn:Ho; [|done]. intros [_ H]%bool_guard.
  destruct (parse_u64 v) as [n|] eqn:Hn; [|done]. injection H as <-. split; [|done].
  apply parse_uint_range in Hn. cbn. apply andb_true_iff. split.
  - unfold channel_op in Ho. by repeat (destruct (eqb_text _ _); [by injection Ho as <-|]).
  - unfold is_u64. apply andb_true_iff. rewrite !Z.leb_le. lia.
Qed.

Lemma leaf_parse_ok text f : parse_leaf text = Ok f -> well_formed title_cut f = true /\ filter_height f = 0.
Proof.
  unfold parse_leaf. destruct (strip_prefix _ text) as [v|].
  { unfold parse_quoted_token. destruct (quoted_token_at _ 0) as [[t j]|] eqn:Ht; [|done].
    apply quoted_token_ok in Ht. cbn. destruct (non_empty _); [done|]. cbn. intros [= <-].
    split; [|done]. cbn. unfold tokens_ok. cbn. by rewrite Ht. }
  destruct (strip_prefix _ text) as [v|]; [|destruct (strip_prefix _ text) as [v|]].
  1,2: unfold parse_quoted_token_list; destruct (starts_with _ _); [|done]; cbn [negb];
    destruct (token_list_from _ _ _) as [ts|] eqn:Hts; [|done]; cbn; intros [= <-];
    split; [by apply token_list_ok in Hts|done].
  unfold parse_scalar_leaf. destruct (strip_prefix _ text) as [v|]; [apply channels_parse_ok|].
  repeat (destruct (eqb_text _ _); [by intros [= <-]|]). apply title_parse_ok.
Qed.

Lemma split_top_two text delimiter parts :
  split_top_level text delimiter = Ok (Some parts) -> 1 < length parts.
Proof.
  unfold split_top_level. destruct (split_top_from _ _ _ _ _) as [ps|]; [|done].
  cbn [mbind result_mbind]. destruct (1 <? length ps) eqn:H; [|done].
  intros [= <-]. by apply Nat.ltb_lt.
Qed.

Lemma max_list_with_le {A} (f : A -> nat) l n : (forall x, x ∈ l -> f x <= n) -> max_list_with f l <= n.
Proof.
  induction l as [|x l IH]; intros H; cbn; [lia|]. pose proof (H x ltac:(left)).
  assert (max_list_with f l <= n) by (apply IH; intros y Hy; apply H; by right). lia.
Qed.

(** The children of a conjunction or disjunction. *)
Lemma children_ok n parts fs :
  (forall text f, parse_expression text n = Ok f ->
     well_formed title_cut f = true /\ filter_height f <= n) ->
  collect (fun part => parse_expression part n) parts = Ok fs -> 1 < length parts ->
  (1 <? length fs) && forallb (well_formed title_cut) fs = true
  /\ S (max_list_with filter_height fs) <= S n.
Proof.
  intros IH Hc%collect_ok Hl. pose proof (Forall2_length _ _ _ Hc) as Hlen.
  assert (Hall : forall f, f ∈ fs -> well_formed title_cut f = true /\ filter_height f <= n).
  { intros f Hf. apply list_elem_of_lookup in Hf as [i Hi].
    destruct (Forall2_lookup_r _ _ _ _ _ Hc Hi) as (t & _ & Ht). by eapply IH. }
  split.
  - apply andb_true_iff. split; [apply Nat.ltb_lt; lia|]. apply forallb_forall.
    intros f Hf%list_elem_of_In. by apply Hall.
  - apply le_n_S, max_list_with_le. intros f Hf. by apply Hall.
Qed.

Lemma expression_ok text n f :
  parse_expression text n = Ok f -> well_formed title_cut f = true /\ filter_height f <= n.
Proof.
  revert text f. induction n as [|n IH]; intros text f; cbn [parse_expression];
    (destruct (non_empty text); [|done]); cbn [negb];
    (destruct (split_top_level text (lit " or ")) as [[ors|]|] eqn:Hor; cbn [mbind result_mbind];
      [| |done]).
  - done.
  - destruct (split_top_level text (lit " and ")) as [[ands|]|]; cbn [mbind result_mbind]; [done| |done].
    destruct (strip_prefix _ text); [done|]. destruct (owns_outer_group text); [done|].
    intros [? ->]%leaf_parse_ok. by split.
  - destruct (collect _ ors) as [fs|] eqn:Hc; [|done]. cbn. intros [= <-].
    eapply children_ok; [exact IH|exact Hc|by eapply split_top_two].
  - destruct (split_top_level text (lit " and ")) as [[ands|]|] eqn:Hand; cbn [mbind result_mbind]; [| |done].
    { destruct (collect _ ands) as [fs|] eqn:Hc; [|done]. cbn. intros [= <-].
      eapply children_ok; [exact IH|exact Hc|by eapply split_top_two]. }
    destruct (strip_prefix _ text) as [v|].
    { destruct (parse_expression (trim v) n) as [g|] eqn:Hg; [|done]. cbn. intros [= <-].
      apply IH in Hg as [? ?]. cbn. split; [done|lia]. }
    destruct (owns_outer_group text).
    { intros [? ?]%IH. split; [done|lia]. }
    intros [? ->]%leaf_parse_ok. split; [done|lia].
Qed.

(** A filter that is accepted is well formed: its lists are not empty and
    hold stable tokens, its channel counts fit in 64 bits, a title is never
    empty, [and] and [or] have at least two operands; and it is nested at most
    [MAX_FILTER_DEPTH] deep. *)
Theorem filter_sound text f :
  parse_track_filter text = Ok f ->
  well_formed title_cut f = true /\ filter_height f <= MAX_FILTER_DEPTH.
Proof. apply expression_ok. Qed.


(** ** The printer *)

Definition quoted (t : bytes) : bytes := [quote] ++ t ++ [quote].

Definition op_text (op : ComparisonOp) : bytes :=
  match op with
  | OpEq => lit "==" | OpNe => lit "!=" | OpLt => lit "<" | OpLte => lit "<="
  | OpGt => lit ">" | OpGte => lit ">=" | OpContains => lit "contains" | OpMatches => lit "matches"
  end.

Definition is_leaf (f : TrackFilter) : bool :=
  match f with FNot _ | FAnd _ | FOr _ => false | _ => true end.
(** An operand: a group unless it is a leaf. *)
Definition operand (f : TrackFilter) (text : bytes) : bytes :=
  if is_leaf f then text else lit "(" ++ text ++ lit ")".
Definition token_list (ts : list bytes) : bytes :=
  lit "[" ++ join (lit ", ") (map quoted ts) ++ lit "]".

Fixpoint print_filter (f : TrackFilter) : bytes :=
  match f with
  | FLanguageIn ts => lit "language in " ++ token_list ts
  | FCodecIn ts => lit "codec in " ++ token_list ts
  | FChannels op v => lit "channels " ++ op_text op ++ lit " " ++ decimal v
  | FCommentary => lit "commentary"
  | FForced => lit "forced"
  | FDefault => lit "default"
  | FFont => lit "font"
  | FTitleContains v => lit "title contains " ++ quoted v
  | FTitleMatches v => lit "title matches " ++ quoted v
  | FNot g => lit "not " ++ operand g (print_filter g)
  | FAnd fs => join (lit " and ") (map (fun g => operand g (print_filter g)) fs)
  | FOr fs => join (lit " or ") (map (fun g => operand g (print_filter g)) fs)
  end.
Definition print_operand (f : TrackFilter) : bytes := operand f (print_filter f).

(** The depth the printed form takes: an operator and a group each take one. *)
Fixpoint printed_depth (f : TrackFilter) : nat :=
  match f with
  | FNot g => S ((if is_leaf g then 0 else 1) + printed_depth g)
  | FAnd fs | FOr fs =>
      S (max_list_with (fun g => (if is_leaf g then 0 else 1) + printed_depth g) fs)
  | _ => 0
  end.

(** A title whose quoted form ends where it should, and with no quote to cut. *)
Definition title_printable (v : bytes) : bool :=
  title_cut v && bool_decide (quoted_end_from (v ++ [quote]) 1 false = Some (length v + 2)).
Definition printable : TrackFilter -> bool := well_formed title_printable.

Lemma solid_app t1 t2 a b :
  head t1 = Some a -> plain a = true -> last t2 = Some b -> plain b = true -> solid (t1 ++ t2) = true.
Proof.
  intros Ha Hpa Hb Hpb. unfold solid. destruct t1 as [|a' t1]; [done|]. injection Ha as ->.
  cbn [head app]. change (a :: t1 ++ t2) with ((a :: t1) ++ t2). rewrite last_app, Hb. by rewrite Hpa.
Qed.

(** ** Texts that a split passes over *)

(** The state of the scanner behind a text with no delimiter that begins with
    a space and [x] at the top level. *)
Fixpoint calm (x : ascii) (s : ScanState) (t : bytes) : option ScanState :=
  match t with
  | [] => Some s
  | c :: rest =>
      if is_top_level s && eqc " " c && match rest with n :: _ => eqc x n | [] => true end then None
      else match advance s c with Ok s' => calm x s' rest | Err _ => None end
  end.

Lemma calm_app x s s' t1 t2 : calm x s t1 = Some s' -> calm x s (t1 ++ t2) = calm x s' t2.
Proof.
  revert s. induction t1 as [|c t1 IH]; intros s; cbn [calm app]; [by intros [= ->]|].
  destruct t1 as [|n t1].
  - cbn [app]. rewrite andb_true_r. destruct (is_top_level s && eqc " " c); [done|]. cbn [andb].
    destruct (advance s c); [|done]. apply IH.
  - cbn [app]. destruct (is_top_level s && eqc " " c && eqc x n); [done|].
    destruct (advance s c); [|done]. apply IH.
Qed.

Lemma split_calm delimiter x s s' t rest part :
  (exists d, delimiter = " "%char :: x :: d) -> calm x s t = Some s' ->
  split_top_from delimiter (t ++ rest) 0 s part = split_top_from delimiter rest 0 s' (part ++ t).
Proof.
  intros [d ->]. revert s part. induction t as [|c t IH]; intros s part.
  { cbn [calm app]. intros [= ->]. by rewrite app_nil_r. }
  intros Hc. cbn [app split_top_from].
  assert (Hs : is_top_level s && starts_with (" "%char :: x :: d) (c :: t ++ rest) = false).
  { apply not_true_is_false. intros [Htop Hst]%andb_true_iff. apply starts_with_spec in Hst as [r Hr].
    injection Hr as -> Hr. cbn [calm] in Hc. rewrite Htop, eqc_refl in Hc. cbn [andb] in Hc.
    destruct t as [|n t]; [done|]. injection Hr as -> _. by rewrite eqc_refl in Hc. }
  rewrite Hs. cbn [calm] in Hc. destruct (_ && _); [done|].
  destruct (advance s c) as [s1|]; [|done]. cbn [mbind result_mbind].
  rewrite (IH s1 (part ++ [c]) Hc). by rewrite <- app_assoc.
Qed.

(** The delimiters. *)
Definition delim (x : ascii) : bytes := if eqc "o" x then lit " or " else lit " and ".
Definition delim_char (x : ascii) : Prop := x = "o"%char \/ x = "a"%char.

Lemma split_delim x rest part :
  delim_char x ->
  split_top_from (delim x) (delim x ++ rest) 0 scan_default part
  = (parts ← split_top_from (delim x) rest 0 scan_default []; Ok (trim part :: parts)).
Proof. by intros [-> | ->]. Qed.

Lemma split_join x ts :
  delim_char x -> ts <> [] ->
  Forall (fun t => calm x scan_default t = Some scan_default /\ solid t = true) ts ->
  split_top_from (delim x) (join (delim x) ts) 0 scan_default [] = Ok ts.
Proof.
  intros Hx Hne Hts. induction Hts as [|t ts [Hc Hs] Hts IH]; [done|].
  assert (Hd : exists d, delim x = " "%char :: x :: d) by (destruct Hx as [-> | ->]; by eexists).
  destruct ts as [|t' ts].
  - cbn [join]. rewrite <- (app_nil_r t) at 1. rewrite (split_calm _ x _ _ _ _ _ Hd Hc).
    change (Ok [trim t] = (Ok [t] : FR (list bytes))). by rewrite trim_solid.
  - change (join (delim x) (t :: t' :: ts)) with (t ++ delim x ++ join (delim x) (t' :: ts)).
    rewrite (split_calm _ x _ _ _ _ _ Hd Hc), split_delim by done. rewrite (IH ltac:(done)).
    cbn [mbind result_mbind app]. by rewrite trim_solid.
Qed.

(** ** Printed filters are passed over *)

Abbreviation st d := (scan_state d false false).

Definition word_byte (c : ascii) : bool :=
  negb (eqc " " c || eqc quote c || eqc "(" c || eqc ")" c).
(** A text that may follow a space at the top level. *)
Definition head_ok (t : bytes) : bool :=
  match t with c :: _ => plain c && negb (eqc "a" c) && negb (eqc "o" c) | [] => false end.

Lemma head_ok_delim x t : delim_char x -> head_ok t = true -> exists c m, t = c :: m /\ eqc x c = false.
Proof.
  intros Hx. destruct t as [|c m]; [done|]. cbn.
  intros [[_ H1%negb_true_iff]%andb_true_iff H2%negb_true_iff]%andb_true_iff.
  exists c, m. by destruct Hx as [-> | ->].
Qed.

Lemma calm_word x d w : forallb word_byte w = true -> calm x (st d) w = Some (st d).
Proof.
  induction w as [|c w IH]; [done|]. cbn [forallb].
  intros [[[[H1 H2]%orb_false_iff H3]%orb_false_iff H4]%negb_true_iff%orb_false_iff Hw]%andb_true_iff.
  cbn [calm]. rewrite H1, andb_false_r. cbn [andb]. unfold advance. cbn [escaped in_string].
  rewrite H2, H3, H4. by apply IH.
Qed.

Lemma calm_space x d t :
  delim_char x -> head_ok t = true -> calm x (st d) (lit " " ++ t) = calm x (st d) t.
Proof.
  intros Hx Ht. destruct (head_ok_delim x t Hx Ht) as (c & m & -> & Hc).
  cbn [lit list_ascii_of_string app]. cbn [calm]. rewrite Hc, !andb_false_r. done.
Qed.

Lemma calm_in_string x d v k e :
  quoted_end_from (v ++ [quote]) k e = Some (k + length v + 1) ->
  calm x (scan_state d true e) (v ++ [quote]) = Some (st d).
Proof.
  revert k e. induction v as [|c v IH]; intros k e.
  { destruct e; [done|]. intros _. by destruct d. }
  cbn [app quoted_end_from calm]. unfold is_top_level. cbn [in_string negb andb].
  unfold advance. cbn [escaped in_string s_depth]. destruct e.
  { intros H. apply (IH (k + 1)). rewrite H. f_equal. cbn. lia. }
  unfold advance_string. cbn [s_depth in_string].
  destruct (eqc backslash c).
  { intros H. apply (IH (k + 1)). rewrite H. f_equal. cbn. lia. }
  destruct (eqc quote c).
  { intros [= H]. cbn in H. lia. }
  intros H. apply (IH (k + 1)). rewrite H. f_equal. cbn. lia.
Qed.

Lemma calm_quoted x d v :
  quoted_end_from (v ++ [quote]) 1 false = Some (length v + 2) ->
  calm x (st d) (quoted v) = Some (st d).
Proof.
  intros H. unfold quoted. cbn [app calm].
  replace (is_top_level (st d) && eqc " " quote && _) with false by (by rewrite andb_false_r).
  unfold advance. cbn [escaped in_string s_depth]. rewrite eqc_refl.
  apply (calm_in_string x d v 1). rewrite H. f_equal. lia.
Qed.

Lemma token_quoted_end t k :
  forallb is_stable_token_byte t = true -> quoted_end_from (t ++ [quote]) k false = Some (k + length t + 1).
Proof.
  revert k. induction t as [|c t IH]; intros k; cbn [forallb app quoted_end_from].
  { intros _. f_equal. cbn. lia. }
  intros [Hc Ht]%andb_true_iff.
  assert (eqc backslash c = false /\ eqc quote c = false) as [-> ->].
  { split; apply not_true_is_false; intros ->%eqc_true; done. }
  rewrite (IH _ Ht). f_equal. cbn. lia.
Qed.

Lemma calm_token x d t : token_ok t = true -> calm x (st d) (quoted t) = Some (st d).
Proof.
  intros [_ Ht]%andb_true_iff. apply calm_quoted. rewrite token_quoted_end by done. f_equal. lia.
Qed.

Lemma calm_tokens x d ts :
  delim_char x -> forallb token_ok ts = true -> calm x (st d) (join (lit ", ") (map quoted ts)) = Some (st d).
Proof.
  intros Hx. induction ts as [|t ts IH]; [done|]. cbn [forallb].
  intros [Ht Hts]%andb_true_iff. destruct ts as [|t' ts]; [by apply calm_token|].
  change (join _ (map quoted (t :: t' :: ts)))
    with (quoted t ++ lit "," ++ lit " " ++ join (lit ", ") (map quoted (t' :: ts))).
  rewrite (calm_app _ _ _ _ _ (calm_token x d t Ht)).
  rewrite (calm_app _ _ _ _ _ (calm_word x d (lit ",") eq_refl)), calm_space; [by apply IH|done|].
  by destruct ts.
Qed.

Section induction.
Context (Q : TrackFilter -> Prop).
Hypothesis Hleaf : forall f, is_leaf f = true -> Q f.
Hypothesis Hnot : forall g, Q g -> Q (FNot g).
Hypothesis Hand : forall fs, Forall Q fs -> Q (FAnd fs).
Hypothesis Hor : forall fs, Forall Q fs -> Q (FOr fs).
Fixpoint filter_induction (f : TrackFilter) : Q f :=
  let all := fix all fs : Forall Q fs :=
    match fs with
    | [] => List.Forall_nil Q
    | g :: fs' => List.Forall_cons Q g fs' (filter_induction g) (all fs')
    end in
  match f with
  | FNot g => Hnot g (filter_induction g)
  | FAnd fs => Hand fs (all fs)
  | FOr fs => Hor fs (all fs)
  | f => Hleaf f eq_refl
  end.
End induction.

Lemma last_plain_app (t1 t2 : bytes) b : last t2 = Some b -> last (t1 ++ t2) = Some b.
Proof. intros H. by rewrite last_app, H. Qed.

Definition ends_plain (t : bytes) : Prop := exists b, last t = Some b /\ plain b = true.

Lemma ends_plain_app t1 t2 : ends_plain t2 -> ends_plain (t1 ++ t2).
Proof. intros (b & Hb & Hp). exists b. split; [by apply last_plain_app|done]. Qed.

Lemma solid_intro t : head_ok t = true -> ends_plain t -> solid t = true.
Proof.
  intros Hh (b & Hb & Hp). destruct t as [|c t]; [done|]. unfold solid. rewrite Hb. cbn [head].
  apply andb_true_iff in Hh as [[Hc _]%andb_true_iff _]. by rewrite Hc.
Qed.

Lemma digit_plain c : is_ascii_digit c = true -> plain c && negb (eqc "a" c) && negb (eqc "o" c) = true.
Proof.
  intros H. assert (Hne : forall b, is_ascii_digit b = false -> negb (eqc b c) = true).
  { intros b Hb. apply negb_true_iff, not_true_is_false. intros ->%eqc_true. congruence. }
  rewrite !Hne by done. rewrite !andb_true_r. revert H.
  unfold is_ascii_digit, byte_in, plain, is_ascii, ws1, byte_in, byte.
  intros [H1%Nat.leb_le H2%Nat.leb_le]%andb_true_iff.
  rewrite andb_true_iff, negb_true_iff. split; [apply Nat.leb_le; lia|].
  apply orb_false_iff. split; [apply andb_false_iff; right; apply Nat.leb_gt|apply Nat.eqb_neq]; lia.
Qed.

Lemma decimal_ends v : is_u64 v = true -> head_ok (decimal v) = true /\ ends_plain (decimal v).
Proof.
  intros [_ Hd]%u64_decimal. destruct (decimal_cons v) as (c & m & E). rewrite E in *. split.
  - cbn in Hd. apply andb_true_iff in Hd as [Hc _]. by apply digit_plain.
  - destruct (last (c :: m)) as [b|] eqn:Hb; [|by apply last_None in Hb]. exists b. split; [done|].
    rewrite forallb_forall in Hd. apply last_Some in Hb as [l Hl]. rewrite Hl in Hd.
    assert (Hb : is_ascii_digit b = true).
    { apply Hd, in_or_app. right. by left. }
    by apply digit_plain, andb_true_iff in Hb as [[? _]%andb_true_iff _].
Qed.

Lemma quoted_ends t : head_ok (quoted t) = true /\ ends_plain (quoted t).
Proof. split; [done|]. exists quote. split; [|done]. by apply last_plain_app, last_plain_app. Qed.

Lemma operand_head f t : head_ok t = true -> head_ok (operand f t) = true.
Proof. unfold operand. by destruct (is_leaf f). Qed.

Lemma join_head sep ts t : head_ok t = true -> head_ok (join sep (t :: ts)) = true.
Proof. intros H. destruct t as [|c t]; [done|]. by destruct ts. Qed.

Lemma join_ends sep ts : ts <> [] -> Forall ends_plain ts -> ends_plain (join sep ts).
Proof.
  intros Hne Hts. induction Hts as [|t ts Ht Hts IH]; [done|]. destruct ts as [|t' ts]; [done|].
  change (join sep (t :: t' :: ts)) with (t ++ sep ++ join sep (t' :: ts)).
  by apply ends_plain_app, ends_plain_app, IH.
Qed.

Lemma operand_ends f t : ends_plain t -> ends_plain (operand f t).
Proof.
  intros H. unfold operand. destruct (is_leaf f); [done|].
  apply ends_plain_app, ends_plain_app. by exists ")"%char.
Qed.

Lemma print_ends f : printable f = true -> head_ok (print_filter f) = true /\ ends_plain (print_filter f).
Proof.
  assert (Hjoin : forall sep fs, (1 <? length fs) && forallb printable fs = true ->
    Forall (fun f => printable f = true -> head_ok (print_filter f) = true /\ ends_plain (print_filter f)) fs ->
    head_ok (join sep (map (fun g => operand g (print_filter g)) fs)) = true
    /\ ends_plain (join sep (map (fun g => operand g (print_filter g)) fs))).
  { intros sep fs [Hl%Nat.ltb_lt Hfs]%andb_true_iff IH.
    assert (Hall : forall g, g ∈ fs -> head_ok (print_filter g) = true /\ ends_plain (print_filter g)).
    { intros g Hg. rewrite Forall_forall in IH. apply IH; [done|].
      rewrite forallb_forall in Hfs. by apply Hfs, list_elem_of_In. }
    destruct fs as [|g fs]; [cbn in Hl; lia|]. split.
    - apply join_head, operand_head, Hall. left.
    - apply join_ends; [done|]. apply Forall_forall. intros t Ht.
      apply list_elem_of_fmap in Ht as (g' & -> & Hg'). by apply operand_ends, Hall. }
  induction f as [f Hleaf|g IH|fs IH|fs IH] using filter_induction; intros Hp.
  - assert (Hlist : forall p ts, head_ok (lit p) = true ->
      head_ok (lit p ++ token_list ts) = true /\ ends_plain (lit p ++ token_list ts)).
    { intros p ts Hh. split; [by destruct (lit p)|].
      apply ends_plain_app, ends_plain_app, ends_plain_app. by exists "]"%char. }
    destruct f; try done; cbn [print_filter].
    + by apply Hlist.
    + by apply Hlist.
    + cbn in Hp. apply andb_true_iff in Hp as [_ Hv]. destruct (decimal_ends v Hv).
      split; [done|]. by apply ends_plain_app, ends_plain_app, ends_plain_app.
    + by split; [|eexists].
    + by split; [|eexists].
    + by split; [|eexists].
    + by split; [|eexists].
    + split; [done|]. by apply ends_plain_app, quoted_ends.
  - cbn [print_filter]. split; [done|]. apply ends_plain_app, operand_ends. by apply IH.
  - by apply Hjoin.
  - by apply Hjoin.
Qed.

Lemma calm_leaf x d f :
  delim_char x -> is_leaf f = true -> printable f = true ->
  calm x (st d) (print_filter f) = Some (st d).
Proof.
  intros Hx Hl Hp.
  assert (Hpre : forall w t, calm x (st d) (lit w) = Some (st d) -> head_ok t = true ->
    calm x (st d) (lit w ++ lit " " ++ t) = calm x (st d) t).
  { intros w t Hw Ht. rewrite (calm_app _ _ _ _ _ Hw). by apply calm_space. }
  assert (Hlist : forall ts, tokens_ok ts = true -> calm x (st d) (token_list ts) = Some (st d)).
  { intros ts [_ Hts]%andb_true_iff. unfold token_list.
    rewrite (calm_app _ _ _ _ _ (calm_word x d (lit "[") eq_refl)).
    rewrite (calm_app _ _ _ _ _ (calm_tokens x d ts Hx Hts)). by apply calm_word. }
  assert (Hlit : forall w, (w = "language in" \/ w = "codec in" \/ w = "channels" \/ w = "title contains")%string ->
    calm x (st d) (lit w) = Some (st d)).
  { intros w Hw. by destruct d, Hx as [-> | ->], Hw as [-> | [-> | [-> | ->]]]. }
  destruct f; try done; cbn [print_filter].
  - change (lit "language in ") with (lit "language in" ++ lit " "). rewrite <- app_assoc, Hpre by auto.
    by apply Hlist.
  - change (lit "codec in ") with (lit "codec in" ++ lit " "). rewrite <- app_assoc, Hpre by auto.
    by apply Hlist.
  - cbn in Hp. apply andb_true_iff in Hp as [Hop Hv]. destruct (decimal_ends v Hv) as [Hh _].
    change (lit "channels ") with (lit "channels" ++ lit " ").
    rewrite <- app_assoc, Hpre; [|by auto|by destruct op].
    rewrite (calm_app _ _ _ _ _ (calm_word x d (op_text op) ltac:(by destruct op))).
    rewrite calm_space by done. apply calm_word. destruct (u64_decimal v Hv) as [_ Hd].
    rewrite forallb_forall in Hd |- *. intros c Hc%Hd. unfold word_byte.
    apply negb_true_iff. rewrite !orb_false_iff.
    split_and!; apply not_true_is_false; intros ->%eqc_true; done.
  - by apply calm_word.
  - by apply calm_word.
  - by apply calm_word.
  - by apply calm_word.
  - change (lit "title contains ") with (lit "title contains" ++ lit " ").
    rewrite <- app_assoc, Hpre by auto. apply calm_quoted.
    cbn in Hp. by apply andb_true_iff in Hp as [_ Hp%bool_decide_eq_true].
Qed.

(** The scanner over a text, whatever it splits by. *)
Fixpoint run (s : ScanState) (t : bytes) : option ScanState :=
  match t with
  | [] => Some s
  | c :: rest => match advance s c with Ok s' => run s' rest | Err _ => None end
  end.
Definition deeper (s : ScanState) : ScanState := scan_state (S (s_depth s)) (in_string s) (escaped s).

Lemma run_app s s' t1 t2 : run s t1 = Some s' -> run s (t1 ++ t2) = run s' t2.
Proof.
  revert s. induction t1 as [|c t1 IH]; intros s; cbn [run app]; [by intros [= ->]|].
  destruct (advance s c); [|done]. apply IH.
Qed.

Lemma calm_run x s s' t : calm x s t = Some s' -> run s t = Some s'.
Proof.
  revert s. induction t as [|c t IH]; intros s; cbn [calm run]; [done|].
  destruct (_ && _); [done|]. destruct (advance s c); [|done]. apply IH.
Qed.

Lemma advance_deeper s s' c : advance s c = Ok s' -> advance (deeper s) c = Ok (deeper s').
Proof.
  unfold advance, deeper, advance_string. destruct s as [d i e]. cbn [s_depth in_string escaped].
  destruct e; [by intros [= <-]|]. destruct i.
  { destruct (eqc backslash c); [by intros [= <-]|]. by destruct (eqc quote c); intros [= <-]. }
  destruct (eqc quote c); [by intros [= <-]|]. destruct (eqc "(" c); [by intros [= <-]|].
  destruct (eqc ")" c); [|by intros [= <-]]. destruct d; [done|]. by intros [= <-].
Qed.

(** A text that is balanced by itself stays below the top level in a group. *)
Lemma calm_deeper x s s' t : run s t = Some s' -> calm x (deeper s) t = Some (deeper s').
Proof.
  revert s. induction t as [|c t IH]; intros s; cbn [calm run]; [by intros [= ->]|].
  assert (is_top_level (deeper s) = false) as -> by (unfold is_top_level; cbn; by rewrite andb_false_r).
  cbn [andb]. destruct (advance s c) as [s1|] eqn:Ha; [|done].
  rewrite (advance_deeper _ _ _ Ha). apply IH.
Qed.

Lemma owns_deeper s s' t rest :
  run s t = Some s' -> owns_from (t ++ rest) (deeper s) = owns_from rest (deeper s').
Proof.
  revert s. induction t as [|c t IH]; intros s; cbn [run app owns_from]; [by intros [= ->]|].
  destruct (advance s c) as [s1|] eqn:Ha; [|done]. rewrite (advance_deeper _ _ _ Ha).
  assert (is_top_level (deeper s1) = false) as -> by (unfold is_top_level; cbn; by rewrite andb_false_r).
  rewrite andb_false_r. apply IH.
Qed.

Lemma run_operand f t d : (forall d, run (st d) t = Some (st d)) -> run (st d) (operand f t) = Some (st d).
Proof.
  intros H. unfold operand. destruct (is_leaf f); [done|].
  change (run (st d) (lit "(" ++ t ++ lit ")")) with (run (st (d + 1)) (t ++ lit ")")).
  rewrite Nat.add_1_r, (run_app _ _ _ _ (H (S d))). done.
Qed.

Lemma run_join sep ts d :
  run (st d) sep = Some (st d) -> Forall (fun t => run (st d) t = Some (st d)) ts ->
  run (st d) (join sep ts) = Some (st d).
Proof.
  intros Hsep Hts. induction Hts as [|t ts Ht Hts IH]; [done|]. destruct ts as [|t' ts]; [done|].
  change (join sep (t :: t' :: ts)) with (t ++ sep ++ join sep (t' :: ts)).
  by rewrite (run_app _ _ _ _ Ht), (run_app _ _ _ _ Hsep).
Qed.

Lemma run_print f d : printable f = true -> run (st d) (print_filter f) = Some (st d).
Proof.
  assert (Hjoin : forall sep fs, (sep = lit " and " \/ sep = lit " or ") ->
    (1 <? length fs) && forallb printable fs = true ->
    Forall (fun f => forall d, printable f = true -> run (st d) (print_filter f) = Some (st d)) fs ->
    forall d, run (st d) (join sep (map (fun g => operand g (print_filter g)) fs)) = Some (st d)).
  { intros sep fs Hsep [_ Hfs]%andb_true_iff IH d'. apply run_join; [by destruct Hsep as [-> | ->]|].
    apply Forall_forall. intros t Ht. apply list_elem_of_fmap in Ht as (g & -> & Hg).
    apply run_operand. intros d''. rewrite Forall_forall in IH. apply IH; [done|].
    rewrite forallb_forall in Hfs. by apply Hfs, list_elem_of_In. }
  revert d. induction f as [f Hleaf|g IH|fs IH|fs IH] using filter_induction; intros d Hp.
  - apply (calm_run "o"). apply calm_leaf; [by left|done|done].
  - cbn [print_filter]. change (run (st d) (lit "not " ++ ?t)) with (run (st d) t).
    apply run_operand. intros d'. by apply IH.
  - apply Hjoin; [by left|done|done].
  - apply Hjoin; [by right|done|done].
Qed.

Lemma calm_operand x f d :
  delim_char x -> printable f = true -> calm x (st d) (print_operand f) = Some (st d).
Proof.
  intros Hx Hp. unfold print_operand, operand. destruct (is_leaf f) eqn:Hl; [by apply calm_leaf|].
  rewrite (calm_app x (st d) (st (S d))); [|cbn; by rewrite Nat.add_1_r, andb_false_r].
  change (st (S d)) with (deeper (st d)).
  rewrite (calm_app _ _ _ _ _ (calm_deeper x _ _ _ (run_print f d Hp))).
  done.
Qed.

Lemma print_operand_ends f : printable f = true -> head_ok (print_operand f) = true /\ solid (print_operand f) = true.
Proof.
  intros [Hh He]%print_ends. unfold print_operand. split; [by apply operand_head|].
  apply solid_intro; [by apply operand_head|by apply operand_ends].
Qed.

Lemma calm_not x g : delim_char x -> printable g = true ->
  calm x scan_default (print_filter (FNot g)) = Some scan_default.
Proof.
  intros Hx Hp. cbn [print_filter]. change (lit "not ") with (lit "not" ++ lit " "). rewrite <- app_assoc.
  rewrite (calm_app _ _ _ _ _ (calm_word x 0 (lit "not") eq_refl)).
  rewrite calm_space; [by apply calm_operand|done|by apply print_operand_ends].
Qed.

Lemma calm_and ts :
  Forall (fun t => calm "o" scan_default t = Some scan_default /\ head_ok t = true) ts ->
  calm "o" scan_default (join (lit " and ") ts) = Some scan_default.
Proof.
  intros Hts. induction Hts as [|t ts [Ht Hh] Hts IH]; [done|]. destruct ts as [|t' ts]; [done|].
  change (join (lit " and ") (t :: t' :: ts))
    with (t ++ lit " and" ++ lit " " ++ join (lit " and ") (t' :: ts)).
  rewrite (calm_app _ _ _ _ _ Ht), (calm_app _ _ (st 0) (lit " and")) by done.
  rewrite calm_space; [done|by left|]. apply Forall_inv in Hts as [_ Hh']. by apply join_head.
Qed.

(** ** The round trip *)

Lemma split_none x t :
  delim_char x -> calm x scan_default t = Some scan_default -> split_top_level t (delim x) = Ok None.
Proof.
  intros Hx Hc. unfold split_top_level.
  assert (Hd : exists d, delim x = " "%char :: x :: d) by (destruct Hx as [-> | ->]; by eexists).
  rewrite <- (app_nil_r t), (split_calm _ x _ _ _ _ _ Hd Hc). done.
Qed.

Lemma split_operands x fs :
  delim_char x -> (1 <? length fs) && forallb printable fs = true ->
  split_top_level (join (delim x) (map print_operand fs)) (delim x) = Ok (Some (map print_operand fs)).
Proof.
  intros Hx [Hl Hfs]%andb_true_iff. unfold split_top_level. rewrite split_join; [|done| |].
  - cbn [mbind result_mbind]. by rewrite length_map, Hl.
  - by destruct fs.
  - apply Forall_forall. intros t Ht. apply list_elem_of_fmap in Ht as (g & -> & Hg).
    rewrite forallb_forall in Hfs. apply list_elem_of_In in Hg. specialize (Hfs g Hg).
    split; [by apply calm_operand|by apply print_operand_ends].
Qed.

Lemma find_quote t rest :
  forallb is_stable_token_byte t = true -> str_find [quote] (t ++ quote :: rest) = Some (length t).
Proof.
  induction t as [|c t IH]; cbn [forallb app]; [done|]. intros [Hc Ht]%andb_true_iff.
  cbn [str_find]. assert (starts_with [quote] (c :: t ++ quote :: rest) = false) as ->.
  { apply not_true_is_false. intros [r [= -> _]]%starts_with_spec. done. }
  by rewrite IH.
Qed.

Lemma drop_behind (text a b : bytes) n : drop n text = a ++ b -> drop (n + length a) text = b.
Proof. intros H. rewrite <- drop_drop, H. apply drop_app_length. Qed.

Lemma lookup_behind (text b : bytes) n c : drop n text = c :: b -> text !! n = Some c.
Proof. intros H. rewrite <- (Nat.add_0_r n), <- lookup_drop, H. done. Qed.

Lemma token_list_roundtrip fuel text n ts :
  drop n text = join (lit ", ") (map quoted ts) ++ lit "]" -> tokens_ok ts = true ->
  length ts <= fuel -> token_list_from fuel text n = Ok ts.
Proof.
  intros Hd [Hne Hts]%andb_true_iff. revert fuel n Hd Hts.
  induction ts as [|t ts IH]; intros fuel n Hd Hts Hf; [done|]. clear Hne.
  cbn [forallb] in Hts. apply andb_true_iff in Hts as [[Hte Ht]%andb_true_iff Hts].
  destruct fuel as [|fuel]; [cbn in Hf; lia|]. cbn in Hf.
  assert (exists rest, drop n text = quoted t ++ rest /\
    ((ts = [] /\ rest = lit "]") \/
     (ts <> [] /\ rest = lit ", " ++ join (lit ", ") (map quoted ts) ++ lit "]")))
    as (rest & Hd' & Hrest).
  { destruct ts as [|t' ts]; [exists (lit "]"); split; [done|by left]|].
    eexists. split; [|by right]. rewrite Hd.
    change (join _ (map quoted (t :: t' :: ts)))
      with (quoted t ++ lit ", " ++ join (lit ", ") (map quoted (t' :: ts))).
    by rewrite <- !app_assoc. }
  assert (Hq : text !! n = Some quote) by exact (lookup_behind _ _ _ _ Hd').
  assert (Hd1 : drop (n + 1) text = t ++ quote :: rest).
  { apply (drop_behind text [quote]). rewrite Hd'. unfold quoted. by rewrite <- !app_assoc. }
  assert (Hd2 : drop (n + length t + 2) text = rest).
  { replace (n + length t + 2) with (n + length (quoted t)); [by apply drop_behind|].
    unfold quoted. rewrite !length_app. cbn. lia. }
  cbn [token_list_from]. unfold quoted_token_at. rewrite Hq, eqc_refl, Hd1, find_quote by done.
  cbn [negb]. rewrite take_app_length, Hte, Ht. cbn [negb orb mbind result_mbind].
  destruct Hrest as [[-> ->]|[Hne ->]].
  - assert (skip_whitespace text (n + length t + 2) = n + length t + 2) as ->.
    { unfold skip_whitespace. by rewrite Hd2, Nat.add_0_r. }
    rewrite (lookup_behind _ _ _ _ Hd2). cbn [eqc]. rewrite <- drop_drop, Hd2. done.
  - assert (skip_whitespace text (n + length t + 2) = n + length t + 2) as ->.
    { unfold skip_whitespace. by rewrite Hd2, Nat.add_0_r. }
    rewrite (lookup_behind _ _ _ _ Hd2). change (eqc "," ","%char) with true. cbv iota.
    assert (skip_whitespace text (n + length t + 2 + 1) = n + length t + 2 + 2) as ->.
    { unfold skip_whitespace.
      assert (drop (n + length t + 2 + 1) text
              = lit " " ++ join (lit ", ") (map quoted ts) ++ lit "]") as ->
        by exact (drop_behind _ (lit ",") _ _ Hd2).
      assert (count_while is_ascii_whitespace
                (lit " " ++ join (lit ", ") (map quoted ts) ++ lit "]") = 1) as ->; [|lia].
      by destruct ts as [|t' [|t'' ts]]. }
    pose proof (drop_behind _ (lit ", ") _ _ Hd2) as Hd3.
    change (length (lit ", ")) with 2 in Hd3.
    rewrite (IH ltac:(by destruct ts) fuel _ Hd3); [done|done|lia].
Qed.

Lemma token_list_parse ts : tokens_ok ts = true -> parse_quoted_token_list (token_list ts) = Ok ts.
Proof.
  intros Hts. unfold parse_quoted_token_list.
  rewrite trim_solid by (apply (solid_app _ _ "[" "]"); try done; by apply last_plain_app).
  change (starts_with (lit "[") (token_list ts)) with true. cbn [negb].
  assert (skip_whitespace (token_list ts) 1 = 1) as ->.
  { unfold skip_whitespace. destruct ts as [|t [|t' ts]]; done. }
  apply token_list_roundtrip; [done|done|]. unfold token_list. rewrite !length_app.
  assert (length ts <= length (join (lit ", ") (map quoted ts))); [|lia].
  clear Hts. induction ts as [|t [|t' ts] IH]; [done|cbn; lia|].
  change (join _ (map quoted (t :: t' :: ts)))
    with (quoted t ++ lit ", " ++ join (lit ", ") (map quoted (t' :: ts))).
  rewrite !length_app. cbn [length] in *. unfold quoted at 1. rewrite !length_app. cbn [length]. lia.
Qed.

Lemma channels_roundtrip op v :
  numeric_op op && is_u64 v = true -> parse_channels (op_text op ++ lit " " ++ decimal v) = Ok (FChannels op v).
Proof.
  intros [Hop Hv]%andb_true_iff. destruct (u64_decimal v Hv) as [Hp Hd].
  assert (Hw : forallb (fun c => negb (is_ascii_whitespace c)) (decimal v) = true).
  { rewrite forallb_forall in Hd |- *. intros c Hc%Hd. apply negb_true_iff, not_true_is_false.
    unfold is_ascii_whitespace, is_ascii_digit, byte_in, byte in *.
    apply andb_true_iff in Hc as [Hc%Nat.leb_le _]. rewrite !orb_true_iff, !Nat.eqb_eq. lia. }
  destruct (decimal_cons v) as (c & m & E).
  unfold parse_channels, split_ascii_whitespace. change (lit " " ++ decimal v) with (" "%char :: decimal v).
  rewrite split_by_app, split_by_word; [|done|by destruct op|done]. cbn [List.filter].
  assert (non_empty (op_text op) = true) as -> by (by destruct op). rewrite E in *. cbn [non_empty].
  assert (channel_op (op_text op) = Some op) as -> by (by destruct op).
  rewrite bool_decide_eq_false_2 by auto. by rewrite Hd, Hp.
Qed.

Lemma title_roundtrip v :
  title_printable v = true -> parse_title (lit "title contains " ++ quoted v) = Ok (FTitleContains v).
Proof.
  intros [[Hne Hlast%negb_true_iff]%andb_true_iff Hend%bool_decide_eq_true]%andb_true_iff.
  unfold parse_title. rewrite strip_prefix_app. destruct (quoted_ends v) as [Hh He].
  rewrite (trim_solid _ (solid_intro _ Hh He)).
  change (starts_with [quote] (quoted v)) with true. cbn [negb].
  unfold quoted_text_end. change (drop 1 (quoted v)) with (v ++ [quote]). rewrite Hend.
  assert (Hlen : length (quoted v) = length v + 2) by (unfold quoted; rewrite !length_app; cbn; lia).
  rewrite Hlen, Nat.eqb_refl. assert ((length v + 2 =? 2) = false) as ->.
  { apply Nat.eqb_neq. destruct v; [done|cbn; lia]. }
  cbn [negb orb]. unfold schema_v2_title_value, quoted. rewrite strip_prefix_app.
  cbn [mbind result_mbind]. unfold trim_end_by. rewrite rev_unit. cbn [trim_start_by].
  rewrite eqc_refl. destruct (rev v) as [|b l] eqn:Hr.
  { apply (f_equal (@rev ascii)) in Hr. rewrite rev_involutive in Hr. by subst. }
  apply (f_equal (@rev ascii)) in Hr. rewrite rev_involutive in Hr. cbn [rev] in Hr.
  assert (Hb : eqc quote b = false).
  { apply not_true_is_false. intros ->%eqc_true.
    assert (ends_with [quote] v = true) by (apply ends_with_byte; rewrite Hr; apply last_snoc).
    congruence. }
  cbn [trim_start_by]. rewrite Hb. cbn [rev]. by rewrite <- Hr.
Qed.

Lemma leaf_roundtrip f : is_leaf f = true -> printable f = true -> parse_leaf (print_filter f) = Ok f.
Proof.
  intros Hl Hp. destruct f; try done; cbn [print_filter]; unfold parse_leaf.
  - change (strip_prefix (lit "language == ") (lit "language in " ++ token_list values)) with (@None bytes).
    cbv iota. rewrite strip_prefix_app. by rewrite token_list_parse.
  - change (strip_prefix (lit "language == ") (lit "codec in " ++ token_list values)) with (@None bytes).
    change (strip_prefix (lit "language in ") (lit "codec in " ++ token_list values)) with (@None bytes).
    cbv iota. rewrite strip_prefix_app. by rewrite token_list_parse.
  - set (t := op_text op ++ _).
    change (strip_prefix (lit "language == ") (lit "channels " ++ t)) with (@None bytes).
    change (strip_prefix (lit "language in ") (lit "channels " ++ t)) with (@None bytes).
    change (strip_prefix (lit "codec in ") (lit "channels " ++ t)) with (@None bytes).
    cbv iota. unfold parse_scalar_leaf. rewrite strip_prefix_app. by apply channels_roundtrip.
  - change (strip_prefix (lit "language == ") (lit "title contains " ++ quoted v)) with (@None bytes).
    change (strip_prefix (lit "language in ") (lit "title contains " ++ quoted v)) with (@None bytes).
    change (strip_prefix (lit "codec in ") (lit "title contains " ++ quoted v)) with (@None bytes).
    cbv iota. unfold parse_scalar_leaf.
    change (strip_prefix (lit "channels ") (lit "title contains " ++ quoted v)) with (@None bytes).
    cbv iota. rewrite !eqb_text_false by (intros H; discriminate H). by apply title_roundtrip.
Qed.

Lemma expression_equation text n :
  non_empty text = true ->
  split_top_level text (lit " or ") = Ok None -> split_top_level text (lit " and ") = Ok None ->
  parse_expression text n =
    match strip_prefix (lit "not ") text with
    | Some inner =>
        match n with O => reject | S r => f ← parse_expression (trim inner) r; Ok (FNot f) end
    | None =>
        if owns_outer_group text then
          match n with
          | O => reject
          | S r => parse_expression (trim (slice text 1 (length text - 1))) r
          end
        else parse_leaf text
    end.
Proof. intros Hne Hor Hand. destruct n; cbn [parse_expression]; by rewrite Hne, Hor, Hand. Qed.

Lemma head_non_empty t : head_ok t = true -> non_empty t = true.
Proof. by destruct t. Qed.

Definition roundtrips (f : TrackFilter) : Prop :=
  forall n, printable f = true -> printed_depth f <= n -> parse_expression (print_filter f) n = Ok f.

Lemma leaf_not_group f : is_leaf f = true -> printable f = true ->
  strip_prefix (lit "not ") (print_filter f) = None /\ owns_outer_group (print_filter f) = false.
Proof. intros Hl Hp. by destruct f. Qed.

Lemma leaf_expression f : is_leaf f = true -> roundtrips f.
Proof.
  intros Hl n Hp _. destruct (leaf_not_group f Hl Hp) as [Hnot Hown].
  rewrite expression_equation; [|by apply head_non_empty, print_ends| |].
  - rewrite Hnot, Hown. by apply leaf_roundtrip.
  - apply (split_none "o"); [by left|]. apply calm_leaf; [by left|done|done].
  - apply (split_none "a"); [by right|]. apply calm_leaf; [by right|done|done].
Qed.

Lemma group_owned t : run (st 0) t = Some (st 0) -> owns_outer_group (lit "(" ++ t ++ lit ")") = true.
Proof.
  intros Hr. unfold owns_outer_group. change (starts_with (lit "(") (lit "(" ++ t ++ lit ")")) with true.
  assert (ends_with (lit ")") (lit "(" ++ t ++ lit ")") = true) as ->.
  { apply ends_with_byte. by apply last_plain_app, last_plain_app. }
  cbn [negb orb]. change (owns_from (lit "(" ++ t ++ lit ")") scan_default)
    with (owns_from (t ++ lit ")") (deeper (st 0))).
  by rewrite (owns_deeper _ _ _ _ Hr).
Qed.

Lemma operand_expression f n :
  roundtrips f -> printable f = true -> (if is_leaf f then 0 else 1) + printed_depth f <= n ->
  parse_expression (print_operand f) n = Ok f.
Proof.
  intros IH Hp Hn. destruct (print_operand_ends f Hp) as [Hh _].
  pose proof (calm_operand "o" f 0 ltac:(by left) Hp) as Hco.
  pose proof (calm_operand "a" f 0 ltac:(by right) Hp) as Hca.
  unfold print_operand, operand in *. destruct (is_leaf f) eqn:Hl; [by apply IH|].
  destruct n as [|n]; [lia|]. set (t := print_filter f) in *.
  rewrite expression_equation; [|done|by apply (split_none "o"); [left|]|by apply (split_none "a"); [right|]].
  change (strip_prefix (lit "not ") (lit "(" ++ t ++ lit ")")) with (@None bytes). cbv iota.
  rewrite group_owned by (by apply run_print).
  assert (slice (lit "(" ++ t ++ lit ")") 1 (length (lit "(" ++ t ++ lit ")") - 1) = t) as ->.
  { unfold slice. change (drop 1 (lit "(" ++ t ++ lit ")")) with (t ++ lit ")").
    rewrite !length_app. replace (_ - 1 - 1) with (length t) by (cbn; lia). apply take_app_length. }
  destruct (print_ends f Hp). rewrite trim_solid by (by apply solid_intro). apply IH; [done|lia].
Qed.

Lemma operands_collect fs n :
  Forall roundtrips fs -> forallb printable fs = true ->
  max_list_with (fun g => (if is_leaf g then 0 else 1) + printed_depth g) fs <= n ->
  collect (fun part => parse_expression part n) (map print_operand fs) = Ok fs.
Proof.
  intros IH Hp Hn. apply collect_ok, Forall2_fmap_l, Forall_Forall2_diag.
  apply Forall_forall. intros g Hg. apply operand_expression.
  - by eapply Forall_forall in IH.
  - rewrite forallb_forall in Hp. by apply Hp, list_elem_of_In.
  - etrans; [|exact Hn]. clear -Hg. induction fs as [|g' fs IH]; [by apply elem_of_nil in Hg|].
    cbn. apply elem_of_cons in Hg as [->|Hg]; [lia|]. specialize (IH Hg). lia.
Qed.

Lemma filter_roundtrips f : roundtrips f.
Proof.
  induction f as [f Hl|g IH|fs IH|fs IH] using filter_induction; [by apply leaf_expression|..];
    intros n Hp Hn; (destruct n as [|n]; [cbn in Hn; lia|]); cbn [printed_depth] in Hn.
  - rewrite expression_equation;
      [|done|apply (split_none "o"); [by left|by apply calm_not; [left|]]
       |apply (split_none "a"); [by right|by apply calm_not; [right|]]].
    change (print_filter (FNot g)) with (lit "not " ++ print_operand g). rewrite strip_prefix_app.
    destruct (print_operand_ends g Hp) as [_ Hs]. rewrite trim_solid by done.
    rewrite operand_expression; [done|done|done|lia].
  - pose proof (print_ends (FAnd fs) Hp) as [Hh _].
    change (print_filter (FAnd fs)) with (join (delim "a") (map print_operand fs)) in *.
    cbn [parse_expression]. rewrite (head_non_empty _ Hh). cbn [negb].
    rewrite (split_none "o"); [|by left|].
    + cbn [mbind result_mbind]. 
      change (lit " and ") with (delim "a"). rewrite (split_operands "a" fs); [|by right|done].
      cbn [mbind result_mbind]. apply andb_true_iff in Hp as [_ Hp].
      rewrite operands_collect; [done|done|done|lia].
    + apply calm_and. apply Forall_forall. intros t Ht. apply list_elem_of_fmap in Ht as (g & -> & Hg).
      apply andb_true_iff in Hp as [_ Hp]. rewrite forallb_forall in Hp.
      apply list_elem_of_In, Hp in Hg. split; [by apply calm_operand; [left|]|by apply print_operand_ends].
  - pose proof (print_ends (FOr fs) Hp) as [Hh _].
    change (print_filter (FOr fs)) with (join (delim "o") (map print_operand fs)) in *.
    cbn [parse_expression]. rewrite (head_non_empty _ Hh). cbn [negb].
    change (lit " or ") with (delim "o"). rewrite (split_operands "o" fs); [|by left|done].
    cbn [mbind result_mbind]. apply andb_true_iff in Hp as [_ Hp].
    rewrite operands_collect; [done|done|done|lia].
Qed.

(** C36: Every well-formed filter can be written in a policy: printed with its
    operands grouped, it parses back to itself as long as its operators and
    groups nest at most [MAX_FILTER_DEPTH] deep. *)
Theorem filter_roundtrip f :
  printable f = true -> printed_depth f <= MAX_FILTER_DEPTH ->
  parse_track_filter (print_filter f) = Ok f.
Proof.
  intros Hp Hn. unfold parse_track_filter. destruct (print_ends f Hp).
  rewrite trim_solid by (by apply solid_intro). by apply filter_roundtrips.
Qed.
