(* ===== verification/PolicyCompiled.v ===== *)
(** * Compiled policies

    The types of [voom-policy/src/compile/compiled.rs] and
    [data/video_profile.rs], and the operations [compiled.rs] has on them. A
    struct with one field is the field. The slug, the language codes, the
    run-if gates and their wire form, the required tools and the execution
    defaults are here; the lowering is in [PolicyLower]. *)

From Stdlib Require Import ZArith Lia Bool String Ascii.
From stdpp Require Import base gmap strings list.
From S2P Require Import Prelude Json Bytes PolicySyntax Encoders TrackFilters.

Open Scope nat_scope.

Inductive TrackTarget := Video | Audio | Subtitle | Attachment.
#[global] Instance TrackTarget_eq_dec : EqDecision TrackTarget.
Proof. solve_decision. Defined.

Unset Elimination Schemes.
Inductive CompiledValue :=
  | VString (v : bytes) | VNumber (v : bytes) | VBoolean (v : bool)
  | VFieldPath (path : list bytes) | VList (values : list CompiledValue).

Inductive CompiledCondition :=
  | CExists (target : TrackTarget) (filter : option TrackFilter)
  | CCount (target : TrackTarget) (op : ComparisonOp) (v : Z)
  | CFieldComparison (path : list bytes) (op : ComparisonOp) (v : CompiledValue)
  | CFieldExists (path : list bytes)
  | CPredicate (name : bytes)
  | CNot (inner : CompiledCondition)
  | CAnd (conditions : list CompiledCondition)
  | COr (conditions : list CompiledCondition).
Set Elimination Schemes.

Inductive DefaultStrategy := DFirst | DBest | DNone | DPreserve.
Inductive RuleMatchMode := MFirst | MAll.
Inductive ErrorStrategy := Abort | Continue | Skip.
#[global] Instance ErrorStrategy_eq_dec : EqDecision ErrorStrategy.
Proof. solve_decision. Defined.
Inductive RunIfTrigger := Completed | Modified.

Record VideoProfileSettings := {
  vp_encoder : bytes;
  vp_crf : option Z;
  vp_cq : option Z;
  vp_qp : option Z;
  vp_bitrate_kbps : option Z;
  vp_preset : option bytes;
  vp_tune : option bytes;
  vp_codec_profile : option bytes;
  vp_codec_level : option bytes;
  vp_pixel_format : option bytes;
  vp_max_width : option Z;
  vp_max_height : option Z;
  vp_output_container : option bytes;
  vp_copy_compatible : option bool;
  vp_decode : VideoDecodeMode;
}.
Inductive VideoProfileRef := Named (name : bytes) | Inline (settings : VideoProfileSettings).

Unset Elimination Schemes.
Inductive CompiledOperation :=
  | SetContainer (container : bytes)
  | KeepTracks (target : TrackTarget) (filter : option TrackFilter)
  | RemoveTracks (target : TrackTarget) (filter : option TrackFilter)
  | ReorderTracks (targets : list TrackTarget) (head_filter : option TrackFilter)
  | SetDefaults (target : TrackTarget) (strategy : DefaultStrategy) (filter : option TrackFilter)
  | ClearTrackActions (target : TrackTarget)
  | ClearTags
  | SetTag (key : bytes) (v : CompiledValue)
  | DeleteTag (key : bytes)
  | TranscodeVideo (target_codec container : bytes) (profile : VideoProfileRef)
      (resolved_profile : option TranscodeVideoProfile)
  | TranscodeAudio (target_codec container : bytes) (filter : option TrackFilter)
  | ExtractAudio (target_codec container : bytes) (filter : option TrackFilter)
  | SynthesizeAudio (target_codec container : bytes) (target_channels : Z)
      (filter : option TrackFilter)
  | EnsureAudioCompatibility
  | PlaceAudioCompatibility
  | VerifyArtifact
  | Conditional (condition : CompiledCondition) (operations : list CompiledOperation)
  | Rules (mode : RuleMatchMode)
      (rules : list (bytes * option CompiledCondition * list CompiledOperation)).
Set Elimination Schemes.

Record CompiledConfig := { languages : list bytes; cfg_on_error : option ErrorStrategy }.
Definition CompiledConfig_default : CompiledConfig := {| languages := []; cfg_on_error := None |}.

Record CompiledRunIf := { trigger : RunIfTrigger; gate_phase : bytes }.

Record CompiledPhase := {
  cp_name : bytes;
  depends_on : list bytes;
  run_if : option CompiledRunIf;
  skip_if : option CompiledCondition;
  on_error : option ErrorStrategy;
  cp_operations : list CompiledOperation;
}.

(** The provenance is a constant and is left out. *)
Record CompiledPolicy := {
  policy_name : bytes;
  policy_slug : bytes;
  source_hash : bytes;
  schema_version : Z;
  cp_metadata : gmap bytes Json;
  cp_config : CompiledConfig;
  cp_phases : list CompiledPhase;
  cp_phase_order : list bytes;
  warnings : list PolicyDiagnostic;
}.

Definition is_canonical_language_code (v : bytes) : bool :=
  (length v =? 3) && forallb is_ascii_lowercase v.

(** [slug]: letters and digits in lower case, runs of anything else as one
    dash, no dash at the ends. A character beyond ASCII is one dash; so are its
    bytes, because a dash is not repeated. *)
Definition to_ascii_lowercase (c : ascii) : ascii :=
  if byte_in 65 90 c then ascii_of_nat (byte c + 32) else c.
Fixpoint slug_from (text : bytes) (out : bytes) : bytes :=
  match text with
  | [] => out
  | c :: rest =>
      if is_ascii_alphanumeric c then slug_from rest (out ++ [to_ascii_lowercase c])
      else if negb (ends_with (lit "-") out) then slug_from rest (out ++ lit "-")
      else slug_from rest out
  end.
Definition slug (name : bytes) : bytes := trim_by (eqc "-") (slug_from name []).

(** ** Run-if gates *)

Definition RunIfTrigger_as_str (t : RunIfTrigger) : bytes :=
  match t with Completed => lit "completed" | Modified => lit "modified" end.
Definition CompiledRunIf_parse (name : bytes) : option CompiledRunIf :=
  '(t, phase) ← split_once (lit " ") name;
  t ← (if eqb_text t (lit "completed") then Some Completed
       else if eqb_text t (lit "modified") then Some Modified else None);
  if negb (non_empty phase) || has_whitespace phase then None
  else Some {| trigger := t; gate_phase := phase |}.
(** The name in the wire form. *)
Definition CompiledRunIf_wire (g : CompiledRunIf) : bytes :=
  RunIfTrigger_as_str (trigger g) ++ lit " " ++ gate_phase g.

(** ** Required tools *)

Inductive PolicyTool := Ffmpeg | Ffprobe | Mkvtoolnix.
#[global] Instance PolicyTool_eq_dec : EqDecision PolicyTool.
Proof. solve_decision. Defined.
Definition PolicyTool_as_str (t : PolicyTool) : string :=
  match t with Ffmpeg => "ffmpeg" | Ffprobe => "ffprobe" | Mkvtoolnix => "mkvtoolnix" end.
Definition PolicyTool_from_name (name : string) : option PolicyTool :=
  if String.eqb name "ffmpeg" then Some Ffmpeg
  else if String.eqb name "ffprobe" then Some Ffprobe
  else if String.eqb name "mkvtoolnix" then Some Mkvtoolnix
  else None.
Inductive RequiredToolsError := NotArray | NotString (index : nat) | UnknownTool (index : nat).
Fixpoint tools_from (values : list Json) (index : nat) (tools : list PolicyTool) :
    result RequiredToolsError (list PolicyTool) :=
  match values with
  | [] => Ok tools
  | v :: values' =>
      name ← ok_or (json_as_str v) (NotString index);
      tool ← ok_or (PolicyTool_from_name name) (UnknownTool index);
      tools_from values' (index + 1)
        (if bool_decide (tool ∈ tools) then tools else tools ++ [tool])
  end.
Definition required_tools (p : CompiledPolicy) : result RequiredToolsError (list PolicyTool) :=
  match cp_metadata p !! lit "requires_tools" with
  | None => Ok []
  | Some (JArr values) => tools_from values 0 []
  | Some _ => Err NotArray
  end.

(** ** Execution defaults *)

Definition with_on_error (s : ErrorStrategy) (ph : CompiledPhase) : CompiledPhase :=
  match on_error ph with
  | Some _ => ph
  | None => {| cp_name := cp_name ph; depends_on := depends_on ph; run_if := run_if ph;
               skip_if := skip_if ph; on_error := Some s; cp_operations := cp_operations ph |}
  end.
Definition apply_execution_defaults (p : CompiledPolicy) : CompiledPolicy :=
  match cfg_on_error (cp_config p) with
  | None => p
  | Some s => {| policy_name := policy_name p; policy_slug := policy_slug p;
                 source_hash := source_hash p; schema_version := schema_version p;
                 cp_metadata := cp_metadata p; cp_config := cp_config p;
                 cp_phases := map (with_on_error s) (cp_phases p);
                 cp_phase_order := cp_phase_order p; warnings := warnings p |}
  end.
