(* ===== verification/PolicyConditions.v ===== *)
(** * Conditions

    [compile/validate/conditions.rs] and [compile/lower/conditions.rs]: a
    condition is checked on its text and lowered from the same text. Both
    recursions work on shorter and shorter texts and take the length of the
    text as fuel; the lowering has no answer when the fuel runs out, which
    for one shape of text happens at any fuel. *)

From Stdlib Require Import ZArith Lia Bool String Ascii.
From stdpp Require Import base strings list.
From S2P Require Import Prelude Bytes PolicySyntax TrackFilters PolicyCompiled.

Open Scope nat_scope.

(** Neither the check nor the lowering splits a text with a filter in it. *)
Definition split_bool_condition (text delimiter : bytes) : option (list bytes) :=
  if contains (lit " where ") text then None else split_bool_expression text delimiter.

(** ** The check *)

Definition is_track_target_name : bytes -> bool :=
  one_of ["video"; "audio"; "subtitle"; "subtitles"; "attachment"; "attachments"]%string.
Definition is_published_stream_target : bytes -> bool := one_of ["audio"; "subtitle"]%string.
Definition is_numeric_comparison_op : bytes -> bool :=
  one_of ["=="; "!="; "<"; "<="; ">"; ">="]%string.
Definition is_ascii_u64 (v : bytes) : bool :=
  non_empty v && forallb is_ascii_digit v
  && match parse_u64 v with Some _ => true | None => false end.
Definition is_comparison_op : bytes -> bool :=
  one_of ["=="; "="; "!="; "<"; "<="; ">"; ">="; "contains"; "matches"]%string.
Definition is_reference_token (token : bytes) : bool :=
  match token with c :: _ => is_ascii_alphabetic c | [] => false end.

(** [iter().position(f)]. *)
Fixpoint position {A} (f : A -> bool) (l : list A) : option nat :=
  match l with [] => None | x :: l' => if f x then Some 0 else option_map S (position f l') end.

Fixpoint without_quoted_from (text : bytes) (in_string escaped : bool) : bytes :=
  match text with
  | [] => []
  | c :: rest =>
      if escaped then " "%char :: without_quoted_from rest in_string false
      else if in_string && eqc backslash c then " "%char :: without_quoted_from rest in_string true
      else if eqc quote c then " "%char :: without_quoted_from rest (negb in_string) false
      else (if in_string then " "%char else c) :: without_quoted_from rest in_string false
  end.
Definition without_quoted_text (text : bytes) : bytes := without_quoted_from text false false.

Definition field_separator (c : ascii) : bool :=
  is_ascii_whitespace c || eqc quote c || eqc "'" c || eqc "[" c || eqc "]" c
  || eqc "(" c || eqc ")" c || eqc "{" c || eqc "}" c.
Definition field_path_tokens (text : bytes) : list bytes :=
  List.filter (contains (lit "."))
    (map (trim_by (fun c => eqc "," c || eqc ":" c))
       (split_by field_separator (without_quoted_text text))).

Definition is_core_field_root : bytes -> bool :=
  one_of ["video"; "audio"; "subtitle"; "subtitles"; "attachment"; "attachments"; "container";
          "media"; "identity"; "quality"; "issue"; "bundle"]%string.
(** The fields of each root. *)
Definition core_fields (root : bytes) : list string :=
  (if one_of ["video"] root then
     ["codec"; "title"; "width"; "height"; "hdr"; "bitrate"; "duration"; "duration_millis";
      "health_flags"]
   else if one_of ["audio"] root then
     ["codec"; "lang"; "language"; "languages"; "channels"; "commentary"; "forced"; "default";
      "title"]
   else if one_of ["subtitle"; "subtitles"] root then
     ["lang"; "language"; "languages"; "forced"; "default"; "title"; "disposition"]
   else if one_of ["attachment"; "attachments"] root then ["font"; "title"; "disposition"]
   else if one_of ["container"] root then ["name"; "value"]
   else if one_of ["media"] root then ["container"; "duration_millis"]
   else if one_of ["identity"] root then
     ["title"; "assertion_type"; "provider"; "provider_version"; "confidence"; "provenance";
      "observed_at"]
   else if one_of ["quality"] root then ["profile_name"; "profile_version"; "dimension_weights"]
   else if one_of ["issue"] root then ["kind"; "severity"; "priority"; "state"; "reason"]
   else if one_of ["bundle"] root then
     ["role"; "desired_state"; "language"; "label"; "disposition"; "artifact_expectation"]
   else [])%string.
Definition is_valid_core_field_path (root rest : bytes) : bool :=
  let parts := split_by (eqc ".") rest in
  if existsb (fun part => negb (non_empty part)) parts then false
  else match parts with [field] => one_of (core_fields root) field | _ => false end.

Section validate.
Context (source : bytes).

(** [make_error] and [warning] of the validator. *)
Definition make_error (code : DiagnosticCode) (sp : SourceSpan) : PolicyDiagnostic :=
  PolicyDiagnostic_error code StageValidate sp (line_column source (start sp)).
Definition make_warning (code : DiagnosticCode) (sp : SourceSpan) : PolicyDiagnostic :=
  PolicyDiagnostic_warning code StageValidate sp (line_column source (start sp)).
(** [if b { self.error(code, span, ..) }]. *)
Definition error_if (b : bool) (code : DiagnosticCode) (sp : SourceSpan) : list PolicyDiagnostic :=
  if b then [make_error code sp] else [].

Definition validate_track_target (sp : SourceSpan) (target : bytes) : list PolicyDiagnostic :=
  error_if (negb (is_track_target_name target)) InvalidTrackTarget sp.

Definition validate_field_path (sp : SourceSpan) (token : bytes) : list PolicyDiagnostic :=
  match split_once (lit ".") token with
  | None => []
  | Some (root, rest) =>
      if one_of ["plugin"; "external"]%string root then
        if non_empty rest then [make_warning UnknownExtensionNamespace sp] else []
      else if negb (is_core_field_root root) then [make_error InvalidCoreFieldPath sp]
      else error_if (negb (is_valid_core_field_path root rest)) InvalidCoreFieldPath sp
  end.
Definition validate_field_paths (sp : SourceSpan) (text : bytes) : list PolicyDiagnostic :=
  flat_map (validate_field_path sp) (field_path_tokens text).

(** [parts.all(f)], which stops at the first part that fails. *)
Fixpoint all_valid (f : bytes -> bool * list PolicyDiagnostic) (parts : list bytes) :
    bool * list PolicyDiagnostic :=
  match parts with
  | [] => (true, [])
  | part :: parts' =>
      let '(ok, ds) := f part in
      if ok then let '(ok', ds') := all_valid f parts' in (ok', ds ++ ds') else (false, ds)
  end.

Definition valid_tokens (text : bytes) (tokens : list bytes) : bool :=
  match position is_comparison_op tokens with
  | Some index =>
      (0 <? index)
      && match tokens !! (index + 1) with Some v => non_empty v | None => false end
      && match tokens !! 0 with Some path => contains (lit ".") path | None => false end
      && match tokens !! index with
         | Some op => match comparison_rhs text op with Some v => is_single_value v | None => false end
         | None => false
         end
  | None =>
      (length tokens =? 1)
      && match tokens !! 0 with
         | Some token => contains (lit ".") token || is_reference_token token
         | None => false
         end
  end.
Definition valid_leaf (sp : SourceSpan) (text : bytes) : bool * list PolicyDiagnostic :=
  let tokens := words text in
  match tokens with
  | first :: target :: more =>
      if eqb_text first (lit "exists") then
        ((length tokens =? 2) && is_published_stream_target target, validate_track_target sp target)
      else
        match eqb_text first (lit "count"), more with
        | true, [op; v] =>
            (is_published_stream_target target && is_numeric_comparison_op op && is_ascii_u64 v,
             validate_track_target sp target)
        | _, _ => (valid_tokens text tokens, [])
        end
  | _ => (valid_tokens text tokens, [])
  end.

Fixpoint valid_condition (fuel : nat) (sp : SourceSpan) (text : bytes) :
    bool * list PolicyDiagnostic :=
  match fuel with
  | O => (false, [])
  | S fuel' =>
      let text := strip_outer_group (trim text) in
      if negb (non_empty (trim text)) then (false, []) else
      match split_bool_condition text (lit " or ") with
      | Some parts => all_valid (valid_condition fuel' sp) parts
      | None =>
          match split_bool_condition text (lit " and ") with
          | Some parts => all_valid (valid_condition fuel' sp) parts
          | None =>
              match strip_prefix (lit "not ") (trim text) with
              | Some inner => valid_condition fuel' sp (trim inner)
              | None => valid_leaf sp text
              end
          end
      end
  end.
Definition is_valid_condition_expression (sp : SourceSpan) (text : bytes) :
    bool * list PolicyDiagnostic :=
  valid_condition (S (length text)) sp text.

Definition validate_condition_expression (sp : SourceSpan) (text : bytes) : list PolicyDiagnostic :=
  let '(ok, ds) := is_valid_condition_expression sp text in
  validate_field_paths sp text ++ ds ++ error_if (negb ok) UnknownPhaseStatementOrOperation sp.
End validate.

(** ** The lowering *)

Definition strip_quotes (v : bytes) : bytes := trim_by (eqc quote) v.
Definition field_path_segments (path : bytes) : list bytes :=
  List.filter non_empty (split_by (eqc ".") path).
Definition compiled_value (text : bytes) : CompiledValue :=
  let text := trim text in
  if starts_with [quote] text && ends_with [quote] text then VString (strip_quotes text)
  else if eqb_text text (lit "true") then VBoolean true
  else if eqb_text text (lit "false") then VBoolean false
  else if contains (lit ".") text then VFieldPath (field_path_segments text)
  else if forallb is_ascii_digit text && non_empty text then VNumber text
  else VString (strip_quotes text).
Definition track_target (token : option bytes) : option TrackTarget :=
  token ← token;
  if one_of ["video"]%string token then Some Video
  else if one_of ["audio"]%string token then Some Audio
  else if one_of ["subtitle"; "subtitles"]%string token then Some Subtitle
  else if one_of ["attachment"; "attachments"]%string token then Some Attachment
  else None.
Definition comparison_op (token : option bytes) : option ComparisonOp :=
  token ← token;
  if one_of ["=="; "="]%string token then Some OpEq
  else if one_of ["!="]%string token then Some OpNe
  else if one_of ["<"]%string token then Some OpLt
  else if one_of ["<="]%string token then Some OpLte
  else if one_of [">"]%string token then Some OpGt
  else if one_of [">="]%string token then Some OpGte
  else if one_of ["contains"]%string token then Some OpContains
  else if one_of ["matches"]%string token then Some OpMatches
  else None.

(** A condition that is not a combination of others. *)
Definition leaf_condition (text : bytes) : CompiledCondition :=
  let tokens := words text in
  if bool_decide (tokens !! 0 = Some (lit "exists")) then
    CExists (default Audio (track_target (tokens !! 1))) None
  else if bool_decide (tokens !! 0 = Some (lit "count")) then
    CCount (default Audio (track_target (tokens !! 1))) (default OpEq (comparison_op (tokens !! 2)))
      (default 0%Z (tokens !! 3 ≫= parse_u64))
  else
    match position (fun t => match comparison_op (Some t) with Some _ => true | None => false end)
            tokens with
    | Some index =>
        CFieldComparison
          (match tokens !! 0 with Some path => field_path_segments path | None => [] end)
          (default OpEq (comparison_op (tokens !! index)))
          (match tokens !! index ≫= comparison_rhs text with
           | Some rhs => compiled_value rhs
           | None => compiled_value (default [] (tokens !! (index + 1)))
           end)
    | None =>
        match tokens !! 0 with
        | Some path =>
            if contains (lit ".") path then CFieldExists (field_path_segments path)
            else CPredicate text
        | None => CPredicate text
        end
    end.

(** [None] when the recursion is deeper than the fuel. *)
Fixpoint condition_at (fuel : nat) (text : bytes) : option CompiledCondition :=
  match fuel with
  | O => None
  | S fuel' =>
      let text := strip_outer_group (trim text) in
      match split_bool_condition text (lit " or ") with
      | Some parts => cs ← mapM (condition_at fuel') parts; Some (COr cs)
      | None =>
          match split_bool_condition text (lit " and ") with
          | Some parts => cs ← mapM (condition_at fuel') parts; Some (CAnd cs)
          | None =>
              if bool_decide (words text !! 0 = Some (lit "not")) then
                (c ← condition_at fuel' (trim (trim_start_matches (lit "not") text)); Some (CNot c))
              else Some (leaf_condition text)
          end
      end
  end.
Definition condition_from_text (text : bytes) : option CompiledCondition :=
  condition_at (S (length text)) text.

(** ** What the check and the lowering agree on *)

(** The keywords of conditions. *)
Definition bare_keyword (text : bytes) : bool :=
  bool_decide (words text ∈ [[lit "not"]; [lit "exists"]; [lit "count"]]).

Unset Elimination Schemes.
(** A condition as it is meant to be read. *)
Inductive reads : bytes -> CompiledCondition -> Prop :=
  | reads_or text parts cs :
      split_bool_condition (strip_outer_group (trim text)) (lit " or ") = Some parts ->
      Forall2 reads parts cs -> reads text (COr cs)
  | reads_and text parts cs :
      split_bool_condition (strip_outer_group (trim text)) (lit " or ") = None ->
      split_bool_condition (strip_outer_group (trim text)) (lit " and ") = Some parts ->
      Forall2 reads parts cs -> reads text (CAnd cs)
  | reads_not text inner c :
      strip_outer_group (trim text) = lit "not " ++ inner -> reads (trim inner) c ->
      reads text (CNot c)
  | reads_exists text target t :
      words (strip_outer_group (trim text)) = [lit "exists"; target] ->
      is_published_stream_target target = true -> track_target (Some target) = Some t -> reads text (CExists t None)
  | reads_count text target t op o v n :
      words (strip_outer_group (trim text)) = [lit "count"; target; op; v] ->
      is_published_stream_target target = true -> track_target (Some target) = Some t ->
      is_numeric_comparison_op op = true -> comparison_op (Some op) = Some o ->
      parse_u64 v = Some n -> reads text (CCount t o n)
  | reads_comparison text path op o i rhs :
      words (strip_outer_group (trim text)) !! 0 = Some path -> contains (lit ".") path = true ->
      words (strip_outer_group (trim text)) !! i = Some op -> comparison_op (Some op) = Some o ->
      comparison_rhs (strip_outer_group (trim text)) op = Some rhs -> is_single_value rhs = true ->
      reads text (CFieldComparison (field_path_segments path) o (compiled_value rhs))
  | reads_field text path :
      words (strip_outer_group (trim text)) = [path] -> contains (lit ".") path = true ->
      reads text (CFieldExists (field_path_segments path))
  | reads_predicate text name :
      words (strip_outer_group (trim text)) = [name] -> is_reference_token name = true ->
      reads text (CPredicate (strip_outer_group (trim text))).
Set Elimination Schemes.

(** A keyword stands alone somewhere in the condition. *)
Inductive has_bare : bytes -> Prop :=
  | bare_leaf text : bare_keyword (strip_outer_group (trim text)) = true -> has_bare text
  | bare_part text delimiter parts part :
      delimiter = lit " or " \/ delimiter = lit " and " ->
      split_bool_condition (strip_outer_group (trim text)) delimiter = Some parts ->
      part ∈ parts -> has_bare part -> has_bare text
  | bare_under_not text inner :
      strip_outer_group (trim text) = lit "not " ++ inner -> has_bare (trim inner) -> has_bare text.

(** *** Lengths *)

Lemma trim_start_length text : length (trim_start text) <= length text.
Proof.
  induction text as [text IH] using (induction_ltof1 _ length). unfold ltof in IH.
  destruct text as [|a r1]; [done|]. cbn [trim_start].
  destruct (ws1 a); [specialize (IH r1); cbn in *; lia|].
  destruct r1 as [|b r2]; [done|]. destruct (ws2 a b); [specialize (IH r2); cbn in *; lia|].
  destruct r2 as [|c r3]; [done|]. destruct (ws3 a b c); [specialize (IH r3); cbn in *; lia|done].
Qed.

Lemma trim_rev_length text : length (trim_rev text) <= length text.
Proof.
  induction text as [text IH] using (induction_ltof1 _ length). unfold ltof in IH.
  destruct text as [|c r1]; [done|]. cbn [trim_rev].
  destruct (ws1 c); [specialize (IH r1); cbn in *; lia|].
  destruct r1 as [|b r2]; [done|]. destruct (ws2 b c); [specialize (IH r2); cbn in *; lia|].
  destruct r2 as [|a r3]; [done|]. destruct (ws3 a b c); [specialize (IH r3); cbn in *; lia|done].
Qed.

Lemma trim_length text : length (trim text) <= length text.
Proof.
  unfold trim, trim_end. rewrite length_rev. etrans; [apply trim_rev_length|].
  rewrite length_rev. apply trim_start_length.
Qed.

Lemma strip_outer_length text : length (strip_outer_group text) <= length text.
Proof.
  unfold strip_outer_group. etrans; [|apply trim_length]. generalize (length text) as fuel.
  generalize (trim text) as t. intros t fuel. revert t. induction fuel as [|fuel IH]; intros t; [done|].
  cbn [strip_groups]. destruct (strip_prefix (lit "(") t) as [r|] eqn:Hr; [|done].
  apply strip_prefix_spec in Hr as ->.
  destruct (strip_suffix (lit ")") r) as [i|] eqn:Hi; [|done]. apply strip_suffix_spec in Hi as ->.
  destruct (is_balanced_parenthesized _); [|done]. etrans; [apply IH|]. pose proof (trim_length i).
  rewrite !length_app. lia.
Qed.

(** The parts of a split and the delimiters between them fit in the text. *)
Definition weight (parts : list bytes) : nat := sum_list_with (fun p => length p + 1) parts.

Lemma push_part_weight part parts : weight (push_part part parts) <= length part + 1 + weight parts.
Proof.
  unfold push_part. pose proof (trim_length part). destruct (non_empty (trim part)); [|lia].
  change (weight (trim part :: parts)) with (length (trim part) + 1 + weight parts). lia.
Qed.

Lemma split_from_weight delimiter text skip i e d part :
  weight (split_from delimiter text skip i e d part) <= length part + length text + 1.
Proof.
  revert skip i e d part. induction text as [|c text IH]; intros skip i e d part; cbn [split_from].
  { etrans; [apply push_part_weight|]. cbn. lia. }
  assert (Hstep : forall i e d, weight (split_from delimiter text 0 i e d (part ++ [c]))
    <= length part + length (c :: text) + 1).
  { intros. etrans; [apply IH|]. rewrite length_app. cbn. lia. }
  destruct skip as [|skip]; [|etrans; [apply IH|cbn; lia]].
  destruct e; [apply Hstep|]. destruct (i && _); [apply Hstep|]. destruct (eqc quote c); [apply Hstep|].
  destruct (negb i && eqc "(" c); [apply Hstep|]. destruct (negb i && eqc ")" c); [apply Hstep|].
  destruct (_ && _); [|apply Hstep]. etrans; [apply push_part_weight|].
  pose proof (IH (length delimiter - 1) i false 0 []) as H. cbn in *. lia.
Qed.

Lemma split_parts_shorter text delimiter parts part :
  split_bool_condition text delimiter = Some parts -> part ∈ parts -> length part < length text.
Proof.
  unfold split_bool_condition, split_bool_expression, split_outside_quotes.
  destruct (contains _ text); [done|].
  pose proof (split_from_weight delimiter text 0 false false 0 []) as Hw.
  destruct (split_from _ _ _ _ _ _ _) as [|p1 [|p2 ps]]; [done..|]. cbn [length Nat.ltb Nat.leb].
  intros [= <-] Hin. change (weight (p1 :: p2 :: ps))
    with (length p1 + 1 + (length p2 + 1 + weight ps)) in Hw. cbn in Hw.
  rewrite !elem_of_cons in Hin. destruct Hin as [->|[->|Hin]]; [lia|lia|].
  assert (length part + 1 <= weight ps); [|lia].
  clear -Hin. induction ps as [|p ps IH]; [by apply elem_of_nil in Hin|].
  change (weight (p :: ps)) with (length p + 1 + weight ps).
  apply elem_of_cons in Hin as [->|Hin]; [lia|]. specialize (IH Hin). lia.
Qed.

(** *** Fuel *)

Lemma all_valid_ext f g parts :
  (forall p, p ∈ parts -> f p = g p) -> all_valid f parts = all_valid g parts.
Proof.
  induction parts as [|p parts IH]; intros H; [done|]. cbn. rewrite <- (H p) by left.
  destruct (f p) as [[|] ds]; [|done]. rewrite IH; [done|]. intros q Hq. apply H. by right.
Qed.

(** More fuel than the length of the text does not change the check. *)
Lemma valid_condition_fuel source sp n m text :
  length text < n -> length text < m -> valid_condition source n sp text = valid_condition source m sp text.
Proof.
  revert m text. induction n as [|n IH]; intros m text Hn Hm; [lia|]. destruct m as [|m]; [lia|].
  cbn [valid_condition]. set (t := strip_outer_group (trim text)).
  assert (Ht : length t <= length text) by (etrans; [apply strip_outer_length|apply trim_length]).
  destruct (negb (non_empty (trim t))); [done|].
  destruct (split_bool_condition t (lit " or ")) as [parts|] eqn:Hor.
  { apply all_valid_ext. intros p Hp. pose proof (split_parts_shorter _ _ _ _ Hor Hp). apply IH; lia. }
  destruct (split_bool_condition t (lit " and ")) as [parts|] eqn:Hand.
  { apply all_valid_ext. intros p Hp. pose proof (split_parts_shorter _ _ _ _ Hand Hp). apply IH; lia. }
  destruct (strip_prefix (lit "not ") (trim t)) as [inner|] eqn:Hi; [|done].
  apply strip_prefix_spec, (f_equal length) in Hi. rewrite length_app in Hi.
  pose proof (trim_length t). pose proof (trim_length inner). cbn in Hi. apply IH; lia.
Qed.

(** *** Agreement *)

Lemma strip_outer_trimmed text : trim (strip_outer_group text) = strip_outer_group text.
Proof.
  unfold strip_outer_group. generalize (length text) as fuel.
  assert (Ht : trim (trim text) = trim text) by apply trim_trim. revert Ht.
  generalize (trim text) as t. intros t Ht fuel. revert t Ht.
  induction fuel as [|fuel IH]; intros t Ht; [done|]. cbn [strip_groups].
  destruct (strip_prefix _ t) as [r|]; [|done]. destruct (strip_suffix _ r) as [i|]; [|done].
  destruct (is_balanced_parenthesized t); [|done]. apply IH, trim_trim.
Qed.

Lemma words_not inner : words (lit "not " ++ inner) !! 0 = Some (lit "not").
Proof.
  unfold words. change (lit "not " ++ inner) with (lit "not" ++ " "%char :: inner).
  by rewrite split_by_app.
Qed.

Lemma lower_not inner : trim (trim_start_matches (lit "not") (lit "not " ++ inner)) = trim inner.
Proof.
  unfold trim_start_matches.
  change (length (lit "not " ++ inner)) with (S (S (S (S (length inner))))).
  assert (forall n, trim_prefixes (S (S n)) (lit "not") (lit "not " ++ inner) = lit " " ++ inner)
    as -> by done. done.
Qed.

Lemma comparison_op_agrees t :
  is_comparison_op t = match comparison_op (Some t) with Some _ => true | None => false end.
Proof.
  unfold is_comparison_op, comparison_op, one_of. cbn [existsb mbind option_bind].
  repeat (destruct (eqb_text t _); [done|]). done.
Qed.

Lemma position_ext {A} (f g : A -> bool) l : (forall x, f x = g x) -> position f l = position g l.
Proof. intros H. induction l as [|x l IH]; [done|]. cbn. by rewrite H, IH. Qed.

Lemma position_lookup {A} (f : A -> bool) l i : position f l = Some i -> exists x, l !! i = Some x /\ f x = true.
Proof.
  revert i. induction l as [|x l IH]; intros i; cbn; [done|]. destruct (f x) eqn:Hx.
  - intros [= <-]. by exists x.
  - destruct (position f l) as [j|]; [|done]. cbn. intros [= <-]. by apply IH.
Qed.

Lemma one_of_spec ws t : one_of ws t = true <-> exists w, In w ws /\ t = lit w.
Proof.
  unfold one_of. rewrite existsb_exists. split; intros (w & Hw & He); exists w;
    (split; [done|]); by apply eqb_text_true.
Qed.

Lemma published_target t : is_published_stream_target t = true -> exists tg, track_target (Some t) = Some tg.
Proof. intros (w & [<-|[<-|[]]] & ->)%one_of_spec; by eexists. Qed.

Lemma numeric_op_known op : is_numeric_comparison_op op = true -> exists o, comparison_op (Some op) = Some o.
Proof. intros (w & Hw & ->)%one_of_spec. cbn in Hw. intuition subst; by eexists. Qed.

Lemma tokens_agree text t :
  t = strip_outer_group (trim text) -> valid_tokens t (words t) = true ->
  words t !! 0 <> Some (lit "exists") -> words t !! 0 <> Some (lit "count") ->
  reads text (leaf_condition t).
Proof.
  intros Et Hv He Hc. unfold leaf_condition. rewrite !bool_decide_eq_false_2 by done.
  rewrite (position_ext _ is_comparison_op) by (intros; by rewrite comparison_op_agrees).
  unfold valid_tokens in Hv. destruct (position is_comparison_op (words t)) as [i|] eqn:Hpos.
  - apply position_lookup in Hpos as (op & Hop & Hcmp). rewrite Hop in Hv |- *.
    rewrite comparison_op_agrees in Hcmp. destruct (comparison_op (Some op)) as [o|] eqn:Ho; [|done].
    apply andb_true_iff in Hv as [[_ Hpath]%andb_true_iff Hrhs].
    destruct (words t !! 0) as [path|] eqn:Hp; [|done].
    cbn [mbind option_bind default]. destruct (comparison_rhs t op) as [rhs|] eqn:Hr; [|done].
    subst t. exact (reads_comparison _ _ _ _ _ _ Hp Hpath Hop Ho Hr Hrhs).
  - apply andb_true_iff in Hv as [Hlen%Nat.eqb_eq Htok].
    destruct (words t) as [|tok [|? ?]] eqn:Hw; [done| |done]. cbn [lookup list_lookup] in *.
    destruct (contains (lit ".") tok) eqn:Hdot; subst t.
    + by apply reads_field.
    + by eapply reads_predicate.
Qed.

Lemma leaf_agree source sp text t :
  t = strip_outer_group (trim text) -> fst (valid_leaf source sp t) = true ->
  bare_keyword t = false -> words t !! 0 <> Some (lit "not") /\ reads text (leaf_condition t).
Proof.
  intros Et Hv Hb%bool_decide_eq_false. rewrite !elem_of_cons in Hb. unfold valid_leaf in Hv.
  assert (Hsolo : forall k, contains (lit ".") (lit k) = false -> words t !! 0 = Some (lit k) ->
    valid_tokens t (words t) = true -> words t = [lit k]).
  { intros k Hk H0 Hvt. unfold valid_tokens in Hvt. destruct (position _ _).
    - rewrite H0, Hk in Hvt. rewrite !andb_false_r in Hvt. done.
    - apply andb_true_iff in Hvt as [Hl%Nat.eqb_eq _].
      destruct (words t) as [|a [|? ?]]; [done| |done]. by injection H0 as ->. }
  destruct (words t) as [|first [|target more]] eqn:Hw.
  - done.
  - cbn [fst] in Hv. rewrite <- Hw in Hv. cbn [lookup list_lookup].
    split; [intros [= ->]; apply Hb; by left|].
    eapply tokens_agree; [done|done| |]; rewrite Hw; cbn; intros [= ->]; apply Hb; auto.
  - assert (Hnb : forall k, [lit k] <> first :: target :: more) by done.
    destruct (eqb_text first (lit "exists")) eqn:He.
    { apply eqb_text_true in He as ->. cbn [fst] in Hv. apply andb_true_iff in Hv as [Hl%Nat.eqb_eq Hpub].
      destruct more; [|done]. split; [done|]. destruct (published_target _ Hpub) as [tg Htg].
      unfold leaf_condition. rewrite Hw. cbn [lookup list_lookup]. rewrite bool_decide_eq_true_2 by done.
      change (track_target (Some target)) with (track_target (Some target)). rewrite Htg.
      subst t. by eapply reads_exists. }
    destruct (eqb_text first (lit "count")) eqn:Hc.
    { apply eqb_text_true in Hc as ->.
      assert (Hbad : valid_tokens t (lit "count" :: target :: more) = true -> False).
      { intros Hvt. by apply (Hsolo "count"%string) in Hvt. }
      destruct more as [|op [|v [|? ?]]]; cbn [fst] in Hv; try by destruct (Hbad Hv).
      apply andb_true_iff in Hv as [[Hpub Hop]%andb_true_iff Hv].
      destruct (published_target _ Hpub) as [tg Htg]. destruct (numeric_op_known _ Hop) as [o Ho].
      unfold is_ascii_u64 in Hv. apply andb_true_iff in Hv as [_ Hn].
      destruct (parse_u64 v) as [n|] eqn:Hpn; [|done]. split; [done|].
      unfold leaf_condition. rewrite Hw. cbn [lookup list_lookup]. rewrite bool_decide_eq_false_2 by done.
      rewrite bool_decide_eq_true_2 by done. cbn [mbind option_bind]. rewrite Htg, Ho, Hpn.
      subst t. by eapply reads_count. }
    cbn [fst] in Hv. split; [intros [= ->]; by apply (Hsolo "not"%string) in Hv|].
    eapply tokens_agree; [done|by rewrite Hw| |]; rewrite Hw; intros [= ->].
    + by rewrite (proj2 (eqb_text_true _ _) eq_refl) in He.
    + by rewrite (proj2 (eqb_text_true _ _) eq_refl) in Hc.
Qed.

(** A list of parts that all pass. *)
Lemma all_valid_true f parts : fst (all_valid f parts) = true -> Forall (fun p => fst (f p) = true) parts.
Proof.
  induction parts as [|p parts IH]; cbn; [constructor|]. destruct (f p) as [[|] ds] eqn:Hp; [|done].
  destruct (all_valid f parts) as [ok ds']. cbn in *. intros H. constructor; [by rewrite Hp|auto].
Qed.

Lemma parts_agree n parts :
  Forall (fun p => (exists c, condition_at n p = Some c /\ reads p c) \/ has_bare p) parts ->
  (exists cs, mapM (condition_at n) parts = Some cs /\ Forall2 reads parts cs)
  \/ exists p, p ∈ parts /\ has_bare p.
Proof.
  induction 1 as [|p parts [(c & Hc & Hr)|Hb] _ IH].
  - left. by exists [].
  - destruct IH as [(cs & Hcs & Hrs)|(q & Hq & Hb)].
    + left. exists (c :: cs). cbn. rewrite Hc. cbn. rewrite Hcs. split; [done|by constructor].
    + right. exists q. split; [by right|done].
  - right. exists p. split; [left|done].
Qed.

Lemma condition_agree source sp n text :
  fst (valid_condition source n sp text) = true ->
  (exists c, condition_at n text = Some c /\ reads text c) \/ has_bare text.
Proof.
  revert text. induction n as [|n IH]; intros text; [done|]. cbn [valid_condition condition_at].
  set (t := strip_outer_group (trim text)).
  destruct (negb (non_empty (trim t))); [done|].
  assert (Hparts : forall parts, fst (all_valid (valid_condition source n sp) parts) = true ->
    (exists cs, mapM (condition_at n) parts = Some cs /\ Forall2 reads parts cs)
    \/ exists p, p ∈ parts /\ has_bare p).
  { intros parts Hv%all_valid_true. apply parts_agree. eapply Forall_impl; [exact Hv|apply IH]. }
  destruct (split_bool_condition t (lit " or ")) as [parts|] eqn:Hor.
  { intros [(cs & Hcs & Hr)|(p & Hp & Hb)]%Hparts; [left|right].
    - exists (COr cs). rewrite Hcs. split; [done|by eapply reads_or].
    - by eapply bare_part; [left|..]. }
  destruct (split_bool_condition t (lit " and ")) as [parts|] eqn:Hand.
  { intros [(cs & Hcs & Hr)|(p & Hp & Hb)]%Hparts; [left|right].
    - exists (CAnd cs). rewrite Hcs. split; [done|by eapply reads_and].
    - by eapply bare_part; [right|..]. }
  assert (Htrim : trim t = t) by apply strip_outer_trimmed. rewrite Htrim.
  destruct (strip_prefix (lit "not ") t) as [inner|] eqn:Hnot.
  - apply strip_prefix_spec in Hnot. rewrite Hnot, bool_decide_eq_true_2 by apply words_not.
    rewrite lower_not. intros [(c & Hc & Hr)|Hb]%IH; [left|right].
    + exists (CNot c). rewrite Hc. split; [done|by eapply reads_not].
    + by eapply bare_under_not.
  - intros Hv. destruct (bare_keyword t) eqn:Hb; [right; by apply bare_leaf|left].
    destruct (leaf_agree source sp text t eq_refl Hv Hb) as [Hn Hr].
    rewrite bool_decide_eq_false_2 by done. by exists (leaf_condition t).
Qed.

(** *** The fuel of the lowering *)

(** A text with no group left around it. *)
Definition stripped (t : bytes) : bool :=
  match strip_prefix (lit "(") t with
  | None => true
  | Some rest =>
      match strip_suffix (lit ")") rest with
      | None => true
      | Some _ => negb (is_balanced_parenthesized t)
      end
  end.

Lemma strip_groups_stripped fuel t : length t <= fuel -> stripped (strip_groups fuel t) = true.
Proof.
  revert t. induction fuel as [|fuel IH]; intros t Hl; [by destruct t; [|cbn in Hl; lia]|].
  cbn [strip_groups]. destruct (strip_prefix (lit "(") t) as [r|] eqn:Hr; [|by unfold stripped; rewrite Hr].
  destruct (strip_suffix (lit ")") r) as [i|] eqn:Hi; [|by unfold stripped; rewrite Hr, Hi].
  destruct (is_balanced_parenthesized t) eqn:Hb; [|unfold stripped; by rewrite Hr, Hi, Hb].
  apply strip_prefix_spec in Hr as ->. apply strip_suffix_spec in Hi as ->. apply IH.
  pose proof (trim_length i). rewrite !length_app in Hl. cbn in Hl. lia.
Qed.

Lemma strip_groups_id fuel t : stripped t = true -> strip_groups fuel t = t.
Proof.
  unfold stripped. destruct fuel as [|fuel]; [done|]. cbn [strip_groups].
  destruct (strip_prefix _ t) as [r|]; [|done]. destruct (strip_suffix _ r) as [i|]; [|done].
  by destruct (is_balanced_parenthesized t).
Qed.

Lemma strip_outer_idem text : strip_outer_group (trim (strip_outer_group text)) = strip_outer_group text.
Proof.
  rewrite strip_outer_trimmed. unfold strip_outer_group at 1. rewrite strip_outer_trimmed.
  apply strip_groups_id. unfold strip_outer_group. apply strip_groups_stripped, trim_length.
Qed.

Lemma trim_prefixes_length fuel p text : length (trim_prefixes fuel p text) <= length text.
Proof.
  revert text. induction fuel as [|fuel IH]; intros text; [done|]. cbn [trim_prefixes].
  destruct (strip_prefix p text) as [r|] eqn:Hr; [|done]. apply strip_prefix_spec in Hr as ->.
  etrans; [apply IH|]. rewrite length_app. lia.
Qed.

(** Removing [not] shortens the text or finds nothing to remove. *)
Lemma trim_not_shorter t :
  trim_start_matches (lit "not") t = t \/ length (trim_start_matches (lit "not") t) < length t.
Proof.
  unfold trim_start_matches. destruct t as [|c t]; [by left|].
  set (n := length t). change (length (c :: t)) with (S n). cbn [trim_prefixes].
  destruct (strip_prefix (lit "not") (c :: t)) as [r|] eqn:Hr; [right|by left].
  apply strip_prefix_spec, (f_equal length) in Hr. rewrite length_app in Hr. cbn in Hr.
  pose proof (trim_prefixes_length n (lit "not") r). lia.
Qed.

(** A text that leads back to itself has no result at any fuel. *)
Lemma condition_loop n t :
  strip_outer_group (trim t) = t -> trim t = t ->
  split_bool_condition t (lit " or ") = None -> split_bool_condition t (lit " and ") = None ->
  words t !! 0 = Some (lit "not") -> trim_start_matches (lit "not") t = t -> condition_at n t = None.
Proof.
  intros Hs Htr Hor Hand Hw Hloop. induction n as [|n IH]; [done|]. cbn [condition_at].
  rewrite Hs, Hor, Hand, bool_decide_eq_true_2, Hloop, Htr by done. by rewrite IH.
Qed.

Lemma mapM_option_ext {A B} (f g : A -> option B) l : (forall x, x ∈ l -> f x = g x) -> mapM f l = mapM g l.
Proof.
  induction l as [|x l IH]; intros H; [done|]. cbn. rewrite (H x) by left.
  rewrite IH; [done|]. intros y Hy. apply H. by right.
Qed.

(** More fuel than the length of the text does not change the lowering: where
    it has no result, the recursion of the code does not end. *)
Lemma condition_fuel n m text :
  length text < n -> length text < m -> condition_at n text = condition_at m text.
Proof.
  revert m text. induction n as [|n IH]; intros m text Hn Hm; [lia|]. destruct m as [|m]; [lia|].
  cbn [condition_at]. set (t := strip_outer_group (trim text)).
  assert (Ht : length t <= length text) by (etrans; [apply strip_outer_length|apply trim_length]).
  destruct (split_bool_condition t (lit " or ")) as [parts|] eqn:Hor.
  { f_equal. apply mapM_option_ext. intros p Hp. pose proof (split_parts_shorter _ _ _ _ Hor Hp).
    apply IH; lia. }
  destruct (split_bool_condition t (lit " and ")) as [parts|] eqn:Hand.
  { f_equal. apply mapM_option_ext. intros p Hp. pose proof (split_parts_shorter _ _ _ _ Hand Hp).
    apply IH; lia. }
  destruct (bool_decide_reflect (words t !! 0 = Some (lit "not"))) as [Hw|]; [|done].
  assert (Htr : trim t = t) by apply strip_outer_trimmed.
  destruct (trim_not_shorter t) as [Hloop|Hlt].
  - rewrite Hloop, Htr, !condition_loop; try done; apply strip_outer_idem.
  - pose proof (trim_length (trim_start_matches (lit "not") t)). rewrite (IH m); [done|lia|lia].
Qed.

(** A condition that passes the check is lowered to what it says: the
    lowering terminates, none of its fallbacks is taken, and the result is the
    reading of the text; unless one of the keywords [not], [exists] or [count]
    stands alone in it. *)
Theorem condition_lowering source sp text :
  fst (is_valid_condition_expression source sp text) = true ->
  (exists c, condition_from_text text = Some c /\ reads text c) \/ has_bare text.
Proof. apply condition_agree. Qed.

(** Neither the check nor the lowering of a condition depends on its fuel:
    the check examines the whole text, and where the lowering has no result the
    recursion of the code does not end. *)
Theorem condition_fuel_enough source sp text n :
  length text < n ->
  is_valid_condition_expression source sp text = valid_condition source n sp text
  /\ condition_from_text text = condition_at n text.
Proof. intros Hn. split; [apply valid_condition_fuel|apply condition_fuel]; lia. Qed.

(** The exception is real. A lone keyword passes the check; [exists] and
    [count] are then lowered to conditions on audio tracks that the text does
    not mention, and the lowering of [\[not\]] never ends, whatever the fuel. *)
Theorem bare_keywords_misread source sp :
  (forall k, k ∈ ["exists"; "count"; "[not]"]%string ->
     is_valid_condition_expression source sp (lit k) = (true, []))
  /\ condition_from_text (lit "exists") = Some (CExists Audio None)
  /\ condition_from_text (lit "count") = Some (CCount Audio OpEq 0)
  /\ forall fuel, condition_at fuel (lit "[not]") = None.
Proof.
  split_and!; [|done|done|].
  - intros k. rewrite !elem_of_cons, elem_of_nil. by intros [->|[->|[->|[]]]].
  - induction fuel as [|fuel IH]; [done|]. cbn [condition_at].
    change (strip_outer_group (trim (lit "[not]"))) with (lit "[not]").
    change (split_bool_condition (lit "[not]") (lit " or ")) with (@None (list bytes)).
    change (split_bool_condition (lit "[not]") (lit " and ")) with (@None (list bytes)).
    rewrite bool_decide_eq_true_2 by done.
    change (trim (trim_start_matches (lit "not") (lit "[not]"))) with (lit "[not]"). by rewrite IH.
Qed.
