(* ===== verification/PolicyProfiles.v ===== *)
(** * Inline video profiles

    The settings of [transcode video to .. { .. }] from the policy to the
    worker: their check ([validate_inline_*] of
    [compile/validate/operations.rs]), their lowering ([inline_settings_from]
    of [compile/lower/operations.rs]) and their resolution
    ([inline_to_worker_profile] and [resolve_video_profile_ref] of
    [voom-control-plane/src/transcode/resolve.rs]), which gives the profile its
    identity and checks it against the encoder again. The theorems compare the
    two checks and show that the identity separates profiles. *)

From Stdlib Require Import ZArith Lia Bool String Ascii.
From stdpp Require Import base gmap strings list.
From S2P Require Import Prelude Vocab Store Bytes PolicySyntax Encoders VideoProfiles.
From S2P Require Import TrackFilters PolicyCompiled PolicyConditions.

Open Scope Z_scope.

Abbreviation Settings := (gmap bytes ExprAst).

(** [settings.iter().map(..).collect()]: a later setting replaces an earlier one. *)
Definition settings_by_key (settings : list SettingAst) : Settings :=
  fold_left (fun m s => <[value (s_key s) := s_value s]> m) settings ∅.


(** ** The check *)

Definition inline_quality_in_range (v : option bytes) (min max : Z) : bool :=
  match v ≫= parse_u8 with Some v => in_range min max v | None => false end.

Definition ALLOWED : list string :=
  ["encoder"; "crf"; "cq"; "qp"; "bitrate_kbps"; "preset"; "tune"; "codec_profile"; "codec_level";
   "pixel_format"; "max_width"; "max_height"; "output_container"; "copy_compatible"; "decode"].

Section check.
Context (source : bytes).
Context (sp : SourceSpan).

Definition profile_error : PolicyDiagnostic := make_error source InvalidVideoProfileSetting sp.
Definition profile_error_if (b : bool) : list PolicyDiagnostic := if b then [profile_error] else [].

Fixpoint check_setting_keys (settings : list SettingAst) (seen : gset bytes) : list PolicyDiagnostic :=
  match settings with
  | [] => []
  | s :: settings' =>
      let key := value (s_key s) in
      if negb (one_of ALLOWED key) then profile_error :: check_setting_keys settings' seen
      else if bool_decide (key ∈ seen) then profile_error :: check_setting_keys settings' seen
      else check_setting_keys settings' ({[key]} ∪ seen)
  end.
(** Whether the keys are fine is whether nothing was reported. *)
Definition validate_inline_setting_keys (settings : list SettingAst) : list PolicyDiagnostic :=
  check_setting_keys settings ∅.

Definition inline_expr_as_string (e : ExprAst) : option bytes * list PolicyDiagnostic :=
  match e with
  | EIdentifier v | EString v | ENumber v | EFieldPath v => (Some (value v), [])
  | EBoolean _ | EList _ _ => (None, [profile_error])
  end.
Definition inline_required_str (by_key : Settings) (key : string) :
    option bytes * list PolicyDiagnostic :=
  match by_key !! lit key with
  | None => (None, [profile_error])
  | Some e => inline_expr_as_string e
  end.
Definition inline_optional_str (by_key : Settings) (key : string) :
    option bytes * list PolicyDiagnostic :=
  match by_key !! lit key with
  | None => (None, [])
  | Some e => inline_expr_as_string e
  end.

Definition quality_fields_valid (d : EncoderDescriptor) (crf cq qp bitrate : option bytes) : bool :=
  match quality_domain d with
  | QCrf min max =>
      is_none cq && is_none qp && is_none bitrate && inline_quality_in_range crf min max
  | QCq min max =>
      is_none crf && is_none qp && is_none bitrate && inline_quality_in_range cq min max
  | QQp min max =>
      is_none crf && is_none cq && is_none bitrate && inline_quality_in_range qp min max
  | QBitrateKbps min max =>
      is_none crf && is_none cq && is_none qp
      && match bitrate ≫= parse_u32 with Some v => in_range min max v | None => false end
  end.
Definition validate_inline_quality (d : EncoderDescriptor) (by_key : Settings) :
    list PolicyDiagnostic :=
  let '(crf, e1) := inline_optional_str by_key "crf" in
  let '(cq, e2) := inline_optional_str by_key "cq" in
  let '(qp, e3) := inline_optional_str by_key "qp" in
  let '(bitrate, e4) := inline_optional_str by_key "bitrate_kbps" in
  e1 ++ e2 ++ e3 ++ e4 ++ profile_error_if (negb (quality_fields_valid d crf cq qp bitrate)).

Definition validate_inline_preset (d : EncoderDescriptor) (by_key : Settings) :
    list PolicyDiagnostic :=
  let '(preset, e) := inline_optional_str by_key "preset" in
  e ++ match preset_domain d, preset with
       | PresetNone, None => []
       | PresetNone, Some _ => [profile_error]
       | (PresetNamed _ | PresetRange _ _), None => [profile_error]
       | (PresetNamed _ | PresetRange _ _), Some preset =>
           profile_error_if (negb (accepts_preset d preset))
       end.
Definition validate_inline_crf_preset (d : EncoderDescriptor) (by_key : Settings) :
    list PolicyDiagnostic :=
  validate_inline_quality d by_key ++ validate_inline_preset d by_key.

(** An optional setting whose text the encoder has to accept. *)
Definition check_accepted (accepts : bytes -> bool) (v : option bytes) : list PolicyDiagnostic :=
  match v with Some v => profile_error_if (negb (accepts v)) | None => [] end.

Definition validate_inline_decode (d : EncoderDescriptor) (decode : bytes) : list PolicyDiagnostic :=
  match VideoDecodeMode_parse decode with
  | None => [profile_error]
  | Some mode =>
      profile_error_if (bool_decide (mode = Nvidia) && negb (bool_decide (backend d = BNvidia)))
      ++ profile_error_if (bool_decide (mode = Vaapi) && negb (bool_decide (backend d = BVaapi)))
      ++ profile_error_if (bool_decide (mode = VideoToolbox)
                           && negb (bool_decide (backend d = BVideoToolbox)))
  end.

Definition validate_inline_pixel_format (d : EncoderDescriptor)
    (pixel_format codec_profile : option bytes) : list PolicyDiagnostic :=
  match pixel_format with
  | None => []
  | Some f =>
      if negb (accepts_pixel_format d f) then [profile_error]
      else profile_error_if (negb (pixel_format_compatible_with_profile d f codec_profile))
  end.

Definition positive_dimension (e : ExprAst) : bool :=
  match e with
  | ENumber v => match parse_u32 (value v) with Some n => 0 <? n | None => false end
  | _ => false
  end.
Definition validate_inline_container_and_dimensions (by_key : Settings) : list PolicyDiagnostic :=
  let '(container, e) := inline_optional_str by_key "output_container" in
  e ++ check_accepted (one_of ["mkv"; "mp4"]%string) container
  ++ flat_map (fun key => match by_key !! lit key with
                          | Some e => profile_error_if (negb (positive_dimension e))
                          | None => []
                          end) ["max_width"; "max_height"]%string
  ++ match by_key !! lit "copy_compatible" with
     | None | Some (EBoolean _) => []
     | Some _ => [profile_error]
     end.

Definition validate_inline_optionals (d : EncoderDescriptor) (by_key : Settings) :
    list PolicyDiagnostic :=
  let '(tune, e1) := inline_optional_str by_key "tune" in
  let '(codec_profile, e2) := inline_optional_str by_key "codec_profile" in
  let '(codec_level, e3) := inline_optional_str by_key "codec_level" in
  let '(pixel_format, e4) := inline_optional_str by_key "pixel_format" in
  let '(decode, e5) := inline_optional_str by_key "decode" in
  e1 ++ check_accepted (accepts_tune d) tune
  ++ e2 ++ check_accepted (accepts_codec_profile d) codec_profile
  ++ e3 ++ check_accepted (accepts_codec_level d) codec_level
  ++ e4 ++ validate_inline_pixel_format d pixel_format codec_profile
  ++ validate_inline_container_and_dimensions by_key
  ++ e5 ++ match decode with Some v => validate_inline_decode d v | None => [] end.

Definition validate_inline_video_profile (codec : bytes) (settings : list SettingAst) :
    list PolicyDiagnostic :=
  match validate_inline_setting_keys settings with
  | [] =>
      let by_key := settings_by_key settings in
      let '(encoder, e) := inline_required_str by_key "encoder" in
      e ++ match encoder with
           | None => []
           | Some encoder =>
               match encoder_descriptor encoder with
               | None => [profile_error]
               | Some d =>
                   profile_error_if (negb (eqb_text (lit (e_target_codec d)) codec))
                   ++ validate_inline_crf_preset d by_key ++ validate_inline_optionals d by_key
               end
           end
  | e => e
  end.
End check.

(** ** The lowering *)

Definition expr_scalar_string (e : ExprAst) : bytes :=
  match e with
  | EString v | EIdentifier v | ENumber v | EFieldPath v => value v
  | EBoolean v => if value v then lit "true" else lit "false"
  | EList _ _ => []
  end.

Definition str_at (by_key : Settings) (key : string) : option bytes :=
  option_map expr_scalar_string (by_key !! lit key).
Definition u8_at (by_key : Settings) (key : string) : option Z := str_at by_key key ≫= parse_u8.
Definition u32_at (by_key : Settings) (key : string) : option Z := str_at by_key key ≫= parse_u32.

Definition inline_settings_from (settings : list SettingAst) : VideoProfileSettings :=
  let by_key := settings_by_key settings in {|
  vp_encoder := default [] (str_at by_key "encoder");
  vp_crf := u8_at by_key "crf";
  vp_cq := u8_at by_key "cq";
  vp_qp := u8_at by_key "qp";
  vp_bitrate_kbps := u32_at by_key "bitrate_kbps";
  vp_preset := str_at by_key "preset";
  vp_tune := str_at by_key "tune";
  vp_codec_profile := str_at by_key "codec_profile";
  vp_codec_level := str_at by_key "codec_level";
  vp_pixel_format := str_at by_key "pixel_format";
  vp_max_width := u32_at by_key "max_width";
  vp_max_height := u32_at by_key "max_height";
  vp_output_container := str_at by_key "output_container";
  vp_copy_compatible :=
    match by_key !! lit "copy_compatible" with Some (EBoolean v) => Some (value v) | _ => None end;
  vp_decode := default Software (str_at by_key "decode" ≫= VideoDecodeMode_parse);
|}.

(** ** The resolution *)

(** The identity of inline settings ([voom-plan]'s [transcode_video/profile.rs])
    is a hash of their canonical text. *)
Definition lower_text (v : bytes) : bytes := map to_ascii_lowercase v.
Definition part (key : string) (v : option bytes) : list bytes :=
  match v with Some v => [lit key ++ lit "=" ++ v] | None => [] end.
Definition canonical_parts (s : VideoProfileSettings) : list bytes :=
  part "encoder" (Some (lower_text (vp_encoder s)))
  ++ part "crf" (decimal <$> vp_crf s) ++ part "cq" (decimal <$> vp_cq s)
  ++ part "qp" (decimal <$> vp_qp s) ++ part "bitrate_kbps" (decimal <$> vp_bitrate_kbps s)
  ++ part "preset" (trim <$> vp_preset s) ++ part "tune" (lower_text <$> vp_tune s)
  ++ part "codec_profile" (lower_text <$> vp_codec_profile s)
  ++ part "codec_level" ((fun v => lower_text (trim v)) <$> vp_codec_level s)
  ++ part "pixel_format" (lower_text <$> vp_pixel_format s)
  ++ part "max_width" (decimal <$> vp_max_width s) ++ part "max_height" (decimal <$> vp_max_height s)
  ++ part "output_container" (Some (lower_text (default (lit "mkv") (vp_output_container s))))
  ++ part "copy_compatible"
       (Some (if default false (vp_copy_compatible s) then lit "true" else lit "false"))
  ++ part "decode" (match vp_decode s with
                    | Software => None
                    | m => Some (lit (VideoDecodeMode_as_str m))
                    end).
Definition canonical_form (s : VideoProfileSettings) : bytes := join (lit ";") (canonical_parts s).

(** [blake3::hash(text).to_hex()] is a parameter. *)
Section resolve.
Context `{Iso8601}.
Context (blake3_hex : bytes -> bytes).

Definition inline_profile_id (s : VideoProfileSettings) : bytes :=
  lit "inline-" ++ take 12 (blake3_hex (canonical_form s)).

Definition inline_to_worker_profile (s : VideoProfileSettings) : Res TranscodeVideoProfile :=
  d ← ok_or (encoder_descriptor (vp_encoder s)) EConfig;
  Ok {|
    t_name := inline_profile_id s;
    t_target_codec := lit (e_target_codec d);
    t_encoder := vp_encoder s;
    t_crf := vp_crf s; t_cq := vp_cq s; t_qp := vp_qp s; t_bitrate_kbps := vp_bitrate_kbps s;
    t_preset := vp_preset s; t_tune := vp_tune s;
    t_codec_profile := vp_codec_profile s; t_codec_level := vp_codec_level s;
    t_pixel_format := vp_pixel_format s;
    t_max_width := vp_max_width s; t_max_height := vp_max_height s;
    t_decode := vp_decode s;
    t_copy_compatible := default false (vp_copy_compatible s) |}.

Record ResolvedProfile := { rp_profile : TranscodeVideoProfile; rp_output_container : bytes }.

Definition resolve_video_profile_ref (reference : VideoProfileRef) :
    Tx Registry VoomError ResolvedProfile :=
  resolved ← match reference with
             | Named name =>
                 row ← get_by_name name;
                 v ← lift (ok_or row EConfig);
                 mret {| rp_profile := to_worker_profile v;
                         rp_output_container := v_output_container v |}
             | Inline s =>
                 profile ← lift (inline_to_worker_profile s);
                 mret {| rp_profile := profile;
                         rp_output_container := default (lit "mkv") (vp_output_container s) |}
             end;
  match validate_profile_against_descriptor (rp_profile resolved) with
  | Ok _ => mret resolved
  | Err _ => throw EConfig
  end.
End resolve.

(** ** The check and the encoder *)

Section agree.
Context (source : bytes) (sp : SourceSpan).

Lemma profile_error_if_nil b : profile_error_if source sp b = [] <-> b = false.
Proof. by destruct b. Qed.

Lemma check_accepted_nil f v : check_accepted source sp f v = [] <-> all_some f v = true.
Proof. destruct v as [v|]; [|done]. cbn. rewrite profile_error_if_nil, negb_false_iff. done. Qed.

(** Without a complaint a setting is a scalar and is lowered to its text. *)
Lemma inline_optional_lowered by_key key v :
  inline_optional_str source sp by_key key = (v, []) -> str_at by_key key = v.
Proof.
  unfold inline_optional_str, str_at. destruct (by_key !! lit key) as [e|]; [|by intros [= <-]].
  destruct e; cbn; by intros [= <-].
Qed.

Lemma inline_required_lowered by_key key v :
  inline_required_str source sp by_key key = (Some v, []) -> str_at by_key key = Some v.
Proof.
  unfold inline_required_str, str_at. destruct (by_key !! lit key) as [e|]; [|done].
  destruct e; cbn; by intros [= <-].
Qed.

(** The number a quality field is lowered to is the one that was checked. *)
Lemma quality_agrees by_key d p :
  quality_fields_valid d (str_at by_key "crf") (str_at by_key "cq") (str_at by_key "qp")
    (str_at by_key "bitrate_kbps") = true ->
  t_crf p = u8_at by_key "crf" -> t_cq p = u8_at by_key "cq" -> t_qp p = u8_at by_key "qp" ->
  t_bitrate_kbps p = u32_at by_key "bitrate_kbps" -> validate_quality_domain d p = true.
Proof.
  unfold quality_fields_valid, validate_quality_domain, inline_quality_in_range, u8_at, u32_at.
  intros Hv -> -> -> ->.
  destruct (quality_domain d), (str_at by_key "crf"), (str_at by_key "cq"), (str_at by_key "qp"),
    (str_at by_key "bitrate_kbps"); cbn in Hv |- *; try done.
  all: destruct (parse_uint _ _); done.
Qed.

Lemma preset_agrees by_key d :
  validate_inline_preset source sp d by_key = [] -> validate_preset d (str_at by_key "preset") = true.
Proof.
  unfold validate_inline_preset, validate_preset.
  destruct (inline_optional_str source sp by_key "preset") as [v e] eqn:Hs. intros [-> Hv]%app_eq_nil.
  apply inline_optional_lowered in Hs as ->.
  destruct (preset_domain d), v as [v|]; try done; by apply profile_error_if_nil, negb_false_iff in Hv.
Qed.

Lemma pixel_format_agrees d pf cp :
  validate_inline_pixel_format source sp d pf cp = [] ->
  all_some (accepts_pixel_format d) pf = true
  /\ all_some (fun f => pixel_format_compatible_with_profile d f cp) pf = true.
Proof.
  destruct pf as [f|]; [|done]. cbn. destruct (accepts_pixel_format d f); [|done]. cbn.
  by intros ->%profile_error_if_nil%negb_false_iff.
Qed.

Lemma decode_agrees d v :
  match v with Some v => validate_inline_decode source sp d v | None => [] end = [] ->
  validate_decode_pairing d (default Software (v ≫= VideoDecodeMode_parse)) = true.
Proof.
  destruct v as [v|]; [|done]. unfold validate_inline_decode. cbn [mbind option_bind].
  destruct (VideoDecodeMode_parse v) as [m|]; [|done].
  intros [H1 [H2 H3]%app_eq_nil]%app_eq_nil. apply profile_error_if_nil in H1, H2, H3.
  destruct m; cbn in *; [done|..]; by apply negb_false_iff.
Qed.

(** Everything the compiler checked of the settings, on what they are lowered to. *)
Lemma inline_checks codec settings :
  validate_inline_video_profile source sp codec settings = [] ->
  let s := inline_settings_from settings in
  exists d, encoder_descriptor (vp_encoder s) = Some d /\ codec = lit (e_target_codec d)
    /\ forall p, t_crf p = vp_crf s -> t_cq p = vp_cq s -> t_qp p = vp_qp s ->
       t_bitrate_kbps p = vp_bitrate_kbps s ->
       validate_quality_domain d p = true
       /\ validate_decode_pairing d (vp_decode s) = true
       /\ validate_preset d (vp_preset s) = true
       /\ all_some (accepts_tune d) (vp_tune s) = true
       /\ all_some (accepts_codec_profile d) (vp_codec_profile s) = true
       /\ all_some (accepts_codec_level d) (vp_codec_level s) = true
       /\ all_some (accepts_pixel_format d) (vp_pixel_format s) = true
       /\ all_some (fun f => pixel_format_compatible_with_profile d f (vp_codec_profile s))
            (vp_pixel_format s) = true
       /\ all_some (one_of ["mkv"; "mp4"]%string) (vp_output_container s) = true.
Proof.
  unfold validate_inline_video_profile, inline_settings_from.
  destruct (validate_inline_setting_keys source sp settings); [|done].
  set (b := settings_by_key settings). cbn [vp_encoder vp_crf vp_cq vp_qp vp_bitrate_kbps vp_preset
    vp_tune vp_codec_profile vp_codec_level vp_pixel_format vp_output_container vp_decode].
  destruct (inline_required_str source sp b "encoder") as [[enc|] e] eqn:Henc; cycle 1.
  { unfold inline_required_str in Henc. destruct (b !! lit "encoder") as [x|]; [|by injection Henc as <-].
    destruct x; try done; by injection Henc as <-. }
  intros [-> Hrest]%app_eq_nil. apply inline_required_lowered in Henc as ->. cbn [default].
  destruct (encoder_descriptor enc) as [d|] eqn:Hd; [|done].
  apply app_eq_nil in Hrest as [Hcodec Hrest]. apply app_eq_nil in Hrest as [Hcp Hopt].
  apply profile_error_if_nil, negb_false_iff, eqb_text_true in Hcodec.
  exists d. split_and!; [done|done|]. intros p E1 E2 E3 E4.
  apply app_eq_nil in Hcp as [Hq Hpre]. unfold validate_inline_quality in Hq.
  destruct (inline_optional_str source sp b "crf") as [o1 e1] eqn:H1.
  destruct (inline_optional_str source sp b "cq") as [o2 e2] eqn:H2.
  destruct (inline_optional_str source sp b "qp") as [o3 e3] eqn:H3.
  destruct (inline_optional_str source sp b "bitrate_kbps") as [o4 e4] eqn:H4.
  apply app_eq_nil in Hq as [-> [-> [-> [-> Hq]%app_eq_nil]%app_eq_nil]%app_eq_nil].
  apply inline_optional_lowered in H1, H2, H3, H4. subst o1 o2 o3 o4.
  apply profile_error_if_nil, negb_false_iff in Hq.
  unfold validate_inline_optionals in Hopt.
  destruct (inline_optional_str source sp b "tune") as [o1 e1] eqn:H1.
  destruct (inline_optional_str source sp b "codec_profile") as [o2 e2] eqn:H2.
  destruct (inline_optional_str source sp b "codec_level") as [o3 e3] eqn:H3.
  destruct (inline_optional_str source sp b "pixel_format") as [o4 e4] eqn:H4.
  destruct (inline_optional_str source sp b "decode") as [o5 e5] eqn:H5.
  repeat (apply app_eq_nil in Hopt as [? Hopt]). subst.
  apply inline_optional_lowered in H1, H2, H3, H4, H5. subst o1 o2 o3 o4 o5.
  repeat match goal with H : check_accepted _ _ _ _ = [] |- _ => apply check_accepted_nil in H end.
  match goal with H : validate_inline_pixel_format _ _ _ _ _ = [] |- _ =>
    apply pixel_format_agrees in H as [? ?] end.
  match goal with H : validate_inline_container_and_dimensions _ _ _ = [] |- _ => rename H into Hdim end.
  unfold validate_inline_container_and_dimensions in Hdim.
  destruct (inline_optional_str source sp b "output_container") as [o6 e6] eqn:H6.
  apply app_eq_nil in Hdim as [-> [Hcon%check_accepted_nil _]%app_eq_nil].
  apply inline_optional_lowered in H6. subst o6.
  split_and!; try done; [by eapply quality_agrees|by apply decode_agrees|by apply preset_agrees].
Qed.
End agree.

Section resolution.
Context `{Iso8601} (blake3_hex : bytes -> bytes).

Lemma inline_worker_profile s d :
  encoder_descriptor (vp_encoder s) = Some d ->
  exists p, inline_to_worker_profile blake3_hex s = Ok p /\ t_target_codec p = lit (e_target_codec d)
    /\ t_encoder p = vp_encoder s
    /\ t_crf p = vp_crf s /\ t_cq p = vp_cq s /\ t_qp p = vp_qp s
    /\ t_bitrate_kbps p = vp_bitrate_kbps s /\ t_preset p = vp_preset s /\ t_tune p = vp_tune s
    /\ t_codec_profile p = vp_codec_profile s /\ t_codec_level p = vp_codec_level s
    /\ t_pixel_format p = vp_pixel_format s /\ t_decode p = vp_decode s.
Proof.
  intros Hd. unfold inline_to_worker_profile. rewrite Hd. eexists. split; [done|]. by split_and!.
Qed.

(** Inline settings that pass the compiler resolve, to a profile for the
    codec of the statement, exactly when they also satisfy the two checks the
    compiler does not make: a ten-bit codec profile has a ten-bit surface, and
    a VideoToolbox encoder gets one of its known combinations. Otherwise the
    resolver refuses them. *)
Theorem inline_profile_accepted source sp codec settings t :
  validate_inline_video_profile source sp codec settings = [] ->
  exists p d, inline_to_worker_profile blake3_hex (inline_settings_from settings) = Ok p
    /\ encoder_descriptor (t_encoder p) = Some d /\ t_target_codec p = codec
    /\ fst (resolve_video_profile_ref blake3_hex (Inline (inline_settings_from settings)) t) =
       if profile_requires_ten_bit_pixel_format d (t_codec_profile p) (t_pixel_format p)
          && validate_videotoolbox_tuple p (backend d)
       then Ok {| rp_profile := p;
                  rp_output_container :=
                    default (lit "mkv") (vp_output_container (inline_settings_from settings)) |}
       else Err EConfig.
Proof.
  intros (d & Hd & -> & Hchecks)%inline_checks. cbn zeta in Hchecks.
  set (s := inline_settings_from settings) in *.
  destruct (inline_worker_profile s d Hd) as (p & Hp & Hcodec & Henc & E1 & E2 & E3 & E4 & E5 & E6 &
    E7 & E8 & E9 & E10).
  destruct (Hchecks p E1 E2 E3 E4) as (Hq & Hdec & Hpre & Htune & Hcp & Hlev & Hpf & Hcomp & _).
  exists p, d. rewrite Henc. split_and!; [done|done|done|].
  unfold resolve_video_profile_ref, lift, mbind, tx_mbind, mret, tx_mret. rewrite Hp.
  cbn [rp_profile fst].
  pose proof (validate_profile_ok p d) as Hv. rewrite Henc in Hv. specialize (Hv Hd).
  rewrite <- E5, <- E6, <- E7, <- E8, <- E9, <- E10 in *.
  destruct (validate_profile_against_descriptor p) as [[]|e].
  - destruct (proj1 Hv eq_refl) as (_&_&_&_&_&_&_&_&_&Hten&Htuple). by rewrite Hten, Htuple.
  - destruct (_ && _) eqn:E; [|done]. apply andb_true_iff in E as [Hten Htuple].
    discriminate (proj2 Hv ltac:(by split_and!)).
Qed.
End resolution.
