(* ===== verification/PolicyIdentity.v ===== *)
(** * The identity of inline profiles

    The worker profile of inline settings is named by a hash of their
    canonical text ([canonical_form] of [voom-plan]'s
    [transcode_video/profile.rs]). Settings that pass the compiler have the
    same canonical text only if they have the same worker profile. *)

From Stdlib Require Import ZArith Lia Bool String Ascii.
From stdpp Require Import base gmap strings list.
From S2P Require Import Prelude Vocab Store Bytes PolicySyntax Encoders.
From S2P Require Import PolicyCompiled PolicyConditions PolicyProfiles.

Open Scope Z_scope.

(** ** Taking the canonical text apart *)

Definition unsplit (v : bytes) : bool := forallb (fun c => negb (eqc ";" c)) v.

(** The value of the first part with the key. *)
Fixpoint field (key : string) (parts : list bytes) : option bytes :=
  match parts with
  | [] => None
  | p :: parts' =>
      match strip_prefix (lit key ++ lit "=") p with Some v => Some v | None => field key parts' end
  end.

Lemma split_joined parts :
  parts <> [] -> Forall (fun p => unsplit p = true) parts ->
  split_by (eqc ";") (join (lit ";") parts) = parts.
Proof.
  intros Hne Hall. induction Hall as [|p parts Hp Hall IH]; [done|].
  destruct parts as [|q parts]; cbn [join]; [by apply split_by_word|].
  change (p ++ lit ";" ++ ?t) with (p ++ ";"%char :: t). rewrite split_by_app by done.
  f_equal. by apply IH.
Qed.

Lemma field_skip key k v rest :
  (forall t, strip_prefix (lit key ++ lit "=") (lit k ++ lit "=" ++ t) = None) ->
  field key (part k v ++ rest) = field key rest.
Proof. intros Hk. destruct v as [v|]; [|done]. cbn [part app field]. by rewrite Hk. Qed.

Lemma field_hit key v rest :
  field key (part key v ++ rest) = match v with Some v => Some v | None => field key rest end.
Proof.
  destruct v as [v|]; [|done]. cbn [part app field]. rewrite app_assoc.
  by rewrite strip_prefix_app.
Qed.

Lemma field_last key v : field key (part key v) = v.
Proof. rewrite <- (app_nil_r (part key v)), field_hit. by destruct v. Qed.
Lemma field_miss key k v :
  (forall t, strip_prefix (lit key ++ lit "=") (lit k ++ lit "=" ++ t) = None) ->
  field key (part k v) = None.
Proof. intros Hk. rewrite <- (app_nil_r (part k v)). by rewrite field_skip. Qed.

(** The field of one key in the parts of some settings. *)
Ltac find_field :=
  unfold canonical_parts; rewrite ?field_skip by reflexivity;
  first [rewrite field_last; reflexivity
        | rewrite field_hit, ?field_skip by reflexivity;
          rewrite ?field_miss by reflexivity; by destruct (_ <$> _)
        | rewrite field_hit; reflexivity].

Lemma parts_fields s :
  let f key := field key (canonical_parts s) in
  f "encoder" = Some (lower_text (vp_encoder s)) /\ f "crf" = decimal <$> vp_crf s
  /\ f "cq" = decimal <$> vp_cq s /\ f "qp" = decimal <$> vp_qp s
  /\ f "bitrate_kbps" = decimal <$> vp_bitrate_kbps s /\ f "preset" = trim <$> vp_preset s
  /\ f "tune" = lower_text <$> vp_tune s /\ f "codec_profile" = lower_text <$> vp_codec_profile s
  /\ f "codec_level" = (fun v => lower_text (trim v)) <$> vp_codec_level s
  /\ f "pixel_format" = lower_text <$> vp_pixel_format s
  /\ f "max_width" = decimal <$> vp_max_width s /\ f "max_height" = decimal <$> vp_max_height s
  /\ f "output_container" = Some (lower_text (default (lit "mkv") (vp_output_container s)))
  /\ f "copy_compatible" =
       Some (if default false (vp_copy_compatible s) then lit "true" else lit "false")
  /\ f "decode" = match vp_decode s with
                  | Software => None
                  | m => Some (lit (VideoDecodeMode_as_str m))
                  end.
Proof. cbn zeta. split_and!; find_field. Qed.

(** ** Values the compiler lets through *)

(** A text that the canonical form keeps as it is. *)
Definition kept (v : bytes) : bool := unsplit v && eqb_text (lower_text v) v && eqb_text (trim v) v.
(** The texts of the encoder table. *)
Definition vocabulary (d : EncoderDescriptor) : list string :=
  e_encoder d :: tunes d ++ codec_profiles d ++ codec_levels d ++ pixel_formats d
  ++ match preset_domain d with PresetNamed set => set | _ => [] end.

Lemma vocabulary_kept d w : d ∈ DESCRIPTORS -> In w (vocabulary d) -> kept (lit w) = true.
Proof.
  assert (H : forallb (fun d => forallb (fun w => kept (lit w)) (vocabulary d)) DESCRIPTORS = true)
    by (vm_compute; reflexivity).
  rewrite forallb_forall in H. intros Hd%list_elem_of_In%H. rewrite forallb_forall in Hd. apply Hd.
Qed.

Lemma word_kept d ws v :
  d ∈ DESCRIPTORS -> incl ws (vocabulary d) -> all_some (one_of ws) v = true ->
  forall t, v = Some t -> kept t = true.
Proof.
  intros Hd Hws Hv t ->. apply one_of_spec in Hv as (w & Hw & ->). by eapply vocabulary_kept, Hws.
Qed.

Lemma digits_value_chars acc text v :
  digits_value acc text = Some v -> 0 <= acc -> acc <= v /\ forallb is_ascii_digit text = true.
Proof.
  revert acc. induction text as [|c text IH]; intros acc; cbn [digits_value forallb].
  { intros [= ->]. lia. }
  unfold digit. destruct (is_ascii_digit c) eqn:Hc; [|done]. cbn [mbind option_bind]. intros Hv Ha.
  assert (0 <= Z.of_nat (byte c) - 48).
  { unfold is_ascii_digit, byte_in in Hc. apply andb_true_iff in Hc as [Hc%Nat.leb_le _].
    unfold byte. lia. }
  apply IH in Hv as [? ->]; [|lia]. split; [lia|done].
Qed.

(** What is parsed as a number is within the type and made of digits. *)
Lemma parse_uint_spec max text v :
  parse_uint max text = Some v ->
  0 <= v <= max /\ text <> [] /\ forallb (fun c => is_ascii_digit c || eqc "+" c) text = true.
Proof.
  unfold parse_uint. intros Hp.
  assert (Hall : forall digits, digits <> [] ->
    (match digits with [] => None | _ => w ← digits_value 0 digits; if w <=? max then Some w else None
     end) = Some v -> 0 <= v <= max /\ forallb is_ascii_digit digits = true).
  { intros [|c digits] Hne Hd; [done|]. destruct (digits_value 0 (c :: digits)) as [w|] eqn:Hw; [|done].
    cbn in Hd. destruct (Z.leb_spec w max); [|done]. injection Hd as <-.
    apply digits_value_chars in Hw as [? ?]; [|lia]. split; [lia|done]. }
  assert (Hweak : forall t, forallb is_ascii_digit t = true ->
    forallb (fun c => is_ascii_digit c || eqc "+" c) t = true).
  { intros t. induction t as [|c t IHt]; [done|]. cbn. intros [-> ?]%andb_true_iff. by apply IHt. }
  destruct text as [|c rest]; [done|]. destruct (eqc "+" c && non_empty rest) eqn:Hplus.
  - apply andb_true_iff in Hplus as [Hc Hr]. destruct (Hall rest) as [Hv Hd]; [by destruct rest|done|].
    split_and!; [apply Hv..|done|]. cbn. rewrite Hc, orb_true_r. by apply Hweak.
  - destruct (Hall (c :: rest)) as [Hv Hd]; [done|done|]. split_and!; [apply Hv..|done|by apply Hweak].
Qed.

Lemma number_u64 max text v : max <= u64_max -> parse_uint max text = Some v -> is_u64 v = true.
Proof.
  intros Hm (Hv & _)%parse_uint_spec. unfold is_u64. apply andb_true_iff. rewrite !Z.leb_le. lia.
Qed.

Lemma digit_or_plus c : is_ascii_digit c || eqc "+" c = true -> plain c = true /\ eqc ";" c = false.
Proof.
  intros [Hc| ->%eqc_true]%orb_true_iff; [|done]. split; cycle 1.
  { apply not_true_is_false. by intros ->%eqc_true. }
  unfold is_ascii_digit, byte_in in Hc. apply andb_true_iff in Hc as [H1%Nat.leb_le H2%Nat.leb_le].
  unfold plain, is_ascii, ws1, byte_in, byte. apply andb_true_iff. rewrite Nat.leb_le, negb_true_iff.
  split; [lia|]. rewrite orb_false_iff, andb_false_iff, !Nat.leb_gt, Nat.eqb_neq. lia.
Qed.

Lemma forallb_last {A} (f : A -> bool) l b : forallb f l = true -> last l = Some b -> f b = true.
Proof.
  intros Hl [l' ->]%last_Some. rewrite forallb_app in Hl. apply andb_true_iff in Hl as [_ Hb].
  cbn in Hb. by rewrite andb_true_r in Hb.
Qed.

Lemma number_kept max text v :
  parse_uint max text = Some v -> unsplit text = true /\ trim text = text.
Proof.
  intros (_ & Hne & Hall)%parse_uint_spec. split.
  - unfold unsplit. apply forallb_forall. intros c Hc. rewrite forallb_forall in Hall.
    apply negb_true_iff. by apply digit_or_plus, Hall.
  - apply trim_solid. unfold solid. destruct text as [|c text]; [done|]. cbn [head].
    destruct (last (c :: text)) as [b|] eqn:Hb; [|by apply last_None in Hb].
    pose proof (forallb_last _ _ _ Hall Hb) as Hb'. cbn in Hall. apply andb_true_iff in Hall as [Hc _].
    apply digit_or_plus in Hc as [-> _]. by apply digit_or_plus in Hb' as [-> _].
Qed.

Lemma decimal_unsplit v : is_u64 v = true -> unsplit (decimal v) = true.
Proof.
  intros [_ Hd]%u64_decimal. unfold unsplit. apply forallb_forall. intros c Hc.
  rewrite forallb_forall in Hd. apply negb_true_iff. apply digit_or_plus. by rewrite (Hd c Hc).
Qed.

Lemma decimal_inj a b : is_u64 a = true -> is_u64 b = true -> decimal a = decimal b -> a = b.
Proof. intros [Ha _]%u64_decimal [Hb _]%u64_decimal E. rewrite E in Ha. congruence. Qed.

(** Membership in a list that is written out. *)
Ltac member := rewrite !elem_of_cons; auto 10.

(** What is known of the settings that passed the compiler. *)
Record settled (s : VideoProfileSettings) : Prop := {
  st_encoder : kept (vp_encoder s) = true;
  st_numbers : forall o v, o ∈ [vp_crf s; vp_cq s; vp_qp s; vp_bitrate_kbps s; vp_max_width s;
    vp_max_height s] -> o = Some v -> is_u64 v = true;
  st_preset : forall t, vp_preset s = Some t -> unsplit t = true /\ trim t = t;
  st_texts : forall o t, o ∈ [vp_tune s; vp_codec_profile s; vp_codec_level s; vp_pixel_format s] ->
    o = Some t -> kept t = true;
  st_container : one_of ["mkv"; "mp4"]%string (default (lit "mkv") (vp_output_container s)) = true;
}.

Lemma numeric_at max by_key key v :
  max <= u64_max -> str_at by_key key ≫= parse_uint max = Some v -> is_u64 v = true.
Proof. intros Hm. destruct (str_at by_key key) as [t|]; [|done]. by apply number_u64. Qed.

Lemma validated_settled source sp codec settings :
  validate_inline_video_profile source sp codec settings = [] ->
  settled (inline_settings_from settings).
Proof.
  intros (d & Hd & _ & Hchecks)%inline_checks. cbn zeta in Hchecks.
  destruct (inline_worker_profile (fun t => t) _ d Hd)
    as (p & _ & _ & _ & E1 & E2 & E3 & E4 & _).
  destruct (Hchecks p E1 E2 E3 E4) as (_ & _ & Hpre & Htune & Hcp & Hlev & Hpf & _ & Hcon).
  clear Hchecks E1 E2 E3 E4. apply encoder_descriptor_in in Hd as [Hin Henc].
  split.
  - rewrite Henc. eapply vocabulary_kept; [done|by left].
  - intros o v Ho ->. cbn in Ho. unfold u8_at, u32_at, parse_u8, parse_u32 in Ho.
    rewrite !elem_of_cons, elem_of_nil in Ho.
    destruct Ho as [Ho|[Ho|[Ho|[Ho|[Ho|[Ho|[]]]]]]]; symmetry in Ho; by eapply numeric_at in Ho.
  - intros t Ht. unfold validate_preset in Hpre. rewrite Ht in Hpre. unfold accepts_preset in Hpre.
    destruct (preset_domain d) as [set|min max|] eqn:Hdom; [| |done].
    + apply one_of_spec in Hpre as (w & Hw & ->).
      assert (Hk : kept (lit w) = true).
      { eapply vocabulary_kept; [done|]. unfold vocabulary. rewrite Hdom. right.
        rewrite !in_app_iff. auto. }
      unfold kept in Hk. apply andb_true_iff in Hk as [[? _]%andb_true_iff Hk%eqb_text_true]. done.
    + unfold parse_u8 in Hpre. destruct (parse_uint 255 t) as [n|] eqn:Hn; [|done].
      by eapply number_kept.
  - intros o t Ho ->. rewrite !elem_of_cons, elem_of_nil in Ho.
    assert (Hincl : forall ws, ws ∈ [tunes d; codec_profiles d; codec_levels d; pixel_formats d] ->
      incl ws (vocabulary d)).
    { intros ws Hws w Hw. unfold vocabulary. right. rewrite !in_app_iff.
      rewrite !elem_of_cons, elem_of_nil in Hws.
      destruct Hws as [->|[->|[->|[->|[]]]]]; auto. }
    destruct Ho as [Ho|[Ho|[Ho|[Ho|[]]]]]; symmetry in Ho.
    + eapply (word_kept d); [done| |exact Htune|done]. apply Hincl. member.
    + eapply (word_kept d); [done| |exact Hcp|done]. apply Hincl. member.
    + eapply (word_kept d); [done| |exact Hlev|done]. apply Hincl. member.
    + eapply (word_kept d); [done| |exact Hpf|done]. apply Hincl. member.
  - by destruct (vp_output_container _).
Qed.

(** ** The canonical text determines the profile *)

#[local] Opaque decimal.

Lemma part_unsplit key v :
  unsplit (lit key) = true -> (forall t, v = Some t -> unsplit t = true) ->
  Forall (fun p => unsplit p = true) (part key v).
Proof.
  intros Hk Hv. destruct v as [t|]; [|constructor]. constructor; [|constructor].
  unfold unsplit in *. by rewrite !forallb_app, Hk, (Hv t eq_refl).
Qed.

Lemma kept_unsplit t : kept t = true -> unsplit t = true /\ lower_text t = t /\ trim t = t.
Proof.
  unfold kept. by intros [[? ?%eqb_text_true]%andb_true_iff ?%eqb_text_true]%andb_true_iff.
Qed.

Lemma container_kept v : one_of ["mkv"; "mp4"]%string v = true -> kept v = true.
Proof. by intros (w & [<-|[<-|[]]] & ->)%one_of_spec. Qed.

Lemma settled_parts s : settled s -> Forall (fun p => unsplit p = true) (canonical_parts s).
Proof.
  intros [Henc Hnum Hpre Htext Hcon]. unfold canonical_parts.
  assert (Hn : forall o, o ∈ [vp_crf s; vp_cq s; vp_qp s; vp_bitrate_kbps s; vp_max_width s;
    vp_max_height s] -> forall t, decimal <$> o = Some t -> unsplit t = true).
  { intros [v|] Ho t; [|done]. cbn. intros [= <-]. eapply decimal_unsplit, Hnum; done. }
  assert (Ht : forall o, o ∈ [vp_tune s; vp_codec_profile s; vp_codec_level s; vp_pixel_format s] ->
    forall t, (lower_text <$> o = Some t -> unsplit t = true)
              /\ ((fun v => lower_text (trim v)) <$> o = Some t -> unsplit t = true)).
  { intros [v|] Ho t; [|done]. destruct (kept_unsplit v (Htext _ v Ho eq_refl)) as (Hu & Hl & Htr).
    cbn. rewrite Htr, Hl. split; by intros [= <-]. }
  destruct (kept_unsplit _ Henc) as (Hu & Hl & _).
  destruct (kept_unsplit _ (container_kept _ Hcon)) as (Hcu & Hcl & _).
  repeat (apply Forall_app; split); apply part_unsplit; try done.
  all: try (apply Hn; member).
  all: try (intros t; apply Ht; member).
  - rewrite Hl. by intros t [= <-].
  - intros t. destruct (vp_preset s) as [v|]; [|done]. cbn. destruct (Hpre v eq_refl) as [? ->].
    by intros [= <-].
  - rewrite Hcl. by intros t [= <-].
  - intros t [= <-]. by destruct (default false (vp_copy_compatible s)).
  - intros t. by destruct (vp_decode s); [|intros [= <-]..].
Qed.

Lemma numbers_inj (o1 o2 : option Z) :
  (forall v, o1 = Some v -> is_u64 v = true) -> (forall v, o2 = Some v -> is_u64 v = true) ->
  decimal <$> o1 = decimal <$> o2 -> o1 = o2.
Proof.
  destruct o1 as [a|], o2 as [b|]; try done. cbn. intros Ha Hb [= E]. f_equal.
  apply decimal_inj; auto.
Qed.

Lemma texts_inj (f : bytes -> bytes) (o1 o2 : option bytes) :
  (forall t, o1 = Some t -> f t = t) -> (forall t, o2 = Some t -> f t = t) ->
  f <$> o1 = f <$> o2 -> o1 = o2.
Proof.
  destruct o1 as [a|], o2 as [b|]; try done. cbn. intros Ha Hb. by rewrite Ha, Hb.
Qed.

(** Settled settings with the same canonical text have the same parts. *)
Lemma settled_same_parts s1 s2 :
  settled s1 -> settled s2 -> canonical_form s1 = canonical_form s2 ->
  canonical_parts s1 = canonical_parts s2.
Proof.
  assert (Hp : forall s, settled s -> canonical_parts s = split_by (eqc ";") (canonical_form s)).
  { intros s Hs. symmetry. apply split_joined; [done|by apply settled_parts]. }
  intros H1 H2 E. by rewrite (Hp s1 H1), (Hp s2 H2), E.
Qed.

Lemma settled_numbers s1 s2 o1 o2 :
  settled s1 -> settled s2 ->
  o1 ∈ [vp_crf s1; vp_cq s1; vp_qp s1; vp_bitrate_kbps s1; vp_max_width s1; vp_max_height s1] ->
  o2 ∈ [vp_crf s2; vp_cq s2; vp_qp s2; vp_bitrate_kbps s2; vp_max_width s2; vp_max_height s2] ->
  decimal <$> o1 = decimal <$> o2 -> o1 = o2.
Proof.
  intros [_ n1 _ _ _] [_ n2 _ _ _] Ho1 Ho2. apply numbers_inj; intros v; [by apply n1|by apply n2].
Qed.

Lemma settled_texts s1 s2 (f : bytes -> bytes) o1 o2 :
  settled s1 -> settled s2 -> (forall t, kept t = true -> f t = t) ->
  o1 ∈ [vp_tune s1; vp_codec_profile s1; vp_codec_level s1; vp_pixel_format s1] ->
  o2 ∈ [vp_tune s2; vp_codec_profile s2; vp_codec_level s2; vp_pixel_format s2] ->
  f <$> o1 = f <$> o2 -> o1 = o2.
Proof.
  intros [_ _ _ t1 _] [_ _ _ t2 _] Hf Ho1 Ho2.
  apply texts_inj; intros t Eo; apply Hf; [by eapply t1|by eapply t2].
Qed.

Lemma kept_lower t : kept t = true -> lower_text t = t.
Proof. by intros (_ & -> & _)%kept_unsplit. Qed.
Lemma kept_lower_trim t : kept t = true -> lower_text (trim t) = t.
Proof. by intros (_ & Hl & ->)%kept_unsplit. Qed.

(** The identity separates inline profiles: two settings that pass the
    compiler and have the same canonical text, which is what the identity
    hashes, are the same worker profile with the same container, whatever the
    optional settings they spell out. *)
Theorem canonical_form_separates blake3_hex source1 sp1 codec1 settings1 source2 sp2 codec2 settings2 :
  validate_inline_video_profile source1 sp1 codec1 settings1 = [] ->
  validate_inline_video_profile source2 sp2 codec2 settings2 = [] ->
  let s1 := inline_settings_from settings1 in
  let s2 := inline_settings_from settings2 in
  canonical_form s1 = canonical_form s2 ->
  inline_to_worker_profile blake3_hex s1 = inline_to_worker_profile blake3_hex s2
  /\ default (lit "mkv") (vp_output_container s1) = default (lit "mkv") (vp_output_container s2).
Proof.
  intros H1%validated_settled H2%validated_settled s1 s2 E. fold s1 in H1. fold s2 in H2.
  pose proof (parts_fields s1) as F1. pose proof (parts_fields s2) as F2.
  rewrite (settled_same_parts s1 s2 H1 H2 E) in F1. cbn zeta in F1, F2.
  destruct F1 as (A1 & A2 & A3 & A4 & A5 & A6 & A7 & A8 & A9 & A10 & A11 & A12 & A13 & A14 & A15).
  destruct F2 as (B1 & B2 & B3 & B4 & B5 & B6 & B7 & B8 & B9 & B10 & B11 & B12 & B13 & B14 & B15).
  pose proof (settled_numbers s1 s2) as Hn. pose proof (settled_texts s1 s2) as Ht.
  assert (Eenc : vp_encoder s1 = vp_encoder s2).
  { rewrite <- (kept_lower _ (st_encoder _ H1)), <- (kept_lower _ (st_encoder _ H2)). congruence. }
  assert (Econ : default (lit "mkv") (vp_output_container s1) = default (lit "mkv") (vp_output_container s2)).
  { rewrite <- (kept_lower _ (container_kept _ (st_container _ H1))),
      <- (kept_lower _ (container_kept _ (st_container _ H2))). congruence. }
  assert (Epre : vp_preset s1 = vp_preset s2).
  { apply (texts_inj trim); [intros t Et; by apply (st_preset _ H1)| |congruence].
    intros t Et; by apply (st_preset _ H2). }
  assert (Ecopy : default false (vp_copy_compatible s1) = default false (vp_copy_compatible s2)).
  { rewrite A14 in B14. by destruct (default false (vp_copy_compatible s1)),
      (default false (vp_copy_compatible s2)). }
  assert (Edec : vp_decode s1 = vp_decode s2) by (rewrite A15 in B15; by destruct (vp_decode s1), (vp_decode s2)).
  split; [|done]. unfold inline_to_worker_profile, inline_profile_id. rewrite E, Eenc, Epre, Ecopy, Edec.
  rewrite (Hn (vp_crf s1) (vp_crf s2)), (Hn (vp_cq s1) (vp_cq s2)), (Hn (vp_qp s1) (vp_qp s2)),
    (Hn (vp_bitrate_kbps s1) (vp_bitrate_kbps s2)), (Hn (vp_max_width s1) (vp_max_width s2)),
    (Hn (vp_max_height s1) (vp_max_height s2)) by (done || member || congruence).
  rewrite (Ht lower_text (vp_tune s1) (vp_tune s2)),
    (Ht lower_text (vp_codec_profile s1) (vp_codec_profile s2)),
    (Ht (fun v => lower_text (trim v)) (vp_codec_level s1) (vp_codec_level s2)),
    (Ht lower_text (vp_pixel_format s1) (vp_pixel_format s2))
    by (done || member || congruence || apply kept_lower || apply kept_lower_trim).
  done.
Qed.
