(* ===== verification/PolicyValidate.v ===== *)
(** * The policy validator

    [voom-policy/src/compile/validate.rs] and [validate/operations.rs]. The
    validator pushes diagnostics in the order of its checks; a check here
    returns the diagnostics it pushes, and the tag effects of a phase are
    threaded through its operations. The slices of the source it takes are
    between spans of one tree, which are in range and in order for a parsed
    source ([PolicyTrees]). *)

From Stdlib Require Import ZArith Lia Bool String Ascii.
From stdpp Require Import base gmap strings list.
From S2P Require Import Prelude Bytes PolicySyntax TrackFilters Encoders PolicyCompiled.
From S2P Require Import PolicyConditions PolicyProfiles PolicyGraph.

Open Scope nat_scope.

(** [str::get(a..b)]: inside the text and between characters. *)
Definition str_get (text : bytes) (a b : nat) : option bytes :=
  if (a <=? b) && (b <=? length text) && is_char_boundary text a && is_char_boundary text b
  then Some (slice text a b) else None.

(** The tokens begin with these words: [tokens.get(0..n) == Some(&[..])]. *)
Definition tokens_start (ws : list string) (tokens : list bytes) : bool :=
  bool_decide (take (length ws) tokens = map lit ws).
Definition token_is (tokens : list bytes) (i : nat) (w : string) : bool :=
  match tokens !! i with Some t => eqb_text t (lit w) | None => false end.
Definition token_in (tokens : list bytes) (i : nat) (ws : list string) : bool :=
  match tokens !! i with Some t => one_of ws t | None => false end.

Definition AUDIO_CODECS : list string :=
  ["aac"; "opus"; "eac3"; "ac3"; "flac"; "alac"; "pcm_s16le"; "pcm_s24le"]%string.

Record TagEffects := { saw_set_tag : bool; set_tags : gset bytes; delete_tags : gset bytes }.
Definition TagEffects_default : TagEffects := {| saw_set_tag := false; set_tags := ∅; delete_tags := ∅ |}.
Definition add_set_tag (te : TagEffects) (key : bytes) : TagEffects :=
  {| saw_set_tag := true; set_tags := {[key]} ∪ set_tags te; delete_tags := delete_tags te |}.
Definition add_delete_tag (te : TagEffects) (key : bytes) : TagEffects :=
  {| saw_set_tag := saw_set_tag te; set_tags := set_tags te;
     delete_tags := {[key]} ∪ delete_tags te |}.

Section with_source.
Context (source : bytes).

Abbreviation Diags := (list PolicyDiagnostic).
Abbreviation Checked := (TagEffects * list PolicyDiagnostic)%type.

Abbreviation err := (make_error source).
Abbreviation err_if := (error_if source).
Definition unknown_operation_error (sp : SourceSpan) : PolicyDiagnostic :=
  err UnknownPhaseStatementOrOperation sp.

(** A diagnostic with the span it repeats. *)
Definition make_related_error (code : DiagnosticCode) (sp first : SourceSpan) : PolicyDiagnostic := {|
  d_code := code; d_severity := SeverityError; d_stage := StageValidate; d_span := sp;
  d_location := line_column source (start sp);
  d_related := [{| r_span := first; r_location := line_column source (start first) |}] |}.

(** ** Config and metadata *)

Fixpoint config_language_list_has_commas (values : list ExprAst) (list_span : SourceSpan) : bool :=
  match values with
  | a :: ((b :: _) as rest) =>
      starts_with (lit ",") (trim_start (slice source (stop (expr_span a)) (start (expr_span b))))
      && config_language_list_has_commas rest list_span
  | [last] =>
      negb (starts_with (lit ",") (trim_start (slice source (stop (expr_span last)) (stop list_span))))
  | [] => true
  end.

Definition validate_config_languages (s : SettingAst) : Diags :=
  match s_value s with
  | EList values sp =>
      err_if (negb (config_language_list_has_commas values sp)) InvalidLanguageCode sp
      ++ flat_map (fun v => match v with
                            | EString language =>
                                err_if (negb (is_canonical_language_code (value language)))
                                  InvalidLanguageCode (span language)
                            | _ => [err InvalidLanguageCode (expr_span v)]
                            end) values
  | v => [err InvalidLanguageCode (expr_span v)]
  end.

Definition validate_config_on_error (s : SettingAst) : Diags :=
  match s_value s with
  | EIdentifier v =>
      err_if (negb (one_of ["abort"; "continue"]%string (value v))) InvalidOnErrorValue (span v)
  | v => [err InvalidOnErrorValue (expr_span v)]
  end.

(** [insert] answers with the value it replaces, so the span related to a
    repetition is that of the previous setting with the key. *)
Fixpoint validate_settings (settings : list SettingAst) (first_by_key : gmap bytes SourceSpan) : Diags :=
  match settings with
  | [] => []
  | s :: settings' =>
      let key := value (s_key s) in
      let first_by_key' := <[key := span (s_key s)]> first_by_key in
      match first_by_key !! key with
      | Some first =>
          make_related_error DuplicateConfigSetting (span (s_key s)) first
          :: validate_settings settings' first_by_key'
      | None =>
          (if eqb_text key (lit "languages") then validate_config_languages s
           else if eqb_text key (lit "on_error") then validate_config_on_error s
           else [err UnknownTopLevelBlock (span (s_key s))])
          ++ validate_settings settings' first_by_key'
      end
  end.
Definition validate_config (ast : PolicyAst) : Diags := validate_settings (config ast) ∅.

Definition validate_required_tools_value (v : ExprAst) : Diags :=
  match v with
  | EList values _ =>
      flat_map (fun v => match v with
                         | EIdentifier tool =>
                             err_if (negb (one_of ["ffmpeg"; "ffprobe"; "mkvtoolnix"]%string (value tool)))
                               InvalidMetadataRequiresTools (span tool)
                         | _ => [err InvalidMetadataRequiresTools (expr_span v)]
                         end) values
  | v => [err InvalidMetadataRequiresTools (expr_span v)]
  end.
Fixpoint validate_metadata_from (settings : list SettingAst) (first_requires_tools : option SourceSpan) :
    Diags :=
  match settings with
  | [] => []
  | s :: settings' =>
      if negb (eqb_text (value (s_key s)) (lit "requires_tools")) then
        validate_metadata_from settings' first_requires_tools
      else
        match first_requires_tools with
        | Some first =>
            make_related_error InvalidMetadataRequiresTools (span (s_key s)) first
            :: validate_metadata_from settings' first_requires_tools
        | None =>
            validate_required_tools_value (s_value s)
            ++ validate_metadata_from settings' (Some (span (s_key s)))
        end
  end.
Definition validate_metadata (ast : PolicyAst) : Diags := validate_metadata_from (metadata ast) None.

(** ** Phases *)

Fixpoint validate_names (phases : list PhaseAst) (seen : gmap bytes SourceSpan) : Diags :=
  match phases with
  | [] => []
  | ph :: phases' =>
      let name := ph_name ph in
      match seen !! value name with
      | Some first => [make_related_error DuplicatePhaseName (span name) first]
      | None => []
      end ++ validate_names phases' (<[value name := span name]> seen)
  end.
Definition validate_phase_names (ast : PolicyAst) : Diags := validate_names (phases ast) ∅.

Definition validate_phase_reference (phase_name referenced : bytes) (phase_names : gset bytes)
    (sp : SourceSpan) : Diags :=
  if eqb_text referenced phase_name then [err SelfDependency sp]
  else err_if (negb (bool_decide (referenced ∈ phase_names))) UnknownPhaseReference sp.

Definition validate_run_if (ph : PhaseAst) (s : StatementAst) (phase_names : gset bytes) : Diags :=
  match words (statement_text s) with
  | [_; trigger; referenced] =>
      if one_of ["modified"; "completed"]%string trigger then
        validate_phase_reference (value (ph_name ph)) referenced phase_names (stmt_span s)
      else [err InvalidRunIfTrigger (stmt_span s)]
  | _ => [err InvalidRunIfTrigger (stmt_span s)]
  end.

Definition depends_on_text_checks (ph : PhaseAst) (s : StatementAst) (phase_names : gset bytes) : Diags :=
  let text := statement_text s in
  err_if (contains (lit "[") text
          && match text_after_list text with Some v => non_empty v | None => false end)
    UnknownPhaseStatementOrOperation (stmt_span s)
  ++ flat_map (fun dependency =>
       validate_phase_reference (value (ph_name ph)) dependency phase_names (stmt_span s))
     (dependency_values text).
Definition validate_control_references (ph : PhaseAst) (phase_names : gset bytes) (s : StatementAst) :
    Diags :=
  (if keyword_is "depends_on" s then depends_on_text_checks ph s phase_names else [])
  ++ (if keyword_is "run_if" s then validate_run_if ph s phase_names else []).

(** The dependencies of a phase, which the lowering collects the same way. *)
Definition phase_dependencies (controls : list StatementAst) : list bytes :=
  flat_map (fun s => dependency_values (statement_text s))
    (List.filter (keyword_is "depends_on") controls).
(** The map both passes build: the last phase of a name wins. *)
Definition dependency_graph (phases : list PhaseAst) : Graph :=
  fold_left (fun g ph => <[value (ph_name ph) := phase_dependencies (controls ph)]> g) phases ∅.

(** The error for the first phase from which a cycle is reached. *)
Fixpoint first_cycle (graph : Graph) (phases : list PhaseAst) : Diags :=
  match phases with
  | [] => []
  | ph :: phases' =>
      if has_cycle graph (value (ph_name ph)) then [err DependencyCycle (span (ph_name ph))]
      else first_cycle graph phases'
  end.
Definition validate_phase_dependencies (ast : PolicyAst) : Diags :=
  let phase_names : gset bytes := list_to_set (map (fun ph => value (ph_name ph)) (phases ast)) in
  flat_map (fun ph => flat_map (validate_control_references ph phase_names) (controls ph)) (phases ast)
  ++ first_cycle (dependency_graph (phases ast)) (phases ast).

Definition check_numeric_literals (s : StatementAst) (text : bytes) : Diags :=
  flat_map (fun token =>
    err_if (non_empty token && forallb is_ascii_digit token
            && match parse_u64 token with None => true | Some _ => false end)
      NumericLiteralOutOfRange (stmt_span s)) (words text).

(** ** Operations *)

Definition validate_container (s : StatementAst) (text : bytes) : Diags :=
  let tokens := words text in
  err_if (negb (token_is tokens 1 "mkv")) UnsupportedContainer (stmt_span s)
  ++ err_if (2 <? length tokens) UnknownPhaseStatementOrOperation (stmt_span s).

Fixpoint validate_filter_languages (s : StatementAst) (f : TrackFilter) : Diags :=
  match f with
  | FLanguageIn values =>
      flat_map (fun v => err_if (negb (is_canonical_language_code v)) InvalidLanguageCode (stmt_span s))
        values
  | FAnd fs | FOr fs => flat_map (validate_filter_languages s) fs
  | FNot inner => validate_filter_languages s inner
  | FCodecIn _ | FChannels _ _ | FCommentary | FForced | FDefault | FFont | FTitleContains _
  | FTitleMatches _ => []
  end.
Definition validate_filter (s : StatementAst) (text : bytes) : Diags :=
  match parse_track_filter text with
  | Err _ => [unknown_operation_error (stmt_span s)]
  | Ok f => validate_filter_languages s f
  end.
Definition validate_where_filter (s : StatementAst) (text : bytes) : Diags :=
  match split_once (lit " where ") text with
  | None => []
  | Some (_, filter) => validate_filter s (trim filter)
  end.

Definition validate_track_operation (s : StatementAst) (text : bytes) : Diags :=
  let tokens := words text in
  validate_track_target source (stmt_span s) (default [] (tokens !! 1))
  ++ validate_field_paths source (stmt_span s) text
  ++ (if contains (lit " where ") text then
        err_if (negb (token_is tokens 2 "where")) UnknownPhaseStatementOrOperation (stmt_span s)
      else err_if (2 <? length tokens) UnknownPhaseStatementOrOperation (stmt_span s))
  ++ validate_where_filter s text.

Definition order_list_text (text : bytes) : bytes :=
  match split_once (lit " where ") text with Some (before, _) => before | None => text end.
Definition validate_order (s : StatementAst) (text : bytes) : Diags :=
  if negb (token_is (words text) 1 "tracks") then [unknown_operation_error (stmt_span s)] else
  let has_where := contains (lit " where ") text in
  let list_text := order_list_text text in
  let targets := list_values list_text in
  err_if (bool_decide (targets = []) && negb has_where) InvalidTrackTarget (stmt_span s)
  ++ flat_map (validate_track_target source (stmt_span s)) targets
  ++ err_if (match text_after_list list_text with Some v => non_empty v | None => false end)
       UnknownPhaseStatementOrOperation (stmt_span s)
  ++ (if has_where then validate_where_filter s text else []).

Definition validate_defaults (s : StatementAst) (text : bytes) : Diags :=
  let tokens := words text in
  validate_track_target source (stmt_span s)
    (match tokens !! 1 with Some v => trim_end_by (eqc ":") v | None => [] end)
  ++ (if contains (lit " where ") text then validate_where_filter s text
      else err_if (negb (token_in tokens 2 ["first"; "best"; "none"; "preserve"]%string))
             InvalidDefaultStrategy (stmt_span s)
           ++ err_if (3 <? length tokens) UnknownPhaseStatementOrOperation (stmt_span s)).

Definition validate_actions (s : StatementAst) (text : bytes) : Diags :=
  let tokens := words text in
  validate_track_target source (stmt_span s) (default [] (tokens !! 1))
  ++ err_if (negb (token_is tokens 2 "clear")) UnknownPhaseStatementOrOperation (stmt_span s)
  ++ err_if (3 <? length tokens) UnknownPhaseStatementOrOperation (stmt_span s).

Definition published_on_error (text : bytes) : bool :=
  match strip_prefix (lit "on_error") text with
  | None => false
  | Some text =>
      match strip_prefix (lit ":") (trim_start_by is_ascii_whitespace text) with
      | None => false
      | Some text => one_of ["abort"; "continue"]%string (trim_by is_ascii_whitespace text)
      end
  end.
Definition validate_on_error (s : StatementAst) : Diags :=
  let sp := stmt_span s in
  err_if (negb (match str_get source (start sp) (stop sp) with
                | Some text => published_on_error text
                | None => false
                end)) InvalidOnErrorValue sp.

Definition validate_set_tag (s : StatementAst) (text : bytes) : option bytes * Diags :=
  match quoted_value text with
  | None => (None, [unknown_operation_error (stmt_span s)])
  | Some key =>
      (Some key,
       match text_after_quoted_value text with
       | None => [unknown_operation_error (stmt_span s)]
       | Some v =>
           if negb (non_empty v) then [unknown_operation_error (stmt_span s)]
           else err_if (negb (is_single_value v)) UnknownPhaseStatementOrOperation (stmt_span s)
       end ++ validate_field_paths source (stmt_span s) text)
  end.
Definition validate_delete_tag (s : StatementAst) (text : bytes) : option bytes * Diags :=
  (quoted_value text,
   match quoted_value text with
   | None => [unknown_operation_error (stmt_span s)]
   | Some _ =>
       err_if (match text_after_quoted_value text with Some v => non_empty v | None => false end)
         UnknownPhaseStatementOrOperation (stmt_span s)
   end).
Definition validate_clear_tags (s : StatementAst) (text : bytes) : Diags :=
  err_if (1 <? length (words text)) UnknownPhaseStatementOrOperation (stmt_span s).
Definition record_clear_tags (te : TagEffects) (sp : SourceSpan) : Diags :=
  err_if (saw_set_tag te) TagOrderingError sp.

Definition validate_audio_compatibility_statement (s : StatementAst) : Diags :=
  let tokens := words (statement_text s) in
  err_if (negb (bool_decide (tokens = map lit ["ensure"; "audio"; "compatibility"]%string)
                || bool_decide (tokens = map lit ["place"; "audio"; "compatibility"]%string))
          || negb (match s with Raw _ _ _ => true | _ => false end))
    UnknownPhaseStatementOrOperation (stmt_span s).

Definition transcode_target_codec (s : StatementAst) (tokens : list bytes) : option bytes * Diags :=
  match tokens !! 3 with
  | Some codec =>
      if one_of ["h264"; "hevc"; "av1"]%string codec then (Some codec, [])
      else (None, [err UnsupportedTranscodeShape (stmt_span s)])
  | None => (None, [err UnsupportedTranscodeShape (stmt_span s)])
  end.
Definition validate_transcode_video_header (s : StatementAst) (tokens : list bytes) : Diags :=
  let '(codec, e) := transcode_target_codec s tokens in
  e ++ match codec with
       | None => []
       | Some _ =>
           match drop 4 tokens with
           | [] => []
           | [u; p; _] =>
               err_if (negb (eqb_text u (lit "using") && eqb_text p (lit "profile")))
                 UnsupportedTranscodeShape (stmt_span s)
           | _ => [err UnsupportedTranscodeShape (stmt_span s)]
           end
       end.

Definition validate_optional_track_filter (s : StatementAst) (text : bytes) (where_index : nat) : Diags :=
  let tokens := words text in
  if negb (contains (lit " where ") text) then
    err_if (where_index <? length tokens) UnknownPhaseStatementOrOperation (stmt_span s)
  else if negb (token_is tokens where_index "where") then [unknown_operation_error (stmt_span s)]
  else match split_once (lit " where ") text with
       | None => [unknown_operation_error (stmt_span s)]
       | Some (_, filter) => validate_filter s (trim filter)
       end.

Definition validate_transcode_header (s : StatementAst) (text : bytes) : Diags :=
  let tokens := words text in
  if tokens_start ["transcode"; "video"]%string tokens then validate_transcode_video_header s tokens
  else if tokens_start ["transcode"; "audio"; "to"]%string tokens && token_in tokens 3 AUDIO_CODECS then
    validate_optional_track_filter s text 4
  else [err UnsupportedTranscodeShape (stmt_span s)].
Definition validate_transcode_statement (s : StatementAst) : Diags :=
  match s with
  | Raw _ text _ => validate_transcode_header s text
  | TranscodeInline _ header settings _ =>
      if contains (lit "using profile") header then [err UnsupportedTranscodeShape (stmt_span s)] else
      let '(codec, e) := transcode_target_codec s (words header) in
      e ++ match codec with
           | None => []
           | Some codec => validate_inline_video_profile source (stmt_span s) codec settings
           end
  | Block _ _ _ _ | SynthesizeInline _ _ _ _ => [err UnsupportedTranscodeShape (stmt_span s)]
  end.

Definition validate_extract_statement (s : StatementAst) : Diags :=
  let text := statement_text s in
  if tokens_start ["extract"; "audio"]%string (words text) then validate_optional_track_filter s text 2
  else [unknown_operation_error (stmt_span s)].

Definition validate_verify_statement (s : StatementAst) : Diags :=
  let tokens := words (statement_text s) in
  if negb (token_is tokens 1 "artifact") then [unknown_operation_error (stmt_span s)]
  else err_if (2 <? length tokens) UnknownPhaseStatementOrOperation (stmt_span s).

Definition validate_synthesize_header (s : StatementAst) (header : bytes) : Diags :=
  if negb (tokens_start ["synthesize"; "audio"; "from"]%string (words header)) then
    [unknown_operation_error (stmt_span s)]
  else match split_once (lit " from ") header with
       | None => [unknown_operation_error (stmt_span s)]
       | Some (_, filter) =>
           let filter := trim filter in
           if negb (non_empty filter) then [unknown_operation_error (stmt_span s)]
           else validate_filter s filter
       end.
Definition validate_synthesize_codec (sp : SourceSpan) (codec : option ExprAst) : Diags :=
  match codec with
  | None => [unknown_operation_error sp]
  | Some e =>
      err_if (negb (one_of AUDIO_CODECS (match e with EIdentifier v | EString v => value v | _ => [] end)))
        UnknownPhaseStatementOrOperation sp
  end.
Definition validate_synthesize_channels (sp : SourceSpan) (channels : option ExprAst) : Diags :=
  match channels with
  | None => [unknown_operation_error sp]
  | Some e =>
      err_if (negb (match e with
                    | ENumber v => match parse_u64 (value v) with Some n => (0 <? n)%Z | None => false end
                    | _ => false
                    end)) UnknownPhaseStatementOrOperation sp
  end.
(** The loop of [validate_synthesize_body], with the settings found so far. *)
Fixpoint synthesize_settings (sp : SourceSpan) (settings : list SettingAst) (seen : gset bytes)
    (codec channels : option ExprAst) : Diags :=
  match settings with
  | [] => validate_synthesize_codec sp codec ++ validate_synthesize_channels sp channels
  | s :: settings' =>
      let key := value (s_key s) in
      let seen' := {[key]} ∪ seen in
      if bool_decide (key ∈ seen) then
        unknown_operation_error sp :: synthesize_settings sp settings' seen' codec channels
      else if eqb_text key (lit "codec") then
        synthesize_settings sp settings' seen' (Some (s_value s)) channels
      else if eqb_text key (lit "channels") then
        synthesize_settings sp settings' seen' codec (Some (s_value s))
      else unknown_operation_error sp :: synthesize_settings sp settings' seen' codec channels
  end.
Definition validate_synthesize_body (s : StatementAst) (settings : list SettingAst) : Diags :=
  synthesize_settings (stmt_span s) settings ∅ None None.
Definition validate_synthesize_statement (s : StatementAst) : Diags :=
  match s with
  | SynthesizeInline _ header settings _ =>
      validate_synthesize_header s header ++ validate_synthesize_body s settings
  | _ => [unknown_operation_error (stmt_span s)]
  end.

(** ** Statements *)

(** [for x in xs { check(x, tag_effects) }]. *)
Definition check_each {A} (check : A -> TagEffects -> Checked) :=
  fix go (l : list A) (te : TagEffects) : Checked :=
    match l with
    | [] => (te, [])
    | x :: l' => let '(te, ds) := check x te in let '(te, ds') := go l' te in (te, ds ++ ds')
    end.
(** A check that leaves the tag effects alone. *)
Definition pure_check (ds : Diags) (te : TagEffects) : Checked := (te, ds).

(** The operations that are the same at the top of a phase and nested. *)
Definition validate_tag_operation (s : StatementAst) (te : TagEffects) : Checked :=
  let text := statement_text s in
  if keyword_is "actions" s then pure_check (validate_actions s text) te
  else if keyword_is "set_tag" s then
    let '(key, ds) := validate_set_tag s text in
    (match key with Some key => add_set_tag te key | None => te end, ds)
  else if keyword_is "delete_tag" s then
    let '(key, ds) := validate_delete_tag s text in
    (match key with Some key => add_delete_tag te key | None => te end, ds)
  else (te, validate_clear_tags s text ++ record_clear_tags te (stmt_span s)).

Definition validate_condition (nested : StatementAst -> TagEffects -> Checked) (s : StatementAst)
    (text : bytes) (te : TagEffects) : Checked :=
  let ds := validate_condition_expression source (stmt_span s)
              (trim (trim_start_matches (lit "when") text)) in
  match s with
  | Block _ _ statements _ =>
      let '(te, ds') := check_each nested statements te in (te, ds ++ ds')
  | _ => (te, ds)
  end.

Fixpoint validate_nested_operation (s : StatementAst) (te : TagEffects) {struct s} : Checked :=
  let text := statement_text s in
  if keyword_is "container" s then pure_check (validate_container s text) te
  else if keyword_is "keep" s || keyword_is "remove" s then
    pure_check (validate_track_operation s text) te
  else if keyword_is "order" s then pure_check (validate_order s text) te
  else if keyword_is "defaults" s then pure_check (validate_defaults s text) te
  else if keyword_is "actions" s || keyword_is "clear_tags" s || keyword_is "set_tag" s
          || keyword_is "delete_tag" s then validate_tag_operation s te
  else if keyword_is "when" s then validate_condition validate_nested_operation s text te
  else if keyword_is "transcode" s then pure_check (validate_transcode_statement s) te
  else if keyword_is "extract" s then pure_check (validate_extract_statement s) te
  else if keyword_is "verify" s then pure_check (validate_verify_statement s) te
  else if keyword_is "synthesize" s then pure_check (validate_synthesize_statement s) te
  else if keyword_is "ensure" s || keyword_is "place" s then
    pure_check (validate_audio_compatibility_statement s) te
  else pure_check [unknown_operation_error (stmt_span s)] te.

Definition validate_rule (rule : StatementAst) (te : TagEffects) : Checked :=
  if negb (keyword_is "rule" rule) then (te, [unknown_operation_error (stmt_span rule)]) else
  match rule with
  | Block _ (Some header) statements _ =>
      match rule_header (value header) with
      | None => (te, [unknown_operation_error (stmt_span rule)])
      | Some (_, condition) =>
          let '(te, ds) := check_each validate_nested_operation statements te in
          (te, validate_condition_expression source (stmt_span rule) condition ++ ds)
      end
  | _ => (te, [unknown_operation_error (stmt_span rule)])
  end.
Definition validate_rules (s : StatementAst) (text : bytes) (te : TagEffects) : Checked :=
  let tokens := words text in
  let ds := err_if (negb (token_in tokens 1 ["first"; "all"]%string)) InvalidRuleMatchMode (stmt_span s)
            ++ err_if (2 <? length tokens) UnknownPhaseStatementOrOperation (stmt_span s) in
  match s with
  | Block _ _ statements _ => let '(te, ds') := check_each validate_rule statements te in (te, ds ++ ds')
  | _ => (te, ds)
  end.

Definition validate_skip_condition (s : StatementAst) (text : bytes) : Diags :=
  validate_condition_expression source (stmt_span s)
    (trim (trim_start_matches (lit "when") (trim (trim_start_matches (lit "skip") text)))).

Definition validate_control (s : StatementAst) : Diags :=
  let text := statement_text s in
  check_numeric_literals s text
  ++ (if keyword_is "depends_on" s || keyword_is "run_if" s then []
      else if keyword_is "skip" s then validate_skip_condition s text
      else if keyword_is "on_error" s then validate_on_error s
      else [unknown_operation_error (stmt_span s)]).

(** One round of the loop over the operations of a phase. *)
Definition validate_operation (s : StatementAst) (te : TagEffects) : Checked :=
  let text := statement_text s in
  let '(te', ds) :=
    if keyword_is "container" s then pure_check (validate_container s text) te
    else if keyword_is "keep" s || keyword_is "remove" s then
      pure_check (validate_track_operation s text) te
    else if keyword_is "order" s then pure_check (validate_order s text) te
    else if keyword_is "defaults" s then pure_check (validate_defaults s text) te
    else if keyword_is "actions" s || keyword_is "clear_tags" s || keyword_is "set_tag" s
            || keyword_is "delete_tag" s then validate_tag_operation s te
    else if keyword_is "when" s then validate_condition validate_nested_operation s text te
    else if keyword_is "rules" s then validate_rules s text te
    else if keyword_is "extend" s then pure_check [err DeferredPhaseInheritance (stmt_span s)] te
    else if keyword_is "transcode" s then pure_check (validate_transcode_statement s) te
    else if keyword_is "extract" s then pure_check (validate_extract_statement s) te
    else if keyword_is "verify" s then pure_check (validate_verify_statement s) te
    else if keyword_is "synthesize" s then pure_check (validate_synthesize_statement s) te
    else if keyword_is "ensure" s || keyword_is "place" s then
      pure_check (validate_audio_compatibility_statement s) te
    else pure_check [unknown_operation_error (stmt_span s)] te in
  (te', check_numeric_literals s text ++ ds).

(** One error per conflicting tag; the order of the tags only shows in the
    messages. *)
Definition validate_phase (ph : PhaseAst) : Diags :=
  let '(te, ds) := check_each validate_operation (operations ph) TagEffects_default in
  flat_map validate_control (controls ph) ++ ds
  ++ map (fun _ => err AmbiguousTagOperationConflict (span (ph_name ph)))
       (elements (set_tags te ∩ delete_tags te)).

(** ** The policy *)

Definition validate_policy_ast (ast : PolicyAst) : Diags :=
  err_if (negb (non_empty (trim (value (p_name ast))))) UnexpectedToken (span (p_name ast))
  ++ err_if (1048576 <? Z.of_nat (length source))%Z SourceSizeExceeded (span_new 0 (length source))
  ++ err_if (bool_decide (phases ast = [])) UnexpectedToken (span (p_name ast))
  ++ match extends ast with Some parent => [err DeferredComposition (span parent)] | None => [] end
  ++ map (fun s => err UnknownTopLevelBlock (stmt_span s)) (unknown_top_level ast)
  ++ validate_config ast ++ validate_metadata ast ++ validate_phase_names ast
  ++ validate_phase_dependencies ast
  ++ flat_map validate_phase (phases ast).
End with_source.
