(* ===== verification/PolicyLower.v ===== *)
(** * Lowering policies

    [voom-policy/src/compile/lower]: operations ([operations.rs]), phases and
    settings ([phases.rs]) and the compiled policy ([mod.rs]); with the
    pipeline of [pipeline.rs] that parses, validates and lowers a source.

    A lowering stops with the diagnostics of the code, or with [Endless] when
    the lowering of a condition does not come to an end. *)

From Stdlib Require Import ZArith Lia Bool String Ascii.
From stdpp Require Import base gmap strings list.
From S2P Require Import Prelude Vocab Json Bytes PolicySyntax PolicyParser TrackFilters.
From S2P Require Import PolicyCompiled.
From S2P Require Import PolicyConditions PolicyProfiles PolicyGraph PolicyValidate.

Open Scope nat_scope.

Inductive LowerStop := Refused (diagnostics : list PolicyDiagnostic) | Endless.
Abbreviation LR := (result LowerStop).

Definition default_strategy (token : option bytes) : option DefaultStrategy :=
  token ← token;
  if one_of ["first"]%string token then Some DFirst
  else if one_of ["best"]%string token then Some DBest
  else if one_of ["none"]%string token then Some DNone
  else if one_of ["preserve"]%string token then Some DPreserve
  else None.
Definition rule_match_mode (token : option bytes) : option RuleMatchMode :=
  token ← token;
  if one_of ["first"]%string token then Some MFirst
  else if one_of ["all"]%string token then Some MAll
  else None.
Definition token_string (tokens : list bytes) (index : nat) (fallback : string) : bytes :=
  default (lit fallback) (tokens !! index).
Definition error_strategy (token : option bytes) : option ErrorStrategy :=
  token ← token;
  if one_of ["abort"]%string token then Some Abort
  else if one_of ["continue"]%string token then Some Continue
  else None.

Section with_source.
Context (source : bytes).

(** [unknown_operation] and [validated_filter_error] differ in their text. *)
Definition unknown_operation (sp : SourceSpan) : LowerStop :=
  Refused [PolicyDiagnostic_error UnknownPhaseStatementOrOperation StageCompile sp
             (line_column source (start sp))].
Definition validated_filter_error (sp : SourceSpan) : LowerStop :=
  Refused [PolicyDiagnostic_error UnknownPhaseStatementOrOperation StageCompile sp
             (line_column source (start sp))].

Definition lower_condition (text : bytes) : LR CompiledCondition :=
  ok_or (condition_from_text text) Endless.

(** ** Operations *)

Definition lower_optional_filter (s : StatementAst) (text : bytes) : LR (option TrackFilter) :=
  match parse_optional_filter text with
  | Ok f => Ok f
  | Err _ => Err (validated_filter_error (stmt_span s))
  end.

Definition lower_track_operation (s : StatementAst) (text : bytes) (tokens : list bytes) :
    LR CompiledOperation :=
  let target := default Audio (track_target (tokens !! 1)) in
  let keyword := default [] (tokens !! 0) in
  if eqb_text keyword (lit "keep") then
    (f ← lower_optional_filter s text; Ok (KeepTracks target f))
  else if eqb_text keyword (lit "remove") then
    (f ← lower_optional_filter s text; Ok (RemoveTracks target f))
  else if eqb_text keyword (lit "order") && token_is tokens 1 "tracks" then
    (f ← lower_optional_filter s text;
     Ok (ReorderTracks (omap (fun t => track_target (Some t)) (list_values (order_list_text text))) f))
  else if eqb_text keyword (lit "defaults") then
    (f ← lower_optional_filter s text;
     Ok (SetDefaults target
           (match f with
            | Some _ => DPreserve
            | None => default DFirst (default_strategy (tokens !! 2))
            end) f))
  else Err (unknown_operation (stmt_span s)).

Definition lower_tag_operation (s : StatementAst) (text : bytes) (tokens : list bytes) :
    LR CompiledOperation :=
  let keyword := default [] (tokens !! 0) in
  if eqb_text keyword (lit "actions") && token_is tokens 2 "clear" then
    Ok (ClearTrackActions (default Audio (track_target (tokens !! 1))))
  else if eqb_text keyword (lit "clear_tags") then Ok ClearTags
  else if eqb_text keyword (lit "set_tag") then
    Ok (SetTag (default [] (quoted_value text))
          (compiled_value (default [] (text_after_quoted_value text))))
  else if eqb_text keyword (lit "delete_tag") then Ok (DeleteTag (default [] (quoted_value text)))
  else Err (unknown_operation (stmt_span s)).

Definition lower_transcode_raw (tokens : list bytes) : CompiledOperation :=
  let codec := token_string tokens 3 "hevc" in
  let profile :=
    match drop 4 tokens with
    | [u; p; name] =>
        if eqb_text u (lit "using") && eqb_text p (lit "profile") then Named (strip_quotes name)
        else Named (lit "default-" ++ codec)
    | _ => Named (lit "default-" ++ codec)
    end in
  TranscodeVideo codec (lit "mkv") profile None.
Definition lower_transcode_inline (header : bytes) (settings : list SettingAst) : CompiledOperation :=
  let inline := inline_settings_from settings in
  TranscodeVideo (token_string (words header) 3 "hevc")
    (default (lit "mkv") (vp_output_container inline)) (Inline inline) None.

Definition lower_media_operation (s : StatementAst) (text : bytes) (tokens : list bytes) :
    LR CompiledOperation :=
  let keyword := default [] (tokens !! 0) in
  if eqb_text keyword (lit "transcode") && token_is tokens 1 "audio" then
    (f ← lower_optional_filter s text;
     Ok (TranscodeAudio (token_string tokens 3 "opus") (lit "mkv") f))
  else if eqb_text keyword (lit "transcode") then Ok (lower_transcode_raw tokens)
  else if eqb_text keyword (lit "extract") && token_is tokens 1 "audio" then
    (f ← lower_optional_filter s text; Ok (ExtractAudio (lit "opus") (lit "ogg") f))
  else if eqb_text keyword (lit "verify") && token_is tokens 1 "artifact" then Ok VerifyArtifact
  else Err (unknown_operation (stmt_span s)).

(** The last setting of a key wins; a channel count that is not a number is
    passed over. *)
Definition synthesize_codec (settings : list SettingAst) : bytes :=
  fold_left (fun codec s =>
    if eqb_text (value (s_key s)) (lit "codec") then expr_scalar_string (s_value s) else codec)
    settings (lit "aac").
Definition synthesize_channels (settings : list SettingAst) : Z :=
  fold_left (fun channels s =>
    if eqb_text (value (s_key s)) (lit "channels") then
      default channels (parse_u64 (expr_scalar_string (s_value s)))
    else channels) settings 2%Z.
Definition lower_synthesize (s : StatementAst) (header : bytes) (settings : list SettingAst) :
    LR CompiledOperation :=
  match split_once (lit " from ") header with
  | None => Err (validated_filter_error (stmt_span s))
  | Some (_, filter) =>
      match parse_required_filter filter with
      | Err _ => Err (validated_filter_error (stmt_span s))
      | Ok f => Ok (SynthesizeAudio (synthesize_codec settings) (lit "mkv")
                      (synthesize_channels settings) (Some f))
      end
  end.

Section nested.
Context (lower : StatementAst -> LR CompiledOperation).

Definition lower_rule (rule : StatementAst) :
    LR (bytes * option CompiledCondition * list CompiledOperation) :=
  match rule with
  | Block _ (Some header) statements _ =>
      match rule_header (value header) with
      | None => Err (unknown_operation (stmt_span rule))
      | Some (name, condition) =>
          c ← lower_condition condition;
          ops ← collect lower statements;
          Ok (name, Some c, ops)
      end
  | _ => Err (unknown_operation (stmt_span rule))
  end.
Definition lower_rules (s : StatementAst) :
    LR (list (bytes * option CompiledCondition * list CompiledOperation)) :=
  match s with
  | Block _ _ statements _ => collect lower_rule statements
  | _ => Ok []
  end.

Definition lower_control_operation (s : StatementAst) (text : bytes) (tokens : list bytes) :
    LR CompiledOperation :=
  let keyword := default [] (tokens !! 0) in
  if eqb_text keyword (lit "when") then
    c ← lower_condition (trim (trim_start_matches (lit "when") text));
    ops ← match s with Block _ _ statements _ => collect lower statements | _ => Ok [] end;
    Ok (Conditional c ops)
  else if eqb_text keyword (lit "rules") then
    rules ← lower_rules s;
    Ok (Rules (default MFirst (rule_match_mode (tokens !! 1))) rules)
  else Err (unknown_operation (stmt_span s)).

Definition lower_text_operation (s : StatementAst) (text : bytes) (tokens : list bytes) :
    LR CompiledOperation :=
  match tokens with
  | [] => Err (unknown_operation (stmt_span s))
  | keyword :: _ =>
      if one_of ["container"]%string keyword then Ok (SetContainer (token_string tokens 1 "mkv"))
      else if one_of ["keep"; "remove"; "order"; "defaults"]%string keyword then
        lower_track_operation s text tokens
      else if one_of ["actions"; "clear_tags"; "set_tag"; "delete_tag"]%string keyword then
        lower_tag_operation s text tokens
      else if one_of ["transcode"; "extract"; "verify"]%string keyword then
        lower_media_operation s text tokens
      else if bool_decide (tokens = map lit ["ensure"; "audio"; "compatibility"]%string) then
        Ok EnsureAudioCompatibility
      else if bool_decide (tokens = map lit ["place"; "audio"; "compatibility"]%string) then
        Ok PlaceAudioCompatibility
      else if one_of ["when"; "rules"]%string keyword then lower_control_operation s text tokens
      else Err (unknown_operation (stmt_span s))
  end.
End nested.

Fixpoint lower_operation (s : StatementAst) : LR CompiledOperation :=
  match s with
  | TranscodeInline _ header settings _ => Ok (lower_transcode_inline header settings)
  | SynthesizeInline _ header settings _ => lower_synthesize s header settings
  | Raw _ _ _ | Block _ _ _ _ =>
      let text := statement_text s in lower_text_operation lower_operation s text (words text)
  end.
Definition lower_operations (statements : list StatementAst) : LR (list CompiledOperation) :=
  collect lower_operation statements.

(** ** Phases and settings *)

Fixpoint expr_json (e : ExprAst) : Json :=
  match e with
  | EString v | EIdentifier v | ENumber v | EFieldPath v => JStr (string_of_list_ascii (value v))
  | EBoolean v => JBool (value v)
  | EList values _ => JArr (map expr_json values)
  end.
Definition metadata_map (settings : list SettingAst) : gmap bytes Json :=
  fold_left (fun m s => <[value (s_key s) := expr_json (s_value s)]> m) settings ∅.

Definition config_step (c : CompiledConfig) (s : SettingAst) : CompiledConfig :=
  match s_value s with
  | EList values _ =>
      if eqb_text (value (s_key s)) (lit "languages") then
        {| languages := omap (fun v => match v with EString v => Some (value v) | _ => None end) values;
           cfg_on_error := cfg_on_error c |}
      else c
  | EIdentifier v =>
      if eqb_text (value (s_key s)) (lit "on_error") then
        {| languages := languages c; cfg_on_error := error_strategy (Some (value v)) |}
      else c
  | _ => c
  end.
Definition compiled_config (settings : list SettingAst) : CompiledConfig :=
  fold_left config_step settings CompiledConfig_default.

Definition phase_order (ast : PolicyAst) : list bytes :=
  order_phases (dependency_graph (phases ast)) (map (fun ph => value (ph_name ph)) (phases ast)) ∅ [].

Definition gate_error (code : DiagnosticCode) (s : StatementAst) : LowerStop :=
  Refused [PolicyDiagnostic_error code StageCompile (stmt_span s)
             (line_column source (start (stmt_span s)))].
Definition phase_run_if (ph : PhaseAst) (order : list bytes) : LR (option CompiledRunIf) :=
  match List.find (keyword_is "run_if") (controls ph) with
  | None => Ok None
  | Some control =>
      let name := trim (trim_start_matches (lit "run_if") (statement_text control)) in
      gate ← ok_or (CompiledRunIf_parse name) (gate_error InvalidRunIfTrigger control);
      match position (eqb_text (gate_phase gate)) order,
            position (eqb_text (value (ph_name ph))) order with
      | Some referenced, Some current =>
          if current <=? referenced then Err (gate_error UnknownPhaseReference control)
          else Ok (Some gate)
      | _, _ => Err (gate_error UnknownPhaseReference control)
      end
  end.

Definition phase_skip_if (controls : list StatementAst) : LR (option CompiledCondition) :=
  match List.find (keyword_is "skip") controls with
  | None => Ok None
  | Some control =>
      let text := statement_text control in
      let condition := trim (default text (strip_prefix (lit "skip") text)) in
      let condition := trim (default condition (strip_prefix (lit "when") condition)) in
      c ← lower_condition condition; Ok (Some c)
  end.
Definition phase_on_error (controls : list StatementAst) : option ErrorStrategy :=
  control ← List.find (keyword_is "on_error") controls;
  error_strategy (setting_value (statement_text control)).

Definition lower_phase (order : list bytes) (ph : PhaseAst) : LR CompiledPhase :=
  run_if ← phase_run_if ph order;
  skip_if ← phase_skip_if (controls ph);
  ops ← lower_operations (operations ph);
  Ok {| cp_name := value (ph_name ph); depends_on := phase_dependencies (controls ph);
        run_if := run_if; skip_if := skip_if; on_error := phase_on_error (controls ph);
        cp_operations := ops |}.
Definition lower_phases (ast : PolicyAst) (order : list bytes) : LR (list CompiledPhase) :=
  collect (lower_phase order) (phases ast).
End with_source.

(** ** The pipeline *)

Record CompileOutput := { co_policy : CompiledPolicy; co_diagnostics : list PolicyDiagnostic }.
Record PolicyCompileError := { ce_error : VoomError; ce_diagnostics : list PolicyDiagnostic }.
(** A compilation answers, or does not end. *)
Inductive CompileStop := CompileFailed (e : PolicyCompileError) | CompileEndless.

Section pipeline.
(** [source_hash] is the hex of the BLAKE3 hash of the source. *)
Context (source_hash : bytes -> bytes).

Definition compile_ast (source : bytes) (ast : PolicyAst) (warnings : list PolicyDiagnostic) :
    LR CompiledPolicy :=
  let order := phase_order ast in
  compiled ← lower_phases source ast order;
  Ok (apply_execution_defaults {|
    policy_name := value (p_name ast); policy_slug := slug (value (p_name ast));
    PolicyCompiled.source_hash := source_hash source; schema_version := 2;
    cp_metadata := metadata_map (metadata ast); cp_config := compiled_config (config ast);
    cp_phases := compiled; cp_phase_order := order; warnings := warnings |}).

Definition parse_policy_text (source : bytes) : result PolicyCompileError PolicyAst :=
  match parse_policy_source source with
  | Ok ast => Ok ast
  | Err (Rejected e) => Err {| ce_error := EPolicyParseError; ce_diagnostics := diagnostics e |}
  | Err OutOfFuel => Err {| ce_error := EPolicyParseError; ce_diagnostics := [] |}
  end.
Definition validation_error (ds : list PolicyDiagnostic) : PolicyCompileError :=
  {| ce_error := EPolicyValidationError; ce_diagnostics := ds |}.

Definition validate_policy (source : bytes) : result PolicyCompileError (list PolicyDiagnostic) :=
  ast ← parse_policy_text source;
  let ds := validate_policy_ast source ast in
  if has_errors ds then Err (validation_error ds) else Ok ds.

Definition compile_policy (source : bytes) : result CompileStop CompileOutput :=
  match parse_policy_text source with
  | Err e => Err (CompileFailed e)
  | Ok ast =>
      let ds := validate_policy_ast source ast in
      if has_errors ds then Err (CompileFailed (validation_error ds)) else
      let warnings := List.filter (fun d => bool_decide (d_severity d = SeverityWarning)) ds in
      match compile_ast source ast warnings with
      | Ok policy => Ok {| co_policy := policy; co_diagnostics := ds |}
      | Err (Refused ds) => Err (CompileFailed (validation_error ds))
      | Err Endless => Err CompileEndless
      end
  end.
End pipeline.
