(* ===== verification/PolicyCompile.v ===== *)
(** * What a compiled policy satisfies

    The theorems on the whole compiler: the phases of a compiled policy are
    ordered by their dependencies, its settings are the published ones, the
    validator reports exactly the cyclic dependency graphs, and what can still
    fail after a clean validation is listed. *)

From Stdlib Require Import ZArith Lia Bool String Ascii.
From stdpp Require Import base gmap strings list relations.
From S2P Require Import Prelude Vocab Json Bytes PolicySyntax PolicyParser TrackFilters.
From S2P Require Import PolicyCompiled.
From S2P Require Import PolicyConditions PolicyProfiles PolicyGraph PolicyValidate PolicyLower.

Open Scope nat_scope.

(** ** Diagnostics without errors *)

Abbreviation clean ds := (has_errors ds = false).

Lemma clean_app a b : clean (a ++ b) <-> clean a /\ clean b.
Proof. unfold has_errors. rewrite existsb_app. apply orb_false_iff. Qed.

Lemma clean_cons d ds : clean (d :: ds) <-> is_error d = false /\ clean ds.
Proof. apply orb_false_iff. Qed.

Lemma clean_flat_map {A} (f : A -> list PolicyDiagnostic) l :
  clean (flat_map f l) <-> Forall (fun x => clean (f x)) l.
Proof.
  induction l as [|x l IH]; cbn [flat_map]; [by split|]. rewrite clean_app, IH.
  by rewrite Forall_cons.
Qed.

Lemma clean_if source b code sp : clean (error_if source b code sp) <-> b = false.
Proof. by destruct b. Qed.

(** Reports that are all errors are clean only when there are none. *)
Lemma errors_clean ds : Forall (fun d => is_error d = true) ds -> clean ds -> ds = [].
Proof.
  intros [|d ds' Hd _]; [done|]. rewrite clean_cons. intros [? _]. congruence.
Qed.

Create Rewrite HintDb clean.
#[export] Hint Rewrite clean_app clean_cons @clean_flat_map clean_if negb_false_iff : clean.
Ltac clean_inv H := autorewrite with clean in H.

Lemma check_each_clean {A} (check : A -> TagEffects -> TagEffects * list PolicyDiagnostic) l te :
  clean (snd (check_each check l te)) -> Forall (fun x => exists te, clean (snd (check x te))) l.
Proof.
  revert te. induction l as [|x l IH]; intros te; [constructor|]. cbn [check_each].
  destruct (check x te) as [te1 ds1] eqn:E. specialize (IH te1).
  destruct (check_each check l te1) as [te2 ds2]. cbn [snd] in *. rewrite clean_app.
  intros [H1 H2]. constructor; [exists te; by rewrite E|auto].
Qed.

(** ** The phase graph *)

Section graph.
Context (source : bytes).

Definition phase_names (phs : list PhaseAst) : list bytes := map (fun ph => value (ph_name ph)) phs.

Lemma graph_dom phs name : is_Some (dependency_graph phs !! name) <-> name ∈ phase_names phs.
Proof.
  unfold dependency_graph.
  assert (H : forall g : Graph, is_Some (fold_left (fun g ph =>
    <[value (ph_name ph) := phase_dependencies (controls ph)]> g) phs g !! name)
    <-> is_Some (g !! name) \/ name ∈ phase_names phs).
  { induction phs as [|ph phs IH]; intros g; cbn [fold_left phase_names map].
    - rewrite elem_of_nil. tauto.
    - rewrite IH, elem_of_cons. destruct (decide (value (ph_name ph) = name)) as [<-|Hne].
      + rewrite lookup_insert_eq. split; [auto|]. intros _. left. by eexists.
      + rewrite lookup_insert_ne by done. naive_solver. }
  rewrite H, lookup_empty. split; [by intros [[? ?]|?]|auto].
Qed.

Lemma graph_lookup phs ph :
  NoDup (phase_names phs) -> ph ∈ phs ->
  dependency_graph phs !! value (ph_name ph) = Some (phase_dependencies (controls ph)).
Proof.
  unfold dependency_graph. intros Hnd Hin.
  assert (Hkeep : forall phs' (g : Graph), value (ph_name ph) ∉ phase_names phs' ->
    fold_left (fun g ph => <[value (ph_name ph) := phase_dependencies (controls ph)]> g) phs' g
      !! value (ph_name ph) = g !! value (ph_name ph)).
  { induction phs' as [|ph' phs' IH]; intros g Hno; [done|]. cbn in *. rewrite not_elem_of_cons in Hno.
    destruct Hno as [Hne Hno]. rewrite (IH _ Hno). by rewrite lookup_insert_ne. }
  generalize (∅ : Graph). induction phs as [|ph' phs IH]; intros g; [by apply elem_of_nil in Hin|].
  cbn in Hnd |- *. apply NoDup_cons in Hnd as [Hno Hnd].
  apply elem_of_cons in Hin as [->|Hin]; [|by apply IH].
  rewrite Hkeep by done. by rewrite lookup_insert_eq.
Qed.

Lemma first_cycle_nil g phs :
  first_cycle source g phs = [] <-> Forall (fun ph => has_cycle g (value (ph_name ph)) = false) phs.
Proof.
  induction phs as [|ph phs IH]; cbn [first_cycle]; [by split|].
  destruct (has_cycle g (value (ph_name ph))) eqn:E.
  - split; [done|]. intros H%Forall_inv. congruence.
  - rewrite IH. split; [by constructor|by intros ?%Forall_inv_tail].
Qed.

Lemma first_cycle_acyclic phs :
  first_cycle source (dependency_graph phs) phs = [] <-> acyclic (dependency_graph phs).
Proof.
  rewrite first_cycle_nil, acyclic_nodes, Forall_forall. split.
  - intros H node Hn%graph_dom. apply list_elem_of_In, in_map_iff in Hn as (ph & <- & Hph).
    by apply has_cycle_false, H, list_elem_of_In.
  - intros H ph Hph. apply has_cycle_false, H, graph_dom.
    apply list_elem_of_In, in_map_iff. exists ph. by rewrite <- list_elem_of_In.
Qed.
End graph.

Section validated.
Context (source : bytes) (ast : PolicyAst).

Lemma names_distinct (phs : list PhaseAst) (seen : gmap bytes SourceSpan) :
  clean (validate_names source phs seen) ->
  NoDup (phase_names phs) /\ forall name, name ∈ phase_names phs -> seen !! name = None.
Proof.
  revert seen. induction phs as [|ph phs IH]; intros seen; cbn [validate_names phase_names map].
  { intros _. split; [constructor|by intros ? ?%elem_of_nil]. }
  destruct (seen !! value (ph_name ph)) as [first|] eqn:Hs; [done|]. cbn [app].
  intros [Hnd Hseen]%IH. split.
  - constructor; [|done]. intros Hin%Hseen. by rewrite lookup_insert_eq in Hin.
  - intros name [->|Hin]%elem_of_cons; [done|]. specialize (Hseen name Hin).
    by apply lookup_insert_None in Hseen as [? _].
Qed.

Lemma reference_ok (name referenced : bytes) (known : gset bytes) (sp : SourceSpan) :
  clean (validate_phase_reference source name referenced known sp) ->
  referenced <> name /\ referenced ∈ known.
Proof.
  unfold validate_phase_reference. destruct (eqb_text referenced name) eqn:E; [done|].
  rewrite clean_if, negb_false_iff, bool_decide_eq_true. split; [|done].
  intros ->. by rewrite (proj2 (eqb_text_true _ _) eq_refl) in E.
Qed.

Lemma dependencies_ok :
  clean (validate_phase_dependencies source ast) ->
  acyclic (dependency_graph (phases ast))
  /\ forall ph d, ph ∈ phases ast -> d ∈ phase_dependencies (controls ph) ->
     d <> value (ph_name ph) /\ d ∈ phase_names (phases ast).
Proof.
  unfold validate_phase_dependencies. rewrite clean_app, clean_flat_map, Forall_forall.
  intros [Href Hcyc]. split.
  - apply (first_cycle_acyclic source). apply errors_clean; [|done]. clear.
    induction (phases ast) as [|ph phs IH] in |- * at 2; cbn [first_cycle]; [constructor|].
    destruct (has_cycle _ _); [by constructor|done].
  - intros ph d Hph Hd. unfold phase_dependencies in Hd.
    apply list_elem_of_In, in_flat_map in Hd as (s & [Hs Hk]%filter_In & Hd).
    specialize (Href ph Hph). rewrite clean_flat_map, Forall_forall in Href.
    specialize (Href s ltac:(by apply list_elem_of_In)).
    unfold validate_control_references, depends_on_text_checks in Href. rewrite Hk in Href.
    rewrite !clean_app, clean_flat_map, Forall_forall in Href. destruct Href as [[_ Href] _].
    specialize (Href d ltac:(by apply list_elem_of_In)). apply reference_ok in Href as [? Hin].
    split; [done|]. by apply elem_of_list_to_set in Hin.
Qed.

(** The parts of a clean validation. *)
Lemma validated_parts :
  clean (validate_policy_ast source ast) ->
  phases ast <> [] /\ clean (validate_config source ast) /\ clean (validate_metadata source ast)
  /\ NoDup (phase_names (phases ast)) /\ clean (validate_phase_dependencies source ast)
  /\ Forall (fun ph => clean (validate_phase source ph)) (phases ast).
Proof.
  unfold validate_policy_ast. rewrite !clean_app, !clean_if, clean_flat_map.
  intros (_ & _ & Hne & _ & _ & Hcfg & Hmeta & Hnames & Hdeps & Hph).
  apply bool_decide_eq_false in Hne. apply names_distinct in Hnames as [Hnd _]. done.
Qed.
End validated.

(** ** The order of the phases *)

(** [a] comes before [b] in the order. *)
Definition before (order : list bytes) (a b : bytes) : Prop :=
  exists i j, order !! i = Some a /\ order !! j = Some b /\ i < j.

Lemma position_before order a b i j :
  position (eqb_text a) order = Some i -> position (eqb_text b) order = Some j -> i < j ->
  before order a b.
Proof.
  intros (x & Hx & ->%eqb_text_true)%position_lookup (y & Hy & ->%eqb_text_true)%position_lookup Hlt.
  by exists i, j.
Qed.

Section order.
Context (ast : PolicyAst).
Hypothesis names_nodup : NoDup (phase_names (phases ast)).
Hypothesis graph_acyclic : acyclic (dependency_graph (phases ast)).
Hypothesis references : forall ph d, ph ∈ phases ast -> d ∈ phase_dependencies (controls ph) ->
  d <> value (ph_name ph) /\ d ∈ phase_names (phases ast).

Lemma phase_order_spec :
  NoDup (phase_order ast) /\ (forall v, v ∈ phase_order ast <-> v ∈ phase_names (phases ast))
  /\ topological (dependency_graph (phases ast)) (phase_order ast).
Proof.
  destruct (order_phases_spec (dependency_graph (phases ast)) (phase_names (phases ast))) as (H1 & H2 & H3).
  { intros name. apply graph_dom. }
  split_and!; [done|done|by apply H3].
Qed.

Lemma phase_order_permutation : Permutation (phase_order ast) (phase_names (phases ast)).
Proof. destruct phase_order_spec as (H1 & H2 & _). by apply NoDup_Permutation. Qed.

Lemma dependency_before ph d :
  ph ∈ phases ast -> d ∈ phase_dependencies (controls ph) ->
  before (phase_order ast) d (value (ph_name ph)).
Proof.
  intros Hph Hd. destruct phase_order_spec as (Hnd & Hin & Htop).
  assert (Hname : value (ph_name ph) ∈ phase_order ast).
  { apply Hin, list_elem_of_In, in_map_iff. exists ph. split; [done|by apply list_elem_of_In]. }
  apply list_elem_of_lookup in Hname as [j Hj].
  assert (Hedge : edge (dependency_graph (phases ast)) (value (ph_name ph)) d).
  { eexists. split; [by apply graph_lookup|done]. }
  pose proof (Htop j _ d Hj Hedge ltac:(by apply graph_dom, (references ph d Hph Hd))) as Ht.
  apply list_elem_of_lookup in Ht as [i Hi]. exists i, j.
  apply lookup_take_Some in Hi as [Hi Hlt]. done.
Qed.
End order.

(** ** The settings *)

Section settings.
Context (source : bytes).

(** Every setting of a clean config was checked: none repeats a key. *)
Lemma settings_checked (settings : list SettingAst) (seen : gmap bytes SourceSpan) :
  clean (validate_settings source settings seen) ->
  Forall (fun s => (value (s_key s) = lit "languages" -> clean (validate_config_languages source s))
                   /\ (value (s_key s) = lit "on_error" -> clean (validate_config_on_error source s)))
    settings.
Proof.
  revert seen. induction settings as [|s settings IH]; intros seen; cbn [validate_settings]; [constructor|].
  destruct (seen !! value (s_key s)); [done|]. rewrite clean_app. intros [Hs Hrest%IH].
  constructor; [|done]. split; intros Hk; rewrite Hk in Hs; [done|].
  change (eqb_text (lit "on_error") (lit "languages")) with false in Hs. done.
Qed.

Lemma languages_canonical s values sp :
  clean (validate_config_languages source s) -> s_value s = EList values sp ->
  Forall (fun l => is_canonical_language_code l = true)
    (omap (fun v => match v with EString v => Some (value v) | _ => None end) values).
Proof.
  unfold validate_config_languages. intros Hc Hv. rewrite Hv in Hc.
  rewrite clean_app, clean_flat_map in Hc. destruct Hc as [_ Hc]. clear Hv.
  induction Hc as [|v values Hv' _ IH]; [constructor|]. cbn [omap list_omap].
  destruct v; try done. rewrite clean_if, negb_false_iff in Hv'. by constructor.
Qed.

Lemma config_canonical settings c :
  Forall (fun s => value (s_key s) = lit "languages" -> clean (validate_config_languages source s))
    settings ->
  Forall (fun l => is_canonical_language_code l = true) (languages c) ->
  Forall (fun l => is_canonical_language_code l = true) (languages (fold_left config_step settings c)).
Proof.
  intros Hs. revert c. induction Hs as [|s settings Hs _ IH]; intros c Hc; [done|]. cbn [fold_left].
  apply IH. unfold config_step. destruct (s_value s) as [| | | |values sp|] eqn:Hv; try done.
  - by destruct (eqb_text _ _).
  - destruct (eqb_text _ _) eqn:Hk; [|done]. apply eqb_text_true in Hk. cbn [languages].
    by eapply languages_canonical; [apply Hs|].
Qed.

(** The tools of a checked list are read back. *)
Lemma tools_read values index tools :
  clean (validate_required_tools_value source (EList values (span_new 0 0))) ->
  exists tools', tools_from (map expr_json values) index tools = Ok tools'.
Proof.
  cbn [validate_required_tools_value]. rewrite clean_flat_map. intros Hc. revert index tools.
  induction Hc as [|v values Hv _ IH]; intros index tools; [by exists tools|].
  destruct v as [| tool | | | |]; try done. rewrite clean_if, negb_false_iff in Hv.
  apply one_of_spec in Hv as (w & Hw & Hv). cbn [map expr_json tools_from]. rewrite Hv.
  cbn in Hw. intuition subst; apply IH.
Qed.

(** The last declaration of the tools wins in the map; a clean validation
    leaves only one. *)
Lemma metadata_after_first (settings : list SettingAst) (first : SourceSpan) (m : gmap bytes Json) :
  clean (validate_metadata_from source settings (Some first)) ->
  fold_left (fun m s => <[value (s_key s) := expr_json (s_value s)]> m) settings m
    !! lit "requires_tools" = m !! lit "requires_tools".
Proof.
  revert m. induction settings as [|s settings IH]; intros m; [done|]. cbn [validate_metadata_from fold_left].
  destruct (eqb_text (value (s_key s)) (lit "requires_tools")) eqn:Hk; [done|]. cbn [negb].
  intros Hc. rewrite (IH _ Hc). apply lookup_insert_ne. intros E. rewrite E in Hk.
  by rewrite (proj2 (eqb_text_true _ _) eq_refl) in Hk.
Qed.

Lemma metadata_tools settings :
  clean (validate_metadata_from source settings None) ->
  match metadata_map settings !! lit "requires_tools" with
  | None => True
  | Some (JArr values) => exists tools, tools_from values 0 [] = Ok tools
  | Some _ => False
  end.
Proof.
  unfold metadata_map.
  assert (H : forall m : gmap bytes Json, m !! lit "requires_tools" = None ->
    clean (validate_metadata_from source settings None) ->
    match fold_left (fun m s => <[value (s_key s) := expr_json (s_value s)]> m) settings m
            !! lit "requires_tools" with
    | None => True
    | Some (JArr values) => exists tools, tools_from values 0 [] = Ok tools
    | Some _ => False
    end); [|by apply H].
  induction settings as [|s settings IH]; intros m Hm; cbn [validate_metadata_from fold_left]; [by rewrite Hm|].
  destruct (eqb_text (value (s_key s)) (lit "requires_tools")) eqn:Hk; cbn [negb].
  - apply eqb_text_true in Hk. rewrite clean_app. intros [Hv Hrest].
    rewrite (metadata_after_first _ _ _ Hrest), Hk, lookup_insert_eq.
    destruct (s_value s); try done. cbn [expr_json]. by eapply (tools_read values 0 []).
  - intros Hc. apply IH; [|done]. rewrite lookup_insert_ne; [done|]. intros E. rewrite E in Hk.
    by rewrite (proj2 (eqb_text_true _ _) eq_refl) in Hk.
Qed.
End settings.

(** ** Compiled policies *)

Section compiled.
Context (source_hash : bytes -> bytes).

Lemma compile_policy_ok source out :
  compile_policy source_hash source = Ok out ->
  exists ast compiled, parse_policy_source source = Ok ast
    /\ clean (validate_policy_ast source ast)
    /\ collect (lower_phase source (phase_order ast)) (phases ast) = Ok compiled
    /\ co_diagnostics out = validate_policy_ast source ast
    /\ co_policy out = apply_execution_defaults {|
         policy_name := value (p_name ast); policy_slug := slug (value (p_name ast));
         PolicyCompiled.source_hash := source_hash source; schema_version := 2;
         cp_metadata := metadata_map (metadata ast); cp_config := compiled_config (config ast);
         cp_phases := compiled; cp_phase_order := phase_order ast;
         warnings := List.filter (fun d => bool_decide (d_severity d = SeverityWarning))
                       (validate_policy_ast source ast) |}.
Proof.
  unfold compile_policy, parse_policy_text.
  destruct (parse_policy_source source) as [ast|[e|]]; [|done..].
  destruct (has_errors _) eqn:Hc; [done|]. unfold compile_ast, lower_phases.
  destruct (collect _ _) as [compiled|[]] eqn:Hl; [|done..]. intros [= <-]. by exists ast, compiled.
Qed.

Lemma lower_phase_ok source order ph c :
  lower_phase source order ph = Ok c ->
  cp_name c = value (ph_name ph) /\ depends_on c = phase_dependencies (controls ph)
  /\ on_error c = phase_on_error (controls ph) /\ phase_run_if source ph order = Ok (run_if c).
Proof. unfold lower_phase. intros H. tx_inv. done. Qed.

Lemma run_if_before source ph order g :
  phase_run_if source ph order = Ok (Some g) -> before order (gate_phase g) (value (ph_name ph)).
Proof.
  unfold phase_run_if. destruct (List.find _ _) as [control|]; [|done].
  intros (gate & _ & Hg)%result_bind_ok.
  destruct (position (eqb_text (gate_phase gate)) order) as [i|] eqn:Hi; [|done].
  destruct (position (eqb_text (value (ph_name ph))) order) as [j|] eqn:Hj; [|done].
  destruct (Nat.leb_spec j i); [done|]. injection Hg as <-. by eapply position_before.
Qed.

(** The defaults only fill in missing error strategies. *)
Lemma defaults_phases p :
  let q := apply_execution_defaults p in
  map cp_name (cp_phases q) = map cp_name (cp_phases p) /\ cp_phase_order q = cp_phase_order p
  /\ cp_config q = cp_config p /\ cp_metadata q = cp_metadata p /\ warnings q = warnings p
  /\ forall ph, ph ∈ cp_phases q -> exists ph0, ph0 ∈ cp_phases p /\ cp_name ph = cp_name ph0
     /\ depends_on ph = depends_on ph0 /\ run_if ph = run_if ph0
     /\ on_error ph = match on_error ph0 with Some s => Some s | None => cfg_on_error (cp_config p) end.
Proof.
  unfold apply_execution_defaults. destruct (cfg_on_error (cp_config p)) as [st|] eqn:Hs; cbn zeta;
    cbn [cp_phases cp_phase_order cp_config cp_metadata warnings].
  - split_and!; try done.
    + rewrite map_map. apply map_ext. intros ph. unfold with_on_error. by destruct (on_error ph).
    + intros ph (ph0 & <- & Hin%list_elem_of_In)%list_elem_of_In%in_map_iff. exists ph0.
      split; [done|]. unfold with_on_error. by destruct (on_error ph0) eqn:Ho.
  - split_and!; try done. intros ph Hin. exists ph. split_and!; try done.
    by destruct (on_error ph).
Qed.

Lemma compiled_order source out :
  compile_policy source_hash source = Ok out ->
  let p := co_policy out in
  cp_phases p <> [] /\ NoDup (map cp_name (cp_phases p))
  /\ Permutation (cp_phase_order p) (map cp_name (cp_phases p))
  /\ forall ph, ph ∈ cp_phases p ->
     (forall d, d ∈ depends_on ph -> before (cp_phase_order p) d (cp_name ph))
     /\ (forall g, run_if ph = Some g -> before (cp_phase_order p) (gate_phase g) (cp_name ph)).
Proof.
  intros (ast & compiled & _ & Hc & Hl & _ & Hp)%compile_policy_ok p. subst p.
  apply validated_parts in Hc as (Hne & _ & _ & Hnd & [Hac Href]%dependencies_ok & _).
  destruct (defaults_phases {| policy_name := value (p_name ast); policy_slug := slug (value (p_name ast));
         PolicyCompiled.source_hash := source_hash source; schema_version := 2;
         cp_metadata := metadata_map (metadata ast); cp_config := compiled_config (config ast);
         cp_phases := compiled; cp_phase_order := phase_order ast;
         warnings := List.filter (fun d => bool_decide (d_severity d = SeverityWarning))
                       (validate_policy_ast source ast) |}) as (Hnames & Horder & _ & _ & _ & Hphs).
  rewrite <- Hp in *. cbn [cp_phases cp_phase_order] in *. apply collect_ok in Hl.
  assert (Hmap : map cp_name compiled = phase_names (phases ast)).
  { clear -Hl. induction Hl as [|ph c phs cs Hph _ IH]; [done|]. cbn. rewrite IH.
    by apply lower_phase_ok in Hph as (-> & _). }
  rewrite Hnames, Horder, Hmap. split_and!; [|done|by apply phase_order_permutation|].
  - intros Hnil. rewrite Hnil in Hnames. rewrite Hmap in Hnames. by destruct (phases ast).
  - intros ph (c & Hin & -> & -> & -> & _)%Hphs.
    apply list_elem_of_lookup in Hin as [i Hi].
    destruct (Forall2_lookup_r _ _ _ _ _ Hl Hi) as (a & Ha & Hlow).
    apply list_elem_of_lookup_2 in Ha. apply lower_phase_ok in Hlow as (-> & -> & _ & Hrun).
    split; [intros d Hd; by apply dependency_before|]. intros g Hg. rewrite Hg in Hrun.
    by eapply run_if_before.
Qed.

(** C11: The phases of a compiled policy are in an order in which they can run:
    the order is a permutation of the declared phases, which have distinct
    names, and every dependency and every run-if gate of a phase names a phase
    that comes before it. *)
Theorem compiled_phases_ordered source out :
  compile_policy source_hash source = Ok out ->
  let p := co_policy out in
  cp_phases p <> [] /\ NoDup (map cp_name (cp_phases p))
  /\ Permutation (cp_phase_order p) (map cp_name (cp_phases p))
  /\ forall ph, ph ∈ cp_phases p ->
     (forall d, d ∈ depends_on ph -> before (cp_phase_order p) d (cp_name ph))
     /\ (forall g, run_if ph = Some g -> before (cp_phase_order p) (gate_phase g) (cp_name ph)).
Proof. apply compiled_order. Qed.

(** The settings of a compiled policy are the published ones: its languages
    are canonical codes, the tools it requires are read without an error, its
    diagnostics are warnings and are all kept, and a config error strategy is
    in force in every phase. *)
Theorem compiled_settings_published source out :
  compile_policy source_hash source = Ok out ->
  let p := co_policy out in
  Forall (fun l => is_canonical_language_code l = true) (languages (cp_config p))
  /\ (exists tools, required_tools p = Ok tools)
  /\ has_errors (co_diagnostics out) = false /\ warnings p = co_diagnostics out
  /\ (forall s, cfg_on_error (cp_config p) = Some s -> Forall (fun ph => is_Some (on_error ph)) (cp_phases p)).
Proof.
  intros (ast & compiled & _ & Hc & Hl & Hd & Hp)%compile_policy_ok p. subst p.
  pose proof (validated_parts _ _ Hc) as (_ & Hcfg & Hmeta & _).
  match type of Hp with _ = apply_execution_defaults ?q =>
    destruct (defaults_phases q) as (_ & _ & Hconf & Hm & Hw & Hphs) end.
  rewrite <- Hp in *. cbn [cp_config cp_metadata warnings] in *.
  unfold required_tools. rewrite Hconf, Hm, Hw, Hd. split_and!.
  - apply (config_canonical source); [|constructor].
    eapply Forall_impl; [exact (settings_checked _ _ _ Hcfg)|by intros s [? _]].
  - pose proof (metadata_tools _ _ Hmeta) as Ht.
    destruct (metadata_map _ !! _) as [[]|]; try done. by exists [].
  - done.
  - etrans; [|apply List.filter_true]. apply List.filter_ext_in. intros d Hd'.
    apply bool_decide_eq_true.
    destruct (d_severity d) eqn:Hs; [|done]. exfalso.
    assert (is_error d = true) as He by (apply bool_decide_eq_true; done).
    unfold has_errors in Hc. apply not_true_iff_false in Hc. apply Hc, existsb_exists. eauto.
  - intros s Hs. apply Forall_forall. intros ph (c & _ & _ & _ & _ & ->)%Hphs. rewrite Hs.
    by destruct (on_error c).
Qed.
End compiled.

(** The checks of references report no cycle. *)
Lemma reference_codes (source : bytes) (ph : PhaseAst) (known : gset bytes) (s : StatementAst) :
  Forall (fun d => d_code d <> DependencyCycle) (validate_control_references source ph known s).
Proof.
  assert (Hif : forall b code sp, code <> DependencyCycle ->
    Forall (fun d => d_code d <> DependencyCycle) (error_if source b code sp)).
  { intros [] code sp Hne; by repeat constructor. }
  assert (Href : forall name referenced sp, Forall (fun d => d_code d <> DependencyCycle)
    (validate_phase_reference source name referenced known sp)).
  { intros. unfold validate_phase_reference. destruct (eqb_text _ _); [by repeat constructor|by apply Hif]. }
  unfold validate_control_references. apply Forall_app. split.
  - destruct (keyword_is _ _); [|constructor]. apply Forall_app. split; [by apply Hif|].
    apply Forall_forall. intros d (x & _ & Hd%list_elem_of_In)%list_elem_of_In%in_flat_map.
    by eapply Forall_forall in Hd; [|apply Href].
  - destruct (keyword_is _ _); [|constructor]. unfold validate_run_if.
    destruct (words _) as [|? [|? [|? [|? ?]]]]; try by repeat constructor.
    destruct (one_of _ _); [apply Href|by repeat constructor].
Qed.

(** The validator reports a cycle exactly when the dependencies have one,
    with an error at a phase from which the cycle is reached. *)
Theorem cycle_reported source ast :
  (exists d, d ∈ validate_phase_dependencies source ast /\ d_code d = DependencyCycle)
  <-> ~ acyclic (dependency_graph (phases ast)).
Proof.
  rewrite <- (first_cycle_acyclic source). unfold validate_phase_dependencies. split.
  - intros (d & [Hd|Hd]%elem_of_app & Hcode) Hnil; [|rewrite Hnil in Hd; by apply elem_of_nil in Hd].
    apply list_elem_of_In, in_flat_map in Hd as (ph & _ & (s & _ & Hd%list_elem_of_In)%in_flat_map).
    by eapply Forall_forall in Hd; [|apply reference_codes].
  - intros Hne. destruct (first_cycle source _ _) as [|d ds] eqn:E; [done|].
    exists d. split; [apply elem_of_app; right; left|]. revert E. clear.
    induction (phases ast) as [|ph phs IH] in |- * at 2; cbn [first_cycle]; [done|].
    destruct (has_cycle _ _); [by intros [= <- _]|done].
Qed.
