(* ===== verification/PolicyComplete.v ===== *)
(** * What can fail after validation

    The lowering relies on the validator: it takes fallbacks and reports
    errors only for texts the validator refuses. This file shows for which
    policies that is so, and lists the others: a statement whose first word is
    not its keyword, an [order] with a [where] that is not between spaces, a
    [skip] that repeats its keywords, a run-if gate that is not written with
    single spaces or does not point backwards, and a condition in which a
    keyword stands alone. *)

From Stdlib Require Import ZArith Lia Bool String Ascii.
From stdpp Require Import base gmap strings list.
From S2P Require Import Prelude Vocab Json Bytes PolicySyntax PolicyParser TrackFilters.
From S2P Require Import PolicyCompiled.
From S2P Require Import PolicyConditions PolicyProfiles PolicyGraph PolicyValidate PolicyLower.
From S2P Require Import PolicyCompile.

Open Scope nat_scope.

(** ** Regular statements *)

Definition has_where_word (text : bytes) : bool :=
  existsb (fun w => eqb_text w (lit "where")) (split_ascii_whitespace text).
(** A word [where] that the filter of the statement is not found by. *)
Definition stray_where (text : bytes) : bool :=
  negb (contains (lit " where ") text) && has_where_word text.

Fixpoint regular (s : StatementAst) : bool :=
  match s with
  | Raw k _ _ | Block k _ _ _ =>
      bool_decide (words (statement_text s) !! 0 = Some (value k))
      && negb (keyword_is "order" s && stray_where (statement_text s))
  | TranscodeInline k _ _ _ => eqb_text (value k) (lit "transcode")
  | SynthesizeInline k _ _ _ => eqb_text (value k) (lit "synthesize")
  end
  && match s with Block _ _ statements _ => forallb regular statements | _ => true end.

(** The texts of the conditions of a statement. *)
Definition own_condition (s : StatementAst) : list bytes :=
  if keyword_is "when" s then [trim (trim_start_matches (lit "when") (statement_text s))]
  else match s with
       | Block _ (Some header) _ _ =>
           match rule_header (value header) with Some (_, condition) => [condition] | None => [] end
       | _ => []
       end.
Fixpoint conditions (s : StatementAst) : list bytes :=
  own_condition s
  ++ match s with Block _ _ statements _ => flat_map conditions statements | _ => [] end.

(** A lowering that is not refused; one that does not end has a condition with
    a bare keyword. *)
Definition lowers {A} (texts : list bytes) (r : LR A) : Prop :=
  match r with
  | Ok _ => True
  | Err Endless => Exists has_bare texts
  | Err (Refused _) => False
  end.

Lemma lowers_incl {A} texts texts' (r : LR A) :
  (forall t, t ∈ texts -> t ∈ texts') -> lowers texts r -> lowers texts' r.
Proof.
  intros Hincl. destruct r as [a|[ds|]]; cbn; [done|done|].
  rewrite !Exists_exists. intros (t & Ht & Hb). exists t. split; [by apply Hincl|done].
Qed.

Lemma lowers_bind {A B} texts (m : LR A) (f : A -> LR B) :
  lowers texts m -> (forall a, m = Ok a -> lowers texts (f a)) -> lowers texts (m ≫= f).
Proof. destruct m as [a|[ds|]]; cbn; intros Hm Hf; [by apply Hf|done|done]. Qed.

Lemma lowers_collect {A B} (f : A -> LR B) (texts : A -> list bytes) l :
  Forall (fun x => lowers (texts x) (f x)) l -> lowers (flat_map texts l) (collect f l).
Proof.
  induction 1 as [|x l Hx _ IH]; [done|]. cbn [collect flat_map].
  apply lowers_bind; [by eapply lowers_incl, Hx; intros t Ht; apply elem_of_app; left|].
  intros y _. apply lowers_bind; [|done].
  eapply lowers_incl, IH. intros t Ht. apply elem_of_app. by right.
Qed.

(** Induction over nested statements. *)
Section induction.
Context (Q : StatementAst -> Prop).
Hypothesis raw_case : forall k text sp, Q (Raw k text sp).
Hypothesis block_case : forall k name statements sp, Forall Q statements -> Q (Block k name statements sp).
Hypothesis transcode_case : forall k header settings sp, Q (TranscodeInline k header settings sp).
Hypothesis synthesize_case : forall k header settings sp, Q (SynthesizeInline k header settings sp).

Fixpoint statement_induction (s : StatementAst) : Q s :=
  match s with
  | Raw k text sp => raw_case k text sp
  | Block k name statements sp =>
      block_case k name statements sp
        ((fix go l : Forall Q l :=
            match l with
            | [] => List.Forall_nil Q
            | x :: l' => proj2 (Forall_cons Q x l') (conj (statement_induction x) (go l'))
            end) statements)
  | TranscodeInline k header settings sp => transcode_case k header settings sp
  | SynthesizeInline k header settings sp => synthesize_case k header settings sp
  end.
End induction.

(** ** Filters *)

(** Splitting at more bytes splits the pieces. *)
Lemma split_by_refine (f g : ascii -> bool) text :
  (forall c, f c = true -> g c = true) ->
  split_by g text = flat_map (split_by g) (split_by f text).
Proof.
  intros Hfg. induction text as [|c text IH]; [done|]. cbn [split_by]. destruct (f c) eqn:Hf.
  - rewrite (Hfg c Hf). cbn [flat_map]. rewrite IH. done.
  - destruct (split_by f text) as [|p ps] eqn:E.
    { destruct text as [|c' text']; [done|]. cbn in E. destruct (f c'); [done|].
      by destruct (split_by f text'). }
    cbn [flat_map] in IH |- *. cbn [split_by]. rewrite IH. destruct (g c); [done|].
    destruct (split_by g p) as [|q qs] eqn:Eq; [|done]. exfalso. clear -Eq.
    destruct p as [|c p]; [done|]. cbn in Eq. destruct (g c); [done|]. by destruct (split_by g p).
Qed.

Lemma where_word_token text : has_where_word text = true -> lit "where" ∈ words text.
Proof.
  unfold has_where_word, split_ascii_whitespace. rewrite existsb_exists.
  intros (w & [Hw _]%filter_In & ->%eqb_text_true).
  unfold words. apply list_elem_of_In, filter_In. split; [|done].
  rewrite (split_by_refine is_ascii_whitespace word_separator).
  - apply in_flat_map. exists (lit "where"). split; [done|by left].
  - intros c Hc. unfold word_separator. by rewrite Hc.
Qed.

Lemma split_once_contains p text : split_once p text = None <-> contains p text = false.
Proof. unfold split_once, contains. by destruct (str_find p text). Qed.

Lemma parse_trimmed text : parse_track_filter (trim text) = parse_track_filter text.
Proof. unfold parse_track_filter. by rewrite trim_trim. Qed.

#[local] Opaque parse_track_filter.

Section lowering.
Context (source : bytes).

Lemma filter_lowered s text texts before filter :
  split_once (lit " where ") text = Some (before, filter) ->
  clean (validate_filter source s (trim filter)) -> lowers texts (lower_optional_filter source s text).
Proof.
  intros Hs. unfold validate_filter, lower_optional_filter, parse_optional_filter. rewrite Hs.
  rewrite parse_trimmed. destruct (parse_track_filter filter); [intros _; exact I|].
  intros E. discriminate E.
Qed.

Lemma no_filter_lowered s text texts :
  contains (lit " where ") text = false -> lit "where" ∉ words text ->
  lowers texts (lower_optional_filter source s text).
Proof.
  intros Hno%split_once_contains Hw. unfold lower_optional_filter, parse_optional_filter. rewrite Hno.
  change (existsb _ _) with (has_where_word text).
  destruct (has_where_word text) eqn:E; [|done]. by apply where_word_token in E.
Qed.

(** ** Operations *)

(** What a clean validation says of a statement. *)
Inductive checked (s : StatementAst) : Prop :=
  | checked_container : keyword_is "container" s = true -> checked s
  | checked_track : keyword_is "keep" s || keyword_is "remove" s = true ->
      clean (validate_track_operation source s (statement_text s)) -> checked s
  | checked_order : keyword_is "order" s = true ->
      clean (validate_order source s (statement_text s)) -> checked s
  | checked_defaults : keyword_is "defaults" s = true ->
      clean (validate_defaults source s (statement_text s)) -> checked s
  | checked_actions : keyword_is "actions" s = true ->
      clean (validate_actions source s (statement_text s)) -> checked s
  | checked_tags : keyword_is "clear_tags" s || keyword_is "set_tag" s || keyword_is "delete_tag" s
      = true -> checked s
  | checked_transcode : keyword_is "transcode" s = true ->
      clean (validate_transcode_statement source s) -> checked s
  | checked_extract : keyword_is "extract" s = true ->
      clean (validate_extract_statement source s) -> checked s
  | checked_verify : keyword_is "verify" s = true ->
      clean (validate_verify_statement source s) -> checked s
  | checked_synthesize : keyword_is "synthesize" s = true ->
      clean (validate_synthesize_statement source s) -> checked s
  | checked_compatibility : keyword_is "ensure" s || keyword_is "place" s = true ->
      clean (validate_audio_compatibility_statement source s) -> checked s
  | checked_when te : keyword_is "when" s = true ->
      clean (snd (validate_condition source (validate_nested_operation source) s (statement_text s) te)) ->
      checked s
  | checked_rules te : keyword_is "rules" s = true ->
      clean (snd (validate_rules source s (statement_text s) te)) -> checked s.

Lemma tag_operation_checked s te :
  keyword_is "actions" s || keyword_is "clear_tags" s || keyword_is "set_tag" s
  || keyword_is "delete_tag" s = true ->
  clean (snd (validate_tag_operation source s te)) -> checked s.
Proof.
  intros Hk. unfold validate_tag_operation. destruct (keyword_is "actions" s) eqn:Ha.
  - by apply checked_actions.
  - intros _. by apply checked_tags.
Qed.

Ltac next_keyword :=
  match goal with |- clean (snd (if ?b then _ else _)) -> _ => destruct b eqn:? end.

Lemma nested_operation_eq s te :
  validate_nested_operation source s te =
  let text := statement_text s in
  if keyword_is "container" s then pure_check (validate_container source s text) te
  else if keyword_is "keep" s || keyword_is "remove" s then
    pure_check (validate_track_operation source s text) te
  else if keyword_is "order" s then pure_check (validate_order source s text) te
  else if keyword_is "defaults" s then pure_check (validate_defaults source s text) te
  else if keyword_is "actions" s || keyword_is "clear_tags" s || keyword_is "set_tag" s
          || keyword_is "delete_tag" s then validate_tag_operation source s te
  else if keyword_is "when" s then
    validate_condition source (validate_nested_operation source) s text te
  else if keyword_is "transcode" s then pure_check (validate_transcode_statement source s) te
  else if keyword_is "extract" s then pure_check (validate_extract_statement source s) te
  else if keyword_is "verify" s then pure_check (validate_verify_statement source s) te
  else if keyword_is "synthesize" s then pure_check (validate_synthesize_statement source s) te
  else if keyword_is "ensure" s || keyword_is "place" s then
    pure_check (validate_audio_compatibility_statement source s) te
  else pure_check [unknown_operation_error source (stmt_span s)] te.
Proof. by destruct s. Qed.

Lemma nested_checked s te : clean (snd (validate_nested_operation source s te)) -> checked s.
Proof.
  rewrite nested_operation_eq. cbn zeta.
  next_keyword; [intros _; by apply checked_container|].
  next_keyword; [by apply checked_track|]. next_keyword; [by apply checked_order|].
  next_keyword; [by apply checked_defaults|]. next_keyword; [by apply tag_operation_checked|].
  next_keyword; [by apply checked_when|]. next_keyword; [by apply checked_transcode|].
  next_keyword; [by apply checked_extract|]. next_keyword; [by apply checked_verify|].
  next_keyword; [by apply checked_synthesize|]. next_keyword; [by apply checked_compatibility|]. done.
Qed.

Lemma operation_checked s te : clean (snd (validate_operation source s te)) -> checked s.
Proof.
  unfold validate_operation.
  match goal with |- context [let '(te', ds) := ?m in _] => destruct m as [te' ds] eqn:E end.
  cbn [snd]. rewrite clean_app. intros [_ Hc].
  assert (Hm : clean (snd (te', ds))) by done. rewrite <- E in Hm. clear E Hc. revert Hm.
  next_keyword; [intros _; by apply checked_container|].
  next_keyword; [by apply checked_track|]. next_keyword; [by apply checked_order|].
  next_keyword; [by apply checked_defaults|]. next_keyword; [by apply tag_operation_checked|].
  next_keyword; [by apply checked_when|]. next_keyword; [by apply checked_rules|].
  next_keyword; [done|]. next_keyword; [by apply checked_transcode|].
  next_keyword; [by apply checked_extract|]. next_keyword; [by apply checked_verify|].
  next_keyword; [by apply checked_synthesize|]. next_keyword; [by apply checked_compatibility|]. done.
Qed.

(** Decides the tests of a literal word. *)
Ltac decide_words := repeat first
  [match goal with |- context [one_of ?ws (lit ?k)] =>
     let b := eval vm_compute in (one_of ws (lit k)) in change (one_of ws (lit k)) with b end
  |match goal with |- context [eqb_text (lit ?a) (lit ?b)] =>
     let c := eval vm_compute in (eqb_text (lit a) (lit b)) in change (eqb_text (lit a) (lit b)) with c end];
  cbn [andb orb negb].

Lemma keyword_is_eq k s : keyword_is k s = true <-> value (stmt_keyword s) = lit k.
Proof. apply eqb_text_true. Qed.

Lemma token_is_eq tokens i w : token_is tokens i w = true <-> tokens !! i = Some (lit w).
Proof.
  unfold token_is. destruct (tokens !! i) as [t|]; [|done]. rewrite eqb_text_true. split; congruence.
Qed.

Lemma track_target_word sp target :
  clean (validate_track_target source sp target) -> is_track_target_name target = true.
Proof. unfold validate_track_target. by rewrite clean_if, negb_false_iff. Qed.

Lemma where_filter_lowered s text texts :
  contains (lit " where ") text = true -> clean (validate_where_filter source s text) ->
  lowers texts (lower_optional_filter source s text).
Proof.
  unfold validate_where_filter. intros Hc.
  destruct (split_once (lit " where ") text) as [[before filter]|] eqn:E.
  - by apply (filter_lowered s text texts before filter).
  - apply split_once_contains in E. congruence.
Qed.

Lemma track_filter_lowered s keyword rest texts :
  words (statement_text s) = keyword :: rest -> keyword <> lit "where" ->
  clean (validate_track_operation source s (statement_text s)) ->
  lowers texts (lower_optional_filter source s (statement_text s)).
Proof.
  intros Hw Hk. unfold validate_track_operation. rewrite !clean_app. intros (Ht & _ & Hlen & Hf).
  destruct (contains (lit " where ") (statement_text s)) eqn:Hc; [by apply where_filter_lowered|].
  apply no_filter_lowered; [done|]. apply track_target_word in Ht. rewrite clean_if in Hlen.
  rewrite Hw in *. destruct rest as [|target [|? ?]]; [done| |done]. cbn in Ht.
  rewrite !elem_of_cons, elem_of_nil. intros [E|[<-|[]]]; [congruence|done].
Qed.

Lemma order_filter_lowered s texts :
  stray_where (statement_text s) = false -> clean (validate_order source s (statement_text s)) ->
  words (statement_text s) !! 1 = Some (lit "tracks")
  /\ lowers texts (lower_optional_filter source s (statement_text s)).
Proof.
  unfold validate_order. intros Hstray. destruct (token_is _ 1 "tracks") eqn:Ht; [|done]. cbn [negb].
  rewrite !clean_app. intros (_ & _ & _ & Hf). split; [by apply token_is_eq|].
  destruct (contains (lit " where ") (statement_text s)) eqn:Hc; [by apply where_filter_lowered|].
  unfold stray_where in Hstray. rewrite Hc in Hstray. cbn in Hstray.
  unfold lower_optional_filter, parse_optional_filter. apply split_once_contains in Hc. rewrite Hc.
  change (existsb _ _) with (has_where_word (statement_text s)). by rewrite Hstray.
Qed.

Lemma defaults_filter_lowered s keyword rest texts :
  words (statement_text s) = keyword :: rest -> keyword <> lit "where" ->
  clean (validate_defaults source s (statement_text s)) ->
  lowers texts (lower_optional_filter source s (statement_text s)).
Proof.
  intros Hw Hk. unfold validate_defaults. rewrite clean_app. intros [Ht Hrest].
  destruct (contains (lit " where ") (statement_text s)) eqn:Hc; [by apply where_filter_lowered|].
  apply no_filter_lowered; [done|]. apply track_target_word in Ht. rewrite clean_app, !clean_if in Hrest.
  rewrite Hw in *. destruct Hrest as [Hs%negb_false_iff Hlen].
  destruct rest as [|target [|strategy [|? ?]]]; [done|done| |done]. cbn in Ht, Hs.
  rewrite !elem_of_cons, elem_of_nil. intros [E|[<-|[<-|[]]]]; [congruence|done|done].
Qed.

Lemma optional_filter_lowered s tokens n texts :
  words (statement_text s) = tokens -> clean (validate_optional_track_filter source s (statement_text s) n) ->
  lit "where" ∉ take n tokens -> lowers texts (lower_optional_filter source s (statement_text s)).
Proof.
  intros Hw. unfold validate_optional_track_filter. rewrite Hw.
  destruct (contains (lit " where ") (statement_text s)) eqn:Hc; cbn [negb].
  - destruct (token_is tokens n "where"); [|done]. cbn [negb].
    destruct (split_once _ _) as [[before filter]|] eqn:E; [|done]. intros Hf _.
    by eapply filter_lowered.
  - rewrite clean_if, Nat.ltb_ge. intros Hlen Hno. apply no_filter_lowered; [done|].
    rewrite Hw. by rewrite take_ge in Hno by done.
Qed.

Lemma condition_lowered sp text :
  clean (validate_condition_expression source sp text) -> lowers [text] (lower_condition text).
Proof.
  unfold validate_condition_expression.
  destruct (is_valid_condition_expression source sp text) as [ok ds] eqn:E.
  rewrite !clean_app, clean_if, negb_false_iff. intros (_ & _ & ->).
  assert (Hv : fst (is_valid_condition_expression source sp text) = true) by (by rewrite E).
  apply condition_agree in Hv as [(c & Hc & _)|Hb]; unfold lower_condition, condition_from_text.
  - by rewrite Hc.
  - destruct (condition_at _ _); [done|]. by constructor.
Qed.

(** The statements of a block are lowered when they are regular and clean. *)
Definition lowerable (s : StatementAst) : Prop :=
  regular s = true -> checked s -> lowers (conditions s) (lower_operation source s).
Definition children (s : StatementAst) : list StatementAst :=
  match s with Block _ _ statements _ => statements | _ => [] end.

Lemma regular_children s : regular s = true -> Forall (fun x => regular x = true) (children s).
Proof.
  destruct s; cbn [children]; try by constructor. cbn [regular]. intros [_ Hr]%andb_true_iff.
  apply Forall_forall. intros x Hx%list_elem_of_In. rewrite forallb_forall in Hr. auto.
Qed.

Lemma conditions_children s t x : x ∈ children s -> t ∈ conditions x -> t ∈ conditions s.
Proof.
  destruct s; cbn [children]; try by intros ?%elem_of_nil. intros Hx Ht. cbn [conditions].
  apply elem_of_app. right. apply list_elem_of_In, in_flat_map. exists x.
  by rewrite <- !list_elem_of_In.
Qed.

Lemma statements_lowered statements te texts :
  Forall lowerable statements -> Forall (fun x => regular x = true) statements ->
  clean (snd (check_each (validate_nested_operation source) statements te)) ->
  (forall x t, x ∈ statements -> t ∈ conditions x -> t ∈ texts) ->
  lowers texts (collect (lower_operation source) statements).
Proof.
  intros Hl Hr Hc%check_each_clean Ht.
  eapply lowers_incl; [|apply (lowers_collect _ conditions)].
  - intros t (x & Hx & Ht')%list_elem_of_In%in_flat_map.
    by eapply Ht; apply list_elem_of_In.
  - rewrite Forall_forall in Hl, Hr, Hc |- *. intros x Hx. destruct (Hc x Hx) as [te' Hx'].
    apply Hl; [done|by apply Hr|by eapply nested_checked].
Qed.

Lemma rule_lowered rule te :
  Forall lowerable (children rule) -> regular rule = true -> clean (snd (validate_rule source rule te)) ->
  keyword_is "when" rule = false ->
  lowers (conditions rule) (lower_rule source (lower_operation source) rule).
Proof.
  intros Hl Hr%regular_children Hc Hnot. unfold validate_rule in Hc.
  destruct (keyword_is "rule" rule); [|done]. cbn [negb] in Hc.
  destruct rule as [|k [header|] statements sp| |]; try done. unfold lower_rule.
  destruct (rule_header (value header)) as [[name condition]|] eqn:Hh; [|done].
  destruct (check_each _ _ _) as [te' ds] eqn:E. cbn [snd] in Hc. rewrite clean_app in Hc.
  destruct Hc as [Hcond Hds]. apply lowers_bind.
  - eapply lowers_incl; [|by eapply condition_lowered]. intros t ->%list_elem_of_singleton.
    cbn [conditions]. unfold own_condition. rewrite Hnot, Hh. apply elem_of_app. left. by left.
  - intros c _. apply lowers_bind; [|done]. eapply (statements_lowered statements te); [done|done| |].
    + by rewrite E.
    + intros x t. by apply (conditions_children (Block k (Some header) statements sp)).
Qed.

Lemma tokens_start_2 a b tokens :
  tokens_start [a; b] tokens = true -> exists rest, tokens = lit a :: lit b :: rest.
Proof.
  unfold tokens_start. intros H%bool_decide_eq_true. destruct tokens as [|x [|y rest]]; [done..|].
  cbn in H. injection H as -> ->. by exists rest.
Qed.
Lemma tokens_start_3 a b c tokens :
  tokens_start [a; b; c] tokens = true -> exists rest, tokens = lit a :: lit b :: lit c :: rest.
Proof.
  unfold tokens_start. intros H%bool_decide_eq_true. destruct tokens as [|x [|y [|z rest]]]; [done..|].
  cbn in H. injection H as -> -> ->. by exists rest.
Qed.

Lemma transcode_lowered s texts :
  (forall k header settings sp, s <> TranscodeInline k header settings sp) ->
  clean (validate_transcode_statement source s) ->
  lowers texts (lower_media_operation source s (statement_text s) (words (statement_text s))).
Proof.
  intros Hnt. destruct s as [k text sp| |k header settings sp|]; [|done| |done];
    [|by destruct (Hnt k header settings sp)].
  cbn [validate_transcode_statement statement_text]. unfold validate_transcode_header, lower_media_operation.
  destruct (tokens_start ["transcode"; "video"]%string (words text)) eqn:Hv.
  { apply tokens_start_2 in Hv as [rest ->]. done. }
  destruct (tokens_start ["transcode"; "audio"; "to"]%string (words text)) eqn:Ha; [|done].
  apply tokens_start_3 in Ha as [rest Hw]. cbn [andb].
  destruct (token_in (words text) 3 AUDIO_CODECS) eqn:Hcodec; [|done]. intros Hf.
  assert (Hl : lowers texts (lower_optional_filter source (Raw k text sp) text)).
  { eapply (optional_filter_lowered (Raw k text sp)); [exact Hw|done|].
    rewrite Hw in Hcodec. destruct rest as [|codec rest]; [done|]. cbn in Hcodec |- *.
    rewrite !elem_of_cons, elem_of_nil. intros [?|[?|[?|[<-|[]]]]]; done. }
  rewrite Hw. cbn [lookup list_lookup default]. unfold token_is. cbn [lookup list_lookup].
  decide_words. by apply lowers_bind.
Qed.

Lemma extract_lowered s texts :
  clean (validate_extract_statement source s) ->
  lowers texts (lower_media_operation source s (statement_text s) (words (statement_text s))).
Proof.
  unfold validate_extract_statement.
  destruct (tokens_start ["extract"; "audio"]%string (words (statement_text s))) eqn:Ha; [|done].
  apply tokens_start_2 in Ha as [rest Hw]. intros Hf.
  assert (Hl : lowers texts (lower_optional_filter source s (statement_text s))).
  { eapply optional_filter_lowered; [exact Hw|done|]. cbn.
    rewrite !elem_of_cons, elem_of_nil. intros [?|[?|[]]]; done. }
  unfold lower_media_operation. rewrite Hw. cbn [lookup list_lookup default]. unfold token_is.
  cbn [lookup list_lookup]. decide_words. by apply lowers_bind.
Qed.

Lemma synthesize_lowered s texts k header settings sp :
  s = SynthesizeInline k header settings sp -> clean (validate_synthesize_statement source s) ->
  lowers texts (lower_operation source s).
Proof.
  intros ->. cbn [validate_synthesize_statement lower_operation]. rewrite clean_app. intros [Hh _].
  unfold validate_synthesize_header in Hh. destruct (tokens_start _ _); [|done]. cbn [negb] in Hh.
  unfold lower_synthesize. destruct (split_once (lit " from ") header) as [[before filter]|]; [|done].
  destruct (non_empty (trim filter)); [|done]. cbn [negb] in Hh. unfold validate_filter in Hh.
  rewrite parse_trimmed in Hh. unfold parse_required_filter.
  destruct (parse_track_filter filter); [exact I|discriminate Hh].
Qed.

Lemma when_lowered s te rest :
  words (statement_text s) = lit "when" :: rest -> keyword_is "when" s = true -> regular s = true ->
  Forall lowerable (children s) ->
  clean (snd (validate_condition source (validate_nested_operation source) s (statement_text s) te)) ->
  lowers (conditions s) (lower_control_operation source (lower_operation source) s (statement_text s)
    (words (statement_text s))).
Proof.
  intros Hw Hk Hr%regular_children Hl Hc. unfold lower_control_operation. rewrite Hw.
  cbn [lookup list_lookup default]. decide_words.
  set (text := trim (trim_start_matches (lit "when") (statement_text s))).
  assert (Hown : text ∈ conditions s).
  { assert (E : conditions s = (own_condition s ++ flat_map conditions (children s))%list).
    { destruct s; cbn [conditions children flat_map]; by rewrite ?app_nil_r. }
    rewrite E. unfold own_condition. rewrite Hk. left. }
  unfold validate_condition in Hc. fold text in Hc.
  assert (Hcond : clean (validate_condition_expression source (stmt_span s) text)).
  { destruct s; try exact Hc. destruct (check_each _ _ _). cbn [snd] in Hc. by apply clean_app in Hc as [? _]. }
  apply lowers_bind.
  - eapply lowers_incl; [|by eapply condition_lowered]. by intros t ->%list_elem_of_singleton.
  - intros c _. apply lowers_bind; [|done]. destruct s as [|k name statements sp| |]; try done.
    destruct (check_each _ _ _) as [te' ds] eqn:E. cbn [snd] in Hc. apply clean_app in Hc as [_ Hds].
    eapply (statements_lowered statements te); [done|done|by rewrite E|].
    intros x t. by apply (conditions_children (Block k name statements sp)).
Qed.

Lemma rules_lowered s te rest :
  words (statement_text s) = lit "rules" :: rest -> regular s = true ->
  Forall (fun x => Forall lowerable (children x)) (children s) ->
  clean (snd (validate_rules source s (statement_text s) te)) ->
  lowers (conditions s) (lower_control_operation source (lower_operation source) s (statement_text s)
    (words (statement_text s))).
Proof.
  intros Hw Hr%regular_children Hl Hc. unfold lower_control_operation. rewrite Hw.
  cbn [lookup list_lookup default]. decide_words. apply lowers_bind; [|done].
  unfold lower_rules. destruct s as [|k name statements sp| |]; try done. cbn [children] in *.
  unfold validate_rules in Hc. destruct (check_each _ _ _) as [te' ds] eqn:E. cbn [snd] in Hc.
  apply clean_app in Hc as [_ Hds]. assert (Hds' : clean (snd (te', ds))) by done.
  rewrite <- E in Hds'. apply check_each_clean in Hds'.
  eapply lowers_incl; [|apply (lowers_collect _ conditions)].
  - intros t (x & Hx & Ht)%list_elem_of_In%in_flat_map.
    by eapply (conditions_children (Block k name statements sp)); apply list_elem_of_In.
  - rewrite Forall_forall in Hl, Hr, Hds' |- *. intros x Hx. destruct (Hds' x Hx) as [te1 Hx'].
    apply (rule_lowered x te1); [by apply Hl|by apply Hr|done|].
    unfold validate_rule in Hx'. destruct (keyword_is "rule" x) eqn:Hk; [|done].
    apply not_true_is_false. intros Hk'. apply keyword_is_eq in Hk, Hk'.
    rewrite Hk in Hk'. discriminate Hk'.
Qed.

Lemma text_lowered s keyword rest :
  lower_operation source s =
    lower_text_operation source (lower_operation source) s (statement_text s) (words (statement_text s)) ->
  words (statement_text s) = keyword :: rest -> keyword = value (stmt_keyword s) ->
  stray_where (statement_text s) && keyword_is "order" s = false -> regular s = true ->
  Forall lowerable (children s) -> Forall (fun x => Forall lowerable (children x)) (children s) ->
  (forall k header settings sp, s <> SynthesizeInline k header settings sp) ->
  (forall k header settings sp, s <> TranscodeInline k header settings sp) ->
  checked s -> lowers (conditions s) (lower_operation source s).
Proof.
  intros -> Hw Hk Hstray Hr Hch Hgch Hns Hnt Hchk.
  assert (Hkw : forall w, keyword_is w s = true -> keyword = lit w).
  { intros w Hkw%keyword_is_eq. congruence. }
  unfold lower_text_operation. rewrite Hw.
  destruct Hchk as [K|K C|K C|K C|K C|K|K C|K C|K C|K C|K C|te K C|te K C].
  - apply Hkw in K as ->. done.
  - assert (Hf : lowers (conditions s) (lower_optional_filter source s (statement_text s))).
    { eapply track_filter_lowered; [done| |done]. apply orb_true_iff in K as [->%Hkw| ->%Hkw]; done. }
    apply orb_true_iff in K as [->%Hkw| ->%Hkw]; unfold lower_track_operation; cbn [lookup list_lookup default];
      decide_words; by apply lowers_bind.
  - rewrite K, andb_true_r in Hstray. destruct (order_filter_lowered s (conditions s) Hstray C) as [Ht Hf].
    apply Hkw in K as ->. unfold lower_track_operation. cbn [lookup list_lookup default]. decide_words.
    rewrite Hw in Ht. rewrite (proj2 (token_is_eq _ _ _) Ht). by apply lowers_bind.
  - assert (Hf : lowers (conditions s) (lower_optional_filter source s (statement_text s))).
    { eapply defaults_filter_lowered; [done| |done]. apply Hkw in K as ->. done. }
    apply Hkw in K as ->. unfold lower_track_operation. cbn [lookup list_lookup default]. decide_words.
    by apply lowers_bind.
  - unfold validate_actions in C. rewrite !clean_app, !clean_if in C.
    destruct C as (_ & Ht%negb_false_iff & _). rewrite Hw in Ht. apply Hkw in K as ->.
    unfold lower_tag_operation. cbn [lookup list_lookup default]. decide_words. by rewrite Ht.
  - apply orb_true_iff in K as [[->%Hkw| ->%Hkw]%orb_true_iff| ->%Hkw]; done.
  - rewrite <- Hw. apply Hkw in K as ->. decide_words. by apply transcode_lowered.
  - rewrite <- Hw. apply Hkw in K as ->. decide_words. by apply extract_lowered.
  - unfold validate_verify_statement in C. rewrite Hw in C. apply Hkw in K as ->. decide_words.
    unfold lower_media_operation. cbn [lookup list_lookup default]. decide_words.
    destruct (token_is _ 1 "artifact"); done.
  - destruct s as [| | |k header settings sp]; try done. by destruct (Hns k header settings sp).
  - unfold validate_audio_compatibility_statement in C. rewrite Hw, clean_if in C.
    apply orb_false_iff in C as [C%negb_false_iff _].
    apply orb_true_iff in C as [C%bool_decide_eq_true|C%bool_decide_eq_true];
      cbn [map] in C; injection C as -> ->; done.
  - rewrite <- Hw. pose proof (Hkw _ K) as ->. decide_words.
    rewrite !bool_decide_eq_false_2 by (by rewrite Hw). by eapply when_lowered.
  - rewrite <- Hw. pose proof (Hkw _ K) as ->. decide_words.
    rewrite !bool_decide_eq_false_2 by (by rewrite Hw). by eapply rules_lowered.
Qed.

Lemma regular_head s :
  regular s = true ->
  match s with
  | Raw k _ _ | Block k _ _ _ =>
      (exists rest, words (statement_text s) = value k :: rest)
      /\ stray_where (statement_text s) && keyword_is "order" s = false
  | TranscodeInline k _ _ _ => value k = lit "transcode"
  | SynthesizeInline k _ _ _ => value k = lit "synthesize"
  end.
Proof.
  destruct s; cbn [regular]; intros [Hr _]%andb_true_iff; try by apply eqb_text_true.
  all: apply andb_true_iff in Hr as [Hw%bool_decide_eq_true Hn%negb_true_iff].
  all: split; [|by rewrite andb_comm].
  all: destruct (words _) as [|w rest]; [done|]; injection Hw as ->; by exists rest.
Qed.

(** A keyword cannot be two words. *)
Lemma keyword_clash s w w' : value (stmt_keyword s) = lit w -> eqb_text (lit w) (lit w') = false ->
  keyword_is w' s = true -> False.
Proof. intros Hw Hne Hk%keyword_is_eq. rewrite Hk in Hw. rewrite Hw in Hne. by rewrite (proj2 (eqb_text_true _ _) eq_refl) in Hne. Qed.

Lemma synthesize_checked s :
  value (stmt_keyword s) = lit "synthesize" -> checked s -> clean (validate_synthesize_statement source s).
Proof.
  intros Hk Hchk.
  assert (Hno : forall w', eqb_text (lit "synthesize") (lit w') = false -> keyword_is w' s = true -> False)
    by (intros w'; by apply keyword_clash).
  destruct Hchk as [K|K _|K _|K _|K _|K|K _|K _|K _|K C|K _|te K _|te K _]; [..|done| | |].
  all: exfalso; rewrite ?orb_true_iff in K; intuition (eapply Hno; [|eassumption]; reflexivity).
Qed.

Lemma all_lowerable s : lowerable s /\ Forall lowerable (children s).
Proof.
  induction s as [k text sp|k name statements sp IH|k header settings sp|k header settings sp]
    using statement_induction; (split; [intros Hr Hchk|]); cbn [children].
  - destruct (regular_head _ Hr) as [[rest Hw] Hs]. by eapply text_lowered.
  - constructor.
  - destruct (regular_head _ Hr) as [[rest Hw] Hs].
    assert (IH1 : Forall lowerable statements) by (eapply Forall_impl; [exact IH|by intros x []]).
    assert (IH2 : Forall (fun x => Forall lowerable (children x)) statements)
      by (eapply Forall_impl; [exact IH|by intros x []]).
    by eapply text_lowered.
  - eapply Forall_impl; [exact IH|by intros x []].
  - exact I.
  - constructor.
  - eapply synthesize_lowered; [done|]. apply synthesize_checked; [|done]. by apply regular_head in Hr.
  - constructor.
Qed.

(** The operations of a clean phase. *)
Lemma operations_lowered ph :
  clean (validate_phase source ph) -> Forall (fun s => regular s = true) (operations ph) ->
  lowers (flat_map conditions (operations ph)) (lower_operations source (operations ph)).
Proof.
  unfold validate_phase. destruct (check_each _ _ _) as [te ds] eqn:E. rewrite !clean_app.
  intros (_ & Hds & _) Hr. assert (Hc : clean (snd (te, ds))) by done. rewrite <- E in Hc.
  apply check_each_clean in Hc. apply lowers_collect. rewrite Forall_forall in Hc, Hr |- *.
  intros s Hs. destruct (Hc s Hs) as [te' Hs']. apply all_lowerable; [by apply Hr|].
  by eapply operation_checked.
Qed.
End lowering.

(** ** Phases *)

(** The condition of a [skip] as the validator and as the lowering find it. *)
Definition validated_skip (text : bytes) : bytes :=
  trim (trim_start_matches (lit "when") (trim (trim_start_matches (lit "skip") text))).
Definition lowered_skip (text : bytes) : bytes :=
  let condition := trim (default text (strip_prefix (lit "skip") text)) in
  trim (default condition (strip_prefix (lit "when") condition)).
Definition regular_control (s : StatementAst) : bool :=
  negb (keyword_is "skip" s)
  || eqb_text (validated_skip (statement_text s)) (lowered_skip (statement_text s)).
Definition regular_phase (ph : PhaseAst) : bool :=
  forallb regular (operations ph) && forallb regular_control (controls ph).

Definition phase_conditions (ph : PhaseAst) : list bytes :=
  flat_map (fun s => if keyword_is "skip" s then [lowered_skip (statement_text s)] else []) (controls ph)
  ++ flat_map conditions (operations ph).

Section phases.
Context (source : bytes).

(** The condition of a [skip] is checked as it is lowered. *)
Lemma skip_checked ph s :
  clean (validate_phase source ph) -> forallb regular_control (controls ph) = true ->
  List.find (keyword_is "skip") (controls ph) = Some s ->
  clean (validate_condition_expression source (stmt_span s) (lowered_skip (statement_text s)))
  /\ lowered_skip (statement_text s) ∈ phase_conditions ph.
Proof.
  unfold validate_phase. destruct (check_each _ _ _) as [te ds]. rewrite !clean_app, clean_flat_map.
  intros [Hc _] Hr [Hin Hk]%List.find_some. rewrite forallb_forall in Hr. specialize (Hr s Hin).
  unfold regular_control in Hr. rewrite Hk in Hr. cbn [negb orb] in Hr. apply eqb_text_true in Hr.
  rewrite Forall_forall in Hc. specialize (Hc s ltac:(by apply list_elem_of_In)).
  unfold validate_control in Hc. rewrite clean_app in Hc. destruct Hc as [_ Hc].
  apply keyword_is_eq in Hk as Hkw.
  destruct (keyword_is "depends_on" s || keyword_is "run_if" s) eqn:Hother.
  { apply orb_true_iff in Hother as [Ho|Ho]; apply keyword_is_eq in Ho; rewrite Ho in Hkw; discriminate Hkw. }
  rewrite Hk in Hc. unfold validate_skip_condition in Hc.
  fold (validated_skip (statement_text s)) in Hc. rewrite Hr in Hc. split; [done|].
  unfold phase_conditions. apply elem_of_app. left.
  apply list_elem_of_In, in_flat_map. exists s. split; [done|]. rewrite Hk. by left.
Qed.

Lemma skip_lowered ph :
  clean (validate_phase source ph) -> forallb regular_control (controls ph) = true ->
  lowers (phase_conditions ph) (phase_skip_if (controls ph)).
Proof.
  intros Hc Hr. unfold phase_skip_if.
  destruct (List.find (keyword_is "skip") (controls ph)) as [s|] eqn:Hf; [|done].
  destruct (skip_checked ph s Hc Hr Hf) as [Hs Hin]. fold (lowered_skip (statement_text s)).
  apply lowers_bind; [|done]. eapply lowers_incl; [|by eapply condition_lowered].
  by intros t ->%list_elem_of_singleton.
Qed.

Lemma phase_lowered ph order :
  clean (validate_phase source ph) -> regular_phase ph = true ->
  (exists ds, phase_run_if source ph order = Err (Refused ds))
  \/ lowers (phase_conditions ph) (lower_phase source order ph).
Proof.
  intros Hc [Hops Hctl]%andb_true_iff. unfold lower_phase.
  destruct (phase_run_if source ph order) as [g|[ds|]] eqn:Hg; [right|left; by exists ds|].
  - apply lowers_bind; [done|]. intros g' _. apply lowers_bind; [by apply skip_lowered|].
    intros c _. apply lowers_bind; [|done].
    eapply lowers_incl; [|apply operations_lowered; [done|]].
    + intros t Ht. unfold phase_conditions. apply elem_of_app. by right.
    + apply Forall_forall. intros s Hs%list_elem_of_In. rewrite forallb_forall in Hops. auto.
  - exfalso. unfold phase_run_if in Hg. destruct (List.find _ _); [|done].
    destruct (CompiledRunIf_parse _) as [g|]; [|done]. cbn in Hg.
    destruct (position _ _) as [i|]; [|done]. destruct (position _ _) as [j|]; [|done].
    by destruct (j <=? i).
Qed.
End phases.

(** The first phase that does not lower. *)
Lemma collect_first_error {E A B} (f : A -> result E B) l e :
  collect f l = Err e -> exists x, x ∈ l /\ f x = Err e.
Proof.
  induction l as [|x l IH]; [done|]. cbn [collect]. destruct (f x) as [y|e'] eqn:Hx; cbn.
  - destruct (collect f l) as [ys|e']; cbn; [done|]. intros [= ->].
    destruct (IH eq_refl) as (z & Hz & Hf). exists z. split; [by right|done].
  - intros [= ->]. exists x. split; [left|done].
Qed.

(** C12: A policy that validates compiles, but for a phase that falls under one
    of these: an irregular statement, a run-if gate that does not parse or
    does not point to an earlier phase (both are refused with a diagnostic),
    or, where the compilation does not end, a condition in which a keyword
    stands alone. *)
Theorem validated_policy_compiles source_hash source ds :
  validate_policy source = Ok ds ->
  exists ast, parse_policy_source source = Ok ast /\
  match compile_policy source_hash source with
  | Ok _ => True
  | Err (CompileFailed e) =>
      ce_error e = EPolicyValidationError
      /\ exists ph, ph ∈ phases ast
         /\ (regular_phase ph = false
             \/ exists ds, phase_run_if source ph (phase_order ast) = Err (Refused ds))
  | Err CompileEndless =>
      exists ph, ph ∈ phases ast
         /\ (regular_phase ph = false \/ Exists has_bare (phase_conditions ph))
  end.
Proof.
  unfold validate_policy, compile_policy, parse_policy_text.
  destruct (parse_policy_source source) as [ast|[e|]]; [|done..]. cbn [mbind result_mbind].
  destruct (has_errors (validate_policy_ast source ast)) eqn:Hc; [done|]. intros _. exists ast.
  split; [done|]. unfold compile_ast, lower_phases.
  destruct (collect _ _) as [compiled|stop] eqn:Hl; [done|]. cbn [mbind result_mbind].
  apply collect_first_error in Hl as (ph & Hph & Hl).
  apply validated_parts in Hc as (_ & _ & _ & _ & _ & Hphs). rewrite Forall_forall in Hphs.
  specialize (Hphs ph Hph). destruct (regular_phase ph) eqn:Hr.
  - destruct (phase_lowered source ph (phase_order ast) Hphs Hr) as [Hg|Hlow].
    + destruct stop; [split; [done|]; exists ph; auto|].
      destruct Hg as [ds' Hg]. unfold lower_phase in Hl. by rewrite Hg in Hl.
    + rewrite Hl in Hlow. destruct stop; [done|]. exists ph. auto.
  - destruct stop; [split; [done|]|]; exists ph; auto.
Qed.
