(* ===== verification/PolicyWitnesses.v ===== *)
(** * A concrete policy

    A policy of two phases, the second of which depends on the first, with a
    filter, a condition and an inline profile; and a registry with one profile
    more than the seeded ones. The lemmas below apply the policy theorems to
    them. *)

From Stdlib Require Import ZArith Lia Bool String Ascii.
From stdpp Require Import base gmap strings list.
From S2P Require Import Prelude Vocab Store Bytes PolicySyntax PolicyParser PolicyTrees.
From S2P Require Import PolicyTrees.
From S2P Require Import PolicyGraph Encoders VideoProfiles TrackFilters.
From S2P Require Import TrackFilterPrint.
From S2P Require Import PolicyCompiled PolicyConditions PolicyProfiles PolicyIdentity.
From S2P Require Import PolicyValidate.
From S2P Require Import PolicyLower PolicyCompile PolicyComplete.

Open Scope nat_scope.

#[local] Instance demo_iso8601 : Iso8601 := be_iso8601.
#[local] Instance demo_iso8601_laws : Iso8601Laws := be_iso8601_laws.

(** A text in which an apostrophe stands for a quote. *)
Definition quoted_text (s : string) : bytes :=
  map (fun c => if Ascii.eqb c "'" then quote else c) (lit s).

Definition demo_policy : bytes := quoted_text
"policy 'demo' {
  config { languages: ['eng', 'fra'] on_error: continue }
  metadata { requires_tools: [ffmpeg] }
  phase encode {
    depends_on: [clean]
    run_if completed clean
    when video.height > 1080 {
      transcode video to hevc { encoder: libx265 crf: 20 preset: slow }
    }
  }
  phase clean {
    skip when container.name == 'mkv'
    keep audio where language in ['eng'] and not commentary
  }
}".
Definition no_hash : bytes -> bytes := fun _ => [].

Ltac evaluate E := vm_compute in E; discriminate E.

Lemma compiled_phases_ordered_witness :
  match compile_policy no_hash demo_policy with
  | Ok out => NoDup (map cp_name (cp_phases (co_policy out)))
              /\ Permutation (cp_phase_order (co_policy out)) (map cp_name (cp_phases (co_policy out)))
  | Err _ => False
  end.
Proof.
  destruct (compile_policy no_hash demo_policy) as [out|e] eqn:E; [|evaluate E].
  destruct (compiled_phases_ordered no_hash demo_policy out E) as (_ & H1 & H2 & _). by split.
Defined.

Lemma compiled_settings_published_witness :
  match compile_policy no_hash demo_policy with
  | Ok out => languages (cp_config (co_policy out)) = [lit "eng"; lit "fra"]
              /\ exists tools, required_tools (co_policy out) = Ok tools
  | Err _ => False
  end.
Proof.
  destruct (compile_policy no_hash demo_policy) as [out|e] eqn:E; [|evaluate E].
  destruct (compiled_settings_published no_hash demo_policy out E) as (_ & Ht & _). split; [|exact Ht].
  vm_compute in E. injection E as <-. reflexivity.
Defined.

Lemma validated_policy_compiles_witness :
  exists ds, validate_policy demo_policy = Ok ds
    /\ exists ast, parse_policy_source demo_policy = Ok ast.
Proof.
  destruct (validate_policy demo_policy) as [ds|e] eqn:E; [|evaluate E].
  exists ds. split; [reflexivity|].
  destruct (validated_policy_compiles no_hash demo_policy ds E) as (ast & Ha & _). by exists ast.
Defined.

Definition demo_filter : TrackFilter :=
  FAnd [FLanguageIn [lit "eng"; lit "und"]; FNot (FOr [FCommentary; FChannels OpGte 6])].
Lemma filter_roundtrip_witness :
  printable demo_filter = true /\ parse_track_filter (print_filter demo_filter) = Ok demo_filter.
Proof.
  split; [vm_compute; reflexivity|].
  apply (filter_roundtrip demo_filter); [vm_compute; reflexivity|].
  apply Nat.leb_le. vm_compute. reflexivity.
Defined.

Definition demo_condition : bytes := lit "not (video.height > 1080 or exists subtitle)".
Lemma condition_lowering_witness :
  fst (is_valid_condition_expression [] (span_new 0 0) demo_condition) = true
  /\ ((exists c, condition_from_text demo_condition = Some c /\ reads demo_condition c)
      \/ has_bare demo_condition).
Proof.
  assert (E : fst (is_valid_condition_expression [] (span_new 0 0) demo_condition) = true)
    by (vm_compute; reflexivity).
  split; [exact E|exact (condition_lowering [] (span_new 0 0) demo_condition E)].
Defined.

Lemma condition_fuel_enough_witness :
  condition_from_text demo_condition = condition_at 100 demo_condition.
Proof.
  apply (condition_fuel_enough [] (span_new 0 0) demo_condition 100).
  apply Nat.ltb_lt. vm_compute. reflexivity.
Defined.

(** Inline settings for [hevc_vaapi], with the surface the encoder needs. *)
Definition setting (key : string) (v : ExprAst) : SettingAst :=
  {| s_key := spanned (lit key) (span_new 0 0); s_value := v |}.
Definition word (s : string) : ExprAst := EIdentifier (spanned (lit s) (span_new 0 0)).
Definition number (s : string) : ExprAst := ENumber (spanned (lit s) (span_new 0 0)).
Definition demo_settings : list SettingAst :=
  [setting "encoder" (word "hevc_vaapi"); setting "qp" (number "20");
   setting "codec_profile" (word "main10"); setting "pixel_format" (word "p010")].
(** The same profile with a default spelled out, in another order. *)
Definition demo_settings_again : list SettingAst :=
  [setting "output_container" (word "mkv"); setting "qp" (number "20");
   setting "pixel_format" (word "p010"); setting "codec_profile" (word "main10");
   setting "encoder" (word "hevc_vaapi")].

Lemma inline_profile_accepted_witness :
  validate_inline_video_profile [] (span_new 0 0) (lit "hevc") demo_settings = []
  /\ exists p d, inline_to_worker_profile no_hash (inline_settings_from demo_settings) = Ok p
     /\ encoder_descriptor (t_encoder p) = Some d /\ t_target_codec p = lit "hevc".
Proof.
  assert (E : validate_inline_video_profile [] (span_new 0 0) (lit "hevc") demo_settings = [])
    by (vm_compute; reflexivity).
  split; [exact E|].
  destruct (inline_profile_accepted no_hash [] (span_new 0 0) (lit "hevc") demo_settings ∅ E)
    as (p & d & H1 & H2 & H3 & _). by exists p, d.
Defined.

Lemma canonical_form_separates_witness :
  canonical_form (inline_settings_from demo_settings)
    = canonical_form (inline_settings_from demo_settings_again)
  /\ inline_to_worker_profile no_hash (inline_settings_from demo_settings)
     = inline_to_worker_profile no_hash (inline_settings_from demo_settings_again).
Proof.
  assert (E : canonical_form (inline_settings_from demo_settings)
    = canonical_form (inline_settings_from demo_settings_again)) by (vm_compute; reflexivity).
  split; [exact E|].
  apply (canonical_form_separates no_hash [] (span_new 0 0) (lit "hevc") demo_settings
           [] (span_new 0 0) (lit "hevc") demo_settings_again);
    [vm_compute; reflexivity|vm_compute; reflexivity|exact E].
Defined.

(** A profile to add to the registry. *)
Definition demo_profile : NewVideoProfile := {|
  nv_name := lit "archive"; nv_encoder := lit "libx265"; nv_crf := Some 18%Z; nv_cq := None;
  nv_qp := None; nv_bitrate_kbps := None; nv_preset := Some (lit "slow"); nv_tune := None;
  nv_codec_profile := None; nv_codec_level := None; nv_pixel_format := None;
  nv_max_width := Some 1920%Z; nv_max_height := None; nv_output_container := lit "mkv";
  nv_copy_compatible := false; nv_decode := Software |}.

Lemma demo_profile_typed : typed_new demo_profile.
Proof. repeat split; intros z [= <-]; reflexivity. Qed.

Lemma registry_sound_witness :
  Forall typed_command [CreateProfile demo_profile; RetireProfile (lit "archive") 5]
  /\ exists v, get_by_name (lit "archive")
       (fold_left (fun t c => run_registry c t)
          [CreateProfile demo_profile; RetireProfile (lit "archive") 5] initial_registry)
     = (Ok (Some v), fold_left (fun t c => run_registry c t)
          [CreateProfile demo_profile; RetireProfile (lit "archive") 5] initial_registry).
Proof.
  assert (H : Forall typed_command [CreateProfile demo_profile; RetireProfile (lit "archive") 5]).
  { repeat constructor; intros z [= <-]; reflexivity. }
  split; [exact H|].
  destruct (registry_sound _ H (lit "archive")) as (v & Hv & _).
  - vm_compute. by eexists.
  - by exists v.
Defined.

Lemma create_outcome_witness :
  registry_ok initial_registry /\ typed_new demo_profile
  /\ exists v t', create demo_profile initial_registry = (Ok v, t')
     /\ get_by_name (lit "archive") t' = (Ok (Some v), t').
Proof.
  split; [exact initial_registry_ok|]. split; [exact demo_profile_typed|].
  pose proof (create_outcome demo_profile initial_registry initial_registry_ok demo_profile_typed) as H.
  replace (NewVideoProfile_validate demo_profile) with (@Ok VoomError _ (lit "hevc")) in H
    by (vm_compute; reflexivity).
  replace (bool_decide (is_Some (initial_registry !! nv_name demo_profile))) with false in H
    by (vm_compute; reflexivity).
  replace (nul_name (nv_name demo_profile)) with false in H by (vm_compute; reflexivity).
  destruct H as (v & t' & H1 & H2 & _). by exists v, t'.
Defined.

(** ** What the compiler does not catch *)

(** A ten-bit profile for [hevc_vaapi] without a ten-bit surface compiles and
    is refused only when the profile is resolved. *)
Definition gap_policy : bytes := quoted_text
"policy 'gap' { phase a { transcode video to hevc {
  encoder: hevc_vaapi qp: 20 codec_profile: main10 } } }".
Lemma inline_gap :
  match compile_policy no_hash gap_policy with
  | Ok out =>
      match map cp_operations (cp_phases (co_policy out)) with
      | [[TranscodeVideo _ _ profile _]] =>
          fst (resolve_video_profile_ref no_hash profile initial_registry) = Err EConfig
      | _ => False
      end
  | Err _ => False
  end.
Proof. vm_compute. reflexivity. Qed.

(** [transcode video to h264] compiles to a profile that is not seeded. *)
Lemma no_default_h264 :
  match compile_policy no_hash (quoted_text "policy 'x' { phase a { transcode video to h264 } }") with
  | Ok out =>
      match map cp_operations (cp_phases (co_policy out)) with
      | [[TranscodeVideo _ _ profile _]] =>
          profile = Named (lit "default-h264")
          /\ fst (resolve_video_profile_ref no_hash profile initial_registry) = Err EConfig
      | _ => False
      end
  | Err _ => False
  end.
Proof. vm_compute. by split. Qed.

(** A comment inside a block is not a comment to the scanner of statements: the
    brace in it closes the block. *)
Lemma comment_in_block :
  match parse_policy_source (quoted_text "policy 'x' { phase a { when video.height > 3 {
    // } when video.width > 1 {
    remove audio
  } } }") with
  | Ok ast => length (flat_map operations (phases ast)) = 2
  | Err _ => False
  end.
Proof. vm_compute. reflexivity. Qed.

(** What follows the settings of an inline block inside its braces is dropped. *)
Lemma inline_block_tail_dropped :
  is_ok (compile_policy no_hash (quoted_text
    "policy 'x' { phase a { transcode video to hevc {
       encoder: libx265 crf: 20 preset: slow } nonsense } }")) = false
  /\ is_ok (parse_policy_source (quoted_text
    "policy 'x' { phase a { transcode video to hevc { crf: {20 } garbage } } }")) = true.
Proof. vm_compute. by split. Qed.

(** A condition with a lone [not] validates and its compilation does not end. *)
Lemma endless_policy :
  is_ok (validate_policy (quoted_text "policy 'x' { phase a { when [not] { container mkv } } }")) = true
  /\ compile_policy no_hash (quoted_text "policy 'x' { phase a { when [not] { container mkv } } }")
     = Err CompileEndless.
Proof. vm_compute. by split. Qed.
