(* ===== verification/PlanModel.v ===== *)
(** * What the planner reads and what it writes

    [voom-policy/src/data/model.rs] (the planning input),
    [voom-control-plane/src/media_snapshot.rs] (the input made from a stored
    snapshot), [voom-plan/src/model.rs] and [diagnostic.rs] (plans), without
    message texts. Stable sorting and the readings of JSON values the planner
    uses are here too. *)

From Stdlib Require Import ZArith Lia Bool String Ascii.
From stdpp Require Import base gmap strings list sorting.
From S2P Require Import Prelude Json Bytes PolicySyntax Encoders TrackFilters PolicyCompiled.

Open Scope Z_scope.

(** ** Readings of JSON values *)

(** [Value::as_str] as a text. *)
Definition json_text (j : Json) : option bytes := lit <$> json_as_str j.
Definition json_as_object (j : Json) : option Json :=
  match j with JObj _ => Some j | _ => None end.
Definition json_as_bool (j : Json) : option bool :=
  match j with JBool b => Some b | _ => None end.
Definition json_string (t : bytes) : Json := JStr (string_of_list_ascii t).
Definition u32_try_from (n : Z) : option Z := if is_u32 n then Some n else None.
Definition json_as_u32 (j : Json) : option Z := json_as_u64 j ≫= u32_try_from.

Definition eq_ignore_ascii_case (a b : bytes) : bool :=
  eqb_text (map to_ascii_lowercase a) (map to_ascii_lowercase b).

(** ** [sort_by_key]: a stable sort *)

Lemma list_filter_perm {A} (f : A -> bool) (l1 l2 : list A) :
  l1 ≡ₚ l2 -> List.filter f l1 ≡ₚ List.filter f l2.
Proof.
  induction 1 as [|x l1 l2 _ IH|x y l|l1 l2 l3 _ IH1 _ IH2]; cbn; [done|..|by etrans].
  - by destruct (f x); [constructor|].
  - destruct (f x), (f y); try done. by constructor.
Qed.

Lemma NoDup_map_filter {A B} (f : A -> B) (p : A -> bool) l :
  NoDup (map f l) -> NoDup (map f (List.filter p l)).
Proof.
  induction l as [|x l IH]; [done|]. cbn. inversion_clear 1 as [|? ? Hx Hl].
  destruct (p x); [|by apply IH]. cbn. constructor; [|by apply IH].
  intros (y & Hy & [Hin _]%filter_In)%list_elem_of_In%in_map_iff. apply Hx, list_elem_of_In.
  rewrite <- Hy. by apply in_map.
Qed.
Lemma NoDup_map_inj {A B} (f : A -> B) l x y :
  NoDup (map f l) -> x ∈ l -> y ∈ l -> f x = f y -> x = y.
Proof.
  induction l as [|z l IH]; [by intros _ ?%elem_of_nil|]. cbn. inversion_clear 1 as [|? ? Hz Hl].
  assert (forall w, w ∈ l -> f w <> f z) as Hd.
  { intros w Hw He. apply Hz. rewrite <- He. by apply list_elem_of_In, in_map, list_elem_of_In. }
  intros [->|Hx]%elem_of_cons [->|Hy]%elem_of_cons He; [done|..|by apply IH].
  - by destruct (Hd y).
  - by destruct (Hd x).
Qed.

Section sorting.
Context {A : Type} (key : A -> Z).
Fixpoint insert_by (x : A) (l : list A) : list A :=
  match l with
  | [] => [x]
  | y :: l' => if key x <=? key y then x :: l else y :: insert_by x l'
  end.
Definition sort_by_key (l : list A) : list A := foldr insert_by [] l.

Lemma insert_by_perm x l : insert_by x l ≡ₚ x :: l.
Proof.
  induction l as [|y l IH]; [done|]. cbn. destruct (key x <=? key y); [done|].
  rewrite IH. by constructor.
Qed.
Lemma sort_by_key_perm l : sort_by_key l ≡ₚ l.
Proof. induction l as [|x l IH]; [done|]. cbn. by rewrite insert_by_perm, IH. Qed.

Lemma insert_by_sorted x l :
  StronglySorted (fun a b => key a <= key b) l ->
  StronglySorted (fun a b => key a <= key b) (insert_by x l).
Proof.
  induction 1 as [|y l Hl IH Hy]; cbn; [by repeat constructor|].
  destruct (key x <=? key y) eqn:Hxy.
  - constructor; [by constructor|]. constructor; [lia|].
    eapply Forall_impl; [exact Hy|]. cbn. lia.
  - constructor; [done|]. rewrite insert_by_perm. constructor; [lia|done].
Qed.
Lemma sort_by_key_sorted l : StronglySorted (fun a b => key a <= key b) (sort_by_key l).
Proof. induction l as [|x l IH]; cbn; [constructor|by apply insert_by_sorted]. Qed.

(** Lists sorted by distinct keys are determined by their elements. *)
Lemma sorted_by_unique l1 l2 :
  NoDup (map key l1) -> l1 ≡ₚ l2 ->
  StronglySorted (fun a b => key a <= key b) l1 -> StronglySorted (fun a b => key a <= key b) l2 ->
  l1 = l2.
Proof.
  revert l2. induction l1 as [|x l1 IH]; intros l2 Hnd Hp H1 H2.
  { by apply Permutation_nil_l in Hp. }
  destruct l2 as [|y l2]; [by apply Permutation_nil_r in Hp|].
  inversion_clear Hnd as [|? ? Hx Hnd']. inversion_clear H1 as [|? ? Hs1 Hf1].
  inversion_clear H2 as [|? ? Hs2 Hf2]. assert (x = y) as <-.
  { destruct (decide (key x = key y)) as [He|He].
    - assert (y ∈ x :: l1) as [->|Hy]%elem_of_cons by (rewrite Hp; left); [done|].
      destruct Hx. rewrite He.
      by apply list_elem_of_In, in_map, list_elem_of_In.
    - assert (y ∈ x :: l1) as [->|Hy]%elem_of_cons by (rewrite Hp; left); [done|].
      assert (x ∈ y :: l2) as [->|Hx']%elem_of_cons by (rewrite <- Hp; left); [done|].
      rewrite Forall_forall in Hf1, Hf2. specialize (Hf1 _ Hy). specialize (Hf2 _ Hx'). cbn in *. lia. }
  f_equal. apply IH; [done|by apply Permutation_cons_inv in Hp|done|done].
Qed.
Lemma sort_by_key_id l :
  NoDup (map key l) -> StronglySorted (fun a b => key a <= key b) l -> sort_by_key l = l.
Proof.
  intros Hnd Hs. symmetry. apply sorted_by_unique; [done|symmetry; apply sort_by_key_perm|done|].
  apply sort_by_key_sorted.
Qed.
Lemma sort_by_key_filter (f : A -> bool) l :
  NoDup (map key l) -> sort_by_key (List.filter f l) = List.filter f (sort_by_key l).
Proof.
  intros Hnd. apply sorted_by_unique; [|..|apply sort_by_key_sorted|].
  - rewrite sort_by_key_perm. induction l as [|x l IH]; [constructor|]. cbn in *.
    inversion_clear Hnd as [|? ? Hx Hl]. destruct (f x); [|by apply IH]. cbn. constructor; [|by apply IH].
    intros (y & Hk & [Hy _]%filter_In)%list_elem_of_In%in_map_iff. apply Hx.
    rewrite <- Hk. by apply list_elem_of_In, in_map.
  - rewrite sort_by_key_perm. symmetry. apply list_filter_perm, sort_by_key_perm.
  - pose proof (sort_by_key_sorted l) as Hs. induction Hs as [|x l' Hs IH Hx]; [constructor|]. cbn.
    destruct (f x); [|done]. constructor; [done|]. rewrite Forall_forall in *.
    intros y Hy%list_elem_of_In%filter_In. apply Hx, list_elem_of_In. tauto.
Qed.
End sorting.

(** ** Taking elements in passes *)

(** [for x in source { if wanted(x) && used.insert(key(x)) { taken.push(x) } }]. *)
Section passes.
Context {A K : Type} `{Countable K} (key : A -> K).
Fixpoint take_new (source : list A) (wanted : A -> bool) (used : gset K) (taken : list A) :
    gset K * list A :=
  match source with
  | [] => (used, taken)
  | x :: source' =>
      if wanted x && negb (bool_decide (key x ∈ used))
      then take_new source' wanted ({[key x]} ∪ used) (taken ++ [x])
      else take_new source' wanted used taken
  end.
Definition take_pass (source : list A) (st : gset K * list A) (wanted : A -> bool) : gset K * list A :=
  take_new source wanted st.1 st.2.

(** The elements in the order of the passes that want them. *)
Definition not_in (l : list A) (x : A) : bool := negb (existsb (fun y => bool_decide (key y = key x)) l).
Definition in_passes (source : list A) (passes : list (A -> bool)) (taken : list A) : list A :=
  fold_left (fun acc p => acc ++ List.filter (fun x => p x && not_in acc x) source) passes taken.

Lemma not_in_spec l x : not_in l x = true <-> key x ∉ map key l.
Proof.
  unfold not_in. rewrite negb_true_iff, <- not_true_iff_false, existsb_exists, list_elem_of_fmap.
  setoid_rewrite bool_decide_eq_true. split.
  - intros Hn (y & He & Hy%list_elem_of_In). apply Hn. eauto.
  - intros Hn (y & Hy%list_elem_of_In & He). apply Hn. eauto.
Qed.

Lemma take_new_filter source wanted used taken :
  NoDup (map key source) -> used = list_to_set (map key taken) ->
  take_new source wanted used taken =
  (list_to_set (map key (taken ++ List.filter (fun x => wanted x && not_in taken x) source)),
   taken ++ List.filter (fun x => wanted x && not_in taken x) source).
Proof.
  intros Hnd Hu. revert used taken Hu. induction source as [|x source IH]; intros used taken Hu; cbn.
  { by rewrite app_nil_r, Hu. }
  inversion_clear Hnd as [|? ? Hx Hnd'].
  assert (negb (bool_decide (key x ∈ used)) = not_in taken x) as Hn.
  { apply eq_bool_prop_intro. rewrite !Is_true_true, not_in_spec, negb_true_iff, bool_decide_eq_false, Hu.
    by rewrite elem_of_list_to_set. }
  rewrite Hn. destruct (wanted x && not_in taken x); [|by apply IH].
  rewrite IH by (done || by rewrite Hu, map_app, list_to_set_app_L; cbn; set_solver).
  assert (List.filter (fun y => wanted y && not_in (taken ++ [x]) y) source
          = List.filter (fun y => wanted y && not_in taken y) source) as ->.
  { apply List.filter_ext_in. intros y Hy. f_equal. unfold not_in. rewrite existsb_app. cbn.
    rewrite bool_decide_eq_false_2; [by rewrite !orb_false_r|].
    intros He. apply Hx. rewrite He. by apply list_elem_of_In, in_map. }
  by rewrite <- app_assoc.
Qed.

Lemma passes_from source passes taken :
  NoDup (map key source) ->
  fold_left (take_pass source) passes (list_to_set (map key taken), taken)
  = (list_to_set (map key (in_passes source passes taken)), in_passes source passes taken).
Proof.
  intros Hnd. revert taken. induction passes as [|p passes IH]; intros taken; [done|]. cbn.
  unfold take_pass at 2. cbn. rewrite take_new_filter by done. apply IH.
Qed.

Lemma in_passes_cons source p passes taken :
  in_passes source (p :: passes) taken
  = in_passes source passes (taken ++ List.filter (fun x => p x && not_in taken x) source).
Proof. done. Qed.
Lemma in_passes_sub source passes taken :
  (forall x, x ∈ taken -> x ∈ source) -> forall x, x ∈ in_passes source passes taken -> x ∈ source.
Proof.
  revert taken. induction passes as [|p passes IH]; intros taken Ht; [done|].
  rewrite in_passes_cons. apply IH. intros x [Hx|Hx]%elem_of_app; [by apply Ht|].
  apply list_elem_of_In, filter_In in Hx as [Hx _]. by apply list_elem_of_In.
Qed.

Lemma filter_filter {B} (p q : B -> bool) l :
  List.filter p (List.filter q l) = List.filter (fun x => p x && q x) l.
Proof.
  induction l as [|x l IH]; [done|]. cbn. rewrite andb_comm. destruct (q x); cbn; [|done].
  by destruct (p x); rewrite IH.
Qed.

(** Passes over the elements of one sort are the passes over all, restricted. *)
Lemma in_passes_filter (q : A -> bool) source passes taken :
  (forall x y, x ∈ source -> y ∈ source -> key x = key y -> x = y) ->
  (forall x, x ∈ taken -> x ∈ source) ->
  List.filter q (in_passes source passes taken)
  = in_passes (List.filter q source) passes (List.filter q taken).
Proof.
  intros Hinj. revert taken. induction passes as [|p passes IH]; intros taken Ht; [done|].
  rewrite !in_passes_cons, IH.
  2: { intros x [Hx|Hx]%elem_of_app; [by apply Ht|].
       apply list_elem_of_In, filter_In in Hx as [Hx _]. by apply list_elem_of_In. }
  f_equal. rewrite List.filter_app, !filter_filter. f_equal. apply List.filter_ext_in. intros x Hx%list_elem_of_In.
  destruct (q x) eqn:Hq; [|by rewrite andb_false_r]. cbn. rewrite andb_true_r. f_equal.
  apply eq_bool_prop_intro. rewrite !Is_true_true, !not_in_spec, !list_elem_of_fmap. split.
  - intros Hn (y & He & Hy). apply Hn. exists y. split; [done|].
    apply list_elem_of_In, filter_In in Hy as [Hy _]. by apply list_elem_of_In.
  - intros Hn (y & He & Hy). apply Hn. exists y. split; [done|].
    apply list_elem_of_In, filter_In. rewrite <- (Hinj x y); [|done|by apply Ht|done].
    split; [|done]. rewrite (Hinj x y); [by apply list_elem_of_In|done|by apply Ht|done].
Qed.

Lemma pass_distinct source p taken :
  NoDup (map key source) -> NoDup (map key taken) ->
  NoDup (map key (taken ++ List.filter (fun x => p x && not_in taken x) source)).
Proof.
  intros Hnd Ht. rewrite map_app. apply NoDup_app. split_and!; [done| |by apply NoDup_map_filter].
  intros k Hk (y & -> & Hy)%list_elem_of_fmap.
  apply list_elem_of_In, filter_In in Hy as [_ [_ Hn]%andb_true_iff]. by apply not_in_spec in Hn.
Qed.
Lemma in_passes_distinct source passes taken :
  NoDup (map key source) -> NoDup (map key taken) -> NoDup (map key (in_passes source passes taken)).
Proof.
  intros Hnd. revert taken. induction passes as [|p passes IH]; intros taken Ht; [done|].
  rewrite in_passes_cons. by apply IH, pass_distinct.
Qed.

(** A last pass that wants everything leaves nothing out. *)
Lemma in_passes_total source passes :
  NoDup (map key source) -> in_passes source (passes ++ [fun _ => true]) [] ≡ₚ source.
Proof.
  intros Hnd. assert (NoDup (map key (in_passes source (passes ++ [fun _ => true]) []))) as Hd.
  { apply in_passes_distinct; [done|constructor]. }
  assert (forall x, x ∈ in_passes source (passes ++ [fun _ => true]) [] -> x ∈ source) as Hsub.
  { apply in_passes_sub. by intros x ?%elem_of_nil. }
  apply NoDup_Permutation; [by apply (NoDup_fmap_1 key)|by apply (NoDup_fmap_1 key)|].
  intros x. split; [apply Hsub|]. intros Hx. unfold in_passes in Hsub |- *.
  rewrite fold_left_app in Hsub |- *. cbn in Hsub |- *. set (taken := fold_left _ passes []) in *.
  apply elem_of_app. destruct (not_in taken x) eqn:Hn.
  - right. apply list_elem_of_In, filter_In. split; [by apply list_elem_of_In|done].
  - left. assert (~ not_in taken x = true) as Hk by congruence. rewrite not_in_spec in Hk.
    apply dec_stable in Hk. apply list_elem_of_fmap in Hk as (y & He & Hy).
    rewrite (NoDup_map_inj key source x y); [done|done|done|apply Hsub, elem_of_app; by left|done].
Qed.
End passes.

Lemma in_passes_ext {A K} `{Countable K} (key : A -> K) source passes passes' taken :
  Forall2 (fun p q => forall x, x ∈ source -> p x = q x) passes passes' ->
  in_passes key source passes taken = in_passes key source passes' taken.
Proof.
  intros Hp. revert taken. induction Hp as [|p q passes passes' Hpq _ IH]; intros taken; [done|].
  rewrite !in_passes_cons, IH. f_equal. f_equal. apply List.filter_ext_in.
  intros x Hx. f_equal. by apply Hpq, list_elem_of_In.
Qed.

(** Passes commute with a renaming that keeps the keys apart. *)
Lemma in_passes_map {A B K L} `{Countable K} `{Countable L} (f : A -> B) (ka : A -> K) (kb : B -> L)
    source passes taken :
  (forall x y, x ∈ source -> y ∈ source -> (kb (f x) = kb (f y) <-> ka x = ka y)) ->
  (forall x, x ∈ taken -> x ∈ source) ->
  in_passes kb (map f source) passes (map f taken)
  = map f (in_passes ka source (map (fun p x => p (f x)) passes) taken).
Proof.
  intros Hk. revert taken. induction passes as [|p passes IH]; intros taken Ht; [done|].
  cbn [map]. rewrite !in_passes_cons, <- IH.
  2: { intros x [Hx|Hx]%elem_of_app; [by apply Ht|].
       apply list_elem_of_In, filter_In in Hx as [Hx _]. by apply list_elem_of_In. }
  f_equal. rewrite map_app. f_equal.
  assert (forall x, x ∈ source -> not_in kb (map f taken) (f x) = not_in ka taken x) as Hn.
  { intros x Hx. apply eq_bool_prop_intro. rewrite !Is_true_true, !not_in_spec, !list_elem_of_fmap. split.
    - intros Hno (y & He & Hy). apply Hno. exists (f y). split; [apply Hk; [done|by apply Ht|done]|].
      apply list_elem_of_fmap. eauto.
    - intros Hno (z & He & (y & -> & Hy)%list_elem_of_fmap). apply Hno. exists y. split; [|done].
      apply Hk; [done|by apply Ht|done]. }
  clear -Hn. induction source as [|x source IHs]; [done|]. cbn. rewrite Hn by left.
  assert (IH' : List.filter (fun x => p x && not_in kb (map f taken) x) (map f source)
          = map f (List.filter (fun x => p (f x) && not_in ka taken x) source)).
  { apply IHs. intros y Hy. apply Hn. by right. }
  destruct (p (f x) && not_in ka taken x); cbn; by rewrite IH'.
Qed.

(** ** The planning input *)

Inductive PolicyInputSourceKind := SourceFixture | SourceTest | SourceImported | SourceManual.
#[global] Instance PolicyInputSourceKind_eq_dec : EqDecision PolicyInputSourceKind.
Proof. solve_decision. Defined.

Inductive TargetKind :=
  KMediaWork | KMediaVariant | KAssetBundle | KFileAsset | KFileVersion | KFileLocation.
Definition TargetKind_as_str (k : TargetKind) : string :=
  match k with
  | KMediaWork => "media_work" | KMediaVariant => "media_variant"
  | KAssetBundle => "asset_bundle" | KFileAsset => "file_asset"
  | KFileVersion => "file_version" | KFileLocation => "file_location"
  end.

Inductive TargetRef :=
  | TMediaWork (id : Z) | TMediaVariant (id : Z) | TAssetBundle (id : Z)
  | TFileAsset (id : Z) | TFileVersion (id : Z) | TFileLocation (id : Z)
  | TSynthetic (key : bytes) (kind : TargetKind).

Definition target_key (t : TargetRef) : bytes :=
  match t with
  | TMediaWork id => lit "media_work:" ++ decimal id
  | TMediaVariant id => lit "media_variant:" ++ decimal id
  | TAssetBundle id => lit "asset_bundle:" ++ decimal id
  | TFileAsset id => lit "file_asset:" ++ decimal id
  | TFileVersion id => lit "file_version:" ++ decimal id
  | TFileLocation id => lit "file_location:" ++ decimal id
  | TSynthetic key kind => lit "synthetic:" ++ lit (TargetKind_as_str kind) ++ lit ":" ++ key
  end.

Record MediaSnapshotInput := {
  si_ordinal : Z;
  si_target : TargetRef;
  si_container : option bytes;
  stream_summary : Json;
  si_video_codec : option bytes;
  si_width : option Z;
  si_height : option Z;
  si_hdr : option bytes;
  si_bitrate : option Z;
  si_duration_millis : option Z;
  si_audio_languages : list bytes;
  si_subtitle_languages : list bytes;
  si_health_flags : list bytes;
  existing_media_snapshot_id : option Z;
}.

(** The [streams] array of the summary, where there is one. *)
Definition summary_streams (s : MediaSnapshotInput) : option (list Json) :=
  json_get (stream_summary s) "streams" ≫= json_as_array.
Definition video_stream_count (s : MediaSnapshotInput) : option Z :=
  json_get (stream_summary s) "video_stream_count" ≫= json_as_u64.

(** ** Cover art *)

Definition legacy_matroska_image (codec_name mime_type filename : option bytes) : bool :=
  match codec_name with Some c => one_of ["mjpeg"; "png"; "gif"; "tiff"]%string c | None => false end
  && match filename with Some _ => true | None => false end
  && match mime_type with Some m => starts_with (lit "image/") m | None => false end.

(** The member of an object that is a text. *)
Definition text_at (stream : Json) (key : string) : option bytes := json_get stream key ≫= json_text.

Definition is_cover_art (stream : Json) : bool :=
  bool_decide (text_at stream "kind" = Some (lit "video"))
  && (bool_decide (json_path stream ["disposition"; "attached_pic"]%string ≫= json_as_bool = Some true)
      || legacy_matroska_image (text_at stream "codec_name") (text_at stream "mime_type")
           (text_at stream "filename")).
Definition is_primary_video (stream : Json) : bool :=
  bool_decide (text_at stream "kind" = Some (lit "video")) && negb (is_cover_art stream).

(** ** The input made from a stored snapshot *)

Record MediaSnapshot := { ms_id : Z; ms_file_version_id : Z; ms_payload : Json }.

(** [as_f64], [Duration::try_from_secs_f64] and [as_millis] of a JSON number:
    floating-point arithmetic, a parameter. *)
Class DurationMillis := duration_millis : Json -> option Z.

Definition canonical_container (payload : Json) : option bytes :=
  container ← json_get payload "container";
  name ← match json_text container with
         | Some t => Some t
         | None => json_get container "format_name" ≫= json_text
         end;
  if one_of ["mkv"; "matroska"; "matroska,webm"]%string name then Some (lit "mkv")
  else if one_of ["mp4"; "mov,mp4"; "mov,mp4,m4a,3gp,3g2,mj2"]%string name then Some (lit "mp4")
  else if eqb_text name (lit "ogg") then Some (lit "ogg")
  else None.

Definition payload_u32 (v : Json) (key : string) : option Z := json_get v key ≫= json_as_u32.

Definition stream_summary_from_snapshot_payload (payload : Json) : Json :=
  let streams := json_get payload "streams" in
  let count := match streams ≫= json_as_array with
               | Some l => Z.of_nat (length (List.filter is_primary_video l))
               | None => 0
               end in
  JObj (("video_stream_count"%string, JInt count)
        :: match streams with Some l => [("streams"%string, l)] | None => [] end).

Definition planning_input `{DurationMillis} (ordinal : Z) (snapshot : MediaSnapshot) :
    MediaSnapshotInput :=
  let payload := ms_payload snapshot in
  let video_stream :=
    l ← json_get payload "streams" ≫= json_as_array; List.find is_primary_video l in
  let container_facts := json_get payload "container" ≫= json_as_object in {|
  si_ordinal := ordinal;
  si_target := TFileVersion (ms_file_version_id snapshot);
  si_container := canonical_container payload;
  stream_summary := stream_summary_from_snapshot_payload payload;
  si_video_codec := match video_stream ≫= (fun s => text_at s "codec_name") with
                    | Some c => Some c
                    | None => text_at payload "video_codec"
                    end;
  si_width := video_stream ≫= (fun s => payload_u32 s "width");
  si_height := video_stream ≫= (fun s => payload_u32 s "height");
  si_hdr := None;
  si_bitrate := (container_facts ≫= (fun f => json_get f "bit_rate")) ≫= json_as_u64;
  si_duration_millis := (container_facts ≫= (fun f => json_get f "duration_seconds")) ≫= duration_millis;
  si_audio_languages := [];
  si_subtitle_languages := [];
  si_health_flags := [];
  existing_media_snapshot_id := Some (ms_id snapshot);
|}.

(** ** Diagnostics and plans *)

Inductive PlanningDiagnosticSeverity := PlanError | PlanWarning.
Inductive PlanningDiagnosticCode :=
  | MissingPolicyInputTarget | UnsupportedOperation | InsufficientSnapshotFactsCode
  | UnsupportedMediaShapeCode | AmbiguousTargetSelection | EmptyTrackFilterSelectionCode
  | AmbiguousTrackFilterSelectionCode | EmptyPolicyPhases | EmptyInputSet
  | InvalidPlanningRequest | DeterministicSerializationFailure
  | UntaggedTrackLanguageDefaulted | AudioCompatibilitySourceMissing
  | UnsupportedAudioCompatibilityLayout | InvalidAudioCompatibilityAssociation.

Inductive PlanOperationKind :=
  | KRemux | KSetContainer | KKeepTracks | KRemoveTracks | KReorderTracks | KSetDefaults
  | KClearTrackActions | KClearTags | KSetTag | KDeleteTag | KTranscodeVideo | KTranscodeAudio
  | KExtractAudio | KVerifyArtifact | KConditional | KRules.
#[global] Instance PlanOperationKind_eq_dec : EqDecision PlanOperationKind.
Proof. solve_decision. Defined.
Definition PlanOperationKind_as_str (k : PlanOperationKind) : string :=
  match k with
  | KRemux => "remux" | KSetContainer => "set_container" | KKeepTracks => "keep_tracks"
  | KRemoveTracks => "remove_tracks" | KReorderTracks => "reorder_tracks"
  | KSetDefaults => "set_defaults" | KClearTrackActions => "clear_track_actions"
  | KClearTags => "clear_tags" | KSetTag => "set_tag" | KDeleteTag => "delete_tag"
  | KTranscodeVideo => "transcode_video" | KTranscodeAudio => "transcode_audio"
  | KExtractAudio => "extract_audio" | KVerifyArtifact => "verify_artifact"
  | KConditional => "conditional" | KRules => "rules"
  end.

Inductive NodeStatus := Planned | NoOp | Blocked.
#[global] Instance NodeStatus_eq_dec : EqDecision NodeStatus.
Proof. solve_decision. Defined.

Record PlanningDiagnostic := {
  pd_severity : PlanningDiagnosticSeverity;
  pd_code : PlanningDiagnosticCode;
  pd_target : option TargetRef;
  pd_phase_name : option bytes;
  pd_operation_kind : option string;
}.
Definition diagnostic_error (code : PlanningDiagnosticCode) : PlanningDiagnostic := {|
  pd_severity := PlanError; pd_code := code; pd_target := None; pd_phase_name := None;
  pd_operation_kind := None |}.
Definition diagnostic_warning (code : PlanningDiagnosticCode) : PlanningDiagnostic := {|
  pd_severity := PlanWarning; pd_code := code; pd_target := None; pd_phase_name := None;
  pd_operation_kind := None |}.
Definition with_target (t : TargetRef) (d : PlanningDiagnostic) : PlanningDiagnostic := {|
  pd_severity := pd_severity d; pd_code := pd_code d; pd_target := Some t;
  pd_phase_name := pd_phase_name d; pd_operation_kind := pd_operation_kind d |}.
Definition with_phase (phase : bytes) (d : PlanningDiagnostic) : PlanningDiagnostic := {|
  pd_severity := pd_severity d; pd_code := pd_code d; pd_target := pd_target d;
  pd_phase_name := Some phase; pd_operation_kind := pd_operation_kind d |}.
Definition with_operation_kind (kind : string) (d : PlanningDiagnostic) : PlanningDiagnostic := {|
  pd_severity := pd_severity d; pd_code := pd_code d; pd_target := pd_target d;
  pd_phase_name := pd_phase_name d; pd_operation_kind := Some kind |}.

(** The plan of one operation for one snapshot, without its status reason. *)
Record OperationPlan := {
  op_kind : PlanOperationKind;
  op_payload : Json;
  op_observed_state : option Json;
  op_status : NodeStatus;
  op_capability : option string;
  op_notes : list bytes;
  op_diagnostics : list PlanningDiagnostic;
}.
Definition OperationPlan_new (k : PlanOperationKind) (payload : Json) (observed : option Json)
    (status : NodeStatus) (capability : option string) : OperationPlan := {|
  op_kind := k; op_payload := payload; op_observed_state := observed; op_status := status;
  op_capability := capability; op_notes := []; op_diagnostics := [] |}.
Definition with_diagnostic (p : OperationPlan) (d : PlanningDiagnostic) : OperationPlan := {|
  op_kind := op_kind p; op_payload := op_payload p; op_observed_state := op_observed_state p;
  op_status := op_status p; op_capability := op_capability p; op_notes := op_notes p;
  op_diagnostics := op_diagnostics p ++ [d] |}.
Definition with_resource_estimates (p : OperationPlan) (notes : list bytes) : OperationPlan := {|
  op_kind := op_kind p; op_payload := op_payload p; op_observed_state := op_observed_state p;
  op_status := op_status p; op_capability := op_capability p; op_notes := notes;
  op_diagnostics := op_diagnostics p |}.

Definition operation_diagnostic (code : PlanningDiagnosticCode) (phase_name : bytes)
    (snapshot : MediaSnapshotInput) (k : PlanOperationKind) : PlanningDiagnostic :=
  with_target (si_target snapshot)
    (with_operation_kind (PlanOperationKind_as_str k)
       (with_phase phase_name (diagnostic_error code))).
Definition with_optional_diagnostic (p : OperationPlan) (code : option PlanningDiagnosticCode)
    (phase_name : bytes) (snapshot : MediaSnapshotInput) (k : PlanOperationKind) : OperationPlan :=
  match code with
  | None => p
  | Some code => with_diagnostic p (operation_diagnostic code phase_name snapshot k)
  end.

(** ** Identifiers

    [voom-plan/src/hash.rs] and [audio/payload.rs]: each identifier is a prefix and the
    first sixteen hex digits of a BLAKE3 hash of a preimage; the hash is a parameter. *)

(** [blake3::hash(..).to_hex()]. *)
Class Blake3Hex := blake3_hex : bytes -> bytes.

Definition STABLE_ID_HEX_LENGTH : nat := 16.

Section ids.
Context `{Blake3Hex}.

Definition stable_prefixed_id (prefix : string) (preimage : bytes) : bytes :=
  lit prefix ++ lit "_" ++ take STABLE_ID_HEX_LENGTH (blake3_hex preimage).

Definition node_preimage (phase_name : bytes) (ordinal : Z) (operation_kind : string) (target_key : bytes) :
    bytes :=
  phase_name ++ [newline] ++ decimal ordinal ++ [newline] ++ lit operation_kind ++ [newline] ++ target_key.
Definition node_id (phase_name : bytes) (ordinal : Z) (operation_kind : string) (target_key : bytes) : bytes :=
  stable_prefixed_id "node" (node_preimage phase_name ordinal operation_kind target_key).

Definition edge_id (from_node_id to_node_id : bytes) (dependency_kind : string) : bytes :=
  stable_prefixed_id "edge"
    (from_node_id ++ [newline] ++ to_node_id ++ [newline] ++ lit dependency_kind).

Definition nul_byte : ascii := "000"%char.
Definition EXTRACT_OUTPUT_ID_DOMAIN : string := "voom.extract_audio.output.v1".
Definition SYNTHESIS_COMPANION_ID_DOMAIN : string := "voom.synthesize_audio.companion.v1".
Definition stream_preimage (domain : string) (operation_id snapshot_stream_id : bytes) : bytes :=
  lit domain ++ [nul_byte] ++ operation_id ++ [nul_byte] ++ snapshot_stream_id.
Definition extract_output_id (operation_id snapshot_stream_id : bytes) : bytes :=
  stable_prefixed_id "extract_output"
    (stream_preimage EXTRACT_OUTPUT_ID_DOMAIN operation_id snapshot_stream_id).
Definition synthesis_companion_id (operation_id snapshot_stream_id : bytes) : bytes :=
  stable_prefixed_id "synth_companion"
    (stream_preimage SYNTHESIS_COMPANION_ID_DOMAIN operation_id snapshot_stream_id).
End ids.

(** ** Preimages tell their parts apart *)

Lemma split_at_first (c : ascii) (a a' b b' : bytes) :
  forallb (fun x => negb (eqc c x)) a = true -> forallb (fun x => negb (eqc c x)) a' = true ->
  a ++ [c] ++ b = a' ++ [c] ++ b' -> a = a' /\ b = b'.
Proof.
  revert a'. induction a as [|x a IH]; intros [|x' a']; cbn.
  - intros _ _ [= ->]. done.
  - intros _ [Hx _]%andb_true_iff [= -> _]. by rewrite eqc_refl in Hx.
  - intros [Hx _]%andb_true_iff _ [= -> _]. by rewrite eqc_refl in Hx.
  - intros [_ Ha]%andb_true_iff [_ Ha']%andb_true_iff [= -> He]. destruct (IH a' Ha Ha' He) as [-> ->]. done.
Qed.

(** The stream of an output is determined by the preimage of its identifier. *)
Lemma stream_preimage_inj domain op id id' :
  stream_preimage domain op id = stream_preimage domain op id' -> id = id'.
Proof. unfold stream_preimage. intros H. by simplify_list_eq. Qed.
