(* ===== verification/PlanStreams.v ===== *)
(** * Stream facts and track selection

    [voom-plan/src/planner/remux/selection.rs]: the facts of the streams of a
    snapshot, the evaluation of a track filter on a stream, and the tracks a
    list of keep and remove actions leaves. The evaluation is partial: a fact
    the filter needs and the snapshot lacks is an error, never a guess. *)

From Stdlib Require Import ZArith Lia Bool String Ascii.
From stdpp Require Import base gmap strings list sorting.
From S2P Require Import Prelude Json Bytes PolicySyntax Encoders TrackFilters PolicyCompiled.
From S2P Require Import PlanModel.

Open Scope Z_scope.

Inductive SnapshotFact (A : Type) := Missing | Malformed | Known (v : A).
Arguments Missing {A}.
Arguments Malformed {A}.
Arguments Known {A} v.
#[global] Instance SnapshotFact_eq_dec {A} `{EqDecision A} : EqDecision (SnapshotFact A).
Proof. solve_decision. Defined.

Record SnapshotStreamFact := {
  sf_id : bytes;
  sf_index : Z;
  sf_kind : TrackTarget;
  sf_codec_name : option bytes;
  sf_language : SnapshotFact bytes;
  sf_channels : option Z;
  sf_title : option bytes;
  sf_mime_type : option bytes;
  sf_filename : option bytes;
  sf_attached_picture : bool;
  sf_commentary : SnapshotFact bool;
  sf_is_default : SnapshotFact bool;
  sf_is_forced : SnapshotFact bool;
}.
#[global] Instance SnapshotStreamFact_eq_dec : EqDecision SnapshotStreamFact.
Proof. solve_decision. Defined.

Inductive RemuxFilterOperation := FilterDefaults (target : TrackTarget) | FilterOrderTracks.
Inductive RemuxPlanningBlock :=
  | InsufficientSnapshotFacts
  | UnsupportedMediaShape
  | EmptyTrackFilterSelection (operation : RemuxFilterOperation)
  | AmbiguousTrackFilterSelection (operation : RemuxFilterOperation) (match_count : nat)
  | ConflictingExplicitDefaults (target : TrackTarget)
  | ConflictingBestDefaultStrategies (target : TrackTarget).
Abbreviation PB := (result RemuxPlanningBlock).

(** ** Facts *)

Definition required_string (v : option Json) : PB bytes :=
  match v ≫= json_text with
  | Some t => if non_empty (trim t) then Ok t else Err InsufficientSnapshotFacts
  | None => Err InsufficientSnapshotFacts
  end.
Definition optional_string (v : option Json) : option bytes := v ≫= json_text.
Definition optional_string_fact (v : option Json) : SnapshotFact bytes :=
  match v with
  | Some (JStr s) => Known (lit s)
  | Some JNull | None => Missing
  | Some _ => Malformed
  end.
Definition disposition_fact (disposition : option Json) (key : string) : SnapshotFact bool :=
  match disposition with
  | None => Missing
  | Some (JObj ms) =>
      match assoc_str key ms with
      | Some (JBool b) => Known b
      | Some JNull | None => Missing
      | Some _ => Malformed
      end
  | Some JNull => Missing
  | Some _ => Malformed
  end.
Definition required_bool_fact (f : SnapshotFact bool) : PB bool :=
  match f with Known b => Ok b | Missing | Malformed => Err InsufficientSnapshotFacts end.

Definition stream_kind (stream : Json) (k : bytes) : option TrackTarget :=
  if eqb_text k (lit "video") then Some (if is_cover_art stream then Attachment else Video)
  else if eqb_text k (lit "audio") then Some Audio
  else if eqb_text k (lit "subtitle") then Some Subtitle
  else if eqb_text k (lit "attachment") then Some Attachment
  else None.

(** One round of the loop of [stream_facts]. *)
Definition stream_fact (stream : Json) (ids : gset bytes) (indexes : gset Z) :
    PB SnapshotStreamFact :=
  o ← ok_or (json_as_object stream) InsufficientSnapshotFacts;
  id ← required_string (json_get o "id");
  if bool_decide (id ∈ ids) then Err InsufficientSnapshotFacts else
  index ← ok_or (json_get o "index" ≫= json_as_u32) InsufficientSnapshotFacts;
  if bool_decide (index ∈ indexes) then Err InsufficientSnapshotFacts else
  attached ← match disposition_fact (json_get o "disposition") "attached_pic" with
             | Known b => Ok b
             | Missing => Ok false
             | Malformed => Err InsufficientSnapshotFacts
             end;
  kind_name ← required_string (json_get o "kind");
  k ← ok_or (stream_kind stream kind_name) InsufficientSnapshotFacts;
  Ok {| sf_id := id; sf_index := index; sf_kind := k;
        sf_codec_name := optional_string (json_get o "codec_name");
        sf_language := optional_string_fact (json_get o "language");
        sf_channels := json_get o "channels" ≫= json_as_u32;
        sf_title := optional_string (json_get o "title");
        sf_mime_type := optional_string (json_get o "mime_type");
        sf_filename := optional_string (json_get o "filename");
        sf_attached_picture := attached;
        sf_commentary := disposition_fact (json_get o "disposition") "commentary";
        sf_is_default := disposition_fact (json_get o "disposition") "default";
        sf_is_forced := disposition_fact (json_get o "disposition") "forced" |}.

Fixpoint stream_facts_from (streams : list Json) (ids : gset bytes) (indexes : gset Z) :
    PB (list SnapshotStreamFact) :=
  match streams with
  | [] => Ok []
  | stream :: streams' =>
      fact ← stream_fact stream ids indexes;
      facts ← stream_facts_from streams' ({[sf_id fact]} ∪ ids) ({[sf_index fact]} ∪ indexes);
      Ok (fact :: facts)
  end.
Definition stream_facts (snapshot : MediaSnapshotInput) : PB (list SnapshotStreamFact) :=
  streams ← ok_or (summary_streams snapshot) InsufficientSnapshotFacts;
  stream_facts_from streams ∅ ∅.

(** ** Filters *)

Definition FONT_ATTACHMENT_MIME_TYPES : list string :=
  ["font/sfnt"; "font/ttf"; "font/otf"; "font/collection"; "font/woff"; "font/woff2";
   "application/x-truetype-font"; "application/x-font-ttf"; "application/vnd.ms-opentype";
   "application/font-sfnt"; "application/font-woff"]%string.
Definition is_font_attachment_mime_type : bytes -> bool := one_of FONT_ATTACHMENT_MIME_TYPES.

Definition compare_u64 (left : Z) (op : ComparisonOp) (right : Z) : bool :=
  match op with
  | OpEq => left =? right
  | OpNe => negb (left =? right)
  | OpLt => left <? right
  | OpLte => left <=? right
  | OpGt => right <? left
  | OpGte => right <=? left
  | OpContains | OpMatches => false
  end.

Definition evaluate_font_filter (s : SnapshotStreamFact) : PB bool :=
  if negb (bool_decide (sf_kind s = Attachment)) || sf_attached_picture s then Ok false
  else m ← ok_or (sf_mime_type s) InsufficientSnapshotFacts; Ok (is_font_attachment_mime_type m).

Definition text_in (values : list bytes) (t : bytes) : bool := bool_decide (t ∈ values).

Fixpoint evaluate_filter (f : TrackFilter) (s : SnapshotStreamFact) : PB bool :=
  match f with
  | FLanguageIn values =>
      match sf_language s with
      | Missing => Ok (text_in values (lit "und"))
      | Known language => Ok (text_in values language)
      | Malformed => Err InsufficientSnapshotFacts
      end
  | FCodecIn values =>
      codec ← ok_or (sf_codec_name s) InsufficientSnapshotFacts; Ok (text_in values codec)
  | FChannels op v =>
      channels ← ok_or (sf_channels s) InsufficientSnapshotFacts; Ok (compare_u64 channels op v)
  | FCommentary => required_bool_fact (sf_commentary s)
  | FTitleMatches _ => Err UnsupportedMediaShape
  | FForced => required_bool_fact (sf_is_forced s)
  | FDefault => required_bool_fact (sf_is_default s)
  | FFont => evaluate_font_filter s
  | FTitleContains v =>
      title ← ok_or (sf_title s) InsufficientSnapshotFacts; Ok (contains v title)
  | FNot inner => b ← evaluate_filter inner s; Ok (negb b)
  | FAnd filters =>
      (fix all (filters : list TrackFilter) (matched : bool) : PB bool :=
         match filters with
         | [] => Ok matched
         | g :: filters' => b ← evaluate_filter g s; all filters' (b && matched)
         end) filters true
  | FOr filters =>
      (fix any (filters : list TrackFilter) (insufficient : bool) : PB bool :=
         match filters with
         | [] => if insufficient then Err InsufficientSnapshotFacts else Ok false
         | g :: filters' =>
             match evaluate_filter g s with
             | Ok true => Ok true
             | Ok false => any filters' insufficient
             | Err InsufficientSnapshotFacts => any filters' true
             | Err block => Err block
             end
         end) filters false
  end.

(** ** Keep and remove actions *)

Inductive RemuxTrackActionKind := ActKeepTracks | ActRemoveTracks.
#[global] Instance RemuxTrackActionKind_eq_dec : EqDecision RemuxTrackActionKind.
Proof. solve_decision. Defined.
Record RemuxTrackAction := {
  ta_kind : RemuxTrackActionKind;
  ta_target : TrackTarget;
  ta_filter : option TrackFilter;
}.

Definition action_matches (a : RemuxTrackAction) (s : SnapshotStreamFact) : PB bool :=
  match ta_filter a with Some f => evaluate_filter f s | None => Ok true end.

Definition mark_track (a : RemuxTrackAction) (id : bytes) (keep_ids : gset bytes) (matched : bool) :
    gset bytes :=
  if matched then
    match ta_kind a with
    | ActKeepTracks => {[id]} ∪ keep_ids
    | ActRemoveTracks => keep_ids ∖ {[id]}
    end
  else keep_ids.
Fixpoint apply_action (a : RemuxTrackAction) (streams : list SnapshotStreamFact)
    (keep_ids : gset bytes) : PB (gset bytes) :=
  match streams with
  | [] => Ok keep_ids
  | s :: streams' =>
      matched ← action_matches a s;
      apply_action a streams' (mark_track a (sf_id s) keep_ids matched)
  end.
Fixpoint apply_actions (facts : list SnapshotStreamFact) (actions : list RemuxTrackAction)
    (keep_ids : gset bytes) : PB (gset bytes) :=
  match actions with
  | [] => Ok keep_ids
  | a :: actions' =>
      let targets := List.filter (fun s => bool_decide (sf_kind s = ta_target a)) facts in
      let keep_ids :=
        match ta_kind a with
        | ActKeepTracks => keep_ids ∖ (list_to_set (map sf_id targets) : gset bytes)
        | ActRemoveTracks => keep_ids
        end in
      keep_ids ← apply_action a targets keep_ids;
      apply_actions facts actions' keep_ids
  end.
Definition resolve_track_keep_ids (facts : list SnapshotStreamFact) (actions : list RemuxTrackAction) :
    PB (gset bytes) :=
  apply_actions facts actions (list_to_set (map sf_id facts)).

(** ** What the facts promise *)

(** Streams are told apart by their id and by their index. *)
Record distinct_streams (facts : list SnapshotStreamFact) : Prop := {
  ds_ids : NoDup (map sf_id facts);
  ds_indexes : NoDup (map sf_index facts);
}.
Definition fact_ok (s : SnapshotStreamFact) : Prop :=
  non_empty (trim (sf_id s)) = true /\ is_u32 (sf_index s) = true.

Lemma required_string_ok v t : required_string v = Ok t -> non_empty (trim t) = true.
Proof.
  unfold required_string. destruct (v ≫= json_text) as [t'|]; [|done].
  destruct (non_empty (trim t')) eqn:E; congruence.
Qed.
Lemma json_as_u32_ok (v : option Json) (n : Z) : v ≫= json_as_u32 = Some n -> is_u32 n = true.
Proof.
  destruct v as [v|]; [|done]. cbn. unfold json_as_u32, u32_try_from.
  destruct (json_as_u64 v) as [m|]; [|done]. cbn. destruct (is_u32 m) eqn:E; congruence.
Qed.

Lemma stream_fact_ok (stream : Json) (ids : gset bytes) (indexes : gset Z) (s : SnapshotStreamFact) :
  stream_fact stream ids indexes = Ok s ->
  fact_ok s /\ (sf_id s ∉ ids) /\ (sf_index s ∉ indexes).
Proof.
  unfold stream_fact. intros (o & _ & (id & Hid & H)%result_bind_ok)%result_bind_ok.
  case_bool_decide as Hids; [done|]. apply result_bind_ok in H as (index & Hindex%ok_or_ok & H).
  case_bool_decide as Hix; [done|].
  apply result_bind_ok in H as (att & _ & (kn & _ & (k & _ & [= <-])%result_bind_ok)%result_bind_ok).
  cbn. split_and!; [split|done|done]; cbn.
  - by eapply required_string_ok.
  - by eapply json_as_u32_ok.
Qed.

Lemma stream_facts_from_ok (streams : list Json) (ids : gset bytes) (indexes : gset Z)
    (facts : list SnapshotStreamFact) :
  stream_facts_from streams ids indexes = Ok facts ->
  distinct_streams facts /\ Forall fact_ok facts
  /\ Forall (fun s => (sf_id s ∉ ids) /\ (sf_index s ∉ indexes)) facts.
Proof.
  revert ids indexes facts. induction streams as [|stream streams IH]; intros ids indexes facts; cbn.
  { intros [= <-]. split_and!; [split|..]; constructor. }
  destruct (stream_fact stream ids indexes) as [s|] eqn:Hs; [|done]. cbn [mbind result_mbind].
  destruct (stream_facts_from _ _ _) as [facts'|] eqn:Hf; [|done]. intros [= <-].
  apply stream_fact_ok in Hs as (Hok & Hid & Hix). apply IH in Hf as ([Hnd1 Hnd2] & Hall & Hnew).
  rewrite Forall_forall in Hnew. split_and!.
  - split; cbn; constructor; try done; intros (t & Ht & Hin%list_elem_of_In)%list_elem_of_In%in_map_iff;
      specialize (Hnew t Hin); set_solver.
  - by constructor.
  - constructor; [done|]. apply Forall_forall. intros t Ht. specialize (Hnew t Ht). set_solver.
Qed.
Lemma stream_facts_ok snapshot facts :
  stream_facts snapshot = Ok facts -> distinct_streams facts /\ Forall fact_ok facts.
Proof.
  unfold stream_facts. destruct (summary_streams snapshot) as [l|]; [|done]. cbn.
  intros (? & ? & _)%stream_facts_from_ok. done.
Qed.

(** ** The selection, track by track *)

(** What happens to one track: a keep action of its kind decides anew, a remove
    action can only take it away, actions on other kinds do not concern it. *)
Fixpoint track_kept (actions : list RemuxTrackAction) (s : SnapshotStreamFact) (kept : bool) : PB bool :=
  match actions with
  | [] => Ok kept
  | a :: actions' =>
      if bool_decide (sf_kind s = ta_target a) then
        m ← action_matches a s;
        track_kept actions' s
          (match ta_kind a with ActKeepTracks => m | ActRemoveTracks => kept && negb m end)
      else track_kept actions' s kept
  end.

(** One action on one track. *)
Definition action_step (a : RemuxTrackAction) (s : SnapshotStreamFact) (kept : bool) : PB bool :=
  track_kept [a] s kept.

Lemma track_kept_cons a actions s kept :
  track_kept (a :: actions) s kept = (b ← action_step a s kept; track_kept actions s b).
Proof.
  unfold action_step. cbn. destruct (bool_decide _); [|done].
  by destruct (action_matches a s) as [m|]; cbn.
Qed.

Lemma apply_action_ok (a : RemuxTrackAction) (streams : list SnapshotStreamFact) (keep_ids ids : gset bytes) :
  NoDup (map sf_id streams) -> apply_action a streams keep_ids = Ok ids ->
  (forall s, s ∈ streams -> exists m, action_matches a s = Ok m /\
     ((sf_id s ∈ ids) <-> match ta_kind a with
                        | ActKeepTracks => m = true \/ sf_id s ∈ keep_ids
                        | ActRemoveTracks => m = false /\ sf_id s ∈ keep_ids
                        end))
  /\ (forall i, i ∉ map sf_id streams -> (i ∈ ids <-> i ∈ keep_ids)).
Proof.
  revert keep_ids. induction streams as [|s streams IH]; intros keep_ids Hnd; cbn.
  { intros [= <-]. split; [intros s Hs; by apply elem_of_nil in Hs|done]. }
  cbn in Hnd. inversion_clear Hnd as [|? ? Hs Hnd'].
  destruct (action_matches a s) as [m|] eqn:Hm; [|done]. cbn [mbind result_mbind]. unfold mark_track.
  intros [Hin Hout]%IH; [|done]. split.
  - intros t [->|Ht]%elem_of_cons.
    + exists m. split; [done|]. rewrite (Hout _ Hs). destruct m, (ta_kind a); set_solver.
    + destruct (Hin t Ht) as (m' & Hm' & Hiff). exists m'. split; [done|]. rewrite Hiff.
      assert (sf_id t <> sf_id s).
      { intros He. apply Hs. rewrite <- He. by apply list_elem_of_In, in_map, list_elem_of_In. }
      destruct m, (ta_kind a); set_solver.
  - intros i Hi. rewrite Hout by set_solver. destruct m, (ta_kind a); set_solver.
Qed.

Lemma apply_action_err (a : RemuxTrackAction) (streams : list SnapshotStreamFact) (keep_ids : gset bytes)
    (e : RemuxPlanningBlock) :
  apply_action a streams keep_ids = Err e -> exists s, s ∈ streams /\ action_matches a s = Err e.
Proof.
  revert keep_ids. induction streams as [|s streams IH]; intros keep_ids; cbn; [done|].
  destruct (action_matches a s) as [m|e'] eqn:Hm; cbn [mbind result_mbind].
  - intros (t & Ht & Hm')%IH. exists t. split; [by right|done].
  - intros [= ->]. exists s. split; [left|done].
Qed.

(** An action on all tracks is the action on each track. *)
Definition reset_for (a : RemuxTrackAction) (targets : list SnapshotStreamFact) (keep_ids : gset bytes) :
    gset bytes :=
  match ta_kind a with
  | ActKeepTracks => keep_ids ∖ (list_to_set (map sf_id targets) : gset bytes)
  | ActRemoveTracks => keep_ids
  end.
Definition targets_of (a : RemuxTrackAction) (facts : list SnapshotStreamFact) : list SnapshotStreamFact :=
  List.filter (fun s => bool_decide (sf_kind s = ta_target a)) facts.

Lemma in_targets_of a facts s : s ∈ targets_of a facts <-> s ∈ facts /\ sf_kind s = ta_target a.
Proof.
  unfold targets_of. rewrite list_elem_of_In, filter_In, <- list_elem_of_In. by rewrite bool_decide_eq_true.
Qed.
Lemma action_on_all (a : RemuxTrackAction) (facts : list SnapshotStreamFact) (keep_ids ids : gset bytes) :
  NoDup (map sf_id facts) ->
  apply_action a (targets_of a facts) (reset_for a (targets_of a facts) keep_ids) = Ok ids ->
  (forall s, s ∈ facts -> exists b, action_step a s (bool_decide (sf_id s ∈ keep_ids)) = Ok b
                              /\ bool_decide (sf_id s ∈ ids) = b)
  /\ (forall i, i ∉ map sf_id facts -> (i ∈ ids <-> i ∈ keep_ids)).
Proof.
  intros Hnd Ha. apply apply_action_ok in Ha as [Hin Hout]; [|by apply NoDup_map_filter].
  assert (forall i, i ∈ map sf_id (targets_of a facts) <->
                    exists s, i = sf_id s /\ s ∈ facts /\ sf_kind s = ta_target a) as Hmap.
  { intros i. rewrite list_elem_of_fmap. by setoid_rewrite in_targets_of. }
  assert (forall i, i ∉ map sf_id (targets_of a facts) ->
                    (i ∈ reset_for a (targets_of a facts) keep_ids <-> i ∈ keep_ids)) as Hreset.
  { intros i Hi. unfold reset_for. destruct (ta_kind a); set_solver. }
  split.
  - intros s Hs. unfold action_step. cbn. case_bool_decide as Hk.
    + destruct (Hin s) as (m & Hm & Hiff); [by apply in_targets_of|]. rewrite Hm. cbn.
      eexists. split; [reflexivity|].
      assert (sf_id s ∈ map sf_id (targets_of a facts)) by (apply Hmap; eauto).
      unfold reset_for in Hiff. destruct (ta_kind a).
      * rewrite (bool_decide_ext _ _ Hiff). destruct m; [by apply bool_decide_eq_true; left|].
        apply bool_decide_eq_false. set_solver.
      * rewrite (bool_decide_ext _ _ Hiff). destruct m; cbn; case_bool_decide; case_bool_decide; naive_solver.
    + eexists. split; [reflexivity|]. apply bool_decide_ext.
      assert (sf_id s ∉ map sf_id (targets_of a facts)).
      { intros (t & He & Ht & Hkt)%Hmap. by rewrite (NoDup_map_inj sf_id facts s t) in Hk. }
      by rewrite Hout, Hreset.
  - intros i Hi. assert (i ∉ map sf_id (targets_of a facts)).
    { intros (t & He & Ht & _)%Hmap. apply Hi. rewrite He. by apply list_elem_of_In, in_map, list_elem_of_In. }
    by rewrite Hout, Hreset.
Qed.

Lemma apply_actions_cons (facts : list SnapshotStreamFact) a actions keep_ids :
  apply_actions facts (a :: actions) keep_ids =
  (ids ← apply_action a (targets_of a facts) (reset_for a (targets_of a facts) keep_ids);
   apply_actions facts actions ids).
Proof. unfold reset_for. cbn. by destruct (ta_kind a). Qed.

Lemma apply_actions_ok (facts : list SnapshotStreamFact) (actions : list RemuxTrackAction) (keep_ids ids : gset bytes) :
  NoDup (map sf_id facts) -> apply_actions facts actions keep_ids = Ok ids ->
  (forall s, s ∈ facts -> track_kept actions s (bool_decide (sf_id s ∈ keep_ids))
                        = Ok (bool_decide (sf_id s ∈ ids)))
  /\ (forall i, i ∉ map sf_id facts -> (i ∈ ids <-> i ∈ keep_ids)).
Proof.
  intros Hnd. revert keep_ids. induction actions as [|a actions IH]; intros keep_ids.
  { cbn. intros [= <-]. done. }
  rewrite apply_actions_cons. intros (ids' & Ha & [Hin Hout]%IH)%result_bind_ok.
  apply action_on_all in Ha as [Hin' Hout']; [|done]. split.
  - intros s Hs. rewrite track_kept_cons. destruct (Hin' s Hs) as (b & Hb & <-). rewrite Hb. cbn.
    by apply Hin.
  - intros i Hi. by rewrite Hout, Hout'.
Qed.

Lemma apply_actions_err (facts : list SnapshotStreamFact) (actions : list RemuxTrackAction) (keep_ids : gset bytes) (e : RemuxPlanningBlock) :
  NoDup (map sf_id facts) -> apply_actions facts actions keep_ids = Err e ->
  exists s, s ∈ facts /\ track_kept actions s (bool_decide (sf_id s ∈ keep_ids)) = Err e.
Proof.
  intros Hnd. revert keep_ids. induction actions as [|a actions IH]; intros keep_ids; [done|].
  rewrite apply_actions_cons.
  destruct (apply_action _ _ _) as [ids'|e'] eqn:Ha; cbn [mbind result_mbind].
  - intros (s & Hs & He)%IH. exists s. split; [done|]. rewrite track_kept_cons.
    apply action_on_all in Ha as [Hin' _]; [|done]. destruct (Hin' s Hs) as (b & Hb & <-). by rewrite Hb.
  - intros [= ->]. apply apply_action_err in Ha as (s & [Hs Hk]%in_targets_of & He).
    exists s. split; [done|]. cbn. rewrite bool_decide_eq_true_2, He by done. done.
Qed.

(** What a keep/remove list leaves is decided track by track: the retained ids are
    exactly those of the tracks the actions of their kind keep, and the list is
    refused exactly when some track's actions cannot be evaluated. *)
Lemma keep_ids_exact (facts : list SnapshotStreamFact) (actions : list RemuxTrackAction) :
  NoDup (map sf_id facts) ->
  match resolve_track_keep_ids facts actions with
  | Ok ids => (forall s, s ∈ facts -> track_kept actions s true = Ok (bool_decide (sf_id s ∈ ids)))
              /\ ids ⊆ list_to_set (map sf_id facts)
  | Err e => exists s, s ∈ facts /\ track_kept actions s true = Err e
  end.
Proof.
  intros Hnd. unfold resolve_track_keep_ids. set (all := list_to_set (map sf_id facts) : gset bytes).
  assert (forall s, s ∈ facts -> bool_decide (sf_id s ∈ all) = true) as Hall.
  { intros s Hs. apply bool_decide_eq_true, elem_of_list_to_set, list_elem_of_fmap. eauto. }
  destruct (apply_actions facts actions all) as [ids|e] eqn:H.
  - apply apply_actions_ok in H as [Hin Hout]; [|done]. split.
    + intros s Hs. rewrite <- Hin by done. by rewrite Hall.
    + intros i Hi. destruct (decide (i ∈ map sf_id facts)); [by apply elem_of_list_to_set|].
      by apply Hout.
  - apply apply_actions_err in H as (s & Hs & He); [|done]. exists s. split; [done|]. by rewrite Hall in He.
Qed.
