(* ===== verification/FilterJson.v ===== *)
(** * Stored forms of track filters

    [voom-policy/src/compile/compiled.rs]: the derived serialization of
    [TrackFilter] and of the small enumerations it is stored with. A filter is an
    object tagged by [type]; a reading refuses members the variant does not have. *)

From Stdlib Require Import ZArith Lia Bool String Ascii.
From stdpp Require Import base strings list.
From S2P Require Import Prelude Json Bytes PolicySyntax TrackFilters TrackFilterPrint.
From S2P Require Import PolicyCompiled PlanModel.

Open Scope nat_scope.

(** ** Enumerations *)

Definition ComparisonOp_name (op : ComparisonOp) : string :=
  match op with
  | OpEq => "eq" | OpNe => "ne" | OpLt => "lt" | OpLte => "lte"
  | OpGt => "gt" | OpGte => "gte" | OpContains => "contains" | OpMatches => "matches"
  end.
Definition ComparisonOp_from_value (j : Json) : option ComparisonOp :=
  s ← json_as_str j;
  List.find (fun op => String.eqb (ComparisonOp_name op) s)
    [OpEq; OpNe; OpLt; OpLte; OpGt; OpGte; OpContains; OpMatches].

Definition track_target_name (t : TrackTarget) : string :=
  match t with
  | Video => "video" | Audio => "audio" | Subtitle => "subtitle" | Attachment => "attachment"
  end.
Definition TrackTarget_from_value (j : Json) : option TrackTarget :=
  s ← json_as_str j;
  List.find (fun t => String.eqb (track_target_name t) s) [Video; Audio; Subtitle; Attachment].

Definition default_strategy_name (s : DefaultStrategy) : string :=
  match s with DFirst => "first" | DBest => "best" | DNone => "none" | DPreserve => "preserve" end.
Definition DefaultStrategy_from_value (j : Json) : option DefaultStrategy :=
  s ← json_as_str j;
  List.find (fun d => String.eqb (default_strategy_name d) s) [DFirst; DBest; DNone; DPreserve].

Lemma ComparisonOp_value_roundtrip op : ComparisonOp_from_value (JStr (ComparisonOp_name op)) = Some op.
Proof. by destruct op. Qed.
Lemma TrackTarget_value_roundtrip t : TrackTarget_from_value (JStr (track_target_name t)) = Some t.
Proof. by destruct t. Qed.
Lemma DefaultStrategy_value_roundtrip s :
  DefaultStrategy_from_value (JStr (default_strategy_name s)) = Some s.
Proof. by destruct s. Qed.

(** ** Filters *)

Fixpoint TrackFilter_to_value (f : TrackFilter) : Json :=
  match f with
  | FLanguageIn vs => JObj [("type", JStr "language_in"); ("values", JArr (map json_string vs))]
  | FCodecIn vs => JObj [("type", JStr "codec_in"); ("values", JArr (map json_string vs))]
  | FChannels op v =>
      JObj [("type", JStr "channels"); ("op", JStr (ComparisonOp_name op)); ("value", JInt v)]
  | FCommentary => JObj [("type", JStr "commentary")]
  | FForced => JObj [("type", JStr "forced")]
  | FDefault => JObj [("type", JStr "default")]
  | FFont => JObj [("type", JStr "font")]
  | FTitleContains v => JObj [("type", JStr "title_contains"); ("value", json_string v)]
  | FTitleMatches v => JObj [("type", JStr "title_matches"); ("value", json_string v)]
  | FNot g => JObj [("type", JStr "not"); ("inner", TrackFilter_to_value g)]
  | FAnd fs => JObj [("type", JStr "and"); ("filters", JArr (map TrackFilter_to_value fs))]
  | FOr fs => JObj [("type", JStr "or"); ("filters", JArr (map TrackFilter_to_value fs))]
  end%string.

Fixpoint collect_opt {A B} (f : A -> option B) (l : list A) : option (list B) :=
  match l with
  | [] => Some []
  | x :: l' => y ← f x; ys ← collect_opt f l'; Some (y :: ys)
  end.

(** [deny_unknown_fields]: an object with the tag and these members only. *)
Definition only_members (allowed : list string) (j : Json) : bool :=
  match j with
  | JObj ms => forallb (fun m => existsb (String.eqb (fst m)) ("type"%string :: allowed)) ms
  | _ => false
  end.
Definition member (allowed : list string) (key : string) (j : Json) : option Json :=
  if only_members allowed j then json_get j key else None.
Definition texts_of (j : Json) : option (list bytes) := l ← json_as_array j; collect_opt json_text l.

Fixpoint filter_of_value (fuel : nat) (j : Json) : option TrackFilter :=
  match fuel with
  | 0 => None
  | S fuel =>
      tag ← json_get j "type" ≫= json_as_str;
      let empty f := if only_members [] j then Some f else None in
      let many (mk : list TrackFilter -> TrackFilter) :=
        mk <$> (l ← member ["filters"%string] "filters" j ≫= json_as_array;
                collect_opt (filter_of_value fuel) l) in
      if String.eqb tag "language_in" then FLanguageIn <$> (member ["values"%string] "values" j ≫= texts_of)
      else if String.eqb tag "codec_in" then FCodecIn <$> (member ["values"%string] "values" j ≫= texts_of)
      else if String.eqb tag "channels" then
        op ← member ["op"; "value"]%string "op" j ≫= ComparisonOp_from_value;
        v ← json_get j "value" ≫= json_as_u64;
        Some (FChannels op v)
      else if String.eqb tag "commentary" then empty FCommentary
      else if String.eqb tag "forced" then empty FForced
      else if String.eqb tag "default" then empty FDefault
      else if String.eqb tag "font" then empty FFont
      else if String.eqb tag "title_contains" then
        FTitleContains <$> (member ["value"%string] "value" j ≫= json_text)
      else if String.eqb tag "title_matches" then
        FTitleMatches <$> (member ["value"%string] "value" j ≫= json_text)
      else if String.eqb tag "not" then
        FNot <$> (member ["inner"%string] "inner" j ≫= filter_of_value fuel)
      else if String.eqb tag "and" then many FAnd
      else if String.eqb tag "or" then many FOr
      else None
  end.
Fixpoint json_depth (j : Json) : nat :=
  match j with
  | JArr l => S (max_list_with json_depth l)
  | JObj ms => S (max_list_with (fun m => json_depth (snd m)) ms)
  | _ => 1
  end.
Definition TrackFilter_from_value (j : Json) : option TrackFilter := filter_of_value (json_depth j) j.

(** ** The round trip *)

(** The numbers of the filter are [u64]s. *)
Fixpoint filter_numbers_ok (f : TrackFilter) : bool :=
  match f with
  | FChannels _ v => is_u64 v
  | FNot g => filter_numbers_ok g
  | FAnd fs | FOr fs => forallb filter_numbers_ok fs
  | _ => true
  end.

Lemma json_text_string t : json_text (json_string t) = Some t.
Proof. unfold json_text, json_string. cbn. f_equal. apply list_ascii_of_string_of_list_ascii. Qed.
Lemma collect_opt_map {A B} (f : A -> option B) (g : B -> A) l :
  Forall (fun y => f (g y) = Some y) l -> collect_opt f (map g l) = Some l.
Proof. induction 1 as [|y l Hy _ IH]; cbn; [done|]. by rewrite Hy, IH. Qed.
Lemma texts_of_strings ts : texts_of (JArr (map json_string ts)) = Some ts.
Proof. cbn. apply collect_opt_map, Forall_true. intros. apply json_text_string. Qed.

Lemma max_list_with_bound {A} (f : A -> nat) l n :
  max_list_with f l <= n <-> Forall (fun x => f x <= n) l.
Proof.
  induction l as [|x l IH]; cbn; [split; [constructor|lia]|].
  rewrite Nat.max_lub_iff, IH. by rewrite Forall_cons.
Qed.
Lemma max_depth_map fs :
  max_list_with json_depth (map TrackFilter_to_value fs)
  = max_list_with (fun f => json_depth (TrackFilter_to_value f)) fs.
Proof. induction fs as [|f fs IH]; [done|]. cbn. by rewrite IH. Qed.

Definition reads_back (f : TrackFilter) : Prop :=
  filter_numbers_ok f = true ->
  forall fuel, json_depth (TrackFilter_to_value f) <= fuel ->
  filter_of_value fuel (TrackFilter_to_value f) = Some f.

Lemma reads_back_many fs fuel :
  Forall reads_back fs -> forallb filter_numbers_ok fs = true ->
  max_list_with (fun f => json_depth (TrackFilter_to_value f)) fs <= fuel ->
  collect_opt (filter_of_value fuel) (map TrackFilter_to_value fs) = Some fs.
Proof.
  intros Hfs Hok Hd. apply collect_opt_map. apply max_list_with_bound in Hd.
  rewrite forallb_forall in Hok. rewrite Forall_forall in *. intros f Hf.
  apply Hfs; [done| |by apply Hd]. by apply Hok, list_elem_of_In.
Qed.

(** Reading what was written gives the filter back. *)
Lemma filter_value_roundtrip f :
  filter_numbers_ok f = true -> TrackFilter_from_value (TrackFilter_to_value f) = Some f.
Proof.
  intros Hok. apply (fun H : reads_back f => H Hok); [|unfold TrackFilter_from_value; done]. clear Hok.
  induction f as [f Hl|g IH|fs IH|fs IH] using filter_induction; intros Hok fuel Hd.
  - destruct fuel as [|fuel]; [destruct f; cbn in Hd; lia|].
    destruct f as [vs|vs|op v| | | | |v|v| | |]; try done; cbn -[json_text texts_of json_string ComparisonOp_from_value].
    + by rewrite texts_of_strings.
    + by rewrite texts_of_strings.
    + rewrite ComparisonOp_value_roundtrip. cbn. cbn in Hok. by rewrite Hok.
    + by rewrite json_text_string.
    + by rewrite json_text_string.
  - destruct fuel as [|fuel]; [cbn in Hd; lia|]. cbn -[max_list_with] in Hd |- *. cbn in Hd.
    rewrite IH; [done|done|lia].
  - destruct fuel as [|fuel]; [cbn in Hd; lia|]. cbn in Hd |- *. rewrite max_depth_map in Hd.
    rewrite reads_back_many; [done|done|done|lia].
  - destruct fuel as [|fuel]; [cbn in Hd; lia|]. cbn in Hd |- *. rewrite max_depth_map in Hd.
    rewrite reads_back_many; [done|done|done|lia].
Qed.

Lemma filter_value_object f : exists ms, TrackFilter_to_value f = JObj ms.
Proof. destruct f; cbn; eauto. Qed.
