(* ===== verification/PlanPayload.v ===== *)
(** * Payloads of remux operations

    [voom-plan/src/planner/remux/payload.rs]: the operation a remux plan node
    carries, written to JSON by the planner and read back where the node is
    executed. Error messages are reduced to the check that failed and its place. *)

From Stdlib Require Import ZArith Lia Bool String Ascii.
From stdpp Require Import base gmap strings list.
From S2P Require Import Prelude Json Bytes PolicySyntax TrackFilters PolicyCompiled PlanModel.
From S2P Require Import FilterJson PlanStreams.

Open Scope string_scope.
Open Scope list_scope.
Open Scope Z_scope.

Inductive RemuxTrackGroup := GVideo | GAudio | GSubtitle | GAttachment.
#[global] Instance RemuxTrackGroup_eq_dec : EqDecision RemuxTrackGroup.
Proof. solve_decision. Defined.

Record RemuxDefaultAction := {
  da_target : TrackTarget;
  da_strategy : DefaultStrategy;
  selected_snapshot_stream_id : option bytes;
}.
Record RemuxOperationPayload := {
  rp_container : bytes;
  source_media_snapshot_id : option Z;
  track_actions : list RemuxTrackAction;
  track_order : list RemuxTrackGroup;
  head_snapshot_stream_id : option bytes;
  audio_head_snapshot_stream_id : option bytes;
  rp_defaults : list RemuxDefaultAction;
}.

Inductive RemuxPayloadError :=
  | PayloadField (field : string)
  | PayloadItem (parent : string) (index : nat)
  | PayloadTwoHeads.
Abbreviation PP := (result RemuxPayloadError).

Definition REMUX_PAYLOAD_TYPE : string := "remux".
Definition REMUX_CONTAINER : string := "mkv".

Definition track_action_kind_name (k : RemuxTrackActionKind) : string :=
  match k with ActKeepTracks => "keep_tracks" | ActRemoveTracks => "remove_tracks" end.
Definition track_group_name (g : RemuxTrackGroup) : string :=
  match g with
  | GVideo => "video" | GAudio => "audio" | GSubtitle => "subtitle" | GAttachment => "attachment"
  end.
Definition default_track_order : list RemuxTrackGroup := [GVideo; GAudio; GSubtitle].

(** ** Writing *)

Definition remux_track_action_value (a : RemuxTrackAction) : Json :=
  JObj ([("type", JStr (track_action_kind_name (ta_kind a)));
         ("target", JStr (track_target_name (ta_target a)))]
        ++ match ta_filter a with Some f => [("filter", TrackFilter_to_value f)] | None => [] end).
Definition remux_default_action_value (a : RemuxDefaultAction) : Json :=
  JObj ([("target", JStr (track_target_name (da_target a)));
         ("strategy", JStr (default_strategy_name (da_strategy a)))]
        ++ match selected_snapshot_stream_id a with
           | Some id => [("selected_snapshot_stream_id", json_string id)] | None => [] end).
Definition optional_member {A} (key : string) (value : A -> Json) (o : option A) : list (string * Json) :=
  match o with Some v => [(key, value v)] | None => [] end.
Definition into_value (p : RemuxOperationPayload) : Json :=
  JObj ([("type", JStr REMUX_PAYLOAD_TYPE);
         ("container", json_string (rp_container p));
         ("track_actions", JArr (map remux_track_action_value (track_actions p)));
         ("track_order", JArr (map (fun g => JStr (track_group_name g)) (track_order p)));
         ("defaults", JArr (map remux_default_action_value (rp_defaults p)))]
        ++ optional_member "head_snapshot_stream_id" json_string (head_snapshot_stream_id p)
        ++ optional_member "audio_head_snapshot_stream_id" json_string (audio_head_snapshot_stream_id p)
        ++ optional_member "source_media_snapshot_id" JInt (source_media_snapshot_id p)).

(** ** Reading *)

(** [iter().enumerate().map(..).collect()]. *)
Fixpoint collect_from {E A B} (f : nat -> A -> result E B) (i : nat) (l : list A) : result E (list B) :=
  match l with
  | [] => Ok []
  | x :: l' => y ← f i x; ys ← collect_from f (S i) l'; Ok (y :: ys)
  end.

Definition parse_optional_stream_id (v : option Json) (e : RemuxPayloadError) : PP (option bytes) :=
  match v with
  | Some JNull | None => Ok None
  | Some j =>
      match json_text j with
      | Some id => if non_empty (trim id) then Ok (Some id) else Err e
      | None => Err e
      end
  end.
Definition parse_object_enum_field {T} (from_value : Json -> option T) (object : Json) (parent : string)
    (index : nat) (field : string) : PP T :=
  v ← ok_or (json_get object field) (PayloadItem parent index);
  ok_or (from_value v) (PayloadItem parent index).

Definition parse_track_action (index : nat) (action : Json) : PP RemuxTrackAction :=
  let e := PayloadItem "track_actions" index in
  object ← ok_or (json_as_object action) e;
  raw_kind ← ok_or (json_get object "type" ≫= json_as_str) e;
  k ← (if String.eqb raw_kind "keep_tracks" then Ok ActKeepTracks
       else if String.eqb raw_kind "remove_tracks" then Ok ActRemoveTracks
       else Err e);
  target ← parse_object_enum_field TrackTarget_from_value object "track_actions" index "target";
  filter ← match json_get object "filter" with
           | Some JNull | None => Ok None
           | Some v => f ← ok_or (TrackFilter_from_value v) e; Ok (Some f)
           end;
  Ok {| ta_kind := k; ta_target := target; ta_filter := filter |}.
Definition parse_track_actions (actions : list Json) : PP (list RemuxTrackAction) :=
  collect_from parse_track_action 0 actions.

Definition parse_track_group (name : string) : option RemuxTrackGroup :=
  List.find (fun g => String.eqb (track_group_name g) name) [GVideo; GAudio; GSubtitle; GAttachment].
Fixpoint parse_track_order_from (order : list Json) (index : nat) (seen : list RemuxTrackGroup) :
    PP (list RemuxTrackGroup) :=
  match order with
  | [] => Ok seen
  | v :: order' =>
      let e := PayloadItem "track_order" index in
      name ← ok_or (json_as_str v) e;
      parsed ← ok_or (parse_track_group name) e;
      if bool_decide (parsed ∈ seen) then Err e
      else parse_track_order_from order' (S index) (seen ++ [parsed])
  end.
Definition parse_track_order (order : list Json) : PP (list RemuxTrackGroup) :=
  parse_track_order_from order 0 [].

Definition parse_default (index : nat) (v : Json) : PP RemuxDefaultAction :=
  object ← ok_or (json_as_object v) (PayloadItem "defaults" index);
  target ← parse_object_enum_field TrackTarget_from_value object "defaults" index "target";
  strategy ← parse_object_enum_field DefaultStrategy_from_value object "defaults" index "strategy";
  selected ← parse_optional_stream_id (json_get object "selected_snapshot_stream_id")
               (PayloadItem "defaults" index);
  Ok {| da_target := target; da_strategy := strategy; selected_snapshot_stream_id := selected |}.
Definition parse_defaults (defaults : list Json) : PP (list RemuxDefaultAction) :=
  collect_from parse_default 0 defaults.

(** A member that is an array, read by [parse]; [absent] where there is none. *)
Definition array_member {A} (object : Json) (field : string) (parse : list Json -> PP (list A))
    (absent : list A) : PP (list A) :=
  match json_get object field with
  | Some v => l ← ok_or (json_as_array v) (PayloadField field); parse l
  | None => Ok absent
  end.

Definition try_from_value (v : Json) : PP RemuxOperationPayload :=
  object ← ok_or (json_as_object v) (PayloadField "");
  if negb (bool_decide (json_get object "type" ≫= json_as_str = Some REMUX_PAYLOAD_TYPE))
  then Err (PayloadField "type") else
  container ← ok_or (json_get object "container" ≫= json_as_str) (PayloadField "container");
  if negb (String.eqb container REMUX_CONTAINER) then Err (PayloadField "container") else
  source ← match json_get object "source_media_snapshot_id" with
           | Some v =>
               match json_as_u64 v with
               | Some id => if 0 <? id then Ok (Some id) else Err (PayloadField "source_media_snapshot_id")
               | None => Err (PayloadField "source_media_snapshot_id")
               end
           | None => Ok None
           end;
  actions ← array_member object "track_actions" parse_track_actions [];
  order ← array_member object "track_order" parse_track_order default_track_order;
  head ← parse_optional_stream_id (json_get object "head_snapshot_stream_id")
           (PayloadField "head_snapshot_stream_id");
  defaults ← array_member object "defaults" parse_defaults [];
  audio_head ← parse_optional_stream_id (json_get object "audio_head_snapshot_stream_id")
                 (PayloadField "audio_head_snapshot_stream_id");
  match head, audio_head with
  | Some _, Some _ => Err PayloadTwoHeads
  | _, _ =>
      Ok {| rp_container := lit container; source_media_snapshot_id := source; track_actions := actions;
            track_order := order; head_snapshot_stream_id := head;
            audio_head_snapshot_stream_id := audio_head; rp_defaults := defaults |}
  end.

Definition try_from_execution_value (v : Json) : PP RemuxOperationPayload :=
  payload ← try_from_value v;
  match source_media_snapshot_id payload with
  | None => Err (PayloadField "source_media_snapshot_id")
  | Some _ => Ok payload
  end.

(** ** The round trip *)

Definition stream_id_ok (id : bytes) : bool := non_empty (trim id).
Definition opt_ok {A} (f : A -> bool) (o : option A) : bool := match o with Some x => f x | None => true end.

(** What a payload must be for its written form to be read. *)
Record payload_ok (p : RemuxOperationPayload) : Prop := {
  po_container : rp_container p = lit REMUX_CONTAINER;
  po_source : opt_ok (fun id => is_u64 id && (0 <? id)) (source_media_snapshot_id p) = true;
  po_filters : forallb (fun a => opt_ok filter_numbers_ok (ta_filter a)) (track_actions p) = true;
  po_order : NoDup (track_order p);
  po_heads : head_snapshot_stream_id p = None \/ audio_head_snapshot_stream_id p = None;
  po_head : opt_ok stream_id_ok (head_snapshot_stream_id p) = true;
  po_audio_head : opt_ok stream_id_ok (audio_head_snapshot_stream_id p) = true;
  po_selected : forallb (fun a => opt_ok stream_id_ok (selected_snapshot_stream_id a)) (rp_defaults p) = true;
}.

Lemma collect_from_map {E A B} (f : nat -> A -> result E B) (g : B -> A) l i :
  (forall j y, y ∈ l -> f j (g y) = Ok y) -> collect_from f i (map g l) = Ok l.
Proof.
  revert i. induction l as [|y l IH]; intros i Hf; [done|]. cbn. rewrite Hf by left. cbn.
  rewrite IH; [done|]. intros j z Hz. apply Hf. by right.
Qed.

Lemma stream_id_roundtrip id e :
  stream_id_ok id = true -> parse_optional_stream_id (Some (json_string id)) e = Ok (Some id).
Proof.
  unfold stream_id_ok. intros H. unfold parse_optional_stream_id. rewrite json_text_string, H. done.
Qed.

Lemma track_action_roundtrip i a :
  opt_ok filter_numbers_ok (ta_filter a) = true ->
  parse_track_action i (remux_track_action_value a) = Ok a.
Proof.
  destruct a as [k t [f|]]; unfold parse_track_action, remux_track_action_value, parse_object_enum_field;
    intros Hf; cbn -[TrackTarget_from_value TrackFilter_from_value].
  - rewrite TrackTarget_value_roundtrip. destruct (filter_value_object f) as [ms Hms].
    pose proof (filter_value_roundtrip f Hf) as Hr. rewrite Hms in *.
    by destruct k; cbn -[TrackFilter_from_value]; rewrite Hr.
  - rewrite TrackTarget_value_roundtrip. by destruct k.
Qed.

Lemma default_roundtrip i a :
  opt_ok stream_id_ok (selected_snapshot_stream_id a) = true ->
  parse_default i (remux_default_action_value a) = Ok a.
Proof.
  destruct a as [t s [id|]]; unfold parse_default, remux_default_action_value, parse_object_enum_field;
    intros Hid; cbn -[TrackTarget_from_value DefaultStrategy_from_value parse_optional_stream_id];
    rewrite TrackTarget_value_roundtrip; cbn -[DefaultStrategy_from_value parse_optional_stream_id];
    rewrite DefaultStrategy_value_roundtrip; cbn -[parse_optional_stream_id]; [|done].
  by rewrite stream_id_roundtrip.
Qed.

Lemma track_order_roundtrip_from gs i seen :
  NoDup (seen ++ gs) ->
  parse_track_order_from (map (fun g => JStr (track_group_name g)) gs) i seen = Ok (seen ++ gs).
Proof.
  revert i seen. induction gs as [|g gs IH]; intros i seen Hnd; cbn -[parse_track_group];
    [by rewrite app_nil_r|].
  assert (parse_track_group (track_group_name g) = Some g) as -> by (by destruct g). cbn.
  assert (g ∉ seen). { apply NoDup_app in Hnd as (_ & Hd & _). intros Hg. apply (Hd g Hg). left. }
  rewrite bool_decide_false by done. rewrite IH; rewrite <- app_assoc; done.
Qed.

Lemma json_get_cons k' v ms k :
  json_get (JObj ((k', v) :: ms)) k = if String.eqb k k' then Some v else json_get (JObj ms) k.
Proof. done. Qed.
Lemma json_get_optional {A} k' (value : A -> Json) o ms k :
  json_get (JObj (optional_member k' value o ++ ms)) k =
  if String.eqb k k' then match o with Some v => Some (value v) | None => json_get (JObj ms) k end
  else json_get (JObj ms) k.
Proof. destruct o; cbn; by destruct (String.eqb k k'). Qed.

Lemma array_roundtrip {A} object field (parse : list Json -> PP (list A)) l items absent :
  json_get object field = Some (JArr l) -> parse l = Ok items ->
  array_member object field parse absent = Ok items.
Proof. intros H1 H2. unfold array_member. by rewrite H1. Qed.

Lemma optional_id_roundtrip o (e : RemuxPayloadError) :
  opt_ok stream_id_ok o = true -> parse_optional_stream_id (json_string <$> o) e = Ok o.
Proof. destruct o as [id|]; [|done]. intros H. by apply stream_id_roundtrip. Qed.

(** The members of a written payload. *)
Lemma into_value_members p :
  json_get (into_value p) "head_snapshot_stream_id" = json_string <$> head_snapshot_stream_id p
  /\ json_get (into_value p) "audio_head_snapshot_stream_id"
     = json_string <$> audio_head_snapshot_stream_id p
  /\ json_get (into_value p) "source_media_snapshot_id" = JInt <$> source_media_snapshot_id p.
Proof.
  unfold into_value. destruct p as [c [s|] acts ord [h|] [ah|] ds]; done.
Qed.

Lemma payload_reads_back p :
  payload_ok p ->
  try_from_value (into_value p) = Ok p
  /\ try_from_execution_value (into_value p)
     = match source_media_snapshot_id p with
       | Some _ => Ok p
       | None => Err (PayloadField "source_media_snapshot_id")
       end.
Proof.
  intros [Hc Hs Hf Ho Hh Hh1 Hh2 Hd].
  assert (try_from_value (into_value p) = Ok p) as Hread.
  2: { split; [done|]. unfold try_from_execution_value. by rewrite Hread. }
  destruct (into_value_members p) as (M1 & M2 & M3). unfold try_from_value.
  change (json_as_object (into_value p)) with (Some (into_value p)). cbn [ok_or mbind result_mbind].
  rewrite bool_decide_eq_true_2 by done. cbn [negb].
  change (json_get (into_value p) "container") with (Some (json_string (rp_container p))).
  rewrite Hc. cbn -[into_value array_member parse_optional_stream_id]. rewrite M1, M2, M3.
  rewrite !optional_id_roundtrip by done. cbn -[into_value array_member]. 
  erewrite (array_roundtrip _ "track_actions"); [|done|].
  2: { apply (collect_from_map parse_track_action). intros j a Ha. apply track_action_roundtrip.
       rewrite forallb_forall in Hf. by apply Hf, list_elem_of_In. }
  erewrite (array_roundtrip _ "track_order"); [|done|by apply (track_order_roundtrip_from _ 0 [])].
  erewrite (array_roundtrip _ "defaults"); [|done|].
  2: { apply (collect_from_map parse_default). intros j a Ha. apply default_roundtrip.
       rewrite forallb_forall in Hd. by apply Hd, list_elem_of_In. }
  destruct p as [c [s|] acts ord h ah ds]; cbn in *; [rewrite andb_true_iff in Hs; destruct Hs as [-> ->]|];
    subst c; destruct Hh as [-> | ->]; cbn; try done; by destruct h.
Qed.

(** What the planner writes into a remux node is what its executor reads: every payload
    with supported container, positive snapshot id, distinct groups, non-blank stream ids
    and at most one head is read back unchanged; an executor additionally
    insists on the pinned snapshot. *)
Theorem remux_payload_roundtrip p :
  payload_ok p ->
  try_from_value (into_value p) = Ok p
  /\ try_from_execution_value (into_value p)
     = match source_media_snapshot_id p with
       | Some _ => Ok p
       | None => Err (PayloadField "source_media_snapshot_id")
       end.
Proof. apply payload_reads_back. Qed.
