(* ===== verification/PlanRemux.v ===== *)
(** * Planning a remux

    [voom-plan/src/planner/remux/mod.rs]: how a group of container and track
    operations is resolved against the facts of a snapshot — the tracks kept, the
    default flags, the order and head of the tracks — and the plan node made from
    the resolution. Status reasons (texts) are left out. *)

From Stdlib Require Import ZArith Lia Bool String Ascii.
From stdpp Require Import base gmap strings list sorting.
From S2P Require Import Prelude Json Bytes PolicySyntax TrackFilters PolicyCompiled PlanModel.
From S2P Require Import FilterJson PlanStreams PlanPayload.

Open Scope string_scope.
Open Scope list_scope.
Open Scope Z_scope.

(** ** Which operations a remux plans *)

Inductive CandidateSupport := Supported | Unsupported.

Definition remux_candidate_kind (o : CompiledOperation) : option PlanOperationKind :=
  match o with
  | SetContainer _ => Some KSetContainer
  | KeepTracks _ _ => Some KKeepTracks
  | RemoveTracks _ _ => Some KRemoveTracks
  | ReorderTracks _ _ => Some KReorderTracks
  | SetDefaults _ _ _ => Some KSetDefaults
  | _ => None
  end.

Fixpoint filter_has_unsupported_shape (f : TrackFilter) : bool :=
  match f with
  | FTitleMatches _ => true
  | FNot g => filter_has_unsupported_shape g
  | FAnd fs | FOr fs => existsb filter_has_unsupported_shape fs
  | _ => false
  end.
Fixpoint duplicate_from (targets seen : list TrackTarget) : bool :=
  match targets with
  | [] => false
  | t :: targets' => if bool_decide (t ∈ seen) then true else duplicate_from targets' (seen ++ [t])
  end.
Definition duplicate_track_targets (targets : list TrackTarget) : bool := duplicate_from targets [].

Definition remux_candidate_support (o : CompiledOperation) : CandidateSupport :=
  match o with
  | SetContainer container =>
      if eq_ignore_ascii_case container (lit "mkv") then Supported else Unsupported
  | KeepTracks target filter | RemoveTracks target filter =>
      if bool_decide (target = Video) then Unsupported
      else match filter with
           | Some f => if filter_has_unsupported_shape f then Unsupported else Supported
           | None => Supported
           end
  | ReorderTracks targets _ => if duplicate_track_targets targets then Unsupported else Supported
  | SetDefaults _ _ _ => Supported
  | _ => Unsupported
  end.

(** ** The payload before resolution *)

Definition remux_track_group (t : TrackTarget) : RemuxTrackGroup :=
  match t with Video => GVideo | Audio => GAudio | Subtitle => GSubtitle | Attachment => GAttachment end.

Definition container_of (o : CompiledOperation) : option bytes :=
  match o with SetContainer c => Some c | _ => None end.
Definition track_action_of (o : CompiledOperation) : option RemuxTrackAction :=
  match o with
  | KeepTracks t f => Some {| ta_kind := ActKeepTracks; ta_target := t; ta_filter := f |}
  | RemoveTracks t f => Some {| ta_kind := ActRemoveTracks; ta_target := t; ta_filter := f |}
  | _ => None
  end.
Definition reorder_of (o : CompiledOperation) : option (list TrackTarget * option TrackFilter) :=
  match o with ReorderTracks ts f => Some (ts, f) | _ => None end.
Definition default_of (o : CompiledOperation) : option RemuxDefaultAction :=
  match o with
  | SetDefaults t s _ =>
      Some {| da_target := t; da_strategy := s; selected_snapshot_stream_id := None |}
  | _ => None
  end.
Definition is_set_container (o : CompiledOperation) : bool :=
  match o with SetContainer _ => true | _ => false end.

Definition base_remux_payload (snapshot : MediaSnapshotInput) (operations : list CompiledOperation) :
    RemuxOperationPayload := {|
  rp_container := default (lit "mkv") (head (omap container_of operations));
  source_media_snapshot_id := existing_media_snapshot_id snapshot;
  track_actions := omap track_action_of operations;
  track_order := match omap reorder_of operations with
                 | [(targets, _)] => map remux_track_group targets
                 | [] => if existsb is_set_container operations then default_track_order else []
                 | _ => []
                 end;
  head_snapshot_stream_id := None;
  audio_head_snapshot_stream_id := None;
  rp_defaults := omap default_of operations;
|}.
Definition remux_payload (snapshot : MediaSnapshotInput) (operations : list CompiledOperation) : Json :=
  into_value (base_remux_payload snapshot operations).

(** ** Streams that are kept *)

Definition is_kind (t : TrackTarget) (s : SnapshotStreamFact) : bool := bool_decide (sf_kind s = t).

Definition retained (keep_ids : gset bytes) (target : option TrackTarget) (s : SnapshotStreamFact) : bool :=
  bool_decide (sf_id s ∈ keep_ids)
  && match target with
     | Some t => bool_decide (sf_kind s = t)
     | None => negb (bool_decide (sf_kind s = Attachment))
     end.
Definition retained_streams (facts : list SnapshotStreamFact) (keep_ids : gset bytes)
    (target : option TrackTarget) : list SnapshotStreamFact :=
  sort_by_key sf_index (List.filter (retained keep_ids target) facts).

Fixpoint matching_ids (streams : list SnapshotStreamFact) (f : TrackFilter) : PB (list bytes) :=
  match streams with
  | [] => Ok []
  | s :: streams' =>
      b ← evaluate_filter f s; ids ← matching_ids streams' f;
      Ok ((fun b : bool => if b then sf_id s :: ids else ids) b)
  end.
Definition resolve_unique_filter (streams : list SnapshotStreamFact) (f : TrackFilter)
    (operation : RemuxFilterOperation) : PB bytes :=
  matches ← matching_ids streams f;
  match matches with
  | [id] => Ok id
  | [] => Err (EmptyTrackFilterSelection operation)
  | _ => Err (AmbiguousTrackFilterSelection operation (length matches))
  end.

(** ** Defaults *)

Definition explicit_default_of (o : CompiledOperation) : option TrackTarget :=
  match o with SetDefaults t _ (Some _) => Some t | _ => None end.
Fixpoint explicit_from (operations : list CompiledOperation) (targets : list TrackTarget) :
    PB (list TrackTarget) :=
  match operations with
  | [] => Ok targets
  | o :: operations' =>
      match explicit_default_of o with
      | Some t =>
          if bool_decide (t ∈ targets) then Err (ConflictingExplicitDefaults t)
          else explicit_from operations' (targets ++ [t])
      | None => explicit_from operations' targets
      end
  end.
Definition explicit_default_targets (operations : list CompiledOperation) : PB (list TrackTarget) :=
  explicit_from operations [].

Definition best_default_of (o : CompiledOperation) : option TrackTarget :=
  match o with SetDefaults t DBest None => Some t | _ => None end.
Definition strategy_of (o : CompiledOperation) : option TrackTarget :=
  match o with SetDefaults t _ None => Some t | _ => None end.
Definition strategy_count (operations : list CompiledOperation) (t : TrackTarget) : nat :=
  length (List.filter (fun t' => bool_decide (t' = t)) (omap strategy_of operations)).
Fixpoint best_conflicts_from (all operations : list CompiledOperation) (explicit_targets : list TrackTarget) :
    PB unit :=
  match operations with
  | [] => Ok tt
  | o :: operations' =>
      match best_default_of o with
      | Some t =>
          if bool_decide (t ∈ explicit_targets) then best_conflicts_from all operations' explicit_targets
          else if (1 <? strategy_count all t)%nat then Err (ConflictingBestDefaultStrategies t)
          else best_conflicts_from all operations' explicit_targets
      | None => best_conflicts_from all operations' explicit_targets
      end
  end.
Definition validate_best_default_strategy_conflicts (operations : list CompiledOperation)
    (explicit_targets : list TrackTarget) : PB unit :=
  best_conflicts_from operations operations explicit_targets.

Definition USIZE_MAX : Z := 2 ^ 64 - 1.
(** [iter().position(..)], or the length. *)
Fixpoint rank_of (preferred : list bytes) (language : bytes) : Z :=
  match preferred with
  | [] => 0
  | p :: preferred' => if eqb_text p language then 0 else 1 + rank_of preferred' language
  end.
Record ResolvedBestDefault := { best_id : bytes; best_untagged : bool }.
Fixpoint best_from (streams : list SnapshotStreamFact) (preferred : list bytes)
    (selected : SnapshotStreamFact) (selected_rank : Z) (untagged : bool) : PB ResolvedBestDefault :=
  match streams with
  | [] => Ok {| best_id := sf_id selected; best_untagged := untagged |}
  | s :: streams' =>
      let step language untagged :=
        let rank := rank_of preferred language in
        if rank <? selected_rank then best_from streams' preferred s rank untagged
        else best_from streams' preferred selected selected_rank untagged in
      match sf_language s with
      | Known language => step language untagged
      | Missing => step (lit "und") true
      | Malformed => Err InsufficientSnapshotFacts
      end
  end.
Definition resolve_best_default (streams : list SnapshotStreamFact) (preferred_languages : list bytes) :
    PB (option ResolvedBestDefault) :=
  match streams with
  | [] => Ok None
  | first :: _ =>
      match preferred_languages with
      | [] => Ok (Some {| best_id := sf_id first; best_untagged := false |})
      | _ => r ← best_from streams preferred_languages first USIZE_MAX false; Ok (Some r)
      end
  end.

Record RemuxDefaultsResolution := {
  dr_actions : list RemuxDefaultAction;
  dr_untagged : bool;
}.
(** The selected stream of one [defaults] operation, and whether an untagged
    track was ranked; [None] where the operation is passed over. *)
Definition default_selection (facts : list SnapshotStreamFact) (keep_ids : gset bytes)
    (preferred_languages : list bytes) (target : TrackTarget) (strategy : DefaultStrategy)
    (filter : option TrackFilter) : PB (option (option bytes * bool)) :=
  match filter with
  | Some f =>
      id ← resolve_unique_filter (retained_streams facts keep_ids (Some target)) f (FilterDefaults target);
      Ok (Some (Some id, false))
  | None =>
      match strategy with
      | DBest =>
          r ← resolve_best_default (retained_streams facts keep_ids (Some target)) preferred_languages;
          Ok (option_map (fun r => (Some (best_id r), best_untagged r)) r)
      | _ => Ok (Some (None, false))
      end
  end.
Fixpoint default_actions_from (operations : list CompiledOperation) (explicit_targets : list TrackTarget)
    (facts : list SnapshotStreamFact) (keep_ids : gset bytes) (preferred_languages : list bytes)
    (acc : RemuxDefaultsResolution) : PB RemuxDefaultsResolution :=
  match operations with
  | [] => Ok acc
  | o :: operations' =>
      let continue acc :=
        default_actions_from operations' explicit_targets facts keep_ids preferred_languages acc in
      match o with
      | SetDefaults target strategy filter =>
          if match filter with None => true | Some _ => false end && bool_decide (target ∈ explicit_targets)
          then continue acc
          else
            selection ← default_selection facts keep_ids preferred_languages target strategy filter;
            match selection with
            | None => continue acc
            | Some (selected, untagged) =>
                continue {| dr_actions := dr_actions acc
                              ++ [{| da_target := target; da_strategy := strategy;
                                     selected_snapshot_stream_id := selected |}];
                            dr_untagged := dr_untagged acc || untagged |}
            end
      | _ => continue acc
      end
  end.
Definition resolve_default_actions (operations : list CompiledOperation) (facts : list SnapshotStreamFact)
    (keep_ids : gset bytes) (preferred_languages : list bytes) : PB RemuxDefaultsResolution :=
  explicit_targets ← explicit_default_targets operations;
  _ ← validate_best_default_strategy_conflicts operations explicit_targets;
  default_actions_from operations explicit_targets facts keep_ids preferred_languages
    {| dr_actions := []; dr_untagged := false |}.

Definition required_default (s : SnapshotStreamFact) : PB bool := required_bool_fact (sf_is_default s).

(** Whether some stream's flag is not the wanted one. *)
Fixpoint flags_change (streams : list SnapshotStreamFact) (wanted : SnapshotStreamFact -> bool) : PB bool :=
  match streams with
  | [] => Ok false
  | s :: streams' =>
      d ← required_default s; rest ← flags_change streams' wanted;
      Ok (negb (Bool.eqb d (wanted s)) || rest)
  end.
Definition has_id (id : bytes) (s : SnapshotStreamFact) : bool := eqb_text (sf_id s) id.
Definition default_change (a : RemuxDefaultAction) (facts : list SnapshotStreamFact) (keep_ids : gset bytes) :
    PB bool :=
  match selected_snapshot_stream_id a with
  | Some id => flags_change (List.filter (retained keep_ids (Some (da_target a))) facts) (has_id id)
  | None =>
      let streams := retained_streams facts keep_ids (Some (da_target a)) in
      match da_strategy a with
      | DFirst =>
          match streams with
          | [] => Err InsufficientSnapshotFacts
          | first :: _ => flags_change streams (has_id (sf_id first))
          end
      | DNone => flags_change streams (fun _ => false)
      | DPreserve => Ok false
      | DBest => Err UnsupportedMediaShape
      end
  end.
Fixpoint defaults_change (defaults : list RemuxDefaultAction) (facts : list SnapshotStreamFact)
    (keep_ids : gset bytes) : PB bool :=
  match defaults with
  | [] => Ok false
  | a :: defaults' =>
      c ← default_change a facts keep_ids; rest ← defaults_change defaults' facts keep_ids; Ok (c || rest)
  end.

(** ** Order *)

Definition desired_order (source : list SnapshotStreamFact) (targets : list TrackTarget)
    (head_id : option bytes) : list SnapshotStreamFact :=
  let start := match head_id with
               | Some id => take_pass sf_id source (∅, []) (has_id id)
               | None => (∅, [])
               end in
  let grouped := fold_left (fun st t => take_pass sf_id source st (is_kind t)) targets start in
  snd (take_pass sf_id source grouped (fun _ => true)).
Definition desired_order_changes (facts : list SnapshotStreamFact) (keep_ids : gset bytes)
    (targets : list TrackTarget) (head_id : option bytes) : bool :=
  let source := retained_streams facts keep_ids None in
  negb (bool_decide (source = desired_order source targets head_id)).

Definition resolve_track_order (operations : list CompiledOperation) (facts : list SnapshotStreamFact)
    (keep_ids : gset bytes) : PB (list RemuxTrackGroup * option bytes * bool) :=
  match omap reorder_of operations with
  | [] => Ok ([], None, false)
  | [(targets, head_filter)] =>
      if duplicate_track_targets targets
         || match targets, head_filter with [], None => true | _, _ => false end
      then Err UnsupportedMediaShape
      else
        head ← match head_filter with
               | Some f =>
                   id ← resolve_unique_filter (retained_streams facts keep_ids None) f FilterOrderTracks;
                   Ok (Some id)
               | None => Ok None
               end;
        Ok (map remux_track_group targets, head, desired_order_changes facts keep_ids targets head)
  | _ => Err UnsupportedMediaShape
  end.

(** ** Resolution *)

Record RemuxResolution := {
  rr_payload : RemuxOperationPayload;
  rr_changed : bool;
  rr_untagged : bool;
}.
Definition has_member (j : Json) (key : string) : bool :=
  match json_get j key with Some _ => true | None => false end.
Definition has_remux_stream_fact_shape (snapshot : MediaSnapshotInput) : bool :=
  match summary_streams snapshot with
  | None => false
  | Some streams =>
      forallb (fun s => match json_as_object s with
                        | Some o => has_member o "id" && has_member o "index" && has_member o "kind"
                        | None => false
                        end) streams
  end.
Definition is_reorder (o : CompiledOperation) : bool :=
  match o with ReorderTracks _ _ => true | _ => false end.

Definition resolved_payload (base : RemuxOperationPayload) (operations : list CompiledOperation)
    (defaults : list RemuxDefaultAction) (order : list RemuxTrackGroup) (head : option bytes) :
    RemuxOperationPayload := {|
  rp_container := rp_container base;
  source_media_snapshot_id := source_media_snapshot_id base;
  track_actions := track_actions base;
  track_order := if existsb is_reorder operations then order else track_order base;
  head_snapshot_stream_id := head;
  audio_head_snapshot_stream_id := audio_head_snapshot_stream_id base;
  rp_defaults := defaults;
|}.
(** The part of [resolve_remux_operations] after the early returns. *)
Definition resolve_tracks (operations : list CompiledOperation) (payload : RemuxOperationPayload)
    (facts : list SnapshotStreamFact) (preferred_languages : list bytes) : PB RemuxResolution :=
  keep_ids ← resolve_track_keep_ids facts (track_actions payload);
  defaults ← resolve_default_actions operations facts keep_ids preferred_languages;
  flags ← defaults_change (dr_actions defaults) facts keep_ids;
  order ← resolve_track_order operations facts keep_ids;
  let '(track_order, head, order_changed) := order in
  Ok {| rr_payload := resolved_payload payload operations (dr_actions defaults) track_order head;
        rr_changed := existsb (fun s => negb (bool_decide (sf_id s ∈ keep_ids))) facts
                      || flags || order_changed;
        rr_untagged := dr_untagged defaults |}.
Definition resolve_remux_operations (snapshot : MediaSnapshotInput) (operations : list CompiledOperation)
    (preferred_languages : list bytes) : PB RemuxResolution :=
  let payload := base_remux_payload snapshot operations in
  let has_track_operation := existsb (fun o => negb (is_set_container o)) operations in
  let unchanged := {| rr_payload := payload; rr_changed := false; rr_untagged := false |} in
  if negb has_track_operation && negb (has_remux_stream_fact_shape snapshot) then
    if bool_decide (video_stream_count snapshot = Some 0) then Err UnsupportedMediaShape else Ok unchanged
  else
    facts ← stream_facts snapshot;
    if negb (existsb (is_kind Video) facts) then Err UnsupportedMediaShape
    else if negb has_track_operation then Ok unchanged
    else resolve_tracks operations payload facts preferred_languages.

(** ** Plan nodes *)

Inductive RemuxGroupShape :=
  | ShapeNoOp
  | ContainerChange (current : bytes)
  | TrackSelectionChange
  | InsufficientFacts
  | UnsupportedShape
  | EmptyFilterSelection
  | AmbiguousFilterSelection.

Definition remux_group_shape (snapshot : MediaSnapshotInput) (target_container : bytes)
    (track_selection_changed : bool) : RemuxGroupShape :=
  match si_container snapshot with
  | None => InsufficientFacts
  | Some current =>
      if eq_ignore_ascii_case current target_container && negb track_selection_changed then ShapeNoOp
      else if eq_ignore_ascii_case current target_container then TrackSelectionChange
      else ContainerChange current
  end.
Definition remux_block_shape (block : RemuxPlanningBlock) : RemuxGroupShape :=
  match block with
  | InsufficientSnapshotFacts => InsufficientFacts
  | UnsupportedMediaShape => UnsupportedShape
  | EmptyTrackFilterSelection _ => EmptyFilterSelection
  | AmbiguousTrackFilterSelection _ _ => AmbiguousFilterSelection
  | ConflictingExplicitDefaults _ => UnsupportedShape
  | ConflictingBestDefaultStrategies _ => UnsupportedShape
  end.

Definition container_state (snapshot : MediaSnapshotInput) : option Json :=
  option_map (fun c => JObj [("container", json_string c)]) (si_container snapshot).

Definition plan_set_container (phase_name : bytes) (snapshot : MediaSnapshotInput) (container : bytes) :
    OperationPlan :=
  let '(status, capability, diagnostic) :=
    match si_container snapshot with
    | Some current =>
        if eqb_text current container then (NoOp, None, None)
        else (Planned, Some "remux_container", None)
    | None => (Blocked, None, Some InsufficientSnapshotFactsCode)
    end in
  with_optional_diagnostic
    (OperationPlan_new KSetContainer (JObj [("container", json_string container)])
       (container_state snapshot) status capability)
    diagnostic phase_name snapshot KSetContainer.

Definition plan_blocked_candidate (phase_name : bytes) (snapshot : MediaSnapshotInput)
    (k : PlanOperationKind) (payload : Json) : OperationPlan :=
  with_diagnostic (OperationPlan_new k payload None Blocked None)
    (operation_diagnostic UnsupportedMediaShapeCode phase_name snapshot k).

Fixpoint filter_references_language (f : TrackFilter) : bool :=
  match f with
  | FLanguageIn _ => true
  | FNot g => filter_references_language g
  | FAnd fs | FOr fs => existsb filter_references_language fs
  | _ => false
  end.
Definition language_filter_of (o : CompiledOperation) : option (option TrackTarget * TrackFilter) :=
  match o with
  | KeepTracks t (Some f) | RemoveTracks t (Some f) | SetDefaults t _ (Some f) => Some (Some t, f)
  | ReorderTracks _ (Some f) => Some (None, f)
  | _ => None
  end.
Definition remux_has_untagged_language_filter (snapshot : MediaSnapshotInput)
    (operations : list CompiledOperation) : bool :=
  match stream_facts snapshot with
  | Err _ => false
  | Ok facts =>
      existsb (fun o =>
        match language_filter_of o with
        | None => false
        | Some (target, f) =>
            filter_references_language f
            && existsb (fun s =>
                 match target with
                 | Some t => bool_decide (sf_kind s = t)
                 | None => negb (bool_decide (sf_kind s = Attachment))
                 end && bool_decide (sf_language s = Missing)) facts
        end) operations
  end.
Definition with_untagged_language_warning (p : OperationPlan) (phase_name : bytes)
    (snapshot : MediaSnapshotInput) (operations : list CompiledOperation) (best_untagged : bool) :
    OperationPlan :=
  if bool_decide (op_status p = Blocked)
     || negb (best_untagged || remux_has_untagged_language_filter snapshot operations)
  then p
  else with_diagnostic p
         (with_target (si_target snapshot)
            (with_operation_kind (PlanOperationKind_as_str KRemux)
               (with_phase phase_name (diagnostic_warning UntaggedTrackLanguageDefaulted)))).

Definition shape_outcome (shape : RemuxGroupShape) :
    NodeStatus * option string * option PlanningDiagnosticCode :=
  match shape with
  | ShapeNoOp => (NoOp, None, None)
  | ContainerChange _ => (Planned, Some "remux_container", None)
  | TrackSelectionChange => (Planned, Some "remux", None)
  | InsufficientFacts => (Blocked, None, Some InsufficientSnapshotFactsCode)
  | UnsupportedShape => (Blocked, None, Some UnsupportedMediaShapeCode)
  | EmptyFilterSelection => (Blocked, None, Some EmptyTrackFilterSelectionCode)
  | AmbiguousFilterSelection => (Blocked, None, Some AmbiguousTrackFilterSelectionCode)
  end.
Definition plan_group (phase_name : bytes) (snapshot : MediaSnapshotInput)
    (operations : list CompiledOperation) (preferred_languages : list bytes) : OperationPlan :=
  let resolution := resolve_remux_operations snapshot operations preferred_languages in
  let payload := match resolution with
                 | Ok r => into_value (rr_payload r)
                 | Err _ => remux_payload snapshot operations
                 end in
  let target_container := default (lit "mkv") (text_at payload "container") in
  let shape := match resolution with
               | Ok r => remux_group_shape snapshot target_container (rr_changed r)
               | Err block => remux_block_shape block
               end in
  let untagged := match resolution with Ok r => rr_untagged r | Err _ => false end in
  let '(status, capability, diagnostic) := shape_outcome shape in
  with_untagged_language_warning
    (with_optional_diagnostic
       (OperationPlan_new KRemux payload (container_state snapshot) status capability)
       diagnostic phase_name snapshot KRemux)
    phase_name snapshot operations untagged.
