(* ===== verification/RemuxSelection.v ===== *)
(** * The selection a remux is dispatched with

    [voom-control-plane/src/remux/selection.rs] and the messages of
    [voom-worker-protocol/src/operations/remux.rs]: the payload of a remux node,
    read back and resolved against the snapshot it pins. Every refusal is a
    [VoomError::Config]. *)

From Stdlib Require Import ZArith Lia Bool String Ascii.
From stdpp Require Import base gmap strings list sorting.
From S2P Require Import Prelude Vocab Json Bytes PolicySyntax TrackFilters PolicyCompiled.
From S2P Require Import PlanModel FilterJson PlanStreams PlanPayload PlanRemux.

Open Scope string_scope.
Open Scope list_scope.
Open Scope Z_scope.

Abbreviation VR := (result VoomError).

Record RemuxStreamRef := { ref_id : bytes; ref_index : Z }.
#[global] Instance RemuxStreamRef_eq_dec : EqDecision RemuxStreamRef.
Proof. solve_decision. Defined.
Record RemuxSelection := {
  keep_streams : list RemuxStreamRef;
  default_streams : list RemuxStreamRef;
  clear_default_streams : list RemuxStreamRef;
  sel_track_order : list RemuxTrackGroup;
  head_streams : list RemuxStreamRef;
  audio_head_stream : option RemuxStreamRef;
  forced_streams : list RemuxStreamRef;
  clear_forced_streams : list RemuxStreamRef;
}.

Definition is_supported_remux_container (container : bytes) : bool :=
  eq_ignore_ascii_case container (lit "mkv").
Definition stream_ref (s : SnapshotStreamFact) : RemuxStreamRef :=
  {| ref_id := sf_id s; ref_index := sf_index s |}.

(** [remux_block_error]: every block is reported as a configuration error. *)
Definition block_result {A} (r : PB A) : VR A :=
  match r with Ok a => Ok a | Err _ => Err EConfig end.

(** ** Default actions *)

Inductive ClassifiedDefaultAction :=
  | ResolvedExplicit (target : TrackTarget) (selected_id : bytes)
  | ResolvedBest (target : TrackTarget) (selected_id : bytes)
  | UnresolvedBest (target : TrackTarget)
  | ClassFirst (target : TrackTarget)
  | ClassNone (target : TrackTarget)
  | ClassPreserve (target : TrackTarget).
Definition classified_target (c : ClassifiedDefaultAction) : TrackTarget :=
  match c with
  | ResolvedExplicit t _ | ResolvedBest t _ | UnresolvedBest t | ClassFirst t | ClassNone t
  | ClassPreserve t => t
  end.
Definition is_resolved_explicit (c : ClassifiedDefaultAction) : bool :=
  match c with ResolvedExplicit _ _ => true | _ => false end.
Definition is_best (c : ClassifiedDefaultAction) : bool :=
  match c with ResolvedBest _ _ | UnresolvedBest _ => true | _ => false end.

Inductive EffectiveDefaultAction :=
  | EffResolved (target : TrackTarget) (selected_id : bytes)
  | EffFirst (target : TrackTarget)
  | EffNone (target : TrackTarget)
  | EffPreserve (target : TrackTarget).
Definition effective_target (e : EffectiveDefaultAction) : TrackTarget :=
  match e with EffResolved t _ | EffFirst t | EffNone t | EffPreserve t => t end.
Definition into_effective (c : ClassifiedDefaultAction) : VR EffectiveDefaultAction :=
  match c with
  | ResolvedExplicit t id | ResolvedBest t id => Ok (EffResolved t id)
  | UnresolvedBest _ => Err EConfig
  | ClassFirst t => Ok (EffFirst t)
  | ClassNone t => Ok (EffNone t)
  | ClassPreserve t => Ok (EffPreserve t)
  end.

Definition classify_default_action (a : RemuxDefaultAction) : VR ClassifiedDefaultAction :=
  match da_strategy a, selected_snapshot_stream_id a with
  | DPreserve, Some id => Ok (ResolvedExplicit (da_target a) id)
  | DBest, Some id => Ok (ResolvedBest (da_target a) id)
  | DFirst, None => Ok (ClassFirst (da_target a))
  | DNone, None => Ok (ClassNone (da_target a))
  | DPreserve, None => Ok (ClassPreserve (da_target a))
  | DBest, None => Ok (UnresolvedBest (da_target a))
  | DFirst, Some _ => Err EConfig
  | DNone, Some _ => Err EConfig
  end.

Fixpoint explicit_targets_from (classified : list ClassifiedDefaultAction) (targets : list TrackTarget) :
    VR (list TrackTarget) :=
  match classified with
  | [] => Ok targets
  | c :: classified' =>
      if negb (is_resolved_explicit c) then explicit_targets_from classified' targets
      else if bool_decide (classified_target c ∈ targets) then Err EConfig
      else explicit_targets_from classified' (targets ++ [classified_target c])
  end.
(** [validate_best_default_strategy_conflicts] of the executor. *)
Definition validate_best_conflicts (defaults : list ClassifiedDefaultAction) : VR unit :=
  if existsb (fun c => is_best c
       && (1 <? length (List.filter (fun c' => bool_decide (classified_target c' = classified_target c))
                          defaults))%nat) defaults
  then Err EConfig else Ok tt.
Definition effective_default_actions (defaults : list RemuxDefaultAction) : VR (list EffectiveDefaultAction) :=
  classified ← collect classify_default_action defaults;
  explicit_targets ← explicit_targets_from classified [];
  let effective :=
    List.filter (fun c => is_resolved_explicit c || negb (bool_decide (classified_target c ∈ explicit_targets)))
      classified in
  _ ← validate_best_conflicts effective;
  collect into_effective effective.

(** ** References *)

Fixpoint dedupe_from (streams : list RemuxStreamRef) (seen : gset bytes) : list RemuxStreamRef :=
  match streams with
  | [] => []
  | r :: streams' =>
      if bool_decide (ref_id r ∈ seen) then dedupe_from streams' seen
      else r :: dedupe_from streams' ({[ref_id r]} ∪ seen)
  end.
Definition dedupe_refs (streams : list RemuxStreamRef) : list RemuxStreamRef := dedupe_from streams ∅.

Definition resolved_kept_stream (id : bytes) (expected_target : option TrackTarget)
    (facts : list SnapshotStreamFact) (keep_ids : gset bytes) : VR SnapshotStreamFact :=
  s ← ok_or (List.find (has_id id) facts) EConfig;
  if negb (bool_decide (id ∈ keep_ids)) then Err EConfig
  else match expected_target with
       | Some t => if negb (bool_decide (sf_kind s = t)) then Err EConfig else Ok s
       | None => Ok s
       end.

Definition kept_target_streams (facts : list SnapshotStreamFact) (keep_ids : gset bytes)
    (target : TrackTarget) : list SnapshotStreamFact :=
  List.filter (fun s => bool_decide (sf_kind s = target) && bool_decide (sf_id s ∈ keep_ids)) facts.

(** [iter().min_by_key(index)]: the first of the least. *)
Fixpoint min_by_index (streams : list SnapshotStreamFact) : option SnapshotStreamFact :=
  match streams with
  | [] => None
  | s :: streams' =>
      match min_by_index streams' with
      | Some t => if sf_index t <? sf_index s then Some t else Some s
      | None => Some s
      end
  end.

(** The streams to set and to clear. *)
Abbreviation flags := (list RemuxStreamRef * list RemuxStreamRef)%type.
Definition observed_flag (value : SnapshotStreamFact -> SnapshotFact bool) (s : SnapshotStreamFact) : flags :=
  match value s with
  | Known true => ([stream_ref s], [])
  | Known false => ([], [stream_ref s])
  | Missing | Malformed => ([], [])
  end.
Definition flags_app (a b : flags) : flags := (a.1 ++ b.1, a.2 ++ b.2).
Definition observed_flags (value : SnapshotStreamFact -> SnapshotFact bool) (l : list SnapshotStreamFact) :
    flags := foldr (fun s rest => flags_app (observed_flag value s) rest) ([], []) l.

Definition default_action_refs (facts : list SnapshotStreamFact) (keep_ids : gset bytes)
    (e : EffectiveDefaultAction) : VR flags :=
  match e with
  | EffResolved target id =>
      s ← resolved_kept_stream id (Some target) facts keep_ids;
      Ok ([stream_ref s],
          map stream_ref (List.filter (fun s => bool_decide (sf_kind s = target) && negb (has_id id s)
                                                && bool_decide (sf_id s ∈ keep_ids)) facts))
  | EffFirst target =>
      let kept := kept_target_streams facts keep_ids target in
      match min_by_index kept with
      | None => Ok ([], [])
      | Some first =>
          Ok ([stream_ref first],
              map stream_ref (List.filter (fun s => negb (has_id (sf_id first) s)) kept))
      end
  | EffNone target => Ok ([], map stream_ref (kept_target_streams facts keep_ids target))
  | EffPreserve target => Ok (observed_flags sf_is_default (kept_target_streams facts keep_ids target))
  end.
Fixpoint default_actions_refs (facts : list SnapshotStreamFact) (keep_ids : gset bytes)
    (defaults : list EffectiveDefaultAction) : VR flags :=
  match defaults with
  | [] => Ok ([], [])
  | e :: defaults' =>
      a ← default_action_refs facts keep_ids e;
      rest ← default_actions_refs facts keep_ids defaults';
      Ok (flags_app a rest)
  end.
Definition untouched_targets (defaults : list EffectiveDefaultAction) : list TrackTarget :=
  List.filter (fun t => negb (existsb (fun e => bool_decide (effective_target e = t)) defaults))
    [Video; Audio; Subtitle].
Definition default_refs (defaults : list EffectiveDefaultAction) (facts : list SnapshotStreamFact)
    (keep_ids : gset bytes) : VR flags :=
  acted ← default_actions_refs facts keep_ids defaults;
  let kept := foldr (fun t rest =>
    flags_app (observed_flags sf_is_default (kept_target_streams facts keep_ids t)) rest)
    ([], []) (untouched_targets defaults) in
  let all := flags_app acted kept in
  Ok (dedupe_refs all.1, dedupe_refs all.2).

Definition forced_refs (facts : list SnapshotStreamFact) (keep_ids : gset bytes) : flags :=
  observed_flags sf_is_forced
    (List.filter (fun s => negb (bool_decide (sf_kind s = Attachment)) && bool_decide (sf_id s ∈ keep_ids))
       facts).
Definition head_refs (head_id : option bytes) (facts : list SnapshotStreamFact) (keep_ids : gset bytes) :
    VR (list RemuxStreamRef) :=
  match head_id with
  | None => Ok []
  | Some id =>
      s ← resolved_kept_stream id None facts keep_ids;
      if bool_decide (sf_kind s = Attachment) then Err EConfig else Ok [stream_ref s]
  end.
Definition audio_head_ref (head_id : option bytes) (facts : list SnapshotStreamFact)
    (keep_ids : gset bytes) : VR (option RemuxStreamRef) :=
  match head_id with
  | None => Ok None
  | Some id => s ← resolved_kept_stream id (Some Audio) facts keep_ids; Ok (Some (stream_ref s))
  end.

Definition reject_empty_audio (facts : list SnapshotStreamFact) (keep_ids : gset bytes) : VR unit :=
  if existsb (is_kind Audio) facts
     && negb (existsb (fun s => is_kind Audio s && bool_decide (sf_id s ∈ keep_ids)) facts)
  then Err EConfig else Ok tt.

Definition placements (sel : RemuxSelection) : list RemuxStreamRef :=
  default_streams sel ++ clear_default_streams sel ++ head_streams sel
  ++ match audio_head_stream sel with Some r => [r] | None => [] end
  ++ forced_streams sel ++ clear_forced_streams sel.
Definition reject_attachment_placements (sel : RemuxSelection) (facts : list SnapshotStreamFact) : VR unit :=
  if existsb (fun r => existsb (fun s => is_kind Attachment s && has_id (ref_id r) s) facts) (placements sel)
  then Err EConfig else Ok tt.

(** ** The selection *)

Definition selection_of (payload : RemuxOperationPayload) (facts : list SnapshotStreamFact)
    (keep_ids : gset bytes) : VR RemuxSelection :=
  _ ← reject_empty_audio facts keep_ids;
  defaults ← effective_default_actions (rp_defaults payload);
  flags ← default_refs defaults facts keep_ids;
  heads ← head_refs (head_snapshot_stream_id payload) facts keep_ids;
  audio_head ← audio_head_ref (audio_head_snapshot_stream_id payload) facts keep_ids;
  let forced := forced_refs facts keep_ids in
  let selection := {|
    keep_streams := map stream_ref (List.filter (fun s => bool_decide (sf_id s ∈ keep_ids)) facts);
    default_streams := flags.1;
    clear_default_streams := flags.2;
    sel_track_order := track_order payload;
    head_streams := heads;
    audio_head_stream := audio_head;
    forced_streams := forced.1;
    clear_forced_streams := forced.2 |} in
  _ ← reject_attachment_placements selection facts;
  Ok selection.

Definition video_ids (facts : list SnapshotStreamFact) : gset bytes :=
  list_to_set (map sf_id (List.filter (is_kind Video) facts)).

Definition selection_from_payload_and_snapshot `{DurationMillis} (payload : Json) (snapshot : MediaSnapshot) :
    VR RemuxSelection :=
  p ← match try_from_execution_value payload with Ok p => Ok p | Err _ => Err EConfig end;
  if negb (is_supported_remux_container (rp_container p)) then Err EConfig
  else if negb (bool_decide (source_media_snapshot_id p = Some (ms_id snapshot))) then Err EConfig
  else
    unsorted ← block_result (stream_facts (planning_input 1 snapshot));
    let facts := sort_by_key sf_index unsorted in
    if negb (existsb (is_kind Video) facts) then Err EConfig
    else if existsb (fun a => bool_decide (ta_target a = Video)) (track_actions p) then Err EConfig
    else
      keep_ids ← block_result (resolve_track_keep_ids facts (track_actions p));
      selection_of p facts (video_ids facts ∪ keep_ids).
