(* ===== verification/RemuxWorker.v ===== *)
(** * The remux worker

    [voom-mkvtoolnix-worker/src/mkvmerge.rs] and [handler.rs]: the tracks
    [mkvmerge] identifies, the checks of a request, the arguments and the track
    order a remux runs with, and the checks of what it produced. The file system
    and the [mkvmerge] process are what a run observes of them ([RemuxRun]); the
    printing of JSON values and the quoting of strings in fingerprints are
    parameters. *)

From Stdlib Require Import ZArith Lia Bool String Ascii.
From stdpp Require Import base gmap strings list sorting.
From S2P Require Import Prelude Vocab Json Bytes PolicySyntax TrackFilters PolicyCompiled.
From S2P Require Import PlanModel FilterJson PlanStreams PlanPayload PlanRemux RemuxSelection.

Open Scope string_scope.
Open Scope list_scope.
Open Scope Z_scope.

(** [Display] of a JSON value, [Debug] of a string, and [sort_unstable] with
    [join] over the fields: the text a fingerprint is. *)
Class FingerprintText := {
  display_json : Json -> bytes;
  debug_text : bytes -> bytes;
  sorted_lines : list bytes -> bytes;
}.

Inductive MkvtoolnixError := Preflight | MkvmergeFailed | IdentifyFailed | OutputFactsMismatch | ConfigInvalid.
Inductive ObserveError := ObserveUnavailable | ObserveChecksumMismatch.
Inductive MkvtoolnixWorkerError :=
  WConfigInvalid | WArtifactUnavailable | WArtifactChecksumMismatch | WExternalSystemUnavailable
  | WMalformedWorkerResult.
#[global] Instance MkvtoolnixWorkerError_eq_dec : EqDecision MkvtoolnixWorkerError.
Proof. solve_decision. Defined.

Definition worker_failure_class (e : MkvtoolnixWorkerError) : FailureClass :=
  match e with
  | WConfigInvalid | WMalformedWorkerResult => FC_MalformedWorkerResult
  | WArtifactUnavailable => FC_ArtifactUnavailable
  | WArtifactChecksumMismatch => FC_ArtifactChecksumMismatch
  | WExternalSystemUnavailable => FC_ExternalSystemUnavailable
  end.
Definition worker_error_code (e : MkvtoolnixWorkerError) : ErrorCode :=
  match e with
  | WConfigInvalid => EC_ConfigInvalid
  | _ => FailureClass_into_error_code (worker_failure_class e)
  end.
Definition from_observe_error (e : ObserveError) : MkvtoolnixWorkerError :=
  match e with
  | ObserveUnavailable => WArtifactUnavailable
  | ObserveChecksumMismatch => WArtifactChecksumMismatch
  end.
Definition from_mkvtoolnix_error (e : MkvtoolnixError) : MkvtoolnixWorkerError :=
  match e with
  | ConfigInvalid => WConfigInvalid
  | OutputFactsMismatch => WMalformedWorkerResult
  | Preflight | MkvmergeFailed | IdentifyFailed => WExternalSystemUnavailable
  end.
Definition map_err {E F A} (f : E -> F) (r : result E A) : result F A :=
  match r with Ok a => Ok a | Err e => Err (f e) end.
Abbreviation MR := (result MkvtoolnixError).
Abbreviation WR := (result MkvtoolnixWorkerError).

(** ** Identified tracks *)

Inductive MkvmergeTrackKind := TkVideo | TkAudio | TkSubtitle | TkAttachment | TkOther.
#[global] Instance MkvmergeTrackKind_eq_dec : EqDecision MkvmergeTrackKind.
Proof. solve_decision. Defined.
Definition kind_from_identify (v : bytes) : MkvmergeTrackKind :=
  if eqb_text v (lit "video") then TkVideo
  else if eqb_text v (lit "audio") then TkAudio
  else if one_of ["subtitles"; "subtitle"] v then TkSubtitle
  else TkOther.
Definition matches_group (k : MkvmergeTrackKind) (g : RemuxTrackGroup) : bool :=
  match k, g with
  | TkVideo, GVideo | TkAudio, GAudio | TkSubtitle, GSubtitle | TkAttachment, GAttachment => true
  | _, _ => false
  end.

Record MkvmergeTrack := {
  tr_id : Z;
  tr_kind : MkvmergeTrackKind;
  tr_default : bool;
  tr_forced : bool;
  tr_commentary : option bool;
  tr_fingerprint : bytes;
}.
(** A [BTreeMap] by provider index, as its entries in order. *)
Abbreviation MkvmergeTrackMapping := (list (Z * MkvmergeTrack)).
Fixpoint track_for_provider_index (m : MkvmergeTrackMapping) (i : Z) : option MkvmergeTrack :=
  match m with
  | [] => None
  | (j, t) :: m' => if i =? j then Some t else track_for_provider_index m' i
  end.
Definition mkvmerge_track_id_for_provider_index (m : MkvmergeTrackMapping) (i : Z) : option Z :=
  tr_id <$> track_for_provider_index m i.
Definition track_count (m : MkvmergeTrackMapping) : nat := length m.
Definition indexes_where (p : MkvmergeTrack -> bool) (m : MkvmergeTrackMapping) : list Z :=
  map fst (List.filter (fun e => p (snd e)) m).
Definition provider_indexes_for_group (m : MkvmergeTrackMapping) (g : RemuxTrackGroup) : list Z :=
  indexes_where (fun t => matches_group (tr_kind t) g) m.
Definition provider_indexes_for_kind (m : MkvmergeTrackMapping) (k : MkvmergeTrackKind) : list Z :=
  indexes_where (fun t => bool_decide (tr_kind t = k)) m.
Definition provider_indexes_matching_identity (m : MkvmergeTrackMapping) (k : MkvmergeTrackKind)
    (fingerprint : bytes) : list Z :=
  indexes_where (fun t => bool_decide (tr_kind t = k) && eqb_text (tr_fingerprint t) fingerprint) m.

Section identify.
Context `{FingerprintText}.

Definition TRACK_PROPERTY_FINGERPRINT_FIELDS : list string := ["flag_commentary"; "language"; "track_name"].
Definition collect_fingerprint_fields (track : Json) : list bytes :=
  match json_get track "type" with
  | Some v => [lit "/type=" ++ display_json v]
  | None => []
  end
  ++ match json_get track "properties" ≫= json_as_object with
     | None => []
     | Some properties =>
         omap (fun key =>
           match json_get properties key with
           | None => None
           | Some v =>
               if String.eqb key "flag_commentary" && bool_decide (json_as_bool v = Some false) then None
               else Some (lit "/properties/" ++ lit key ++ lit "=" ++ display_json v)
           end) TRACK_PROPERTY_FINGERPRINT_FIELDS
     end.
Definition fingerprint_from_identify (track : Json) : bytes := sorted_lines (collect_fingerprint_fields track).

Definition required_attachment_string (attachment : Json) (field : string) : MR bytes :=
  match text_at attachment field with
  | Some v => if non_empty v then Ok v else Err IdentifyFailed
  | None => Err IdentifyFailed
  end.
Definition fingerprint_from_attachment (attachment : Json) : MR bytes :=
  file_name ← required_attachment_string attachment "file_name";
  content_type ← required_attachment_string attachment "content_type";
  size ← ok_or (json_get attachment "size" ≫= json_as_u64) IdentifyFailed;
  let mime_identity :=
    if is_font_attachment_mime_type content_type then lit "class:font" else lit "exact:" ++ content_type in
  Ok (lit "/file_name=" ++ debug_text file_name ++ [newline] ++ lit "/mime_identity="
      ++ debug_text mime_identity ++ [newline] ++ lit "/size=" ++ decimal size).

Definition property_bool (track : Json) (key : string) : option bool :=
  json_path track ["properties"; key] ≫= json_as_bool.
Definition track_of_identify (track : Json) : MR MkvmergeTrack :=
  id ← ok_or (json_get track "id" ≫= json_as_u64) IdentifyFailed;
  let identify_type := text_at track "type" in
  if match identify_type with Some v => one_of ["attachment"; "attachments"] v | None => false end
  then Err IdentifyFailed
  else Ok {| tr_id := id;
             tr_kind := match identify_type with Some v => kind_from_identify v | None => TkOther end;
             tr_default := default false (property_bool track "default_track");
             tr_forced := default false (property_bool track "forced_track");
             tr_commentary := property_bool track "flag_commentary";
             tr_fingerprint := fingerprint_from_identify track |}.
Definition track_of_attachment (attachment : Json) : MR MkvmergeTrack :=
  id ← ok_or (json_get attachment "id" ≫= json_as_u64) IdentifyFailed;
  fingerprint ← fingerprint_from_attachment attachment;
  Ok {| tr_id := id; tr_kind := TkAttachment; tr_default := false; tr_forced := false;
        tr_commentary := None; tr_fingerprint := fingerprint |}.
Fixpoint map_tracks (read : Json -> MR MkvmergeTrack) (values : list Json) (index : Z) :
    MR MkvmergeTrackMapping :=
  match values with
  | [] => Ok []
  | v :: values' =>
      track ← read v;
      i ← ok_or (u32_try_from index) IdentifyFailed;
      rest ← map_tracks read values' (index + 1);
      Ok ((i, track) :: rest)
  end.
Definition optional_identify_attachments (identify : Json) : MR (list Json) :=
  match json_get identify "attachments" with
  | None => Ok []
  | Some v => ok_or (json_as_array v) IdentifyFailed
  end.
Definition track_mapping_from_identify (identify : Json) : MR MkvmergeTrackMapping :=
  tracks ← ok_or (json_get identify "tracks" ≫= json_as_array) IdentifyFailed;
  mapped ← map_tracks track_of_identify tracks 0;
  attachments ← optional_identify_attachments identify;
  attached ← map_tracks track_of_attachment attachments (Z.of_nat (length tracks));
  Ok (mapped ++ attached).
End identify.

(** ** Arguments *)

Definition selected_tracks (refs : list RemuxStreamRef) (m : MkvmergeTrackMapping) : MR (list MkvmergeTrack) :=
  collect (fun r => ok_or (track_for_provider_index m (ref_index r)) ConfigInvalid)
    (sort_by_key ref_index refs).

Definition track_ids (keep : list MkvmergeTrack) (k : MkvmergeTrackKind) : list bytes :=
  map (fun t => decimal (tr_id t)) (List.filter (fun t => bool_decide (tr_kind t = k)) keep).
Definition group_selection (option_name : string) (keep : list MkvmergeTrack) (k : MkvmergeTrackKind) :
    list bytes :=
  match track_ids keep k with
  | [] => []
  | ids => [lit option_name; join (lit ",") ids]
  end.
Definition optional_group_selection (option_name none_option : string) (keep : list MkvmergeTrack)
    (k : MkvmergeTrackKind) : list bytes :=
  match track_ids keep k with
  | [] => [lit none_option]
  | ids => [lit option_name; join (lit ",") ids]
  end.

(** [extend_default_flags] and [extend_forced_flags]: set flags first, then the
    cleared ones that were not set. *)
Fixpoint set_flags (option_name : string) (streams : list RemuxStreamRef) (m : MkvmergeTrackMapping) :
    MR (list bytes * list Z) :=
  match streams with
  | [] => Ok ([], [])
  | r :: streams' =>
      id ← ok_or (mkvmerge_track_id_for_provider_index m (ref_index r)) ConfigInvalid;
      rest ← set_flags option_name streams' m;
      Ok ([lit option_name; decimal id ++ lit ":1"] ++ fst rest, id :: snd rest)
  end.
Fixpoint clear_flags (option_name : string) (streams : list RemuxStreamRef) (m : MkvmergeTrackMapping)
    (seen : list Z) : MR (list bytes) :=
  match streams with
  | [] => Ok []
  | r :: streams' =>
      id ← ok_or (mkvmerge_track_id_for_provider_index m (ref_index r)) ConfigInvalid;
      rest ← clear_flags option_name streams' m seen;
      Ok (if bool_decide (id ∈ seen) then rest
          else [lit option_name; decimal id ++ lit ":0"] ++ rest)
  end.
Definition flag_args (option_name : string) (set clear : list RemuxStreamRef) (m : MkvmergeTrackMapping) :
    MR (list bytes) :=
  on ← set_flags option_name set m;
  off ← clear_flags option_name clear m (snd on);
  Ok (fst on ++ off).

Definition is_attachment_ref (m : MkvmergeTrackMapping) (r : RemuxStreamRef) : bool :=
  match track_for_provider_index m (ref_index r) with
  | Some t => bool_decide (tr_kind t = TkAttachment)
  | None => false
  end.
Definition validate_attachment_selection_boundaries (sel : RemuxSelection) (m : MkvmergeTrackMapping) :
    MR unit :=
  if existsb (is_attachment_ref m)
       (default_streams sel ++ clear_default_streams sel ++ head_streams sel ++ forced_streams sel
        ++ clear_forced_streams sel)
  then Err ConfigInvalid else Ok tt.

(** ** The order of the kept tracks *)

Fixpoint validate_heads_from (heads keep : list RemuxStreamRef) (ids : gset bytes) (indexes : gset Z) :
    MR unit :=
  match heads with
  | [] => Ok tt
  | h :: heads' =>
      if bool_decide (ref_id h ∈ ids) || bool_decide (ref_index h ∈ indexes) then Err ConfigInvalid
      else if negb (bool_decide (h ∈ keep)) then Err ConfigInvalid
      else validate_heads_from heads' keep ({[ref_id h]} ∪ ids) ({[ref_index h]} ∪ indexes)
  end.
Definition validate_head_refs (sel : RemuxSelection) : MR unit :=
  validate_heads_from (head_streams sel) (keep_streams sel) ∅ ∅.

Definition push_matching_stream (source : list RemuxStreamRef) (st : gset Z * list RemuxStreamRef)
    (predicate : RemuxStreamRef -> bool) : gset Z * list RemuxStreamRef :=
  take_pass ref_index source st predicate.
Definition in_group (m : MkvmergeTrackMapping) (g : RemuxTrackGroup) (r : RemuxStreamRef) : bool :=
  match track_for_provider_index m (ref_index r) with
  | Some t => matches_group (tr_kind t) g
  | None => false
  end.
Definition is_audio_ref (m : MkvmergeTrackMapping) (r : RemuxStreamRef) : bool :=
  match track_for_provider_index m (ref_index r) with
  | Some t => bool_decide (tr_kind t = TkAudio)
  | None => false
  end.
(** [audio.remove(position)] of the first equal reference. *)
Fixpoint remove_ref (head : RemuxStreamRef) (audio : list RemuxStreamRef) : option (list RemuxStreamRef) :=
  match audio with
  | [] => None
  | r :: audio' => if bool_decide (r = head) then Some audio' else (cons r) <$> remove_ref head audio'
  end.
Fixpoint replace_audio (m : MkvmergeTrackMapping) (ordered replacements : list RemuxStreamRef) :
    MR (list RemuxStreamRef) :=
  match ordered with
  | [] => Ok []
  | r :: ordered' =>
      if is_audio_ref m r then
        match replacements with
        | [] => Err ConfigInvalid
        | a :: replacements' => rest ← replace_audio m ordered' replacements'; Ok (a :: rest)
        end
      else rest ← replace_audio m ordered' replacements; Ok (r :: rest)
  end.
Definition move_audio_head (sel : RemuxSelection) (m : MkvmergeTrackMapping) (ordered : list RemuxStreamRef) :
    MR (list RemuxStreamRef) :=
  match audio_head_stream sel with
  | None => Ok ordered
  | Some head =>
      match head_streams sel with
      | _ :: _ => Err ConfigInvalid
      | [] =>
          rest ← ok_or (remove_ref head (List.filter (is_audio_ref m) ordered)) ConfigInvalid;
          replace_audio m ordered (head :: rest)
      end
  end.
Definition same_ref (h r : RemuxStreamRef) : bool :=
  eqb_text (ref_id r) (ref_id h) && (ref_index r =? ref_index h).
Definition group_ordered (source heads : list RemuxStreamRef) (order : list RemuxTrackGroup)
    (m : MkvmergeTrackMapping) : list RemuxStreamRef :=
  let after_heads := fold_left (fun st h => push_matching_stream source st (same_ref h)) heads (∅, []) in
  let after_groups := fold_left (fun st g => push_matching_stream source st (in_group m g)) order after_heads in
  snd (push_matching_stream source after_groups (fun _ => true)).
Definition ordered_keep_streams (sel : RemuxSelection) (m : MkvmergeTrackMapping) : MR (list RemuxStreamRef) :=
  let source := sort_by_key ref_index (keep_streams sel) in
  if existsb (fun r => match track_for_provider_index m (ref_index r) with None => true | Some _ => false end)
       source
  then Err ConfigInvalid
  else
    _ ← validate_head_refs sel;
    let heads := sort_by_key ref_index (head_streams sel) in
    move_audio_head sel m (group_ordered source heads (sel_track_order sel) m).

Fixpoint order_ids (m : MkvmergeTrackMapping) (refs : list RemuxStreamRef) : MR (list bytes) :=
  match refs with
  | [] => Ok []
  | r :: refs' =>
      t ← ok_or (track_for_provider_index m (ref_index r)) ConfigInvalid;
      rest ← order_ids m refs';
      Ok (if bool_decide (tr_kind t = TkAttachment) then rest else (lit "0:" ++ decimal (tr_id t)) :: rest)
  end.
Definition track_order_argument (sel : RemuxSelection) (m : MkvmergeTrackMapping) : MR bytes :=
  ordered ← ordered_keep_streams sel m;
  ids ← order_ids m ordered;
  Ok (join (lit ",") ids).

(** ** Requests and results *)

Record RemuxObservedFacts := {
  of_size_bytes : Z;
  of_content_hash : bytes;
  of_modified_at : option bytes;
  of_local_file_key : option bytes;
}.
(** [RemuxExpectedFacts] has the same fields. *)
Abbreviation RemuxExpectedFacts := RemuxObservedFacts.
Record RemuxRequest := {
  in_path : bytes;
  in_expected : RemuxExpectedFacts;
  out_staging_root : bytes;
  out_path : bytes;
  out_container : bytes;
  out_overwrite : bool;
  req_selection : RemuxSelection;
}.
Record RemuxResult := {
  input_pre : RemuxObservedFacts;
  input_post : RemuxObservedFacts;
  output_facts : RemuxObservedFacts;
  output_container : bytes;
  kept_snapshot_stream_ids : list bytes;
  default_snapshot_stream_ids : list bytes;
}.

Definition build_mkvmerge_args (request : RemuxRequest) (m : MkvmergeTrackMapping) : MR (list bytes) :=
  let sel := req_selection request in
  _ ← validate_attachment_selection_boundaries sel m;
  keep ← selected_tracks (keep_streams sel) m;
  defaults ← flag_args "--default-track-flag" (default_streams sel) (clear_default_streams sel) m;
  forced ← flag_args "--forced-display-flag" (forced_streams sel) (clear_forced_streams sel) m;
  order ← track_order_argument sel m;
  Ok ([lit "--output"; out_path request; lit "--no-global-tags"]
      ++ group_selection "--video-tracks" keep TkVideo
      ++ optional_group_selection "--audio-tracks" "--no-audio" keep TkAudio
      ++ optional_group_selection "--subtitle-tracks" "--no-subtitles" keep TkSubtitle
      ++ optional_group_selection "--attachments" "--no-attachments" keep TkAttachment
      ++ defaults ++ forced ++ [lit "--track-order"; order] ++ [in_path request]).

(** ** Checks of the request *)

Fixpoint duplicate_refs_from (streams : list RemuxStreamRef) (ids : gset bytes) (indexes : gset Z) : bool :=
  match streams with
  | [] => false
  | r :: streams' =>
      bool_decide (ref_id r ∈ ids) || bool_decide (ref_index r ∈ indexes)
      || duplicate_refs_from streams' ({[ref_id r]} ∪ ids) ({[ref_index r]} ∪ indexes)
  end.
Definition reject_duplicate_refs (streams : list RemuxStreamRef) : WR unit :=
  if duplicate_refs_from streams ∅ ∅ then Err WConfigInvalid else Ok tt.
Definition validate_ref_subset (streams keep : list RemuxStreamRef) : WR unit :=
  if forallb (fun r => existsb (same_ref r) keep) streams then Ok tt else Err WConfigInvalid.
Definition validate_request_contract (request : RemuxRequest) : WR unit :=
  let sel := req_selection request in
  if out_overwrite request then Err WConfigInvalid
  else if negb (is_supported_remux_container (out_container request)) then Err WConfigInvalid
  else if match keep_streams sel with [] => true | _ => false end then Err WConfigInvalid
  else
    _ ← reject_duplicate_refs (keep_streams sel);
    _ ← reject_duplicate_refs (default_streams sel);
    _ ← reject_duplicate_refs (clear_default_streams sel);
    _ ← reject_duplicate_refs (head_streams sel);
    _ ← validate_ref_subset (default_streams sel) (keep_streams sel);
    _ ← validate_ref_subset (clear_default_streams sel) (keep_streams sel);
    validate_ref_subset (head_streams sel) (keep_streams sel).

Definition kept_indexes (sel : RemuxSelection) : list Z := map ref_index (keep_streams sel).
Definition validate_all_source_video_streams_kept (sel : RemuxSelection) (m : MkvmergeTrackMapping) : WR unit :=
  if forallb (fun i => bool_decide (i ∈ kept_indexes sel)) (provider_indexes_for_group m GVideo)
  then Ok tt else Err WConfigInvalid.
Definition validate_source_audio_preserved (sel : RemuxSelection) (m : MkvmergeTrackMapping) : WR unit :=
  let audio := provider_indexes_for_group m GAudio in
  if match audio with [] => true | _ => false end then Ok tt
  else if existsb (fun i => bool_decide (i ∈ audio)) (kept_indexes sel) then Ok tt
  else Err WConfigInvalid.

Definition is_some_differs (expected observed : option bytes) : bool :=
  match expected with Some _ => negb (bool_decide (observed = expected)) | None => false end.
Definition verify_expected_facts (observed : RemuxObservedFacts) (expected : RemuxExpectedFacts) : WR unit :=
  if (of_size_bytes observed =? of_size_bytes expected)
     && eqb_text (of_content_hash observed) (of_content_hash expected)
  then
    if is_some_differs (of_modified_at expected) (of_modified_at observed)
    then Err WArtifactChecksumMismatch
    else if is_some_differs (of_local_file_key expected) (of_local_file_key observed)
    then Err WArtifactChecksumMismatch
    else Ok tt
  else Err WArtifactChecksumMismatch.
Definition verify_observed_match (before after : RemuxObservedFacts) : WR unit :=
  if (of_size_bytes before =? of_size_bytes after)
     && eqb_text (of_content_hash before) (of_content_hash after)
  then Ok tt else Err WArtifactChecksumMismatch.

(** ** Checks of the output *)

Definition output_index (i : nat) : option Z := u32_try_from (Z.of_nat i).
Definition output_track_at (output : MkvmergeTrackMapping) (i : nat) : option MkvmergeTrack :=
  output_index i ≫= track_for_provider_index output.

Definition validate_output_track_identity (input output : MkvmergeTrackMapping)
    (selected : list RemuxStreamRef) (kept : RemuxStreamRef) (i : nat) : WR unit :=
  expected ← ok_or (track_for_provider_index input (ref_index kept)) WMalformedWorkerResult;
  track ← ok_or (output_track_at output i) WMalformedWorkerResult;
  let matching := provider_indexes_matching_identity input (tr_kind expected) (tr_fingerprint expected) in
  let selected_match_count :=
    length (List.filter (fun r => bool_decide (ref_index r ∈ matching)) selected) in
  let identity_must_match :=
    bool_decide (tr_kind expected = TkAttachment)
    || (1 <? length (provider_indexes_for_kind input (tr_kind expected)))%nat in
  if negb (bool_decide (tr_kind track = tr_kind expected)) then Err WMalformedWorkerResult
  else if (1 <? length matching)%nat && negb (selected_match_count =? length matching)%nat
  then Err WMalformedWorkerResult
  else if negb (bool_decide (tr_commentary track = tr_commentary expected)) then Err WMalformedWorkerResult
  else if identity_must_match && negb (eqb_text (tr_fingerprint track) (tr_fingerprint expected))
  then Err WMalformedWorkerResult
  else Ok tt.
Fixpoint validate_identities (input output : MkvmergeTrackMapping) (selected rest : list RemuxStreamRef)
    (i : nat) : WR unit :=
  match rest with
  | [] => Ok tt
  | r :: rest' =>
      _ ← validate_output_track_identity input output selected r i;
      validate_identities input output selected rest' (S i)
  end.

(** [validate_output_default_flags] and [validate_output_forced_flags], by the flag read. *)
Definition expected_flags (set clear : list RemuxStreamRef) (flag : MkvmergeTrack -> bool)
    (input : MkvmergeTrackMapping) (order : list RemuxStreamRef) : list bytes :=
  omap (fun r =>
    let wanted :=
      if bool_decide (r ∈ set) then Some true
      else if bool_decide (r ∈ clear) then Some false
      else flag <$> track_for_provider_index input (ref_index r) in
    match wanted with Some true => Some (ref_id r) | _ => None end) order.
Fixpoint actual_flags (flag : MkvmergeTrack -> bool) (output : MkvmergeTrackMapping)
    (order : list RemuxStreamRef) (i : nat) : list bytes :=
  match order with
  | [] => []
  | r :: order' =>
      match output_track_at output i with
      | Some t => if flag t then [ref_id r] else []
      | None => []
      end ++ actual_flags flag output order' (S i)
  end.
Definition validate_output_flags (set clear : list RemuxStreamRef) (flag : MkvmergeTrack -> bool)
    (input output : MkvmergeTrackMapping) (order : list RemuxStreamRef) : WR unit :=
  if bool_decide (actual_flags flag output order 0 = expected_flags set clear flag input order)
  then Ok tt else Err WMalformedWorkerResult.

Definition saw_video (output : MkvmergeTrackMapping) (n : nat) : bool :=
  existsb (fun i => match output_track_at output i with
                    | Some t => matches_group (tr_kind t) GVideo
                    | None => false
                    end) (seq 0 n).
Definition validate_output_selection (sel : RemuxSelection) (input output : MkvmergeTrackMapping) : WR unit :=
  order ← map_err from_mkvtoolnix_error (ordered_keep_streams sel input);
  if negb (track_count output =? length order)%nat then Err WMalformedWorkerResult
  else if negb (saw_video output (length order)) then Err WMalformedWorkerResult
  else
    _ ← validate_identities input output order order 0;
    _ ← validate_output_flags (default_streams sel) (clear_default_streams sel) tr_default input output order;
    validate_output_flags (forced_streams sel) (clear_forced_streams sel) tr_forced input output order.

(** ** The handler *)

(** What a run sees of the file system and of [mkvmerge], in the order it asks. *)
Record RemuxRun := {
  run_staging_ok : bool;
  run_output_absent : bool;
  run_input_pre : result ObserveError RemuxObservedFacts;
  run_identify_input : result MkvtoolnixError Json;
  run_mkvmerge : list bytes -> result MkvtoolnixError unit;
  run_input_post : result ObserveError RemuxObservedFacts;
  run_output : result ObserveError RemuxObservedFacts;
  run_identify_output : result MkvtoolnixError Json;
}.

Definition identify_container_type (identify : Json) : bytes :=
  match json_path identify ["container"; "type"] ≫= json_text with
  | Some t => t
  | None => default [] (json_path identify ["container"; "properties"; "container_type"] ≫= json_text)
  end.

Section handler.
Context `{FingerprintText}.

Definition identify_output (identify : Json) : MR MkvmergeTrackMapping :=
  let container := identify_container_type identify in
  if negb (eq_ignore_ascii_case container (lit "mkv"))
     && negb (eq_ignore_ascii_case container (lit "matroska"))
  then Err OutputFactsMismatch
  else track_mapping_from_identify identify.

Definition handle_remux (run : RemuxRun) (request : RemuxRequest) : WR RemuxResult :=
  let sel := req_selection request in
  _ ← validate_request_contract request;
  if negb (run_staging_ok run) then Err WConfigInvalid
  else if negb (run_output_absent run) then Err WConfigInvalid
  else
    pre ← map_err from_observe_error (run_input_pre run);
    _ ← verify_expected_facts pre (in_expected request);
    identify ← map_err from_mkvtoolnix_error (run_identify_input run);
    input ← map_err from_mkvtoolnix_error (track_mapping_from_identify identify);
    if negb (existsb (in_group input GVideo) (keep_streams sel)) then Err WConfigInvalid
    else
      _ ← validate_all_source_video_streams_kept sel input;
      _ ← validate_source_audio_preserved sel input;
      args ← map_err from_mkvtoolnix_error (build_mkvmerge_args request input);
      _ ← map_err from_mkvtoolnix_error (run_mkvmerge run args);
      post ← map_err from_observe_error (run_input_post run);
      _ ← verify_observed_match pre post;
      out ← map_err from_observe_error (run_output run);
      identify_out ← map_err from_mkvtoolnix_error (run_identify_output run);
      output ← map_err from_mkvtoolnix_error (identify_output identify_out);
      _ ← validate_output_selection sel input output;
      Ok {| input_pre := pre; input_post := post; output_facts := out;
            output_container := lit "mkv";
            kept_snapshot_stream_ids := map ref_id (keep_streams sel);
            default_snapshot_stream_ids := map ref_id (default_streams sel) |}.
End handler.
