(* ===== verification/RemuxAccepted.v ===== *)
(** * Dispatched remuxes are accepted

    A selection the control plane makes passes every check the worker makes
    before it runs [mkvmerge], where the worker identifies the tracks the
    snapshot was taken of. *)

From Stdlib Require Import ZArith Lia Bool String Ascii.
From stdpp Require Import base gmap strings list sorting.
From S2P Require Import Prelude Vocab Json Bytes PolicySyntax TrackFilters PolicyCompiled.
From S2P Require Import PlanModel FilterJson PlanStreams PlanPayload PlanRemux RemuxSelection.
From S2P Require Import RemuxWorker.

Open Scope string_scope.
Open Scope list_scope.
Open Scope Z_scope.

(** ** Lists *)

Lemma elem_of_filter_true {A} (p : A -> bool) l x : x ∈ List.filter p l <-> x ∈ l /\ p x = true.
Proof. by rewrite list_elem_of_In, filter_In, <- list_elem_of_In. Qed.
Lemma existsb_elem {A} (p : A -> bool) l : existsb p l = true <-> exists x, x ∈ l /\ p x = true.
Proof. rewrite existsb_exists. by setoid_rewrite list_elem_of_In. Qed.
Lemma existsb_none {A} (p : A -> bool) l : existsb p l = false <-> forall x, x ∈ l -> p x = false.
Proof.
  rewrite <- not_true_iff_false, existsb_elem. split.
  - intros Hn x Hx. apply not_true_iff_false. eauto.
  - intros Ha (x & Hx & Hp). rewrite Ha in Hp; done.
Qed.
Lemma has_id_true id s : has_id id s = true <-> sf_id s = id.
Proof. unfold has_id, eqb_text. by rewrite bool_decide_eq_true. Qed.
Lemma is_kind_true t s : is_kind t s = true <-> sf_kind s = t.
Proof. unfold is_kind. by rewrite bool_decide_eq_true. Qed.

(** ** The streams of a selection *)

Lemma dedupe_from_sub refs seen r : r ∈ dedupe_from refs seen -> r ∈ refs /\ (ref_id r ∉ seen).
Proof.
  revert seen. induction refs as [|x refs IH]; intros seen; cbn; [by intros ?%elem_of_nil|].
  case_bool_decide as Hx.
  - intros [? ?]%IH. split; [by right|done].
  - intros [->|[? Hn]%IH]%elem_of_cons; [split; [left|done]|]. split; [by right|set_solver].
Qed.
Lemma dedupe_from_distinct refs seen : NoDup (map ref_id (dedupe_from refs seen)).
Proof.
  revert seen. induction refs as [|x refs IH]; intros seen; cbn; [constructor|].
  case_bool_decide; [apply IH|]. cbn. constructor; [|apply IH].
  intros (y & He & [_ Hy]%dedupe_from_sub)%list_elem_of_fmap. set_solver.
Qed.
(** A deduplicated list keeps every id. *)
Lemma dedupe_from_keeps refs seen r :
  r ∈ refs -> ref_id r ∉ seen -> ref_id r ∈ map ref_id (dedupe_from refs seen).
Proof.
  revert seen. induction refs as [|x refs IH]; intros seen; cbn; [by intros ?%elem_of_nil|].
  intros [->|Hr]%elem_of_cons Hn.
  - rewrite bool_decide_eq_false_2 by done. cbn. left.
  - case_bool_decide as Hx; [by apply IH|]. cbn. destruct (decide (ref_id r = ref_id x)) as [->|]; [left|].
    right. apply IH; [done|set_solver].
Qed.

Lemma min_by_index_in l s : min_by_index l = Some s -> s ∈ l.
Proof.
  revert s. induction l as [|x l IH]; [done|]. cbn. intros s. destruct (min_by_index l) as [t|].
  - destruct (sf_index t <? sf_index x); intros [= <-]; [right; by apply IH|left].
  - intros [= <-]. left.
Qed.

Lemma same_ref_refl r : same_ref r r = true.
Proof. unfold same_ref, eqb_text. by rewrite bool_decide_eq_true_2, Z.eqb_refl. Qed.
Lemma same_ref_true h r : same_ref h r = true <-> r = h.
Proof.
  unfold same_ref, eqb_text. rewrite andb_true_iff, bool_decide_eq_true, Z.eqb_eq.
  destruct h, r; cbn. split; [intros [-> ->]|intros [= -> ->]]; done.
Qed.
Lemma observed_flags_sub value (l : list SnapshotStreamFact) r :
  r ∈ (observed_flags value l).1 \/ r ∈ (observed_flags value l).2 -> exists s, s ∈ l /\ r = stream_ref s.
Proof.
  induction l as [|s l IH]; cbn; [by intros [?%elem_of_nil|?%elem_of_nil]|].
  rewrite !elem_of_app. intros [[H|H]|[H|H]].
  1,3: unfold observed_flag in H; destruct (value s) as [| |[|]]; cbn in H;
    try (by apply elem_of_nil in H); apply list_elem_of_singleton in H as ->; exists s;
    split; [left|done].
  all: destruct IH as (t & Ht & ->); [by eauto|]; exists t; split; [by right|done].
Qed.
Lemma duplicate_refs_none (refs : list RemuxStreamRef) (ids : gset bytes) (indexes : gset Z) :
  NoDup (map ref_id refs) -> NoDup (map ref_index refs) ->
  (forall r, r ∈ refs -> (ref_id r ∉ ids) /\ (ref_index r ∉ indexes)) ->
  duplicate_refs_from refs ids indexes = false.
Proof.
  revert ids indexes. induction refs as [|r refs IH]; intros ids indexes H1 H2 Hd; [done|]. cbn in *.
  inversion_clear H1 as [|? ? Hr1 H1']. inversion_clear H2 as [|? ? Hr2 H2'].
  destruct (Hd r) as [Ha Hb]; [left|]. rewrite !bool_decide_eq_false_2 by done. cbn.
  apply IH; [done|done|]. intros r' Hr'. destruct (Hd r') as [? ?]; [by right|].
  rewrite !not_elem_of_union, !not_elem_of_singleton. split_and!; try done; intros He.
  - apply Hr1. rewrite <- He. apply list_elem_of_fmap. eauto.
  - apply Hr2. rewrite <- He. apply list_elem_of_fmap. eauto.
Qed.
Section streams.
Context (facts : list SnapshotStreamFact) (keep_ids : gset bytes).
Hypothesis Hdistinct : distinct_streams facts.

(** The reference of a kept stream. *)
Definition kept_ref (r : RemuxStreamRef) : Prop :=
  exists s, s ∈ facts /\ (sf_id s ∈ keep_ids) /\ r = stream_ref s.

Lemma kept_refs_map (l : list SnapshotStreamFact) :
  (forall s, s ∈ l -> s ∈ facts /\ (sf_id s ∈ keep_ids)) -> Forall kept_ref (map stream_ref l).
Proof.
  intros Hl. apply Forall_forall. intros r (s & -> & Hs)%list_elem_of_fmap. destruct (Hl s Hs).
  by exists s.
Qed.

Lemma observed_flags_kept value (l : list SnapshotStreamFact) :
  (forall s, s ∈ l -> s ∈ facts /\ (sf_id s ∈ keep_ids)) ->
  Forall kept_ref (observed_flags value l).1 /\ Forall kept_ref (observed_flags value l).2.
Proof.
  intros Hl. split; apply Forall_forall; intros r Hr; destruct (observed_flags_sub value l r) as (s & Hs & ->);
    auto; destruct (Hl s Hs); by exists s.
Qed.

Lemma kept_target_sub t s : s ∈ kept_target_streams facts keep_ids t -> s ∈ facts /\ (sf_id s ∈ keep_ids).
Proof. intros [Hs [_ Hk%bool_decide_eq_true]%andb_true_iff]%elem_of_filter_true. done. Qed.

Lemma resolved_kept_ok id t s :
  resolved_kept_stream id t facts keep_ids = Ok s ->
  s ∈ facts /\ sf_id s = id /\ (id ∈ keep_ids) /\ (forall k, t = Some k -> sf_kind s = k).
Proof.
  unfold resolved_kept_stream. intros (s' & Hf%ok_or_ok & H)%result_bind_ok.
  apply find_some in Hf as [Hin%list_elem_of_In Hid%has_id_true].
  case_bool_decide as Hk; [|done]. cbn in H. destruct t as [k|].
  - case_bool_decide; cbn in H; [|done]. injection H as <-. split_and!; [done..|]. by intros ? [= <-].
  - injection H as <-. by split_and!.
Qed.

Lemma default_action_kept e fl :
  default_action_refs facts keep_ids e = Ok fl -> Forall kept_ref fl.1 /\ Forall kept_ref fl.2.
Proof.
  destruct e as [t id|t|t|t]; cbn -[resolved_kept_stream].
  - intros (s & (Hs & Hid & Hk & _)%resolved_kept_ok & [= <-])%result_bind_ok. cbn. split.
    + constructor; [|done]. exists s. by subst id.
    + apply kept_refs_map. intros x [Hx [_ Hx'%bool_decide_eq_true]%andb_true_iff]%elem_of_filter_true. done.
  - destruct (min_by_index _) as [s|] eqn:Hm; intros [= <-]; cbn; [|done].
    apply min_by_index_in, kept_target_sub in Hm as [? ?]. split.
    + constructor; [by exists s|done].
    + apply kept_refs_map. intros x [Hx _]%elem_of_filter_true. by apply (kept_target_sub t).
  - intros [= <-]. split; [done|]. apply kept_refs_map, kept_target_sub.
  - intros [= <-]. apply observed_flags_kept, kept_target_sub.
Qed.
Lemma default_actions_kept defaults fl :
  default_actions_refs facts keep_ids defaults = Ok fl -> Forall kept_ref fl.1 /\ Forall kept_ref fl.2.
Proof.
  revert fl. induction defaults as [|e defaults IH]; intros fl; cbn; [by intros [= <-]|].
  intros (a & [? ?]%default_action_kept & (r & [? ?]%IH & [= <-])%result_bind_ok)%result_bind_ok. cbn.
  split; by apply Forall_app.
Qed.

Definition refs_ok (refs : list RemuxStreamRef) : Prop := Forall kept_ref refs /\ NoDup (map ref_id refs).
Lemma dedupe_ok refs : Forall kept_ref refs -> refs_ok (dedupe_refs refs).
Proof.
  rewrite Forall_forall. intros H. split; [|apply dedupe_from_distinct].
  apply Forall_forall. intros r [Hr _]%dedupe_from_sub. by apply H.
Qed.

Lemma untouched_kept targets :
  let fl := foldr (fun t rest =>
    flags_app (observed_flags sf_is_default (kept_target_streams facts keep_ids t)) rest) ([], []) targets in
  Forall kept_ref fl.1 /\ Forall kept_ref fl.2.
Proof.
  induction targets as [|t targets IH]; [done|]. cbn in *. destruct IH as [H1 H2].
  destruct (observed_flags_kept sf_is_default _ (kept_target_sub t)). split; by apply Forall_app.
Qed.
Lemma default_refs_ok defaults fl :
  default_refs defaults facts keep_ids = Ok fl -> refs_ok fl.1 /\ refs_ok fl.2.
Proof.
  unfold default_refs. intros (a & [H1 H2]%default_actions_kept & [= <-])%result_bind_ok. cbn.
  destruct (untouched_kept (untouched_targets defaults)) as [H3 H4].
  split; apply dedupe_ok; by apply Forall_app.
Qed.

(** *** Distinct references *)

Lemma kept_refs_indexes refs : refs_ok refs -> NoDup (map ref_index refs).
Proof.
  intros [Hk Hnd]. destruct Hdistinct as [Hids Hix]. induction refs as [|r refs IH]; cbn in *; [constructor|].
  inversion_clear Hnd as [|? ? Hr Hnd']. apply Forall_cons in Hk as [(s & Hs & _ & ->) Hk].
  constructor; [|by apply IH]. intros (r' & He & Hr')%list_elem_of_fmap.
  rewrite Forall_forall in Hk. destruct (Hk r' Hr') as (s' & Hs' & _ & ->). cbn in He.
  apply Hr. rewrite (NoDup_map_inj sf_index facts s s') by done.
  apply list_elem_of_fmap. by exists (stream_ref s').
Qed.

Lemma refs_ok_accepted refs : refs_ok refs -> reject_duplicate_refs refs = Ok tt.
Proof.
  intros Hr. unfold reject_duplicate_refs. rewrite duplicate_refs_none; [done|apply Hr|by apply kept_refs_indexes|].
  intros. split; set_solver.
Qed.

Definition kept_list : list RemuxStreamRef :=
  map stream_ref (List.filter (fun s => bool_decide (sf_id s ∈ keep_ids)) facts).
Lemma kept_list_elem r : r ∈ kept_list <-> kept_ref r.
Proof.
  unfold kept_list, kept_ref. rewrite list_elem_of_fmap. split.
  - intros (s & -> & [Hs Hk%bool_decide_eq_true]%elem_of_filter_true). eauto.
  - intros (s & Hs & Hk & ->). exists s. split; [done|]. apply elem_of_filter_true.
    by rewrite bool_decide_eq_true.
Qed.
Lemma kept_list_ok : refs_ok kept_list.
Proof.
  split.
  - apply Forall_forall. intros r. apply kept_list_elem.
  - unfold kept_list. rewrite map_map. cbn. apply NoDup_map_filter, Hdistinct.
Qed.
Lemma refs_subset refs : Forall kept_ref refs -> validate_ref_subset refs kept_list = Ok tt.
Proof.
  intros Hk. unfold validate_ref_subset. replace (forallb _ refs) with true; [done|]. symmetry.
  apply forallb_forall. intros r Hr%list_elem_of_In. apply existsb_elem. exists r.
  rewrite Forall_forall in Hk. split; [by apply kept_list_elem, Hk|apply same_ref_refl].
Qed.
End streams.

(** What the control plane guarantees of a selection. *)
Record made_from (facts : list SnapshotStreamFact) (keep_ids : gset bytes) (p : RemuxOperationPayload)
    (sel : RemuxSelection) : Prop := {
  mf_keep : keep_streams sel = kept_list facts keep_ids;
  mf_defaults : refs_ok facts keep_ids (default_streams sel);
  mf_clear : refs_ok facts keep_ids (clear_default_streams sel);
  mf_heads : Forall (kept_ref facts keep_ids) (head_streams sel);
  mf_one_head : (length (head_streams sel) <= 1)%nat;
  mf_audio_head : forall r, audio_head_stream sel = Some r ->
    exists s, s ∈ facts /\ sf_kind s = Audio /\ (sf_id s ∈ keep_ids) /\ r = stream_ref s;
  mf_no_two_heads : head_snapshot_stream_id p = None \/ audio_head_snapshot_stream_id p = None ->
    head_streams sel = [] \/ audio_head_stream sel = None;
  mf_forced : Forall (kept_ref facts keep_ids) (forced_streams sel);
  mf_clear_forced : Forall (kept_ref facts keep_ids) (clear_forced_streams sel);
  mf_audio : existsb (is_kind Audio) facts = true ->
    exists s, s ∈ facts /\ sf_kind s = Audio /\ (sf_id s ∈ keep_ids);
  mf_places : forall r s, r ∈ placements sel -> s ∈ facts -> sf_kind s = Attachment -> sf_id s <> ref_id r;
  mf_order : sel_track_order sel = track_order p;
}.

Lemma forced_refs_kept facts keep_ids :
  Forall (kept_ref facts keep_ids) (forced_refs facts keep_ids).1
  /\ Forall (kept_ref facts keep_ids) (forced_refs facts keep_ids).2.
Proof.
  apply observed_flags_kept. intros s [Hs [_ Hk%bool_decide_eq_true]%andb_true_iff]%elem_of_filter_true. done.
Qed.

Lemma head_refs_kept id facts keep_ids heads :
  head_refs id facts keep_ids = Ok heads ->
  Forall (kept_ref facts keep_ids) heads /\ (length heads <= 1)%nat /\ (id = None -> heads = []).
Proof.
  destruct id as [id|]; cbn -[resolved_kept_stream]; [|intros [= <-]; cbn; split_and!; [done|lia|done]].
  intros (s & (Hs & Hid & Hk & _)%resolved_kept_ok & H)%result_bind_ok.
  case_bool_decide; [done|]. injection H as <-. split_and!; [|done|done].
  constructor; [|done]. exists s. by rewrite Hid.
Qed.
Lemma audio_head_kept id facts keep_ids head :
  audio_head_ref id facts keep_ids = Ok head ->
  (forall r, head = Some r ->
     exists s, s ∈ facts /\ sf_kind s = Audio /\ (sf_id s ∈ keep_ids) /\ r = stream_ref s)
  /\ (id = None -> head = None).
Proof.
  destruct id as [id|]; cbn -[resolved_kept_stream]; [|intros [= <-]; done].
  intros (s & (Hs & Hid & Hk & Ht)%resolved_kept_ok & [= <-])%result_bind_ok. split; [|done].
  intros r [= <-]. exists s. rewrite Hid. split_and!; [done|by apply Ht|done|done].
Qed.

Lemma selection_of_ok p facts keep_ids sel :
  selection_of p facts keep_ids = Ok sel -> made_from facts keep_ids p sel.
Proof.
  unfold selection_of.
  intros (? & Ha & (defaults & _ & (fl & [Hd Hc]%default_refs_ok & (heads & (Hh & Hone & Hh0)%head_refs_kept
    & (ah & [Hah Hah0]%audio_head_kept & (? & Hp & [= <-])%result_bind_ok)%result_bind_ok)%result_bind_ok)
    %result_bind_ok)%result_bind_ok)%result_bind_ok.
  destruct (forced_refs_kept facts keep_ids) as [Hf1 Hf2]. constructor; cbn [keep_streams default_streams
    clear_default_streams head_streams audio_head_stream forced_streams clear_forced_streams sel_track_order];
    try done.
  - intros [?|?]; auto.
  - intros He. unfold reject_empty_audio in Ha. rewrite He in Ha. cbn [andb] in Ha.
    destruct (existsb (fun s => is_kind Audio s && bool_decide (sf_id s ∈ keep_ids)) facts) eqn:Hk; [|done].
    apply existsb_elem in Hk as (s & Hs & [Hk1%is_kind_true Hk2%bool_decide_eq_true]%andb_true_iff). eauto.
  - intros r s Hr Hs Hk Heq. unfold reject_attachment_placements in Hp.
    destruct (existsb _ (placements _)) eqn:Hex in Hp; [done|].
    rewrite existsb_none in Hex. specialize (Hex r Hr). rewrite existsb_none in Hex. specialize (Hex s Hs).
    rewrite (proj2 (is_kind_true Attachment s) Hk), (proj2 (has_id_true _ s) Heq) in Hex. done.
Qed.

(** ** The tracks the worker sees *)

Definition kind_of (t : TrackTarget) : MkvmergeTrackKind :=
  match t with
  | Video => TkVideo | Audio => TkAudio | Subtitle => TkSubtitle | Attachment => TkAttachment
  end.
(** [mkvmerge] identifies the streams of the snapshot: each at its index with its
    kind, and nothing else. *)
Record identifies (m : MkvmergeTrackMapping) (facts : list SnapshotStreamFact) : Prop := {
  id_tracks : forall s, s ∈ facts ->
    exists t, track_for_provider_index m (sf_index s) = Some t /\ tr_kind t = kind_of (sf_kind s);
  id_only : forall i t, (i, t) ∈ m ->
    track_for_provider_index m i = Some t /\ exists s, s ∈ facts /\ sf_index s = i;
}.

Lemma matches_kind_of k g : matches_group (kind_of k) g = bool_decide (remux_track_group k = g).
Proof. by destruct k, g. Qed.

Section accepted.
Context (facts : list SnapshotStreamFact) (keep_ids : gset bytes) (p : RemuxOperationPayload)
  (sel : RemuxSelection) (m : MkvmergeTrackMapping).
Hypothesis Hdistinct : distinct_streams facts.
Hypothesis Hmade : made_from facts keep_ids p sel.
Hypothesis Hids : identifies m facts.
Hypothesis Hvideo : exists s, s ∈ facts /\ sf_kind s = Video.
Hypothesis Hvideos : forall s, s ∈ facts -> sf_kind s = Video -> sf_id s ∈ keep_ids.

Lemma kept_ref_track r :
  kept_ref facts keep_ids r ->
  exists s t, s ∈ facts /\ (sf_id s ∈ keep_ids) /\ r = stream_ref s
    /\ track_for_provider_index m (ref_index r) = Some t /\ tr_kind t = kind_of (sf_kind s).
Proof.
  intros (s & Hs & Hk & ->). destruct (id_tracks m facts Hids s Hs) as (t & Ht & Hkind).
  by exists s, t.
Qed.

Lemma keep_elem s : s ∈ facts -> sf_id s ∈ keep_ids -> stream_ref s ∈ keep_streams sel.
Proof. intros Hs Hk. rewrite (mf_keep _ _ _ _ Hmade). apply kept_list_elem. by exists s. Qed.
Lemma kept_index s : s ∈ facts -> sf_id s ∈ keep_ids -> sf_index s ∈ kept_indexes sel.
Proof. intros Hs Hk. apply list_elem_of_fmap. exists (stream_ref s). split; [done|by apply keep_elem]. Qed.

Lemma in_group_ref s g :
  s ∈ facts -> in_group m g (stream_ref s) = bool_decide (remux_track_group (sf_kind s) = g).
Proof.
  intros Hs. destruct (id_tracks m facts Hids s Hs) as (t & Ht & Hk).
  unfold in_group. cbn. by rewrite Ht, Hk, matches_kind_of.
Qed.
Lemma is_audio_ref_kind s : s ∈ facts -> is_audio_ref m (stream_ref s) = is_kind Audio s.
Proof.
  intros Hs. destruct (id_tracks m facts Hids s Hs) as (t & Ht & Hk).
  unfold is_audio_ref, is_kind. cbn. rewrite Ht, Hk. by destruct (sf_kind s).
Qed.

Lemma group_indexes g i :
  i ∈ provider_indexes_for_group m g <->
  exists s, s ∈ facts /\ sf_index s = i /\ remux_track_group (sf_kind s) = g.
Proof.
  unfold provider_indexes_for_group, indexes_where. rewrite list_elem_of_fmap. split.
  - intros ([j t] & -> & [Hin Hg]%elem_of_filter_true). cbn in *.
    destruct (id_only m facts Hids j t Hin) as (Hl & s & Hs & Hj). exists s. split_and!; [done..|].
    destruct (id_tracks m facts Hids s Hs) as (t' & Ht' & Hk). rewrite Hj, Hl in Ht'.
    injection Ht' as <-. rewrite Hk, matches_kind_of in Hg. by apply bool_decide_eq_true in Hg.
  - intros (s & Hs & <- & Hg). destruct (id_tracks m facts Hids s Hs) as (t & Ht & Hk).
    exists (sf_index s, t). split; [done|]. apply elem_of_filter_true. split.
    + clear -Ht. revert Ht. generalize (sf_index s) as i. intros i.
      induction m as [|[j t'] m' IH]; [done|]. cbn. destruct (i =? j) eqn:E; [|right; by apply IH].
      apply Z.eqb_eq in E as ->. intros [= <-]. left.
    + cbn. rewrite Hk, matches_kind_of. by apply bool_decide_eq_true.
Qed.

Lemma sees_video : existsb (in_group m GVideo) (keep_streams sel) = true.
Proof.
  destruct Hvideo as (s & Hs & Hk). apply existsb_elem. exists (stream_ref s).
  split; [by apply keep_elem, Hvideos|]. rewrite in_group_ref by done. by rewrite Hk.
Qed.
Lemma videos_kept : validate_all_source_video_streams_kept sel m = Ok tt.
Proof.
  unfold validate_all_source_video_streams_kept. replace (forallb _ _) with true; [done|]. symmetry.
  apply forallb_forall. intros i (s & Hs & <- & Hg)%list_elem_of_In%group_indexes.
  apply bool_decide_eq_true, kept_index; [done|]. apply Hvideos; [done|]. by destruct (sf_kind s).
Qed.
Lemma audio_preserved : validate_source_audio_preserved sel m = Ok tt.
Proof.
  unfold validate_source_audio_preserved. destruct (provider_indexes_for_group m GAudio) as [|i l] eqn:Ha; [done|].
  assert (i ∈ provider_indexes_for_group m GAudio) as Hi by (rewrite Ha; left).
  apply group_indexes in Hi as (s & Hs & _ & Hg). rewrite <- Ha.
  destruct (mf_audio _ _ _ _ Hmade) as (a & Has & Hak & Hakeep).
  { apply existsb_elem. exists s. split; [done|]. apply is_kind_true. by destruct (sf_kind s). }
  replace (existsb _ (kept_indexes sel)) with true; [done|]. symmetry. apply existsb_elem.
  exists (sf_index a). split; [by apply kept_index|]. apply bool_decide_eq_true, group_indexes.
  exists a. by rewrite Hak.
Qed.

Lemma contract_accepted request :
  req_selection request = sel -> out_overwrite request = false ->
  is_supported_remux_container (out_container request) = true ->
  validate_request_contract request = Ok tt.
Proof.
  intros Hsel Hov Hc. unfold validate_request_contract. rewrite Hsel, Hov, Hc. cbn [negb].
  pose proof (kept_list_ok facts keep_ids Hdistinct) as Hkl. pose proof Hmade as Hmf.
  destruct (keep_streams sel) as [|r0 l0] eqn:Hk.
  { destruct Hvideo as (s & Hs & Hv). pose proof (keep_elem s Hs (Hvideos s Hs Hv)) as Hin.
    rewrite Hk in Hin. by apply elem_of_nil in Hin. }
  rewrite <- Hk, (mf_keep _ _ _ _ Hmf).
  assert (refs_ok facts keep_ids (head_streams sel)) as Hh.
  { split; [apply (mf_heads _ _ _ _ Hmf)|]. pose proof (mf_one_head _ _ _ _ Hmf) as H1.
    destruct (head_streams sel) as [|h [|h' hs]]; cbn in *; [constructor|apply NoDup_singleton|lia]. }
  pose proof (refs_ok_accepted facts keep_ids Hdistinct) as Hrefs.
  rewrite (Hrefs _ Hkl), (Hrefs _ (mf_defaults _ _ _ _ Hmf)), (Hrefs _ (mf_clear _ _ _ _ Hmf)), (Hrefs _ Hh).
  cbn [mbind result_mbind].
  rewrite (refs_subset _ _ _ (proj1 (mf_defaults _ _ _ _ Hmf))), (refs_subset _ _ _ (proj1 (mf_clear _ _ _ _ Hmf))).
  apply refs_subset, Hh.
Qed.
End accepted.

(** * The order of the tracks

    The planner decides whether the order of a file has to change from the
    order it would give the tracks; the worker gives them an order of its own.
    Here: the two are the same on every track but attachments, the worker's
    order loses nothing, and the worker's arguments exist. *)

Lemma fold_left_map {A B C} (f : A -> B -> A) (g : C -> B) l a :
  fold_left (fun x c => f x (g c)) l a = fold_left f (map g l) a.
Proof. revert a. induction l as [|c l IH]; intros a; [done|]. cbn. apply IH. Qed.

Definition all_streams {A} (_ : A) : bool := true.

Lemma group_ordered_passes source heads order m :
  NoDup (map ref_index source) ->
  group_ordered source heads order m
  = in_passes ref_index source ((map same_ref heads ++ map (in_group m) order) ++ [all_streams]) [].
Proof.
  intros Hnd. unfold group_ordered, push_matching_stream.
  rewrite (fold_left_map (take_pass ref_index source) same_ref), (fold_left_map (take_pass ref_index source) (in_group m)).
  rewrite <- fold_left_app.
  change (take_pass ref_index source ?st (fun _ => true))
    with (fold_left (take_pass ref_index source) [@all_streams RemuxStreamRef] st).
  rewrite <- fold_left_app. apply (f_equal snd (passes_from ref_index source _ [] Hnd)).
Qed.
Definition head_pass (head : option bytes) : list (SnapshotStreamFact -> bool) :=
  match head with Some id => [has_id id] | None => [] end.
Lemma desired_order_passes source targets head :
  NoDup (map sf_id source) ->
  desired_order source targets head
  = in_passes sf_id source ((head_pass head ++ map is_kind targets) ++ [all_streams]) [].
Proof.
  intros Hnd. unfold desired_order. rewrite (fold_left_map (take_pass sf_id source) is_kind).
  replace (match head with Some id => _ | None => _ end)
    with (fold_left (take_pass sf_id source) (head_pass head) (∅, [])) by (by destruct head).
  rewrite <- fold_left_app.
  change (take_pass sf_id source ?st (fun _ => true))
    with (fold_left (take_pass sf_id source) [@all_streams SnapshotStreamFact] st).
  rewrite <- fold_left_app. apply (f_equal snd (passes_from sf_id source _ [] Hnd)).
Qed.

(** ** The audio head *)

Lemma remove_ref_some head audio :
  head ∈ audio -> exists rest, remove_ref head audio = Some rest /\ audio ≡ₚ head :: rest.
Proof.
  induction audio as [|r audio IH]; [by intros ?%elem_of_nil|]. cbn. case_bool_decide as Hr.
  - intros _. exists audio. split; [done|by subst].
  - intros [->|Hin]%elem_of_cons; [done|]. destruct (IH Hin) as (rest & -> & Hp).
    exists (r :: rest). split; [done|]. rewrite Hp. constructor.
Qed.
Lemma replace_audio_ok m ordered replacements :
  length replacements = length (List.filter (is_audio_ref m) ordered) ->
  exists out, replace_audio m ordered replacements = Ok out
    /\ out ≡ₚ List.filter (fun r => negb (is_audio_ref m r)) ordered ++ replacements.
Proof.
  revert replacements. induction ordered as [|r ordered IH]; intros repl Hl; cbn in *.
  { destruct repl; [|done]. by exists []. }
  destruct (is_audio_ref m r); cbn in *.
  - destruct repl as [|a repl]; [done|]. cbn in Hl. destruct (IH repl) as (out & -> & Hp); [lia|].
    exists (a :: out). split; [done|]. rewrite Hp. apply Permutation_middle.
  - destruct (IH repl Hl) as (out & -> & Hp). exists (r :: out). split; [done|]. by rewrite Hp.
Qed.
Lemma filter_split_perm {A} (p : A -> bool) l :
  l ≡ₚ List.filter (fun x => negb (p x)) l ++ List.filter p l.
Proof.
  induction l as [|x l IH]; [done|]. cbn. destruct (p x); cbn.
  - rewrite <- Permutation_middle. by rewrite <- IH.
  - by rewrite <- IH.
Qed.
Lemma move_audio_head_ok sel m ordered :
  (forall r, audio_head_stream sel = Some r -> r ∈ ordered /\ is_audio_ref m r = true) ->
  head_streams sel = [] \/ audio_head_stream sel = None ->
  exists out, move_audio_head sel m ordered = Ok out /\ out ≡ₚ ordered
    /\ (audio_head_stream sel = None -> out = ordered).
Proof.
  intros Hh Hx. unfold move_audio_head. destruct (audio_head_stream sel) as [h|]; [|by exists ordered].
  destruct Hx as [-> |]; [|done]. destruct (Hh h) as [Hin Ha]; [done|].
  destruct (remove_ref_some h (List.filter (is_audio_ref m) ordered)) as (rest & -> & Hp).
  { by apply elem_of_filter_true. }
  cbn [ok_or mbind result_mbind].
  destruct (replace_audio_ok m ordered (h :: rest)) as (out & -> & Ho).
  { by rewrite Hp. }
  exists out. split_and!; [done| |done]. rewrite Ho, <- Hp. symmetry. apply filter_split_perm.
Qed.

Section order.
Context (facts : list SnapshotStreamFact) (keep_ids : gset bytes) (p : RemuxOperationPayload)
  (sel : RemuxSelection) (m : MkvmergeTrackMapping).
Hypothesis Hdistinct : distinct_streams facts.
Hypothesis Hmade : made_from facts keep_ids p sel.
Hypothesis Hids : identifies m facts.
Hypothesis Hheads : head_snapshot_stream_id p = None \/ audio_head_snapshot_stream_id p = None.

(** The kept streams in the order of the file. *)
Definition kept_sorted : list SnapshotStreamFact :=
  sort_by_key sf_index (List.filter (fun s => bool_decide (sf_id s ∈ keep_ids)) facts).

Lemma kept_sorted_elem s : s ∈ kept_sorted <-> s ∈ facts /\ (sf_id s ∈ keep_ids).
Proof. unfold kept_sorted. by rewrite sort_by_key_perm, elem_of_filter_true, bool_decide_eq_true. Qed.
Lemma kept_sorted_distinct : distinct_streams kept_sorted.
Proof.
  unfold kept_sorted. split; rewrite sort_by_key_perm; apply NoDup_map_filter, Hdistinct.
Qed.
Lemma sort_map_ref (l : list SnapshotStreamFact) :
  sort_by_key ref_index (map stream_ref l) = map stream_ref (sort_by_key sf_index l).
Proof.
  unfold sort_by_key. induction l as [|s l IH]; [done|]. cbn. rewrite IH.
  generalize (foldr (insert_by sf_index) [] l) as l'. clear. intros l'.
  induction l' as [|x l' IH]; [done|]. cbn. destruct (sf_index s <=? sf_index x); cbn; [done|].
  by rewrite IH.
Qed.
Lemma source_sorted : sort_by_key ref_index (keep_streams sel) = map stream_ref kept_sorted.
Proof. rewrite (mf_keep _ _ _ _ Hmade). apply sort_map_ref. Qed.
Lemma source_distinct : NoDup (map ref_index (map stream_ref kept_sorted)).
Proof. rewrite map_map. cbn. apply kept_sorted_distinct. Qed.

Lemma heads_accepted : validate_head_refs sel = Ok tt.
Proof.
  unfold validate_head_refs. pose proof (mf_heads _ _ _ _ Hmade) as Hh.
  pose proof (mf_one_head _ _ _ _ Hmade) as H1.
  destruct (head_streams sel) as [|h [|h' hs]]; [done| |cbn in H1; lia].
  apply Forall_cons in Hh as [Hh _]. cbn. rewrite !bool_decide_eq_false_2 by set_solver. cbn.
  rewrite (mf_keep _ _ _ _ Hmade). rewrite bool_decide_eq_true_2; [done|]. by apply kept_list_elem.
Qed.

Lemma heads_sorted : sort_by_key ref_index (head_streams sel) = head_streams sel.
Proof.
  pose proof (mf_one_head _ _ _ _ Hmade) as H1.
  destruct (head_streams sel) as [|h [|h' hs]]; [done|done|cbn in H1; lia].
Qed.

(** The worker's order, in passes over the kept streams. *)
Definition worker_order : list SnapshotStreamFact :=
  in_passes sf_id kept_sorted
    ((map (fun h s => same_ref h (stream_ref s)) (head_streams sel)
      ++ map (fun g s => bool_decide (remux_track_group (sf_kind s) = g)) (track_order p))
     ++ [all_streams]) [].

Lemma group_ordered_facts :
  group_ordered (map stream_ref kept_sorted) (head_streams sel) (sel_track_order sel) m
  = map stream_ref worker_order.
Proof.
  rewrite group_ordered_passes by apply source_distinct. unfold worker_order.
  rewrite (in_passes_map stream_ref sf_id ref_index kept_sorted _ []).
  - f_equal. rewrite !map_app, !map_map. apply in_passes_ext. apply Forall2_app; [|by constructor].
    rewrite (mf_order _ _ _ _ Hmade). apply Forall2_app.
    + apply Forall2_fmap, Forall_Forall2_diag, Forall_true. done.
    + apply Forall2_fmap, Forall_Forall2_diag, Forall_true. intros g s [Hs _]%kept_sorted_elem.
      by apply (in_group_ref facts).
  - intros x y [Hx _]%kept_sorted_elem [Hy _]%kept_sorted_elem. cbn. destruct Hdistinct as [H1 H2]. split.
    + intros He. by rewrite (NoDup_map_inj sf_index facts x y).
    + intros He. by rewrite (NoDup_map_inj sf_id facts x y).
  - by intros x ?%elem_of_nil.
Qed.
Lemma worker_order_perm : worker_order ≡ₚ kept_sorted.
Proof. apply in_passes_total, kept_sorted_distinct. Qed.

(** The worker accepts the order, and loses no track. *)
Lemma ordered_keep_ok :
  exists ord, ordered_keep_streams sel m = Ok ord /\ ord ≡ₚ keep_streams sel
    /\ (audio_head_stream sel = None -> ord = map stream_ref worker_order).
Proof.
  unfold ordered_keep_streams. rewrite source_sorted.
  assert (forall r, r ∈ map stream_ref kept_sorted -> kept_ref facts keep_ids r) as Hk.
  { intros r (s & -> & [? ?]%kept_sorted_elem)%list_elem_of_fmap. by exists s. }
  destruct (existsb _ _) eqn:Hex.
  { apply existsb_elem in Hex as (r & (s & t & _ & _ & _ & Ht & _)%Hk%(kept_ref_track facts keep_ids m Hids) & Hn).
    by rewrite Ht in Hn. }
  rewrite heads_accepted, heads_sorted. cbn [mbind result_mbind]. rewrite group_ordered_facts.
  destruct (move_audio_head_ok sel m (map stream_ref worker_order)) as (out & -> & Hp & Heq).
  - intros r Hr. destruct (mf_audio_head _ _ _ _ Hmade r Hr) as (s & Hs & Ha & Hkeep & ->). split.
    + apply list_elem_of_fmap. exists s. split; [done|]. rewrite worker_order_perm. by apply kept_sorted_elem.
    + rewrite (is_audio_ref_kind facts m Hids) by done. by apply is_kind_true.
  - by apply (mf_no_two_heads _ _ _ _ Hmade).
  - exists out. split_and!; [done| |done]. rewrite Hp, worker_order_perm. unfold kept_sorted.
    rewrite sort_by_key_perm. by rewrite (mf_keep _ _ _ _ Hmade).
Qed.

(** ** The arguments *)

Lemma order_ids_ok refs :
  (forall r, r ∈ refs -> kept_ref facts keep_ids r) -> exists ids, order_ids m refs = Ok ids.
Proof.
  induction refs as [|r refs IH]; intros Hk; [by exists []|]. cbn.
  destruct (kept_ref_track facts keep_ids m Hids r) as (s & t & _ & _ & _ & -> & _); [apply Hk; left|].
  cbn. destruct IH as [ids ->]; [intros; apply Hk; by right|]. cbn. eauto.
Qed.
Lemma flag_args_ok option_name set clear :
  Forall (kept_ref facts keep_ids) set -> Forall (kept_ref facts keep_ids) clear ->
  exists args, flag_args option_name set clear m = Ok args.
Proof.
  intros Hs Hc. unfold flag_args.
  assert (forall r, kept_ref facts keep_ids r -> exists id, mkvmerge_track_id_for_provider_index m (ref_index r) = Some id)
    as Hid.
  { intros r (s & t & _ & _ & _ & Ht & _)%(kept_ref_track facts keep_ids m Hids).
    unfold mkvmerge_track_id_for_provider_index. rewrite Ht. cbn. eauto. }
  assert (exists on, set_flags option_name set m = Ok on) as [on ->].
  { induction Hs as [|r set Hr _ IH]; [by exists ([], [])|]. cbn. destruct (Hid r Hr) as [id ->].
    destruct IH as [on ->]. cbn. eauto. }
  cbn [mbind result_mbind]. assert (exists off, clear_flags option_name clear m (snd on) = Ok off) as [off ->].
  { induction Hc as [|r clear Hr _ IH]; [by exists []|]. cbn. destruct (Hid r Hr) as [id ->].
    destruct IH as [off ->]. cbn. eauto. }
  cbn. eauto.
Qed.
Lemma no_attachment_flags : validate_attachment_selection_boundaries sel m = Ok tt.
Proof.
  unfold validate_attachment_selection_boundaries. destruct (existsb _ _) eqn:Hex; [|done]. exfalso.
  apply existsb_elem in Hex as (r & Hr & Ha).
  assert (kept_ref facts keep_ids r /\ r ∈ placements sel) as [Hk Hp].
  { unfold placements. rewrite !elem_of_app in Hr |- *.
    pose proof (proj1 (mf_defaults _ _ _ _ Hmade)) as H1. pose proof (proj1 (mf_clear _ _ _ _ Hmade)) as H2.
    pose proof (mf_heads _ _ _ _ Hmade) as H3. pose proof (mf_forced _ _ _ _ Hmade) as H4.
    pose proof (mf_clear_forced _ _ _ _ Hmade) as H5. rewrite Forall_forall in H1, H2, H3, H4, H5.
    split; [destruct Hr as [?|[?|[?|[?|?]]]]; auto|]. rewrite elem_of_app. tauto. }
  destruct (kept_ref_track facts keep_ids m Hids r Hk) as (s & t & Hs & _ & -> & Ht & Hkind).
  unfold is_attachment_ref in Ha. rewrite Ht, Hkind in Ha. apply bool_decide_eq_true in Ha.
  apply (mf_places _ _ _ _ Hmade _ s Hp Hs); [|done]. by destruct (sf_kind s).
Qed.
Lemma args_exist request : req_selection request = sel -> exists args, build_mkvmerge_args request m = Ok args.
Proof.
  intros Hsel. unfold build_mkvmerge_args. rewrite Hsel, no_attachment_flags. cbn [mbind result_mbind].
  assert (exists keep, selected_tracks (keep_streams sel) m = Ok keep) as [keep ->].
  { apply collect_total. intros r Hr. rewrite source_sorted in Hr.
    apply list_elem_of_In, list_elem_of_fmap in Hr as (s & -> & [Hs Hk]%kept_sorted_elem).
    destruct (id_tracks m facts Hids s Hs) as (t & Ht & _). cbn. rewrite Ht. cbn. eauto. }
  destruct (flag_args_ok "--default-track-flag" (default_streams sel) (clear_default_streams sel)) as [d ->];
    [apply (mf_defaults _ _ _ _ Hmade)|apply (mf_clear _ _ _ _ Hmade)|].
  destruct (flag_args_ok "--forced-display-flag" (forced_streams sel) (clear_forced_streams sel)) as [f ->];
    [apply (mf_forced _ _ _ _ Hmade)|apply (mf_clear_forced _ _ _ _ Hmade)|].
  cbn [mbind result_mbind]. unfold track_order_argument. destruct ordered_keep_ok as (ord & -> & Hp & _).
  cbn [mbind result_mbind]. destruct (order_ids_ok ord) as [ids ->].
  { intros r Hr. rewrite Hp, (mf_keep _ _ _ _ Hmade) in Hr. by apply kept_list_elem. }
  cbn. eauto.
Qed.
End order.
