(* ===== verification/RemuxDispatch.v ===== *)
(** * Planned remuxes are dispatched

    The composition of the planner and the control plane: a group of operations
    the planner resolves is turned into a selection with the planner's tracks,
    defaults and order, unless it would take away all audio; and a group the
    planner finds to change nothing changes nothing when it is dispatched. *)

From Stdlib Require Import ZArith Lia Bool String Ascii.
From stdpp Require Import base gmap strings list sorting.
From S2P Require Import Prelude Vocab Json Bytes PolicySyntax TrackFilters PolicyCompiled.
From S2P Require Import PlanModel FilterJson PlanStreams PlanPayload PlanRemux RemuxSelection.
From S2P Require Import RemuxWorker RemuxAccepted.

Open Scope string_scope.
Open Scope list_scope.
Open Scope Z_scope.

(** ** What the planner's selections select *)

Lemma matching_ids_sub streams f ids :
  matching_ids streams f = Ok ids -> forall id, id ∈ ids -> exists s, s ∈ streams /\ sf_id s = id.
Proof.
  revert ids. induction streams as [|s streams IH]; intros ids; cbn.
  { intros [= <-] id ?%elem_of_nil. done. }
  intros (b & _ & (rest & Hr & [= <-])%result_bind_ok)%result_bind_ok id Hid.
  destruct b.
  - apply elem_of_cons in Hid as [->|Hid]; [exists s; split; [left|done]|].
    destruct (IH rest Hr id Hid) as (t & ? & ?). exists t. split; [by right|done].
  - destruct (IH rest Hr id Hid) as (t & ? & ?). exists t. split; [by right|done].
Qed.
Lemma unique_filter_ok streams f o id :
  resolve_unique_filter streams f o = Ok id -> exists s, s ∈ streams /\ sf_id s = id.
Proof.
  unfold resolve_unique_filter. intros (ids & Hm & H)%result_bind_ok.
  destruct ids as [|i [|]]; [done| |done]. injection H as <-.
  apply (matching_ids_sub _ _ _ Hm). left.
Qed.
Lemma best_from_ok streams preferred selected rank untagged r :
  best_from streams preferred selected rank untagged = Ok r ->
  exists s, (s = selected \/ s ∈ streams) /\ sf_id s = best_id r.
Proof.
  revert selected rank untagged. induction streams as [|s streams IH]; intros selected rank untagged; cbn.
  { intros [= <-]. exists selected. by split; [left|]. }
  assert (forall language u,
    (if rank_of preferred language <? rank then best_from streams preferred s (rank_of preferred language) u
     else best_from streams preferred selected rank u) = Ok r ->
    exists t, (t = selected \/ t ∈ s :: streams) /\ sf_id t = best_id r) as Hstep.
  { intros language u. destruct (_ <? _); intros (t & Ht & He)%IH; exists t; (split; [|done]);
      rewrite elem_of_cons; destruct Ht as [->|Ht]; auto. }
  destruct (sf_language s); [apply Hstep|done|apply Hstep].
Qed.
Lemma best_default_ok streams preferred r :
  resolve_best_default streams preferred = Ok (Some r) -> exists s, s ∈ streams /\ sf_id s = best_id r.
Proof.
  unfold resolve_best_default. destruct streams as [|first rest]; [done|]. destruct preferred as [|l ls].
  - intros [= <-]. exists first. split; [left|done].
  - intros (r' & (s & Hs & He)%best_from_ok & [= <-])%result_bind_ok. exists s. split; [|done].
    destruct Hs as [->|Hs]; [left|done].
Qed.
Lemma retained_elem facts keep_ids target s :
  s ∈ retained_streams facts keep_ids target <->
  s ∈ facts /\ (sf_id s ∈ keep_ids)
  /\ match target with Some t => sf_kind s = t | None => sf_kind s <> Attachment end.
Proof.
  unfold retained_streams, retained. rewrite sort_by_key_perm, elem_of_filter_true, andb_true_iff, bool_decide_eq_true.
  destruct target; [by rewrite bool_decide_eq_true|by rewrite negb_true_iff, bool_decide_eq_false].
Qed.

(** ** The default actions of the planner *)

Section actions.
Context (facts : list SnapshotStreamFact) (keep_ids : gset bytes) (preferred : list bytes).

(** The action the planner makes of one operation. *)
Definition planned_action (explicit_targets : list TrackTarget) (o : CompiledOperation) :
    option RemuxDefaultAction :=
  match o with
  | SetDefaults t s f =>
      if match f with None => true | Some _ => false end && bool_decide (t ∈ explicit_targets) then None
      else match default_selection facts keep_ids preferred t s f with
           | Ok (Some (selected, _)) =>
               Some {| da_target := t; da_strategy := s; selected_snapshot_stream_id := selected |}
           | _ => None
           end
  | _ => None
  end.

Lemma default_actions_omap explicit_targets operations acc r :
  default_actions_from operations explicit_targets facts keep_ids preferred acc = Ok r ->
  dr_actions r = dr_actions acc ++ omap (planned_action explicit_targets) operations
  /\ forall t s f, SetDefaults t s (Some f) ∈ operations ->
       exists id, default_selection facts keep_ids preferred t s (Some f) = Ok (Some (Some id, false)).
Proof.
  revert acc. induction operations as [|o operations IH]; intros acc.
  { cbn. intros [= <-]. rewrite app_nil_r. split; [done|]. by intros ? ? ? ?%elem_of_nil. }
  assert (forall acc', default_actions_from operations explicit_targets facts keep_ids preferred acc' = Ok r ->
            planned_action explicit_targets o = None -> dr_actions acc' = dr_actions acc ->
            (forall t s f, o <> SetDefaults t s (Some f)) ->
            dr_actions r = dr_actions acc ++ omap (planned_action explicit_targets) (o :: operations)
            /\ forall t s f, SetDefaults t s (Some f) ∈ o :: operations ->
                 exists id, default_selection facts keep_ids preferred t s (Some f) = Ok (Some (Some id, false)))
    as Hskip.
  { intros acc' [Hr Hs]%IH Hn Ha Ho. cbn. rewrite Hn, Hr, Ha. split; [done|].
    intros t s f [<-|Hin]%elem_of_cons; [by destruct (Ho t s f)|by apply (Hs t s f)]. }
  destruct o as [| | | |t s f| | | | | | | | | | | | |]; cbn [default_actions_from];
    try (intros H; by apply (Hskip acc)).
  destruct (match f with None => true | Some _ => false end && bool_decide (t ∈ explicit_targets)) eqn:Hc.
  { intros H. apply (Hskip acc H); [|done|].
    - cbn -[default_selection]. by rewrite Hc.
    - intros t' s' f' [= -> -> ->]. done. }
  intros (sel & Hsel & H)%result_bind_ok. destruct sel as [[selected untagged]|].
  - apply IH in H as [Hr Hs]. cbn -[default_selection] in Hr |- *. rewrite Hc, Hsel. split.
    + by rewrite Hr, <- app_assoc.
    + intros t' s' f' [[= -> -> <-]|Hin]%elem_of_cons; [|by apply (Hs t' s' f')].
      cbn in Hsel |- *. apply result_bind_ok in Hsel as (id & Hid & [= <- <-]). rewrite Hid. by exists id.
  - apply (Hskip acc H); [|done|].
    + cbn -[default_selection]. by rewrite Hc, Hsel.
    + intros t' s' f' [= -> -> ->]. cbn in Hsel. by apply result_bind_ok in Hsel as (id & _ & [=]).
Qed.

(** Actions the control plane can classify, with their class. *)
Definition class_of (a : RemuxDefaultAction) : ClassifiedDefaultAction :=
  match da_strategy a, selected_snapshot_stream_id a with
  | DPreserve, Some id => ResolvedExplicit (da_target a) id
  | DBest, Some id => ResolvedBest (da_target a) id
  | DPreserve, None => ClassPreserve (da_target a)
  | DBest, None => UnresolvedBest (da_target a)
  | DFirst, _ => ClassFirst (da_target a)
  | DNone, _ => ClassNone (da_target a)
  end.
Definition action_wf (a : RemuxDefaultAction) : Prop :=
  match da_strategy a with
  | DPreserve => True
  | DBest => exists id, selected_snapshot_stream_id a = Some id
  | DFirst | DNone => selected_snapshot_stream_id a = None
  end.
Definition effect_of (a : RemuxDefaultAction) : EffectiveDefaultAction :=
  match da_strategy a, selected_snapshot_stream_id a with
  | DPreserve, Some id | DBest, Some id => EffResolved (da_target a) id
  | DPreserve, None | DBest, None => EffPreserve (da_target a)
  | DFirst, _ => EffFirst (da_target a)
  | DNone, _ => EffNone (da_target a)
  end.
(** The selected stream of an action is a kept stream of its kind. *)
Definition action_selects (a : RemuxDefaultAction) : Prop :=
  forall id, selected_snapshot_stream_id a = Some id ->
  exists s, s ∈ facts /\ (sf_id s ∈ keep_ids) /\ sf_kind s = da_target a /\ sf_id s = id.

Lemma classify_wf a : action_wf a -> classify_default_action a = Ok (class_of a).
Proof.
  destruct a as [t [] [id|]]; unfold action_wf; cbn; try done.
Qed.
Lemma into_effective_wf a : action_wf a -> into_effective (class_of a) = Ok (effect_of a).
Proof. destruct a as [t [] [id|]]; unfold action_wf; cbn; try done. by intros [? ?]. Qed.
Lemma collect_map {E A B} (f : A -> result E B) (g : A -> B) l :
  Forall (fun x => f x = Ok (g x)) l -> collect f l = Ok (map g l).
Proof. induction 1 as [|x l Hx _ IH]; [done|]. cbn. by rewrite Hx, IH. Qed.

Lemma planned_action_ok explicit_targets o a :
  (forall t s f, o = SetDefaults t s (Some f) -> s = DPreserve) ->
  planned_action explicit_targets o = Some a ->
  action_wf a /\ action_selects a
  /\ exists f, o = SetDefaults (da_target a) (da_strategy a) f
       /\ match f with
          | Some _ => is_resolved_explicit (class_of a) = true
          | None => is_resolved_explicit (class_of a) = false /\ (da_target a ∉ explicit_targets)
          end.
Proof.
  intros Hex. destruct o as [| | | |t s f| | | | | | | | | | | | |]; try done.
  cbn -[default_selection]. destruct f as [f|]; cbn [andb].
  - rewrite (Hex t s f eq_refl). destruct (default_selection _ _ _ _ _ _) as [[[selected u]|]|] eqn:Hd; [|done|done].
    intros [= <-]. cbn in Hd. apply result_bind_ok in Hd as (id & Hid & [= <- <-]).
    split_and!; [done| |by exists (Some f)].
    intros id' [= <-]. apply unique_filter_ok in Hid as (x & (? & ? & ?)%retained_elem & ?). by exists x.
  - case_bool_decide as Ht; [done|].
    destruct (default_selection _ _ _ _ _ _) as [[[selected u]|]|] eqn:Hd; [|done|done].
    intros [= <-]. destruct s; cbn in Hd.
    2: { apply result_bind_ok in Hd as (r & Hr & Hd). destruct r as [r|]; [|done]. cbn in Hd.
         injection Hd as <- <-. split_and!; [by exists (best_id r)| |by exists None].
         intros id' [= <-]. apply best_default_ok in Hr as (x & (? & ? & ?)%retained_elem & ?). by exists x. }
    all: injection Hd as <- <-; split_and!; [done|by intros ?|by exists None].
Qed.

(** ** The control plane's reading of them *)

Definition explicit_of (cs : list ClassifiedDefaultAction) : list TrackTarget :=
  map classified_target (List.filter is_resolved_explicit cs).

Lemma explicit_from_spec operations ts ts' :
  explicit_from operations ts = Ok ts' ->
  ts' = ts ++ omap explicit_default_of operations /\ (NoDup ts -> NoDup ts').
Proof.
  revert ts. induction operations as [|o operations IH]; intros ts; cbn.
  { intros [= <-]. by rewrite app_nil_r. }
  destruct (explicit_default_of o) as [t|]; [|apply IH].
  case_bool_decide as Ht; [done|]. intros [-> Hnd]%IH. rewrite <- app_assoc in *. split; [done|].
  intros H. apply Hnd. apply NoDup_app. split_and!; [done| |apply NoDup_singleton].
  intros x Hx ->%list_elem_of_singleton. done.
Qed.
Lemma explicit_targets_ok cs ts :
  NoDup (ts ++ explicit_of cs) -> explicit_targets_from cs ts = Ok (ts ++ explicit_of cs).
Proof.
  revert ts. induction cs as [|c cs IH]; intros ts; cbn; [by rewrite app_nil_r|].
  unfold explicit_of. cbn. destruct (is_resolved_explicit c); cbn; [|apply IH].
  intros Hnd. rewrite bool_decide_eq_false_2.
  - change (?x :: ?l) with ([x] ++ l) in Hnd. rewrite app_assoc in Hnd. rewrite IH by done.
    by rewrite <- app_assoc.
  - intros Hin. apply NoDup_app in Hnd as (_ & Hd & _). apply (Hd _ Hin). left.
Qed.

Section reading.
Context (operations : list CompiledOperation) (explicit_targets : list TrackTarget).
Hypothesis Hpreserve : forall t s f, SetDefaults t s (Some f) ∈ operations -> s = DPreserve.
Hypothesis Hselected : forall t s f, SetDefaults t s (Some f) ∈ operations ->
  exists id, default_selection facts keep_ids preferred t s (Some f) = Ok (Some (Some id, false)).
Hypothesis Hexplicit : explicit_default_targets operations = Ok explicit_targets.
Hypothesis Hbest : validate_best_default_strategy_conflicts operations explicit_targets = Ok tt.
Let actions := omap (planned_action explicit_targets) operations.

Lemma planned_actions_ok a :
  a ∈ actions -> action_wf a /\ action_selects a
  /\ exists f, SetDefaults (da_target a) (da_strategy a) f ∈ operations
       /\ match f with
          | Some _ => is_resolved_explicit (class_of a) = true
          | None => is_resolved_explicit (class_of a) = false /\ (da_target a ∉ explicit_targets)
          end.
Proof.
  intros (o & Ho & Ha)%list_elem_of_omap. apply planned_action_ok in Ha as (Hw & Hs & f & -> & Hf).
  - split_and!; [done|done|]. by exists f.
  - intros t s f ->. by apply (Hpreserve t s f).
Qed.

Lemma explicit_agree_from l :
  (forall o, o ∈ l -> o ∈ operations) ->
  explicit_of (map class_of (omap (planned_action explicit_targets) l)) = omap explicit_default_of l.
Proof.
  induction l as [|o l IH]; intros Hl; [done|].
  assert (IH' := IH (fun o' H => Hl o' (list_elem_of_further o' o l H))). cbn [omap list_omap].
  destruct (planned_action explicit_targets o) as [a|] eqn:Ha.
  - pose proof Ha as Hok. apply planned_action_ok in Hok as (_ & _ & f & -> & Hf).
    2: { intros t s f ->. apply (Hpreserve t s f), Hl. left. }
    unfold explicit_of in *. cbn. destruct f as [f|]; [rewrite Hf|rewrite (proj1 Hf)]; cbn; rewrite IH'; [|done].
    f_equal. by destruct a as [t [] [id|]].
  - rewrite IH'. destruct o as [| | | |t s [f|]| | | | | | | | | | | | |]; try done.
    destruct (Hselected t s f) as [id Hid]; [apply Hl; left|].
    cbn -[default_selection] in Ha. by rewrite Hid in Ha.
Qed.
Lemma explicit_agree : explicit_of (map class_of actions) = explicit_targets /\ NoDup explicit_targets.
Proof.
  pose proof Hexplicit as H. apply explicit_from_spec in H as [He Hnd]. cbn in He. split; [|apply Hnd; constructor].
  rewrite He. by apply explicit_agree_from.
Qed.

Lemma class_target a : classified_target (class_of a) = da_target a.
Proof. by destruct a as [t [] [id|]]. Qed.

(** Of the actions for a kind with no explicit default, each comes from a strategy. *)
Lemma strategy_bound l t :
  (forall o, o ∈ l -> o ∈ operations) -> t ∉ explicit_targets ->
  (length (List.filter (fun c => bool_decide (classified_target c = t))
             (map class_of (omap (planned_action explicit_targets) l))) <= strategy_count l t)%nat.
Proof.
  unfold strategy_count. intros Hl Ht. induction l as [|o l IH]; [done|].
  assert (IH' := IH (fun o' H => Hl o' (list_elem_of_further o' o l H))). cbn [omap list_omap].
  assert (length (List.filter (fun t' => bool_decide (t' = t)) (omap strategy_of l))
          <= length (List.filter (fun t' => bool_decide (t' = t)) (omap strategy_of (o :: l))))%nat as Hmono.
  { cbn. destruct (strategy_of o) as [t'|]; [|done]. cbn. destruct (bool_decide (t' = t)); cbn; lia. }
  cbn [omap list_omap] in Hmono.
  destruct (planned_action explicit_targets o) as [a|] eqn:Ha; [|lia].
  cbn [map List.filter]. rewrite class_target. case_bool_decide as Hat; [|lia].
  apply planned_action_ok in Ha as (_ & _ & f & -> & Hf).
  2: { intros t' s f ->. apply (Hpreserve t' s f), Hl. left. }
  destruct f as [f|].
  - destruct Ht. pose proof Hexplicit as H. apply explicit_from_spec in H as [He _]. cbn in He. rewrite He. apply list_elem_of_omap.
    exists (SetDefaults (da_target a) (da_strategy a) (Some f)). split; [apply Hl; left|]. cbn. by rewrite Hat.
  - cbn. rewrite Hat, bool_decide_eq_true_2 by done. cbn. lia.
Qed.

Lemma best_conflicts_ok all l :
  best_conflicts_from all l explicit_targets = Ok tt ->
  forall t, SetDefaults t DBest None ∈ l -> t ∉ explicit_targets -> (strategy_count all t <= 1)%nat.
Proof.
  induction l as [|o l IH]; [by intros _ ? ?%elem_of_nil|]. cbn. intros H t.
  intros [<-|Hin]%elem_of_cons Ht.
  - cbn in H. rewrite bool_decide_eq_false_2 in H by done.
    destruct (strategy_count all t) as [|[|n]]; [lia|lia|done].
  - apply IH; [|done|done]. destruct (best_default_of o) as [t'|]; [|done].
    destruct (bool_decide (t' ∈ explicit_targets)); [done|]. by destruct (strategy_count all t') as [|[|n]].
Qed.

Lemma effective_actions_ok : effective_default_actions actions = Ok (map effect_of actions).
Proof.
  assert (Forall action_wf actions) as Hwf.
  { apply Forall_forall. intros a Ha. apply (planned_actions_ok a Ha). }
  unfold effective_default_actions. rewrite (collect_map _ class_of).
  2: { eapply Forall_impl; [exact Hwf|]. intros a. apply classify_wf. }
  cbn [mbind result_mbind]. destruct explicit_agree as [Heq Hnd].
  rewrite explicit_targets_ok by (cbn; by rewrite Heq). cbn [mbind result_mbind app]. rewrite Heq.
  assert (List.filter (fun c => is_resolved_explicit c || negb (bool_decide (classified_target c ∈ explicit_targets)))
            (map class_of actions) = map class_of actions) as ->.
  { apply forallb_filter_id, forallb_forall. intros c (a & <- & Ha)%in_map_iff.
    destruct (planned_actions_ok a) as (_ & _ & f & _ & Hf); [by apply list_elem_of_In|].
    destruct f; [by rewrite Hf|]. destruct Hf as [_ Hn]. rewrite class_target, bool_decide_eq_false_2 by done.
    apply orb_true_r. }
  replace (validate_best_conflicts (map class_of actions)) with (Ok tt : VR unit).
  { cbn. rewrite <- (map_map class_of (fun c => c)). rewrite map_id.
    assert (forall l, Forall action_wf l -> collect into_effective (map class_of l) = Ok (map effect_of l)) as Hc.
    { clear. induction 1 as [|a l Ha _ IH]; [done|]. cbn. by rewrite into_effective_wf, IH. }
    by apply Hc. }
  unfold validate_best_conflicts. destruct (existsb _ _) eqn:Hex; [|done]. exfalso.
  apply existsb_elem in Hex as (c & (a & -> & Ha)%list_elem_of_fmap & [Hb Hc]%andb_true_iff).
  destruct (planned_actions_ok a Ha) as (Hw & _ & f & Ho & Hf).
  assert (da_strategy a = DBest) as Hs by (destruct a as [t [] [id|]]; done).
  destruct f as [f|]; [by rewrite (Hpreserve _ _ _ Ho) in Hs|]. destruct Hf as [_ Hn].
  rewrite Hs in Ho. pose proof (best_conflicts_ok _ _ Hbest _ Ho Hn) as Hcount.
  pose proof (strategy_bound operations (da_target a) (fun _ H => H) Hn) as Hbound.
  apply Nat.ltb_lt in Hc. rewrite class_target in Hc. unfold actions in Hc. lia.
Qed.
End reading.
End actions.

(** ** References the control plane makes *)

Section refs.
Context (facts : list SnapshotStreamFact) (keep_ids : gset bytes).
Hypothesis Hdistinct : distinct_streams facts.

Lemma resolved_kept_exists s t :
  s ∈ facts -> sf_id s ∈ keep_ids -> (forall k, t = Some k -> sf_kind s = k) ->
  resolved_kept_stream (sf_id s) t facts keep_ids = Ok s.
Proof.
  intros Hs Hk Ht. unfold resolved_kept_stream.
  destruct (List.find (has_id (sf_id s)) facts) as [s'|] eqn:Hf.
  2: { pose proof (find_none _ _ Hf s (proj1 (list_elem_of_In _ _) Hs)) as Hn.
       by rewrite (proj2 (has_id_true (sf_id s) s) eq_refl) in Hn. }
  apply find_some in Hf as [Hin%list_elem_of_In Hid%has_id_true].
  apply (NoDup_map_inj sf_id facts) in Hid as ->; [|apply Hdistinct|done|done].
  cbn. rewrite bool_decide_eq_true_2 by done. cbn. destruct t as [k|]; [|done].
  by rewrite bool_decide_eq_true_2 by (by apply Ht).
Qed.

Lemma effect_refs_ok a :
  action_selects facts keep_ids a -> exists fl, default_action_refs facts keep_ids (effect_of a) = Ok fl.
Proof.
  intros Hsel. assert (forall id, selected_snapshot_stream_id a = Some id ->
    exists fl, default_action_refs facts keep_ids (EffResolved (da_target a) id) = Ok fl) as Hr.
  { intros id Hid. destruct (Hsel id Hid) as (s & Hs & Hk & Ht & <-). cbn -[resolved_kept_stream].
    rewrite resolved_kept_exists; [cbn; eauto|done|done|by intros ? [= <-]]. }
  destruct a as [t [] [id|]]; cbn -[default_action_refs] in *; eauto; cbn; eauto;
    destruct (min_by_index _); eauto.
Qed.
Lemma effects_refs_ok actions :
  (forall a, a ∈ actions -> action_selects facts keep_ids a) ->
  exists fl, default_actions_refs facts keep_ids (map effect_of actions) = Ok fl.
Proof.
  induction actions as [|a actions IH]; intros H; [by exists ([], [])|]. cbn [map default_actions_refs].
  destruct (effect_refs_ok a) as [fl ->]; [apply H; left|].
  destruct IH as [rest ->]; [intros; apply H; by right|]. cbn. eauto.
Qed.

(** A flagged stream is of the kind its action is for. *)
Lemma action_refs_kind e fl r :
  default_action_refs facts keep_ids e = Ok fl -> r ∈ fl.1 \/ r ∈ fl.2 ->
  exists s, s ∈ facts /\ r = stream_ref s /\ sf_kind s = effective_target e.
Proof.
  assert (forall t s, s ∈ kept_target_streams facts keep_ids t -> s ∈ facts /\ sf_kind s = t) as Hkt.
  { intros t s [Hs [Hk%bool_decide_eq_true _]%andb_true_iff]%elem_of_filter_true. done. }
  destruct e as [t id|t|t|t]; cbn -[resolved_kept_stream].
  - intros (s & (Hs & Hid & Hk & Ht)%resolved_kept_ok & [= <-])%result_bind_ok. cbn.
    intros [->%list_elem_of_singleton|(x & -> & [Hx [[Hxk%bool_decide_eq_true _]%andb_true_iff _]%andb_true_iff]
      %elem_of_filter_true)%list_elem_of_fmap]; [exists s|by exists x]. split_and!; [done..|by apply Ht].
  - destruct (min_by_index _) as [s|] eqn:Hm; intros [= <-]; cbn; [|by intros [?%elem_of_nil|?%elem_of_nil]].
    apply min_by_index_in, Hkt in Hm as [? ?].
    intros [->%list_elem_of_singleton|(x & -> & [[? ?]%Hkt _]%elem_of_filter_true)%list_elem_of_fmap];
      [by exists s|by exists x].
  - intros [= <-]. cbn. intros [?%elem_of_nil|(x & -> & [? ?]%Hkt)%list_elem_of_fmap]; [done|by exists x].
  - intros [= <-] (s & [? ?]%Hkt & ->)%observed_flags_sub. by exists s.
Qed.
Lemma actions_refs_kind defaults fl r :
  default_actions_refs facts keep_ids defaults = Ok fl -> r ∈ fl.1 \/ r ∈ fl.2 ->
  exists s e, e ∈ defaults /\ s ∈ facts /\ r = stream_ref s /\ sf_kind s = effective_target e.
Proof.
  revert fl. induction defaults as [|e defaults IH]; intros fl; cbn.
  { intros [= <-]. by intros [?%elem_of_nil|?%elem_of_nil]. }
  intros (a & Ha & (rest & Hr & [= <-])%result_bind_ok)%result_bind_ok. cbn. rewrite !elem_of_app.
  intros H. assert ((r ∈ a.1 \/ r ∈ a.2) \/ (r ∈ rest.1 \/ r ∈ rest.2)) as [Hin|Hin] by tauto.
  - destruct (action_refs_kind e a r Ha Hin) as (s & ? & ? & ?). exists s, e. split_and!; [left|done..].
  - destruct (IH rest Hr Hin) as (s & e' & ? & ? & ? & ?). exists s, e'. split_and!; [by right|done..].
Qed.
Lemma untouched_refs_kind targets r :
  let fl := foldr (fun t rest =>
    flags_app (observed_flags sf_is_default (kept_target_streams facts keep_ids t)) rest) ([], []) targets in
  r ∈ fl.1 \/ r ∈ fl.2 -> exists s, s ∈ facts /\ r = stream_ref s /\ (sf_kind s ∈ targets).
Proof.
  induction targets as [|t targets IH]; cbn; [by intros [?%elem_of_nil|?%elem_of_nil]|].
  rewrite !elem_of_app. intros H.
  match type of H with (?a \/ ?b) \/ ?c \/ ?d => assert ((a \/ c) \/ (b \/ d)) as [Hin|Hin] by tauto end.
  - apply observed_flags_sub in Hin as (s & [Hs [Hk%bool_decide_eq_true _]%andb_true_iff]%elem_of_filter_true & ->).
    exists s. split_and!; [done..|]. rewrite Hk. left.
  - destruct (IH Hin) as (s & ? & ? & ?). exists s. split_and!; [done..|by right].
Qed.

(** No attachment is flagged where no default is for attachments. *)
Lemma default_refs_kinds defaults fl r :
  (forall e, e ∈ defaults -> effective_target e <> Attachment) ->
  default_refs defaults facts keep_ids = Ok fl -> r ∈ fl.1 \/ r ∈ fl.2 ->
  exists s, s ∈ facts /\ r = stream_ref s /\ sf_kind s <> Attachment.
Proof.
  intros Hd. unfold default_refs. intros (a & Ha & [= <-])%result_bind_ok. cbn [fst snd]. intros Hr.
  pose proof (untouched_refs_kind (untouched_targets defaults) r) as Hu. cbv zeta in Hu.
  set (u := foldr _ _ _) in Hr, Hu. cbn in Hr.
  assert ((r ∈ a.1 \/ r ∈ a.2) \/ (r ∈ u.1 \/ r ∈ u.2)) as [Hin|Hin].
  { destruct Hr as [[[?|?]%elem_of_app _]%dedupe_from_sub|[[?|?]%elem_of_app _]%dedupe_from_sub]; tauto. }
  - destruct (actions_refs_kind defaults a r Ha Hin) as (s & e & He & Hs & -> & Hk). exists s.
    rewrite Hk. split_and!; [done|done|by apply Hd].
  - destruct (Hu Hin) as (s & Hs & -> & [Hk _]%elem_of_filter_true). exists s. split_and!; [done..|].
    intros Ha'. rewrite Ha' in Hk. by apply list_elem_of_In in Hk as [|[|[|[]]]].
Qed.
End refs.

(** ** Both sides see the same streams *)

Lemma distinct_perm facts facts' : facts' ≡ₚ facts -> distinct_streams facts -> distinct_streams facts'.
Proof. intros Hp [H1 H2]. split; by rewrite Hp. Qed.

(** The tracks kept do not depend on the order the streams are listed in. *)
Lemma keep_ids_perm facts facts' actions ids :
  distinct_streams facts -> facts' ≡ₚ facts ->
  resolve_track_keep_ids facts actions = Ok ids -> resolve_track_keep_ids facts' actions = Ok ids.
Proof.
  intros Hd Hp Hr. pose proof (keep_ids_exact facts actions (ds_ids _ Hd)) as H1. rewrite Hr in H1.
  pose proof (keep_ids_exact facts' actions (ds_ids _ (distinct_perm _ _ Hp Hd))) as H2.
  destruct H1 as [Hin Hsub]. destruct (resolve_track_keep_ids facts' actions) as [ids'|e].
  - destruct H2 as [Hin' Hsub']. f_equal. apply set_eq. intros i.
    assert (forall s, s ∈ facts -> (sf_id s ∈ ids' <-> sf_id s ∈ ids)) as Hs.
    { intros s Hs. specialize (Hin s Hs). rewrite Hin' in Hin by (by rewrite Hp).
      injection Hin as Hb. apply bool_decide_eq_true in Hb || idtac.
      rewrite <- (bool_decide_eq_true (sf_id s ∈ ids')), Hb. by rewrite bool_decide_eq_true. }
    split; intros Hi.
    + specialize (Hsub' i Hi). rewrite elem_of_list_to_set, list_elem_of_fmap in Hsub'.
      destruct Hsub' as (s & -> & Hsf). rewrite Hp in Hsf. by apply Hs.
    + specialize (Hsub i Hi). rewrite elem_of_list_to_set, list_elem_of_fmap in Hsub.
      destruct Hsub as (s & -> & Hsf). by apply Hs.
  - destruct H2 as (s & Hs & He). rewrite Hin in He; [done|by rewrite <- Hp].
Qed.

(** A track no action is for is kept. *)
Lemma untargeted_kept actions s b :
  (forall a, a ∈ actions -> ta_target a <> sf_kind s) -> track_kept actions s b = Ok b.
Proof.
  induction actions as [|a actions IH]; intros Ha; [done|]. cbn. rewrite bool_decide_eq_false_2.
  - apply IH. intros a' Ha'. apply Ha. by right.
  - intros He. apply (Ha a); [left|done].
Qed.
Lemma untargeted_ids facts actions ids s :
  distinct_streams facts -> resolve_track_keep_ids facts actions = Ok ids -> s ∈ facts ->
  (forall a, a ∈ actions -> ta_target a <> sf_kind s) -> sf_id s ∈ ids.
Proof.
  intros Hd Hr Hs Ha. pose proof (keep_ids_exact facts actions (ds_ids _ Hd)) as H. rewrite Hr in H.
  destruct H as [Hin _]. specialize (Hin s Hs). rewrite untargeted_kept in Hin by done.
  injection Hin as Hb. symmetry in Hb. by apply bool_decide_eq_true in Hb.
Qed.

(** ** Dispatch *)

(** What a compiled policy and the planner's grouping guarantee of the operations,
    and the store of the snapshot. *)
Record plannable (snapshot : MediaSnapshot) (operations : list CompiledOperation) : Prop := {
  pl_supported : Forall (fun o => remux_candidate_support o = Supported) operations;
  pl_explicit : forall t s f, SetDefaults t s (Some f) ∈ operations -> s = DPreserve;
  pl_attachments : forall s f, SetDefaults Attachment s f ∉ operations;
  pl_numbers : forallb (fun a => opt_ok filter_numbers_ok (ta_filter a)) (omap track_action_of operations) = true;
  pl_container : default (lit "mkv") (head (omap container_of operations)) = lit "mkv";
  pl_id : is_u64 (ms_id snapshot) && (0 <? ms_id snapshot) = true;
}.

Definition audio_lost (facts : list SnapshotStreamFact) (keep_ids : gset bytes) : bool :=
  existsb (is_kind Audio) facts
  && negb (existsb (fun s => is_kind Audio s && bool_decide (sf_id s ∈ keep_ids)) facts).

Section dispatch.
Context `{DurationMillis} (snapshot : MediaSnapshot) (ordinal : Z) (operations : list CompiledOperation)
  (preferred : list bytes) (facts : list SnapshotStreamFact) (res : RemuxResolution).
Let input := planning_input ordinal snapshot.
Hypothesis Hpl : plannable snapshot operations.
Hypothesis Hfacts : stream_facts input = Ok facts.
Hypothesis Htracks : existsb (fun o => negb (is_set_container o)) operations = true.
Hypothesis Hres : resolve_remux_operations input operations preferred = Ok res.

Let sorted := sort_by_key sf_index facts.

Lemma facts_distinct : distinct_streams facts.
Proof. by apply (stream_facts_ok input). Qed.
Lemma sorted_distinct : distinct_streams sorted.
Proof. apply (distinct_perm facts); [apply sort_by_key_perm|apply facts_distinct]. Qed.

(** What the planner's resolution is made of. *)
Lemma resolution_parts :
  exists keep_ids defaults explicit_targets order head flags changed,
    resolve_track_keep_ids facts (omap track_action_of operations) = Ok keep_ids
    /\ explicit_default_targets operations = Ok explicit_targets
    /\ validate_best_default_strategy_conflicts operations explicit_targets = Ok tt
    /\ default_actions_from operations explicit_targets facts keep_ids preferred
         {| dr_actions := []; dr_untagged := false |} = Ok defaults
    /\ defaults_change (dr_actions defaults) facts keep_ids = Ok flags
    /\ resolve_track_order operations facts keep_ids = Ok (order, head, changed)
    /\ existsb (is_kind Video) facts = true
    /\ rr_payload res = resolved_payload (base_remux_payload input operations) operations (dr_actions defaults)
                          order head
    /\ rr_changed res = existsb (fun s => negb (bool_decide (sf_id s ∈ keep_ids))) facts || flags || changed.
Proof.
  pose proof Hres as Hr. unfold resolve_remux_operations in Hr. rewrite Htracks, Hfacts in Hr. cbn [negb andb] in Hr.
  cbn [mbind result_mbind] in Hr. destruct (existsb (is_kind Video) facts) eqn:Hv; [|done]. cbn [negb] in Hr.
  unfold resolve_tracks in Hr.
  apply result_bind_ok in Hr as (keep_ids & Hkeep & Hr). apply result_bind_ok in Hr as (defaults & Hd & Hr).
  apply result_bind_ok in Hr as (flags & Hflags & Hr). apply result_bind_ok in Hr as ([[order head] changed] & Ho & Hr).
  injection Hr as <-. unfold resolve_default_actions in Hd.
  apply result_bind_ok in Hd as (ex & Hex & Hd). apply result_bind_ok in Hd as ([] & Hb & Hd).
  by exists keep_ids, defaults, ex, order, head, flags, changed.
Qed.

Lemma duplicate_from_nodup targets seen :
  duplicate_from targets seen = false -> NoDup seen -> NoDup (seen ++ targets).
Proof.
  revert seen. induction targets as [|t targets IH]; intros seen; cbn; [by rewrite app_nil_r|].
  case_bool_decide as Ht; [done|]. intros Hd Hs. apply IH in Hd; [by rewrite <- app_assoc in Hd|].
  apply NoDup_app. split_and!; [done| |apply NoDup_singleton]. intros x Hx ->%list_elem_of_singleton. done.
Qed.
Lemma group_injective t t' : remux_track_group t = remux_track_group t' -> t = t'.
Proof. by destruct t, t'. Qed.

Lemma no_reorder : omap reorder_of operations = [] <-> existsb is_reorder operations = false.
Proof. clear. induction operations as [|o l IH]; [done|]. cbn. destruct o; cbn; try exact IH. done. Qed.
(** The order and head the planner resolves. *)
Lemma track_order_parts keep_ids order head changed :
  resolve_track_order operations facts keep_ids = Ok (order, head, changed) ->
  (existsb is_reorder operations = false /\ order = [] /\ head = None /\ changed = false)
  \/ (existsb is_reorder operations = true /\ exists targets, order = map remux_track_group targets
       /\ (exists hf, omap reorder_of operations = [(targets, hf)]) /\ NoDup targets /\ changed = desired_order_changes facts keep_ids targets head
       /\ forall id, head = Some id ->
            exists s, s ∈ facts /\ (sf_id s ∈ keep_ids) /\ sf_kind s <> Attachment /\ sf_id s = id).
Proof.
  unfold resolve_track_order. pose proof no_reorder as Hr.
  destruct (omap reorder_of operations) as [|[targets hf] [|]] eqn:Ho; [|..|done].
  { intros [= <- <- <-]. left. by rewrite (proj1 Hr). }
  destruct (duplicate_track_targets targets) eqn:Hdup; [done|]. cbn [orb].
  destruct (match targets with [] => _ | _ => _ end); [done|].
  intros (h & Hh & [= <- <- <-])%result_bind_ok. right. split.
  { destruct (existsb is_reorder operations); [done|]. by destruct Hr as [_ Hr]; discriminate Hr. }
  exists targets. split_and!; [done|by exists hf|by apply (duplicate_from_nodup targets [] Hdup); constructor|done|].
  intros id ->. destruct hf as [f|]; [|done]. apply result_bind_ok in Hh as (i & Hi & [= ->]).
  apply unique_filter_ok in Hi as (s & (? & ? & ?)%retained_elem & ?). by exists s.
Qed.

Lemma actions_not_video a : a ∈ omap track_action_of operations -> ta_target a <> Video.
Proof.
  intros (o & Ho & Ha)%list_elem_of_omap. pose proof (pl_supported _ _ Hpl) as Hs.
  rewrite Forall_forall in Hs. specialize (Hs o Ho).
  destruct o as [|t f|t f| | | | | | | | | | | | | | |]; try done; injection Ha as <-; cbn in *;
    by case_bool_decide.
Qed.

Lemma fact_id_ok s : s ∈ facts -> stream_id_ok (sf_id s) = true.
Proof.
  intros Hs. destruct (stream_facts_ok input facts Hfacts) as [_ Hok]. rewrite Forall_forall in Hok.
  apply (Hok s Hs).
Qed.

Lemma planned_payload_ok keep_ids actions order head changed :
  (forall a, a ∈ actions -> action_selects facts keep_ids a) ->
  resolve_track_order operations facts keep_ids = Ok (order, head, changed) ->
  payload_ok (resolved_payload (base_remux_payload input operations) operations actions order head).
Proof.
  intros Ha Ho%track_order_parts. constructor; cbn -[omap].
  - apply (pl_container _ _ Hpl).
  - apply (pl_id _ _ Hpl).
  - apply (pl_numbers _ _ Hpl).
  - destruct Ho as [(Hn & _)|(-> & targets & -> & _ & Hnd & _)]; [rewrite Hn|].
    + rewrite (proj2 no_reorder Hn). destruct (existsb is_set_container operations); [|constructor].
      by apply (bool_decide_unpack (NoDup default_track_order)).
    + by apply (NoDup_fmap_2_strong remux_track_group); [intros ? ? _ _; apply group_injective|].
  - by right.
  - destruct head as [id|]; [|done]. cbn. destruct Ho as [(_ & _ & [=] & _)|(_ & targets & _ & _ & _ & _ & Hid)].
    destruct (Hid id eq_refl) as (s & Hs & _ & _ & <-). by apply fact_id_ok.
  - done.
  - apply forallb_forall. intros a Hin%list_elem_of_In. destruct (selected_snapshot_stream_id a) as [id|] eqn:Hid; [|done].
    destruct (Ha a Hin id Hid) as (s & Hs & _ & _ & <-). by apply fact_id_ok.
Qed.

Lemma sorted_elem s : s ∈ sorted <-> s ∈ facts.
Proof. unfold sorted. by rewrite sort_by_key_perm. Qed.

(** The heads of the selection are the planner's. *)
Definition heads_of (head : option bytes) (heads : list RemuxStreamRef) : Prop :=
  match head with
  | None => heads = []
  | Some id => exists s, s ∈ facts /\ sf_id s = id /\ sf_kind s <> Attachment /\ heads = [stream_ref s]
  end.
Lemma planned_heads keep_ids head :
  (forall id, head = Some id ->
     exists s, s ∈ facts /\ (sf_id s ∈ keep_ids) /\ sf_kind s <> Attachment /\ sf_id s = id) ->
  exists heads, head_refs head sorted keep_ids = Ok heads /\ heads_of head heads.
Proof.
  intros Hh. destruct head as [id|]; [|by exists []]. destruct (Hh id eq_refl) as (s & Hs & Hk & Ha & <-).
  exists [stream_ref s]. cbn -[resolved_kept_stream].
  rewrite (resolved_kept_exists sorted keep_ids sorted_distinct s); [|by apply sorted_elem|done|done].
  cbn. rewrite bool_decide_eq_false_2 by done. split; [done|]. by exists s.
Qed.

(** The selection of a payload whose actions select kept streams. *)
Lemma planned_selection p keep_ids actions :
  rp_defaults p = actions -> audio_head_snapshot_stream_id p = None ->
  (forall a, a ∈ actions -> action_selects facts keep_ids a) ->
  (forall a, a ∈ actions -> da_target a <> Attachment) ->
  (forall id, head_snapshot_stream_id p = Some id ->
     exists s, s ∈ facts /\ (sf_id s ∈ keep_ids) /\ sf_kind s <> Attachment /\ sf_id s = id) ->
  effective_default_actions actions = Ok (map effect_of actions) -> audio_lost facts keep_ids = false ->
  exists sel, selection_of p sorted keep_ids = Ok sel
    /\ default_refs (map effect_of actions) sorted keep_ids = Ok (default_streams sel, clear_default_streams sel)
    /\ forced_refs sorted keep_ids = (forced_streams sel, clear_forced_streams sel)
    /\ audio_head_stream sel = None
    /\ heads_of (head_snapshot_stream_id p) (head_streams sel).
Proof.
  intros Hd Hah Hsel Htarget Hhead Heff Haudio. unfold selection_of.
  assert (Hs' : forall a, a ∈ actions -> action_selects sorted keep_ids a).
  { intros a Ha id Hid. destruct (Hsel a Ha id Hid) as (s & ? & ?). exists s. by rewrite sorted_elem. }
  replace (reject_empty_audio sorted keep_ids) with (Ok tt : VR unit).
  2: { unfold reject_empty_audio. unfold audio_lost in Haudio.
       rewrite !(existsb_perm _ sorted facts) by apply sort_by_key_perm. by rewrite Haudio. }
  cbn [mbind result_mbind]. rewrite Hd, Heff. cbn [mbind result_mbind].
  destruct (effects_refs_ok sorted keep_ids sorted_distinct actions Hs') as [fl Hfl].
  destruct (default_refs (map effect_of actions) sorted keep_ids) as [flags|e] eqn:Hflags.
  2: { unfold default_refs in Hflags. by rewrite Hfl in Hflags. }
  cbn [mbind result_mbind]. destruct (planned_heads keep_ids _ Hhead) as (heads & -> & Hheads).
  cbn [mbind result_mbind]. rewrite Hah. cbn [audio_head_ref mbind result_mbind].
  set (sel := {| keep_streams := _ |}). exists sel.
  replace (reject_attachment_placements sel sorted) with (Ok tt : VR unit).
  { split_and!; [done|by destruct flags|by destruct (forced_refs sorted keep_ids)|done|done]. }
  unfold reject_attachment_placements. destruct (existsb _ (placements sel)) eqn:Hex; [|done]. exfalso.
  apply existsb_elem in Hex as (r & Hr & (s & Hs & [Hsa%is_kind_true Hsid%has_id_true]%andb_true_iff)%existsb_elem).
  assert (exists s', s' ∈ sorted /\ r = stream_ref s' /\ sf_kind s' <> Attachment) as (s' & Hin & -> & Hk).
  { assert (forall e, e ∈ map effect_of actions -> effective_target e <> Attachment) as Ht.
    { intros e (a & -> & Ha)%list_elem_of_fmap. specialize (Htarget a Ha). by destruct a as [t [] [id|]]. }
    unfold placements in Hr. rewrite !elem_of_app in Hr. destruct Hr as [Hr|[Hr|[Hr|[Hr|[Hr|Hr]]]]]; cbn in Hr.
    - apply (default_refs_kinds _ _ _ _ _ Ht Hflags); by left.
    - apply (default_refs_kinds _ _ _ _ _ Ht Hflags); by right.
    - unfold heads_of in Hheads. destruct (head_snapshot_stream_id p); [|subst; by apply elem_of_nil in Hr].
      destruct Hheads as (s' & ? & _ & ? & ->). apply list_elem_of_singleton in Hr as ->. exists s'.
      by rewrite sorted_elem.
    - by apply elem_of_nil in Hr.
    - apply (or_introl (B := r ∈ (forced_refs sorted keep_ids).2)) in Hr.
      apply observed_flags_sub in Hr as (s' & [? [Hk%negb_true_iff _]%andb_true_iff]%elem_of_filter_true & ->).
      apply bool_decide_eq_false in Hk. by exists s'.
    - apply (or_intror (A := r ∈ (forced_refs sorted keep_ids).1)) in Hr.
      apply observed_flags_sub in Hr as (s' & [? [Hk%negb_true_iff _]%andb_true_iff]%elem_of_filter_true & ->).
      apply bool_decide_eq_false in Hk. by exists s'. }
  cbn in Hsid. apply (NoDup_map_inj sf_id sorted) in Hsid as ->; [done|apply sorted_distinct|done|done].
Qed.

(** The payload is read back, and the streams are the planner's. *)
Lemma selection_reads p keep_ids :
  payload_ok p -> source_media_snapshot_id p = Some (ms_id snapshot) ->
  track_actions p = omap track_action_of operations ->
  resolve_track_keep_ids facts (omap track_action_of operations) = Ok keep_ids ->
  existsb (is_kind Video) facts = true ->
  selection_from_payload_and_snapshot (into_value p) snapshot = selection_of p sorted keep_ids.
Proof.
  intros Hp Hid Hact Hkeep Hv. unfold selection_from_payload_and_snapshot.
  rewrite (proj2 (payload_reads_back p Hp)), Hid. cbn [mbind result_mbind].
  rewrite (po_container p Hp). change (is_supported_remux_container (lit REMUX_CONTAINER)) with true. cbn [negb].
  rewrite Hid, bool_decide_eq_true_2 by done. cbn [negb].
  change (stream_facts (planning_input 1 snapshot)) with (stream_facts input). rewrite Hfacts.
  cbn [block_result mbind result_mbind]. fold sorted.
  rewrite (existsb_perm _ sorted facts) by apply sort_by_key_perm. rewrite Hv, Hact. cbn [negb].
  destruct (existsb _ (omap track_action_of operations)) eqn:Hex.
  { apply existsb_elem in Hex as (a & Ha%actions_not_video & Ht%bool_decide_eq_true). done. }
  rewrite (keep_ids_perm facts sorted _ keep_ids facts_distinct (sort_by_key_perm _ _) Hkeep).
  cbn [block_result mbind result_mbind]. f_equal. apply set_eq. intros i. rewrite elem_of_union.
  split; [|by right]. intros [Hi|Hi]; [|done]. unfold video_ids in Hi. rewrite elem_of_list_to_set in Hi.
  apply list_elem_of_fmap in Hi as (s & -> & [Hs%sorted_elem Hk%is_kind_true]%elem_of_filter_true).
  apply (untargeted_ids facts _ keep_ids s facts_distinct Hkeep Hs).
  intros a Ha. rewrite Hk. by apply actions_not_video.
Qed.

(** What dispatching the planner's payload gives. *)
Lemma dispatch_outcome :
  exists keep_ids flags order head changed,
    resolve_track_keep_ids facts (track_actions (rr_payload res)) = Ok keep_ids
    /\ defaults_change (rp_defaults (rr_payload res)) facts keep_ids = Ok flags
    /\ Forall action_wf (rp_defaults (rr_payload res))
    /\ resolve_track_order operations facts keep_ids = Ok (order, head, changed)
    /\ head_snapshot_stream_id (rr_payload res) = head
    /\ (existsb is_reorder operations = true -> track_order (rr_payload res) = order)
    /\ rr_changed res = existsb (fun s => negb (bool_decide (sf_id s ∈ keep_ids))) facts || flags || changed
    /\ existsb (is_kind Video) facts = true
    /\ (forall s, s ∈ facts -> sf_kind s = Video -> sf_id s ∈ keep_ids)
    /\ if audio_lost facts keep_ids
       then selection_from_payload_and_snapshot (into_value (rr_payload res)) snapshot = Err EConfig
       else exists sel,
         selection_from_payload_and_snapshot (into_value (rr_payload res)) snapshot = Ok sel
         /\ made_from sorted keep_ids (rr_payload res) sel
         /\ default_refs (map effect_of (rp_defaults (rr_payload res))) sorted keep_ids
            = Ok (default_streams sel, clear_default_streams sel)
         /\ forced_refs sorted keep_ids = (forced_streams sel, clear_forced_streams sel)
         /\ audio_head_stream sel = None
         /\ heads_of head (head_streams sel).
Proof.
  destruct resolution_parts as (keep_ids & defaults & ex & order & head & flags & changed & Hkeep & Hex & Hbest
    & Hact & Hflags & Horder & Hvideo & Hp & Hch).
  apply default_actions_omap in Hact as [Hacts Hselected]. cbn in Hacts.
  assert (Forall action_wf (dr_actions defaults)) as Hwf.
  { apply Forall_forall. intros a Ha. rewrite Hacts in Ha.
    apply (planned_actions_ok facts keep_ids preferred operations ex (pl_explicit _ _ Hpl) a Ha). }
  assert (forall a, a ∈ dr_actions defaults -> action_selects facts keep_ids a /\ da_target a <> Attachment) as Hok.
  { intros a Ha. rewrite Hacts in Ha.
    destruct (planned_actions_ok facts keep_ids preferred operations ex (pl_explicit _ _ Hpl) a Ha)
      as (_ & Hs & f & Ho & _). split; [done|]. intros Hat. rewrite Hat in Ho.
    by apply (pl_attachments _ _ Hpl) in Ho. }
  assert (effective_default_actions (dr_actions defaults) = Ok (map effect_of (dr_actions defaults))) as Heff.
  { rewrite Hacts. apply effective_actions_ok; [apply (pl_explicit _ _ Hpl)|exact Hselected|exact Hex|exact Hbest]. }
  pose proof (planned_payload_ok keep_ids (dr_actions defaults) order head changed
                (fun a Ha => proj1 (Hok a Ha)) Horder) as Hpok.
  pose proof (track_order_parts keep_ids order head changed Horder) as Hparts.
  rewrite Hp in *. exists keep_ids, flags, order, head, changed. split_and!; try done.
  - intros Hre. cbn. by rewrite Hre.
  - intros s Hs Hk. apply (untargeted_ids facts _ keep_ids s facts_distinct Hkeep Hs).
    intros a Ha. rewrite Hk. by apply actions_not_video.
  - rewrite (selection_reads _ keep_ids Hpok) by done. destruct (audio_lost facts keep_ids) eqn:Ha.
    + unfold selection_of, reject_empty_audio. unfold audio_lost in Ha.
      rewrite !(existsb_perm _ sorted facts) by apply sort_by_key_perm. by rewrite Ha.
    + edestruct (planned_selection (resolved_payload (base_remux_payload input operations) operations
        (dr_actions defaults) order head) keep_ids (dr_actions defaults)) as (sel & Hsel & Hrefs & Hforced & Hah & Hheads);
        [done|done|by apply Hok|by apply Hok| |exact Heff|exact Ha|].
      * cbn. intros id ->. destruct Hparts as [(_ & _ & [=] & _)|(_ & t & _ & _ & _ & _ & Hid)]. by apply Hid.
      * exists sel. split_and!; try done. by apply selection_of_ok.
Qed.
End dispatch.
