(* ===== verification/RemuxCorrect.v ===== *)
(** * Remuxes from plan to worker

    The theorems about a remux as a whole: what the planner resolves is what the
    worker runs, a plan that changes nothing changes nothing, and a result the
    worker reports is a result it has checked. *)

From Stdlib Require Import ZArith Lia Bool String Ascii.
From stdpp Require Import base gmap strings list sorting.
From S2P Require Import Prelude Vocab Json Bytes PolicySyntax TrackFilters PolicyCompiled.
From S2P Require Import PlanModel FilterJson PlanStreams PlanPayload PlanRemux RemuxSelection.
From S2P Require Import RemuxWorker RemuxAccepted RemuxDispatch.

Open Scope string_scope.
Open Scope list_scope.
Open Scope Z_scope.

(** ** Sorted streams *)

Lemma sort_perm facts facts' :
  NoDup (map sf_index facts) -> facts ≡ₚ facts' ->
  sort_by_key sf_index facts = sort_by_key sf_index facts'.
Proof.
  intros Hnd Hp. apply (sorted_by_unique sf_index).
  - by rewrite sort_by_key_perm.
  - by rewrite !sort_by_key_perm.
  - apply sort_by_key_sorted.
  - apply sort_by_key_sorted.
Qed.
Definition ordinary (s : SnapshotStreamFact) : bool := negb (is_kind Attachment s).

(** The kept streams but attachments, as the planner and as the worker list them. *)
Lemma retained_ordinary facts keep_ids :
  distinct_streams facts ->
  List.filter ordinary (kept_sorted (sort_by_key sf_index facts) keep_ids) = retained_streams facts keep_ids None.
Proof.
  intros Hd. unfold kept_sorted, retained_streams.
  rewrite <- sort_by_key_filter.
  2: { apply NoDup_map_filter. rewrite sort_by_key_perm. apply Hd. }
  rewrite filter_filter. transitivity (sort_by_key sf_index (List.filter (retained keep_ids None) (sort_by_key sf_index facts))).
  - f_equal. apply List.filter_ext. intros s. unfold ordinary, is_kind, retained. apply andb_comm.
  - apply sort_perm.
    + apply NoDup_map_filter. rewrite sort_by_key_perm. apply Hd.
    + apply list_filter_perm, sort_by_key_perm.
Qed.

(** *** The two orders agree *)

Lemma orders_agree facts keep_ids p sel targets head :
  distinct_streams facts -> made_from (sort_by_key sf_index facts) keep_ids p sel ->
  track_order p = map remux_track_group targets -> heads_of facts head (head_streams sel) ->
  List.filter ordinary (worker_order (sort_by_key sf_index facts) keep_ids p sel)
  = desired_order (retained_streams facts keep_ids None) targets head.
Proof.
  intros Hd Hmade Ho Hh. set (sorted := sort_by_key sf_index facts) in *.
  assert (distinct_streams sorted) as Hds by (apply (distinct_perm facts); [apply sort_by_key_perm|done]).
  pose proof (kept_sorted_distinct sorted keep_ids Hds) as Hdk. unfold worker_order.
  rewrite in_passes_filter; [|intros x y Hx Hy He; by apply (NoDup_map_inj sf_id _ x y (ds_ids _ Hdk))
    |by intros x ?%elem_of_nil].
  unfold sorted. rewrite retained_ordinary by done. rewrite desired_order_passes.
  2: { rewrite <- retained_ordinary by done. apply NoDup_map_filter, Hdk. }
  apply in_passes_ext. apply Forall2_app; [|by constructor]. apply Forall2_app.
  - destruct head as [id|]; cbn in Hh |- *; [|by rewrite Hh].
    destruct Hh as (s & Hs & <- & _ & ->). constructor; [|done].
    intros x (Hx & _ & _)%retained_elem. apply eq_bool_prop_intro.
    rewrite !Is_true_true, same_ref_true, has_id_true. split; [by intros [= ? ?]|].
    intros He. by rewrite (NoDup_map_inj sf_id facts x s (ds_ids _ Hd)).
  - rewrite Ho, map_map. apply Forall2_fmap, Forall_Forall2_diag, Forall_true. intros t x _.
    apply bool_decide_ext. split; [apply group_injective|by intros ->].
Qed.

(** ** Flags *)

Lemma flags_unchanged streams wanted s :
  flags_change streams wanted = Ok false -> s ∈ streams -> sf_is_default s = Known (wanted s).
Proof.
  induction streams as [|x streams IH]; [by intros _ ?%elem_of_nil|]. cbn.
  intros (d & Hd & (rest & Hr & [= Ho])%result_bind_ok)%result_bind_ok.
  apply orb_false_iff in Ho as [Hx ->]. intros [->|Hs]%elem_of_cons; [|by apply IH].
  unfold required_default, required_bool_fact in Hd. destruct (sf_is_default x) as [| |b]; try done.
  injection Hd as ->. apply negb_false_iff, eqb_prop in Hx. by rewrite Hx.
Qed.
Lemma observed_flags_value value l r :
  (r ∈ (observed_flags value l).1 -> exists s, s ∈ l /\ r = stream_ref s /\ value s = Known true)
  /\ (r ∈ (observed_flags value l).2 -> exists s, s ∈ l /\ r = stream_ref s /\ value s = Known false).
Proof.
  induction l as [|x l [IH1 IH2]]; cbn; [split; by intros ?%elem_of_nil|]. rewrite !elem_of_app.
  unfold observed_flag. split.
  - intros [H|H]; [|destruct (IH1 H) as (s & ? & ?); exists s; split; [by right|done]].
    destruct (value x) as [| |[]] eqn:Hv; cbn in H; try (by apply elem_of_nil in H).
    apply list_elem_of_singleton in H as ->. exists x. split; [left|done].
  - intros [H|H]; [|destruct (IH2 H) as (s & ? & ?); exists s; split; [by right|done]].
    destruct (value x) as [| |[]] eqn:Hv; cbn in H; try (by apply elem_of_nil in H).
    apply list_elem_of_singleton in H as ->. exists x. split; [left|done].
Qed.

Lemma min_by_index_least l s x : min_by_index l = Some s -> x ∈ l -> sf_index s <= sf_index x.
Proof.
  revert s. induction l as [|y l IH]; [by intros ? _ ?%elem_of_nil|]. cbn. intros s Hm Hx.
  destruct (min_by_index l) as [t|] eqn:Ht.
  - destruct (sf_index t <? sf_index y) eqn:Hlt; injection Hm as <-.
    + apply elem_of_cons in Hx as [->|Hx]; [lia|by apply (IH t)].
    + apply elem_of_cons in Hx as [->|Hx]; [lia|]. specialize (IH t eq_refl Hx). lia.
  - injection Hm as <-. destruct l; [|cbn in Ht; destruct (min_by_index l); [by destruct (_ <? _)|done]].
    apply list_elem_of_singleton in Hx as ->. lia.
Qed.
Lemma min_by_index_some l x : x ∈ l -> exists s, min_by_index l = Some s.
Proof.
  destruct l as [|y l]; [by intros ?%elem_of_nil|]. intros _. cbn.
  destruct (min_by_index l) as [t|]; [destruct (_ <? _)|]; eauto.
Qed.

(** The wanted flag of a stream is the one it has. *)
Definition flag_kept (fl : list RemuxStreamRef * list RemuxStreamRef) (facts : list SnapshotStreamFact) : Prop :=
  forall s, s ∈ facts -> (stream_ref s ∈ fl.1 -> sf_is_default s = Known true)
                    /\ (stream_ref s ∈ fl.2 -> sf_is_default s = Known false).
Lemma flag_kept_intro fl facts :
  distinct_streams facts ->
  (forall r, r ∈ fl.1 -> exists s, s ∈ facts /\ r = stream_ref s /\ sf_is_default s = Known true) ->
  (forall r, r ∈ fl.2 -> exists s, s ∈ facts /\ r = stream_ref s /\ sf_is_default s = Known false) ->
  flag_kept fl facts.
Proof.
  intros Hd H1 H2 s Hs. assert (forall s', s' ∈ facts -> stream_ref s = stream_ref s' -> s = s') as Hinj.
  { intros s' Hs' [= He _]. by apply (NoDup_map_inj sf_id facts s s' (ds_ids _ Hd)). }
  split; intros Hr; [destruct (H1 _ Hr) as (s' & Hs' & He & Hv)|destruct (H2 _ Hr) as (s' & Hs' & He & Hv)];
    by rewrite (Hinj s' Hs' He).
Qed.
Lemma flag_kept_app a b facts : flag_kept a facts -> flag_kept b facts -> flag_kept (flags_app a b) facts.
Proof.
  intros Ha Hb s Hs. destruct (Ha s Hs), (Hb s Hs). cbn. rewrite !elem_of_app. naive_solver.
Qed.

Section noop.
Context (facts : list SnapshotStreamFact) (keep_ids : gset bytes).
Hypothesis Hdistinct : distinct_streams facts.
Let sorted := sort_by_key sf_index facts.

Lemma kept_target_elem t s :
  s ∈ kept_target_streams sorted keep_ids t <-> s ∈ facts /\ sf_kind s = t /\ (sf_id s ∈ keep_ids).
Proof.
  unfold kept_target_streams, sorted. rewrite elem_of_filter_true, sort_by_key_perm, andb_true_iff.
  by rewrite !bool_decide_eq_true.
Qed.
Lemma observed_kept t : flag_kept (observed_flags sf_is_default (kept_target_streams sorted keep_ids t)) facts.
Proof.
  apply flag_kept_intro; [done|..]; intros r Hr; apply observed_flags_value in Hr as (s & (? & _)%kept_target_elem & ? & ?);
    by exists s.
Qed.

Lemma first_is_least t first rest :
  retained_streams facts keep_ids (Some t) = first :: rest ->
  min_by_index (kept_target_streams sorted keep_ids t) = Some first.
Proof.
  intros Hret. assert (forall s, s ∈ first :: rest <-> s ∈ kept_target_streams sorted keep_ids t) as Hsame.
  { intros s. rewrite <- Hret, retained_elem, kept_target_elem. tauto. }
  destruct (min_by_index_some (kept_target_streams sorted keep_ids t) first) as [s Hs]; [apply Hsame; left|].
  rewrite Hs. f_equal. pose proof (min_by_index_in _ _ Hs) as Hin.
  assert (sf_index s <= sf_index first) by (apply (min_by_index_least _ _ _ Hs), Hsame; left).
  assert (sf_index first <= sf_index s).
  { apply Hsame in Hin. apply elem_of_cons in Hin as [->|Hin]; [done|].
    assert (StronglySorted (fun a b => sf_index a <= sf_index b) (first :: rest)) as Hsort.
    { rewrite <- Hret. apply sort_by_key_sorted. }
    inversion_clear Hsort as [|? ? _ Hf]. rewrite Forall_forall in Hf. by apply Hf. }
  apply kept_target_elem in Hin as (Hin & _). assert (first ∈ facts) as Hf.
  { apply (retained_elem facts keep_ids (Some t)). rewrite Hret. left. }
  apply (NoDup_map_inj sf_index facts s first (ds_indexes _ Hdistinct)); [done|done|lia].
Qed.

(** An action the planner finds to change nothing asks for the flags there are. *)
Lemma action_unchanged a fl :
  action_wf a -> default_change a facts keep_ids = Ok false ->
  default_action_refs sorted keep_ids (effect_of a) = Ok fl -> flag_kept fl facts.
Proof.
  intros Hwf Hc. assert (forall id, selected_snapshot_stream_id a = Some id ->
    default_action_refs sorted keep_ids (EffResolved (da_target a) id) = Ok fl -> flag_kept fl facts) as Hsel.
  { intros id Hid. unfold default_change in Hc. rewrite Hid in Hc. cbn -[resolved_kept_stream].
    assert (forall s, s ∈ facts -> sf_kind s = da_target a -> sf_id s ∈ keep_ids ->
              sf_is_default s = Known (has_id id s)) as Hf.
    { intros s Hs Hk Hkeep. apply (flags_unchanged _ _ _ Hc). apply elem_of_filter_true. unfold retained.
      by rewrite !bool_decide_eq_true_2. }
    intros (s & (Hs & Hsid & Hk & Ht)%resolved_kept_ok & [= <-])%result_bind_ok.
    unfold sorted in Hs. rewrite sort_by_key_perm in Hs. apply flag_kept_intro; [done|..]; cbn.
    - intros r ->%list_elem_of_singleton. exists s. split_and!; [done..|].
      rewrite Hf; [by rewrite (proj2 (has_id_true id s))|done|by apply Ht|by rewrite Hsid].
    - intros r (x & -> & [Hx [[Hxk%bool_decide_eq_true Hn%negb_true_iff]%andb_true_iff
        Hkeep%bool_decide_eq_true]%andb_true_iff]%elem_of_filter_true)%list_elem_of_fmap.
      unfold sorted in Hx. rewrite sort_by_key_perm in Hx. exists x. rewrite Hf by done. by rewrite Hn. }
  unfold default_change in Hc. destruct a as [t st [id|]]; cbn in Hc, Hsel.
  { destruct st; [done| |done|]; by apply Hsel. }
  destruct st; cbn -[default_action_refs].
  - destruct (retained_streams facts keep_ids (Some t)) as [|first rest] eqn:Hret; [done|].
    assert (forall s, s ∈ kept_target_streams sorted keep_ids t ->
              sf_is_default s = Known (has_id (sf_id first) s)) as Hf.
    { intros s (? & ? & ?)%kept_target_elem. apply (flags_unchanged _ _ _ Hc). rewrite <- Hret.
      by apply retained_elem. }
    cbn. rewrite (first_is_least t first rest Hret). intros [= <-].
    pose proof (min_by_index_in _ _ (first_is_least t first rest Hret)) as Hin.
    apply flag_kept_intro; [done|..]; cbn.
    + intros r ->%list_elem_of_singleton. exists first. rewrite Hf, (proj2 (has_id_true _ first)) by done.
      by apply kept_target_elem in Hin as (? & _).
    + intros r (x & -> & [Hx Hn%negb_true_iff]%elem_of_filter_true)%list_elem_of_fmap. exists x.
      rewrite Hf, Hn by done. by apply kept_target_elem in Hx as (? & _).
  - done.
  - cbn. intros [= <-]. apply flag_kept_intro; [done|by intros ? ?%elem_of_nil|]. cbn.
    intros r (x & -> & Hx)%list_elem_of_fmap. exists x. pose proof Hx as (? & ? & ?)%kept_target_elem.
    split_and!; [done..|]. apply (flags_unchanged _ _ x Hc). by apply retained_elem.
  - cbn. intros [= <-]. apply observed_kept.
Qed.

Lemma actions_unchanged actions fl :
  Forall action_wf actions -> defaults_change actions facts keep_ids = Ok false ->
  default_actions_refs sorted keep_ids (map effect_of actions) = Ok fl -> flag_kept fl facts.
Proof.
  revert fl. induction actions as [|a actions IH]; intros fl; cbn -[default_action_refs].
  { intros _ _ [= <-] s Hs. split; by intros ?%elem_of_nil. }
  intros [Hwf Hwfs]%Forall_cons (c & Hc & (rest & Hr & [= Ho])%result_bind_ok)%result_bind_ok.
  apply orb_false_iff in Ho as [-> ->].
  intros (fa & Hfa & (frest & Hfr & [= <-])%result_bind_ok)%result_bind_ok.
  apply flag_kept_app; [by apply (action_unchanged a)|by apply IH].
Qed.
Lemma defaults_unchanged actions fl :
  Forall action_wf actions -> defaults_change actions facts keep_ids = Ok false ->
  default_refs (map effect_of actions) sorted keep_ids = Ok fl -> flag_kept fl facts.
Proof.
  intros Hwf Hc. unfold default_refs. intros (fa & Hfa & [= <-])%result_bind_ok.
  pose proof (actions_unchanged actions fa Hwf Hc Hfa) as Hk. set (u := foldr _ _ _).
  assert (flag_kept u facts) as Hu.
  { subst u. induction (untouched_targets (map effect_of actions)) as [|t l IH].
    - intros s Hs. split; by intros ?%elem_of_nil.
    - cbn. by apply flag_kept_app; [apply observed_kept|]. }
  pose proof (flag_kept_app _ _ _ Hk Hu) as Hall. intros s Hs. destruct (Hall s Hs) as [H1 H2]. cbn in *.
  split; intros [Hr _]%dedupe_from_sub; auto.
Qed.
End noop.

(** ** Acceptance *)

(** Every check of the worker before it starts [mkvmerge]. *)
Definition worker_accepts (request : RemuxRequest) (m : MkvmergeTrackMapping) : Prop :=
  let sel := req_selection request in
  validate_request_contract request = Ok tt
  /\ existsb (in_group m GVideo) (keep_streams sel) = true
  /\ validate_all_source_video_streams_kept sel m = Ok tt
  /\ validate_source_audio_preserved sel m = Ok tt
  /\ exists args, build_mkvmerge_args request m = Ok args.

Lemma made_selection_accepted facts keep_ids p sel m request :
  distinct_streams facts -> made_from facts keep_ids p sel -> identifies m facts ->
  head_snapshot_stream_id p = None \/ audio_head_snapshot_stream_id p = None ->
  existsb (is_kind Video) facts = true ->
  (forall s, s ∈ facts -> sf_kind s = Video -> sf_id s ∈ keep_ids) ->
  req_selection request = sel -> out_overwrite request = false ->
  is_supported_remux_container (out_container request) = true ->
  worker_accepts request m.
Proof.
  intros Hd Hm Hi Hh (v & Hv & Hk%is_kind_true)%existsb_elem Hvs Hsel Ho Hc. unfold worker_accepts. rewrite Hsel.
  assert (exists s, s ∈ facts /\ sf_kind s = Video) as Hex by eauto.
  split_and!.
  - by apply (contract_accepted facts keep_ids p sel).
  - by apply (sees_video facts keep_ids p).
  - by apply (videos_kept facts keep_ids p).
  - by apply (audio_preserved facts keep_ids p).
  - by apply (args_exist facts keep_ids p sel).
Qed.

Lemma payload_one_head v p :
  try_from_execution_value v = Ok p ->
  head_snapshot_stream_id p = None \/ audio_head_snapshot_stream_id p = None.
Proof.
  unfold try_from_execution_value, try_from_value. intros H.
  repeat match goal with
    | H : mbind _ _ = Ok _ |- _ => apply result_bind_ok in H as (? & ? & H)
    | H : (if ?b then Err _ else _) = Ok _ |- _ => destruct b; [done|]
    | H : match ?h with Some _ => _ | None => _ end = Ok _ |- _ => destruct h; try done
    | H : Ok _ = Ok _ |- _ => injection H as <-
    end; cbn in *; tauto.
Qed.

(** Whatever payload and snapshot a remux is dispatched with, a selection the
    control plane makes is one the worker accepts: where the worker identifies the
    streams the snapshot lists, every check it makes of the request passes (no
    duplicate reference, flags and heads among the kept streams, all video kept,
    audio not lost, no attachment flagged) and the [mkvmerge] arguments exist, in an
    order that lists each kept stream once. *)
Theorem remux_selection_accepted `{DurationMillis} payload snapshot sel facts m request :
  selection_from_payload_and_snapshot payload snapshot = Ok sel ->
  stream_facts (planning_input 1 snapshot) = Ok facts -> identifies m facts ->
  req_selection request = sel -> out_overwrite request = false ->
  is_supported_remux_container (out_container request) = true ->
  worker_accepts request m
  /\ exists ord, ordered_keep_streams sel m = Ok ord /\ ord ≡ₚ keep_streams sel.
Proof.
  unfold selection_from_payload_and_snapshot. intros Hs Hf Hi Hsel Ho Hc.
  apply result_bind_ok in Hs as (p & Hp & Hs).
  destruct (try_from_execution_value payload) as [p'|] eqn:Hread; [|done]. injection Hp as ->.
  destruct (negb (is_supported_remux_container (rp_container p))); [done|]. destruct (negb _) in Hs; [done|].
  rewrite Hf in Hs. cbn [block_result mbind result_mbind] in Hs. set (sorted := sort_by_key sf_index facts) in Hs.
  destruct (existsb (is_kind Video) sorted) eqn:Hv; [|done]. cbn [negb] in Hs. destruct (existsb _ _) in Hs; [done|].
  apply result_bind_ok in Hs as (keep & _ & Hs%selection_of_ok).
  apply stream_facts_ok in Hf as [Hd _].
  assert (sorted ≡ₚ facts) as Hperm by apply sort_by_key_perm.
  assert (distinct_streams sorted) as Hds by (by apply (distinct_perm facts)).
  assert (identifies m sorted) as His.
  { destruct Hi as [H1 H2]. split; [intros s; rewrite Hperm; apply H1|]. intros i t Hin.
    destruct (H2 i t Hin) as (? & s & ? & ?). split; [done|]. exists s. by rewrite Hperm. }
  pose proof (payload_one_head _ _ Hread) as Hone. split.
  - apply (made_selection_accepted sorted (video_ids sorted ∪ keep) p sel); try done.
    intros s Hin Hk. apply elem_of_union_l. unfold video_ids. apply elem_of_list_to_set, list_elem_of_fmap.
    exists s. split; [done|]. apply elem_of_filter_true. by rewrite is_kind_true.
  - destruct (ordered_keep_ok sorted _ p sel m Hds Hs His Hone) as (ord & ? & ? & _). by exists ord.
Qed.

(** *** Plans are run as planned *)

Lemma identifies_sorted m facts : identifies m facts -> identifies m (sort_by_key sf_index facts).
Proof.
  intros [H1 H2]. split; [intros s; rewrite sort_by_key_perm; apply H1|]. intros i t Hin.
  destruct (H2 i t Hin) as (? & s & ? & ?). split; [done|]. exists s. by rewrite sort_by_key_perm.
Qed.
Lemma ordinary_refs m facts l :
  identifies m facts -> (forall s, s ∈ l -> s ∈ facts) ->
  List.filter (fun r => negb (is_attachment_ref m r)) (map stream_ref l) = map stream_ref (List.filter ordinary l).
Proof.
  intros Hi. induction l as [|s l IH]; intros Hl; [done|]. cbn.
  rewrite IH by (intros; apply Hl; by right).
  assert (is_attachment_ref m (stream_ref s) = is_kind Attachment s) as ->.
  { destruct (id_tracks m facts Hi s) as (t & Ht & Hk); [apply Hl; left|].
    unfold is_attachment_ref, is_kind. cbn. rewrite Ht, Hk. by destruct (sf_kind s). }
  unfold ordinary. by destruct (is_kind Attachment s).
Qed.


(** *** Plans that change nothing *)

Lemma worker_order_default facts keep_ids p sel :
  distinct_streams facts -> track_order p = [] -> head_streams sel = [] ->
  worker_order facts keep_ids p sel = kept_sorted facts keep_ids.
Proof.
  intros Hd Ho Hh. unfold worker_order. rewrite Ho, Hh. cbn. unfold in_passes. cbn.
  apply forallb_filter_id, forallb_forall. done.
Qed.

Lemma kept_all (keep_ids : gset bytes) (l : list SnapshotStreamFact) :
  (forall s, s ∈ l -> sf_id s ∈ keep_ids) ->
  List.filter (fun s => bool_decide (sf_id s ∈ keep_ids)) l = l.
Proof.
  intros Hl. apply forallb_filter_id, forallb_forall. intros s Hs%list_elem_of_In.
  by apply bool_decide_eq_true, Hl.
Qed.
Lemma all_kept_audio facts keep_ids :
  (forall s, s ∈ facts -> sf_id s ∈ keep_ids) -> audio_lost facts keep_ids = false.
Proof.
  intros Hk. unfold audio_lost. destruct (existsb (is_kind Audio) facts) eqn:He; [|done]. cbn. apply negb_false_iff.
  apply existsb_elem in He as (s & Hs & Hsk). apply existsb_elem. exists s. split; [done|].
  rewrite Hsk. cbn. by apply bool_decide_eq_true, Hk.
Qed.
(** Forced flags are asked for as they are. *)
Lemma forced_unchanged facts keep_ids s :
  distinct_streams facts -> s ∈ facts ->
  (stream_ref s ∈ (forced_refs facts keep_ids).1 -> sf_is_forced s = Known true)
  /\ (stream_ref s ∈ (forced_refs facts keep_ids).2 -> sf_is_forced s = Known false).
Proof.
  intros Hd Hs. assert (forall s', s' ∈ facts -> stream_ref s = stream_ref s' -> s = s') as Hinj.
  { intros s' Hs' [= He _]. by apply (NoDup_map_inj sf_id facts s s' (ds_ids _ Hd)). }
  split; intros (s' & [Hs' _]%elem_of_filter_true & He & Hv)%observed_flags_value; by rewrite (Hinj s').
Qed.

(** What the planner's payload has besides the default actions. *)
Lemma planned_payload_rest `{DurationMillis} snapshot ordinal operations preferred facts res :
  stream_facts (planning_input ordinal snapshot) = Ok facts ->
  existsb (fun o => negb (is_set_container o)) operations = true ->
  resolve_remux_operations (planning_input ordinal snapshot) operations preferred = Ok res ->
  audio_head_snapshot_stream_id (rr_payload res) = None
  /\ (existsb is_reorder operations = false -> track_order (rr_payload res)
        = if existsb is_set_container operations then default_track_order else []).
Proof.
  intros Hf Ht Hr. destruct (resolution_parts snapshot ordinal operations preferred facts res Hf Ht Hr)
    as (? & ? & ? & ? & ? & ? & ? & ? & ? & ? & ? & ? & ? & ? & -> & _). split; [done|].
  intros Hn. cbn -[omap]. rewrite Hn. by rewrite (proj2 (no_reorder operations) Hn).
Qed.

(** The worker's order of a selection that keeps everything and whose order is the
    file's. *)
Lemma unchanged_order facts keep_ids p sel m order head operations :
  distinct_streams facts -> made_from (sort_by_key sf_index facts) keep_ids p sel -> identifies m facts ->
  audio_head_snapshot_stream_id p = None -> audio_head_stream sel = None ->
  (forall s, s ∈ facts -> sf_id s ∈ keep_ids) ->
  resolve_track_order operations facts keep_ids = Ok (order, head, false) ->
  heads_of facts head (head_streams sel) ->
  (if existsb is_reorder operations then track_order p = order else track_order p = []) ->
  exists ord, ordered_keep_streams sel m = Ok ord
    /\ List.filter (fun r => negb (is_attachment_ref m r)) ord
       = map stream_ref (List.filter ordinary (sort_by_key sf_index facts)).
Proof.
  intros Hd Hmade Hi Hone Hah Hk Horder Hheads Hto. pose proof (identifies_sorted m facts Hi) as His.
  assert (distinct_streams (sort_by_key sf_index facts)) as Hds.
  { apply (distinct_perm facts); [apply sort_by_key_perm|done]. }
  destruct (ordered_keep_ok _ _ _ sel m Hds Hmade His (or_intror Hone)) as (ord & Hord & _ & Heq).
  exists ord. split; [done|]. rewrite (Heq Hah), (ordinary_refs m _ _ His).
  2: { intros s Hin. rewrite worker_order_perm in Hin by done. by apply kept_sorted_elem in Hin as [? _]. }
  assert (kept_sorted (sort_by_key sf_index facts) keep_ids = sort_by_key sf_index facts) as Hks.
  { unfold kept_sorted. rewrite kept_all by (intros s; rewrite sort_by_key_perm; apply Hk).
    apply sort_perm; [apply Hds|apply sort_by_key_perm]. }
  f_equal. apply track_order_parts in Horder as [(Hn & -> & -> & _)|(Hyes & ts & -> & _ & _ & Hdes & _)].
  - rewrite Hn in Hto. rewrite worker_order_default; [by rewrite Hks|done..].
  - rewrite Hyes in Hto. rewrite (orders_agree facts keep_ids p sel ts head Hd Hmade Hto Hheads).
    symmetry in Hdes. unfold desired_order_changes in Hdes. apply negb_false_iff, bool_decide_eq_true in Hdes.
    rewrite <- Hdes, <- retained_ordinary by done. by rewrite Hks.
Qed.

(** C22: Where the planner finds that a group of track operations changes nothing, carrying
    it out changes nothing: the selection made of its payload exists, keeps every
    stream, sets the default or forced flag only of streams that have it and clears it
    only of streams that lack it; and, unless the group sets the container without
    ordering the tracks, the worker leaves all but the attachments in their order. *)
Theorem remux_noop_preserves `{DurationMillis} snapshot ordinal operations preferred facts res m :
  plannable snapshot operations ->
  stream_facts (planning_input ordinal snapshot) = Ok facts ->
  existsb (fun o => negb (is_set_container o)) operations = true ->
  resolve_remux_operations (planning_input ordinal snapshot) operations preferred = Ok res ->
  rr_changed res = false -> identifies m facts ->
  exists sel,
    selection_from_payload_and_snapshot (into_value (rr_payload res)) snapshot = Ok sel
    /\ keep_streams sel = map stream_ref (sort_by_key sf_index facts)
    /\ (forall s, s ∈ facts ->
          (stream_ref s ∈ default_streams sel -> sf_is_default s = Known true)
          /\ (stream_ref s ∈ clear_default_streams sel -> sf_is_default s = Known false)
          /\ (stream_ref s ∈ forced_streams sel -> sf_is_forced s = Known true)
          /\ (stream_ref s ∈ clear_forced_streams sel -> sf_is_forced s = Known false))
    /\ (existsb is_set_container operations = false \/ existsb is_reorder operations = true ->
        exists ord, ordered_keep_streams sel m = Ok ord
          /\ List.filter (fun r => negb (is_attachment_ref m r)) ord
             = map stream_ref (List.filter ordinary (sort_by_key sf_index facts))).
Proof.
  intros Hpl Hf Ht Hr Hch Hi.
  destruct (dispatch_outcome snapshot ordinal operations preferred facts res Hpl Hf Ht Hr)
    as (keep_ids & flags & order & head & changed & Hkeep & Hflags & Hwf & Horder & Hhead & Hto & Hc & Hv & Hvs & Hout).
  rewrite Hch in Hc. symmetry in Hc. apply orb_false_iff in Hc as [[Hall ->]%orb_false_iff ->].
  assert (forall s, s ∈ facts -> sf_id s ∈ keep_ids) as Hk.
  { intros s Hs. rewrite existsb_none in Hall. specialize (Hall s Hs).
    apply negb_false_iff in Hall. by apply bool_decide_eq_true in Hall. }
  rewrite (all_kept_audio facts keep_ids Hk) in Hout. destruct Hout as (sel & Hsel & Hmade & Hrefs & Hforced & Hah & Hheads).
  pose proof (proj1 (stream_facts_ok _ _ Hf)) as Hd. exists sel. split_and!; [done|..].
  - rewrite (mf_keep _ _ _ _ Hmade). unfold kept_list. rewrite kept_all; [done|].
    intros s. rewrite sort_by_key_perm. apply Hk.
  - intros s Hs. destruct (defaults_unchanged facts keep_ids Hd _ _ Hwf Hflags Hrefs s Hs) as [H1 H2].
    destruct (forced_unchanged (sort_by_key sf_index facts) keep_ids s) as [H3 H4].
    { apply (distinct_perm facts); [apply sort_by_key_perm|done]. }
    { by rewrite sort_by_key_perm. }
    rewrite Hforced in H3, H4. done.
  - intros Hcond. destruct (planned_payload_rest snapshot ordinal operations preferred facts res Hf Ht Hr) as [Hone Hbase].
    apply (unchanged_order facts keep_ids (rr_payload res) sel m order head operations); try done.
    destruct (existsb is_reorder operations); [by apply Hto|]. rewrite Hbase by done.
    by destruct Hcond as [->|].
Qed.
