(* ===== verification/RemuxVerified.v ===== *)
(** * What a remux result says

    The worker reports a remux only after it has compared the input before and
    after, and the output with the selection, track by track. *)

From Stdlib Require Import ZArith Lia Bool String Ascii.
From stdpp Require Import base gmap strings list sorting.
From S2P Require Import Prelude Vocab Json Bytes PolicySyntax TrackFilters PolicyCompiled.
From S2P Require Import PlanModel FilterJson PlanStreams PlanPayload PlanRemux RemuxSelection.
From S2P Require Import RemuxWorker RemuxAccepted.

Open Scope string_scope.
Open Scope list_scope.
Open Scope Z_scope.

(** ** The order is a permutation of the kept streams *)

Lemma duplicate_refs_distinct (refs : list RemuxStreamRef) (ids : gset bytes) (indexes : gset Z) :
  duplicate_refs_from refs ids indexes = false ->
  NoDup (map ref_id refs) /\ NoDup (map ref_index refs)
  /\ forall r, r ∈ refs -> (ref_id r ∉ ids) /\ (ref_index r ∉ indexes).
Proof.
  revert ids indexes. induction refs as [|r refs IH]; intros ids indexes; cbn.
  { intros _. split_and!; [constructor|constructor|by intros ? ?%elem_of_nil]. }
  intros [[H1%bool_decide_eq_false H2%bool_decide_eq_false]%orb_false_iff (Hi & Hx & Hd)%IH]%orb_false_iff.
  split_and!.
  - constructor; [|done]. intros (x & He & Hin)%list_elem_of_fmap. destruct (Hd x Hin). set_solver.
  - constructor; [|done]. intros (x & He & Hin)%list_elem_of_fmap. destruct (Hd x Hin). set_solver.
  - intros x [->|Hin]%elem_of_cons; [done|]. destruct (Hd x Hin). set_solver.
Qed.
Lemma remove_ref_perm head audio rest : remove_ref head audio = Some rest -> audio ≡ₚ head :: rest.
Proof.
  revert rest. induction audio as [|r audio IH]; intros rest; cbn; [done|]. case_bool_decide as Hr.
  - intros [= <-]. by subst.
  - intros (l & Hl & ->)%fmap_Some. rewrite (IH l Hl). constructor.
Qed.
Lemma ordered_keep_perm sel m ord :
  NoDup (map ref_index (keep_streams sel)) -> ordered_keep_streams sel m = Ok ord -> ord ≡ₚ keep_streams sel.
Proof.
  intros Hnd. unfold ordered_keep_streams. destruct (existsb _ _); [done|].
  intros (? & _ & Hm)%result_bind_ok.
  set (ordered := group_ordered _ _ _ _) in Hm. assert (ordered ≡ₚ keep_streams sel) as Hp.
  { subst ordered. rewrite group_ordered_passes by (by rewrite sort_by_key_perm).
    rewrite in_passes_total by (by rewrite sort_by_key_perm). apply sort_by_key_perm. }
  unfold move_audio_head in Hm. destruct (audio_head_stream sel) as [h|]; [|by injection Hm as <-].
  destruct (head_streams sel); [|done]. apply result_bind_ok in Hm as (rest & Hr%ok_or_ok%remove_ref_perm & Hm).
  destruct (replace_audio_ok m ordered (h :: rest)) as (out & Ho & Hperm); [by rewrite Hr|].
  rewrite Ho in Hm. injection Hm as <-. rewrite Hperm, <- Hr, <- Hp. symmetry. apply filter_split_perm.
Qed.

(** ** Flags, track by track *)

(** The ids picked by a list of choices. *)
Fixpoint picked (choices : list bool) (ids : list bytes) : list bytes :=
  match choices, ids with
  | b :: choices', id :: ids' => (if b then [id] else []) ++ picked choices' ids'
  | _, _ => []
  end.
Lemma picked_sub choices ids id : id ∈ picked choices ids -> id ∈ ids.
Proof.
  revert ids. induction choices as [|b choices IH]; intros [|i ids]; cbn; try (by intros ?%elem_of_nil).
  rewrite elem_of_app, elem_of_cons. intros [H|H]; [|by right; apply IH].
  destruct b; [apply list_elem_of_singleton in H; by left|by apply elem_of_nil in H].
Qed.
Lemma picked_inj choices choices' ids :
  NoDup ids -> length choices = length ids -> length choices' = length ids ->
  picked choices ids = picked choices' ids -> choices = choices'.
Proof.
  intros Hnd. revert choices choices'. induction Hnd as [|id ids Hid Hnd IH]; intros [|b cs] [|b' cs'] Hl Hl'; try done.
  cbn. intros Heq. assert (b = b') as <-.
  { assert (forall c : list bool, id ∉ picked c ids) as Hno by (intros c Hin%picked_sub; done).
    destruct b, b'; try done; cbn in Heq; exfalso.
    - apply (Hno cs'). rewrite <- Heq. left.
    - apply (Hno cs). rewrite Heq. left. }
  f_equal. apply IH; [by injection Hl|by injection Hl'|]. by apply app_inv_head in Heq.
Qed.

(** The flag the request wants of a track. *)
Definition wanted_flag (set clear : list RemuxStreamRef) (flag : MkvmergeTrack -> bool) (r : RemuxStreamRef)
    (t : MkvmergeTrack) : bool :=
  if bool_decide (r ∈ set) then true else if bool_decide (r ∈ clear) then false else flag t.

Section flags.
Context (set clear : list RemuxStreamRef) (flag : MkvmergeTrack -> bool) (input output : MkvmergeTrackMapping).

Definition wanted_choice (r : RemuxStreamRef) : bool :=
  if bool_decide (r ∈ set) then true else if bool_decide (r ∈ clear) then false
  else match track_for_provider_index input (ref_index r) with Some t => flag t | None => false end.
Definition output_choice (i : nat) : bool :=
  match output_track_at output i with Some t => flag t | None => false end.
Fixpoint output_choices (n i : nat) : list bool :=
  match n with 0%nat => [] | S n' => output_choice i :: output_choices n' (S i) end.

Lemma expected_flags_picked order :
  expected_flags set clear flag input order = picked (map wanted_choice order) (map ref_id order).
Proof.
  induction order as [|r order IH]; [done|]. cbn. unfold expected_flags in IH. rewrite IH. unfold wanted_choice.
  destruct (bool_decide (r ∈ set)); [done|]. destruct (bool_decide (r ∈ clear)); [done|].
  destruct (track_for_provider_index input (ref_index r)) as [t|]; [|done]. cbn. by destruct (flag t).
Qed.
Lemma actual_flags_picked order i :
  actual_flags flag output order i = picked (output_choices (length order) i) (map ref_id order).
Proof.
  revert i. induction order as [|r order IH]; intros i; [done|]. cbn. rewrite IH. f_equal.
  unfold output_choice. by destruct (output_track_at output i).
Qed.
Lemma output_choices_length n i : length (output_choices n i) = n.
Proof. revert i. induction n as [|n IH]; intros i; [done|]. cbn. by rewrite IH. Qed.
Lemma output_choices_lookup n i k : (k < n)%nat -> output_choices n i !! k = Some (output_choice (i + k)).
Proof.
  revert i k. induction n as [|n IH]; intros i k Hk; [lia|]. destruct k as [|k]; cbn; [by rewrite Nat.add_0_r|].
  rewrite IH by lia. by rewrite Nat.add_succ_r.
Qed.

Lemma flags_checked order i r ti to :
  NoDup (map ref_id order) ->
  validate_output_flags set clear flag input output order = Ok tt ->
  order !! i = Some r -> track_for_provider_index input (ref_index r) = Some ti ->
  output_track_at output i = Some to -> flag to = wanted_flag set clear flag r ti.
Proof.
  intros Hnd Hv Hi Hti Hto. unfold validate_output_flags in Hv. case_bool_decide as Heq; [|done].
  rewrite expected_flags_picked, actual_flags_picked in Heq.
  apply picked_inj in Heq; [|done|by rewrite output_choices_length, length_map|by rewrite !length_map].
  assert (output_choices (length order) 0 !! i = Some (output_choice i)) as Hl.
  { rewrite output_choices_lookup; [done|]. by eapply lookup_lt_Some. }
  rewrite Heq, list_lookup_fmap, Hi in Hl. cbn in Hl. injection Hl as Hl.
  unfold output_choice in Hl. rewrite Hto in Hl. rewrite <- Hl. unfold wanted_choice, wanted_flag. by rewrite Hti.
Qed.
End flags.

(** ** Identities *)

Lemma identity_checked input output selected r i :
  validate_output_track_identity input output selected r i = Ok tt ->
  exists ti to, track_for_provider_index input (ref_index r) = Some ti /\ output_track_at output i = Some to
    /\ tr_kind to = tr_kind ti /\ tr_commentary to = tr_commentary ti
    /\ (tr_kind ti = TkAttachment \/ (1 < length (provider_indexes_for_kind input (tr_kind ti)))%nat ->
        tr_fingerprint to = tr_fingerprint ti).
Proof.
  unfold validate_output_track_identity.
  intros (ti & Hti%ok_or_ok & (to & Hto%ok_or_ok & H)%result_bind_ok)%result_bind_ok. exists ti, to.
  case_bool_decide as Hk; cbn [negb] in H; [|done]. destruct (_ && _) in H; [done|].
  destruct (bool_decide (tr_commentary to = tr_commentary ti)) eqn:Hc; [apply bool_decide_eq_true in Hc|done]. cbn [negb] in H.
  destruct (_ && _) eqn:Hid in H; [done|]. split_and!; [done..|]. intros Hm.
  apply andb_false_iff in Hid as [Hid|Hid].
  - apply orb_false_iff in Hid as [Ha%bool_decide_eq_false Hl%Nat.ltb_ge]. destruct Hm; [done|lia].
  - apply negb_false_iff in Hid. unfold eqb_text in Hid. by apply bool_decide_eq_true in Hid.
Qed.
Lemma identities_checked input output selected rest i k r :
  validate_identities input output selected rest i = Ok tt -> rest !! k = Some r ->
  validate_output_track_identity input output selected r (i + k) = Ok tt.
Proof.
  revert i k. induction rest as [|x rest IH]; intros i k; [done|]. cbn.
  intros ([] & Hx & Hr)%result_bind_ok. destruct k as [|k]; cbn.
  - intros [= ->]. by rewrite Nat.add_0_r.
  - intros Hk. rewrite Nat.add_succ_r. by apply (IH (S i) k).
Qed.

Lemma map_err_ok {E F A} (f : E -> F) (r : result E A) a : map_err f r = Ok a <-> r = Ok a.
Proof. destruct r; cbn; split; congruence. Qed.
Lemma contract_distinct request :
  validate_request_contract request = Ok tt ->
  NoDup (map ref_id (keep_streams (req_selection request)))
  /\ NoDup (map ref_index (keep_streams (req_selection request))).
Proof.
  unfold validate_request_contract. destruct (out_overwrite request); [done|]. destruct (negb _); [done|].
  destruct (match keep_streams _ with [] => true | _ => false end); [done|].
  intros ([] & Hd & _)%result_bind_ok. unfold reject_duplicate_refs in Hd.
  destruct (duplicate_refs_from _ _ _) eqn:H in Hd; [done|].
  apply duplicate_refs_distinct in H as (? & ? & _). done.
Qed.

(** A track of the output as the request wants it. *)
Definition output_as_wanted (sel : RemuxSelection) (input : MkvmergeTrackMapping) (r : RemuxStreamRef)
    (to : MkvmergeTrack) : Prop :=
  exists ti, track_for_provider_index input (ref_index r) = Some ti
    /\ tr_kind to = tr_kind ti /\ tr_commentary to = tr_commentary ti
    /\ (tr_kind ti = TkAttachment \/ (1 < length (provider_indexes_for_kind input (tr_kind ti)))%nat ->
        tr_fingerprint to = tr_fingerprint ti)
    /\ tr_default to = wanted_flag (default_streams sel) (clear_default_streams sel) tr_default r ti
    /\ tr_forced to = wanted_flag (forced_streams sel) (clear_forced_streams sel) tr_forced r ti.

Lemma output_checked sel input output order :
  ordered_keep_streams sel input = Ok order -> NoDup (map ref_id order) ->
  validate_output_selection sel input output = Ok tt ->
  length output = length order
  /\ (forall i r, order !! i = Some r -> exists to, output_track_at output i = Some to /\ output_as_wanted sel input r to)
  /\ exists i to, output_track_at output i = Some to /\ tr_kind to = TkVideo.
Proof.
  intros Ho Hnd. unfold validate_output_selection. rewrite Ho. cbn [map_err mbind result_mbind].
  destruct (track_count output =? length order)%nat eqn:Hc; [|done]. apply Nat.eqb_eq in Hc.
  destruct (saw_video output (length order)) eqn:Hv; [|done]. cbn [negb].
  intros ([] & Hi & ([] & Hd & Hf)%result_bind_ok)%result_bind_ok. split_and!; [done|..].
  - intros i r Hr. pose proof (identities_checked _ _ _ _ _ _ _ Hi Hr) as Hid. cbn in Hid.
    apply identity_checked in Hid as (ti & to & Hti & Hto & ? & ? & ?). exists to. split; [done|]. exists ti.
    split_and!; [done..| |].
    + by apply (flags_checked _ _ _ input output order i).
    + by apply (flags_checked _ _ _ input output order i).
  - apply existsb_elem in Hv as (i & _ & Hi'). destruct (output_track_at output i) as [to|] eqn:Hto; [|done].
    exists i, to. split; [done|]. by destruct (tr_kind to).
Qed.

Lemma expected_facts_ok observed expected :
  verify_expected_facts observed expected = Ok tt ->
  of_size_bytes observed = of_size_bytes expected /\ of_content_hash observed = of_content_hash expected.
Proof.
  unfold verify_expected_facts. destruct (_ && _) eqn:H; [|done]. intros _.
  apply andb_true_iff in H as [H1%Z.eqb_eq H2]. unfold eqb_text in H2. by apply bool_decide_eq_true in H2.
Qed.
Lemma observed_match_ok before after :
  verify_observed_match before after = Ok tt ->
  of_size_bytes before = of_size_bytes after /\ of_content_hash before = of_content_hash after.
Proof.
  unfold verify_observed_match. destruct (_ && _) eqn:H; [|done]. intros _.
  apply andb_true_iff in H as [H1%Z.eqb_eq H2]. unfold eqb_text in H2. by apply bool_decide_eq_true in H2.
Qed.

(** The steps of a run that succeeds. *)
Lemma handle_remux_steps `{FingerprintText} run request r :
  handle_remux run request = Ok r ->
  exists identify input args identify_out output,
    validate_request_contract request = Ok tt
    /\ run_output_absent run = true
    /\ run_input_pre run = Ok (input_pre r) /\ run_input_post run = Ok (input_post r)
    /\ run_output run = Ok (output_facts r)
    /\ verify_expected_facts (input_pre r) (in_expected request) = Ok tt
    /\ verify_observed_match (input_pre r) (input_post r) = Ok tt
    /\ run_identify_input run = Ok identify /\ track_mapping_from_identify identify = Ok input
    /\ validate_all_source_video_streams_kept (req_selection request) input = Ok tt
    /\ validate_source_audio_preserved (req_selection request) input = Ok tt
    /\ build_mkvmerge_args request input = Ok args /\ run_mkvmerge run args = Ok tt
    /\ run_identify_output run = Ok identify_out /\ identify_output identify_out = Ok output
    /\ validate_output_selection (req_selection request) input output = Ok tt.
Proof.
  unfold handle_remux. intros ([] & Hc & Hh)%result_bind_ok. destruct (run_staging_ok run); [|done]. cbn [negb] in Hh.
  destruct (run_output_absent run); [|done]. cbn [negb] in Hh.
  apply result_bind_ok in Hh as (pre & Hpre%map_err_ok & ([] & Hexp & (j & Hj%map_err_ok & (input & Hin%map_err_ok
    & Hh)%result_bind_ok)%result_bind_ok)%result_bind_ok).
  destruct (existsb _ _) in Hh; [|done]. cbn [negb] in Hh.
  apply result_bind_ok in Hh as ([] & Hvid & ([] & Haud & (args & Hargs%map_err_ok & ([] & Hrun%map_err_ok
    & (post & Hpost%map_err_ok & ([] & Hmatch & (out & Hout%map_err_ok & (jo & Hjo%map_err_ok & (output & Hoo%map_err_ok
    & ([] & Hval & [= <-])%result_bind_ok)%result_bind_ok)%result_bind_ok)%result_bind_ok)%result_bind_ok)
    %result_bind_ok)%result_bind_ok)%result_bind_ok)%result_bind_ok).
  by exists j, input, args, jo, output.
Qed.


(** ** Attachments come last

    [mkvmerge] lists attachments apart from the tracks, and the mapping puts them
    after the tracks; an order of the selection that has an attachment before
    another kept stream can therefore not be found in any output. *)

Lemma map_tracks_lookup (read : Json -> MR MkvmergeTrack) values b m i t :
  map_tracks read values b = Ok m -> track_for_provider_index m i = Some t ->
  b <= i < b + Z.of_nat (length values) /\ exists v, read v = Ok t.
Proof.
  revert b m. induction values as [|v values IH]; intros b m; cbn -[Z.of_nat]; [by intros [= <-]|].
  intros (track & Hr & (j & Hj%ok_or_ok & (rest & Hrest & [= <-])%result_bind_ok)%result_bind_ok)%result_bind_ok.
  unfold u32_try_from in Hj. destruct (is_u32 b); [|done]. injection Hj as <-. cbn.
  destruct (i =? b) eqn:Hi.
  - apply Z.eqb_eq in Hi as ->. intros [= <-]. split; [lia|by exists v].
  - intros Ht. destruct (IH _ _ Hrest Ht) as [? ?]. split; [lia|done].
Qed.
Lemma track_lookup_app m m' i :
  track_for_provider_index (m ++ m') i =
  match track_for_provider_index m i with Some t => Some t | None => track_for_provider_index m' i end.
Proof. induction m as [|[j t] m IH]; [done|]. cbn. by destruct (i =? j). Qed.

Lemma identify_attachments_last `{FingerprintText} identify m i k ti tk :
  track_mapping_from_identify identify = Ok m ->
  track_for_provider_index m i = Some ti -> track_for_provider_index m k = Some tk ->
  i < k -> tr_kind ti = TkAttachment -> tr_kind tk = TkAttachment.
Proof.
  unfold track_mapping_from_identify.
  intros (tracks & _ & (mapped & Hm & (atts & _ & (attached & Ha & [= <-])%result_bind_ok)%result_bind_ok)
    %result_bind_ok)%result_bind_ok.
  assert (forall i t, track_for_provider_index mapped i = Some t -> tr_kind t <> TkAttachment) as Hmk.
  { intros i' t Ht. destruct (map_tracks_lookup _ _ _ _ _ _ Hm Ht) as (_ & v & Hv). unfold track_of_identify in Hv.
    apply result_bind_ok in Hv as (id & _ & Hv). destruct (match text_at v "type" with Some _ => _ | None => _ end); [done|].
    injection Hv as <-. cbn. destruct (text_at v "type"); [|done]. unfold kind_from_identify.
    repeat case_match; done. }
  rewrite !track_lookup_app. intros Hi Hk Hlt Hatt.
  destruct (track_for_provider_index mapped i) as [t|] eqn:Hmi.
  { injection Hi as ->. by destruct (Hmk _ _ Hmi). }
  destruct (map_tracks_lookup _ _ _ _ _ _ Ha Hi) as ([? _] & _).
  destruct (track_for_provider_index mapped k) as [t|] eqn:Hmk'.
  { destruct (map_tracks_lookup _ _ _ _ _ _ Hm Hmk') as ([_ ?] & _). lia. }
  destruct (map_tracks_lookup _ _ _ _ _ _ Ha Hk) as (_ & v & Hv). unfold track_of_attachment in Hv.
  apply result_bind_ok in Hv as (id & _ & (fp & _ & [= <-])%result_bind_ok). done.
Qed.

Lemma output_track_lookup output i t :
  output_track_at output i = Some t -> track_for_provider_index output (Z.of_nat i) = Some t.
Proof.
  unfold output_track_at, output_index, u32_try_from. destruct (is_u32 (Z.of_nat i)); [|done]. done.
Qed.

(** An order with an attachment before another kind of track is always refused once
    the file has been written. *)
Lemma attachment_before_track_refused `{FingerprintText} sel input identify output order i k a b ta tb :
  ordered_keep_streams sel input = Ok order -> NoDup (map ref_id order) ->
  identify_output identify = Ok output ->
  order !! i = Some a -> order !! k = Some b -> (i < k)%nat ->
  track_for_provider_index input (ref_index a) = Some ta -> tr_kind ta = TkAttachment ->
  track_for_provider_index input (ref_index b) = Some tb -> tr_kind tb <> TkAttachment ->
  validate_output_selection sel input output <> Ok tt.
Proof.
  intros Ho Hnd Hid Ha Hb Hlt Hta Hka Htb Hkb Hval.
  destruct (output_checked _ _ _ _ Ho Hnd Hval) as (_ & Hall & _).
  destruct (Hall i a Ha) as (oa & Hoa%output_track_lookup & ta' & Hta' & Hka' & _).
  destruct (Hall k b Hb) as (ob & Hob%output_track_lookup & tb' & Htb' & Hkb' & _).
  rewrite Hta in Hta'. injection Hta' as <-. rewrite Htb in Htb'. injection Htb' as <-.
  unfold identify_output in Hid. destruct (_ && _) in Hid; [done|].
  apply Hkb. rewrite <- Hkb'. apply (identify_attachments_last identify output (Z.of_nat i) (Z.of_nat k) oa ob);
    [done|done|done|lia|]. by rewrite Hka'.
Qed.
