(* ===== verification/PlanConditions.v ===== *)
(** * Conditions at planning time

    [voom-plan/src/planner.rs] (the evaluation of a compiled condition on a
    snapshot) and [eligibility.rs] (which compiled conditions a planner
    takes). The evaluation has three answers: a fact the snapshot lacks makes a
    condition unknown, not false. Message texts, with the paths they quote, are
    left out. *)

From Stdlib Require Import ZArith Lia Bool String Ascii.
From stdpp Require Import base gmap strings list.
From S2P Require Import Prelude Json Bytes PolicySyntax Encoders TrackFilters PolicyCompiled.
From S2P Require Import PlanModel PlanStreams.

Open Scope Z_scope.

Inductive ConditionEval := Matched | NotMatched | Unknown.
#[global] Instance ConditionEval_eq_dec : EqDecision ConditionEval.
Proof. solve_decision. Defined.

Definition from_bool (v : bool) : ConditionEval := if v then Matched else NotMatched.
Definition negate (e : ConditionEval) : ConditionEval :=
  match e with Matched => NotMatched | NotMatched => Matched | Unknown => Unknown end.

(** ** Fields of a snapshot *)

Inductive SnapshotFieldValue :=
  | FieldString (v : bytes) | FieldNumber (v : Z) | FieldBoolean (v : bool).

Definition canonical_field_path (path : list bytes) : option string :=
  match path with
  | [field] =>
      if eqb_text field (lit "container") then Some "container"
      else if eqb_text field (lit "video_codec") then Some "video_codec"
      else if eqb_text field (lit "width") then Some "width"
      else if eqb_text field (lit "height") then Some "height"
      else if eqb_text field (lit "hdr") then Some "hdr"
      else if eqb_text field (lit "bitrate") then Some "bitrate"
      else if eqb_text field (lit "duration_millis") then Some "duration_millis"
      else None
  | [scope; field] =>
      if eqb_text scope (lit "video") then
        if eqb_text field (lit "codec") then Some "video_codec"
        else if eqb_text field (lit "width") then Some "width"
        else if eqb_text field (lit "height") then Some "height"
        else if eqb_text field (lit "hdr") then Some "hdr"
        else if eqb_text field (lit "bitrate") then Some "bitrate"
        else if eqb_text field (lit "duration_millis") then Some "duration_millis"
        else None
      else if eqb_text scope (lit "media") then
        if eqb_text field (lit "container") then Some "container"
        else if eqb_text field (lit "duration_millis") then Some "duration_millis"
        else None
      else if eqb_text scope (lit "container") then
        if one_of ["name"; "value"]%string field then Some "container" else None
      else None
  | _ => None
  end%string.

Definition canonical_field (name : string) (s : MediaSnapshotInput) : option SnapshotFieldValue :=
  if String.eqb name "container" then option_map FieldString (si_container s)
  else if String.eqb name "video_codec" then option_map FieldString (si_video_codec s)
  else if String.eqb name "width" then option_map FieldNumber (si_width s)
  else if String.eqb name "height" then option_map FieldNumber (si_height s)
  else if String.eqb name "hdr" then option_map FieldString (si_hdr s)
  else if String.eqb name "bitrate" then option_map FieldNumber (si_bitrate s)
  else if String.eqb name "duration_millis" then option_map FieldNumber (si_duration_millis s)
  else None.
Definition snapshot_field (path : list bytes) (s : MediaSnapshotInput) : option SnapshotFieldValue :=
  canonical ← canonical_field_path path; canonical_field canonical s.

Definition condition_value (v : CompiledValue) (s : MediaSnapshotInput) : option SnapshotFieldValue :=
  match v with
  | VString v => Some (FieldString v)
  | VNumber v => option_map FieldNumber (parse_u64 v)
  | VBoolean v => Some (FieldBoolean v)
  | VFieldPath path => snapshot_field path s
  | VList _ => None
  end.

(** ** Comparisons *)

Definition compare_strings (left : bytes) (op : ComparisonOp) (right : bytes) : ConditionEval :=
  match op with
  | OpEq => from_bool (eqb_text left right)
  | OpNe => from_bool (negb (eqb_text left right))
  | OpContains => from_bool (contains right left)
  | OpLt | OpLte | OpGt | OpGte | OpMatches => Unknown
  end.
Definition compare_numbers (left : Z) (op : ComparisonOp) (right : Z) : ConditionEval :=
  match op with
  | OpEq => from_bool (left =? right)
  | OpNe => from_bool (negb (left =? right))
  | OpLt => from_bool (left <? right)
  | OpLte => from_bool (left <=? right)
  | OpGt => from_bool (right <? left)
  | OpGte => from_bool (right <=? left)
  | OpContains | OpMatches => Unknown
  end.
Definition compare_booleans (left : bool) (op : ComparisonOp) (right : bool) : ConditionEval :=
  match op with
  | OpEq => from_bool (Bool.eqb left right)
  | OpNe => from_bool (negb (Bool.eqb left right))
  | OpLt | OpLte | OpGt | OpGte | OpContains | OpMatches => Unknown
  end.
Definition compare_snapshot_values (left : SnapshotFieldValue) (op : ComparisonOp)
    (right : SnapshotFieldValue) : ConditionEval :=
  match left, right with
  | FieldString l, FieldString r => compare_strings l op r
  | FieldNumber l, FieldNumber r => compare_numbers l op r
  | FieldBoolean l, FieldBoolean r => compare_booleans l op r
  | _, _ => match op with OpEq => NotMatched | OpNe => Matched | _ => Unknown end
  end.
Definition evaluate_field_comparison (path : list bytes) (op : ComparisonOp) (v : CompiledValue)
    (s : MediaSnapshotInput) : ConditionEval :=
  match snapshot_field path s with
  | None => Unknown
  | Some l =>
      match condition_value v s with
      | None => Unknown
      | Some r => compare_snapshot_values l op r
      end
  end.

(** The counts of streams are taken from the facts a remux would use. *)
Definition stream_target_count (target : TrackTarget) (s : MediaSnapshotInput) : option Z :=
  match target with
  | Video | Attachment => None
  | Audio | Subtitle =>
      match stream_facts s with
      | Err _ => None
      | Ok facts =>
          Some (Z.of_nat (length (List.filter (fun f => bool_decide (sf_kind f = target)) facts)))
      end
  end.

(** ** Conditions *)

Fixpoint evaluate_condition (c : CompiledCondition) (s : MediaSnapshotInput) : ConditionEval :=
  match c with
  | CFieldComparison path op v => evaluate_field_comparison path op v s
  | CFieldExists path =>
      from_bool (match snapshot_field path s with Some _ => true | None => false end)
  | CNot inner => negate (evaluate_condition inner s)
  | CAnd conditions =>
      (fix all (cs : list CompiledCondition) (saw_unknown : bool) : ConditionEval :=
         match cs with
         | [] => if saw_unknown then Unknown else Matched
         | c :: cs' =>
             match evaluate_condition c s with
             | NotMatched => NotMatched
             | Matched => all cs' saw_unknown
             | Unknown => all cs' true
             end
         end) conditions false
  | COr conditions =>
      (fix any (cs : list CompiledCondition) (saw_unknown : bool) : ConditionEval :=
         match cs with
         | [] => if saw_unknown then Unknown else NotMatched
         | c :: cs' =>
             match evaluate_condition c s with
             | Matched => Matched
             | NotMatched => any cs' saw_unknown
             | Unknown => any cs' true
             end
         end) conditions false
  | CExists target None =>
      match stream_target_count target s with
      | None => Unknown
      | Some count => from_bool (0 <? count)
      end
  | CCount target op v =>
      match stream_target_count target s with
      | None => Unknown
      | Some count => compare_numbers count op v
      end
  | CExists _ (Some _) | CPredicate _ => Unknown
  end.

Definition rule_condition_matches (condition : option CompiledCondition) (s : MediaSnapshotInput) :
    ConditionEval :=
  match condition with None => Matched | Some c => evaluate_condition c s end.

(** ** Eligibility *)

Definition is_published_target (t : TrackTarget) : bool :=
  match t with Audio | Subtitle => true | Video | Attachment => false end.
Definition is_numeric_comparison (op : ComparisonOp) : bool :=
  match op with
  | OpEq | OpNe | OpLt | OpLte | OpGt | OpGte => true
  | OpContains | OpMatches => false
  end.
Definition unpublished_diagnostic (c : CompiledCondition) (phase_name : bytes) :
    option PlanningDiagnostic :=
  let found := Some (with_phase phase_name (diagnostic_error InvalidPlanningRequest)) in
  match c with
  | CExists target filter =>
      if is_published_target target && match filter with None => true | Some _ => false end then None
      else found
  | CCount target op _ =>
      if is_published_target target && is_numeric_comparison op then None else found
  | _ => None
  end.
Fixpoint visit_condition (c : CompiledCondition) (phase_name : bytes) : list PlanningDiagnostic :=
  match c with
  | CExists _ _ | CCount _ _ _ =>
      match unpublished_diagnostic c phase_name with Some d => [d] | None => [] end
  | CNot inner => visit_condition inner phase_name
  | CAnd conditions | COr conditions => flat_map (fun c => visit_condition c phase_name) conditions
  | CFieldComparison _ _ _ | CFieldExists _ | CPredicate _ => []
  end.
Definition visit_optional (c : option CompiledCondition) (phase_name : bytes) : list PlanningDiagnostic :=
  match c with Some c => visit_condition c phase_name | None => [] end.
Fixpoint visit_operation (o : CompiledOperation) (phase_name : bytes) : list PlanningDiagnostic :=
  match o with
  | Conditional condition operations =>
      visit_condition condition phase_name ++ flat_map (fun o => visit_operation o phase_name) operations
  | Rules _ rules =>
      flat_map (fun '(_, condition, operations) =>
        visit_optional condition phase_name
        ++ flat_map (fun o => visit_operation o phase_name) operations) rules
  | _ => []
  end.
Definition visit_operations (operations : list CompiledOperation) (phase_name : bytes) :
    list PlanningDiagnostic :=
  flat_map (fun o => visit_operation o phase_name) operations.
Definition stream_condition_eligibility_diagnostics (p : CompiledPolicy) : list PlanningDiagnostic :=
  flat_map (fun ph => visit_optional (skip_if ph) (cp_name ph)
                      ++ visit_operations (cp_operations ph) (cp_name ph)) (cp_phases p).

(** Whether a policy has an [exists] or a [count] at all. *)
Fixpoint condition_uses_stream_facts (c : CompiledCondition) : bool :=
  match c with
  | CExists _ _ | CCount _ _ _ => true
  | CNot inner => condition_uses_stream_facts inner
  | CAnd conditions | COr conditions => existsb condition_uses_stream_facts conditions
  | CFieldComparison _ _ _ | CFieldExists _ | CPredicate _ => false
  end.
Definition optional_uses_stream_facts (c : option CompiledCondition) : bool :=
  match c with Some c => condition_uses_stream_facts c | None => false end.
Fixpoint operation_uses_stream_facts (o : CompiledOperation) : bool :=
  match o with
  | Conditional condition operations =>
      condition_uses_stream_facts condition || existsb operation_uses_stream_facts operations
  | Rules _ rules =>
      existsb (fun '(_, condition, operations) =>
        optional_uses_stream_facts condition || existsb operation_uses_stream_facts operations) rules
  | _ => false
  end.
Definition operations_use_stream_facts (operations : list CompiledOperation) : bool :=
  existsb operation_uses_stream_facts operations.
Definition policy_uses_stream_conditions (p : CompiledPolicy) : bool :=
  existsb (fun ph => optional_uses_stream_facts (skip_if ph)
                     || operations_use_stream_facts (cp_operations ph)) (cp_phases p).

(** ** Three-valued logic *)

(** Induction over nested conditions. *)
Section induction.
Context (Q : CompiledCondition -> Prop).
Hypothesis exists_case : forall t f, Q (CExists t f).
Hypothesis count_case : forall t op v, Q (CCount t op v).
Hypothesis comparison_case : forall path op v, Q (CFieldComparison path op v).
Hypothesis field_case : forall path, Q (CFieldExists path).
Hypothesis predicate_case : forall name, Q (CPredicate name).
Hypothesis not_case : forall c, Q c -> Q (CNot c).
Hypothesis and_case : forall cs, Forall Q cs -> Q (CAnd cs).
Hypothesis or_case : forall cs, Forall Q cs -> Q (COr cs).

Fixpoint condition_induction (c : CompiledCondition) : Q c :=
  let all := fix all (cs : list CompiledCondition) : Forall Q cs :=
    match cs with
    | [] => List.Forall_nil Q
    | c :: cs' => proj2 (Forall_cons Q c cs') (conj (condition_induction c) (all cs'))
    end in
  match c with
  | CExists t f => exists_case t f
  | CCount t op v => count_case t op v
  | CFieldComparison path op v => comparison_case path op v
  | CFieldExists path => field_case path
  | CPredicate name => predicate_case name
  | CNot c => not_case c (condition_induction c)
  | CAnd cs => and_case cs (all cs)
  | COr cs => or_case cs (all cs)
  end.
End induction.

(** A conjunction of answers: a false one decides, then an unknown one. *)
Definition kleene_and (es : list ConditionEval) : ConditionEval :=
  if bool_decide (NotMatched ∈ es) then NotMatched
  else if bool_decide (Unknown ∈ es) then Unknown else Matched.

Lemma kleene_and_ext es es' :
  (forall e, e <> Matched -> (e ∈ es <-> e ∈ es')) -> kleene_and es = kleene_and es'.
Proof.
  intros He. unfold kleene_and. assert (forall e, e <> Matched -> bool_decide (e ∈ es) = bool_decide (e ∈ es')) as Hb.
  { intros e Hne. by apply bool_decide_ext, He. }
  by rewrite !Hb.
Qed.

Lemma evaluate_and cs s :
  evaluate_condition (CAnd cs) s = kleene_and (map (fun c => evaluate_condition c s) cs).
Proof.
  cbn [evaluate_condition]. match goal with |- ?go cs false = _ => set (all := go) end.
  assert (forall saw, all cs saw = kleene_and ((if saw then [Unknown] else [])
                        ++ map (fun c => evaluate_condition c s) cs)) as H; [|by rewrite H].
  induction cs as [|c cs IH]; intros saw; [by destruct saw|]. cbn [all map]. fold all.
  destruct (evaluate_condition c s); rewrite ?IH.
  - apply kleene_and_ext. intros e He. rewrite !elem_of_app, elem_of_cons. naive_solver.
  - unfold kleene_and. rewrite bool_decide_eq_true_2; [done|]. apply elem_of_app. right. left.
  - apply kleene_and_ext. intros e _. destruct saw; cbn; rewrite ?elem_of_cons; naive_solver.
Qed.

(** A disjunction is the dual. *)
Lemma evaluate_or cs s :
  evaluate_condition (COr cs) s = negate (evaluate_condition (CAnd (map CNot cs)) s).
Proof.
  cbn [evaluate_condition].
  match goal with |- ?go cs false = negate (?go' _ false) => set (any := go); set (all := go') end.
  generalize false. induction cs as [|c cs IH]; intros saw; [by destruct saw|].
  cbn [any all map evaluate_condition]. fold any all.
  destruct (evaluate_condition c s); cbn [negate]; rewrite ?IH; done.
Qed.

(** ** More facts, same answers *)

(** What the second snapshot knows beyond the first. *)
Definition preserves {A} (o o' : option A) : Prop := forall v, o = Some v -> o' = Some v.
Record extends (s s' : MediaSnapshotInput) : Prop := {
  ext_container : preserves (si_container s) (si_container s');
  ext_video_codec : preserves (si_video_codec s) (si_video_codec s');
  ext_width : preserves (si_width s) (si_width s');
  ext_height : preserves (si_height s) (si_height s');
  ext_hdr : preserves (si_hdr s) (si_hdr s');
  ext_bitrate : preserves (si_bitrate s) (si_bitrate s');
  ext_duration : preserves (si_duration_millis s) (si_duration_millis s');
  ext_streams : forall facts, stream_facts s = Ok facts -> stream_facts s' = Ok facts;
}.

(** A test for the presence of a fact: the one condition that is never unknown. *)
Fixpoint tests_presence (c : CompiledCondition) : bool :=
  match c with
  | CFieldExists _ => true
  | CNot inner => tests_presence inner
  | CAnd conditions | COr conditions => existsb tests_presence conditions
  | _ => false
  end.

Definition settled_as (e e' : ConditionEval) : Prop := e <> Unknown -> e' = e.

Lemma preserves_map {A B} (f : A -> B) o o' : preserves o o' -> preserves (option_map f o) (option_map f o').
Proof. intros H v. destruct o as [a|]; [|done]. by rewrite (H a eq_refl). Qed.

Lemma snapshot_field_extends path s s' : extends s s' -> preserves (snapshot_field path s) (snapshot_field path s').
Proof.
  intros [? ? ? ? ? ? ? _]. unfold snapshot_field. destruct (canonical_field_path path) as [name|]; [|done].
  cbn. unfold canonical_field. repeat (case_match; [by apply preserves_map|]). done.
Qed.
Lemma condition_value_extends v s s' : extends s s' -> preserves (condition_value v s) (condition_value v s').
Proof. intros He. destruct v; [by intros ?..| |by intros ?]. by apply snapshot_field_extends. Qed.
Lemma stream_count_extends t s s' : extends s s' -> preserves (stream_target_count t s) (stream_target_count t s').
Proof.
  intros He n. unfold stream_target_count. destruct (stream_facts s) as [facts|] eqn:Hf.
  - by rewrite (ext_streams _ _ He _ Hf).
  - by destruct t.
Qed.

Lemma negate_settled e e' : settled_as e e' -> settled_as (negate e) (negate e').
Proof. destruct e; intros H ?; rewrite ?H; done. Qed.
Lemma kleene_settled es es' : Forall2 settled_as es es' -> settled_as (kleene_and es) (kleene_and es').
Proof.
  intros H Hu. unfold kleene_and in Hu |- *. destruct (decide (NotMatched ∈ es)) as [Hd|Hn].
  - rewrite !bool_decide_eq_true_2; [done|done|].
    apply list_elem_of_lookup in Hd as [i Hi]. destruct (Forall2_lookup_l _ _ _ _ _ H Hi) as (e' & Hi' & He).
    rewrite He in Hi' by done. by eapply list_elem_of_lookup_2.
  - rewrite (bool_decide_eq_false_2 (NotMatched ∈ es)) in Hu |- * by done. case_bool_decide as Hk; [done|].
    assert (forall e, e ∈ es' -> e = Matched) as Hm.
    { intros e [i Hi]%list_elem_of_lookup. destruct (Forall2_lookup_r _ _ _ _ _ H Hi) as (e0 & Hi0 & He).
      apply list_elem_of_lookup_2 in Hi0. destruct e0; [by apply He|done|done]. }
    rewrite !bool_decide_eq_false_2; [done|..]; intros Hin%Hm; done.
Qed.

Lemma evaluation_settles c s s' :
  tests_presence c = false -> extends s s' ->
  settled_as (evaluate_condition c s) (evaluate_condition c s').
Proof.
  intros Hp He. revert Hp. induction c as [t f|t op v|path op v|path|name|c IH|cs IH|cs IH]
    using condition_induction; intros Hp; try done.
  - destruct f; [done|]. cbn. intros Hu. destruct (stream_target_count t s) as [n|] eqn:Hn; [|done].
    by rewrite (stream_count_extends _ _ _ He _ Hn).
  - cbn. intros Hu. destruct (stream_target_count t s) as [n|] eqn:Hn; [|done].
    by rewrite (stream_count_extends _ _ _ He _ Hn).
  - cbn. unfold evaluate_field_comparison. intros Hu. destruct (snapshot_field path s) as [l|] eqn:Hl; [|done].
    rewrite (snapshot_field_extends _ _ _ He _ Hl). destruct (condition_value v s) as [r|] eqn:Hr; [|done].
    by rewrite (condition_value_extends _ _ _ He _ Hr).
  - cbn. by apply negate_settled, IH.
  - rewrite !evaluate_and. apply kleene_settled. cbn in Hp. clear -Hp IH.
    induction IH as [|c cs Hc _ IHcs]; [constructor|]. cbn in Hp |- *.
    apply orb_false_iff in Hp as [? ?]. constructor; auto.
  - rewrite !evaluate_or. apply negate_settled. rewrite !evaluate_and. apply kleene_settled. cbn in Hp. clear -Hp IH.
    induction IH as [|c cs Hc _ IHcs]; [constructor|]. cbn in Hp |- *.
    apply orb_false_iff in Hp as [? ?]. constructor; [|auto]. cbn. apply negate_settled. auto.
Qed.
