(* ===== verification/PolicyEligible.v ===== *)
(** * Compiled policies are eligible for planning

    The validator and the planner each say which [exists] and [count]
    conditions are published ([validate_ast] through [PolicyConditions], and
    [eligibility.rs]). What the compiler makes of a validated policy passes the
    planner's check. *)

From Stdlib Require Import ZArith Lia Bool String Ascii.
From stdpp Require Import base gmap strings list.
From S2P Require Import Prelude Vocab Json Bytes PolicySyntax PolicyParser TrackFilters.
From S2P Require Import PolicyCompiled.
From S2P Require Import PolicyConditions PolicyProfiles PolicyGraph PolicyValidate PolicyLower.
From S2P Require Import PolicyCompile PolicyComplete PlanModel PlanConditions.

Open Scope nat_scope.

Definition published (c : CompiledCondition) : Prop := forall phase, visit_condition c phase = [].
Definition published_operation (o : CompiledOperation) : Prop := forall phase, visit_operation o phase = [].

Lemma flat_map_nil {A B} (f : A -> list B) l : Forall (fun x => f x = []) l -> flat_map f l = [].
Proof. induction 1 as [|x l Hx _ IH]; [done|]. cbn. by rewrite Hx. Qed.

(** A condition as the validator accepts it is published. *)
Lemma reads_published text c : reads text c -> published c.
Proof.
  assert (forall cs, Forall (fun c => forall text, reads text c -> published c) cs ->
          forall parts, Forall2 reads parts cs -> forall phase, flat_map (fun c => visit_condition c phase) cs = [])
    as Hlist.
  { intros cs IH parts H phase. apply flat_map_nil. revert IH. induction H; intros IH; [constructor|].
    inversion_clear IH as [|? ? Hc Hcs]. constructor; [by eapply Hc|by apply IHForall2]. }
  revert text. induction c as [t f|t op v|path op v|path|name|c IH|cs IH|cs IH] using condition_induction;
    intros text Hr phase; inversion Hr; subst; try done; cbn.
  - match goal with H : is_published_stream_target _ = true |- _ =>
      apply one_of_spec in H as (w & [<-|[<-|[]]] & ->) end; by simplify_eq/=.
  - match goal with H : is_published_stream_target _ = true |- _ =>
      apply one_of_spec in H as (w & [<-|[<-|[]]] & ->) end;
    match goal with H : is_numeric_comparison_op _ = true |- _ =>
      apply one_of_spec in H as (w & Hw & ->) end; cbn in Hw; intuition subst; by simplify_eq/=.
  - by eapply IH.
  - by eapply Hlist.
  - by eapply Hlist.
Qed.

Section lowering.
Context (source : bytes).

Lemma condition_published sp text c :
  clean (validate_condition_expression source sp text) -> ~ has_bare text ->
  lower_condition text = Ok c -> published c.
Proof.
  unfold validate_condition_expression.
  destruct (is_valid_condition_expression source sp text) as [ok ds] eqn:E.
  rewrite !clean_app, clean_if, negb_false_iff. intros (_ & _ & ->) Hb.
  assert (Hv : fst (is_valid_condition_expression source sp text) = true) by (by rewrite E).
  apply condition_agree in Hv as [(c' & Hc & Hr)|?]; [|done]. unfold lower_condition, condition_from_text.
  rewrite Hc. intros [= <-]. by eapply reads_published.
Qed.

(** Operations that hold no condition. *)
Definition plain_operation (o : CompiledOperation) : Prop :=
  match o with Conditional _ _ | Rules _ _ => False | _ => True end.
Lemma plain_published o : plain_operation o -> published_operation o.
Proof. by destruct o. Qed.

Lemma bound_plain {A} (m : LR A) (f : A -> CompiledOperation) o :
  (forall a, plain_operation (f a)) -> (a ← m; Ok (f a)) = Ok o -> plain_operation o.
Proof. intros Hf. destruct m as [a|]; [|done]. intros [= <-]. apply Hf. Qed.

Ltac plain_cases := repeat case_match; try done;
  first [intros [= <-]; done | by apply bound_plain].
Lemma text_operation_plain lower s text keyword rest o :
  keyword <> lit "when" -> keyword <> lit "rules" ->
  lower_text_operation source lower s text (keyword :: rest) = Ok o -> plain_operation o.
Proof.
  intros Hw Hr. unfold lower_text_operation.
  destruct (one_of ["container"]%string keyword); [by intros [= <-]|].
  destruct (one_of _ keyword); [unfold lower_track_operation; plain_cases|].
  destruct (one_of _ keyword); [unfold lower_tag_operation; plain_cases|].
  destruct (one_of _ keyword); [unfold lower_media_operation, lower_transcode_raw; plain_cases|].
  do 2 (case_bool_decide; [by intros [= <-]|]).
  destruct (one_of ["when"; "rules"]%string keyword) eqn:E; [|done].
  apply one_of_spec in E as (w & [<-|[<-|[]]] & ->); done.
Qed.

(** Statements whose operations are published. *)
Definition no_bare (texts : list bytes) : Prop := Forall (fun t => ~ has_bare t) texts.
Definition publishes (s : StatementAst) : Prop :=
  regular s = true -> checked source s -> no_bare (conditions s) ->
  forall o, lower_operation source s = Ok o -> published_operation o.

Lemma no_bare_child s x : x ∈ children s -> no_bare (conditions s) -> no_bare (conditions x).
Proof.
  intros Hx Hs. apply Forall_forall. intros t Ht. unfold no_bare in Hs. rewrite Forall_forall in Hs.
  apply Hs. by eapply conditions_children.
Qed.

Lemma statements_published statements te ops :
  Forall publishes statements -> Forall (fun x => regular x = true) statements ->
  clean (snd (check_each (validate_nested_operation source) statements te)) ->
  Forall (fun x => no_bare (conditions x)) statements ->
  collect (lower_operation source) statements = Ok ops -> Forall published_operation ops.
Proof.
  intros Hp Hr Hc%check_each_clean Hb Hl%collect_ok. induction Hl as [|x o l ops Hx _ IH]; [constructor|].
  inversion_clear Hp. inversion_clear Hr. inversion_clear Hc as [|? ? [te' Hx'] ?]. inversion_clear Hb.
  constructor; [|by apply IH]. eapply H; [done| |done|done]. by eapply nested_checked.
Qed.

Lemma operations_published ops phase :
  Forall published_operation ops -> flat_map (fun o => visit_operation o phase) ops = [].
Proof. intros H. apply flat_map_nil. eapply Forall_impl; [exact H|]. intros o Ho. apply Ho. Qed.

Lemma children_no_bare s : no_bare (conditions s) -> Forall (fun x => no_bare (conditions x)) (children s).
Proof. intros Hb. apply Forall_forall. intros x Hx. by eapply no_bare_child. Qed.

Lemma own_no_bare s t : no_bare (conditions s) -> t ∈ own_condition s -> ~ has_bare t.
Proof.
  unfold no_bare. rewrite Forall_forall. intros Hs Ht. apply Hs.
  destruct s; cbn [conditions]; apply elem_of_app; by left.
Qed.

Lemma when_published s te tokens o :
  tokens !! 0 = Some (lit "when") -> keyword_is "when" s = true -> regular s = true ->
  Forall publishes (children s) -> no_bare (conditions s) ->
  clean (snd (validate_condition source (validate_nested_operation source) s (statement_text s) te)) ->
  lower_control_operation source (lower_operation source) s (statement_text s) tokens = Ok o ->
  published_operation o.
Proof.
  intros Hw Hk Hr%regular_children Hp Hb Hc. unfold lower_control_operation. rewrite Hw.
  cbn [default]. change (eqb_text (lit "when") (lit "when")) with true. cbn match.
  intros (c & Hcond & (ops & Hops & [= <-])%result_bind_ok)%result_bind_ok phase. cbn [visit_operation].
  set (text := trim (trim_start_matches (lit "when") (statement_text s))) in *.
  assert (~ has_bare text) as Hno.
  { eapply own_no_bare; [exact Hb|]. unfold own_condition. rewrite Hk. left. }
  unfold validate_condition in Hc. fold text in Hc. destruct s as [|k name statements sp| |];
    cbn [snd] in Hc; try (injection Hops as <-; rewrite app_nil_r; by eapply condition_published).
  destruct (check_each _ _ _) as [te' ds] eqn:E. cbn [snd] in Hc. apply clean_app in Hc as [Hc Hds].
  rewrite (condition_published _ _ _ Hc Hno Hcond). cbn [app]. apply operations_published.
  eapply (statements_published statements te); [done|done|by rewrite E|by apply children_no_bare in Hb|done].
Qed.

Lemma rule_published rule te name c ops :
  Forall publishes (children rule) -> regular rule = true -> no_bare (conditions rule) ->
  keyword_is "when" rule = false -> clean (snd (validate_rule source rule te)) ->
  lower_rule source (lower_operation source) rule = Ok (name, c, ops) ->
  (forall phase, visit_optional c phase = []) /\ Forall published_operation ops.
Proof.
  intros Hp Hr%regular_children Hb Hnot Hc. unfold validate_rule in Hc.
  destruct (keyword_is "rule" rule); [|done]. cbn [negb] in Hc.
  destruct rule as [|k [header|] statements sp| |]; try done. unfold lower_rule.
  destruct (rule_header (value header)) as [[name' condition]|] eqn:Hh; [|done].
  destruct (check_each _ _ _) as [te' ds] eqn:E. cbn [snd] in Hc. rewrite clean_app in Hc.
  destruct Hc as [Hcond Hds].
  intros (c' & Hc & (ops' & Hops & [= -> <- <-])%result_bind_ok)%result_bind_ok. split.
  - eapply condition_published; [exact Hcond| |done]. eapply own_no_bare; [exact Hb|].
    unfold own_condition. rewrite Hnot, Hh. left.
  - eapply (statements_published statements te); [done|done|by rewrite E|by apply children_no_bare in Hb|done].
Qed.

Lemma rules_published s te tokens o :
  tokens !! 0 = Some (lit "rules") -> regular s = true ->
  Forall (fun x => Forall publishes (children x)) (children s) -> no_bare (conditions s) ->
  clean (snd (validate_rules source s (statement_text s) te)) ->
  lower_control_operation source (lower_operation source) s (statement_text s) tokens = Ok o ->
  published_operation o.
Proof.
  intros Hw Hr%regular_children Hp Hb%children_no_bare Hc. unfold lower_control_operation. rewrite Hw.
  cbn [default]. change (eqb_text (lit "rules") (lit "when")) with false.
  change (eqb_text (lit "rules") (lit "rules")) with true. cbn match.
  intros (rules & Hl & [= <-])%result_bind_ok phase. cbn [visit_operation]. apply flat_map_nil.
  destruct s as [|k name statements sp| |]; try by injection Hl as <-; constructor.
  cbn [lower_rules children] in *. unfold validate_rules in Hc.
  destruct (check_each _ _ _) as [te' ds] eqn:E. cbn [snd] in Hc.
  apply clean_app in Hc as [_ Hds]. assert (Hds' : clean (snd (te', ds))) by done.
  rewrite <- E in Hds'. apply check_each_clean in Hds'. apply collect_ok in Hl. clear E Hw.
  induction Hl as [|x [[n c] ops] l rules Hx _ IH]; [constructor|].
  inversion_clear Hr. inversion_clear Hp. inversion_clear Hb. inversion_clear Hds' as [|? ? [te1 Hx'] ?].
  constructor; [|by apply IH]. destruct (rule_published x te1 n c ops) as [Hvc Hvo]; try done.
  - unfold validate_rule in Hx'. destruct (keyword_is "rule" x) eqn:Hk; [|done].
    apply not_true_is_false. intros Hk'. apply keyword_is_eq in Hk, Hk'. rewrite Hk in Hk'. discriminate Hk'.
  - rewrite Hvc. by apply operations_published.
Qed.

(** A validated statement with a given keyword was checked as such. *)
Lemma checked_when_only s :
  keyword_is "when" s = true -> checked source s ->
  exists te, clean (snd (validate_condition source (validate_nested_operation source) s (statement_text s) te)).
Proof.
  intros Hk%keyword_is_eq Hchk.
  assert (Hno : forall w', eqb_text (lit "when") (lit w') = false -> keyword_is w' s = true -> False)
    by (intros w'; by apply keyword_clash).
  destruct Hchk as [K|K _|K _|K _|K _|K|K _|K _|K _|K _|K _|te K C|te K _]; [..|by exists te|].
  all: exfalso; rewrite ?orb_true_iff in K; intuition (eapply Hno; [|eassumption]; reflexivity).
Qed.
Lemma checked_rules_only s :
  keyword_is "rules" s = true -> checked source s ->
  exists te, clean (snd (validate_rules source s (statement_text s) te)).
Proof.
  intros Hk%keyword_is_eq Hchk.
  assert (Hno : forall w', eqb_text (lit "rules") (lit w') = false -> keyword_is w' s = true -> False)
    by (intros w'; by apply keyword_clash).
  destruct Hchk as [K|K _|K _|K _|K _|K|K _|K _|K _|K _|K _|te K _|te K C]; [..|by exists te].
  all: exfalso; rewrite ?orb_true_iff in K; intuition (eapply Hno; [|eassumption]; reflexivity).
Qed.

Lemma control_text lower s text k rest :
  one_of ["when"; "rules"]%string (lit k) = true ->
  lower_text_operation source lower s text (lit k :: rest)
  = lower_control_operation source lower s text (lit k :: rest).
Proof.
  intros (w & Hw & ->)%one_of_spec. unfold lower_text_operation.
  rewrite !bool_decide_eq_false_2 by (destruct Hw as [<-|[<-|[]]]; done). by destruct Hw as [<-|[<-|[]]].
Qed.

Lemma text_published s keyword rest o :
  words (statement_text s) = keyword :: rest -> keyword = value (stmt_keyword s) -> regular s = true ->
  Forall publishes (children s) -> Forall (fun x => Forall publishes (children x)) (children s) ->
  checked source s -> no_bare (conditions s) ->
  lower_text_operation source (lower_operation source) s (statement_text s) (keyword :: rest) = Ok o ->
  published_operation o.
Proof.
  intros Hw Hk Hr Hch Hgch Hchk Hb Hl.
  destruct (decide (keyword = lit "when")) as [->|Hnw].
  { assert (Hkw : keyword_is "when" s = true) by (apply keyword_is_eq; congruence).
    destruct (checked_when_only s Hkw Hchk) as [te Hc]. rewrite control_text in Hl by done. by apply (when_published s te (lit "when" :: rest)). }
  destruct (decide (keyword = lit "rules")) as [->|Hnr].
  { assert (Hkw : keyword_is "rules" s = true) by (apply keyword_is_eq; congruence).
    destruct (checked_rules_only s Hkw Hchk) as [te Hc]. rewrite control_text in Hl by done. by apply (rules_published s te (lit "rules" :: rest)). }
  apply plain_published. by eapply text_operation_plain.
Qed.

Lemma all_publish s : publishes s /\ Forall publishes (children s).
Proof.
  induction s as [k text sp|k name statements sp IH|k header settings sp|k header settings sp]
    using statement_induction; (split; [intros Hr Hchk Hb o Hl|]); cbn [children]; try by constructor.
  - destruct (regular_head _ Hr) as [[rest Hw] _]. cbn [lower_operation] in Hl. rewrite Hw in Hl.
    by eapply text_published.
  - destruct (regular_head _ Hr) as [[rest Hw] _].
    assert (IH1 : Forall publishes statements) by (eapply Forall_impl; [exact IH|by intros x []]).
    assert (IH2 : Forall (fun x => Forall publishes (children x)) statements)
      by (eapply Forall_impl; [exact IH|by intros x []]).
    change (lower_operation source (Block k name statements sp)) with
      (lower_text_operation source (lower_operation source) (Block k name statements sp)
         (statement_text (Block k name statements sp)) (words (statement_text (Block k name statements sp)))) in Hl.
    rewrite Hw in Hl. by eapply text_published.
  - eapply Forall_impl; [exact IH|by intros x []].
  - injection Hl as <-. by apply plain_published.
  - apply plain_published. cbn [lower_operation] in Hl. unfold lower_synthesize in Hl. revert Hl. plain_cases.
Qed.
End lowering.

(** ** Phases *)

Section phases.
Context (source : bytes).

Lemma skip_published ph c :
  clean (validate_phase source ph) -> forallb regular_control (controls ph) = true ->
  no_bare (phase_conditions ph) -> phase_skip_if (controls ph) = Ok (Some c) -> published c.
Proof.
  intros Hc Hr Hb. unfold phase_skip_if.
  destruct (List.find (keyword_is "skip") (controls ph)) as [s|] eqn:Hf; [|done].
  destruct (skip_checked source ph s Hc Hr Hf) as [Hs Hin]. fold (lowered_skip (statement_text s)).
  intros (c' & Hc' & [= ->])%result_bind_ok. eapply condition_published; [exact Hs| |exact Hc'].
  unfold no_bare in Hb. rewrite Forall_forall in Hb. by apply Hb.
Qed.

Lemma phase_published order ph c phase :
  clean (validate_phase source ph) -> regular_phase ph = true -> no_bare (phase_conditions ph) ->
  lower_phase source order ph = Ok c ->
  visit_optional (skip_if c) phase = [] /\ visit_operations (cp_operations c) phase = [].
Proof.
  intros Hc [Hops Hctl]%andb_true_iff Hb. unfold lower_phase.
  intros (g & _ & (sk & Hsk & (ops & Hl & [= <-])%result_bind_ok)%result_bind_ok)%result_bind_ok. cbn. split.
  - destruct sk as [c|]; [|done]. by eapply skip_published.
  - apply operations_published. unfold lower_operations in Hl. apply collect_ok in Hl.
    unfold validate_phase in Hc. destruct (check_each _ _ _) as [te ds] eqn:E. rewrite !clean_app in Hc.
    destruct Hc as (_ & Hds & _). assert (Hc : clean (snd (te, ds))) by done. rewrite <- E in Hc.
    apply check_each_clean in Hc. apply Forall_forall. intros o [i Hi]%list_elem_of_lookup.
    destruct (Forall2_lookup_r _ _ _ _ _ Hl Hi) as (s & Hs & Ho). apply list_elem_of_lookup_2 in Hs.
    rewrite Forall_forall in Hc. destruct (Hc s Hs) as [te' Hs'].
    eapply (all_publish source s); [|by eapply operation_checked| |exact Ho].
    + rewrite forallb_forall in Hops. by apply Hops, list_elem_of_In.
    + unfold no_bare in *. rewrite Forall_forall in Hb |- *. intros t Ht. apply Hb. unfold phase_conditions.
      apply elem_of_app. right. apply list_elem_of_In, in_flat_map. exists s. by rewrite <- !list_elem_of_In.
Qed.
End phases.

Lemma execution_defaults_keep p ph :
  ph ∈ cp_phases (apply_execution_defaults p) ->
  exists ph0, ph0 ∈ cp_phases p /\ skip_if ph = skip_if ph0 /\ cp_operations ph = cp_operations ph0.
Proof.
  unfold apply_execution_defaults. destruct (cfg_on_error (cp_config p)) as [st|]; [|by exists ph].
  cbn. intros (ph0 & <- & Hin%list_elem_of_In)%list_elem_of_In%in_map_iff. exists ph0.
  split; [done|]. unfold with_on_error. by destruct (on_error ph0).
Qed.

(** C29: A policy that compiles is one the planner takes: none of its conditions is
    refused by the planner's eligibility check, provided its statements are
    regular and no condition has a keyword standing alone. *)
Theorem compiled_policy_eligible source_hash source out :
  compile_policy source_hash source = Ok out ->
  (forall ast ph, parse_policy_source source = Ok ast -> ph ∈ phases ast ->
     regular_phase ph = true /\ no_bare (phase_conditions ph)) ->
  stream_condition_eligibility_diagnostics (co_policy out) = [].
Proof.
  intros (ast & compiled & Hast & Hc & Hl%collect_ok & _ & Hp)%compile_policy_ok Hreg.
  apply validated_parts in Hc as (_ & _ & _ & _ & _ & Hphs). rewrite Forall_forall in Hphs.
  rewrite Hp. apply flat_map_nil, Forall_forall.
  intros ph (ph0 & Hin & -> & ->)%execution_defaults_keep. cbn [cp_phases] in Hin.
  apply list_elem_of_lookup in Hin as [i Hi].
  destruct (Forall2_lookup_r _ _ _ _ _ Hl Hi) as (pa & Hpa & Hlow). apply list_elem_of_lookup_2 in Hpa.
  destruct (Hreg ast pa Hast Hpa) as [Hr Hb].
  destruct (phase_published source (phase_order ast) pa ph0 (cp_name ph)
              (Hphs pa Hpa) Hr Hb Hlow) as [H1 H2].
  by rewrite H1, H2.
Qed.
