(* ===== verification/AudioStreams.v ===== *)
(** * Audio streams

    [voom-plan/src/planner/audio/selection.rs]: the facts of the audio streams of
    a snapshot, the filters the audio operations are selected by, the streams a
    filter selects, and whether a transcode or a synthesis is already done, is to
    be planned or is blocked. *)

From Stdlib Require Import ZArith Lia Bool String Ascii.
From stdpp Require Import base gmap strings list sorting.
From S2P Require Import Prelude Json Bytes PolicySyntax Encoders TrackFilters TrackFilterPrint.
From S2P Require Import PolicyCompiled PlanModel PlanStreams PlanRemux.

Open Scope Z_scope.

Record AudioDispositionFact := {
  ad_default : bool;
  ad_forced : bool;
  ad_commentary : option bool;
}.
Record SnapshotAudioStreamFact := {
  as_id : bytes;
  as_index : Z;
  as_codec : option bytes;
  as_language : option bytes;
  as_title : option bytes;
  as_channels : option Z;
  as_channel_layout : option bytes;
  as_default : bool;
  as_disposition : AudioDispositionFact;
  as_commentary : option bool;
}.

Inductive AudioBundleRole := CommentaryAudio | ExternalAudio.
#[global] Instance AudioBundleRole_eq_dec : EqDecision AudioBundleRole.
Proof. solve_decision. Defined.

Inductive AudioPlanningBlock :=
  | AudioInsufficientFacts
  | UnsupportedSelector
  | ZeroMatches
  | NoVideo
  | AudioUnsupportedShape
  | SynthesisNotDownmix.
#[global] Instance AudioPlanningBlock_eq_dec : EqDecision AudioPlanningBlock.
Proof. solve_decision. Defined.
Inductive AudioPlanShape := AudioNoOp | AudioPlanned | AudioBlocked (block : AudioPlanningBlock).
Abbreviation AB := (result AudioPlanningBlock).

(** ** Facts *)

Definition audio_required_string (v : option Json) : AB bytes :=
  match v ≫= json_text with
  | Some t => if non_empty (trim t) then Ok t else Err AudioInsufficientFacts
  | None => Err AudioInsufficientFacts
  end.
Definition disposition_flag (disposition : option Json) (key : string) : bool :=
  default false (((disposition ≫= json_as_object) ≫= fun o => json_get o key) ≫= json_as_bool).
Definition audio_disposition (disposition : option Json) : AudioDispositionFact := {|
  ad_default := disposition_flag disposition "default";
  ad_forced := disposition_flag disposition "forced";
  ad_commentary :=
    ((disposition ≫= json_as_object) ≫= fun o =>
       match json_get o "commentary" with Some v => Some v | None => json_get o "comment" end)
    ≫= json_as_bool;
|}.

(** The fact of one audio stream. *)
Definition audio_fact (o : Json) (ids : gset bytes) (indexes : gset Z) : AB SnapshotAudioStreamFact :=
  id ← audio_required_string (json_get o "id");
  if bool_decide (id ∈ ids) then Err AudioInsufficientFacts else
  index ← ok_or (json_get o "index" ≫= json_as_u32) AudioInsufficientFacts;
  if bool_decide (index ∈ indexes) then Err AudioInsufficientFacts else
  let disposition := audio_disposition (json_get o "disposition") in
  Ok {| as_id := id; as_index := index;
        as_codec := optional_string (json_get o "codec_name");
        as_language := optional_string (json_get o "language");
        as_title := optional_string (json_get o "title");
        as_channels := json_get o "channels" ≫= json_as_u32;
        as_channel_layout := optional_string (json_get o "channel_layout");
        as_default := ad_default disposition;
        as_disposition := disposition;
        as_commentary := ad_commentary disposition |}.
Fixpoint audio_facts_from (streams : list Json) (ids : gset bytes) (indexes : gset Z) :
    AB (list SnapshotAudioStreamFact) :=
  match streams with
  | [] => Ok []
  | stream :: streams' =>
      o ← ok_or (json_as_object stream) AudioInsufficientFacts;
      k ← audio_required_string (json_get o "kind");
      if negb (eqb_text k (lit "audio")) then audio_facts_from streams' ids indexes else
      fact ← audio_fact o ids indexes;
      facts ← audio_facts_from streams' ({[as_id fact]} ∪ ids) ({[as_index fact]} ∪ indexes);
      Ok (fact :: facts)
  end.
Definition audio_stream_facts (s : MediaSnapshotInput) : AB (list SnapshotAudioStreamFact) :=
  streams ← ok_or (summary_streams s) AudioInsufficientFacts;
  audio_facts_from streams ∅ ∅.

(** ** Filters *)

Fixpoint audio_filter_has_unsupported_selector (f : TrackFilter) : bool :=
  match f with
  | FFont | FTitleMatches _ => true
  | FNot g => audio_filter_has_unsupported_selector g
  | FAnd fs | FOr fs => existsb audio_filter_has_unsupported_selector fs
  | _ => false
  end.
Fixpoint evaluate_supported_audio_filter (f : TrackFilter) (s : SnapshotAudioStreamFact) : AB bool :=
  match f with
  | FLanguageIn values => Ok (text_in values (default (lit "und") (as_language s)))
  | FCodecIn values => codec ← ok_or (as_codec s) AudioInsufficientFacts; Ok (text_in values codec)
  | FChannels op v =>
      channels ← ok_or (as_channels s) AudioInsufficientFacts; Ok (compare_u64 channels op v)
  | FCommentary => ok_or (as_commentary s) AudioInsufficientFacts
  | FForced => Ok (ad_forced (as_disposition s))
  | FDefault => Ok (as_default s)
  | FTitleContains v =>
      title ← ok_or (as_title s) AudioInsufficientFacts; Ok (contains v title)
  | FNot inner => b ← evaluate_supported_audio_filter inner s; Ok (negb b)
  | FAnd filters =>
      (fix all (filters : list TrackFilter) (insufficient : bool) : AB bool :=
         match filters with
         | [] => if insufficient then Err AudioInsufficientFacts else Ok true
         | g :: filters' =>
             match evaluate_supported_audio_filter g s with
             | Ok true => all filters' insufficient
             | Ok false => Ok false
             | Err AudioInsufficientFacts => all filters' true
             | Err e => Err e
             end
         end) filters false
  | FOr filters =>
      (fix any (filters : list TrackFilter) (insufficient : bool) : AB bool :=
         match filters with
         | [] => if insufficient then Err AudioInsufficientFacts else Ok false
         | g :: filters' =>
             match evaluate_supported_audio_filter g s with
             | Ok true => Ok true
             | Ok false => any filters' insufficient
             | Err AudioInsufficientFacts => any filters' true
             | Err e => Err e
             end
         end) filters false
  | FFont | FTitleMatches _ => Err UnsupportedSelector
  end.
Definition evaluate_audio_filter (f : TrackFilter) (s : SnapshotAudioStreamFact) : AB bool :=
  if audio_filter_has_unsupported_selector f then Err UnsupportedSelector
  else evaluate_supported_audio_filter f s.

(** ** Selection *)

Definition audio_video_stream_count (s : MediaSnapshotInput) : AB Z :=
  ok_or (video_stream_count s) AudioInsufficientFacts.
Fixpoint select_streams (facts : list SnapshotAudioStreamFact) (filter : option TrackFilter) :
    AB (list SnapshotAudioStreamFact) :=
  match facts with
  | [] => Ok []
  | s :: facts' =>
      b ← match filter with Some f => evaluate_audio_filter f s | None => Ok true end;
      rest ← select_streams facts' filter;
      Ok ((fun b : bool => if b then s :: rest else rest) b)
  end.
Definition selected_audio_streams (snapshot : MediaSnapshotInput) (filter : option TrackFilter) :
    AB (list SnapshotAudioStreamFact) :=
  count ← audio_video_stream_count snapshot;
  if count =? 0 then Err NoVideo else
  facts ← audio_stream_facts snapshot;
  select_streams facts filter.

(** ** Shapes *)

(** The layouts an E-AC-3 encoder keeps. *)
Definition eac3_layout (channels : Z) (layout : bytes) : bool :=
  if channels =? 1 then one_of ["mono"] layout
  else if channels =? 2 then one_of ["stereo"; "2 channels (FC+LFE)"] layout
  else if channels =? 3 then one_of ["2.1"; "3.0"; "3.0(back)"] layout
  else if channels =? 4 then
    one_of ["3.1"; "4.0"; "quad"; "quad(side)"; "4 channels (FL+FR+LFE+BC)"] layout
  else if channels =? 5 then one_of ["4.1"; "5.0"; "5.0(side)"] layout
  else if channels =? 6 then one_of ["5.1"; "5.1(side)"] layout
  else false%string.
Fixpoint eac3_shape (selected : list SnapshotAudioStreamFact) : AudioPlanShape :=
  match selected with
  | [] => AudioPlanned
  | s :: selected' =>
      match as_channels s, as_channel_layout s with
      | Some channels, Some layout =>
          if eac3_layout channels layout then eac3_shape selected'
          else AudioBlocked AudioUnsupportedShape
      | _, _ => AudioBlocked AudioInsufficientFacts
      end
  end.
Definition transcode_audio_shape (snapshot : MediaSnapshotInput) (target_codec container : bytes)
    (filter : option TrackFilter) : AudioPlanShape :=
  match selected_audio_streams snapshot filter with
  | Err block => AudioBlocked block
  | Ok [] => AudioBlocked ZeroMatches
  | Ok selected =>
      match si_container snapshot with
      | None => AudioBlocked AudioInsufficientFacts
      | Some current_container =>
          if existsb (fun s => match as_codec s with None => true | Some _ => false end) selected then
            AudioBlocked AudioInsufficientFacts
          else if eq_ignore_ascii_case current_container container
                  && forallb (fun s => bool_decide (as_codec s = Some target_codec)) selected then AudioNoOp
          else if eqb_text target_codec (lit "eac3") then eac3_shape selected
          else AudioPlanned
      end
  end.

Fixpoint downmix_shape (selected : list SnapshotAudioStreamFact) (target_channels : Z) : AudioPlanShape :=
  match selected with
  | [] => AudioPlanned
  | s :: selected' =>
      match as_channels s with
      | None => AudioBlocked AudioInsufficientFacts
      | Some channels =>
          if (target_channels =? 0) || (channels <=? target_channels) then AudioBlocked SynthesisNotDownmix
          else downmix_shape selected' target_channels
      end
  end.
Definition synthesize_audio_shape (snapshot : MediaSnapshotInput) (target_channels : Z)
    (filter : option TrackFilter) : AudioPlanShape :=
  match selected_audio_streams snapshot filter with
  | Err block => AudioBlocked block
  | Ok [] => AudioBlocked ZeroMatches
  | Ok selected => downmix_shape selected target_channels
  end.

Definition extraction_role (s : SnapshotAudioStreamFact) : AB AudioBundleRole :=
  match as_commentary s with
  | Some true => Ok CommentaryAudio
  | Some false => Ok ExternalAudio
  | None => Err AudioInsufficientFacts
  end.

(** ** What the facts promise *)

Lemma audio_fact_ok o ids indexes s :
  audio_fact o ids indexes = Ok s ->
  (as_id s ∉ ids) /\ (as_index s ∉ indexes) /\ non_empty (trim (as_id s)) = true /\ is_u32 (as_index s) = true.
Proof.
  unfold audio_fact, audio_required_string.
  destruct (json_get o "id" ≫= json_text) as [t|]; [|done].
  destruct (non_empty (trim t)) eqn:Ht; [|done]. cbn. case_bool_decide as Hid; [done|].
  destruct (json_get o "index" ≫= json_as_u32) as [n|] eqn:Hn; [|done]. cbn.
  case_bool_decide as Hix; [done|]. intros [= <-]. cbn. split_and!; try done. by eapply json_as_u32_ok.
Qed.

(** The streams are told apart by their ids and by their indexes. *)
Lemma audio_facts_ok streams ids indexes facts :
  audio_facts_from streams ids indexes = Ok facts ->
  NoDup (map as_id facts) /\ NoDup (map as_index facts)
  /\ Forall (fun s => (as_id s ∉ ids) /\ (as_index s ∉ indexes)
                      /\ non_empty (trim (as_id s)) = true /\ is_u32 (as_index s) = true) facts.
Proof.
  revert ids indexes facts. induction streams as [|stream streams IH]; intros ids indexes facts; cbn.
  { intros [= <-]. split_and!; constructor. }
  intros (o & _ & (k & _ & H)%result_bind_ok)%result_bind_ok.
  destruct (negb _); [by eapply IH|].
  apply result_bind_ok in H as (s & Hs & (facts' & Hf & [= <-])%result_bind_ok).
  apply audio_fact_ok in Hs as (Hid & Hix & Ht & Hu). apply IH in Hf as (Hnd1 & Hnd2 & Hnew).
  rewrite Forall_forall in Hnew. split_and!.
  - cbn. constructor; [|done]. intros (t & He & Hin)%list_elem_of_fmap. specialize (Hnew t Hin). set_solver.
  - cbn. constructor; [|done]. intros (t & He & Hin)%list_elem_of_fmap. specialize (Hnew t Hin). set_solver.
  - constructor; [done|]. apply Forall_forall. intros t Hin. specialize (Hnew t Hin). set_solver.
Qed.

Lemma select_streams_sub facts filter sel :
  select_streams facts filter = Ok sel -> sublist sel facts.
Proof.
  revert sel. induction facts as [|s facts IH]; intros sel; cbn; [by intros [= <-]|].
  intros (b & _ & (rest & Hr%IH & [= <-])%result_bind_ok)%result_bind_ok.
  destruct b; [by constructor|by apply sublist_cons].
Qed.
Lemma selected_streams_ok snapshot filter sel :
  selected_audio_streams snapshot filter = Ok sel ->
  NoDup (map as_id sel) /\ NoDup (map as_index sel)
  /\ Forall (fun s => non_empty (trim (as_id s)) = true /\ is_u32 (as_index s) = true) sel.
Proof.
  unfold selected_audio_streams. intros (n & _ & H)%result_bind_ok. destruct (n =? 0); [done|].
  apply result_bind_ok in H as (facts & Hf & Hs%select_streams_sub). unfold audio_stream_facts in Hf.
  apply result_bind_ok in Hf as (streams & _ & (H1 & H2 & H3)%audio_facts_ok).
  split_and!; [eapply sublist_NoDup; [exact H1|by apply fmap_sublist]
              |eapply sublist_NoDup; [exact H2|by apply fmap_sublist]|].
  rewrite Forall_forall in H3 |- *. intros s Hin. apply H3. by eapply elem_of_sublist.
Qed.

(** * One filter, two evaluators

    A track filter is evaluated by [remux/selection.rs] when tracks are kept,
    removed or moved, and by [audio/selection.rs] when audio is transcoded,
    extracted or synthesized. The two read the snapshot separately and treat
    missing facts differently. Where the remux evaluation decides, the audio
    evaluation gives the same answer. *)

(** The facts of the same stream. *)
Record same_stream (s : SnapshotStreamFact) (a : SnapshotAudioStreamFact) : Prop := {
  ss_id : as_id a = sf_id s;
  ss_index : as_index a = sf_index s;
  ss_codec : as_codec a = sf_codec_name s;
  ss_channels : as_channels a = sf_channels s;
  ss_title : as_title a = sf_title s;
  ss_language : sf_language s = match as_language a with Some l => Known l | None => Missing end
                \/ sf_language s = Malformed;
  ss_commentary : forall b, sf_commentary s = Known b -> as_commentary a = Some b;
  ss_default : forall b, sf_is_default s = Known b -> as_default a = b;
  ss_forced : forall b, sf_is_forced s = Known b -> ad_forced (as_disposition a) = b;
}.

(** ** The facts *)

Lemma disposition_known d key b :
  disposition_fact d key = Known b ->
  exists ms, d = Some (JObj ms) /\ assoc_str key ms = Some (JBool b).
Proof.
  unfold disposition_fact. destruct d as [j|]; [|done]. destruct j; try done.
  destruct (assoc_str key members) as [v|] eqn:E; [|done]. destruct v; try done.
  intros [= ->]. eauto.
Qed.
Lemma disposition_flag_known d key b : disposition_fact d key = Known b -> disposition_flag d key = b.
Proof. intros (ms & -> & H)%disposition_known. unfold disposition_flag. cbn. by rewrite H. Qed.

Lemma stream_fact_same stream ids indexes ids' indexes' s a :
  stream_fact stream ids indexes = Ok s -> audio_fact stream ids' indexes' = Ok a -> same_stream s a.
Proof.
  unfold stream_fact, audio_fact, required_string, audio_required_string.
  destruct stream as [| | | | | |ms]; try done. cbn [json_as_object ok_or mbind result_mbind].
  destruct (json_get (JObj ms) "id" ≫= json_text) as [t|]; [|done].
  destruct (non_empty (trim t)); [|done]. cbn [mbind result_mbind].
  do 2 (case_bool_decide; [done|]).
  destruct (json_get (JObj ms) "index" ≫= json_as_u32) as [n|]; [|done]. cbn [ok_or mbind result_mbind].
  do 2 (case_bool_decide; [done|]).
  intros (att & _ & (kn & _ & (k & _ & [= <-])%result_bind_ok)%result_bind_ok)%result_bind_ok [= <-].
  split; cbn -[json_get]; try done.
  - unfold optional_string, optional_string_fact.
    destruct (assoc_str "language" ms) as [[| | | | | |]|]; cbn; first [by left|by right].
  - intros b (dms & Hd & Hc)%disposition_known. unfold audio_disposition. rewrite Hd. cbn. by rewrite Hc.
  - apply disposition_flag_known.
  - apply disposition_flag_known.
Qed.

Lemma stream_fact_kind stream ids indexes s :
  stream_fact stream ids indexes = Ok s ->
  json_as_object stream = Some stream
  /\ exists k, audio_required_string (json_get stream "kind") = Ok k
     /\ (sf_kind s = Audio <-> k = lit "audio").
Proof.
  unfold stream_fact, audio_required_string, required_string.
  destruct stream as [| | | | | |ms]; try done. cbn [json_as_object ok_or mbind result_mbind].
  destruct (json_get (JObj ms) "id" ≫= json_text) as [t|]; [|done].
  destruct (non_empty (trim t)); [|done]. cbn [mbind result_mbind]. case_bool_decide; [done|].
  intros (n & _ & H')%result_bind_ok. revert H'. case_bool_decide; [done|].
  intros (att & _ & (kn & Hkn & (k & Hk%ok_or_ok & [= <-])%result_bind_ok)%result_bind_ok)%result_bind_ok.
  split; [done|]. destruct (json_get (JObj ms) "kind" ≫= json_text) as [kt|]; [|done].
  destruct (non_empty (trim kt)); [|done]. injection Hkn as ->. exists kn. split; [done|].
  cbn. unfold stream_kind in Hk. split.
  - intros ->. destruct (eqb_text kn (lit "video")); [by destruct (is_cover_art _)|].
    destruct (eqb_text kn (lit "audio")) eqn:E; [by apply eqb_text_true in E|].
    destruct (eqb_text kn (lit "subtitle")); [done|]. by destruct (eqb_text kn (lit "attachment")).
  - intros ->. by injection Hk as <-.
Qed.

Lemma audio_fact_total stream ids indexes ids' indexes' s :
  stream_fact stream ids indexes = Ok s -> ids' ⊆ ids -> indexes' ⊆ indexes ->
  exists a, audio_fact stream ids' indexes' = Ok a.
Proof.
  unfold stream_fact, audio_fact, required_string, audio_required_string.
  destruct stream as [| | | | | |ms]; try done. cbn [json_as_object ok_or mbind result_mbind].
  destruct (json_get (JObj ms) "id" ≫= json_text) as [t|]; [|done].
  destruct (non_empty (trim t)); [|done]. cbn [mbind result_mbind].
  case_bool_decide as H1; [done|].
  destruct (json_get (JObj ms) "index" ≫= json_as_u32) as [n|]; [|done]. cbn [ok_or mbind result_mbind].
  case_bool_decide as H2; [done|]. intros _ Hi Hx.
  rewrite !bool_decide_eq_false_2 by set_solver. eauto.
Qed.

(** Where the remux facts are read, so are the audio facts, and they are the facts of the
    audio streams. *)
Lemma audio_facts_same streams ids indexes ids' indexes' facts :
  stream_facts_from streams ids indexes = Ok facts -> ids' ⊆ ids -> indexes' ⊆ indexes ->
  exists audio, audio_facts_from streams ids' indexes' = Ok audio
  /\ Forall2 same_stream (List.filter (is_kind Audio) facts) audio.
Proof.
  revert ids indexes ids' indexes' facts.
  induction streams as [|stream streams IH]; intros ids indexes ids' indexes' facts; cbn -[lit].
  { intros [= <-] _ _. exists []. split; [done|constructor]. }
  intros (s & Hs & (facts' & Hf & [= <-])%result_bind_ok)%result_bind_ok Hi Hx.
  destruct (stream_fact_kind _ _ _ _ Hs) as (Ho & k & Hk & Hkind). rewrite Ho. cbn -[lit]. rewrite Hk. cbn -[lit].
  destruct (eqb_text k (lit "audio")) eqn:E; cbn [negb].
  - apply eqb_text_true in E. apply Hkind in E.
    destruct (audio_fact_total _ _ _ ids' indexes' _ Hs Hi Hx) as [a Ha]. rewrite Ha. cbn -[lit].
    pose proof (stream_fact_same _ _ _ _ _ _ _ Hs Ha) as Hsame.
    destruct (IH _ _ ({[as_id a]} ∪ ids') ({[as_index a]} ∪ indexes') _ Hf) as (audio & -> & Hall).
    + rewrite (ss_id _ _ Hsame). set_solver.
    + rewrite (ss_index _ _ Hsame). set_solver.
    + exists (a :: audio). split; [done|]. unfold is_kind at 1. rewrite bool_decide_eq_true_2 by done. by constructor.
  - destruct (IH _ _ ids' indexes' _ Hf) as (audio & -> & Hall); [set_solver|set_solver|].
    exists audio. split; [done|]. unfold is_kind at 1. rewrite bool_decide_eq_false_2; [done|].
    intros ->%Hkind. by rewrite (proj2 (eqb_text_true _ _) eq_refl) in E.
Qed.

(** ** The filters *)

Definition decides_alike (s : SnapshotStreamFact) (a : SnapshotAudioStreamFact) (f : TrackFilter) : Prop :=
  audio_filter_has_unsupported_selector f = false ->
  forall b, evaluate_filter f s = Ok b -> evaluate_supported_audio_filter f a = Ok b.

Lemma leaf_alike s a f : same_stream s a -> is_leaf f = true -> decides_alike s a f.
Proof.
  intros Hs Hl Hu b. destruct f; try done; cbn -[lit text_in].
  - destruct (ss_language _ _ Hs) as [->| ->]; [|done]. destruct (as_language a); cbn -[lit text_in]; congruence.
  - rewrite (ss_codec _ _ Hs). destruct (sf_codec_name s); cbn -[text_in]; congruence.
  - rewrite (ss_channels _ _ Hs). destruct (sf_channels s); cbn; congruence.
  - destruct (sf_commentary s) as [| |b'] eqn:E; [done|done|]. rewrite (ss_commentary _ _ Hs b' E). cbn. congruence.
  - destruct (sf_is_forced s) as [| |b'] eqn:E; [done|done|]. intros [= <-]. by rewrite (ss_forced _ _ Hs b' E).
  - destruct (sf_is_default s) as [| |b'] eqn:E; [done|done|]. intros [= <-]. by rewrite (ss_default _ _ Hs b' E).
  - rewrite (ss_title _ _ Hs). destruct (sf_title s); cbn; congruence.
Qed.

(** A conjunction the remux evaluation decides has all its parts decided. *)
Lemma and_decided s fs b :
  evaluate_filter (FAnd fs) s = Ok b ->
  exists bs, Forall2 (fun f b => evaluate_filter f s = Ok b) fs bs /\ b = forallb id bs.
Proof.
  cbn. match goal with |- ?go fs true = _ -> _ => set (all := go) end.
  assert (forall m, all fs m = Ok b ->
    exists bs, Forall2 (fun f b => evaluate_filter f s = Ok b) fs bs /\ b = m && forallb id bs) as H.
  { induction fs as [|f fs IH]; intros m; cbn [all].
    - intros [= <-]. exists []. split; [constructor|]. by rewrite andb_true_r.
    - destruct (evaluate_filter f s) as [bf|] eqn:Hf; [|done]. cbn. fold all.
      intros (bs & Hbs & ->)%IH. exists (bf :: bs). split; [by constructor|]. cbn. by destruct m, bf. }
  intros (bs & Hbs & ->)%H. by exists bs.
Qed.

Lemma and_alike s a fs : Forall (decides_alike s a) fs -> decides_alike s a (FAnd fs).
Proof.
  intros HA Hu b (bs & Hbs & ->)%and_decided. cbn.
  match goal with |- ?go fs false = _ => set (all := go) end. cbn in Hu.
  induction Hbs as [|f bf fs bs Hf _ IH]; [done|]. inversion_clear HA as [|? ? Ha Has].
  cbn in Hu. apply orb_false_iff in Hu as [Hu Hus]. cbn [all forallb]. rewrite (Ha Hu bf Hf).
  destruct bf; cbn; [|done]. by apply IH.
Qed.

(** A supported filter fails for want of facts only. *)
Lemma supported_errors a f e :
  audio_filter_has_unsupported_selector f = false ->
  evaluate_supported_audio_filter f a = Err e -> e = AudioInsufficientFacts.
Proof.
  revert e. induction f as [f Hl|g IH|fs IH|fs IH] using filter_induction; intros e Hu.
  - destruct f; try done; cbn -[lit text_in].
    + destruct (as_codec a); cbn; congruence.
    + destruct (as_channels a); cbn; congruence.
    + destruct (as_commentary a); cbn; congruence.
    + destruct (as_title a); cbn; congruence.
  - cbn in Hu |- *. destruct (evaluate_supported_audio_filter g a) eqn:E; [done|]. intros [= ->]. by apply IH.
  - cbn in Hu |- *. match goal with |- ?go fs false = _ -> _ => set (loop := go) end.
    enough (forall i, loop fs i = Err e -> e = AudioInsufficientFacts) as H by apply H.
    induction IH as [|f fs Hf _ IH]; intros i; cbn [loop]; [destruct i; congruence|]. fold loop.
    cbn in Hu. apply orb_false_iff in Hu as [Hu Hus].
    destruct (evaluate_supported_audio_filter f a) as [[|]|[]] eqn:E; try done; try by apply IH.
    all: specialize (Hf _ Hu eq_refl); congruence.
  - cbn in Hu |- *. match goal with |- ?go fs false = _ -> _ => set (loop := go) end.
    enough (forall i, loop fs i = Err e -> e = AudioInsufficientFacts) as H by apply H.
    induction IH as [|f fs Hf _ IH]; intros i; cbn [loop]; [destruct i; congruence|]. fold loop.
    cbn in Hu. apply orb_false_iff in Hu as [Hu Hus].
    destruct (evaluate_supported_audio_filter f a) as [[|]|[]] eqn:E; try done; try by apply IH.
    all: specialize (Hf _ Hu eq_refl); congruence.
Qed.

Lemma or_alike s a fs : Forall (decides_alike s a) fs -> decides_alike s a (FOr fs).
Proof.
  intros HA Hu b. cbn in Hu |- *.
  match goal with |- ?go fs false = _ -> ?go' fs false = _ => set (any := go); set (any' := go') end.
  assert (forall i i', any fs i = Ok b -> (i' = true -> i = true \/ b = true) -> any' fs i' = Ok b) as H.
  2: { intros He. by apply (H false). }
  induction HA as [|f fs Ha _ IH]; intros i i'; cbn [any any'].
  - destruct i; [done|]. intros [= <-]. destruct i'; [|done]. intros H. by destruct H.
  - cbn in Hu. apply orb_false_iff in Hu as [Hu Hus]. fold any any'.
    destruct (evaluate_filter f s) as [[|]|[]] eqn:Hf; try done.
    + intros [= <-] _. by rewrite (Ha Hu true Hf).
    + rewrite (Ha Hu false Hf). by apply IH.
    + intros He _. assert (b = true) as ->.
      { clear -He. induction fs as [|g fs IHf]; cbn [any] in He; [done|]. fold any in He.
        destruct (evaluate_filter g s) as [[|]|[]]; try done; try by apply IHf. congruence. }
      destruct (evaluate_supported_audio_filter f a) as [[|]|e] eqn:Hfa; [done|by apply (IH Hus true); auto|].
      apply supported_errors in Hfa as ->; [|done]. apply (IH Hus true); auto.
Qed.

Lemma filters_alike s a f : same_stream s a -> decides_alike s a f.
Proof.
  intros Hs. induction f as [f Hl|g IH|fs IH|fs IH] using filter_induction.
  - by apply leaf_alike.
  - intros Hu b. cbn. destruct (evaluate_filter g s) as [bg|] eqn:E; [|done]. intros [= <-].
    by rewrite (IH Hu bg E).
  - by apply and_alike.
  - by apply or_alike.
Qed.

(** ** The selections *)

Lemma selections_alike f facts audio ids :
  Forall2 same_stream facts audio -> audio_filter_has_unsupported_selector f = false ->
  matching_ids facts f = Ok ids ->
  exists selected, select_streams audio (Some f) = Ok selected /\ map as_id selected = ids.
Proof.
  intros HA Hu. revert ids. induction HA as [|s a facts audio Hs _ IH]; intros ids; cbn.
  { intros [= <-]. by exists []. }
  intros (b & Hb & (ids' & Hids & [= <-])%result_bind_ok)%result_bind_ok.
  unfold evaluate_audio_filter. rewrite Hu, (filters_alike s a f Hs Hu b Hb). cbn.
  destruct (IH _ Hids) as (selected & -> & <-). cbn. eexists. split; [reflexivity|].
  destruct b; [|done]. cbn. by rewrite (ss_id _ _ Hs).
Qed.

