(* ===== verification/AudioPayload.v ===== *)
(** * Payloads of audio operations

    [voom-plan/src/planner/audio/payload.rs]: the payload of an audio node, its
    JSON form, and what an executor accepts of it. Error texts are left out. *)

From Stdlib Require Import ZArith Lia Bool String Ascii.
From stdpp Require Import base gmap strings list.
From S2P Require Import Prelude Json Bytes PolicySyntax TrackFilters PlanModel FilterJson.
From S2P Require Import PlanStreams PlanPayload AudioStreams.

Open Scope string_scope.
Open Scope list_scope.
Open Scope Z_scope.

Definition AUDIO_TRANSCODE_CONTAINER : string := "mkv".
Definition AUDIO_EXTRACT_CONTAINER : string := "ogg".
Definition AUDIO_EXTRACT_CODEC : string := "opus".

Record ExtractAudioOutputDescriptor := {
  eo_output_id : bytes;
  eo_source_id : bytes;
  eo_source_index : Z;
  eo_name_suffix : bytes;
  eo_bundle_role : AudioBundleRole;
}.
Record SynthesizeAudioCompanionDescriptor := {
  sc_companion_id : bytes;
  sc_source_id : bytes;
  sc_source_index : Z;
  sc_result_id : bytes;
}.
Record CompatibilityStreamIdentity := { cs_id : bytes; cs_index : Z }.
Record AudioCompatibilityDescriptor := {
  ac_retained_streams : list CompatibilityStreamIdentity;
  ac_source_id : bytes;
  ac_source_index : Z;
  ac_source_channels : Z;
  ac_source_channel_layout : bytes;
  ac_target_channel_layout : bytes;
  ac_result_id : bytes;
}.

Inductive AudioOperationType :=
  TypeTranscodeAudio | TypeExtractAudio | TypeSynthesizeAudio | TypeEnsureAudioCompatibility.
#[global] Instance AudioOperationType_eq_dec : EqDecision AudioOperationType.
Proof. solve_decision. Defined.
Definition AudioOperationType_as_str (t : AudioOperationType) : string :=
  match t with
  | TypeTranscodeAudio => "transcode_audio"
  | TypeExtractAudio => "extract_audio"
  | TypeSynthesizeAudio => "synthesize_audio"
  | TypeEnsureAudioCompatibility => "ensure_audio_compatibility"
  end.

Record AudioOperationPayload := {
  ap_operation_type : AudioOperationType;
  ap_operation_id : option bytes;
  ap_target_codec : bytes;
  ap_container : bytes;
  ap_source_snapshot_id : option Z;
  ap_filter : option TrackFilter;
  ap_outputs : option (list ExtractAudioOutputDescriptor);
  ap_companions : option (list SynthesizeAudioCompanionDescriptor);
  ap_target_channels : option Z;
  ap_compatibility : option AudioCompatibilityDescriptor;
}.

(** ** Writing *)

Definition AudioBundleRole_name (r : AudioBundleRole) : string :=
  match r with CommentaryAudio => "commentary_audio" | ExternalAudio => "external_audio" end.

Definition output_value (o : ExtractAudioOutputDescriptor) : Json :=
  JObj [("output_id", json_string (eo_output_id o));
        ("source_snapshot_stream_id", json_string (eo_source_id o));
        ("source_provider_stream_index", JInt (eo_source_index o));
        ("name_suffix", json_string (eo_name_suffix o));
        ("bundle_role", JStr (AudioBundleRole_name (eo_bundle_role o)))].
Definition companion_value (c : SynthesizeAudioCompanionDescriptor) : Json :=
  JObj [("companion_id", json_string (sc_companion_id c));
        ("source_snapshot_stream_id", json_string (sc_source_id c));
        ("source_provider_stream_index", JInt (sc_source_index c));
        ("result_snapshot_stream_id", json_string (sc_result_id c))].
Definition identity_value (i : CompatibilityStreamIdentity) : Json :=
  JObj [("snapshot_stream_id", json_string (cs_id i)); ("provider_stream_index", JInt (cs_index i))].
Definition compatibility_value (d : AudioCompatibilityDescriptor) : Json :=
  JObj [("retained_streams", JArr (map identity_value (ac_retained_streams d)));
        ("source_snapshot_stream_id", json_string (ac_source_id d));
        ("source_provider_stream_index", JInt (ac_source_index d));
        ("source_channels", JInt (ac_source_channels d));
        ("source_channel_layout", json_string (ac_source_channel_layout d));
        ("target_channel_layout", json_string (ac_target_channel_layout d));
        ("result_snapshot_stream_id", json_string (ac_result_id d))].

Definition audio_into_value (p : AudioOperationPayload) : Json :=
  JObj ([("type", JStr (AudioOperationType_as_str (ap_operation_type p)))]
        ++ optional_member "operation_id" json_string (ap_operation_id p)
        ++ [("target_codec", json_string (ap_target_codec p));
            ("container", json_string (ap_container p))]
        ++ optional_member "target_channels" JInt (ap_target_channels p)
        ++ optional_member "source_media_snapshot_id" JInt (ap_source_snapshot_id p)
        ++ optional_member "filter" TrackFilter_to_value (ap_filter p)
        ++ optional_member "outputs" (fun l => JArr (map output_value l)) (ap_outputs p)
        ++ optional_member "companions" (fun l => JArr (map companion_value l)) (ap_companions p)
        ++ optional_member "compatibility" compatibility_value (ap_compatibility p)).

(** ** Reading *)

(** The fields of a struct, in their order: from an object with these members
    and no other, or from an array of as many values. *)
Definition struct_fields (names : list string) (j : Json) : option (list Json) :=
  match j with
  | JObj ms =>
      if forallb (fun m => existsb (String.eqb (fst m)) names) ms
      then collect_opt (fun name => assoc_str name ms) names else None
  | JArr l => if (length l =? length names)%nat then Some l else None
  | _ => None
  end.
Definition AudioBundleRole_of_name (s : string) : option AudioBundleRole :=
  if String.eqb s "commentary_audio" then Some CommentaryAudio
  else if String.eqb s "external_audio" then Some ExternalAudio else None.
Definition AudioBundleRole_from_value (j : Json) : option AudioBundleRole :=
  match j with
  | JStr s => AudioBundleRole_of_name s
  | JObj [(s, JNull)] => AudioBundleRole_of_name s
  | _ => None
  end.

Definition output_from_value (j : Json) : option ExtractAudioOutputDescriptor :=
  fields ← struct_fields ["output_id"; "source_snapshot_stream_id"; "source_provider_stream_index";
                          "name_suffix"; "bundle_role"] j;
  match fields with
  | [a; b; c; d; e] =>
      a ← json_text a; b ← json_text b; c ← json_as_u32 c; d ← json_text d;
      e ← AudioBundleRole_from_value e;
      Some {| eo_output_id := a; eo_source_id := b; eo_source_index := c; eo_name_suffix := d;
              eo_bundle_role := e |}
  | _ => None
  end.
Definition companion_from_value (j : Json) : option SynthesizeAudioCompanionDescriptor :=
  fields ← struct_fields ["companion_id"; "source_snapshot_stream_id"; "source_provider_stream_index";
                          "result_snapshot_stream_id"] j;
  match fields with
  | [a; b; c; d] =>
      a ← json_text a; b ← json_text b; c ← json_as_u32 c; d ← json_text d;
      Some {| sc_companion_id := a; sc_source_id := b; sc_source_index := c; sc_result_id := d |}
  | _ => None
  end.
Definition identity_from_value (j : Json) : option CompatibilityStreamIdentity :=
  fields ← struct_fields ["snapshot_stream_id"; "provider_stream_index"] j;
  match fields with
  | [a; b] => a ← json_text a; b ← json_as_u32 b; Some {| cs_id := a; cs_index := b |}
  | _ => None
  end.
Definition compatibility_from_value (j : Json) : option AudioCompatibilityDescriptor :=
  fields ← struct_fields ["retained_streams"; "source_snapshot_stream_id"; "source_provider_stream_index";
                          "source_channels"; "source_channel_layout"; "target_channel_layout";
                          "result_snapshot_stream_id"] j;
  match fields with
  | [a; b; c; d; e; f; g] =>
      a ← json_as_array a; a ← collect_opt identity_from_value a; b ← json_text b; c ← json_as_u32 c;
      d ← json_as_u32 d; e ← json_text e; f ← json_text f; g ← json_text g;
      Some {| ac_retained_streams := a; ac_source_id := b; ac_source_index := c; ac_source_channels := d;
              ac_source_channel_layout := e; ac_target_channel_layout := f; ac_result_id := g |}
  | _ => None
  end.

Inductive AudioPayloadError :=
  | NotAnObject
  | UnsupportedType
  | BadField (field : string)
  | MissingTargetChannels
  | UnexpectedCompanions
  | MissingCompanions
  | InvalidCompanions
  | InvalidInventory
  | InvalidDescriptor
  | InvalidCompatibilityTarget
  | UnexpectedCompatibility.
Abbreviation AE := (result AudioPayloadError).

Definition optional_non_empty_string (v : option Json) (field : string) : AE (option bytes) :=
  match v with
  | None => Ok None
  | Some (JStr s) => if non_empty (trim (lit s)) then Ok (Some (lit s)) else Err (BadField field)
  | Some _ => Err (BadField field)
  end.
Definition required_text (v : option Json) (field : string) : AE bytes :=
  match v ≫= json_text with
  | Some t => if non_empty (trim t) then Ok t else Err (BadField field)
  | None => Err (BadField field)
  end.
Definition positive_u64 (v : option Json) (field : string) : AE Z :=
  match v ≫= json_as_u64 with
  | Some n => if 0 <? n then Ok n else Err (BadField field)
  | None => Err (BadField field)
  end.
Definition parse_audio_type (v : option Json) : AE AudioOperationType :=
  match v ≫= json_as_str with
  | Some s =>
      if String.eqb s "transcode_audio" then Ok TypeTranscodeAudio
      else if String.eqb s "extract_audio" then Ok TypeExtractAudio
      else if String.eqb s "synthesize_audio" then Ok TypeSynthesizeAudio
      else if String.eqb s "ensure_audio_compatibility" then Ok TypeEnsureAudioCompatibility
      else Err UnsupportedType
  | None => Err (BadField "type")
  end.
Definition parse_array {A} (from_value : Json -> option A) (v : option Json) (field : string) :
    AE (option (list A)) :=
  match v with
  | None => Ok None
  | Some (JArr l) => items ← ok_or (collect_opt from_value l) (BadField field); Ok (Some items)
  | Some _ => Err (BadField field)
  end.
Definition parse_compatibility (v : option Json) : AE (option AudioCompatibilityDescriptor) :=
  match v with
  | None => Ok None
  | Some v => d ← ok_or (compatibility_from_value v) (BadField "compatibility"); Ok (Some d)
  end.

Definition adds_a_track (t : AudioOperationType) : bool :=
  match t with TypeSynthesizeAudio | TypeEnsureAudioCompatibility => true | _ => false end.

Section checks.
Context `{Blake3Hex}.

Definition index_above (previous : option Z) (index : Z) : bool :=
  match previous with Some p => p <? index | None => true end.
Fixpoint valid_companions (operation_id : bytes) (cs : list SynthesizeAudioCompanionDescriptor)
    (sources : gset bytes) (indexes : gset Z) (results : gset bytes) (previous : option Z) : bool :=
  match cs with
  | [] => true
  | c :: cs' =>
      non_empty (trim (sc_source_id c))
      && eqb_text (sc_companion_id c) (synthesis_companion_id operation_id (sc_source_id c))
      && eqb_text (sc_result_id c) (sc_companion_id c)
      && negb (bool_decide (sc_source_id c ∈ sources))
      && negb (bool_decide (sc_source_index c ∈ indexes))
      && negb (bool_decide (sc_result_id c ∈ results))
      && index_above previous (sc_source_index c)
      && valid_companions operation_id cs' ({[sc_source_id c]} ∪ sources) ({[sc_source_index c]} ∪ indexes)
           ({[sc_result_id c]} ∪ results) (Some (sc_source_index c))
  end.
Definition validate_companions (operation_id : bytes) (cs : list SynthesizeAudioCompanionDescriptor) : AE unit :=
  if valid_companions operation_id cs ∅ ∅ ∅ None then Ok tt else Err InvalidCompanions.
Definition validate_synthesis_fields (t : AudioOperationType) (operation_id : option bytes)
    (companions : option (list SynthesizeAudioCompanionDescriptor)) : AE unit :=
  if negb (adds_a_track t) then
    match companions with Some _ => Err UnexpectedCompanions | None => Ok tt end
  else
    match operation_id, companions with
    | Some id, Some cs =>
        match cs with [] => Err MissingCompanions | _ => validate_companions id cs end
    | _, _ => Err MissingCompanions
    end.

Fixpoint valid_inventory (streams : list CompatibilityStreamIdentity) (ids : gset bytes)
    (previous : option Z) : bool :=
  match streams with
  | [] => true
  | s :: streams' =>
      non_empty (trim (cs_id s)) && negb (bool_decide (cs_id s ∈ ids)) && index_above previous (cs_index s)
      && valid_inventory streams' ({[cs_id s]} ∪ ids) (Some (cs_index s))
  end.
Definition validate_compatibility_descriptor (d : AudioCompatibilityDescriptor)
    (companions : option (list SynthesizeAudioCompanionDescriptor)) : AE unit :=
  if negb (valid_inventory (ac_retained_streams d) ∅ None) then Err InvalidInventory else
  let source_present :=
    existsb (fun s => eqb_text (cs_id s) (ac_source_id d) && (cs_index s =? ac_source_index d))
      (ac_retained_streams d) in
  match companions with
  | Some [c] =>
      if negb source_present || (ac_source_channels d =? 0)
         || negb (non_empty (trim (ac_source_channel_layout d)))
         || negb (non_empty (trim (ac_target_channel_layout d)))
         || bool_decide (ac_result_id d ∈ map cs_id (ac_retained_streams d))
         || negb (eqb_text (ac_source_id d) (sc_source_id c))
         || negb (ac_source_index d =? sc_source_index c)
         || negb (eqb_text (ac_result_id d) (sc_result_id c))
      then Err InvalidDescriptor else Ok tt
  | _ => Err InvalidDescriptor
  end.
Definition validate_compatibility_fields (p : AudioOperationPayload) (filter_present : bool) : AE unit :=
  match ap_operation_type p, ap_compatibility p with
  | TypeEnsureAudioCompatibility, None => Err InvalidDescriptor
  | TypeEnsureAudioCompatibility, Some d =>
      _ ← validate_compatibility_descriptor d (ap_companions p);
      if filter_present || match ap_outputs p with Some _ => true | None => false end
         || negb (eqb_text (ap_container p) (lit "mkv")) || negb (one_of ["aac"; "eac3"] (ap_target_codec p))
      then Err InvalidCompatibilityTarget else Ok tt
  | _, Some _ => Err UnexpectedCompatibility
  | _, None => Ok tt
  end.

Definition audio_try_from_execution_value (v : Json) : AE AudioOperationPayload :=
  object ← ok_or (json_as_object v) NotAnObject;
  operation_type ← parse_audio_type (json_get object "type");
  operation_id ← optional_non_empty_string (json_get object "operation_id") "operation_id";
  target_codec ← required_text (json_get object "target_codec") "target_codec";
  container ← required_text (json_get object "container") "container";
  source ← positive_u64 (json_get object "source_media_snapshot_id") "source_media_snapshot_id";
  filter ← match json_get object "filter" with
           | Some JNull | None => Ok None
           | Some v => f ← ok_or (TrackFilter_from_value v) (BadField "filter"); Ok (Some f)
           end;
  target_channels ← match json_get object "target_channels" with
                    | Some JNull | None => Ok None
                    | v => n ← positive_u64 v "target_channels"; Ok (Some n)
                    end;
  outputs ← parse_array output_from_value (json_get object "outputs") "outputs";
  companions ← parse_array companion_from_value (json_get object "companions") "companions";
  compatibility ← parse_compatibility (json_get object "compatibility");
  if adds_a_track operation_type && match target_channels with None => true | Some _ => false end
  then Err MissingTargetChannels else
  _ ← validate_synthesis_fields operation_type operation_id companions;
  let payload := {|
    ap_operation_type := operation_type; ap_operation_id := operation_id; ap_target_codec := target_codec;
    ap_container := container; ap_source_snapshot_id := Some source; ap_filter := filter;
    ap_outputs := outputs; ap_companions := companions; ap_target_channels := target_channels;
    ap_compatibility := compatibility |} in
  _ ← validate_compatibility_fields payload
        (match json_get object "filter" with Some _ => true | None => false end);
  Ok payload.
End checks.

(** ** The round trip *)

Definition output_ok (o : ExtractAudioOutputDescriptor) : bool := is_u32 (eo_source_index o).
Definition companion_ok (c : SynthesizeAudioCompanionDescriptor) : bool := is_u32 (sc_source_index c).
Definition descriptor_ok (d : AudioCompatibilityDescriptor) : bool :=
  is_u32 (ac_source_index d) && is_u32 (ac_source_channels d)
  && forallb (fun i => is_u32 (cs_index i)) (ac_retained_streams d).
Definition positive_ok (n : Z) : bool := is_u64 n && (0 <? n).

(** What a payload must be for an executor to take it. *)
Record audio_payload_ok `{Blake3Hex} (p : AudioOperationPayload) : Prop := {
  ao_operation_id : opt_ok stream_id_ok (ap_operation_id p) = true;
  ao_codec : stream_id_ok (ap_target_codec p) = true;
  ao_container : stream_id_ok (ap_container p) = true;
  ao_source : is_some (ap_source_snapshot_id p) && opt_ok positive_ok (ap_source_snapshot_id p) = true;
  ao_filter : opt_ok filter_numbers_ok (ap_filter p) = true;
  ao_outputs : opt_ok (forallb output_ok) (ap_outputs p) = true;
  ao_companions : opt_ok (forallb companion_ok) (ap_companions p) = true;
  ao_channels : opt_ok positive_ok (ap_target_channels p) = true;
  ao_descriptor : opt_ok descriptor_ok (ap_compatibility p) = true;
  ao_track_channels : adds_a_track (ap_operation_type p) = true -> is_some (ap_target_channels p) = true;
  ao_synthesis : validate_synthesis_fields (ap_operation_type p) (ap_operation_id p) (ap_companions p) = Ok tt;
  ao_compatibility : validate_compatibility_fields p (is_some (ap_filter p)) = Ok tt;
}.

Lemma json_as_u32_int n : is_u32 n = true -> json_as_u32 (JInt n) = Some n.
Proof.
  intros Hn. unfold json_as_u32, u32_try_from. cbn.
  assert (is_u64 n = true) as -> by (unfold is_u32, is_u64, u32_max, u64_max in *; lia). cbn. by rewrite Hn.
Qed.
Lemma lit_json_string t : lit (string_of_list_ascii t) = t.
Proof. apply list_ascii_of_string_of_list_ascii. Qed.

Lemma output_roundtrip o : output_ok o = true -> output_from_value (output_value o) = Some o.
Proof.
  intros Ho. destruct o as [a b c d e]. unfold output_from_value. cbn -[json_text json_string json_as_u32].
  rewrite !json_text_string. cbn -[json_as_u32]. rewrite json_as_u32_int by done. cbn. by destruct e.
Qed.
Lemma companion_roundtrip c : companion_ok c = true -> companion_from_value (companion_value c) = Some c.
Proof.
  intros Hc. destruct c as [a b n d]. unfold companion_from_value. cbn -[json_text json_string json_as_u32].
  rewrite !json_text_string. cbn -[json_as_u32]. by rewrite json_as_u32_int by done.
Qed.
Lemma compatibility_roundtrip d :
  descriptor_ok d = true -> compatibility_from_value (compatibility_value d) = Some d.
Proof.
  intros [[Hi Hc]%andb_true_iff Hl]%andb_true_iff. destruct d as [l a n ch e f g].
  unfold compatibility_from_value.
  match goal with |- context [struct_fields ?ns ?v] =>
    change (struct_fields ns v) with
      (Some [JArr (map identity_value l); json_string a; JInt n; JInt ch; json_string e; json_string f;
             json_string g]) end.
  cbn -[json_text json_string json_as_u32 collect_opt].
  rewrite (collect_opt_map identity_from_value identity_value l).
  - cbn -[json_text json_string json_as_u32]. rewrite !json_text_string. cbn -[json_as_u32].
    by rewrite !json_as_u32_int by done.
  - apply Forall_forall. intros i Hin. unfold identity_from_value.
    cbn -[json_text json_string json_as_u32]. rewrite json_text_string. cbn -[json_as_u32].
    cbn in Hl. rewrite forallb_forall in Hl. rewrite json_as_u32_int by (by apply Hl, list_elem_of_In).
    by destruct i.
Qed.

Lemma parse_array_roundtrip {A} (from_value : Json -> option A) (value : A -> Json) (ok : A -> bool) o field :
  (forall x, ok x = true -> from_value (value x) = Some x) -> opt_ok (forallb ok) o = true ->
  parse_array from_value ((fun l => JArr (map value l)) <$> o) field = Ok o.
Proof.
  intros Hr. destruct o as [l|]; [|done]. cbn. intros Hl. rewrite collect_opt_map; [done|].
  apply Forall_forall. intros x Hx. rewrite forallb_forall in Hl. by apply Hr, Hl, list_elem_of_In.
Qed.

(** The members of a written payload. *)
Lemma assoc_str_app {A} k (a b : list (string * A)) :
  assoc_str k (a ++ b) = match assoc_str k a with Some v => Some v | None => assoc_str k b end.
Proof. induction a as [|[k' v] a IH]; [done|]. cbn. by destruct (String.eqb k k'). Qed.
Lemma assoc_str_optional {A} k' (value : A -> Json) o k :
  assoc_str k (optional_member k' value o) = if String.eqb k k' then value <$> o else None.
Proof. destruct o; cbn; by destruct (String.eqb k k'). Qed.

Ltac read_member :=
  unfold audio_into_value; cbn [json_get]; rewrite !assoc_str_app, !assoc_str_optional; cbn -[TrackFilter_to_value compatibility_value json_string];
  repeat match goal with |- context [match ?value <$> ?o with _ => _ end] => destruct o; cbn -[TrackFilter_to_value compatibility_value json_string] end; try done.
Lemma audio_members p :
  let v := audio_into_value p in
  json_get v "type" = Some (JStr (AudioOperationType_as_str (ap_operation_type p)))
  /\ json_get v "operation_id" = json_string <$> ap_operation_id p
  /\ json_get v "target_codec" = Some (json_string (ap_target_codec p))
  /\ json_get v "container" = Some (json_string (ap_container p))
  /\ json_get v "source_media_snapshot_id" = JInt <$> ap_source_snapshot_id p
  /\ json_get v "filter" = TrackFilter_to_value <$> ap_filter p
  /\ json_get v "target_channels" = JInt <$> ap_target_channels p
  /\ json_get v "outputs" = (fun l => JArr (map output_value l)) <$> ap_outputs p
  /\ json_get v "companions" = (fun l => JArr (map companion_value l)) <$> ap_companions p
  /\ json_get v "compatibility" = compatibility_value <$> ap_compatibility p.
Proof. cbn zeta. split_and!; read_member. Qed.

Lemma text_roundtrip t field :
  stream_id_ok t = true -> required_text (Some (json_string t)) field = Ok t.
Proof. unfold required_text, stream_id_ok. cbn -[json_text json_string]. rewrite json_text_string. by intros ->. Qed.
Lemma positive_roundtrip n field : positive_ok n = true -> positive_u64 (Some (JInt n)) field = Ok n.
Proof. unfold positive_u64. intros [H1 H2]%andb_true_iff. cbn. by rewrite H1, H2. Qed.
Lemma operation_id_roundtrip o field :
  opt_ok stream_id_ok o = true -> optional_non_empty_string (json_string <$> o) field = Ok o.
Proof. destruct o as [t|]; [|done]. cbn -[lit]. rewrite lit_json_string. unfold stream_id_ok. by intros ->. Qed.
Lemma audio_type_roundtrip t : parse_audio_type (Some (JStr (AudioOperationType_as_str t))) = Ok t.
Proof. by destruct t. Qed.
Lemma filter_member_roundtrip o :
  opt_ok filter_numbers_ok o = true ->
  match TrackFilter_to_value <$> o with
  | Some JNull | None => Ok None
  | Some v => f ← ok_or (TrackFilter_from_value v) (BadField "filter"); Ok (Some f)
  end = Ok o.
Proof.
  destruct o as [f|]; [|done]. cbn -[TrackFilter_to_value TrackFilter_from_value]. intros Hf.
  destruct (filter_value_object f) as [ms Hms]. pose proof (filter_value_roundtrip f Hf) as Hr.
  rewrite Hms in *. cbn -[TrackFilter_from_value]. by rewrite Hr.
Qed.
Lemma channels_member_roundtrip o :
  opt_ok positive_ok o = true ->
  match JInt <$> o with
  | Some JNull | None => Ok None
  | v => n ← positive_u64 v "target_channels"; Ok (Some n)
  end = Ok o.
Proof. destruct o as [n|]; [|done]. cbn -[positive_u64]. intros Hn. by rewrite positive_roundtrip. Qed.
Lemma compatibility_member_roundtrip o :
  opt_ok descriptor_ok o = true -> parse_compatibility (compatibility_value <$> o) = Ok o.
Proof.
  destruct o as [d|]; [|done]. cbn -[compatibility_from_value compatibility_value]. intros Hd.
  by rewrite compatibility_roundtrip.
Qed.

(** A payload an executor can take is read back unchanged. *)
Lemma audio_payload_reads_back `{Blake3Hex} p :
  audio_payload_ok p -> audio_try_from_execution_value (audio_into_value p) = Ok p.
Proof.
  intros [H1 H2 H3 H4 H5 H6 H7 H8 H9 H10 H11 H12].
  destruct (audio_members p) as (M1 & M2 & M3 & M4 & M5 & M6 & M7 & M8 & M9 & M10).
  unfold audio_try_from_execution_value.
  change (json_as_object (audio_into_value p)) with (Some (audio_into_value p)). cbn [ok_or mbind result_mbind].
  rewrite M1, M2, M3, M4, M5, M6, M7, M8, M9, M10, audio_type_roundtrip. cbn [mbind result_mbind].
  rewrite operation_id_roundtrip by done. cbn [mbind result_mbind]. rewrite !text_roundtrip by done.
  cbn [mbind result_mbind]. destruct (ap_source_snapshot_id p) as [id|] eqn:Hid; [|done]. cbn [fmap option_fmap option_map].
  rewrite positive_roundtrip by done. cbn [mbind result_mbind].
  rewrite filter_member_roundtrip by done. cbn [mbind result_mbind].
  rewrite channels_member_roundtrip by done. cbn [mbind result_mbind].
  rewrite (parse_array_roundtrip output_from_value output_value output_ok) by (done || apply output_roundtrip).
  cbn [mbind result_mbind].
  rewrite (parse_array_roundtrip companion_from_value companion_value companion_ok)
    by (done || apply companion_roundtrip). cbn [mbind result_mbind].
  rewrite compatibility_member_roundtrip by done. cbn [mbind result_mbind].
  assert (adds_a_track (ap_operation_type p)
          && match ap_target_channels p with None => true | Some _ => false end = false) as ->.
  { destruct (adds_a_track _); [|done]. specialize (H10 eq_refl). by destruct (ap_target_channels p). }
  rewrite H11. cbn [mbind result_mbind].
  assert (match TrackFilter_to_value <$> ap_filter p with Some _ => true | None => false end
          = is_some (ap_filter p)) as -> by (by destruct (ap_filter p)).
  destruct p as [t oid codec c src f outs comps ch compat]; cbn in *. subst src. by rewrite H12.
Qed.
