(* ===== verification/AudioCompat.v ===== *)
(** * Compatibility audio

    [voom-plan/src/planner/audio/compatibility.rs]: the stream an [ensure audio
    compatibility] derives a companion from, the codec and layout of the
    companion, and the companion that is already there. The association of a
    companion with its source is recorded on the companion's stream. Error
    details (texts) are left out. *)

From Stdlib Require Import ZArith Lia Bool String Ascii.
From stdpp Require Import base gmap strings list sorting.
From S2P Require Import Prelude Json Bytes PolicySyntax Encoders TrackFilters PolicyCompiled.
From S2P Require Import PlanModel PlanStreams AudioStreams AudioPayload.

Open Scope Z_scope.

Record AudioCompatibilityTarget := {
  ct_codec : bytes;
  ct_channels : Z;
  ct_channel_layout : bytes;
}.
Record AudioCompatibilityResolution := {
  cr_retained_streams : list CompatibilityStreamIdentity;
  cr_source_id : bytes;
  cr_source_index : Z;
  cr_source_channels : Z;
  cr_source_channel_layout : bytes;
  cr_target : AudioCompatibilityTarget;
  cr_resolved_id : option bytes;
}.
Inductive AudioCompatibilityError :=
  | InvalidFacts
  | NoEligibleSource
  | UnsupportedLayout (channels : Z) (layout : bytes)
  | InvalidAssociation.
Abbreviation CR := (result AudioCompatibilityError).

(** ** The companion's codec and layout *)

Definition compatibility_codec (channels : Z) (layout : bytes) : option string :=
  if ((channels =? 1) && one_of ["mono"] layout) || ((channels =? 2) && one_of ["stereo"] layout)
  then Some "aac"
  else if ((channels =? 3) && one_of ["2.1"; "3.0"; "3.0(back)"] layout)
          || ((channels =? 4)
              && one_of ["3.1"; "4.0"; "quad"; "quad(side)"; "4 channels (FL+FR+LFE+BC)"] layout)
          || ((channels =? 5) && one_of ["4.1"; "5.0"; "5.0(side)"] layout)
          || ((channels =? 6) && one_of ["5.1"; "5.1(side)"] layout)
          || ((channels =? 8) && one_of ["7.1"] layout)
  then Some "eac3"
  else None%string.
Definition canonical_layout (layout : bytes) : bytes :=
  if eqb_text layout (lit "quad") then lit "quad(side)"
  else if eqb_text layout (lit "5.0") then lit "5.0(side)"
  else if one_of ["5.1"; "7.1"] layout then lit "5.1(side)"
  else layout.
Definition compatibility_target (channels : Z) (layout : bytes) : CR AudioCompatibilityTarget :=
  match compatibility_codec channels layout with
  | None => Err (UnsupportedLayout channels layout)
  | Some codec =>
      Ok {| ct_codec := lit codec; ct_channels := if channels =? 8 then 6 else channels;
            ct_channel_layout := canonical_layout layout |}
  end.

(** ** Facts of a stream *)

Definition compat_text (stream : Json) (key : string) : CR bytes :=
  match json_get stream key ≫= json_text with
  | Some t => if non_empty (trim t) then Ok t else Err InvalidFacts
  | None => Err InvalidFacts
  end.
Definition association (stream : Json) : CR (option bytes) :=
  match json_get stream "compatibility_source_snapshot_stream_id" with
  | None => Ok None
  | Some (JStr id) => if non_empty (trim (lit id)) then Ok (Some (lit id)) else Err InvalidAssociation
  | Some _ => Err InvalidAssociation
  end.
Definition compat_language (stream : Json) : CR bytes :=
  if match json_get stream "compatibility_invalid_language" with
     | None | Some (JBool false) => false
     | Some _ => true
     end then Err InvalidFacts else
  match json_get stream "language" with
  | None => Ok (lit "und")
  | Some (JStr v) => if is_canonical_language_code (lit v) then Ok (lit v) else Err InvalidFacts
  | Some _ => Err InvalidFacts
  end.
Definition compat_channels (stream : Json) : CR Z :=
  match json_get stream "channels" ≫= json_as_u32 with
  | Some n => if 0 <? n then Ok n else Err InvalidFacts
  | None => Err InvalidFacts
  end.
Definition commentary_value (stream : Json) : option Json :=
  match json_path stream ["disposition"; "commentary"] with
  | Some v => Some v
  | None => json_path stream ["disposition"; "comment"]
  end%string.
Definition compat_commentary (stream : Json) : CR bool :=
  ok_or (commentary_value stream ≫= json_as_bool) InvalidFacts.

(** A fact that is there must be one. *)
Definition when_present {A} (v : option Json) (check : CR A) : CR unit :=
  match v with None => Ok tt | Some _ => _ ← check; Ok tt end.
Definition validate_present_audio_facts (stream : Json) : CR unit :=
  _ ← when_present (json_get stream "channels") (compat_channels stream);
  _ ← when_present (json_get stream "codec_name") (compat_text stream "codec_name");
  _ ← when_present (json_get stream "channel_layout") (compat_text stream "channel_layout");
  when_present (commentary_value stream) (compat_commentary stream).

(** ** The streams of a snapshot *)

Record Inventory := {
  by_id : gmap bytes Json;
  inv_indexes : gset Z;
  originals : list (Z * Z * Json);
  derived : list (bytes * Json);
  retained : list CompatibilityStreamIdentity;
}.
Definition empty_inventory : Inventory :=
  {| by_id := ∅; inv_indexes := ∅; originals := []; derived := []; retained := [] |}.
Definition with_identity (inv : Inventory) (id : bytes) (index : Z) (stream : Json) : Inventory := {|
  by_id := <[id := stream]> (by_id inv); inv_indexes := {[index]} ∪ inv_indexes inv;
  originals := originals inv; derived := derived inv;
  retained := retained inv ++ [{| cs_id := id; cs_index := index |}] |}.
Definition with_derived (inv : Inventory) (source_id : bytes) (stream : Json) : Inventory := {|
  by_id := by_id inv; inv_indexes := inv_indexes inv; originals := originals inv;
  derived := derived inv ++ [(source_id, stream)]; retained := retained inv |}.
Definition with_original (inv : Inventory) (rank index : Z) (stream : Json) : Inventory := {|
  by_id := by_id inv; inv_indexes := inv_indexes inv;
  originals := originals inv ++ [(rank, index, stream)]; derived := derived inv;
  retained := retained inv |}.

(** One round of the loop over the streams. *)
Definition take_stream (inv : Inventory) (stream : Json) : CR Inventory :=
  id ← compat_text stream "id";
  index ← ok_or (json_get stream "index" ≫= json_as_u32) InvalidFacts;
  if match by_id inv !! id with Some _ => true | None => false end
     || bool_decide (index ∈ inv_indexes inv) then Err InvalidFacts else
  let inv := with_identity inv id index stream in
  kind ← compat_text stream "kind";
  if negb (eqb_text kind (lit "audio")) then Ok inv else
  _ ← validate_present_audio_facts stream;
  source ← association stream;
  match source with
  | Some source_id => Ok (with_derived inv source_id stream)
  | None =>
      lang ← compat_language stream;
      if one_of ["eng"; "und"]%string lang then
        comment ← compat_commentary stream;
        if negb comment then
          Ok (with_original inv (if eqb_text lang (lit "eng") then 0 else 1) index stream)
        else Ok inv
      else Ok inv
  end.
Fixpoint take_streams (inv : Inventory) (streams : list Json) : CR Inventory :=
  match streams with
  | [] => Ok inv
  | s :: streams' => inv ← take_stream inv s; take_streams inv streams'
  end.

Definition validate_association (ids : gmap bytes Json) (d : bytes * Json) : CR unit :=
  source ← ok_or (ids !! d.1) InvalidAssociation;
  kind ← compat_text source "kind";
  if negb (eqb_text kind (lit "audio")) then Err InvalidAssociation else
  a ← association source;
  match a with
  | Some _ => Err InvalidAssociation
  | None =>
      id ← compat_text d.2 "id";
      if eqb_text id d.1 then Err InvalidAssociation else Ok tt
  end.
Fixpoint validate_associations (ds : list (bytes * Json)) (ids : gmap bytes Json) : CR unit :=
  match ds with
  | [] => Ok tt
  | d :: ds' => _ ← validate_association ids d; validate_associations ds' ids
  end.

(** The pair of rank and index; an index is below [2 ^ 32]. *)
Definition original_key (o : Z * Z * Json) : Z := o.1.1 * 2 ^ 32 + o.1.2.

(** The companion of the source, where it is what the target asks for. *)
Definition associated_companion (companion source : Json) (target : AudioCompatibilityTarget) :
    CR (option bytes) :=
  codec ← compat_text companion "codec_name";
  if negb (eqb_text codec (ct_codec target)) then Err InvalidAssociation else
  channels ← compat_channels companion;
  if negb (channels =? ct_channels target) then Err InvalidAssociation else
  layout ← compat_text companion "channel_layout";
  if negb (eqb_text layout (ct_channel_layout target)) then Err InvalidAssociation else
  lang ← compat_language companion;
  source_lang ← compat_language source;
  if negb (eqb_text lang source_lang) then Err InvalidAssociation else
  comment ← compat_commentary companion;
  if comment : bool then Err InvalidAssociation else
  id ← compat_text companion "id";
  Ok (Some id).

Definition resolve_streams (streams : list Json) : CR AudioCompatibilityResolution :=
  inv ← take_streams empty_inventory streams;
  _ ← validate_associations (derived inv) (by_id inv);
  first ← ok_or (head (sort_by_key original_key (originals inv))) NoEligibleSource;
  let '(_, index, source) := first in
  source_id ← compat_text source "id";
  source_channels ← compat_channels source;
  source_layout ← compat_text source "channel_layout";
  source_codec ← compat_text source "codec_name";
  target ← compatibility_target source_channels source_layout;
  associated ← match List.filter (fun d => eqb_text d.1 source_id) (derived inv) with
               | [] => Ok None
               | [(_, companion)] => associated_companion companion source target
               | _ => Err InvalidAssociation
               end;
  let original_matches :=
    eqb_text source_codec (ct_codec target) && (source_channels =? ct_channels target) in
  Ok {| cr_retained_streams := sort_by_key cs_index (retained inv);
        cr_source_id := source_id; cr_source_index := index; cr_source_channels := source_channels;
        cr_source_channel_layout := source_layout; cr_target := target;
        cr_resolved_id := if original_matches then Some source_id else associated |}.
Definition resolve_audio_compatibility (snapshot : MediaSnapshotInput) : CR AudioCompatibilityResolution :=
  streams ← ok_or (summary_streams snapshot) InvalidFacts;
  resolve_streams streams.

(** ** What the inventory promises *)

Lemma compat_text_ok stream key t : compat_text stream key = Ok t -> non_empty (trim t) = true.
Proof.
  unfold compat_text. destruct (json_get stream key ≫= json_text) as [t'|]; [|done].
  destruct (non_empty (trim t')) eqn:E; congruence.
Qed.
Lemma compat_channels_ok stream n : compat_channels stream = Ok n -> is_u32 n = true /\ 0 < n.
Proof.
  unfold compat_channels. destruct (json_get stream "channels" ≫= json_as_u32) as [m|] eqn:E; [|done].
  apply json_as_u32_ok in E. destruct (0 <? m) eqn:H0; [|done]. intros [= <-]. split; [done|lia].
Qed.

(** An original stream in an inventory. *)
Record original_in (inv : Inventory) (o : Z * Z * Json) : Prop := {
  oi_identity : exists id, compat_text o.2 "id" = Ok id /\ by_id inv !! id = Some o.2
                        /\ {| cs_id := id; cs_index := o.1.2 |} ∈ retained inv;
  oi_kind : compat_text o.2 "kind" = Ok (lit "audio");
  oi_association : association o.2 = Ok None;
  oi_language : exists lang, compat_language o.2 = Ok lang
                  /\ o.1.1 = (if eqb_text lang (lit "eng") then 0 else 1);
  oi_commentary : compat_commentary o.2 = Ok false;
}.
Record inventory_ok (inv : Inventory) : Prop := {
  io_ids : NoDup (map cs_id (retained inv));
  io_indexes : NoDup (map cs_index (retained inv));
  io_known : forall s, s ∈ retained inv ->
    is_Some (by_id inv !! cs_id s) /\ cs_index s ∈ inv_indexes inv
    /\ non_empty (trim (cs_id s)) = true /\ is_u32 (cs_index s) = true;
  io_by_id : forall id stream, by_id inv !! id = Some stream -> compat_text stream "id" = Ok id;
  io_originals : Forall (original_in inv) (originals inv);
}.

Lemma original_in_mono inv inv' o :
  (forall id s, by_id inv !! id = Some s -> by_id inv' !! id = Some s) ->
  (forall s, s ∈ retained inv -> s ∈ retained inv') -> original_in inv o -> original_in inv' o.
Proof.
  intros H1 H2 [(id & Hid & Hb & Hr) ? ? ? ?]. split; try done. exists id. split_and!; [done|by apply H1|by apply H2].
Qed.

(** What one round does, case by case. *)
Lemma take_stream_cases inv stream inv' :
  take_stream inv stream = Ok inv' ->
  exists id index, compat_text stream "id" = Ok id
  /\ json_get stream "index" ≫= json_as_u32 = Some index
  /\ by_id inv !! id = None /\ (index ∉ inv_indexes inv)
  /\ (inv' = with_identity inv id index stream
      \/ (exists src, inv' = with_derived (with_identity inv id index stream) src stream)
      \/ (exists rank, inv' = with_original (with_identity inv id index stream) rank index stream
          /\ (original_in inv' (rank, index, stream)))).
Proof.
  unfold take_stream. intros (id & Hid & (index & Hix%ok_or_ok & H)%result_bind_ok)%result_bind_ok.
  exists id, index. destruct (by_id inv !! id) as [s|] eqn:Hb; [done|]. cbn [orb] in H.
  case_bool_decide as Hi; [done|]. split_and!; [done|done|done|done|].
  apply result_bind_ok in H as (kind & Hk & H).
  destruct (eqb_text kind (lit "audio")) eqn:Ea; cbn [negb] in H; [|injection H as <-; by left].
  apply eqb_text_true in Ea as ->. apply result_bind_ok in H as (u & _ & (src & Hsrc & H)%result_bind_ok).
  destruct src as [src|]; [injection H as <-; right; left; by exists src|].
  apply result_bind_ok in H as (lang & Hl & H).
  destruct (one_of ["eng"; "und"]%string lang); [|injection H as <-; by left].
  apply result_bind_ok in H as (c & Hc & H). destruct c; cbn [negb] in H; [injection H as <-; by left|injection H as <-].
  right. right. eexists. split; [reflexivity|]. split; cbn -[lit]; try done; [|by exists lang].
  exists id. split_and!; [done|by rewrite lookup_insert_eq|]. apply elem_of_app. right. left.
Qed.

Lemma with_identity_ok inv id index stream :
  inventory_ok inv -> compat_text stream "id" = Ok id ->
  json_get stream "index" ≫= json_as_u32 = Some index ->
  by_id inv !! id = None -> (index ∉ inv_indexes inv) ->
  inventory_ok (with_identity inv id index stream).
Proof.
  intros [H1 H2 H3 H4 H5] Hid Hix Hb Hi. split; cbn.
  - rewrite map_app. apply NoDup_app. split_and!; [done| |by apply NoDup_singleton].
    intros x (s & He & Hs)%list_elem_of_fmap Hx%list_elem_of_singleton.
    destruct (H3 s Hs) as [[? ?] _]. cbn in Hx. congruence.
  - rewrite map_app. apply NoDup_app. split_and!; [done| |by apply NoDup_singleton].
    intros x (s & He & Hs)%list_elem_of_fmap Hx%list_elem_of_singleton.
    destruct (H3 s Hs) as (_ & Hin & _). cbn in Hx. congruence.
  - intros s [Hs| ->%list_elem_of_singleton]%elem_of_app.
    + destruct (H3 s Hs) as ([v Hv] & Hin & ? & ?). split_and!; [|set_solver|done|done].
      rewrite lookup_insert_ne; [by eexists|]. congruence.
    + cbn. rewrite lookup_insert_eq. split_and!; [by eexists|set_solver|by eapply compat_text_ok|by eapply json_as_u32_ok].
  - intros id' s'. destruct (decide (id = id')) as [->|Hne].
    + rewrite lookup_insert_eq. by intros [= <-].
    + rewrite lookup_insert_ne by done. apply H4.
  - eapply Forall_impl; [exact H5|]. intros o. apply original_in_mono; cbn.
    + intros id' s' Hs'. rewrite lookup_insert_ne; [done|congruence].
    + intros s Hs. apply elem_of_app. by left.
Qed.

Lemma take_stream_ok inv stream inv' :
  inventory_ok inv -> take_stream inv stream = Ok inv' -> inventory_ok inv'.
Proof.
  intros Hok (id & index & Hid & Hix & Hb & Hi & Hcases)%take_stream_cases.
  pose proof (with_identity_ok inv id index stream Hok Hid Hix Hb Hi) as Hw.
  destruct Hcases as [->|[[src ->]|(rank & -> & Ho)]]; [done|..]; destruct Hw as [H1 H2 H3 H4 H5].
  - split; try done. eapply Forall_impl; [exact H5|]. intros o. by apply original_in_mono.
  - split; try done. cbn [originals with_original]. apply Forall_app. split; [|by constructor].
    eapply Forall_impl; [exact H5|]. intros o. by apply original_in_mono.
Qed.
Lemma take_streams_ok inv streams inv' :
  inventory_ok inv -> take_streams inv streams = Ok inv' -> inventory_ok inv'.
Proof.
  revert inv. induction streams as [|s streams IH]; intros inv Hok; cbn; [by intros [= <-]|].
  intros (inv1 & H1 & H2)%result_bind_ok. eapply IH; [|exact H2]. by eapply take_stream_ok.
Qed.
Lemma empty_inventory_ok : inventory_ok empty_inventory.
Proof.
  split; cbn; try by constructor.
  - by intros s ?%elem_of_nil.
  - intros id s. by rewrite lookup_empty.
Qed.

(** ** The resolution *)

(** What a resolution was made from. *)
Record resolution_of (inv : Inventory) (source : Json) (r : AudioCompatibilityResolution) : Prop := {
  ro_associations : validate_associations (derived inv) (by_id inv) = Ok tt;
  ro_source : exists rank, head (sort_by_key original_key (originals inv)) = Some (rank, cr_source_index r, source);
  ro_id : compat_text source "id" = Ok (cr_source_id r);
  ro_channels : compat_channels source = Ok (cr_source_channels r);
  ro_layout : compat_text source "channel_layout" = Ok (cr_source_channel_layout r);
  ro_target : compatibility_target (cr_source_channels r) (cr_source_channel_layout r) = Ok (cr_target r);
  ro_retained : cr_retained_streams r = sort_by_key cs_index (retained inv);
  ro_resolved : exists codec associated, compat_text source "codec_name" = Ok codec
    /\ match List.filter (fun d => eqb_text d.1 (cr_source_id r)) (derived inv) with
       | [] => Ok None
       | [(_, companion)] => associated_companion companion source (cr_target r)
       | _ => Err InvalidAssociation
       end = Ok associated
    /\ cr_resolved_id r = if eqb_text codec (ct_codec (cr_target r))
                             && (cr_source_channels r =? ct_channels (cr_target r))
                          then Some (cr_source_id r) else associated;
}.

Lemma resolve_streams_of streams r :
  resolve_streams streams = Ok r ->
  exists inv source, take_streams empty_inventory streams = Ok inv /\ resolution_of inv source r.
Proof.
  unfold resolve_streams. intros (inv & Hinv & ([] & Ha & ([[rank index] source] & Hf%ok_or_ok & H)%result_bind_ok)%result_bind_ok)%result_bind_ok.
  exists inv, source. split; [done|].
  apply result_bind_ok in H as (id & Hid & (ch & Hch & (layout & Hl & (codec & Hc & H)%result_bind_ok)%result_bind_ok)%result_bind_ok).
  apply result_bind_ok in H as (target & Ht & (associated & Has & [= <-])%result_bind_ok).
  split; cbn [cr_source_index cr_source_id cr_source_channels cr_source_channel_layout cr_target
              cr_retained_streams cr_resolved_id]; try done.
  - by exists rank.
  - by exists codec, associated.
Qed.
Lemma resolution_of_resolves streams inv source r :
  take_streams empty_inventory streams = Ok inv -> resolution_of inv source r -> resolve_streams streams = Ok r.
Proof.
  intros Hinv [Ha [rank Hf] Hid Hch Hl Ht Hr (codec & associated & Hc & Has & Hres)].
  unfold resolve_streams. rewrite Hinv. cbn [mbind result_mbind]. rewrite Ha. cbn [mbind result_mbind].
  rewrite Hf. cbn [ok_or mbind result_mbind]. rewrite Hid. cbn [mbind result_mbind]. rewrite Hch.
  cbn [mbind result_mbind]. rewrite Hl. cbn [mbind result_mbind]. rewrite Hc. cbn [mbind result_mbind].
  rewrite Ht. cbn [mbind result_mbind]. rewrite Has. cbn [mbind result_mbind].
  destruct r; cbn in *. by rewrite Hr, Hres.
Qed.

Lemma resolution_source inv source r :
  inventory_ok inv -> resolution_of inv source r ->
  exists rank, original_in inv (rank, cr_source_index r, source).
Proof.
  intros Hok Hr. destruct (ro_source _ _ _ Hr) as [rank Hh]. exists rank.
  pose proof (io_originals _ Hok) as Ho. rewrite Forall_forall in Ho. apply Ho.
  rewrite <- (sort_by_key_perm original_key). destruct (sort_by_key _ _); [done|]. injection Hh as ->. left.
Qed.

(** ** The descriptor of a resolution *)

Lemma valid_inventory_sorted l ids prev :
  NoDup (map cs_id l) -> NoDup (map cs_index l) -> StronglySorted (fun a b => cs_index a <= cs_index b) l ->
  Forall (fun s => non_empty (trim (cs_id s)) = true /\ (cs_id s ∉ ids)
                   /\ index_above prev (cs_index s) = true) l ->
  valid_inventory l ids prev = true.
Proof.
  intros Hnd1 Hnd2 Hs. revert ids prev. induction Hs as [|s l Hs IH Hall]; intros ids prev Hok; [done|].
  cbn. inversion_clear Hok as [|? ? (Ht & Hid & Hix) Hrest]. inversion_clear Hnd1 as [|? ? Hn1 Hnd1'].
  inversion_clear Hnd2 as [|? ? Hn2 Hnd2']. rewrite Ht, Hix, bool_decide_eq_false_2 by done. cbn.
  apply IH; [done|done|]. rewrite Forall_forall in Hrest, Hall |- *. intros y Hy.
  destruct (Hrest y Hy) as (Htx & Hidx & _). split_and!; [done| |].
  - intros [He%elem_of_singleton|?]%elem_of_union; [|done]. apply Hn1. apply list_elem_of_fmap. eauto.
  - cbn. specialize (Hall y Hy). cbn in Hall. apply Z.ltb_lt.
    assert (cs_index y <> cs_index s); [|lia]. intros He. apply Hn2. rewrite <- He.
    apply list_elem_of_fmap. eauto.
Qed.

Lemma resolution_inventory inv source r :
  inventory_ok inv -> resolution_of inv source r ->
  valid_inventory (cr_retained_streams r) ∅ None = true
  /\ {| cs_id := cr_source_id r; cs_index := cr_source_index r |} ∈ cr_retained_streams r
  /\ forallb (fun i => is_u32 (cs_index i)) (cr_retained_streams r) = true.
Proof.
  intros Hok Hr. rewrite (ro_retained _ _ _ Hr). pose proof (sort_by_key_perm cs_index (retained inv)) as Hp.
  destruct Hok as [H1 H2 H3 H4 H5]. split_and!.
  - apply valid_inventory_sorted; [by rewrite Hp|by rewrite Hp|apply sort_by_key_sorted|].
    apply Forall_forall. intros s. rewrite Hp. intros (_ & _ & Ht & _)%H3. split_and!; [done|set_solver|done].
  - rewrite Hp. destruct (resolution_source inv source r) as [rank [(id & Hid & _ & Hin) _ _ _ _]]; [by split|done|].
    cbn in Hid, Hin. rewrite (ro_id _ _ _ Hr) in Hid. by injection Hid as ->.
  - apply forallb_forall. intros s Hs%list_elem_of_In. rewrite Hp in Hs. by apply H3 in Hs as (_ & _ & _ & ?).
Qed.

(** ** Convergence *)

(** Where the entries of an inventory come from. *)
Record inventory_from (streams : list Json) (inv : Inventory) : Prop := {
  if_by_id : forall id s, by_id inv !! id = Some s -> s ∈ streams;
  if_indexes : forall i, i ∈ inv_indexes inv -> exists s, s ∈ streams /\ json_get s "index" ≫= json_as_u32 = Some i;
  if_streams : forall s, s ∈ streams -> exists id, compat_text s "id" = Ok id /\ by_id inv !! id = Some s;
}.
Lemma take_streams_app inv a b :
  take_streams inv (a ++ b) = (inv' ← take_streams inv a; take_streams inv' b).
Proof.
  revert inv. induction a as [|s a IH]; intros inv; [done|]. cbn. destruct (take_stream inv s); [|done]. apply IH.
Qed.
Lemma take_stream_from streams inv s inv' :
  inventory_from streams inv -> take_stream inv s = Ok inv' -> inventory_from (streams ++ [s]) inv'.
Proof.
  intros [H1 H2 H3] (id & index & Hid & Hix & Hb & Hi & Hcases)%take_stream_cases.
  assert (inventory_from (streams ++ [s]) (with_identity inv id index s)) as [K1 K2 K3].
  { split; cbn.
    - intros id' s'. destruct (decide (id = id')) as [->|Hne].
      + rewrite lookup_insert_eq. intros [= <-]. set_solver.
      + rewrite lookup_insert_ne by done. intros Hs'%H1. set_solver.
    - intros i [->%elem_of_singleton|Hin]%elem_of_union; [exists s; set_solver|].
      destruct (H2 i Hin) as (s' & Hs' & He). exists s'. set_solver.
    - intros s' [Hs'| ->%list_elem_of_singleton]%elem_of_app.
      + destruct (H3 s' Hs') as (id' & Hid' & Hb'). exists id'. split; [done|].
        rewrite lookup_insert_ne; [done|congruence].
      + exists id. by rewrite lookup_insert_eq. }
  destruct Hcases as [->|[[src ->]|(rank & -> & _)]]; split; done.
Qed.
Lemma take_streams_from streams inv more inv' :
  inventory_from streams inv -> take_streams inv more = Ok inv' -> inventory_from (streams ++ more) inv'.
Proof.
  revert streams inv. induction more as [|s more IH]; intros streams inv Hf; cbn.
  { intros [= <-]. by rewrite app_nil_r. }
  intros (inv1 & H1 & H2)%result_bind_ok. replace (streams ++ s :: more) with ((streams ++ [s]) ++ more)
    by (by rewrite <- app_assoc). eapply IH; [|exact H2]. by eapply take_stream_from.
Qed.
Lemma empty_from : inventory_from [] empty_inventory.
Proof. split; cbn; [intros id s; by rewrite lookup_empty|set_solver|set_solver]. Qed.

Lemma validate_associations_app ds ds' ids :
  validate_associations (ds ++ ds') ids
  = (_ ← validate_associations ds ids; validate_associations ds' ids).
Proof. induction ds as [|d ds IH]; [done|]. cbn. destruct (validate_association ids d); [|done]. apply IH. Qed.
Lemma validate_associations_insert ds ids id s :
  ids !! id = None -> validate_associations ds ids = Ok tt -> validate_associations ds (<[id := s]> ids) = Ok tt.
Proof.
  intros Hid. induction ds as [|d ds IH]; [done|]. cbn. intros (u & Hd & H)%result_bind_ok.
  assert (validate_association (<[id := s]> ids) d = Ok u) as ->; [|by apply IH].
  unfold validate_association in *. destruct (ids !! d.1) as [source|] eqn:Hs; [|done].
  rewrite lookup_insert_ne, Hs; [done|]. congruence.
Qed.

(** A stream that is the companion a resolution asks for. *)
Record companion_of (r : AudioCompatibilityResolution) (streams : list Json) (id : bytes) (c : Json) : Prop := {
  co_id : compat_text c "id" = Ok id;
  co_new_id : forall s, s ∈ streams -> compat_text s "id" <> Ok id;
  co_index : exists index, json_get c "index" ≫= json_as_u32 = Some index
             /\ forall s, s ∈ streams -> json_get s "index" ≫= json_as_u32 <> Some index;
  co_kind : compat_text c "kind" = Ok (lit "audio");
  co_source : association c = Ok (Some (cr_source_id r));
  co_codec : compat_text c "codec_name" = Ok (ct_codec (cr_target r));
  co_channels : compat_channels c = Ok (ct_channels (cr_target r));
  co_layout : compat_text c "channel_layout" = Ok (ct_channel_layout (cr_target r));
  co_language : forall s, s ∈ streams -> compat_text s "id" = Ok (cr_source_id r) ->
                compat_language c = compat_language s;
  co_commentary : compat_commentary c = Ok false;
}.

Lemma companion_taken r streams inv source id c :
  inventory_ok inv -> inventory_from streams inv -> resolution_of inv source r ->
  companion_of r streams id c -> exists index,
  take_stream inv c = Ok (with_derived (with_identity inv id index c) (cr_source_id r) c)
  /\ by_id inv !! id = None.
Proof.
  intros Hok Hfrom Hr [Hid Hnew (index & Hix & Hnewix) Hk Hs Hcodec Hch Hl Hlang Hcom]. exists index.
  assert (by_id inv !! id = None) as Hb.
  { destruct (by_id inv !! id) as [s|] eqn:E; [|done]. exfalso.
    apply (Hnew s); [by eapply if_by_id|by eapply io_by_id]. }
  split; [|done]. unfold take_stream. rewrite Hid. cbn [mbind result_mbind]. rewrite Hix. cbn [ok_or mbind result_mbind].
  rewrite Hb, bool_decide_eq_false_2; cbn [orb].
  2: { intros (s & Hin & He)%(if_indexes _ _ Hfrom). by apply (Hnewix s). }
  rewrite Hk. cbn [mbind result_mbind]. rewrite (proj2 (eqb_text_true _ _) eq_refl). cbn [negb].
  assert (validate_present_audio_facts c = Ok tt) as ->.
  { unfold validate_present_audio_facts, when_present. rewrite Hch, Hcodec, Hl, Hcom. cbn [mbind result_mbind].
    by destruct (json_get c "channels"), (json_get c "codec_name"), (json_get c "channel_layout"),
      (commentary_value c). }
  cbn [mbind result_mbind]. rewrite Hs. done.
Qed.

Lemma companion_matches r streams id c source lang :
  companion_of r streams id c -> source ∈ streams -> compat_text source "id" = Ok (cr_source_id r) ->
  compat_language source = Ok lang -> associated_companion c source (cr_target r) = Ok (Some id).
Proof.
  intros [K1 _ _ _ _ K6 K7 K8 K9 K10] Hin Hid Hl. unfold associated_companion.
  rewrite K6. cbn [mbind result_mbind]. rewrite (proj2 (eqb_text_true _ _) eq_refl). cbn [negb].
  rewrite K7. cbn [mbind result_mbind]. rewrite Z.eqb_refl. cbn [negb]. rewrite K8. cbn [mbind result_mbind].
  rewrite (proj2 (eqb_text_true _ _) eq_refl). cbn [negb]. rewrite (K9 source Hin Hid), Hl.
  cbn [mbind result_mbind]. rewrite (proj2 (eqb_text_true _ _) eq_refl). cbn [negb]. rewrite K10.
  cbn [mbind result_mbind]. by rewrite K1.
Qed.
Lemma associated_companion_some c source target a : associated_companion c source target = Ok a -> a <> None.
Proof.
  unfold associated_companion.
  repeat match goal with
  | |- (_ ≫= _) = Ok _ -> _ => intros (? & _ & H)%result_bind_ok; revert H
  | |- (if ?b then _ else _) = Ok _ -> _ => destruct b; [done|]
  end. by intros [= <-].
Qed.

(** The companion completes the resolution. *)
Lemma companion_resolves streams r id c :
  resolve_streams streams = Ok r -> cr_resolved_id r = None -> companion_of r streams id c ->
  exists r', resolve_streams (streams ++ [c]) = Ok r' /\ cr_resolved_id r' = Some id
  /\ cr_source_id r' = cr_source_id r /\ cr_target r' = cr_target r.
Proof.
  intros (inv & source & Hinv & Hr)%resolve_streams_of Hres Hc.
  pose proof (take_streams_ok _ _ _ empty_inventory_ok Hinv) as Hok.
  pose proof (take_streams_from _ _ _ _ empty_from Hinv) as Hfrom. cbn [app] in Hfrom.
  destruct (companion_taken r streams inv source id c Hok Hfrom Hr Hc) as (index & Htake & Hnone).
  destruct (resolution_source inv source r Hok Hr) as [rank [(sid & Hsid & Hsb & _) Hsk Hsa (lang & Hlang & _) _]].
  cbn [fst snd] in Hsid, Hsb, Hsk, Hsa, Hlang. rewrite (ro_id _ _ _ Hr) in Hsid. injection Hsid as <-.
  assert (cr_source_id r <> id) as Hne by congruence.
  set (inv' := with_derived (with_identity inv id index c) (cr_source_id r) c) in *.
  exists {| cr_retained_streams := sort_by_key cs_index (retained inv'); cr_source_id := cr_source_id r;
            cr_source_index := cr_source_index r; cr_source_channels := cr_source_channels r;
            cr_source_channel_layout := cr_source_channel_layout r; cr_target := cr_target r;
            cr_resolved_id := Some id |}.
  split; [|done]. apply (resolution_of_resolves _ inv' source).
  { rewrite take_streams_app, Hinv. cbn. by rewrite Htake. }
  destruct Hr as [Ha Hf Hid Hch Hl Ht Hret (codec & associated & Hcodec & Has & Hid')]. split; try done; cbn -[lit].
  - rewrite validate_associations_app, (validate_associations_insert _ _ id c Hnone Ha). cbn -[lit].
    unfold validate_association. cbn [fst snd]. rewrite lookup_insert_ne, Hsb by done. cbn [ok_or mbind result_mbind].
    rewrite Hsk. cbn [mbind result_mbind]. rewrite (proj2 (eqb_text_true _ _) eq_refl). cbn [negb].
    rewrite Hsa. cbn [mbind result_mbind]. rewrite (co_id _ _ _ _ Hc). cbn [mbind result_mbind].
    by rewrite eqb_text_false by congruence.
  - exists codec, (Some id). split; [done|]. rewrite Hid' in Hres.
    destruct (eqb_text codec (ct_codec (cr_target r)) && (cr_source_channels r =? ct_channels (cr_target r)));
      [discriminate Hres|]. subst associated.
    split; [|done]. rewrite List.filter_app. cbn [List.filter fst]. rewrite (proj2 (eqb_text_true _ _) eq_refl).
    destruct (List.filter _ (derived inv)) as [|[src d] [|? ?]]; [|by apply associated_companion_some in Has|done].
    eapply companion_matches; [done|by eapply if_by_id|done|done].
Qed.
