(* ===== verification/PlanAudio.v ===== *)
(** * Planning audio operations

    [voom-plan/src/planner/audio/mod.rs], the outputs and companions of
    [audio/selection.rs], and [plan_place_compatibility] of [remux/mod.rs]: the
    node of a transcode, an extraction, a synthesis, and of the two operations
    on compatibility audio. Status reasons are left out. *)

From Stdlib Require Import ZArith Lia Bool String Ascii.
From stdpp Require Import base gmap strings list sorting.
From S2P Require Import Prelude Json Bytes PolicySyntax Encoders TrackFilters PolicyCompiled.
From S2P Require Import PlanModel PlanStreams FilterJson PlanPayload PlanRemux.
From S2P Require Import AudioStreams AudioPayload AudioCompat.

Open Scope string_scope.
Open Scope list_scope.
Open Scope Z_scope.

Section with_hash.
Context `{Blake3Hex}.

(** ** Companions *)

Definition companion_descriptor (operation_id : bytes) (s : SnapshotAudioStreamFact) :
    SynthesizeAudioCompanionDescriptor :=
  let companion_id := synthesis_companion_id operation_id (as_id s) in
  {| sc_companion_id := companion_id; sc_source_id := as_id s; sc_source_index := as_index s;
     sc_result_id := companion_id |}.
Definition synthesize_audio_companions (snapshot : MediaSnapshotInput) (filter : option TrackFilter)
    (operation_id : bytes) : AB (list SynthesizeAudioCompanionDescriptor) :=
  selected ← selected_audio_streams snapshot filter;
  match selected with
  | [] => Err ZeroMatches
  | _ => Ok (map (companion_descriptor operation_id) (sort_by_key as_index selected))
  end.

(** ** Names of extracted files *)

(** Characters, not bytes: a character beyond ASCII is one dash. *)
Definition sanitize_component (v : bytes) : bytes :=
  let sanitized :=
    map (fun c => if is_ascii_alphanumeric c || eqc "-" c || eqc "_" c then c else "-"%char)
      (List.filter (fun c => negb (is_continuation c)) v) in
  if non_empty sanitized then sanitized else lit "stream".

Definition lowercase (t : bytes) : bytes := map to_ascii_lowercase t.
Definition name_count (names : list bytes) (name : bytes) : nat :=
  length (List.filter (fun n => eqb_text (lowercase n) (lowercase name)) names).
Definition collision_indexes (names : list bytes) : list nat :=
  List.filter (fun i => match names !! i with Some n => (1 <? name_count names n)%nat | None => false end)
    (seq 0 (length names)).

Definition name_tail (target_codec : bytes) : bytes := lit "." ++ target_codec ++ lit ".ogg".
Record NameState := { ns_names : list bytes; ns_suffixed : list bool; ns_changed : bool }.
(** One collision: the file gets the hash of its output as a suffix, once. *)
Definition suffix_name (outputs : list ExtractAudioOutputDescriptor) (bases : list bytes)
    (target_codec : bytes) (st : NameState) (index : nat) : AB NameState :=
  match ns_suffixed st !! index, outputs !! index, bases !! index with
  | Some false, Some o, Some base =>
      hash ← ok_or (strip_prefix (lit "extract_output_") (eo_output_id o)) AudioUnsupportedShape;
      Ok {| ns_names := <[index := base ++ lit "-" ++ hash ++ name_tail target_codec]> (ns_names st);
            ns_suffixed := <[index := true]> (ns_suffixed st); ns_changed := true |}
  | _, _, _ => Ok st
  end.
Fixpoint suffix_names (outputs : list ExtractAudioOutputDescriptor) (bases : list bytes)
    (target_codec : bytes) (st : NameState) (indexes : list nat) : AB NameState :=
  match indexes with
  | [] => Ok st
  | i :: indexes' =>
      st ← suffix_name outputs bases target_codec st i;
      suffix_names outputs bases target_codec st indexes'
  end.
(** [None] when the loop takes more rounds than the fuel. *)
Fixpoint name_rounds (fuel : nat) (outputs : list ExtractAudioOutputDescriptor) (bases : list bytes)
    (target_codec : bytes) (names : list bytes) (suffixed : list bool) : option (AB (list bytes)) :=
  match fuel with
  | O => None
  | S fuel' =>
      match collision_indexes names with
      | [] => Some (Ok names)
      | collisions =>
          match suffix_names outputs bases target_codec
                  {| ns_names := names; ns_suffixed := suffixed; ns_changed := false |} collisions with
          | Err e => Some (Err e)
          | Ok st =>
              if ns_changed st then
                name_rounds fuel' outputs bases target_codec (ns_names st) (ns_suffixed st)
              else Some (Err AudioUnsupportedShape)
          end
      end
  end.
Definition extract_output_name_suffixes (outputs : list ExtractAudioOutputDescriptor)
    (target_codec : bytes) : AB (list bytes) :=
  let bases := map (fun o => sanitize_component (eo_source_id o)) outputs in
  let names := map (fun base => base ++ name_tail target_codec) bases in
  match name_rounds (S (length outputs)) outputs bases target_codec names
          (repeat false (length outputs)) with
  | Some r => r
  | None => Err AudioUnsupportedShape
  end.

Definition output_descriptor (operation_id : bytes) (s : SnapshotAudioStreamFact) :
    AB ExtractAudioOutputDescriptor :=
  bundle_role ← extraction_role s;
  Ok {| eo_output_id := extract_output_id operation_id (as_id s); eo_source_id := as_id s;
        eo_source_index := as_index s; eo_name_suffix := []; eo_bundle_role := bundle_role |}.
Definition with_name_suffix (o : ExtractAudioOutputDescriptor) (name : bytes) : ExtractAudioOutputDescriptor :=
  {| eo_output_id := eo_output_id o; eo_source_id := eo_source_id o; eo_source_index := eo_source_index o;
     eo_name_suffix := name; eo_bundle_role := eo_bundle_role o |}.
Definition extract_audio_outputs (snapshot : MediaSnapshotInput) (filter : option TrackFilter)
    (operation_id target_codec : bytes) : AB (list ExtractAudioOutputDescriptor) :=
  selected ← selected_audio_streams snapshot filter;
  match selected with
  | [] => Err ZeroMatches
  | _ =>
      outputs ← collect (output_descriptor operation_id) (sort_by_key as_index selected);
      names ← extract_output_name_suffixes outputs target_codec;
      Ok (zip_with with_name_suffix outputs names)
  end.

(** ** Nodes *)

Definition audio_observed_state (snapshot : MediaSnapshotInput) (filter : option TrackFilter) : option Json :=
  let observed :=
    optional_member "container" json_string (si_container snapshot)
    ++ match selected_audio_streams snapshot filter with
       | Err _ => []
       | Ok selected =>
           ("selected_audio_stream_count", JInt (Z.of_nat (length selected)))
           :: match omap as_codec selected with
              | [] => []
              | codecs => [("audio_codecs", JArr (map json_string codecs))]
              end
       end in
  match observed with [] => None | _ => Some (JObj observed) end.

Definition audio_block_code (block : AudioPlanningBlock) : PlanningDiagnosticCode :=
  match block with
  | AudioInsufficientFacts => InsufficientSnapshotFactsCode
  | UnsupportedSelector | ZeroMatches | NoVideo | AudioUnsupportedShape | SynthesisNotDownmix =>
      UnsupportedMediaShapeCode
  end.
Definition audio_shape_outcome (shape : AudioPlanShape) (capability : string) :
    NodeStatus * option string * option PlanningDiagnosticCode :=
  match shape with
  | AudioNoOp => (NoOp, None, None)
  | AudioPlanned => (Planned, Some capability, None)
  | AudioBlocked block => (Blocked, None, Some (audio_block_code block))
  end.

Definition audio_has_untagged_language (snapshot : MediaSnapshotInput) : bool :=
  match audio_stream_facts snapshot with
  | Ok facts => existsb (fun s => match as_language s with None => true | Some _ => false end) facts
  | Err _ => false
  end.
Definition audio_untagged_warning (p : OperationPlan) (phase_name : bytes) (snapshot : MediaSnapshotInput)
    (filter : option TrackFilter) (k : PlanOperationKind) : OperationPlan :=
  if bool_decide (op_status p = Blocked) then p else
  match filter with
  | None => p
  | Some f =>
      if negb (filter_references_language f) || negb (audio_has_untagged_language snapshot) then p
      else with_diagnostic p
             (with_target (si_target snapshot)
                (with_operation_kind (PlanOperationKind_as_str k)
                   (with_phase phase_name (diagnostic_warning UntaggedTrackLanguageDefaulted))))
  end.

(** The node made from a payload and an outcome. *)
Definition audio_node (phase_name : bytes) (snapshot : MediaSnapshotInput) (filter : option TrackFilter)
    (k : PlanOperationKind) (payload : AudioOperationPayload)
    (outcome : NodeStatus * option string * option PlanningDiagnosticCode) : OperationPlan :=
  let '(status, capability, diagnostic) := outcome in
  audio_untagged_warning
    (with_optional_diagnostic
       (OperationPlan_new k (audio_into_value payload) (audio_observed_state snapshot filter) status capability)
       diagnostic phase_name snapshot k)
    phase_name snapshot filter k.

Definition transcode_payload (snapshot : MediaSnapshotInput) (target_codec container : bytes)
    (filter : option TrackFilter) : AudioOperationPayload := {|
  ap_operation_type := TypeTranscodeAudio; ap_operation_id := None; ap_target_codec := target_codec;
  ap_container := container; ap_source_snapshot_id := existing_media_snapshot_id snapshot;
  ap_filter := filter; ap_outputs := None; ap_companions := None; ap_target_channels := None;
  ap_compatibility := None |}.
Definition plan_transcode (phase_name : bytes) (snapshot : MediaSnapshotInput) (target_codec container : bytes)
    (filter : option TrackFilter) : OperationPlan :=
  audio_node phase_name snapshot filter KTranscodeAudio (transcode_payload snapshot target_codec container filter)
    (audio_shape_outcome (transcode_audio_shape snapshot target_codec container filter) "transcode_audio").

Definition extract_payload (snapshot : MediaSnapshotInput) (target_codec container : bytes)
    (filter : option TrackFilter) (operation_id : bytes)
    (outputs : option (list ExtractAudioOutputDescriptor)) : AudioOperationPayload := {|
  ap_operation_type := TypeExtractAudio; ap_operation_id := Some operation_id; ap_target_codec := target_codec;
  ap_container := container; ap_source_snapshot_id := existing_media_snapshot_id snapshot;
  ap_filter := filter; ap_outputs := outputs; ap_companions := None; ap_target_channels := None;
  ap_compatibility := None |}.
Definition plan_extract (phase_name : bytes) (snapshot : MediaSnapshotInput) (target_codec container : bytes)
    (filter : option TrackFilter) (operation_id : bytes) : OperationPlan :=
  let outputs := extract_audio_outputs snapshot filter operation_id target_codec in
  audio_node phase_name snapshot filter KExtractAudio
    (extract_payload snapshot target_codec container filter operation_id
       (match outputs with Ok outputs => Some outputs | Err _ => None end))
    (match outputs with
     | Ok _ => (Planned, Some "extract_audio", None)
     | Err block => (Blocked, None, Some (audio_block_code block))
     end).

Definition synthesize_payload (snapshot : MediaSnapshotInput) (target_codec container : bytes)
    (target_channels : Z) (filter : option TrackFilter) (operation_id : bytes) : AudioOperationPayload := {|
  ap_operation_type := TypeSynthesizeAudio; ap_operation_id := Some operation_id;
  ap_target_codec := target_codec; ap_container := container;
  ap_source_snapshot_id := existing_media_snapshot_id snapshot; ap_filter := filter; ap_outputs := None;
  ap_companions := match synthesize_audio_companions snapshot filter operation_id with
                   | Ok companions => Some companions | Err _ => None end;
  ap_target_channels := Some target_channels; ap_compatibility := None |}.
Definition plan_synthesize (phase_name : bytes) (snapshot : MediaSnapshotInput) (target_codec container : bytes)
    (target_channels : Z) (filter : option TrackFilter) (operation_id : bytes) : OperationPlan :=
  audio_node phase_name snapshot filter KTranscodeAudio
    (synthesize_payload snapshot target_codec container target_channels filter operation_id)
    (audio_shape_outcome (synthesize_audio_shape snapshot target_channels filter) "transcode_audio").

(** ** Compatibility *)

Definition compatibility_code (e : AudioCompatibilityError) : PlanningDiagnosticCode :=
  match e with
  | InvalidFacts => InsufficientSnapshotFactsCode
  | NoEligibleSource => AudioCompatibilitySourceMissing
  | UnsupportedLayout _ _ => UnsupportedAudioCompatibilityLayout
  | InvalidAssociation => InvalidAudioCompatibilityAssociation
  end.
Definition blocked_compatibility_plan (phase_name : bytes) (snapshot : MediaSnapshotInput)
    (k : PlanOperationKind) (e : AudioCompatibilityError) : OperationPlan :=
  with_diagnostic
    (OperationPlan_new k (JObj [("type", JStr (PlanOperationKind_as_str k))]) None Blocked None)
    (with_operation_kind (PlanOperationKind_as_str k)
       (with_target (si_target snapshot) (with_phase phase_name (diagnostic_error (compatibility_code e))))).

Definition ensure_payload (snapshot : MediaSnapshotInput) (operation_id : bytes)
    (r : AudioCompatibilityResolution) : AudioOperationPayload :=
  let result_id := match cr_resolved_id r with
                   | Some id => id
                   | None => synthesis_companion_id operation_id (cr_source_id r)
                   end in {|
  ap_operation_type := TypeEnsureAudioCompatibility; ap_operation_id := Some operation_id;
  ap_target_codec := ct_codec (cr_target r); ap_container := lit AUDIO_TRANSCODE_CONTAINER;
  ap_source_snapshot_id := existing_media_snapshot_id snapshot; ap_filter := None; ap_outputs := None;
  ap_companions := match cr_resolved_id r with
                   | Some _ => None
                   | None => Some [{| sc_companion_id := result_id; sc_source_id := cr_source_id r;
                                      sc_source_index := cr_source_index r; sc_result_id := result_id |}]
                   end;
  ap_target_channels := Some (ct_channels (cr_target r));
  ap_compatibility := Some {|
    ac_retained_streams := cr_retained_streams r; ac_source_id := cr_source_id r;
    ac_source_index := cr_source_index r; ac_source_channels := cr_source_channels r;
    ac_source_channel_layout := cr_source_channel_layout r;
    ac_target_channel_layout := ct_channel_layout (cr_target r); ac_result_id := result_id |} |}.
Definition plan_ensure_compatibility (phase_name : bytes) (snapshot : MediaSnapshotInput)
    (operation_id : bytes) : OperationPlan :=
  match resolve_audio_compatibility snapshot with
  | Err e => blocked_compatibility_plan phase_name snapshot KTranscodeAudio e
  | Ok r =>
      OperationPlan_new KTranscodeAudio (audio_into_value (ensure_payload snapshot operation_id r)) None
        (match cr_resolved_id r with Some _ => NoOp | None => Planned end)
        (match cr_resolved_id r with Some _ => None | None => Some "transcode_audio" end)
  end.

(** Whether the default flags of the audio streams are those of a sole default. *)
Fixpoint sole_default (audio : list SnapshotStreamFact) (selected_id : bytes) (unchanged : bool) :
    option bool :=
  match audio with
  | [] => Some unchanged
  | s :: audio' =>
      match sf_is_default s with
      | Known d => sole_default audio' selected_id (unchanged && Bool.eqb d (eqb_text (sf_id s) selected_id))
      | Missing | Malformed => None
      end
  end.
Definition place_payload (snapshot : MediaSnapshotInput) (selected_id : bytes) : RemuxOperationPayload := {|
  rp_container := lit "mkv"; source_media_snapshot_id := existing_media_snapshot_id snapshot;
  track_actions := []; track_order := []; head_snapshot_stream_id := None;
  audio_head_snapshot_stream_id := Some selected_id;
  rp_defaults := [{| da_target := Audio; da_strategy := DPreserve;
                     selected_snapshot_stream_id := Some selected_id |}] |}.
Definition plan_place_compatibility (phase_name : bytes) (snapshot : MediaSnapshotInput) : OperationPlan :=
  let blocked := blocked_compatibility_plan phase_name snapshot KRemux in
  match resolve_audio_compatibility snapshot with
  | Err e => blocked e
  | Ok r =>
      match cr_resolved_id r with
      | None => blocked InvalidAssociation
      | Some selected_id =>
          match stream_facts snapshot with
          | Err _ => blocked InvalidFacts
          | Ok facts =>
              let audio := sort_by_key sf_index (List.filter (is_kind Audio) facts) in
              let first := match audio with s :: _ => eqb_text (sf_id s) selected_id | [] => false end in
              match sole_default audio selected_id
                      (first && bool_decide (si_container snapshot = Some (lit "mkv"))) with
              | None => blocked InvalidFacts
              | Some unchanged =>
                  OperationPlan_new KRemux (into_value (place_payload snapshot selected_id)) None
                    (if unchanged then NoOp else Planned) (if unchanged then None else Some "remux")
              end
          end
      end
  end.
End with_hash.
