(* ===== verification/AudioPlans.v ===== *)
(** * What audio plans promise

    The names of extracted files, the payloads of planned audio nodes and the
    convergence of compatibility audio ([PlanAudio]). *)

From Stdlib Require Import ZArith Lia Bool String Ascii.
From stdpp Require Import base gmap strings list sorting.
From S2P Require Import Prelude Json Bytes PolicySyntax Encoders TrackFilters PolicyCompiled.
From S2P Require Import PlanModel PlanStreams FilterJson PlanPayload PlanRemux.
From S2P Require Import PolicyConditions AudioStreams AudioPayload AudioCompat PlanAudio.

Open Scope nat_scope.

(** ** Names of extracted files *)

Lemma filter_two {A} (f : A -> bool) l i j a b :
  i < j -> l !! i = Some a -> l !! j = Some b -> f a = true -> f b = true -> 2 <= length (List.filter f l).
Proof.
  revert i j. induction l as [|x l IH]; intros i j Hij Hi Hj Ha Hb; [done|].
  destruct j as [|j]; [lia|]. cbn in Hj. destruct i as [|i]; cbn in Hi.
  - injection Hi as ->. cbn. rewrite Ha. cbn. apply le_n_S.
    assert (In b (List.filter f l)) as Hin
      by (apply filter_In; split; [by apply list_elem_of_In; eapply list_elem_of_lookup_2|done]).
    destruct (List.filter f l); [done|cbn; lia].
  - assert (2 <= length (List.filter f l)) by (apply (IH i j); auto; lia). cbn. destruct (f x); cbn; lia.
Qed.

(** No collision is left where the names are distinct but for their case. *)
Lemma no_collisions names : collision_indexes names = [] -> NoDup (map lowercase names).
Proof.
  intros Hc. assert (forall i j n m, i < j -> names !! i = Some n -> names !! j = Some m ->
                     lowercase n <> lowercase m) as Hne.
  { intros i j n m Hij Hi Hj He. assert (i ∈ collision_indexes names) as Hin; [|by rewrite Hc in Hin; apply elem_of_nil in Hin].
    apply list_elem_of_In, filter_In. split.
    - apply in_seq. apply lookup_lt_Some in Hi. lia.
    - rewrite Hi. apply Nat.ltb_lt. unfold name_count. eapply (filter_two _ _ i j); [done|exact Hi|exact Hj|..].
      + by apply eqb_text_true.
      + by apply eqb_text_true. }
  apply NoDup_alt. intros i j x. rewrite !list_lookup_fmap, !fmap_Some.
  intros (n & Hn & ->) (m & Hm & He). destruct (Nat.lt_trichotomy i j) as [?|[?|?]]; [|done|]; exfalso.
  - by eapply (Hne i j n m).
  - by eapply (Hne j i m n).
Qed.

Definition pending (suffixed : list bool) : nat := length (List.filter negb suffixed).
Lemma pending_insert l i : l !! i = Some false -> S (pending (<[i := true]> l)) = pending l.
Proof.
  unfold pending. revert i. induction l as [|b l IH]; intros i; [done|].
  destruct i as [|i]; [by intros [= ->]|]. intros Hi. specialize (IH i Hi).
  change (<[S i := true]> (b :: l)) with (b :: <[i := true]> l). cbn [List.filter]. destruct b; cbn; lia.
Qed.

Section rounds.
Context (outputs : list ExtractAudioOutputDescriptor) (bases : list bytes) (codec : bytes).

(** A round changes something only by suffixing a name that had no suffix. *)
Definition moved (st st' : NameState) : Prop :=
  pending (ns_suffixed st') <= pending (ns_suffixed st)
  /\ (ns_changed st' = true -> ns_changed st = true \/ pending (ns_suffixed st') < pending (ns_suffixed st))
  /\ length (ns_names st') = length (ns_names st).
Lemma suffix_name_moved st i st' : suffix_name outputs bases codec st i = Ok st' -> moved st st'.
Proof.
  unfold suffix_name, moved. destruct (ns_suffixed st !! i) as [[|]|] eqn:Hi;
    [by intros [= <-]; auto| |by intros [= <-]; auto].
  destruct (outputs !! i) as [o|]; [|by intros [= <-]; auto].
  destruct (bases !! i) as [base|]; [|by intros [= <-]; auto].
  destruct (strip_prefix _ _) as [hash|]; [|done]. cbn [ok_or mbind result_mbind]. intros [= <-].
  cbn [ns_suffixed ns_changed ns_names]. pose proof (pending_insert _ _ Hi). rewrite length_insert. split_and!; [lia|right; lia|done].
Qed.
Lemma suffix_names_moved st ixs st' : suffix_names outputs bases codec st ixs = Ok st' -> moved st st'.
Proof.
  revert st. induction ixs as [|i ixs IH]; intros st; cbn; [intros [= <-]; by split_and!; auto|].
  intros (st1 & (H1 & H2 & H3)%suffix_name_moved & (K1 & K2 & K3)%IH)%result_bind_ok.
  split_and!; [lia| |congruence]. intros Hc. destruct (K2 Hc) as [Hc1|?]; [|right; lia].
  destruct (H2 Hc1) as [?|?]; [by left|right; lia].
Qed.

(** As many rounds as there are names without a suffix, and one, are enough. *)
Lemma name_rounds_end fuel names suffixed :
  pending suffixed < fuel -> exists r, name_rounds fuel outputs bases codec names suffixed = Some r.
Proof.
  revert names suffixed. induction fuel as [|fuel IH]; intros names suffixed Hf; [lia|]. cbn [name_rounds].
  destruct (collision_indexes names) as [|i ixs]; [by eexists|].
  destruct (suffix_names _ _ _ _ _) as [st|e] eqn:Hs; [|by eexists].
  destruct (ns_changed st) eqn:Hc; [|by eexists]. apply suffix_names_moved in Hs as (_ & H2 & _).
  destruct (H2 Hc) as [?|?]; [done|]. cbn [ns_suffixed ns_changed ns_names] in *. apply IH. lia.
Qed.
Lemma name_rounds_ok fuel names suffixed r :
  name_rounds fuel outputs bases codec names suffixed = Some (Ok r) ->
  NoDup (map lowercase r) /\ length r = length names.
Proof.
  revert names suffixed. induction fuel as [|fuel IH]; intros names suffixed; [done|]. cbn [name_rounds].
  destruct (collision_indexes names) as [|i ixs] eqn:Hc.
  { intros [= <-]. split; [by apply no_collisions|done]. }
  destruct (suffix_names _ _ _ _ _) as [st|e] eqn:Hs; [|done].
  destruct (ns_changed st); [|done]. apply suffix_names_moved in Hs as (_ & _ & Hl).
  intros [? ?]%IH. split; [done|]. cbn in *. congruence.
Qed.
End rounds.

Lemma pending_repeat n : pending (repeat false n) = n.
Proof. induction n as [|n IH]; [done|]. cbn. by f_equal. Qed.

Lemma suffixes_ok outputs codec names :
  extract_output_name_suffixes outputs codec = Ok names ->
  NoDup (map lowercase names) /\ length names = length outputs.
Proof.
  unfold extract_output_name_suffixes. destruct (name_rounds _ _ _ _ _ _) as [[r|]|] eqn:E; [|done|done].
  intros [= ->]. apply name_rounds_ok in E as [? Hl]. split; [done|]. by rewrite Hl, !length_map.
Qed.

Section with_hash.
Context `{Blake3Hex}.

(** The files of an extraction have names of their own: the search for names ends,
    and where it succeeds there is one output for each selected stream, in the
    order of the streams, and no two names differ in nothing but case. *)
Theorem extraction_names snapshot filter operation_id codec :
  (forall outputs, name_rounds (S (length outputs)) outputs
      (map (fun o => sanitize_component (eo_source_id o)) outputs) codec
      (map (fun base => base ++ name_tail codec) (map (fun o => sanitize_component (eo_source_id o)) outputs))
      (repeat false (length outputs)) <> None)
  /\ forall outputs, extract_audio_outputs snapshot filter operation_id codec = Ok outputs ->
     NoDup (map (fun o => lowercase (eo_name_suffix o)) outputs)
     /\ exists selected, selected_audio_streams snapshot filter = Ok selected
        /\ map eo_source_id outputs = map as_id (sort_by_key as_index selected).
Proof.
  split.
  - intros outputs Hn. destruct (name_rounds_end outputs
      (map (fun o => sanitize_component (eo_source_id o)) outputs) codec (S (length outputs))
      (map (fun base => base ++ name_tail codec) (map (fun o => sanitize_component (eo_source_id o)) outputs))
      (repeat false (length outputs))) as [r Hr]; [rewrite pending_repeat; lia|congruence].
  - intros outputs. unfold extract_audio_outputs. intros (selected & Hsel & Hx)%result_bind_ok.
    destruct selected as [|s0 rest] eqn:Es; [done|]. rewrite <- Es in *.
    apply result_bind_ok in Hx as (outs & Houts%collect_ok & (names & [Hnd Hl]%suffixes_ok & [= <-])%result_bind_ok).
    split.
    + assert (map (fun o => lowercase (eo_name_suffix o)) (zip_with with_name_suffix outs names)
              = map lowercase names) as ->; [|done].
      clear -Hl. revert names Hl. induction outs as [|o outs IH]; intros [|n names] Hl; try done.
      cbn. f_equal. apply IH. by injection Hl.
    + exists selected. split; [done|].
      assert (map eo_source_id (zip_with with_name_suffix outs names) = map eo_source_id outs) as ->.
      { clear -Hl. revert names Hl. induction outs as [|o outs IH]; intros [|n names] Hl; try done.
        cbn. f_equal. apply IH. by injection Hl. }
      clear -Houts. induction Houts as [|s o l outs Ho _ IH]; [done|]. cbn. rewrite IH. f_equal.
      unfold output_descriptor in Ho. destruct (extraction_role s); [|done]. by injection Ho as <-.
Qed.

(** ** Payloads of planned nodes *)

Lemma audio_node_payload phase snapshot filter k payload outcome :
  op_payload (audio_node phase snapshot filter k payload outcome) = audio_into_value payload
  /\ op_status (audio_node phase snapshot filter k payload outcome) = outcome.1.1
  /\ op_kind (audio_node phase snapshot filter k payload outcome) = k.
Proof.
  destruct outcome as [[status capability] [code|]]; unfold audio_node, audio_untagged_warning; cbn -[filter_references_language];
    case_bool_decide; try done; destruct filter as [f|]; try done; by destruct (_ || _).
Qed.

Lemma valid_companions_sorted operation_id l sources indexes results prev :
  NoDup (map as_index l) -> NoDup (map (fun s => synthesis_companion_id operation_id (as_id s)) l) ->
  StronglySorted (fun a b => (as_index a <= as_index b)%Z) l ->
  Forall (fun s => non_empty (trim (as_id s)) = true /\ (as_id s ∉ sources) /\ (as_index s ∉ indexes)
                   /\ (synthesis_companion_id operation_id (as_id s) ∉ results)
                   /\ index_above prev (as_index s) = true) l ->
  valid_companions operation_id (map (companion_descriptor operation_id) l) sources indexes results prev = true.
Proof.
  intros Hnd1 Hnd2 Hs. revert sources indexes results prev.
  induction Hs as [|s l Hs IH Hall]; intros sources indexes results prev Hok; [done|].
  cbn [map valid_companions companion_descriptor sc_source_id sc_companion_id sc_result_id sc_source_index].
  apply Forall_cons in Hok as [(Ht & H1 & H2 & H3 & H4) Hrest]. cbn [map] in Hnd1, Hnd2.
  apply NoDup_cons in Hnd1 as [Hn1 Hnd1'], Hnd2 as [Hn2 Hnd2'].
  rewrite Ht, H4, !(proj2 (eqb_text_true _ _) eq_refl), !bool_decide_eq_false_2 by done. cbn [negb andb].
  apply IH; [done|done|]. rewrite Forall_forall in Hrest, Hall |- *. intros y Hy.
  destruct (Hrest y Hy) as (Hty & K1 & K2 & K3 & _).
  assert (as_index y <> as_index s) as Hni.
  { intros He. apply Hn1. rewrite <- He. apply list_elem_of_fmap. eauto. }
  assert (synthesis_companion_id operation_id (as_id y) <> synthesis_companion_id operation_id (as_id s)) as Hnc.
  { intros He. apply Hn2. rewrite <- He. apply list_elem_of_fmap. eauto. }
  assert (as_id y <> as_id s) as Hnid by congruence.
  split_and!; [done|set_solver|set_solver|set_solver|]. cbn. apply Z.ltb_lt. specialize (Hall y Hy). cbn in Hall. lia.
Qed.

(** The companions of a synthesis are those its executor expects, unless two of their
    identifiers collide. *)
Lemma companions_accepted snapshot filter operation_id selected :
  selected_audio_streams snapshot filter = Ok selected -> selected <> [] ->
  NoDup (map (fun s => synthesis_companion_id operation_id (as_id s)) selected) ->
  exists companions, synthesize_audio_companions snapshot filter operation_id = Ok companions
  /\ companions <> [] /\ valid_companions operation_id companions ∅ ∅ ∅ None = true
  /\ forallb companion_ok companions = true.
Proof.
  intros Hsel Hne Hnd. unfold synthesize_audio_companions. rewrite Hsel. cbn [mbind result_mbind].
  destruct (selected_streams_ok _ _ _ Hsel) as (_ & Hnd1 & Hok). rewrite Forall_forall in Hok.
  pose proof (sort_by_key_perm as_index selected) as Hp. destruct selected as [|s0 l] eqn:E; [done|].
  rewrite <- E in *. eexists. split; [reflexivity|]. split_and!.
  - intros Hnil%map_eq_nil. rewrite Hnil in Hp. by apply Permutation_nil_l in Hp.
  - apply valid_companions_sorted; [by rewrite Hp|by rewrite Hp|apply sort_by_key_sorted|].
    apply Forall_forall. intros s. rewrite Hp. intros [Ht _]%Hok. split_and!; [done|set_solver..|done].
  - apply forallb_forall. intros c (s & <- & Hs%list_elem_of_In)%in_map_iff. rewrite Hp in Hs.
    by apply Hok in Hs as [_ ?].
Qed.

(** The operations on audio, each with its node. *)
Definition plan_audio (phase_name : bytes) (snapshot : MediaSnapshotInput) (operation_id : bytes)
    (o : CompiledOperation) : option (OperationPlan * AudioOperationPayload) :=
  match o with
  | TranscodeAudio codec container filter =>
      Some (plan_transcode phase_name snapshot codec container filter,
            transcode_payload snapshot codec container filter)
  | ExtractAudio codec container filter =>
      Some (plan_extract phase_name snapshot codec container filter operation_id,
            extract_payload snapshot codec container filter operation_id
              (match extract_audio_outputs snapshot filter operation_id codec with
               | Ok outputs => Some outputs | Err _ => None end))
  | SynthesizeAudio codec container channels filter =>
      Some (plan_synthesize phase_name snapshot codec container channels filter operation_id,
            synthesize_payload snapshot codec container channels filter operation_id)
  | EnsureAudioCompatibility =>
      match resolve_audio_compatibility snapshot with
      | Ok r => Some (plan_ensure_compatibility phase_name snapshot operation_id,
                      ensure_payload snapshot operation_id r)
      | Err _ => None
      end
  | _ => None
  end.

(** What the compiler makes sure of. *)
Definition audio_operation_ok (o : CompiledOperation) : bool :=
  match o with
  | TranscodeAudio codec container filter | ExtractAudio codec container filter =>
      stream_id_ok codec && stream_id_ok container && opt_ok filter_numbers_ok filter
  | SynthesizeAudio codec container channels filter =>
      stream_id_ok codec && stream_id_ok container && is_u64 channels && opt_ok filter_numbers_ok filter
  | _ => true
  end.
(** No two of the hashes that matter collide. *)
Definition no_collision (snapshot : MediaSnapshotInput) (operation_id : bytes) (o : CompiledOperation) : Prop :=
  match o with
  | SynthesizeAudio _ _ _ filter =>
      forall selected, selected_audio_streams snapshot filter = Ok selected ->
      NoDup (map (fun s => synthesis_companion_id operation_id (as_id s)) selected)
  | EnsureAudioCompatibility =>
      forall r, resolve_audio_compatibility snapshot = Ok r ->
      synthesis_companion_id operation_id (cr_source_id r) ∉ map cs_id (cr_retained_streams r)
  | _ => True
  end.

Lemma transcode_ok snapshot codec container filter n :
  existing_media_snapshot_id snapshot = Some n -> positive_ok n = true ->
  stream_id_ok codec && stream_id_ok container && opt_ok filter_numbers_ok filter = true ->
  audio_payload_ok (transcode_payload snapshot codec container filter).
Proof.
  intros Hn Hp [[H1 H2]%andb_true_iff H3]%andb_true_iff. split; cbn; try done. by rewrite Hn.
Qed.

Lemma extract_ok snapshot codec container filter operation_id outputs n :
  existing_media_snapshot_id snapshot = Some n -> positive_ok n = true -> stream_id_ok operation_id = true ->
  stream_id_ok codec && stream_id_ok container && opt_ok filter_numbers_ok filter = true ->
  extract_audio_outputs snapshot filter operation_id codec = Ok outputs ->
  audio_payload_ok (extract_payload snapshot codec container filter operation_id (Some outputs)).
Proof.
  intros Hn Hp Hid [[H1 H2]%andb_true_iff H3]%andb_true_iff Ho. split; cbn; try done; [by rewrite Hn|].
  unfold extract_audio_outputs in Ho. apply result_bind_ok in Ho as (selected & Hsel & Hx).
  destruct (selected_streams_ok _ _ _ Hsel) as (_ & _ & Hok). rewrite Forall_forall in Hok.
  destruct selected as [|s0 rest] eqn:Es; [done|]. rewrite <- Es in *.
  apply result_bind_ok in Hx as (outs & Houts%collect_ok & (names & _ & [= <-])%result_bind_ok).
  pose proof (sort_by_key_perm as_index selected) as Hperm.
  assert (Forall (fun o => output_ok o = true) outs) as Hall.
  { apply Forall_forall. intros o [i Hi]%list_elem_of_lookup.
    destruct (Forall2_lookup_r _ _ _ _ _ Houts Hi) as (s & Hs%list_elem_of_lookup_2 & Hd).
    rewrite Hperm in Hs. apply Hok in Hs as [_ Hu]. unfold output_descriptor in Hd.
    destruct (extraction_role s); [|done]. by injection Hd as <-. }
  clear -Hall. revert names. induction Hall as [|o outs Ho _ IH]; intros [|n names]; try done. cbn.
  unfold output_ok in *. cbn. rewrite Ho. apply IH.
Qed.

Lemma downmix_positive selected channels :
  downmix_shape selected channels = AudioPlanned -> selected <> [] -> channels <> 0%Z.
Proof.
  destruct selected as [|s l]; [done|]. cbn. destruct (as_channels s) as [c|]; [|done].
  destruct (Z.eqb_spec channels 0) as [->|Hne]; [done|]. done.
Qed.
Lemma synthesize_ok snapshot codec container channels filter operation_id n :
  existing_media_snapshot_id snapshot = Some n -> positive_ok n = true -> stream_id_ok operation_id = true ->
  stream_id_ok codec && stream_id_ok container && is_u64 channels && opt_ok filter_numbers_ok filter = true ->
  (forall selected, selected_audio_streams snapshot filter = Ok selected ->
     NoDup (map (fun s => synthesis_companion_id operation_id (as_id s)) selected)) ->
  synthesize_audio_shape snapshot channels filter = AudioPlanned ->
  audio_payload_ok (synthesize_payload snapshot codec container channels filter operation_id).
Proof.
  intros Hn Hp Hid [[[H1 H2]%andb_true_iff Hu]%andb_true_iff H3]%andb_true_iff Hnd Hshape.
  unfold synthesize_audio_shape in Hshape. destruct (selected_audio_streams snapshot filter) as [selected|] eqn:Hsel; [|done].
  assert (selected <> []) as Hne by (by intros ->).
  assert (downmix_shape selected channels = AudioPlanned) as Hd by (by destruct selected).
  apply downmix_positive in Hd; [|done].
  destruct (companions_accepted snapshot filter operation_id selected Hsel Hne (Hnd _ eq_refl))
    as (companions & Hc & Hcne & Hv & Hok).
  assert (positive_ok channels = true) as Hpos.
  { unfold positive_ok, is_u64 in *. lia. }
  split; cbn; rewrite ?Hc, ?Hn; cbn; try done. unfold validate_synthesis_fields. cbn.
  destruct companions as [|c cs]; [done|]. unfold validate_companions. by rewrite Hv.
Qed.

Lemma canonical_layout_ok t : stream_id_ok t = true -> stream_id_ok (canonical_layout t) = true.
Proof. intros Ht. unfold canonical_layout. by repeat case_match. Qed.
Lemma target_ok channels layout target :
  compatibility_target channels layout = Ok target -> is_u32 channels = true -> (0 < channels)%Z ->
  stream_id_ok layout = true ->
  one_of ["aac"; "eac3"]%string (ct_codec target) = true /\ positive_ok (ct_channels target) = true
  /\ stream_id_ok (ct_channel_layout target) = true.
Proof.
  unfold compatibility_target, compatibility_codec. intros Ht Hu Hp Hl.
  assert (positive_ok (if (channels =? 8)%Z then 6%Z else channels) = true).
  { unfold positive_ok, is_u32, is_u64, u32_max, u64_max in *. destruct (channels =? 8)%Z; lia. }
  pose proof (canonical_layout_ok layout Hl).
  destruct (_ || _); [by injection Ht as <-|]. destruct (_ || _); [by injection Ht as <-|done].
Qed.

Lemma ensure_ok snapshot operation_id r n :
  existing_media_snapshot_id snapshot = Some n -> positive_ok n = true -> stream_id_ok operation_id = true ->
  resolve_audio_compatibility snapshot = Ok r -> cr_resolved_id r = None ->
  (synthesis_companion_id operation_id (cr_source_id r) ∉ map cs_id (cr_retained_streams r)) ->
  audio_payload_ok (ensure_payload snapshot operation_id r).
Proof.
  intros Hn Hp Hid Hr Hres Hfresh. unfold resolve_audio_compatibility in Hr.
  apply result_bind_ok in Hr as (streams & _ & (inv & source & Hinv & Hr)%resolve_streams_of).
  pose proof (take_streams_ok _ _ _ empty_inventory_ok Hinv) as Hok.
  destruct (resolution_inventory inv source r Hok Hr) as (Hv & Hin & Hix).
  destruct (compat_channels_ok _ _ (ro_channels _ _ _ Hr)) as [Hcu Hcp].
  pose proof (compat_text_ok _ _ _ (ro_id _ _ _ Hr)) as Hsid.
  pose proof (compat_text_ok _ _ _ (ro_layout _ _ _ Hr)) as Hl.
  destruct (target_ok _ _ _ (ro_target _ _ _ Hr) Hcu Hcp Hl) as (Ht1 & Ht2 & Ht3).
  assert (is_u32 (cr_source_index r) = true) as Hsix.
  { rewrite forallb_forall in Hix. apply list_elem_of_In in Hin. by apply Hix in Hin. }
  unfold ensure_payload. rewrite Hres.
  split; cbn -[lit one_of]; rewrite ?Hn, ?Hsix, ?Hcu, ?Hix, ?Ht1, ?Ht2, ?Ht3; try done.
  - apply one_of_spec in Ht1 as (w & [<-|[<-|[]]] & ->); done.
  - unfold companion_ok. cbn. by rewrite Hsix.
  - unfold descriptor_ok. cbn. by rewrite Hsix, Hcu, Hix.
  - unfold validate_synthesis_fields, validate_companions. cbn -[lit trim].
    rewrite Hsid, !(proj2 (eqb_text_true _ _) eq_refl). done.
  - unfold validate_compatibility_fields, validate_compatibility_descriptor. cbn -[lit one_of trim].
    rewrite Hv. cbn [negb]. assert (existsb (fun s => eqb_text (cs_id s) (cr_source_id r)
      && (cs_index s =? cr_source_index r)%Z) (cr_retained_streams r) = true) as ->.
    { apply existsb_exists. eexists. split; [by apply list_elem_of_In|]. cbn.
      by rewrite (proj2 (eqb_text_true _ _) eq_refl), Z.eqb_refl. }
    rewrite (proj2 (Z.eqb_neq _ _)) by lia. unfold stream_id_ok in Ht3. rewrite Hl, Ht3.
    rewrite bool_decide_eq_false_2 by done. rewrite !(proj2 (eqb_text_true _ _) eq_refl), Z.eqb_refl. done.
Qed.

(** C24: The executor of an audio operation takes what was planned for it: the payload of
    every planned transcode, extraction, synthesis and compatibility node is
    read back unchanged by [try_from_execution_value], provided the snapshot is
    a stored one, the operation is as the compiler makes it and no two of the
    hashed identifiers collide. *)
Theorem audio_plan_accepted phase snapshot operation_id o p payload n :
  plan_audio phase snapshot operation_id o = Some (p, payload) -> op_status p = Planned ->
  existing_media_snapshot_id snapshot = Some n -> positive_ok n = true ->
  stream_id_ok operation_id = true -> audio_operation_ok o = true -> no_collision snapshot operation_id o ->
  op_payload p = audio_into_value payload /\ audio_try_from_execution_value (op_payload p) = Ok payload.
Proof.
  intros Hplan Hst Hn Hp Hid Hok Hcol.
  assert (audio_payload_ok payload /\ op_payload p = audio_into_value payload) as [Hpok ->].
  2: { split; [done|by apply audio_payload_reads_back]. }
  destruct o as [| | | | | | | | | |codec container filter|codec container filter|codec container channels filter
                | | | | |]; try done.
  - injection Hplan as <- <-. unfold plan_transcode in *.
    split; [by eapply transcode_ok|apply audio_node_payload].
  - injection Hplan as <- <-. unfold plan_extract in *.
    destruct (extract_audio_outputs snapshot filter operation_id codec) as [outputs|e] eqn:Ho.
    + split; [by eapply extract_ok|apply audio_node_payload].
    + by rewrite (proj1 (proj2 (audio_node_payload _ _ _ _ _ _))) in Hst.
  - injection Hplan as <- <-. unfold plan_synthesize in *.
    rewrite (proj1 (proj2 (audio_node_payload _ _ _ _ _ _))) in Hst. split; [|apply audio_node_payload].
    eapply synthesize_ok; try done. by destruct (synthesize_audio_shape snapshot channels filter).
  - cbn in Hplan. destruct (resolve_audio_compatibility snapshot) as [r|] eqn:Hr; [|done].
    injection Hplan as <- <-. unfold plan_ensure_compatibility in *. rewrite Hr in *. cbn in Hst |- *.
    destruct (cr_resolved_id r) eqn:Hres; [done|]. split; [|done]. eapply ensure_ok; try done. by apply Hcol.
Qed.

(** ** Convergence *)

End with_hash.
