(* ===== verification/Probe.v ===== *)
(** * Probes

    [voom-ffprobe-worker/src/normalize.rs]: what [ffprobe] prints of a file,
    checked and reduced to the snapshot the control plane stores, and
    [voom-worker-protocol/src/audio_facts.rs]: the facts of audio samples. The
    objects of the code keep their members in the order of insertion. Error
    messages are left out. *)

From Stdlib Require Import ZArith Lia Bool String Ascii.
From stdpp Require Import base gmap strings list.
From S2P Require Import Prelude Vocab Json Bytes PolicySyntax TrackFilters PolicyCompiled PlanModel.

Open Scope string_scope.
Open Scope list_scope.
Open Scope Z_scope.

Inductive ProbeError := PArtifactUnavailable | PArtifactChecksumMismatch | PMalformedResult | PMalformedMedia.
Abbreviation PW := (result ProbeError).
Definition ProbeError_failure_class (e : ProbeError) : FailureClass :=
  match e with
  | PArtifactUnavailable => FC_ArtifactUnavailable
  | PArtifactChecksumMismatch => FC_ArtifactChecksumMismatch
  | PMalformedResult => FC_MalformedWorkerResult
  | PMalformedMedia => FC_MalformedMedia
  end.

(** The finite [f64] a text parses to, and the [f64] of a JSON number, as a JSON
    number again: floating-point arithmetic, a parameter. *)
Class F64Reading := { f64_of_text : bytes -> option Json; f64_of_number : Json -> Json }.

(** ** Readings *)

Abbreviation Members := (list (string * Json)).
(** [Map::insert]. *)
Fixpoint put (k : string) (v : Json) (ms : Members) : Members :=
  match ms with
  | [] => [(k, v)]
  | (k', v') :: ms' => if String.eqb k k' then (k', v) :: ms' else (k', v') :: put k v ms'
  end.
Definition json_members (j : Json) : option Members :=
  match j with JObj ms => Some ms | _ => None end.
Definition json_is_string (j : Json) : bool := match j with JStr _ => true | _ => false end.
Definition json_is_number (j : Json) : bool := match j with JInt _ | JFloat _ => true | _ => false end.
Definition json_is_bool (j : Json) : bool := match j with JBool _ => true | _ => false end.

Definition is_unknown_value (v : bytes) : bool :=
  negb (non_empty (trim v)) || one_of ["N/A"; "n/a"; "unknown"] (trim v).

Definition optional_object (input : Members) (key : string) : PW (option Members) :=
  match assoc_str key input with
  | None => Ok None
  | Some v => ms ← ok_or (json_members v) PMalformedResult; Ok (Some ms)
  end.
Definition optional_array (input : Members) (key : string) : PW (option (list Json)) :=
  match assoc_str key input with
  | None => Ok None
  | Some v => l ← ok_or (json_as_array v) PMalformedResult; Ok (Some l)
  end.
Definition optional_f64 `{F64Reading} (v : Json) : PW (option Json) :=
  match json_text v with
  | Some raw =>
      if is_unknown_value raw then Ok None
      else n ← ok_or (f64_of_text raw) PMalformedMedia; Ok (Some n)
  | None => if json_is_number v then Ok (Some (f64_of_number v)) else Err PMalformedResult
  end.
Definition optional_u64 (v : Json) : PW (option Z) :=
  match json_text v with
  | Some raw =>
      if is_unknown_value raw then Ok None
      else n ← ok_or (parse_u64 raw) PMalformedMedia; Ok (Some n)
  | None =>
      match json_as_u64 v with
      | Some n => Ok (Some n)
      | None => Err (if json_is_number v then PMalformedMedia else PMalformedResult)
      end
  end.

(** ** The structure of the output *)

Fixpoint validate_numeric_types (input : Members) (keys : list string) : PW unit :=
  match keys with
  | [] => Ok tt
  | key :: keys' =>
      if match assoc_str key input with
         | Some v => negb (json_is_string v) && negb (json_is_number v)
         | None => false
         end then Err PMalformedResult else validate_numeric_types input keys'
  end.
Fixpoint validate_text_types (input : Members) (keys : list string) : PW unit :=
  match keys with
  | [] => Ok tt
  | key :: keys' =>
      if match assoc_str key input with Some v => negb (json_is_string v) | None => false end
      then Err PMalformedResult else validate_text_types input keys'
  end.
Definition is_identity_tag (key : string) : bool :=
  eq_ignore_ascii_case (lit key) (lit "voom_compatibility_stream_id")
  || eq_ignore_ascii_case (lit key) (lit "voom_compatibility_source_stream_id").
Definition validate_tags (input : Members) : PW unit :=
  match assoc_str "tags" input ≫= json_members with
  | None => Ok tt
  | Some tags =>
      if existsb (fun m => is_identity_tag (fst m) && negb (json_is_string (snd m))) tags
      then Err PMalformedResult else Ok tt
  end.
Definition flag_typed (flags : Members) (key : string) : bool :=
  match assoc_str key flags with
  | Some v => json_is_bool v || json_is_number v || json_is_string v
  | None => true
  end.
Definition validate_disposition (input : Members) : PW unit :=
  match assoc_str "disposition" input with
  | None => Ok tt
  | Some v =>
      flags ← ok_or (json_members v) PMalformedResult;
      if forallb (flag_typed flags) ["default"; "forced"; "comment"; "attached_pic"]
      then Ok tt else Err PMalformedResult
  end.
Definition is_audio_stream (input : Members) : bool :=
  bool_decide (assoc_str "codec_type" input ≫= json_as_str = Some "audio").
Definition validate_stream (stream : Json) : PW unit :=
  input ← ok_or (json_members stream) PMalformedResult;
  _ ← validate_numeric_types input ["index"; "width"; "height"; "duration"; "sample_rate"; "channels"];
  _ ← (if is_audio_stream input then
         _ ← validate_numeric_types input ["bits_per_raw_sample"; "bits_per_sample"];
         validate_text_types input ["sample_fmt"; "channel_layout"]
       else Ok tt);
  _ ← validate_tags input;
  validate_disposition input.
Fixpoint validate_streams (streams : list Json) : PW unit :=
  match streams with
  | [] => Ok tt
  | s :: streams' => _ ← validate_stream s; validate_streams streams'
  end.
Definition validate_provider_structure (root : Members) : PW unit :=
  format ← optional_object root "format";
  _ ← match format with Some f => validate_numeric_types f ["duration"; "bit_rate"] | None => Ok tt end;
  streams ← optional_array root "streams";
  match streams with Some l => validate_streams l | None => Ok tt end.

(** ** Insertions *)

Definition known_text (input : Members) (key : string) : option string :=
  s ← assoc_str key input ≫= json_as_str; if is_unknown_value (lit s) then None else Some s.
Definition insert_string_as (input output : Members) (input_key output_key : string) : Members :=
  match known_text input input_key with Some v => put output_key (JStr v) output | None => output end.
Definition insert_string (input output : Members) (key : string) : Members :=
  insert_string_as input output key key.
Definition insert_u64_as_string (input output : Members) (key : string) : Members :=
  match assoc_str key input with
  | None => output
  | Some v =>
      if json_is_string v then insert_string input output key
      else match json_as_u64 v with
           | Some n => put key (json_string (decimal n)) output
           | None => output
           end
  end.
Definition insert_f64_string `{F64Reading} (input output : Members) (input_key output_key : string) :
    PW Members :=
  match assoc_str input_key input with
  | None => Ok output
  | Some v =>
      parsed ← optional_f64 v;
      Ok (match parsed with Some n => put output_key n output | None => output end)
  end.
(** [insert_u64_string] and [insert_u64_value], which are the same. *)
Definition insert_u64_value (input output : Members) (input_key output_key : string) : PW Members :=
  match assoc_str input_key input with
  | None => Ok output
  | Some v =>
      parsed ← optional_u64 v;
      Ok (match parsed with Some n => put output_key (JInt n) output | None => output end)
  end.

(** ** Tags *)

Fixpoint tag_text (tags : Members) (name : string) : option string :=
  match tags with
  | [] => None
  | (key, v) :: tags' =>
      match (if eq_ignore_ascii_case (lit key) (lit name) then json_as_str v else None) with
      | Some s => Some s
      | None => tag_text tags' name
      end
  end.
Definition known_tag (tags : Members) (name : string) : option string :=
  s ← tag_text tags name; if is_unknown_value (lit s) then None else Some s.
Definition insert_tag (tags output : Members) (names : string * string) : Members :=
  match known_tag tags (fst names) with Some v => put (snd names) (JStr v) output | None => output end.
Definition TAG_NAMES : list (string * string) :=
  [("language", "language"); ("title", "title"); ("role", "role"); ("handler_name", "handler_name");
   ("filename", "filename"); ("mimetype", "mime_type")].

Fixpoint observed_from (tags : Members) (name : string) (observed : option string) : PW (option string) :=
  match tags with
  | [] => Ok observed
  | (key, v) :: tags' =>
      if negb (eq_ignore_ascii_case (lit key) (lit name)) then observed_from tags' name observed else
      s ← ok_or (json_as_str v) PMalformedResult;
      if negb (non_empty (trim (lit s))) then Err PMalformedMedia else
      if match observed with Some previous => negb (String.eqb previous s) | None => false end
      then Err PMalformedMedia else observed_from tags' name (Some s)
  end.
Definition observed_identity_tag (tags : Members) (name : string) : PW (option string) :=
  observed_from tags name None.

Fixpoint invalid_language_from (tags : Members) (observed : option string) : bool :=
  match tags with
  | [] => false
  | (key, v) :: tags' =>
      if negb (eq_ignore_ascii_case (lit key) (lit "language")) then invalid_language_from tags' observed else
      match v with
      | JNull => invalid_language_from tags' observed
      | JStr s =>
          if is_unknown_value (lit s) then invalid_language_from tags' observed
          else if is_canonical_language_code (lit s) then
            match observed with
            | Some previous => if String.eqb previous s then invalid_language_from tags' (Some s) else true
            | None => invalid_language_from tags' (Some s)
            end
          else true
      | _ => true
      end
  end.
Definition invalid_language_tags (tags : Members) : bool := invalid_language_from tags None.

Definition insert_identity (tags output : Members) (tag field : string) : PW Members :=
  v ← observed_identity_tag tags tag;
  Ok (match v with Some s => put field (JStr s) output | None => output end).
Definition insert_stream_tags (input output : Members) : PW Members :=
  match assoc_str "tags" input ≫= json_members with
  | None => Ok output
  | Some tags =>
      let output := fold_left (insert_tag tags) TAG_NAMES output in
      output ← insert_identity tags output "voom_compatibility_stream_id" "id";
      output ← insert_identity tags output "voom_compatibility_source_stream_id"
                 "compatibility_source_snapshot_stream_id";
      Ok (if invalid_language_tags tags then put "compatibility_invalid_language" (JBool true) output
          else output)
  end.

(** ** Dispositions *)

Definition probe_disposition_bool (v : Json) : PW bool :=
  match v with
  | JBool b => Ok b
  | JInt n => if n =? 0 then Ok false else if n =? 1 then Ok true else Err PMalformedMedia
  | JStr s => if String.eqb s "0" then Ok false else if String.eqb s "1" then Ok true else Err PMalformedMedia
  | JFloat _ => Err PMalformedMedia
  | _ => Err PMalformedResult
  end.
Definition insert_flag (flags normalized : Members) (input_key output_key : string) : PW Members :=
  match assoc_str input_key flags with
  | None => Ok normalized
  | Some v => b ← probe_disposition_bool v; Ok (put output_key (JBool b) normalized)
  end.
Definition insert_disposition (input output : Members) : PW Members :=
  match assoc_str "disposition" input with
  | None => Ok output
  | Some v =>
      flags ← ok_or (json_members v) PMalformedResult;
      normalized ← insert_flag flags [] "default" "default";
      normalized ← insert_flag flags normalized "forced" "forced";
      normalized ← insert_flag flags normalized "comment" "commentary";
      normalized ← match assoc_str "attached_pic" flags with
                   | None => Ok normalized
                   | Some v =>
                       b ← probe_disposition_bool v;
                       Ok (if b : bool then put "attached_pic" (JBool true) normalized else normalized)
                   end;
      Ok (match normalized with [] => output | _ => put "disposition" (JObj normalized) output end)
  end.

(** ** Audio samples *)

Record AudioSampleFacts := {
  sample_rate : option Z;
  sample_format : option bytes;
  bits_per_sample : option Z;
  sample_channels : option Z;
  sample_layout : option bytes;
}.
(** The errors carry a text only. *)
Abbreviation SF := (result unit).

Definition sample_unsigned (stream : Json) (key : string) : SF (option Z) :=
  match json_get stream key with
  | None => Ok None
  | Some v =>
      match v with
      | JStr raw =>
          if is_unknown_value (lit raw) then Ok None
          else n ← ok_or (parse_u64 (lit raw)) tt; Ok (if 0 <? n then Some n else None)
      | _ => n ← ok_or (json_as_u64 v) tt; Ok (if 0 <? n then Some n else None)
      end
  end.
Definition sample_string (stream : Json) (key : string) : SF (option bytes) :=
  match json_get stream key with
  | None => Ok None
  | Some v => t ← ok_or (json_text v) tt; Ok (if is_unknown_value t then None else Some t)
  end.
(** [Option::map(T::try_from).transpose()] for a type with the maximum [max]. *)
Definition bounded (max : Z) (v : option Z) : SF (option Z) :=
  match v with Some n => if n <=? max then Ok (Some n) else Err tt | None => Ok None end.
Definition sample_capacity (format : option bytes) : option Z :=
  match format with
  | Some f => if one_of ["s16"; "s16p"] f then Some 16 else if one_of ["s32"; "s32p"] f then Some 32 else None
  | None => None
  end.
Definition exceeds (bits : option Z) (cap : Z) : bool :=
  match bits with Some b => cap <? b | None => false end.
Definition AudioSampleFacts_from_ffprobe (stream : Json) : SF AudioSampleFacts :=
  rate ← sample_unsigned stream "sample_rate"; rate ← bounded u32_max rate;
  raw_bits ← sample_unsigned stream "bits_per_raw_sample"; raw_bits ← bounded 255 raw_bits;
  coded_bits ← sample_unsigned stream "bits_per_sample"; coded_bits ← bounded 255 coded_bits;
  if match raw_bits, coded_bits with Some raw, Some coded => coded <? raw | _, _ => false end then Err tt else
  format ← sample_string stream "sample_fmt";
  if match sample_capacity format with
     | Some cap => exceeds raw_bits cap || exceeds coded_bits cap
     | None => false
     end then Err tt else
  channels ← sample_unsigned stream "channels";
  layout ← sample_string stream "channel_layout";
  Ok {| sample_rate := rate; sample_format := format;
        bits_per_sample := match raw_bits with Some b => Some b | None => coded_bits end;
        sample_channels := channels; sample_layout := layout |}.

(** ** Streams and containers *)

Section normalize.
Context {floats : F64Reading}.

Definition container_object (format : Members) : PW Members :=
  let container := insert_string format [] "format_name" in
  let container := insert_string format container "format_long_name" in
  container ← insert_f64_string format container "duration" "duration_seconds";
  insert_u64_value format container "bit_rate" "bit_rate".

Definition insert_sample_facts (stream : Json) (output : Members) : PW Members :=
  match AudioSampleFacts_from_ffprobe stream with
  | Err _ => Err PMalformedMedia
  | Ok facts =>
      let output := match sample_format facts with
                    | Some f => put "sample_format" (json_string f) output | None => output end in
      Ok (match bits_per_sample facts with
          | Some b => put "bits_per_sample" (JInt b) output | None => output end)
  end.
Definition stream_object (stream : Json) : PW Json :=
  input ← ok_or (json_members stream) PMalformedResult;
  output ← insert_u64_value input [] "index" "index";
  let output := insert_string_as input output "codec_type" "kind" in
  let output := insert_string input output "codec_name" in
  output ← insert_u64_value input output "width" "width";
  output ← insert_u64_value input output "height" "height";
  output ← insert_f64_string input output "duration" "duration_seconds";
  let output := insert_string input output "avg_frame_rate" in
  output ← insert_u64_value input output "sample_rate" "sample_rate";
  output ← (if is_audio_stream input then insert_sample_facts stream output else Ok output);
  output ← insert_u64_value input output "channels" "channels";
  let output := insert_string input output "channel_layout" in
  let output := insert_string_as input output "pix_fmt" "pixel_format" in
  let output := insert_string input output "profile" in
  let output := insert_u64_as_string input output "level" in
  output ← insert_stream_tags input output;
  output ← insert_disposition input output;
  Ok (JObj output).
Definition stream_objects (streams : list Json) : PW (list Json) := collect stream_object streams.

(** ** Snapshots *)

Definition probe_object (provider_version probed_at : string) : Members :=
  [("provider", JStr "ffprobe"); ("provider_version", JStr provider_version); ("command", JStr "ffprobe");
   ("probed_at", JStr probed_at)].

(** The bytes of a text and of a value as [serde_json] writes them without spaces. *)
Definition escaped_length (c : ascii) : Z :=
  if eqc quote c || eqc backslash c then 2
  else if existsb (Nat.eqb (byte c)) [8; 9; 10; 12; 13]%nat then 2
  else if (byte c <? 32)%nat then 6 else 1.
Definition text_size (t : bytes) : Z := 2 + fold_right (fun c n => escaped_length c + n) 0 t.
Definition int_size (n : Z) : Z :=
  (if n <? 0 then 1 else 0) + Z.of_nat (length (decimal (Z.abs n))).
Fixpoint json_size (j : Json) : Z :=
  match j with
  | JNull => 4
  | JBool b => if b then 4 else 5
  | JInt n => int_size n
  | JFloat t => Z.of_nat (String.length t)
  | JStr s => text_size (lit s)
  | JArr [] | JObj [] => 2
  | JArr l => 1 + fold_right (fun v n => json_size v + 1 + n) 0 l
  | JObj ms => 1 + fold_right (fun m n => text_size (lit (fst m)) + 1 + json_size (snd m) + 1 + n) 0 ms
  end.
Definition MAX_PROBE_SNAPSHOT_BYTES : Z := 60 * 1024.
Definition bound_snapshot (snapshot : Members) (raw : Json) : PW Json :=
  let full := put "raw" (JObj [("ffprobe_json", raw)]) snapshot in
  if json_size (JObj full) <=? MAX_PROBE_SNAPSHOT_BYTES then Ok (JObj full) else
  let reduced := put "raw" (JObj [("ffprobe_json_omitted_bytes", JInt (json_size raw))]) full in
  if MAX_PROBE_SNAPSHOT_BYTES <? json_size (JObj reduced) then Err PMalformedMedia else Ok (JObj reduced).

Definition normalize_ffprobe_json (raw : Json) (provider_version probed_at : string) : PW Json :=
  root ← ok_or (json_members raw) PMalformedResult;
  _ ← validate_provider_structure root;
  let snapshot := [("format", JStr "sprint10-v1"); ("probe", JObj (probe_object provider_version probed_at))] in
  format ← optional_object root "format";
  snapshot ← match format with
             | None => Ok snapshot
             | Some f => c ← container_object f; Ok (put "container" (JObj c) snapshot)
             end;
  streams ← optional_array root "streams";
  snapshot ← match streams with
             | None => Ok snapshot
             | Some l => l ← stream_objects l; Ok (put "streams" (JArr l) snapshot)
             end;
  bound_snapshot snapshot raw.
End normalize.
