(* ===== verification/ProbeLaws.v ===== *)
(** * What a probe promises

    Which errors the normalization of a probe makes, the size of a snapshot, and
    the facts of a stream in it. *)

From Stdlib Require Import ZArith Lia Bool String Ascii.
From stdpp Require Import base gmap strings list.
From S2P Require Import Prelude Vocab Json Bytes PolicySyntax TrackFilters PolicyCompiled PlanModel.
From S2P Require Import Probe.

Open Scope string_scope.
Open Scope list_scope.
Open Scope Z_scope.

(** ** Errors *)

(** Computations that blame the media only, and the provider only. *)
Definition blames {A} (e : ProbeError) (m : PW A) : Prop := forall e', m = Err e' -> e' = e.
Lemma blames_ok {A} e (a : A) : blames e (Ok a).
Proof. done. Qed.
Lemma blames_bind {A B} e (m : PW A) (f : A -> PW B) :
  blames e m -> (forall a, m = Ok a -> blames e (f a)) -> blames e (m ≫= f).
Proof. intros Hm Hf e'. destruct m as [a|e'']; cbn; [by apply Hf|]. intros [= <-]. by apply Hm. Qed.
Lemma blames_ok_or {A} e (o : option A) : blames e (ok_or o e).
Proof. by destruct o; intros e' [= <-]. Qed.
Create HintDb probe.
#[local] Hint Resolve blames_ok blames_ok_or : probe.

Lemma numeric_types_blame input keys : blames PMalformedResult (validate_numeric_types input keys).
Proof. induction keys as [|k keys IH]; cbn; [done|]. destruct (assoc_str k input) as [v|]; [|done].
  destruct (negb _ && negb _); [by intros e [= <-]|done]. Qed.
Lemma text_types_blame input keys : blames PMalformedResult (validate_text_types input keys).
Proof. induction keys as [|k keys IH]; cbn; [done|]. destruct (assoc_str k input) as [v|]; [|done].
  destruct (negb _); [by intros e [= <-]|done]. Qed.
Lemma optional_object_blame input key : blames PMalformedResult (optional_object input key).
Proof. unfold optional_object. destruct (assoc_str key input) as [[]|]; cbn; try done; by intros e [= <-]. Qed.
Lemma optional_array_blame input key : blames PMalformedResult (optional_array input key).
Proof. unfold optional_array. destruct (assoc_str key input) as [[]|]; cbn; try done; by intros e [= <-]. Qed.
#[local] Hint Resolve numeric_types_blame text_types_blame optional_object_blame optional_array_blame : probe.

Lemma validate_stream_blame stream : blames PMalformedResult (validate_stream stream).
Proof.
  unfold validate_stream. apply blames_bind; [auto with probe|]. intros input _.
  apply blames_bind; [auto with probe|]. intros _ _. apply blames_bind.
  { destruct (is_audio_stream input); [apply blames_bind|]; auto with probe. }
  intros _ _. apply blames_bind.
  { unfold validate_tags. destruct (_ ≫= _) as [tags|]; [|done]. destruct (existsb _ _); [by intros e [= <-]|done]. }
  intros _ _. unfold validate_disposition. destruct (assoc_str _ _) as [v|]; [|done].
  apply blames_bind; [auto with probe|]. intros flags _. destruct (forallb _ _); [done|by intros e [= <-]].
Qed.
Lemma validate_streams_blame streams : blames PMalformedResult (validate_streams streams).
Proof.
  induction streams as [|s streams IH]; cbn; [done|]. apply blames_bind; [apply validate_stream_blame|done].
Qed.
Lemma structure_blame root : blames PMalformedResult (validate_provider_structure root).
Proof.
  unfold validate_provider_structure. apply blames_bind; [auto with probe|]. intros format _.
  apply blames_bind; [destruct format; auto with probe|]. intros _ _.
  apply blames_bind; [auto with probe|]. intros [l|] _; [apply validate_streams_blame|done].
Qed.

(** *** What the structure check leaves to the media *)

Definition typed (input : Members) (key : string) : Prop :=
  forall v, assoc_str key input = Some v -> json_is_string v = true \/ json_is_number v = true.
Lemma numeric_types_typed input keys key :
  validate_numeric_types input keys = Ok tt -> key ∈ keys -> typed input key.
Proof.
  induction keys as [|k keys IH]; [by intros _ ?%elem_of_nil|]. cbn.
  destruct (match assoc_str k input with Some v => _ | None => _ end) eqn:E; [done|].
  intros Hv [->|Hin]%elem_of_cons v Hk; [|by eapply IH].
  rewrite Hk in E. destruct (json_is_string v); [by left|]. right. by destruct (json_is_number v).
Qed.

Lemma u64_value_blame input output a b :
  typed input a -> blames PMalformedMedia (insert_u64_value input output a b).
Proof.
  intros Ht. unfold insert_u64_value. destruct (assoc_str a input) as [v|] eqn:Hv; [|done].
  apply blames_bind; [|done]. unfold optional_u64. destruct (Ht v Hv) as [Hs|Hn].
  - destruct v; try done. cbn. destruct (is_unknown_value _); [done|]. apply blames_bind; auto with probe.
  - destruct (json_text v) as [raw|]; [destruct (is_unknown_value _); [done|]; apply blames_bind; auto with probe|].
    destruct (json_as_u64 v); [done|]. rewrite Hn. by intros e [= <-].
Qed.
Lemma f64_string_blame `{F64Reading} input output a b :
  typed input a -> blames PMalformedMedia (insert_f64_string input output a b).
Proof.
  intros Ht. unfold insert_f64_string. destruct (assoc_str a input) as [v|] eqn:Hv; [|done].
  apply blames_bind; [|done]. unfold optional_f64.
  destruct (json_text v) as [raw|] eqn:Hr.
  { destruct (is_unknown_value _); [done|]. apply blames_bind; auto with probe. }
  destruct (Ht v Hv) as [Hs|Hn]; [by destruct v|]. by rewrite Hn.
Qed.

Lemma observed_blame tags name observed :
  is_identity_tag name = true ->
  existsb (fun m => is_identity_tag (fst m) && negb (json_is_string (snd m))) tags = false ->
  blames PMalformedMedia (observed_from tags name observed).
Proof.
  intros Hname. revert observed. induction tags as [|[key v] tags IH]; intros observed; cbn; [done|].
  intros [Hv Htags]%orb_false_iff. destruct (eq_ignore_ascii_case (lit key) (lit name)) eqn:Hk; cbn [negb]; [|by apply IH].
  assert (is_identity_tag key = true) as Hid.
  { unfold is_identity_tag, eq_ignore_ascii_case in *. apply eqb_text_true in Hk. by rewrite Hk. }
  rewrite Hid in Hv. cbn in Hv. apply negb_false_iff in Hv. destruct v; try done. cbn.
  destruct (negb _); [by intros e [= <-]|]. destruct (match observed with Some _ => _ | None => _ end);
    [by intros e [= <-]|by apply IH].
Qed.
Lemma stream_tags_blame input output : validate_tags input = Ok tt -> blames PMalformedMedia (insert_stream_tags input output).
Proof.
  unfold validate_tags, insert_stream_tags. destruct (_ ≫= _) as [tags|]; [|done].
  destruct (existsb _ tags) eqn:E; [done|]. intros _. unfold insert_identity, observed_identity_tag.
  apply blames_bind; [apply blames_bind; [by apply observed_blame|done]|]. intros out _.
  apply blames_bind; [apply blames_bind; [by apply observed_blame|done]|done].
Qed.

Lemma flag_blame v :
  json_is_bool v || json_is_number v || json_is_string v = true -> blames PMalformedMedia (probe_disposition_bool v).
Proof. destruct v; cbn; intros Hv e; try done; repeat case_match; try done; congruence. Qed.
Lemma insert_flag_blame flags normalized a b :
  flag_typed flags a = true -> blames PMalformedMedia (insert_flag flags normalized a b).
Proof.
  unfold flag_typed, insert_flag. destruct (assoc_str a flags); [|done]. intros Hv.
  apply blames_bind; [by apply flag_blame|done].
Qed.
Lemma disposition_blame input output :
  validate_disposition input = Ok tt -> blames PMalformedMedia (insert_disposition input output).
Proof.
  unfold validate_disposition, insert_disposition. destruct (assoc_str _ input) as [v|]; [|done].
  destruct (json_members v) as [flags|]; [|done]. cbn [ok_or mbind result_mbind].
  destruct (forallb _ _) eqn:E; [|done]. intros _. cbn in E. rewrite !andb_true_iff in E.
  destruct E as (E1 & E2 & E3 & E4 & _).
  apply blames_bind; [by apply insert_flag_blame|]. intros n1 _.
  apply blames_bind; [by apply insert_flag_blame|]. intros n2 _.
  apply blames_bind; [by apply insert_flag_blame|]. intros n3 _. apply blames_bind; [|done].
  unfold flag_typed in E4. destruct (assoc_str "attached_pic" flags); [|done].
  apply blames_bind; [by apply flag_blame|done].
Qed.

Section normalize.
Context {floats : F64Reading}.

Lemma stream_object_blame stream :
  validate_stream stream = Ok tt -> blames PMalformedMedia (stream_object stream).
Proof.
  unfold validate_stream, stream_object. destruct (json_members stream) as [input|]; [|done].
  cbn [ok_or mbind result_mbind].
  intros ([] & Hn & ([] & _ & ([] & Ht & Hd)%result_bind_ok)%result_bind_ok)%result_bind_ok.
  assert (forall key, key ∈ ["index"; "width"; "height"; "duration"; "sample_rate"; "channels"] -> typed input key)
    as Htyped by (intros key; by apply numeric_types_typed).
  repeat (apply blames_bind; [first [apply u64_value_blame, Htyped; set_solver
    |apply f64_string_blame, Htyped; set_solver|idtac]|intros ? _]).
  - destruct (is_audio_stream input); [|done]. unfold insert_sample_facts.
    destruct (AudioSampleFacts_from_ffprobe stream); [done|by intros ? [= <-]].
  - by apply stream_tags_blame.
  - by apply disposition_blame.
  - done.
Qed.
Lemma stream_objects_blame streams :
  validate_streams streams = Ok tt -> blames PMalformedMedia (stream_objects streams).
Proof.
  unfold stream_objects. induction streams as [|s streams IH]; [done|]. cbn.
  intros ([] & Hs & Hss)%result_bind_ok. apply blames_bind; [by apply stream_object_blame|]. intros j _.
  apply blames_bind; [by apply IH|done].
Qed.
Lemma bound_snapshot_blame snapshot raw : blames PMalformedMedia (bound_snapshot snapshot raw).
Proof.
  unfold bound_snapshot. destruct (_ <=? _); [done|]. by destruct (_ <? _); [intros ? [= <-]|].
Qed.

Lemma normalize_blame raw root version at_ :
  json_members raw = Some root -> validate_provider_structure root = Ok tt ->
  blames PMalformedMedia (normalize_ffprobe_json raw version at_).
Proof.
  intros Hroot Hst. unfold normalize_ffprobe_json. rewrite Hroot. cbn [ok_or mbind result_mbind].
  rewrite Hst. cbn [mbind result_mbind]. unfold validate_provider_structure in Hst.
  apply result_bind_ok in Hst as (format & Hf & ([] & Hfn & (streams & Hs & Hss)%result_bind_ok)%result_bind_ok).
  rewrite Hf, Hs. cbn [mbind result_mbind]. apply blames_bind.
  { destruct format as [f|]; [|done]. apply blames_bind; [|done]. unfold container_object.
    apply blames_bind; [|intros; apply u64_value_blame].
    - apply f64_string_blame. eapply numeric_types_typed; [exact Hfn|set_solver].
    - eapply numeric_types_typed; [exact Hfn|set_solver]. }
  intros snapshot _. apply blames_bind; [|intros; apply bound_snapshot_blame].
  destruct streams as [l|]; [|done]. apply blames_bind; [by apply stream_objects_blame|done].
Qed.

(** ** Facts *)

Lemma assoc_put k k' v ms : assoc_str k (put k' v ms) = if String.eqb k k' then Some v else assoc_str k ms.
Proof.
  induction ms as [|[k1 v1] ms IH]; cbn; [done|]. destruct (String.eqb_spec k' k1) as [->|Hne]; cbn.
  - by destruct (String.eqb_spec k k1).
  - rewrite IH. destruct (String.eqb_spec k k1) as [->|]; [|done]. by destruct (String.eqb_spec k1 k').
Qed.
Lemma assoc_string_as input output a b k :
  assoc_str k (insert_string_as input output a b)
  = if String.eqb k b then match known_text input a with Some s => Some (JStr s) | None => assoc_str k output end
    else assoc_str k output.
Proof.
  unfold insert_string_as. destruct (known_text input a); [apply assoc_put|]. by destruct (String.eqb k b).
Qed.

(** The number a probe gives for a key, where it gives one. *)
Definition known_u64 (input : Members) (key : string) : option Z :=
  v ← assoc_str key input; match optional_u64 v with Ok o => o | Err _ => None end.
Lemma assoc_u64_value input output a b k output' :
  insert_u64_value input output a b = Ok output' ->
  assoc_str k output'
  = if String.eqb k b then match known_u64 input a with Some n => Some (JInt n) | None => assoc_str k output end
    else assoc_str k output.
Proof.
  unfold insert_u64_value, known_u64. destruct (assoc_str a input) as [v|]; cbn.
  - destruct (optional_u64 v) as [[n|]|]; cbn; intros [= <-]; [apply assoc_put|by destruct (String.eqb k b)].
  - intros [= <-]. by destruct (String.eqb k b).
Qed.
Lemma assoc_f64_string input output a b k output' :
  insert_f64_string input output a b = Ok output' -> String.eqb k b = false -> assoc_str k output' = assoc_str k output.
Proof.
  unfold insert_f64_string. destruct (assoc_str a input) as [v|]; [|by intros [= <-]].
  destruct (optional_f64 v) as [[n|]|]; cbn; intros [= <-] Hk; [by rewrite assoc_put, Hk|done].
Qed.
Lemma assoc_sample_facts stream output output' k :
  insert_sample_facts stream output = Ok output' -> k <> "sample_format" -> k <> "bits_per_sample" ->
  assoc_str k output' = assoc_str k output.
Proof.
  unfold insert_sample_facts. destruct (AudioSampleFacts_from_ffprobe stream) as [f|]; [|done].
  intros [= <-] H1%String.eqb_neq H2%String.eqb_neq.
  destruct (bits_per_sample f), (sample_format f); by rewrite ?assoc_put, ?H1, ?H2.
Qed.
Definition known_level (input : Members) : option string :=
  v ← assoc_str "level" input;
  match v with
  | JStr s => if is_unknown_value (lit s) then None else Some s
  | _ => (fun n => string_of_list_ascii (decimal n)) <$> json_as_u64 v
  end.
Lemma assoc_level input output k :
  assoc_str k (insert_u64_as_string input output "level")
  = if String.eqb k "level" then match known_level input with Some s => Some (JStr s) | None => assoc_str k output end
    else assoc_str k output.
Proof.
  unfold insert_u64_as_string, known_level. destruct (assoc_str "level" input) as [v|] eqn:Hv; cbn.
  2: by destruct (String.eqb k "level").
  destruct v; cbn; try by destruct (String.eqb k "level").
  - destruct (is_u64 n); cbn; [apply assoc_put|by destruct (String.eqb k "level")].
  - unfold insert_string. rewrite assoc_string_as. unfold known_text. rewrite Hv. cbn.
    by destruct (is_unknown_value _).
Qed.

(** The keys the tags of a stream are written under. *)
Definition TAG_KEYS : list string :=
  map snd TAG_NAMES ++ ["id"; "compatibility_source_snapshot_stream_id"; "compatibility_invalid_language"].
Lemma assoc_stream_tags input output output' k :
  insert_stream_tags input output = Ok output' -> (k ∉ TAG_KEYS) -> assoc_str k output' = assoc_str k output.
Proof.
  unfold insert_stream_tags. destruct (_ ≫= _) as [tags|]; [|by intros [= <-]].
  intros (o1 & H1 & (o2 & H2 & [= <-])%result_bind_ok)%result_bind_ok Hk.
  unfold TAG_KEYS in Hk. rewrite elem_of_app in Hk.
  assert (forall l o, (k ∉ map snd l) -> assoc_str k (fold_left (insert_tag tags) l o) = assoc_str k o) as Hfold.
  { induction l as [|[a b] l IH]; intros o Hl; [done|]. cbn in Hl |- *. rewrite IH by set_solver.
    unfold insert_tag. cbn. destruct (known_tag tags a); [|done]. rewrite assoc_put.
    rewrite (proj2 (String.eqb_neq k b)); [done|set_solver]. }
  assert (forall o tag field o', insert_identity tags o tag field = Ok o' -> k <> field -> assoc_str k o' = assoc_str k o)
    as Hid.
  { intros o tag field o'. unfold insert_identity. destruct (observed_identity_tag tags tag) as [[s|]|]; cbn;
      intros [= <-] Hf; [|done]. by rewrite assoc_put, (proj2 (String.eqb_neq k field)). }
  transitivity (assoc_str k o2).
  { destruct (invalid_language_tags tags); [|done]. rewrite assoc_put, (proj2 (String.eqb_neq k _)); [done|].
    intros ->. apply Hk. right. set_solver. }
  rewrite (Hid _ _ _ _ H2) by (intros ->; apply Hk; right; set_solver).
  rewrite (Hid _ _ _ _ H1) by (intros ->; apply Hk; right; set_solver). apply Hfold. tauto.
Qed.

Lemma assoc_disposition input output output' k :
  insert_disposition input output = Ok output' -> k <> "disposition" -> assoc_str k output' = assoc_str k output.
Proof.
  unfold insert_disposition. destruct (assoc_str "disposition" input) as [v|]; [|by intros [= <-]].
  intros (f & _ & (n1 & _ & (n2 & _ & (n3 & _ & (n4 & _ & [= <-])%result_bind_ok)%result_bind_ok)%result_bind_ok)
    %result_bind_ok)%result_bind_ok Hk%String.eqb_neq. destruct n4; [done|]. by rewrite assoc_put, Hk.
Qed.

(** A member of a normalized stream, beside its tags, its disposition and the facts of
    its samples. *)
Definition stream_member (input : Members) (k : string) : option Json :=
  if String.eqb k "kind" then JStr <$> known_text input "codec_type"
  else if String.eqb k "pixel_format" then JStr <$> known_text input "pix_fmt"
  else if String.eqb k "level" then JStr <$> known_level input
  else if existsb (String.eqb k) ["index"; "width"; "height"; "sample_rate"; "channels"]
  then JInt <$> known_u64 input k
  else if existsb (String.eqb k) ["codec_name"; "avg_frame_rate"; "channel_layout"; "profile"]
  then JStr <$> known_text input k
  else None.
Definition other_keys : list string :=
  TAG_KEYS ++ ["disposition"; "duration_seconds"; "sample_format"; "bits_per_sample"].

Lemma stream_object_member stream input out k :
  json_members stream = Some input -> stream_object stream = Ok out -> (k ∉ other_keys) ->
  json_get out k = stream_member input k.
Proof.
  intros Hi. unfold stream_object. rewrite Hi. cbn [ok_or mbind result_mbind]. unfold other_keys. rewrite elem_of_app.
  intros (o1 & H1 & H)%result_bind_ok Hk. cbn zeta in H.
  apply result_bind_ok in H as (o2 & H2 & (o3 & H3 & (o4 & H4 & H)%result_bind_ok)%result_bind_ok). cbn zeta in H.
  apply result_bind_ok in H as (o5 & H5 & (o6 & H6 & (o7 & H7 & H)%result_bind_ok)%result_bind_ok). cbn zeta in H.
  apply result_bind_ok in H as (o8 & H8 & (o9 & H9 & [= <-])%result_bind_ok). cbn [json_get].
  unfold insert_string in *. rewrite (assoc_disposition _ _ _ _ H9) by (intros ->; apply Hk; right; set_solver).
  rewrite (assoc_stream_tags _ _ _ _ H8) by tauto. rewrite assoc_level, !assoc_string_as.
  rewrite (assoc_u64_value _ _ _ _ k _ H7).
  assert (assoc_str k o6 = assoc_str k o5) as ->.
  { destruct (is_audio_stream input); [|by injection H6 as ->].
    eapply assoc_sample_facts; [exact H6|intros ->; apply Hk; right; set_solver..]. }
  rewrite (assoc_u64_value _ _ _ _ k _ H5), assoc_string_as.
  rewrite (assoc_f64_string _ _ _ _ k _ H4) by (apply String.eqb_neq; intros ->; apply Hk; right; set_solver).
  rewrite (assoc_u64_value _ _ _ _ k _ H3), (assoc_u64_value _ _ _ _ k _ H2). rewrite !assoc_string_as.
  rewrite (assoc_u64_value _ _ _ _ k _ H1). unfold stream_member. cbn [existsb].
  repeat match goal with |- context [String.eqb k ?w] => destruct (String.eqb_spec k w) as [->|?] end;
    cbn; try discriminate; repeat case_match; congruence || done.
Qed.

(** The flag of an attached picture in a normalized stream. *)
Lemma stream_object_disposition stream input out :
  json_members stream = Some input -> stream_object stream = Ok out ->
  exists before after, insert_disposition input before = Ok after /\ out = JObj after
                       /\ assoc_str "disposition" before = None.
Proof.
  intros Hi. unfold stream_object. rewrite Hi. cbn [ok_or mbind result_mbind].
  intros (o1 & H1 & H)%result_bind_ok. cbn zeta in H.
  apply result_bind_ok in H as (o2 & H2 & (o3 & H3 & (o4 & H4 & H)%result_bind_ok)%result_bind_ok). cbn zeta in H.
  apply result_bind_ok in H as (o5 & H5 & (o6 & H6 & (o7 & H7 & H)%result_bind_ok)%result_bind_ok). cbn zeta in H.
  apply result_bind_ok in H as (o8 & H8 & (o9 & H9 & [= <-])%result_bind_ok). exists o8, o9. split_and!; [done..|].
  unfold insert_string in *. rewrite (assoc_stream_tags _ _ _ _ H8) by (unfold TAG_KEYS, TAG_NAMES; set_solver).
  rewrite assoc_level, !assoc_string_as. cbn [String.eqb Ascii.eqb Bool.eqb].
  rewrite (assoc_u64_value _ _ _ _ "disposition" _ H7). cbn [String.eqb Ascii.eqb Bool.eqb].
  assert (assoc_str "disposition" o6 = assoc_str "disposition" o5) as ->.
  { destruct (is_audio_stream input); [|by injection H6 as ->]. by eapply assoc_sample_facts. }
  rewrite (assoc_u64_value _ _ _ _ "disposition" _ H5), assoc_string_as. cbn [String.eqb Ascii.eqb Bool.eqb].
  rewrite (assoc_f64_string _ _ _ _ "disposition" _ H4) by done.
  rewrite (assoc_u64_value _ _ _ _ "disposition" _ H3), (assoc_u64_value _ _ _ _ "disposition" _ H2).
  rewrite !assoc_string_as, (assoc_u64_value _ _ _ _ "disposition" _ H1). done.
Qed.
Lemma assoc_insert_flag flags normalized a b normalized' k :
  insert_flag flags normalized a b = Ok normalized' -> String.eqb k b = false ->
  assoc_str k normalized' = assoc_str k normalized.
Proof.
  unfold insert_flag. destruct (assoc_str a flags); [|by intros [= <-]].
  intros (? & _ & [= <-])%result_bind_ok Hk. by rewrite assoc_put, Hk.
Qed.
Lemma stored_picture stream input out :
  json_members stream = Some input -> stream_object stream = Ok out ->
  (json_path out ["disposition"; "attached_pic"] ≫= json_as_bool = Some true
   <-> exists flags v, assoc_str "disposition" input = Some (JObj flags) /\ assoc_str "attached_pic" flags = Some v
                       /\ probe_disposition_bool v = Ok true).
Proof.
  intros Hi Hs. destruct (stream_object_disposition _ _ _ Hi Hs) as (before & after & Hd & -> & Hnone).
  cbn [json_path json_get]. unfold insert_disposition in Hd. destruct (assoc_str "disposition" input) as [d|].
  2: { injection Hd as <-. rewrite Hnone. split; [done|]. by intros (? & ? & ? & _). }
  apply result_bind_ok in Hd as (flags & Hf%ok_or_ok & (n1 & H1 & (n2 & H2 & (n3 & H3 & (n4 & H4 & [= <-])
    %result_bind_ok)%result_bind_ok)%result_bind_ok)%result_bind_ok). destruct d; try done. injection Hf as ->.
  assert (assoc_str "attached_pic" n3 = None) as Hn3.
  { rewrite (assoc_insert_flag _ _ _ _ _ _ H3), (assoc_insert_flag _ _ _ _ _ _ H2), (assoc_insert_flag _ _ _ _ _ _ H1);
      done. }
  transitivity (assoc_str "attached_pic" n4 ≫= json_as_bool = Some true).
  { destruct n4 as [|m n4]; [by rewrite Hnone|]. rewrite assoc_put. cbn [String.eqb Ascii.eqb Bool.eqb].
    cbn [mbind option_bind json_path json_get]. destruct (assoc_str "attached_pic" (m :: n4)); done. }
  destruct (assoc_str "attached_pic" flags) as [v|] eqn:Hv.
  - apply result_bind_ok in H4 as (b & Hb & [= <-]). split.
    + intros H. exists flags, v. split_and!; [done|done|]. destruct b; [done|]. by rewrite Hn3 in H.
    + intros (? & ? & [= <-] & Hv' & Hp). rewrite Hv in Hv'. injection Hv' as <-. rewrite Hb in Hp.
      injection Hp as ->. by rewrite assoc_put.
  - injection H4 as <-. rewrite Hn3. split; [done|]. intros (? & ? & [= <-] & Hv' & _). congruence.
Qed.

Lemma bound_snapshot_ok snapshot raw out :
  bound_snapshot snapshot raw = Ok out ->
  json_size out <= MAX_PROBE_SNAPSHOT_BYTES
  /\ forall k, k <> "raw" -> json_get out k = assoc_str k snapshot.
Proof.
  unfold bound_snapshot. destruct (_ <=? _) eqn:E1.
  - intros [= <-]. split; [lia|]. intros k Hk%String.eqb_neq. cbn [json_get]. by rewrite assoc_put, Hk.
  - destruct (_ <? _) eqn:E2; [done|]. intros [= <-]. split; [lia|]. intros k Hk%String.eqb_neq.
    cbn [json_get]. by rewrite !assoc_put, Hk.
Qed.

(** A snapshot by its parts. *)
Lemma normalize_parts raw root version at_ snapshot :
  json_members raw = Some root -> normalize_ffprobe_json raw version at_ = Ok snapshot ->
  json_size snapshot <= MAX_PROBE_SNAPSHOT_BYTES
  /\ (forall k, (k ∉ ["format"; "probe"; "container"; "streams"; "raw"]) -> json_get snapshot k = None)
  /\ match json_get raw "format" with
     | None => json_get snapshot "container" = None
     | Some format =>
         exists f c, format = JObj f /\ container_object f = Ok c /\ json_get snapshot "container" = Some (JObj c)
     end
  /\ match json_get raw "streams" with
     | None => json_get snapshot "streams" = None
     | Some streams =>
         exists probed stored, streams = JArr probed /\ json_get snapshot "streams" = Some (JArr stored)
         /\ Forall2 (fun p s => stream_object p = Ok s) probed stored
     end.
Proof.
  intros Hroot. unfold normalize_ffprobe_json. rewrite Hroot. cbn [ok_or mbind result_mbind].
  intros (? & _ & (format & Hf & (s1 & H1 & (streams & Hs & (s2 & H2 & Hb)%result_bind_ok)%result_bind_ok)
    %result_bind_ok)%result_bind_ok)%result_bind_ok.
  apply bound_snapshot_ok in Hb as [Hsize Hget]. split; [done|].
  destruct raw; try done. injection Hroot as ->. cbn [json_get].
  assert (forall k, k <> "format" -> k <> "probe" -> k <> "container" -> assoc_str k s1 = None) as Hs1.
  { intros k K1%String.eqb_neq K2%String.eqb_neq K3%String.eqb_neq.
    destruct format as [f|]; [apply result_bind_ok in H1 as (c & _ & [= <-])|injection H1 as <-];
      cbn; by rewrite ?K1, ?K2, ?K3. }
  assert (forall k, k <> "streams" -> assoc_str k s2 = assoc_str k s1) as Hs2.
  { intros k K%String.eqb_neq. destruct streams as [l|]; [|by injection H2 as <-].
    apply result_bind_ok in H2 as (l' & _ & [= <-]). by rewrite assoc_put, K. }
  split; [|split].
  - intros k Hk. rewrite Hget by set_solver. rewrite Hs2 by set_solver. apply Hs1; set_solver.
  - rewrite Hget, Hs2 by done. unfold optional_object in Hf. destruct (assoc_str "format" root) as [v|].
    + apply result_bind_ok in Hf as (f & Hf%ok_or_ok & [= <-]). destruct v; try done. injection Hf as ->.
      apply result_bind_ok in H1 as (c & Hc & [= <-]). by exists f, c.
    + injection Hf as <-. by injection H1 as <-.
  - rewrite Hget by done. unfold optional_array in Hs. destruct (assoc_str "streams" root) as [v|].
    + apply result_bind_ok in Hs as (l & Hl%ok_or_ok & [= <-]). destruct v; try done. injection Hl as ->.
      apply result_bind_ok in H2 as (l' & Hobj%collect_ok & [= <-]). exists l, l'. by rewrite assoc_put.
    + injection Hs as <-. injection H2 as <-. by apply Hs1.
Qed.
Lemma stream_object_members stream out :
  stream_object stream = Ok out ->
  exists input, json_members stream = Some input
  /\ forall k, (k ∉ other_keys) -> json_get out k = stream_member input k.
Proof.
  intros H. destruct (json_members stream) as [input|] eqn:Hi.
  - exists input. split; [done|]. intros k. by eapply stream_object_member.
  - unfold stream_object in H. by rewrite Hi in H.
Qed.
Lemma normalize_ok raw root version at_ snapshot :
  json_members raw = Some root -> normalize_ffprobe_json raw version at_ = Ok snapshot ->
  json_size snapshot <= MAX_PROBE_SNAPSHOT_BYTES
  /\ match json_get raw "streams" with
     | None => json_get snapshot "streams" = None
     | Some streams =>
         exists probed stored, streams = JArr probed /\ json_get snapshot "streams" = Some (JArr stored)
         /\ Forall2 (fun p s => exists input, json_members p = Some input
                       /\ forall k, (k ∉ other_keys) -> json_get s k = stream_member input k) probed stored
     end.
Proof.
  intros Hroot Hn. destruct (normalize_parts _ _ _ _ _ Hroot Hn) as (Hsize & _ & _ & Hstreams). split; [done|].
  destruct (json_get raw "streams") as [streams|]; [|done]. destruct Hstreams as (probed & stored & -> & Hst & HF).
  exists probed, stored. split_and!; [done|done|]. eapply Forall2_impl; [exact HF|]. apply stream_object_members.
Qed.

End normalize.
