(* ===== verification/PlanVideo.v ===== *)
(** * Video transcodes

    The codec vocabulary of [voom-core/src/media] that the planner and the worker
    share, and [voom-plan/src/planner/transcode_video]: whether a file already is
    what a profile asks for, must be transcoded, or cannot be, and the node that
    is planned. Messages are left out; the notes of a node are kept. *)

From Stdlib Require Import ZArith Lia Bool String Ascii.
From stdpp Require Import base gmap strings list.
From S2P Require Import Prelude Json Bytes PolicySyntax Encoders TrackFilters PolicyCompiled.
From S2P Require Import PlanModel PlanPayload.

Open Scope string_scope.
Open Scope list_scope.
Open Scope Z_scope.

(** ** Codecs *)

Definition TRANSCODE_VIDEO_CONTAINER : string := "mkv".
Definition TRANSCODE_VIDEO_CONTAINER_MP4 : string := "mp4".
Definition is_supported_transcode_video_container (container : bytes) : bool :=
  one_of [TRANSCODE_VIDEO_CONTAINER; TRANSCODE_VIDEO_CONTAINER_MP4] container.
Definition is_supported_transcode_video_codec (codec : bytes) : bool :=
  existsb (fun w => eq_ignore_ascii_case codec (lit w)) ["hevc"; "h265"; "av1"; "h264"].
Definition canonical_video_codec (codec : bytes) : option string :=
  if eq_ignore_ascii_case codec (lit "hevc") || eq_ignore_ascii_case codec (lit "h265") then Some "hevc"
  else if eq_ignore_ascii_case codec (lit "av1") then Some "av1"
  else if eq_ignore_ascii_case codec (lit "h264") then Some "h264"
  else None.

(** [char::to_lowercase] of a character beyond ASCII, given by its bytes: the Unicode
    tables, a parameter. *)
Class UnicodeLowercase := lowercase_wide : bytes -> bytes.
(** [str::chars], each character as its bytes. *)
Fixpoint chars (text : bytes) : list bytes :=
  match text with
  | [] => []
  | c :: rest =>
      match chars rest with
      | (d :: g) :: gs => if is_continuation d then (c :: d :: g) :: gs else [c] :: (d :: g) :: gs
      | gs => [c] :: gs
      end
  end.
Definition char_is_whitespace (c : bytes) : bool :=
  match c with [a] => ws1 a | [a; b] => ws2 a b | [a; b; d] => ws3 a b d | _ => false end.
Definition char_to_lowercase `{UnicodeLowercase} (c : bytes) : bytes :=
  match c with [a] => [to_ascii_lowercase a] | _ => lowercase_wide c end.
Definition normalize_codec_token `{UnicodeLowercase} (token : bytes) : bytes :=
  flat_map char_to_lowercase (List.filter (fun c => negb (char_is_whitespace c)) (chars token)).

Definition NVIDIA_VIDEO_DECODERS : list (string * string) :=
  [("h264", "h264_cuvid"); ("hevc", "hevc_cuvid"); ("av1", "av1_cuvid")].
Definition VAAPI_VIDEO_DECODERS : list string := ["h264"; "hevc"; "av1"].
Definition decode_alias (codec : bytes) : bytes :=
  if eq_ignore_ascii_case codec (lit "h265") then lit "hevc" else codec.
Definition nvidia_decoder_for_video_codec (codec : bytes) : option string :=
  snd <$> List.find (fun d => eq_ignore_ascii_case (decode_alias codec) (lit (fst d))) NVIDIA_VIDEO_DECODERS.
Definition vaapi_video_decode_codec (codec : bytes) : option string :=
  List.find (fun d => eq_ignore_ascii_case (decode_alias codec) (lit d)) VAAPI_VIDEO_DECODERS.
Definition video_pixel_format_depth (pixel_format : bytes) : option Z :=
  if one_of ["yuv420p"; "nv12"] pixel_format then Some 8
  else if one_of ["yuv420p10le"; "p010le"; "p010"] pixel_format then Some 10
  else None.

(** ** Profiles as JSON *)

Definition decode_value (m : VideoDecodeMode) : Json := JObj [("backend", JStr (VideoDecodeMode_as_str m))].
Definition TranscodeVideoProfile_to_value (p : TranscodeVideoProfile) : Json :=
  JObj ([("name", json_string (t_name p)); ("target_codec", json_string (t_target_codec p));
         ("encoder", json_string (t_encoder p))]
        ++ optional_member "crf" JInt (t_crf p) ++ optional_member "cq" JInt (t_cq p)
        ++ optional_member "qp" JInt (t_qp p) ++ optional_member "bitrate_kbps" JInt (t_bitrate_kbps p)
        ++ optional_member "preset" json_string (t_preset p) ++ optional_member "tune" json_string (t_tune p)
        ++ optional_member "codec_profile" json_string (t_codec_profile p)
        ++ optional_member "codec_level" json_string (t_codec_level p)
        ++ optional_member "pixel_format" json_string (t_pixel_format p)
        ++ optional_member "max_width" JInt (t_max_width p) ++ optional_member "max_height" JInt (t_max_height p)
        ++ (if bool_decide (t_decode p = Software) then [] else [("decode", decode_value (t_decode p))])
        ++ (if t_copy_compatible p then [("copy_compatible", JBool true)] else [])).

(** ** Facts of a snapshot *)

Definition video_stream_field (snapshot : MediaSnapshotInput) (key : string) : option bytes :=
  streams ← summary_streams snapshot;
  stream ← List.find is_primary_video streams;
  text_at stream key.

Inductive TranscodeVideoShape := Compliant | NeedsTranscode | VideoInsufficientFacts | VideoUnsupportedShape.
#[global] Instance TranscodeVideoShape_eq_dec : EqDecision TranscodeVideoShape.
Proof. solve_decision. Defined.
Abbreviation VS := (result TranscodeVideoShape).

Definition encoder_is_vaapi (p : TranscodeVideoProfile) : bool :=
  match encoder_descriptor (t_encoder p) with Some d => bool_decide (backend d = BVaapi) | None => false end.

(** A cap on a dimension that the fact exceeds; the fact must be known. *)
Definition over_cap (cap fact : option Z) : VS bool :=
  match cap with
  | None => Ok false
  | Some c => v ← ok_or fact VideoInsufficientFacts; Ok (c <? v)
  end.
Definition dimensions_need_change (snapshot : MediaSnapshotInput) (p : TranscodeVideoProfile) : VS bool :=
  w ← over_cap (t_max_width p) (si_width snapshot);
  h ← over_cap (t_max_height p) (si_height snapshot);
  Ok (w || h).
Definition pixel_format_needs_change (snapshot : MediaSnapshotInput) (p : TranscodeVideoProfile) : VS bool :=
  match expected_output_pixel_format p with
  | Err _ => Err VideoUnsupportedShape
  | Ok None => Ok false
  | Ok (Some target) =>
      observed ← ok_or (video_stream_field snapshot "pixel_format") VideoInsufficientFacts;
      Ok (negb (eq_ignore_ascii_case observed target))
  end.

Section tokens.
Context {unicode : UnicodeLowercase}.

(** [codec_profile_needs_change] and [codec_level_needs_change]. *)
Definition token_needs_change (snapshot : MediaSnapshotInput) (target : option bytes) (key : string) : VS bool :=
  match target with
  | None => Ok false
  | Some t =>
      observed ← ok_or (video_stream_field snapshot key) VideoInsufficientFacts;
      Ok (negb (eqb_text (normalize_codec_token observed) (normalize_codec_token t)))
  end.
Definition codec_matches (video_codec target_codec : bytes) : bool :=
  match canonical_video_codec video_codec with
  | Some canonical => eq_ignore_ascii_case (lit canonical) target_codec
  | None => false
  end.
Definition transcode_video_needs_change (snapshot : MediaSnapshotInput) (p : TranscodeVideoProfile)
    (container video_codec target_container : bytes) : VS bool :=
  dimensions ← dimensions_need_change snapshot p;
  pixel_format ← pixel_format_needs_change snapshot p;
  profile ← token_needs_change snapshot (t_codec_profile p) "profile";
  level ← token_needs_change snapshot (t_codec_level p) "level";
  Ok (negb (codec_matches video_codec (t_target_codec p))
      || negb (eq_ignore_ascii_case container target_container)
      || dimensions || pixel_format || profile || level).

(** ** What stands in the way of a transcode *)

Definition cover_supported (container codec : bytes) : bool :=
  if eqb_text container (lit "mkv") then one_of ["mjpeg"; "png"; "gif"; "tiff"] codec
  else if eqb_text container (lit "mp4") then one_of ["mjpeg"; "png"] codec
  else false.
Fixpoint covers_shape (streams : list Json) (container : bytes) : option TranscodeVideoShape :=
  match streams with
  | [] => None
  | s :: streams' =>
      if is_cover_art s then
        match text_at s "codec_name" with
        | None => Some VideoInsufficientFacts
        | Some codec =>
            if cover_supported container codec then covers_shape streams' container
            else Some VideoUnsupportedShape
        end
      else covers_shape streams' container
  end.
Definition cover_art_shape (snapshot : MediaSnapshotInput) (container : bytes) : option TranscodeVideoShape :=
  streams ← summary_streams snapshot; covers_shape streams container.

Definition unsupported_hardware_decode_shape (p : TranscodeVideoProfile) (video_codec : bytes) :
    option TranscodeVideoShape :=
  if bool_decide (t_decode p = Nvidia) && bool_decide (nvidia_decoder_for_video_codec video_codec = None)
  then Some VideoUnsupportedShape
  else if bool_decide (t_decode p = Vaapi) && bool_decide (vaapi_video_decode_codec video_codec = None)
  then Some VideoUnsupportedShape
  else None.

(** [videotoolbox_decode_shape] and [vaapi_decode_shape], which differ in the format an
    absent [pixel_format] stands for. *)
Definition decode_depth_shape (snapshot : MediaSnapshotInput) (p : TranscodeVideoProfile) (absent : string) :
    option TranscodeVideoShape :=
  match video_stream_field snapshot "pixel_format" with
  | None => Some VideoInsufficientFacts
  | Some source =>
      match video_pixel_format_depth source with
      | None => Some VideoUnsupportedShape
      | Some depth =>
          if bool_decide (video_pixel_format_depth (default (lit absent) (t_pixel_format p)) = Some depth)
          then None else Some VideoUnsupportedShape
      end
  end.
Definition videotoolbox_decode_shape (snapshot : MediaSnapshotInput) (p : TranscodeVideoProfile) :
    option TranscodeVideoShape := decode_depth_shape snapshot p "unknown".
Definition vaapi_decode_shape (snapshot : MediaSnapshotInput) (p : TranscodeVideoProfile) :
    option TranscodeVideoShape := decode_depth_shape snapshot p "nv12".

Definition vaapi_dimension_shape (snapshot : MediaSnapshotInput) (p : TranscodeVideoProfile) :
    option TranscodeVideoShape :=
  if negb (encoder_is_vaapi p) then None else
  match si_width snapshot, si_height snapshot with
  | Some w, Some h =>
      if (w <=? default w (t_max_width p)) && (h <=? default h (t_max_height p)) then None
      else Some VideoUnsupportedShape
  | _, _ => None
  end.

Definition mp4_muxable (kind codec_name : bytes) : bool :=
  if eqb_text kind (lit "audio") then one_of ["aac"; "ac3"; "eac3"; "opus"] codec_name else false.
(** The loop over the streams: whether all can be muxed so far. *)
Fixpoint mp4_streams_shape (streams : list Json) (muxable : bool) : option TranscodeVideoShape :=
  match streams with
  | [] => if muxable then None else Some VideoUnsupportedShape
  | s :: streams' =>
      match s with
      | JObj _ =>
          if bool_decide (text_at s "kind" = Some (lit "video")) then mp4_streams_shape streams' muxable else
          match text_at s "kind", text_at s "codec_name" with
          | Some kind, Some codec_name => mp4_streams_shape streams' (muxable && mp4_muxable kind codec_name)
          | _, _ => Some VideoInsufficientFacts
          end
      | _ => Some VideoInsufficientFacts
      end
  end.
Definition mp4_gate_shape (snapshot : MediaSnapshotInput) : option TranscodeVideoShape :=
  match summary_streams snapshot with
  | None => Some VideoInsufficientFacts
  | Some streams => mp4_streams_shape streams true
  end.

(** The first of the checks that has something to say. *)
Fixpoint first_shape (checks : list (option TranscodeVideoShape)) (otherwise : TranscodeVideoShape) :
    TranscodeVideoShape :=
  match checks with
  | [] => otherwise
  | Some s :: _ => s
  | None :: checks' => first_shape checks' otherwise
  end.
Definition transcode_video_shape (snapshot : MediaSnapshotInput) (p : TranscodeVideoProfile)
    (target_container : bytes) : TranscodeVideoShape :=
  match video_stream_count snapshot with
  | None => VideoInsufficientFacts
  | Some count =>
      if negb (count =? 1) then VideoUnsupportedShape else
      match si_container snapshot, si_video_codec snapshot with
      | None, _ | _, None => VideoInsufficientFacts
      | Some container, Some video_codec =>
          match transcode_video_needs_change snapshot p container video_codec target_container with
          | Err shape => shape
          | Ok needs_change =>
              let check (b : bool) (shape : option TranscodeVideoShape) := if b then shape else None in
              first_shape
                [check needs_change (cover_art_shape snapshot target_container);
                 check needs_change (unsupported_hardware_decode_shape p video_codec);
                 check (needs_change && bool_decide (t_decode p = VideoToolbox))
                   (videotoolbox_decode_shape snapshot p);
                 check (needs_change && bool_decide (t_decode p = Vaapi)) (vaapi_decode_shape snapshot p);
                 check needs_change (vaapi_dimension_shape snapshot p);
                 check (eq_ignore_ascii_case target_container (lit TRANSCODE_VIDEO_CONTAINER_MP4))
                   (mp4_gate_shape snapshot)]
                (if needs_change then NeedsTranscode else Compliant)
          end
      end
  end.

(** ** The node *)

Definition transcode_video_payload (p : TranscodeVideoProfile) (container : bytes) (snapshot : MediaSnapshotInput) :
    Json :=
  JObj ([("type", JStr "transcode_video"); ("target_codec", json_string (t_target_codec p));
         ("container", json_string container); ("profile", json_string (t_name p));
         ("resolved_profile", TranscodeVideoProfile_to_value p);
         ("source_video_codec", match si_video_codec snapshot with Some c => json_string c | None => JNull end)]
        ++ optional_member "source_video_pixel_format" json_string (video_stream_field snapshot "pixel_format")).

Definition cpu_cost (encoder speed : bytes) : string :=
  if eqb_text encoder (lit "libx265") then
    if one_of ["placebo"; "veryslow"] speed then "high"
    else if one_of ["slower"; "slow"; "medium"] speed then "medium" else "low"
  else if eqb_text encoder (lit "libaom-av1") then
    if one_of ["0"; "1"; "2"] speed then "high" else if one_of ["3"; "4"] speed then "medium" else "low"
  else if eqb_text encoder (lit "libsvtav1") then
    match parse_u8 speed with
    | Some n => if n <=? 3 then "high" else if n <=? 7 then "medium" else "low"
    | None => "low"
    end
  else "medium".
Definition note (key : string) (v : bytes) : bytes := lit key ++ lit "=" ++ v.
Definition quality_note (p : TranscodeVideoProfile) : list bytes :=
  let number key o := match o with Some n => [note key (decimal n)] | None => [] end in
  match encoder_descriptor (t_encoder p) with
  | None => []
  | Some d =>
      match quality_domain d with
      | QCrf _ _ => number "crf" (t_crf p)
      | QCq _ _ => number "cq" (t_cq p)
      | QQp _ _ => number "qp" (t_qp p)
      | QBitrateKbps _ _ => number "bitrate_kbps" (t_bitrate_kbps p)
      end
  end.
Definition dimensions_text (w h : Z) : bytes := decimal w ++ lit "x" ++ decimal h.
Definition downscale_note (p : TranscodeVideoProfile) (snapshot : MediaSnapshotInput) : list bytes :=
  if encoder_is_vaapi p then [] else
  match si_width snapshot, si_height snapshot with
  | Some w, Some h =>
      let cap_w := default w (t_max_width p) in
      let cap_h := default h (t_max_height p) in
      if (cap_w <? w) || (cap_h <? h)
      then [note "downscale" (dimensions_text w h ++ lit "->" ++ dimensions_text cap_w cap_h)]
      else []
  | _, _ => []
  end.
Definition transcode_video_notes (p : TranscodeVideoProfile) (snapshot : MediaSnapshotInput) : list bytes :=
  [note "encoder" (t_encoder p)]
  ++ match t_preset p with
     | Some preset => [note "speed" preset; note "cpu_cost" (lit (cpu_cost (t_encoder p) preset))]
     | None => []
     end
  ++ quality_note p ++ downscale_note p snapshot.

Definition transcode_video_observed_state (snapshot : MediaSnapshotInput) : option Json :=
  match optional_member "container" json_string (si_container snapshot)
        ++ optional_member "video_codec" json_string (si_video_codec snapshot)
        ++ optional_member "video_stream_count" JInt (video_stream_count snapshot) with
  | [] => None
  | observed => Some (JObj observed)
  end.

Definition video_shape_outcome (shape : TranscodeVideoShape) :
    NodeStatus * option string * option PlanningDiagnosticCode :=
  match shape with
  | Compliant => (NoOp, None, None)
  | NeedsTranscode => (Planned, Some "transcode_video", None)
  | VideoInsufficientFacts => (Blocked, None, Some InsufficientSnapshotFactsCode)
  | VideoUnsupportedShape => (Blocked, None, Some UnsupportedMediaShapeCode)
  end.
Definition plan_transcode_video (phase_name : bytes) (snapshot : MediaSnapshotInput) (p : TranscodeVideoProfile)
    (container : bytes) : OperationPlan :=
  let shape := transcode_video_shape snapshot p container in
  let '(status, capability, diagnostic) := video_shape_outcome shape in
  let notes := if bool_decide (shape = NeedsTranscode) then transcode_video_notes p snapshot else [] in
  with_optional_diagnostic
    (with_resource_estimates
       (OperationPlan_new KTranscodeVideo (transcode_video_payload p container snapshot)
          (transcode_video_observed_state snapshot) status capability) notes)
    diagnostic phase_name snapshot KTranscodeVideo.
Definition missing_resolution_diagnostic (phase_name : bytes) (snapshot : MediaSnapshotInput) :
    PlanningDiagnostic := operation_diagnostic InvalidPlanningRequest phase_name snapshot KTranscodeVideo.
End tokens.
