(* ===== verification/VideoArgs.v ===== *)
(** * Commands of the video worker

    [voom-ffmpeg-worker/src/ffmpeg.rs] and [ffmpeg/cover_art.rs]: the arguments a
    video transcode gives to [ffmpeg] and the facts read from what [ffprobe]
    prints. Error messages are left out. *)

From Stdlib Require Import ZArith Lia Bool String Ascii.
From stdpp Require Import base gmap strings list.
From S2P Require Import Prelude Json Bytes PolicySyntax Encoders TrackFilters PolicyCompiled.
From S2P Require Import PlanModel PlanVideo.

Open Scope string_scope.
Open Scope list_scope.
Open Scope Z_scope.

Inductive FfmpegError :=
  | FfmpegFailed | FfprobeFailed | FfMalformedMedia | OutputFactsMismatch | UnsupportedInput.
#[global] Instance FfmpegError_eq_dec : EqDecision FfmpegError.
Proof. solve_decision. Defined.
Abbreviation FF := (result FfmpegError).

(** ** Devices *)

Record NvidiaVideoAcceleratorDescriptor := {
  nv_hardware_token : bytes; nv_device_uuid : bytes; nv_device_name : bytes; nv_driver_version : bytes;
  nv_encoders : list bytes; nv_decoders : list bytes; nv_max_sessions : Z;
}.
Record VaapiVideoAcceleratorDescriptor := {
  va_pci_address : bytes; va_device_name : bytes; va_driver_version : bytes;
  va_encoders : list bytes; va_decoders : list bytes; va_max_sessions : Z;
}.
Record VideoToolboxDecodeCapability := { vtd_codec : bytes; vtd_pixel_formats : list bytes }.
Record VideoToolboxVideoAcceleratorDescriptor := {
  vt_hardware_token : bytes; vt_resource_id : bytes; vt_model_identifier : bytes; vt_chip_name : bytes;
  vt_macos_version : bytes; vt_macos_build : bytes; vt_encoders : list bytes;
  vt_decoders : list VideoToolboxDecodeCapability; vt_max_sessions : Z;
}.
Record VaapiDeviceBinding := { render_node : bytes; va_descriptor : VaapiVideoAcceleratorDescriptor }.
Inductive AcceleratorBinding :=
  | BindNvidia (d : NvidiaVideoAcceleratorDescriptor)
  | BindVaapi (b : VaapiDeviceBinding)
  | BindVideoToolbox (d : VideoToolboxVideoAcceleratorDescriptor).

(** The fields a video transcode reads. *)
Record FfmpegConfig := {
  ffmpeg_path : bytes;
  ffprobe_path : bytes;
  provider_version : bytes;
  accelerator : option AcceleratorBinding;
  available_video_encoders : list bytes;
}.
Definition has_video_encoder (config : FfmpegConfig) (encoder : bytes) : bool :=
  existsb (eqb_text encoder) (available_video_encoders config).
Definition config_nvidia (config : FfmpegConfig) : option NvidiaVideoAcceleratorDescriptor :=
  match accelerator config with Some (BindNvidia d) => Some d | _ => None end.
Definition config_vaapi (config : FfmpegConfig) : option VaapiDeviceBinding :=
  match accelerator config with Some (BindVaapi b) => Some b | _ => None end.
Definition config_videotoolbox (config : FfmpegConfig) : option VideoToolboxVideoAcceleratorDescriptor :=
  match accelerator config with Some (BindVideoToolbox d) => Some d | _ => None end.

(** ** Codec arguments *)

Abbreviation Args := (list bytes).
Definition flag (name : string) (value : bytes) : Args := [lit name; value].
Definition optional_flag (name : string) (value : option bytes) : Args :=
  match value with Some v => flag name v | None => [] end.
Definition required_preset (p : TranscodeVideoProfile) : FF bytes := ok_or (t_preset p) OutputFactsMismatch.
Definition required_quality (value : option Z) : FF bytes :=
  v ← ok_or value OutputFactsMismatch; Ok (decimal v).
Definition pixel_format_arg (p : TranscodeVideoProfile) : Args := optional_flag "-pix_fmt" (t_pixel_format p).

Definition video_codec_args_x265 (p : TranscodeVideoProfile) : FF Args :=
  crf ← required_quality (t_crf p);
  preset ← required_preset p;
  Ok (flag "-c:v" (lit "libx265") ++ flag "-crf" crf ++ flag "-preset" preset
      ++ optional_flag "-tune" (t_tune p) ++ optional_flag "-profile:v" (t_codec_profile p)
      ++ optional_flag "-level" (t_codec_level p) ++ pixel_format_arg p).
(** [tune=..], [level=..], joined by a colon. *)
Definition svt_params (p : TranscodeVideoProfile) : option bytes :=
  match t_tune p, t_codec_level p with
  | None, None => None
  | Some tune, None => Some (lit "tune=" ++ tune)
  | None, Some level => Some (lit "level=" ++ level)
  | Some tune, Some level => Some (lit "tune=" ++ tune ++ lit ":" ++ lit "level=" ++ level)
  end.
Definition video_codec_args_svtav1 (p : TranscodeVideoProfile) : FF Args :=
  crf ← required_quality (t_crf p);
  preset ← required_preset p;
  Ok (flag "-c:v" (lit "libsvtav1") ++ flag "-crf" crf ++ flag "-preset" preset
      ++ optional_flag "-profile:v" (t_codec_profile p)
      ++ optional_flag "-svtav1-params" (svt_params p) ++ pixel_format_arg p).
Definition video_codec_args_libaom (p : TranscodeVideoProfile) : FF Args :=
  crf ← required_quality (t_crf p);
  preset ← required_preset p;
  Ok (flag "-c:v" (lit "libaom-av1") ++ flag "-crf" crf ++ flag "-b:v" (lit "0") ++ flag "-cpu-used" preset
      ++ optional_flag "-tune" (t_tune p) ++ optional_flag "-profile:v" (t_codec_profile p)
      ++ pixel_format_arg p).
Definition video_codec_args_nvenc (p : TranscodeVideoProfile) : FF Args :=
  cq ← required_quality (t_cq p);
  preset ← required_preset p;
  Ok (flag "-c:v" (lit "hevc_nvenc") ++ flag "-rc" (lit "vbr") ++ flag "-cq" cq ++ flag "-b:v" (lit "0")
      ++ flag "-preset" preset ++ optional_flag "-tune" (t_tune p)
      ++ optional_flag "-profile:v" (t_codec_profile p) ++ optional_flag "-level" (t_codec_level p)).
Definition video_codec_args_vaapi (p : TranscodeVideoProfile) : FF Args :=
  match t_codec_level p with
  | Some _ => Err OutputFactsMismatch
  | None =>
      qp ← required_quality (t_qp p);
      Ok (flag "-c:v" (lit "hevc_vaapi") ++ flag "-rc_mode" (lit "CQP") ++ flag "-qp" qp
          ++ optional_flag "-profile:v" (t_codec_profile p))
  end.
Definition video_codec_args_videotoolbox (p : TranscodeVideoProfile) : FF Args :=
  bitrate_kbps ← ok_or (t_bitrate_kbps p) OutputFactsMismatch;
  Ok (flag "-c:v" (t_encoder p) ++ flag "-allow_sw" (lit "0") ++ flag "-b:v" (decimal bitrate_kbps ++ lit "k")
      ++ optional_flag "-profile:v" (t_codec_profile p) ++ optional_flag "-level" (t_codec_level p)).
Definition video_codec_args (p : TranscodeVideoProfile) (copy_video : bool) : FF Args :=
  if copy_video then Ok (flag "-c:v" (lit "copy")) else
  d ← ok_or (encoder_descriptor (t_encoder p)) OutputFactsMismatch;
  match backend d with
  | BNvidia => video_codec_args_nvenc p
  | BVaapi => video_codec_args_vaapi p
  | BVideoToolbox => video_codec_args_videotoolbox p
  | BSoftware =>
      if eqb_text (t_encoder p) (lit "libx265") then video_codec_args_x265 p
      else if eqb_text (t_encoder p) (lit "libsvtav1") then video_codec_args_svtav1 p
      else if eqb_text (t_encoder p) (lit "libaom-av1") then video_codec_args_libaom p
      else Err OutputFactsMismatch
  end.

Definition container_args (container codec : bytes) : FF Args :=
  if eqb_text container (lit "mkv") then Ok (flag "-f" (lit "matroska"))
  else if eqb_text container (lit "mp4") then
    tag ← (if eqb_text codec (lit "h264") then Ok (lit "avc1")
           else if eqb_text codec (lit "hevc") then Ok (lit "hvc1")
           else if eqb_text codec (lit "av1") then Ok (lit "av01")
           else Err OutputFactsMismatch);
    Ok (flag "-f" (lit "mp4") ++ flag "-tag:v" tag)
  else Err OutputFactsMismatch.

(** ** Filters *)

Definition cap_width (p : TranscodeVideoProfile) : Z := default u32_max (t_max_width p).
Definition cap_height (p : TranscodeVideoProfile) : Z := default u32_max (t_max_height p).
Definition exceeds_dimension_caps (p : TranscodeVideoProfile) (src_width src_height : Z) : bool :=
  (cap_width p <? src_width) || (cap_height p <? src_height).
Definition software_scale_filter (p : TranscodeVideoProfile) (src_w src_h : Z) : option bytes :=
  if bool_decide (t_max_width p = None) && bool_decide (t_max_height p = None) then None else
  if (src_w <=? cap_width p) && (src_h <=? cap_height p) then None else
  Some (lit "scale='min(" ++ decimal (cap_width p) ++ lit ",iw)':'min(" ++ decimal (cap_height p)
        ++ lit ",ih)':force_original_aspect_ratio=decrease,scale=trunc(iw/2)*2:trunc(ih/2)*2").
Definition scale_args (p : TranscodeVideoProfile) (src_w src_h : Z) : Args :=
  optional_flag "-vf" (software_scale_filter p src_w src_h).
(** [scale_filter], on a CUDA surface. *)
Definition scale_filter (p : TranscodeVideoProfile) (src_w src_h : Z) : option bytes :=
  if negb (exceeds_dimension_caps p src_w src_h) then None else
  Some (lit "scale_cuda=w='min(" ++ decimal (cap_width p) ++ lit ",iw)':h='min(" ++ decimal (cap_height p)
        ++ lit ",ih)':force_original_aspect_ratio=decrease").

Definition vaapi_surface_format (p : TranscodeVideoProfile) : FF bytes :=
  match t_pixel_format p with
  | None => Ok (lit "nv12")
  | Some f => if eqb_text f (lit "nv12") then Ok (lit "nv12")
              else if eqb_text f (lit "p010") then Ok (lit "p010") else Err OutputFactsMismatch
  end.
Definition vaapi_filter_args (p : TranscodeVideoProfile) (src_w src_h : Z) : FF Args :=
  surface_format ← vaapi_surface_format p;
  if exceeds_dimension_caps p src_w src_h then Err OutputFactsMismatch else
  if bool_decide (t_decode p = Vaapi) then Ok [] else
  Ok (flag "-vf" (lit "format=" ++ surface_format ++ lit ",hwupload")).
Definition nvenc_filter_args (p : TranscodeVideoProfile) (src_w src_h : Z) : FF Args :=
  pixel_format ← match t_pixel_format p with
                 | None => Ok (lit "nv12")
                 | Some f => if eqb_text f (lit "yuv420p") then Ok (lit "nv12")
                             else if eqb_text f (lit "yuv420p10le") then Ok (lit "p010le")
                             else Err OutputFactsMismatch
                 end;
  let format := lit "format=" ++ pixel_format in
  let scaling := scale_filter p src_w src_h in
  let filter :=
    if bool_decide (t_decode p = Nvidia) then
      match scaling with Some scale => scale ++ lit ":" ++ format | None => lit "scale_cuda=" ++ format end
    else
      let upload := format ++ lit ",hwupload_cuda=device=0" in
      match scaling with Some scale => upload ++ lit "," ++ scale ++ lit ":" ++ format | None => upload end in
  Ok (flag "-vf" filter).

(** Products of two [u32] values are computed in [u64]; a quotient that does not fit a
    [u32] is replaced by the cap. *)
Definition even_dimension (value : Z) : Z := Z.max (Z.land value (Z.lxor u32_max 1)) 2.
Definition u32_or (value otherwise : Z) : Z := if is_u32 value then value else otherwise.
Definition downscale_dimensions (p : TranscodeVideoProfile) (src_w src_h : Z) : option (Z * Z) :=
  if (src_w <=? cap_width p) && (src_h <=? cap_height p) then None else
  let '(width, height) :=
    if cap_width p * src_h <=? cap_height p * src_w
    then (cap_width p, u32_or (src_h * cap_width p / src_w) (cap_height p))
    else (u32_or (src_w * cap_height p / src_h) (cap_width p), cap_height p) in
  Some (even_dimension width, even_dimension height).
Definition videotoolbox_filter_args (p : TranscodeVideoProfile) (src_w src_h : Z) : FF Args :=
  if bool_decide (t_decode p = VideoToolbox) then
    Ok (match downscale_dimensions p src_w src_h with
        | None => []
        | Some (w, h) => flag "-vf" (lit "scale_vt=w=" ++ decimal w ++ lit ":h=" ++ decimal h)
        end)
  else
    format ← match t_pixel_format p with
             | None => Err OutputFactsMismatch
             | Some f => if eqb_text f (lit "yuv420p") then Ok (lit "nv12")
                         else if eqb_text f (lit "yuv420p10le") then Ok (lit "p010le")
                         else Err OutputFactsMismatch
             end;
    Ok (flag "-vf" (match software_scale_filter p src_w src_h with
                    | None => lit "format=" ++ format
                    | Some scale => scale ++ lit ",format=" ++ format
                    end)).
Definition video_filter_args (p : TranscodeVideoProfile) (src_w src_h : Z) (copy_video : bool) : FF Args :=
  if copy_video then Ok [] else
  d ← ok_or (encoder_descriptor (t_encoder p)) OutputFactsMismatch;
  match backend d with
  | BSoftware => Ok (scale_args p src_w src_h)
  | BNvidia => nvenc_filter_args p src_w src_h
  | BVaapi => vaapi_filter_args p src_w src_h
  | BVideoToolbox => videotoolbox_filter_args p src_w src_h
  end.

(** ** Device arguments *)

(** A command: the variables of its environment and its arguments. *)
Record Command := { program : bytes; env : list (string * bytes); args : Args }.
Definition Command_new (program : bytes) : Command := {| program := program; env := []; args := [] |}.
Definition with_args (c : Command) (more : Args) : Command :=
  {| program := program c; env := env c; args := args c ++ more |}.
Definition with_env (c : Command) (key : string) (value : bytes) : Command :=
  {| program := program c; env := env c ++ [(key, value)]; args := args c |}.

Definition append_vaapi_input_args (c : Command) (config : FfmpegConfig) (p : TranscodeVideoProfile)
    (source_codec : bytes) : FF Command :=
  binding ← ok_or (config_vaapi config) OutputFactsMismatch;
  if negb (bool_decide (t_decode p = Vaapi)) then Ok (with_args c (flag "-vaapi_device" (render_node binding))) else
  match vaapi_video_decode_codec source_codec with
  | None => Err UnsupportedInput
  | Some _ => Ok (with_args c (flag "-hwaccel:V:0" (lit "vaapi") ++ flag "-hwaccel_device:V:0" (render_node binding)
                               ++ flag "-hwaccel_output_format:V:0" (lit "vaapi")))
  end.
Definition append_nvidia_input_args (c : Command) (config : FfmpegConfig) (p : TranscodeVideoProfile)
    (source_codec : bytes) : FF Command :=
  accelerator ← ok_or (config_nvidia config) OutputFactsMismatch;
  let c := with_env c "CUDA_VISIBLE_DEVICES" (nv_device_uuid accelerator) in
  if bool_decide (t_decode p = Software) then Ok c else
  decoder ← ok_or (nvidia_decoder_for_video_codec source_codec) UnsupportedInput;
  Ok (with_args c (flag "-hwaccel:V:0" (lit "cuda") ++ flag "-hwaccel_device:V:0" (lit "0")
                   ++ flag "-hwaccel_output_format:V:0" (lit "cuda") ++ flag "-c:V:0" (lit decoder))).
Definition append_videotoolbox_input_args (c : Command) (config : FfmpegConfig) (p : TranscodeVideoProfile) :
    FF Command :=
  _ ← ok_or (config_videotoolbox config) OutputFactsMismatch;
  Ok (if bool_decide (t_decode p = VideoToolbox)
      then with_args c (flag "-hwaccel:V:0" (lit "videotoolbox")
                        ++ flag "-hwaccel_output_format:V:0" (lit "videotoolbox_vld"))
      else c).
Definition append_hardware_input_args (c : Command) (config : FfmpegConfig) (p : TranscodeVideoProfile)
    (source_codec : bytes) (copy_video : bool) : FF Command :=
  if copy_video then Ok c else
  d ← ok_or (encoder_descriptor (t_encoder p)) OutputFactsMismatch;
  match backend d with
  | BSoftware => Ok c
  | BNvidia => append_nvidia_input_args c config p source_codec
  | BVaapi => append_vaapi_input_args c config p source_codec
  | BVideoToolbox => append_videotoolbox_input_args c config p
  end.

(** [append_primary_options]: every other argument, from the first, is the name of an
    option; where the primary video shares the output with covers, it is scoped to it. *)
Definition scoped_option (arg : bytes) : bytes :=
  if eqb_text arg (lit "-vf") then lit "-filter:v:0"
  else if one_of ["-c:v"; "-b:v"; "-profile:v"; "-tag:v"] arg then arg ++ lit ":0"
  else arg ++ lit ":v:0".
Fixpoint primary_options (index : nat) (scoped : bool) (l : Args) : Args :=
  match l with
  | [] => []
  | arg :: l' =>
      (if scoped && Nat.even index && negb (eqb_text arg (lit "-f")) then scoped_option arg else arg)
      :: primary_options (S index) scoped l'
  end.
Definition append_primary_options (c : Command) (l : Args) (scoped : bool) : Command :=
  with_args c (primary_options 0 scoped l).

(** ** Probes *)

Definition json_as_i64 (j : Json) : option Z :=
  match j with JInt n => if is_i64 n then Some n else None | _ => None end.
(** [disposition_bool]. *)
Definition disposition_flag (stream : Json) (key : string) : option bool :=
  d ← json_get stream "disposition"; v ← json_get d key; n ← json_as_i64 v; Some (negb (n =? 0)).
Fixpoint find_tag (tags : list (string * Json)) (tag : string) : option Json :=
  match tags with
  | [] => None
  | (key, v) :: tags' => if eq_ignore_ascii_case (lit key) (lit tag) then Some v else find_tag tags' tag
  end.
Definition stream_tag (stream : Json) (tag : string) : option bytes :=
  tags ← json_get stream "tags";
  match tags with JObj ms => v ← find_tag ms tag; json_text v | _ => None end.

Record CoverArt := {
  cover_index : Z; cover_codec : bytes; cover_filename : option bytes; cover_mime_type : option bytes;
  cover_title : option bytes;
}.
Definition is_attached_pic (stream : Json) : bool :=
  bool_decide (disposition_flag stream "attached_pic" = Some true).
(** The loop of [cover_art::from_probe], with the indices met so far. *)
Fixpoint covers_from (streams : list Json) (indices : list Z) : FF (list CoverArt) :=
  match streams with
  | [] => Ok []
  | stream :: streams' =>
      if negb (is_attached_pic stream) then covers_from streams' indices else
      index ← ok_or (json_get stream "index" ≫= json_as_u32) OutputFactsMismatch;
      if existsb (Z.eqb index) indices then Err OutputFactsMismatch else
      codec ← ok_or (text_at stream "codec_name") OutputFactsMismatch;
      rest ← covers_from streams' (index :: indices);
      Ok ({| cover_index := index; cover_codec := codec; cover_filename := stream_tag stream "filename";
             cover_mime_type := stream_tag stream "mimetype"; cover_title := stream_tag stream "title" |} :: rest)
  end.
Definition cover_art_from_probe (probe : Json) : FF (list CoverArt) :=
  streams ← ok_or (json_get probe "streams" ≫= json_as_array) OutputFactsMismatch;
  covers_from streams [].
Definition cover_art_validate (covers : list CoverArt) (container : bytes) (attachments : nat) : FF unit :=
  if eqb_text container (lit "mp4") && negb (attachments =? 0)%nat then Err UnsupportedInput else
  if forallb (fun cover => cover_supported container (cover_codec cover)) covers
  then Ok tt else Err UnsupportedInput.
(** [metadata]: the file name and the MIME type of the attachment a cover becomes. *)
Definition cover_metadata (cover : CoverArt) : bytes * bytes :=
  let '(extension, mime) :=
    if eqb_text (cover_codec cover) (lit "mjpeg") then ("jpg", "image/jpeg")
    else if eqb_text (cover_codec cover) (lit "png") then ("png", "image/png")
    else if eqb_text (cover_codec cover) (lit "gif") then ("gif", "image/gif")
    else ("tiff", "image/tiff") in
  (default (lit "cover-" ++ decimal (cover_index cover) ++ lit "." ++ lit extension) (cover_filename cover),
   default (lit mime) (cover_mime_type cover)).

Record InputProbe := {
  ip_width : Z; ip_height : Z; ip_codec : bytes; ip_pixel_format : bytes; ip_codec_profile : option bytes;
  ip_codec_level : option bytes; ip_video_stream_count : Z; ip_cover_art : list CoverArt;
  ip_attachment_count : nat; ip_forced_subtitle_ordinals : list nat;
}.
Definition codec_type_is (kind : string) (stream : Json) : bool :=
  bool_decide (text_at stream "codec_type" = Some (lit kind)).
(** The worker's [is_primary_video]. *)
Definition is_main_video (stream : Json) : bool := codec_type_is "video" stream && negb (is_attached_pic stream).
Definition probe_streams (json : Json) : list Json := default [] (json_get json "streams" ≫= json_as_array).
Definition dimension (stream : Json) (key : string) : Z := default 0 (json_get stream key ≫= json_as_u32).
Definition text_or_empty (stream : Json) (key : string) : bytes := default [] (text_at stream key).
Fixpoint forced_ordinals (ordinal : nat) (subtitles : list Json) : list nat :=
  match subtitles with
  | [] => []
  | s :: subtitles' =>
      (if bool_decide (disposition_flag s "forced" = Some true) then [ordinal] else [])
      ++ forced_ordinals (S ordinal) subtitles'
  end.
(** The facts of a probe whose main video and covers are known. *)
Definition source_facts (json video_stream : Json) (cover_art : list CoverArt) : InputProbe := {|
  ip_width := dimension video_stream "width";
  ip_height := dimension video_stream "height";
  ip_codec := text_or_empty video_stream "codec_name";
  ip_pixel_format := text_or_empty video_stream "pix_fmt";
  ip_codec_profile := text_at video_stream "profile";
  ip_codec_level :=
    (fun level => decimal (level / 10) ++ lit "." ++ decimal (level mod 10))
      <$> (json_get video_stream "level" ≫= json_as_u64);
  ip_video_stream_count :=
    default 0 (u32_try_from (Z.of_nat (length (List.filter is_main_video (probe_streams json)))));
  ip_cover_art := cover_art;
  ip_attachment_count := length (List.filter (codec_type_is "attachment") (probe_streams json));
  ip_forced_subtitle_ordinals := forced_ordinals 0 (List.filter (codec_type_is "subtitle") (probe_streams json));
|}.
(** [probe_input], once [ffprobe] has printed [json]. *)
Definition input_facts (json : Json) : FF InputProbe :=
  video_stream ← ok_or (List.find is_main_video (probe_streams json)) FfprobeFailed;
  cover_art ← cover_art_from_probe json;
  Ok (source_facts json video_stream cover_art).

Record OutputProbe := {
  op_container : bytes; op_video_codec : bytes; op_width : Z; op_height : Z; op_pixel_format : bytes;
}.
Definition canonical_output_codec (codec : bytes) : bytes :=
  if one_of ["hevc"; "h265"] codec then lit "hevc" else if eqb_text codec (lit "av1") then lit "av1" else codec.
Definition probe_container (container : bytes) : bytes :=
  if eqb_text container (lit "mkv") then lit "matroska"
  else if eqb_text container (lit "mp4") then lit "mp4" else container.
(** [split(',')] has the name. *)
Definition names_container (names name : bytes) : bool := existsb (fun n => eqb_text n name) (split_by (eqc ",") names).
Definition above_cap (value : Z) (cap : option Z) : bool := match cap with Some c => c <? value | None => false end.
(** [probe_output], once [ffprobe] has printed [json]. *)
Definition output_facts (json : Json) (expected_container expected_codec : bytes) (p : TranscodeVideoProfile) :
    FF OutputProbe :=
  let container := default [] (json_path json ["format"; "format_name"] ≫= json_text) in
  let stream := default JNull (List.find is_main_video (probe_streams json)) in
  let actual_codec := text_or_empty stream "codec_name" in
  let width := dimension stream "width" in
  let height := dimension stream "height" in
  let pixel_format := text_or_empty stream "pix_fmt" in
  if negb (names_container container (probe_container expected_container)) then Err OutputFactsMismatch else
  if negb (eqb_text (canonical_output_codec actual_codec) expected_codec) then Err OutputFactsMismatch else
  if above_cap width (t_max_width p) then Err OutputFactsMismatch else
  if above_cap height (t_max_height p) then Err OutputFactsMismatch else
  match expected_output_pixel_format p with
  | Err _ => Err OutputFactsMismatch
  | Ok expected_pf =>
      if match expected_pf with
         | Some pf => negb (non_empty pixel_format) || negb (eqb_text pixel_format pf)
         | None => false
         end then Err OutputFactsMismatch else
      Ok {| op_container := expected_container; op_video_codec := expected_codec; op_width := width;
            op_height := height; op_pixel_format := pixel_format |}
  end.
