(* ===== verification/VideoWorker.v ===== *)
(** * The video worker

    [handle_transcode_video] of [voom-ffmpeg-worker/src/handler.rs], with
    [run_ffmpeg_transcode] and the covers of [ffmpeg.rs] and [ffmpeg/cover_art.rs],
    and the request of [voom-worker-protocol/src/operations/transcode_video.rs].
    Error messages are left out. *)

From Stdlib Require Import ZArith Lia Bool String Ascii.
From stdpp Require Import base gmap strings list.
From S2P Require Import Prelude Vocab Json Bytes PolicySyntax TrackFilters PolicyCompiled PlanModel.
From S2P Require Import PlanVideo Encoders VideoArgs.

Open Scope string_scope.
Open Scope list_scope.
Open Scope Z_scope.

(** ** The host

    What the worker does to the machine it runs on: files are inspected and hashed
    ([observe.rs]), paths are confined to the staging directory ([handler.rs]),
    programs are run and their failures classified ([ffmpeg.rs]). The file system and
    the programs are a class; each of its operations may change the state of the
    machine, so nothing is assumed about what else happens there between two steps. *)

(** *** Errors *)

Inductive TranscodeVideoError :=
  | VConfigInvalid | VArtifactUnavailable | VArtifactChecksumMismatch | VExternalSystemUnavailable
  | VMalformedMedia | VMalformedWorkerResult.
Definition video_failure_class (e : TranscodeVideoError) : FailureClass :=
  match e with
  | VConfigInvalid | VMalformedWorkerResult => FC_MalformedWorkerResult
  | VArtifactUnavailable => FC_ArtifactUnavailable
  | VArtifactChecksumMismatch => FC_ArtifactChecksumMismatch
  | VExternalSystemUnavailable => FC_ExternalSystemUnavailable
  | VMalformedMedia => FC_MalformedMedia
  end.
Definition video_error_code (e : TranscodeVideoError) : ErrorCode :=
  match e with
  | VConfigInvalid => EC_ConfigInvalid
  | _ => FailureClass_into_error_code (video_failure_class e)
  end.
Inductive FileObserveError := FileUnavailable | FileChanged.
Definition from_file_observe_error (e : FileObserveError) : TranscodeVideoError :=
  match e with FileUnavailable => VArtifactUnavailable | FileChanged => VArtifactChecksumMismatch end.
Definition from_ffmpeg_error (e : FfmpegError) : TranscodeVideoError :=
  match e with
  | FfmpegFailed | FfprobeFailed => VExternalSystemUnavailable
  | FfMalformedMedia => VMalformedMedia
  | OutputFactsMismatch => VMalformedWorkerResult
  | UnsupportedInput => VConfigInvalid
  end.

(** *** Paths *)

(** A path by its components: [Path] drops repeated separators and [.] components,
    but for a [.] a relative path starts with. *)
Record path := { absolute : bool; components : list bytes }.
Definition Path_new (text : bytes) : path :=
  let absolute := match text with c :: _ => eqc "/" c | [] => false end in
  let pieces := split_by (eqc "/") text in
  let kept := List.filter (fun c => non_empty c && negb (eqb_text c (lit "."))) pieces in {|
  absolute := absolute;
  components := match pieces with
                | first :: _ => if eqb_text first (lit ".") then first :: kept else kept
                | [] => kept
                end;
|}.
(** [Path::parent]: none of the root and of the empty path. *)
Definition path_parent (p : path) : option path :=
  match rev (components p) with
  | [] => None
  | _ :: front => Some {| absolute := absolute p; components := rev front |}
  end.
Fixpoint is_prefix (root l : list bytes) : bool :=
  match root, l with
  | [], _ => true
  | a :: root', b :: l' => eqb_text a b && is_prefix root' l'
  | _ :: _, [] => false
  end.
Definition path_starts_with (p root : path) : bool :=
  Bool.eqb (absolute p) (absolute root) && is_prefix (components root) (components p).

(** *** Files and programs *)

Inductive IoError := NotFound | TextFileBusy | TimedOut | OtherIo.
Record Metadata := { is_file : bool; is_dir : bool; is_symlink : bool; len : Z; modified : option Z }.
(** A finished program: no status code when a signal killed it. *)
Record ProcessOutput := { status_code : option Z; stdout : bytes; stderr : bytes }.
Definition status_success (o : ProcessOutput) : bool := bool_decide (status_code o = Some 0).

Class MediaHost (W : Type) := {
  symlink_metadata : path -> Tx W IoError Metadata;
  canonicalize : path -> Tx W IoError path;
  (** An open file by its handle, not followed when it is a link. *)
  open_no_follow : path -> Tx W IoError Z;
  file_metadata : Z -> Tx W IoError Metadata;
  read_to_end : Z -> Tx W IoError bytes;
  (** A program run to its end, or the error of starting it or of waiting for it. *)
  command_output : Command -> Tx W IoError ProcessOutput;
  tempdir_in : path -> Tx W IoError bytes;
  remove_tempdir : bytes -> Tx W IoError unit;
  caller_pid : bytes;
  json_from_slice : bytes -> option Json;
  from_utf8_lossy : bytes -> bytes;
  format_modified : Z -> bytes;
}.

(** A computation with its error mapped, and with its error dropped for another. *)
Definition map_error {W E F A} (f : E -> F) (m : Tx W E A) : Tx W F A :=
  fun w => match m w with (Ok a, w') => (Ok a, w') | (Err e, w') => (Err (f e), w') end.
Abbreviation or_error e := (map_error (fun _ => e)).
Definition check {W E} (e : E) (b : bool) : Tx W E unit := if b then mret tt else throw e.

Record ObservedFacts := {
  size_bytes : Z; content_hash : bytes; modified_at : option bytes; local_file_key : option bytes;
}.
Abbreviation ExpectedFacts := ObservedFacts.

Section host.
Context {W : Type} {host : MediaHost W} {blake3 : Blake3Hex}.
Abbreviation M := (Tx W).

(** *** Observations *)

Definition metadata_changed (before after : Metadata) : bool :=
  negb (len before =? len after) || negb (bool_decide (modified before = modified after)).
Definition observe_file_facts (p : path) : M FileObserveError ObservedFacts :=
  path_metadata ← or_error FileUnavailable (symlink_metadata p);
  _ ← check FileUnavailable (is_file path_metadata);
  file ← or_error FileUnavailable (open_no_follow p);
  metadata ← or_error FileUnavailable (file_metadata file);
  _ ← check FileUnavailable (is_file metadata);
  contents ← or_error FileUnavailable (read_to_end file);
  final_metadata ← or_error FileUnavailable (file_metadata file);
  _ ← check FileChanged (negb (metadata_changed metadata final_metadata));
  mret {| size_bytes := len metadata; content_hash := lit "blake3:" ++ blake3_hex contents;
          modified_at := format_modified <$> modified metadata; local_file_key := None |}.

(** The facts that are compared: the size and the hash. *)
Definition same_contents (a b : ObservedFacts) : bool :=
  (size_bytes a =? size_bytes b) && eqb_text (content_hash a) (content_hash b).

(** *** Paths of a request *)

Definition canonical_existing_dir_no_symlink (p : path) : M TranscodeVideoError path :=
  metadata ← or_error VConfigInvalid (symlink_metadata p);
  _ ← check VConfigInvalid (negb (is_symlink metadata || negb (is_dir metadata)));
  or_error VConfigInvalid (canonicalize p).
Definition validate_staging_path (staging_root output_path : path) : M TranscodeVideoError unit :=
  root ← canonical_existing_dir_no_symlink staging_root;
  parent ← lift (ok_or (path_parent output_path) VConfigInvalid);
  parent ← canonical_existing_dir_no_symlink parent;
  check VConfigInvalid (path_starts_with parent root).
Definition validate_output_missing (output_path : path) : M TranscodeVideoError unit :=
  fun w => match symlink_metadata output_path w with
           | (Err NotFound, w') => (Ok tt, w')
           | (_, w') => (Err VConfigInvalid, w')
           end.
Definition option_like (text : bytes) : bool := match text with c :: _ => eqc "-" c | [] => false end.
Definition reject_option_like_path (text : bytes) : M TranscodeVideoError unit :=
  check VConfigInvalid (negb (option_like text)).

(** *** Programs *)

Definition MALFORMED_MEDIA_SIGNATURES : list string :=
  ["invalid data found when processing input"; "moov atom not found"; "error opening input"; "header missing"].
Definition is_malformed_media_stderr (text : bytes) : bool :=
  existsb (fun s => contains (lit s) (map to_ascii_lowercase text)) MALFORMED_MEDIA_SIGNATURES.
Definition classify_process_failure (o : ProcessOutput) (transient : FfmpegError) : FfmpegError :=
  if bool_decide (is_Some (status_code o)) && is_malformed_media_stderr (from_utf8_lossy (stderr o))
  then FfMalformedMedia else transient.

(** The loop of [output_retrying_etxtbsy], with the attempts left after this one. *)
Fixpoint retrying (attempts_left : nat) (c : Command) : M IoError ProcessOutput :=
  fun w => match command_output c w with
           | (Err TextFileBusy, w') =>
               match attempts_left with
               | O => (Err TextFileBusy, w')
               | S n => retrying n c w'
               end
           | r => r
           end.
Definition output_retrying_etxtbsy (c : Command) : M IoError ProcessOutput :=
  retrying 4 (with_env c "VOOM_MEDIA_CALLER_PID" caller_pid).
Definition run_ffmpeg_command (c : Command) : M FfmpegError unit :=
  process_output ← or_error FfmpegFailed (output_retrying_etxtbsy c);
  if negb (status_success process_output) then throw (classify_process_failure process_output FfmpegFailed)
  else mret tt.
Definition probe_command (config : FfmpegConfig) (file : bytes) : Command :=
  with_args (Command_new (ffprobe_path config))
    ([lit "-v"; lit "error"; lit "-print_format"; lit "json"; lit "-show_format"; lit "-show_streams"] ++ [file]).
Definition probe_json (config : FfmpegConfig) (file : bytes) : M FfmpegError Json :=
  output ← or_error FfprobeFailed (output_retrying_etxtbsy (probe_command config file));
  if negb (status_success output) then throw (classify_process_failure output FfprobeFailed) else
  _ ← check FfprobeFailed (negb (non_empty (stderr output)));
  lift (ok_or (json_from_slice (stdout output)) FfprobeFailed).
End host.

(** ** Requests and results *)

Inductive VideoHardwareAssignment :=
  | AssignSoftware
  | AssignNvidia (hardware_token device_uuid : bytes)
  | AssignVaapi (hardware_token pci_address : bytes)
  | AssignVideoToolbox (hardware_token resource_id : bytes).
Definition vaapi_hardware_token (pci_address : bytes) : bytes := lit "vaapi:pci-" ++ pci_address.

Record TranscodeVideoRequest := {
  in_path : bytes;
  in_expected : ExpectedFacts;
  in_video_codec : option bytes;
  in_video_pixel_format : option bytes;
  out_staging_root : bytes;
  out_path : bytes;
  out_container : bytes;
  out_video_codec : bytes;
  out_overwrite : bool;
  rq_profile : TranscodeVideoProfile;
  rq_hardware_assignment : option VideoHardwareAssignment;
  copy_video : bool;
}.
Record TranscodeVideoResult := {
  r_provider : bytes;
  r_provider_version : bytes;
  r_input_pre : ObservedFacts;
  r_input_post : ObservedFacts;
  r_output : ObservedFacts;
  r_container : bytes;
  r_video_codec : bytes;
  r_width : Z;
  r_height : Z;
  r_pixel_format : bytes;
  r_hardware_assignment : option VideoHardwareAssignment;
  r_copied_video : bool;
}.
Abbreviation VE := (result TranscodeVideoError).
Definition require (e : TranscodeVideoError) (b : bool) : VE unit := if b then Ok tt else Err e.

(** ** The contract of a request *)

Definition validate_transcode_video_contract (request : TranscodeVideoRequest) : VE unit :=
  _ ← require VConfigInvalid (is_supported_transcode_video_container (out_container request));
  _ ← require VConfigInvalid (is_supported_transcode_video_codec (out_video_codec request));
  match validate_profile_against_descriptor (rq_profile request) with
  | Ok _ => Ok tt
  | Err _ => Err VConfigInvalid
  end.
Definition validate_encoder_available (request : TranscodeVideoRequest) (config : FfmpegConfig) : VE unit :=
  require VConfigInvalid (copy_video request || has_video_encoder config (t_encoder (rq_profile request))).

Section tokens.
Context {unicode : UnicodeLowercase}.

Definition codec_tokens_match (source target : bytes) : bool :=
  match canonical_video_codec source, canonical_video_codec target with
  | Some s, Some t => String.eqb s t
  | _, _ => eqb_text (normalize_codec_token source) (normalize_codec_token target)
  end.

(** ** Copies *)

Definition validate_copy_codec (target_codec : bytes) (probe : InputProbe) : VE unit :=
  require VMalformedWorkerResult (codec_tokens_match (ip_codec probe) target_codec).
Definition validate_copy_dimensions (p : TranscodeVideoProfile) (probe : InputProbe) : VE unit :=
  _ ← require VMalformedWorkerResult (negb (above_cap (ip_width probe) (t_max_width p)));
  require VMalformedWorkerResult (negb (above_cap (ip_height probe) (t_max_height p))).
Definition validate_copy_pixel_format (p : TranscodeVideoProfile) (probe : InputProbe) : VE unit :=
  match expected_output_pixel_format p with
  | Err _ => Err VMalformedWorkerResult
  | Ok None => Ok tt
  | Ok (Some required) =>
      _ ← require VMalformedWorkerResult (non_empty (ip_pixel_format probe));
      require VMalformedWorkerResult (eqb_text (ip_pixel_format probe) required)
  end.
(** [validate_copy_codec_profile] and [validate_copy_codec_level]. *)
Definition validate_copy_token (required source : option bytes) : VE unit :=
  match required with
  | None => Ok tt
  | Some r =>
      s ← ok_or source VMalformedWorkerResult;
      require VMalformedWorkerResult (eqb_text (normalize_codec_token s) (normalize_codec_token r))
  end.
Definition validate_copy_video_preconditions (request : TranscodeVideoRequest) (probe : InputProbe) : VE unit :=
  let p := rq_profile request in
  _ ← validate_copy_codec (out_video_codec request) probe;
  _ ← validate_copy_dimensions p probe;
  _ ← validate_copy_pixel_format p probe;
  _ ← validate_copy_token (t_codec_profile p) (ip_codec_profile probe);
  validate_copy_token (t_codec_level p) (ip_codec_level probe).

(** ** Devices *)

Definition validate_software_binding (request : TranscodeVideoRequest) (config : FfmpegConfig) : VE unit :=
  let software_assignment := match rq_hardware_assignment request with
                             | None | Some AssignSoftware => true
                             | _ => false
                             end in
  require VConfigInvalid (match accelerator config with None => software_assignment | Some _ => false end).
Definition validate_vaapi_decoder_probed (binding : VaapiDeviceBinding) (source_codec : bytes) : VE unit :=
  require VConfigInvalid
    match vaapi_video_decode_codec source_codec with
    | Some canonical => existsb (fun d => eq_ignore_ascii_case d (lit canonical)) (va_decoders (va_descriptor binding))
    | None => false
    end.
(** A known depth of the source that is the depth of the format. *)
Definition same_depth (source_pixel_format : bytes) (format_depth : option Z) : bool :=
  match video_pixel_format_depth source_pixel_format with
  | Some depth => bool_decide (format_depth = Some depth)
  | None => false
  end.
Definition validate_vaapi_bit_depth (request : TranscodeVideoRequest) (source_pixel_format : bytes) : VE unit :=
  let surface_format := default (lit "nv12") (t_pixel_format (rq_profile request)) in
  require VConfigInvalid (same_depth source_pixel_format (video_pixel_format_depth surface_format)).
Definition validate_vaapi_binding (request : TranscodeVideoRequest) (config : FfmpegConfig) (source : InputProbe) :
    VE unit :=
  match rq_hardware_assignment request with
  | Some (AssignVaapi token pci) =>
      binding ← ok_or (config_vaapi config) VConfigInvalid;
      let bound_address := va_pci_address (va_descriptor binding) in
      _ ← require VConfigInvalid (eqb_text pci bound_address && eqb_text token (vaapi_hardware_token bound_address));
      if negb (bool_decide (t_decode (rq_profile request) = Vaapi)) then Ok tt else
      _ ← validate_vaapi_decoder_probed binding (ip_codec source);
      validate_vaapi_bit_depth request (ip_pixel_format source)
  | _ => Err VConfigInvalid
  end.
Definition validate_nvidia_binding (request : TranscodeVideoRequest) (config : FfmpegConfig) (source_codec : bytes) :
    VE unit :=
  match rq_hardware_assignment request with
  | Some (AssignNvidia token uuid) =>
      accelerator ← ok_or (config_nvidia config) VConfigInvalid;
      _ ← require VConfigInvalid (eqb_text token (nv_hardware_token accelerator)
                                  && eqb_text uuid (nv_device_uuid accelerator));
      if negb (bool_decide (t_decode (rq_profile request) = Nvidia)) then Ok tt else
      decoder ← ok_or (nvidia_decoder_for_video_codec source_codec) VConfigInvalid;
      require VConfigInvalid (existsb (eqb_text (lit decoder)) (nv_decoders accelerator))
  | _ => Err VConfigInvalid
  end.
Definition validate_videotoolbox_bit_depth (request : TranscodeVideoRequest) (source_pixel_format : bytes) : VE unit :=
  require VConfigInvalid
    (same_depth source_pixel_format (t_pixel_format (rq_profile request) ≫= video_pixel_format_depth)).
Definition validate_videotoolbox_binding (request : TranscodeVideoRequest) (config : FfmpegConfig)
    (source : InputProbe) : VE unit :=
  match rq_hardware_assignment request with
  | Some (AssignVideoToolbox token resource) =>
      accelerator ← ok_or (config_videotoolbox config) VConfigInvalid;
      _ ← require VConfigInvalid (eqb_text token (vt_hardware_token accelerator)
                                  && eqb_text resource (vt_resource_id accelerator));
      _ ← require VConfigInvalid (existsb (eqb_text (t_encoder (rq_profile request))) (vt_encoders accelerator));
      if negb (bool_decide (t_decode (rq_profile request) = VideoToolbox)) then Ok tt else
      _ ← require VConfigInvalid
            (existsb (fun d => codec_tokens_match (vtd_codec d) (ip_codec source)
                               && existsb (eqb_text (ip_pixel_format source)) (vtd_pixel_formats d))
               (vt_decoders accelerator));
      validate_videotoolbox_bit_depth request (ip_pixel_format source)
  | _ => Err VConfigInvalid
  end.
Definition validate_video_hardware_binding (request : TranscodeVideoRequest) (config : FfmpegConfig)
    (source : InputProbe) : VE unit :=
  d ← ok_or (encoder_descriptor (t_encoder (rq_profile request))) VConfigInvalid;
  match backend d with
  | BSoftware => validate_software_binding request config
  | BNvidia => validate_nvidia_binding request config (ip_codec source)
  | BVaapi => validate_vaapi_binding request config source
  | BVideoToolbox => validate_videotoolbox_binding request config source
  end.

(** ** The facts of the source *)

(** What [handle_transcode_video] asks of the probed source before it runs [ffmpeg]. *)
Definition check_source (request : TranscodeVideoRequest) (config : FfmpegConfig) (probe : InputProbe) : VE unit :=
  _ ← require VMalformedWorkerResult
        (all_some (codec_tokens_match (ip_codec probe)) (in_video_codec request));
  _ ← require VMalformedWorkerResult
        (all_some (eqb_text (ip_pixel_format probe)) (in_video_pixel_format request));
  _ ← require VConfigInvalid (ip_video_stream_count probe =? 1);
  _ ← match cover_art_validate (ip_cover_art probe) (out_container request) (ip_attachment_count probe) with
      | Ok _ => Ok tt
      | Err e => Err (from_ffmpeg_error e)
      end;
  _ ← (if copy_video request then validate_copy_video_preconditions request probe else Ok tt);
  validate_video_hardware_binding request config probe.

(** ** The command *)

(** The arguments of the covers, with the files they were extracted to. *)
Definition covers_args (covers : list (CoverArt * bytes)) (container : bytes) (attachments : nat) : Args :=
  concat (imap (fun ordinal (c : CoverArt * bytes) =>
    let '(cover, file) := c in
    let number n := decimal (Z.of_nat n) in
    if eqb_text container (lit "mp4") then
      [lit "-map"; lit "0:" ++ decimal (cover_index cover); lit "-c:v:" ++ number (ordinal + 1)%nat; lit "copy";
       lit "-disposition:v:" ++ number (ordinal + 1)%nat; lit "attached_pic"]
    else
      let '(filename, mime) := cover_metadata cover in
      let target := lit "-metadata:s:t:" ++ number (attachments + ordinal)%nat in
      [lit "-attach"; file; target; lit "filename=" ++ filename; target; lit "mimetype=" ++ mime]
      ++ match cover_title cover with Some title => [target; lit "title=" ++ title] | None => [] end) covers).
Definition forced_args (ordinals : list nat) : Args :=
  concat (map (fun o => [lit "-disposition:s:" ++ decimal (Z.of_nat o); lit "+forced"]) ordinals).
(** The command of [run_ffmpeg_transcode], with the covers and their files. *)
Definition transcode_command (config : FfmpegConfig) (request : TranscodeVideoRequest) (source : InputProbe)
    (covers : list (CoverArt * bytes)) : FF Command :=
  let p := rq_profile request in
  let container := out_container request in
  let scope_primary := eqb_text container (lit "mp4") && bool_decide (ip_cover_art source <> []) in
  let c := with_args (Command_new (ffmpeg_path config)) [lit "-hide_banner"; lit "-nostdin"; lit "-n"] in
  c ← append_hardware_input_args c config p (ip_codec source) (copy_video request);
  let c := with_args c ([lit "-i"; in_path request; lit "-map"; lit "0:V:0"; lit "-map"; lit "0:a?";
                         lit "-map"; lit "0:s?"; lit "-map"; lit "0:t?"]) in
  codec_args ← video_codec_args p (copy_video request);
  let c := append_primary_options c codec_args scope_primary in
  filter_args ← video_filter_args p (ip_width source) (ip_height source) (copy_video request);
  let c := append_primary_options c filter_args scope_primary in
  let c := with_args c (flag "-c:a" (lit "copy") ++ flag "-c:s" (lit "copy") ++ flag "-c:t" (lit "copy")
                        ++ flag "-map_metadata" (lit "0")) in
  let c := with_args c (forced_args (ip_forced_subtitle_ordinals source)) in
  format_args ← container_args container (out_video_codec request);
  let c := append_primary_options c format_args scope_primary in
  let c := with_args c (covers_args covers container (ip_attachment_count source)) in
  Ok (with_args c [out_path request]).

(** ** Running it *)

Section run.
Context {W : Type} {host : MediaHost W} {blake3 : Blake3Hex}.
Abbreviation M := (Tx W).

Definition extract_command (config : FfmpegConfig) (input : bytes) (index : Z) (output : bytes) : Command :=
  with_args (Command_new (ffmpeg_path config))
    ([lit "-hide_banner"; lit "-nostdin"; lit "-n"; lit "-i"; input; lit "-map"; lit "0:" ++ decimal index;
      lit "-c"; lit "copy"; lit "-frames:v"; lit "1"; lit "-f"; lit "data"; output]).
Definition extract (config : FfmpegConfig) (input : bytes) (index : Z) (output : bytes) : M FfmpegError unit :=
  run_ffmpeg_command (extract_command config input index output).
(** A value that owns the temporary directory is dropped when the computation fails. *)
Definition owning {A} (dir : bytes) (m : M FfmpegError A) : M FfmpegError A :=
  fun w => match m w with
           | (Ok a, w') => (Ok a, w')
           | (Err e, w') => (Err e, snd (remove_tempdir dir w'))
           end.
Definition in_dir (dir : bytes) (name : string) (ordinal : nat) : bytes :=
  dir ++ lit "/" ++ lit name ++ lit "-" ++ decimal (Z.of_nat ordinal) ++ lit ".bin".
Fixpoint extract_covers (config : FfmpegConfig) (input dir : bytes) (ordinal : nat) (covers : list CoverArt) :
    M FfmpegError (list bytes) :=
  match covers with
  | [] => mret []
  | cover :: covers' =>
      let file := in_dir dir "source" ordinal in
      _ ← extract config input (cover_index cover) file;
      files ← extract_covers config input dir (S ordinal) covers';
      mret (file :: files)
  end.
(** [PreparedCovers::prepare]: the directory and the files. *)
Definition prepare_covers (config : FfmpegConfig) (input staging : bytes) (covers : list CoverArt) :
    M FfmpegError (bytes * list bytes) :=
  dir ← or_error OutputFactsMismatch (tempdir_in (Path_new staging));
  files ← owning dir (extract_covers config input dir 0 covers);
  mret (dir, files).

Definition cover_agrees (container : bytes) (source actual : CoverArt) : bool :=
  eqb_text (cover_codec source) (cover_codec actual)
  && (negb (eqb_text container (lit "mkv"))
      || (bool_decide (cover_metadata source = cover_metadata actual)
          && bool_decide (cover_title source = cover_title actual))).
Fixpoint verify_each (config : FfmpegConfig) (output container dir : bytes) (ordinal : nat)
    (l : list (CoverArt * CoverArt * bytes)) : M FfmpegError unit :=
  match l with
  | [] => mret tt
  | ((source, actual), file) :: l' =>
      _ ← check OutputFactsMismatch (cover_agrees container source actual);
      let extracted := in_dir dir "output" ordinal in
      _ ← extract config output (cover_index actual) extracted;
      before ← or_error OutputFactsMismatch (observe_file_facts (Path_new file));
      after ← or_error OutputFactsMismatch (observe_file_facts (Path_new extracted));
      _ ← check OutputFactsMismatch (same_contents before after);
      verify_each config output container dir (S ordinal) l'
  end.
Definition verify_covers (config : FfmpegConfig) (output container dir : bytes) (covers : list CoverArt)
    (files : list bytes) : M FfmpegError unit :=
  json ← probe_json config output;
  actual ← lift (cover_art_from_probe json);
  _ ← check OutputFactsMismatch (length actual =? length covers)%nat;
  verify_each config output container dir 0 (zip (zip covers actual) files).

Definition probe_input (config : FfmpegConfig) (file : bytes) : M FfmpegError InputProbe :=
  json ← probe_json config file; lift (input_facts json).
Definition probe_output (config : FfmpegConfig) (request : TranscodeVideoRequest) : M FfmpegError OutputProbe :=
  json ← probe_json config (out_path request);
  lift (output_facts json (out_container request) (out_video_codec request) (rq_profile request)).

(** The part of [run_ffmpeg_transcode] after the covers are prepared. *)
Definition transcode_prepared (config : FfmpegConfig) (request : TranscodeVideoRequest) (source : InputProbe)
    (prepared : option (bytes * list bytes)) : M FfmpegError OutputProbe :=
  let covers := match prepared with Some (_, files) => zip (ip_cover_art source) files | None => [] end in
  command ← lift (transcode_command config request source covers);
  _ ← run_ffmpeg_command command;
  result ← probe_output config request;
  _ ← match prepared with
      | Some (dir, files) => verify_covers config (out_path request) (out_container request) dir (ip_cover_art source) files
      | None => mret tt
      end;
  mret result.
Definition run_ffmpeg_transcode (config : FfmpegConfig) (request : TranscodeVideoRequest) (source : InputProbe) :
    M FfmpegError OutputProbe :=
  _ ← lift (cover_art_validate (ip_cover_art source) (out_container request) (ip_attachment_count source));
  match ip_cover_art source with
  | [] => transcode_prepared config request source None
  | covers =>
      prepared ← prepare_covers config (in_path request) (out_staging_root request) covers;
      result ← owning (fst prepared) (transcode_prepared config request source (Some prepared));
      _ ← or_error OutputFactsMismatch (remove_tempdir (fst prepared));
      mret result
  end.

(** ** The handler *)

Definition verify_same (before after : ObservedFacts) : VE unit :=
  require VArtifactChecksumMismatch (same_contents before after).
Definition observe (file : bytes) : M TranscodeVideoError ObservedFacts :=
  map_error from_file_observe_error (observe_file_facts (Path_new file)).
Definition prepare_video_operation (request : TranscodeVideoRequest) : M TranscodeVideoError ObservedFacts :=
  _ ← reject_option_like_path (in_path request);
  _ ← reject_option_like_path (out_path request);
  _ ← validate_staging_path (Path_new (out_staging_root request)) (Path_new (out_path request));
  _ ← validate_output_missing (Path_new (out_path request));
  input_pre ← observe (in_path request);
  _ ← lift (verify_same input_pre (in_expected request));
  mret input_pre.
Definition finalize_video_operation (request : TranscodeVideoRequest) (input_pre : ObservedFacts) :
    M TranscodeVideoError (ObservedFacts * ObservedFacts) :=
  input_post ← observe (in_path request);
  _ ← lift (verify_same input_pre input_post);
  output ← observe (out_path request);
  mret (input_post, output).
Definition handle_transcode_video (request : TranscodeVideoRequest) (config : FfmpegConfig) :
    M TranscodeVideoError TranscodeVideoResult :=
  _ ← check VConfigInvalid (negb (out_overwrite request));
  _ ← lift (validate_transcode_video_contract request);
  _ ← lift (validate_encoder_available request config);
  input_pre ← prepare_video_operation request;
  input_probe ← map_error from_ffmpeg_error (probe_input config (in_path request));
  _ ← lift (check_source request config input_probe);
  probe ← map_error from_ffmpeg_error (run_ffmpeg_transcode config request input_probe);
  finalized ← finalize_video_operation request input_pre;
  mret {| r_provider := lit "ffmpeg"; r_provider_version := provider_version config;
          r_input_pre := input_pre; r_input_post := fst finalized; r_output := snd finalized;
          r_container := op_container probe; r_video_codec := op_video_codec probe;
          r_width := op_width probe; r_height := op_height probe; r_pixel_format := op_pixel_format probe;
          r_hardware_assignment := rq_hardware_assignment request; r_copied_video := copy_video request |}.
End run.
End tokens.
