(* ===== verification/VideoLaws.v ===== *)
(** * What the video worker promises

    The size a source is scaled to, and what a transcode that succeeded has
    established of its files. *)

From Stdlib Require Import ZArith Lia Bool String Ascii.
From stdpp Require Import base gmap strings list.
From S2P Require Import Prelude Vocab Json Bytes PolicySyntax TrackFilters PolicyCompiled PlanModel.
From S2P Require Import PlanVideo Encoders VideoArgs VideoWorker.

Open Scope string_scope.
Open Scope list_scope.
Open Scope Z_scope.

(** ** Sizes *)

Lemma land_even v : 0 <= v <= u32_max -> Z.land v (Z.lxor u32_max 1) = 2 * (v / 2).
Proof.
  intros Hv. transitivity (Z.ldiff v (Z.ones 1)).
  - apply Z.bits_inj'. intros n Hn. rewrite Z.land_spec, Z.ldiff_spec.
    change (Z.lxor u32_max 1) with (Z.ldiff (Z.ones 32) (Z.ones 1)). rewrite Z.ldiff_spec.
    destruct (Z.ltb_spec n 32).
    + rewrite (Z.ones_spec_low 32) by lia. by rewrite andb_true_l.
    + rewrite (Z.bits_above_log2 v n); [by rewrite !andb_false_l|lia|].
      destruct (Z.eq_dec v 0) as [->|]; [change (Z.log2 0) with 0; lia|]. apply (Z.lt_le_trans _ 32); [|lia].
      apply Z.log2_lt_pow2; [lia|]. change (2 ^ 32) with (u32_max + 1). lia.
  - rewrite Z.ldiff_ones_r by lia. rewrite Z.shiftl_mul_pow2, Z.shiftr_div_pow2 by lia. change (2 ^ 1) with 2. lia.
Qed.
Lemma even_dimension_spec v :
  0 <= v <= u32_max -> Z.Even (even_dimension v) /\ 2 <= even_dimension v
  /\ v - 2 < even_dimension v /\ (even_dimension v <= v \/ even_dimension v = 2).
Proof.
  intros Hv. unfold even_dimension. rewrite land_even by done. pose proof (Z.div_mod v 2) as Hdm.
  pose proof (Z.mod_pos_bound v 2). split; [|lia].
  destruct (Z.max_spec (2 * (v / 2)) 2) as [[_ ->]|[_ ->]]; [by exists 1|by exists (v / 2)].
Qed.

(** A value is [src] scaled by [n / d], rounded down to an even number of at least 2. *)
Definition scaled (src n d v : Z) : Prop :=
  Z.Even v /\ 2 <= v /\ src * n - 2 * d < v * d /\ (v * d <= src * n \/ v = 2).
Lemma scaled_quotient src n d :
  0 < d -> 0 <= src * n -> src * n / d <= u32_max -> scaled src n d (even_dimension (src * n / d)).
Proof.
  intros Hd Hp Hu. assert (0 <= src * n / d) by (apply Z.div_pos; lia).
  destruct (even_dimension_spec (src * n / d)) as (He & H2 & Hlo & Hhi); [lia|].
  pose proof (Z.div_mod (src * n) d). pose proof (Z.mod_pos_bound (src * n) d Hd). split_and!; [done|done|nia|].
  destruct Hhi as [Hhi|Hhi]; [left; nia|by right].
Qed.
Lemma scaled_whole src n : 0 < src -> 0 <= n <= u32_max -> scaled src n src (even_dimension n).
Proof.
  intros Hs Hn. destruct (even_dimension_spec n Hn) as (He & H2 & Hlo & Hhi). split_and!; [done|done|nia|].
  destruct Hhi; [left; nia|by right].
Qed.

(** The size a source is scaled to on a VideoToolbox surface: none when it is
    within the caps of the profile; otherwise both dimensions are even, at least
    two pixels, within the caps, and the source scaled by one ratio below one,
    each rounded down by less than two pixels. No product overflows, no divisor is
    zero and no quotient leaves its type. *)
Theorem downscale_sound p w h :
  is_u32 w = true -> is_u32 h = true ->
  2 <= cap_width p <= u32_max -> 2 <= cap_height p <= u32_max ->
  cap_width p * h <= u64_max /\ cap_height p * w <= u64_max
  /\ match downscale_dimensions p w h with
     | None => w <= cap_width p /\ h <= cap_height p
     | Some (w', h') =>
         (cap_width p < w \/ cap_height p < h) /\ w' <= cap_width p /\ h' <= cap_height p
         /\ exists n d, 0 < n < d /\ scaled w n d w' /\ scaled h n d h'
                        /\ w * n / d <= u32_max /\ h * n / d <= u32_max
     end.
Proof.
  unfold is_u32. intros Hw%andb_true_iff Hh%andb_true_iff Hcw Hch. rewrite !Z.leb_le in *.
  split; [unfold u32_max, u64_max in *; nia|]. split; [unfold u32_max, u64_max in *; nia|].
  unfold downscale_dimensions. destruct (_ && _) eqn:E; [lia|].
  assert (cap_width p < w \/ cap_height p < h) as Hex by lia.
  destruct (Z.leb_spec (cap_width p * h) (cap_height p * w)) as [Hl|Hl].
  - assert (cap_width p < w) as Hw' by nia.
    assert (0 <= h * cap_width p / w <= cap_height p) as Hq.
    { split; [apply Z.div_pos; nia|]. apply Z.div_le_upper_bound; nia. }
    unfold u32_or. replace (is_u32 _) with true by (unfold is_u32; lia).
    pose proof (scaled_quotient h (cap_width p) w ltac:(lia) ltac:(nia) ltac:(lia)) as H1.
    pose proof (scaled_whole w (cap_width p) ltac:(lia) ltac:(lia)) as H2.
    split; [done|]. pose proof (even_dimension_spec (cap_width p) ltac:(lia)) as (_ & _ & _ & He1).
    pose proof (even_dimension_spec (h * cap_width p / w) ltac:(lia)) as (_ & _ & _ & He2).
    split; [lia|]. split; [lia|]. exists (cap_width p), w. split_and!; [lia|lia|done|done| |lia].
    rewrite Z.mul_comm, Z.div_mul; lia.
  - assert (0 < h) by nia. assert (cap_height p < h) as Hh' by nia.
    assert (0 <= w * cap_height p / h <= cap_width p) as Hq.
    { split; [apply Z.div_pos; nia|]. apply Z.div_le_upper_bound; nia. }
    unfold u32_or. replace (is_u32 _) with true by (unfold is_u32; lia).
    pose proof (scaled_quotient w (cap_height p) h ltac:(lia) ltac:(nia) ltac:(lia)) as H1.
    pose proof (scaled_whole h (cap_height p) ltac:(lia) ltac:(lia)) as H2.
    split; [done|]. pose proof (even_dimension_spec (cap_height p) ltac:(lia)) as (_ & _ & _ & He1).
    pose proof (even_dimension_spec (w * cap_height p / h) ltac:(lia)) as (_ & _ & _ & He2).
    split; [lia|]. split; [lia|]. exists (cap_height p), h. split_and!; [lia|lia|done|done|lia|].
    rewrite Z.mul_comm, Z.div_mul; lia.
Qed.

(** ** What an accepted output is *)

Lemma output_facts_ok json container codec p out :
  output_facts json container codec p = Ok out ->
  let stream := default JNull (List.find is_main_video (probe_streams json)) in
  out = {| op_container := container; op_video_codec := codec; op_width := dimension stream "width";
           op_height := dimension stream "height"; op_pixel_format := text_or_empty stream "pix_fmt" |}
  /\ names_container (default [] (json_path json ["format"; "format_name"] ≫= json_text)) (probe_container container) = true
  /\ canonical_output_codec (text_or_empty stream "codec_name") = codec
  /\ above_cap (op_width out) (t_max_width p) = false /\ above_cap (op_height out) (t_max_height p) = false
  /\ exists required, expected_output_pixel_format p = Ok required
     /\ (forall pf, required = Some pf -> op_pixel_format out = pf /\ pf <> []).
Proof.
  unfold output_facts. cbn zeta. destruct (names_container _ _) eqn:E1; [|done].
  destruct (eqb_text _ _) eqn:E2; [|done]. apply eqb_text_true in E2. cbn [negb].
  destruct (above_cap _ (t_max_width p)) eqn:E3; [done|]. destruct (above_cap _ (t_max_height p)) eqn:E4; [done|].
  destruct (expected_output_pixel_format p) as [required|]; [|done].
  destruct (match required with Some _ => _ | None => _ end) eqn:E5; [done|]. intros [= <-]. cbn.
  split_and!; try done. exists required. split; [done|]. intros pf ->.
  apply orb_false_iff in E5 as [Hne%negb_false_iff Heq%negb_false_iff]. apply eqb_text_true in Heq. split; [done|].
  intros ->. by rewrite Heq in Hne.
Qed.

Lemma require_ok e b u : require e b = Ok u <-> b = true.
Proof. destruct b, u; cbn; split; done. Qed.

Section run.
Context {unicode : UnicodeLowercase} {W : Type} {host : MediaHost W} {blake3 : Blake3Hex}.

Lemma check_ok {E} (e : E) b (w : W) u w' : check e b w = (Ok u, w') <-> b = true /\ w' = w.
Proof.
  unfold check. destruct b, u; cbn; (split; [|by intros [? ->]]); intros H; [by injection H as ->|discriminate H].
Qed.
Lemma map_error_ok {E F A} (f : E -> F) (m : Tx W E A) w a w' :
  map_error f m w = (Ok a, w') <-> m w = (Ok a, w').
Proof. unfold map_error. destruct (m w) as [[]]; split; congruence. Qed.
Lemma owning_ok {A} dir (m : Tx W FfmpegError A) w a w' : owning dir m w = (Ok a, w') <-> m w = (Ok a, w').
Proof. unfold owning. destruct (m w) as [[]]; split; congruence. Qed.

(** *** Programs that ran *)

(** The command was run and ended so. *)
Definition ran (c : Command) (o : ProcessOutput) : Prop :=
  exists w w', command_output (with_env c "VOOM_MEDIA_CALLER_PID" caller_pid) w = (Ok o, w').
Lemma retrying_ok n c w o w' : retrying n c w = (Ok o, w') -> exists w1 w2, command_output c w1 = (Ok o, w2).
Proof.
  revert w. induction n as [|n IH]; intros w; cbn; destruct (command_output c w) as [[o'|e] w1] eqn:E.
  1, 3: intros [= <- <-]; eauto.
  all: destruct e; intros H; by eauto; congruence.
Qed.
Lemma output_ran c w o w' : output_retrying_etxtbsy c w = (Ok o, w') -> ran c o.
Proof. apply retrying_ok. Qed.
Lemma run_ffmpeg_ok c w u w' : run_ffmpeg_command c w = (Ok u, w') -> exists o, ran c o /\ status_code o = Some 0.
Proof.
  unfold run_ffmpeg_command. intros (o & w1 & H1 & H2)%tx_bind_ok. apply map_error_ok, output_ran in H1.
  exists o. split; [done|]. unfold status_success in H2. by destruct (bool_decide_reflect (status_code o = Some 0)).
Qed.
(** [ffprobe] printed [json] of a file, and nothing else. *)
Definition probed (config : FfmpegConfig) (file : bytes) (json : Json) : Prop :=
  exists o, ran (probe_command config file) o /\ status_code o = Some 0 /\ stderr o = []
            /\ json_from_slice (stdout o) = Some json.
Lemma probe_json_ok config file w json w' : probe_json config file w = (Ok json, w') -> probed config file json.
Proof.
  unfold probe_json. intros (o & w1 & H1 & H2)%tx_bind_ok. apply map_error_ok, output_ran in H1.
  destruct (status_success o) eqn:Hs; [|done]. cbn [negb] in H2.
  apply tx_bind_ok in H2 as ([] & w2 & [He ->]%check_ok & [Hj%ok_or_ok ->]%lift_ok).
  unfold status_success in Hs. apply bool_decide_eq_true in Hs.
  exists o. split_and!; [done|done|by destruct (stderr o)|done].
Qed.

(** *** Covers that survived *)

(** The files were found to have the same size and hash. *)
Definition same_files (a b : bytes) : Prop :=
  exists fa fb w1 w1' w2 w2', observe_file_facts (Path_new a) w1 = (Ok fa, w1')
    /\ observe_file_facts (Path_new b) w2 = (Ok fb, w2') /\ same_contents fa fb = true.
(** A cover was taken out of [file], alone. *)
Definition extracted (config : FfmpegConfig) (file : bytes) (cover : CoverArt) (to : bytes) : Prop :=
  exists o, ran (extract_command config file (cover_index cover) to) o /\ status_code o = Some 0.

Lemma extract_covers_ok config input dir n covers w files w' :
  extract_covers config input dir n covers w = (Ok files, w') -> Forall2 (extracted config input) covers files.
Proof.
  revert n w files w'. induction covers as [|c covers IH]; intros n w files w'; cbn.
  - intros [= <- _]. constructor.
  - intros (u & w1 & H1 & (l & w2 & H2 & H3)%tx_bind_ok)%tx_bind_ok. injection H3 as <- _.
    constructor; [by eapply run_ffmpeg_ok|by eapply IH].
Qed.
Lemma verify_each_ok config output container dir n l w u w' :
  verify_each config output container dir n l w = (Ok u, w') ->
  Forall (fun x => cover_agrees container (fst (fst x)) (snd (fst x)) = true
            /\ exists to, extracted config output (snd (fst x)) to /\ same_files (snd x) to) l.
Proof.
  revert n w. induction l as [|[[source actual] file] l IH]; intros n w; [constructor|]. cbn [verify_each].
  intros (? & ? & [Ha ->]%check_ok & H)%tx_bind_ok. cbn zeta in H.
  apply tx_bind_ok in H as (? & w1 & He & (b & w2 & Hb%map_error_ok & (a & w3 & Hf%map_error_ok & H)%tx_bind_ok)%tx_bind_ok).
  apply tx_bind_ok in H as (? & ? & [Hs ->]%check_ok & H). constructor; [|by eapply IH].
  cbn [fst snd]. split; [done|]. eexists. split; [by eapply run_ffmpeg_ok|]. exists b, a. by eauto 10.
Qed.
(** Every cover of the source is in the output, in order, with its bytes and, in a
    Matroska file, its name, type and title. *)
Definition covers_kept (config : FfmpegConfig) (request : TranscodeVideoRequest) (covers : list CoverArt) : Prop :=
  exists json actual, probed config (out_path request) json /\ cover_art_from_probe json = Ok actual
  /\ Forall2 (fun source a => cover_agrees (out_container request) source a = true
       /\ exists f g, extracted config (in_path request) source f /\ extracted config (out_path request) a g
                      /\ same_files f g) covers actual.
Lemma zipped_covers {A B C} (P : A -> C -> Prop) (Q : A * B * C -> Prop) covers actual files :
  length actual = length covers -> Forall2 P covers files -> Forall Q (zip (zip covers actual) files) ->
  Forall2 (fun s a => exists f, P s f /\ Q (s, a, f)) covers actual.
Proof.
  intros Hl HP. revert actual Hl. induction HP as [|s f covers files Hs HP IH]; intros [|a actual]; cbn; try done.
  intros [= Hl] [Ha HQ]%Forall_cons. constructor; [by exists f|by apply IH].
Qed.
Lemma verify_covers_ok config request dir covers files w u w' :
  Forall2 (extracted config (in_path request)) covers files ->
  verify_covers config (out_path request) (out_container request) dir covers files w = (Ok u, w') ->
  covers_kept config request covers.
Proof.
  intros Hx. unfold verify_covers.
  intros (json & w1 & Hj%probe_json_ok & (actual & w2 & [Ha ->]%lift_ok & (? & ? & [Hl ->]%check_ok & Hv)%tx_bind_ok)
    %tx_bind_ok)%tx_bind_ok.
  apply Nat.eqb_eq in Hl. apply verify_each_ok in Hv. exists json, actual. split_and!; [done|done|].
  eapply Forall2_impl; [exact (zipped_covers _ _ _ _ _ Hl Hx Hv)|].
  intros s a (f & Hf & Hag & g & Hg & Hsame). cbn in *. by eauto 10.
Qed.

Lemma transcode_prepared_ok config request source prepared w out w' :
  transcode_prepared config request source prepared w = (Ok out, w') ->
  exists command raw,
    transcode_command config request source
      match prepared with Some (_, files) => zip (ip_cover_art source) files | None => [] end = Ok command
    /\ (exists o, ran command o /\ status_code o = Some 0) /\ probed config (out_path request) raw
    /\ output_facts raw (out_container request) (out_video_codec request) (rq_profile request) = Ok out
    /\ forall dir files, prepared = Some (dir, files) ->
       Forall2 (extracted config (in_path request)) (ip_cover_art source) files ->
       covers_kept config request (ip_cover_art source).
Proof.
  unfold transcode_prepared, probe_output.
  intros (command & w1 & [Hc ->]%lift_ok & (? & w2 & Hr%run_ffmpeg_ok & (result & w3 & Hp & Hv)%tx_bind_ok)%tx_bind_ok)
    %tx_bind_ok.
  apply tx_bind_ok in Hp as (raw & w4 & Hj%probe_json_ok & [Hf ->]%lift_ok).
  apply tx_bind_ok in Hv as (? & w5 & Hv & [= <- _]). exists command, raw. split_and!; try done.
  intros dir files -> Hx. by eapply verify_covers_ok.
Qed.

(** What the worker has established of a transcode, by the programs it ran: which
    command, and what was probed of the source and of the output. *)
Record transcode_established (config : FfmpegConfig) (request : TranscodeVideoRequest) (source : InputProbe)
    (out : OutputProbe) : Prop := {
  te_command : exists command files o,
    transcode_command config request source (zip (ip_cover_art source) files) = Ok command
    /\ length files = length (ip_cover_art source) /\ ran command o /\ status_code o = Some 0;
  te_output : exists raw, probed config (out_path request) raw
    /\ output_facts raw (out_container request) (out_video_codec request) (rq_profile request) = Ok out;
  te_covers : ip_cover_art source <> [] -> covers_kept config request (ip_cover_art source);
}.
Lemma run_transcode_ok config request source w out w' :
  run_ffmpeg_transcode config request source w = (Ok out, w') -> transcode_established config request source out.
Proof.
  unfold run_ffmpeg_transcode. intros (? & w1 & _ & H)%tx_bind_ok.
  destruct (ip_cover_art source) as [|c cs] eqn:Hcs.
  - apply transcode_prepared_ok in H as (command & raw & Hc & (o & Ho & Hs) & Hj & Hf & _).
    split; [|by eauto|by rewrite Hcs]. exists command, [], o. rewrite Hcs. done.
  - apply tx_bind_ok in H as ([dir files] & w2 & Hp & (r & w3 & Ht%owning_ok & (? & w4 & _ & [= <- _])%tx_bind_ok)%tx_bind_ok).
    unfold prepare_covers in Hp. apply tx_bind_ok in Hp as (d & w5 & _ & (fs & w6 & Hx%owning_ok & [= <- <- _])%tx_bind_ok).
    apply extract_covers_ok in Hx. rewrite <-Hcs in Hx.
    apply transcode_prepared_ok in Ht as (command & raw & Hc & (o & Ho & Hs) & Hj & Hf & Hk).
    split; [|by eauto|intros _; by eapply Hk]. exists command, fs, o. split_and!; [done| |done|done].
    symmetry. by eapply Forall2_length.
Qed.

Lemma check_source_ok request config probe :
  check_source request config probe = Ok tt ->
  all_some (codec_tokens_match (ip_codec probe)) (in_video_codec request) = true
  /\ all_some (eqb_text (ip_pixel_format probe)) (in_video_pixel_format request) = true
  /\ ip_video_stream_count probe = 1
  /\ cover_art_validate (ip_cover_art probe) (out_container request) (ip_attachment_count probe) = Ok tt
  /\ (copy_video request = true -> validate_copy_video_preconditions request probe = Ok tt)
  /\ validate_video_hardware_binding request config probe = Ok tt.
Proof.
  unfold check_source.
  intros ([] & H1%require_ok & ([] & H2%require_ok & ([] & H3%require_ok & ([] & H4 & ([] & H5 & H6)
    %result_bind_ok)%result_bind_ok)%result_bind_ok)%result_bind_ok)%result_bind_ok.
  split_and!; [done|done|lia| | |done].
  - destruct (cover_art_validate _ _ _) as [[]|]; done.
  - intros Hc. by rewrite Hc in H5.
Qed.

Lemma contract_ok request :
  validate_transcode_video_contract request = Ok tt ->
  is_supported_transcode_video_container (out_container request) = true
  /\ is_supported_transcode_video_codec (out_video_codec request) = true
  /\ validate_profile_against_descriptor (rq_profile request) = Ok tt.
Proof.
  unfold validate_transcode_video_contract.
  intros ([] & H1%require_ok & ([] & H2%require_ok & H3)%result_bind_ok)%result_bind_ok.
  split_and!; [done|done|]. by destruct (validate_profile_against_descriptor _) as [[]|].
Qed.

(** The output lies under the staging directory. *)
Definition staged (request : TranscodeVideoRequest) : Prop :=
  exists parent root croot cparent w1 w1' w2 w2',
    root = Path_new (out_staging_root request) /\ path_parent (Path_new (out_path request)) = Some parent
    /\ canonicalize root w1 = (Ok croot, w1') /\ canonicalize parent w2 = (Ok cparent, w2')
    /\ path_starts_with cparent croot = true.
Lemma canonical_dir_ok p w c w' :
  canonical_existing_dir_no_symlink p w = (Ok c, w') -> exists w1, canonicalize p w1 = (Ok c, w').
Proof.
  unfold canonical_existing_dir_no_symlink.
  intros (? & ? & _ & (? & w1 & _ & H%map_error_ok)%tx_bind_ok)%tx_bind_ok. eauto.
Qed.
Lemma prepare_ok request w pre w' :
  prepare_video_operation request w = (Ok pre, w') ->
  option_like (in_path request) = false /\ option_like (out_path request) = false /\ staged request
  /\ same_contents pre (in_expected request) = true.
Proof.
  unfold prepare_video_operation, reject_option_like_path, verify_same.
  intros (? & ? & [H1%negb_true_iff ->]%check_ok & (? & ? & [H2%negb_true_iff ->]%check_ok & (? & w1 & Hst
    & (? & w2 & _ & (obs & w3 & _ & (? & w4 & [Hv%require_ok ->]%lift_ok & [= <- _])%tx_bind_ok)%tx_bind_ok)%tx_bind_ok)
    %tx_bind_ok)%tx_bind_ok)%tx_bind_ok.
  split_and!; [done|done| |done]. unfold validate_staging_path in Hst.
  apply tx_bind_ok in Hst as (root & w5 & (w6 & Hr)%canonical_dir_ok & (parent & w7 & [Hp%ok_or_ok ->]%lift_ok
    & (cparent & w8 & (w9 & Hcp)%canonical_dir_ok & [Hs _]%check_ok)%tx_bind_ok)%tx_bind_ok).
  exists parent, (Path_new (out_staging_root request)), root, cparent. by eauto 12.
Qed.

End run.
