(* ===== verification/VideoAgree.v ===== *)
(** * The planner and the video worker on one probe

    The planner decides on a snapshot that the probe worker normalized; the video
    worker probes the file again and reads what [ffprobe] prints itself. This file
    relates the two readings. *)

From Stdlib Require Import ZArith Lia Bool String Ascii.
From stdpp Require Import base gmap strings list.
From S2P Require Import Prelude Vocab Json Bytes PolicySyntax TrackFilters PolicyCompiled PlanModel.
From S2P Require Import Probe ProbeLaws PlanVideo Encoders VideoArgs VideoWorker VideoLaws.

Open Scope string_scope.
Open Scope list_scope.
Open Scope Z_scope.

(** ** What [ffprobe] prints *)

(** Of a stream: flags are 0 or 1, only a video is an attached picture, a video has its
    size and the index fits. *)
Record ffprobe_stream (p : Json) : Prop := {
  fs_flag : json_path p ["disposition"; "attached_pic"] ∈ [None; Some (JInt 0); Some (JInt 1)];
  fs_picture : is_attached_pic p = true -> text_at p "codec_type" = Some (lit "video");
  fs_size : text_at p "codec_type" = Some (lit "video") ->
    forall k, k ∈ ["width"; "height"] -> exists n, json_get p k = Some (JInt n) /\ is_u32 n = true;
  fs_index : exists n, json_get p "index" = Some (JInt n) /\ is_u32 n = true;
}.
(** Of a file: each stream is one of these, and no two have one index. *)
Record ffprobe_output (raw : Json) : Prop := {
  fo_streams : Forall ffprobe_stream (probe_streams raw);
  fo_indexes : NoDup (map (fun s => json_get s "index") (probe_streams raw));
}.
(** An image that a Matroska file attaches has its flag in the snapshot. *)
Definition images_flagged (payload : Json) : Prop :=
  Forall (fun s => legacy_matroska_image (text_at s "codec_name") (text_at s "mime_type") (text_at s "filename") = true ->
            json_path s ["disposition"; "attached_pic"] ≫= json_as_bool = Some true)
    (default [] (json_get payload "streams" ≫= json_as_array)).

(** ** One stream *)

Section agree.
Context {floats : F64Reading} {unicode : UnicodeLowercase} {durations : DurationMillis}.

Lemma known_text_some input key s :
  known_text input key = Some s -> assoc_str key input = Some (JStr s) /\ is_unknown_value (lit s) = false.
Proof.
  unfold known_text. destruct (assoc_str key input) as [[]|]; cbn; try done.
  destruct (is_unknown_value _) eqn:E; [done|]. by intros [= <-].
Qed.
(** A text of the snapshot is the text of the probe. *)
Lemma stored_text p s key key' :
  stream_object p = Ok s ->
  (key, key') ∈ [("kind", "codec_type"); ("pixel_format", "pix_fmt"); ("codec_name", "codec_name"); ("profile", "profile")] ->
  text_at s key = match text_at p key' with Some t => if is_unknown_value t then None else Some t | None => None end.
Proof.
  intros Hs Hk. destruct (stream_object_members _ _ Hs) as (input & Hi & Hm).
  destruct p as [| | | | | |ms]; try done. injection Hi as ->.
  assert (json_get s key = JStr <$> known_text input key') as Hg.
  { apply list_elem_of_In in Hk. cbn in Hk. destruct Hk as [[= <- <-]|[[= <- <-]|[[= <- <-]|[[= <- <-]|[]]]]];
      rewrite Hm by (unfold other_keys, TAG_KEYS, TAG_NAMES; set_solver); done. }
  unfold text_at. rewrite Hg. cbn [json_get]. unfold known_text. destruct (assoc_str key' input) as [[]|]; cbn; try done.
  destruct (is_unknown_value _); done.
Qed.
Lemma stored_kind p s kind :
  stream_object p = Ok s -> is_unknown_value (lit kind) = false ->
  (text_at s "kind" = Some (lit kind) <-> text_at p "codec_type" = Some (lit kind)).
Proof.
  intros Hs Hk. rewrite (stored_text p s "kind" "codec_type") by (done || set_solver).
  destruct (text_at p "codec_type") as [t|]; [|done]. split.
  - destruct (is_unknown_value t); [done|]. done.
  - intros [= ->]. by rewrite Hk.
Qed.
Lemma stored_dimension p s k n :
  stream_object p = Ok s -> k ∈ ["width"; "height"] -> json_get p k = Some (JInt n) -> is_u32 n = true ->
  payload_u32 s k = Some n.
Proof.
  intros Hs Hk Hp Hn. destruct (stream_object_members _ _ Hs) as (input & Hi & Hm).
  destruct p as [| | | | | |ms]; try done. injection Hi as ->. cbn in Hp.
  assert (json_get s k = JInt <$> known_u64 input k) as Hg.
  { apply list_elem_of_In in Hk. cbn in Hk. destruct Hk as [<-|[<-|[]]];
      rewrite Hm by (unfold other_keys, TAG_KEYS, TAG_NAMES; set_solver); done. }
  unfold payload_u32. rewrite Hg. unfold known_u64. rewrite Hp. cbn.
  assert (is_u64 n = true) as Hu by (unfold is_u64, is_u32, u32_max, u64_max in *; lia).
  rewrite Hu. cbn. unfold json_as_u32, u32_try_from. cbn. rewrite Hu. cbn. by rewrite Hn.
Qed.

(** Both call the same streams pictures, and the same streams the video. *)
Lemma stored_attached p s :
  ffprobe_stream p -> stream_object p = Ok s ->
  (json_path s ["disposition"; "attached_pic"] ≫= json_as_bool = Some true <-> is_attached_pic p = true).
Proof.
  intros Hp Hs. destruct (stream_object_members _ _ Hs) as (input & Hi & _).
  rewrite (stored_picture _ _ _ Hi Hs). destruct p as [| | | | | |ms]; try done. injection Hi as ->.
  unfold is_attached_pic, disposition_flag. rewrite bool_decide_eq_true. pose proof (fs_flag _ Hp) as Hf.
  cbn [json_path json_get] in Hf |- *. split.
  - intros (flags & v & Hd & Hv & Hb). rewrite Hd in Hf |- *. cbn in Hf |- *. rewrite Hv in Hf |- *. cbn in Hf |- *.
    apply list_elem_of_In in Hf. cbn in Hf. destruct Hf as [?|[[= <-]|[[= <-]|[]]]]; done.
  - destruct (assoc_str "disposition" input) as [d|]; [|done]. cbn in Hf |- *. destruct d as [| | | | | |flags]; try done.
    cbn in Hf |- *. destruct (assoc_str "attached_pic" flags) as [v|] eqn:Hv; [|done]. cbn in Hf |- *.
    intros H. exists flags, v. split_and!; [done|done|].
    apply list_elem_of_In in Hf. cbn in Hf. destruct Hf as [?|[[= <-]|[[= <-]|[]]]]; done.
Qed.

(** The snapshot of a stream of the probe whose images are flagged. *)
Definition reading (p s : Json) : Prop :=
  ffprobe_stream p /\ stream_object p = Ok s
  /\ (legacy_matroska_image (text_at s "codec_name") (text_at s "mime_type") (text_at s "filename") = true ->
      json_path s ["disposition"; "attached_pic"] ≫= json_as_bool = Some true).
Lemma reading_cover p s : reading p s -> is_cover_art s = is_attached_pic p.
Proof.
  intros (Hp & Hs & Hl). apply eq_true_iff_eq. unfold is_cover_art.
  rewrite andb_true_iff, orb_true_iff, !bool_decide_eq_true. rewrite <-(stored_attached p s Hp Hs). split; [tauto|].
  intros H. split; [|by left]. rewrite (stored_kind p s "video") by done. by apply (fs_picture _ Hp), (stored_attached p s).
Qed.
Lemma reading_primary p s : reading p s -> is_primary_video s = is_main_video p.
Proof.
  intros Hr. unfold is_primary_video, is_main_video, codec_type_is. rewrite (reading_cover _ _ Hr). f_equal.
  apply bool_decide_ext. apply stored_kind; [apply Hr|done].
Qed.

(** ** One file *)

Lemma Forall2_find {A B} (R : A -> B -> Prop) (f : A -> bool) (g : B -> bool) l l' :
  Forall2 R l l' -> (forall a b, R a b -> g b = f a) ->
  match List.find f l, List.find g l' with
  | Some a, Some b => R a b
  | None, None => True
  | _, _ => False
  end.
Proof.
  intros H Hfg. induction H as [|a b l l' Hab H IH]; cbn; [done|]. rewrite (Hfg a b Hab). by destruct (f a).
Qed.
Lemma Forall2_filter_length {A B} (R : A -> B -> Prop) (f : A -> bool) (g : B -> bool) l l' :
  Forall2 R l l' -> (forall a b, R a b -> g b = f a) -> length (List.filter f l) = length (List.filter g l').
Proof.
  intros H Hfg. induction H as [|a b l l' Hab H IH]; cbn; [done|]. rewrite (Hfg a b Hab). destruct (f a); cbn; congruence.
Qed.

(** A probe and the snapshot made of it. *)
Record same_file (raw payload : Json) : Prop := {
  sf_normalized : exists version at_, normalize_ffprobe_json raw version at_ = Ok payload;
  sf_probe : ffprobe_output raw;
  sf_images : images_flagged payload;
}.
Lemma same_file_streams raw payload :
  same_file raw payload ->
  match json_get payload "streams" ≫= json_as_array with
  | None => json_get raw "streams" = None /\ json_get payload "streams" = None
  | Some stored => json_get raw "streams" = Some (JArr (probe_streams raw)) /\ Forall2 reading (probe_streams raw) stored
  end.
Proof.
  intros [(version & at_ & Hn) [Hs _] Hi]. destruct (json_members raw) as [root|] eqn:Hroot.
  2: { unfold normalize_ffprobe_json in Hn. by rewrite Hroot in Hn. }
  destruct (normalize_parts _ _ _ _ _ Hroot Hn) as (_ & _ & _ & Hst).
  destruct (json_get raw "streams") as [streams|] eqn:Hraw; [|by rewrite Hst].
  destruct Hst as (probed & stored & -> & Hst & HF). unfold images_flagged, probe_streams in *. rewrite Hst in Hi |- *.
  rewrite Hraw in Hs |- *. cbn in Hi, Hs |- *. split; [done|]. clear -Hs Hi HF.
  induction HF as [|p s l l' Hps HF IH]; [constructor|]. apply Forall_cons in Hs as [? ?], Hi as [? ?].
  constructor; [by split_and!|by apply IH].
Qed.
Lemma same_file_keys raw payload k :
  same_file raw payload -> (k ∉ ["format"; "probe"; "container"; "streams"; "raw"]) -> json_get payload k = None.
Proof.
  intros [(version & at_ & Hn) _ _]. destruct (json_members raw) as [root|] eqn:Hroot.
  2: { unfold normalize_ffprobe_json in Hn. by rewrite Hroot in Hn. }
  destruct (normalize_parts _ _ _ _ _ Hroot Hn) as (_ & Hk & _). apply Hk.
Qed.

(** The facts of the planner about the main video of a probe. *)
Lemma planned_facts raw payload ordinal snapshot p :
  same_file raw payload -> ms_payload snapshot = payload -> List.find is_main_video (probe_streams raw) = Some p ->
  exists s, reading p s
    /\ (forall k, video_stream_field (planning_input ordinal snapshot) k = text_at s k)
    /\ si_video_codec (planning_input ordinal snapshot) = text_at s "codec_name"
    /\ si_width (planning_input ordinal snapshot) = Some (dimension p "width")
    /\ si_height (planning_input ordinal snapshot) = Some (dimension p "height").
Proof.
  intros Hsf Hpay Hp. pose proof (same_file_streams _ _ Hsf) as Hst.
  assert (text_at payload "video_codec" = None) as Hvc.
  { unfold text_at. rewrite (same_file_keys _ _ "video_codec" Hsf); [done|]. set_solver. }
  destruct (json_get payload "streams" ≫= json_as_array) as [stored|] eqn:Hpl.
  2: { unfold probe_streams in Hp. by rewrite (proj1 Hst) in Hp. }
  destruct Hst as [_ HF]. pose proof (Forall2_find _ _ _ _ _ HF reading_primary) as Hfind. rewrite Hp in Hfind.
  destruct (List.find is_primary_video stored) as [s|] eqn:Hs; [|done]. exists s. split; [done|].
  assert (forall k, k ∈ ["width"; "height"] -> payload_u32 s k = Some (dimension p k)) as Hdim.
  { intros k Hk. destruct Hfind as (Hfp & Hso & _). apply find_some in Hp as [_ Hmain].
    unfold is_main_video, codec_type_is in Hmain. apply andb_true_iff in Hmain as [Hv%bool_decide_eq_true _].
    destruct (fs_size _ Hfp Hv k Hk) as (n & Hn & Hu). unfold dimension. rewrite Hn. cbn.
    rewrite (stored_dimension p s k n) by done. f_equal. unfold json_as_u32, u32_try_from. cbn.
    assert (is_u64 n = true) as -> by (unfold is_u64, is_u32, u32_max, u64_max in *; lia). cbn. by rewrite Hu. }
  unfold planning_input, video_stream_field, summary_streams, stream_summary_from_snapshot_payload.
  cbn [stream_summary si_video_codec si_width si_height]. rewrite Hpay. rewrite !Hpl, Hvc. cbn.
  destruct (json_get payload "streams") as [st|]; [|done]. cbn in Hpl |- *. rewrite Hpl. cbn. rewrite !Hs. cbn.
  split_and!; [done|by destruct (text_at s "codec_name")|apply Hdim; set_solver..].
Qed.
Lemma planned_count raw payload ordinal snapshot :
  same_file raw payload -> ms_payload snapshot = payload ->
  video_stream_count (planning_input ordinal snapshot)
  = json_as_u64 (JInt (Z.of_nat (length (List.filter is_main_video (probe_streams raw))))).
Proof.
  intros Hsf Hpay. pose proof (same_file_streams _ _ Hsf) as Hst. unfold video_stream_count, planning_input,
    stream_summary_from_snapshot_payload. cbn [stream_summary]. rewrite Hpay. cbn -[json_as_u64].
  destruct (json_get payload "streams" ≫= json_as_array) as [stored|] eqn:Hpl.
  - destruct Hst as [_ HF]. by rewrite (Forall2_filter_length _ _ _ _ _ HF reading_primary).
  - unfold probe_streams. by rewrite (proj1 Hst).
Qed.
Lemma planned_streams raw payload ordinal snapshot :
  same_file raw payload -> ms_payload snapshot = payload ->
  match summary_streams (planning_input ordinal snapshot) with
  | None => json_get raw "streams" = None
  | Some stored => json_get raw "streams" = Some (JArr (probe_streams raw)) /\ Forall2 reading (probe_streams raw) stored
  end.
Proof.
  intros Hsf Hpay. pose proof (same_file_streams _ _ Hsf) as Hst. unfold summary_streams, planning_input,
    stream_summary_from_snapshot_payload. cbn [stream_summary]. rewrite Hpay.
  destruct (json_get payload "streams") as [st|]; cbn in Hst |- *; [|tauto].
  destruct (json_as_array st); [done|by destruct Hst].
Qed.

(** ** What a planned transcode has passed *)

(** A check that only ever objects. *)
Definition objects (o : option TranscodeVideoShape) : Prop :=
  o ∈ [None; Some VideoInsufficientFacts; Some VideoUnsupportedShape].
Definition refuses {A} (r : result TranscodeVideoShape A) : Prop :=
  forall e, r = Err e -> e ∈ [VideoInsufficientFacts; VideoUnsupportedShape].
Lemma objects_cases o : objects o -> o = None \/ o = Some VideoInsufficientFacts \/ o = Some VideoUnsupportedShape.
Proof. unfold objects. rewrite list_elem_of_In. cbn. intuition. Qed.
Lemma covers_objects streams container : objects (covers_shape streams container).
Proof.
  induction streams as [|s streams IH]; cbn; [unfold objects; set_solver|]. destruct (is_cover_art s); [|done].
  destruct (text_at s "codec_name"); [|unfold objects; set_solver]. destruct (cover_supported _ _); [done|unfold objects; set_solver].
Qed.
Lemma mp4_objects streams b : objects (mp4_streams_shape streams b).
Proof.
  revert b. induction streams as [|s streams IH]; intros b; cbn [mp4_streams_shape]; [unfold objects; destruct b; set_solver|].
  repeat case_match; first [apply IH|unfold objects; set_solver].
Qed.
Lemma shape_checks_object snapshot p container video_codec :
  objects (cover_art_shape snapshot container) /\ objects (unsupported_hardware_decode_shape p video_codec)
  /\ (forall absent, objects (decode_depth_shape snapshot p absent)) /\ objects (vaapi_dimension_shape snapshot p)
  /\ objects (mp4_gate_shape snapshot).
Proof.
  split_and!.
  - unfold cover_art_shape. destruct (summary_streams snapshot); cbn; [apply covers_objects|unfold objects; set_solver].
  - unfold unsupported_hardware_decode_shape, objects. repeat case_match; set_solver.
  - intros absent. unfold decode_depth_shape, objects. repeat case_match; set_solver.
  - unfold vaapi_dimension_shape, objects. repeat case_match; set_solver.
  - unfold mp4_gate_shape. destruct (summary_streams snapshot); [apply mp4_objects|unfold objects; set_solver].
Qed.

Lemma needs_change_refuses snapshot p container video_codec target :
  refuses (transcode_video_needs_change snapshot p container video_codec target).
Proof.
  assert (forall cap fact, refuses (over_cap cap fact)) as Hcap.
  { intros cap fact e. unfold over_cap. destruct cap, fact; cbn; intros [= <-]; set_solver. }
  assert (forall A B (r : VS A) (f : A -> VS B), refuses r -> (forall a, refuses (f a)) -> refuses (r ≫= f)) as Hb.
  { intros A B r f Hr Hf e. destruct r as [a|e']; cbn; [apply Hf|]. intros [= <-]. by apply Hr. }
  assert (forall A (a : A), refuses (Ok a)) as Hok by done.
  assert (forall target key, refuses (token_needs_change snapshot target key)) as Ht.
  { intros t key e. unfold token_needs_change. destruct t; [|done]. destruct (video_stream_field _ _); cbn; [done|].
    intros [= <-]. set_solver. }
  unfold transcode_video_needs_change, dimensions_need_change.
  repeat (apply Hb; [auto|intros ?]); auto. intros e. unfold pixel_format_needs_change.
  destruct (expected_output_pixel_format p) as [[]|]; [|done|intros [= <-]; set_solver].
  destruct (video_stream_field _ _); cbn; [done|intros [= <-]; set_solver].
Qed.
Lemma first_shape_spec checks otherwise shape :
  Forall objects checks -> shape ∈ [NeedsTranscode; Compliant] ->
  (first_shape checks otherwise = shape <-> Forall (eq None) checks /\ otherwise = shape).
Proof.
  intros HF Hs. induction HF as [|c checks Hc HF IH]; cbn; [by rewrite Forall_nil; tauto|].
  rewrite Forall_cons. destruct (objects_cases c Hc) as [-> | [-> | ->] ]; [rewrite IH; tauto| | ];
    (split; [intros <-; set_solver|intros ((Hx & _) & _); done]).
Qed.

(** The checks of [transcode_video_shape], in order, for a file that needs a change or not. *)
Definition shape_checks (needs_change : bool) (snapshot : MediaSnapshotInput) (p : TranscodeVideoProfile)
    (video_codec target : bytes) : Prop :=
  (needs_change = true ->
     cover_art_shape snapshot target = None /\ unsupported_hardware_decode_shape p video_codec = None
     /\ (t_decode p = VideoToolbox -> videotoolbox_decode_shape snapshot p = None)
     /\ (t_decode p = Vaapi -> vaapi_decode_shape snapshot p = None)
     /\ vaapi_dimension_shape snapshot p = None)
  /\ (eq_ignore_ascii_case target (lit TRANSCODE_VIDEO_CONTAINER_MP4) = true -> mp4_gate_shape snapshot = None).
Lemma shape_spec snapshot p target (needs_change : bool) :
  transcode_video_shape snapshot p target = (if needs_change then NeedsTranscode else Compliant) <->
  video_stream_count snapshot = Some 1
  /\ exists container video_codec, si_container snapshot = Some container /\ si_video_codec snapshot = Some video_codec
     /\ transcode_video_needs_change snapshot p container video_codec target = Ok needs_change
     /\ shape_checks needs_change snapshot p video_codec target.
Proof.
  assert ((if needs_change then NeedsTranscode else Compliant) ∈ [NeedsTranscode; Compliant]) as Hin
    by (destruct needs_change; set_solver).
  assert (forall e, e ∈ [VideoInsufficientFacts; VideoUnsupportedShape] ->
            e = (if needs_change then NeedsTranscode else Compliant) -> False) as Hne
    by (intros e He ->; destruct needs_change; set_solver).
  unfold transcode_video_shape. destruct (video_stream_count snapshot) as [count|].
  2: { split; [intros []%Hne; set_solver|by intros [? _]]. }
  destruct (Z.eqb_spec count 1) as [->|Hc].
  2: { split; [intros []%Hne; set_solver|intros (Hx & _); congruence]. }
  cbn [negb]. destruct (si_container snapshot) as [container|], (si_video_codec snapshot) as [video_codec|].
  2-4: split; [intros []%Hne; set_solver|by intros (_ & ? & ? & ? & ? & _)].
  destruct (transcode_video_needs_change _ _ _ _ _) as [nc|e] eqn:Hnc.
  2: { split; [intros []%Hne; by eapply needs_change_refuses|]. intros (_ & ? & ? & [= <-] & [= <-] & ? & _). congruence. }
  destruct (shape_checks_object snapshot p target video_codec) as (H1 & H2 & H3 & H4 & H5).
  assert (forall (b : bool) o, objects o -> objects (if b then o else None)) as Hif.
  { intros [] o Ho; [done|unfold objects; set_solver]. }
  rewrite first_shape_spec; [|rewrite !Forall_cons; split_and!; first [by apply Forall_nil|apply Hif; first [done|apply H3]]|done].
  rewrite !Forall_cons, Forall_nil. unfold shape_checks. split.
  - intros ((C1 & C2 & C3 & C4 & C5 & C6 & _) & Hsh). split; [done|]. exists container, video_codec.
    assert (nc = needs_change) as -> by (destruct nc, needs_change; done). split_and!; try done.
    + intros ->. rewrite !andb_true_l in *. split_and!; try done.
      * intros Hd. by rewrite (bool_decide_eq_true_2 _ Hd) in C3.
      * intros Hd. by rewrite (bool_decide_eq_true_2 _ Hd) in C4.
    + intros Hm. by rewrite Hm in C6.
  - intros (_ & ? & ? & [= <-] & [= <-] & Hnc' & Hch & Hm). rewrite Hnc in Hnc'. injection Hnc' as ->.
    split; [|by destruct needs_change].
    split_and!; try done; try (destruct needs_change; [|done]; specialize (Hch eq_refl)).
    1, 2, 5: symmetry; tauto.
    + cbn. case_bool_decide; [|done]. symmetry. tauto.
    + cbn. case_bool_decide; [|done]. symmetry. tauto.
    + destruct (eq_ignore_ascii_case _ _); [|done]. symmetry. by apply Hm.
Qed.

(** ** Covers and attachments *)

Lemma covers_read probed stored container indices :
  Forall2 reading probed stored -> covers_shape stored container = None ->
  NoDup (map (fun s => json_get s "index") probed) ->
  (forall i, i ∈ indices -> Some (JInt i) ∉ map (fun s => json_get s "index") probed) ->
  exists covers, covers_from probed indices = Ok covers
                 /\ forallb (fun c => cover_supported container (cover_codec c)) covers = true.
Proof.
  intros HF. revert indices. induction HF as [|p s probed stored Hps HF IH]; intros indices Hsh Hnd Hseen; [by exists []|].
  cbn in Hsh, Hnd, Hseen |- *. apply NoDup_cons in Hnd as [Hp Hnd]. rewrite (reading_cover _ _ Hps) in Hsh.
  destruct (is_attached_pic p); cbn [negb]; [|apply IH; [done..|set_solver]].
  destruct (text_at s "codec_name") as [codec|] eqn:Hc; [|done].
  destruct (cover_supported container codec) eqn:Hsup; [|done]. destruct Hps as (Hfp & Hso & _).
  destruct (fs_index _ Hfp) as (n & Hn & Hu). rewrite Hn in Hp, Hseen |- *.
  assert (json_as_u32 (JInt n) = Some n) as Hn'.
  { unfold json_as_u32, u32_try_from. cbn.
    assert (is_u64 n = true) as -> by (unfold is_u64, is_u32, u32_max, u64_max in *; lia). cbn. by rewrite Hu. }
  cbn [mbind option_bind]. rewrite Hn'. cbn [ok_or mbind result_mbind].
  replace (existsb (Z.eqb n) indices) with false.
  2: { symmetry. apply not_true_iff_false. rewrite existsb_exists. intros (i & Hi & ->%Z.eqb_eq).
       apply list_elem_of_In in Hi. apply (Hseen i Hi). set_solver. }
  rewrite (stored_text p s "codec_name" "codec_name") in Hc by (done || set_solver).
  destruct (text_at p "codec_name") as [t|]; [|done]. destruct (is_unknown_value t); [done|]. injection Hc as ->.
  cbn [ok_or mbind result_mbind].
  destruct (IH (n :: indices)) as (covers & -> & Hall); [done|done| |].
  { intros i [->|Hi]%elem_of_cons; [done|]. specialize (Hseen i Hi). set_solver. }
  eexists. split; [done|]. cbn. by rewrite Hsup, Hall.
Qed.

Lemma mp4_false streams : mp4_streams_shape streams false <> None.
Proof.
  induction streams as [|s streams IH]; cbn [mp4_streams_shape]; [done|].
  repeat case_match; try done.
Qed.
Lemma no_attachments probed stored :
  Forall2 reading probed stored -> mp4_streams_shape stored true = None ->
  List.filter (codec_type_is "attachment") probed = [].
Proof.
  intros HF. induction HF as [|p s probed stored Hps HF IH]; [done|]. cbn [mp4_streams_shape List.filter].
  destruct Hps as (Hfp & Hso & _). pose proof (stored_kind p s "attachment" Hso eq_refl) as Hk.
  destruct s; try done. remember (JObj members) as s. unfold codec_type_is.
  case_bool_decide as Hv.
  - intros H. rewrite bool_decide_eq_false_2; [by apply IH|]. rewrite <-Hk, Hv. done.
  - destruct (text_at s "kind") as [kind|], (text_at s "codec_name") as [codec|]; try done.
    cbn [andb]. destruct (mp4_muxable kind codec) eqn:Hm; [|by intros ?%mp4_false].
    intros H. rewrite bool_decide_eq_false_2; [by apply IH|]. rewrite <-Hk. intros [= ->]. done.
Qed.

(** ** Profiles and devices *)

Lemma valid_profile p :
  validate_profile_against_descriptor p = Ok tt -> exists d, encoder_descriptor (t_encoder p) = Some d.
Proof.
  unfold validate_profile_against_descriptor. destruct (encoder_descriptor (t_encoder p)) as [d|]; [by exists d|done].
Qed.
Lemma one_of_in words t : one_of words t = true <-> exists w, w ∈ words /\ t = lit w.
Proof.
  unfold one_of. rewrite existsb_exists. setoid_rewrite eqb_text_true. setoid_rewrite list_elem_of_In. done.
Qed.
(** The encoders of the table, one by one. *)
Ltac each_encoder Hd He :=
  apply encoder_descriptor_in in Hd as [Hd He]; apply list_elem_of_In in Hd; cbn in Hd;
  destruct Hd as [<-|[<-|[<-|[<-|[<-|[<-|[<-|[]]]]]]]].

Lemma codec_args_total p : validate_profile_against_descriptor p = Ok tt -> exists a, video_codec_args p false = Ok a.
Proof.
  intros Hv. destruct (valid_profile p Hv) as (d & Hd).
  pose proof (proj1 (validate_profile_ok p d Hd) Hv) as (_ & Hq & _ & Hp & _ & _ & Hl & _). unfold video_codec_args. rewrite Hd.
  cbn [ok_or mbind result_mbind]. each_encoder Hd He; cbn [backend X265 SVTAV1 LIBAOM HEVC_NVENC HEVC_VAAPI H264_VIDEOTOOLBOX HEVC_VIDEOTOOLBOX];
  rewrite ?He; cbn in Hq, Hp, Hl;
  unfold validate_quality_domain, validate_preset, video_codec_args_x265, video_codec_args_svtav1, video_codec_args_libaom,
    video_codec_args_nvenc, video_codec_args_vaapi, video_codec_args_videotoolbox, required_quality, required_preset in *;
  cbn in Hq, Hp; repeat (case_match; try done); cbn; by eauto.
Qed.
(** Comparisons of two literals, evaluated. *)
Ltac eval_texts :=
  repeat match goal with
  | |- context [eqb_text (lit ?a) (lit ?b)] =>
      let r := eval vm_compute in (eqb_text (lit a) (lit b)) in change (eqb_text (lit a) (lit b)) with r
  end; cbn [mbind result_mbind].
Lemma videotoolbox_filter_total p w h :
  validate_videotoolbox_tuple p BVideoToolbox = true -> exists a, videotoolbox_filter_args p w h = Ok a.
Proof.
  unfold validate_videotoolbox_tuple, videotoolbox_filter_args.
  change (negb (bool_decide (BVideoToolbox = BVideoToolbox))) with false. cbv iota zeta.
  destruct (bool_decide (t_decode p = VideoToolbox)); [by eauto|]. rewrite !orb_true_iff, !bool_decide_eq_true.
  intros [[Ht|Ht]|Ht]; pose proof (f_equal snd Ht) as Hf; cbn [snd] in Hf; rewrite Hf; eval_texts; by eauto.
Qed.
Lemma filter_args_total p w h :
  validate_profile_against_descriptor p = Ok tt ->
  (encoder_is_vaapi p = true -> exceeds_dimension_caps p w h = false) ->
  exists a, video_filter_args p w h false = Ok a.
Proof.
  intros Hv Hcap. destruct (valid_profile p Hv) as (d & Hd). unfold video_filter_args. rewrite Hd.
  cbn [ok_or mbind result_mbind]. unfold encoder_is_vaapi in Hcap. rewrite Hd in Hcap.
  pose proof (proj1 (validate_profile_ok p d Hd) Hv) as (_ & _ & _ & _ & _ & _ & _ & Hpf & _ & _ & Htuple).
  each_encoder Hd He; cbn [backend X265 SVTAV1 LIBAOM HEVC_NVENC HEVC_VAAPI H264_VIDEOTOOLBOX HEVC_VIDEOTOOLBOX] in *; [by eauto..| | | |].
  - unfold nvenc_filter_args. destruct (t_pixel_format p) as [f|]; [|by eauto]. cbn [all_some] in Hpf.
    apply one_of_in in Hpf as (word & Hw & ->). apply list_elem_of_In in Hw. cbn in Hw.
    destruct Hw as [<-|[<-|[]]]; eval_texts; by eauto.
  - unfold vaapi_filter_args, vaapi_surface_format. rewrite Hcap by done. clear Hcap. destruct (t_pixel_format p) as [f|].
    + cbn [all_some] in Hpf. apply one_of_in in Hpf as (word & Hw & ->). apply list_elem_of_In in Hw. cbn in Hw.
      destruct Hw as [<-|[<-|[]]]; eval_texts; case_bool_decide; by eauto.
    + cbn. case_bool_decide; by eauto.
  - by apply videotoolbox_filter_total.
  - by apply videotoolbox_filter_total.
Qed.
Lemma target_codecs p :
  validate_profile_against_descriptor p = Ok tt -> exists w, w ∈ ["hevc"; "av1"; "h264"] /\ t_target_codec p = lit w.
Proof.
  intros Hv. destruct (valid_profile p Hv) as (d & Hd).
  pose proof (proj1 (validate_profile_ok p d Hd) Hv) as (-> & _).
  exists (e_target_codec d). split; [|done]. each_encoder Hd He; cbn; set_solver.
Qed.
Lemma supported_containers container :
  is_supported_transcode_video_container container = true -> container = lit "mkv" \/ container = lit "mp4".
Proof.
  unfold is_supported_transcode_video_container. intros (w & Hw & ->)%one_of_in. apply list_elem_of_In in Hw. cbn in Hw.
  destruct Hw as [<-|[<-|[]]]; by auto.
Qed.
Lemma container_args_total p container :
  validate_profile_against_descriptor p = Ok tt -> is_supported_transcode_video_container container = true ->
  exists a, container_args container (t_target_codec p) = Ok a.
Proof.
  intros (w & Hw & ->)%target_codecs Hc. apply list_elem_of_In in Hw. cbn in Hw.
  destruct (supported_containers _ Hc) as [->| ->], Hw as [<-|[<-|[<-|[]]]]; vm_compute; by eauto.
Qed.

(** The worker is bound to the device the assignment names, and the device proved a
    decoder for the source where the profile decodes on it. *)
Definition device_ready (config : FfmpegConfig) (assignment : option VideoHardwareAssignment) (p : TranscodeVideoProfile)
    (codec pixel_format : bytes) : Prop :=
  match backend <$> encoder_descriptor (t_encoder p) with
  | None => False
  | Some BSoftware => accelerator config = None /\ (assignment = None \/ assignment = Some AssignSoftware)
  | Some BNvidia =>
      exists a, accelerator config = Some (BindNvidia a)
      /\ assignment = Some (AssignNvidia (nv_hardware_token a) (nv_device_uuid a))
      /\ (t_decode p = Nvidia -> forall dec, nvidia_decoder_for_video_codec codec = Some dec -> lit dec ∈ nv_decoders a)
  | Some BVaapi =>
      exists b, accelerator config = Some (BindVaapi b)
      /\ (let pci := va_pci_address (va_descriptor b) in assignment = Some (AssignVaapi (vaapi_hardware_token pci) pci))
      /\ (t_decode p = Vaapi -> forall c, vaapi_video_decode_codec codec = Some c -> lit c ∈ va_decoders (va_descriptor b))
  | Some BVideoToolbox =>
      exists a, accelerator config = Some (BindVideoToolbox a)
      /\ assignment = Some (AssignVideoToolbox (vt_hardware_token a) (vt_resource_id a))
      /\ t_encoder p ∈ vt_encoders a
      /\ (t_decode p = VideoToolbox -> exists c, c ∈ vt_decoders a
            /\ codec_tokens_match (vtd_codec c) codec = true /\ pixel_format ∈ vtd_pixel_formats c)
  end.
Lemma eqb_text_refl t : eqb_text t t = true.
Proof. by apply eqb_text_true. Qed.
Lemma existsb_text t l : t ∈ l -> existsb (eqb_text t) l = true.
Proof. intros H. apply existsb_exists. exists t. rewrite <-list_elem_of_In. by rewrite eqb_text_true. Qed.
Lemma decode_depth_same snapshot p absent source :
  decode_depth_shape snapshot p absent = None -> video_stream_field snapshot "pixel_format" = Some source ->
  same_depth source (video_pixel_format_depth (default (lit absent) (t_pixel_format p))) = true.
Proof.
  unfold decode_depth_shape, same_depth. intros H Hf. rewrite Hf in H. destruct (video_pixel_format_depth source); [|done].
  by case_bool_decide.
Qed.

(** The modes a device does not decode in. *)
Ltac eval_modes :=
  repeat match goal with
  | |- context [bool_decide (@eq VideoDecodeMode ?a ?b)] =>
      let r := eval vm_compute in (bool_decide (@eq VideoDecodeMode a b)) in
      change (bool_decide (@eq VideoDecodeMode a b)) with r
  end; cbn [negb].
Ltac other_mode Hb Hpair := first [split; [done|intros ?; by eauto]|rewrite Hb in Hpair; done|idtac].

(** The binding and the device arguments, from what the planner checked. *)
Lemma device_checks snapshot request config source :
  let p := rq_profile request in
  validate_profile_against_descriptor p = Ok tt ->
  device_ready config (rq_hardware_assignment request) p (ip_codec source) (ip_pixel_format source) ->
  unsupported_hardware_decode_shape p (ip_codec source) = None ->
  (t_decode p = VideoToolbox -> videotoolbox_decode_shape snapshot p = None
                                /\ video_stream_field snapshot "pixel_format" = Some (ip_pixel_format source)) ->
  (t_decode p = Vaapi -> vaapi_decode_shape snapshot p = None
                         /\ video_stream_field snapshot "pixel_format" = Some (ip_pixel_format source)) ->
  validate_video_hardware_binding request config source = Ok tt
  /\ forall c, exists c', append_hardware_input_args c config p (ip_codec source) false = Ok c'.
Proof.
  cbn zeta. set (p := rq_profile request). intros Hv Hready Hhw Hvt Hva. destruct (valid_profile p Hv) as (d & Hd).
  pose proof (proj1 (validate_profile_ok p d Hd) Hv) as (_ & _ & Hpair & _).
  unfold validate_video_hardware_binding, append_hardware_input_args, device_ready in *. fold p. rewrite Hd in *.
  cbn [ok_or mbind result_mbind fmap option_fmap option_map] in *. unfold unsupported_hardware_decode_shape in Hhw.
  destruct (backend d) eqn:Hb.
  - destruct Hready as [Ha Has]. split; [|by eauto]. unfold validate_software_binding. rewrite Ha. by destruct Has as [->| ->].
  - destruct Hready as (a & Ha & Has & Hdec). unfold validate_nvidia_binding, append_nvidia_input_args, config_nvidia.
    rewrite Has, Ha. fold p. cbn [ok_or mbind result_mbind]. rewrite !eqb_text_refl.
    cbn [andb require mbind result_mbind]. destruct (t_decode p) eqn:Hdm; cbn in Hpair; eval_modes; other_mode Hb Hpair.
    destruct (nvidia_decoder_for_video_codec (ip_codec source)) as [dec|] eqn:Hn; [|done].
    cbn [ok_or mbind result_mbind]. rewrite existsb_text by (by apply Hdec). by eauto.
  - destruct Hready as (b & Ha & Has & Hdec). unfold validate_vaapi_binding, append_vaapi_input_args, config_vaapi.
    rewrite Has, Ha. fold p. cbn [ok_or mbind result_mbind]. rewrite !eqb_text_refl.
    cbn [andb require mbind result_mbind]. destruct (t_decode p) eqn:Hdm; cbn in Hpair; eval_modes; other_mode Hb Hpair.
    destruct (Hva eq_refl) as [Hsh Hf]. unfold validate_vaapi_decoder_probed, validate_vaapi_bit_depth. fold p.
    rewrite (decode_depth_same _ _ _ _ Hsh Hf).
    destruct (vaapi_video_decode_codec (ip_codec source)) as [c|] eqn:Hn; [|done].
    replace (existsb _ _) with true; [by eauto|]. symmetry. apply existsb_exists. exists (lit c).
    rewrite <-list_elem_of_In. split; [by apply Hdec|]. unfold eq_ignore_ascii_case. by apply eqb_text_true.
  - destruct Hready as (a & Ha & Has & Henc & Hdec).
    unfold validate_videotoolbox_binding, append_videotoolbox_input_args, config_videotoolbox.
    rewrite Has, Ha. fold p. cbn [ok_or mbind result_mbind]. rewrite !eqb_text_refl.
    cbn [andb require mbind result_mbind]. rewrite (existsb_text _ _ Henc). cbn [require mbind result_mbind].
    destruct (t_decode p) eqn:Hdm; cbn in Hpair; eval_modes; other_mode Hb Hpair.
    destruct (Hvt eq_refl) as [Hsh Hf], (Hdec eq_refl) as (cap & Hin & Hm & Hpx).
    unfold validate_videotoolbox_bit_depth. fold p. replace (existsb _ _) with true.
    2: { symmetry. apply existsb_exists. exists cap. rewrite <-list_elem_of_In, Hm. split; [done|]. by apply existsb_text. }
    cbn [require mbind result_mbind]. replace (same_depth _ _) with true; [by eauto|]. symmetry.
    pose proof (decode_depth_same _ _ _ _ Hsh Hf) as Hsd. destruct (t_pixel_format p); [done|].
    unfold same_depth in *. by destruct (video_pixel_format_depth (ip_pixel_format source)).
Qed.

(** ** Planned work starts *)

Lemma known_equal p s key key' t :
  stream_object p = Ok s ->
  (key, key') ∈ [("kind", "codec_type"); ("pixel_format", "pix_fmt"); ("codec_name", "codec_name"); ("profile", "profile")] ->
  text_at s key = Some t -> text_or_empty p key' = t.
Proof.
  intros Hs Hk. rewrite (stored_text p s key key') by done. unfold text_or_empty.
  destruct (text_at p key') as [u|]; [|done]. destruct (is_unknown_value u); [done|]. by intros [= ->].
Qed.
Lemma one_main_video raw :
  Z.of_nat (length (List.filter is_main_video (probe_streams raw))) = 1 ->
  exists p, List.find is_main_video (probe_streams raw) = Some p.
Proof.
  intros H. destruct (List.find is_main_video (probe_streams raw)) as [p|] eqn:Hp; [by exists p|].
  assert (List.filter is_main_video (probe_streams raw) = []) as Hf; [|by rewrite Hf in H].
  induction (probe_streams raw) as [|s l IH]; [done|]. cbn in *. destruct (is_main_video s); [done|]. by apply IH.
Qed.

Lemma device_ready_pixel config assignment p codec pf pf' :
  (t_decode p = VideoToolbox -> pf' = pf) -> device_ready config assignment p codec pf ->
  device_ready config assignment p codec pf'.
Proof.
  intros Hpf. unfold device_ready. destruct (backend <$> _) as [[]|]; try done.
  intros (a & Ha & Has & He & Hd). exists a. split_and!; [done..|]. intros Hm. rewrite (Hpf Hm). by apply Hd.
Qed.
Lemma decode_known snapshot p absent :
  decode_depth_shape snapshot p absent = None -> exists t, video_stream_field snapshot "pixel_format" = Some t.
Proof. unfold decode_depth_shape. destruct (video_stream_field _ _) as [t|]; [by exists t|done]. Qed.
Lemma dimension_checks snapshot p w h :
  vaapi_dimension_shape snapshot p = None -> si_width snapshot = Some w -> si_height snapshot = Some h ->
  0 <= w <= u32_max -> 0 <= h <= u32_max ->
  encoder_is_vaapi p = true -> exceeds_dimension_caps p w h = false.
Proof.
  unfold vaapi_dimension_shape, exceeds_dimension_caps, cap_width, cap_height. intros Hs Hw Hh Hwb Hhb He. rewrite He, Hw, Hh in Hs.
  destruct (t_max_width p), (t_max_height p); cbn in Hs |- *; destruct (_ && _) eqn:E; try done; lia.
Qed.
Lemma dimension_bounds p k : 0 <= dimension p k <= u32_max.
Proof.
  unfold dimension. destruct (json_get p k) as [v|]; cbn; [|unfold u32_max; lia].
  unfold json_as_u32. destruct (json_as_u64 v) as [n|]; cbn; [|unfold u32_max; lia]. unfold u32_try_from, is_u32.
  destruct (_ && _) eqn:E; cbn; [|unfold u32_max]; lia.
Qed.
(** A request for the source of a probe passes its checks, from those of its parts. *)
Lemma check_source_passes request config source :
  in_video_codec request = None -> in_video_pixel_format request = None -> copy_video request = false ->
  ip_video_stream_count source = 1 ->
  forallb (fun c => cover_supported (out_container request) (cover_codec c)) (ip_cover_art source) = true ->
  (out_container request = lit "mp4" -> ip_attachment_count source = 0%nat) ->
  validate_video_hardware_binding request config source = Ok tt -> check_source request config source = Ok tt.
Proof.
  unfold check_source, cover_art_validate. intros -> -> -> -> -> Hatt Hbind. rewrite Hbind.
  destruct (eqb_text (out_container request) (lit "mp4")) eqn:E; [|done]. apply eqb_text_true in E. by rewrite (Hatt E).
Qed.
Lemma transcode_command_total config request source covers :
  validate_profile_against_descriptor (rq_profile request) = Ok tt ->
  is_supported_transcode_video_container (out_container request) = true ->
  out_video_codec request = t_target_codec (rq_profile request) -> copy_video request = false ->
  (encoder_is_vaapi (rq_profile request) = true ->
     exceeds_dimension_caps (rq_profile request) (ip_width source) (ip_height source) = false) ->
  (forall c, exists c', append_hardware_input_args c config (rq_profile request) (ip_codec source) false = Ok c') ->
  exists command, transcode_command config request source covers = Ok command.
Proof.
  intros Hv Hc Hcodec Hcopy Hcap Hhw. unfold transcode_command. rewrite Hcopy, Hcodec.
  destruct (codec_args_total _ Hv) as (a1 & E1), (filter_args_total _ _ _ Hv Hcap) as (a2 & E2),
    (container_args_total _ _ Hv Hc) as (a3 & E3).
  destruct (Hhw (with_args (Command_new (ffmpeg_path config)) [lit "-hide_banner"; lit "-nostdin"; lit "-n"])) as (c' & E0).
  cbv zeta. rewrite E0. cbn [mbind result_mbind]. rewrite E1. cbn [mbind result_mbind]. rewrite E2. cbn [mbind result_mbind].
  rewrite E3. cbn [mbind result_mbind]. by eexists.
Qed.

(** C27: What is planned starts: where the planner plans a transcode of a file, a
    worker that probes the same file, is bound to the assigned device and gets a
    request within the contract refuses it for nothing it reads of the source:
    it finds one video, takes every cover, and the profile and the source always
    give a command. *)
Theorem planned_transcode_starts raw payload ordinal snapshot request config video_codec :
  same_file raw payload -> ms_payload snapshot = payload ->
  let input := planning_input ordinal snapshot in
  let p := rq_profile request in
  transcode_video_shape input p (out_container request) = NeedsTranscode ->
  si_video_codec input = Some video_codec ->
  validate_transcode_video_contract request = Ok tt -> out_video_codec request = t_target_codec p ->
  in_video_codec request = None -> in_video_pixel_format request = None -> copy_video request = false ->
  device_ready config (rq_hardware_assignment request) p video_codec
    (default [] (video_stream_field input "pixel_format")) ->
  exists source, input_facts raw = Ok source /\ check_source request config source = Ok tt
    /\ forall covers, exists command, transcode_command config request source covers = Ok command.
Proof.
  cbn zeta. set (p := rq_profile request). intros Hsf Hpay Hshape Hvc Hcontract Hcodec Hin1 Hin2 Hcopy Hready.
  apply (shape_spec _ _ _ true) in Hshape as (Hcount & container & vc & _ & Hvc' & _ & Hchecks & Hmp4).
  rewrite Hvc in Hvc'. injection Hvc' as <-. destruct (Hchecks eq_refl) as (Hcover & Hhw & Hvt & Hva & Hdim).
  rewrite (planned_count raw payload) in Hcount by done. cbn in Hcount. destruct (is_u64 _); [|done]. injection Hcount as Hcount.
  destruct (one_main_video raw Hcount) as (v & Hv).
  destruct (planned_facts raw payload ordinal snapshot v Hsf Hpay Hv) as (s & Hrd & Hfield & Hsc & Hw & Hh).
  pose proof (planned_streams raw payload ordinal snapshot Hsf Hpay) as Hst. unfold cover_art_shape in Hcover.
  unfold mp4_gate_shape in Hmp4. destruct (summary_streams _) as [stored|].
  2: { unfold probe_streams in Hv. by rewrite Hst in Hv. }
  destruct Hst as [Hraw HF]. cbn [mbind option_bind] in Hcover.
  destruct (covers_read (probe_streams raw) stored (out_container request) [] HF Hcover) as (covers & Hcov & Hsup).
  { apply Hsf. } { set_solver. }
  destruct (contract_ok request Hcontract) as (Hsupported & _ & Hvalid).
  pose proof Hrd as (_ & Hso & _). rewrite Hsc in Hvc.
  pose proof (known_equal v s "codec_name" "codec_name" video_codec Hso ltac:(set_solver) Hvc) as Hipc.
  assert (forall t, video_stream_field (planning_input ordinal snapshot) "pixel_format" = Some t ->
            text_or_empty v "pix_fmt" = t) as Hipp.
  { intros t. rewrite Hfield. apply (known_equal v s); [done|set_solver]. }
  assert (forall absent, decode_depth_shape (planning_input ordinal snapshot) p absent = None ->
            video_stream_field (planning_input ordinal snapshot) "pixel_format" = Some (text_or_empty v "pix_fmt")) as Hpx.
  { intros absent (t & Ht)%decode_known. by rewrite Ht, (Hipp t Ht). }
  assert (validate_video_hardware_binding request config (source_facts raw v covers) = Ok tt
    /\ forall c, exists c', append_hardware_input_args c config p (ip_codec (source_facts raw v covers)) false = Ok c') as Hdev.
  { apply (device_checks (planning_input ordinal snapshot)); [done| |by cbn [source_facts ip_codec]; rewrite Hipc| |].
    - cbn [source_facts ip_codec ip_pixel_format]. rewrite Hipc. eapply device_ready_pixel; [|exact Hready].
      intros Hm. rewrite (Hpx _ (Hvt Hm)). done.
    - intros Hm. split; [by apply Hvt|]. exact (Hpx _ (Hvt Hm)).
    - intros Hm. split; [by apply Hva|]. exact (Hpx _ (Hva Hm)). }
  exists (source_facts raw v covers). split; [|split].
  - unfold input_facts. rewrite Hv. unfold cover_art_from_probe. rewrite Hraw.
    cbn [mbind option_bind json_as_array ok_or result_mbind]. by rewrite Hcov.
  - apply check_source_passes; try done.
    + unfold source_facts. cbn [ip_video_stream_count]. by rewrite Hcount.
    + intros Hm. unfold source_facts. cbn [ip_attachment_count]. rewrite (no_attachments _ _ HF); [done|].
      apply Hmp4. by rewrite Hm.
    + apply Hdev.
  - intros cs. apply transcode_command_total; try done; [|apply Hdev].
    apply (dimension_checks (planning_input ordinal snapshot)); try done; apply dimension_bounds.
Qed.

(** ** Finished work is settled *)

(** The name [ffprobe] gives to the format of a container. *)
Definition format_name (container : bytes) : string :=
  if eqb_text container (lit "mkv") then "matroska,webm" else "mov,mp4,m4a,3gp,3g2,mj2".

Lemma planned_container raw payload ordinal snapshot container :
  same_file raw payload -> ms_payload snapshot = payload -> is_supported_transcode_video_container container = true ->
  json_path raw ["format"; "format_name"] = Some (JStr (format_name container)) ->
  si_container (planning_input ordinal snapshot) = Some container.
Proof.
  intros [(version & at_ & Hn) _ _] Hpay Hc Hname. unfold planning_input, canonical_container. cbn [si_container].
  rewrite Hpay. destruct (json_members raw) as [root|] eqn:Hroot.
  2: { unfold normalize_ffprobe_json in Hn. by rewrite Hroot in Hn. }
  destruct (normalize_parts _ _ _ _ _ Hroot Hn) as (_ & _ & Hf & _). cbn [json_path] in Hname.
  destruct (json_get raw "format") as [format|]; [|done]. destruct Hf as (f & c & -> & Hobj & ->).
  cbn [mbind option_bind json_get] in Hname. unfold container_object, insert_string in Hobj.
  apply result_bind_ok in Hobj as (c1 & H1 & H2). cbn [mbind option_bind json_text json_as_str fmap option_fmap option_map json_get].
  rewrite (assoc_u64_value _ _ _ _ "format_name" _ H2). cbn [String.eqb Ascii.eqb Bool.eqb].
  rewrite (assoc_f64_string _ _ _ _ "format_name" _ H1) by done.
  rewrite !assoc_string_as. cbn [String.eqb Ascii.eqb Bool.eqb]. unfold known_text.
  destruct (assoc_str "format_name" f) as [v|]; [|done]. injection Hname as ->.
  by destruct (supported_containers _ Hc) as [->| ->].
Qed.

Lemma output_codec_known t p :
  validate_profile_against_descriptor p = Ok tt -> canonical_output_codec t = t_target_codec p ->
  is_unknown_value t = false /\ t <> [] /\ codec_matches t (t_target_codec p) = true.
Proof.
  intros (w & Hw & ->)%target_codecs. unfold canonical_output_codec.
  destruct (one_of _ t) eqn:E1; [apply one_of_in in E1 as (u & Hu & ->)|destruct (eqb_text t _) eqn:E2; [apply eqb_text_true in E2 as ->|]];
    intros Ht; apply list_elem_of_In in Hw; cbn in Hw.
  - apply list_elem_of_In in Hu. cbn in Hu. destruct Hu as [<-|[<-|[]]], Hw as [<-|[<-|[<-|[]]]]; done.
  - destruct Hw as [<-|[<-|[<-|[]]]]; done.
  - subst t. destruct Hw as [<-|[<-|[<-|[]]]]; done.
Qed.
Lemma output_format_known p pf :
  validate_profile_against_descriptor p = Ok tt -> expected_output_pixel_format p = Ok (Some pf) ->
  is_unknown_value pf = false.
Proof.
  intros Hv. destruct (valid_profile p Hv) as (d & Hd). unfold expected_output_pixel_format. rewrite Hd.
  pose proof (proj1 (validate_profile_ok p d Hd) Hv) as (_ & _ & _ & _ & _ & _ & _ & Hpf & _).
  destruct (t_pixel_format p) as [f|]; [|done]. cbn [all_some] in Hpf. apply one_of_in in Hpf as (w & Hw & ->).
  cbn [ok_or mbind result_mbind]. destruct (output_pixel_format d (lit w)) as [out|] eqn:Ho; [|done].
  cbn [ok_or mbind result_mbind]. intros [= <-]. each_encoder Hd He;
    apply list_elem_of_In in Hw; cbn in Hw; repeat destruct Hw as [<-|Hw]; try done; by injection Ho as <-.
Qed.
Lemma stored_known p s key key' t :
  stream_object p = Ok s ->
  (key, key') ∈ [("kind", "codec_type"); ("pixel_format", "pix_fmt"); ("codec_name", "codec_name"); ("profile", "profile")] ->
  text_or_empty p key' = t -> t <> [] -> is_unknown_value t = false -> text_at s key = Some t.
Proof.
  intros Hs Hk Ht Hne Hu. rewrite (stored_text p s key key') by done. unfold text_or_empty in Ht.
  destruct (text_at p key') as [u|]; cbn in Ht; [|congruence]. subst u. by rewrite Hu.
Qed.
Lemma over_cap_known cap v : above_cap v cap = false -> over_cap cap (Some v) = Ok false.
Proof. unfold over_cap, above_cap. destruct cap; [|done]. intros H. cbn. by rewrite H. Qed.


(** ** Levels *)

Lemma chars_digits t : forallb is_ascii_digit t = true -> chars t = map (fun c => [c]) t.
Proof.
  induction t as [|c t IH]; [done|]. cbn [forallb chars map]. intros [Hc Ht]%andb_true_iff. rewrite (IH Ht).
  destruct t as [|d t]; [done|]. cbn [map]. replace (is_continuation d) with false; [done|].
  cbn in Ht. apply andb_true_iff in Ht as [Hd _]. unfold is_ascii_digit, is_continuation, byte_in in *. symmetry.
  apply andb_true_iff in Hd as [_ Hd]. apply Nat.leb_le in Hd. apply andb_false_iff. left. apply Nat.leb_gt. lia.
Qed.
Lemma digits_no_dot t : forallb is_ascii_digit t = true -> "."%char ∉ normalize_codec_token t.
Proof.
  intros Ht. unfold normalize_codec_token. rewrite (chars_digits _ Ht). rewrite list_elem_of_In, in_flat_map.
  intros (x & Hx & Hdot). apply filter_In in Hx as [(c & <- & Hc)%in_map_iff _].
  rewrite forallb_forall in Ht. specialize (Ht c Hc). cbn in Hdot. destruct Hdot as [Hdot|[]].
  unfold to_ascii_lowercase in Hdot. case_match; [|by rewrite Hdot in Ht].
  by revert Ht Hdot; destruct c as [[] [] [] [] [] [] [] []].
Qed.
Lemma level_has_dot p l :
  validate_profile_against_descriptor p = Ok tt -> t_codec_level p = Some l -> "."%char ∈ normalize_codec_token l.
Proof.
  intros Hv Hl. destruct (valid_profile p Hv) as (d & Hd).
  pose proof (proj1 (validate_profile_ok p d Hd) Hv) as (_ & _ & _ & _ & _ & _ & Hlev & _). rewrite Hl in Hlev.
  cbn [all_some] in Hlev. apply one_of_in in Hlev as (w & Hw & ->). apply list_elem_of_In.
  each_encoder Hd He; apply list_elem_of_In in Hw; cbn in Hw; repeat destruct Hw as [<-|Hw]; try done; vm_compute; tauto.
Qed.

(** C40: A codec level is never met: [ffprobe] prints the level of a video as an
    integer and the snapshot keeps its digits, while every level a profile may ask
    for is written with a point, so a file planned under such a profile is never
    compliant, whatever was done to it. *)
Theorem level_never_met raw payload ordinal snapshot p container l v n :
  same_file raw payload -> ms_payload snapshot = payload ->
  validate_profile_against_descriptor p = Ok tt -> t_codec_level p = Some l ->
  List.find is_main_video (probe_streams raw) = Some v -> json_get v "level" = Some (JInt n) ->
  transcode_video_shape (planning_input ordinal snapshot) p container <> Compliant.
Proof.
  intros Hsf Hpay Hv Hl Hmain Hn Hc. apply (shape_spec _ _ _ false) in Hc as (_ & c & vc & _ & _ & Hnc & _).
  destruct (planned_facts raw payload ordinal snapshot v Hsf Hpay Hmain) as (s & (_ & Hso & _) & Hfield & _).
  unfold transcode_video_needs_change in Hnc.
  apply result_bind_ok in Hnc as (b1 & _ & (b2 & _ & (b3 & _ & (b4 & Hlev & [= Hor])%result_bind_ok)%result_bind_ok)%result_bind_ok).
  apply orb_false_iff in Hor as [_ ->]. rewrite Hl in Hlev. unfold token_needs_change in Hlev.
  apply result_bind_ok in Hlev as (observed & Ho%ok_or_ok & [= Heq%negb_false_iff]). apply eqb_text_true in Heq.
  rewrite Hfield in Ho. destruct (stream_object_members _ _ Hso) as (input & Hi & Hm).
  destruct v as [| | | | | |ms]; try done. injection Hi as ->. cbn [json_get] in Hn.
  unfold text_at in Ho. rewrite Hm in Ho by (unfold other_keys, TAG_KEYS, TAG_NAMES; set_solver).
  change (stream_member input "level") with (JStr <$> known_level input) in Ho. unfold known_level in Ho.
  rewrite Hn in Ho. cbn [mbind option_bind json_as_u64] in Ho. destruct (is_u64 n) eqn:Hu; [|done].
  cbn -[decimal lit] in Ho. injection Ho as <-. unfold lit in Heq. rewrite list_ascii_of_string_of_list_ascii in Heq.
  apply (digits_no_dot (decimal n)); [by apply u64_decimal|]. rewrite Heq. by eapply level_has_dot.
Qed.
End agree.
