(* ===== verification/Planner.v ===== *)
(** * The planner

    [voom-policy/src/data/model.rs] (the input set a plan is made from and its
    validation), the stored form of compiled operations
    ([voom-policy/src/compile/compiled.rs], [data/video_profile.rs]) and
    [voom-plan/src/planner.rs]: how the phases of a compiled policy are expanded,
    for every snapshot of the input, to the nodes, diagnostics, edges and summary
    of an execution plan. Message texts, the warnings (which are texts), and the
    plan's own identifier and hash are left out, and so is the provenance, a
    constant. *)

From Stdlib Require Import ZArith Lia Bool String Ascii SpecFloat.
From stdpp Require Import base gmap strings list.
From S2P Require Import Prelude Json Vocab Bytes PolicySyntax Encoders TrackFilters PolicyCompiled.
From S2P Require Import PlanModel FilterJson PlanStreams PlanPayload PlanRemux PlanConditions.
From S2P Require Import AudioStreams AudioPayload AudioCompat PlanAudio PlanVideo.

Open Scope string_scope.
Open Scope list_scope.
Open Scope Z_scope.

(** ** Input sets *)

Definition is_empty {A} (l : list A) : bool := match l with [] => true | _ => false end.

Definition POLICY_INPUT_MAX_MEMBERS : Z := 10000.
Definition POLICY_INPUT_MAX_SERIALIZED_BYTES : Z := 32 * 1024 * 1024.

#[global] Instance TargetKind_eq_dec : EqDecision TargetKind.
Proof. solve_decision. Defined.

Record PolicySyntheticTarget := {
  st_key : bytes; st_kind : TargetKind; st_display_name : option bytes }.
(** The confidence is an [f64]. *)
Record IdentityEvidenceInput := {
  ie_ordinal : Z; ie_target : TargetRef; ie_assertion_type : bytes; ie_provider : bytes;
  ie_provider_version : bytes; ie_confidence : spec_float; ie_provenance : Json;
  ie_observed_at : Z; ie_existing_evidence_id : option Z }.
Inductive BundleTargetState := BRequired | BAllowed | BForbidden | BPreferred.
Record BundleTargetInput := {
  bt_ordinal : Z; bt_target : TargetRef; bt_role : bytes; bt_desired_state : BundleTargetState;
  bt_language : option bytes; bt_label : option bytes; bt_disposition : option bytes;
  bt_artifact_expectation : Json }.
Record QualityProfileSelection := {
  qp_ordinal : Z; qp_target : TargetRef; qp_profile_name : bytes; qp_profile_version : bytes;
  qp_dimension_weights : Json }.
Inductive IssueInputState := InputOpen | InputAccepted | InputSuppressed | InputPlanned.
Record IssueInput := {
  ii_ordinal : Z; ii_target : TargetRef; ii_kind : bytes; ii_severity : IssueSeverity;
  ii_priority : IssuePriority; ii_state : IssueInputState; ii_reason : bytes; ii_provenance : Json;
  ii_existing_issue_id : option Z }.
Record PolicyInputSetDraft := {
  is_slug : bytes;
  is_display_name : bytes;
  is_schema_version : Z;
  source_kind : PolicyInputSourceKind;
  is_created_at : Z;
  is_description : option bytes;
  fixture_labels : list bytes;
  synthetic_targets : list PolicySyntheticTarget;
  media_snapshots : list MediaSnapshotInput;
  identity_evidence : list IdentityEvidenceInput;
  bundle_targets : list BundleTargetInput;
  quality_profiles : list QualityProfileSelection;
  input_issues : list IssueInput;
}.

Inductive InputError :=
  | EmptySlug | InvalidSlug (slug : bytes) | InvalidSchemaVersion | EmptyFixtureLabels
  | InvalidFixtureLabel (label : bytes) | DuplicateFixtureLabel (label : bytes)
  | MissingSnapshotOrBundleTarget | InvalidEmptyScanInput
  | InvalidSyntheticKey (key : bytes) | DuplicateSyntheticTarget (key : bytes)
  | DuplicateChildOrdinal (collection : string) (ordinal : Z)
  | UndeclaredSyntheticTarget (key : bytes) (kind : TargetKind)
  | SyntheticKeyKindMismatch (key : bytes) (expected actual : TargetKind)
  | InvalidEvidenceConfidence (ordinal : Z) | EmptyProviderName (ordinal : Z)
  | EmptyQualityProfileName (ordinal : Z)
  | AggregateMemberLimitExceeded (actual limit : Z)
  | AggregateSerializedSizeLimitExceeded (actual limit : Z)
  | AggregateSizeUnavailable.
Definition IR := result InputError.

(** [serde_json::to_vec(input)], as the length of what it writes. *)
Class SerializedSize := serialized_size : PolicyInputSetDraft -> option Z.

Definition is_stable_token (v : bytes) : bool :=
  non_empty v
  && forallb (fun b => is_ascii_lowercase b || is_ascii_digit b || eqc "-" b || eqc "_" b) v.

Fixpoint labels_from (labels : list bytes) (seen : gset bytes) : IR unit :=
  match labels with
  | [] => Ok tt
  | label :: labels' =>
      if negb (is_stable_token label) then Err (InvalidFixtureLabel label)
      else if bool_decide (label ∈ seen) then Err (DuplicateFixtureLabel label)
      else labels_from labels' ({[label]} ∪ seen)
  end.
Definition validate_fixture_labels (labels : list bytes) : IR unit :=
  if is_empty labels || existsb (fun l => negb (non_empty (trim l))) labels
  then Err EmptyFixtureLabels
  else labels_from labels ∅.

Definition validate_input_header (input : PolicyInputSetDraft) : IR unit :=
  if negb (non_empty (trim (is_slug input))) then Err EmptySlug
  else if negb (is_stable_token (is_slug input)) then Err (InvalidSlug (is_slug input))
  else if is_schema_version input =? 0 then Err InvalidSchemaVersion
  else validate_fixture_labels (fixture_labels input).

Fixpoint declarations_from (ds : list PolicySyntheticTarget) (targets : gmap bytes TargetKind) :
    IR (gmap bytes TargetKind) :=
  match ds with
  | [] => Ok targets
  | d :: ds' =>
      if negb (is_stable_token (st_key d)) then Err (InvalidSyntheticKey (st_key d))
      else match targets !! st_key d with
           | Some existing =>
               if bool_decide (existing = st_kind d) then Err (DuplicateSyntheticTarget (st_key d))
               else Err (SyntheticKeyKindMismatch (st_key d) existing (st_kind d))
           | None => declarations_from ds' (<[st_key d := st_kind d]> targets)
           end
  end.
Definition validate_synthetic_declarations (ds : list PolicySyntheticTarget) :
    IR (gmap bytes TargetKind) := declarations_from ds ∅.

Fixpoint ordinals_from (collection : string) (ordinals : list Z) (seen : gset Z) : IR unit :=
  match ordinals with
  | [] => Ok tt
  | o :: ordinals' =>
      if bool_decide (o ∈ seen) then Err (DuplicateChildOrdinal collection o)
      else ordinals_from collection ordinals' ({[o]} ∪ seen)
  end.
Definition validate_ordinals (collection : string) (ordinals : list Z) : IR unit :=
  ordinals_from collection ordinals ∅.
Definition validate_child_ordinals (input : PolicyInputSetDraft) : IR unit :=
  _ ← validate_ordinals "media_snapshots" (map si_ordinal (media_snapshots input));
  _ ← validate_ordinals "identity_evidence" (map ie_ordinal (identity_evidence input));
  _ ← validate_ordinals "bundle_targets" (map bt_ordinal (bundle_targets input));
  _ ← validate_ordinals "quality_profiles" (map qp_ordinal (quality_profiles input));
  validate_ordinals "issues" (map ii_ordinal (input_issues input)).

Definition validate_target_ref (targets : gmap bytes TargetKind) (t : TargetRef) : IR unit :=
  match t with
  | TSynthetic key kind =>
      match targets !! key with
      | Some declared =>
          if bool_decide (declared = kind) then Ok tt
          else Err (SyntheticKeyKindMismatch key declared kind)
      | None => Err (UndeclaredSyntheticTarget key kind)
      end
  | _ => Ok tt
  end.
Definition child_targets (input : PolicyInputSetDraft) : list TargetRef :=
  map si_target (media_snapshots input) ++ map ie_target (identity_evidence input)
  ++ map bt_target (bundle_targets input) ++ map qp_target (quality_profiles input)
  ++ map ii_target (input_issues input).
Fixpoint each {A} (check : A -> IR unit) (l : list A) : IR unit :=
  match l with
  | [] => Ok tt
  | x :: l' => _ ← check x; each check l'
  end.
Definition validate_child_targets (input : PolicyInputSetDraft) (targets : gmap bytes TargetKind) :
    IR unit := each (validate_target_ref targets) (child_targets input).

Definition f64_one : spec_float := S754_finite false 4503599627370496 (-52).
Definition validate_evidence (e : IdentityEvidenceInput) : IR unit :=
  if negb (non_empty (trim (ie_provider e))) then Err (EmptyProviderName (ie_ordinal e))
  else if negb (SFleb (S754_zero false) (ie_confidence e) && SFleb (ie_confidence e) f64_one)
  then Err (InvalidEvidenceConfidence (ie_ordinal e))
  else Ok tt.
Definition validate_quality_profile (q : QualityProfileSelection) : IR unit :=
  if negb (non_empty (trim (qp_profile_name q))) then Err (EmptyQualityProfileName (qp_ordinal q))
  else Ok tt.

(** The sum of the lengths saturates at [usize::MAX]; no list is that long. *)
Definition member_count (input : PolicyInputSetDraft) : Z :=
  Z.of_nat (length (fixture_labels input)) + Z.of_nat (length (synthetic_targets input))
  + Z.of_nat (length (media_snapshots input)) + Z.of_nat (length (identity_evidence input))
  + Z.of_nat (length (bundle_targets input)) + Z.of_nat (length (quality_profiles input))
  + Z.of_nat (length (input_issues input)).

Section input_sets.
Context {size : SerializedSize}.

Definition validate_aggregate_budget (input : PolicyInputSetDraft) : IR unit :=
  if POLICY_INPUT_MAX_MEMBERS <? member_count input
  then Err (AggregateMemberLimitExceeded (member_count input) POLICY_INPUT_MAX_MEMBERS)
  else
    n ← ok_or (serialized_size input) AggregateSizeUnavailable;
    if POLICY_INPUT_MAX_SERIALIZED_BYTES <? n
    then Err (AggregateSerializedSizeLimitExceeded n POLICY_INPUT_MAX_SERIALIZED_BYTES)
    else Ok tt.

Definition validate_input_set (input : PolicyInputSetDraft) : IR unit :=
  _ ← validate_input_header input;
  if is_empty (media_snapshots input) && is_empty (bundle_targets input)
  then Err MissingSnapshotOrBundleTarget
  else
    targets ← validate_synthetic_declarations (synthetic_targets input);
    _ ← validate_child_ordinals input;
    _ ← validate_child_targets input targets;
    _ ← each validate_evidence (identity_evidence input);
    _ ← each validate_quality_profile (quality_profiles input);
    validate_aggregate_budget input.

Definition validate_empty_scan_input (input : PolicyInputSetDraft) : IR unit :=
  _ ← validate_input_header input;
  if negb (bool_decide (source_kind input = SourceImported))
     || negb (is_empty (synthetic_targets input)) || negb (is_empty (media_snapshots input))
     || negb (is_empty (identity_evidence input)) || negb (is_empty (bundle_targets input))
     || negb (is_empty (quality_profiles input)) || negb (is_empty (input_issues input))
  then Err InvalidEmptyScanInput
  else validate_aggregate_budget input.
End input_sets.

(** ** The stored form of compiled operations *)

Definition text_array (ts : list bytes) : Json := JArr (map json_string ts).
Definition target_value (t : TrackTarget) : Json := JStr (track_target_name t).
Definition optional_value {A} (value : A -> Json) (o : option A) : Json :=
  match o with Some x => value x | None => JNull end.

Fixpoint CompiledValue_to_value (v : CompiledValue) : Json :=
  match v with
  | VString t => JObj [("type", JStr "string"); ("value", json_string t)]
  | VNumber t => JObj [("type", JStr "number"); ("value", json_string t)]
  | VBoolean b => JObj [("type", JStr "boolean"); ("value", JBool b)]
  | VFieldPath path => JObj [("type", JStr "field_path"); ("path", text_array path)]
  | VList vs => JObj [("type", JStr "list"); ("values", JArr (map CompiledValue_to_value vs))]
  end.
Fixpoint CompiledCondition_to_value (c : CompiledCondition) : Json :=
  match c with
  | CExists t f =>
      JObj [("type", JStr "exists"); ("target", target_value t);
            ("filter", optional_value TrackFilter_to_value f)]
  | CCount t op v =>
      JObj [("type", JStr "count"); ("target", target_value t); ("op", JStr (ComparisonOp_name op));
            ("value", JInt v)]
  | CFieldComparison path op v =>
      JObj [("type", JStr "field_comparison"); ("path", text_array path);
            ("op", JStr (ComparisonOp_name op)); ("value", CompiledValue_to_value v)]
  | CFieldExists path => JObj [("type", JStr "field_exists"); ("path", text_array path)]
  | CPredicate name => JObj [("type", JStr "predicate"); ("name", json_string name)]
  | CNot inner => JObj [("type", JStr "not"); ("inner", CompiledCondition_to_value inner)]
  | CAnd cs => JObj [("type", JStr "and"); ("conditions", JArr (map CompiledCondition_to_value cs))]
  | COr cs => JObj [("type", JStr "or"); ("conditions", JArr (map CompiledCondition_to_value cs))]
  end.

Definition VideoProfileSettings_to_value (p : VideoProfileSettings) : Json :=
  JObj ([("encoder", json_string (vp_encoder p))]
        ++ optional_member "crf" JInt (vp_crf p) ++ optional_member "cq" JInt (vp_cq p)
        ++ optional_member "qp" JInt (vp_qp p) ++ optional_member "bitrate_kbps" JInt (vp_bitrate_kbps p)
        ++ optional_member "preset" json_string (vp_preset p)
        ++ optional_member "tune" json_string (vp_tune p)
        ++ optional_member "codec_profile" json_string (vp_codec_profile p)
        ++ optional_member "codec_level" json_string (vp_codec_level p)
        ++ optional_member "pixel_format" json_string (vp_pixel_format p)
        ++ optional_member "max_width" JInt (vp_max_width p)
        ++ optional_member "max_height" JInt (vp_max_height p)
        ++ optional_member "output_container" json_string (vp_output_container p)
        ++ optional_member "copy_compatible" JBool (vp_copy_compatible p)
        ++ if bool_decide (vp_decode p = Software) then [] else [("decode", decode_value (vp_decode p))]).
Definition VideoProfileRef_to_value (r : VideoProfileRef) : Json :=
  match r with
  | Named name => JObj [("named", json_string name)]
  | Inline settings => JObj [("inline", VideoProfileSettings_to_value settings)]
  end.

Definition RuleMatchMode_name (m : RuleMatchMode) : string :=
  match m with MFirst => "first" | MAll => "all" end.
Fixpoint CompiledOperation_to_value (o : CompiledOperation) : Json :=
  let filter_value := optional_value TrackFilter_to_value in
  match o with
  | SetContainer c => JObj [("type", JStr "set_container"); ("container", json_string c)]
  | KeepTracks t f =>
      JObj [("type", JStr "keep_tracks"); ("target", target_value t); ("filter", filter_value f)]
  | RemoveTracks t f =>
      JObj [("type", JStr "remove_tracks"); ("target", target_value t); ("filter", filter_value f)]
  | ReorderTracks ts head =>
      JObj ([("type", JStr "reorder_tracks"); ("targets", JArr (map target_value ts))]
            ++ optional_member "head_filter" TrackFilter_to_value head)
  | SetDefaults t s f =>
      JObj ([("type", JStr "set_defaults"); ("target", target_value t);
             ("strategy", JStr (default_strategy_name s))]
            ++ optional_member "filter" TrackFilter_to_value f)
  | ClearTrackActions t => JObj [("type", JStr "clear_track_actions"); ("target", target_value t)]
  | ClearTags => JObj [("type", JStr "clear_tags")]
  | SetTag key v =>
      JObj [("type", JStr "set_tag"); ("key", json_string key); ("value", CompiledValue_to_value v)]
  | DeleteTag key => JObj [("type", JStr "delete_tag"); ("key", json_string key)]
  | TranscodeVideo codec container profile resolved =>
      JObj ([("type", JStr "transcode_video"); ("target_codec", json_string codec);
             ("container", json_string container); ("profile", VideoProfileRef_to_value profile)]
            ++ optional_member "resolved_profile" TranscodeVideoProfile_to_value resolved)
  | TranscodeAudio codec container f =>
      JObj [("type", JStr "transcode_audio"); ("target_codec", json_string codec);
            ("container", json_string container); ("filter", filter_value f)]
  | ExtractAudio codec container f =>
      JObj [("type", JStr "extract_audio"); ("target_codec", json_string codec);
            ("container", json_string container); ("filter", filter_value f)]
  | SynthesizeAudio codec container channels f =>
      JObj [("type", JStr "synthesize_audio"); ("target_codec", json_string codec);
            ("container", json_string container); ("target_channels", JInt channels);
            ("filter", filter_value f)]
  | EnsureAudioCompatibility => JObj [("type", JStr "ensure_audio_compatibility")]
  | PlaceAudioCompatibility => JObj [("type", JStr "place_audio_compatibility")]
  | VerifyArtifact => JObj [("type", JStr "verify_artifact")]
  | Conditional c ops =>
      JObj [("type", JStr "conditional"); ("condition", CompiledCondition_to_value c);
            ("operations", JArr (map CompiledOperation_to_value ops))]
  | Rules mode rules =>
      JObj [("type", JStr "rules"); ("mode", JStr (RuleMatchMode_name mode));
            ("rules", JArr (map (fun '(name, c, ops) =>
               JObj [("name", json_string name);
                     ("condition", optional_value CompiledCondition_to_value c);
                     ("operations", JArr (map CompiledOperation_to_value ops))]) rules))]
  end.
(** Every operation has a stored form, so the code's fallback is never taken. *)
Definition operation_payload (o : CompiledOperation) : Json := CompiledOperation_to_value o.

(** ** Operations of a snapshot *)

Definition operation_kind (o : CompiledOperation) : PlanOperationKind :=
  match o with
  | EnsureAudioCompatibility => KTranscodeAudio
  | PlaceAudioCompatibility => KRemux
  | SetContainer _ => KSetContainer
  | KeepTracks _ _ => KKeepTracks
  | RemoveTracks _ _ => KRemoveTracks
  | ReorderTracks _ _ => KReorderTracks
  | SetDefaults _ _ _ => KSetDefaults
  | ClearTrackActions _ => KClearTrackActions
  | ClearTags => KClearTags
  | SetTag _ _ => KSetTag
  | DeleteTag _ => KDeleteTag
  | TranscodeVideo _ _ _ _ => KTranscodeVideo
  | TranscodeAudio _ _ _ | SynthesizeAudio _ _ _ _ => KTranscodeAudio
  | ExtractAudio _ _ _ => KExtractAudio
  | VerifyArtifact => KVerifyArtifact
  | Conditional _ _ => KConditional
  | Rules _ _ => KRules
  end.

Inductive SnapshotOperation :=
  | SnapOperation (o : CompiledOperation) | SnapInsufficient (o : CompiledOperation).

(** [append_snapshot_operations] and [append_rule_operations] on one operation. *)
Fixpoint snapshot_operation (s : MediaSnapshotInput) (o : CompiledOperation) : list SnapshotOperation :=
  match o with
  | Conditional c ops =>
      match evaluate_condition c s with
      | Matched => flat_map (snapshot_operation s) ops
      | NotMatched => []
      | Unknown => map SnapInsufficient ops
      end
  | Rules MFirst rules =>
      (fix first (rules : list (bytes * option CompiledCondition * list CompiledOperation)) :=
         match rules with
         | [] => []
         | (_, c, ops) :: rules' =>
             match rule_condition_matches c s with
             | Matched => flat_map (snapshot_operation s) ops
             | NotMatched => first rules'
             | Unknown => map SnapInsufficient ops
             end
         end) rules
  | Rules MAll rules =>
      flat_map (fun '(_, c, ops) =>
        match rule_condition_matches c s with
        | Matched => flat_map (snapshot_operation s) ops
        | NotMatched => []
        | Unknown => map SnapInsufficient ops
        end) rules
  | o => [SnapOperation o]
  end.
Definition snapshot_operations (s : MediaSnapshotInput) (ops : list CompiledOperation) :
    list SnapshotOperation := flat_map (snapshot_operation s) ops.

(** ** Items of a phase *)

Inductive PhaseItem :=
  | ItemOperation (source_index : Z) (o : CompiledOperation)
  | ItemInsufficient (source_index : Z) (o : CompiledOperation)
  | ItemUnsupportedRemux (source_index : Z) (o : CompiledOperation)
  | ItemRemuxGroup (source_index : Z) (ops : list CompiledOperation).
Definition source_index (i : PhaseItem) : Z :=
  match i with
  | ItemOperation n _ | ItemInsufficient n _ | ItemUnsupportedRemux n _ | ItemRemuxGroup n _ => n
  end.

Record Grouping := {
  gr_remux_operations : list CompiledOperation;
  gr_remux_index : option Z;
  gr_items : list PhaseItem;
}.
Definition empty_grouping : Grouping :=
  {| gr_remux_operations := []; gr_remux_index := None; gr_items := [] |}.
Definition with_item (g : Grouping) (i : PhaseItem) : Grouping := {|
  gr_remux_operations := gr_remux_operations g; gr_remux_index := gr_remux_index g;
  gr_items := gr_items g ++ [i] |}.
Definition with_remux (g : Grouping) (n : Z) (o : CompiledOperation) : Grouping := {|
  gr_remux_operations := gr_remux_operations g ++ [o];
  gr_remux_index := match gr_remux_index g with Some i => Some i | None => Some n end;
  gr_items := gr_items g |}.
Definition group_operation (g : Grouping) (n : Z) (o : SnapshotOperation) : Grouping :=
  match o with
  | SnapOperation o =>
      match remux_candidate_kind o with
      | Some _ =>
          match remux_candidate_support o with
          | Supported => with_remux g n o
          | Unsupported => with_item g (ItemUnsupportedRemux n o)
          end
      | None => with_item g (ItemOperation n o)
      end
  | SnapInsufficient o => with_item g (ItemInsufficient n o)
  end.
Fixpoint group_operations (g : Grouping) (n : Z) (ops : list SnapshotOperation) : Grouping :=
  match ops with
  | [] => g
  | o :: ops' => group_operations (group_operation g n o) (n + 1) ops'
  end.
Definition phase_items (ops : list SnapshotOperation) : list PhaseItem :=
  let g := group_operations empty_grouping 0 ops in
  sort_by_key source_index
    (gr_items g
     ++ match gr_remux_index g with
        | Some n => [ItemRemuxGroup n (gr_remux_operations g)]
        | None => []
        end).

(** ** Plans *)

Record PlanningContext := {
  px_schema_version : Z;
  px_policy_document_id : option Z;
  px_policy_version_id : option Z;
  px_policy_input_set_id : option Z;
  px_input_source_label : option bytes;
  px_generated_at : option Z;
}.
Definition PlanningContext_default : PlanningContext := {|
  px_schema_version := 1; px_policy_document_id := None; px_policy_version_id := None;
  px_policy_input_set_id := None; px_input_source_label := None; px_generated_at := None |}.
Record PlanningRequest := {
  pr_policy : CompiledPolicy; pr_input : PolicyInputSetDraft; pr_context : PlanningContext }.

(** The scheduling hints are constants but for the concurrency key; the expected
    artifacts and the safety hints are constants. *)
Record PlanNode := {
  pn_node_id : bytes;
  pn_phase_name : bytes;
  pn_ordinal : Z;
  pn_target : TargetRef;
  pn_operation_kind : PlanOperationKind;
  pn_operation_payload : Json;
  pn_observed_state : option Json;
  pn_status : NodeStatus;
  pn_operation_capability : option string;
  pn_concurrency_key : option bytes;
  pn_resource_notes : list bytes;
}.

Definition plan_operation_kinds : list PlanOperationKind :=
  [KRemux; KSetContainer; KKeepTracks; KRemoveTracks; KReorderTracks; KSetDefaults;
   KClearTrackActions; KClearTags; KSetTag; KDeleteTag; KTranscodeVideo; KTranscodeAudio;
   KExtractAudio; KVerifyArtifact; KConditional; KRules].
Definition PlanOperationKind_of_str (s : string) : option PlanOperationKind :=
  List.find (fun k => String.eqb (PlanOperationKind_as_str k) s) plan_operation_kinds.
#[global] Program Instance PlanOperationKind_countable : Countable PlanOperationKind :=
  inj_countable PlanOperationKind_as_str PlanOperationKind_of_str _.
Next Obligation. by intros []. Qed.

Record PlanSummary := {
  total_node_count : Z;
  executable_node_count : Z;
  no_op_node_count : Z;
  blocked_node_count : Z;
  target_count : Z;
  operation_counts_by_kind : gmap PlanOperationKind Z;
}.

Inductive DependencyKind := PhaseDependsOn.
Record Edge := {
  ed_edge_id : bytes;
  from_node_id : bytes;
  to_node_id : bytes;
  dependency_kind : DependencyKind;
}.

Record PolicyRef := {
  pi_slug : bytes; pi_source_hash : bytes; pi_document_id : option Z; pi_version_id : option Z }.
Record InputRef := {
  in_slug : option bytes; in_source_label : option bytes; in_input_set_id : option Z;
  in_fixture_labels : list bytes }.
Record ExecutionPlan := {
  ep_schema_version : Z;
  ep_policy : PolicyRef;
  ep_input : InputRef;
  ep_generated_at : option Z;
  ep_summary : PlanSummary;
  ep_nodes : list PlanNode;
  ep_edges : list Edge;
  ep_diagnostics : list PlanningDiagnostic;
}.

Definition checked_ordinal (v : nat) : Z :=
  if is_u32 (Z.of_nat v) then Z.of_nat v else u32_max.

(** ** The builder *)

(** [fatal] holds the diagnostics of the error the plan ends in. *)
Record PlanBuilder := {
  pb_nodes : list PlanNode;
  pb_diagnostics : list PlanningDiagnostic;
  pb_fatal : option (list PlanningDiagnostic);
}.
Definition PlanBuilder_new : PlanBuilder :=
  {| pb_nodes := []; pb_diagnostics := []; pb_fatal := None |}.
Definition push_diagnostic (b : PlanBuilder) (d : PlanningDiagnostic) : PlanBuilder := {|
  pb_nodes := pb_nodes b; pb_diagnostics := pb_diagnostics b ++ [d]; pb_fatal := pb_fatal b |}.
Definition record_fatal_diagnostic (b : PlanBuilder) (d : PlanningDiagnostic) : PlanBuilder := {|
  pb_nodes := pb_nodes b; pb_diagnostics := pb_diagnostics b;
  pb_fatal := Some (match pb_fatal b with Some ds => ds ++ [d] | None => [d] end) |}.

Section planner.
Context {hash : Blake3Hex} {unicode : UnicodeLowercase}.

Definition make_node (phase_name : bytes) (ordinal : Z) (s : MediaSnapshotInput) (k : PlanOperationKind)
    (payload : Json) (observed : option Json) (status : NodeStatus) (capability : option string) :
    PlanNode := {|
  pn_node_id := node_id phase_name ordinal (PlanOperationKind_as_str k) (target_key (si_target s));
  pn_phase_name := phase_name; pn_ordinal := ordinal; pn_target := si_target s;
  pn_operation_kind := k; pn_operation_payload := payload; pn_observed_state := observed;
  pn_status := status; pn_operation_capability := capability;
  pn_concurrency_key := Some (target_key (si_target s)); pn_resource_notes := [] |}.
Definition with_notes (n : PlanNode) (notes : list bytes) : PlanNode := {|
  pn_node_id := pn_node_id n; pn_phase_name := pn_phase_name n; pn_ordinal := pn_ordinal n;
  pn_target := pn_target n; pn_operation_kind := pn_operation_kind n;
  pn_operation_payload := pn_operation_payload n; pn_observed_state := pn_observed_state n;
  pn_status := pn_status n; pn_operation_capability := pn_operation_capability n;
  pn_concurrency_key := pn_concurrency_key n; pn_resource_notes := notes |}.

Definition next_operation_id (node_count : nat) (phase_name : bytes) (s : MediaSnapshotInput)
    (k : PlanOperationKind) : bytes :=
  node_id phase_name (checked_ordinal node_count) (PlanOperationKind_as_str k) (target_key (si_target s)).

Definition push_operation_plan (phase_name : bytes) (s : MediaSnapshotInput) (p : OperationPlan)
    (b : PlanBuilder) : PlanBuilder := {|
  pb_nodes :=
    pb_nodes b
    ++ [with_notes
          (make_node phase_name (checked_ordinal (length (pb_nodes b))) s (op_kind p) (op_payload p)
             (op_observed_state p) (op_status p) (op_capability p))
          (op_notes p)];
  pb_diagnostics := pb_diagnostics b ++ op_diagnostics p;
  pb_fatal := pb_fatal b |}.

(** [expand_blocked_insufficient_facts_for_snapshot] and
    [expand_blocked_unsupported_for_snapshot]. *)
Definition expand_blocked (code : PlanningDiagnosticCode) (phase_name : bytes) (s : MediaSnapshotInput)
    (k : PlanOperationKind) (payload : Json) (b : PlanBuilder) : PlanBuilder := {|
  pb_nodes :=
    pb_nodes b
    ++ [make_node phase_name (checked_ordinal (length (pb_nodes b))) s k payload None Blocked None];
  pb_diagnostics := pb_diagnostics b ++ [operation_diagnostic code phase_name s k];
  pb_fatal := pb_fatal b |}.
Definition expand_blocked_insufficient_facts_for_snapshot (phase_name : bytes) (s : MediaSnapshotInput)
    (o : CompiledOperation) : PlanBuilder -> PlanBuilder :=
  expand_blocked InsufficientSnapshotFactsCode phase_name s (operation_kind o) (operation_payload o).

Definition plan_verify_artifact (s : MediaSnapshotInput) : OperationPlan :=
  OperationPlan_new KVerifyArtifact
    (JObj (("type", JStr (PlanOperationKind_as_str KVerifyArtifact))
           :: optional_member "source_media_snapshot_id" JInt (existing_media_snapshot_id s)))
    None Planned (Some (PlanOperationKind_as_str KVerifyArtifact)).

Definition expand_operation_for_snapshot (phase_name : bytes) (s : MediaSnapshotInput)
    (o : CompiledOperation) (b : PlanBuilder) : PlanBuilder :=
  let push := push_operation_plan phase_name s in
  let operation_id := next_operation_id (length (pb_nodes b)) phase_name s in
  match o with
  | SetContainer container => push (plan_set_container phase_name s container) b
  | TranscodeVideo _ container _ resolved_profile =>
      match resolved_profile with
      | None => record_fatal_diagnostic b (missing_resolution_diagnostic phase_name s)
      | Some resolved => push (plan_transcode_video phase_name s resolved container) b
      end
  | EnsureAudioCompatibility =>
      push (plan_ensure_compatibility phase_name s (operation_id KTranscodeAudio)) b
  | PlaceAudioCompatibility => push (plan_place_compatibility phase_name s) b
  | TranscodeAudio codec container filter => push (plan_transcode phase_name s codec container filter) b
  | ExtractAudio codec container filter =>
      push (plan_extract phase_name s codec container filter (operation_id KExtractAudio)) b
  | SynthesizeAudio codec container channels filter =>
      push (plan_synthesize phase_name s codec container channels filter (operation_id KTranscodeAudio)) b
  | VerifyArtifact => push (plan_verify_artifact s) b
  | unsupported =>
      expand_blocked UnsupportedOperation phase_name s (operation_kind unsupported)
        (operation_payload unsupported) b
  end.

Definition expand_item (phase_name : bytes) (s : MediaSnapshotInput) (languages : list bytes)
    (b : PlanBuilder) (i : PhaseItem) : PlanBuilder :=
  match i with
  | ItemOperation _ o => expand_operation_for_snapshot phase_name s o b
  | ItemInsufficient _ o => expand_blocked_insufficient_facts_for_snapshot phase_name s o b
  | ItemUnsupportedRemux _ o =>
      push_operation_plan phase_name s
        (plan_blocked_candidate phase_name s (operation_kind o) (operation_payload o)) b
  | ItemRemuxGroup _ ops => push_operation_plan phase_name s (plan_group phase_name s ops languages) b
  end.
Definition expand_operations_for_snapshot (languages : list bytes) (phase_name : bytes)
    (s : MediaSnapshotInput) (ops : list CompiledOperation) (b : PlanBuilder) : PlanBuilder :=
  fold_left (expand_item phase_name s languages) (phase_items (snapshot_operations s ops)) b.
Definition expand_blocked_insufficient_facts_for_operations (phase_name : bytes) (s : MediaSnapshotInput)
    (ops : list CompiledOperation) (b : PlanBuilder) : PlanBuilder :=
  fold_left (fun b o => expand_blocked_insufficient_facts_for_snapshot phase_name s o b) ops b.

(** One snapshot of a phase. *)
Definition expand_snapshot (languages : list bytes) (phase_name : bytes) (has_unresolved_run_if : bool)
    (skip_if : option CompiledCondition) (ops : list CompiledOperation) (b : PlanBuilder)
    (s : MediaSnapshotInput) : PlanBuilder :=
  let plan := expand_operations_for_snapshot languages phase_name s ops b in
  let block := expand_blocked_insufficient_facts_for_operations phase_name s ops b in
  if has_unresolved_run_if then block
  else match skip_if with
       | None => plan
       | Some c =>
           match evaluate_condition c s with
           | NotMatched => plan
           | Matched => b
           | Unknown => block
           end
       end.
Definition expand_phase (languages : list bytes) (snapshots : list MediaSnapshotInput) (phase_name : bytes)
    (has_unresolved_run_if : bool) (skip_if : option CompiledCondition) (ops : list CompiledOperation)
    (b : PlanBuilder) : PlanBuilder :=
  fold_left (expand_snapshot languages phase_name has_unresolved_run_if skip_if ops) snapshots b.

Definition find_phase (p : CompiledPolicy) (name : bytes) : option CompiledPhase :=
  List.find (fun ph => eqb_text (cp_name ph) name) (cp_phases p).
Definition expand_declared_phase (p : CompiledPolicy) (snapshots : list MediaSnapshotInput)
    (b : PlanBuilder) (phase_name : bytes) : PlanBuilder :=
  match find_phase p phase_name with
  | None => push_diagnostic b (with_phase phase_name (diagnostic_error InvalidPlanningRequest))
  | Some ph =>
      expand_phase (languages (cp_config p)) snapshots (cp_name ph) (is_some (run_if ph)) (skip_if ph)
        (cp_operations ph) b
  end.
Definition expand (p : CompiledPolicy) (snapshots : list MediaSnapshotInput) (b : PlanBuilder) :
    PlanBuilder :=
  if is_empty (cp_phase_order p) then push_diagnostic b (diagnostic_warning EmptyPolicyPhases)
  else fold_left (expand_declared_phase p snapshots) (cp_phase_order p) b.

(** ** Summary and edges *)

Definition count_node (n : PlanNode) (m : PlanSummary) : PlanSummary := {|
  total_node_count := total_node_count m;
  executable_node_count := executable_node_count m + (if bool_decide (pn_status n = Planned) then 1 else 0);
  no_op_node_count := no_op_node_count m + (if bool_decide (pn_status n = NoOp) then 1 else 0);
  blocked_node_count := blocked_node_count m + (if bool_decide (pn_status n = Blocked) then 1 else 0);
  target_count := target_count m;
  operation_counts_by_kind :=
    <[pn_operation_kind n := default 0 (operation_counts_by_kind m !! pn_operation_kind n) + 1]>
      (operation_counts_by_kind m) |}.
Definition target_keys (nodes : list PlanNode) : gset bytes :=
  list_to_set (map (fun n => target_key (pn_target n)) nodes).
Definition summarize_nodes (nodes : list PlanNode) : PlanSummary :=
  fold_left (fun m n => count_node n m) nodes
    {| total_node_count := checked_ordinal (length nodes); executable_node_count := 0;
       no_op_node_count := 0; blocked_node_count := 0;
       target_count := checked_ordinal (size (target_keys nodes)); operation_counts_by_kind := ∅ |}.

Definition DependencyKind_as_str (k : DependencyKind) : string :=
  match k with PhaseDependsOn => "phase_depends_on" end.
Definition make_edge (from to : PlanNode) : Edge := {|
  ed_edge_id := edge_id (pn_node_id from) (pn_node_id to) (DependencyKind_as_str PhaseDependsOn);
  from_node_id := pn_node_id from; to_node_id := pn_node_id to; dependency_kind := PhaseDependsOn |}.
(** A later phase of the same name replaces an earlier one. *)
Definition phases_by_name (p : CompiledPolicy) : gmap bytes CompiledPhase :=
  fold_left (fun m ph => <[cp_name ph := ph]> m) (cp_phases p) ∅.
Definition nodes_of_phase (nodes : list PlanNode) (name : bytes) : list PlanNode :=
  List.filter (fun n => eqb_text (pn_phase_name n) name) nodes.
Definition phase_edges (p : CompiledPolicy) (nodes : list PlanNode) (name : bytes) : list Edge :=
  match phases_by_name p !! name with
  | None => []
  | Some ph =>
      flat_map (fun dependency =>
        flat_map (fun from => map (make_edge from) (nodes_of_phase nodes (cp_name ph)))
          (nodes_of_phase nodes dependency)) (depends_on ph)
  end.
Definition build_phase_edges (p : CompiledPolicy) (nodes : list PlanNode) : list Edge :=
  flat_map (phase_edges p nodes) (cp_phase_order p).

(** ** Requests *)

Definition PlanResult := result (list PlanningDiagnostic) ExecutionPlan.

Definition finish (r : PlanningRequest) (b : PlanBuilder) : PlanResult :=
  match pb_fatal b with
  | Some ds => Err ds
  | None => Ok {|
      ep_schema_version := px_schema_version (pr_context r);
      ep_policy := {|
        pi_slug := policy_slug (pr_policy r); pi_source_hash := source_hash (pr_policy r);
        pi_document_id := px_policy_document_id (pr_context r);
        pi_version_id := px_policy_version_id (pr_context r) |};
      ep_input := {|
        in_slug := Some (is_slug (pr_input r));
        in_source_label := px_input_source_label (pr_context r);
        in_input_set_id := px_policy_input_set_id (pr_context r);
        in_fixture_labels := fixture_labels (pr_input r) |};
      ep_generated_at := px_generated_at (pr_context r);
      ep_summary := summarize_nodes (pb_nodes b);
      ep_nodes := pb_nodes b;
      ep_edges := build_phase_edges (pr_policy r) (pb_nodes b);
      ep_diagnostics := pb_diagnostics b |}
  end.

Context {size : SerializedSize}.

Definition validate_input (input : PolicyInputSetDraft) : result (list PlanningDiagnostic) unit :=
  if is_empty (media_snapshots input) && negb (is_ok (validate_empty_scan_input input))
  then Err [diagnostic_error EmptyInputSet]
  else Ok tt.
Definition validate_policy_eligibility (p : CompiledPolicy) : result (list PlanningDiagnostic) unit :=
  match stream_condition_eligibility_diagnostics p with [] => Ok tt | ds => Err ds end.
Definition invalid_phase_request (phase_name : bytes) : list PlanningDiagnostic :=
  [with_phase phase_name (diagnostic_error InvalidPlanningRequest)].

Definition generate_plan (r : PlanningRequest) : PlanResult :=
  _ ← validate_policy_eligibility (pr_policy r);
  _ ← validate_input (pr_input r);
  finish r (expand (pr_policy r) (media_snapshots (pr_input r)) PlanBuilder_new).
Definition plan_phase (r : PlanningRequest) (phase_name : bytes) : PlanResult :=
  _ ← validate_policy_eligibility (pr_policy r);
  _ ← validate_input (pr_input r);
  if negb (existsb (fun n => eqb_text n phase_name) (cp_phase_order (pr_policy r)))
  then Err (invalid_phase_request phase_name)
  else if negb (is_some (find_phase (pr_policy r) phase_name))
  then Err (invalid_phase_request phase_name)
  else finish r (expand_declared_phase (pr_policy r) (media_snapshots (pr_input r)) PlanBuilder_new
                   phase_name).
End planner.
