(* ===== verification/PlannerLaws.v ===== *)
(** * What a plan accounts for

    The invariant of the planner's builder: every blocked node has its error
    diagnostic and every error its blocked node, nodes are numbered by their
    position, they belong to a phase and a target of the request, and what is
    planned can be executed. *)

From Stdlib Require Import ZArith Lia Bool String Ascii.
From stdpp Require Import base gmap strings list.
From S2P Require Import Prelude Json Vocab Bytes PolicySyntax Encoders TrackFilters PolicyCompiled.
From S2P Require Import PlanModel FilterJson PlanStreams PlanPayload PlanRemux PlanConditions.
From S2P Require Import AudioStreams AudioPayload AudioCompat PlanAudio PlanVideo Planner.

Open Scope string_scope.
Open Scope list_scope.
Open Scope Z_scope.

(** ** Subjects *)

(** What a diagnostic or a node is about: a phase, a kind of operation, a target. *)
Definition Subject : Type := option bytes * option string * option TargetRef.
Definition diagnostic_subject (d : PlanningDiagnostic) : Subject :=
  (pd_phase_name d, pd_operation_kind d, pd_target d).
Definition subject (phase_name : bytes) (k : PlanOperationKind) (t : TargetRef) : Subject :=
  (Some phase_name, Some (PlanOperationKind_as_str k), Some t).
Definition node_subject (n : PlanNode) : Subject :=
  subject (pn_phase_name n) (pn_operation_kind n) (pn_target n).

Definition is_error (d : PlanningDiagnostic) : bool :=
  match pd_severity d with PlanError => true | PlanWarning => false end.
Definition is_blocked (n : PlanNode) : bool := bool_decide (pn_status n = Blocked).
Definition errors (ds : list PlanningDiagnostic) : list Subject :=
  map diagnostic_subject (List.filter is_error ds).
Definition blocked (ns : list PlanNode) : list Subject := map node_subject (List.filter is_blocked ns).

(** The kinds that the executor has an operation for. *)
Definition executable_kind (k : PlanOperationKind) : bool :=
  match k with
  | KRemux | KTranscodeVideo | KTranscodeAudio | KExtractAudio | KVerifyArtifact => true
  | _ => false
  end.

(** The plan of one operation accounts for its status. *)
Record op_ok (phase_name : bytes) (s : MediaSnapshotInput) (p : OperationPlan) : Prop := {
  oo_errors : errors (op_diagnostics p)
              = if bool_decide (op_status p = Blocked)
                then [subject phase_name (op_kind p) (si_target s)] else [];
  oo_executable : op_status p = Planned -> executable_kind (op_kind p) = true;
}.

Lemma errors_app ds ds' : errors (ds ++ ds') = errors ds ++ errors ds'.
Proof. unfold errors. by rewrite List.filter_app, map_app. Qed.
Lemma blocked_app ns ns' : blocked (ns ++ ns') = blocked ns ++ blocked ns'.
Proof. unfold blocked. by rewrite List.filter_app, map_app. Qed.

Section plans.
Context {hash : Blake3Hex} {unicode : UnicodeLowercase}.
Context (phase_name : bytes) (s : MediaSnapshotInput).

(** An outcome blocks exactly when it names a code. *)
Definition outcome_ok (o : NodeStatus * option string * option PlanningDiagnosticCode) : Prop :=
  bool_decide (o.1.1 = Blocked) = match o.2 with Some _ => true | None => false end.

Lemma outcome_plan k payload observed notes o :
  outcome_ok o -> executable_kind k = true ->
  op_ok phase_name s
    (with_optional_diagnostic
       (with_resource_estimates (OperationPlan_new k payload observed o.1.1 o.1.2) notes)
       o.2 phase_name s k).
Proof.
  destruct o as [[[] cap] [code|]]; unfold outcome_ok; cbn; intros Ho Hk; try discriminate; by constructor.
Qed.
Lemma new_plan k payload observed o :
  outcome_ok o -> executable_kind k = true ->
  op_ok phase_name s
    (with_optional_diagnostic (OperationPlan_new k payload observed o.1.1 o.1.2) o.2 phase_name s k).
Proof. apply (outcome_plan k payload observed []). Qed.

(** A warning changes nothing about the errors. *)
Lemma warned_plan k code p :
  op_ok phase_name s p ->
  op_ok phase_name s
    (with_diagnostic p
       (with_target (si_target s)
          (with_operation_kind (PlanOperationKind_as_str k) (with_phase phase_name (diagnostic_warning code))))).
Proof.
  intros [He Hx]. constructor; [|done]. unfold with_diagnostic; cbn [op_diagnostics op_status op_kind].
  rewrite errors_app, He. apply app_nil_r.
Qed.

Lemma untagged_plan p ops untagged :
  op_ok phase_name s p -> op_ok phase_name s (with_untagged_language_warning p phase_name s ops untagged).
Proof. intros Hp. unfold with_untagged_language_warning. case_match; [done|]. by apply warned_plan. Qed.
Lemma plan_group_ok ops preferred : op_ok phase_name s (plan_group phase_name s ops preferred).
Proof.
  unfold plan_group. cbv zeta. destruct (shape_outcome _) as [[status cap] code] eqn:Ho.
  apply untagged_plan, (new_plan KRemux _ _ (status, cap, code)); [|done]. rewrite <- Ho.
  by destruct (match resolve_remux_operations s ops preferred with Ok r => _ | Err block => _ end).
Qed.

Lemma audio_warned_plan p filter k :
  op_ok phase_name s p -> op_ok phase_name s (audio_untagged_warning p phase_name s filter k).
Proof.
  intros Hp. unfold audio_untagged_warning. repeat case_match; try done. by apply warned_plan.
Qed.
Lemma audio_node_ok filter k payload o :
  outcome_ok o -> executable_kind k = true -> op_ok phase_name s (audio_node phase_name s filter k payload o).
Proof.
  intros Ho Hk. unfold audio_node. destruct o as [[status cap] code].
  apply audio_warned_plan, (new_plan k _ _ (status, cap, code)); done.
Qed.
Lemma audio_shape_ok shape cap : outcome_ok (audio_shape_outcome shape cap).
Proof. by destruct shape. Qed.

Lemma blocked_plan_ok k e : op_ok phase_name s (blocked_compatibility_plan phase_name s k e).
Proof. by constructor. Qed.
Lemma blocked_candidate_ok k payload : op_ok phase_name s (plan_blocked_candidate phase_name s k payload).
Proof. by constructor. Qed.
Lemma ensure_plan_ok id : op_ok phase_name s (plan_ensure_compatibility phase_name s id).
Proof.
  unfold plan_ensure_compatibility. destruct (resolve_audio_compatibility s) as [r|e]; [|apply blocked_plan_ok].
  by destruct (cr_resolved_id r); constructor.
Qed.
Lemma place_plan_ok : op_ok phase_name s (plan_place_compatibility phase_name s).
Proof.
  unfold plan_place_compatibility. repeat case_match; try apply blocked_plan_ok; by constructor.
Qed.
Lemma extract_plan_ok codec container filter id :
  op_ok phase_name s (plan_extract phase_name s codec container filter id).
Proof. apply audio_node_ok; [|done]. by case_match. Qed.
Lemma video_plan_ok profile container :
  op_ok phase_name s (plan_transcode_video phase_name s profile container).
Proof.
  unfold plan_transcode_video. destruct (video_shape_outcome _) as [[status cap] code] eqn:Ho.
  assert (outcome_ok (status, cap, code)) as Hok.
  { rewrite <- Ho. by destruct (transcode_video_shape s profile container). }
  apply (outcome_plan KTranscodeVideo _ _ _ _ Hok eq_refl).
Qed.
End plans.

(** ** The builder *)

Record builder_ok `{Blake3Hex} (placed : bytes -> TargetRef -> Prop) (b : PlanBuilder) : Prop := {
  bo_errors : errors (pb_diagnostics b) = blocked (pb_nodes b);
  bo_numbered : forall i n, pb_nodes b !! i = Some n ->
    pn_ordinal n = checked_ordinal i
    /\ pn_node_id n = node_id (pn_phase_name n) (pn_ordinal n)
                        (PlanOperationKind_as_str (pn_operation_kind n)) (target_key (pn_target n))
    /\ pn_concurrency_key n = Some (target_key (pn_target n));
  bo_placed : Forall (fun n => placed (pn_phase_name n) (pn_target n)) (pb_nodes b);
  bo_executable :
    Forall (fun n => pn_status n = Planned -> executable_kind (pn_operation_kind n) = true) (pb_nodes b);
}.

Lemma numbered_snoc {A} (P : nat -> A -> Prop) l x :
  (forall i y, l !! i = Some y -> P i y) -> P (length l) x ->
  forall i y, (l ++ [x]) !! i = Some y -> P i y.
Proof.
  intros Hl Hx i y [Hi|[Hi Hy]]%lookup_app_Some; [by apply Hl|].
  apply list_lookup_singleton_Some in Hy as [H0 <-]. by replace i with (length l) by lia.
Qed.

Lemma list_find_some {A} (f : A -> bool) l x : List.find f l = Some x -> x ∈ l /\ f x = true.
Proof. intros H%find_some. by rewrite list_elem_of_In. Qed.

Section steps.
Context {hash : Blake3Hex} {unicode : UnicodeLowercase} (placed : bytes -> TargetRef -> Prop).

Lemma builder_new : builder_ok placed PlanBuilder_new.
Proof. by constructor; cbn; try constructor. Qed.

Lemma push_ok phase_name s p b :
  placed phase_name (si_target s) -> op_ok phase_name s p -> builder_ok placed b ->
  builder_ok placed (push_operation_plan phase_name s p b).
Proof.
  intros Hp [He Hx] [Hb Hn Hpl Hex]. unfold push_operation_plan. constructor; cbn [pb_nodes pb_diagnostics].
  - rewrite errors_app, blocked_app, Hb, He. f_equal. unfold blocked, is_blocked. cbn.
    by destruct (bool_decide (op_status p = Blocked)).
  - by apply numbered_snoc.
  - apply Forall_app. by repeat constructor.
  - apply Forall_app. by repeat constructor.
Qed.
Lemma expand_blocked_ok code phase_name s k payload b :
  placed phase_name (si_target s) -> builder_ok placed b ->
  builder_ok placed (expand_blocked code phase_name s k payload b).
Proof.
  intros Hp [Hb Hn Hpl Hex]. constructor; cbn [pb_nodes pb_diagnostics expand_blocked].
  - by rewrite errors_app, blocked_app, Hb.
  - by apply numbered_snoc.
  - apply Forall_app. by repeat constructor.
  - apply Forall_app. by repeat constructor.
Qed.

Lemma expand_operation_ok phase_name s o b :
  placed phase_name (si_target s) -> remux_candidate_kind o = None -> builder_ok placed b ->
  builder_ok placed (expand_operation_for_snapshot phase_name s o b).
Proof.
  intros Hp Ho Hb. destruct o; try discriminate; cbn [expand_operation_for_snapshot];
    try (by apply expand_blocked_ok).
  - destruct resolved_profile; [|by destruct Hb]. by apply push_ok; [|apply video_plan_ok|].
  - apply push_ok; [done| |done]. by apply audio_node_ok; [apply audio_shape_ok|].
  - by apply push_ok; [|apply extract_plan_ok|].
  - apply push_ok; [done| |done]. by apply audio_node_ok; [apply audio_shape_ok|].
  - by apply push_ok; [|apply ensure_plan_ok|].
  - by apply push_ok; [|apply place_plan_ok|].
  - apply push_ok; [done| |done]. by constructor.
Qed.

(** Only operations that a remux does not plan are expanded by themselves. *)
Definition item_ok (i : PhaseItem) : Prop :=
  match i with ItemOperation _ o => remux_candidate_kind o = None | _ => True end.
Lemma group_operations_ok g n ops :
  Forall item_ok (gr_items g) -> Forall item_ok (gr_items (group_operations g n ops)).
Proof.
  revert g n. induction ops as [|o ops IH]; intros g n Hg; [done|]. cbn. apply IH.
  destruct o as [o|o]; cbn; [destruct (remux_candidate_kind o) eqn:Hk; [destruct (remux_candidate_support o)|]|];
    cbn; [done|..]; apply Forall_app; by repeat constructor.
Qed.
Lemma phase_items_ok ops : Forall item_ok (phase_items ops).
Proof.
  unfold phase_items. rewrite sort_by_key_perm. apply Forall_app. split; [by apply group_operations_ok|].
  case_match; by repeat constructor.
Qed.

Lemma expand_item_ok phase_name s ls b i :
  placed phase_name (si_target s) -> item_ok i -> builder_ok placed b ->
  builder_ok placed (expand_item phase_name s ls b i).
Proof.
  intros Hp Hi Hb. destruct i as [n o|n o|n o|n ops]; cbn [expand_item].
  - by apply expand_operation_ok.
  - by apply expand_blocked_ok.
  - by apply push_ok; [|apply blocked_candidate_ok|].
  - by apply push_ok; [|apply plan_group_ok|].
Qed.
End steps.

(** A property of builders that every step keeps. *)
Lemma fold_left_inv {A B} (P : B -> Prop) (f : B -> A -> B) l b :
  (forall b x, x ∈ l -> P b -> P (f b x)) -> P b -> P (fold_left f l b).
Proof.
  revert b. induction l as [|x l IH]; intros b Hf Hb; [done|]. cbn. apply IH.
  - intros b' y Hy. apply Hf. by right.
  - apply Hf; [by left|done].
Qed.

(** ** Phases *)

Section phases.
Context {hash : Blake3Hex} {unicode : UnicodeLowercase} (p : CompiledPolicy) (snapshots : list MediaSnapshotInput).

(** Steps of the builder that are taken for a phase and a snapshot. *)
Lemma expand_phase_inv (P : PlanBuilder -> Prop) phase_name gate skip ops b :
  (forall s i b, s ∈ snapshots -> i ∈ phase_items (snapshot_operations s ops) ->
     P b -> P (expand_item phase_name s (languages (cp_config p)) b i)) ->
  (forall s o b, s ∈ snapshots -> o ∈ ops ->
     P b -> P (expand_blocked_insufficient_facts_for_snapshot phase_name s o b)) ->
  P b -> P (expand_phase (languages (cp_config p)) snapshots phase_name gate skip ops b).
Proof.
  intros Hitem Hblock Hb. unfold expand_phase. apply (fold_left_inv P); [|done]. clear b Hb. intros b s Hs Hb.
  assert (P (expand_operations_for_snapshot (languages (cp_config p)) phase_name s ops b)) as Hplan.
  { apply (fold_left_inv P); [|done]. intros b' i Hi. by apply Hitem. }
  assert (P (expand_blocked_insufficient_facts_for_operations phase_name s ops b)) as Hbl.
  { apply (fold_left_inv P); [|done]. intros b' o Ho. by apply Hblock. }
  unfold expand_snapshot. by repeat case_match.
Qed.

Definition placed_in (name : bytes) (t : TargetRef) : Prop :=
  name ∈ cp_phase_order p /\ t ∈ map si_target snapshots.

Lemma find_phase_some name ph : find_phase p name = Some ph -> ph ∈ cp_phases p /\ cp_name ph = name.
Proof. intros [Hin Hn]%list_find_some. split; [done|]. by apply eqb_text_true. Qed.

Lemma expand_declared_ok name b :
  name ∈ cp_phase_order p -> find_phase p name <> None -> builder_ok placed_in b ->
  builder_ok placed_in (expand_declared_phase p snapshots b name).
Proof.
  intros Hn Hf Hb. unfold expand_declared_phase.
  destruct (find_phase p name) as [ph|] eqn:Hph; [|done]. apply find_phase_some in Hph as [_ <-].
  assert (forall s, s ∈ snapshots -> placed_in (cp_name ph) (si_target s)) as Hs.
  { intros s Hs. split; [done|]. by apply list_elem_of_fmap_2. }
  apply (expand_phase_inv (builder_ok placed_in)); [| |done].
  - intros s i b' Hin Hi Hb'. apply expand_item_ok; [by apply Hs| |done].
    pose proof (phase_items_ok (snapshot_operations s (cp_operations ph))) as Ha.
    rewrite Forall_forall in Ha. by apply Ha.
  - intros s o b' Hin _ Hb'. by apply expand_blocked_ok; [apply Hs|].
Qed.

(** Every phase that is ordered is declared. *)
Definition phases_declared : Prop := forall name, name ∈ cp_phase_order p -> find_phase p name <> None.

Lemma expand_ok b : phases_declared -> builder_ok placed_in b -> builder_ok placed_in (expand p snapshots b).
Proof.
  intros Hd Hb. unfold expand. destruct (is_empty (cp_phase_order p)).
  - destruct Hb as [He Hn Hp Hx]. constructor; try done. cbn [pb_diagnostics pb_nodes push_diagnostic].
    rewrite errors_app, He. apply app_nil_r.
  - apply (fold_left_inv (builder_ok placed_in)); [|done]. intros b' name Hin. by apply expand_declared_ok, Hd.
Qed.
End phases.

(** ** Resolution of profiles *)

Section operation_induction.
Context (Q : CompiledOperation -> Prop).
Hypothesis plain_case : forall o,
  match o with Conditional _ _ | Rules _ _ => False | _ => True end -> Q o.
Hypothesis conditional_case : forall c ops, Forall Q ops -> Q (Conditional c ops).
Hypothesis rules_case : forall mode rules, Forall (fun r => Forall Q r.2) rules -> Q (Rules mode rules).
Fixpoint operation_induction (o : CompiledOperation) : Q o :=
  let all := fix all (os : list CompiledOperation) : Forall Q os :=
    match os with
    | [] => List.Forall_nil Q
    | o :: os' => proj2 (Forall_cons Q o os') (conj (operation_induction o) (all os'))
    end in
  match o with
  | Conditional c ops => conditional_case c ops (all ops)
  | Rules mode rules =>
      rules_case mode rules
        ((fix each_rule (rs : list (bytes * option CompiledCondition * list CompiledOperation)) :
            Forall (fun r => Forall Q r.2) rs :=
            match rs with
            | [] => List.Forall_nil _
            | r :: rs' =>
                proj2 (Forall_cons (fun r => Forall Q r.2) r rs')
                  (conj (match r as r return Forall Q r.2 with (_, ops) => all ops end) (each_rule rs'))
            end) rules)
  | o => plain_case o I
  end.
End operation_induction.

(** Every video profile the operation refers to has been resolved. *)
Fixpoint profiles_resolved (o : CompiledOperation) : bool :=
  match o with
  | TranscodeVideo _ _ _ resolved => is_some resolved
  | Conditional _ ops => forallb profiles_resolved ops
  | Rules _ rules => forallb (fun '(_, _, ops) => forallb profiles_resolved ops) rules
  | _ => true
  end.

Definition snap_resolved (o : SnapshotOperation) : bool :=
  match o with SnapOperation o => profiles_resolved o | SnapInsufficient _ => true end.
Lemma insufficient_resolved ops : Forall (fun o => snap_resolved o = true) (map SnapInsufficient ops).
Proof. induction ops; by constructor. Qed.
Lemma flat_map_Forall {A B} (P : B -> Prop) (f : A -> list B) l :
  Forall (fun x => Forall P (f x)) l -> Forall P (flat_map f l).
Proof. induction 1 as [|x l Hx _ IH]; [constructor|]. cbn. by apply Forall_app. Qed.
Lemma operations_resolved s ops :
  Forall (fun o => profiles_resolved o = true ->
    Forall (fun o => snap_resolved o = true) (snapshot_operation s o)) ops ->
  forallb profiles_resolved ops = true ->
  Forall (fun o => snap_resolved o = true) (flat_map (snapshot_operation s) ops).
Proof.
  intros Hi Hr. apply flat_map_Forall. rewrite forallb_forall in Hr. rewrite Forall_forall in Hi |- *.
  intros o Ho. apply Hi; [done|]. by apply Hr, list_elem_of_In.
Qed.
Lemma snapshot_operation_resolved s o :
  profiles_resolved o = true -> Forall (fun o => snap_resolved o = true) (snapshot_operation s o).
Proof.
  induction o as [o Ho|c ops IH|mode rules IH] using operation_induction; cbn; intros Hr.
  - destruct o; try done; by repeat constructor.
  - destruct (evaluate_condition c s); [by apply operations_resolved|constructor|apply insufficient_resolved].
  - assert (forall r, r ∈ rules ->
      Forall (fun o => snap_resolved o = true) (flat_map (snapshot_operation s) r.2)) as Hall.
    { intros r Hin. rewrite Forall_forall in IH. apply operations_resolved; [by apply IH|].
      rewrite forallb_forall in Hr. apply list_elem_of_In, Hr in Hin. by destruct r as [[? ?] ?]. }
    clear IH Hr. destruct mode.
    + induction rules as [|[[name c] ops] rules IH]; [constructor|].
      destruct (rule_condition_matches c s); [|apply IH|apply insufficient_resolved].
      * apply (Hall (name, c, ops)). by left.
      * intros r Hin. apply Hall. by right.
    + apply flat_map_Forall, Forall_forall. intros [[name c] ops] Hin.
      destruct (rule_condition_matches c s); [|constructor|apply insufficient_resolved]. by apply (Hall (name, c, ops)).
Qed.

Definition item_resolved (i : PhaseItem) : Prop :=
  match i with ItemOperation _ o => profiles_resolved o = true | _ => True end.
Lemma group_resolved g n ops :
  Forall (fun o => snap_resolved o = true) ops -> Forall item_resolved (gr_items g) ->
  Forall item_resolved (gr_items (group_operations g n ops)).
Proof.
  intros Hr. revert g n. induction Hr as [|o ops Ho _ IH]; intros g n Hg; [done|]. cbn. apply IH.
  destruct o as [o|o]; cbn; [destruct (remux_candidate_kind o); [destruct (remux_candidate_support o)|]|];
    cbn; [done|..]; apply Forall_app; by repeat constructor.
Qed.
Lemma phase_items_resolved s ops :
  forallb profiles_resolved ops = true -> Forall item_resolved (phase_items (snapshot_operations s ops)).
Proof.
  intros Hr. unfold phase_items. rewrite sort_by_key_perm. apply Forall_app. split.
  - apply group_resolved; [|constructor]. apply operations_resolved; [|done].
    apply Forall_true. intros o. apply snapshot_operation_resolved.
  - case_match; by repeat constructor.
Qed.

Section fatal.
Context {hash : Blake3Hex} {unicode : UnicodeLowercase} (p : CompiledPolicy) (snapshots : list MediaSnapshotInput).

Definition policy_resolved : Prop :=
  Forall (fun ph => forallb profiles_resolved (cp_operations ph) = true) (cp_phases p).

Lemma expand_item_fatal phase_name s ls b i :
  item_resolved i -> pb_fatal (expand_item phase_name s ls b i) = pb_fatal b.
Proof. destruct i as [n o|n o|n o|n ops]; try done. destruct o; try done. by destruct resolved_profile. Qed.

Lemma expand_declared_fatal name b :
  policy_resolved -> pb_fatal b = None -> pb_fatal (expand_declared_phase p snapshots b name) = None.
Proof.
  intros Hr Hb. unfold expand_declared_phase. destruct (find_phase p name) as [ph|] eqn:Hph; [|done].
  apply find_phase_some in Hph as [Hin _]. unfold policy_resolved in Hr. rewrite Forall_forall in Hr.
  apply (expand_phase_inv p snapshots (fun b => pb_fatal b = None)); [|done|done].
  intros s i b' _ Hi Hb'. rewrite expand_item_fatal; [done|].
  pose proof (phase_items_resolved s _ (Hr ph Hin)) as Ha. rewrite Forall_forall in Ha. by apply Ha.
Qed.
Lemma expand_fatal b : policy_resolved -> pb_fatal b = None -> pb_fatal (expand p snapshots b) = None.
Proof.
  intros Hr Hb. unfold expand. destruct (is_empty _); [done|].
  apply (fold_left_inv (fun b => pb_fatal b = None)); [|done]. intros b' name _. by apply expand_declared_fatal.
Qed.
End fatal.

(** ** Summaries *)

Definition count {A} (f : A -> bool) (l : list A) : Z := Z.of_nat (length (List.filter f l)).
Lemma count_cons {A} (f : A -> bool) x l : count f (x :: l) = (if f x then 1 else 0) + count f l.
Proof. unfold count. cbn. destruct (f x); cbn [length]; lia. Qed.
Definition has_status (st : NodeStatus) (n : PlanNode) : bool := bool_decide (pn_status n = st).
Definition has_kind (k : PlanOperationKind) (n : PlanNode) : bool := bool_decide (pn_operation_kind n = k).

(** The counters of a summary of [nodes]. *)
Record counts_of (nodes : list PlanNode) (m : PlanSummary) : Prop := {
  co_planned : executable_node_count m = count (has_status Planned) nodes;
  co_no_op : no_op_node_count m = count (has_status NoOp) nodes;
  co_blocked : blocked_node_count m = count (has_status Blocked) nodes;
  co_kinds : forall k, default 0 (operation_counts_by_kind m !! k) = count (has_kind k) nodes;
  co_total : Z.of_nat (length nodes) <= u32_max ->
    total_node_count m = executable_node_count m + no_op_node_count m + blocked_node_count m;
}.

Lemma count_nodes nodes m :
  let m' := fold_left (fun m n => count_node n m) nodes m in
  total_node_count m' = total_node_count m
  /\ executable_node_count m' = executable_node_count m + count (has_status Planned) nodes
  /\ no_op_node_count m' = no_op_node_count m + count (has_status NoOp) nodes
  /\ blocked_node_count m' = blocked_node_count m + count (has_status Blocked) nodes
  /\ forall k, default 0 (operation_counts_by_kind m' !! k)
               = default 0 (operation_counts_by_kind m !! k) + count (has_kind k) nodes.
Proof.
  revert m. induction nodes as [|n nodes IH]; intros m; cbn.
  { unfold count. cbn. split_and!; intros; lia. }
  destruct (IH (count_node n m)) as (-> & -> & -> & -> & Hk). clear IH.
  rewrite !count_cons. cbn. fold (has_status Planned n) (has_status NoOp n) (has_status Blocked n).
  split_and!; [lia..|]. intros k. rewrite Hk, count_cons. unfold has_kind at 2. cbn.
  destruct (decide (pn_operation_kind n = k)) as [<-|Hne].
  - rewrite bool_decide_eq_true_2 by done. rewrite lookup_insert_eq. cbn. lia.
  - rewrite bool_decide_eq_false_2 by done. rewrite lookup_insert_ne by done. lia.
Qed.
Lemma statuses_total nodes :
  count (has_status Planned) nodes + count (has_status NoOp) nodes + count (has_status Blocked) nodes
  = Z.of_nat (length nodes).
Proof.
  induction nodes as [|n nodes IH]; [done|]. rewrite !count_cons. cbn [length]. rewrite Nat2Z.inj_succ.
  assert (forall st, has_status st n = bool_decide (pn_status n = st)) as Hs by done. rewrite !Hs.
  destruct (pn_status n); repeat case_bool_decide; try congruence; lia.
Qed.
Lemma summary_counts nodes : counts_of nodes (summarize_nodes nodes).
Proof.
  unfold summarize_nodes.
  match goal with |- counts_of _ (fold_left _ _ ?m) =>
    destruct (count_nodes nodes m) as (Ht & Hp & Hn & Hb & Hk) end.
  cbn in Ht, Hp, Hn, Hb. constructor; [by rewrite Hp|by rewrite Hn|by rewrite Hb| |].
  - intros k. rewrite Hk. cbn. by rewrite lookup_empty.
  - intros Hl. rewrite Ht, Hp, Hn, Hb. unfold checked_ordinal, is_u32.
    pose proof (statuses_total nodes). replace (_ && _) with true; [lia|]. symmetry. lia.
Qed.

(** ** Plans *)

Section requests.
Context {hash : Blake3Hex} {unicode : UnicodeLowercase} {sizes : SerializedSize}.

(** The ways a plan is asked for. *)
Definition planned_by (r : PlanningRequest) (plan : ExecutionPlan) : Prop :=
  (phases_declared (pr_policy r) /\ generate_plan r = Ok plan)
  \/ exists name, plan_phase r name = Ok plan.

Lemma plan_finish_ok r b plan :
  finish r b = Ok plan ->
  ep_nodes plan = pb_nodes b /\ ep_diagnostics plan = pb_diagnostics b
  /\ ep_summary plan = summarize_nodes (pb_nodes b)
  /\ ep_edges plan = build_phase_edges (pr_policy r) (pb_nodes b).
Proof. unfold finish. destruct (pb_fatal b); [done|]. by intros [= <-]. Qed.

Lemma plan_phase_ok r name plan :
  plan_phase r name = Ok plan ->
  name ∈ cp_phase_order (pr_policy r) /\ find_phase (pr_policy r) name <> None
  /\ finish r (expand_declared_phase (pr_policy r) (media_snapshots (pr_input r)) PlanBuilder_new name)
     = Ok plan.
Proof.
  unfold plan_phase. destruct (validate_policy_eligibility _); [|done]. cbn.
  destruct (validate_input _); [|done]. cbn.
  destruct (existsb _ _) eqn:He; cbn; [|done]. destruct (find_phase _ name) as [ph|] eqn:Hf; cbn; [|done].
  intros Hp. split_and!; [|done|done]. apply existsb_exists in He as (n & Hn%list_elem_of_In & He).
  apply eqb_text_true in He. by subst n.
Qed.

Lemma planned_builder r plan :
  planned_by r plan ->
  exists b, builder_ok (placed_in (pr_policy r) (media_snapshots (pr_input r))) b /\ finish r b = Ok plan.
Proof.
  intros [[Hd Hp]|[name (Hn & Hf & Hp)%plan_phase_ok]].
  - unfold generate_plan in Hp. destruct (validate_policy_eligibility _); [|done]. cbn in Hp.
    destruct (validate_input _); [|done]. cbn in Hp. eexists. split; [|exact Hp].
    by apply expand_ok, builder_new.
  - eexists. split; [|exact Hp]. by apply expand_declared_ok, builder_new.
Qed.

End requests.
