(* ===== verification/Workflow.v ===== *)
(** * Workflow plans

    [voom-control-plane/src/workflow/plan]: [model.rs] (what the executor runs
    and the check it makes first) and [policy_bridge.rs] (the workflow made from
    an execution plan), and [workflow/execution/timing.rs]. A workflow plan is
    valid exactly when its limits are positive, its nodes have distinct names,
    what they wait for exists and no node waits for itself; what the bridge makes
    of a plan of an ordered policy is. *)

From Stdlib Require Import ZArith Lia Bool String Ascii.
From stdpp Require Import base gmap strings list relations fin_sets.
From S2P Require Import Prelude Json Vocab Bytes PolicySyntax PolicyGraph TrackFilters PolicyCompiled.
From S2P Require Import PolicyLower PolicyCompile PlanModel PlanVideo Planner PlannerLaws.

Open Scope string_scope.
Open Scope list_scope.
Open Scope Z_scope.

(** ** Plans *)

Record OperationNode := {
  on_id : bytes;
  on_operation : OperationKind;
  on_policy_target : option TargetRef;
  on_operation_payload : Json;
  on_depends_on : list bytes;
  on_depends_on_selected : list bytes;
  on_provides_selected : option bytes;
}.
Record WorkflowPlan := {
  wp_id : bytes;
  wp_seed : Z;
  wp_nodes : list OperationNode;
  fan_out_max_files : Z;
  max_in_flight_dispatches : Z;
  base_duration_ms : Z;
  jitter_ms : Z;
}.

(** [WorkflowPlanError], by the check that fails. *)
Inductive WorkflowPlanError :=
  | ZeroFanOut | ZeroConcurrency | DuplicateNode (id : bytes) | MissingDependency (node dependency : bytes)
  | MissingSelectedGroup (node group : bytes) | CycleDetected.
Definition WR := result WorkflowPlanError.

Fixpoint duplicate_node (nodes : list OperationNode) (seen : gset bytes) : option bytes :=
  match nodes with
  | [] => None
  | n :: nodes' =>
      if bool_decide (on_id n ∈ seen) then Some (on_id n)
      else duplicate_node nodes' ({[on_id n]} ∪ seen)
  end.

(** [by_id]; ids are distinct when it is used. *)
Definition node_by_id (nodes : list OperationNode) : gmap bytes OperationNode :=
  fold_left (fun m n => <[on_id n := n]> m) nodes ∅.
Definition providers (nodes : list OperationNode) (group : bytes) : list OperationNode :=
  List.filter (fun n => bool_decide (on_provides_selected n = Some group)) nodes.

Fixpoint check_each {A} (check : A -> WR unit) (l : list A) : WR unit :=
  match l with
  | [] => Ok tt
  | x :: l' => _ ← check x; check_each check l'
  end.
Definition check_node (nodes : list OperationNode) (n : OperationNode) : WR unit :=
  _ ← check_each (fun d => if bool_decide (is_Some (node_by_id nodes !! d)) then Ok tt
                           else Err (MissingDependency (on_id n) d)) (on_depends_on n);
  check_each (fun g => if is_empty (providers nodes g) then Err (MissingSelectedGroup (on_id n) g)
                       else Ok tt) (on_depends_on_selected n).

(** ** The search for a cycle *)

(** What a node waits for: its dependencies, then the providers of its groups. *)
Definition waits_on (nodes : list OperationNode) (n : OperationNode) : list bytes :=
  on_depends_on n ++ flat_map (fun g => map on_id (providers nodes g)) (on_depends_on_selected n).

Section search.
Context (nodes : list OperationNode).

(** [visit]; [true] is the error. *)
Fixpoint visit_node (fuel : nat) (id : bytes) (visiting visited : gset bytes) :
    bool * gset bytes * gset bytes :=
  match fuel with
  | O => (false, visiting, visited)
  | S fuel' =>
      if bool_decide (id ∈ visited) then (false, visiting, visited)
      else if bool_decide (id ∈ visiting) then (true, visiting, visited)
      else
        match node_by_id nodes !! id with
        | None => (false, {[id]} ∪ visiting, visited)
        | Some n =>
            match any_cycle (visit_node fuel') (waits_on nodes n) ({[id]} ∪ visiting) visited with
            | (true, visiting, visited) => (true, visiting, visited)
            | (false, visiting, visited) => (false, visiting ∖ {[id]}, {[id]} ∪ visited)
            end
        end
  end.
End search.
(** The search goes through the ids in the order a hash map gives them. *)
Definition wait_graph (nodes : list OperationNode) : gmap bytes (list bytes) :=
  waits_on nodes <$> node_by_id nodes.
Definition reject_cycles (nodes : list OperationNode) (order : list bytes) : WR unit :=
  match any_cycle (visit_node nodes (graph_fuel (wait_graph nodes))) order ∅ ∅ with
  | (true, _, _) => Err CycleDetected
  | (false, _, _) => Ok tt
  end.

Definition validate (p : WorkflowPlan) (order : list bytes) : WR unit :=
  if fan_out_max_files p =? 0 then Err ZeroFanOut
  else if max_in_flight_dispatches p =? 0 then Err ZeroConcurrency
  else match duplicate_node (wp_nodes p) ∅ with
       | Some id => Err (DuplicateNode id)
       | None =>
           _ ← check_each (check_node (wp_nodes p)) (wp_nodes p);
           reject_cycles (wp_nodes p) order
       end.

(** ** The bridge *)

Record WorkflowExecutionShape := { ws_max_files : Z; ws_max_in_flight_dispatches : Z }.
Definition WorkflowExecutionShape_new (max_files max_in_flight : Z) :
    result VoomError WorkflowExecutionShape :=
  if max_files =? 0 then Err EPolicyExecution
  else if max_in_flight =? 0 then Err EPolicyExecution
  else Ok {| ws_max_files := max_files; ws_max_in_flight_dispatches := max_in_flight |}.

Record PolicyExecutionSummary := {
  ps_submitted_node_count : Z;
  ps_skipped_no_op_count : Z;
  ps_blocked_count : Z;
  ps_per_operation : gmap PlanOperationKind Z;
}.
Record PolicyExecutionPlan := {
  pe_workflow : option WorkflowPlan; pe_summary : PolicyExecutionSummary }.

Definition POLICY_WORKFLOW_NODE_ID_PREFIX : string := "policy-node_".
Definition policy_workflow_node_id (plan_node_id : bytes) : bytes :=
  lit POLICY_WORKFLOW_NODE_ID_PREFIX ++ plan_node_id.
Definition is_policy_workflow_node_id (node_id : bytes) : bool :=
  starts_with (lit POLICY_WORKFLOW_NODE_ID_PREFIX) node_id.

Definition execution_operation (k : PlanOperationKind) : result VoomError OperationKind :=
  match k with
  | KRemux => Ok OpRemux
  | KTranscodeVideo => Ok OpTranscodeVideo
  | KTranscodeAudio => Ok OpTranscodeAudio
  | KExtractAudio => Ok OpExtractAudio
  | KVerifyArtifact => Ok OpVerifyArtifact
  | _ => Err EPolicyExecution
  end.

Record Bridge := {
  br_nodes : list OperationNode;
  br_ids : gmap bytes bytes;
  br_summary : PolicyExecutionSummary;
}.
Definition empty_bridge : Bridge := {|
  br_nodes := []; br_ids := ∅;
  br_summary := {| ps_submitted_node_count := 0; ps_skipped_no_op_count := 0; ps_blocked_count := 0;
                   ps_per_operation := ∅ |} |}.
Definition submitted (m : PolicyExecutionSummary) (k : PlanOperationKind) : PolicyExecutionSummary := {|
  ps_submitted_node_count := ps_submitted_node_count m + 1;
  ps_skipped_no_op_count := ps_skipped_no_op_count m; ps_blocked_count := ps_blocked_count m;
  ps_per_operation := <[k := default 0 (ps_per_operation m !! k) + 1]> (ps_per_operation m) |}.
Definition skipped (m : PolicyExecutionSummary) : PolicyExecutionSummary := {|
  ps_submitted_node_count := ps_submitted_node_count m;
  ps_skipped_no_op_count := ps_skipped_no_op_count m + 1; ps_blocked_count := ps_blocked_count m;
  ps_per_operation := ps_per_operation m |}.
Definition blocked_one (m : PolicyExecutionSummary) : PolicyExecutionSummary := {|
  ps_submitted_node_count := ps_submitted_node_count m;
  ps_skipped_no_op_count := ps_skipped_no_op_count m; ps_blocked_count := ps_blocked_count m + 1;
  ps_per_operation := ps_per_operation m |}.

Definition workflow_node (n : PlanNode) (operation : OperationKind) : OperationNode := {|
  on_id := policy_workflow_node_id (pn_node_id n); on_operation := operation;
  on_policy_target := Some (pn_target n); on_operation_payload := pn_operation_payload n;
  on_depends_on := []; on_depends_on_selected := []; on_provides_selected := None |}.
Definition bridge_node (b : Bridge) (n : PlanNode) : result VoomError Bridge :=
  match pn_status n with
  | Planned =>
      operation ← execution_operation (pn_operation_kind n);
      Ok {| br_nodes := br_nodes b ++ [workflow_node n operation];
            br_ids := <[pn_node_id n := policy_workflow_node_id (pn_node_id n)]> (br_ids b);
            br_summary := submitted (br_summary b) (pn_operation_kind n) |}
  | NoOp => Ok {| br_nodes := br_nodes b; br_ids := br_ids b; br_summary := skipped (br_summary b) |}
  | Blocked => Ok {| br_nodes := br_nodes b; br_ids := br_ids b; br_summary := blocked_one (br_summary b) |}
  end.
Fixpoint bridge_nodes (b : Bridge) (nodes : list PlanNode) : result VoomError Bridge :=
  match nodes with
  | [] => Ok b
  | n :: nodes' => b ← bridge_node b n; bridge_nodes b nodes'
  end.

(** [apply_plan_dependencies]: an edge counts when both of its ends are submitted. *)
Definition add_dependency (ids : gmap bytes bytes) (m : gmap bytes (list bytes)) (e : Edge) :
    gmap bytes (list bytes) :=
  match ids !! from_node_id e with
  | None => m
  | Some from =>
      match ids !! to_node_id e with
      | None => m
      | Some to => <[to := default [] (m !! to) ++ [from]]> m
      end
  end.
Definition with_dependencies (n : OperationNode) (depends_on : list bytes) : OperationNode := {|
  on_id := on_id n; on_operation := on_operation n; on_policy_target := on_policy_target n;
  on_operation_payload := on_operation_payload n; on_depends_on := depends_on;
  on_depends_on_selected := on_depends_on_selected n; on_provides_selected := on_provides_selected n |}.
Fixpoint assign_dependencies (nodes : list OperationNode) (m : gmap bytes (list bytes)) :
    list OperationNode :=
  match nodes with
  | [] => []
  | n :: nodes' =>
      match m !! on_id n with
      | Some depends_on => with_dependencies n depends_on :: assign_dependencies nodes' (delete (on_id n) m)
      | None => n :: assign_dependencies nodes' m
      end
  end.
Definition apply_plan_dependencies (edges : list Edge) (ids : gmap bytes bytes) (nodes : list OperationNode) :
    list OperationNode := assign_dependencies nodes (fold_left (add_dependency ids) edges ∅).

Definition workflow_plan_from_compliance (plan : ExecutionPlan) (report_id : bytes)
    (shape : WorkflowExecutionShape) : result VoomError PolicyExecutionPlan :=
  b ← bridge_nodes empty_bridge (ep_nodes plan);
  let nodes := apply_plan_dependencies (ep_edges plan) (br_ids b) (br_nodes b) in
  Ok {| pe_workflow :=
          if is_empty nodes then None
          else Some {| wp_id := lit "policy-" ++ report_id; wp_seed := 6; wp_nodes := nodes;
                       fan_out_max_files := ws_max_files shape;
                       max_in_flight_dispatches := ws_max_in_flight_dispatches shape;
                       base_duration_ms := 5; jitter_ms := 0 |};
        pe_summary := br_summary b |}.

(** ** Timing *)

Record EffectiveTiming := { duration_ms : Z; progress_interval_ms : Z }.
Definition wrapping_mul (a b : Z) : Z := (a * b) mod 2 ^ 64.
Definition hash_byte (hash : Z) (c : ascii) : Z :=
  wrapping_mul (Z.lxor hash (Z.of_nat (byte c))) 1099511628211.
Definition stable_hash (seed : Z) (node_id branch_id : bytes) : Z :=
  fold_left hash_byte (node_id ++ [nul_byte] ++ branch_id) (Z.lxor 14695981039346656037 seed).
Definition seeded_timing (seed : Z) (node_id branch_id : bytes) (base jitter : Z) : EffectiveTiming :=
  let hash := stable_hash seed node_id branch_id in
  let duration := base + hash mod (jitter + 1) in
  let progress_jitter := if jitter =? 0 then 0 else hash / 97 mod (jitter + 1) in
  {| duration_ms := duration; progress_interval_ms := Z.min (1 + progress_jitter) (Z.max duration 1) |}.

(** ** Maps by name *)

(** Items by their names, the last of each name. *)
Section by_name.
Context {A : Type} (key : A -> bytes).
Definition index_by (l : list A) : gmap bytes A := fold_left (fun m x => <[key x := x]> m) l ∅.

Lemma index_from (l : list A) (m : gmap bytes A) (k : bytes) :
  fold_left (fun (m : gmap bytes A) x => <[key x := x]> m) l m !! k
  = match index_by l !! k with Some x => Some x | None => m !! k end.
Proof.
  unfold index_by. revert m. induction l as [|x l IH]; intros m; cbn; [by rewrite lookup_empty|].
  rewrite IH, (IH (<[key x := x]> ∅)). destruct (fold_left _ l ∅ !! k) as [y|]; [done|].
  destruct (decide (key x = k)) as [<-|Hne]; [by rewrite !lookup_insert_eq|].
  by rewrite !lookup_insert_ne, lookup_empty.
Qed.
Lemma index_nil k : index_by [] !! k = None.
Proof. apply lookup_empty. Qed.
Lemma index_cons x l k :
  index_by (x :: l) !! k
  = match index_by l !! k with Some y => Some y | None => if bool_decide (key x = k) then Some x else None end.
Proof.
  unfold index_by at 1. cbn. rewrite index_from. destruct (index_by l !! k); [done|].
  case_bool_decide as Hk; [by rewrite <- Hk, lookup_insert_eq|by rewrite lookup_insert_ne, lookup_empty].
Qed.
Lemma index_some l k x : index_by l !! k = Some x -> x ∈ l /\ key x = k.
Proof.
  induction l as [|y l IH]; [by rewrite index_nil|]. rewrite index_cons.
  destruct (index_by l !! k) as [z|] eqn:Hz.
  - intros [= ->]. destruct IH as [Hin Hk]; [done|]. split; [by right|done].
  - case_bool_decide as Hk; [|done]. intros [= ->]. split; [by left|done].
Qed.
Lemma index_is_some l k : is_Some (index_by l !! k) <-> k ∈ map key l.
Proof.
  induction l as [|y l IH].
  { split; [intros [x Hx]; by rewrite index_nil in Hx|by intros ?%elem_of_nil]. }
  rewrite index_cons. cbn. rewrite elem_of_cons, <- IH. destruct (index_by l !! k) as [z|].
  - split; [by right|by eexists].
  - case_bool_decide as Hk; [by split; [left|eexists]|].
    split; [by intros []|by intros [?|[? ?]]].
Qed.
Lemma index_unique l x : NoDup (map key l) -> x ∈ l -> index_by l !! key x = Some x.
Proof.
  intros Hnd Hx. assert (is_Some (index_by l !! key x)) as [y Hy].
  { apply index_is_some. by apply list_elem_of_fmap_2. }
  rewrite Hy. f_equal. destruct (index_some _ _ _ Hy) as [Hin Hk].
  symmetry. by apply (NoDup_map_inj key l).
Qed.
End by_name.

(** ** The check *)

Section check.
Context (nodes : list OperationNode).

Definition waits (a b : bytes) : Prop := exists n, n ∈ nodes /\ on_id n = a /\ b ∈ waits_on nodes n.
(** What a node needs is there. *)
Definition provided (n : OperationNode) : Prop :=
  (forall d, d ∈ on_depends_on n -> d ∈ map on_id nodes)
  /\ (forall g, g ∈ on_depends_on_selected n -> exists m, m ∈ nodes /\ on_provides_selected m = Some g).

Lemma duplicate_node_none l seen :
  duplicate_node l seen = None <-> NoDup (map on_id l) /\ (forall n, n ∈ l -> on_id n ∉ seen).
Proof.
  revert seen. induction l as [|n l IH]; intros seen; cbn.
  { split; [|done]. intros _. split; [constructor|by intros ? ?%elem_of_nil]. }
  case_bool_decide as Hs.
  - split; [done|]. intros [_ Hn]. by destruct (Hn n (list_elem_of_here _ _)).
  - rewrite IH, NoDup_cons. split.
    + intros [Hnd Hl]. split_and!; [|done|].
      * intros (m & He & Hm)%list_elem_of_fmap. apply (Hl m Hm). set_solver.
      * intros m [->|Hm]%elem_of_cons; [done|]. specialize (Hl m Hm). set_solver.
    + intros [[Hn Hnd] Hl]. split; [done|]. intros m Hm [He%elem_of_singleton|Hin]%elem_of_union.
      * apply Hn. rewrite <- He. by apply list_elem_of_fmap_2.
      * apply (Hl m); [by right|done].
Qed.

Lemma check_each_ok {A} (check : A -> WR unit) l :
  check_each check l = Ok tt <-> Forall (fun x => check x = Ok tt) l.
Proof.
  induction l as [|x l IH]; [by split; [constructor|]|]. cbn. rewrite Forall_cons, <- IH.
  destruct (check x) as [[]|e]; cbn; [by split; [|intros [_ ?]]|by split; [|intros [? _]]].
Qed.
Lemma is_empty_false {A} (l : list A) : is_empty l = false <-> exists x, x ∈ l.
Proof.
  destruct l as [|x l]; cbn; [split; [done|by intros [x ?%elem_of_nil]]|].
  split; [intros _; exists x; by left|done].
Qed.
Lemma provider_exists g :
  is_empty (providers nodes g) = false <-> exists m, m ∈ nodes /\ on_provides_selected m = Some g.
Proof.
  rewrite is_empty_false. unfold providers. setoid_rewrite list_elem_of_In. setoid_rewrite filter_In.
  by setoid_rewrite bool_decide_eq_true.
Qed.
Lemma check_node_ok n : check_node nodes n = Ok tt <-> provided n.
Proof.
  unfold check_node, provided. transitivity
    (check_each (fun d => if bool_decide (is_Some (node_by_id nodes !! d)) then Ok tt
                          else Err (MissingDependency (on_id n) d)) (on_depends_on n) = Ok tt
     /\ check_each (fun g => if is_empty (providers nodes g) then Err (MissingSelectedGroup (on_id n) g)
                             else Ok tt) (on_depends_on_selected n) = Ok tt).
  { destruct (check_each _ (on_depends_on n)) as [[]|e]; cbn; [by split; [|intros [_ ?]]|by split; [|intros [? _]]]. }
  rewrite !check_each_ok, !Forall_forall. change (node_by_id nodes) with (index_by on_id nodes).
  setoid_rewrite <- index_is_some. setoid_rewrite <- provider_exists.
  split; intros [Hd Hg]; (split; [intros d Hin; specialize (Hd d Hin)|intros g Hin; specialize (Hg g Hin)]).
  - by case_bool_decide.
  - by destruct (is_empty _).
  - by case_bool_decide.
  - by rewrite Hg.
Qed.

(** *** Cycles *)

Definition closed : Prop := Forall provided nodes.

Lemma waits_on_known n b : closed -> n ∈ nodes -> b ∈ waits_on nodes n -> b ∈ map on_id nodes.
Proof.
  intros Hc Hn [Hb|Hb]%elem_of_app; unfold closed in Hc; rewrite Forall_forall in Hc.
  - by apply (Hc n Hn).
  - apply list_elem_of_In, in_flat_map in Hb as (g & _ & Hb). apply in_map_iff in Hb as (m & <- & Hm).
    apply filter_In in Hm as [Hm%list_elem_of_In _]. by apply list_elem_of_fmap_2.
Qed.

Lemma any_cycle_ext visit visit' deps v w :
  (forall d v w, d ∈ deps -> visit d v w = visit' d v w) -> any_cycle visit deps v w = any_cycle visit' deps v w.
Proof.
  revert v w. induction deps as [|d deps IH]; intros v w He; [done|]. cbn. rewrite He by left.
  destruct (visit' d v w) as [[[|] v'] w']; [done|]. apply IH. intros. apply He. by right.
Qed.

Lemma visit_node_search fuel id v w :
  closed -> id ∈ map on_id nodes ->
  visit_node nodes fuel id v w = has_cycle_from (wait_graph nodes) fuel id v w.
Proof.
  intros Hc. revert id v w. induction fuel as [|fuel IH]; intros id v w Hid; [done|]. cbn.
  case_bool_decide; [done|]. case_bool_decide; [done|]. unfold wait_graph at 2.
  change (node_by_id nodes) with (index_by on_id nodes). rewrite lookup_fmap.
  apply index_is_some in Hid as [n Hn]. rewrite Hn. cbn.
  rewrite (any_cycle_ext _ (has_cycle_from (wait_graph nodes) fuel)); [done|].
  intros d v' w' Hd. apply IH. destruct (index_some _ _ _ _ Hn) as [Hin _]. by apply (waits_on_known n).
Qed.

Lemma any_search graph order visited :
  (forall x, x ∈ visited -> acyclic_from graph x) ->
  match any_cycle (has_cycle_from graph (graph_fuel graph)) order ∅ visited with
  | (true, _, _) => exists x, x ∈ order /\ ~ acyclic_from graph x
  | (false, _, _) => forall x, x ∈ order -> acyclic_from graph x
  end.
Proof.
  revert visited. induction order as [|x order IH]; intros visited Hv; cbn.
  { by intros x ?%elem_of_nil. }
  pose proof (has_cycle_from_ok graph (graph_fuel graph) x ∅ visited (graph_fuel_enough graph ∅)) as Hs.
  destruct (has_cycle_from _ _ x ∅ visited) as [[[|] v] w]; cbn in Hs.
  { exists x. split; [by left|]. apply Hs; [set_solver|done]. }
  destruct Hs as (-> & Hsub & Hin & Hw); [set_solver|done|]. specialize (IH w Hw).
  destruct (any_cycle _ order ∅ w) as [[[|] v'] w'].
  - destruct IH as (y & Hy & Ha). exists y. split; [by right|done].
  - intros y [->|Hy]%elem_of_cons; [by apply Hw|by apply IH].
Qed.

Lemma wait_edge a b : NoDup (map on_id nodes) -> edge (wait_graph nodes) a b <-> waits a b.
Proof.
  intros Hnd. unfold edge, waits, wait_graph. change (node_by_id nodes) with (index_by on_id nodes).
  setoid_rewrite lookup_fmap. split.
  - intros (ds & Hd & Hb). destruct (index_by on_id nodes !! a) as [n|] eqn:Hn; [|done].
    injection Hd as <-. destruct (index_some _ _ _ _ Hn) as [Hin Hk]. eauto.
  - intros (n & Hin & <- & Hb). exists (waits_on nodes n).
    by rewrite (index_unique on_id nodes n Hnd Hin).
Qed.

Lemma reject_cycles_ok order :
  NoDup (map on_id nodes) -> closed -> (forall x, x ∈ order <-> x ∈ map on_id nodes) ->
  reject_cycles nodes order = Ok tt <-> forall a, ~ tc waits a a.
Proof.
  intros Hnd Hc Ho. unfold reject_cycles.
  rewrite (any_cycle_ext _ (has_cycle_from (wait_graph nodes) (graph_fuel (wait_graph nodes)))).
  2: { intros d v w Hd. by apply visit_node_search, Ho. }
  assert (acyclic (wait_graph nodes) <-> forall a, ~ tc waits a a) as <-.
  { unfold acyclic. split; intros Ha a Ht; apply (Ha a); revert Ht; apply tc_congruence with (f := id);
      intros x y; by apply wait_edge. }
  pose proof (any_search (wait_graph nodes) order ∅ ltac:(set_solver)) as Hs.
  destruct (any_cycle _ order ∅ ∅) as [[[|] v] w].
  - destruct Hs as (x & Hx & Hn). split; [done|]. intros Ha. exfalso. apply Hn. intros b _. apply Ha.
  - split; [|done]. intros _. apply acyclic_nodes. intros x Hx. apply Hs, Ho.
    unfold wait_graph in Hx. rewrite lookup_fmap, fmap_is_Some in Hx. by apply index_is_some in Hx.
Qed.
End check.

(** The workflow plans that can run. *)
Record workflow_ok (p : WorkflowPlan) : Prop := {
  wo_files : fan_out_max_files p <> 0;
  wo_dispatches : max_in_flight_dispatches p <> 0;
  wo_distinct : NoDup (map on_id (wp_nodes p));
  wo_provided : Forall (provided (wp_nodes p)) (wp_nodes p);
  wo_acyclic : forall a, ~ tc (waits (wp_nodes p)) a a;
}.

Lemma validate_ok p order :
  (forall x, x ∈ order <-> x ∈ map on_id (wp_nodes p)) ->
  validate p order = Ok tt <-> workflow_ok p.
Proof.
  intros Ho. unfold validate.
  destruct (fan_out_max_files p =? 0) eqn:Hf; [split; [done|intros []; lia]|].
  destruct (max_in_flight_dispatches p =? 0) eqn:Hd; [split; [done|intros []; lia]|].
  destruct (duplicate_node (wp_nodes p) ∅) as [id|] eqn:Hdup.
  { split; [done|]. intros [_ _ Hnd _ _]. enough (duplicate_node (wp_nodes p) ∅ = None) by congruence.
    apply duplicate_node_none. split; [done|set_solver]. }
  apply duplicate_node_none in Hdup as [Hnd _].
  destruct (check_each (check_node (wp_nodes p)) (wp_nodes p)) as [[]|e] eqn:Hc; cbn.
  - apply check_each_ok in Hc. setoid_rewrite check_node_ok in Hc. rewrite reject_cycles_ok by done.
    split; [intros Ha; constructor; (done || lia)|by intros []].
  - split; [done|]. intros [_ _ _ Hp _]. enough (check_each (check_node (wp_nodes p)) (wp_nodes p) = Ok tt) by congruence.
    apply check_each_ok. by setoid_rewrite check_node_ok.
Qed.

(** C37: The check the executor makes before it runs a workflow accepts exactly the
    workflows that can run: positive limits, distinct node names, dependencies
    and selected groups that exist, and no node that waits for itself, however
    long the chain and whatever the order in which the search meets the nodes. *)
Theorem workflow_valid_iff p order :
  (forall x, x ∈ order <-> x ∈ map on_id (wp_nodes p)) ->
  validate p order = Ok tt <-> workflow_ok p.
Proof. apply validate_ok. Qed.

(** ** What the bridge makes *)

Definition planned (ns : list PlanNode) : list PlanNode := List.filter (has_status Planned) ns.
Definition node_workflow_id (n : PlanNode) : bytes := policy_workflow_node_id (pn_node_id n).
Arguments policy_workflow_node_id : simpl never.
Arguments node_workflow_id : simpl never.
Definition operation_of (k : PlanOperationKind) : OperationKind :=
  match execution_operation k with Ok o => o | Err _ => OpRemux end.

Lemma execution_operation_ok k : executable_kind k = true -> execution_operation k = Ok (operation_of k).
Proof. by destruct k. Qed.
Lemma workflow_id_inj a b : policy_workflow_node_id a = policy_workflow_node_id b -> a = b.
Proof. unfold policy_workflow_node_id. intros H. by simplify_list_eq. Qed.

(** The ids of the nodes submitted. *)
Definition submitted_ids (ids : gmap bytes bytes) (ns : list PlanNode) : gmap bytes bytes :=
  fold_left (fun m n => <[pn_node_id n := node_workflow_id n]> m) (planned ns) ids.

Definition summary_after (m : PolicyExecutionSummary) (ns : list PlanNode) (m' : PolicyExecutionSummary) : Prop :=
  ps_submitted_node_count m' = ps_submitted_node_count m + count (has_status Planned) ns
  /\ ps_skipped_no_op_count m' = ps_skipped_no_op_count m + count (has_status NoOp) ns
  /\ ps_blocked_count m' = ps_blocked_count m + count (has_status Blocked) ns.

Definition bridge_step (b : Bridge) (ns : list PlanNode) (b' : Bridge) : Prop :=
  br_nodes b' = br_nodes b ++ map (fun n => workflow_node n (operation_of (pn_operation_kind n))) (planned ns)
  /\ br_ids b' = submitted_ids (br_ids b) ns
  /\ summary_after (br_summary b) ns (br_summary b').
Lemma bridge_step_nil b : bridge_step b [] b.
Proof. unfold bridge_step, summary_after, count. cbn. rewrite app_nil_r. split_and!; [done|done|lia..]. Qed.
Lemma bridge_step_app b n ns b1 b2 : bridge_step b [n] b1 -> bridge_step b1 ns b2 -> bridge_step b (n :: ns) b2.
Proof.
  intros (Hn1 & Hi1 & S1 & S2 & S3) (Hn2 & Hi2 & T1 & T2 & T3).
  assert (planned (n :: ns) = planned [n] ++ planned ns) as Hp.
  { unfold planned. by rewrite <- (List.filter_app _ [n]). }
  split_and!.
  - by rewrite Hn2, Hn1, <- app_assoc, Hp, map_app.
  - unfold submitted_ids in *. by rewrite Hi2, Hi1, Hp, fold_left_app.
  - assert (forall f, count f (n :: ns) = count f [n] + count f ns) as Hc.
    { intros f. rewrite !count_cons. change (count f []) with 0. lia. }
    unfold summary_after. rewrite !Hc. lia.
Qed.
Lemma bridge_node_ok b n :
  (pn_status n = Planned -> executable_kind (pn_operation_kind n) = true) ->
  exists b', bridge_node b n = Ok b' /\ bridge_step b [n] b'.
Proof.
  intros Hx. unfold bridge_node, bridge_step, summary_after, submitted_ids, planned, count, has_status.
  destruct (pn_status n) eqn:Hs.
  - rewrite execution_operation_ok by auto. eexists. split; [done|]. cbn -[workflow_node policy_workflow_node_id].
    rewrite Hs. repeat (case_bool_decide; try congruence). cbn. split_and!; [done|done|lia..].
  - eexists. split; [done|]. cbn. rewrite Hs. repeat (case_bool_decide; try congruence). cbn.
    rewrite app_nil_r. split_and!; [done|done|lia..].
  - eexists. split; [done|]. cbn. rewrite Hs. repeat (case_bool_decide; try congruence). cbn.
    rewrite app_nil_r. split_and!; [done|done|lia..].
Qed.
Lemma bridge_nodes_ok b ns :
  Forall (fun n => pn_status n = Planned -> executable_kind (pn_operation_kind n) = true) ns ->
  exists b', bridge_nodes b ns = Ok b' /\ bridge_step b ns b'.
Proof.
  intros Hx. revert b. induction Hx as [|n ns Hn _ IH]; intros b; [exists b; split; [done|apply bridge_step_nil]|].
  cbn. destruct (bridge_node_ok b n Hn) as (b1 & -> & H1). destruct (IH b1) as (b2 & H2 & Hs2).
  exists b2. split; [done|]. by eapply bridge_step_app.
Qed.

Lemma submitted_lookup ids ns x :
  submitted_ids ids ns !! x
  = if bool_decide (x ∈ map pn_node_id (planned ns)) then Some (policy_workflow_node_id x) else ids !! x.
Proof.
  unfold submitted_ids. generalize (planned ns) as l. clear ns. intros l. revert ids.
  induction l as [|n l IH]; intros ids; cbn; [done|]. rewrite IH.
  destruct (bool_decide (x ∈ map pn_node_id l)) eqn:Hl.
  - apply bool_decide_eq_true in Hl. rewrite bool_decide_eq_true_2; [done|by right].
  - apply bool_decide_eq_false in Hl. destruct (decide (pn_node_id n = x)) as [<-|Hne].
    + rewrite lookup_insert_eq, bool_decide_eq_true_2; [done|left].
    + rewrite lookup_insert_ne, bool_decide_eq_false_2; [done| |done].
      intros [?|?]%elem_of_cons; [congruence|done].
Qed.

(** *** Dependencies *)

Definition edge_ends (ids : gmap bytes bytes) (e : Edge) : option (bytes * bytes) :=
  from ← ids !! from_node_id e; to ← ids !! to_node_id e; Some (from, to).
Definition sources (ids : gmap bytes bytes) (edges : list Edge) (to : bytes) : list bytes :=
  omap (fun e => '(from, to') ← edge_ends ids e; if bool_decide (to' = to) then Some from else None) edges.

Lemma dependencies_lookup ids edges m to :
  default [] (fold_left (add_dependency ids) edges m !! to) = default [] (m !! to) ++ sources ids edges to.
Proof.
  revert m. induction edges as [|e edges IH]; intros m; cbn; [by rewrite app_nil_r|]. rewrite IH.
  unfold add_dependency, sources, edge_ends. cbn.
  destruct (ids !! from_node_id e) as [from|]; [|done]. destruct (ids !! to_node_id e) as [to'|]; [|done]. cbn.
  case_bool_decide as Ht.
  - subst. rewrite lookup_insert_eq. cbn. by rewrite <- app_assoc.
  - by rewrite lookup_insert_ne.
Qed.
Lemma assign_dependencies_map ns m :
  NoDup (map on_id ns) -> Forall (fun n => on_depends_on n = []) ns ->
  assign_dependencies ns m = map (fun n => with_dependencies n (default [] (m !! on_id n))) ns.
Proof.
  intros Hnd Hd. revert m. induction Hd as [|n ns Hn _ IH]; intros m; [done|]. cbn in *.
  apply NoDup_cons in Hnd as [Hnin Hnd]. destruct (m !! on_id n) as [ds|] eqn:Hm; cbn.
  - f_equal. rewrite IH by done. apply map_ext_in. intros k Hk%list_elem_of_In.
    rewrite lookup_delete_ne; [done|]. intros He. apply Hnin. rewrite He. by apply list_elem_of_fmap_2.
  - f_equal; [|by apply IH]. destruct n; cbn in *. by subst.
Qed.

Section bridge.
Context {hash : Blake3Hex} {unicode : UnicodeLowercase} {sizes : SerializedSize}.

Lemma build_edges_in p nodes e :
  NoDup (map cp_name (cp_phases p)) ->
  e ∈ build_phase_edges p nodes <->
  exists ph from to, ph ∈ cp_phases p /\ cp_name ph ∈ cp_phase_order p
    /\ from ∈ nodes /\ to ∈ nodes /\ pn_phase_name from ∈ depends_on ph /\ pn_phase_name to = cp_name ph
    /\ e = make_edge from to.
Proof.
  intros Hnd. unfold build_phase_edges, phase_edges. change (phases_by_name p) with (index_by cp_name (cp_phases p)).
  rewrite list_elem_of_In, in_flat_map. split.
  - intros (name & Hname & He). destruct (index_by cp_name (cp_phases p) !! name) as [ph|] eqn:Hph; [|done].
    destruct (index_some _ _ _ _ Hph) as [Hin <-]. apply in_flat_map in He as (d & Hd & He).
    apply in_flat_map in He as (from & Hf & He). apply in_map_iff in He as (to & <- & Ht).
    apply filter_In in Hf as [Hf <-%eqb_text_true]. apply filter_In in Ht as [Ht Hto%eqb_text_true].
    exists ph, from, to. by split_and!; try done; apply list_elem_of_In.
  - intros (ph & from & to & Hin & Ho & Hf & Ht & Hd & Hto & ->). exists (cp_name ph).
    rewrite (index_unique cp_name) by done. split; [by apply list_elem_of_In|].
    apply in_flat_map. exists (pn_phase_name from). split; [by apply list_elem_of_In|].
    apply in_flat_map. exists from. split.
    + apply filter_In. split; [by apply list_elem_of_In|by apply eqb_text_true].
    + apply in_map, filter_In. split; [by apply list_elem_of_In|by apply eqb_text_true].
Qed.

(** A policy whose phases are in an order in which they can run. *)
Record phases_ordered (p : CompiledPolicy) : Prop := {
  po_names : NoDup (map cp_name (cp_phases p));
  po_order : Permutation (cp_phase_order p) (map cp_name (cp_phases p));
  po_depends : forall ph d, ph ∈ cp_phases p -> d ∈ depends_on ph -> before (cp_phase_order p) d (cp_name ph);
}.
Lemma ordered_declared p : phases_ordered p -> phases_declared p.
Proof.
  intros [_ Hp _] name Hn Hf. rewrite Hp in Hn. apply list_elem_of_fmap in Hn as (ph & -> & Hin).
  apply list_elem_of_In in Hin. pose proof (List.find_none _ _ Hf ph Hin) as Hne. cbn in Hne.
  by rewrite (proj2 (eqb_text_true _ _) eq_refl) in Hne.
Qed.

(** The nodes of a workflow, with what they wait for. *)
Definition bridged (ids : gmap bytes bytes) (edges : list Edge) (n : PlanNode) : OperationNode :=
  with_dependencies (workflow_node n (operation_of (pn_operation_kind n)))
    (sources ids edges (node_workflow_id n)).

Lemma planned_in n ns : n ∈ planned ns <-> n ∈ ns /\ pn_status n = Planned.
Proof.
  unfold planned, has_status. rewrite !list_elem_of_In, filter_In.
  by rewrite bool_decide_eq_true.
Qed.

Lemma NoDup_workflow_ids ns : NoDup (map pn_node_id ns) -> NoDup (map node_workflow_id (planned ns)).
Proof.
  intros Hnd. apply (NoDup_map_filter _ (has_status Planned)) in Hnd. fold (planned ns) in Hnd.
  unfold node_workflow_id. rewrite <- (map_map pn_node_id policy_workflow_node_id).
  apply NoDup_fmap_2; [|done]. intros a b. apply workflow_id_inj.
Qed.

Section of_plan.
Context (p : CompiledPolicy) (ns : list PlanNode).
Hypothesis ordered : phases_ordered p.
Hypothesis distinct : NoDup (map pn_node_id ns).
Hypothesis placed : Forall (fun n => pn_phase_name n ∈ cp_phase_order p) ns.

Definition phase_depends (m n : PlanNode) : Prop :=
  exists ph, ph ∈ cp_phases p /\ cp_name ph = pn_phase_name n /\ pn_phase_name m ∈ depends_on ph.
Definition plan_ids : gmap bytes bytes := submitted_ids ∅ ns.
Definition workflow_nodes : list OperationNode :=
  map (bridged plan_ids (build_phase_edges p ns)) (planned ns).

Lemma sources_in n b :
  n ∈ planned ns ->
  b ∈ sources plan_ids (build_phase_edges p ns) (node_workflow_id n) <->
  exists m, m ∈ planned ns /\ b = node_workflow_id m /\ phase_depends m n.
Proof.
  intros Hn. unfold sources, plan_ids. rewrite list_elem_of_omap. setoid_rewrite (build_edges_in _ _ _ (po_names _ ordered)).
  split.
  - intros (e & (ph & from & to & Hph & Ho & Hf & Ht & Hd & Hto & ->) & He). unfold edge_ends in He.
    cbn in He. rewrite !submitted_lookup, !lookup_empty in He.
    destruct (bool_decide (pn_node_id from ∈ _)) eqn:Hfrom; [|done].
    destruct (bool_decide (pn_node_id to ∈ _)) eqn:Htop; [|done]. cbn in He.
    apply bool_decide_eq_true in Hfrom, Htop. case_bool_decide as Hid; [|done]. injection He as <-. apply workflow_id_inj in Hid.
    apply list_elem_of_fmap in Hfrom as (m & Hm & Hmp). apply list_elem_of_fmap in Htop as (n' & Hn' & Hnp).
    pose proof Hmp as [Hmin _]%planned_in. pose proof Hn as [Hnin _]%planned_in.
    assert (from = m) as -> by (by apply (NoDup_map_inj pn_node_id ns)).
    assert (to = n) as -> by (by apply (NoDup_map_inj pn_node_id ns)).
    exists m. split_and!; [done|done|]. exists ph. done.
  - intros (m & Hm & -> & ph & Hph & Hname & Hd). exists (make_edge m n).
    pose proof Hm as [Hmin _]%planned_in. pose proof Hn as [Hnin _]%planned_in. split.
    + exists ph, m, n. split_and!; try done. rewrite Hname. rewrite Forall_forall in placed. by apply placed.
    + unfold edge_ends. cbn. rewrite !submitted_lookup.
      rewrite !bool_decide_eq_true_2 by (by apply list_elem_of_fmap_2). cbn.
      by rewrite bool_decide_eq_true_2.
Qed.

Lemma workflow_waits a b :
  waits workflow_nodes a b <->
  exists n m, n ∈ planned ns /\ m ∈ planned ns /\ a = node_workflow_id n /\ b = node_workflow_id m
    /\ phase_depends m n.
Proof.
  unfold waits, workflow_nodes. split.
  - intros (w & (n & -> & Hn)%list_elem_of_fmap & <- & Hb). unfold waits_on in Hb. cbn in Hb.
    rewrite app_nil_r in Hb. apply sources_in in Hb as (m & Hm & -> & Hd); [|done]. by exists n, m.
  - intros (n & m & Hn & Hm & -> & -> & Hd). exists (bridged plan_ids (build_phase_edges p ns) n).
    split_and!; [by apply list_elem_of_fmap_2|done|].
    unfold waits_on. cbn. rewrite app_nil_r. apply sources_in; [done|]. by exists m.
Qed.

Lemma depends_before m n : phase_depends m n -> before (cp_phase_order p) (pn_phase_name m) (pn_phase_name n).
Proof. intros (ph & Hin & <- & Hd). by apply (po_depends _ ordered). Qed.
Lemma before_trans order a b c : NoDup order -> before order a b -> before order b c -> before order a c.
Proof.
  intros Hnd (i & j & Hi & Hj & Hij) (j' & k & Hj' & Hk & Hjk).
  rewrite (NoDup_lookup _ _ _ _ Hnd Hj' Hj) in Hjk. exists i, k. split_and!; [done|done|lia].
Qed.
Lemma before_irrefl order a : NoDup order -> ~ before order a a.
Proof. intros Hnd (i & j & Hi & Hj & Hij). rewrite (NoDup_lookup _ _ _ _ Hnd Hi Hj) in Hij. lia. Qed.

Lemma planned_inj n m : n ∈ planned ns -> m ∈ planned ns -> pn_node_id n = pn_node_id m -> n = m.
Proof. intros [Hn _]%planned_in [Hm _]%planned_in. by apply (NoDup_map_inj pn_node_id ns). Qed.

Lemma workflow_acyclic a : ~ tc (waits workflow_nodes) a a.
Proof.
  assert (NoDup (cp_phase_order p)) as Hnd by (rewrite (po_order _ ordered); apply (po_names _ ordered)).
  assert (forall a b, tc (waits workflow_nodes) a b ->
    exists n m, n ∈ planned ns /\ m ∈ planned ns /\ a = node_workflow_id n /\ b = node_workflow_id m
      /\ before (cp_phase_order p) (pn_phase_name m) (pn_phase_name n)) as Ht.
  { induction 1 as [x y (n & m & Hn & Hm & -> & -> & Hd%depends_before)%workflow_waits
                   |x y z (n & m & Hn & Hm & -> & -> & Hd%depends_before)%workflow_waits _
                      (n' & m' & Hn' & Hm' & He & -> & Hb)].
    - by exists n, m.
    - exists n, m'. split_and!; try done. apply workflow_id_inj in He.
      assert (n' = m) as -> by (by apply planned_inj).
      by eapply before_trans. }
  intros (n & m & Hn & Hm & He & Hid & Hb)%Ht. rewrite He in Hid. apply workflow_id_inj in Hid.
  assert (n = m) as -> by (by apply planned_inj).
  by eapply before_irrefl.
Qed.

Lemma workflow_nodes_provided : Forall (provided workflow_nodes) workflow_nodes.
Proof.
  apply Forall_forall. intros w (n & -> & Hn)%list_elem_of_fmap. split; cbn; [|by intros g ?%elem_of_nil].
  intros d (m & Hm & -> & _)%sources_in; [|done]. unfold workflow_nodes. rewrite map_map. cbn.
  by apply list_elem_of_fmap_2.
Qed.
Lemma workflow_nodes_ids : map on_id workflow_nodes = map node_workflow_id (planned ns).
Proof. unfold workflow_nodes. by rewrite map_map. Qed.

Lemma bridged_nodes :
  apply_plan_dependencies (build_phase_edges p ns) plan_ids
    (map (fun n => workflow_node n (operation_of (pn_operation_kind n))) (planned ns)) = workflow_nodes.
Proof.
  unfold apply_plan_dependencies. rewrite assign_dependencies_map.
  - rewrite map_map. apply map_ext. intros n. unfold bridged. f_equal.
    by rewrite dependencies_lookup, lookup_empty.
  - rewrite map_map. by apply NoDup_workflow_ids.
  - apply Forall_forall. by intros w (n & -> & _)%list_elem_of_fmap.
Qed.
End of_plan.

(** ** From a plan to a workflow *)

(** What is made of a plan: nothing when nothing is planned, and otherwise a
    workflow with a node for each planned node, that waits for exactly the
    planned nodes of the phases its phase depends on. *)
Definition runs_plan (p : CompiledPolicy) (ns : list PlanNode) (shape : WorkflowExecutionShape)
    (w : option WorkflowPlan) : Prop :=
  match w with
  | None => planned ns = []
  | Some w =>
      wp_nodes w <> [] /\ fan_out_max_files w = ws_max_files shape
      /\ max_in_flight_dispatches w = ws_max_in_flight_dispatches shape
      /\ Forall2 (fun n o =>
           on_id o = node_workflow_id n /\ on_policy_target o = Some (pn_target n)
           /\ on_operation_payload o = pn_operation_payload n
           /\ execution_operation (pn_operation_kind n) = Ok (on_operation o)
           /\ forall b, b ∈ on_depends_on o <->
                exists m, m ∈ planned ns /\ b = node_workflow_id m /\ phase_depends p m n)
           (planned ns) (wp_nodes w)
  end.

Lemma plan_bridged r plan report_id shape :
  phases_ordered (pr_policy r) -> planned_by r plan -> NoDup (map pn_node_id (ep_nodes plan)) ->
  exists e, workflow_plan_from_compliance plan report_id shape = Ok e
    /\ ps_submitted_node_count (pe_summary e) = executable_node_count (ep_summary plan)
    /\ ps_skipped_no_op_count (pe_summary e) = no_op_node_count (ep_summary plan)
    /\ ps_blocked_count (pe_summary e) = blocked_node_count (ep_summary plan)
    /\ (is_empty (workflow_nodes (pr_policy r) (ep_nodes plan)) = true -> pe_workflow e = None)
    /\ (is_empty (workflow_nodes (pr_policy r) (ep_nodes plan)) = false ->
        pe_workflow e = Some {| wp_id := lit "policy-" ++ report_id; wp_seed := 6;
          wp_nodes := workflow_nodes (pr_policy r) (ep_nodes plan);
          fan_out_max_files := ws_max_files shape;
          max_in_flight_dispatches := ws_max_in_flight_dispatches shape;
          base_duration_ms := 5; jitter_ms := 0 |}).
Proof.
  intros Hord (b & [_ _ _ Hx] & (Hns & _ & Hsum & Hed)%plan_finish_ok)%planned_builder Hnd. rewrite Hns in *.
  destruct (bridge_nodes_ok empty_bridge (pb_nodes b) Hx) as (br & Hbr & Hnodes & Hids & S1 & S2 & S3).
  destruct (summary_counts (pb_nodes b)) as [C1 C2 C3 _ _].
  unfold workflow_plan_from_compliance. rewrite Hns, Hbr. cbn -[apply_plan_dependencies is_empty].
  rewrite Hed, Hnodes, Hids, Hsum, C1, C2, C3. cbn -[apply_plan_dependencies is_empty].
  pose proof (bridged_nodes (pr_policy r) (pb_nodes b) Hnd) as Hw. unfold plan_ids in Hw. cbn in Hw.
  rewrite Hw. eexists. split; [done|]. cbn in *. split_and!; [lia..| |]; by intros ->.
Qed.

Lemma executable_planned r plan n :
  planned_by r plan -> n ∈ planned (ep_nodes plan) -> executable_kind (pn_operation_kind n) = true.
Proof.
  intros (b & [_ _ _ Hx] & (-> & _)%plan_finish_ok)%planned_builder [Hn Hs]%planned_in.
  rewrite Forall_forall in Hx. by apply Hx.
Qed.
Lemma plan_placed r plan :
  planned_by r plan -> Forall (fun n => pn_phase_name n ∈ cp_phase_order (pr_policy r)) (ep_nodes plan).
Proof.
  intros (b & [_ _ Hp _] & (-> & _)%plan_finish_ok)%planned_builder. eapply Forall_impl; [exact Hp|].
  by intros n [? _].
Qed.

(** C14: Every plan of a policy whose phases are ordered can be run. The bridge to
    the executor takes it whatever it holds - no kind of operation it does not
    know is ever planned - and what it makes is a workflow the executor accepts,
    whatever the order in which its check meets the nodes: one node for each
    planned node, with its operation and payload, waiting for exactly the planned
    nodes of the phases its own phase depends on, and never for itself. Nothing
    is run when nothing is planned. Nodes are told apart by their truncated
    hashes, so the plan must have no two nodes with one id. *)
Theorem plan_runs_as_workflow r plan report_id shape :
  phases_ordered (pr_policy r) -> planned_by r plan -> NoDup (map pn_node_id (ep_nodes plan)) ->
  ws_max_files shape <> 0 -> ws_max_in_flight_dispatches shape <> 0 ->
  exists e, workflow_plan_from_compliance plan report_id shape = Ok e
    /\ ps_submitted_node_count (pe_summary e) = executable_node_count (ep_summary plan)
    /\ ps_skipped_no_op_count (pe_summary e) = no_op_node_count (ep_summary plan)
    /\ ps_blocked_count (pe_summary e) = blocked_node_count (ep_summary plan)
    /\ runs_plan (pr_policy r) (ep_nodes plan) shape (pe_workflow e)
    /\ forall w order, pe_workflow e = Some w -> (forall x, x ∈ order <-> x ∈ map on_id (wp_nodes w)) ->
         validate w order = Ok tt.
Proof.
  intros Hord Hby Hnd Hf Hi. pose proof (plan_placed r plan Hby) as Hpl.
  destruct (plan_bridged r plan report_id shape Hord Hby Hnd) as (e & He & S1 & S2 & S3 & Hnone & Hsome).
  exists e. split_and!; try done.
  - unfold runs_plan. destruct (is_empty (workflow_nodes (pr_policy r) (ep_nodes plan))) eqn:Hemp.
    + rewrite Hnone by done. unfold workflow_nodes in Hemp. by destruct (planned (ep_nodes plan)).
    + rewrite Hsome by done. cbn. split_and!; try done; [by intros Hn; rewrite Hn in Hemp|].
      apply Forall2_fmap_r, Forall2_same_length_lookup_2; [done|]. intros i n n' Hn Hn'.
      rewrite Hn in Hn'. injection Hn' as <-. apply list_elem_of_lookup_2 in Hn. cbn. split_and!; try done.
      * by apply execution_operation_ok, (executable_planned r plan).
      * intros b. by apply sources_in.
  - intros w order Hw Ho. apply validate_ok; [done|].
    destruct (is_empty (workflow_nodes (pr_policy r) (ep_nodes plan))) eqn:Hemp.
    { rewrite Hnone in Hw by done. done. }
    rewrite Hsome in Hw by done. injection Hw as <-. constructor; cbn; try done.
    + rewrite workflow_nodes_ids. by apply NoDup_workflow_ids.
    + by apply workflow_nodes_provided.
    + by apply workflow_acyclic.
Qed.
End bridge.
