(* ===== verification/MediaWitnesses.v ===== *)
(** * Plans and workers on concrete files

    A snapshot with a video, two audio and a subtitle stream: the theorems about
    remuxes at plans for it, and a run of the worker on it. A file with a video and
    two audio streams whose names differ in case only, and the file with a companion
    more: the theorems about audio plans and about the conditions of compiled
    policies at them. A film with an H.264 video, an audio stream and a cover, the
    file a transcode to HEVC makes of it, and a machine on which [ffprobe] prints
    what it prints of the two; the theorems about probes and video transcodes at
    them. A policy of two phases, the plan and the workflow made of it for the film;
    the theorems about plans and workflows at them. *)

From Stdlib Require Import ZArith Lia Bool String Ascii.
From stdpp Require Import base gmap strings list sorting.
From S2P Require Import Prelude Json Vocab Bytes PolicySyntax PolicyParser TrackFilters.
From S2P Require Import PolicyCompiled PolicyConditions PolicyLower PolicyCompile.
From S2P Require Import PolicyComplete PolicyWitnesses PlanModel PlanStreams FilterJson.
From S2P Require Import PlanPayload PlanRemux RemuxSelection RemuxWorker RemuxAccepted.
From S2P Require Import RemuxDispatch RemuxCorrect RemuxVerified PlanConditions.
From S2P Require Import PolicyEligible AudioStreams AudioPayload AudioCompat.
From S2P Require Import PlanAudio AudioPlans.

Open Scope string_scope.
Open Scope list_scope.
Open Scope Z_scope.

#[local] Instance no_durations : DurationMillis := fun _ => None.

Definition stream (id kind : string) (index : Z) (language : string) (is_default is_forced : bool) : Json :=
  JObj [("id", JStr id); ("index", JInt index); ("kind", JStr kind); ("language", JStr language);
        ("disposition", JObj [("default", JBool is_default); ("forced", JBool is_forced)])].
Definition movie : MediaSnapshot := {|
  ms_id := 7; ms_file_version_id := 3;
  ms_payload := JObj [("container", JObj [("format_name", JStr "matroska,webm")]);
    ("streams", JArr [stream "v0" "video" 0 "und" true false; stream "a1" "audio" 1 "jpn" false false;
                      stream "a2" "audio" 2 "eng" true false; stream "s3" "subtitle" 3 "eng" false true])] |}.

Definition eng : TrackFilter := FLanguageIn [lit "eng"].
(** Drop subtitles, put the English audio first and make it the default. *)
Definition english_first : list CompiledOperation :=
  [RemoveTracks Subtitle None; ReorderTracks [Video; Audio] (Some eng); SetDefaults Audio DPreserve (Some eng)].
(** What already holds of [movie]. *)
Definition as_it_is : list CompiledOperation :=
  [KeepTracks Audio None; ReorderTracks [Video; Audio; Subtitle] None; SetDefaults Audio DPreserve (Some eng);
   SetDefaults Subtitle DNone None].

Definition facts_of (snapshot : MediaSnapshot) : list SnapshotStreamFact :=
  match stream_facts (planning_input 1 snapshot) with Ok facts => facts | Err _ => [] end.
Definition resolution_of (operations : list CompiledOperation) : RemuxResolution :=
  match resolve_remux_operations (planning_input 1 movie) operations [] with
  | Ok r => r
  | Err _ => {| rr_payload := base_remux_payload (planning_input 1 movie) operations;
                rr_changed := true; rr_untagged := false |}
  end.
Definition selection_for (operations : list CompiledOperation) : RemuxSelection :=
  match selection_from_payload_and_snapshot (into_value (rr_payload (resolution_of operations))) movie with
  | Ok sel => sel
  | Err _ => {| keep_streams := []; default_streams := []; clear_default_streams := []; sel_track_order := [];
                head_streams := []; audio_head_stream := None; forced_streams := []; clear_forced_streams := [] |}
  end.

Definition track (i : Z) (k : MkvmergeTrackKind) (d f : bool) (fingerprint : string) : Z * MkvmergeTrack :=
  (i, {| tr_id := i; tr_kind := k; tr_default := d; tr_forced := f; tr_commentary := None;
         tr_fingerprint := lit fingerprint |}).
Definition movie_tracks : MkvmergeTrackMapping :=
  [track 0 TkVideo true false "v"; track 1 TkAudio false false "jpn"; track 2 TkAudio true false "eng";
   track 3 TkSubtitle false true "sub"].
Definition facts_as_expected : RemuxObservedFacts :=
  {| of_size_bytes := 1000; of_content_hash := lit "blake3:00"; of_modified_at := None; of_local_file_key := None |}.
Definition request_with (sel : RemuxSelection) : RemuxRequest := {|
  in_path := lit "/in.mkv"; in_expected := facts_as_expected; out_staging_root := lit "/stage";
  out_path := lit "/stage/out.mkv"; out_container := lit "mkv"; out_overwrite := false; req_selection := sel |}.

(** Equal elements of a concrete list. *)
Ltac each_element :=
  let H := fresh in
  intros H; apply list_elem_of_In in H; cbn in H; repeat (destruct H as [H|H]; [try discriminate H; try inversion H; subst|]); try done.

Lemma movie_identified : identifies movie_tracks (facts_of movie).
Proof.
  split.
  - intros s Hs. apply list_elem_of_In in Hs. cbn in Hs.
    repeat (destruct Hs as [<-|Hs]; [eexists; split; reflexivity|]). done.
  - intros i t Ht. apply list_elem_of_In in Ht. cbn in Ht.
    repeat (destruct Ht as [[= <- <-]|Ht]; [split; [reflexivity|]|]); try done.
    + eexists. split; [left|reflexivity].
    + eexists. split; [right; left|reflexivity].
    + eexists. split; [right; right; left|reflexivity].
    + eexists. split; [right; right; right; left|reflexivity].
Qed.
Lemma english_first_plannable : plannable movie english_first.
Proof.
  split; try reflexivity.
  - repeat constructor.
  - intros t s f. each_element.
  - intros s f. each_element.
Qed.
Lemma as_it_is_plannable : plannable movie as_it_is.
Proof.
  split; try reflexivity.
  - repeat constructor.
  - intros t s f. each_element.
  - intros s f. each_element.
Qed.

(** ** The theorems on it *)

Lemma remux_payload_roundtrip_witness :
  try_from_value (into_value (rr_payload (resolution_of english_first)))
  = Ok (rr_payload (resolution_of english_first)).
Proof.
  refine (proj1 (remux_payload_roundtrip (rr_payload (resolution_of english_first)) _)).
  split; try (vm_compute; reflexivity).
  - apply (bool_decide_unpack _). vm_compute. exact I.
  - right. vm_compute. reflexivity.
Defined.

Lemma remux_selection_accepted_witness :
  worker_accepts (request_with (selection_for english_first)) movie_tracks
  /\ exists ord, ordered_keep_streams (selection_for english_first) movie_tracks = Ok ord
       /\ ord ≡ₚ keep_streams (selection_for english_first).
Proof.
  refine (remux_selection_accepted (into_value (rr_payload (resolution_of english_first))) movie
            (selection_for english_first) (facts_of movie) movie_tracks
            (request_with (selection_for english_first)) _ _ movie_identified eq_refl eq_refl _);
    vm_compute; reflexivity.
Defined.


Lemma remux_noop_preserves_witness :
  exists sel,
    selection_from_payload_and_snapshot (into_value (rr_payload (resolution_of as_it_is))) movie = Ok sel
    /\ map ref_index (keep_streams sel) = [0; 1; 2; 3].
Proof.
  destruct (remux_noop_preserves movie 1 as_it_is [] (facts_of movie) (resolution_of as_it_is) movie_tracks
              as_it_is_plannable) as (sel & Hsel & Hkeep & _);
    [vm_compute; reflexivity|reflexivity|vm_compute; reflexivity|vm_compute; reflexivity|exact movie_identified|].
  exists sel. split; [exact Hsel|]. rewrite Hkeep. vm_compute. reflexivity.
Defined.

(** ** A run of the worker *)

#[local] Instance plain_fingerprints : FingerprintText := {|
  display_json := fun j => match j with JStr s => lit s | _ => [] end;
  debug_text := fun t => t;
  sorted_lines := join [newline];
|}.

Definition identify_track (id : Z) (kind language : string) (is_default is_forced : bool) : Json :=
  JObj [("id", JInt id); ("type", JStr kind);
        ("properties", JObj [("language", JStr language); ("default_track", JBool is_default);
                             ("forced_track", JBool is_forced)])].
Definition identify_file (tracks : list Json) : Json :=
  JObj [("container", JObj [("type", JStr "Matroska")]); ("tracks", JArr tracks)].
Definition english_run : RemuxRun := {|
  run_staging_ok := true;
  run_output_absent := true;
  run_input_pre := Ok facts_as_expected;
  run_identify_input := Ok (identify_file [identify_track 0 "video" "und" true false;
    identify_track 1 "audio" "jpn" false false; identify_track 2 "audio" "eng" true false;
    identify_track 3 "subtitles" "eng" false true]);
  run_mkvmerge := fun _ => Ok tt;
  run_input_post := Ok facts_as_expected;
  run_output := Ok {| of_size_bytes := 900; of_content_hash := lit "blake3:01"; of_modified_at := None;
                      of_local_file_key := None |};
  run_identify_output := Ok (identify_file [identify_track 0 "audio" "eng" true false;
    identify_track 1 "video" "und" true false; identify_track 2 "audio" "jpn" false false]);
|}.
Definition english_result : RemuxResult :=
  match handle_remux english_run (request_with (selection_for english_first)) with
  | Ok r => r
  | Err _ => {| input_pre := facts_as_expected; input_post := facts_as_expected;
                output_facts := facts_as_expected; output_container := []; kept_snapshot_stream_ids := [];
                default_snapshot_stream_ids := [] |}
  end.

(** ** Audio plans *)

(** A hash that keeps the end of its input: enough to tell these streams apart. *)
Definition hex_digits (c : ascii) : bytes :=
  let digit n := default nul_byte (lit "0123456789abcdef" !! n) in
  [digit (nat_of_ascii c / 16)%nat; digit (nat_of_ascii c mod 16)%nat].
#[local] Instance tail_hash : Blake3Hex :=
  fun preimage => flat_map hex_digits (rev (take 8 (rev preimage))).

Definition sound (id : string) (index : Z) (codec : string) (channels : Z) (layout language : string)
    (more : list (string * Json)) : Json :=
  JObj ([("id", JStr id); ("index", JInt index); ("kind", JStr "audio"); ("codec_name", JStr codec);
         ("channels", JInt channels); ("channel_layout", JStr layout); ("language", JStr language);
         ("disposition", JObj [("default", JBool false); ("forced", JBool false); ("comment", JBool false);
                               ("commentary", JBool false)])] ++ more).
Definition concert_streams : list Json :=
  [JObj [("id", JStr "v0"); ("index", JInt 0); ("kind", JStr "video"); ("codec_name", JStr "h264")];
   sound "Stage" 1 "dts" 6 "5.1" "eng" []; sound "stage" 2 "flac" 2 "stereo" "fra" []].
Definition concert_with (streams : list Json) : MediaSnapshot :=
  {| ms_id := 7; ms_file_version_id := 3;
     ms_payload := JObj [("container", JObj [("format_name", JStr "matroska,webm")]);
                         ("streams", JArr streams)] |}.
Definition concert : MediaSnapshotInput := planning_input 1 (concert_with concert_streams).
Definition op_id : bytes := lit "phase-0-op-1".

Definition lossless : TrackFilter := FOr [FCodecIn [lit "flac"]; FNot (FChannels OpLt 6)].


Lemma extraction_names_witness :
  exists outputs, extract_audio_outputs concert None op_id (lit "opus") = Ok outputs
  /\ NoDup (map (fun o => lowercase (eo_name_suffix o)) outputs) /\ length outputs = 2%nat.
Proof.
  destruct (extract_audio_outputs concert None op_id (lit "opus")) as [outputs|e] eqn:E; [|evaluate E].
  exists outputs. split; [reflexivity|].
  destruct (proj2 (extraction_names concert None op_id (lit "opus")) outputs E) as [H _].
  split; [exact H|]. vm_compute in E. injection E as <-. reflexivity.
Defined.

(** Each of the four operations on audio is planned, and its payload read back. *)
Definition audio_operations : list CompiledOperation :=
  [TranscodeAudio (lit "aac") (lit "mkv") (Some lossless); ExtractAudio (lit "opus") (lit "ogg") None;
   SynthesizeAudio (lit "aac") (lit "mkv") 2 (Some (FChannels OpGte 6)); EnsureAudioCompatibility].
Definition planned_audio (o : CompiledOperation) : OperationPlan * AudioOperationPayload :=
  match plan_audio (lit "sound") concert op_id o with
  | Some r => r
  | None => (plan_transcode (lit "sound") concert [] [] None, transcode_payload concert [] [] None)
  end.
Lemma audio_plan_accepted_witness :
  Forall (fun o => op_status (planned_audio o).1 = Planned
                   /\ audio_try_from_execution_value (op_payload (planned_audio o).1) = Ok (planned_audio o).2)
    audio_operations.
Proof.
  assert (forall o, plan_audio (lit "sound") concert op_id o = Some (planned_audio o) ->
    op_status (planned_audio o).1 = Planned -> audio_operation_ok o = true ->
    no_collision concert op_id o ->
    op_status (planned_audio o).1 = Planned
    /\ audio_try_from_execution_value (op_payload (planned_audio o).1) = Ok (planned_audio o).2) as Hall.
  { intros o Hp Hst Hok Hnc. split; [exact Hst|].
    rewrite (surjective_pairing (planned_audio o)) in Hp.
    refine (proj2 (audio_plan_accepted (lit "sound") concert op_id o _ _ 7 Hp Hst _ _ _ Hok Hnc));
      vm_compute; reflexivity. }
  apply Forall_cons_2; [|apply Forall_cons_2; [|apply Forall_cons_2; [|apply Forall_cons_2; [|constructor]]]];
    apply Hall; try (vm_compute; reflexivity); try exact I.
  - intros selected E. vm_compute in E. injection E as <-.
    apply (bool_decide_unpack _). vm_compute. exact I.
  - intros r E. vm_compute in E. injection E as <-.
    apply (bool_decide_unpack _). vm_compute. exact I.
Defined.

(** The companion of the six-channel stream. *)
Definition companion : Json :=
  sound (string_of_list_ascii (synthesis_companion_id op_id (lit "Stage"))) 3 "eac3" 6 "5.1(side)" "eng"
    [("compatibility_source_snapshot_stream_id", JStr "Stage")].
Definition concert' : MediaSnapshotInput := planning_input 1 (concert_with (concert_streams ++ [companion])).
Ltac each_stream Hs := apply list_elem_of_In in Hs; cbn in Hs; destruct Hs as [<-|[<-|[<-|[]]]].


(** ** A policy with conditions *)

Ltac no_keyword_alone :=
  match goal with
  | |- ~ has_bare _ =>
      let H := fresh in
      intros H; inversion H as [? E|? ? parts part [-> | ->] E Hin Hb|? inner E Hb]; subst; clear H;
      vm_compute in E; try discriminate E
  end.
Lemma compiled_policy_eligible_witness :
  match compile_policy no_hash demo_policy with
  | Ok out => stream_condition_eligibility_diagnostics (co_policy out) = []
  | Err _ => False
  end.
Proof.
  destruct (compile_policy no_hash demo_policy) as [out|e] eqn:E; [|evaluate E].
  apply (compiled_policy_eligible no_hash demo_policy out E).
  clear E. intros ast ph E Hin. vm_compute in E. injection E as <-.
  apply list_elem_of_In in Hin. destruct Hin as [<-|[<-|[]]]; (split; [vm_compute; reflexivity|]);
    (match goal with |- no_bare ?texts => let l := eval vm_compute in texts in change (no_bare l) end);
    unfold no_bare; repeat (apply Forall_cons_2; [no_keyword_alone|]); constructor.
Defined.

(** * Video transcodes and plans *)

From S2P Require Import Encoders Probe ProbeLaws PlanVideo VideoArgs VideoWorker.
From S2P Require Import VideoLaws VideoAgree Planner PlannerLaws Workflow.

#[local] Instance no_floats : F64Reading := {| f64_of_text := fun _ => None; f64_of_number := fun v => v |}.
#[local] Instance no_lowercase : UnicodeLowercase := fun c => c.
#[local] Instance no_millis : DurationMillis := fun _ => None.
#[local] Instance whole_contents : Blake3Hex := fun contents => contents.

(** ** The files *)

Definition flags (attached : Z) : Json := JObj [("default", JInt 0); ("forced", JInt 0); ("attached_pic", JInt attached)].
Definition video_of (codec : string) (level width height : Z) : Json :=
  JObj [("index", JInt 0); ("codec_name", JStr codec); ("profile", JStr "Main"); ("codec_type", JStr "video");
        ("width", JInt width); ("height", JInt height); ("pix_fmt", JStr "yuv420p"); ("level", JInt level);
        ("disposition", flags 0)].
Definition sound_track : Json :=
  JObj [("index", JInt 1); ("codec_name", JStr "aac"); ("codec_type", JStr "audio"); ("sample_rate", JStr "48000");
        ("channels", JInt 2); ("disposition", flags 0); ("tags", JObj [("language", JStr "eng")])].
Definition poster : Json :=
  JObj [("index", JInt 2); ("codec_name", JStr "mjpeg"); ("codec_type", JStr "video"); ("width", JInt 600);
        ("height", JInt 900); ("disposition", flags 1);
        ("tags", JObj [("filename", JStr "cover.jpg"); ("mimetype", JStr "image/jpeg")])].
Definition probe_of (video : Json) : Json :=
  JObj [("streams", JArr [video; sound_track; poster]);
        ("format", JObj [("format_name", JStr "matroska,webm"); ("bit_rate", JStr "8000000")])].
Definition film : Json := probe_of (video_of "h264" 41 1920 1080).
Definition encoded : Json := probe_of (video_of "hevc" 123 1280 720).

Definition hevc_profile (level : option bytes) : TranscodeVideoProfile := {|
  t_name := lit "hevc-720"; t_target_codec := lit "hevc"; t_encoder := lit "libx265"; t_crf := Some 20; t_cq := None;
  t_qp := None; t_bitrate_kbps := None; t_preset := Some (lit "medium"); t_tune := None;
  t_codec_profile := Some (lit "main"); t_codec_level := level; t_pixel_format := Some (lit "yuv420p");
  t_max_width := Some 1280; t_max_height := Some 720; t_decode := Software; t_copy_compatible := false |}.

Definition snapshot_of (raw : Json) : Json :=
  match normalize_ffprobe_json raw "7.1" "2026-01-01T00:00:00Z" with Ok j => j | Err _ => JNull end.
Definition stored (raw : Json) : MediaSnapshot := {| ms_id := 5; ms_file_version_id := 9; ms_payload := snapshot_of raw |}.

Lemma known_probe video codec level width height :
  video = video_of codec level width height -> is_u32 width = true -> is_u32 height = true ->
  ffprobe_output (probe_of video).
Proof.
  intros -> Hw Hh. split.
  - cbn. repeat constructor; cbn; try set_solver; try done; try (eexists; split; [reflexivity|done]);
      intros _ k; rewrite list_elem_of_In; cbn; intros [<-|[<-|[]]]; eexists; (split; [reflexivity|done]).
  - cbn. apply NoDup_ListNoDup. repeat constructor; cbn; intuition congruence.
Defined.
Lemma same_film : same_file film (snapshot_of film).
Proof.
  split; [by exists "7.1", "2026-01-01T00:00:00Z"|by eapply known_probe|].
  unfold images_flagged. vm_compute. repeat constructor; intros; done.
Defined.
Lemma same_encoded : same_file encoded (snapshot_of encoded).
Proof.
  split; [by exists "7.1", "2026-01-01T00:00:00Z"|by eapply known_probe|].
  unfold images_flagged. vm_compute. repeat constructor; intros; done.
Defined.

(** ** The machine *)

Definition plain_file : Metadata := {| is_file := true; is_dir := false; is_symlink := false; len := 4; modified := Some 0 |}.
Definition directory : Metadata := {| is_file := false; is_dir := true; is_symlink := false; len := 0; modified := None |}.
Definition printed (c : Command) : bytes :=
  if existsb (eqb_text (lit "/staging/out.mkv")) (args c) then lit "encoded" else lit "film".
(** The state says whether the output has been written. *)
#[local] Instance desk : MediaHost bool := {|
  symlink_metadata p := fun written =>
    if bool_decide (components p = [lit "staging"]) then (Ok directory, written)
    else if bool_decide (components p = [lit "staging"; lit "out.mkv"]) && negb written then (Err NotFound, written)
    else (Ok plain_file, written);
  canonicalize p := fun written => (Ok p, written);
  open_no_follow _ := fun written => (Ok 0, written);
  file_metadata _ := fun written => (Ok plain_file, written);
  read_to_end _ := fun written => (Ok (lit "abcd"), written);
  command_output c := fun written =>
    if eqb_text (program c) (lit "ffprobe")
    then (Ok {| status_code := Some 0; stdout := printed c; stderr := [] |}, written)
    else (Ok {| status_code := Some 0; stdout := []; stderr := [] |}, true);
  tempdir_in _ := fun written => (Ok (lit "/staging/voom-cover-x"), written);
  remove_tempdir _ := fun written => (Ok tt, written);
  caller_pid := lit "1";
  json_from_slice text := if eqb_text text (lit "encoded") then Some encoded else Some film;
  from_utf8_lossy text := text;
  format_modified _ := lit "1970-01-01T00:00:00Z" |}.

Definition worker_config : FfmpegConfig := {|
  ffmpeg_path := lit "ffmpeg"; ffprobe_path := lit "ffprobe"; provider_version := lit "7.1"; accelerator := None;
  available_video_encoders := [lit "libx265"] |}.
Definition order : TranscodeVideoRequest := {|
  in_path := lit "/media/film.mkv";
  in_expected := {| size_bytes := 4; content_hash := lit "blake3:abcd"; modified_at := None; local_file_key := None |};
  in_video_codec := None; in_video_pixel_format := None; out_staging_root := lit "/staging";
  out_path := lit "/staging/out.mkv"; out_container := lit "mkv"; out_video_codec := lit "hevc"; out_overwrite := false;
  rq_profile := hevc_profile None; rq_hardware_assignment := None; copy_video := false |}.

(** ** Witnesses *)


Lemma downscale_sound_witness :
  exists n d, 0 < n < d /\ scaled 1920 n d 1280 /\ scaled 800 n d 532.
Proof.
  destruct (downscale_sound (hevc_profile None) 1920 800) as (_ & _ & _ & _ & _ & n & d & Hnd & Hw & Hh & _);
    [done|done|vm_compute; split; discriminate|vm_compute; split; discriminate|]. by exists n, d.
Defined.

Definition seen : ObservedFacts := {|
  size_bytes := 4; content_hash := lit "blake3:abcd"; modified_at := Some (lit "1970-01-01T00:00:00Z");
  local_file_key := None |}.
Definition receipt : TranscodeVideoResult := {|
  r_provider := lit "ffmpeg"; r_provider_version := lit "7.1"; r_input_pre := seen; r_input_post := seen; r_output := seen;
  r_container := lit "mkv"; r_video_codec := lit "hevc"; r_width := 1280; r_height := 720; r_pixel_format := lit "yuv420p";
  r_hardware_assignment := None; r_copied_video := false |}.

Lemma planned_transcode_starts_witness :
  exists source, input_facts film = Ok source /\ ip_video_stream_count source = 1
  /\ check_source order worker_config source = Ok tt.
Proof.
  destruct (planned_transcode_starts film (snapshot_of film) 1 (stored film) order worker_config (lit "h264"))
    as (source & Hf & Hc & _); first [exact same_film|vm_compute; reflexivity|idtac].
  { split; [reflexivity|by left]. }
  exists source. split_and!; [done| |done]. vm_compute in Hf. injection Hf as <-. reflexivity.
Defined.


Lemma level_never_met_witness :
  transcode_video_shape (planning_input 1 (stored encoded)) (hevc_profile (Some (lit "4.1"))) (lit "mkv") <> Compliant.
Proof.
  apply (level_never_met encoded (snapshot_of encoded) 1 (stored encoded) (hevc_profile (Some (lit "4.1"))) (lit "mkv")
           (lit "4.1") (video_of "hevc" 123 1280 720) 123); first [exact same_encoded|vm_compute; reflexivity].
Defined.

(** ** A plan and its workflow *)

#[local] Instance small_inputs : SerializedSize := fun _ => Some 100.

Definition shrink : CompiledPhase := {|
  cp_name := lit "shrink"; depends_on := []; run_if := None; skip_if := None; on_error := None;
  cp_operations := [TranscodeVideo (lit "hevc") (lit "mkv") (Named (lit "hevc-720")) (Some (hevc_profile None))] |}.
Definition check : CompiledPhase := {|
  cp_name := lit "check"; depends_on := [lit "shrink"]; run_if := None; skip_if := None; on_error := None;
  cp_operations := [VerifyArtifact; ClearTags] |}.
Definition house : CompiledPolicy := {|
  policy_name := lit "house"; policy_slug := lit "house"; source_hash := lit "0"; schema_version := 2;
  cp_metadata := ∅; cp_config := CompiledConfig_default; cp_phases := [shrink; check];
  cp_phase_order := [lit "shrink"; lit "check"]; warnings := [] |}.
Definition shelf : PolicyInputSetDraft := {|
  is_slug := lit "shelf"; is_display_name := lit "Shelf"; is_schema_version := 1; source_kind := SourceImported;
  is_created_at := 0; is_description := None; fixture_labels := [lit "films"]; synthetic_targets := [];
  media_snapshots := [planning_input 1 (stored film)]; identity_evidence := []; bundle_targets := [];
  quality_profiles := []; input_issues := [] |}.
Definition tidy : PlanningRequest := {| pr_policy := house; pr_input := shelf; pr_context := PlanningContext_default |}.

Lemma house_declared : phases_declared house.
Proof. intros name Hn. cbn in Hn. repeat (apply elem_of_cons in Hn as [->|Hn]; [vm_compute; discriminate|]). by apply elem_of_nil in Hn. Defined.
Lemma house_ordered : phases_ordered house.
Proof.
  constructor; [apply (bool_decide_unpack _); vm_compute; exact I|reflexivity|].
  intros ph d Hph Hd. cbn in Hph. apply elem_of_cons in Hph as [->|Hph]; [by apply elem_of_nil in Hd|].
  apply list_elem_of_singleton in Hph as ->. apply list_elem_of_singleton in Hd as ->.
  exists 0%nat, 1%nat. split_and!; [reflexivity|reflexivity|lia].
Defined.
Lemma tidy_plan : exists plan, generate_plan tidy = Ok plan.
Proof. eexists. vm_compute. reflexivity. Defined.


Definition pair_of (a b : OperationNode) : WorkflowPlan := {|
  wp_id := lit "w"; wp_seed := 6; wp_nodes := [a; b]; fan_out_max_files := 1; max_in_flight_dispatches := 1;
  base_duration_ms := 5; jitter_ms := 0 |}.
Definition waiting (id dependency : string) : OperationNode := {|
  on_id := lit id; on_operation := OpRemux; on_policy_target := None; on_operation_payload := JNull;
  on_depends_on := [lit dependency]; on_depends_on_selected := []; on_provides_selected := None |}.
(** Two nodes that wait for each other do not run. *)
Lemma workflow_valid_iff_witness : ~ workflow_ok (pair_of (waiting "a" "b") (waiting "b" "a")).
Proof.
  intros H. apply (proj2 (workflow_valid_iff (pair_of (waiting "a" "b") (waiting "b" "a")) [lit "b"; lit "a"]
    ltac:(intros x; cbn; rewrite !elem_of_cons; tauto))) in H. vm_compute in H. discriminate.
Defined.

(** Verifying waits for the transcode; what is blocked is not submitted. *)
Lemma plan_runs_as_workflow_witness :
  exists plan e w, generate_plan tidy = Ok plan
    /\ workflow_plan_from_compliance plan (lit "r1") {| ws_max_files := 1; ws_max_in_flight_dispatches := 1 |} = Ok e
    /\ pe_workflow e = Some w /\ validate w (map on_id (wp_nodes w)) = Ok tt
    /\ map (fun n => length (on_depends_on n)) (wp_nodes w) = [0; 1]%nat.
Proof.
  destruct tidy_plan as [plan Hp]. exists plan.
  destruct (plan_runs_as_workflow tidy plan (lit "r1") {| ws_max_files := 1; ws_max_in_flight_dispatches := 1 |})
    as (e & He & _ & _ & _ & _ & Hv).
  - exact house_ordered.
  - left. split; [exact house_declared|exact Hp].
  - vm_compute in Hp. injection Hp as <-. apply (bool_decide_unpack _). vm_compute. exact I.
  - discriminate.
  - discriminate.
  - destruct (pe_workflow e) as [w|] eqn:Hw.
    + exists e, w. split_and!; [done|done|done|by apply Hv|].
      vm_compute in Hp. injection Hp as <-. vm_compute in He. injection He as <-.
      cbn in Hw. injection Hw as <-. vm_compute. reflexivity.
    + exfalso. vm_compute in Hp. injection Hp as <-. vm_compute in He. injection He as <-. discriminate.
Defined.
