(* ===== verification/Progress.v ===== *)
(** * The progress of files through a policy job

    [voom-store/src/repo/execution/workflow_progress.rs] and the file part of
    [workflow_summaries.rs]: the window that bounds how many files of a job are
    in flight, the cursor of each file over the phases, the outcome of each
    phase, where a run of a file starts and what it inherits. The tables are
    kept beside those of the execution core, whose jobs they refer to. *)

From S2P Require Import Prelude Json Vocab Operations Store Jobs Tickets Workers Leases ControlPlane.
From Stdlib Require Import ZArith Lia Bool.
From stdpp Require Import base gmap strings list sorting.

Open Scope Z_scope.

(** ** Vocabulary *)

Inductive FileProgressState : Type :=
  | ProgressPending | ProgressActive | ProgressTerminalizing | ProgressTerminal.
#[global] Instance FileProgressState_eq_dec : EqDecision FileProgressState.
Proof. solve_decision. Defined.
Definition FileProgressState_as_str (s : FileProgressState) : string :=
  match s with
  | ProgressPending => "pending" | ProgressActive => "active"
  | ProgressTerminalizing => "terminalizing" | ProgressTerminal => "terminal"
  end.
Definition FileProgressState_parse (s : string) : option FileProgressState :=
  assoc_str s [("pending", ProgressPending); ("active", ProgressActive);
               ("terminalizing", ProgressTerminalizing); ("terminal", ProgressTerminal)].
#[global] Instance FileProgressState_vocabulary : Vocabulary FileProgressState :=
  Build_Vocabulary FileProgressState FileProgressState_as_str FileProgressState_parse
    ltac:(solve_vocabulary) ltac:(solve_vocabulary).

Inductive FileAdmissionTier : Type := TierInterrupted | TierPending.
#[global] Instance FileAdmissionTier_eq_dec : EqDecision FileAdmissionTier.
Proof. solve_decision. Defined.
Definition FileAdmissionTier_as_i64 (t : FileAdmissionTier) : Z :=
  match t with TierInterrupted => 0 | TierPending => 1 end.
Definition FileAdmissionTier_parse (v : Z) : Res FileAdmissionTier :=
  if v =? 0 then Ok TierInterrupted else if v =? 1 then Ok TierPending else Err EDatabase.

Inductive PhaseOutcome : Type := PhaseCompleted | PartiallyCommitted | PhaseSkipped | PhaseBlocked.
#[global] Instance PhaseOutcome_eq_dec : EqDecision PhaseOutcome.
Proof. solve_decision. Defined.
Definition PhaseOutcome_as_str (o : PhaseOutcome) : string :=
  match o with
  | PhaseCompleted => "completed" | PartiallyCommitted => "partially-committed"
  | PhaseSkipped => "skipped" | PhaseBlocked => "blocked"
  end.
Definition PhaseOutcome_parse (s : string) : option PhaseOutcome :=
  assoc_str s [("completed", PhaseCompleted); ("partially-committed", PartiallyCommitted);
               ("skipped", PhaseSkipped); ("blocked", PhaseBlocked)].
#[global] Instance PhaseOutcome_vocabulary : Vocabulary PhaseOutcome :=
  Build_Vocabulary PhaseOutcome PhaseOutcome_as_str PhaseOutcome_parse
    ltac:(solve_vocabulary) ltac:(solve_vocabulary).

Inductive FilePhaseOutcome : Type := FileCommitted | FileVerified | FileSkipped | FileBlocked.
#[global] Instance FilePhaseOutcome_eq_dec : EqDecision FilePhaseOutcome.
Proof. solve_decision. Defined.
Definition FilePhaseOutcome_as_str (o : FilePhaseOutcome) : string :=
  match o with
  | FileCommitted => "committed" | FileVerified => "verified"
  | FileSkipped => "skipped" | FileBlocked => "blocked"
  end.
Definition FilePhaseOutcome_parse (s : string) : option FilePhaseOutcome :=
  assoc_str s [("committed", FileCommitted); ("verified", FileVerified);
               ("skipped", FileSkipped); ("blocked", FileBlocked)].
#[global] Instance FilePhaseOutcome_vocabulary : Vocabulary FilePhaseOutcome :=
  Build_Vocabulary FilePhaseOutcome FilePhaseOutcome_as_str FilePhaseOutcome_parse
    ltac:(solve_vocabulary) ltac:(solve_vocabulary).

(** ** Rows *)

Record WindowRow := { w_max_in_flight_files : Z; w_created_at : string }.
Record StartRow := { s_starting_file_version_id : Z; s_starting_phase_ordinal : Z }.
Record ProgressRow := {
  p_input_ordinal : Z; p_admission_tier : FileAdmissionTier; p_state : FileProgressState;
  p_next_phase_ordinal : Z; p_admitted_at : option string; p_terminal_at : option string;
}.
Record EntryRow := { e_media_snapshot_id : Z; e_gate_admitted : bool; e_created_at : string }.
Record FilePhaseRow := {
  f_id : Z; f_ticket_ids : list Z;
  f_produced_file_version_id : option Z; f_produced_file_location_id : option Z;
  f_artifact_handle_id : option Z; f_artifact_verification_id : option Z;
  f_reprobe_snapshot_id : option Z; f_outcome : FilePhaseOutcome; f_created_at : string;
}.

(** The tables of the coordinator, by primary key: a job; a job and a branch; a
    job, a phase and a branch. Of the tables they refer to beside the core,
    what the foreign keys and the lineage check read: versions with their
    asset, and the ids of snapshots, locations, handles and verifications. *)
Record WorkflowDb := MkWorkflowDb {
  core : Db;
  windows : gmap Z WindowRow;
  run_starts : gmap (Z * string) StartRow;
  run_history : gmap (Z * string * Z) FilePhaseOutcome;
  progress : gmap (Z * string) ProgressRow;
  phase_entries : gmap (Z * Z * string) EntryRow;
  file_phases : gmap (Z * Z * string) FilePhaseRow;
  version_assets : gmap Z Z;
  snapshot_ids : gset Z;
  file_location_ids : gset Z;
  handle_ids : gset Z;
  verification_ids : gset Z;
}.

Definition set_core (c : Db) (d : WorkflowDb) : WorkflowDb :=
  MkWorkflowDb c (windows d) (run_starts d) (run_history d) (progress d) (phase_entries d)
    (file_phases d) (version_assets d) (snapshot_ids d) (file_location_ids d) (handle_ids d)
    (verification_ids d).
Definition set_windows (m : gmap Z WindowRow) (d : WorkflowDb) : WorkflowDb :=
  MkWorkflowDb (core d) m (run_starts d) (run_history d) (progress d) (phase_entries d)
    (file_phases d) (version_assets d) (snapshot_ids d) (file_location_ids d) (handle_ids d)
    (verification_ids d).
Definition set_run_starts (m : gmap (Z * string) StartRow) (d : WorkflowDb) : WorkflowDb :=
  MkWorkflowDb (core d) (windows d) m (run_history d) (progress d) (phase_entries d)
    (file_phases d) (version_assets d) (snapshot_ids d) (file_location_ids d) (handle_ids d)
    (verification_ids d).
Definition set_run_history (m : gmap (Z * string * Z) FilePhaseOutcome) (d : WorkflowDb) : WorkflowDb :=
  MkWorkflowDb (core d) (windows d) (run_starts d) m (progress d) (phase_entries d)
    (file_phases d) (version_assets d) (snapshot_ids d) (file_location_ids d) (handle_ids d)
    (verification_ids d).
Definition set_progress (m : gmap (Z * string) ProgressRow) (d : WorkflowDb) : WorkflowDb :=
  MkWorkflowDb (core d) (windows d) (run_starts d) (run_history d) m (phase_entries d)
    (file_phases d) (version_assets d) (snapshot_ids d) (file_location_ids d) (handle_ids d)
    (verification_ids d).
Definition set_phase_entries (m : gmap (Z * Z * string) EntryRow) (d : WorkflowDb) : WorkflowDb :=
  MkWorkflowDb (core d) (windows d) (run_starts d) (run_history d) (progress d) m
    (file_phases d) (version_assets d) (snapshot_ids d) (file_location_ids d) (handle_ids d)
    (verification_ids d).
Definition set_file_phases (m : gmap (Z * Z * string) FilePhaseRow) (d : WorkflowDb) : WorkflowDb :=
  MkWorkflowDb (core d) (windows d) (run_starts d) (run_history d) (progress d) (phase_entries d)
    m (version_assets d) (snapshot_ids d) (file_location_ids d) (handle_ids d)
    (verification_ids d).

Abbreviation WM := (Tx WorkflowDb VoomError).

(** A transaction of the core inside one of the coordinator. *)
Definition on_core {A} (m : M A) : WM A := fun d =>
  match m (core d) with (r, c) => (r, set_core c d) end.

Definition job_exists (job : Z) (d : WorkflowDb) : bool := bool_decide (is_Some (jobs (core d) !! job)).

(** ** Where a run of a file starts *)

Record NewFileRunStart := {
  ns_branch_id : string; ns_starting_file_version_id : Z; ns_starting_phase_ordinal : Z;
}.
Record FileRunStart := {
  fs_job_id : Z; fs_branch_id : string; fs_starting_file_version_id : Z;
  fs_starting_phase_ordinal : Z;
}.
Record NewFileRunHistory := {
  nh_branch_id : string; nh_phase_ordinal : Z; nh_outcome : FilePhaseOutcome;
}.
Record FileRunHistory := {
  fh_job_id : Z; fh_branch_id : string; fh_phase_ordinal : Z; fh_outcome : FilePhaseOutcome;
}.

Definition insert_file_run_start (job_id : Z) (input : NewFileRunStart) : WM unit :=
  job ← lift (i64_from_u64 job_id);
  version ← lift (i64_from_u64 (ns_starting_file_version_id input));
  d ← gets id;
  let key := (job, ns_branch_id input) in
  if bool_decide (is_Some (run_starts d !! key)) || negb (job_exists job d)
     || negb (bool_decide (is_Some (version_assets d !! version)))
     || (ns_starting_phase_ordinal input <? 0)
  then throw EDatabase
  else modify (set_run_starts (<[key := {|
         s_starting_file_version_id := version;
         s_starting_phase_ordinal := ns_starting_phase_ordinal input |}]> (run_starts d))).
Definition insert_file_run_starts_in_tx (job_id : Z) : list NewFileRunStart -> WM unit :=
  for_each (insert_file_run_start job_id).

Definition insert_file_run_history_row (job_id : Z) (input : NewFileRunHistory) : WM unit :=
  job ← lift (i64_from_u64 job_id);
  d ← gets id;
  let key := (job, nh_branch_id input, nh_phase_ordinal input) in
  if bool_decide (is_Some (run_history d !! key))
     || negb (bool_decide (is_Some (run_starts d !! (job, nh_branch_id input))))
     || (nh_phase_ordinal input <? 0)
  then throw EDatabase
  else modify (set_run_history (<[key := nh_outcome input]> (run_history d))).
Definition insert_file_run_history_in_tx (job_id : Z) : list NewFileRunHistory -> WM unit :=
  for_each (insert_file_run_history_row job_id).

(** [ORDER BY branch_id ASC, phase_ordinal ASC] and the like: keys compared by
    their first and then their second part. *)
Definition branch_phase_le {A} (x y : (string * Z) * A) : Prop :=
  text_lt x.1.1 y.1.1 = true \/ (x.1.1 = y.1.1 /\ x.1.2 <= y.1.2).
#[global] Instance branch_phase_le_dec {A} : RelDecision (@branch_phase_le A).
Proof. intros x y. unfold branch_phase_le. apply _. Defined.
Definition phase_branch_le {A} (x y : (Z * string) * A) : Prop :=
  x.1.1 < y.1.1 \/ (x.1.1 = y.1.1 /\ text_le x.1.2 y.1.2 = true).
#[global] Instance phase_branch_le_dec {A} : RelDecision (@phase_branch_le A).
Proof. intros x y. unfold phase_branch_le. apply _. Defined.

Section reads.
Context `{Iso8601}.

Definition row_to_file_run_start (job : Z) (row : (string * Z) * StartRow) : Res FileRunStart :=
  job ← u64_from_i64 job;
  version ← u64_from_i64 (s_starting_file_version_id row.2);
  ordinal ← u32_from_i64 (s_starting_phase_ordinal row.2);
  Ok {| fs_job_id := job; fs_branch_id := row.1.1; fs_starting_file_version_id := version;
        fs_starting_phase_ordinal := ordinal |}.
Definition job_starts (job : Z) (d : WorkflowDb) : list ((string * Z) * StartRow) :=
  merge_sort branch_phase_le
    (omap (fun kv => if kv.1.1 =? job then Some ((kv.1.2, 0), kv.2) else None) (map_to_list (run_starts d))).
Definition file_run_starts_for_job (job_id : Z) : WM (list FileRunStart) :=
  job ← lift (i64_from_u64 job_id);
  getsR (fun d => collect (row_to_file_run_start job) (job_starts job d)).

Definition row_to_file_run_history (job : Z) (row : (string * Z) * FilePhaseOutcome) : Res FileRunHistory :=
  job ← u64_from_i64 job;
  ordinal ← u32_from_i64 row.1.2;
  Ok {| fh_job_id := job; fh_branch_id := row.1.1; fh_phase_ordinal := ordinal; fh_outcome := row.2 |}.
Definition job_history (job : Z) (d : WorkflowDb) : list ((string * Z) * FilePhaseOutcome) :=
  merge_sort branch_phase_le
    (omap (fun kv => if kv.1.1.1 =? job then Some ((kv.1.1.2, kv.1.2), kv.2) else None)
       (map_to_list (run_history d))).
Definition file_run_history_for_job (job_id : Z) : WM (list FileRunHistory) :=
  job ← lift (i64_from_u64 job_id);
  getsR (fun d => collect (row_to_file_run_history job) (job_history job d)).
End reads.

(** ** The outcome of a phase for a file *)

Record NewFilePhaseSummary := {
  nf_job_id : Z; nf_phase_ordinal : Z; nf_branch_id : string; nf_ticket_ids : list Z;
  nf_produced_file_version_id : option Z; nf_produced_file_location_id : option Z;
  nf_artifact_handle_id : option Z; nf_artifact_verification_id : option Z;
  nf_reprobe_snapshot_id : option Z; nf_outcome : FilePhaseOutcome;
}.
Record FilePhaseSummary := {
  fp_id : Z; fp_job_id : Z; fp_phase_ordinal : Z; fp_branch_id : string; fp_ticket_ids : list Z;
  fp_produced_file_version_id : option Z; fp_produced_file_location_id : option Z;
  fp_artifact_handle_id : option Z; fp_artifact_verification_id : option Z;
  fp_reprobe_snapshot_id : option Z; fp_outcome : FilePhaseOutcome; fp_created_at : Z;
}.


(** The table's [CHECK] on what each outcome refers to. *)
Definition produced_check (outcome : FilePhaseOutcome)
    (version location handle verification snapshot : option Z) : bool :=
  match outcome with
  | FileCommitted => is_some version && is_some location && is_none verification && is_some snapshot
  | FileVerified =>
      is_some version && is_some location && is_some handle && is_some verification && is_some snapshot
  | FileSkipped | FileBlocked =>
      is_none version && is_none location && is_none handle && is_none verification && is_none snapshot
  end.
Definition refers_to {A} (o : option A) (known : A -> bool) : bool :=
  match o with None => true | Some a => known a end.
(** The rows the table refers to. *)
Definition file_phase_references (d : WorkflowDb) (job : Z) (r : FilePhaseRow) : bool :=
  job_exists job d
  && refers_to (f_produced_file_version_id r) (fun v => bool_decide (is_Some (version_assets d !! v)))
  && refers_to (f_produced_file_location_id r) (fun v => bool_decide (v ∈ file_location_ids d))
  && refers_to (f_artifact_handle_id r) (fun v => bool_decide (v ∈ handle_ids d))
  && refers_to (f_artifact_verification_id r) (fun v => bool_decide (v ∈ verification_ids d))
  && refers_to (f_reprobe_snapshot_id r) (fun v => bool_decide (v ∈ snapshot_ids d)).

Definition next_file_phase_id (m : gmap (Z * Z * string) FilePhaseRow) : Z :=
  map_fold (fun _ r acc => Z.max (f_id r) acc) 0 m + 1.
Definition opt_i64 (o : option Z) : Res (option Z) := transpose (i64_from_u64 <$> o).
Definition opt_u64 (o : option Z) : Res (option Z) := transpose (u64_from_i64 <$> o).

Section file_phases.
Context `{Iso8601}.

Definition row_to_file_phase (job : Z) (row : (Z * string) * FilePhaseRow) : Res FilePhaseSummary :=
  let r := row.2 in
  id ← u64_from_i64 (f_id r);
  job ← u64_from_i64 job;
  ordinal ← u32_from_i64 row.1.1;
  version ← opt_u64 (f_produced_file_version_id r);
  location ← opt_u64 (f_produced_file_location_id r);
  handle ← opt_u64 (f_artifact_handle_id r);
  verification ← opt_u64 (f_artifact_verification_id r);
  snapshot ← opt_u64 (f_reprobe_snapshot_id r);
  created ← parse_iso8601 (f_created_at r);
  Ok {| fp_id := id; fp_job_id := job; fp_phase_ordinal := ordinal; fp_branch_id := row.1.2;
        fp_ticket_ids := f_ticket_ids r; fp_produced_file_version_id := version;
        fp_produced_file_location_id := location; fp_artifact_handle_id := handle;
        fp_artifact_verification_id := verification; fp_reprobe_snapshot_id := snapshot;
        fp_outcome := f_outcome r; fp_created_at := created |}.

(** [INSERT .. ON CONFLICT DO NOTHING]: the first row of a phase and a branch
    stays. A [CHECK] is looked at before the key, a reference after it. *)
Definition new_file_phase_row (d : WorkflowDb) (input : NewFilePhaseSummary)
    (version location handle verification snapshot : option Z) (created : string) : FilePhaseRow := {|
  f_id := next_file_phase_id (file_phases d); f_ticket_ids := nf_ticket_ids input;
  f_produced_file_version_id := version; f_produced_file_location_id := location;
  f_artifact_handle_id := handle; f_artifact_verification_id := verification;
  f_reprobe_snapshot_id := snapshot; f_outcome := nf_outcome input; f_created_at := created |}.
Definition upsert_file_phase_summary_in_tx (input : NewFilePhaseSummary) (now : Z) : WM FilePhaseSummary :=
  created ← lift (iso8601 now);
  job ← lift (i64_from_u64 (nf_job_id input));
  version ← lift (opt_i64 (nf_produced_file_version_id input));
  location ← lift (opt_i64 (nf_produced_file_location_id input));
  handle ← lift (opt_i64 (nf_artifact_handle_id input));
  verification ← lift (opt_i64 (nf_artifact_verification_id input));
  snapshot ← lift (opt_i64 (nf_reprobe_snapshot_id input));
  d ← gets id;
  let key := (job, nf_phase_ordinal input, nf_branch_id input) in
  let row := new_file_phase_row d input version location handle verification snapshot created in
  if negb (produced_check (nf_outcome input) version location handle verification snapshot)
     || (nf_phase_ordinal input <? 0)
  then throw EDatabase
  else match file_phases d !! key with
       | Some r => lift (row_to_file_phase job ((nf_phase_ordinal input, nf_branch_id input), r))
       | None =>
           if negb (file_phase_references d job row) then throw EDatabase else
           _ ← modify (set_file_phases (<[key := row]> (file_phases d)));
           id ← lift (u64_from_i64 (f_id row));
           mret {| fp_id := id; fp_job_id := nf_job_id input; fp_phase_ordinal := nf_phase_ordinal input;
                   fp_branch_id := nf_branch_id input; fp_ticket_ids := nf_ticket_ids input;
                   fp_produced_file_version_id := nf_produced_file_version_id input;
                   fp_produced_file_location_id := nf_produced_file_location_id input;
                   fp_artifact_handle_id := nf_artifact_handle_id input;
                   fp_artifact_verification_id := nf_artifact_verification_id input;
                   fp_reprobe_snapshot_id := nf_reprobe_snapshot_id input;
                   fp_outcome := nf_outcome input; fp_created_at := now |}
       end.
Definition upsert_file_phase_summary (input : NewFilePhaseSummary) (now : Z) : WM FilePhaseSummary :=
  atomically (upsert_file_phase_summary_in_tx input now).

(** [ORDER BY phase_ordinal ASC, branch_id ASC]. *)
Definition job_file_phases (job : Z) (d : WorkflowDb) : list ((Z * string) * FilePhaseRow) :=
  merge_sort phase_branch_le
    (omap (fun kv => if kv.1.1.1 =? job then Some ((kv.1.1.2, kv.1.2), kv.2) else None)
       (map_to_list (file_phases d))).
Definition file_phases_for_job (job_id : Z) : WM (list FilePhaseSummary) :=
  job ← lift (i64_from_u64 job_id);
  getsR (fun d => collect (row_to_file_phase job) (job_file_phases job d)).
End file_phases.

(** ** Windows and cursors *)

Record NewFileProgress := {
  np_branch_id : string; np_input_ordinal : Z; np_admission_tier : FileAdmissionTier;
  np_next_phase_ordinal : Z;
}.
Record FileProgress := {
  fg_job_id : Z; fg_branch_id : string; fg_input_ordinal : Z; fg_admission_tier : FileAdmissionTier;
  fg_state : FileProgressState; fg_next_phase_ordinal : Z;
  fg_admitted_at : option Z; fg_terminal_at : option Z;
}.
Record FileWindow := { fw_job_id : Z; fw_max_in_flight_files : Z; fw_created_at : Z }.

Definition with_state (s : FileProgressState) (admitted terminal : option string) (r : ProgressRow) :
    ProgressRow := {|
  p_input_ordinal := p_input_ordinal r; p_admission_tier := p_admission_tier r; p_state := s;
  p_next_phase_ordinal := p_next_phase_ordinal r; p_admitted_at := admitted; p_terminal_at := terminal |}.
Definition with_cursor (next : Z) (r : ProgressRow) : ProgressRow := {|
  p_input_ordinal := p_input_ordinal r; p_admission_tier := p_admission_tier r; p_state := p_state r;
  p_next_phase_ordinal := next; p_admitted_at := p_admitted_at r; p_terminal_at := p_terminal_at r |}.
Definition pending_row (input : NewFileProgress) : ProgressRow := {|
  p_input_ordinal := np_input_ordinal input; p_admission_tier := np_admission_tier input;
  p_state := ProgressPending; p_next_phase_ordinal := np_next_phase_ordinal input;
  p_admitted_at := None; p_terminal_at := None |}.

Definition has_state (s : FileProgressState) (r : ProgressRow) : bool := bool_decide (p_state r = s).
Definition in_flight_state (r : ProgressRow) : bool :=
  has_state ProgressActive r || has_state ProgressTerminalizing r.
(** The files of a job that hold a slot of its window. *)
Definition in_flight (job : Z) (m : gmap (Z * string) ProgressRow) : list ((Z * string) * ProgressRow) :=
  List.filter (fun kv => (kv.1.1 =? job) && in_flight_state kv.2) (map_to_list m).

(** [UPDATE workflow_file_progress SET .. WHERE job_id = ? AND branch_id = ? AND cond]. *)
Definition update_progress (key : Z * string) (cond : ProgressRow -> bool) (upd : ProgressRow -> ProgressRow) :
    WM bool := fun d =>
  match progress d !! key with
  | Some r => if cond r then (Ok true, set_progress (<[key := upd r]> (progress d)) d) else (Ok false, d)
  | None => (Ok false, d)
  end.

Section windows.
Context `{Iso8601}.

Definition insert_progress_row (job_id : Z) (input : NewFileProgress) : WM unit :=
  job ← lift (i64_from_u64 job_id);
  d ← gets id;
  let key := (job, np_branch_id input) in
  let taken := existsb (fun kv => (kv.1.1 =? job) && (p_input_ordinal kv.2 =? np_input_ordinal input))
                 (map_to_list (progress d)) in
  if bool_decide (is_Some (progress d !! key)) || taken
     || negb (bool_decide (is_Some (run_starts d !! key)))
     || (np_input_ordinal input <? 0) || (np_next_phase_ordinal input <? 0)
  then throw EDatabase
  else modify (set_progress (<[key := pending_row input]> (progress d))).
Definition insert_file_window_in_tx (job_id max_in_flight_files : Z) (rows : list NewFileProgress)
    (now : Z) : WM unit :=
  if max_in_flight_files =? 0 then throw EConfig else
  timestamp ← lift (iso8601 now);
  job ← lift (i64_from_u64 job_id);
  d ← gets id;
  if bool_decide (is_Some (windows d !! job)) || negb (job_exists job d) || (max_in_flight_files <=? 0)
  then throw EDatabase else
  _ ← modify (set_windows (<[job := {| w_max_in_flight_files := max_in_flight_files;
                                       w_created_at := timestamp |}]> (windows d)));
  for_each (insert_progress_row job_id) rows.

Definition mark_progress_terminal (timestamp : string) (job_id : Z) (branch_id : string) : WM unit :=
  job ← lift (i64_from_u64 job_id);
  changed ← update_progress (job, branch_id) (has_state ProgressPending)
              (with_state ProgressTerminal (Some timestamp) (Some timestamp));
  if negb changed then throw EConflict else mret tt.
Definition mark_file_progress_terminal_in_tx (job_id : Z) (branches : list string) (now : Z) : WM unit :=
  timestamp ← lift (iso8601 now);
  for_each (mark_progress_terminal timestamp job_id) branches.

Definition decode_file_progress (key : Z * string) (r : ProgressRow) : Res FileProgress :=
  job ← u64_from_i64 key.1;
  ordinal ← u32_from_i64 (p_input_ordinal r);
  next ← u32_from_i64 (p_next_phase_ordinal r);
  admitted ← transpose (parse_iso8601 <$> p_admitted_at r);
  terminal ← transpose (parse_iso8601 <$> p_terminal_at r);
  Ok {| fg_job_id := job; fg_branch_id := key.2; fg_input_ordinal := ordinal;
        fg_admission_tier := p_admission_tier r; fg_state := p_state r; fg_next_phase_ordinal := next;
        fg_admitted_at := admitted; fg_terminal_at := terminal |}.

Definition fetch_file_progress (job_id : Z) (branch_id : string) : WM (option FileProgress) :=
  job ← lift (i64_from_u64 job_id);
  getsR (fun d => transpose (decode_file_progress (job, branch_id) <$> (progress d !! (job, branch_id)))).
Definition file_progress (job_id : Z) (branch_id : string) : WM (option FileProgress) :=
  fetch_file_progress job_id branch_id.
Definition progress_order (x y : (Z * string) * ProgressRow) : Prop :=
  p_input_ordinal x.2 <= p_input_ordinal y.2.
#[local] Instance progress_order_dec : RelDecision progress_order.
Proof. intros x y. unfold progress_order. apply _. Defined.
Definition job_progress (job : Z) (d : WorkflowDb) : list ((Z * string) * ProgressRow) :=
  merge_sort progress_order (List.filter (fun kv => kv.1.1 =? job) (map_to_list (progress d))).
Definition file_progress_for_job (job_id : Z) : WM (list FileProgress) :=
  job ← lift (i64_from_u64 job_id);
  getsR (fun d => collect (fun kv => decode_file_progress kv.1 kv.2) (job_progress job d)).
Definition insert_file_window (job_id max_in_flight_files : Z) (rows : list NewFileProgress) (now : Z) :
    WM (list FileProgress) :=
  if max_in_flight_files =? 0 then throw EConfig else
  _ ← atomically (insert_file_window_in_tx job_id max_in_flight_files rows now);
  file_progress_for_job job_id.

Definition branch_for_input_ordinal (job_id input_ordinal : Z) : WM (option string) :=
  job ← lift (i64_from_u64 job_id);
  gets (fun d => (fun kv => kv.1.2) <$>
    head (List.filter (fun kv => (kv.1.1 =? job) && (p_input_ordinal kv.2 =? input_ordinal))
            (map_to_list (progress d)))).

Definition file_window (job_id : Z) : WM (option FileWindow) :=
  job ← lift (i64_from_u64 job_id);
  getsR (fun d => transpose ((fun r =>
    id ← u64_from_i64 job;
    maximum ← u32_from_i64 (w_max_in_flight_files r);
    created ← parse_iso8601 (w_created_at r);
    Ok {| fw_job_id := id; fw_max_in_flight_files := maximum; fw_created_at := created |})
    <$> (windows d !! job))).

(** [ORDER BY pending.admission_tier, pending.input_ordinal]. *)
Definition admission_order (x y : (Z * string) * ProgressRow) : Prop :=
  FileAdmissionTier_as_i64 (p_admission_tier x.2) < FileAdmissionTier_as_i64 (p_admission_tier y.2)
  \/ (p_admission_tier x.2 = p_admission_tier y.2 /\ p_input_ordinal x.2 <= p_input_ordinal y.2).
#[local] Instance admission_order_dec : RelDecision admission_order.
Proof. intros x y. unfold admission_order. apply _. Defined.
Definition waiting_files (job : Z) (m : gmap (Z * string) ProgressRow) : list ((Z * string) * ProgressRow) :=
  merge_sort admission_order
    (List.filter (fun kv => (kv.1.1 =? job) && has_state ProgressPending kv.2) (map_to_list m)).
(** The row of the admission's subquery. *)
Definition admissible (job : Z) (d : WorkflowDb) : option ((Z * string) * ProgressRow) :=
  match windows d !! job, jobs (core d) !! job with
  | Some w, Some j =>
      if bool_decide (j_state j = JobOpen)
         && (Z.of_nat (length (in_flight job (progress d))) <? w_max_in_flight_files w)
      then head (waiting_files job (progress d)) else None
  | _, _ => None
  end.
Definition admit_next_file (job_id now : Z) : WM (option FileProgress) :=
  found ← atomically (
    timestamp ← lift (iso8601 now);
    job ← lift (i64_from_u64 job_id);
    d ← gets id;
    match admissible job d with
    | Some (key, r) =>
        let row := with_state ProgressActive (Some timestamp) (p_terminal_at r) r in
        _ ← modify (set_progress (<[key := row]> (progress d)));
        mret (Some (key, row))
    | None =>
        match windows d !! job, jobs (core d) !! job with
        | Some _, Some j =>
            match j_state j with
            | JobOpen => mret None
            | JobCancelled => throw EUserCancellation
            | JobFailed => throw EPolicyExecution
            | JobSucceeded => throw EConflict
            end
        | _, _ => throw ENotFound
        end
    end);
  lift (transpose ((fun kr => decode_file_progress kr.1 kr.2) <$> found)).

Definition advance_file_progress_in_tx (job_id : Z) (branch_id : string)
    (expected_phase_ordinal next_phase_ordinal : Z) : WM bool :=
  job ← lift (i64_from_u64 job_id);
  update_progress (job, branch_id)
    (fun r => has_state ProgressActive r && (p_next_phase_ordinal r =? expected_phase_ordinal))
    (with_cursor next_phase_ordinal).
Definition advance_file_progress (job_id : Z) (branch_id : string)
    (expected_phase_ordinal next_phase_ordinal : Z) : WM bool :=
  atomically (advance_file_progress_in_tx job_id branch_id expected_phase_ordinal next_phase_ordinal).

Definition upsert_file_phase_summary_and_advance (input : NewFilePhaseSummary)
    (expected_phase_ordinal next_phase_ordinal now : Z) : WM FilePhaseSummary := atomically (
  row ← upsert_file_phase_summary_in_tx input now;
  advanced ← advance_file_progress_in_tx (fp_job_id row) (fp_branch_id row)
               expected_phase_ordinal next_phase_ordinal;
  if (advanced : bool) then mret row else
  found ← fetch_file_progress (fp_job_id row) (fp_branch_id row);
  p ← lift (ok_or found ENotFound);
  if negb (fg_next_phase_ordinal p =? next_phase_ordinal) || bool_decide (fg_state p = ProgressPending)
  then throw EConflict else mret row).

(** The two transitions at the end of a file. The update and the read that
    follows it are not one transaction. *)
Definition require_state (s : FileProgressState) (found : option FileProgress) : Res FileProgress :=
  match found with
  | Some p => if bool_decide (fg_state p = s) then Ok p else Err EConflict
  | None => Err EConflict
  end.
Definition mark_file_terminal (job_id : Z) (branch_id : string) (now : Z) : WM FileProgress :=
  timestamp ← lift (iso8601 now);
  job ← lift (i64_from_u64 job_id);
  _ ← update_progress (job, branch_id) (has_state ProgressTerminalizing)
        (fun r => with_state ProgressTerminal (p_admitted_at r) (Some timestamp) r);
  found ← file_progress job_id branch_id;
  lift (require_state ProgressTerminal found).
Definition begin_file_terminalization (job_id : Z) (branch_id : string) : WM FileProgress :=
  job ← lift (i64_from_u64 job_id);
  _ ← update_progress (job, branch_id) (has_state ProgressActive)
        (fun r => with_state ProgressTerminalizing (p_admitted_at r) (p_terminal_at r) r);
  found ← file_progress job_id branch_id;
  lift (require_state ProgressTerminalizing found).

(** ** Entries: what a file was when it entered a phase *)

Record NewFilePhaseEntry := {
  ne_job_id : Z; ne_phase_ordinal : Z; ne_branch_id : string; ne_media_snapshot_id : Z;
  ne_gate_admitted : bool;
}.
Record FilePhaseEntry := {
  fe_job_id : Z; fe_phase_ordinal : Z; fe_branch_id : string; fe_media_snapshot_id : Z;
  fe_gate_admitted : bool; fe_created_at : Z;
}.
Definition decode_file_phase_entry (key : Z * Z * string) (r : EntryRow) : Res FilePhaseEntry :=
  job ← u64_from_i64 key.1.1;
  ordinal ← u32_from_i64 key.1.2;
  snapshot ← u64_from_i64 (e_media_snapshot_id r);
  created ← parse_iso8601 (e_created_at r);
  Ok {| fe_job_id := job; fe_phase_ordinal := ordinal; fe_branch_id := key.2;
        fe_media_snapshot_id := snapshot; fe_gate_admitted := e_gate_admitted r; fe_created_at := created |}.
Definition file_phase_entry (job_id phase_ordinal : Z) (branch_id : string) : WM (option FilePhaseEntry) :=
  job ← lift (i64_from_u64 job_id);
  getsR (fun d => transpose (decode_file_phase_entry (job, phase_ordinal, branch_id)
                               <$> (phase_entries d !! (job, phase_ordinal, branch_id)))).
Definition insert_phase_entry (key : Z * Z * string) (row : EntryRow) : WM unit :=
  d ← gets id;
  if key.1.2 <? 0 then throw EDatabase
  else if bool_decide (is_Some (phase_entries d !! key)) then mret tt
  else if negb (bool_decide (is_Some (run_starts d !! (key.1.1, key.2))))
          || negb (bool_decide (e_media_snapshot_id row ∈ snapshot_ids d))
  then throw EDatabase
  else modify (set_phase_entries (<[key := row]> (phase_entries d))).
Definition upsert_file_phase_entry (input : NewFilePhaseEntry) (now : Z) : WM FilePhaseEntry :=
  created ← lift (iso8601 now);
  job ← lift (i64_from_u64 (ne_job_id input));
  snapshot ← lift (i64_from_u64 (ne_media_snapshot_id input));
  _ ← insert_phase_entry (job, ne_phase_ordinal input, ne_branch_id input)
        {| e_media_snapshot_id := snapshot; e_gate_admitted := ne_gate_admitted input;
           e_created_at := created |};
  found ← file_phase_entry (ne_job_id input) (ne_phase_ordinal input) (ne_branch_id input);
  stored ← lift (ok_or found EInternal);
  if negb (fe_media_snapshot_id stored =? ne_media_snapshot_id input)
     || negb (Bool.eqb (fe_gate_admitted stored) (ne_gate_admitted input))
  then throw EConflict else mret stored.
Definition job_entries (job : Z) (d : WorkflowDb) : list ((Z * string) * EntryRow) :=
  merge_sort phase_branch_le
    (omap (fun kv => if kv.1.1.1 =? job then Some ((kv.1.1.2, kv.1.2), kv.2) else None)
       (map_to_list (phase_entries d))).
Definition file_phase_entries_for_job (job_id : Z) : WM (list FilePhaseEntry) :=
  job ← lift (i64_from_u64 job_id);
  getsR (fun d => collect (fun kv => decode_file_phase_entry (job, kv.1.1, kv.1.2) kv.2) (job_entries job d)).
End windows.

(** ** What the statements write *)

Definition in_flight_in (job : Z) (kv : (Z * string) * ProgressRow) : bool :=
  (kv.1.1 =? job) && in_flight_state kv.2.

Lemma filter_insert_length {K A} `{Countable K} (f : K * A -> bool) (m : gmap K A) k x :
  length (List.filter f (map_to_list (<[k := x]> m)))
  = ((if f (k, x) then 1 else 0) + length (List.filter f (map_to_list (delete k m))))%nat.
Proof.
  rewrite <- insert_delete_eq, (length_filter_perm f _ ((k, x) :: map_to_list (delete k m))).
  - cbn. by destruct (f (k, x)).
  - apply map_to_list_insert. apply lookup_delete_eq.
Qed.
Lemma filter_delete_length {K A} `{Countable K} (f : K * A -> bool) (m : gmap K A) k x :
  m !! k = Some x ->
  length (List.filter f (map_to_list m))
  = ((if f (k, x) then 1 else 0) + length (List.filter f (map_to_list (delete k m))))%nat.
Proof. intros Hk. rewrite <- (insert_id m k x Hk) at 1. apply filter_insert_length. Qed.

(** How many files hold a slot of a job's window. *)
Definition slots (job : Z) (m : gmap (Z * string) ProgressRow) : Z := Z.of_nat (length (in_flight job m)).

Lemma slots_update job m key r r' :
  m !! key = Some r ->
  slots job (<[key := r']> m)
  = slots job m + (if in_flight_in job (key, r') then 1 else 0) - (if in_flight_in job (key, r) then 1 else 0).
Proof.
  intros Hk. unfold slots, in_flight. rewrite filter_insert_length, (filter_delete_length _ m key r Hk).
  unfold in_flight_in. cbn [fst snd]. repeat case_match; lia.
Qed.
Lemma slots_new job m key r :
  m !! key = None -> in_flight_state r = false -> slots job (<[key := r]> m) = slots job m.
Proof.
  intros Hk Hr. unfold slots, in_flight. rewrite filter_insert_length, (delete_id m key) by done.
  cbn. by rewrite Hr, andb_false_r.
Qed.

Lemma update_progress_ok key cond upd d b d' :
  update_progress key cond upd d = (Ok b, d') ->
  (b = true /\ exists r, progress d !! key = Some r /\ cond r = true
     /\ d' = set_progress (<[key := upd r]> (progress d)) d)
  \/ (b = false /\ d' = d /\ forall r, progress d !! key = Some r -> cond r = false).
Proof.
  unfold update_progress. destruct (progress d !! key) as [r|]; [destruct (cond r) eqn:Hc|]; intros [= <- <-].
  - left. eauto.
  - right. split_and!; [done|done|]. intros ? [= <-]. done.
  - right. done.
Qed.

(** Rows that are inserted one after the other, under keys of their own. *)
Section insert_all.
Context {X K V : Type} `{Countable K} (key : X -> K) (val : X -> V).
Definition insert_all (l : list X) (m : gmap K V) : gmap K V :=
  fold_left (fun m x => <[key x := val x]> m) l m.
Lemma insert_all_out l m k : k ∉ map key l -> insert_all l m !! k = m !! k.
Proof.
  revert m. induction l as [|x l IH]; intros m Hk; [done|]. cbn in *. apply not_elem_of_cons in Hk as [Hne Hk].
  rewrite IH by done. by rewrite lookup_insert_ne.
Qed.
Lemma insert_all_in l m x : NoDup (map key l) -> x ∈ l -> insert_all l m !! key x = Some (val x).
Proof.
  revert m. induction l as [|y l IH]; intros m Hnd Hx; [by apply elem_of_nil in Hx|]. cbn in *.
  apply NoDup_cons in Hnd as [Hn Hnd]. apply elem_of_cons in Hx as [->|Hx].
  - fold (insert_all l (<[key y := val y]> m)). rewrite insert_all_out by done. apply lookup_insert_eq.
  - by apply IH.
Qed.
Lemma insert_all_some l m k v :
  NoDup (map key l) -> insert_all l m !! k = Some v ->
  (exists x, x ∈ l /\ key x = k /\ v = val x) \/ ((k ∉ map key l) /\ m !! k = Some v).
Proof.
  intros Hnd Hk. destruct (decide (k ∈ map key l)) as [Hin|Hout].
  - apply list_elem_of_fmap in Hin as (x & -> & Hin). left. exists x. split_and!; [done|done|].
    rewrite insert_all_in in Hk by done. by injection Hk as <-.
  - right. by rewrite insert_all_out in Hk.
Qed.
Lemma insert_all_keeps l m k : is_Some (m !! k) -> is_Some (insert_all l m !! k).
Proof.
  revert m. induction l as [|x l IH]; intros m Hk; [done|]. cbn. apply IH. by apply lookup_insert_is_Some'; right.
Qed.
End insert_all.

Definition start_key (job : Z) (x : NewFileRunStart) : Z * string := (job, ns_branch_id x).
Definition start_row (x : NewFileRunStart) : StartRow := {|
  s_starting_file_version_id := ns_starting_file_version_id x;
  s_starting_phase_ordinal := ns_starting_phase_ordinal x |}.
Definition history_key (job : Z) (x : NewFileRunHistory) : Z * string * Z := (job, nh_branch_id x, nh_phase_ordinal x).
Definition progress_key (job : Z) (x : NewFileProgress) : Z * string := (job, np_branch_id x).

(** A loop of inserts that each refuse a key in use. *)
Lemma for_each_inserts {X V K} `{Countable K} (key : X -> K) (val : X -> V) (get : WorkflowDb -> gmap K V)
    (set : gmap K V -> WorkflowDb -> WorkflowDb) (ins : X -> WM unit) :
  (forall d, set (get d) d = d) -> (forall m d, get (set m d) = m) ->
  (forall m m' d, set m (set m' d) = set m d) ->
  (forall x d d', ins x d = (Ok tt, d') -> get d !! key x = None /\ d' = set (<[key x := val x]> (get d)) d) ->
  forall l d d', for_each ins l d = (Ok tt, d') ->
    d' = set (insert_all key val l (get d)) d /\ NoDup (map key l) /\ Forall (fun x => get d !! key x = None) l.
Proof.
  intros Hid Hget Hset Hins l. induction l as [|x l IH]; intros d d' Hl; cbn in Hl.
  - injection Hl as <-. split_and!; [symmetry; apply Hid|constructor|constructor].
  - apply tx_bind_ok in Hl as ([] & d1 & Hx & Hl). destruct (Hins _ _ _ Hx) as [Hn ->].
    destruct (IH _ _ Hl) as (-> & Hnd & Hall). rewrite Hget, Hset in *. rewrite Forall_forall in Hall. split_and!.
    + done.
    + constructor; [|done]. intros (y & He & Hy)%list_elem_of_fmap. pose proof (Hall y Hy) as Hv.
      cbn in Hv. by rewrite <- He, lookup_insert_eq in Hv.
    + apply Forall_forall. intros y [->|Hy]%elem_of_cons; [done|]. pose proof (Hall y Hy) as Hv. cbn in Hv.
      apply lookup_insert_None in Hv. apply Hv.
Qed.

Lemma starts_inserted job l d d' :
  insert_file_run_starts_in_tx job l d = (Ok tt, d') ->
  d' = set_run_starts (insert_all (start_key job) start_row l (run_starts d)) d
  /\ NoDup (map (start_key job) l) /\ Forall (fun x => run_starts d !! start_key job x = None) l.
Proof.
  apply (for_each_inserts _ _ run_starts set_run_starts); [by intros []|done|done|].
  intros x e e' Hx. unfold insert_file_run_start in Hx. store_inv.
  destruct (_ || _) eqn:Hc; [done|]. store_inv. rewrite !orb_false_iff in Hc. destruct Hc as [[[Hc _] _] _].
  apply bool_decide_eq_false in Hc. split; [by apply eq_None_not_Some|done].
Qed.
Lemma history_inserted job l d d' :
  insert_file_run_history_in_tx job l d = (Ok tt, d') ->
  d' = set_run_history (insert_all (history_key job) nh_outcome l (run_history d)) d
  /\ NoDup (map (history_key job) l) /\ Forall (fun x => run_history d !! history_key job x = None) l.
Proof.
  apply (for_each_inserts _ _ run_history set_run_history); [by intros []|done|done|].
  intros x e e' Hx. unfold insert_file_run_history_row in Hx. store_inv.
  destruct (_ || _) eqn:Hc; [done|]. store_inv. rewrite !orb_false_iff in Hc. destruct Hc as [[Hc _] _].
  apply bool_decide_eq_false in Hc. split; [by apply eq_None_not_Some|done].
Qed.

(** Two files of a job never have the same ordinal. *)
Definition ordinals_distinct (m : gmap (Z * string) ProgressRow) : Prop :=
  forall j b1 b2 p1 p2, m !! (j, b1) = Some p1 -> m !! (j, b2) = Some p2 ->
    p_input_ordinal p1 = p_input_ordinal p2 -> b1 = b2.
Lemma ordinals_update m key p p' :
  m !! key = Some p -> p_input_ordinal p' = p_input_ordinal p -> ordinals_distinct m ->
  ordinals_distinct (<[key := p']> m).
Proof.
  intros Hk Ho Hm j b1 b2 p1 p2 H1 H2 He.
  assert (forall b q, <[key := p']> m !! (j, b) = Some q -> exists q', m !! (j, b) = Some q'
            /\ p_input_ordinal q' = p_input_ordinal q) as Hold.
  { intros b q [[<- <-]|[_ Hq]]%lookup_insert_Some; eauto. }
  destruct (Hold _ _ H1) as (q1 & Hq1 & E1). destruct (Hold _ _ H2) as (q2 & Hq2 & E2).
  eapply (Hm j b1 b2 q1 q2); [done|done|congruence].
Qed.

Section effects.
Context `{Iso8601}.

Lemma progress_row_inserted job x d d' :
  insert_progress_row job x d = (Ok tt, d') ->
  progress d !! progress_key job x = None /\ d' = set_progress (<[progress_key job x := pending_row x]> (progress d)) d
  /\ (ordinals_distinct (progress d) -> ordinals_distinct (progress d'))
  /\ (forall j, slots j (progress d') = slots j (progress d)).
Proof.
  unfold insert_progress_row. intros Hx. store_inv. destruct (_ || _) eqn:Hc; [done|]. store_inv.
  rewrite !orb_false_iff in Hc. destruct Hc as [[[[Hc Ht] _] _] _]. apply bool_decide_eq_false, eq_None_not_Some in Hc.
  split_and!; [done|done| |].
  - intros Hd j b1 b2 p1 p2. cbn. unfold progress_key.
    assert (forall b p, progress d !! (job, b) = Some p -> p_input_ordinal p <> np_input_ordinal x) as Hfree.
    { intros b p Hp He. eapply not_true_iff_false; [exact Ht|]. apply existsb_exists. exists ((job, b), p).
      split; [by apply list_elem_of_In, elem_of_map_to_list|]. cbn. by rewrite Z.eqb_refl, He, Z.eqb_refl. }
    intros [[Hk1 <-]|[Hk1 Hp1]]%lookup_insert_Some [[Hk2 <-]|[Hk2 Hp2]]%lookup_insert_Some; cbn.
    + by simplify_eq.
    + injection Hk1 as <- <-. intros He. by apply Hfree in Hp2.
    + injection Hk2 as <- <-. intros He. by apply Hfree in Hp1.
    + by apply (Hd j).
  - intros j. cbn. by apply slots_new.
Qed.
Lemma progress_inserted job l d d' :
  for_each (insert_progress_row job) l d = (Ok tt, d') ->
  d' = set_progress (insert_all (progress_key job) pending_row l (progress d)) d
  /\ NoDup (map (progress_key job) l) /\ Forall (fun x => progress d !! progress_key job x = None) l
  /\ (ordinals_distinct (progress d) -> ordinals_distinct (progress d'))
  /\ (forall j, slots j (progress d') = slots j (progress d)).
Proof.
  intros Hl. destruct (for_each_inserts (progress_key job) pending_row progress set_progress
                         (insert_progress_row job)) with (l := l) (d := d) (d' := d') as (He & Hn & Ha);
    [by intros []|done|done| |done|].
  { intros x e e' Hx. by apply progress_row_inserted in Hx as (? & ? & _). }
  split_and!; try done.
  - intros Hd. revert Hd Hl. apply (preserves_for_each (fun d => ordinals_distinct (progress d))).
    intros x e [] e' Hd Hx. by apply progress_row_inserted in Hx as (_ & _ & Hx & _); apply Hx.
  - intros j. refine (preserves_for_each (fun e => slots j (progress e) = slots j (progress d)) _ l _ d tt d' eq_refl Hl).
    intros x e [] e' Hd Hx. apply progress_row_inserted in Hx as (_ & _ & _ & Hx). by rewrite Hx.
Qed.

Lemma window_inserted job max l now d d' :
  insert_file_window_in_tx job max l now d = (Ok tt, d') ->
  exists w,
    d' = set_progress (insert_all (progress_key job) pending_row l (progress d))
           (set_windows (<[job := w]> (windows d)) d)
    /\ windows d !! job = None /\ w_max_in_flight_files w = max /\ 0 < max
    /\ is_Some (jobs (core d) !! job)
    /\ NoDup (map (progress_key job) l) /\ Forall (fun x => progress d !! progress_key job x = None) l
    /\ (ordinals_distinct (progress d) -> ordinals_distinct (progress d'))
    /\ (forall j, slots j (progress d') = slots j (progress d)).
Proof.
  unfold insert_file_window_in_tx. destruct (max =? 0); [done|]. intros Hx. store_inv.
  destruct (_ || _) eqn:Hc; [done|]. store_inv. rewrite !orb_false_iff in Hc. destruct Hc as [[Hc Hj] Hm].
  apply bool_decide_eq_false, eq_None_not_Some in Hc. unfold job_exists in Hj.
  apply negb_false_iff, bool_decide_eq_true in Hj. apply Z.leb_gt in Hm.
  match goal with H : for_each _ _ _ = _ |- _ => apply progress_inserted in H as (-> & ? & ? & ? & ?) end.
  eexists. split; [reflexivity|]. by split_and!.
Qed.

Definition holds_slot (s : FileProgressState) : bool :=
  match s with ProgressActive | ProgressTerminalizing => true | ProgressPending | ProgressTerminal => false end.
Lemma in_flight_with s a t p : in_flight_state (with_state s a t p) = holds_slot s.
Proof. by destruct s. Qed.
Lemma in_flight_of p : in_flight_state p = holds_slot (p_state p).
Proof. unfold in_flight_state, has_state. by destruct (p_state p). Qed.

(** Rows that are projected as terminal when a run is taken up. *)
Definition marked (job : Z) (l : list string) (m m' : gmap (Z * string) ProgressRow) : Prop :=
  forall key, match m !! key, m' !! key with
    | None, None => True
    | Some p, Some p' => p' = p \/ (key.1 = job /\ key.2 ∈ l /\ p_state p = ProgressPending
                                    /\ exists t, p' = with_state ProgressTerminal (Some t) (Some t) p)
    | _, _ => False
    end.
Lemma terminals_marked job l now d d' :
  mark_file_progress_terminal_in_tx job l now d = (Ok tt, d') ->
  exists m, d' = set_progress m d /\ marked job l (progress d) m
    /\ (ordinals_distinct (progress d) -> ordinals_distinct m)
    /\ (forall j, slots j m = slots j (progress d)).
Proof.
  unfold mark_file_progress_terminal_in_tx. intros Hx. store_inv.
  match goal with H : for_each _ _ _ = _ |- _ => rename H into Hl end. revert Hl.
  match goal with H : d = _ |- _ => clear H | _ => idtac end.
  revert d. induction l as [|b l IH]; intros d Hl; cbn in Hl.
  - injection Hl as <-. exists (progress d). split_and!; [by destruct d| |done|done].
    intros key. destruct (progress d !! key); [by left|done].
  - apply tx_bind_ok in Hl as ([] & d1 & Hb & Hl). unfold mark_progress_terminal in Hb. store_inv.
    match goal with H : update_progress _ _ _ _ = _ |- _ => apply update_progress_ok in H
      as [(-> & p & Hp & Hs & ->)|(-> & -> & _)] end; [|done].
    cbn in *. store_inv. apply bool_decide_eq_true in Hs.
    destruct (IH _ Hl) as (m & -> & Hm & Ho & Hsl). cbn in *. exists m. split_and!; [done| | |].
    + intros key. specialize (Hm key). destruct (decide (key = (job, b))) as [->|Hne].
      * rewrite Hp. rewrite lookup_insert_eq in Hm. destruct (m !! (job, b)) as [p'|]; [|done].
        right. cbn. split_and!; [done|by left|done|]. destruct Hm as [->|(_ & _ & Hst & _)]; [eauto|done].
      * rewrite lookup_insert_ne in Hm by done. destruct (progress d !! key), (m !! key); try done.
        destruct Hm as [->|(? & ? & ? & ?)]; [by left|right]. split_and!; try done. by right.
    + intros Hd. apply Ho. by eapply ordinals_update.
    + intros j. rewrite Hsl, (slots_update _ _ _ p) by done.
      unfold in_flight_in. cbn [fst snd]. rewrite in_flight_with, (in_flight_of p), Hs.
      cbn. rewrite andb_false_r. lia.
Qed.

Lemma opt_i64_ok o o' : opt_i64 o = Ok o' -> o' = o.
Proof.
  unfold opt_i64. destruct o as [v|]; cbn; [|by intros [= <-]].
  destruct (i64_from_u64 v) as [v'|] eqn:Hv; cbn; [|done]. intros [= <-].
  by apply i64_from_u64_ok in Hv as [-> _].
Qed.
Definition phase_key (x : NewFilePhaseSummary) : Z * Z * string :=
  (nf_job_id x, nf_phase_ordinal x, nf_branch_id x).
(** The first row of a phase stays; a later one is answered with it. *)
Lemma upsert_ok input now d row d' :
  upsert_file_phase_summary_in_tx input now d = (Ok row, d') ->
  fp_job_id row = nf_job_id input /\ fp_branch_id row = nf_branch_id input
  /\ fp_phase_ordinal row = nf_phase_ordinal input
  /\ ((d' = d /\ is_Some (file_phases d !! phase_key input))
      \/ (file_phases d !! phase_key input = None
          /\ exists x, d' = set_file_phases (<[phase_key input := x]> (file_phases d)) d
               /\ f_outcome x = nf_outcome input)).
Proof.
  unfold upsert_file_phase_summary_in_tx. intros Hx.
  repeat (store_inv; match goal with H : opt_i64 _ = Ok _ |- _ => apply opt_i64_ok in H; subst end).
  store_inv. destruct (_ || _); [done|]. unfold phase_key.
  destruct (file_phases _ !! _) as [r|] eqn:Hr; cbn -[file_phase_references] in *.
  - unfold row_to_file_phase in *. store_inv. cbn in *. split_and!; try done. left. split; [done|eauto].
  - destruct (negb (file_phase_references _ _ _)); [done|]. store_inv. cbn. split_and!; try done. right.
    split; [done|]. eexists. split; [reflexivity|done].
Qed.

Lemma advance_ok job b k n d moved d' :
  advance_file_progress_in_tx job b k n d = (Ok moved, d') ->
  (moved = true /\ exists p, progress d !! (job, b) = Some p /\ p_state p = ProgressActive
     /\ p_next_phase_ordinal p = k /\ d' = set_progress (<[(job, b) := with_cursor n p]> (progress d)) d)
  \/ (moved = false /\ d' = d /\ forall p, progress d !! (job, b) = Some p ->
       p_state p = ProgressActive -> p_next_phase_ordinal p <> k).
Proof.
  unfold advance_file_progress_in_tx. intros Hx. store_inv.
  match goal with H : update_progress _ _ _ _ = _ |- _ => apply update_progress_ok in H
    as [(-> & p & Hp & Hc & ->)|(-> & -> & Hc)] end.
  - apply andb_true_iff in Hc as [Hs%bool_decide_eq_true Hk%Z.eqb_eq]. left. split; [done|]. by exists p.
  - right. split_and!; try done. intros p Hp Hs. apply Hc in Hp. unfold has_state in Hp. rewrite Hs in Hp.
    cbn in Hp. by apply Z.eqb_neq.
Qed.

(** A row is written and the cursor moves with it, or the cursor had already
    moved. *)
Lemma upsert_and_advance_ok input k n now d row d' :
  upsert_file_phase_summary_and_advance input k n now d = (Ok row, d') ->
  exists d1, upsert_file_phase_summary_in_tx input now d = (Ok row, d1)
    /\ ((exists p, progress d !! (nf_job_id input, nf_branch_id input) = Some p
           /\ p_state p = ProgressActive /\ p_next_phase_ordinal p = k
           /\ d' = set_progress (<[(nf_job_id input, nf_branch_id input) := with_cursor n p]> (progress d)) d1)
        \/ (d' = d1 /\ exists p, progress d !! (nf_job_id input, nf_branch_id input) = Some p
             /\ (p_state p = ProgressActive -> p_next_phase_ordinal p <> k))).
Proof.
  unfold upsert_file_phase_summary_and_advance. rewrite atomically_ok. intros Hx.
  apply tx_bind_ok in Hx as (row' & d1 & Hu & Hx). apply tx_bind_ok in Hx as (moved & d2 & Ha & Hx).
  pose proof (upsert_ok _ _ _ _ _ Hu) as (Hj & Hb & _ & Hc). rewrite Hj, Hb in *.
  assert (progress d1 = progress d) as Hp1. { by destruct Hc as [[-> _]|(_ & x & -> & _)]. }
  apply advance_ok in Ha as [(-> & p & Hp & Hs & Hk & ->)|(-> & -> & Hn)]; rewrite Hp1 in *.
  - store_inv. exists d1. split; [done|]. left. by exists p.
  - unfold fetch_file_progress in Hx. store_inv. rewrite Hp1 in *.
    destruct (progress d !! (nf_job_id input, nf_branch_id input)) as [p|] eqn:Hp; cbn in *; [|done].
    destruct (_ || _); [done|]. store_inv. eexists. split; [done|]. right. split; [done|]. exists p. split; [done|].
    by apply Hn.
Qed.

Lemma terminalization_ok job b d r d' :
  begin_file_terminalization job b d = (r, d') ->
  (d' = d /\ (is_ok r = true -> forall p, progress d !! (job, b) = Some p -> p_state p <> ProgressActive))
  \/ exists p, progress d !! (job, b) = Some p /\ p_state p = ProgressActive
      /\ d' = set_progress (<[(job, b) := with_state ProgressTerminalizing (p_admitted_at p) (p_terminal_at p) p]>
                              (progress d)) d.
Proof.
  unfold begin_file_terminalization. unfold mbind at 1, tx_mbind at 1, lift at 1, i64_from_u64.
  destruct (job <=? i64_max); [|intros [= <- <-]; by left].
  unfold mbind at 1, tx_mbind at 1, update_progress.
  assert (forall d r d', (found ← file_progress job b; lift (require_state ProgressTerminalizing found)) d = (r, d') ->
    d' = d) as Hread by (apply reads_bind; [apply reads_bind; [apply reads_lift|intros; apply reads_getsR]|intros; apply reads_lift]).
  destruct (progress d !! (job, b)) as [p|] eqn:Hp.
  - destruct (has_state ProgressActive p) eqn:Hs; intros Hx%Hread.
    + right. apply bool_decide_eq_true in Hs. exists p. by subst.
    + left. split; [done|]. intros _ q [= <-]. by apply bool_decide_eq_false in Hs.
  - intros Hx%Hread. by left.
Qed.
Lemma terminal_ok job b now d r d' :
  mark_file_terminal job b now d = (r, d') ->
  d' = d \/ exists p t, progress d !! (job, b) = Some p /\ p_state p = ProgressTerminalizing
      /\ d' = set_progress (<[(job, b) := with_state ProgressTerminal (p_admitted_at p) (Some t) p]> (progress d)) d.
Proof.
  unfold mark_file_terminal. unfold mbind at 1, tx_mbind at 1, lift at 1.
  destruct (iso8601 now) as [t|]; [|intros [= <- <-]; by left].
  unfold mbind at 1, tx_mbind at 1, lift at 1, i64_from_u64. destruct (job <=? i64_max); [|intros [= <- <-]; by left].
  unfold mbind at 1, tx_mbind at 1, update_progress.
  assert (forall d r d', (found ← file_progress job b; lift (require_state ProgressTerminal found)) d = (r, d') ->
    d' = d) as Hread by (apply reads_bind; [apply reads_bind; [apply reads_lift|intros; apply reads_getsR]|intros; apply reads_lift]).
  destruct (progress d !! (job, b)) as [p|] eqn:Hp; [|by intros Hx%Hread; left].
  destruct (has_state ProgressTerminalizing p) eqn:Hs; intros Hx%Hread; [right|by left].
  apply bool_decide_eq_true in Hs. exists p, t. by subst.
Qed.
End effects.

(** ** Admission *)

#[export] Instance admission_order_trans : Transitive admission_order.
Proof.
  intros x y z [Hxy|[Hxy ?]] [Hyz|[Hyz ?]]; unfold admission_order; rewrite ?Hxy, <- ?Hyz; try (left; lia).
  right. split; [done|lia].
Qed.
#[export] Instance admission_order_total : Total admission_order.
Proof.
  intros x y. unfold admission_order.
  destruct (Z.le_ge_cases (p_input_ordinal x.2) (p_input_ordinal y.2)), (p_admission_tier x.2), (p_admission_tier y.2);
    cbn; auto with lia.
Qed.

Section admission.
Context `{Iso8601}.

Lemma waiting_in job m key p :
  (key, p) ∈ waiting_files job m <-> key.1 = job /\ m !! key = Some p /\ p_state p = ProgressPending.
Proof.
  unfold waiting_files. rewrite merge_sort_Permutation, list_elem_of_In, filter_In, <- list_elem_of_In.
  rewrite elem_of_map_to_list, andb_true_iff, Z.eqb_eq. unfold has_state. rewrite bool_decide_eq_true. cbn. tauto.
Qed.
Lemma waiting_sorted job m : StronglySorted admission_order (waiting_files job m).
Proof. unfold waiting_files. apply StronglySorted_merge_sort; apply _. Qed.

Lemma admissible_some job d key p :
  admissible job d = Some (key, p) ->
  exists w j, windows d !! job = Some w /\ jobs (core d) !! job = Some j /\ j_state j = JobOpen
    /\ slots job (progress d) < w_max_in_flight_files w
    /\ key.1 = job /\ progress d !! key = Some p /\ p_state p = ProgressPending
    /\ forall b q, progress d !! (job, b) = Some q -> p_state q = ProgressPending -> (job, b) = key
         \/ admission_order (key, p) ((job, b), q).
Proof.
  unfold admissible. destruct (windows d !! job) as [w|]; [|done]. destruct (jobs (core d) !! job) as [j|]; [|done].
  destruct (_ && _) eqn:Hc; [|done]. apply andb_true_iff in Hc as [Ho%bool_decide_eq_true Hs%Z.ltb_lt].
  intros Hh. pose proof (waiting_sorted job (progress d)) as Hsort.
  destruct (waiting_files job (progress d)) as [|x l] eqn:Hw; [done|]. injection Hh as ->.
  assert ((key, p) ∈ waiting_files job (progress d)) as Hin by (rewrite Hw; by left).
  apply waiting_in in Hin as (Hj & Hp & Hst). exists w, j. split_and!; try done.
  intros b q Hq Hqs. assert (((job, b), q) ∈ waiting_files job (progress d)) as Hin by by apply waiting_in.
  rewrite Hw in Hin. apply elem_of_cons in Hin as [He|Hin]; [left; by simplify_eq|right].
  inversion Hsort as [|? ? _ Ha]; subst. rewrite Forall_forall in Ha. by apply Ha.
Qed.
Lemma admissible_none job d w j :
  admissible job d = None -> windows d !! job = Some w -> jobs (core d) !! job = Some j -> j_state j = JobOpen ->
  w_max_in_flight_files w <= slots job (progress d)
  \/ forall b q, progress d !! (job, b) = Some q -> p_state q <> ProgressPending.
Proof.
  unfold admissible. intros Ha Hw Hj Ho. rewrite Hw, Hj, bool_decide_eq_true_2 in Ha by done.
  cbn [andb] in Ha. fold (slots job (progress d)) in Ha.
  destruct (Z.ltb_spec (slots job (progress d)) (w_max_in_flight_files w)); [right|by left].
  intros b q Hq Hs. assert (((job, b), q) ∈ waiting_files job (progress d)) as Hin by by apply waiting_in.
  destruct (waiting_files job (progress d)); [by apply elem_of_nil in Hin|done].
Qed.

(** An admission either changes nothing or moves the row it found. *)
Definition admitted (t : string) (p : ProgressRow) : ProgressRow :=
  with_state ProgressActive (Some t) (p_terminal_at p) p.
Lemma admit_effect job now d r d' :
  admit_next_file job now d = (r, d') ->
  (d' = d /\ forall g, r <> Ok (Some g))
  \/ exists b p t, admissible job d = Some ((job, b), p) /\ format_text now = Some t
      /\ d' = set_progress (<[(job, b) := admitted t p]> (progress d)) d
      /\ r = (Some <$> decode_file_progress (job, b) (admitted t p)).
Proof.
  unfold admit_next_file. unfold mbind at 1, tx_mbind at 1.
  destruct (atomically _ d) as [[found|e] d1] eqn:Ha.
  - rewrite atomically_ok in Ha. store_inv. destruct (admissible job d) as [[key p]|] eqn:Had.
    + store_inv. pose proof (admissible_some _ _ _ _ Had) as (w & j & _ & _ & _ & _ & Hj & _).
      destruct key as [j' b]. cbn in Hj. subst j'. intros [= <- <-]. right. exists b, p, x.
      by split_and!.
    + assert (found = None /\ d1 = d) as [-> ->] by (repeat case_match; store_inv; done).
      intros [= <- <-]. by left.
  - apply atomically_err in Ha as ->. intros [= <- <-]. by left.
Qed.

Lemma decode_progress key p x :
  decode_file_progress key p = Ok x ->
  fg_job_id x = key.1 /\ fg_branch_id x = key.2 /\ fg_input_ordinal x = p_input_ordinal p
  /\ fg_admission_tier x = p_admission_tier p /\ fg_state x = p_state p
  /\ fg_next_phase_ordinal x = p_next_phase_ordinal p
  /\ is_u32 (p_input_ordinal p) = true.
Proof. unfold decode_file_progress. intros Hx. store_inv. by subst. Qed.

(** A row that decodes. *)
Definition stamp_readable (o : option string) : Prop := forall t, o = Some t -> parses t.
Definition progress_readable (p : ProgressRow) : Prop :=
  is_u32 (p_input_ordinal p) = true /\ is_u32 (p_next_phase_ordinal p) = true
  /\ stamp_readable (p_admitted_at p) /\ stamp_readable (p_terminal_at p).
Lemma stamp_read o : stamp_readable o -> exists o', transpose (parse_iso8601 <$> o) = Ok o'.
Proof.
  destruct o as [t|]; cbn; [|eauto]. intros Ho. destruct (Ho t eq_refl) as [z Hz].
  unfold parse_iso8601. rewrite Hz. cbn. eauto.
Qed.
Lemma progress_decodes key p :
  0 <= key.1 -> progress_readable p -> exists g, decode_file_progress key p = Ok g.
Proof.
  intros Hk (Ho & Hn & Ha & Ht). unfold decode_file_progress, u64_from_i64, u32_from_i64.
  apply Z.leb_le in Hk. rewrite Hk, Ho, Hn. cbn.
  destruct (stamp_read _ Ha) as [a ->]. cbn. destruct (stamp_read _ Ht) as [t ->]. cbn. eauto.
Qed.

(** Before another in the queue of a job. *)
Definition goes_before (p q : ProgressRow) : Prop :=
  FileAdmissionTier_as_i64 (p_admission_tier p) < FileAdmissionTier_as_i64 (p_admission_tier q)
  \/ (p_admission_tier p = p_admission_tier q /\ p_input_ordinal p < p_input_ordinal q).
Definition awaits (d : WorkflowDb) (job : Z) (b : string) (p : ProgressRow) : Prop :=
  progress d !! (job, b) = Some p /\ p_state p = ProgressPending.
(** A job whose window can take a file, and one whose cannot. *)
Definition window_open (d : WorkflowDb) (job max : Z) : Prop :=
  exists w j, windows d !! job = Some w /\ w_max_in_flight_files w = max
    /\ jobs (core d) !! job = Some j /\ j_state j = JobOpen.
Definition refusal (d : WorkflowDb) (job : Z) : option VoomError :=
  match windows d !! job, jobs (core d) !! job with
  | Some _, Some j =>
      match j_state j with
      | JobOpen => None | JobCancelled => Some EUserCancellation | JobFailed => Some EPolicyExecution
      | JobSucceeded => Some EConflict
      end
  | _, _ => Some ENotFound
  end.
End admission.

Section admission_law.
Context `{Iso8601Laws}.

Lemma admit_evaluates job now t d :
  format_text now = Some t -> job <= i64_max ->
  admit_next_file job now d
  = match admissible job d with
    | Some (key, p) => (Some <$> decode_file_progress key (admitted t p),
                        set_progress (<[key := admitted t p]> (progress d)) d)
    | None => (match refusal d job with Some e => Err e | None => Ok None end, d)
    end.
Proof.
  intros Hn Hj%Z.leb_le. unfold admit_next_file, refusal, atomically, mbind, tx_mbind, lift, gets, iso8601, i64_from_u64.
  rewrite Hn, Hj. cbn. destruct (admissible job d) as [[key p]|]; cbn.
  - fold (admitted t p). by destruct (decode_file_progress key (admitted t p)).
  - destruct (windows d !! job); [|done]. destruct (jobs (core d) !! job) as [j|]; [|done]. by destruct (j_state j).
Qed.
Lemma admission_order_strict d job b b' p q :
  ordinals_distinct (progress d) -> progress d !! (job, b) = Some p -> progress d !! (job, b') = Some q ->
  b' <> b -> admission_order ((job, b), p) ((job, b'), q) -> goes_before p q.
Proof.
  intros Hd Hp Hq Hne [?|[? Hle]]; [by left|right]. cbn in *. split; [done|].
  destruct (Z.eq_dec (p_input_ordinal p) (p_input_ordinal q)) as [He|]; [|lia].
  by destruct Hne; apply (Hd job b' b q p).
Qed.

(** C19: Admission is exact. A file of an open job is admitted whenever one waits
    and the window has a free slot: the one whose turn it is, interrupted files
    before the others and then in the order of the input, and nothing else
    changes. Nothing is admitted when the window is full or no file waits; a
    job that is closed, or has no window, is answered with the error of its
    state. *)
Theorem admission_exact job now t d :
  format_text now = Some t -> 0 <= job <= i64_max -> ordinals_distinct (progress d) ->
  (forall b p, awaits d job b p -> progress_readable p) ->
  match admit_next_file job now d with
  | (Ok (Some g), d') => exists b p max, awaits d job b p /\ window_open d job max
      /\ slots job (progress d) < max
      /\ (forall b' q, awaits d job b' q -> b' <> b -> goes_before p q)
      /\ d' = set_progress (<[(job, b) := admitted t p]> (progress d)) d
      /\ slots job (progress d') = slots job (progress d) + 1
      /\ fg_branch_id g = b /\ fg_state g = ProgressActive
      /\ fg_next_phase_ordinal g = p_next_phase_ordinal p
  | (Ok None, d') => d' = d /\ exists max, window_open d job max
      /\ (max <= slots job (progress d) \/ forall b p, ~ awaits d job b p)
  | (Err e, d') => d' = d /\ refusal d job = Some e
  end.
Proof.
  intros Hnow Hjob Hord Hread. destruct (admit_next_file job now d) as [r d'] eqn:Ha.
  rewrite (admit_evaluates _ _ t) in Ha by (done || lia).
  destruct (admissible job d) as [[[j' b] p]|] eqn:Had.
  - destruct (admissible_some _ _ _ _ Had) as (w & j & Hw & Hj & Ho & Hs & He & Hp & Hst & Hmin). cbn in He. subst j'.
    destruct (progress_decodes (job, b) (admitted t p)) as [g Hg]; [cbn; lia| |].
    { destruct (Hread b p) as (? & ? & ? & ?); [done|]. split_and!; try done.
      intros ? [= <-]. eexists. by apply parse_format. }
    rewrite Hg in Ha. cbn in Ha. injection Ha as <- <-.
    apply decode_progress in Hg as (_ & Hgb & _ & _ & Hgs & Hgn & _).
    exists b, p, (w_max_in_flight_files w). split_and!; try done.
    + by exists w, j.
    + intros b' q [Hq Hqs] Hne. destruct (Hmin b' q Hq Hqs) as [?|?]; [by simplify_eq|].
      by eapply (admission_order_strict d job b b').
    + cbn. rewrite (slots_update _ _ _ p) by done. unfold in_flight_in. cbn [fst snd].
      unfold admitted. rewrite in_flight_with, (in_flight_of p), Hst, Z.eqb_refl. cbn. lia.
  - destruct (refusal d job) as [e|] eqn:Hr; injection Ha as <- <-; [done|]. split; [done|].
    unfold refusal in Hr. destruct (windows d !! job) as [w|] eqn:Hw; [|done].
    destruct (jobs (core d) !! job) as [j|] eqn:Hj; [|done]. destruct (j_state j) eqn:Ho; try done.
    exists (w_max_in_flight_files w). split; [by exists w, j|].
    destruct (admissible_none _ _ _ _ Had Hw Hj Ho) as [?|Hn]; [by left|right].
    intros b p [Hp Hst]. by apply (Hn b p).
Qed.
End admission_law.
