(* ===== verification/Coordinator.v ===== *)
(** * The coordinator of policy jobs

    [voom-control-plane/src/workflow/coordinator]: how a phase is planned for a
    file ([mod.rs], [planning.rs]), how its outcome is recorded
    ([finalize.rs]), how an interrupted run is taken up again ([resume.rs]), and
    the runs that come of it, in which the pipelines of several files interleave
    and may stop at any point. What tickets, commits and verifications say of a
    file is an argument of the operations that look it up. *)

From S2P Require Import Prelude Json Vocab Bytes Operations Store Jobs Tickets Workers Leases ControlPlane.
From S2P Require Import PolicySyntax TrackFilters PolicyConditions PolicyCompiled PlanModel PlanConditions Planner Progress.
From Stdlib Require Import ZArith Lia Bool String Ascii.
From stdpp Require Import base gmap strings list sorting.

Open Scope list_scope.
Open Scope Z_scope.

(** ** Files *)

Record PhaseFile := {
  pf_asset_id : Z; pf_version_id : Z; pf_snapshot : MediaSnapshot; pf_branch_id : string;
  pf_ordinal : Z; pf_admission_tier : FileAdmissionTier; pf_resume_ordinal : Z;
  pf_phase_history : gmap Z FilePhaseOutcome;
}.
Definition run_starts_for_files (files : list PhaseFile) : list NewFileRunStart :=
  map (fun f => {| ns_branch_id := pf_branch_id f; ns_starting_file_version_id := pf_version_id f;
                   ns_starting_phase_ordinal := 0 |}) files.

Record ResolvedFileInput := {
  ri_ordinal : Z; ri_selected_version_id : Z; ri_file_asset_id : Z; ri_active_version_id : Z;
  ri_active_snapshot : MediaSnapshot;
}.
Definition initial_phase_file (x : ResolvedFileInput * (Z * string)) : Res PhaseFile :=
  let '(resolved, (version_id, branch_id)) := x in
  if negb (version_id =? ri_selected_version_id resolved) then Err EInternal
  else Ok {| pf_asset_id := ri_file_asset_id resolved; pf_version_id := ri_active_version_id resolved;
             pf_snapshot := ri_active_snapshot resolved; pf_branch_id := branch_id;
             pf_ordinal := ri_ordinal resolved; pf_admission_tier := TierPending; pf_resume_ordinal := 0;
             pf_phase_history := ∅ |}.
Definition initial_phase_files (resolved : list ResolvedFileInput) (branch_ids : list (Z * string)) :
    Res (list PhaseFile) :=
  if negb (length resolved =? length branch_ids)%nat then Err EInternal
  else collect initial_phase_file (combine resolved branch_ids).

(** ** Gates *)

Definition gate_decision (t : RunIfTrigger) (o : FilePhaseOutcome) : Res bool :=
  match t, o with
  | Completed, (FileCommitted | FileVerified | FileSkipped) => Ok true
  | Modified, FileCommitted => Ok true
  | Modified, (FileVerified | FileSkipped) => Ok false
  | _, FileBlocked => Err EPolicyExecution
  end.
Definition gate_admits (g : CompiledRunIf) (referenced : Z) (f : PhaseFile) : Res bool :=
  o ← ok_or (pf_phase_history f !! referenced) EPolicyExecution;
  gate_decision (trigger g) o.
Definition phase_gate_admission (p : CompiledPolicy) (phase_name : bytes) (files : list PhaseFile) :
    Res (list bool) :=
  phase ← ok_or (find_phase p phase_name) EPolicyExecution;
  match run_if phase with
  | None => Ok (map (fun _ => true) files)
  | Some gate =>
      match position (eqb_text phase_name) (cp_phase_order p),
            position (eqb_text (gate_phase gate)) (cp_phase_order p) with
      | Some current, Some referenced =>
          if (current <=? referenced)%nat then Err EPolicyExecution
          else if negb (is_u32 (Z.of_nat referenced)) then Err EInternal
          else collect (gate_admits gate (Z.of_nat referenced)) files
      | _, _ => Err EPolicyExecution
      end
  end.

(** ** The plan of a phase *)

Inductive Disposition := DispBlocked | DispSkipped | DispPlanned (node_ids : list bytes).

Definition is_file_mutation (k : PlanOperationKind) : bool :=
  match k with KRemux | KTranscodeVideo | KTranscodeAudio => true | _ => false end.
Definition targets_file (version_id : Z) (n : PlanNode) : bool :=
  match pn_target n with TFileVersion id => id =? version_id | _ => false end.
Definition with_status (s : NodeStatus) (n : PlanNode) : bool := bool_decide (pn_status n = s).
Definition classify_file (plan : ExecutionPlan) (f : PhaseFile) : Res Disposition :=
  let nodes := List.filter (targets_file (pf_version_id f)) (ep_nodes plan) in
  let planned := List.filter (with_status Planned) nodes in
  let mutations := List.filter (fun n => is_file_mutation (pn_operation_kind n)) planned in
  if (1 <? length mutations)%nat then Err EPolicyExecution
  else match planned with
       | _ :: _ => Ok (DispPlanned (map pn_node_id planned))
       | [] => if existsb (with_status Blocked) nodes then Ok DispBlocked else Ok DispSkipped
       end.
Definition classify_phase (files : list PhaseFile) (plan : ExecutionPlan) : Res (list Disposition) :=
  collect (classify_file plan) files.

Definition is_completed (o : FilePhaseOutcome) : bool :=
  match o with FileCommitted | FileVerified => true | FileSkipped | FileBlocked => false end.
Definition phase_outcome (outcomes : list FilePhaseOutcome) : PhaseOutcome :=
  match outcomes with
  | [] => PhaseSkipped
  | _ =>
      if forallb is_completed outcomes then PhaseCompleted
      else if existsb is_completed outcomes then PartiallyCommitted
      else if existsb (fun o => bool_decide (o = FileBlocked)) outcomes then PhaseBlocked
      else PhaseSkipped
  end.

Fixpoint reject_on_error_from (p : CompiledPolicy) (names : list bytes) : Res unit :=
  match names with
  | [] => Ok tt
  | name :: names' =>
      match find_phase p name with
      | None => reject_on_error_from p names'
      | Some phase =>
          match on_error phase with
          | None | Some Abort | Some Continue => reject_on_error_from p names'
          | Some Skip => Err EPolicyValidationError
          end
      end
  end.
Definition reject_unpublished_on_error (p : CompiledPolicy) : Res unit :=
  reject_on_error_from p (cp_phase_order p).

Definition phase_error_strategy (p : CompiledPolicy) (phase_name : bytes) : Res ErrorStrategy :=
  phase ← ok_or (find_phase p phase_name) EPolicyExecution;
  match on_error phase with
  | None | Some Abort => Ok Abort
  | Some Continue => Ok Continue
  | Some Skip => Err EPolicyValidationError
  end.

Section planning.
Context {hash : Blake3Hex} {unicode : PlanVideo.UnicodeLowercase} {size : SerializedSize}.
Context {millis : DurationMillis}.

Definition with_snapshots (d : PolicyInputSetDraft) (l : list MediaSnapshotInput) : PolicyInputSetDraft := {|
  is_slug := is_slug d; is_display_name := is_display_name d; is_schema_version := is_schema_version d;
  source_kind := source_kind d; is_created_at := is_created_at d; is_description := is_description d;
  fixture_labels := fixture_labels d; synthetic_targets := synthetic_targets d; media_snapshots := l;
  identity_evidence := identity_evidence d; bundle_targets := bundle_targets d;
  quality_profiles := quality_profiles d; input_issues := input_issues d |}.
Definition phase_draft (base : PolicyInputSetDraft) (files : list PhaseFile) : PolicyInputSetDraft :=
  with_snapshots base (map (fun f => planning_input (pf_ordinal f) (pf_snapshot f)) files).

(** The first phase of that name is changed in place. *)
Definition resolve_phase (suppress_operations : bool) (ph : CompiledPhase) : CompiledPhase := {|
  cp_name := cp_name ph; depends_on := depends_on ph; run_if := None; skip_if := skip_if ph;
  on_error := on_error ph; cp_operations := if suppress_operations then [] else cp_operations ph |}.
Fixpoint replace_phase (f : CompiledPhase -> CompiledPhase) (name : bytes) (phases : list CompiledPhase) :
    option (list CompiledPhase) :=
  match phases with
  | [] => None
  | ph :: phases' =>
      if eqb_text (cp_name ph) name then Some (f ph :: phases')
      else rest ← replace_phase f name phases'; Some (ph :: rest)
  end.
Definition with_phases (p : CompiledPolicy) (phases : list CompiledPhase) : CompiledPolicy := {|
  policy_name := policy_name p; policy_slug := policy_slug p; source_hash := source_hash p;
  schema_version := schema_version p; cp_metadata := cp_metadata p; cp_config := cp_config p;
  cp_phases := phases; cp_phase_order := cp_phase_order p; warnings := warnings p |}.
Definition resolved_phase_policy (p : CompiledPolicy) (phase_name : bytes) (suppress_operations : bool) :
    Res CompiledPolicy :=
  phases ← ok_or (replace_phase (resolve_phase suppress_operations) phase_name (cp_phases p)) EPolicyExecution;
  Ok (with_phases p phases).

(** The files a phase is planned for: those its gate admits, or all of them,
    with no operations, when it admits none. *)
Definition admitted_files (files : list PhaseFile) (gates : list bool) : list PhaseFile :=
  map fst (List.filter (fun fg => fg.2 : bool) (combine files gates)).

Record PlannedPhase := {
  pp_plan : ExecutionPlan; pp_dispositions : list Disposition; pp_error_strategy : ErrorStrategy;
}.
(** The compliance report made of the plan is left out. *)
Definition plan_phase_for_files (p : CompiledPolicy) (context : PlanningContext) (base : PolicyInputSetDraft)
    (phase_name : bytes) (entering : list PhaseFile) : Res PlannedPhase :=
  gates ← phase_gate_admission p phase_name entering;
  let admitted := admitted_files entering gates in
  let suppress := is_empty admitted in
  let planning_files := if suppress then entering else admitted in
  policy ← resolved_phase_policy p phase_name suppress;
  plan ← match plan_phase {| pr_policy := policy; pr_input := phase_draft base planning_files;
                             pr_context := context |} phase_name with
         | Ok plan => Ok plan | Err _ => Err EPlanGeneration end;
  dispositions ← classify_phase entering plan;
  strategy ← phase_error_strategy p phase_name;
  Ok {| pp_plan := plan; pp_dispositions := dispositions; pp_error_strategy := strategy |}.
End planning.

(** ** Dispatch *)

Definition PlannedLineageGuard_new (planned_file_count : nat) (expectations : list (Z * Z)) :
    Res (list (Z * Z)) :=
  if (planned_file_count =? 0)%nat then Err EConfig
  else if negb (length expectations =? planned_file_count)%nat then Err EConfig
  else if negb (bool_decide (NoDup (map fst expectations))) then Err EConfig
  else Ok expectations.
Definition is_planned (d : Disposition) : bool := match d with DispPlanned _ => true | _ => false end.
Record PhaseDispatchScope := { sc_planned_count : nat; sc_lineage_guard : list (Z * Z) }.
Definition phase_dispatch_scope (files : list PhaseFile) (dispositions : list Disposition) :
    Res (option PhaseDispatchScope) :=
  if negb (length files =? length dispositions)%nat then Err EInternal else
  let planned_count := length (List.filter is_planned dispositions) in
  if (planned_count =? 0)%nat then Ok None else
  let expectations :=
    map (fun fd => (pf_asset_id fd.1, pf_version_id fd.1))
      (List.filter (fun fd => is_planned fd.2) (combine files dispositions)) in
  guard ← PlannedLineageGuard_new planned_count expectations;
  Ok (Some {| sc_planned_count := planned_count; sc_lineage_guard := guard |}).

(** What is made of the tickets of a phase whose failure a policy tolerates. *)
Fixpoint any_failed (states : list TicketState) : Res bool :=
  match states with
  | [] => Ok false
  | TicketSucceeded :: states' => any_failed states'
  | TicketFailed :: states' => _ ← any_failed states'; Ok true
  | (TicketPending | TicketReady | TicketLeased) :: _ => Err EInternal
  end.
Definition continued_disposition (d : Disposition) (states : list TicketState) : Res Disposition :=
  match d with
  | DispPlanned _ =>
      match states with
      | [] => Err EInternal
      | _ => failed ← any_failed states; Ok (if (failed : bool) then DispBlocked else d)
      end
  | _ => Ok d
  end.
Inductive WorkflowFailureDisposition := IsolatedTicket | Fatal.
Definition should_continue_after_dispatch_failure (d : WorkflowFailureDisposition) (s : ErrorStrategy) : bool :=
  match d, s with IsolatedTicket, Continue => true | _, _ => false end.

(** ** The outcome of a phase *)

Record ProducedRefs := {
  pr_file_version_id : option Z; pr_file_location_id : option Z; pr_artifact_handle_id : option Z;
  pr_artifact_verification_id : option Z; pr_reprobe_snapshot_id : option Z;
}.
Definition ProducedRefs_default : ProducedRefs := {|
  pr_file_version_id := None; pr_file_location_id := None; pr_artifact_handle_id := None;
  pr_artifact_verification_id := None; pr_reprobe_snapshot_id := None |}.
Definition ProducedRefs_seed (r : ProducedRefs) (job_id phase_ordinal : Z) (branch_id : string)
    (ticket_ids : list Z) (outcome : FilePhaseOutcome) : NewFilePhaseSummary := {|
  nf_job_id := job_id; nf_phase_ordinal := phase_ordinal; nf_branch_id := branch_id;
  nf_ticket_ids := ticket_ids; nf_produced_file_version_id := pr_file_version_id r;
  nf_produced_file_location_id := pr_file_location_id r; nf_artifact_handle_id := pr_artifact_handle_id r;
  nf_artifact_verification_id := pr_artifact_verification_id r;
  nf_reprobe_snapshot_id := pr_reprobe_snapshot_id r; nf_outcome := outcome |}.
Definition resume_seed (row : FilePhaseSummary) : ProducedRefs := {|
  pr_file_version_id := fp_produced_file_version_id row;
  pr_file_location_id := fp_produced_file_location_id row;
  pr_artifact_handle_id := fp_artifact_handle_id row;
  pr_artifact_verification_id := fp_artifact_verification_id row;
  pr_reprobe_snapshot_id := fp_reprobe_snapshot_id row |}.

(** What is found of the tickets of a phase for a file: a verification, a
    commit with the snapshot of its result, and the tickets in scope, each or an
    error of the lookup; and whether the version the phase was planned for is
    still the active one. *)
Record PhaseEvidence := {
  pe_tickets : Res (list Z);
  pe_verified : Res (option ProducedRefs);
  pe_committed : Res (option (ProducedRefs * MediaSnapshot) * list Z);
  pe_still_active : Res unit;
}.

Section finalize.
Context `{Iso8601}.

Definition write_file_row_and_advance (job_id phase_ordinal : Z) (f : PhaseFile) (o : FilePhaseOutcome)
    (ticket_ids : list Z) (produced : option ProducedRefs) (now : Z) : WM FilePhaseSummary :=
  upsert_file_phase_summary_and_advance
    (ProducedRefs_seed (default ProducedRefs_default produced) job_id phase_ordinal (pf_branch_id f)
       ticket_ids o) phase_ordinal (phase_ordinal + 1) now.

Definition with_outcome (phase_ordinal : Z) (o : FilePhaseOutcome) (f : PhaseFile) : PhaseFile := {|
  pf_asset_id := pf_asset_id f; pf_version_id := pf_version_id f; pf_snapshot := pf_snapshot f;
  pf_branch_id := pf_branch_id f; pf_ordinal := pf_ordinal f; pf_admission_tier := pf_admission_tier f;
  pf_resume_ordinal := pf_resume_ordinal f;
  pf_phase_history := <[phase_ordinal := o]> (pf_phase_history f) |}.
Definition with_snapshot (s : MediaSnapshot) (f : PhaseFile) : PhaseFile := {|
  pf_asset_id := pf_asset_id f; pf_version_id := ms_file_version_id s; pf_snapshot := s;
  pf_branch_id := pf_branch_id f; pf_ordinal := pf_ordinal f; pf_admission_tier := pf_admission_tier f;
  pf_resume_ordinal := pf_resume_ordinal f; pf_phase_history := pf_phase_history f |}.

(** The file goes on unless it is blocked. *)
Definition finalize_file (job_id phase_ordinal : Z) (f : PhaseFile) (d : Disposition) (e : PhaseEvidence)
    (now : Z) : WM (FilePhaseSummary * MediaSnapshot * option PhaseFile) :=
  match d with
  | DispBlocked =>
      row ← write_file_row_and_advance job_id phase_ordinal f FileBlocked [] None now;
      mret (row, pf_snapshot f, None)
  | DispSkipped =>
      row ← write_file_row_and_advance job_id phase_ordinal f FileSkipped [] None now;
      mret (row, pf_snapshot f, Some (with_outcome phase_ordinal FileSkipped f))
  | DispPlanned _ =>
      ticket_ids ← lift (pe_tickets e);
      verified ← lift (pe_verified e);
      match verified with
      | Some refs =>
          row ← write_file_row_and_advance job_id phase_ordinal f FileVerified ticket_ids (Some refs) now;
          mret (row, pf_snapshot f, Some (with_outcome phase_ordinal FileVerified f))
      | None =>
          committed ← lift (pe_committed e);
          match committed with
          | (None, scoped) =>
              _ ← lift (pe_still_active e);
              row ← write_file_row_and_advance job_id phase_ordinal f FileSkipped scoped None now;
              mret (row, pf_snapshot f, Some (with_outcome phase_ordinal FileSkipped f))
          | (Some (refs, snapshot), scoped) =>
              row ← write_file_row_and_advance job_id phase_ordinal f FileCommitted scoped (Some refs) now;
              mret (row, snapshot, Some (with_outcome phase_ordinal FileCommitted (with_snapshot snapshot f)))
          end
      end
  end.

(** After a dispatch that failed only what was verified or committed is kept. *)
Definition finalize_failed_file_phase (job_id phase_ordinal : Z) (f : PhaseFile) (d : Disposition)
    (e : PhaseEvidence) (now : Z) : WM (option FilePhaseSummary) :=
  match d with
  | DispPlanned _ =>
      ticket_ids ← lift (pe_tickets e);
      verified ← lift (pe_verified e);
      match verified with
      | Some refs =>
          row ← write_file_row_and_advance job_id phase_ordinal f FileVerified ticket_ids (Some refs) now;
          mret (Some row)
      | None =>
          committed ← lift (pe_committed e);
          match committed with
          | (None, _) => mret None
          | (Some (refs, _), scoped) =>
              row ← write_file_row_and_advance job_id phase_ordinal f FileCommitted scoped (Some refs) now;
              mret (Some row)
          end
      end
  | _ => mret None
  end.

Definition record_phase_entry (p : CompiledPolicy) (job_id phase_ordinal : Z) (phase_name : bytes)
    (f : PhaseFile) (now : Z) : WM unit :=
  gates ← lift (phase_gate_admission p phase_name [f]);
  match gates with
  | [admitted] =>
      _ ← upsert_file_phase_entry {| ne_job_id := job_id; ne_phase_ordinal := phase_ordinal;
            ne_branch_id := pf_branch_id f; ne_media_snapshot_id := ms_id (pf_snapshot f);
            ne_gate_admitted := admitted |} now;
      mret tt
  | _ => throw EInternal
  end.
End finalize.

(** ** Taking up an interrupted run *)

Record PreparedResumeSeed := {
  rs_phase_ordinal : Z; rs_branch_id : string; rs_ticket_ids : list Z; rs_produced : ProducedRefs;
  rs_outcome : FilePhaseOutcome;
}.
Record PriorBranchState := { bs_next_ordinal : Z; bs_recorded_tip : Z; bs_phase_complete : bool }.

Abbreviation History := (gmap Z FilePhaseOutcome).
Definition merge_phase_outcome (history : History) (phase_ordinal : Z) (o : FilePhaseOutcome) : Res History :=
  match history !! phase_ordinal with
  | Some existing =>
      if bool_decide (existing = o) then Ok (<[phase_ordinal := o]> history) else Err EPolicyExecution
  | None => Ok (<[phase_ordinal := o]> history)
  end.
Fixpoint merge_inherited (start : FileRunStart) (rows : list FileRunHistory) (phase_count : Z)
    (history : History) : Res History :=
  match rows with
  | [] => Ok history
  | row :: rows' =>
      if (fs_starting_phase_ordinal start <=? fh_phase_ordinal row) || (phase_count <=? fh_phase_ordinal row)
      then Err EPolicyExecution
      else history' ← merge_phase_outcome history (fh_phase_ordinal row) (fh_outcome row);
           merge_inherited start rows' phase_count history'
  end.
(** The first blocked phase, in the order of the phases. *)
Definition first_blocked (history : History) : option Z :=
  fst <$> List.find (fun kv => bool_decide (kv.2 = FileBlocked)) (rows_asc history).
Definition validate_prior_history (start : FileRunStart) (rows : list FileRunHistory) (phase_count : Z) :
    Res History :=
  history ← merge_inherited start rows phase_count ∅;
  match first_blocked history with
  | Some blocked =>
      if existsb (fun kv => blocked <? kv.1) (map_to_list history) then Err EPolicyExecution else Ok history
  | None => Ok history
  end.
Fixpoint merge_prior_rows (history : History) (rows : list FilePhaseSummary) : Res History :=
  match rows with
  | [] => Ok history
  | row :: rows' =>
      history' ← merge_phase_outcome history (fp_phase_ordinal row) (fp_outcome row);
      merge_prior_rows history' rows'
  end.

Definition validate_seed_row (start : FileRunStart) (row : FilePhaseSummary) (inherited : History)
    (phase_count : Z) : Res unit :=
  let valid :=
    match fp_outcome row with
    | FileBlocked => fs_starting_phase_ordinal start =? phase_count
    | o => bool_decide (inherited !! fp_phase_ordinal row = Some o)
    end in
  if valid then Ok tt else Err EPolicyExecution.
Fixpoint validate_seeds (start : FileRunStart) (inherited : History) (phase_count : Z)
    (rows : list FilePhaseSummary) : Res (list FilePhaseSummary) :=
  match rows with
  | row :: rows' =>
      if fp_phase_ordinal row <? fs_starting_phase_ordinal start then
        _ ← validate_seed_row start row inherited phase_count;
        validate_seeds start inherited phase_count rows'
      else Ok rows
  | [] => Ok []
  end.
Definition is_blocked_row (row : FilePhaseSummary) : bool := bool_decide (fp_outcome row = FileBlocked).
Fixpoint validate_tail (phase_count next : Z) (rows : list FilePhaseSummary) : Res Z :=
  match rows with
  | [] => Ok next
  | row :: rows' =>
      if (phase_count <=? fp_phase_ordinal row) || negb (fp_phase_ordinal row =? next)
      then Err EPolicyExecution
      else if is_blocked_row row && negb (is_empty rows') then Err EPolicyExecution
      else validate_tail phase_count (next + 1) rows'
  end.
Definition recorded_tip (start : FileRunStart) (rows : list FilePhaseSummary) : Z :=
  default (fs_starting_file_version_id start) (head (omap fp_produced_file_version_id (rev rows))).
Definition last_blocked (rows : list FilePhaseSummary) : bool :=
  match last rows with Some row => is_blocked_row row | None => false end.
Definition validate_prior_row_shape (start : FileRunStart) (rows : list FilePhaseSummary)
    (inherited : History) (phase_count : Z) : Res PriorBranchState :=
  if phase_count <? fs_starting_phase_ordinal start then Err EPolicyExecution else
  tail ← validate_seeds start inherited phase_count rows;
  next ← validate_tail phase_count (fs_starting_phase_ordinal start) tail;
  Ok {| bs_next_ordinal := next; bs_recorded_tip := recorded_tip start rows;
        bs_phase_complete := last_blocked rows || (next =? phase_count) |}.

Definition validate_prior_progress (start : FileRunStart) (p : FileProgress) (state : PriorBranchState) :
    Res unit :=
  if negb (fg_next_phase_ordinal p =? bs_next_ordinal state) then Err EPolicyExecution else
  match fg_state p with
  | ProgressPending =>
      if negb (bs_next_ordinal state =? fs_starting_phase_ordinal start) || bs_phase_complete state
      then Err EPolicyExecution else Ok tt
  | ProgressActive => Ok tt
  | ProgressTerminalizing | ProgressTerminal =>
      if negb (bs_phase_complete state) then Err EPolicyExecution else Ok tt
  end.

(** What the tickets of the prior run show of the phase after the last recorded
    one: a version that was committed, or one that was verified. *)
Record ResumeEvidence := {
  re_committed : Res (option (ProducedRefs * list Z));
  re_verified : Res (option ProducedRefs);
}.
Definition TicketLookup : Type := PhaseFile -> Z -> ResumeEvidence.

Record PriorBranch := {
  pb_start : FileRunStart; pb_progress : FileProgress; pb_rows : list FilePhaseSummary;
  pb_inherited : list FileRunHistory;
}.
Record PreparedResumeBranch := {
  rb_survivor : option PhaseFile; rb_run_start : NewFileRunStart; rb_history : list NewFileRunHistory;
  rb_seeds : list PreparedResumeSeed; rb_terminal_progress : option NewFileProgress;
}.

Definition version_asset (version_id : Z) : WM (option Z) :=
  id ← lift (i64_from_u64 version_id);
  gets (fun d => version_assets d !! id).
Definition require_lineage (f : PhaseFile) (version_id : Z) : WM unit :=
  asset ← version_asset version_id;
  match asset with
  | None => throw EPolicyExecution
  | Some asset => if negb (asset =? pf_asset_id f) then throw EPolicyExecution else mret tt
  end.
Definition validate_resume_lineage (f : PhaseFile) (start : FileRunStart) (rows : list FilePhaseSummary) :
    WM unit :=
  _ ← require_lineage f (fs_starting_file_version_id start);
  for_each (fun row => match fp_produced_file_version_id row with
                       | None => mret tt
                       | Some version_id => require_lineage f version_id
                       end) rows.

Definition prior_row_seeds (branch_id : string) (rows : list FilePhaseSummary) : list PreparedResumeSeed :=
  map (fun row => {| rs_phase_ordinal := fp_phase_ordinal row; rs_branch_id := branch_id;
                     rs_ticket_ids := fp_ticket_ids row; rs_produced := resume_seed row;
                     rs_outcome := fp_outcome row |}) rows.
Definition resume_admission_tier (p : FileProgress) : FileAdmissionTier :=
  match fg_state p with
  | ProgressActive | ProgressTerminalizing => TierInterrupted
  | ProgressPending | ProgressTerminal => fg_admission_tier p
  end.
Definition is_terminal (p : FileProgress) : bool := bool_decide (fg_state p = ProgressTerminal).
Definition terminal_resume_progress (p : FileProgress) (f : PhaseFile) (phase_count : Z) :
    option NewFileProgress :=
  if is_terminal p
  then Some {| np_branch_id := pf_branch_id f; np_input_ordinal := fg_input_ordinal p;
               np_admission_tier := fg_admission_tier p; np_next_phase_ordinal := phase_count |}
  else None.

(** The phase that ended without its row, if the tickets show that one did. *)
Definition unrecorded_phase (lookup : TicketLookup) (f : PhaseFile) (p : FileProgress) (state : PriorBranchState) :
    Res (option PreparedResumeSeed) :=
  let next := bs_next_ordinal state in
  let seed tickets refs o := Some {| rs_phase_ordinal := next; rs_branch_id := pf_branch_id f;
                                     rs_ticket_ids := tickets; rs_produced := refs; rs_outcome := o |} in
  if is_terminal p then Ok None
  else if negb (pf_version_id f =? bs_recorded_tip state) then
    found ← re_committed (lookup f next);
    found ← ok_or found EPolicyExecution;
    Ok (seed found.2 found.1 FileCommitted)
  else
    found ← re_verified (lookup f next);
    Ok (match found with None => None | Some refs => seed [] refs FileVerified end).

Definition resumed_file (f : PhaseFile) (p : FileProgress) (resume_ordinal : Z) (history : History) : PhaseFile := {|
  pf_asset_id := pf_asset_id f; pf_version_id := pf_version_id f; pf_snapshot := pf_snapshot f;
  pf_branch_id := pf_branch_id f; pf_ordinal := fg_input_ordinal p;
  pf_admission_tier := resume_admission_tier p; pf_resume_ordinal := resume_ordinal;
  pf_phase_history := history |}.

Definition prepare_resume_branch (lookup : TicketLookup) (f : PhaseFile) (prior : PriorBranch) (phase_count : Z) :
    WM PreparedResumeBranch :=
  let start := pb_start prior in
  let p := pb_progress prior in
  _ ← validate_resume_lineage f start (pb_rows prior);
  inherited ← lift (validate_prior_history start (pb_inherited prior) phase_count);
  state ← lift (validate_prior_row_shape start (pb_rows prior) inherited phase_count);
  _ ← lift (validate_prior_progress start p state);
  history ← lift (merge_prior_rows inherited (pb_rows prior));
  if bs_phase_complete state && negb (pf_version_id f =? bs_recorded_tip state)
  then throw EPolicyExecution else
  extra ← lift (unrecorded_phase lookup f p state);
  history ← lift (match extra with
                  | None => Ok history
                  | Some seed => merge_phase_outcome history (rs_phase_ordinal seed) (rs_outcome seed)
                  end);
  let next := if is_terminal p then phase_count
              else match extra with None => bs_next_ordinal state | Some _ => bs_next_ordinal state + 1 end in
  let resume_ordinal := if bs_phase_complete state then phase_count else next in
  mret {|
    rb_survivor := if is_terminal p then None else Some (resumed_file f p resume_ordinal history);
    rb_run_start := {| ns_branch_id := pf_branch_id f; ns_starting_file_version_id := pf_version_id f;
                       ns_starting_phase_ordinal := resume_ordinal |};
    rb_history := map (fun kv => {| nh_branch_id := pf_branch_id f; nh_phase_ordinal := kv.1;
                                    nh_outcome := kv.2 |}) (rows_asc history);
    rb_seeds := prior_row_seeds (pf_branch_id f) (pb_rows prior)
                ++ match extra with None => [] | Some seed => [seed] end;
    rb_terminal_progress := terminal_resume_progress p f phase_count |}.

Definition branches {A} (branch : A -> string) (l : list A) : gset string := list_to_set (map branch l).
Definition validate_branch_sets (files : list PhaseFile) (starts : list FileRunStart)
    (rows : list FilePhaseSummary) (inherited : list FileRunHistory) (p : list FileProgress) : Res unit :=
  let prior := branches fs_branch_id starts in
  if negb (bool_decide (branches pf_branch_id files = prior)) then Err EPolicyExecution
  else if negb (bool_decide (branches fg_branch_id p = prior)) || negb (length p =? length starts)%nat
  then Err EPolicyExecution
  else if existsb (fun row => negb (bool_decide (fp_branch_id row ∈ prior))) rows then Err EPolicyExecution
  else if existsb (fun row => negb (bool_decide (fh_branch_id row ∈ prior))) inherited
  then Err EPolicyExecution
  else Ok tt.

Record ResumePreparation := {
  rp_files : list PhaseFile; rp_run_starts : list NewFileRunStart; rp_history : list NewFileRunHistory;
  rp_seeds : list PreparedResumeSeed; rp_terminal_progress : list NewFileProgress;
  rp_max_in_flight_files : Z;
}.
Definition option_list {A} (o : option A) : list A := match o with Some a => [a] | None => [] end.
Definition history_le (x y : NewFileRunHistory) : Prop :=
  text_lt (nh_branch_id x) (nh_branch_id y) = true
  \/ (nh_branch_id x = nh_branch_id y /\ nh_phase_ordinal x <= nh_phase_ordinal y).
#[global] Instance history_le_dec : RelDecision history_le.
Proof. intros x y. unfold history_le. apply _. Defined.
(** A later row of a branch replaces an earlier one, as in a map. *)
Definition by_branch {A} (branch : A -> string) (l : list A) (b : string) : option A :=
  List.find (fun a => String.eqb (branch a) b) (rev l).
Definition rows_of_branch {A} (branch : A -> string) (l : list A) (b : string) : list A :=
  List.filter (fun a => String.eqb (branch a) b) l.

Section resume.
Context `{Iso8601}.

Fixpoint prepare_branches (lookup : TicketLookup) (phase_count : Z) (starts : list FileRunStart)
    (rows : list FilePhaseSummary) (inherited : list FileRunHistory) (p : list FileProgress)
    (files : list PhaseFile) : WM (list PreparedResumeBranch) :=
  match files with
  | [] => mret []
  | f :: files' =>
      let b := pf_branch_id f in
      start ← lift (ok_or (by_branch fs_branch_id starts b) EPolicyExecution);
      own ← lift (ok_or (by_branch fg_branch_id p b) EPolicyExecution);
      prepared ← prepare_resume_branch lookup f
        {| pb_start := start; pb_progress := own; pb_rows := rows_of_branch fp_branch_id rows b;
           pb_inherited := rows_of_branch fh_branch_id inherited b |} phase_count;
      rest ← prepare_branches lookup phase_count starts rows inherited p files';
      mret (prepared :: rest)
  end.
Definition prepare_resume (lookup : TicketLookup) (prior_job_id : Z) (files : list PhaseFile) (phase_count : Z) :
    WM ResumePreparation :=
  starts ← file_run_starts_for_job prior_job_id;
  rows ← file_phases_for_job prior_job_id;
  inherited ← file_run_history_for_job prior_job_id;
  window ← file_window prior_job_id;
  window ← lift (ok_or window EPolicyExecution);
  p ← file_progress_for_job prior_job_id;
  _ ← lift (validate_branch_sets files starts rows inherited p);
  prepared ← prepare_branches lookup phase_count starts rows inherited p files;
  mret {| rp_files := omap rb_survivor prepared;
          rp_run_starts := map rb_run_start prepared;
          rp_history := merge_sort history_le (concat (map rb_history prepared));
          rp_seeds := concat (map rb_seeds prepared);
          rp_terminal_progress := omap rb_terminal_progress prepared;
          rp_max_in_flight_files := fw_max_in_flight_files window |}.

(** ** Opening a job *)

Definition WORKFLOW_JOB_KIND : string := "synthetic.workflow".
Definition new_progress (f : PhaseFile) : NewFileProgress := {|
  np_branch_id := pf_branch_id f; np_input_ordinal := pf_ordinal f;
  np_admission_tier := pf_admission_tier f; np_next_phase_ordinal := pf_resume_ordinal f |}.
Fixpoint upsert_seeds (job_id : Z) (seeds : list PreparedResumeSeed) (now : Z) : WM (list FilePhaseSummary) :=
  match seeds with
  | [] => mret []
  | s :: seeds' =>
      row ← upsert_file_phase_summary_in_tx
              (ProducedRefs_seed (rs_produced s) job_id (rs_phase_ordinal s) (rs_branch_id s)
                 (rs_ticket_ids s) (rs_outcome s)) now;
      rows ← upsert_seeds job_id seeds' now;
      mret (row :: rows)
  end.
Definition open_sliding_file_job_with_terminal_progress (starts : list NewFileRunStart)
    (history : list NewFileRunHistory) (seeds : list PreparedResumeSeed) (files : list PhaseFile)
    (terminal : list NewFileProgress) (max_in_flight_files now : Z) :
    WM (Job * list FilePhaseSummary) := atomically (
  job ← on_core (open_job_in_tx {| nj_kind := WORKFLOW_JOB_KIND; nj_priority := 0; nj_created_at := now |});
  _ ← insert_file_run_starts_in_tx (job_id job) starts;
  _ ← insert_file_run_history_in_tx (job_id job) history;
  _ ← insert_file_window_in_tx (job_id job) max_in_flight_files (map new_progress files ++ terminal) now;
  _ ← mark_file_progress_terminal_in_tx (job_id job) (map np_branch_id terminal) now;
  rows ← upsert_seeds (job_id job) seeds now;
  mret (job, rows)).
Definition open_sliding_file_job (starts : list NewFileRunStart) (history : list NewFileRunHistory)
    (seeds : list PreparedResumeSeed) (files : list PhaseFile) (max_in_flight_files now : Z) :
    WM (Job * list FilePhaseSummary) :=
  open_sliding_file_job_with_terminal_progress starts history seeds files [] max_in_flight_files now.

(** The opening of a fresh run, and of one that takes up another, which must
    keep its window. *)
Definition open_fresh_run (files : list PhaseFile) (max_in_flight_files now : Z) :
    WM (Job * list FilePhaseSummary) :=
  open_sliding_file_job (run_starts_for_files files) [] [] files max_in_flight_files now.
Definition open_resumed_run (r : ResumePreparation) (max_in_flight_files now : Z) :
    WM (Job * list FilePhaseSummary) :=
  if negb (max_in_flight_files =? rp_max_in_flight_files r) then throw EConflict
  else open_sliding_file_job_with_terminal_progress (rp_run_starts r) (rp_history r) (rp_seeds r)
         (rp_files r) (rp_terminal_progress r) max_in_flight_files now.
End resume.

(** ** Runs *)

(** The pipeline of an admitted file: the phase its loop has come to, whether
    the file goes on, and whether it is being finished. *)
Record Pipeline := {
  pl_job : Z; pl_file : PhaseFile; pl_phase : Z; pl_running : bool; pl_finishing : bool;
}.
(** A coordinator: the database, the files that wait for admission and the
    pipelines in flight, both of which are lost when the process ends. *)
Record Coord := {
  cd_db : WorkflowDb; cd_waiting : gmap (Z * string) PhaseFile; cd_pipelines : list Pipeline;
}.

Definition with_db (c : Coord) (d : WorkflowDb) : Coord := {|
  cd_db := d; cd_waiting := cd_waiting c; cd_pipelines := cd_pipelines c |}.
Definition with_pipelines (c : Coord) (d : WorkflowDb) (l : list Pipeline) : Coord := {|
  cd_db := d; cd_waiting := cd_waiting c; cd_pipelines := l |}.
(** The queue of a run that was opened. *)
Definition queue_files (job : Z) (files : list PhaseFile) (m : gmap (Z * string) PhaseFile) :
    gmap (Z * string) PhaseFile :=
  foldr (fun f m => <[(job, pf_branch_id f) := f]> m) m files.
Definition opened (c : Coord) (files : list PhaseFile)
    (outcome : result VoomError (Job * list FilePhaseSummary) * WorkflowDb) : Coord :=
  match outcome with
  | (Ok (job, _), d) => {| cd_db := d; cd_waiting := queue_files (job_id job) files (cd_waiting c);
                           cd_pipelines := cd_pipelines c |}
  | (Err _, d) => with_db c d
  end.
Definition pipeline_of (job : Z) (f : PhaseFile) : Pipeline := {|
  pl_job := job; pl_file := f; pl_phase := pf_resume_ordinal f; pl_running := true; pl_finishing := false |}.
Definition past_phase (pl : Pipeline) (keep : option PhaseFile) : Pipeline := {|
  pl_job := pl_job pl; pl_file := default (pl_file pl) keep; pl_phase := pl_phase pl + 1;
  pl_running := is_some keep; pl_finishing := false |}.
Definition finishing (pl : Pipeline) : Pipeline := {|
  pl_job := pl_job pl; pl_file := pl_file pl; pl_phase := pl_phase pl; pl_running := pl_running pl;
  pl_finishing := true |}.

(** What the rest of the program does to the tables the coordinator refers to:
    it keeps jobs, versions and the other rows. *)
Record grows (d d' : WorkflowDb) : Prop := {
  gr_jobs : forall k, is_Some (jobs (core d) !! k) -> is_Some (jobs (core d') !! k);
  gr_windows : windows d' = windows d;
  gr_starts : run_starts d' = run_starts d;
  gr_history : run_history d' = run_history d;
  gr_progress : progress d' = progress d;
  gr_entries : phase_entries d' = phase_entries d;
  gr_phases : file_phases d' = file_phases d;
}.

Section runs.
Context `{Iso8601} (policy : CompiledPolicy).

Definition phase_count : Z := Z.of_nat (length (cp_phase_order policy)).

(** A pipeline that has a phase to go through. *)
Definition in_phase (pl : Pipeline) : Prop :=
  pl_running pl = true /\ pl_finishing pl = false /\ pl_phase pl < phase_count.
Definition past_phases (pl : Pipeline) : Prop :=
  pl_finishing pl = false /\ (pl_running pl = false \/ phase_count <= pl_phase pl).

(** Files as they are resolved for a fresh run. *)
Definition fresh_file (f : PhaseFile) : Prop := pf_resume_ordinal f = 0 /\ pf_phase_history f = ∅.
(** A file has come to its end: no phase is left, or the last one blocked it. *)
Definition ended (d : WorkflowDb) (job : Z) (branch : string) (p : ProgressRow) : Prop :=
  p_next_phase_ordinal p = phase_count
  \/ exists r, file_phases d !! (job, p_next_phase_ordinal p - 1, branch) = Some r /\ f_outcome r = FileBlocked.
(** A ticket of a phase is made when the phase is dispatched, so that none shows
    a verification in a phase after the end of a file. *)
Definition shows_entered_phases (lookup : TicketLookup) (d : WorkflowDb) (job : Z) : Prop :=
  forall f p, progress d !! (job, pf_branch_id f) = Some p -> ended d job (pf_branch_id f) p ->
    re_verified (lookup f (p_next_phase_ordinal p)) = Ok None.

Inductive step : Coord -> Coord -> Prop :=
  | step_open c files max now :
      Forall fresh_file files ->
      step c (opened c files (open_fresh_run files max now (cd_db c)))
  | step_resume c lookup job files r d max now :
      shows_entered_phases lookup (cd_db c) job ->
      prepare_resume lookup job files phase_count (cd_db c) = (Ok r, d) ->
      step c (opened c (rp_files r) (open_resumed_run r max now d))
  | step_admit c job now p d f :
      admit_next_file job now (cd_db c) = (Ok (Some p), d) ->
      cd_waiting c !! (job, fg_branch_id p) = Some f ->
      step c {| cd_db := d; cd_waiting := delete (job, fg_branch_id p) (cd_waiting c);
                cd_pipelines := pipeline_of job f :: cd_pipelines c |}
  | step_admit_none c job now r d :
      admit_next_file job now (cd_db c) = (r, d) ->
      step c (with_db c d)
  | step_enter c pl name now :
      pl ∈ cd_pipelines c -> in_phase pl -> cp_phase_order policy !! Z.to_nat (pl_phase pl) = Some name ->
      step c (with_db c (record_phase_entry policy (pl_job pl) (pl_phase pl) name (pl_file pl) now (cd_db c)).2)
  | step_phase c l1 pl l2 disposition evidence now row snapshot keep d :
      cd_pipelines c = l1 ++ pl :: l2 -> in_phase pl ->
      finalize_file (pl_job pl) (pl_phase pl) (pl_file pl) disposition evidence now (cd_db c)
        = (Ok (row, snapshot, keep), d) ->
      step c (with_pipelines c d (l1 ++ past_phase pl keep :: l2))
  | step_phase_error c l1 pl l2 disposition evidence now e d :
      cd_pipelines c = l1 ++ pl :: l2 -> in_phase pl ->
      finalize_file (pl_job pl) (pl_phase pl) (pl_file pl) disposition evidence now (cd_db c) = (Err e, d) ->
      step c (with_pipelines c d (l1 ++ l2))
  | step_phase_failed c l1 pl l2 disposition evidence now :
      cd_pipelines c = l1 ++ pl :: l2 -> in_phase pl ->
      step c (with_pipelines c
        (finalize_failed_file_phase (pl_job pl) (pl_phase pl) (pl_file pl) disposition evidence now (cd_db c)).2
        (l1 ++ l2))
  | step_finish c l1 pl l2 p d :
      cd_pipelines c = l1 ++ pl :: l2 -> past_phases pl ->
      begin_file_terminalization (pl_job pl) (pf_branch_id (pl_file pl)) (cd_db c) = (Ok p, d) ->
      step c (with_pipelines c d (l1 ++ finishing pl :: l2))
  | step_finish_error c l1 pl l2 e d :
      cd_pipelines c = l1 ++ pl :: l2 -> past_phases pl ->
      begin_file_terminalization (pl_job pl) (pf_branch_id (pl_file pl)) (cd_db c) = (Err e, d) ->
      step c (with_pipelines c d (l1 ++ l2))
  | step_terminal c l1 pl l2 now :
      cd_pipelines c = l1 ++ pl :: l2 -> pl_finishing pl = true ->
      step c (with_pipelines c (mark_file_terminal (pl_job pl) (pf_branch_id (pl_file pl)) now (cd_db c)).2
        (l1 ++ l2))
  | step_stop c l1 pl l2 :
      cd_pipelines c = l1 ++ pl :: l2 -> step c (with_pipelines c (cd_db c) (l1 ++ l2))
  | step_lose c key :
      step c {| cd_db := cd_db c; cd_waiting := delete key (cd_waiting c); cd_pipelines := cd_pipelines c |}
  | step_world c d : grows (cd_db c) d -> step c (with_db c d).

(** A database in which no policy job was ever opened, and what is reached from it. *)
Definition no_runs (d : WorkflowDb) : Prop :=
  windows d = ∅ /\ run_starts d = ∅ /\ run_history d = ∅ /\ progress d = ∅ /\ phase_entries d = ∅
  /\ file_phases d = ∅.
Definition reaches (c : Coord) : Prop :=
  exists d, no_runs d /\ rtc step {| cd_db := d; cd_waiting := ∅; cd_pipelines := [] |} c.
End runs.
