(* ===== verification/ResumeLaws.v ===== *)
(** * What is recorded of a file, and what is made of it

    The records of a file in a job - where its run starts, what it inherits, the
    rows of its phases and its cursor - and how they fit together. A run is taken
    up from records that do: they are read as they were written, pass every
    check, and give records that fit together again. *)

From S2P Require Import Prelude Json Vocab Bytes Operations Store Jobs Tickets Workers Leases ControlPlane.
From S2P Require Import PolicySyntax TrackFilters PolicyCompiled PlanModel PlanConditions Planner Progress.
From S2P Require Import Coordinator.
From Stdlib Require Import ZArith Lia Bool String Ascii.
From stdpp Require Import base gmap strings list sorting.

Open Scope list_scope.
Open Scope Z_scope.

(** ** The records of a file *)

Section recorded.
Context (pc : Z) (s : StartRow) (h : Z -> option FilePhaseOutcome) (r : Z -> option FilePhaseRow) (p : ProgressRow).
Local Abbreviation S := (s_starting_phase_ordinal s).
Local Abbreviation N := (p_next_phase_ordinal p).

(** No phase is left, or the last one blocked the file. *)
Definition at_end : Prop := N = pc \/ exists x, r (N - 1) = Some x /\ f_outcome x = FileBlocked.

Record recorded : Prop := {
  rc_bounds : 0 <= S <= N /\ N <= pc;
  rc_tail : forall k, S <= k -> is_Some (r k) <-> k < N;
  rc_rows : forall k, is_Some (r k) -> 0 <= k;
  rc_seeds : forall k x, k < S -> r k = Some x -> h k = Some (f_outcome x);
  rc_history : forall k o, h k = Some o -> 0 <= k < S;
  rc_covered : forall k, 0 <= k < S -> h k = None -> exists j, h j = Some FileBlocked;
  rc_inherited_block : forall k, h k = Some FileBlocked -> S = pc /\ forall j o, h j = Some o -> j <= k;
  rc_block : forall k x, S <= k -> r k = Some x -> f_outcome x = FileBlocked -> N = k + 1;
  rc_state : match p_state p with
             | ProgressPending => N = S
             | ProgressActive => True
             | ProgressTerminalizing | ProgressTerminal => at_end
             end;
}.

(** What is known of a phase, from this run or an earlier one. *)
Definition outcome_of (k : Z) : option FilePhaseOutcome :=
  match h k with Some o => Some o | None => f_outcome <$> r k end.

Hypothesis rec : recorded.

Lemma outcome_of_row k x : r k = Some x -> outcome_of k = Some (f_outcome x).
Proof.
  intros Hx. unfold outcome_of. destruct (Z.lt_ge_cases k S) as [Hk|Hk].
  - by rewrite (rc_seeds rec k x Hk Hx).
  - destruct (h k) as [o|] eqn:Ho; [apply (rc_history rec) in Ho; lia|]. by rewrite Hx.
Qed.
Lemma outcome_of_history k o : h k = Some o -> outcome_of k = Some o.
Proof. unfold outcome_of. by intros ->. Qed.
Lemma outcome_of_bounds k o : outcome_of k = Some o -> 0 <= k < N.
Proof.
  unfold outcome_of. pose proof (rc_bounds rec). destruct (h k) as [o'|] eqn:Ho.
  - apply (rc_history rec) in Ho. lia.
  - intros (x & Hx & _)%fmap_Some. pose proof (rc_rows rec k (ex_intro _ x Hx)).
    destruct (Z.lt_ge_cases k S); [lia|]. apply (rc_tail rec) in H1 as [H1 _]. assert (k < N) by eauto. lia.
Qed.
(** A blocked phase is the last one that is known. *)
Lemma outcome_of_block k j o : outcome_of k = Some FileBlocked -> outcome_of j = Some o -> j <= k.
Proof.
  intros Hk Hj. pose proof (outcome_of_bounds j o Hj) as Hjb. unfold outcome_of in Hk.
  destruct (h k) as [o'|] eqn:Ho.
  - injection Hk as ->. destruct (rc_inherited_block rec k Ho) as [HS Hmax].
    unfold outcome_of in Hj. destruct (h j) as [oj|] eqn:Hoj; [by apply (Hmax j oj)|].
    apply fmap_Some in Hj as (x & Hx & _). pose proof (rc_bounds rec).
    destruct (Z.lt_ge_cases j S) as [HjS|HjS]; [|lia].
    pose proof (rc_seeds rec j x HjS Hx). congruence.
  - apply fmap_Some in Hk as (x & Hx & Hb). symmetry in Hb. destruct (Z.lt_ge_cases k S) as [HkS|HkS].
    + pose proof (rc_seeds rec k x HkS Hx). congruence.
    + pose proof (rc_block rec k x HkS Hx Hb). lia.
Qed.
Lemma outcome_of_block_end k : outcome_of k = Some FileBlocked -> at_end.
Proof.
  unfold outcome_of, at_end. destruct (h k) as [o'|] eqn:Ho.
  - intros [= ->]. destruct (rc_inherited_block rec k Ho). pose proof (rc_bounds rec). left. lia.
  - intros (x & Hx & Hb)%fmap_Some. symmetry in Hb. destruct (Z.lt_ge_cases k S) as [HkS|HkS].
    + pose proof (rc_seeds rec k x HkS Hx). congruence.
    + pose proof (rc_block rec k x HkS Hx Hb) as HN. right. exists x. by replace (N - 1) with k by lia.
Qed.
(** Where no phase is blocked, all that came before are known. *)
Lemma outcome_of_covered k :
  (forall j, outcome_of j <> Some FileBlocked) -> 0 <= k < N -> is_Some (outcome_of k).
Proof.
  intros Hnb Hk. unfold outcome_of. destruct (h k) as [o|] eqn:Ho; [eauto|].
  destruct (Z.lt_ge_cases k S) as [HkS|HkS].
  - destruct (rc_covered rec k) as [j Hj]; [lia|done|]. destruct (Hnb j). by apply outcome_of_history.
  - destruct (proj2 (rc_tail rec k HkS)) as [x Hx]; [lia|]. rewrite Hx. eauto.
Qed.
Lemma at_end_or_open : at_end \/ N < pc.
Proof. pose proof (rc_bounds rec). unfold at_end. destruct (Z.eq_dec N pc); [by left; left|right; lia]. Qed.
End recorded.

(** ** What is read of them *)

(** A summary says what its row says. *)
Record says (row : FilePhaseSummary) (x : FilePhaseRow) : Prop := {
  sy_tickets : fp_ticket_ids row = f_ticket_ids x;
  sy_version : fp_produced_file_version_id row = f_produced_file_version_id x;
  sy_location : fp_produced_file_location_id row = f_produced_file_location_id x;
  sy_handle : fp_artifact_handle_id row = f_artifact_handle_id x;
  sy_verification : fp_artifact_verification_id row = f_artifact_verification_id x;
  sy_snapshot : fp_reprobe_snapshot_id row = f_reprobe_snapshot_id x;
  sy_outcome : fp_outcome row = f_outcome x;
}.
Record reads_rows (l : list FilePhaseSummary) (r : Z -> option FilePhaseRow) : Prop := {
  rr_sorted : StronglySorted (fun a b => fp_phase_ordinal a < fp_phase_ordinal b) l;
  rr_sound : Forall (fun row => exists x, r (fp_phase_ordinal row) = Some x /\ says row x) l;
  rr_complete : forall k x, r k = Some x -> exists row, row ∈ l /\ fp_phase_ordinal row = k;
}.
Record reads_history (l : list FileRunHistory) (h : Z -> option FilePhaseOutcome) : Prop := {
  rh_sound : Forall (fun row => h (fh_phase_ordinal row) = Some (fh_outcome row)) l;
  rh_complete : forall k o, h k = Some o -> exists row, row ∈ l /\ fh_phase_ordinal row = k;
}.
Definition history_is (m : History) (h : Z -> option FilePhaseOutcome) : Prop := forall k, m !! k = h k.

Lemma merge_outcome_ok (m : History) (h : Z -> option FilePhaseOutcome) k o :
  (forall k o, m !! k = Some o -> h k = Some o) -> h k = Some o ->
  merge_phase_outcome m k o = Ok (<[k := o]> m)
  /\ forall k' o', <[k := o]> m !! k' = Some o' -> h k' = Some o'.
Proof.
  intros Hm Hk. split.
  - unfold merge_phase_outcome. destruct (m !! k) as [o'|] eqn:Ho; [|done].
    apply Hm in Ho. rewrite bool_decide_eq_true_2 by congruence. done.
  - intros k' o' [[<- <-]|[_ H]]%lookup_insert_Some; [done|by apply Hm].
Qed.

Section validation.
Context (pc : Z) (s : StartRow) (h : Z -> option FilePhaseOutcome) (r : Z -> option FilePhaseRow) (p : ProgressRow).
Hypothesis rec : recorded pc s h r p.
Context (start : FileRunStart).
Hypothesis starts_at : fs_starting_phase_ordinal start = s_starting_phase_ordinal s.

Lemma merge_inherited_ok l m :
  Forall (fun row => h (fh_phase_ordinal row) = Some (fh_outcome row)) l ->
  (forall k o, m !! k = Some o -> h k = Some o) ->
  exists m', merge_inherited start l pc m = Ok m'
    /\ (forall k o, m' !! k = Some o -> h k = Some o)
    /\ (forall k, is_Some (m !! k) -> is_Some (m' !! k))
    /\ (forall row, row ∈ l -> is_Some (m' !! fh_phase_ordinal row)).
Proof.
  intros Hl. revert m. induction Hl as [|row l Hrow _ IH]; intros m Hm.
  - exists m. cbn. split_and!; try done. by intros row ?%elem_of_nil.
  - cbn [merge_inherited]. pose proof (rc_history _ _ _ _ _ rec _ _ Hrow) as Hb.
    pose proof (rc_bounds _ _ _ _ _ rec) as Hpc. rewrite starts_at.
    destruct (_ || _) eqn:Hor; [lia|].
    destruct (merge_outcome_ok m h _ _ Hm Hrow) as [-> Hm']. cbn [mbind result_mbind].
    destruct (IH _ Hm') as (m' & -> & H1 & H2 & H3). exists m'. split_and!; try done.
    + intros k Hk. apply H2. destruct (decide (fh_phase_ordinal row = k)) as [->|].
      * by rewrite lookup_insert_eq. * by rewrite lookup_insert_ne.
    + intros row' [->|Hin]%elem_of_cons; [|by apply H3]. apply H2. by rewrite lookup_insert_eq.
Qed.

Lemma first_blocked_some (m : History) k :
  first_blocked m = Some k -> m !! k = Some FileBlocked.
Proof.
  unfold first_blocked. intros ([k' o] & Hf & ->)%fmap_Some. apply find_some in Hf as [Hin Hb].
  apply bool_decide_eq_true in Hb. cbn in *. subst. by apply rows_asc_in.
Qed.

Lemma prior_history_ok l :
  reads_history l h -> exists m, validate_prior_history start l pc = Ok m /\ history_is m h.
Proof.
  intros [Hs Hc]. destruct (merge_inherited_ok l ∅ Hs) as (m & Hm & H1 & _ & H3).
  { by intros k o ?%lookup_empty_Some. }
  assert (history_is m h) as Hh.
  { intros k. destruct (m !! k) as [o|] eqn:Ho; [by symmetry; apply H1|].
    destruct (h k) as [o|] eqn:Hk; [|done]. destruct (Hc k o Hk) as (row & Hin & <-).
    destruct (H3 row Hin) as [? ?]. congruence. }
  exists m. split; [|done]. unfold validate_prior_history. rewrite Hm. cbn [mbind result_mbind].
  destruct (first_blocked m) as [k|] eqn:Hk; [|done]. apply first_blocked_some in Hk.
  rewrite Hh in Hk. destruct (rc_inherited_block _ _ _ _ _ rec k Hk) as [_ Hmax].
  destruct (existsb _ _) eqn:He; [|done]. apply existsb_exists in He as ([j o] & Hin & Hlt).
  apply list_elem_of_In, elem_of_map_to_list in Hin. rewrite Hh in Hin. apply Hmax in Hin. cbn in Hlt. lia.
Qed.

Context (inherited : History).
Hypothesis inherits : history_is inherited h.

Lemma seeds_ok l :
  Forall (fun row => exists x, r (fp_phase_ordinal row) = Some x /\ says row x) l ->
  StronglySorted (fun a b => fp_phase_ordinal a < fp_phase_ordinal b) l ->
  validate_seeds start inherited pc l
  = Ok (List.filter (fun row => s_starting_phase_ordinal s <=? fp_phase_ordinal row) l).
Proof.
  intros Hl Hs. induction Hs as [|row l Hs IH Hlt]; [done|]. apply Forall_cons in Hl as [(x & Hx & Hsay) Hl].
  cbn [validate_seeds List.filter]. rewrite starts_at.
  destruct (Z.ltb_spec (fp_phase_ordinal row) (s_starting_phase_ordinal s)) as [Hk|Hk].
  - destruct (Z.leb_spec (s_starting_phase_ordinal s) (fp_phase_ordinal row)); [lia|].
    pose proof (rc_seeds _ _ _ _ _ rec _ _ Hk Hx) as Hh. rewrite <- (sy_outcome _ _ Hsay) in Hh.
    assert (validate_seed_row start row inherited pc = Ok tt) as ->; [|by apply IH].
    unfold validate_seed_row. destruct (fp_outcome row) eqn:Ho;
      try (rewrite bool_decide_eq_true_2; [done|]; by rewrite inherits).
    rewrite starts_at. destruct (rc_inherited_block _ _ _ _ _ rec _ Hh) as [-> _]. by rewrite Z.eqb_refl.
  - destruct (Z.leb_spec (s_starting_phase_ordinal s) (fp_phase_ordinal row)); [|lia]. f_equal. f_equal.
    clear IH Hl. induction Hlt as [|row' l Hrow' _ IH']; [done|]. cbn.
    destruct (Z.leb_spec (s_starting_phase_ordinal s) (fp_phase_ordinal row')); [|lia].
    f_equal. apply IH'. by inversion Hs.
Qed.

(** Rows that follow each other from one phase to the next. *)
Fixpoint consecutive (n : Z) (l : list FilePhaseSummary) : Prop :=
  match l with [] => True | row :: l' => fp_phase_ordinal row = n /\ consecutive (n + 1) l' end.
Lemma consecutive_tail n l :
  StronglySorted (fun a b => fp_phase_ordinal a < fp_phase_ordinal b) l ->
  (forall k, n <= k -> (exists row, row ∈ l /\ fp_phase_ordinal row = k) <-> k < p_next_phase_ordinal p) ->
  Forall (fun row => n <= fp_phase_ordinal row) l -> n <= p_next_phase_ordinal p ->
  consecutive n l /\ n + Z.of_nat (length l) = p_next_phase_ordinal p.
Proof.
  intros Hs. revert n. induction Hs as [|row l Hs IH Hlt]; intros n Hk Hge Hn.
  - split; [done|]. cbn. destruct (Z.eq_dec n (p_next_phase_ordinal p)); [lia|].
    destruct (proj2 (Hk n ltac:(lia))) as (row & ?%elem_of_nil & _); [lia|done].
  - apply Forall_cons in Hge as [Hge1 Hge].
    assert (fp_phase_ordinal row < p_next_phase_ordinal p) as Hr.
    { apply Hk; [done|]. exists row. split; [by left|done]. }
    assert (fp_phase_ordinal row = n) as Hrow.
    { destruct (proj2 (Hk n ltac:(lia))) as (row' & [->|Hin]%elem_of_cons & Hr'); [lia|done|].
      rewrite Forall_forall in Hlt. apply Hlt in Hin. lia. }
    destruct (IH (n + 1)) as [Hc Hl].
    + intros k Hkn. rewrite <- Hk by lia. split.
      * intros (row' & Hin & <-). exists row'. split; [by right|done].
      * intros (row' & [->|Hin]%elem_of_cons & <-); [lia|]. by exists row'.
    + rewrite Forall_forall in Hlt |- *. intros row' Hin%Hlt. lia.
    + lia.
    + split; [by split|]. cbn [length]. lia.
Qed.
Lemma validate_tail_ok n l :
  consecutive n l -> n + Z.of_nat (length l) <= pc ->
  (forall row l1 l2, l = l1 ++ row :: l2 -> fp_outcome row = FileBlocked -> l2 = []) ->
  validate_tail pc n l = Ok (n + Z.of_nat (length l)).
Proof.
  revert n. induction l as [|row l IH]; intros n Hc Hn Hb; [cbn; f_equal; lia|].
  destruct Hc as [Hr Hc]. cbn [validate_tail length] in *. rewrite Hr, Z.eqb_refl.
  destruct (Z.leb_spec pc n); [lia|]. cbn [orb negb].
  assert (is_blocked_row row && negb (is_empty l) = false) as ->.
  { unfold is_blocked_row. case_bool_decide as Ho; [|done]. by rewrite (Hb row [] l eq_refl Ho). }
  rewrite IH; [f_equal; lia|done|lia|]. intros row' l1 l2 -> Ho. by apply (Hb row' (row :: l1) l2).
Qed.

Lemma sorted_split {l1 : list FilePhaseSummary} {row l2} :
  StronglySorted (fun a b => fp_phase_ordinal a < fp_phase_ordinal b) (l1 ++ row :: l2) ->
  Forall (fun b => fp_phase_ordinal row < fp_phase_ordinal b) l2.
Proof.
  induction l1 as [|a l1 IH]; cbn; intros Hs; inversion_clear Hs as [|? ? Hs' Hlt]; [done|by apply IH].
Qed.

Context (l : list FilePhaseSummary).
Hypothesis reads : reads_rows l r.

Lemma row_below row : row ∈ l -> fp_phase_ordinal row < p_next_phase_ordinal p.
Proof.
  intros Hin. destruct reads as [_ Hr _]. rewrite Forall_forall in Hr. destruct (Hr row Hin) as (x & Hx & _).
  pose proof (rc_bounds _ _ _ _ _ rec). destruct (Z.lt_ge_cases (fp_phase_ordinal row) (s_starting_phase_ordinal s));
    [lia|]. apply (rc_tail _ _ _ _ _ rec); [done|eauto].
Qed.
Lemma row_row row : row ∈ l -> exists x, r (fp_phase_ordinal row) = Some x /\ says row x.
Proof. destruct reads as [_ Hr _]. rewrite Forall_forall in Hr. apply Hr. Qed.

(** The rows of this run, after those of earlier ones. *)
Definition own_rows : list FilePhaseSummary :=
  List.filter (fun row => s_starting_phase_ordinal s <=? fp_phase_ordinal row) l.
Lemma own_rows_in row : row ∈ own_rows <-> row ∈ l /\ s_starting_phase_ordinal s <= fp_phase_ordinal row.
Proof. unfold own_rows. rewrite !list_elem_of_In, filter_In, Z.leb_le. done. Qed.
Lemma sorted_filter {A} (R : A -> A -> Prop) (f : A -> bool) k : StronglySorted R k -> StronglySorted R (List.filter f k).
Proof.
  induction 1 as [|a k Hs IH Ha]; [constructor|]. cbn. destruct (f a); [|done]. constructor; [done|].
  rewrite Forall_forall in Ha |- *. intros b [Hb _]%list_elem_of_In%filter_In. by apply Ha, list_elem_of_In.
Qed.

Lemma own_rows_consecutive :
  consecutive (s_starting_phase_ordinal s) own_rows
  /\ s_starting_phase_ordinal s + Z.of_nat (length own_rows) = p_next_phase_ordinal p.
Proof.
  destruct reads as [Hs Hr Hc]. apply consecutive_tail.
  - by apply sorted_filter.
  - intros k Hk. rewrite <- (rc_tail _ _ _ _ _ rec k Hk). split.
    + intros (row & [Hin Hge]%own_rows_in & <-). destruct (row_row row Hin) as (x & -> & _). eauto.
    + intros [x Hx]. destruct (Hc k x Hx) as (row & Hin & <-). exists row. by rewrite own_rows_in.
  - apply Forall_forall. by intros row [_ ?]%own_rows_in.
  - apply (rc_bounds _ _ _ _ _ rec).
Qed.
Lemma own_block_last row l1 l2 : own_rows = l1 ++ row :: l2 -> fp_outcome row = FileBlocked -> l2 = [].
Proof.
  intros He Ho. assert (row ∈ own_rows) as [Hin Hge]%own_rows_in by (rewrite He; set_solver).
  destruct (row_row row Hin) as (x & Hx & Hsay). rewrite (sy_outcome _ _ Hsay) in Ho.
  pose proof (rc_block _ _ _ _ _ rec _ _ Hge Hx Ho) as HN.
  pose proof (sorted_filter _ (fun row => s_starting_phase_ordinal s <=? fp_phase_ordinal row) _ (rr_sorted _ _ reads)) as Hs.
  fold own_rows in Hs. rewrite He in Hs. apply sorted_split in Hs. destruct l2 as [|row' l2]; [done|].
  apply Forall_cons in Hs as [Hlt _].
  assert (row' ∈ own_rows) as [Hin' _]%own_rows_in by (rewrite He; set_solver).
  apply row_below in Hin'. lia.
Qed.

Lemma last_is row : row ∈ l -> fp_phase_ordinal row = p_next_phase_ordinal p - 1 -> last l = Some row.
Proof.
  intros (l1 & l2 & He)%list_elem_of_split Hk. pose proof (rr_sorted _ _ reads) as Hs. rewrite He in Hs.
  apply sorted_split in Hs. destruct l2 as [|row' l2]; [by rewrite He, last_snoc|].
  apply Forall_cons in Hs as [Hlt _]. assert (row' ∈ l) as Hin by (rewrite He; set_solver).
  apply row_below in Hin. lia.
Qed.
Lemma complete_iff :
  last_blocked l || (p_next_phase_ordinal p =? pc) = true <-> at_end pc r p.
Proof.
  unfold last_blocked, at_end. rewrite orb_true_iff, Z.eqb_eq. split.
  - intros [Hl|Hn]; [|by left]. destruct (last l) as [row|] eqn:Hlast; [|done].
    apply bool_decide_eq_true in Hl. apply last_Some in Hlast as [l' He].
    assert (row ∈ l) as Hin by (rewrite He; set_solver). destruct (row_row row Hin) as (x & Hx & Hsay).
    rewrite (sy_outcome _ _ Hsay) in Hl.
    destruct (outcome_of_block_end _ _ _ _ _ rec (fp_phase_ordinal row)) as [?|?]; [|by left|by right].
    by rewrite (outcome_of_row _ _ _ _ _ rec _ _ Hx), Hl.
  - intros [Hn|(x & Hx & Hb)]; [by right|left].
    destruct (rr_complete _ _ reads _ _ Hx) as (row & Hin & Hk). rewrite (last_is row Hin Hk).
    destruct (row_row row Hin) as (x' & Hx' & Hsay). rewrite Hk in Hx'. apply bool_decide_eq_true.
    rewrite (sy_outcome _ _ Hsay). congruence.
Qed.

Lemma row_shape_ok :
  exists b, validate_prior_row_shape start l inherited pc
            = Ok {| bs_next_ordinal := p_next_phase_ordinal p; bs_recorded_tip := recorded_tip start l;
                    bs_phase_complete := b |}
    /\ (b = true <-> at_end pc r p).
Proof.
  exists (last_blocked l || (p_next_phase_ordinal p =? pc)). split; [|apply complete_iff].
  unfold validate_prior_row_shape. pose proof (rc_bounds _ _ _ _ _ rec) as Hb. rewrite starts_at.
  destruct (Z.ltb_spec pc (s_starting_phase_ordinal s)); [lia|].
  rewrite seeds_ok by apply reads. cbn [mbind result_mbind]. fold own_rows.
  destruct own_rows_consecutive as [Hc Hn].
  rewrite (validate_tail_ok (s_starting_phase_ordinal s) own_rows Hc); [|lia|apply own_block_last].
  cbn [mbind result_mbind]. by rewrite Hn.
Qed.

Lemma merge_rows_ok m k :
  (forall k o, m !! k = Some o -> outcome_of h r k = Some o) ->
  Forall (fun row => exists x, r (fp_phase_ordinal row) = Some x /\ says row x) k ->
  exists m', merge_prior_rows m k = Ok m'
    /\ (forall k o, m' !! k = Some o -> outcome_of h r k = Some o)
    /\ (forall k, is_Some (m !! k) -> is_Some (m' !! k))
    /\ (forall row, row ∈ k -> is_Some (m' !! fp_phase_ordinal row)).
Proof.
  intros Hm Hk. revert m Hm. induction Hk as [|row k (x & Hx & Hsay) _ IH]; intros m Hm.
  - exists m. split_and!; try done. by intros row ?%elem_of_nil.
  - cbn [merge_prior_rows]. pose proof (outcome_of_row _ _ _ _ _ rec _ _ Hx) as Ho.
    rewrite <- (sy_outcome _ _ Hsay) in Ho.
    destruct (merge_outcome_ok m (outcome_of h r) _ _ Hm Ho) as [-> Hm']. cbn [mbind result_mbind].
    destruct (IH _ Hm') as (m' & -> & H1 & H2 & H3). exists m'. split_and!; try done.
    + intros j Hj. apply H2. destruct (decide (fp_phase_ordinal row = j)) as [->|].
      * by rewrite lookup_insert_eq.
      * by rewrite lookup_insert_ne.
    + intros row' [->|Hin]%elem_of_cons; [|by apply H3]. apply H2. by rewrite lookup_insert_eq.
Qed.
Lemma prior_rows_ok : exists m, merge_prior_rows inherited l = Ok m /\ history_is m (outcome_of h r).
Proof.
  destruct (merge_rows_ok inherited l) as (m & Hm & H1 & H2 & H3); [|apply reads|].
  { intros k o Ho. rewrite inherits in Ho. by apply outcome_of_history. }
  exists m. split; [done|]. intros k. destruct (m !! k) as [o|] eqn:Ho; [by symmetry; apply H1|].
  destruct (outcome_of h r k) as [o|] eqn:Hk; [|done]. exfalso. unfold outcome_of in Hk.
  destruct (h k) as [o'|] eqn:Hh.
  - rewrite <- inherits in Hh. destruct (H2 k) as [? ?]; [eauto|congruence].
  - apply fmap_Some in Hk as (x & Hx & _). destruct (rr_complete _ _ reads _ _ Hx) as (row & Hin & <-).
    destruct (H3 row Hin). congruence.
Qed.

Lemma prior_progress_iff (g : FileProgress) b :
  fg_next_phase_ordinal g = p_next_phase_ordinal p -> fg_state g = p_state p -> (b = true <-> at_end pc r p) ->
  is_ok (validate_prior_progress start g {| bs_next_ordinal := p_next_phase_ordinal p;
           bs_recorded_tip := recorded_tip start l; bs_phase_complete := b |})
  = negb (bool_decide (p_state p = ProgressPending) && b).
Proof.
  intros Hn Hst Hb. unfold validate_prior_progress. cbn. rewrite Hn, Z.eqb_refl, starts_at, Hst. cbn.
  pose proof (rc_state _ _ _ _ _ rec) as Hs. destruct (p_state p); cbn.
  - rewrite <- Hs, Z.eqb_refl. by destruct b.
  - done.
  - by rewrite (proj2 Hb Hs).
  - by rewrite (proj2 Hb Hs).
Qed.
End validation.

(** ** Reading the tables *)

#[export] Instance phase_branch_le_trans {A} : Transitive (@phase_branch_le A).
Proof.
  intros x y z [H1|[H1 T1]] [H2|[H2 T2]]; [left; lia|left; lia|left; lia|right].
  split; [lia|]. by eapply text_le_trans.
Qed.
#[export] Instance phase_branch_le_total {A} : Total (@phase_branch_le A).
Proof.
  intros x y. unfold phase_branch_le. destruct (Z.lt_trichotomy x.1.1 y.1.1) as [H|[H|H]]; [by left; left| |by right; left].
  destruct (text_lt_total x.1.2 y.1.2) as [T|[T|T]]; rewrite !text_le_spec; auto.
Qed.

Lemma omap_in {A B} (f : A -> option B) (l : list A) y :
  y ∈ omap f l <-> exists x, x ∈ l /\ f x = Some y.
Proof. apply list_elem_of_omap. Qed.

Lemma Forall2_in_r {A B} (P : A -> B -> Prop) l k y : Forall2 P l k -> y ∈ k -> exists x, x ∈ l /\ P x y.
Proof.
  induction 1 as [|a b l k Hab _ IH]; [by intros ?%elem_of_nil|].
  intros [->|Hin]%elem_of_cons; [exists a; split; [by left|done]|].
  destruct (IH Hin) as (x & Hx & ?). exists x. split; [by right|done].
Qed.
Lemma Forall2_in_l {A B} (P : A -> B -> Prop) l k x : Forall2 P l k -> x ∈ l -> exists y, y ∈ k /\ P x y.
Proof. intros Hf%Forall2_flip Hx. by destruct (Forall2_in_r _ _ _ _ Hf Hx) as (y & ? & ?); exists y. Qed.

(** The rows of a job, by phase and branch. *)
Section tables.
Context `{Iso8601} (job : Z).

Lemma job_file_phases_in d k b x :
  ((k, b), x) ∈ job_file_phases job d <-> file_phases d !! (job, k, b) = Some x.
Proof.
  unfold job_file_phases. rewrite merge_sort_Permutation, omap_in. split.
  - intros ([[[j k'] b'] x'] & Hin%elem_of_map_to_list & Hs). cbn in Hs.
    destruct (Z.eqb_spec j job) as [->|]; [|done]. by injection Hs as <- <- <-.
  - intros Hx. exists ((job, k, b), x). split; [by apply elem_of_map_to_list|]. cbn. by rewrite Z.eqb_refl.
Qed.
Lemma job_history_in d b k o :
  ((b, k), o) ∈ job_history job d <-> run_history d !! (job, b, k) = Some o.
Proof.
  unfold job_history. rewrite merge_sort_Permutation, omap_in. split.
  - intros ([[[j b'] k'] x'] & Hin%elem_of_map_to_list & Hs). cbn in Hs.
    destruct (Z.eqb_spec j job) as [->|]; [|done]. by injection Hs as <- <- <-.
  - intros Hx. exists ((job, b, k), o). split; [by apply elem_of_map_to_list|]. cbn. by rewrite Z.eqb_refl.
Qed.
Lemma job_starts_in d b k s :
  ((b, k), s) ∈ job_starts job d <-> k = 0 /\ run_starts d !! (job, b) = Some s.
Proof.
  unfold job_starts. rewrite merge_sort_Permutation, omap_in. split.
  - intros ([[j b'] x'] & Hin%elem_of_map_to_list & Hs). cbn in Hs.
    destruct (Z.eqb_spec j job) as [->|]; [|done]. by injection Hs as <- <- <-.
  - intros [-> Hx]. exists ((job, b), s). split; [by apply elem_of_map_to_list|]. cbn. by rewrite Z.eqb_refl.
Qed.
Lemma job_progress_in d j b p :
  ((j, b), p) ∈ job_progress job d <-> j = job /\ progress d !! (job, b) = Some p.
Proof.
  unfold job_progress. rewrite merge_sort_Permutation, list_elem_of_In, filter_In, <- list_elem_of_In.
  rewrite elem_of_map_to_list. cbn. rewrite Z.eqb_eq. split; [intros [? ->]|intros [-> ?]]; done.
Qed.

Lemma NoDup_omap {K K' A} (f : K * A -> option (K' * A)) l :
  NoDup (l.*1) -> (forall x y a b, f x = Some a -> f y = Some b -> a.1 = b.1 -> x.1 = y.1) ->
  NoDup ((omap f l).*1).
Proof.
  intros Hnd Hf. induction l as [|x l IH]; [constructor|]. cbn in Hnd |- *. apply NoDup_cons in Hnd as [Hx Hnd].
  destruct (f x) as [a|] eqn:Ha; [|by apply IH]. cbn. constructor; [|by apply IH].
  intros Hin. apply list_elem_of_fmap in Hin as (b & He & Hin). apply omap_in in Hin as (y & Hy & Hb). apply Hx.
  rewrite (Hf x y a b Ha Hb He). by apply list_elem_of_fmap_2.
Qed.
Lemma job_file_phases_NoDup d : NoDup ((job_file_phases job d).*1).
Proof.
  unfold job_file_phases. rewrite merge_sort_Permutation. apply NoDup_omap; [apply NoDup_fst_map_to_list|].
  intros [[[j1 k1] b1] x] [[[j2 k2] b2] y] a b. cbn.
  destruct (Z.eqb_spec j1 job), (Z.eqb_spec j2 job); try done. by intros [= <-] [= <-] [= -> ->]; subst.
Qed.
Lemma job_starts_NoDup d : NoDup ((job_starts job d).*1).
Proof.
  unfold job_starts. rewrite merge_sort_Permutation. apply NoDup_omap; [apply NoDup_fst_map_to_list|].
  intros [[j1 b1] x] [[j2 b2] y] a b. cbn.
  destruct (Z.eqb_spec j1 job), (Z.eqb_spec j2 job); try done. by intros [= <-] [= <-] [= ->]; subst.
Qed.
Lemma job_progress_NoDup d : NoDup ((job_progress job d).*1).
Proof.
  unfold job_progress. rewrite merge_sort_Permutation. apply NoDup_fst_filter, NoDup_fst_map_to_list.
Qed.

Lemma decode_start kv x :
  row_to_file_run_start job kv = Ok x ->
  fs_branch_id x = kv.1.1 /\ fs_starting_phase_ordinal x = s_starting_phase_ordinal kv.2
  /\ fs_starting_file_version_id x = s_starting_file_version_id kv.2.
Proof. unfold row_to_file_run_start. intros Hx. store_inv. by subst. Qed.
Lemma decode_history kv x :
  row_to_file_run_history job kv = Ok x ->
  fh_branch_id x = kv.1.1 /\ fh_phase_ordinal x = kv.1.2 /\ fh_outcome x = kv.2.
Proof. unfold row_to_file_run_history. intros Hx. store_inv. by subst. Qed.
Lemma opt_u64_ok o o' : opt_u64 o = Ok o' -> o' = o /\ forall v, o = Some v -> 0 <= v.
Proof.
  unfold opt_u64. destruct o as [v|]; cbn; [|intros [= <-]; done].
  destruct (u64_from_i64 v) as [v'|] eqn:Hv; cbn; [|done]. intros [= <-].
  apply u64_from_i64_ok in Hv as [-> Hv]. split; [done|]. by intros ? [= <-].
Qed.
Lemma decode_file_phase kv x :
  row_to_file_phase job kv = Ok x ->
  fp_phase_ordinal x = kv.1.1 /\ fp_branch_id x = kv.1.2 /\ fp_job_id x = job /\ says x kv.2.
Proof.
  unfold row_to_file_phase. intros Hx. store_inv. cbn in *.
  repeat match goal with H : opt_u64 _ = Ok _ |- _ => apply opt_u64_ok in H as [-> _] end.
  split_and!; [done..|]. by constructor.
Qed.
End tables.

Section reading.
Context `{Iso8601} (job : Z) (d : WorkflowDb).

Lemma phases_of_branch rows b :
  collect (row_to_file_phase job) (job_file_phases job d) = Ok rows ->
  reads_rows (rows_of_branch fp_branch_id rows b) (fun k => file_phases d !! (job, k, b)).
Proof.
  intros Hr%collect_ok.
  assert (StronglySorted phase_branch_le (job_file_phases job d)) as Hs.
  { unfold job_file_phases. apply StronglySorted_merge_sort; apply _. }
  pose proof (job_file_phases_NoDup job d) as Hnd. constructor.
  - clear -Hr Hs Hnd. induction Hr as [|kv x l ys Hx Hr IH]; [constructor|].
    inversion Hs as [|? ? Hs' Ha]; subst. apply NoDup_cons in Hnd as [Hn Hnd]. cbn.
    destruct (decode_file_phase job kv x Hx) as (Ho & Hb & _ & _).
    destruct (String.eqb_spec (fp_branch_id x) b) as [Hxb|]; [|by apply IH]. constructor; [by apply IH|].
    clear -Hr Ha Hn Ho Hb Hxb. induction Hr as [|kv' x' l ys Hx' Hr IH]; [constructor|]. cbn.
    apply Forall_cons in Ha as [Hle Ha]. destruct (decode_file_phase job kv' x' Hx') as (Ho' & Hb' & _ & _).
    assert (~ (kv.1 ∈ l.*1)) as Hn' by (intros ?; apply Hn; by right).
    destruct (String.eqb_spec (fp_branch_id x') b) as [Hxb'|]; [|by apply IH].
    constructor; [|by apply IH]. rewrite Ho, Ho'. destruct Hle as [?|[He _]]; [done|]. exfalso. apply Hn.
    apply elem_of_cons. left. destruct kv as [[k1 b1] ?], kv' as [[k2 b2] ?]. cbn in *. congruence.
  - apply Forall_forall. intros x Hin. unfold rows_of_branch in Hin.
    apply list_elem_of_In, filter_In in Hin as [Hin Hb%String.eqb_eq]. apply list_elem_of_In in Hin.
    destruct (Forall2_in_r _ _ _ _ Hr Hin) as ([[k b'] r] & Hkv & Hx).
    destruct (decode_file_phase job _ _ Hx) as (Ho & Hb' & _ & Hsay). cbn in *. subst.
    exists r. split; [|done]. by apply job_file_phases_in.
  - intros k r Hk. apply job_file_phases_in in Hk. destruct (Forall2_in_l _ _ _ _ Hr Hk) as (x & Hin & Hx).
    destruct (decode_file_phase job _ _ Hx) as (Ho & Hb & _ & _). exists x. split; [|done].
    unfold rows_of_branch. apply list_elem_of_In, filter_In. split; [by apply list_elem_of_In|].
    by apply String.eqb_eq.
Qed.

Lemma history_of_branch rows b :
  collect (row_to_file_run_history job) (job_history job d) = Ok rows ->
  reads_history (rows_of_branch fh_branch_id rows b) (fun k => run_history d !! (job, b, k)).
Proof.
  intros Hr%collect_ok. constructor.
  - apply Forall_forall. intros x Hin. unfold rows_of_branch in Hin.
    apply list_elem_of_In, filter_In in Hin as [Hin Hb%String.eqb_eq]. apply list_elem_of_In in Hin.
    destruct (Forall2_in_r _ _ _ _ Hr Hin) as ([[b' k] o] & Hkv & Hx).
    destruct (decode_history job _ _ Hx) as (Hb' & Hk & Ho). cbn in *. subst. by apply job_history_in.
  - intros k o Hk. apply job_history_in in Hk. destruct (Forall2_in_l _ _ _ _ Hr Hk) as (x & Hin & Hx).
    destruct (decode_history job _ _ Hx) as (Hb & Ho & _). exists x. split; [|done].
    unfold rows_of_branch. apply list_elem_of_In, filter_In. split; [by apply list_elem_of_In|].
    by apply String.eqb_eq.
Qed.

Lemma by_branch_some {A} (branch : A -> string) l b x : by_branch branch l b = Some x -> x ∈ l /\ branch x = b.
Proof.
  unfold by_branch. intros [Hin Hb%String.eqb_eq]%find_some. split; [|done].
  by apply list_elem_of_In, in_rev.
Qed.
Lemma by_branch_in {A} (branch : A -> string) l x : x ∈ l -> exists y, by_branch branch l (branch x) = Some y.
Proof.
  intros Hin. unfold by_branch. destruct (List.find _ _) as [y|] eqn:Hf; [eauto|]. exfalso.
  pose proof (List.find_none _ _ Hf x) as Hn. cbn in Hn. rewrite String.eqb_refl in Hn.
  assert (true = false); [|done]. apply Hn, in_rev. rewrite rev_involutive. by apply list_elem_of_In.
Qed.

Lemma start_of_branch starts b x :
  collect (row_to_file_run_start job) (job_starts job d) = Ok starts -> by_branch fs_branch_id starts b = Some x ->
  exists s, run_starts d !! (job, b) = Some s /\ fs_starting_phase_ordinal x = s_starting_phase_ordinal s
    /\ fs_starting_file_version_id x = s_starting_file_version_id s /\ fs_branch_id x = b.
Proof.
  intros Hr%collect_ok [Hin Hb]%by_branch_some. destruct (Forall2_in_r _ _ _ _ Hr Hin) as ([[b' k] s] & Hkv & Hx).
  destruct (decode_start job _ _ Hx) as (Hb' & Hk & Hv). cbn in *. apply job_starts_in in Hkv as [_ Hkv].
  exists s. by subst.
Qed.
Lemma progress_of_branch ps b x :
  collect (fun kv => decode_file_progress kv.1 kv.2) (job_progress job d) = Ok ps ->
  by_branch fg_branch_id ps b = Some x ->
  exists p, progress d !! (job, b) = Some p /\ decode_file_progress (job, b) p = Ok x.
Proof.
  intros Hr%collect_ok [Hin Hb]%by_branch_some. destruct (Forall2_in_r _ _ _ _ Hr Hin) as ([[j b'] p] & Hkv & Hx).
  pose proof Hx as (_ & Hb' & _)%decode_progress. cbn in *. apply job_progress_in in Hkv as [-> Hkv].
  exists p. by subst.
Qed.
End reading.

(** ** A run that takes up another *)

(** The records of a file in the new job, made from those in the old one: the
    run starts where the old one got to, or at the end, inherits every known
    outcome and that of a phase that had ended without its row, and may copy
    rows. *)
Record resumed (pc : Z) (s : StartRow) (h : Z -> option FilePhaseOutcome) (r : Z -> option FilePhaseRow)
    (p : ProgressRow) (extra : option FilePhaseOutcome) (s' : StartRow) (h' : Z -> option FilePhaseOutcome)
    (r' : Z -> option FilePhaseRow) (p' : ProgressRow) : Prop := {
  rd_extra : extra <> Some FileBlocked /\ (is_Some extra -> ~ at_end pc r p);
  rd_end : at_end pc r p -> s_starting_phase_ordinal s' = pc;
  rd_open : ~ at_end pc r p ->
    s_starting_phase_ordinal s' = p_next_phase_ordinal p + match extra with Some _ => 1 | None => 0 end;
  rd_history : forall k, h' k = if bool_decide (k = p_next_phase_ordinal p /\ is_Some extra) then extra
                                else outcome_of h r k;
  rd_rows : forall k x, r' k = Some x -> h' k = Some (f_outcome x);
  rd_cursor : p_next_phase_ordinal p' = s_starting_phase_ordinal s';
  rd_state : p_state p' = ProgressPending \/ (p_state p' = ProgressTerminal /\ at_end pc r p);
}.

Lemma at_end_dec pc s h r p : recorded pc s h r p -> at_end pc r p \/ ~ at_end pc r p.
Proof.
  intros _. unfold at_end. destruct (Z.eq_dec (p_next_phase_ordinal p) pc); [by left; left|].
  destruct (r (p_next_phase_ordinal p - 1)) as [x|]; [|right; naive_solver].
  destruct (decide (f_outcome x = FileBlocked)); [left; right; eauto|right; naive_solver].
Qed.

Section resumed_run.
Context (pc : Z) (s : StartRow) (h : Z -> option FilePhaseOutcome) (r : Z -> option FilePhaseRow) (p : ProgressRow).
Context (extra : option FilePhaseOutcome) (s' : StartRow) (h' : Z -> option FilePhaseOutcome).
Context (r' : Z -> option FilePhaseRow) (p' : ProgressRow).
Hypothesis rec : recorded pc s h r p.
Hypothesis taken : resumed pc s h r p extra s' h' r' p'.

Lemma resumed_start :
  p_next_phase_ordinal p <= s_starting_phase_ordinal s' <= pc
  /\ (is_Some extra -> p_next_phase_ordinal p < s_starting_phase_ordinal s').
Proof.
  destruct taken as [[_ Hxe] He Ho _ _ _ _]. pose proof (rc_bounds _ _ _ _ _ rec) as Hb.
  destruct (at_end_dec _ _ _ _ _ rec) as [Hend|Hopen].
  - rewrite (He Hend). split; [lia|]. by intros ?%Hxe.
  - rewrite (Ho Hopen). destruct (at_end_or_open _ _ _ _ _ rec); [done|].
    destruct extra; (split; [lia|]); [lia|]. by intros [? ?].
Qed.
Lemma resumed_keys k o : h' k = Some o -> 0 <= k < s_starting_phase_ordinal s'.
Proof.
  destruct resumed_start as [Hs Hsx]. rewrite (rd_history _ _ _ _ _ _ _ _ _ _ taken).
  pose proof (rc_bounds _ _ _ _ _ rec). case_bool_decide as Hk.
  - destruct Hk as [-> Hx]. intros _. apply Hsx in Hx. lia.
  - intros Hk'%(outcome_of_bounds _ _ _ _ _ rec). lia.
Qed.
Lemma resumed_blocked k : h' k = Some FileBlocked <-> outcome_of h r k = Some FileBlocked.
Proof.
  rewrite (rd_history _ _ _ _ _ _ _ _ _ _ taken). case_bool_decide as Hk; [|done]. destruct Hk as [-> _]. split.
  - intros Hx. by destruct (proj1 (rd_extra _ _ _ _ _ _ _ _ _ _ taken)).
  - intros Hx%(outcome_of_bounds _ _ _ _ _ rec). lia.
Qed.
(** A phase before the new start is known, or an earlier one blocked the file. *)
Lemma resumed_covered k :
  0 <= k < s_starting_phase_ordinal s' -> h' k = None -> exists j, outcome_of h r j = Some FileBlocked.
Proof.
  destruct taken as [_ _ Ho Hh _ _ _]. intros Hk. rewrite Hh.
  case_bool_decide as Hkx; intros Hnone; [destruct Hkx as [_ [? ?]]; congruence|].
  unfold outcome_of in Hnone. destruct (h k) as [|] eqn:Hhk; [done|]. apply fmap_None in Hnone.
  destruct (Z.lt_ge_cases k (p_next_phase_ordinal p)) as [HkN|HkN].
  - destruct (Z.lt_ge_cases k (s_starting_phase_ordinal s)) as [HkS|HkS].
    + destruct (rc_covered _ _ _ _ _ rec k) as [j Hj]; [lia|done|]. exists j. by apply outcome_of_history.
    + destruct (proj2 (rc_tail _ _ _ _ _ rec k HkS) HkN). congruence.
  - destruct (at_end_dec _ _ _ _ _ rec) as [Hend|Hopen].
    + destruct resumed_start. destruct Hend as [Hn|(x & Hx & Hxbl)]; [lia|]. exists (p_next_phase_ordinal p - 1).
      by rewrite (outcome_of_row _ _ _ _ _ rec _ _ Hx), Hxbl.
    + rewrite (Ho Hopen) in Hk. destruct extra as [o|]; [|lia]. destruct Hkx. split; [lia|eauto].
Qed.
Lemma recorded_resumed : recorded pc s' h' r' p'.
Proof.
  destruct taken as [[_ Hxe] He Ho Hh Hr Hc Hst]. pose proof (rc_bounds _ _ _ _ _ rec) as Hb.
  destruct resumed_start as [Hs Hsx]. constructor.
  - rewrite Hc. lia.
  - intros k Hk. split; [|rewrite Hc; lia]. intros [x Hx]. apply Hr, resumed_keys in Hx. lia.
  - intros k [x Hx]. apply Hr, resumed_keys in Hx. lia.
  - intros k x _. apply Hr.
  - apply resumed_keys.
  - intros k Hk Hnone. destruct (resumed_covered k Hk Hnone) as [j Hj]. exists j. by apply resumed_blocked.
  - intros k Hk%resumed_blocked. pose proof (outcome_of_block_end _ _ _ _ _ rec _ Hk) as Hend.
    split; [by apply He|]. intros j o. rewrite Hh. case_bool_decide as Hjx.
    + by destruct (Hxe (proj2 Hjx)).
    + by apply (outcome_of_block _ _ _ _ _ rec).
  - intros k x Hk Hx%Hr%resumed_keys. lia.
  - destruct Hst as [->|[-> Hend]]; [done|]. left. rewrite Hc. by apply He.
Qed.
End resumed_run.

(** What is prepared for a file: see [resumed]. *)
Record prepared_for (pc : Z) (h : Z -> option FilePhaseOutcome) (r : Z -> option FilePhaseRow) (p : ProgressRow)
    (f : PhaseFile) (b : PreparedResumeBranch) (extra : option FilePhaseOutcome) (history : History) : Prop := {
  pf_extra : extra <> Some FileBlocked /\ (is_Some extra -> ~ at_end pc r p);
  pf_branch : ns_branch_id (rb_run_start b) = pf_branch_id f;
  pf_version : ns_starting_file_version_id (rb_run_start b) = pf_version_id f;
  pf_end : at_end pc r p -> ns_starting_phase_ordinal (rb_run_start b) = pc;
  pf_open : ~ at_end pc r p ->
    ns_starting_phase_ordinal (rb_run_start b)
    = p_next_phase_ordinal p + match extra with Some _ => 1 | None => 0 end;
  pf_known : history_is history (fun k => if bool_decide (k = p_next_phase_ordinal p /\ is_Some extra) then extra
                                          else outcome_of h r k);
  pf_inherits : rb_history b = map (fun kv => {| nh_branch_id := pf_branch_id f; nh_phase_ordinal := kv.1;
                                                 nh_outcome := kv.2 |}) (rows_asc history);
  pf_seeds : Forall (fun x => rs_branch_id x = pf_branch_id f
                              /\ history !! rs_phase_ordinal x = Some (rs_outcome x)) (rb_seeds b);
  pf_survivor : forall g, rb_survivor b = Some g ->
    pf_branch_id g = pf_branch_id f /\ pf_resume_ordinal g = ns_starting_phase_ordinal (rb_run_start b)
    /\ pf_phase_history g = history;
  pf_terminal : forall t, rb_terminal_progress b = Some t ->
    np_branch_id t = pf_branch_id f /\ np_next_phase_ordinal t = ns_starting_phase_ordinal (rb_run_start b)
    /\ at_end pc r p;
  pf_either : is_Some (rb_survivor b) \/ is_Some (rb_terminal_progress b);
}.

Create HintDb reads.
#[local] Hint Resolve reads_ret reads_throw reads_lift reads_gets reads_getsR reads_bind reads_if reads_option : reads.
Lemma reads_for_each {S E A} (f : A -> Tx S E unit) l : (forall a, tx_reads (f a)) -> tx_reads (for_each f l).
Proof. intros Hf. induction l; cbn; auto with reads. Qed.
#[local] Hint Resolve reads_for_each : reads.
Lemma lineage_reads f start rows : tx_reads (validate_resume_lineage f start rows).
Proof.
  assert (forall v, tx_reads (require_lineage f v)).
  { intros v. unfold require_lineage, version_asset. eauto 8 with reads. }
  unfold validate_resume_lineage. eauto 8 with reads.
Qed.

Section prepare.
Context (pc : Z) (s : StartRow) (h : Z -> option FilePhaseOutcome) (r : Z -> option FilePhaseRow) (p : ProgressRow).
Hypothesis rec : recorded pc s h r p.
Context (lookup : TicketLookup) (f : PhaseFile) (prior : PriorBranch).
Hypothesis starts_at : fs_starting_phase_ordinal (pb_start prior) = s_starting_phase_ordinal s.
Hypothesis rows_read : reads_rows (pb_rows prior) r.
Hypothesis history_read : reads_history (pb_inherited prior) h.
Hypothesis cursor_read : fg_next_phase_ordinal (pb_progress prior) = p_next_phase_ordinal p.
Hypothesis state_read : fg_state (pb_progress prior) = p_state p.
Hypothesis shown : at_end pc r p -> re_verified (lookup f (p_next_phase_ordinal p)) = Ok None.

Lemma unrecorded_cases b tip extra :
  (b = true <-> at_end pc r p) -> b && negb (pf_version_id f =? tip) = false ->
  unrecorded_phase lookup f (pb_progress prior)
    {| bs_next_ordinal := p_next_phase_ordinal p; bs_recorded_tip := tip; bs_phase_complete := b |} = Ok extra ->
  (is_Some extra -> is_terminal (pb_progress prior) = false /\ ~ at_end pc r p)
  /\ forall x, extra = Some x -> rs_outcome x <> FileBlocked /\ rs_phase_ordinal x = p_next_phase_ordinal p
       /\ rs_branch_id x = pf_branch_id f.
Proof.
  intros Hb Ht. unfold unrecorded_phase. cbn. destruct (is_terminal _) eqn:Hterm; [intros [= <-]; split; [by intros []|done]|].
  destruct (Z.eqb_spec (pf_version_id f) tip) as [|Hne]; cbn.
  - intros Hx. store_inv. destruct (at_end_dec _ _ _ _ _ rec) as [Hend|Hopen].
    + rewrite (shown Hend) in *. simplify_eq. split; [by intros []|done].
    + case_match; simplify_eq; (split; [|by intros ? [= <-]]); [done|by intros []].
  - cbn in Ht. rewrite andb_true_r in Ht. intros Hx. store_inv. split; [|by intros ? [= <-]].
    intros _. split; [done|]. rewrite <- Hb. congruence.
Qed.
Lemma terminal_end : is_terminal (pb_progress prior) = true -> at_end pc r p.
Proof.
  unfold is_terminal. rewrite bool_decide_eq_true, state_read. intros Hst.
  pose proof (rc_state _ _ _ _ _ rec) as Hs. by rewrite Hst in Hs.
Qed.

(** What is known once the unrecorded phase is added. *)
Definition with_extra (extra : option FilePhaseOutcome) (k : Z) : option FilePhaseOutcome :=
  if bool_decide (k = p_next_phase_ordinal p /\ is_Some extra) then extra else outcome_of h r k.
Lemma extra_known m extra history :
  history_is m (outcome_of h r) -> (forall x, extra = Some x -> rs_phase_ordinal x = p_next_phase_ordinal p) ->
  match extra with
  | None => Ok m
  | Some seed => merge_phase_outcome m (rs_phase_ordinal seed) (rs_outcome seed)
  end = Ok history ->
  history_is history (with_extra (rs_outcome <$> extra)).
Proof.
  intros Hm Hx He k. unfold with_extra. destruct extra as [sd|]; cbn in *.
  - rewrite (Hx sd eq_refl) in He. unfold merge_phase_outcome in He.
    destruct (m !! p_next_phase_ordinal p) as [o|] eqn:Ho.
    + rewrite Hm in Ho. apply (outcome_of_bounds _ _ _ _ _ rec) in Ho. lia.
    + injection He as <-. case_bool_decide as Hk.
      * destruct Hk as [-> _]. apply lookup_insert_eq.
      * rewrite lookup_insert_ne by (intros <-; apply Hk; eauto). apply Hm.
  - injection He as <-. rewrite bool_decide_eq_false_2 by (intros [_ []]; done). apply Hm.
Qed.
Lemma rows_known extra history :
  history_is history (with_extra extra) ->
  forall row, row ∈ pb_rows prior -> history !! fp_phase_ordinal row = Some (fp_outcome row).
Proof.
  intros Hknown row Hin. destruct (row_row _ _ rows_read row Hin) as (fr & Hx & Hsay).
  pose proof (outcome_of_row _ _ _ _ _ rec _ _ Hx) as Ho. rewrite (Hknown (fp_phase_ordinal row)). unfold with_extra.
  rewrite bool_decide_eq_false_2; [by rewrite Ho, (sy_outcome _ _ Hsay)|].
  intros [He _]. apply (outcome_of_bounds _ _ _ _ _ rec) in Ho. lia.
Qed.

Lemma prepare_branch_ok d b d' :
  prepare_resume_branch lookup f prior pc d = (Ok b, d') ->
  d' = d /\ exists extra history, prepared_for pc h r p f b extra history.
Proof.
  unfold prepare_resume_branch. intros Hp. apply tx_bind_ok in Hp as (? & d1 & Hl & Hp).
  apply lineage_reads in Hl as ->.
  destruct (prior_history_ok _ _ _ _ _ rec _ starts_at _ history_read) as (m & Hm & Hmh).
  destruct (row_shape_ok _ _ _ _ _ rec _ starts_at m Hmh _ rows_read) as (c & Hsh & Hc).
  destruct (prior_rows_ok _ _ _ _ _ rec m Hmh _ rows_read) as (m' & Hm' & Hmh').
  apply tx_bind_ok in Hp as (m1 & ? & [E1 ->]%lift_ok & Hp). rewrite Hm in E1. injection E1 as <-.
  apply tx_bind_ok in Hp as (st & ? & [E2 ->]%lift_ok & Hp). rewrite Hsh in E2. injection E2 as <-.
  apply tx_bind_ok in Hp as (? & ? & [E3 ->]%lift_ok & Hp).
  apply tx_bind_ok in Hp as (m2 & ? & [E4 ->]%lift_ok & Hp). rewrite Hm' in E4. injection E4 as <-.
  cbn [bs_phase_complete bs_recorded_tip bs_next_ordinal] in Hp.
  destruct (c && negb (pf_version_id f =? recorded_tip (pb_start prior) (pb_rows prior))) eqn:Htip; [done|].
  apply tx_bind_ok in Hp as (extra & ? & [E5 ->]%lift_ok & Hp).
  apply tx_bind_ok in Hp as (history & ? & [E6 ->]%lift_ok & Hp). injection Hp as <- <-. split; [done|].
  destruct (unrecorded_cases c _ extra Hc Htip E5) as [Hx1 Hx2].
  exists (rs_outcome <$> extra), history.
  pose proof (extra_known m' extra history Hmh' (fun x Hx => proj1 (proj2 (Hx2 x Hx))) E6) as Hknown.
  pose proof (rows_known _ _ Hknown) as Hrows.
  constructor; cbn.
  - split.
    + destruct extra as [sd|]; [|done]. intros [= Hx]. by destruct (Hx2 sd eq_refl).
    + intros Hx%fmap_is_Some. by apply Hx1.
  - done.
  - done.
  - intros Hend. by rewrite (proj2 Hc Hend).
  - intros Hopen. assert (c = false) as ->. { destruct c; [|done]. by destruct Hopen; apply Hc. }
    destruct (is_terminal (pb_progress prior)) eqn:Ht; [by destruct Hopen; apply terminal_end|].
    destruct extra; cbn; lia.
  - done.
  - done.
  - apply Forall_app. split.
    + unfold prior_row_seeds. apply Forall_forall. intros sd (row & -> & Hin)%list_elem_of_fmap. cbn.
      split; [done|by apply Hrows].
    + destruct extra as [sd|]; [|constructor]. constructor; [|constructor].
      destruct (Hx2 sd eq_refl) as (_ & Hord & Hbr). split; [done|]. rewrite (Hknown (rs_phase_ordinal sd)). unfold with_extra.
      rewrite bool_decide_eq_true_2; [done|]. rewrite Hord. split; [done|]. by eexists.
  - intros g. destruct (is_terminal (pb_progress prior)); [done|]. by intros [= <-].
  - intros t. unfold terminal_resume_progress. destruct (is_terminal (pb_progress prior)) eqn:Ht; [|done].
    intros [= <-]. cbn. apply terminal_end in Ht. by rewrite (proj2 Hc Ht).
  - unfold terminal_resume_progress. destruct (is_terminal (pb_progress prior)); [right|left]; by eexists.
Qed.
End prepare.
