(* ===== verification/OpeningLaws.v ===== *)
(** * Jobs of the coordinator

    All the records of the coordinator fit together in a database where those of
    each file do; the opening of a job, fresh or in place of one that was
    interrupted, keeps it so. *)

From S2P Require Import Prelude Json Vocab Bytes Operations Store Jobs Tickets Workers Leases ControlPlane.
From S2P Require Import PolicySyntax TrackFilters PolicyCompiled PlanModel PlanConditions Planner Progress.
From S2P Require Import Coordinator ResumeLaws.
From Stdlib Require Import ZArith Lia Bool String Ascii.
From stdpp Require Import base gmap strings list sorting.

Open Scope list_scope.
Open Scope Z_scope.

(** ** One file *)

Lemma at_end_ext pc r r' p : (forall k, r k = r' k) -> at_end pc r p -> at_end pc r' p.
Proof. intros Hr. unfold at_end. by rewrite (Hr (p_next_phase_ordinal p - 1)). Qed.
Lemma recorded_ext pc s h h' r r' p :
  (forall k, h k = h' k) -> (forall k, r k = r' k) -> recorded pc s h r p -> recorded pc s h' r' p.
Proof.
  intros Hh Hr [H1 H2 H3 H4 H5 H6 H7 H8 H9].
  constructor; try setoid_rewrite <- Hh; try setoid_rewrite <- Hr; try done.
  destruct (p_state p); try done; by apply (at_end_ext pc r).
Qed.

Section phase.
Context (pc : Z) (s : StartRow) (h : Z -> option FilePhaseOutcome) (r : Z -> option FilePhaseRow) (p : ProgressRow).
Hypothesis rec : recorded pc s h r p.

(** A file that waits is not at its end unless no phase is left. *)
Lemma pending_open : p_state p = ProgressPending -> p_next_phase_ordinal p < pc -> ~ at_end pc r p.
Proof.
  intros Hp Hn [He|(x & Hx & Hb)]; [lia|]. pose proof (rc_state _ _ _ _ _ rec) as Hs. rewrite Hp in Hs.
  pose proof (rc_seeds _ _ _ _ _ rec (p_next_phase_ordinal p - 1) x ltac:(lia) Hx) as Hh. rewrite Hb in Hh.
  apply (rc_inherited_block _ _ _ _ _ rec) in Hh as [? _]. lia.
Qed.

(** The next phase of a file is recorded. *)
Definition row_added (x : FilePhaseRow) (k : Z) : option FilePhaseRow :=
  if k =? p_next_phase_ordinal p then Some x else r k.
Lemma recorded_phase x :
  p_state p = ProgressActive -> p_next_phase_ordinal p < pc -> ~ at_end pc r p ->
  recorded pc s h (row_added x) (with_cursor (p_next_phase_ordinal p + 1) p).
Proof.
  intros Hst Hn Hopen. pose proof (rc_bounds _ _ _ _ _ rec) as Hb. unfold row_added. constructor; cbn.
  - lia.
  - intros k Hk. destruct (Z.eqb_spec k (p_next_phase_ordinal p)) as [->|Hne]; [split; [lia|eauto]|].
    rewrite (rc_tail _ _ _ _ _ rec k Hk). lia.
  - intros k. destruct (Z.eqb_spec k (p_next_phase_ordinal p)) as [->|Hne]; [lia|]. apply (rc_rows _ _ _ _ _ rec).
  - intros k y Hk. destruct (Z.eqb_spec k (p_next_phase_ordinal p)) as [->|Hne]; [lia|].
    by apply (rc_seeds _ _ _ _ _ rec).
  - apply (rc_history _ _ _ _ _ rec).
  - apply (rc_covered _ _ _ _ _ rec).
  - apply (rc_inherited_block _ _ _ _ _ rec).
  - intros k y Hk. destruct (Z.eqb_spec k (p_next_phase_ordinal p)) as [->|Hne]; [lia|]. intros Hy Ho.
    destruct Hopen. apply (outcome_of_block_end _ _ _ _ _ rec k).
    by rewrite (outcome_of_row _ _ _ _ _ rec _ _ Hy), Ho.
  - by rewrite Hst.
Qed.
Lemma at_end_phase x :
  at_end pc (row_added x) (with_cursor (p_next_phase_ordinal p + 1) p)
  <-> p_next_phase_ordinal p + 1 = pc \/ f_outcome x = FileBlocked.
Proof.
  unfold at_end, row_added. cbn. replace (p_next_phase_ordinal p + 1 - 1) with (p_next_phase_ordinal p) by lia.
  rewrite Z.eqb_refl. naive_solver.
Qed.
Lemma outcome_of_phase x k :
  outcome_of h (row_added x) k = if k =? p_next_phase_ordinal p then Some (f_outcome x) else outcome_of h r k.
Proof.
  unfold outcome_of, row_added. destruct (Z.eqb_spec k (p_next_phase_ordinal p)) as [->|]; [|done].
  destruct (h _) eqn:Hh; [|done]. apply (rc_history _ _ _ _ _ rec) in Hh. pose proof (rc_bounds _ _ _ _ _ rec). lia.
Qed.

(** The state of a file moves on. *)
Lemma recorded_state st a t :
  match st with
  | ProgressPending => p_next_phase_ordinal p = s_starting_phase_ordinal s
  | ProgressActive => True
  | _ => at_end pc r p
  end -> recorded pc s h r (with_state st a t p).
Proof. intros Hst. destruct rec. by constructor. Qed.
End phase.

(** A file that begins. *)
Lemma recorded_fresh pc s p :
  0 <= pc -> s_starting_phase_ordinal s = 0 -> p_next_phase_ordinal p = 0 -> p_state p = ProgressPending ->
  recorded pc s (fun _ => None) (fun _ => None) p.
Proof.
  intros Hpc Hs Hn Hst. constructor; rewrite ?Hs, ?Hn, ?Hst; try done.
  - intros k Hk. split; [by intros [? ?]|intros ?; lia].
  - intros k Hk. lia.
Qed.

(** ** All files *)

Definition history_of (d : WorkflowDb) (job : Z) (b : string) (k : Z) : option FilePhaseOutcome :=
  run_history d !! (job, b, k).
Definition rows_of (d : WorkflowDb) (job : Z) (b : string) (k : Z) : option FilePhaseRow :=
  file_phases d !! (job, k, b).
Definition window_max (d : WorkflowDb) (job : Z) : Z :=
  match windows d !! job with Some w => w_max_in_flight_files w | None => 0 end.

Record db_ok (pc : Z) (d : WorkflowDb) : Prop := {
  ok_window : forall job, slots job (progress d) <= window_max d job;
  ok_ordinals : ordinals_distinct (progress d);
  ok_windows : forall job, is_Some (windows d !! job) -> is_Some (jobs (core d) !! job);
  ok_jobs : forall job b, is_Some (run_starts d !! (job, b)) -> is_Some (jobs (core d) !! job);
  ok_paired : forall key, is_Some (run_starts d !! key) <-> is_Some (progress d !! key);
  ok_history : forall job b k, is_Some (history_of d job b k) -> is_Some (run_starts d !! (job, b));
  ok_rows : forall job b k, is_Some (rows_of d job b k) -> is_Some (run_starts d !! (job, b));
  ok_recorded : forall job b s p, run_starts d !! (job, b) = Some s -> progress d !! (job, b) = Some p ->
    recorded pc s (history_of d job b) (rows_of d job b) p;
}.

Lemma progress_start pc d job b p :
  db_ok pc d -> progress d !! (job, b) = Some p ->
  exists s, run_starts d !! (job, b) = Some s /\ recorded pc s (history_of d job b) (rows_of d job b) p.
Proof.
  intros Hd Hp. destruct (proj2 (ok_paired _ _ Hd (job, b))) as [s Hs]; [eauto|]. exists s. split; [done|].
  by apply (ok_recorded _ _ Hd).
Qed.

(** One row of progress changes. *)
Lemma db_ok_state pc d job b p st a t :
  db_ok pc d -> progress d !! (job, b) = Some p ->
  (forall s, recorded pc s (history_of d job b) (rows_of d job b) p ->
     recorded pc s (history_of d job b) (rows_of d job b) (with_state st a t p)) ->
  (holds_slot st = true -> holds_slot (p_state p) = true \/ slots job (progress d) < window_max d job) ->
  db_ok pc (set_progress (<[(job, b) := with_state st a t p]> (progress d)) d).
Proof.
  intros Hd Hp Hrec Hslot. destruct Hd as [Hw Ho Hwj Hj Hpair Hh Hr Hrc]. constructor; try done.
  - intros j. cbn. rewrite (slots_update _ _ _ p) by done. unfold in_flight_in. cbn [fst snd].
    rewrite in_flight_with, (in_flight_of p). specialize (Hw j). unfold window_max in *. cbn.
    destruct (Z.eqb_spec job j) as [->|]; cbn; [|lia].
    destruct (holds_slot st); [|destruct (holds_slot (p_state p)); lia].
    destruct Hslot as [->|]; [done|lia|]. destruct (holds_slot (p_state p)); lia.
  - by eapply ordinals_update.
  - intros key. cbn. rewrite Hpair. destruct (decide (key = (job, b))) as [->|].
    + rewrite lookup_insert_eq, Hp. by split; eauto.
    + by rewrite lookup_insert_ne.
  - intros j b' s q. cbn. intros Hs [[Hk <-]|[Hne Hq]]%lookup_insert_Some; [|by apply Hrc].
    injection Hk as <- <-. by apply Hrec, Hrc.
Qed.

(** The outcome of a phase is recorded and the cursor moves. *)
Lemma db_ok_phase pc d job b p x :
  db_ok pc d -> progress d !! (job, b) = Some p -> p_state p = ProgressActive ->
  p_next_phase_ordinal p < pc -> ~ at_end pc (rows_of d job b) p ->
  db_ok pc (set_progress (<[(job, b) := with_cursor (p_next_phase_ordinal p + 1) p]> (progress d))
              (set_file_phases (<[(job, p_next_phase_ordinal p, b) := x]> (file_phases d)) d)).
Proof.
  intros Hd Hp Hst Hn Hopen. pose proof Hd as [Hw Ho Hwj Hj Hpair Hh Hr Hrc]. constructor; try done.
  - intros j. cbn. rewrite (slots_update _ _ _ p) by done. unfold in_flight_in. cbn [fst snd].
    assert (in_flight_state (with_cursor (p_next_phase_ordinal p + 1) p) = in_flight_state p) as -> by done.
    specialize (Hw j). unfold window_max in *. cbn. destruct (_ && _); lia.
  - by eapply ordinals_update.
  - intros key. cbn. rewrite Hpair. destruct (decide (key = (job, b))) as [->|].
    + rewrite lookup_insert_eq, Hp. by split; eauto.
    + by rewrite lookup_insert_ne.
  - intros j b' k. unfold rows_of. cbn. intros [y [[Hk <-]|[Hne Hy]]%lookup_insert_Some].
    + injection Hk as <- _ <-. apply Hpair. eauto.
    + apply (Hr _ _ k). unfold rows_of. eauto.
  - intros j b' s q. cbn. intros Hs [[Hk <-]|[Hne Hq]]%lookup_insert_Some.
    + injection Hk as <- <-. eapply recorded_ext; [done| |by apply recorded_phase; [apply Hrc|..]].
      intros k. unfold row_added, rows_of. cbn. destruct (Z.eqb_spec k (p_next_phase_ordinal p)) as [->|Hk].
      * by rewrite lookup_insert_eq.
      * rewrite lookup_insert_ne by congruence. done.
    + eapply recorded_ext; [done| |by apply Hrc]. intros k. unfold rows_of. cbn.
      rewrite lookup_insert_ne by congruence. done.
Qed.

(** ** Opening a job *)

Section opening.
Context `{Iso8601}.

Lemma job_opened input c job c' :
  open_job_in_tx input c = (Ok job, c') ->
  jobs c !! job_id job = None /\ (forall k, is_Some (jobs c !! k) -> is_Some (jobs c' !! k))
  /\ is_Some (jobs c' !! job_id job).
Proof.
  unfold open_job_in_tx, Job_create_in_tx, append_event. intros Hx. store_inv. cbn. split_and!.
  - apply next_rowid_fresh.
  - intros k Hk. by apply lookup_insert_is_Some'; right.
  - by rewrite lookup_insert_eq.
Qed.

Definition seed_key (job : Z) (x : PreparedResumeSeed) : Z * Z * string := (job, rs_phase_ordinal x, rs_branch_id x).
Lemma seeds_upserted job l now d rows d' :
  upsert_seeds job l now d = (Ok rows, d') ->
  exists m, d' = set_file_phases m d
    /\ (forall key z, m !! key = Some z -> file_phases d !! key = Some z
          \/ exists x, x ∈ l /\ key = seed_key job x /\ f_outcome z = rs_outcome x)
    /\ (forall key z, file_phases d !! key = Some z -> m !! key = Some z).
Proof.
  revert d rows. induction l as [|x l IH]; intros d rows Hl; cbn in Hl.
  - injection Hl as <- <-. exists (file_phases d). split_and!; [by destruct d|by left|done].
  - apply tx_bind_ok in Hl as (row & d1 & (_ & _ & _ & Hc)%upsert_ok & Hl).
    apply tx_bind_ok in Hl as (rows' & d2 & Hr & Hl). injection Hl as <- <-.
    destruct (IH _ _ Hr) as (m & -> & H1 & H2).
    exists m. destruct Hc as [[-> _]|(Hn & z0 & -> & Ho)]; cbn in *.
    + split_and!; [done| |done]. intros key z [?|(y & Hy & ?)]%H1; [by left|right]. exists y. by split; [right|].
    + split_and!; [done| |].
      * intros key z [[[<- <-]|[_ Hz]]%lookup_insert_Some|(y & Hy & ?)]%H1; [right|by left|right].
        -- exists x. split_and!; [by left|done|done].
        -- exists y. by split; [right|].
      * intros key z Hz. apply H2. rewrite lookup_insert_ne; [done|]. intros <-. congruence.
Qed.

Record opened_job (starts : list NewFileRunStart) (history : list NewFileRunHistory)
    (seeds : list PreparedResumeSeed) (files : list PhaseFile) (terminal : list NewFileProgress) (max : Z)
    (d : WorkflowDb) (j : Z) (d' : WorkflowDb) : Prop := {
  oj_fresh : jobs (core d) !! j = None;
  oj_kept : forall k, is_Some (jobs (core d) !! k) -> is_Some (jobs (core d') !! k);
  oj_job : is_Some (jobs (core d') !! j);
  oj_window : exists w, windows d' = <[j := w]> (windows d) /\ w_max_in_flight_files w = max /\ 0 < max;
  oj_starts : run_starts d' = insert_all (start_key j) start_row starts (run_starts d);
  oj_starts_distinct : NoDup (map (start_key j) starts);
  oj_history : run_history d' = insert_all (history_key j) nh_outcome history (run_history d);
  oj_history_distinct : NoDup (map (history_key j) history);
  oj_progress : marked j (map np_branch_id terminal)
    (insert_all (progress_key j) pending_row (map new_progress files ++ terminal) (progress d)) (progress d');
  oj_progress_distinct : NoDup (map (progress_key j) (map new_progress files ++ terminal));
  oj_ordinals : ordinals_distinct (progress d) -> ordinals_distinct (progress d');
  oj_slots : forall k, slots k (progress d') = slots k (progress d);
  oj_rows : forall key z, file_phases d' !! key = Some z -> file_phases d !! key = Some z
    \/ exists x, x ∈ seeds /\ key = seed_key j x /\ f_outcome z = rs_outcome x;
  oj_rows_kept : forall key z, file_phases d !! key = Some z -> file_phases d' !! key = Some z;
}.

Lemma open_effect starts history seeds files terminal max now d job rows d' :
  open_sliding_file_job_with_terminal_progress starts history seeds files terminal max now d
  = (Ok (job, rows), d') ->
  opened_job starts history seeds files terminal max d (job_id job) d'.
Proof.
  unfold open_sliding_file_job_with_terminal_progress. rewrite atomically_ok. intros Hx.
  apply tx_bind_ok in Hx as (job' & d1 & Hc & Hx).
  apply tx_bind_ok in Hx as ([] & d2 & (-> & Hsn & _)%starts_inserted & Hx).
  apply tx_bind_ok in Hx as ([] & d3 & (-> & Hhn & _)%history_inserted & Hx).
  apply tx_bind_ok in Hx as ([] & d4 & (w & -> & _ & Hwm & Hmax & _ & Hpn & _ & Hpo & Hps)%window_inserted & Hx).
  apply tx_bind_ok in Hx as ([] & d5 & (m & -> & Hm & Hmo & Hms)%terminals_marked & Hx).
  apply tx_bind_ok in Hx as (rows' & d6 & (fp & -> & Hf1 & Hf2)%seeds_upserted & Hx). store_inv.
  unfold on_core in Hc. destruct (open_job_in_tx _ (core d)) as [r c] eqn:Ho. injection Hc as -> <-.
  apply job_opened in Ho as (Hj1 & Hj2 & Hj3). cbn in *.
  constructor; cbn; try done.
  - by exists w.
  - intros Hd. by apply Hmo, Hpo.
  - intros k. by rewrite Hms, Hps.
Qed.

(** Nothing is kept under the number of a job that does not exist. *)
Record unused (j : Z) (d : WorkflowDb) : Prop := {
  un_starts : forall b, run_starts d !! (j, b) = None;
  un_progress : forall b, progress d !! (j, b) = None;
  un_history : forall b k, history_of d j b k = None;
  un_rows : forall b k, rows_of d j b k = None;
}.
Lemma fresh_unused pc d j : db_ok pc d -> jobs (core d) !! j = None -> unused j d.
Proof.
  intros Hd Hj. assert (forall b, run_starts d !! (j, b) = None) as Hs.
  { intros b. apply eq_None_not_Some. intros Hs%(ok_jobs _ _ Hd). rewrite Hj in Hs. by destruct Hs. }
  constructor; [done|..].
  - intros b. apply eq_None_not_Some. rewrite <- (ok_paired _ _ Hd), Hs. by intros [].
  - intros b k. apply eq_None_not_Some. intros Hk%(ok_history _ _ Hd). rewrite Hs in Hk. by destruct Hk.
  - intros b k. apply eq_None_not_Some. intros Hk%(ok_rows _ _ Hd). rewrite Hs in Hk. by destruct Hk.
Qed.

(** The records of a file are the same in two databases. *)
Record same_file (d d' : WorkflowDb) (job : Z) (b : string) : Prop := {
  sf_start : run_starts d' !! (job, b) = run_starts d !! (job, b);
  sf_progress : progress d' !! (job, b) = progress d !! (job, b);
  sf_history : forall k, history_of d' job b k = history_of d job b k;
  sf_rows : forall k, rows_of d' job b k = rows_of d job b k;
}.

Section opened_job.
Context starts history seeds files terminal max d j d' (op : opened_job starts history seeds files terminal max d j d').

Lemma opened_other job b : job <> j -> same_file d d' job b.
Proof.
  intros Hj. constructor.
  - rewrite (oj_starts _ _ _ _ _ _ _ _ _ op). apply insert_all_out. by intros (x & [= ? ?] & _)%list_elem_of_fmap.
  - pose proof (oj_progress _ _ _ _ _ _ _ _ _ op (job, b)) as Hm. rewrite insert_all_out in Hm
      by (by intros (x & [= ? ?] & _)%list_elem_of_fmap).
    destruct (progress d !! _), (progress d' !! _); try done. by destruct Hm as [->|(? & _)].
  - intros k. unfold history_of. rewrite (oj_history _ _ _ _ _ _ _ _ _ op). apply insert_all_out.
    by intros (x & [= ? ? ?] & _)%list_elem_of_fmap.
  - intros k. unfold rows_of. destruct (file_phases d' !! (job, k, b)) as [z|] eqn:Hz.
    + apply (oj_rows _ _ _ _ _ _ _ _ _ op) in Hz as [->|(x & _ & [= ? ? ?] & _)]; done.
    + destruct (file_phases d !! (job, k, b)) as [z|] eqn:Hz'; [|done].
      apply (oj_rows_kept _ _ _ _ _ _ _ _ _ op) in Hz'. congruence.
Qed.

Hypothesis un : unused j d.

Lemma opened_start b s :
  run_starts d' !! (j, b) = Some s <-> exists x, x ∈ starts /\ ns_branch_id x = b /\ s = start_row x.
Proof.
  rewrite (oj_starts _ _ _ _ _ _ _ _ _ op). pose proof (oj_starts_distinct _ _ _ _ _ _ _ _ _ op) as Hnd. split.
  - intros [(x & Hx & [= <-] & ->)|[_ Hs]]%insert_all_some; [by exists x| |done].
    rewrite (un_starts _ _ un) in Hs. done.
  - intros (x & Hx & <- & ->). by apply (insert_all_in (start_key j)).
Qed.
Lemma opened_history b k o :
  history_of d' j b k = Some o
  <-> exists x, x ∈ history /\ nh_branch_id x = b /\ nh_phase_ordinal x = k /\ nh_outcome x = o.
Proof.
  unfold history_of. rewrite (oj_history _ _ _ _ _ _ _ _ _ op).
  pose proof (oj_history_distinct _ _ _ _ _ _ _ _ _ op) as Hnd. split.
  - intros [(x & Hx & [= <- <-] & ->)|[_ Hs]]%insert_all_some; [by exists x| |done].
    pose proof (un_history _ _ un b k) as Hn. unfold history_of in Hn. congruence.
  - intros (x & Hx & <- & <- & <-). by apply (insert_all_in (history_key j)).
Qed.
Lemma opened_row b k z :
  rows_of d' j b k = Some z ->
  exists x, x ∈ seeds /\ rs_branch_id x = b /\ rs_phase_ordinal x = k /\ f_outcome z = rs_outcome x.
Proof.
  intros [Hz|(x & Hx & [= -> ->] & Ho)]%(oj_rows _ _ _ _ _ _ _ _ _ op); [|by exists x].
  pose proof (un_rows _ _ un b k) as Hn. unfold rows_of in Hn. congruence.
Qed.
Lemma opened_progress b p :
  progress d' !! (j, b) = Some p ->
  exists x, x ∈ map new_progress files ++ terminal /\ np_branch_id x = b
    /\ p_next_phase_ordinal p = np_next_phase_ordinal x
    /\ (p_state p = ProgressPending \/ (p_state p = ProgressTerminal /\ b ∈ map np_branch_id terminal)).
Proof.
  intros Hp. pose proof (oj_progress _ _ _ _ _ _ _ _ _ op (j, b)) as Hm. rewrite Hp in Hm.
  destruct (insert_all _ _ _ _ !! _) as [q|] eqn:Hq; [|done].
  apply insert_all_some in Hq as [(x & Hx & [= <-] & ->)|[_ Hs]]; [| |apply (oj_progress_distinct _ _ _ _ _ _ _ _ _ op)].
  - exists x. split_and!; try done; destruct Hm as [->|(_ & Hin & _ & t & ->)]; auto.
  - rewrite (un_progress _ _ un) in Hs. done.
Qed.
Lemma opened_progress_in x : x ∈ map new_progress files ++ terminal -> is_Some (progress d' !! (j, np_branch_id x)).
Proof.
  intros Hx. pose proof (oj_progress _ _ _ _ _ _ _ _ _ op (j, np_branch_id x)) as Hm.
  change (j, np_branch_id x) with (progress_key j x) in *.
  rewrite insert_all_in in Hm by (done || apply (oj_progress_distinct _ _ _ _ _ _ _ _ _ op)).
  destruct (progress d' !! _); [eauto|done].
Qed.
(** A file that is queued waits where it is to go on. *)
Lemma opened_queued f p :
  f ∈ files -> progress d' !! (j, pf_branch_id f) = Some p -> p_state p = ProgressPending ->
  p_next_phase_ordinal p = pf_resume_ordinal f.
Proof.
  intros Hf Hp Hst. pose proof (oj_progress _ _ _ _ _ _ _ _ _ op (j, pf_branch_id f)) as Hm. rewrite Hp in Hm.
  change (j, pf_branch_id f) with (progress_key j (new_progress f)) in Hm.
  rewrite insert_all_in in Hm.
  - destruct Hm as [->|(_ & _ & _ & t & ->)]; [done|done].
  - apply (oj_progress_distinct _ _ _ _ _ _ _ _ _ op).
  - apply elem_of_app. left. by apply list_elem_of_fmap_2.
Qed.
End opened_job.

Lemma db_ok_opened pc starts history seeds files terminal max d j d' :
  db_ok pc d -> opened_job starts history seeds files terminal max d j d' ->
  (forall b, (exists x, x ∈ starts /\ ns_branch_id x = b)
             <-> (exists x, x ∈ map new_progress files ++ terminal /\ np_branch_id x = b)) ->
  (forall x, x ∈ history -> exists y, y ∈ starts /\ ns_branch_id y = nh_branch_id x) ->
  (forall x, x ∈ seeds -> exists y, y ∈ starts /\ ns_branch_id y = rs_branch_id x) ->
  (forall b s p, run_starts d' !! (j, b) = Some s -> progress d' !! (j, b) = Some p ->
     recorded pc s (history_of d' j b) (rows_of d' j b) p) ->
  db_ok pc d'.
Proof.
  intros Hd op Hpair Hhist Hseeds Hnew. pose proof (fresh_unused _ _ _ Hd (oj_fresh _ _ _ _ _ _ _ _ _ op)) as un.
  assert (forall b, is_Some (run_starts d' !! (j, b)) <-> exists x, x ∈ starts /\ ns_branch_id x = b) as Hst.
  { intros b. split.
    - intros [s (x & ? & ? & _)%(opened_start _ _ _ _ _ _ _ _ _ op un)]. eauto.
    - intros (x & ? & ?). exists (start_row x). apply (opened_start _ _ _ _ _ _ _ _ _ op un). eauto. }
  constructor.
  - intros job. rewrite (oj_slots _ _ _ _ _ _ _ _ _ op). pose proof (ok_window _ _ Hd job) as Hw.
    unfold window_max in *. destruct (oj_window _ _ _ _ _ _ _ _ _ op) as (w & -> & Hm & Hpos).
    destruct (decide (job = j)) as [->|Hne]; [|by rewrite lookup_insert_ne].
    rewrite lookup_insert_eq. destruct (windows d !! j) eqn:Hwj; [|lia].
    destruct (ok_windows _ _ Hd j) as [? Hx]; [eauto|]. rewrite (oj_fresh _ _ _ _ _ _ _ _ _ op) in Hx. done.
  - apply (oj_ordinals _ _ _ _ _ _ _ _ _ op), (ok_ordinals _ _ Hd).
  - intros job Hw. destruct (decide (job = j)) as [->|Hne]; [apply (oj_job _ _ _ _ _ _ _ _ _ op)|].
    apply (oj_kept _ _ _ _ _ _ _ _ _ op), (ok_windows _ _ Hd). revert Hw.
    destruct (oj_window _ _ _ _ _ _ _ _ _ op) as (w & -> & _). by rewrite lookup_insert_ne.
  - intros job b Hs. destruct (decide (job = j)) as [->|Hne]; [apply (oj_job _ _ _ _ _ _ _ _ _ op)|].
    apply (oj_kept _ _ _ _ _ _ _ _ _ op), (ok_jobs _ _ Hd job b).
    by rewrite <- (sf_start _ _ _ _ (opened_other _ _ _ _ _ _ _ _ _ op job b Hne)).
  - intros [job b]. destruct (decide (job = j)) as [->|Hne].
    + rewrite Hst, Hpair. split; [intros (x & Hx & <-); by apply (opened_progress_in _ _ _ _ _ _ _ _ _ op)|].
      intros [p (x & ? & ? & _)%(opened_progress _ _ _ _ _ _ _ _ _ op un)]. eauto.
    + destruct (opened_other _ _ _ _ _ _ _ _ _ op job b Hne) as [-> -> _ _]. apply (ok_paired _ _ Hd).
  - intros job b k Hk. destruct (decide (job = j)) as [->|Hne].
    + apply Hst. destruct Hk as [o (x & Hx & <- & _)%(opened_history _ _ _ _ _ _ _ _ _ op un)]. by apply Hhist.
    + destruct (opened_other _ _ _ _ _ _ _ _ _ op job b Hne) as [-> _ Hh _]. rewrite Hh in Hk.
      by apply (ok_history _ _ Hd) in Hk.
  - intros job b k Hk. destruct (decide (job = j)) as [->|Hne].
    + apply Hst. destruct Hk as [o (x & Hx & <- & _)%(opened_row _ _ _ _ _ _ _ _ _ op un)]. by apply Hseeds.
    + destruct (opened_other _ _ _ _ _ _ _ _ _ op job b Hne) as [-> _ _ Hr]. rewrite Hr in Hk.
      by apply (ok_rows _ _ Hd) in Hk.
  - intros job b s p. destruct (decide (job = j)) as [->|Hne]; [apply Hnew|].
    destruct (opened_other _ _ _ _ _ _ _ _ _ op job b Hne) as [-> -> Hh Hr]. intros Hs Hp.
    eapply recorded_ext; [| |by apply (ok_recorded _ _ Hd)]; done.
Qed.
End opening.

(** A fresh run. *)
Lemma db_ok_fresh `{Iso8601} pc files max d j d' :
  0 <= pc -> db_ok pc d -> Forall fresh_file files ->
  opened_job (run_starts_for_files files) [] [] files [] max d j d' -> db_ok pc d'.
Proof.
  intros Hpc Hd Hf op. pose proof (fresh_unused _ _ _ Hd (oj_fresh _ _ _ _ _ _ _ _ _ op)) as un.
  rewrite Forall_forall in Hf.
  eapply db_ok_opened; [done|exact op| |by intros x ?%elem_of_nil|by intros x ?%elem_of_nil|].
  - intros b. rewrite app_nil_r. unfold run_starts_for_files. split.
    + intros (x & (f & -> & Hin)%list_elem_of_fmap & <-). exists (new_progress f). split; [|done].
      by apply list_elem_of_fmap_2.
    + intros (x & (f & -> & Hin)%list_elem_of_fmap & <-). eexists. split; [by apply list_elem_of_fmap_2|done].
  - intros b s p Hs Hp. apply (opened_start _ _ _ _ _ _ _ _ _ op un) in Hs as (x & Hx & _ & ->).
    apply list_elem_of_fmap in Hx as (f & -> & _).
    apply (opened_progress _ _ _ _ _ _ _ _ _ op un) in Hp as (x & Hx & _ & Hn & Hst).
    rewrite app_nil_r in Hx. apply list_elem_of_fmap in Hx as (g & -> & Hg).
    apply (recorded_ext pc _ (fun _ => None) _ (fun _ => None)).
    + intros k. destruct (history_of d' j b k) eqn:Hk; [|done].
      apply (opened_history _ _ _ _ _ _ _ _ _ op un) in Hk as (x & ?%elem_of_nil & _). done.
    + intros k. destruct (rows_of d' j b k) eqn:Hk; [|done].
      apply (opened_row _ _ _ _ _ _ _ _ _ op un) in Hk as (x & ?%elem_of_nil & _). done.
    + apply recorded_fresh; [done|done| |by destruct Hst as [?|[_ ?%elem_of_nil]]].
      rewrite Hn. apply (Hf g Hg).
Qed.

(** ** A run that takes up another *)

Section taking_up.
Context `{Iso8601} (pc : Z) (d : WorkflowDb) (job : Z) (lookup : TicketLookup).
Hypothesis ok : db_ok pc d.
Hypothesis shown : forall f p, progress d !! (job, pf_branch_id f) = Some p ->
  at_end pc (rows_of d job (pf_branch_id f)) p -> re_verified (lookup f (p_next_phase_ordinal p)) = Ok None.

Definition branch_prepared (f : PhaseFile) (br : PreparedResumeBranch) : Prop :=
  exists s p extra history, run_starts d !! (job, pf_branch_id f) = Some s
    /\ progress d !! (job, pf_branch_id f) = Some p
    /\ prepared_for pc (history_of d job (pf_branch_id f)) (rows_of d job (pf_branch_id f)) p f br extra history.

Lemma branches_prepared starts rows inherited ps files prepared d' :
  collect (row_to_file_run_start job) (job_starts job d) = Ok starts ->
  collect (row_to_file_phase job) (job_file_phases job d) = Ok rows ->
  collect (row_to_file_run_history job) (job_history job d) = Ok inherited ->
  collect (fun kv => decode_file_progress kv.1 kv.2) (job_progress job d) = Ok ps ->
  prepare_branches lookup pc starts rows inherited ps files d = (Ok prepared, d') ->
  d' = d /\ Forall2 branch_prepared files prepared.
Proof.
  intros Hs Hr Hh Hp. revert prepared d'. induction files as [|f files IH]; intros prepared d' Hx; cbn in Hx.
  - injection Hx as <- <-. by split.
  - apply tx_bind_ok in Hx as (start & ? & [Hstart ->]%lift_ok & Hx).
    apply tx_bind_ok in Hx as (own & ? & [Hown ->]%lift_ok & Hx).
    destruct (by_branch fs_branch_id _ _) as [start'|] eqn:Hst; [|done]. injection Hstart as ->.
    destruct (by_branch fg_branch_id _ _) as [own'|] eqn:Hpr; [|done]. injection Hown as ->.
    destruct (start_of_branch job d _ _ _ Hs Hst) as (s & Hs' & Hso & _).
    destruct (progress_of_branch job d _ _ _ Hp Hpr) as (p & Hp' & Hdec).
    apply decode_progress in Hdec as (_ & _ & _ & _ & Hstate & Hcur & _).
    pose proof (ok_recorded _ _ ok _ _ _ _ Hs' Hp') as rec.
    apply tx_bind_ok in Hx as (br & d1 & Hbr & Hx).
    apply (prepare_branch_ok _ _ _ _ _ rec) in Hbr as [-> (extra & history & Hbr)]; cbn; try done.
    + apply tx_bind_ok in Hx as (rest & d2 & Hrest & Hx). injection Hx as <- <-.
      apply IH in Hrest as [-> Hrest]. split; [done|]. constructor; [|done]. by exists s, p, extra, history.
    + by apply phases_of_branch.
    + by apply history_of_branch.
    + by apply shown.
Qed.

Record resume_prepared (r : ResumePreparation) (files : list PhaseFile) (prepared : list PreparedResumeBranch) : Prop := {
  pp_branches : Forall2 branch_prepared files prepared;
  pp_files : rp_files r = omap rb_survivor prepared;
  pp_starts : rp_run_starts r = map rb_run_start prepared;
  pp_history : forall x, x ∈ rp_history r <-> exists br, br ∈ prepared /\ x ∈ rb_history br;
  pp_seeds : forall x, x ∈ rp_seeds r <-> exists br, br ∈ prepared /\ x ∈ rb_seeds br;
  pp_terminal : rp_terminal_progress r = omap rb_terminal_progress prepared;
}.
Lemma concat_in {A B} (f : A -> list B) l x : x ∈ concat (map f l) <-> exists a, a ∈ l /\ x ∈ f a.
Proof.
  rewrite list_elem_of_In, in_concat. setoid_rewrite in_map_iff. setoid_rewrite list_elem_of_In. naive_solver.
Qed.
Lemma resume_ok files r d' :
  prepare_resume lookup job files pc d = (Ok r, d') ->
  d' = d /\ exists prepared, resume_prepared r files prepared.
Proof.
  unfold prepare_resume, file_run_starts_for_job, file_phases_for_job, file_run_history_for_job, file_window,
    file_progress_for_job. intros Hx. store_inv.
  match goal with Hb : prepare_branches _ _ _ _ _ _ _ _ = _ |- _ =>
    apply branches_prepared in Hb as [-> Hb]; [|done|done|done|done]; rename Hb into Hprep end.
  split; [done|]. eexists. constructor; cbn; [exact Hprep|done|done| | |done].
  - intros y. rewrite merge_sort_Permutation. apply concat_in.
  - intros y. apply concat_in.
Qed.
End taking_up.

Section taken_up.
Context `{Iso8601} (pc : Z) (d : WorkflowDb) (job : Z) (r : ResumePreparation) (files : list PhaseFile).
Context (prepared : list PreparedResumeBranch) (max j : Z) (d' : WorkflowDb).
Hypothesis ok : db_ok pc d.
Hypothesis prep : resume_prepared pc d job r files prepared.
Hypothesis op : opened_job (rp_run_starts r) (rp_history r) (rp_seeds r) (rp_files r) (rp_terminal_progress r)
                  max d j d'.

Definition branch_of (br : PreparedResumeBranch) : string := ns_branch_id (rb_run_start br).
Lemma same_branch br br' : br ∈ prepared -> br' ∈ prepared -> branch_of br = branch_of br' -> br = br'.
Proof.
  pose proof (oj_starts_distinct _ _ _ _ _ _ _ _ _ op) as Hnd. rewrite (pp_starts _ _ _ _ _ _ prep), map_map in Hnd.
  intros H1 H2 He. apply (NoDup_map_inj _ _ _ _ Hnd H1 H2). unfold start_key. by f_equal.
Qed.
Lemma prepared_branch br : br ∈ prepared -> exists f, branch_prepared pc d job f br /\ branch_of br = pf_branch_id f.
Proof.
  intros Hin. destruct (Forall2_in_r _ _ _ _ (pp_branches _ _ _ _ _ _ prep) Hin) as (f & _ & Hf).
  exists f. split; [done|]. destruct Hf as (s & p & extra & history & _ & _ & Hf). by destruct Hf.
Qed.
(** What is written for a branch is what was prepared for it. *)
Lemma survivor_branch g : g ∈ rp_files r -> exists br, br ∈ prepared /\ rb_survivor br = Some g /\ branch_of br = pf_branch_id g.
Proof.
  rewrite (pp_files _ _ _ _ _ _ prep). intros (br & Hin & Hg)%omap_in. exists br. split_and!; try done.
  destruct (prepared_branch br Hin) as (f & (s & p & extra & history & _ & _ & Hf) & ->).
  symmetry. by apply (pf_survivor _ _ _ _ _ _ _ _ Hf).
Qed.
Lemma terminal_branch t :
  t ∈ rp_terminal_progress r -> exists br, br ∈ prepared /\ rb_terminal_progress br = Some t /\ branch_of br = np_branch_id t.
Proof.
  rewrite (pp_terminal _ _ _ _ _ _ prep). intros (br & Hin & Hg)%omap_in. exists br. split_and!; try done.
  destruct (prepared_branch br Hin) as (f & (s & p & extra & history & _ & _ & Hf) & ->).
  symmetry. by apply (pf_terminal _ _ _ _ _ _ _ _ Hf).
Qed.
Lemma history_branch x : x ∈ rp_history r -> exists br, br ∈ prepared /\ x ∈ rb_history br /\ branch_of br = nh_branch_id x.
Proof.
  intros (br & Hin & Hx)%(pp_history _ _ _ _ _ _ prep). exists br. split_and!; try done.
  destruct (prepared_branch br Hin) as (f & (s & p & extra & history & _ & _ & Hf) & ->).
  rewrite (pf_inherits _ _ _ _ _ _ _ _ Hf) in Hx. by apply list_elem_of_fmap in Hx as (kv & -> & _).
Qed.
Lemma seed_branch x : x ∈ rp_seeds r -> exists br, br ∈ prepared /\ x ∈ rb_seeds br /\ branch_of br = rs_branch_id x.
Proof.
  intros (br & Hin & Hx)%(pp_seeds _ _ _ _ _ _ prep). exists br. split_and!; try done.
  destruct (prepared_branch br Hin) as (f & (s & p & extra & history & _ & _ & Hf) & ->).
  pose proof (pf_seeds _ _ _ _ _ _ _ _ Hf) as Hs. rewrite Forall_forall in Hs. by destruct (Hs x Hx).
Qed.
Lemma start_in br : br ∈ prepared -> rb_run_start br ∈ rp_run_starts r.
Proof. rewrite (pp_starts _ _ _ _ _ _ prep). apply list_elem_of_fmap_2. Qed.

Let un : unused j d := fresh_unused _ _ _ ok (oj_fresh _ _ _ _ _ _ _ _ _ op).

(** The new records of a branch. *)
Section branch.
Context (br : PreparedResumeBranch) (f : PhaseFile) (p0 : ProgressRow) (extra : option FilePhaseOutcome) (history : History).
Context (h0 : Z -> option FilePhaseOutcome) (r0 : Z -> option FilePhaseRow).
Hypothesis br_in : br ∈ prepared.
Hypothesis br_for : prepared_for pc h0 r0 p0 f br extra history.
Let b := pf_branch_id f.

Lemma br_branch : branch_of br = b.
Proof. apply (pf_branch _ _ _ _ _ _ _ _ br_for). Qed.
Lemma taken_history k : history_of d' j b k = history !! k.
Proof.
  apply option_eq. intros o. rewrite (opened_history _ _ _ _ _ _ _ _ _ op un). split.
  - intros (x & Hx & Hb & <- & <-). destruct (history_branch x Hx) as (br' & Hin & Hx' & Hbr').
    rewrite Hb, <- br_branch in Hbr'. rewrite (same_branch _ _ Hin br_in Hbr') in Hx'.
    rewrite (pf_inherits _ _ _ _ _ _ _ _ br_for) in Hx'. apply list_elem_of_fmap in Hx' as ([k' o] & -> & Hkv). cbn.
    by apply rows_asc_in, list_elem_of_In.
  - intros Hk. eexists {| nh_branch_id := b; nh_phase_ordinal := k; nh_outcome := o |}. split_and!; try done.
    apply (pp_history _ _ _ _ _ _ prep). exists br. split; [done|].
    rewrite (pf_inherits _ _ _ _ _ _ _ _ br_for). apply list_elem_of_fmap. exists (k, o). split; [done|].
    by apply list_elem_of_In, rows_asc_in.
Qed.
Lemma taken_row k z : rows_of d' j b k = Some z -> history !! k = Some (f_outcome z).
Proof.
  intros (x & Hx & Hb & <- & ->)%(opened_row _ _ _ _ _ _ _ _ _ op un).
  destruct (seed_branch x Hx) as (br' & Hin & Hx' & Hbr').
  rewrite Hb, <- br_branch in Hbr'. rewrite (same_branch _ _ Hin br_in Hbr') in Hx'.
  pose proof (pf_seeds _ _ _ _ _ _ _ _ br_for) as Hs. rewrite Forall_forall in Hs. by destruct (Hs x Hx').
Qed.
Lemma taken_start s : run_starts d' !! (j, b) = Some s -> s = start_row (rb_run_start br).
Proof.
  intros (x & Hx & Hb & ->)%(opened_start _ _ _ _ _ _ _ _ _ op un). f_equal.
  rewrite (pp_starts _ _ _ _ _ _ prep) in Hx. apply list_elem_of_fmap in Hx as (br' & -> & Hin).
  f_equal. apply same_branch; [done|done|]. by rewrite br_branch.
Qed.
Lemma taken_progress p :
  progress d' !! (j, b) = Some p ->
  p_next_phase_ordinal p = ns_starting_phase_ordinal (rb_run_start br)
  /\ (p_state p = ProgressPending \/ (p_state p = ProgressTerminal /\ at_end pc r0 p0)).
Proof.
  intros (x & Hx & Hb & -> & Hst)%(opened_progress _ _ _ _ _ _ _ _ _ op un). split.
  - apply elem_of_app in Hx as [(g & -> & Hg)%list_elem_of_fmap|Ht].
    + destruct (survivor_branch g Hg) as (br' & Hin & Hs & Hbr'). cbn in Hb. rewrite Hb, <- br_branch in Hbr'.
      rewrite (same_branch _ _ Hin br_in Hbr') in Hs. by apply (pf_survivor _ _ _ _ _ _ _ _ br_for) in Hs as (_ & ? & _).
    + destruct (terminal_branch x Ht) as (br' & Hin & Hs & Hbr'). rewrite Hb, <- br_branch in Hbr'.
      rewrite (same_branch _ _ Hin br_in Hbr') in Hs. by apply (pf_terminal _ _ _ _ _ _ _ _ br_for) in Hs as (_ & -> & _).
  - destruct Hst as [?|[? (t & Hbt & Ht)%list_elem_of_fmap]]; [by left|right]. split; [done|].
    destruct (terminal_branch t Ht) as (br' & Hin & Hs & Hbr'). rewrite <- Hbt, <- br_branch in Hbr'.
    rewrite (same_branch _ _ Hin br_in Hbr') in Hs. by apply (pf_terminal _ _ _ _ _ _ _ _ br_for) in Hs as (_ & _ & ?).
Qed.
Lemma taken_resumed s0 s p :
  run_starts d' !! (j, b) = Some s -> progress d' !! (j, b) = Some p ->
  resumed pc s0 h0 r0 p0 extra s (history_of d' j b) (rows_of d' j b) p.
Proof.
  intros Hs Hp. rewrite (taken_start s Hs) in *. destruct (taken_progress p Hp) as [Hn Hst]. constructor; try done.
  - apply (pf_extra _ _ _ _ _ _ _ _ br_for).
  - apply (pf_end _ _ _ _ _ _ _ _ br_for).
  - apply (pf_open _ _ _ _ _ _ _ _ br_for).
  - intros k. rewrite taken_history. apply (pf_known _ _ _ _ _ _ _ _ br_for).
  - intros k z Hz. rewrite taken_history. by apply taken_row.
Qed.
End branch.

Lemma db_ok_taken_up : db_ok pc d'.
Proof.
  eapply db_ok_opened; [exact ok|exact op|..].
  - intros b. split.
    + intros (x & Hx & <-). rewrite (pp_starts _ _ _ _ _ _ prep) in Hx.
      apply list_elem_of_fmap in Hx as (br & -> & Hin).
      destruct (prepared_branch br Hin) as (f & (s & p & extra & history & _ & _ & Hf) & Hb).
      change (ns_branch_id (rb_run_start br)) with (branch_of br). rewrite Hb.
      destruct (pf_either _ _ _ _ _ _ _ _ Hf) as [[g Hg]|[t Ht]].
      * exists (new_progress g). split; [|by apply (pf_survivor _ _ _ _ _ _ _ _ Hf)].
        apply elem_of_app. left. apply list_elem_of_fmap_2. rewrite (pp_files _ _ _ _ _ _ prep).
        apply omap_in. eauto.
      * exists t. split; [|by apply (pf_terminal _ _ _ _ _ _ _ _ Hf)].
        apply elem_of_app. right. rewrite (pp_terminal _ _ _ _ _ _ prep). apply omap_in. eauto.
    + intros (x & [(g & -> & Hg)%list_elem_of_fmap|Ht]%elem_of_app & <-).
      * destruct (survivor_branch g Hg) as (br & Hin & _ & Hb). exists (rb_run_start br). by split; [apply start_in|].
      * destruct (terminal_branch x Ht) as (br & Hin & _ & Hb). exists (rb_run_start br). by split; [apply start_in|].
  - intros x Hx. destruct (history_branch x Hx) as (br & Hin & _ & Hb). exists (rb_run_start br). by split; [apply start_in|].
  - intros x Hx. destruct (seed_branch x Hx) as (br & Hin & _ & Hb). exists (rb_run_start br). by split; [apply start_in|].
  - intros b s p Hs Hp. pose proof Hs as (x & Hx & Hb & _)%(opened_start _ _ _ _ _ _ _ _ _ op un).
    rewrite (pp_starts _ _ _ _ _ _ prep) in Hx. apply list_elem_of_fmap in Hx as (br & -> & Hin).
    destruct (prepared_branch br Hin) as (f & (s0 & p0 & extra & history & Hs0 & Hp0 & Hf) & Hbf).
    unfold branch_of in Hbf. rewrite Hb in Hbf. subst b.
    eapply recorded_resumed; [by apply (ok_recorded _ _ ok)|]. rewrite Hbf in *.
    by eapply taken_resumed.
Qed.
End taken_up.
