(* ===== verification/CoordinatorLaws.v ===== *)
(** * Runs of the coordinator

    Whatever the pipelines of the files do, and however often a run is
    interrupted and taken up, the records of each file fit together and no
    window is exceeded. *)

From S2P Require Import Prelude Json Vocab Bytes Operations Store Jobs Tickets Workers Leases ControlPlane.
From S2P Require Import PolicySyntax TrackFilters PolicyConditions PolicyCompiled PolicyValidate PolicyLower PolicyCompile PlanModel PlanConditions Planner PlannerLaws Progress.
From S2P Require Import Coordinator ResumeLaws OpeningLaws PolicyWitnesses.
From Stdlib Require Import ZArith Lia Bool String Ascii.
From stdpp Require Import base gmap strings list sorting.

Open Scope list_scope.
Open Scope Z_scope.

(** ** The plan of a phase *)

Section phase_plans.
Context {hash : Blake3Hex} {unicode : PlanVideo.UnicodeLowercase} {size : SerializedSize}.
Context {millis : DurationMillis}.

Lemma gates_length p name files gates : phase_gate_admission p name files = Ok gates -> length gates = length files.
Proof.
  unfold phase_gate_admission. destruct (find_phase p name) as [ph|]; [|done]. cbn.
  destruct (run_if ph) as [g|]; [|intros [= <-]; by rewrite length_map].
  repeat (case_match; try done).
  intros Hg%collect_ok. symmetry. by eapply Forall2_length.
Qed.

(** A phase without operations has no nodes. *)
Lemma no_operations_no_nodes l snapshots name gate skip b : pb_nodes (expand_phase l snapshots name gate skip [] b) = pb_nodes b.
Proof.
  unfold expand_phase. revert b. induction snapshots as [|s snapshots IH]; intros b; [done|]. cbn. rewrite IH.
  unfold expand_snapshot. destruct gate; [done|]. destruct skip as [c|]; [|done]. by destruct (evaluate_condition c s).
Qed.
Lemma replaced_phase f name phases phases' ph :
  replace_phase f name phases = Some phases' -> (forall ph, cp_name (f ph) = cp_name ph) ->
  List.find (fun ph => eqb_text (cp_name ph) name) phases = Some ph ->
  List.find (fun ph => eqb_text (cp_name ph) name) phases' = Some (f ph).
Proof.
  intros Hr Hf. revert phases' Hr. induction phases as [|x phases IH]; intros phases' Hr; [done|]. cbn in *.
  destruct (eqb_text (cp_name x) name) eqn:Hx.
  - injection Hr as <-. intros [= <-]. cbn. by rewrite Hf, Hx.
  - destruct (replace_phase f name phases) as [rest|]; [|done]. injection Hr as <-. cbn. rewrite Hx. by apply IH.
Qed.

(** The nodes of a phase are for the files its gate admits. *)
Definition of_its_version (f : PhaseFile) : Prop := ms_file_version_id (pf_snapshot f) = pf_version_id f.
Lemma phase_nodes_admitted p context base name entering gates policy plan n :
  Forall of_its_version entering -> phase_gate_admission p name entering = Ok gates ->
  let admitted := admitted_files entering gates in
  let suppress := is_empty admitted in
  resolved_phase_policy p name suppress = Ok policy ->
  plan_phase {| pr_policy := policy; pr_input := phase_draft base (if suppress then entering else admitted);
                pr_context := context |} name = Ok plan ->
  n ∈ ep_nodes plan ->
  exists i f, entering !! i = Some f /\ gates !! i = Some true /\ pn_target n = TFileVersion (pf_version_id f).
Proof.
  intros Hv Hg admitted suppress Hpol Hplan Hn.
  pose proof (planned_builder _ _ (or_intror (ex_intro _ name Hplan))) as (b & [_ _ Hp _] & (Hnodes & _)%plan_finish_ok).
  pose proof (plan_phase_ok _ _ _ Hplan) as (_ & Hfind & Hfin). cbn in *.
  destruct (find_phase policy name) as [ph|] eqn:Hph; [|done]. subst suppress.
  destruct admitted as [|a rest] eqn:Hadm; cbn [is_empty] in *.
  - exfalso. apply plan_finish_ok in Hfin as (Hn' & _). unfold expand_declared_phase in Hn'. rewrite Hph in Hn'.
    unfold resolved_phase_policy in Hpol. apply result_bind_ok in Hpol as (phases & Hr & Hpol). injection Hpol as <-.
    apply ok_or_ok in Hr. unfold find_phase in Hph. cbn in Hph.
    assert (cp_operations ph = []) as Hops.
    { destruct (List.find (fun ph => eqb_text (cp_name ph) name) (cp_phases p)) as [ph0|] eqn:H0.
      - rewrite (replaced_phase _ _ _ _ _ Hr (fun _ => eq_refl) H0) in Hph. by injection Hph as <-.
      - unfold phase_gate_admission, find_phase in Hg. by rewrite H0 in Hg. }
    rewrite Hops, no_operations_no_nodes in Hn'. rewrite Hn' in Hn. by apply elem_of_nil in Hn.
  - rewrite <- Hadm in *. rewrite Forall_forall in Hp. rewrite Hnodes in Hn. apply Hp in Hn as [_ Ht].
    apply list_elem_of_fmap in Ht as (si & -> & Hsi). apply list_elem_of_fmap in Hsi as (f & -> & Hf).
    unfold admitted, admitted_files in Hf. apply list_elem_of_fmap in Hf as ([f' g] & -> & Hf).
    apply list_elem_of_In, filter_In in Hf as [Hf Hgt]. cbn in Hgt. subst g.
    apply list_elem_of_In, list_elem_of_lookup in Hf as [i Hi]. apply lookup_zip_with_Some in Hi as (f0 & g0 & [= <- <-] & Hfi & Hgi).
    exists i, f'. split_and!; [done|done|]. cbn. rewrite Forall_forall in Hv.
    unfold of_its_version in Hv. by rewrite (Hv f' (list_elem_of_lookup_2 _ _ _ Hfi)).
Qed.

Lemma targets_file_true version n : targets_file version n = true <-> pn_target n = TFileVersion version.
Proof. unfold targets_file. destruct (pn_target n); try done. rewrite Z.eqb_eq. split; [by intros ->|by intros [= ->]]. Qed.

(** The planned nodes of a file in a plan. *)
Definition planned_nodes (plan : ExecutionPlan) (f : PhaseFile) : list PlanNode :=
  List.filter (with_status Planned) (List.filter (targets_file (pf_version_id f)) (ep_nodes plan)).
Lemma classified plan f d :
  classify_file plan f = Ok d ->
  (length (List.filter (fun n => is_file_mutation (pn_operation_kind n)) (planned_nodes plan f)) <= 1)%nat
  /\ match d with
     | DispPlanned ids => ids = map pn_node_id (planned_nodes plan f) /\ planned_nodes plan f <> []
     | DispBlocked => planned_nodes plan f = []
         /\ exists n, n ∈ ep_nodes plan /\ pn_target n = TFileVersion (pf_version_id f) /\ pn_status n = Blocked
     | DispSkipped => forall n, n ∈ ep_nodes plan -> pn_target n = TFileVersion (pf_version_id f) -> pn_status n = NoOp
     end.
Proof.
  unfold classify_file. fold (planned_nodes plan f). destruct (Nat.ltb_spec 1 (length (List.filter
    (fun n => is_file_mutation (pn_operation_kind n)) (planned_nodes plan f)))) as [|Hm]; [done|].
  intros Hd. split; [done|]. revert Hd. destruct (planned_nodes plan f) as [|a l] eqn:Hp; [|by intros [= <-]].
  destruct (existsb _ _) eqn:He; intros [= <-].
  - split; [done|]. apply existsb_exists in He as (n & [Hn Ht%targets_file_true]%filter_In & Hs%bool_decide_eq_true).
    exists n. split_and!; [by apply list_elem_of_In|done|done].
  - intros n Hn%list_elem_of_In Ht%targets_file_true. destruct (pn_status n) eqn:Hs; [|done|].
    + assert (In n (planned_nodes plan f)) as Hin; [|by rewrite Hp in Hin].
      apply filter_In. split; [by apply filter_In|]. by apply bool_decide_eq_true.
    + apply not_true_iff_false in He. destruct He. apply existsb_exists. exists n.
      split; [by apply filter_In|]. by apply bool_decide_eq_true.
Qed.

End phase_plans.

(** ** Runs *)

(** What a file knows of its earlier phases is what is recorded of them. *)
Definition knows (d : WorkflowDb) (job : Z) (f : PhaseFile) : Prop :=
  forall k, pf_phase_history f !! k = outcome_of (history_of d job (pf_branch_id f)) (rows_of d job (pf_branch_id f)) k.
(** A queued file whose row still waits goes on where the row says. *)
Definition queued_ok (d : WorkflowDb) (job : Z) (b : string) (f : PhaseFile) : Prop :=
  pf_branch_id f = b
  /\ exists p, progress d !! (job, b) = Some p
       /\ (p_state p = ProgressPending -> p_next_phase_ordinal p = pf_resume_ordinal f /\ knows d job f).
(** A pipeline is where the row of its file says. *)
Definition pipeline_ok (pc : Z) (d : WorkflowDb) (pl : Pipeline) : Prop :=
  let b := pf_branch_id (pl_file pl) in
  exists p, progress d !! (pl_job pl, b) = Some p
    /\ if pl_finishing pl then p_state p = ProgressTerminalizing
       else p_state p = ProgressActive /\ p_next_phase_ordinal p = pl_phase pl
            /\ if pl_running pl
               then knows d (pl_job pl) (pl_file pl) /\ (pl_phase pl < pc -> ~ at_end pc (rows_of d (pl_job pl) b) p)
               else at_end pc (rows_of d (pl_job pl) b) p.
Definition pipeline_key (pl : Pipeline) : Z * string := (pl_job pl, pf_branch_id (pl_file pl)).

Record coord_ok (pc : Z) (c : Coord) : Prop := {
  co_db : db_ok pc (cd_db c);
  co_waiting : forall job b f, cd_waiting c !! (job, b) = Some f -> queued_ok (cd_db c) job b f;
  co_pipelines : Forall (pipeline_ok pc (cd_db c)) (cd_pipelines c);
  co_distinct : NoDup (map pipeline_key (cd_pipelines c));
}.

(** What is said of one file depends on its own records only. *)
Lemma at_end_same pc d d' job b p :
  same_file d d' job b -> at_end pc (rows_of d job b) p -> at_end pc (rows_of d' job b) p.
Proof. intros Hs. apply at_end_ext. intros k. symmetry. apply (sf_rows _ _ _ _ Hs). Qed.
Lemma same_file_sym d d' job b : same_file d d' job b -> same_file d' d job b.
Proof. by intros [? ? ? ?]; constructor. Qed.
Lemma knows_same d d' job f : same_file d d' job (pf_branch_id f) -> knows d job f -> knows d' job f.
Proof. intros Hs Hk k. rewrite Hk. unfold outcome_of. by rewrite (sf_history _ _ _ _ Hs), (sf_rows _ _ _ _ Hs). Qed.
Lemma queued_same d d' job b f : same_file d d' job b -> queued_ok d job b f -> queued_ok d' job b f.
Proof.
  intros Hs [<- (p & Hp & Hq)]. split; [done|]. exists p. rewrite (sf_progress _ _ _ _ Hs). split; [done|].
  intros Hst. destruct (Hq Hst). split; [done|]. by apply (knows_same d).
Qed.
Lemma pipeline_same pc d d' pl :
  same_file d d' (pl_job pl) (pf_branch_id (pl_file pl)) -> pipeline_ok pc d pl -> pipeline_ok pc d' pl.
Proof.
  intros Hs (p & Hp & Hst). exists p. rewrite (sf_progress _ _ _ _ Hs). split; [done|].
  destruct (pl_finishing pl); [done|]. destruct Hst as (? & ? & Hst). split_and!; [done|done|].
  destruct (pl_running pl); [|by apply (at_end_same pc d)]. destruct Hst as [Hk Hst]. split; [by apply (knows_same d)|].
  intros Hlt Hend. by apply (Hst Hlt), (at_end_same pc d' d); [apply same_file_sym|].
Qed.

(** The files other than one are untouched. *)
Definition only_file (d d' : WorkflowDb) (job : Z) (b : string) : Prop :=
  forall j' b', (j', b') <> (job, b) -> same_file d d' j' b'.
Lemma only_state d job b p : only_file d (set_progress (<[(job, b) := p]> (progress d)) d) job b.
Proof. intros j' b' Hne. constructor; try done. cbn. by rewrite lookup_insert_ne. Qed.
Lemma only_phase d job b k p x :
  only_file d (set_progress (<[(job, b) := p]> (progress d))
                 (set_file_phases (<[(job, k, b) := x]> (file_phases d)) d)) job b.
Proof.
  intros j' b' Hne. constructor; try done; cbn.
  - by rewrite lookup_insert_ne.
  - intros k'. unfold rows_of. cbn. rewrite lookup_insert_ne; [done|]. by intros [= ? ? ?]; simplify_eq.
Qed.
Lemma pipelines_other pc d d' job b l :
  only_file d d' job b -> Forall (pipeline_ok pc d) l -> ((job, b) ∉ map pipeline_key l) ->
  Forall (pipeline_ok pc d') l.
Proof.
  intros Ho Hl Hn. rewrite Forall_forall in Hl |- *. intros pl Hin. apply (pipeline_same pc d), Hl; [|done].
  apply Ho. intros He. apply Hn. rewrite <- He. apply list_elem_of_fmap. by exists pl.
Qed.
(** One file moves; a row of it that waited no longer waits. *)
Lemma waiting_other (d d' : WorkflowDb) (job : Z) (b : string) (w : gmap (Z * string) PhaseFile) :
  only_file d d' job b -> (exists p, progress d' !! (job, b) = Some p /\ p_state p <> ProgressPending) ->
  (forall j b f, w !! (j, b) = Some f -> queued_ok d j b f) -> forall j b f, w !! (j, b) = Some f -> queued_ok d' j b f.
Proof.
  intros Ho (p & Hp & Hst) Hw j b' f Hf. destruct (decide ((j, b') = (job, b))) as [[= -> ->]|Hne].
  - split; [by apply (Hw job b f)|]. by exists p.
  - apply (queued_same d); [by apply Ho|by apply Hw].
Qed.

Section moves.
Context (pc : Z) (c : Coord) (ok : coord_ok pc c).

Lemma pipelines_split l1 pl l2 :
  cd_pipelines c = l1 ++ pl :: l2 ->
  pipeline_ok pc (cd_db c) pl /\ Forall (pipeline_ok pc (cd_db c)) (l1 ++ l2)
  /\ (pipeline_key pl ∉ map pipeline_key (l1 ++ l2)) /\ NoDup (map pipeline_key (l1 ++ l2)).
Proof.
  intros Hl. pose proof (co_pipelines _ _ ok) as Hp. pose proof (co_distinct _ _ ok) as Hd. rewrite Hl in *.
  rewrite map_app in *. cbn in Hd. rewrite <- Permutation_middle in Hd. apply NoDup_cons in Hd as [Hn Hd].
  rewrite <- Permutation_middle in Hp. by apply Forall_cons in Hp as [? ?].
Qed.

(** One pipeline and the row of its file move. *)
Context (d' : WorkflowDb) (job : Z) (b : string).
Hypothesis ok' : db_ok pc d'.
Hypothesis only : only_file (cd_db c) d' job b.
Hypothesis moved : exists p, progress d' !! (job, b) = Some p /\ p_state p <> ProgressPending.

Lemma coord_ok_drop l1 pl l2 :
  cd_pipelines c = l1 ++ pl :: l2 -> pipeline_key pl = (job, b) -> coord_ok pc (with_pipelines c d' (l1 ++ l2)).
Proof.
  intros Hl Hk. destruct (pipelines_split _ _ _ Hl) as (_ & Hp & Hn & Hd). rewrite Hk in Hn. constructor; cbn; try done.
  - by apply (waiting_other (cd_db c) _ job b); [| |apply (co_waiting _ _ ok)].
  - by apply (pipelines_other pc (cd_db c) _ job b).
Qed.
Lemma coord_ok_next l1 pl l2 pl' :
  cd_pipelines c = l1 ++ pl :: l2 -> pipeline_key pl = (job, b) -> pipeline_key pl' = (job, b) ->
  pipeline_ok pc d' pl' -> coord_ok pc (with_pipelines c d' (l1 ++ pl' :: l2)).
Proof.
  intros Hl Hk Hk' Hpl. destruct (coord_ok_drop _ _ _ Hl Hk) as [Hdb Hw Hp Hd]. cbn in *.
  destruct (pipelines_split _ _ _ Hl) as (_ & _ & Hn & _). constructor; cbn; try done.
  - rewrite <- Permutation_middle. by constructor.
  - rewrite map_app. cbn. rewrite <- Permutation_middle, <- map_app. constructor; [|done]. by rewrite Hk', <- Hk.
Qed.
Lemma coord_ok_moved : ((job, b) ∉ map pipeline_key (cd_pipelines c)) -> coord_ok pc (with_db c d').
Proof.
  intros Hn. constructor; cbn; try done.
  - by apply (waiting_other (cd_db c) _ job b); [| |apply (co_waiting _ _ ok)].
  - apply (pipelines_other pc (cd_db c) _ job b); [done|apply (co_pipelines _ _ ok)|done].
  - apply (co_distinct _ _ ok).
Qed.
End moves.

(** The tables of the coordinator stay. *)
Record keeps (d d' : WorkflowDb) : Prop := {
  ke_jobs : forall k, is_Some (jobs (core d) !! k) -> is_Some (jobs (core d') !! k);
  ke_windows : windows d' = windows d;
  ke_starts : run_starts d' = run_starts d;
  ke_history : run_history d' = run_history d;
  ke_progress : progress d' = progress d;
  ke_phases : file_phases d' = file_phases d;
}.
Lemma keeps_same d d' job b : keeps d d' -> same_file d d' job b.
Proof. intros [_ _ Hs Hh Hp Hr]. constructor; unfold history_of, rows_of; by rewrite ?Hs, ?Hh, ?Hp, ?Hr. Qed.
Lemma keeps_db_ok pc d d' : db_ok pc d -> keeps d d' -> db_ok pc d'.
Proof.
  intros [Hw Ho Hwj Hj Hpair Hh Hr Hrc] [K1 K2 K3 K4 K5 K6]. destruct d, d'. cbn in *. subst.
  constructor; cbn in *; eauto.
Qed.
Lemma keeps_ok pc c d' : coord_ok pc c -> keeps (cd_db c) d' -> coord_ok pc (with_db c d').
Proof.
  intros ok Hk. pose proof (fun job b => keeps_same _ _ job b Hk) as Hs. constructor; cbn.
  - by apply (keeps_db_ok pc (cd_db c)); [apply (co_db _ _ ok)|].
  - intros job b f Hf. apply (queued_same (cd_db c)); [done|]. by apply (co_waiting _ _ ok).
  - eapply Forall_impl; [apply (co_pipelines _ _ ok)|]. intros pl. by apply pipeline_same.
  - apply (co_distinct _ _ ok).
Qed.

Section steps.
Context `{Iso8601} (pc : Z) (c : Coord).
Hypothesis ok : coord_ok pc c.
Hypothesis pc_pos : 0 <= pc.

(** *** A phase *)

Lemma phase_written d job b p f k o tickets produced now row d' :
  db_ok pc d -> progress d !! (job, b) = Some p -> p_state p = ProgressActive -> p_next_phase_ordinal p = k ->
  pf_branch_id f = b -> write_file_row_and_advance job k f o tickets produced now d = (Ok row, d') ->
  exists x, f_outcome x = o
    /\ d' = set_progress (<[(job, b) := with_cursor (p_next_phase_ordinal p + 1) p]> (progress d))
              (set_file_phases (<[(job, p_next_phase_ordinal p, b) := x]> (file_phases d)) d).
Proof.
  intros Hd Hp Hst Hk Hb (d1 & Hu & Hc)%upsert_and_advance_ok. cbn in Hc. rewrite Hb, Hp in Hc. subst k b.
  apply upsert_ok in Hu as (_ & _ & _ & Hu). cbn in Hu. unfold phase_key in Hu. cbn in Hu.
  destruct (progress_start _ _ _ _ _ Hd Hp) as (s & _ & rec).
  destruct Hc as [(q & [= <-] & _ & _ & ->)|(_ & q & [= <-] & Hn)]; [|by destruct (Hn Hst)].
  destruct Hu as [[_ Hr]|(_ & x & -> & Ho)]; [|by exists x].
  pose proof (rc_bounds _ _ _ _ _ rec). apply (rc_tail _ _ _ _ _ rec) in Hr; lia.
Qed.

(** What [finalize_file] leaves: one row of the phase and the file that goes on. *)
Lemma finalize_written job k f disposition evidence now d res d' :
  finalize_file job k f disposition evidence now d = (res, d') ->
  match res with
  | Err _ => d' = d
  | Ok (row, _, keep) => exists o tickets produced,
      write_file_row_and_advance job k f o tickets produced now d = (Ok row, d')
      /\ match keep with
         | None => o = FileBlocked
         | Some g => o <> FileBlocked /\ pf_branch_id g = pf_branch_id f
                     /\ pf_phase_history g = <[k := o]> (pf_phase_history f)
         end
  end.
Proof.
  assert (forall o t q e d1, write_file_row_and_advance job k f o t q now d = (Err e, d1) -> d1 = d) as Herr.
  { intros o t q e d1. unfold write_file_row_and_advance, upsert_file_phase_summary_and_advance. apply atomically_err. }
  unfold finalize_file, mbind, tx_mbind, mret, tx_mret, lift.
  repeat (case_match; simplify_eq); intros Hx; simplify_eq;
    try done; try (by eapply Herr); eexists _, _, _; (split; [eassumption|]); by split_and?.
Qed.
Lemma finalize_failed_written job k f disposition evidence now d :
  let d' := (finalize_failed_file_phase job k f disposition evidence now d).2 in
  d' = d \/ exists o tickets produced row, o <> FileBlocked
    /\ write_file_row_and_advance job k f o tickets produced now d = (Ok row, d').
Proof.
  assert (forall o t q e d1, write_file_row_and_advance job k f o t q now d = (Err e, d1) -> d1 = d) as Herr.
  { intros o t q e d1. unfold write_file_row_and_advance, upsert_file_phase_summary_and_advance. apply atomically_err. }
  unfold finalize_failed_file_phase, mbind, tx_mbind, mret, tx_mret, lift.
  repeat (case_match; simplify_eq); cbn; try (by left); try (left; by eapply Herr);
    right; eexists _, _, _, _; (split; [|eassumption]); done.
Qed.

Section phase_step.
Context (l1 : list Pipeline) (pl : Pipeline) (l2 : list Pipeline).
Hypothesis here : cd_pipelines c = l1 ++ pl :: l2.
Hypothesis running : pl_running pl = true.
Hypothesis going : pl_finishing pl = false.
Hypothesis phase_left : pl_phase pl < pc.

Let b := pf_branch_id (pl_file pl).
Lemma running_pipeline :
  exists p, progress (cd_db c) !! (pl_job pl, b) = Some p /\ p_state p = ProgressActive
    /\ p_next_phase_ordinal p = pl_phase pl /\ knows (cd_db c) (pl_job pl) (pl_file pl)
    /\ ~ at_end pc (rows_of (cd_db c) (pl_job pl) b) p.
Proof.
  destruct (pipelines_split pc c ok _ _ _ here) as ((p & Hp & Hst) & _). rewrite going, running in Hst.
  destruct Hst as (? & ? & ? & Hopen). exists p. split_and!; try done. by apply Hopen.
Qed.

(** The database after the phase, and the pipeline of the file that goes on. *)
Lemma phase_moves o tickets produced now row d' :
  write_file_row_and_advance (pl_job pl) (pl_phase pl) (pl_file pl) o tickets produced now (cd_db c) = (Ok row, d') ->
  db_ok pc d' /\ only_file (cd_db c) d' (pl_job pl) b
  /\ exists p, progress d' !! (pl_job pl, b) = Some p /\ p_state p = ProgressActive
      /\ p_next_phase_ordinal p = pl_phase pl + 1
      /\ (at_end pc (rows_of d' (pl_job pl) b) p <-> pl_phase pl + 1 = pc \/ o = FileBlocked)
      /\ forall k, outcome_of (history_of d' (pl_job pl) b) (rows_of d' (pl_job pl) b) k
                   = <[pl_phase pl := o]> (pf_phase_history (pl_file pl)) !! k.
Proof.
  destruct running_pipeline as (p & Hp & Hst & Hn & Hk & Hopen). intros Hw.
  apply (phase_written _ _ b p) in Hw as (x & Ho & ->); [|apply (co_db _ _ ok)|done|done|done|done].
  destruct (progress_start _ _ _ _ _ (co_db _ _ ok) Hp) as (s & _ & rec).
  pose proof (at_end_phase pc s (history_of (cd_db c) (pl_job pl) b) (rows_of (cd_db c) (pl_job pl) b) p rec x) as He. pose proof (outcome_of_phase _ _ _ _ _ rec x) as Hof.
  assert (forall k, rows_of (set_progress (<[(pl_job pl, b) := with_cursor (p_next_phase_ordinal p + 1) p]> (progress (cd_db c)))
     (set_file_phases (<[(pl_job pl, p_next_phase_ordinal p, b) := x]> (file_phases (cd_db c))) (cd_db c))) (pl_job pl) b k
     = row_added (rows_of (cd_db c) (pl_job pl) b) p x k) as Hrows.
  { intros k. unfold rows_of, row_added. cbn. destruct (Z.eqb_spec k (p_next_phase_ordinal p)) as [->|].
    - by rewrite lookup_insert_eq. - rewrite lookup_insert_ne by congruence. done. }
  split_and!.
  - apply db_ok_phase; try done; [apply (co_db _ _ ok)|lia].
  - apply only_phase.
  - eexists. split; [cbn; apply lookup_insert_eq|]. split_and!; [done|cbn; lia| |].
    + rewrite <- Hn, <- Ho, <- He. split; apply at_end_ext; done.
    + intros k. unfold outcome_of in Hof |- *. rewrite Hrows. etransitivity; [apply Hof|]. rewrite <- Hn.
      destruct (Z.eqb_spec k (p_next_phase_ordinal p)) as [->|]; [by rewrite lookup_insert_eq, Ho|].
      rewrite lookup_insert_ne by done. symmetry. apply Hk.
Qed.
Lemma phase_ok disposition evidence now row snapshot keep d' :
  finalize_file (pl_job pl) (pl_phase pl) (pl_file pl) disposition evidence now (cd_db c)
    = (Ok (row, snapshot, keep), d') ->
  coord_ok pc (with_pipelines c d' (l1 ++ past_phase pl keep :: l2)).
Proof.
  intros (o & tickets & produced & Hw & Hkeep)%finalize_written.
  destruct (phase_moves _ _ _ _ _ _ Hw) as (Hd & Honly & p & Hp & Hst & Hn & Hend & Hknown).
  assert (pf_branch_id (pl_file (past_phase pl keep)) = b) as Hb.
  { destruct keep as [g|]; [|done]. by destruct Hkeep as (_ & ? & _). }
  eapply (coord_ok_next pc c ok d' (pl_job pl) b); try done.
  - exists p. by rewrite Hst.
  - unfold pipeline_key. by rewrite Hb.
  - unfold pipeline_ok. rewrite Hb. exists p. cbn [pl_job pl_finishing past_phase pl_phase pl_running].
    split; [done|]. split_and!; [done|done|]. destruct keep as [g|]; cbn [is_some].
    + destruct Hkeep as (Hnb & Hbg & Hh). split.
      * intros k. cbn in Hb |- *. by rewrite Hb, Hknown, Hh.
      * intros Hlt. rewrite Hend. intros [?|?]; [lia|done].
    + apply Hend. by right.
Qed.
Lemma phase_error_ok disposition evidence now e d' :
  finalize_file (pl_job pl) (pl_phase pl) (pl_file pl) disposition evidence now (cd_db c) = (Err e, d') ->
  coord_ok pc (with_pipelines c d' (l1 ++ l2)).
Proof.
  intros ->%finalize_written. destruct running_pipeline as (p & Hp & Hst & _).
  apply (coord_ok_drop pc c ok _ (pl_job pl) b) with (pl := pl); try done.
  - apply (co_db _ _ ok).
  - exists p. by rewrite Hst.
Qed.
Lemma phase_failed_ok disposition evidence now :
  coord_ok pc (with_pipelines c
    (finalize_failed_file_phase (pl_job pl) (pl_phase pl) (pl_file pl) disposition evidence now (cd_db c)).2 (l1 ++ l2)).
Proof.
  destruct (finalize_failed_written (pl_job pl) (pl_phase pl) (pl_file pl) disposition evidence now (cd_db c))
    as [->|(o & tickets & produced & row & _ & Hw)].
  - destruct running_pipeline as (p & Hp & Hst & _).
    apply (coord_ok_drop pc c ok _ (pl_job pl) b) with (pl := pl); try done.
    + apply (co_db _ _ ok).
    + exists p. by rewrite Hst.
  - destruct (phase_moves _ _ _ _ _ _ Hw) as (Hd & Honly & p & Hp & Hst & _).
    apply (coord_ok_drop pc c ok _ (pl_job pl) b) with (pl := pl); try done. exists p. by rewrite Hst.
Qed.
End phase_step.

(** *** The end of a file *)

Section end_step.
Context (l1 : list Pipeline) (pl : Pipeline) (l2 : list Pipeline).
Hypothesis here : cd_pipelines c = l1 ++ pl :: l2.
Let b := pf_branch_id (pl_file pl).

Lemma finishing_moves r d' :
  pl_finishing pl = false -> (pl_running pl = false \/ pc <= pl_phase pl) ->
  begin_file_terminalization (pl_job pl) b (cd_db c) = (r, d') ->
  db_ok pc d' /\ only_file (cd_db c) d' (pl_job pl) b
  /\ exists p, progress d' !! (pl_job pl, b) = Some p /\ p_state p <> ProgressPending
      /\ (is_ok r = true -> p_state p = ProgressTerminalizing).
Proof.
  intros Hgo Hend Ht. destruct (pipelines_split pc c ok _ _ _ here) as ((p & Hp & Hst) & _). fold b in Hp, Hst.
  rewrite Hgo in Hst. destruct Hst as (Ha & Hn & Hst).
  destruct (progress_start _ _ _ _ _ (co_db _ _ ok) Hp) as (s & _ & rec). pose proof (rc_bounds _ _ _ _ _ rec).
  apply terminalization_ok in Ht as [[-> Hok]|(q & Hq & _ & ->)].
  - split_and!; [apply (co_db _ _ ok)|by intros ? ? _; constructor|]. exists p. rewrite Ha. split_and!; [done|done|].
    intros Hr. by destruct (Hok Hr p Hp).
  - rewrite Hp in Hq. injection Hq as <-. split_and!; [|apply only_state|].
    + apply db_ok_state; [apply (co_db _ _ ok)|done| |intros _; left; by rewrite Ha].
      intros s' rec'. apply recorded_state; [done|]. destruct Hend as [Hr|Hr].
      * by rewrite Hr in Hst.
      * left. lia.
    + eexists. split; [cbn; apply lookup_insert_eq|]. by split.
Qed.
Lemma finish_step_ok p d' :
  pl_finishing pl = false -> (pl_running pl = false \/ pc <= pl_phase pl) ->
  begin_file_terminalization (pl_job pl) b (cd_db c) = (Ok p, d') ->
  coord_ok pc (with_pipelines c d' (l1 ++ finishing pl :: l2)).
Proof.
  intros Hgo Hend Ht. destruct (finishing_moves _ _ Hgo Hend Ht) as (Hd & Honly & q & Hq & Hnp & Hs).
  eapply (coord_ok_next pc c ok d' (pl_job pl) b); try done; [by exists q|].
  exists q. split; [done|]. by apply Hs.
Qed.
Lemma finish_error_ok e d' :
  pl_finishing pl = false -> (pl_running pl = false \/ pc <= pl_phase pl) ->
  begin_file_terminalization (pl_job pl) b (cd_db c) = (Err e, d') ->
  coord_ok pc (with_pipelines c d' (l1 ++ l2)).
Proof.
  intros Hgo Hend Ht. destruct (finishing_moves _ _ Hgo Hend Ht) as (Hd & Honly & q & Hq & Hnp & _).
  eapply (coord_ok_drop pc c ok d' (pl_job pl) b); try done. by exists q.
Qed.
Lemma terminal_step_ok now :
  pl_finishing pl = true ->
  coord_ok pc (with_pipelines c (mark_file_terminal (pl_job pl) b now (cd_db c)).2 (l1 ++ l2)).
Proof.
  intros Hgo. destruct (pipelines_split pc c ok _ _ _ here) as ((p & Hp & Hst) & _). fold b in Hp. rewrite Hgo in Hst.
  destruct (mark_file_terminal (pl_job pl) b now (cd_db c)) as [r d'] eqn:Ht. cbn.
  apply terminal_ok in Ht as [->|(q & t & Hq & Hqs & ->)].
  - eapply (coord_ok_drop pc c ok _ (pl_job pl) b); try done; [apply (co_db _ _ ok)|]. exists p. by rewrite Hst.
  - eapply (coord_ok_drop pc c ok _ (pl_job pl) b); try done; [|apply only_state|].
    + apply db_ok_state; [apply (co_db _ _ ok)|done| |done]. intros s rec. apply recorded_state; [done|].
      pose proof (rc_state _ _ _ _ _ rec) as Hs. by rewrite Hqs in Hs.
    + eexists. split; [cbn; apply lookup_insert_eq|done].
Qed.
Lemma stop_ok : coord_ok pc (with_pipelines c (cd_db c) (l1 ++ l2)).
Proof.
  destruct (pipelines_split pc c ok _ _ _ here) as (_ & Hp & _ & Hd).
  constructor; cbn; [apply (co_db _ _ ok)|apply (co_waiting _ _ ok)|done|done].
Qed.
End end_step.

(** *** Admission *)

Lemma admission_moves job now r d' :
  admit_next_file job now (cd_db c) = (r, d') ->
  d' = cd_db c \/ exists b p q, progress (cd_db c) !! (job, b) = Some p /\ p_state p = ProgressPending
    /\ q = with_state ProgressActive (p_admitted_at q) (p_terminal_at q) p
    /\ d' = set_progress (<[(job, b) := q]> (progress (cd_db c))) (cd_db c) /\ db_ok pc d'
    /\ ((job, b) ∉ map pipeline_key (cd_pipelines c)) /\ (forall g, r = Ok (Some g) -> fg_branch_id g = b).
Proof.
  intros [[-> _]|(b & p & t & Ha & Hn & -> & ->)]%admit_effect; [by left|right].
  apply admissible_some in Ha as (w & j & Hw & _ & _ & Hs & _ & Hp & Hst & _).
  exists b, p, (admitted t p). split_and!; try done.
  - unfold admitted. apply db_ok_state; [apply (co_db _ _ ok)|done| |].
    + intros s rec. by apply recorded_state.
    + intros _. right. unfold window_max. by rewrite Hw.
  - intros (pl & Hk & Hin)%list_elem_of_fmap. pose proof (co_pipelines _ _ ok) as Hpl. rewrite Forall_forall in Hpl.
    destruct (Hpl pl Hin) as (q & Hq & Hqs). unfold pipeline_key in Hk. injection Hk as -> ->.
    rewrite Hp in Hq. injection Hq as <-. rewrite Hst in Hqs. destruct (pl_finishing pl); [done|].
    by destruct Hqs.
  - intros g Hg. destruct (decode_file_progress (job, b) (admitted t p)) as [x|] eqn:Hx; [|done].
    cbn in Hg. injection Hg as <-. by apply decode_progress in Hx as (_ & ? & _).
Qed.
Lemma admit_none_ok job now r d' : admit_next_file job now (cd_db c) = (r, d') -> coord_ok pc (with_db c d').
Proof.
  intros [->|(b & p & q & Hp & Hst & Hq & -> & Hd & Hn & _)]%admission_moves.
  - destruct ok. by constructor.
  - apply (coord_ok_moved pc c ok _ job b); try done; [apply only_state|].
    exists q. rewrite Hq. split; [|done]. cbn. rewrite <- Hq. apply lookup_insert_eq.
Qed.
Lemma admit_ok job now g d' f :
  admit_next_file job now (cd_db c) = (Ok (Some g), d') -> cd_waiting c !! (job, fg_branch_id g) = Some f ->
  coord_ok pc {| cd_db := d'; cd_waiting := delete (job, fg_branch_id g) (cd_waiting c);
                 cd_pipelines := pipeline_of job f :: cd_pipelines c |}.
Proof.
  intros Ha Hf. pose proof (admit_none_ok _ _ _ _ Ha) as [Hd Hw Hpl Hnd]. cbn in *.
  destruct (co_waiting _ _ ok _ _ _ Hf) as (Hb & p0 & Hp0 & Hq0).
  pose proof Ha as Ha'. apply admission_moves in Ha as [->|(b & p & q & Hp & Hst & Hq & -> & _ & Hn & Hg)].
  { apply admit_effect in Ha' as [[_ Hno]|(b & p & t & Had & _ & Heq & _)]; [by destruct (Hno g)|].
    apply admissible_some in Had as (_ & _ & _ & _ & _ & _ & _ & Hp & Hst & _).
    assert (progress (cd_db c) !! (job, b) = Some (admitted t p)) as Hx.
    { rewrite Heq at 1. cbn. apply lookup_insert_eq. }
    rewrite Hp in Hx. injection Hx as Hx. rewrite Hx in Hst. done. }
  pose proof (Hg _ eq_refl) as Hgb. rewrite Hgb in *. rewrite Hp in Hp0. injection Hp0 as <-.
  destruct (Hq0 Hst) as [Hcur Hknow]. destruct (progress_start _ _ _ _ _ (co_db _ _ ok) Hp) as (s & _ & rec).
  constructor; cbn; [done| | |].
  - intros j' b' f' [_ Hf']%lookup_delete_Some. by apply Hw.
  - constructor; [|done]. unfold pipeline_ok. cbn. rewrite Hb. exists q. split; [apply lookup_insert_eq|].
    rewrite Hq. cbn. split_and!; [done|done|done|]. intros Hlt. apply (pending_open _ _ _ _ _ rec Hst). lia.
  - constructor; [|done]. unfold pipeline_key. cbn. by rewrite Hb.
Qed.
End steps.

(** *** Entering a phase *)

Definition tx_keeps {A} (m : WM A) : Prop := forall d r d', m d = (r, d') -> keeps d d'.
Lemma keeps_reads {A} (m : WM A) : tx_reads m -> tx_keeps m.
Proof. intros Hm d r d' ->%Hm. by constructor. Qed.
Lemma keeps_bind {A B} (m : WM A) (k : A -> WM B) : tx_keeps m -> (forall a, tx_keeps (k a)) -> tx_keeps (mbind k m).
Proof.
  intros Hm Hk d r d'. unfold mbind, tx_mbind. destruct (m d) as [[a|e] d1] eqn:Hd; [|intros [= _ <-]; by eapply Hm].
  intros Hr. apply Hm in Hd as [? ? ? ? ? ?]. apply Hk in Hr as [? ? ? ? ? ?]. constructor; [by auto|congruence..].
Qed.
Lemma entry_inserted key row : tx_keeps (insert_phase_entry key row).
Proof.
  intros d r d' Hi. unfold insert_phase_entry, mbind, tx_mbind, gets, throw, mret, tx_mret, modify in Hi.
  repeat (case_match; simplify_eq); by constructor.
Qed.
Lemma entry_keeps `{Iso8601} policy job k name f now d :
  keeps d (record_phase_entry policy job k name f now d).2.
Proof.
  destruct (record_phase_entry _ _ _ _ _ _ _) as [r d'] eqn:Hr. revert Hr. cbn.
  assert (tx_keeps (record_phase_entry policy job k name f now)) as Hk; [|apply Hk].
  unfold record_phase_entry, upsert_file_phase_entry, file_phase_entry.
  apply keeps_bind; [apply keeps_reads, reads_lift|]. intros [|g [|? ?]]; [apply keeps_reads, reads_throw| |apply keeps_reads, reads_throw].
  repeat first [apply entry_inserted | apply keeps_bind; intros | apply keeps_reads, reads_lift
    | apply keeps_reads, reads_getsR | apply keeps_reads, reads_ret
    | apply keeps_reads, reads_if; [apply reads_throw|apply reads_ret]].
Qed.

(** *** Opening *)

Lemma queue_in job files m j b f :
  queue_files job files m !! (j, b) = Some f ->
  (j = job /\ f ∈ files /\ pf_branch_id f = b) \/ m !! (j, b) = Some f.
Proof.
  induction files as [|g files IH]; cbn; [by right|].
  intros [[[= <- <-] <-]|[_ Hf]]%lookup_insert_Some; [left; by split_and!; [|left|]|].
  destruct (IH Hf) as [(? & ? & ?)|?]; [left; by split_and!; [|right|]|by right].
Qed.

Section opening_step.
Context `{Iso8601} (pc : Z) (c : Coord).
Hypothesis ok : coord_ok pc c.

(** A job is opened, and the files it queues know what is recorded. *)
Lemma opened_ok starts history seeds files terminal max job rows d' :
  opened_job starts history seeds files terminal max (cd_db c) (job_id job) d' -> db_ok pc d' ->
  (forall f, f ∈ files -> knows d' (job_id job) f) ->
  coord_ok pc (opened c files (Ok (job, rows), d')).
Proof.
  intros op Hd Hk. pose proof (fresh_unused _ _ _ (co_db _ _ ok) (oj_fresh _ _ _ _ _ _ _ _ _ op)) as un.
  assert (forall j b, is_Some (progress (cd_db c) !! (j, b)) -> same_file (cd_db c) d' j b) as Hsame.
  { intros j b [p Hp]. apply (opened_other _ _ _ _ _ _ _ _ _ op). intros ->. rewrite (un_progress _ _ un) in Hp. done. }
  constructor; cbn; [done| | |apply (co_distinct _ _ ok)].
  - intros j b f [(-> & Hf & Hb)|Hf]%queue_in.
    + subst b. destruct (opened_progress_in _ _ _ _ _ _ _ _ _ op (new_progress f)) as [p Hp].
      { apply elem_of_app. left. by apply list_elem_of_fmap_2. }
      split; [done|]. exists p. split; [done|]. intros Hst. split; [|by apply Hk].
      by apply (opened_queued _ _ _ _ _ _ _ _ _ op).
    + pose proof (co_waiting _ _ ok _ _ _ Hf) as Hq. apply (queued_same (cd_db c)); [|done].
      apply Hsame. destruct Hq as (_ & p & Hp & _). eauto.
  - eapply Forall_impl; [apply (co_pipelines _ _ ok)|]. intros pl Hpl. apply (pipeline_same pc (cd_db c)); [|done].
    apply Hsame. destruct Hpl as (p & Hp & _). eauto.
Qed.

Lemma open_fresh_ok files max now :
  0 <= pc -> Forall fresh_file files -> coord_ok pc (opened c files (open_fresh_run files max now (cd_db c))).
Proof.
  intros Hpc Hf. destruct (open_fresh_run files max now (cd_db c)) as [[[job rows]|e] d'] eqn:Ho.
  - apply open_effect in Ho. pose proof (fresh_unused _ _ _ (co_db _ _ ok) (oj_fresh _ _ _ _ _ _ _ _ _ Ho)) as un.
    eapply opened_ok; [exact Ho|by apply (db_ok_fresh pc files max (cd_db c) (job_id job)); [|apply (co_db _ _ ok)|..]|].
    intros f Hin k. rewrite Forall_forall in Hf. destruct (Hf f Hin) as [_ ->]. rewrite lookup_empty. unfold outcome_of.
    destruct (history_of d' _ _ k) eqn:Hk.
    { by apply (opened_history _ _ _ _ _ _ _ _ _ Ho un) in Hk as (x & ?%elem_of_nil & _). }
    destruct (rows_of d' _ _ k) eqn:Hr; [|done].
    by apply (opened_row _ _ _ _ _ _ _ _ _ Ho un) in Hr as (x & ?%elem_of_nil & _).
  - unfold open_fresh_run, open_sliding_file_job, open_sliding_file_job_with_terminal_progress in Ho.
    apply atomically_err in Ho as ->. cbn. destruct ok. by constructor.
Qed.

Lemma open_resumed_ok lookup job files r d max now :
  (forall f p, progress (cd_db c) !! (job, pf_branch_id f) = Some p ->
     at_end pc (rows_of (cd_db c) job (pf_branch_id f)) p -> re_verified (lookup f (p_next_phase_ordinal p)) = Ok None) ->
  prepare_resume lookup job files pc (cd_db c) = (Ok r, d) ->
  coord_ok pc (opened c (rp_files r) (open_resumed_run r max now d)).
Proof.
  intros Hshown Hr. destruct (resume_ok pc (cd_db c) job lookup (co_db _ _ ok) Hshown _ _ _ Hr) as (-> & prepared & prep).
  unfold open_resumed_run. destruct (negb _); [destruct ok; by constructor|].
  destruct (open_sliding_file_job_with_terminal_progress _ _ _ _ _ _ _ _) as [[[j rows]|e] d'] eqn:Ho.
  - apply open_effect in Ho. eapply opened_ok; [exact Ho|by eapply db_ok_taken_up; [apply (co_db _ _ ok)|..]|].
    intros g Hg. destruct (survivor_branch _ _ _ _ _ _ prep g Hg) as (br & Hin & Hs & Hb).
    destruct (prepared_branch _ _ _ _ _ _ prep br Hin) as (f & (s & p & extra & history & _ & _ & Hf) & Hbf).
    destruct (pf_survivor _ _ _ _ _ _ _ _ Hf g Hs) as (Hgb & _ & Hh). intros k. rewrite Hgb, Hh. unfold outcome_of.
    pose proof (taken_history pc _ _ _ _ _ _ _ _ (co_db _ _ ok) prep Ho _ _ _ _ _ _ _ Hin Hf) as Hth.
    pose proof (taken_row pc _ _ _ _ _ _ _ _ (co_db _ _ ok) prep Ho _ _ _ _ _ _ _ Hin Hf) as Htr.
    rewrite Hth. destruct (history !! k) eqn:Hk; [done|].
    destruct (rows_of d' _ _ k) eqn:Hrow; [|done]. apply Htr in Hrow. congruence.
  - unfold open_sliding_file_job_with_terminal_progress in Ho. apply atomically_err in Ho as ->. cbn.
    destruct ok. by constructor.
Qed.
End opening_step.

(** ** What is reached *)

Section reached.
Context `{Iso8601} (policy : CompiledPolicy).
Local Abbreviation pc := (phase_count policy).

Lemma phase_count_pos : 0 <= pc.
Proof. unfold phase_count. lia. Qed.

Lemma step_ok c c' : step policy c c' -> coord_ok pc c -> coord_ok pc c'.
Proof.
  pose proof phase_count_pos as Hpc. intros Hs ok. destruct Hs.
  - by apply open_fresh_ok.
  - eapply open_resumed_ok; [done| |done]. eauto.
  - by eapply admit_ok.
  - by eapply admit_none_ok.
  - apply keeps_ok; [done|apply entry_keeps].
  - match goal with H : in_phase _ _ |- _ => destruct H as (? & ? & ?) end. by eapply phase_ok.
  - match goal with H : in_phase _ _ |- _ => destruct H as (? & ? & ?) end. by eapply phase_error_ok.
  - match goal with H : in_phase _ _ |- _ => destruct H as (? & ? & ?) end. by eapply phase_failed_ok.
  - match goal with H : past_phases _ _ |- _ => destruct H as (? & ?) end. by eapply finish_step_ok.
  - match goal with H : past_phases _ _ |- _ => destruct H as (? & ?) end. by eapply finish_error_ok.
  - by eapply terminal_step_ok.
  - by eapply stop_ok.
  - destruct ok. constructor; cbn; try done. intros job b f [_ Hf]%lookup_delete_Some. auto.
  - apply keeps_ok; [done|]. by match goal with H : grows _ _ |- _ => destruct H; constructor end.
Qed.
Lemma initial_ok d : no_runs d -> coord_ok pc {| cd_db := d; cd_waiting := ∅; cd_pipelines := [] |}.
Proof.
  intros (Hw & Hs & Hh & Hp & _ & Hf). constructor; cbn; [|by intros ? ? ? ?%lookup_empty_Some|constructor|constructor].
  constructor; unfold window_max, history_of, rows_of, ordinals_distinct; rewrite ?Hw, ?Hs, ?Hh, ?Hp, ?Hf.
  - intros job. by rewrite lookup_empty.
  - intros j b1 b2 p1 p2 ?%lookup_empty_Some. done.
  - intros job. rewrite lookup_empty. by intros [].
  - intros job b. rewrite lookup_empty. by intros [].
  - intros key. rewrite !lookup_empty. done.
  - intros job b k. rewrite !lookup_empty. by intros [].
  - intros job b k. rewrite !lookup_empty. by intros [].
  - intros job b s p ?%lookup_empty_Some. done.
Qed.
Lemma reaches_ok c : reaches policy c -> coord_ok pc c.
Proof.
  intros (d & Hd & Hr). apply initial_ok in Hd. revert Hd. induction Hr as [|x y z Hs _ IH]; [done|].
  intros Hx. by apply IH, (step_ok x).
Qed.

(** The files of a job that are in flight. *)
Definition pipelines_of (job : Z) (c : Coord) : list Pipeline :=
  List.filter (fun pl => pl_job pl =? job) (cd_pipelines c).
Lemma pipelines_hold_slots c job :
  coord_ok pc c -> Z.of_nat (length (pipelines_of job c)) <= slots job (progress (cd_db c)).
Proof.
  intros ok. unfold slots, in_flight.
  set (rows := List.filter _ (map_to_list _)).
  rewrite <- (length_map pipeline_key), <- (length_map fst rows). apply inj_le, submseteq_length, NoDup_submseteq.
  - unfold pipelines_of. apply NoDup_map_filter, (co_distinct _ _ ok).
  - intros key (pl & -> & Hin)%list_elem_of_fmap. unfold pipelines_of in Hin.
    apply list_elem_of_In, filter_In in Hin as [Hin Hj]. apply list_elem_of_In in Hin.
    pose proof (co_pipelines _ _ ok) as Hpl. rewrite Forall_forall in Hpl. destruct (Hpl pl Hin) as (p & Hp & Hst).
    apply list_elem_of_fmap. exists (pipeline_key pl, p). split; [done|]. subst rows. apply list_elem_of_In, filter_In.
    split; [by apply list_elem_of_In, elem_of_map_to_list|]. cbn. rewrite Hj. cbn. rewrite in_flight_of.
    destruct (pl_finishing pl); [by rewrite Hst|]. by destruct Hst as [-> _].
Qed.
End reached.


(** ** The theorems *)

Section windows.
Context `{Iso8601} (policy : CompiledPolicy).

(** C15: However the pipelines of the files interleave, fail or stop, and however
    often jobs are opened and taken up, the files of a job that are in flight,
    those of an ended process included, are never more than its window allows,
    and every pipeline holds one of their slots. *)
Theorem window_respected c job :
  reaches policy c ->
  Z.of_nat (length (pipelines_of job c)) <= slots job (progress (cd_db c)) <= window_max (cd_db c) job.
Proof.
  intros ok%reaches_ok. split; [by eapply pipelines_hold_slots|apply (ok_window _ _ (co_db _ _ ok))].
Qed.
End windows.

Section gates.
Context `{Iso8601}.

Lemma position_of (order : list bytes) name i :
  NoDup order -> order !! i = Some name -> position (eqb_text name) order = Some i.
Proof.
  revert i. induction order as [|n order IH]; intros i Hnd Hi; [done|]. apply NoDup_cons in Hnd as [Hn Hnd].
  cbn [position]. destruct i as [|i]; cbn in Hi.
  - injection Hi as ->. by rewrite (proj2 (eqb_text_true name name)).
  - rewrite eqb_text_false; [by rewrite (IH i)|]. intros ->. destruct Hn. by eapply list_elem_of_lookup_2.
Qed.

(** A file that goes on knows the outcome of every phase before, none of which
    blocked it. *)
Lemma running_knows pc c pl k :
  coord_ok pc c -> pl ∈ cd_pipelines c -> pl_running pl = true -> pl_finishing pl = false -> pl_phase pl < pc ->
  0 <= k < pl_phase pl -> exists o, pf_phase_history (pl_file pl) !! k = Some o /\ o <> FileBlocked.
Proof.
  intros ok Hin Hr Hf Hlt Hk. apply elem_of_Permutation in Hin as [l Hl].
  pose proof (co_pipelines _ _ ok) as Hp. rewrite Hl in Hp. apply Forall_cons in Hp as [(p & Hp & Hst) _].
  rewrite Hf, Hr in Hst. destruct Hst as (_ & Hn & Hknow & Hopen). specialize (Hopen Hlt).
  destruct (progress_start _ _ _ _ _ (co_db _ _ ok) Hp) as (s & _ & rec).
  assert (forall j, outcome_of (history_of (cd_db c) (pl_job pl) (pf_branch_id (pl_file pl)))
            (rows_of (cd_db c) (pl_job pl) (pf_branch_id (pl_file pl))) j <> Some FileBlocked) as Hnb.
  { intros j Hj. by apply Hopen, (outcome_of_block_end _ _ _ _ _ rec j). }
  destruct (outcome_of_covered _ _ _ _ _ rec k Hnb) as [o Ho]; [lia|]. exists o. rewrite Hknow. split; [done|].
  intros ->. by apply (Hnb k).
Qed.

(** C18: The gate of a phase of a compiled policy can always be evaluated. When a
    file comes to a phase, every phase before it has an outcome that is known
    and did not block the file, so that the gate, which names one of them,
    answers: after a phase that completed, or only when it modified the file. *)
Theorem gates_evaluate source_hash source out c pl name :
  let policy := co_policy out in
  compile_policy source_hash source = Ok out -> phase_count policy <= 2 ^ 32 ->
  reaches policy c -> pl ∈ cd_pipelines c -> in_phase policy pl ->
  cp_phase_order policy !! Z.to_nat (pl_phase pl) = Some name ->
  exists phase admitted, find_phase policy name = Some phase
    /\ phase_gate_admission policy name [pl_file pl] = Ok [admitted]
    /\ match run_if phase with
       | None => admitted = true
       | Some g => exists i o, cp_phase_order policy !! i = Some (gate_phase g) /\ Z.of_nat i < pl_phase pl
           /\ pf_phase_history (pl_file pl) !! Z.of_nat i = Some o
           /\ admitted = match trigger g with
                         | Completed => true
                         | Modified => bool_decide (o = FileCommitted)
                         end
       end.
Proof.
  intros policy (Hne & Hnd & Hperm & Hphases)%compiled_order Hpc ok%reaches_ok Hin (Hr & Hf & Hlt) Hname.
  fold policy in Hne, Hnd, Hperm, Hphases. assert (NoDup (cp_phase_order policy)) as Hndo by by rewrite Hperm.
  assert (exists phase, find_phase policy name = Some phase /\ phase ∈ cp_phases policy /\ cp_name phase = name)
    as (phase & Hfind & Hphase & Hpn).
  { pose proof (list_elem_of_lookup_2 _ _ _ Hname) as Hn. rewrite Hperm in Hn.
    apply list_elem_of_fmap in Hn as (ph & Hph & Hphin). unfold find_phase.
    destruct (List.find _ _) as [ph'|] eqn:Hfd.
    - apply find_some in Hfd as [? ?%eqb_text_true]. exists ph'. split_and!; try done. by apply list_elem_of_In.
    - exfalso. apply list_elem_of_In in Hphin. pose proof (List.find_none _ _ Hfd ph Hphin) as Hno.
      apply not_true_iff_false in Hno. apply Hno. by apply eqb_text_true. }
  destruct (Hphases phase Hphase) as [_ Hgate]. exists phase. unfold phase_gate_admission. rewrite Hfind. cbn.
  destruct (run_if phase) as [g|]; [|by exists true].
  destruct (Hgate g eq_refl) as (i & j & Hi & Hj & Hij). rewrite Hpn in Hj.
  assert (j = Z.to_nat (pl_phase pl)) as ->. { eapply NoDup_lookup; [exact Hndo|done..]. }
  rewrite (position_of _ _ _ Hndo Hname), (position_of _ _ _ Hndo Hi).
  destruct (Nat.leb_spec (Z.to_nat (pl_phase pl)) i); [lia|].
  assert (is_u32 (Z.of_nat i) = true) as ->.
  { apply lookup_lt_Some in Hi. unfold phase_count in Hpc. unfold is_u32, u32_max. lia. }
  destruct (running_knows _ _ _ (Z.of_nat i) ok Hin Hr Hf Hlt) as (o & Ho & Hnb); [lia|].
  unfold gate_admits. cbn. rewrite Ho. cbn.
  assert (gate_decision (trigger g) o = Ok (match trigger g with Completed => true
            | Modified => bool_decide (o = FileCommitted) end)) as ->.
  { by destruct (trigger g), o. }
  cbn. eexists. split; [done|]. split; [done|]. exists i, o. split_and!; try done. lia.
Qed.
End gates.

Section resumption.
Context `{Iso8601} (policy : CompiledPolicy).
Local Abbreviation pc := (phase_count policy).

(** The records of a job as a resume reads them. *)
Record read_job (d : WorkflowDb) (job : Z) (starts : list FileRunStart) (rows : list FilePhaseSummary)
    (inherited : list FileRunHistory) (ps : list FileProgress) : Prop := {
  rj_starts : file_run_starts_for_job job d = (Ok starts, d);
  rj_rows : file_phases_for_job job d = (Ok rows, d);
  rj_inherited : file_run_history_for_job job d = (Ok inherited, d);
  rj_progress : file_progress_for_job job d = (Ok ps, d);
}.
(** What is known of a phase of a file in a job. *)
Definition known_outcome (d : WorkflowDb) (job : Z) (b : string) (k : Z) : option FilePhaseOutcome :=
  outcome_of (history_of d job b) (rows_of d job b) k.

Section read.
Context (d : WorkflowDb) (job : Z) (starts : list FileRunStart) (rows : list FilePhaseSummary)
  (inherited : list FileRunHistory) (ps : list FileProgress).
Hypothesis ok : db_ok pc d.
Hypothesis rj : read_job d job starts rows inherited ps.

Lemma read_collected :
  collect (row_to_file_run_start job) (job_starts job d) = Ok starts
  /\ collect (row_to_file_phase job) (job_file_phases job d) = Ok rows
  /\ collect (row_to_file_run_history job) (job_history job d) = Ok inherited
  /\ collect (fun kv => decode_file_progress kv.1 kv.2) (job_progress job d) = Ok ps.
Proof.
  destruct rj as [H1 H2 H3 H4].
  unfold file_run_starts_for_job, file_phases_for_job, file_run_history_for_job, file_progress_for_job in *.
  store_inv. done.
Qed.

Lemma start_branches b : b ∈ map fs_branch_id starts <-> is_Some (run_starts d !! (job, b)).
Proof.
  destruct read_collected as (Hs%collect_ok & _). rewrite list_elem_of_fmap. split.
  - intros (x & -> & Hx). destruct (Forall2_in_r _ _ _ _ Hs Hx) as ([[b' k] s] & Hkv & Hd).
    apply job_starts_in in Hkv as [_ Hkv]. apply decode_start in Hd as (-> & _). eauto.
  - intros [s Hb]. assert (((b, 0), s) ∈ job_starts job d) as Hin by (by apply job_starts_in).
    destruct (Forall2_in_l _ _ _ _ Hs Hin) as (x & Hx & Hd). apply decode_start in Hd as (Hd & _). by exists x.
Qed.
Lemma progress_branches b : b ∈ map fg_branch_id ps <-> is_Some (progress d !! (job, b)).
Proof.
  destruct read_collected as (_ & _ & _ & Hs%collect_ok). rewrite list_elem_of_fmap. split.
  - intros (x & -> & Hx). destruct (Forall2_in_r _ _ _ _ Hs Hx) as ([[j b'] p] & Hkv & Hd).
    apply job_progress_in in Hkv as [-> Hkv]. apply decode_progress in Hd as (_ & -> & _). eauto.
  - intros [p Hb]. assert (((job, b), p) ∈ job_progress job d) as Hin by (by apply job_progress_in).
    destruct (Forall2_in_l _ _ _ _ Hs Hin) as (x & Hx & Hd). apply decode_progress in Hd as (_ & Hd & _). by exists x.
Qed.
Lemma Forall2_map_NoDup {A B K} (R : A -> B -> Prop) (f : A -> K) (g : B -> K) l k :
  Forall2 R l k -> (forall a b, a ∈ l -> R a b -> g b = f a) -> NoDup (map f l) -> NoDup (map g k).
Proof.
  intros Hr Hg. assert (map g k = map f l) as ->; [|done].
  induction Hr as [|a b l k Hab Hr IH]; [done|]. cbn. rewrite IH, (Hg a b) by (done || set_solver). done.
Qed.
Lemma same_lengths : length ps = length starts.
Proof.
  rewrite <- (length_map fg_branch_id), <- (length_map fs_branch_id).
  apply Permutation_length, NoDup_Permutation.
  - destruct read_collected as (_ & _ & _ & Hp%collect_ok).
    eapply (Forall2_map_NoDup _ (fun kv => kv.1.2)); [exact Hp| |].
    + intros kv x _ Hd. by apply decode_progress in Hd as (_ & ? & _).
    + pose proof (job_progress_NoDup job d) as Hnd.
      assert (map (fun kv => kv.1.2) (job_progress job d) = map snd (job_progress job d).*1) as -> by by rewrite map_map.
      apply NoDup_fmap_2_strong; [|done]. intros [j1 b1] [j2 b2] ([? p1] & [= <-] & H1)%list_elem_of_fmap
        ([? p2] & [= <-] & H2)%list_elem_of_fmap. cbn. apply job_progress_in in H1 as [-> _], H2 as [-> _]. by intros ->.
  - destruct read_collected as (Hp%collect_ok & _).
    eapply (Forall2_map_NoDup _ (fun kv => kv.1.1)); [exact Hp| |].
    + intros kv x _ Hd. by apply decode_start in Hd as (? & _).
    + pose proof (job_starts_NoDup job d) as Hnd.
      assert (map (fun kv => kv.1.1) (job_starts job d) = map fst (job_starts job d).*1) as -> by by rewrite map_map.
      apply NoDup_fmap_2_strong; [|done]. intros [b1 k1] [b2 k2] ([? p1] & [= <-] & H1)%list_elem_of_fmap
        ([? p2] & [= <-] & H2)%list_elem_of_fmap. cbn. apply job_starts_in in H1 as [-> _], H2 as [-> _]. by intros ->.
  - intros b. rewrite progress_branches, start_branches. symmetry. apply (ok_paired _ _ ok).
Qed.
(** The records of a job are of the files it was opened for. *)
Lemma branch_sets_iff files :
  validate_branch_sets files starts rows inherited ps = Ok tt
  <-> branches pf_branch_id files = branches fs_branch_id starts.
Proof.
  unfold validate_branch_sets. case_bool_decide as Hf; cbn; [|done]. split; [done|intros _].
  rewrite bool_decide_eq_true_2.
  2: { apply set_eq. intros b. unfold branches. rewrite !elem_of_list_to_set, progress_branches, start_branches.
       symmetry. apply (ok_paired _ _ ok). }
  rewrite same_lengths, Nat.eqb_refl. cbn.
  destruct read_collected as (_ & Hr%collect_ok & Hi%collect_ok & _).
  destruct (existsb _ rows) eqn:He1.
  { apply existsb_exists in He1 as (x & Hx%list_elem_of_In & Hb). apply negb_true_iff, bool_decide_eq_false in Hb.
    destruct Hb. unfold branches. rewrite elem_of_list_to_set, start_branches.
    destruct (Forall2_in_r _ _ _ _ Hr Hx) as ([[k b] z] & Hkv & Hd). apply decode_file_phase in Hd as (_ & -> & _).
    apply job_file_phases_in in Hkv. apply (ok_rows _ _ ok _ _ k). unfold rows_of. eauto. }
  destruct (existsb _ inherited) eqn:He2; [|done].
  apply existsb_exists in He2 as (x & Hx%list_elem_of_In & Hb). apply negb_true_iff, bool_decide_eq_false in Hb.
  destruct Hb. unfold branches. rewrite elem_of_list_to_set, start_branches.
  destruct (Forall2_in_r _ _ _ _ Hi Hx) as ([[b k] o] & Hkv & Hd). apply decode_history in Hd as (-> & _).
  apply job_history_in in Hkv. apply (ok_history _ _ ok _ _ k). unfold history_of. eauto.
Qed.
End read.

(** What the checks of a resume make of the records of one file. *)
Definition accepted (d : WorkflowDb) (job : Z) (starts : list FileRunStart) (rows : list FilePhaseSummary)
    (inherited : list FileRunHistory) (ps : list FileProgress) (b : string) (p : ProgressRow) : Prop :=
  exists start own known state history,
    by_branch fs_branch_id starts b = Some start /\ by_branch fg_branch_id ps b = Some own
    /\ validate_prior_history start (rows_of_branch fh_branch_id inherited b) pc = Ok known
    /\ validate_prior_row_shape start (rows_of_branch fp_branch_id rows b) known pc = Ok state
    /\ merge_prior_rows known (rows_of_branch fp_branch_id rows b) = Ok history
    /\ bs_next_ordinal state = p_next_phase_ordinal p
    /\ (bs_phase_complete state = true <-> ended policy d job b p)
    /\ (forall k, history !! k = known_outcome d job b k)
    /\ (validate_prior_progress start own state = Ok tt
        <-> ~ (p_state p = ProgressPending /\ ended policy d job b p)).
Lemma records_accepted d job starts rows inherited ps b p :
  db_ok pc d -> read_job d job starts rows inherited ps -> progress d !! (job, b) = Some p ->
  accepted d job starts rows inherited ps b p.
Proof.
  intros Hd rj Hp.
  destruct (read_collected _ _ _ _ _ _ rj) as (Hs & Hr & Hi & Hps).
  destruct (progress_start _ _ _ _ _ Hd Hp) as (s & Hst & rec).
  assert (exists start, by_branch fs_branch_id starts b = Some start) as [start Hstart].
  { assert (b ∈ map fs_branch_id starts) as Hb by (eapply start_branches; eauto).
    apply list_elem_of_fmap in Hb as (x & -> & Hx). by apply by_branch_in. }
  assert (exists own, by_branch fg_branch_id ps b = Some own) as [own Hown].
  { assert (b ∈ map fg_branch_id ps) as Hb by (eapply progress_branches; eauto).
    apply list_elem_of_fmap in Hb as (x & -> & Hx). by apply by_branch_in. }
  destruct (start_of_branch job _ _ _ _ Hs Hstart) as (s' & Hs' & Hso & _). rewrite Hst in Hs'. injection Hs' as <-.
  destruct (progress_of_branch job _ _ _ _ Hps Hown) as (p' & Hp' & Hdec). rewrite Hp in Hp'. injection Hp' as <-.
  apply decode_progress in Hdec as (_ & _ & _ & _ & Hstate & Hcur & _).
  pose proof (phases_of_branch job _ _ b Hr) as Hrr. pose proof (history_of_branch job _ _ b Hi) as Hrh.
  destruct (prior_history_ok _ _ _ _ _ rec _ Hso _ Hrh) as (known & Hk & Hkh).
  destruct (row_shape_ok _ _ _ _ _ rec _ Hso known Hkh _ Hrr) as (complete & Hsh & Hc).
  destruct (prior_rows_ok _ _ _ _ _ rec known Hkh _ Hrr) as (history & Hh & Hhh).
  pose proof (prior_progress_iff _ _ _ _ _ rec _ Hso (rows_of_branch fp_branch_id rows b) own complete Hcur Hstate Hc) as Hpp.
  exists start, own, known. eexists. exists history.
  split_and!; [done|done|done|exact Hsh|done|done|done|done|]. unfold ended. change (_ \/ _) with (at_end pc (rows_of d job b) p). rewrite <- Hc.
  revert Hpp. destruct (validate_prior_progress start own _) as [[]|e]; cbn; rewrite andb_comm;
    destruct complete, (bool_decide (p_state p = ProgressPending)) eqn:Hpb; cbn;
    rewrite ?bool_decide_eq_true, ?bool_decide_eq_false in Hpb; naive_solver.
Qed.

(** C16: The records a run leaves, wherever it stops, are such as a resume
    accepts: they are of the files of the job, the inherited outcomes, the rows
    of the phases and the cursor of every file fit together, and give back the
    outcome of every phase. The one exception is the check of the cursor, which
    refuses a file that waits for admission though it has no phase left. *)
Theorem resume_accepts c job starts rows inherited ps :
  reaches policy c -> read_job (cd_db c) job starts rows inherited ps ->
  (forall files, validate_branch_sets files starts rows inherited ps = Ok tt
                 <-> branches pf_branch_id files = branches fs_branch_id starts)
  /\ forall b p, progress (cd_db c) !! (job, b) = Some p ->
       accepted (cd_db c) job starts rows inherited ps b p.
Proof.
  intros ok%reaches_ok rj. pose proof (co_db _ _ ok) as Hd. split; [intros files; by eapply branch_sets_iff|].
  intros b p. by apply records_accepted.
Qed.


(** What is prepared for the files, one by one. *)
Lemma prepared_each lookup starts rows inherited ps files d prepared d' f :
  prepare_branches lookup pc starts rows inherited ps files d = (Ok prepared, d') -> f ∈ files ->
  exists start own br d1 d2, by_branch fs_branch_id starts (pf_branch_id f) = Some start
    /\ by_branch fg_branch_id ps (pf_branch_id f) = Some own
    /\ prepare_resume_branch lookup f
         {| pb_start := start; pb_progress := own; pb_rows := rows_of_branch fp_branch_id rows (pf_branch_id f);
            pb_inherited := rows_of_branch fh_branch_id inherited (pf_branch_id f) |} pc d1 = (Ok br, d2).
Proof.
  revert d prepared. induction files as [|g files IH]; intros d prepared Hp Hf; [by apply elem_of_nil in Hf|].
  cbn in Hp. apply tx_bind_ok in Hp as (start & ? & [Hstart%ok_or_ok ->]%lift_ok & Hp).
  apply tx_bind_ok in Hp as (own & ? & [Hown%ok_or_ok ->]%lift_ok & Hp).
  apply tx_bind_ok in Hp as (br & d1 & Hbr & Hp). apply tx_bind_ok in Hp as (rest & d2 & Hrest & Hp).
  injection Hp as <- <-. apply elem_of_cons in Hf as [->|Hf]; [by eexists _, _, _, _, _|by eapply IH].
Qed.

Lemma branch_checks lookup f prior known state d br d' :
  validate_prior_history (pb_start prior) (pb_inherited prior) pc = Ok known ->
  validate_prior_row_shape (pb_start prior) (pb_rows prior) known pc = Ok state ->
  prepare_resume_branch lookup f prior pc d = (Ok br, d') ->
  validate_prior_progress (pb_start prior) (pb_progress prior) state = Ok tt.
Proof.
  intros Hk Hs. unfold prepare_resume_branch. intros Hp.
  apply tx_bind_ok in Hp as (? & d1 & _ & Hp). rewrite Hk in Hp.
  apply tx_bind_ok in Hp as (? & ? & [[= <-] ->]%lift_ok & Hp). rewrite Hs in Hp.
  apply tx_bind_ok in Hp as (? & ? & [[= <-] ->]%lift_ok & Hp).
  by apply tx_bind_ok in Hp as ([] & ? & [-> ->]%lift_ok & Hp).
Qed.
Lemma resume_reads lookup job files d r d' :
  prepare_resume lookup job files pc d = (Ok r, d') ->
  exists starts rows inherited ps prepared, read_job d job starts rows inherited ps
    /\ validate_branch_sets files starts rows inherited ps = Ok tt
    /\ prepare_branches lookup pc starts rows inherited ps files d = (Ok prepared, d').
Proof.
  unfold prepare_resume, file_run_starts_for_job, file_phases_for_job, file_run_history_for_job, file_window,
    file_progress_for_job. intros Hr. store_inv.
  eexists _, _, _, _, _. split_and!; [|eassumption|eassumption].
  assert (i64_from_u64 job = Ok job) as Hj.
  { unfold i64_from_u64. destruct (Z.leb_spec job i64_max); [done|lia]. }
  constructor; unfold file_run_starts_for_job, file_phases_for_job, file_run_history_for_job, file_progress_for_job;
    apply tx_bind_ok; eexists _, _; (split; [by apply lift_ok|by apply getsR_ok]).
Qed.

(** C39: A job in which a file waits for admission though it has no phase left
    can never be taken up, whatever the tickets show: every resume of it is
    refused. Taking up a run makes such jobs, of the files it finds in flight
    after their last phase. *)
Theorem waiting_at_end_refused c job b p :
  reaches policy c -> progress (cd_db c) !! (job, b) = Some p ->
  p_state p = ProgressPending -> ended policy (cd_db c) job b p ->
  forall lookup files r d, prepare_resume lookup job files pc (cd_db c) <> (Ok r, d).
Proof.
  intros Hreach Hp Hst Hend lookup files r d Hr. pose proof (co_db _ _ (reaches_ok _ _ Hreach)) as Hd.
  destruct (resume_reads _ _ _ _ _ _ Hr) as (starts & rows & inherited & ps & prepared & rj & Hsets & Hprep).
  assert (exists f, f ∈ files /\ pf_branch_id f = b) as (f & Hf & Hb).
  { apply (branch_sets_iff _ _ _ _ _ _ Hd rj) in Hsets.
    assert (b ∈ branches fs_branch_id starts) as Hb.
    { unfold branches. rewrite elem_of_list_to_set, (start_branches _ _ _ _ _ _ rj). apply (ok_paired _ _ Hd). eauto. }
    rewrite <- Hsets in Hb. unfold branches in Hb. apply elem_of_list_to_set, list_elem_of_fmap in Hb as (f & -> & Hf).
    by exists f. }
  subst b. destruct (prepared_each _ _ _ _ _ _ _ _ _ _ Hprep Hf) as (start & own & br & d1 & d2 & Hs & Ho & Hbr).
  destruct (records_accepted _ _ _ _ _ _ _ _ Hd rj Hp)
    as (start' & own' & known & state & history & Hs' & Ho' & Hk & Hsh & _ & _ & _ & _ & Hpp).
  rewrite Hs in Hs'. rewrite Ho in Ho'. injection Hs' as <-. injection Ho' as <-.
  apply (branch_checks lookup f _ known state) in Hbr; [|done|done]. by apply Hpp in Hbr as [].
Qed.
End resumption.

(** ** A run, stopped and taken up *)

#[local] Instance run_iso8601 : Iso8601 := be_iso8601.
#[local] Instance run_iso8601_laws : Iso8601Laws := be_iso8601_laws.

Definition run_source : bytes := quoted_text
"policy 'run' {
  phase fix { container mkv }
  phase check { depends_on: [fix] run_if modified fix container mkv }
}".
Definition no_policy : CompiledPolicy := {|
  policy_name := []; policy_slug := []; PolicyCompiled.source_hash := []; schema_version := 2; cp_metadata := ∅;
  cp_config := CompiledConfig_default; cp_phases := []; cp_phase_order := []; warnings := [] |}.
Definition run_out : CompileOutput := Eval vm_compute in
  match compile_policy no_hash run_source with
  | Ok out => out | Err _ => {| co_policy := no_policy; co_diagnostics := [] |}
  end.
Definition run_policy : CompiledPolicy := co_policy run_out.
Lemma run_compiled : compile_policy no_hash run_source = Ok run_out.
Proof. vm_compute. reflexivity. Qed.

(** Two files, of which one may be in flight. *)
Definition run_file (asset version : Z) (branch : string) (ordinal : Z) : PhaseFile := {|
  pf_asset_id := asset; pf_version_id := version;
  pf_snapshot := {| ms_id := 5; ms_file_version_id := version; ms_payload := JObj [] |};
  pf_branch_id := branch; pf_ordinal := ordinal; pf_admission_tier := TierPending; pf_resume_ordinal := 0;
  pf_phase_history := ∅ |}.
Definition run_files : list PhaseFile := [run_file 10 1 "a" 0; run_file 20 2 "b" 1].
Definition run_db : WorkflowDb :=
  MkWorkflowDb empty_db ∅ ∅ ∅ ∅ ∅ ∅ (list_to_map [(1, 10); (2, 20); (3, 10)]) {[5; 8]} {[6]} ∅ ∅.
Definition run_start : Coord := {| cd_db := run_db; cd_waiting := ∅; cd_pipelines := [] |}.
(** The tickets of the first phase show a commit, those of the second nothing. *)
Definition run_evidence : PhaseEvidence := {|
  pe_tickets := Ok [1]; pe_verified := Ok None;
  pe_committed := Ok (Some ({| pr_file_version_id := Some 3; pr_file_location_id := Some 6;
                               pr_artifact_handle_id := None; pr_artifact_verification_id := None;
                               pr_reprobe_snapshot_id := Some 8 |},
                            {| ms_id := 8; ms_file_version_id := 3; ms_payload := JObj [] |}), [1]);
  pe_still_active := Ok tt |}.

Definition opened_run : Coord := opened run_start run_files (open_fresh_run run_files 1 100 run_db).
Definition admit_run (c : Coord) (job : Z) : Coord :=
  match admit_next_file job 101 (cd_db c) with
  | (Ok (Some p), d) =>
      match cd_waiting c !! (job, fg_branch_id p) with
      | Some f => {| cd_db := d; cd_waiting := delete (job, fg_branch_id p) (cd_waiting c);
                     cd_pipelines := pipeline_of job f :: cd_pipelines c |}
      | None => with_db c d
      end
  | (_, d) => with_db c d
  end.
(** The first pipeline goes through a phase. *)
Definition phase_run (c : Coord) (disposition : Disposition) : Coord :=
  match cd_pipelines c with
  | pl :: rest =>
      match finalize_file (pl_job pl) (pl_phase pl) (pl_file pl) disposition run_evidence 102 (cd_db c) with
      | (Ok (_, _, keep), d) => with_pipelines c d (past_phase pl keep :: rest)
      | (Err _, d) => with_pipelines c d rest
      end
  | [] => c
  end.
Lemma admit_run_step policy c job : step policy c (admit_run c job).
Proof.
  unfold admit_run. destruct (admit_next_file job 101 (cd_db c)) as [[[p|]|e] d] eqn:Ha; try by eapply step_admit_none.
  destruct (cd_waiting c !! _) eqn:Hw; [by eapply step_admit|by eapply step_admit_none].
Qed.
Lemma phase_run_step policy c disposition :
  Forall (in_phase policy) (cd_pipelines c) -> cd_pipelines c <> [] -> step policy c (phase_run c disposition).
Proof.
  unfold phase_run. intros Hp Hne. destruct (cd_pipelines c) as [|pl rest] eqn:Hl; [done|].
  apply Forall_cons in Hp as [Hp _].
  destruct (finalize_file _ _ _ _ _ _ _) as [[[[row snapshot] keep]|e] d] eqn:Hf.
  - by eapply (step_phase policy c []).
  - by eapply (step_phase_error policy c []).
Qed.

Definition admitted_run : Coord := admit_run opened_run 1.
Definition fixed_run : Coord := phase_run admitted_run (DispPlanned []).
Definition ended_run : Coord := phase_run fixed_run DispSkipped.

Lemma opened_reached : reaches run_policy opened_run.
Proof.
  exists run_db. split; [by vm_compute|]. apply rtc_once. apply (step_open run_policy run_start).
  repeat constructor.
Qed.
Lemma reaches_step policy c c' : reaches policy c -> step policy c c' -> reaches policy c'.
Proof. intros (d & Hd & Hr) Hs. exists d. split; [done|]. by eapply rtc_r. Qed.
Ltac in_phase := vm_compute; repeat constructor.
Lemma admitted_reached : reaches run_policy admitted_run.
Proof. eapply reaches_step; [apply opened_reached|apply admit_run_step]. Qed.
Lemma fixed_reached : reaches run_policy fixed_run.
Proof. eapply reaches_step; [apply admitted_reached|apply phase_run_step; [by in_phase|by vm_compute]]. Qed.
Lemma ended_reached : reaches run_policy ended_run.
Proof. eapply reaches_step; [apply fixed_reached|apply phase_run_step; [by in_phase|by vm_compute]]. Qed.

(** A row that was never admitted is read. *)
Definition never_admitted (kv : (Z * string) * ProgressRow) : bool :=
  is_u32 (p_input_ordinal kv.2) && is_u32 (p_next_phase_ordinal kv.2)
  && is_none (p_admitted_at kv.2) && is_none (p_terminal_at kv.2).
Lemma readable_rows (job : Z) m :
  forallb never_admitted (map_to_list m) = true -> forall b p, m !! (job, b) = Some p -> progress_readable p.
Proof.
  intros Hm b p Hp. rewrite forallb_forall in Hm. specialize (Hm ((job, b), p)).
  rewrite <- list_elem_of_In, elem_of_map_to_list in Hm. apply Hm in Hp. unfold never_admitted in Hp. cbn in Hp.
  rewrite !andb_true_iff in Hp. destruct Hp as [[[? ?] Ha] Ht]. unfold progress_readable, stamp_readable.
  destruct (p_admitted_at p); [done|]. by destruct (p_terminal_at p).
Qed.

Lemma admission_exact_witness :
  match admit_next_file 1 101 (cd_db opened_run) with
  | (Ok (Some g), d') => fg_branch_id g = "a"%string
      /\ slots 1 (progress d') = slots 1 (progress (cd_db opened_run)) + 1
  | _ => False
  end.
Proof.
  assert (Hx : match admit_next_file 1 101 (cd_db opened_run) with
               | (Ok (Some g), _) => String.eqb (fg_branch_id g) "a" | _ => false end = true)
    by (vm_compute; reflexivity).
  destruct (admit_next_file 1 101 (cd_db opened_run)) as [[[g|]|e] d'] eqn:E; [|discriminate Hx|discriminate Hx].
  apply String.eqb_eq in Hx.
  pose proof (admission_exact 1 101 (be_text 8 101) (cd_db opened_run)) as Ha. rewrite E in Ha.
  destruct Ha as (b & p & max & _ & _ & _ & _ & _ & Hs & _).
  - reflexivity.
  - vm_compute. by split.
  - apply (ok_ordinals _ _ (co_db _ _ (reaches_ok _ _ opened_reached))).
  - intros b p [Hp _]. revert Hp. apply readable_rows. vm_compute. reflexivity.
  - by split.
Defined.

Lemma window_respected_witness :
  (length (pipelines_of 1 admitted_run) = 1)%nat /\ slots 1 (progress (cd_db admitted_run)) = 1
  /\ slots 1 (progress (cd_db admitted_run)) <= window_max (cd_db admitted_run) 1.
Proof.
  split; [vm_compute; reflexivity|]. split; [vm_compute; reflexivity|].
  apply (window_respected run_policy admitted_run 1), admitted_reached.
Defined.

(** The first file has come to the second phase, whose gate asks for a change in
    the first. *)
Definition run_pipeline : Pipeline :=
  default (pipeline_of 0 (run_file 0 0 "x" 0)) (head (cd_pipelines fixed_run)).
Lemma gates_evaluate_witness :
  exists phase admitted, find_phase run_policy (lit "check") = Some phase
    /\ phase_gate_admission run_policy (lit "check") [pl_file run_pipeline] = Ok [admitted] /\ admitted = true.
Proof.
  destruct (gates_evaluate no_hash run_source run_out fixed_run run_pipeline (lit "check"))
    as (phase & admitted & H1 & H2 & _).
  - apply run_compiled.
  - by vm_compute.
  - apply fixed_reached.
  - change (cd_pipelines fixed_run) with [run_pipeline]. by left.
  - by vm_compute.
  - by vm_compute.
  - exists phase, admitted. split_and!; [done|done|].
    assert (E : phase_gate_admission run_policy (lit "check") [pl_file run_pipeline] = Ok [true]) by (vm_compute; reflexivity).
    assert (Hx : Ok [admitted] = Ok [true] :> Res (list bool)) by (rewrite <- E; symmetry; exact H2).
    by injection Hx.
Defined.

(** The process ends; the version of the first file is now the one it made. *)
Definition crashed_run : Coord := with_pipelines ended_run (cd_db ended_run) [].
Definition stopped_run : Coord :=
  {| cd_db := cd_db crashed_run; cd_waiting := delete (1, "b"%string) (cd_waiting crashed_run);
     cd_pipelines := cd_pipelines crashed_run |}.
Definition resume_files : list PhaseFile := [run_file 10 3 "a" 0; run_file 20 2 "b" 1].
Definition no_tickets : TicketLookup := fun _ _ => {| re_committed := Ok None; re_verified := Ok None |}.
Definition preparation (c : Coord) (job : Z) : ResumePreparation :=
  match prepare_resume no_tickets job resume_files (phase_count run_policy) (cd_db c) with
  | (Ok r, _) => r
  | (Err _, _) => {| rp_files := []; rp_run_starts := []; rp_history := []; rp_seeds := [];
                     rp_terminal_progress := []; rp_max_in_flight_files := 0 |}
  end.
Definition resumed_run : Coord :=
  opened stopped_run (rp_files (preparation stopped_run 1))
    (open_resumed_run (preparation stopped_run 1) 1 200 (cd_db stopped_run)).

Lemma crashed_reached : reaches run_policy crashed_run.
Proof.
  assert (exists pl, cd_pipelines ended_run = [] ++ pl :: []) as [pl Hpl]
    by (exists (default run_pipeline (head (cd_pipelines ended_run))); by vm_compute).
  exact (reaches_step _ _ _ ended_reached (step_stop run_policy ended_run [] pl [] Hpl)).
Qed.
Lemma stopped_reached : reaches run_policy stopped_run.
Proof. exact (reaches_step _ _ _ crashed_reached (step_lose run_policy crashed_run (1, "b"%string))). Qed.
Lemma no_tickets_shown d job : shows_entered_phases run_policy no_tickets d job.
Proof. by intros f p _ _. Qed.
Lemma stopped_prepared :
  prepare_resume no_tickets 1 resume_files (phase_count run_policy) (cd_db stopped_run)
  = (Ok (preparation stopped_run 1), cd_db stopped_run).
Proof. vm_compute. reflexivity. Qed.
Lemma resumed_step : step run_policy stopped_run resumed_run.
Proof.
  unfold resumed_run. generalize stopped_prepared. generalize (preparation stopped_run 1) as r.
  intros r Hr. by apply (step_resume _ _ _ _ _ _ _ _ _ (no_tickets_shown _ _) Hr).
Qed.
Lemma resumed_reached : reaches run_policy resumed_run.
Proof. exact (reaches_step _ _ _ stopped_reached resumed_step). Qed.

Definition read_list {A} (m : WM (list A)) (d : WorkflowDb) : list A :=
  match m d with (Ok l, _) => l | (Err _, _) => [] end.
Lemma resume_accepts_witness :
  read_job (cd_db stopped_run) 1
    (read_list (file_run_starts_for_job 1) (cd_db stopped_run)) (read_list (file_phases_for_job 1) (cd_db stopped_run))
    (read_list (file_run_history_for_job 1) (cd_db stopped_run)) (read_list (file_progress_for_job 1) (cd_db stopped_run))
  /\ exists p, progress (cd_db stopped_run) !! (1, "a"%string) = Some p
    /\ accepted run_policy (cd_db stopped_run) 1
         (read_list (file_run_starts_for_job 1) (cd_db stopped_run)) (read_list (file_phases_for_job 1) (cd_db stopped_run))
         (read_list (file_run_history_for_job 1) (cd_db stopped_run))
         (read_list (file_progress_for_job 1) (cd_db stopped_run)) "a" p.
Proof.
  assert (Hr : read_job (cd_db stopped_run) 1
    (read_list (file_run_starts_for_job 1) (cd_db stopped_run)) (read_list (file_phases_for_job 1) (cd_db stopped_run))
    (read_list (file_run_history_for_job 1) (cd_db stopped_run))
    (read_list (file_progress_for_job 1) (cd_db stopped_run))).
  { constructor; vm_compute; reflexivity. }
  split; [exact Hr|]. destruct (progress (cd_db stopped_run) !! (1, "a"%string)) as [p|] eqn:Hp.
  - exists p. split; [reflexivity|]. by apply (resume_accepts run_policy stopped_run 1 _ _ _ _ stopped_reached Hr).
  - vm_compute in Hp. discriminate Hp.
Defined.

Definition resumed_job : result VoomError (Job * list FilePhaseSummary) * WorkflowDb :=
  open_resumed_run (preparation stopped_run 1) 1 200 (cd_db stopped_run).

Lemma waiting_at_end_refused_witness :
  exists p, progress (cd_db resumed_run) !! (2, "a"%string) = Some p /\ p_state p = ProgressPending
    /\ forall lookup files r d,
         prepare_resume lookup 2 files (phase_count run_policy) (cd_db resumed_run) <> (Ok r, d).
Proof.
  assert (Hx : match progress (cd_db resumed_run) !! (2, "a"%string) with
               | Some p => bool_decide (p_state p = ProgressPending)
                           && (p_next_phase_ordinal p =? phase_count run_policy)
               | None => false end = true) by (vm_compute; reflexivity).
  destruct (progress (cd_db resumed_run) !! (2, "a"%string)) as [p|] eqn:Hp; [|discriminate Hx].
  apply andb_true_iff in Hx as [Hs%bool_decide_eq_true Hn%Z.eqb_eq]. exists p. split; [reflexivity|]. split; [exact Hs|].
  apply (waiting_at_end_refused run_policy resumed_run 2 "a" p resumed_reached Hp Hs). by left.
Defined.

(** The second phase for two files, of which the first one changed only one. *)
#[local] Instance run_hash : Blake3Hex := fun contents => contents.
#[local] Instance run_lowercase : PlanVideo.UnicodeLowercase := fun c => c.
#[local] Instance run_size : SerializedSize := fun _ => Some 100.
#[local] Instance run_millis : DurationMillis := fun _ => None.
Definition check_file (version : Z) (branch : string) (ordinal : Z) (o : FilePhaseOutcome) : PhaseFile := {|
  pf_asset_id := version; pf_version_id := version;
  pf_snapshot := {| ms_id := version; ms_file_version_id := version;
                    ms_payload := JObj [("container"%string, JObj [("format_name"%string, JStr "mp4")]);
                                        ("streams"%string, JArr [JObj [("id"%string, JStr "v0"); ("index"%string, JInt 0);
                                                                       ("kind"%string, JStr "video")]])] |};
  pf_branch_id := branch; pf_ordinal := ordinal; pf_admission_tier := TierPending; pf_resume_ordinal := 0;
  pf_phase_history := {[0 := o]} |}.
Definition check_files : list PhaseFile := [check_file 1 "a" 1 FileCommitted; check_file 2 "b" 2 FileSkipped].
Definition run_draft : PolicyInputSetDraft := {|
  is_slug := lit "run"; is_display_name := lit "Run"; is_schema_version := 1; source_kind := SourceImported;
  is_created_at := 0; is_description := None; fixture_labels := []; synthetic_targets := []; media_snapshots := [];
  identity_evidence := []; bundle_targets := []; quality_profiles := []; input_issues := [] |}.
Definition check_phase : Res PlannedPhase :=
  plan_phase_for_files run_policy PlanningContext_default run_draft (lit "check") check_files.
